(* ===== verification/_CoqProject ===== *)
-Q . S2P
Prelude.v
State.v
Supervisor.v
Atomic.v
GoStd.v
GoNet.v
WebStatic.v
Settings.v
Catalog.v
Scheduler.v
Generator.v
FileRefs.v
SubService.v
Rotator.v
History.v
Version.v
SelfUpdate.v
CoreUpdate.v
Manager.v
Routing.v
SysProxy.v
Operations.v
Utf8.v
Capture.v
Web.v
TrustedConfig.v
RuntimeConfig.v
SubEffects.v
SubRequests.v
CoreTx.v
Egress.v
LoggingTx.v
InstallJournal.v
InstallTx.v
InstallSafety.v
InstallRecovery.v
InstallValidated.v
InstallAtomic.v
TunDetect.v
Tun.v
Resources.v
ResourceRecovery.v
ResourceConverge.v
ResourceCommit.v
GeoIP.v
GeoPair.v
GeoUpdate.v
Preferences.v
Panels.v
PanelPointer.v
Archive.v
