(* ===== verification/Prelude.v ===== *)
(** * A model of Mihari, the mihomo manager

    Mihari runs the proxy core mihomo for its user.  A daemon owns the core
    process, its configuration, the subscriptions the configuration is generated
    from, the settings, the system proxy and the log files; a command line, a
    terminal interface and a browser gateway are its clients.  This library
    models the daemon's own logic, in Go under [src/internal], and proves what
    makes each part correct and what the parts guarantee together.

    ** The parts and their files

    State and processes.
    - [State]: [internal/state].  The published snapshot and the coordinator that
      commits mutations one by one and numbers them.
    - [Supervisor]: [internal/supervisor].  The event loop that owns the core
      process: starts, restarts with back-off, stops, updates.
    - [Operations]: the operation table of [internal/runtime/manager.go].

    Files.
    - [Atomic]: [internal/config/atomic.go].  Replacing a file atomically.  Its
      class [AtomicFile] is all that its clients know of files.
    - [Settings]: [internal/config].  Validation, defaults, loading, saving and
      the first start.
    - [Rotator], [Capture], [History]: [internal/logging/rotator.go],
      [capture.go] and [internal/diagnostics/history.go].  Log files, the lines of
      the core's output, and the bounded history of diagnostics.

    Subscriptions and configurations.
    - [Catalog], [SubService], [Scheduler]: [internal/subscription].  The catalog
      of profiles, the service that fetches, commits and rolls back, and the
      scheduler of refreshes.
    - [Resources], [ResourceRecovery], [ResourceConverge], [ResourceCommit]: the
      journals of resource activation in [internal/subscription]
      ([provider_journal.go], [resource_activation.go]) and their recovery.
    - [Generator], [FileRefs]: the configuration generated from a subscription,
      the check at start-up, and the files a subscription refers to.
    - [TrustedConfig]: [internal/core/trusted_runtime.go].  The validated
      configuration of a daemon that runs as root.

    The runtime manager, [internal/runtime].
    - [Manager]: mutation ownership and the transaction that changes settings.
    - [Routing], [SysProxy]: the routing mode and the system proxy.
    - [RuntimeConfig], [SubEffects], [SubRequests]: committing a configuration to
      file, core and routing together, and the requests that change the catalog:
      what they keep together, and what a successful one has done.
    - [CoreTx], [Egress], [LoggingTx]: changes of settings that the running core
      must confirm: the outbound interface, and the level and limits of logs.
    - [Tun], [TunDetect]: [tun.go], [tun_trusted.go] and [internal/tundetect].
      Managed TUN mode, and which adapters and processes are not the daemon's.

    Installation, [internal/app].
    - [InstallJournal]: [install_journal.go] and [install_journal_unix.go].  The
      journal of an installation, its strict decoding and its trusted directory.
    - [InstallTx]: [install_transaction.go], [install_recovery.go],
      [install_lifecycle.go], [install_service_effects.go],
      [install_validation.go], [validation_launch.go] and
      [foreground_bootstrap.go].  The journalled steps, rollback, roll forward,
      validation of the candidate and the first start of a root instance.
    - [InstallSafety], [InstallRecovery], [InstallValidated], [InstallAtomic]:
      the invariant between journal and system, and what it gives.

    Small services.
    - [GeoIP], [GeoPair], [GeoUpdate]: [internal/geoip].  Download, verification and
      joint activation of the two address databases, and lookups.
    - [Panels], [PanelPointer]: [internal/panel].  Installed builds of web panels
      and the pointer to the one that is served.
    - [Archive]: [internal/panel/archive].  Unpacking of the archive of a panel.
    - [Preferences]: [internal/preferences] and [internal/onboarding].  Display
      preferences and the setup marker.

    Updates.
    - [Version], [SelfUpdate]: [internal/update].  Release tags, and finding,
      verifying and installing a release of Mihari.
    - [CoreUpdate]: [internal/core/update_transaction.go].  The journalled
      replacement of the core, and the gate before executing one.

    Gateway.
    - [Web], [WebStatic]: [internal/web].  Requests of browsers: classification,
      authentication, forwarding, static files.

    [GoStd], [GoNet] and [Utf8] hold the documented behaviour of the parts of
    Go's standard library that the code uses.

    ** How code becomes definitions

    A Go function keeps its name; a method is a function of the record that holds
    its receiver's fields.  A function that reads and writes state is a value of
    [st W A]; its early returns are [try!] and [check!].  Errors are values of
    [error], the tree that [errors.As] and [errors.Is] walk.  A mutex or the
    ownership token of the manager makes the code between taking and returning
    it one transition; where a request gives up ownership, [gap] of
    [RuntimeConfig] lets other requests change the whole state.

    Everything outside of the program answers through an environment: the
    [n]-th operation of a run has the outcome the environment gives for [n], and
    may succeed, fail, or fail after it took effect.  A theorem over all
    environments covers every combination of failures, and for the transactions
    on disk a crash is a suffix of failures.  Third-party code is a class of the
    operations that the source calls: [YAML], [CatalogYAML], [DocumentYAML],
    [SourceSyntax], [PEM], [Sha256], [MaxMind], the JSON codecs.  Laws appear only where a
    theorem needs one, each with an instance in a witness.

    Parts rely on one another through classes: [HasStore] (a world that contains
    the snapshot), [AtomicFile] (discharged in [Atomic]) and [SettingsFile]
    (discharged in [Manager] over any [AtomicFile]).  What an installation does to
    the system is the class [Outside], and [Slots] states what is asked of it:
    that observing and applying an action are about the slot the action names.

    ** What the theorems show

    - Revisions: the revision counts the committed mutations, and of two
      mutations conditional on one revision at most one commits.
    - Processes: at most one core runs; a stop that cannot be confirmed blocks
      further starts; a crashed core is restarted; back-off is bounded.
    - Files: an atomic write leaves the old or the new content at every point;
      settings and catalogs load back as saved; the first start ends by its deadline.
    - Transactions: a refresh, a change of the catalog, of the routing, of TUN, of
      the system proxy or of the configuration either completes, or is taken back, or
      says that recovery is needed and refuses further mutations.
      [SubRequests.requests_keep_parts_together] states it across file, core,
      catalog and published state, with what each successful request has done: the
      core runs what is generated from the document of the active subscription.
    - Updates: only verified bytes are installed; the update of the core is all
      or nothing across crashes, and an undecided one is never executed.
    - Installation: whatever fails, a recovery that succeeds leaves everything as
      it was, or beside a complete journal on disk all of whose recorded actions are
      done; however a run ends, the target gets the authority only after its binary
      validated itself; a root instance runs only beside an activated journal.
    - Configurations: the fields the daemon manages win over whatever a
      subscription says; only validated bytes are published and run.
    - Gateway: a browser without the credential has no effect; with the header
      handling of the reverse proxy, a forwarded request carries the controller's
      secret as its only Authorization and no header with the secret in it reaches the
      browser; static files stay inside their panel.
    - Recovery of activations: however often recovery is interrupted, an attempt
      without faults leaves the old files, or the new ones if the journal is done,
      where old and new files can be told apart.
    - Small services: the address databases change as a pair and only verified ones
      are used; the pointer to the active panel names complete builds while its
      writes are not reported as failed; an archive is
      unpacked only below its directory and within its limits; preferences that were
      accepted are read back at the next start.
    - Logs: rotation keeps the newest files in order, captured lines do not
      depend on how the output was cut, the history refines an unbounded log.

    ** Bounds

    Loops of the source that have a bound keep it: the waiting rounds of the
    first start, the two retries of a setup request, the pages of the history.
    Fuel stands only where a loop ends with its input, as in the splitting of
    strings and the capture of lines, and is the length of that input; lemmas show
    that it suffices.  Integers are
    [Z] with the wrap-around of [int64] and [uint64] where the code can reach it.

    ** Not modelled

    System calls, sockets, HTTP transfers and process creation appear only as
    outcomes.  The control protocol's server and client, the command line, the
    terminal interface and the release tools are left out: they present or
    transport what the daemon does.  Of the installation the adapters of systemd
    and launchd, the migration of old data and the child's half of the validation
    handshake are left out; they are sequences of system calls or conversions of
    old formats.  Of the logs, redaction is left out because it is a list of
    regular expressions whose engine would have to be modelled first, and export
    because it is archive and JSON formatting.  Of the runtime the
    requests that only hand over to a service are left out.

    ** This file

    - [error]: Go error values.  The code only ever inspects an error with
      [errors.As(err, &api)] (which [protocol.APIError] does it carry, and is
      its detail "degraded" set) and [errors.Is(err, sentinel)]; the type keeps
      exactly the tree those two walk.
    - [st W A]: a Go function that reads and writes the state [W] and returns
      [A], with the notation [let! x := m in k].
    - [int64], [uint64]: the wrap-around of Go's machine integers.
    - generic list and integer lemmas, tactics and the hint database [mihari]. *)

From stdpp Require Export base gmap strings list sets.
From Stdlib Require Export ZArith Lia.

Open Scope Z_scope.

Declare Scope go_scope.
Delimit Scope go_scope with go.
Open Scope go_scope.

(** ** Machine integers *)

Definition two63 : Z := 2 ^ 63.
Definition two64 : Z := 2 ^ 64.

(** Conversion of a mathematical integer to Go's [int64] and [uint64]. *)
Definition int64 (z : Z) : Z := (z + two63) mod two64 - two63.
Definition uint64 (z : Z) : Z := z mod two64.

Definition in_int64 (z : Z) : Prop := - two63 <= z < two63.
Definition in_uint64 (z : Z) : Prop := 0 <= z < two64.

(** ** Errors *)

Inductive ErrorCode :=
| CodeInvalidArgument
| CodeDaemonUnavailable
| CodeInvalidState
| CodePermissionDenied
| CodeRevisionConflict
| CodeUpstreamFailure
| CodeNetworkFailure
| CodeDataFailure
| CodeInternal
| CodeManagedField
| CodeManagedOperation
| CodeUnsupportedMutation
| CodeSystemProxyConflict
| CodeSystemProxyNotOwned
| CodeTunConflict.

#[export] Instance ErrorCode_eq_dec : EqDecision ErrorCode.
Proof. solve_decision. Defined.

(** [protocol.APIError].  Of the [Details] map only the entry "degraded" is ever
    read back by the daemon; [api_degraded] is [Details["degraded"] == true]. *)
Record APIError := mkAPIError {
  api_code : ErrorCode;
  api_message : string;
  api_degraded : bool
}.

#[export] Instance APIError_eq_dec : EqDecision APIError.
Proof. solve_decision. Defined.

(** The sentinels the code compares with [errors.Is]. *)
Inductive sentinel :=
| ErrCanceled        (** [context.Canceled] *)
| ErrDeadline        (** [context.DeadlineExceeded] *)
| ErrNotExist        (** [os.ErrNotExist] *)
| ErrExist           (** [os.ErrExist] *)
| ErrInvalid         (** [os.ErrInvalid] *)
| ErrPermission      (** [os.ErrPermission] *)
| ErrClosed          (** [os.ErrClosed] *)
| ErrRefreshChanged  (** [subscription.ErrRefreshChanged] *)
| ErrPreparationChanged (** [errors.As] with [runtime.setupPreparationChanged] *)
| ErrStaleRefreshFailure (** [subscription.errStaleRefreshFailure] *)
| ErrUnavailable     (** [geoip.ErrUnavailable] *)
| ErrInvalidAddress  (** [geoip.ErrInvalidAddress] *)
| ErrStaleCandidate  (** [geoip.ErrStaleCandidate] *)
| ErrInvalidColumns  (** [preferences.ErrInvalidColumns] *)
| ErrInvalidLogLevels (** [preferences.ErrInvalidLogLevels] *)
| ErrInvalidLatencyConcurrency. (** [preferences.ErrInvalidLatencyConcurrency] *)

#[export] Instance sentinel_eq_dec : EqDecision sentinel.
Proof. solve_decision. Defined.

(** Error values: an [APIError], a sentinel, a plain text error, an error
    wrapped by [fmt.Errorf("...: %w")], by [diagnostics.Wrap] (the public API
    error with its cause) and a pair built by [errors.Join]. *)
Inductive error :=
| EAPI (a : APIError)
| ESentinel (s : sentinel)
| EText (message : string)
| EFmt (message : string) (cause : error)
| EWrap (a : APIError) (cause : error)
| EJoin (e1 e2 : error).

Definition api_error (c : ErrorCode) (m : string) : error := EAPI (mkAPIError c m false).
Definition degraded_api (c : ErrorCode) (m : string) : APIError := mkAPIError c m true.

(** [errors.As(err, &api)]: the first API error of the depth-first walk.
    [ErrRefreshChanged] and [ErrPreparationChanged] unwrap to a revision
    conflict. *)
Fixpoint errors_As (e : error) : option APIError :=
  match e with
  | EAPI a => Some a
  | ESentinel ErrRefreshChanged =>
      Some (mkAPIError CodeRevisionConflict "subscription changed while refresh was in progress" false)
  | ESentinel ErrPreparationChanged =>
      Some (mkAPIError CodeRevisionConflict "inputs changed during setup preparation" false)
  | ESentinel _ => None
  | EText _ => None
  | EFmt _ c => errors_As c
  | EWrap a _ => Some a
  | EJoin e1 e2 => match errors_As e1 with Some a => Some a | None => errors_As e2 end
  end.

(** [errors.Is(err, s)]. *)
Fixpoint errors_Is (e : error) (s : sentinel) : bool :=
  match e with
  | EAPI _ => false
  | ESentinel s' => bool_decide (s' = s)
  | EText _ => false
  | EFmt _ c => errors_Is c s
  | EWrap _ c => errors_Is c s
  | EJoin e1 e2 => errors_Is e1 s || errors_Is e2 s
  end.

(** [diagnostics.Wrap]: a nil cause leaves the API error alone. *)
Definition diagnostics_Wrap (a : APIError) (cause : option error) : error :=
  match cause with None => EAPI a | Some c => EWrap a c end.

(** [errors.Join]: nil errors are dropped, all-nil joins to nil. *)
Definition errors_Join (a b : option error) : option error :=
  match a, b with
  | None, _ => b
  | _, None => a
  | Some x, Some y => Some (EJoin x y)
  end.

(** [errors.As(err, &api) && api.Details["degraded"] == true]. *)
Definition error_degraded (e : error) : bool :=
  match errors_As e with Some a => api_degraded a | None => false end.

Definition oerror_degraded (e : option error) : bool :=
  match e with Some e => error_degraded e | None => false end.

(** A Go [(T, error)] pair, of which the code uses one side. *)
Inductive result (A : Type) :=
| Ok (a : A)
| Err (e : error).
Arguments Ok {A} a.
Arguments Err {A} e.

Definition is_Ok {A} (r : result A) : bool := match r with Ok _ => true | Err _ => false end.

(** ** State-passing functions *)

Definition st (W A : Type) : Type := W -> A * W.
Definition st_ret {W A} (a : A) : st W A := fun w => (a, w).
Definition st_bind {W A B} (m : st W A) (k : A -> st W B) : st W B :=
  fun w => let '(a, w') := m w in k a w'.
Definition st_get {W} : st W W := fun w => (w, w).
Definition st_modify {W} (f : W -> W) : st W unit := fun w => (tt, f w).

Notation "'let!' x ':=' m 'in' k" := (st_bind m (fun x => k))
  (at level 10, x name, m at level 100, k at level 200) : go_scope.
Notation "'let!' ' p ':=' m 'in' k" := (st_bind m (fun x => match x with p => k end))
  (at level 10, p pattern, m at level 100, k at level 200) : go_scope.
Notation "'do!' m 'in' k" := (st_bind m (fun _ => k))
  (at level 10, m at level 100, k at level 200) : go_scope.

(** Fallible steps: return the error of [m], or go on with its value. *)
Definition st_try {W A B} (m : st W (result A)) (k : A -> st W (result B)) : st W (result B) :=
  st_bind m (fun r => match r with Ok a => k a | Err e => st_ret (Err e) end).
Definition st_check {W B} (m : st W (option error)) (k : st W (result B)) : st W (result B) :=
  st_bind m (fun r => match r with None => k | Some e => st_ret (Err e) end).

Notation "'try!' x ':=' m 'in' k" := (st_try m (fun x => k))
  (at level 10, x name, m at level 100, k at level 200) : go_scope.
Notation "'try!' ' p ':=' m 'in' k" := (st_try m (fun x => match x with p => k end))
  (at level 10, p pattern, m at level 100, k at level 200) : go_scope.
Notation "'check!' m 'in' k" := (st_check m k)
  (at level 10, m at level 100, k at level 200) : go_scope.

(** ** Outcomes of an operation of the environment

    File-system and controller calls of the outside world may fail.  A [fault]
    says how one call goes: it succeeds, it fails without effect, or it fails
    after its effect (a directory sync after a rename, a lost response).  The
    models take a list of faults, one per call, so a theorem over all lists
    covers every behaviour of the environment. *)
Inductive fault :=
| FOk
| FErr (e : error)
| FLate (e : error).

Definition fault_error (f : fault) : option error :=
  match f with FOk => None | FErr e | FLate e => Some e end.

Definition fault_effect (f : fault) : bool :=
  match f with FErr _ => false | _ => true end.

(** ** Tactics and hints *)

Create HintDb mihari.

(** Case analysis on the first boolean test, decision or match of the goal. *)
Ltac case_if :=
  match goal with
  | |- context [if ?b then _ else _] => destruct b eqn:?
  end.

(** The same for a hypothesis. *)
Ltac case_if_in H :=
  match type of H with
  | context [if ?b then _ else _] => destruct b eqn:?
  end.

(** Case analysis on a [match] of a hypothesis. *)
Ltac case_match_in H :=
  match type of H with
  | context [match ?x with _ => _ end] => destruct x eqn:?
  end.

(** Boolean tests on integers and strings as propositions. *)
Ltac breflect :=
  repeat match goal with
  | H : _ && _ = true |- _ => apply andb_true_iff in H; destruct H
  | H : _ || _ = false |- _ => apply orb_false_iff in H; destruct H
  | H : negb _ = true |- _ => apply negb_true_iff in H
  | H : negb _ = false |- _ => apply negb_false_iff in H
  | H : (_ <? _) = true |- _ => apply Z.ltb_lt in H
  | H : (_ <? _) = false |- _ => apply Z.ltb_ge in H
  | H : (_ <=? _) = true |- _ => apply Z.leb_le in H
  | H : (_ <=? _) = false |- _ => apply Z.leb_gt in H
  | H : (_ =? _) = true |- _ => apply Z.eqb_eq in H
  | H : (_ =? _) = false |- _ => apply Z.eqb_neq in H
  | H : String.eqb _ _ = true |- _ => apply String.eqb_eq in H
  | H : String.eqb _ _ = false |- _ => apply String.eqb_neq in H
  | H : bool_decide _ = true |- _ => apply bool_decide_eq_true in H
  | H : bool_decide _ = false |- _ => apply bool_decide_eq_false in H
  end.

(** Unfold the state monad and compute. *)
Ltac st_unfold := unfold st_bind, st_ret, st_get, st_modify in *.

(** ** Lemmas on state-passing functions *)

Lemma st_bind_inv {W A B} (m : st W A) (k : A -> st W B) (w w' : W) (b : B) :
  st_bind m k w = (b, w') -> exists a w1, m w = (a, w1) /\ k a w1 = (b, w').
Proof. unfold st_bind. destruct (m w) as [a w1]. intros. by exists a, w1. Qed.

Lemma st_try_inv {W A B} (m : st W (result A)) (k : A -> st W (result B)) (w w' : W) (r : result B) :
  st_try m k w = (r, w') ->
  (exists e, r = Err e /\ m w = (Err e, w')) \/ (exists a w1, m w = (Ok a, w1) /\ k a w1 = (r, w')).
Proof.
  unfold st_try, st_bind. destruct (m w) as [[a|e] w1] eqn:Hm; intros Hk; [right; eauto|left].
  injection Hk as <- <-. eauto.
Qed.

Lemma st_check_inv {W B} (m : st W (option error)) (k : st W (result B)) (w w' : W) (r : result B) :
  st_check m k w = (r, w') ->
  (exists e, r = Err e /\ m w = (Some e, w')) \/ (exists w1, m w = (None, w1) /\ k w1 = (r, w')).
Proof.
  unfold st_check, st_bind. destruct (m w) as [[e|] w1] eqn:Hm; intros Hk; [left|right; eauto].
  injection Hk as <- <-. eauto.
Qed.

(** A property of the state that a computation does not lose. *)
Definition preserves {W A} (P : W -> Prop) (m : st W A) : Prop := forall w w' a, m w = (a, w') -> P w -> P w'.

Section Preserves.
Context {W : Type} (P : W -> Prop).

Lemma preserves_ret {A} (a : A) : preserves P (st_ret a).
Proof. by intros w w' b [= _ <-]. Qed.

Lemma preserves_get : preserves P st_get.
Proof. by intros w w' b [= _ <-]. Qed.

Lemma preserves_modify (f : W -> W) : (forall w, P w -> P (f w)) -> preserves P (st_modify f).
Proof. intros Hf w w' b [= _ <-]. apply Hf. Qed.

Lemma preserves_bind {A B} (m : st W A) (k : A -> st W B) :
  preserves P m -> (forall a, preserves P (k a)) -> preserves P (st_bind m k).
Proof. intros Hm Hk w w' b Hb Hw. apply st_bind_inv in Hb as (a & w1 & Ha & Hb). eapply Hk; [exact Hb|]. by eapply Hm. Qed.

Lemma preserves_try {A B} (m : st W (result A)) (k : A -> st W (result B)) :
  preserves P m -> (forall a, preserves P (k a)) -> preserves P (st_try m k).
Proof. intros Hm Hk. apply preserves_bind; [done|]. intros [a|x]; [apply Hk|apply preserves_ret]. Qed.

Lemma preserves_check {B} (m : st W (option error)) (k : st W (result B)) :
  preserves P m -> preserves P k -> preserves P (st_check m k).
Proof. intros Hm Hk. apply preserves_bind; [done|]. intros [x|]; [apply preserves_ret|apply Hk]. Qed.

End Preserves.

Create HintDb preserves.
#[export] Hint Resolve preserves_ret preserves_get : preserves.

(** Goes through the structure of a computation; the steps are in the hints. *)
Ltac solve_preserves :=
  repeat first
    [ progress intros
    | progress auto with preserves nocore
    | apply preserves_bind | apply preserves_try | apply preserves_check
    | progress case_match ].

(** ** Integer lemmas *)

Lemma int64_id (z : Z) : in_int64 z -> int64 z = z.
Proof.
  unfold in_int64, int64, two63, two64. intros H.
  rewrite Z.mod_small by lia. lia.
Qed.

Lemma int64_range (z : Z) : in_int64 (int64 z).
Proof.
  unfold in_int64, int64, two63, two64.
  pose proof (Z.mod_pos_bound (z + 2 ^ 63) (2 ^ 64)). lia.
Qed.

Lemma uint64_id (z : Z) : in_uint64 z -> uint64 z = z.
Proof. unfold in_uint64, uint64. intros. by apply Z.mod_small. Qed.

Lemma uint64_range (z : Z) : in_uint64 (uint64 z).
Proof. unfold in_uint64, uint64, two64. apply Z.mod_pos_bound. lia. Qed.

Lemma uint64_succ_inj (z k : Z) :
  0 < k < two64 -> uint64 (z + k) <> uint64 z.
Proof.
  unfold uint64, two64. intros Hk Heq.
  assert (Hm : (z + k - z) mod 2 ^ 64 = 0).
  { rewrite Zminus_mod, Heq, Z.sub_diag. reflexivity. }
  replace (z + k - z) with k in Hm by lia.
  rewrite Z.mod_small in Hm; lia.
Qed.

Lemma uint64_add_l (a b : Z) : uint64 (uint64 a + b) = uint64 (a + b).
Proof. unfold uint64. by rewrite Zplus_mod_idemp_l. Qed.

(** Doubling an [int64] wraps to a negative number exactly on overflow. *)
Lemma int64_double_overflow (c : Z) :
  0 < c < two63 -> two63 <= 2 * c -> int64 (c * 2) < c.
Proof.
  unfold int64, two63, two64. intros H1 H2.
  replace (c * 2 + 2 ^ 63) with (c * 2 - 2 ^ 63 + 1 * 2 ^ 64) by lia.
  rewrite Z.mod_add by lia. rewrite Z.mod_small by lia. lia.
Qed.

#[export] Hint Resolve int64_range uint64_range : mihari.

(** ** Error lemmas *)

Lemma errors_Join_None (a b : option error) :
  errors_Join a b = None <-> a = None /\ b = None.
Proof. destruct a, b; simpl; naive_solver. Qed.

Lemma oerror_degraded_join_l (a : error) (b : option error) :
  error_degraded a = true -> oerror_degraded (errors_Join (Some a) b) = true.
Proof.
  unfold error_degraded, oerror_degraded. destruct b as [b|]; simpl; [|done].
  unfold error_degraded. simpl. by destruct (errors_As a).
Qed.

#[export] Hint Resolve oerror_degraded_join_l : mihari.

(** ** List lemmas *)

Lemma fold_left_inv {A B} (P : A -> Prop) (f : A -> B -> A) (l : list B) (a : A) :
  P a -> (forall a b, P a -> P (f a b)) -> P (fold_left f l a).
Proof. revert a. induction l as [|b l IH]; simpl; intros; eauto. Qed.

Lemma nodup_map_inj {A B} (f : A -> B) (l : list A) (x y : A) :
  NoDup (map f l) -> x ∈ l -> y ∈ l -> f x = f y -> x = y.
Proof.
  induction l as [|z l IH]; simpl; [set_solver|].
  rewrite NoDup_cons. intros [Hz Hnd] Hx Hy Heq.
  assert (Hin : forall w, w ∈ l -> f w ∈ map f l).
  { intros w Hw. apply list_elem_of_In, in_map, list_elem_of_In, Hw. }
  apply elem_of_cons in Hx as [->|Hx]; apply elem_of_cons in Hy as [->|Hy]; auto.
  - exfalso. apply Hz. rewrite Heq. auto.
  - exfalso. apply Hz. rewrite <- Heq. auto.
Qed.

(** ** String lemmas *)

Lemma append_length (a b : string) :
  String.length (a ++ b) = (String.length a + String.length b)%nat.
Proof. induction a as [|c a IH]; [done|]. exact (f_equal S IH). Qed.

Lemma append_inj_r (p a b : string) : (p ++ a)%string = (p ++ b)%string -> a = b.
Proof. induction p as [|c p IH]; [done|]. intros H. injection H as H. by apply IH. Qed.

(** ** Text of a number

    A line that holds the bits of a number.  With the encoding of countable types
    it makes codecs for the examples. *)

Definition line_end : string := String (Ascii.ascii_of_nat 10) "".

Fixpoint bits_text (p : positive) : string :=
  match p with
  | xH => ""
  | xO p => String (Ascii.ascii_of_nat 48) (bits_text p)
  | xI p => String (Ascii.ascii_of_nat 49) (bits_text p)
  end.

Fixpoint text_bits (s : string) : positive :=
  match s with
  | EmptyString => xH
  | String c s => if Ascii.eqb c (Ascii.ascii_of_nat 48) then xO (text_bits s)
                 else if Ascii.eqb c (Ascii.ascii_of_nat 49) then xI (text_bits s) else xH
  end.

Lemma text_bits_text p : text_bits (bits_text p ++ line_end) = p.
Proof. induction p as [p IH|p IH|]; simpl; [by f_equal|by f_equal|done]. Qed.
