(* ===== verification/State.v ===== *)
(** * State: the snapshot store and the revision coordinator

    Models [internal/state] ([store.go], [coordinator.go]).  The store holds one
    snapshot behind an atomic pointer; [Load] and [Store] clone the only mutable
    part (the subscription slice), so a snapshot is a value and the model keeps
    it as one.  [Coordinator.Do] runs a mutation under its mutex: the model is
    the sequential function each call executes, and a list of calls is the order
    in which they took the mutex.

    The mutations of [internal/runtime] change more than the snapshot (settings,
    catalogs, files), so [Do] is stated over any world [W] that contains the
    store: the class [HasStore]. *)

From S2P Require Import Prelude.

Definition HealthOK : string := "ok".
Definition HealthDegraded : string := "degraded".

Record ConfigState := mkConfigState {
  cfg_Status : string;
  cfg_DesiredRevision : Z;
  cfg_ObservedRevision : Z;
  cfg_LastError : string
}.

Record SubscriptionState := mkSubscriptionState {
  sst_ID : string;
  sst_Name : string;
  sst_Enabled : bool;
  sst_AutoRefresh : bool;
  sst_Interval : string;
  sst_Cached : bool;
  sst_Generation : Z;
  sst_UpdatedAt : Z;
  sst_LastError : string
}.

Record CoreState := mkCoreState {
  core_Status : string;
  core_Version : string;
  core_Channel : string;
  core_AlphaSHA : string;
  core_PID : Z;
  core_Restarts : Z;
  core_LastError : string;
  core_NextRetryAt : Z;
  core_StartedAt : Z
}.

Record Snapshot := mkSnapshot {
  Revision : Z;
  Version : string;
  StartedAt : Z;
  Health : string;
  LastError : string;
  Core : CoreState;
  Config : ConfigState;
  ActiveSubscription : string;
  Subscriptions : list SubscriptionState
}.

Definition zero_CoreState : CoreState := mkCoreState "" "" "" "" 0 0 "" 0 0.
Definition zero_ConfigState : ConfigState := mkConfigState "" 0 0 "".
Definition zero_Snapshot : Snapshot :=
  mkSnapshot 0 "" 0 "" "" zero_CoreState zero_ConfigState "" [].

Definition with_Revision (r : Z) (s : Snapshot) : Snapshot :=
  mkSnapshot r (Version s) (StartedAt s) (Health s) (LastError s) (Core s) (Config s)
    (ActiveSubscription s) (Subscriptions s).
Definition with_Health (h e : string) (s : Snapshot) : Snapshot :=
  mkSnapshot (Revision s) (Version s) (StartedAt s) h e (Core s) (Config s)
    (ActiveSubscription s) (Subscriptions s).
Definition with_Core (c : CoreState) (s : Snapshot) : Snapshot :=
  mkSnapshot (Revision s) (Version s) (StartedAt s) (Health s) (LastError s) c (Config s)
    (ActiveSubscription s) (Subscriptions s).
Definition with_Config (c : ConfigState) (s : Snapshot) : Snapshot :=
  mkSnapshot (Revision s) (Version s) (StartedAt s) (Health s) (LastError s) (Core s) c
    (ActiveSubscription s) (Subscriptions s).
Definition with_Subscriptions (a : string) (l : list SubscriptionState) (s : Snapshot) : Snapshot :=
  mkSnapshot (Revision s) (Version s) (StartedAt s) (Health s) (LastError s) (Core s) (Config s)
    a l.

(** ** The store *)

(** A world that contains the store. *)
Class HasStore (W : Type) := {
  Load : W -> Snapshot;
  Store : Snapshot -> W -> W;
  Load_Store : forall s w, Load (Store s w) = s
}.

(** The store alone. *)
#[export] Instance HasStore_Snapshot : HasStore Snapshot :=
  {| Load := fun s => s; Store := fun s _ => s; Load_Store := fun s w => eq_refl |}.

(** ** The coordinator *)

Record CommandMeta := mkCommandMeta {
  cmd_ID : string;
  cmd_Source : string;
  IfRevision : option Z
}.

(** What a mutation reports: an ordinary error, or a [CommittedError] whose
    snapshot must be stored although the caller receives the error. *)
Inductive mutation_error :=
| Ordinary (e : error)
| CommittedError (e : error).

Definition Mutation (W : Type) : Type := Snapshot -> st W (Snapshot * option mutation_error).

Definition revisionConflict : error := api_error CodeRevisionConflict "state revision changed".

(** [Coordinator.Do].  [ctxErr] is [ctx.Err()] at entry. *)
Definition Do {W} `{HasStore W} (ctxErr : option error) (meta : CommandMeta)
    (mutate : Mutation W) : st W (Snapshot * option error) :=
  match ctxErr with
  | Some e => st_ret (zero_Snapshot, Some e)
  | None =>
      let! w := st_get in
      let current := Load w in
      let stale := match IfRevision meta with
                   | Some r => negb (r =? Revision current)
                   | None => false
                   end in
      if stale then st_ret (zero_Snapshot, Some revisionConflict)
      else
        let! '(next, err) := mutate current in
        match err with
        | Some (CommittedError e) =>
            let next := with_Revision (uint64 (Revision current + 1)) next in
            do! st_modify (Store next) in
            st_ret (next, Some (EFmt "apply mutation" e))
        | Some (Ordinary e) => st_ret (zero_Snapshot, Some (EFmt "apply mutation" e))
        | None =>
            let next := with_Revision (uint64 (Revision current + 1)) next in
            do! st_modify (Store next) in
            st_ret (next, None)
        end
  end.

(** One call as issued by a client. *)
Record command (W : Type) := mkCommand {
  c_ctxErr : option error;
  c_meta : CommandMeta;
  c_mutate : Mutation W
}.
Arguments mkCommand {W}.
Arguments c_ctxErr {W}.
Arguments c_meta {W}.
Arguments c_mutate {W}.

Definition Do_command {W} `{HasStore W} (c : command W) : st W (Snapshot * option error) :=
  Do (c_ctxErr c) (c_meta c) (c_mutate c).

(** Did the call write the store?  Decided from the call and the state it ran
    in, not from the answer. *)
Definition commits {W} `{HasStore W} (c : command W) (w : W) : bool :=
  match c_ctxErr c with
  | Some _ => false
  | None =>
      match IfRevision (c_meta c) with
      | Some r => r =? Revision (Load w)
      | None => true
      end &&
      match snd (fst (c_mutate c (Load w) w)) with
      | Some (Ordinary _) => false
      | _ => true
      end
  end.

(** The calls in the order in which they take the mutex, with the number of
    those that wrote the store. *)
Fixpoint run_commands {W} `{HasStore W} (cs : list (command W)) (w : W) : Z * W :=
  match cs with
  | [] => (0, w)
  | c :: cs =>
      let k := if commits c w then 1 else 0 in
      let w' := snd (Do_command c w) in
      let '(n, w'') := run_commands cs w' in
      (k + n, w'')
  end.

(** A mutation runs under the coordinator's mutex and does not write the store
    itself: it returns the snapshot to be stored. *)
Definition keeps_store {W} `{HasStore W} (m : Mutation W) : Prop :=
  forall s w, Load (snd (m s w)) = Load w.

(** ** Lemmas *)

Section Coordinator.
Context {W : Type} `{HasStore W}.

(** The revision after one call: one more if it wrote the store, unchanged if
    it did not. *)
Lemma Do_command_revision (c : command W) (w : W) :
  keeps_store (c_mutate c) ->
  Revision (Load (snd (Do_command c w))) =
    if commits c w then uint64 (Revision (Load w) + 1) else Revision (Load w).
Proof.
  intros Hk. unfold Do_command, Do, commits. st_unfold.
  destruct (c_ctxErr c); [done|].
  destruct (IfRevision (c_meta c)) as [r|]; [destruct (r =? _) eqn:E|]; simpl; try done.
  all: specialize (Hk (Load w) w); destruct (c_mutate c (Load w) w) as [[next [[e|e]|]] w'];
    simpl in *; rewrite ?Load_Store; simpl; congruence.
Qed.

(** A call that does not write the store reports an error. *)
Lemma Do_command_rejects (c : command W) (w : W) :
  commits c w = false -> snd (fst (Do_command c w)) <> None.
Proof.
  unfold Do_command, Do, commits. st_unfold.
  destruct (c_ctxErr c); [done|].
  destruct (IfRevision (c_meta c)) as [r|]; [destruct (r =? _) eqn:E|]; simpl; try done.
  all: destruct (c_mutate c (Load w) w) as [[next [[e|e]|]] w']; simpl; done.
Qed.

Lemma run_commands_count (cs : list (command W)) (w : W) :
  0 <= fst (run_commands cs w) <= Z.of_nat (length cs).
Proof.
  revert w. induction cs as [|c cs IH]; intros w; simpl; [lia|].
  specialize (IH (snd (Do_command c w))).
  destruct (run_commands cs (snd (Do_command c w))). destruct (commits c w); simpl in *; lia.
Qed.

Lemma run_commands_revision_aux (cs : list (command W)) (w : W) :
  Forall (fun c => keeps_store (c_mutate c)) cs ->
  uint64 (Revision (Load (snd (run_commands cs w)))) =
    uint64 (Revision (Load w) + fst (run_commands cs w)).
Proof.
  intros Hall. revert w. induction Hall as [|c cs Hc Hall IH]; intros w; simpl.
  { by rewrite Z.add_0_r. }
  specialize (IH (snd (Do_command c w))).
  pose proof (Do_command_revision c w Hc) as Hr.
  destruct (run_commands cs (snd (Do_command c w))) as [n w''] eqn:E. simpl in *.
  rewrite IH, Hr. destruct (commits c w); simpl; [|done].
  rewrite uint64_add_l. f_equal. lia.
Qed.

(** A conditional call whose revision is not current is refused and leaves the
    world as it was. *)
Lemma Do_stale (c : command W) (w : W) (r : Z) :
  c_ctxErr c = None -> IfRevision (c_meta c) = Some r -> r <> Revision (Load w) ->
  Do_command c w = ((zero_Snapshot, Some revisionConflict), w).
Proof.
  intros Hctx Hif Hne. unfold Do_command, Do. rewrite Hctx, Hif. st_unfold.
  apply Z.eqb_neq in Hne. rewrite Hne. done.
Qed.

Lemma run_commands_revision (cs : list (command W)) (w : W) :
  Forall (fun c => keeps_store (c_mutate c)) cs ->
  in_uint64 (Revision (Load w)) ->
  Revision (Load (snd (run_commands cs w))) =
    uint64 (Revision (Load w) + fst (run_commands cs w)).
Proof.
  intros Hall Hin. rewrite <- run_commands_revision_aux by done.
  symmetry. apply uint64_id.
  revert w Hin. induction Hall as [|c cs Hc Hall IH]; intros w Hin; simpl; [done|].
  pose proof (Do_command_revision c w Hc) as Hr.
  specialize (IH (snd (Do_command c w))).
  destruct (run_commands cs (snd (Do_command c w))) as [n w'']. simpl in *.
  apply IH. rewrite Hr. destruct (commits c w); auto with mihari.
Qed.

(** C6. The revision counts the committed mutations: after any sequence of
    calls to [Coordinator.Do] the stored revision is the initial one plus the
    number of calls that wrote the store, modulo the 64-bit width; a further
    call that writes nothing keeps that revision and reports an error. *)
Theorem revision_counts_commits (cs : list (command W)) (c : command W) (w : W) :
  Forall (fun c => keeps_store (c_mutate c)) (c :: cs) ->
  in_uint64 (Revision (Load w)) ->
  let w' := snd (run_commands cs w) in
  Revision (Load w') = uint64 (Revision (Load w) + fst (run_commands cs w)) /\
  (commits c w' = false ->
   Revision (Load (snd (Do_command c w'))) = Revision (Load w') /\
   snd (fst (Do_command c w')) <> None).
Proof.
  intros [Hc Hall]%Forall_cons Hin w'. split; [by apply run_commands_revision|].
  intros Hno. split; [|by apply Do_command_rejects].
  rewrite Do_command_revision, Hno by done. done.
Qed.

(** Optimistic concurrency: if a call conditional on revision [r] commits,
    then after any fewer than 2^64 - 1 further calls another call conditional on
    the same [r] is refused with a revision conflict and changes nothing. *)
Theorem conditional_commit_excludes (first second : command W) (between : list (command W))
    (w : W) (r : Z) :
  Forall (fun c => keeps_store (c_mutate c)) (first :: between) ->
  in_uint64 (Revision (Load w)) ->
  Z.of_nat (length between) < two64 - 1 ->
  IfRevision (c_meta first) = Some r ->
  commits first w = true ->
  c_ctxErr second = None ->
  IfRevision (c_meta second) = Some r ->
  let w' := snd (run_commands (first :: between) w) in
  Do_command second w' = ((zero_Snapshot, Some revisionConflict), w').
Proof.
  intros Hall Hin Hlen Hif Hcom Hctx Hif2 w'. apply (Do_stale _ _ r); [done..|].
  assert (Hr : r = Revision (Load w)).
  { unfold commits in Hcom. rewrite Hif in Hcom. destruct (c_ctxErr first); [done|].
    breflect. done. }
  subst r w'. rewrite run_commands_revision by done.
  pose proof (run_commands_count between (snd (Do_command first w))) as Hn.
  simpl. rewrite Hcom.
  destruct (run_commands between (snd (Do_command first w))) as [n w'']. simpl in *.
  intros Heq. rewrite <- (uint64_id (Revision (Load w))) in Heq at 1 by done.
  symmetry in Heq. apply uint64_succ_inj in Heq; [done|].
  unfold two64 in *. lia.
Qed.

End Coordinator.

(** ** Witnesses *)

Definition put_health (h : string) : Mutation Snapshot :=
  fun s => st_ret (with_Health h "" s, None).
Definition example_command (r : option Z) (h : string) : command Snapshot :=
  mkCommand None (mkCommandMeta "one" "test" r) (put_health h).

Lemma revision_counts_commits_witness :
  Revision (snd (run_commands [example_command (Some 1) "ok"; example_command (Some 1) "wrong"]
                              (with_Revision 1 zero_Snapshot))) = 2.
Proof.
  pose proof (revision_counts_commits
    [example_command (Some 1) "ok"; example_command (Some 1) "wrong"]
    (example_command (Some 1) "wrong") (with_Revision 1 zero_Snapshot)) as Hc.
  destruct Hc as [Hc _].
  - repeat constructor; intros s w; reflexivity.
  - vm_compute; split; congruence.
  - exact Hc.
Defined.

Lemma conditional_commit_excludes_witness :
  let w' := snd (run_commands [example_command (Some 1) "ok"; example_command None "x"]
                              (with_Revision 1 zero_Snapshot)) in
  Do_command (example_command (Some 1) "wrong") w' = ((zero_Snapshot, Some revisionConflict), w').
Proof.
  apply (conditional_commit_excludes (example_command (Some 1) "ok")
           (example_command (Some 1) "wrong") [example_command None "x"]
           (with_Revision 1 zero_Snapshot) 1).
  - repeat constructor; intros s w; reflexivity.
  - vm_compute; split; congruence.
  - vm_compute; reflexivity.
  - reflexivity.
  - reflexivity.
  - reflexivity.
  - reflexivity.
Defined.
