(* ===== verification/Supervisor.v ===== *)
(** * Supervisor: the process supervisor of the mihomo core

    Models [internal/supervisor] ([backoff.go], [supervisor.go], [update.go]).

    The event loop [Supervisor.Run] is a state machine: [phase] is the [select]
    the loop is blocked in, [event] the channel that fires, [step] the code from
    that select to the next one.  What the operating system answers (does a
    start succeed, does a process exit in time, do its health checks pass) is
    read from the lists [starts] and [stops] of the state, so statements over
    all states cover all behaviours of the environment.

    A callback passed to [Update] is an arbitrary program over the session's
    methods: the inductive type [work].

    [alive], [launched] and [stopFailed] are observations of the model that the
    Go code does not store: the processes started and not seen to exit, the
    number of process starts so far, and whether some stop was not confirmed. *)

From S2P Require Import Prelude.

(** ** Restart backoff (backoff.go) *)

Definition time_Second : Z := 1000000000.

Record Backoff := mkBackoff {
  minimum : Z;
  maximum : Z;
  current : Z
}.

Definition NewBackoff (min max : Z) : Backoff :=
  let min := if min <=? 0 then time_Second else min in
  let max := if max <? min then min else max in
  mkBackoff min max 0.

Definition Backoff_Next (b : Backoff) : Z * Backoff :=
  if current b =? 0 then
    (minimum b, mkBackoff (minimum b) (maximum b) (minimum b))
  else
    let next := int64 (current b * 2) in
    let next := if (next <? current b) || (maximum b <? next) then maximum b else next in
    (next, mkBackoff (minimum b) (maximum b) next).

Definition Backoff_Reset (b : Backoff) : Backoff := mkBackoff (minimum b) (maximum b) 0.

(** The delay returned by the [n+1]-st call of [Next]. *)
Fixpoint nth_delay (n : nat) (b : Backoff) : Z :=
  match n with
  | O => fst (Backoff_Next b)
  | S n => nth_delay n (snd (Backoff_Next b))
  end.

(** ** Health monitor (supervisor.go, monitor) *)

Inductive monitor_event :=
| MonRunning                       (** the Running observation is published *)
| MonRecovered                     (** report core.health.recovered *)
| MonRetry (attempt : Z) (e : error) (** report core.health.retry *)
| MonFailed (cause : error).       (** "mihomo health check failed three times" with this
                                       cause is sent to the loop; the monitor ends *)

(** The loop of [monitor]: one list element per completed health check; the list
    ends when a wait between checks is cancelled. *)
Fixpoint monitor_loop (failures : Z) (runningPublished : bool) (checks : list (option error))
    : list monitor_event :=
  match checks with
  | [] => []
  | None :: checks =>
      (if 0 <? failures then [MonRecovered] else []) ++
      (if runningPublished then [] else [MonRunning]) ++
      monitor_loop 0 true checks
  | Some e :: checks =>
      let failures := failures + 1 in
      if 3 <=? failures then [MonFailed e]
      else MonRetry failures e :: monitor_loop failures runningPublished checks
  end.

(** [monitor]: without a health checker Running is published at once; a
    cancelled grace period ends it before the first check. *)
Definition monitor (hasHealth graceCancelled : bool) (checks : list (option error))
    : list monitor_event :=
  if negb hasHealth then [MonRunning]
  else if graceCancelled then []
  else monitor_loop 0 false checks.

(** ** State *)

Inductive Status := StatusStopped | StatusStarting | StatusRunning | StatusBackoff | StatusDegraded.

#[export] Instance Status_eq_dec : EqDecision Status.
Proof. solve_decision. Defined.

Record Observation := mkObservation {
  obs_Status : Status;
  obs_PID : Z;
  obs_Restarts : Z;
  obs_LastError : option error;
  obs_NextRetryAt : Z;
  obs_StartedAt : Z
}.

Definition observation (s : Status) (restarts : Z) (e : option error) : Observation :=
  mkObservation s 0 restarts e 0 0.

(** A child the supervisor owns. *)
Record ownedChild := mkOwnedChild {
  own_PID : Z;
  own_startedAt : Z
}.

(** One attempt of [confirmHealth]: the context error before the check, its
    result, whether the child had exited, the context error after it and the
    result of the wait before the next attempt. *)
Record attempt := mkAttempt {
  at_ctxErr : option error;
  at_health : option error;
  at_joined : option (option error);
  at_ctxAfter : option error;
  at_wait : option error
}.

Record health_outcome := mkHealthOutcome {
  ho_hasHealth : bool;
  ho_joined : option (option error); (** exited already, with its exit error *)
  ho_grace : option error;
  ho_attempts : list attempt
}.

(** What happens when a process is started: [BeforeStart] or [Start] fails, or a
    process with a PID and a start time appears; the health confirmation is used
    by a trial start only. *)
Inductive start_outcome :=
| StartErr (e : error)
| StartOk (child : ownedChild) (health : health_outcome).

(** What happens when a child is stopped: the answer of [Terminate], whether the
    child exits within the stop timeout, the answer of [Kill], and, for a child
    with descendants, the answer of [WaitDescendants]. [so_joined] is the
    already-exited case of [UpdateSession.Stop]. *)
Record stop_outcome := mkStopOutcome {
  so_terminate : option error;
  so_inTime : bool;
  so_kill : option error;
  so_descendants : option (option error);
  so_joined : bool
}.

Definition clean_stop : stop_outcome := mkStopOutcome None true None None false.

Inductive phase :=
| PTop                       (** top of the for loop *)
| PIdle                      (** the select of a blocked or waiting loop *)
| PRun (child : ownedChild)  (** the select of runOwnedChild *)
| PBackoff (delay : Z)       (** the select of waitBackoff *)
| PReturned.                 (** Run has returned *)

Record Supervisor := mkSupervisor {
  ctxDone : bool;
  blocked : bool;
  waiting : bool;
  pending : option ownedChild;
  updateWake : bool;
  restarts : Z;
  backoff : Backoff;
  loopStartedAt : Z;
  at_phase : phase;
  observed : list Observation;
  replies : list (option error);
  starts : list start_outcome;
  stops : list stop_outcome;
  alive : list ownedChild;
  launched : Z;
  stopFailed : bool
}.

Definition set_ctxDone (s : Supervisor) : Supervisor :=
  mkSupervisor true (blocked s) (waiting s) (pending s) (updateWake s) (restarts s) (backoff s)
    (loopStartedAt s) (at_phase s) (observed s) (replies s) (starts s) (stops s) (alive s)
    (launched s) (stopFailed s).
Definition set_blocked (b : bool) (s : Supervisor) : Supervisor :=
  mkSupervisor (ctxDone s) b (waiting s) (pending s) (updateWake s) (restarts s) (backoff s) (loopStartedAt s)
    (at_phase s) (observed s) (replies s) (starts s) (stops s) (alive s) (launched s) (stopFailed s).
Definition set_waiting (b : bool) (s : Supervisor) : Supervisor :=
  mkSupervisor (ctxDone s) (blocked s) b (pending s) (updateWake s) (restarts s) (backoff s) (loopStartedAt s)
    (at_phase s) (observed s) (replies s) (starts s) (stops s) (alive s) (launched s) (stopFailed s).
Definition set_pending (p : option ownedChild) (s : Supervisor) : Supervisor :=
  mkSupervisor (ctxDone s) (blocked s) (waiting s) p (updateWake s) (restarts s) (backoff s) (loopStartedAt s)
    (at_phase s) (observed s) (replies s) (starts s) (stops s) (alive s) (launched s) (stopFailed s).
Definition set_updateWake (b : bool) (s : Supervisor) : Supervisor :=
  mkSupervisor (ctxDone s) (blocked s) (waiting s) (pending s) b (restarts s) (backoff s) (loopStartedAt s)
    (at_phase s) (observed s) (replies s) (starts s) (stops s) (alive s) (launched s) (stopFailed s).
Definition set_loop (r : Z) (b : Backoff) (t : Z) (s : Supervisor) : Supervisor :=
  mkSupervisor (ctxDone s) (blocked s) (waiting s) (pending s) (updateWake s) r b t
    (at_phase s) (observed s) (replies s) (starts s) (stops s) (alive s) (launched s) (stopFailed s).
Definition set_phase (p : phase) (s : Supervisor) : Supervisor :=
  mkSupervisor (ctxDone s) (blocked s) (waiting s) (pending s) (updateWake s) (restarts s) (backoff s)
    (loopStartedAt s) p (observed s) (replies s) (starts s) (stops s) (alive s) (launched s)
    (stopFailed s).
Definition observe (o : Observation) (s : Supervisor) : Supervisor :=
  mkSupervisor (ctxDone s) (blocked s) (waiting s) (pending s) (updateWake s) (restarts s) (backoff s)
    (loopStartedAt s) (at_phase s) (o :: observed s) (replies s) (starts s) (stops s) (alive s)
    (launched s) (stopFailed s).
Definition reply (e : option error) (s : Supervisor) : Supervisor :=
  mkSupervisor (ctxDone s) (blocked s) (waiting s) (pending s) (updateWake s) (restarts s) (backoff s)
    (loopStartedAt s) (at_phase s) (observed s) (e :: replies s) (starts s) (stops s) (alive s)
    (launched s) (stopFailed s).
Definition set_env (sts : list start_outcome) (sps : list stop_outcome) (a : list ownedChild)
    (n : Z) (f : bool) (s : Supervisor) : Supervisor :=
  mkSupervisor (ctxDone s) (blocked s) (waiting s) (pending s) (updateWake s) (restarts s) (backoff s)
    (loopStartedAt s) (at_phase s) (observed s) (replies s) sts sps a n f.

(** ** Errors *)

Definition coreRecoveryRequired : error := api_error CodeInvalidState "core recovery required".

Definition supervisorFailure (message : string) (cause : option error) : error :=
  diagnostics_Wrap (mkAPIError CodeDataFailure message false) cause.

Definition maintenanceDegraded (err : option error) : bool := oerror_degraded err.

Definition idleRejection (s : Supervisor) : error :=
  if blocked s then coreRecoveryRequired
  else api_error CodeInvalidState "mihomo core is not installed".

(** ** Starting and stopping processes *)

(** [Supervisor.start]. *)
Definition start (s : Supervisor) : result (ownedChild * health_outcome) * Supervisor :=
  match starts s with
  | [] => (Err (EText "no process"), s)
  | StartErr e :: sts => (Err e, set_env sts (stops s) (alive s) (launched s) (stopFailed s) s)
  | StartOk c h :: sts =>
      (Ok (c, h), set_env sts (stops s) (c :: alive s) (launched s + 1) (stopFailed s) s)
  end.

Definition exited (c : ownedChild) (a : list ownedChild) : list ownedChild :=
  filter (fun x => own_PID x <> own_PID c) a.

(** [Supervisor.waitDescendants]: only a child with descendants waits; a failure
    blocks the supervisor and publishes the Degraded observation. *)
Definition waitDescendants (d : option (option error)) (s : Supervisor)
    : option error * Supervisor :=
  match d with
  | None | Some None => (None, s)
  | Some (Some e) =>
      let s := set_blocked true s in
      let s := observe (observation StatusDegraded 0
                 (Some (EText "managed core descendants did not exit"))) s in
      (errors_Join (Some coreRecoveryRequired) (Some e), s)
  end.

(** The next stop outcome. *)
Definition pop_stop (s : Supervisor) : stop_outcome * Supervisor :=
  match stops s with
  | [] => (clean_stop, s)
  | o :: sps => (o, set_env (starts s) sps (alive s) (launched s) (stopFailed s) s)
  end.

(** The child is gone when the stop is confirmed; otherwise a process of it may
    still run and [stopFailed] records that. *)
Definition settle_stop (c : ownedChild) (err : option error) (s : Supervisor) : Supervisor :=
  match err with
  | None => set_env (starts s) (stops s) (exited c (alive s)) (launched s) (stopFailed s) s
  | Some _ => set_env (starts s) (stops s) (alive s) (launched s) true s
  end.

(** [Supervisor.stopChild], with its deferred block on error. *)
Definition stopChild (c : ownedChild) (o : stop_outcome) (s : Supervisor)
    : option error * Supervisor :=
  let '(err, s) :=
    if so_inTime o then
      let '(d, s) := waitDescendants (so_descendants o) s in
      (errors_Join (so_terminate o) d, s)
    else match so_kill o with
         | Some e => (Some e, s)
         | None => waitDescendants (so_descendants o) s
         end in
  let s := match err with Some _ => set_blocked true s | None => s end in
  (err, settle_stop c err s).

(** A stop of the child the loop runs. *)
Definition stopRunning (c : ownedChild) (s : Supervisor) : option error * Supervisor :=
  let '(o, s) := pop_stop s in stopChild c o s.

(** ** Update sessions (update.go) *)

Record UpdateSession := mkSession {
  process : option ownedChild;
  wasRunning : bool;
  healthy : bool;
  keepStopped : bool
}.

(** The attempts of [confirmHealth]. *)
Fixpoint confirm_attempts (remaining : nat) (failure : option error) (l : list attempt) : option error :=
  match remaining, l with
  | O, _ => failure
  | S _, [] => failure
  | S remaining, a :: l =>
      match at_ctxErr a with
      | Some e => errors_Join failure (Some e)
      | None =>
          match at_health a with
          | None =>
              match at_joined a with
              | Some exitErr => errors_Join (Some (EText "trial process exited")) exitErr
              | None => at_ctxAfter a
              end
          | Some f =>
              match remaining with
              | O => Some f
              | S _ => match at_wait a with
                       | Some e => errors_Join (Some f) (Some e)
                       | None => confirm_attempts remaining (Some f) l
                       end
              end
          end
      end
  end.

Definition confirmHealth (h : health_outcome) : option error :=
  if negb (ho_hasHealth h) then
    match ho_joined h with
    | Some exitErr => errors_Join (Some (EText "trial process exited")) exitErr
    | None => None
    end
  else match ho_grace h with
       | Some e => Some e
       | None => confirm_attempts 3 None (ho_attempts h)
       end.

(** [UpdateSession.Start]. *)
Definition Session_Start (u : UpdateSession) (s : Supervisor)
    : option error * UpdateSession * Supervisor :=
  if bool_decide (is_Some (process u)) || blocked s then (Some coreRecoveryRequired, u, s)
  else
    match start s with
    | (Err e, s) => (Some (supervisorFailure "mihomo trial start failed" (Some e)), u, s)
    | (Ok (c, h), s) =>
        match confirmHealth h with
        | Some e =>
            (Some (supervisorFailure "mihomo trial health check failed" (Some e)),
             mkSession (Some c) (wasRunning u) (healthy u) (keepStopped u), s)
        | None => (None, mkSession (Some c) (wasRunning u) true (keepStopped u), s)
        end
    end.

(** [UpdateSession.Stop]. *)
Definition Session_Stop (u : UpdateSession) (s : Supervisor)
    : option error * UpdateSession * Supervisor :=
  match process u with
  | None => (None, u, s)
  | Some c =>
      let '(o, s) := pop_stop s in
      let '(err, s) :=
        if so_joined o then
          let '(d, s) := waitDescendants (so_descendants o) s in (d, settle_stop c d s)
        else stopChild c o s in
      match err with
      | Some e => (Some e, u, s)
      | None => (None, mkSession None (wasRunning u) false (keepStopped u), s)
      end
  end.

(** The callback of an update: a program over the session's methods. *)
Inductive work :=
| WReturn (err : option error)
| WStart (k : option error -> work)
| WStop (k : option error -> work)
| WPID (k : Z -> work)
| WKeepStopped (k : work).

Fixpoint run_work (w : work) (u : UpdateSession) (s : Supervisor)
    : option error * UpdateSession * Supervisor :=
  match w with
  | WReturn err => (err, u, s)
  | WStart k => let '(err, u, s) := Session_Start u s in run_work (k err) u s
  | WStop k => let '(err, u, s) := Session_Stop u s in run_work (k err) u s
  | WPID k => run_work (k (match process u with Some c => own_PID c | None => 0 end)) u s
  | WKeepStopped k => run_work k (mkSession (process u) (wasRunning u) (healthy u) true) s
  end.

Definition updateRecoveryRequired : APIError :=
  degraded_api CodeDataFailure "core update recovery required".

(** [Supervisor.performUpdate]. *)
Definition performUpdate (w : bool -> work) (running : bool) (s : Supervisor)
    : option error * Supervisor :=
  let '(err, u, s) := run_work (w running) (mkSession None running false false) s in
  if maintenanceDegraded err
     || (bool_decide (is_Some (process u)) && negb (healthy u))
     || (running && bool_decide (process u = None) && negb (keepStopped u))
  then
    let '(stopErr, u, s) := Session_Stop u s in
    let s := set_blocked true s in
    let s := observe (observation StatusDegraded 0 (Some (EText "Core update recovery required"))) s in
    (Some (diagnostics_Wrap updateRecoveryRequired (errors_Join err stopErr)), s)
  else
    let '(stopErr, u, s) :=
      if keepStopped u && bool_decide (is_Some (process u)) then Session_Stop u s else (None, u, s) in
    match stopErr with
    | Some e => (errors_Join err (Some e), set_blocked true s)
    | None =>
        let s := if keepStopped u then set_waiting true s
                 else if bool_decide (is_Some (process u)) then set_waiting false s
                 else s in
        (err, set_updateWake true (set_pending (process u) s))
    end.

(** ** The event loop (supervisor.go, Run) *)

(** The channel that fires in the current select, with the clock reading the
    code takes afterwards. *)
Inductive event :=
| EvCancel                          (** the context of Run is cancelled *)
| EvGo (now : Z)                    (** the loop body runs from its top *)
| EvWake                            (** updateWake *)
| EvDone                            (** ctx.Done() *)
| EvRestart
| EvMaintain (res : option error)   (** the callback would answer [res] *)
| EvUpdate (w : bool -> work) (reinstall : bool)
| EvExit (err : option error) (descendants : option (option error)) (now : Z)
| EvHealth (err : error) (now : Z)
| EvRunning                         (** the monitor publishes Running *)
| EvElapsed.                        (** the backoff delay is over *)

Record Options := mkOptions {
  MinimumBackoff : Z;
  MaximumBackoff : Z;
  StableAfter : Z;
  GracePeriod : Z;
  HealthInterval : Z;
  StopTimeout : Z
}.

(** The defaults [New] fills in. *)
Definition New_options (o : Options) : Options :=
  let dflt v d := if v <=? 0 then d else v in
  mkOptions (dflt (MinimumBackoff o) time_Second)
            (dflt (MaximumBackoff o) (30 * time_Second))
            (dflt (StableAfter o) (30 * time_Second))
            (dflt (GracePeriod o) (5 * time_Second))
            (dflt (HealthInterval o) (10 * time_Second))
            (dflt (StopTimeout o) (5 * time_Second)).

Definition bump (s : Supervisor) : Supervisor :=
  set_phase PTop (set_loop (uint64 (restarts s + 1)) (backoff s) (loopStartedAt s) s).

(** The tail of an iteration whose child ended without an explicit request. *)
Definition enter_backoff (o : Options) (err : option error) (now : Z) (s : Supervisor) : Supervisor :=
  if blocked s then set_phase PTop s
  else
    let b := if StableAfter o <=? now - loopStartedAt s then Backoff_Reset (backoff s) else backoff s in
    let '(delay, b) := Backoff_Next b in
    let s := set_loop (restarts s) b (loopStartedAt s) s in
    let s := observe (mkObservation StatusBackoff 0 (restarts s) err (now + delay) 0) s in
    set_phase (PBackoff delay) s.

(** [Run] returns: the deferred stop of a pending child. *)
Definition finish (s : Supervisor) : Supervisor :=
  let s := match pending s with
           | Some c => snd (stopRunning c s)
           | None => s
           end in
  set_phase PReturned (set_pending None s).

Definition stopped (s : Supervisor) : Supervisor :=
  observe (observation StatusStopped (restarts s) None) s.

(** The body of the loop from its top to the next select. *)
Definition loop_top (o : Options) (now : Z) (s : Supervisor) : Supervisor :=
  let s := set_loop (restarts s) (backoff s) now s in
  if blocked s || waiting s then set_phase PIdle s
  else
    match pending s with
    | Some c =>
        let s := set_pending None s in
        set_phase (PRun c)
          (observe (mkObservation StatusStarting (own_PID c) (restarts s) None 0 (own_startedAt c)) s)
    | None =>
        match start s with
        | (Ok (c, _), s) =>
            set_phase (PRun c)
              (observe (mkObservation StatusStarting (own_PID c) (restarts s) None 0 (own_startedAt c)) s)
        | (Err e, s) =>
            let s := if maintenanceDegraded (Some e)
                     then observe (observation StatusDegraded (restarts s)
                            (Some (EText "Core startup recovery could not be confirmed")))
                            (set_blocked true s)
                     else s in
            enter_backoff o (Some (supervisorFailure "mihomo process start failed" (Some e))) now s
        end
    end.

(** What [Run] does when [runOwnedChild] returns [err] and [explicit]. *)
Definition after_child (o : Options) (err : option error) (explicit : bool) (now : Z)
    (s : Supervisor) : Supervisor :=
  if ctxDone s then finish (stopped s)
  else if explicit then bump s
  else enter_backoff o err now s.

(** The select of [runOwnedChild] and what follows it in [Run]. *)
Definition run_child (o : Options) (c : ownedChild) (ev : event) (s : Supervisor)
    : option Supervisor :=
  match ev with
  | EvRunning =>
      Some (observe (mkObservation StatusRunning (own_PID c) (restarts s) None 0 (own_startedAt c)) s)
  | EvUpdate w _ =>
      let '(err, s) := stopRunning c s in
      match err with
      | Some e => Some (after_child o err true 0 (reply err s))
      | None =>
          let '(err, s) := performUpdate w true s in Some (after_child o err true 0 (reply err s))
      end
  | EvDone =>
      if ctxDone s then
        let '(err, s) := stopRunning c s in Some (after_child o err false 0 s)
      else None
  | EvMaintain res =>
      let '(err, s) := stopRunning c s in
      match err with
      | Some e => Some (after_child o err true 0 (reply err s))
      | None =>
          let s := if maintenanceDegraded res then set_blocked true s else s in
          Some (after_child o res true 0 (reply res s))
      end
  | EvRestart =>
      let '(err, s) := stopRunning c s in Some (after_child o err true 0 (reply err s))
  | EvExit err d now =>
      let '(derr, s) := waitDescendants d s in
      let s := settle_stop c derr s in
      Some (after_child o
              (Some (supervisorFailure "mihomo process exited unexpectedly" (errors_Join err derr)))
              false now s)
  | EvHealth err now =>
      let '(stopErr, s) := stopRunning c s in
      let e := match stopErr with
               | Some se =>
                   supervisorFailure "mihomo health check failed three times"
                     (Some (EJoin err (supervisorFailure "mihomo process termination failed" (Some se))))
               | None => err
               end in
      Some (after_child o (Some e) false now s)
  | _ => None
  end.

(** The select of [waitBackoff]. *)
Definition wait_backoff (ev : event) (s : Supervisor) : option Supervisor :=
  match ev with
  | EvElapsed => Some (bump s)
  | EvUpdate w _ => let '(err, s) := performUpdate w true s in Some (bump (reply err s))
  | EvMaintain res =>
      let s := if maintenanceDegraded res then set_blocked true s else s in
      Some (bump (reply res s))
  | EvRestart => Some (bump (reply None s))
  | EvDone => if ctxDone s then Some (finish (stopped s)) else None
  | _ => None
  end.

(** The select of a blocked or waiting loop. *)
Definition idle (ev : event) (s : Supervisor) : option Supervisor :=
  match ev with
  | EvWake => if updateWake s then Some (set_phase PTop (set_updateWake false s)) else None
  | EvDone => if ctxDone s then Some (finish s) else None
  | EvRestart => Some (set_phase PTop (reply (Some (idleRejection s)) s))
  | EvMaintain _ => Some (set_phase PTop (reply (Some (idleRejection s)) s))
  | EvUpdate w reinstall =>
      if blocked s && negb reinstall then
        Some (set_phase PTop (reply (Some coreRecoveryRequired) s))
      else
        let s := if reinstall then set_blocked false s else s in
        let '(err, s) := performUpdate w (negb (waiting s)) s in
        Some (set_phase PTop (reply err s))
  | _ => None
  end.

(** One transition of [Run].  At the top of the loop a context cancelled before
    the iteration is reported as Stopped; one cancelled while the loop waits for
    the start gate returns without a further observation. *)
Definition step (o : Options) (s : Supervisor) (ev : event) : option Supervisor :=
  match at_phase s, ev with
  | PReturned, _ => None
  | _, EvCancel => Some (set_ctxDone s)
  | PTop, EvGo now => Some (if ctxDone s then finish (stopped s) else loop_top o now s)
  | PTop, EvDone =>
      if ctxDone s && negb (blocked s || waiting s) then Some (finish s) else None
  | PTop, _ => None
  | PIdle, _ => idle ev s
  | PRun c, _ => run_child o c ev s
  | PBackoff _, _ => wait_backoff ev s
  end.

(** ** Requests from other goroutines *)

(** What a request does before it reaches the event loop: it is refused, it is
    executed at once (no loop is running), or it is sent to the loop. *)
Inductive admission :=
| Refused (e : error)
| Executed (err : option error) (s : Supervisor)
| Sent (ev : event).

(** [Supervisor.Restart]. *)
Definition Restart (active : bool) (s : Supervisor) : admission :=
  if blocked s then Refused coreRecoveryRequired
  else if negb active then
    Refused (api_error CodeInvalidState "mihomo supervisor is not running")
  else Sent EvRestart.

(** [Supervisor.Maintain], once it holds the start gate.  [runDone] is false in
    the window between [active] being set and [runDone] being stored; [loopEnded]
    is the loop returning while the request waits to be sent. *)
Definition Maintain (active runDone loopEnded : bool) (ctxErr : option error)
    (res : option error) (s : Supervisor) : admission :=
  if blocked s then Refused coreRecoveryRequired
  else if negb active then
    match ctxErr with
    | Some e => Refused e
    | None => Executed res (if maintenanceDegraded res then set_blocked true s else s)
    end
  else if negb runDone then Refused (api_error CodeInvalidState "supervisor is starting")
  else match ctxErr with
       | Some e => Refused e
       | None => if loopEnded then Refused (api_error CodeInvalidState "supervisor stopped")
                 else Sent (EvMaintain res)
       end.

(** [Supervisor.updateOwned], once it holds the start gate. *)
Definition updateOwned (active runDone loopEnded : bool) (ctxErr : option error)
    (w : bool -> work) (reinstall : bool) (s : Supervisor) : admission :=
  if blocked s && negb reinstall then Refused coreRecoveryRequired
  else if negb active then
    let s := if reinstall then set_blocked false s else s in
    let '(err, s) := performUpdate w false s in Executed err s
  else if negb runDone then Refused (api_error CodeInvalidState "supervisor is starting")
  else match ctxErr with
       | Some e => Refused e
       | None => if loopEnded then Refused coreRecoveryRequired else Sent (EvUpdate w reinstall)
       end.

(** [Supervisor.WaitForCore]. *)
Definition WaitForCore (s : Supervisor) : Supervisor :=
  set_waiting (bool_decide (pending s = None)) s.

(** ** Executions *)

(** [Run] has just been entered; nothing is pending. *)
Definition init (o : Options) (wait : bool) (sts : list start_outcome) (sps : list stop_outcome)
    : Supervisor :=
  mkSupervisor false false wait None false 0 (NewBackoff (MinimumBackoff o) (MaximumBackoff o)) 0 PTop
    [] [] sts sps [] 0 false.

Inductive reach (o : Options) : Supervisor -> list event -> Supervisor -> Prop :=
| reach_refl s : reach o s [] s
| reach_step s ev s' evs s'' :
    step o s ev = Some s' -> reach o s' evs s'' -> reach o s (ev :: evs) s''.

Definition is_reinstall (ev : event) : bool :=
  match ev with EvUpdate _ r => r | _ => false end.

(** The processes the loop owns in its current phase. *)
Definition owned (s : Supervisor) : list ownedChild :=
  match at_phase s with
  | PRun c => [c]
  | _ => match pending s with Some c => [c] | None => [] end
  end.

(** ** Backoff: lemmas *)

Definition backoff_ok (b : Backoff) : Prop := 0 < minimum b <= maximum b /\ maximum b < two63.

Lemma Backoff_Next_first (b : Backoff) :
  backoff_ok b -> current b = 0 ->
  Backoff_Next b = (Z.min (minimum b) (maximum b), mkBackoff (minimum b) (maximum b) (minimum b)).
Proof. intros [? ?] E. unfold Backoff_Next. rewrite E. simpl. f_equal. lia. Qed.

Lemma Backoff_Next_double (b : Backoff) :
  backoff_ok b -> 0 < current b <= maximum b ->
  Backoff_Next b = (Z.min (current b * 2) (maximum b),
                    mkBackoff (minimum b) (maximum b) (Z.min (current b * 2) (maximum b))).
Proof.
  intros [? ?] Hc. unfold Backoff_Next.
  destruct (current b =? 0) eqn:E; breflect; [lia|].
  enough ((if (int64 (current b * 2) <? current b) || (maximum b <? int64 (current b * 2))
           then maximum b else int64 (current b * 2)) = Z.min (current b * 2) (maximum b)) as -> by done.
  destruct (Z.lt_ge_cases (current b * 2) two63) as [Hlt|Hge].
  - rewrite int64_id by (unfold in_int64, two63 in *; lia).
    destruct (Z.ltb_spec (current b * 2) (current b)); [lia|].
    destruct (Z.ltb_spec (maximum b) (current b * 2)); simpl; lia.
  - pose proof (int64_double_overflow (current b)) as Hov.
    destruct (Z.ltb_spec (int64 (current b * 2)) (current b)); simpl; lia.
Qed.

Lemma nth_delay_from (n : nat) (b : Backoff) :
  backoff_ok b -> 0 < current b <= maximum b ->
  nth_delay n b = Z.min (current b * 2 ^ Z.of_nat (S n)) (maximum b).
Proof.
  revert b. induction n as [|n IH]; intros b Hok Hc; simpl nth_delay;
    rewrite Backoff_Next_double by done; simpl; [f_equal; lia|].
  rewrite IH; simpl; unfold backoff_ok in *; simpl; [|lia..].
  rewrite (Nat2Z.inj_succ (S n)), Z.pow_succ_r by lia.
  assert (1 <= 2 ^ Z.of_nat (S n)) by (apply (Z.pow_le_mono_r 2 0); lia).
  destruct (Z.min_spec (current b * 2) (maximum b)) as [[? ->]|[? ->]]; nia.
Qed.

(** ** Monitor: lemmas *)

Definition three_in_a_row (checks : list (option error)) (e : error) : Prop :=
  exists l1 a b l2, checks = l1 ++ Some a :: Some b :: Some e :: l2.

Lemma monitor_loop_failed (checks : list (option error)) (k : Z) (p : bool) (e : error) :
  0 <= k < 3 ->
  MonFailed e ∈ monitor_loop k p checks ->
  three_in_a_row (replicate (Z.to_nat k) (Some (EText "")) ++ checks) e \/
  three_in_a_row checks e.
Proof.
  revert k p. induction checks as [|[f|] checks IH]; intros k p Hk Hin; simpl in Hin.
  - set_solver.
  - destruct (3 <=? k + 1) eqn:E3; breflect.
    + apply list_elem_of_singleton in Hin. injection Hin as ->. assert (k = 2) as -> by lia.
      left. exists [], (EText ""), (EText ""), checks. done.
    + apply elem_of_cons in Hin as [?|Hin]; [done|].
      apply IH in Hin; [|lia].
      destruct Hin as [(l1 & a & b & l2 & Hl)|(l1 & a & b & l2 & ->)].
      * assert (k = 0 \/ k = 1) as [->| ->] by lia; simpl in Hl.
        { destruct l1 as [|x l1]; simplify_eq/=.
          - right. exists [], f, b, l2. done.
          - right. exists (Some f :: l1), a, b, l2. done. }
        { destruct l1 as [|x l1]; [|destruct l1 as [|y l1]]; simplify_eq/=.
          - left. exists [], (EText ""), f, l2. done.
          - right. exists [], f, b, l2. done.
          - right. exists (Some f :: l1), a, b, l2. done. }
      * right. exists (Some f :: l1), a, b, l2. done.
  - assert (MonFailed e ∈ monitor_loop 0 true checks) as Hin'.
    { apply elem_of_app in Hin as [Hin|Hin]; [destruct (0 <? k); set_solver|].
      apply elem_of_app in Hin as [Hin|Hin]; [destruct p; set_solver|done]. }
    apply IH in Hin'; [|lia].
    destruct Hin' as [(l1 & a & b & l2 & Hl)|(l1 & a & b & l2 & Hl)]; simpl in Hl; subst checks;
      right; exists (None :: l1), a, b, l2; done.
Qed.

Lemma monitor_loop_no_failure (checks : list (option error)) (k : Z) (p : bool) :
  0 <= k ->
  (forall e, MonFailed e ∉ monitor_loop k p checks) ->
  forall l1 a b c l2, checks = l1 ++ Some a :: Some b :: Some c :: l2 -> False.
Proof.
  revert k p. induction checks as [|[f|] checks IH]; intros k p Hk Hno l1 a b c l2 Heq.
  - destruct l1; discriminate.
  - simpl in Hno. destruct (3 <=? k + 1) eqn:E3; [by eapply (Hno f); constructor|].
    destruct l1 as [|x l1]; simplify_eq/=.
    + breflect. simpl in Hno.
      destruct (3 <=? k + 1 + 1) eqn:E4; [eapply (Hno b); set_solver|].
      destruct (3 <=? k + 1 + 1 + 1) eqn:E5; [eapply (Hno c); set_solver|]. breflect. lia.
    + eapply (IH (k + 1) p); [lia| |done]. set_solver.
  - destruct l1 as [|x l1]; simplify_eq/=.
    eapply (IH 0 true); [lia| |done]. intros e He. apply (Hno e).
    simpl. set_solver.
Qed.

Definition is_MonRunning (e : monitor_event) : bool :=
  match e with MonRunning => true | _ => false end.

Definition is_MonFailed (e : monitor_event) : bool :=
  match e with MonFailed _ => true | _ => false end.

Lemma monitor_loop_running (checks : list (option error)) (k : Z) (p : bool) :
  (length (List.filter is_MonRunning (monitor_loop k p checks)) <= if p then 0 else 1)%nat.
Proof.
  revert k p. induction checks as [|[f|] checks IH]; intros k p; simpl.
  - destruct p; lia.
  - destruct (3 <=? k + 1); simpl; [destruct p; lia|]. apply IH.
  - specialize (IH 0 true). simpl in IH. rewrite !List.filter_app, !length_app.
    destruct (0 <? k), p; simpl; lia.
Qed.

(** ** Update sessions: lemmas *)

(** The parts of the state an update callback cannot touch. *)
Definition frame_eq (s s' : Supervisor) : Prop :=
  waiting s' = waiting s /\ pending s' = pending s /\ at_phase s' = at_phase s /\
  ctxDone s' = ctxDone s /\ restarts s' = restarts s /\
  (stopFailed s = true -> stopFailed s' = true) /\
  (blocked s = true -> blocked s' = true).

Lemma frame_eq_refl (s : Supervisor) : frame_eq s s.
Proof. unfold frame_eq. tauto. Qed.

Lemma frame_eq_trans (s1 s2 s3 : Supervisor) :
  frame_eq s1 s2 -> frame_eq s2 s3 -> frame_eq s1 s3.
Proof. unfold frame_eq. intros (?&?&?&?&?&?&?) (?&?&?&?&?&?&?). repeat split; try congruence; auto. Qed.

#[local] Hint Resolve frame_eq_refl : mihari.

Lemma start_frame (s : Supervisor) : frame_eq s (snd (start s)).
Proof. unfold start. destruct (starts s) as [|[e|c h] sts]; unfold frame_eq; simpl; tauto. Qed.

Lemma pop_stop_frame (s : Supervisor) :
  frame_eq s (snd (pop_stop s)) /\ alive (snd (pop_stop s)) = alive s /\
  launched (snd (pop_stop s)) = launched s /\ blocked (snd (pop_stop s)) = blocked s /\
  starts (snd (pop_stop s)) = starts s /\ stopFailed (snd (pop_stop s)) = stopFailed s.
Proof. unfold pop_stop. destruct (stops s); unfold frame_eq; simpl; tauto. Qed.

Lemma exited_singleton (c : ownedChild) : exited c [c] = [].
Proof. unfold exited. rewrite filter_cons. case_decide; [done|reflexivity]. Qed.

(** A stop is confirmed, and the child gone, or it is recorded as failed and the
    supervisor blocked. *)
Lemma waitDescendants_spec (d : option (option error)) (s : Supervisor) :
  let '(err, s') := waitDescendants d s in
  frame_eq s s' /\ alive s' = alive s /\ launched s' = launched s /\ starts s' = starts s /\
  stopFailed s' = stopFailed s /\
  match err with Some _ => blocked s' = true | None => blocked s' = blocked s end.
Proof.
  unfold waitDescendants. destruct d as [[e|]|]; unfold frame_eq; simpl; tauto.
Qed.

Definition stop_spec (c : ownedChild) (s : Supervisor) (err : option error) (s' : Supervisor) : Prop :=
  frame_eq s s' /\ launched s' = launched s /\ starts s' = starts s /\
  match err with
  | None => alive s' = exited c (alive s) /\ blocked s' = blocked s /\ stopFailed s' = stopFailed s
  | Some _ => blocked s' = true /\ stopFailed s' = true
  end.

Lemma stopChild_spec (c : ownedChild) (o : stop_outcome) (s : Supervisor) :
  let '(err, s') := stopChild c o s in stop_spec c s err s'.
Proof.
  unfold stopChild, stop_spec.
  pose proof (waitDescendants_spec (so_descendants o) s) as Hd.
  destruct (waitDescendants (so_descendants o) s) as [d s1].
  destruct Hd as (Hf & Ha & Hl & Hs & Hsf & Hb).
  destruct (so_inTime o); [destruct (so_terminate o), d|destruct (so_kill o); [|destruct d]];
    simpl in *; unfold frame_eq in *; simpl; repeat split; intuition congruence.
Qed.

Lemma stopRunning_spec (c : ownedChild) (s : Supervisor) :
  let '(err, s') := stopRunning c s in stop_spec c s err s'.
Proof.
  unfold stopRunning. pose proof (pop_stop_frame s) as (Hf & Ha & Hl & Hb & Hs & Hsf).
  destruct (pop_stop s) as [o s1]. simpl in *.
  pose proof (stopChild_spec c o s1) as Hspec.
  destruct (stopChild c o s1) as [err s2]. unfold stop_spec in *.
  destruct Hspec as (Hf2 & Hl2 & Hs2 & Hm). repeat split; try congruence.
  all: try (eapply frame_eq_trans; eauto).
  destruct err; [tauto|]. rewrite <- Ha, <- Hb, <- Hsf. tauto.
Qed.

(** The session and the supervisor agree: without a failed stop the live
    processes are the session's, which then is not blocked; a live process of an
    earlier start is none. *)
Definition session_inv (u : UpdateSession) (s : Supervisor) : Prop :=
  (process u = None -> healthy u = false) /\
  (stopFailed s = false ->
   alive s = option_list (process u) /\ (process u <> None -> blocked s = false)).

Lemma Session_Start_spec (u : UpdateSession) (s : Supervisor) :
  session_inv u s ->
  let '(err, u', s') := Session_Start u s in
  session_inv u' s' /\ frame_eq s s' /\ wasRunning u' = wasRunning u.
Proof.
  intros [Hh Hi]. unfold Session_Start.
  destruct (bool_decide (is_Some (process u)) || blocked s) eqn:E; [unfold session_inv; auto with mihari|].
  breflect. apply eq_None_not_Some in H. specialize (Hh H).
  pose proof (start_frame s) as Hf. unfold start in *.
  destruct (starts s) as [|[e|c h] sts]; simpl in *.
  - split; [|auto with mihari]. by split.
  - split; [|auto]. split; [done|]. simpl. rewrite H in *. auto.
  - rewrite H in Hi. destruct (confirmHealth h); (split; [|auto]); (split; [done|]); simpl;
      intros Hs; destruct (Hi Hs) as [-> _]; auto.
Qed.

Lemma Session_Stop_spec (u : UpdateSession) (s : Supervisor) :
  session_inv u s ->
  let '(err, u', s') := Session_Stop u s in
  session_inv u' s' /\ frame_eq s s' /\ wasRunning u' = wasRunning u /\
  keepStopped u' = keepStopped u /\ (err = None -> process u' = None) /\
  (err <> None -> blocked s' = true).
Proof.
  intros [Hh Hi]. unfold Session_Stop. destruct (process u) as [c|] eqn:Hp.
  2:{ split; [split; rewrite Hp; auto|]. auto 10 with mihari. }
  pose proof (pop_stop_frame s) as (Hf & Ha & Hl & Hb & Hs & Hsf).
  destruct (pop_stop s) as [o s1]. simpl in *.
  assert (Hstop : let '(err, s2) :=
      (if so_joined o then
         let '(d, s) := waitDescendants (so_descendants o) s1 in (d, settle_stop c d s)
       else stopChild c o s1) in stop_spec c s1 err s2).
  { destruct (so_joined o); [|apply stopChild_spec].
    pose proof (waitDescendants_spec (so_descendants o) s1) as Hd.
    destruct (waitDescendants (so_descendants o) s1) as [[d|] s2]; unfold stop_spec, frame_eq in *;
      simpl; destruct Hd as (?&?&?&?&?&?); repeat split; intuition congruence. }
  destruct (if so_joined o then _ else _) as [err s2].
  destruct Hstop as (Hf2 & Hl2 & Hs2 & Hm).
  assert (frame_eq s s2) by (eapply frame_eq_trans; eauto).
  destruct err as [e|]; simpl.
  - destruct Hm as [Hm1 Hm2]. split; [split; [congruence|rewrite Hp; congruence]|]. naive_solver.
  - destruct Hm as (Hm1 & Hm2 & Hm3). split; [|auto 10]. split; [done|]. simpl. intros Hs0.
    rewrite Hm3, Hsf in Hs0. destruct (Hi Hs0) as [Hal _].
    rewrite Hm1, Ha, Hal. simpl. rewrite exited_singleton. done.
Qed.

Lemma run_work_spec (w : work) (u : UpdateSession) (s : Supervisor) :
  session_inv u s ->
  let '(err, u', s') := run_work w u s in
  session_inv u' s' /\ frame_eq s s' /\ wasRunning u' = wasRunning u.
Proof.
  revert u s. induction w as [err|k IH|k IH|k IH|w IH]; intros u s Hi; simpl.
  - auto with mihari.
  - pose proof (Session_Start_spec u s Hi) as Hs.
    destruct (Session_Start u s) as [[err u1] s1]. destruct Hs as (Hi1 & Hf & Hw).
    specialize (IH err u1 s1 Hi1). destruct (run_work (k err) u1 s1) as [[e u2] s2].
    destruct IH as (? & ? & ?). split; [done|]. split; [eapply frame_eq_trans; eauto|congruence].
  - pose proof (Session_Stop_spec u s Hi) as Hs.
    destruct (Session_Stop u s) as [[err u1] s1]. destruct Hs as (Hi1 & Hf & Hw & _).
    specialize (IH err u1 s1 Hi1). destruct (run_work (k err) u1 s1) as [[e u2] s2].
    destruct IH as (? & ? & ?). split; [done|]. split; [eapply frame_eq_trans; eauto|congruence].
  - apply IH, Hi.
  - apply (IH (mkSession (process u) (wasRunning u) (healthy u) true) s). exact Hi.
Qed.

(** After an update: without a failed stop the live processes are the pending
    child, which exists only on an unblocked, non-waiting supervisor. *)
Definition update_owned_spec (s s' : Supervisor) : Prop :=
  at_phase s' = at_phase s /\ ctxDone s' = ctxDone s /\
  (stopFailed s' = false ->
   alive s' = option_list (pending s') /\
   (pending s' <> None -> blocked s' = false /\ waiting s' = false)).

(** Nothing runs and nothing is pending. *)
Definition quiet (s : Supervisor) : Prop :=
  stopFailed s = false -> alive s = [] /\ pending s = None.

(** A session that ends with a stop leaves nothing running and nothing pending. *)
Lemma Session_Stop_owned (u : UpdateSession) (s : Supervisor) :
  session_inv u s -> (stopFailed s = false -> pending s = None) ->
  let '(err, u', s') := Session_Stop u s in
  at_phase s' = at_phase s /\ ctxDone s' = ctxDone s /\ quiet s' /\
  keepStopped u' = keepStopped u /\ (err = None -> process u' = None).
Proof.
  intros Hi Hp. pose proof (Session_Stop_spec u s Hi) as Hs.
  destruct (Session_Stop u s) as [[err u'] s'].
  destruct Hs as ([Hh Hi'] & (Hwt & Hpd & Hph & Hcx & _ & Hmono & _) & _ & Hk & Hok & Hbad).
  repeat (split; [done|]). split; [|done]. intros Hsf.
  assert (Hpn : pending s' = None).
  { rewrite Hpd. apply Hp. destruct (stopFailed s); [by rewrite Hmono in Hsf|done]. }
  destruct (Hi' Hsf) as [Hal Hb]. rewrite Hal, Hpn. split; [|done].
  destruct err as [e|]; [|by rewrite Hok].
  destruct (process u') eqn:Hpu; [|done].
  rewrite Hbad in Hb by done. by specialize (Hb ltac:(done)).
Qed.

Lemma performUpdate_owned (w : bool -> work) (running : bool) (s : Supervisor) :
  quiet s -> update_owned_spec s (snd (performUpdate w running s)).
Proof.
  intros Hq. unfold performUpdate.
  pose proof (run_work_spec (w running) (mkSession None running false false) s) as Hw.
  destruct (run_work (w running) _ s) as [[err u] s1].
  destruct Hw as (Hi & (Hwt & Hpd & Hph & Hcx & _ & Hmono & _) & _);
    [split; [done|]; simpl; intros Hsf; destruct (Hq Hsf); done|].
  assert (Hp1 : stopFailed s1 = false -> pending s1 = None).
  { intros Hsf. rewrite Hpd. destruct (stopFailed s) eqn:E; [by rewrite Hmono in Hsf|].
    by destruct (Hq E). }
  pose proof (Session_Stop_owned u s1 Hi Hp1) as Hstop.
  unfold update_owned_spec. rewrite <- Hph, <- Hcx.
  destruct (_ || _ || _) eqn:Econd;
    [|destruct (keepStopped u && bool_decide (is_Some (process u))) eqn:Ek].
  - destruct (Session_Stop u s1) as [[stopErr u2] s2].
    destruct Hstop as (? & ? & Hs & _). simpl. repeat (split; [done|]). intros Hsf.
    destruct (Hs Hsf) as [-> ->]. done.
  - destruct (Session_Stop u s1) as [[stopErr u2] s2].
    destruct Hstop as (? & ? & Hs & Hk & Hok). breflect.
    destruct stopErr as [e|]; simpl; [repeat (split; [done|]); intros Hsf;
      destruct (Hs Hsf) as [-> ->]; done|].
    rewrite Hk, H1, (Hok eq_refl). simpl. repeat (split; [done|]). intros Hsf.
    destruct (Hs Hsf) as [-> _]. done.
  - destruct Hi as [_ Hi].
    destruct (keepStopped u); simpl in *; [|case_bool_decide as Hsome; simpl].
    + breflect. apply eq_None_not_Some in Ek. rewrite Ek in *. naive_solver.
    + split; [done|]. split; [done|]. intros Hsf. destruct (Hi Hsf). auto.
    + apply eq_None_not_Some in Hsome. rewrite Hsome in *. naive_solver.
Qed.

(** ** The loop: lemmas *)

(** Without a failed stop: exactly the owned children are alive; a pending child
    waits for adoption at the top of an unblocked loop; a running child belongs
    to an unblocked loop. *)
Definition loop_inv (s : Supervisor) : Prop :=
  stopFailed s = false ->
  alive s = owned s /\
  (pending s <> None -> blocked s = false /\ waiting s = false /\ at_phase s = PTop) /\
  (forall c, at_phase s = PRun c -> blocked s = false /\ waiting s = false).

(** A quiet loop in a phase without a child. *)
Lemma loop_inv_quiet (s : Supervisor) :
  quiet s -> (forall c, at_phase s <> PRun c) -> loop_inv s.
Proof.
  intros Hq Hph Hsf. destruct (Hq Hsf) as [Ha Hp]. rewrite Ha. unfold owned. rewrite Hp.
  destruct (at_phase s) eqn:E; try done. by destruct (Hph child).
Qed.

(** An update from a quiet loop returns to its top. *)
Lemma loop_inv_update (s s' : Supervisor) :
  update_owned_spec s s' -> at_phase s' = PTop -> loop_inv s'.
Proof.
  intros (_ & _ & Hs) Hph Hsf. destruct (Hs Hsf) as [Ha Hb].
  unfold owned. rewrite Hph, Ha. destruct (pending s'); simpl; naive_solver.
Qed.

Lemma finish_inv (s : Supervisor) :
  (stopFailed s = false -> alive s = option_list (pending s)) -> loop_inv (finish s).
Proof.
  intros Ha. unfold finish. apply loop_inv_quiet; simpl; try done.
  destruct (pending s) as [c|]; [|intros Hsf; simpl in *; auto].
  pose proof (stopRunning_spec c s) as Hst. destruct (stopRunning c s) as [err s1].
  destruct Hst as (_ & _ & _ & Hm). intros Hsf. simpl in *. destruct err as [e|].
  - destruct Hm. congruence.
  - destruct Hm as (-> & _ & Hsf1). rewrite Ha by congruence. split; [apply exited_singleton|done].
Qed.

Lemma enter_backoff_inv (o : Options) (err : option error) (now : Z) (s : Supervisor) :
  quiet s -> loop_inv (enter_backoff o err now s).
Proof.
  intros Hq. unfold enter_backoff. case_if; [by apply loop_inv_quiet|].
  destruct (Backoff_Next _) as [d b]. by apply loop_inv_quiet.
Qed.

Lemma after_child_inv (o : Options) (err : option error) (x : bool) (now : Z) (s : Supervisor) :
  quiet s -> loop_inv (after_child o err x now s).
Proof.
  intros Hq. unfold after_child. case_if; [|case_if].
  - apply finish_inv. simpl. intros Hsf. destruct (Hq Hsf) as [-> ->]. done.
  - by apply loop_inv_quiet.
  - by apply enter_backoff_inv.
Qed.

(** After an update the loop either goes on from its top or ends. *)
Lemma after_update_inv (o : Options) (err : option error) (s s' : Supervisor) :
  update_owned_spec s s' -> loop_inv (after_child o err true 0 (reply err s')).
Proof.
  intros (Hph & Hcx & Hs). unfold after_child. case_if.
  - apply finish_inv. simpl. intros Hsf. by destruct (Hs Hsf).
  - apply (loop_inv_update (set_phase PTop s)); [|done].
    unfold update_owned_spec. simpl. split; [done|]. split; [done|]. exact Hs.
Qed.

(** Stopping the running child leaves a quiet state. *)
Lemma stop_running_quiet (c : ownedChild) (s : Supervisor) :
  loop_inv s -> at_phase s = PRun c -> quiet (snd (stopRunning c s)).
Proof.
  intros Hinv Hph. pose proof (stopRunning_spec c s) as Hst.
  destruct (stopRunning c s) as [err s1]. destruct Hst as ((_ & Hpd & _ & _ & _ & Hmono & _) & _ & _ & Hm).
  intros Hs. destruct err as [e|]; [destruct Hm; simpl in *; congruence|].
  destruct Hm as (Ha & _ & Hsf). simpl in *. destruct (Hinv ltac:(congruence)) as (Hal & Hpe & _).
  rewrite Ha, Hal, Hpd. unfold owned. rewrite Hph. split; [apply exited_singleton|].
  destruct (pending s) eqn:E; [|done].
  destruct (Hpe ltac:(done)) as (_ & _ & ?). congruence.
Qed.

(** A loop that is blocked in a select without a child is quiet. *)
Lemma loop_inv_is_quiet (s : Supervisor) :
  loop_inv s -> at_phase s = PIdle \/ (exists d, at_phase s = PBackoff d) -> quiet s.
Proof.
  intros Hinv Hph Hsf. destruct (Hinv Hsf) as (Ha & Hp & _). rewrite Ha. unfold owned.
  destruct (pending s) as [c|] eqn:E; [destruct (Hp ltac:(done)) as (_ & _ & Ht); destruct Hph as [?|[d ?]]; congruence|].
  destruct Hph as [->|[d ->]]; done.
Qed.

Lemma loop_top_inv (o : Options) (now : Z) (s : Supervisor) :
  loop_inv s -> at_phase s = PTop -> loop_inv (loop_top o now s).
Proof.
  intros Hinv Hph. unfold loop_top. simpl.
  destruct (blocked s || waiting s) eqn:Ebw.
  { apply loop_inv_quiet; [|done]. intros Hsf. destruct (Hinv Hsf) as (Ha & Hp & _).
    simpl. rewrite Ha. unfold owned. rewrite Hph. destruct (pending s) eqn:E; [|done].
    destruct (Hp ltac:(done)) as (? & ? & _). breflect. rewrite H, H0 in Ebw. done. }
  breflect. destruct (pending s) as [c|] eqn:E.
  { intros Hsf. destruct (Hinv Hsf) as (Ha & _ & _). unfold owned in *. simpl.
    rewrite Hph, E in Ha. naive_solver. }
  assert (Hq : quiet s).
  { intros Hsf. destruct (Hinv Hsf) as (Ha & _ & _). rewrite Ha. unfold owned. by rewrite Hph, E. }
  unfold start. simpl. destruct (starts s) as [|[e|c h] sts]; simpl.
  1,2: apply enter_backoff_inv; try case_if; exact Hq.
  intros Hsf. simpl in *. destruct (Hq Hsf) as [-> Hp]. unfold owned. simpl. rewrite Hp. naive_solver.
Qed.

Lemma idle_inv (ev : event) (s s' : Supervisor) :
  loop_inv s -> at_phase s = PIdle -> idle ev s = Some s' -> loop_inv s'.
Proof.
  intros Hinv Hph. pose proof (loop_inv_is_quiet s Hinv (or_introl Hph)) as Hq.
  destruct ev as [| | | | |res|w re|err d now|err now| |]; simpl; try done.
  - case_if; intros; simplify_eq. by apply loop_inv_quiet.
  - case_if; intros; simplify_eq. apply finish_inv. intros Hsf; simpl. by destruct (Hq Hsf) as [-> ->].
  - intros; simplify_eq. by apply loop_inv_quiet.
  - intros; simplify_eq. by apply loop_inv_quiet.
  - case_if; [intros; simplify_eq; by apply loop_inv_quiet|].
    set (s1 := if re then set_blocked false s else s).
    assert (Hq1 : quiet s1) by (unfold s1; by destruct re).
    pose proof (performUpdate_owned w (negb (waiting s1)) s1 Hq1) as Hu.
    destruct (performUpdate w _ s1) as [err s2]. intros; simplify_eq.
    apply (loop_inv_update (set_phase PTop s1)); [|done].
    destruct Hu as (_ & Hc & Hu). repeat split; [done|apply Hu..]; done.
Qed.

Lemma wait_backoff_inv (ev : event) (s s' : Supervisor) (d : Z) :
  loop_inv s -> at_phase s = PBackoff d -> wait_backoff ev s = Some s' -> loop_inv s'.
Proof.
  intros Hinv Hph.
  assert (Hq : quiet s) by (apply loop_inv_is_quiet; eauto).
  destruct ev as [| | | | |res|w re|err dd now|err now| |]; simpl; try done.
  - case_if; intros; simplify_eq. apply finish_inv. intros Hsf; simpl. by destruct (Hq Hsf) as [-> ->].
  - intros; simplify_eq. by apply loop_inv_quiet.
  - intros; simplify_eq. apply loop_inv_quiet; [|done]. case_if; exact Hq.
  - pose proof (performUpdate_owned w true s Hq) as Hu.
    destruct (performUpdate w true s) as [err s2]. intros; simplify_eq.
    apply (loop_inv_update (set_phase PTop s)); [|done].
    destruct Hu as (_ & Hc & Hu). repeat split; [done|apply Hu..]; done.
  - intros; simplify_eq. by apply loop_inv_quiet.
Qed.

Lemma run_child_inv (o : Options) (c : ownedChild) (ev : event) (s s' : Supervisor) :
  loop_inv s -> at_phase s = PRun c -> run_child o c ev s = Some s' -> loop_inv s'.
Proof.
  intros Hinv Hph. pose proof (stop_running_quiet c s Hinv Hph) as Hq.
  destruct ev as [| | | | |res|w re|err d now|err now| |]; simpl; try done.
  - case_if; [|done]. destruct (stopRunning c s) as [e s1]. intros; simplify_eq.
    by apply after_child_inv.
  - destruct (stopRunning c s) as [e s1]. intros; simplify_eq. by apply after_child_inv.
  - destruct (stopRunning c s) as [[e|] s1]; intros; simplify_eq; apply after_child_inv; [done|].
    case_if; exact Hq.
  - destruct (stopRunning c s) as [[e|] s1]; [intros; simplify_eq; by apply after_child_inv|].
    pose proof (performUpdate_owned w true s1 Hq) as Hu.
    destruct (performUpdate w true s1) as [err s2]. intros; simplify_eq.
    by eapply after_update_inv.
  - pose proof (waitDescendants_spec d s) as Hd. destruct (waitDescendants d s) as [derr s1].
    destruct Hd as ((_ & Hpd & _) & Ha & _ & _ & Hsf & _).
    intros; simplify_eq. apply after_child_inv. intros Hs. destruct derr; simpl in *; [done|].
    destruct (Hinv ltac:(congruence)) as (Hal & Hp & _). rewrite Ha, Hal, Hpd. unfold owned.
    rewrite Hph. split; [apply exited_singleton|]. destruct (pending s) eqn:E; [|done].
    destruct (Hp ltac:(done)) as (_ & _ & ?). congruence.
  - destruct (stopRunning c s) as [e s1]. intros; simplify_eq. by apply after_child_inv.
  - intros; simplify_eq. exact Hinv.
Qed.

Lemma step_inv (o : Options) (s s' : Supervisor) (ev : event) :
  loop_inv s -> step o s ev = Some s' -> loop_inv s'.
Proof.
  intros Hinv. unfold step. destruct (at_phase s) as [| |c|d|] eqn:Hph; [| | | |done].
  - destruct ev; try done.
    + intros; simplify_eq. exact Hinv.
    + case_if; intros; simplify_eq; [|by apply loop_top_inv].
      apply finish_inv. intros Hsf. destruct (Hinv Hsf) as (Ha & _). simpl. rewrite Ha.
      unfold owned. rewrite Hph. by destruct (pending s).
    + case_if; intros; simplify_eq.
      apply finish_inv. intros Hsf. destruct (Hinv Hsf) as (Ha & _). rewrite Ha.
      unfold owned. rewrite Hph. by destruct (pending s).
  - intros H. destruct ev; try (by eapply idle_inv). simplify_eq. exact Hinv.
  - intros H. destruct ev; try (by eapply run_child_inv). simplify_eq. exact Hinv.
  - intros H. destruct ev; try (by eapply wait_backoff_inv). simplify_eq. exact Hinv.
Qed.

Lemma reach_inv (o : Options) (s s' : Supervisor) (evs : list event) :
  reach o s evs s' -> loop_inv s -> loop_inv s'.
Proof. induction 1; eauto using step_inv. Qed.

(** ** Blocking: lemmas *)

(** What every piece of the loop respects: a blocked supervisor stays blocked
    and starts nothing; a stop that was not confirmed leaves it blocked. *)
Definition guarded (s s' : Supervisor) : Prop :=
  (blocked s = true -> blocked s' = true /\ launched s' = launched s) /\
  (stopFailed s' = true -> stopFailed s = true \/ blocked s' = true).

Lemma guarded_trans (s1 s2 s3 : Supervisor) : guarded s1 s2 -> guarded s2 s3 -> guarded s1 s3.
Proof. unfold guarded. intros [H1 H2] [H3 H4]. split; intuition congruence. Qed.

(** A change of the fields that play no part in it. *)
Lemma guarded_same (s s' : Supervisor) :
  (blocked s = true -> blocked s' = true) -> launched s' = launched s ->
  stopFailed s' = stopFailed s -> guarded s s'.
Proof. unfold guarded. intuition congruence. Qed.

Lemma guarded_refl (s : Supervisor) : guarded s s.
Proof. by apply guarded_same. Qed.

#[local] Hint Resolve guarded_refl : mihari.
#[local] Hint Extern 1 (guarded _ _) => (apply guarded_same; simpl; by auto) : mihari.

Lemma start_guarded (s : Supervisor) : blocked s = false -> guarded s (snd (start s)).
Proof.
  unfold guarded, start. intros Hb. destruct (starts s) as [|[e|c h] sts]; simpl; split; auto; congruence.
Qed.

Lemma stop_spec_guarded (c : ownedChild) (s : Supervisor) (err : option error) (s' : Supervisor) :
  stop_spec c s err s' -> guarded s s'.
Proof.
  intros ((_ & _ & _ & _ & _ & _ & Hb) & Hl & _ & Hm). split; [auto|].
  destruct err; [naive_solver|]. destruct Hm as (_ & _ & ->). auto.
Qed.

Lemma stopRunning_guarded (c : ownedChild) (s : Supervisor) : guarded s (snd (stopRunning c s)).
Proof.
  pose proof (stopRunning_spec c s) as H. destruct (stopRunning c s). by eapply stop_spec_guarded.
Qed.

Lemma settle_exit_guarded (c : ownedChild) (d : option (option error)) (s : Supervisor) :
  let '(err, s1) := waitDescendants d s in guarded s (settle_stop c err s1).
Proof.
  pose proof (waitDescendants_spec d s) as Hd. destruct (waitDescendants d s) as [err s1].
  destruct Hd as ((_ & _ & _ & _ & _ & _ & Hb) & _ & Hl & _ & Hsf & Hm).
  unfold guarded, settle_stop. destruct err; simpl; naive_solver.
Qed.

Lemma Session_Start_guarded (u : UpdateSession) (s : Supervisor) :
  guarded s (snd (Session_Start u s)).
Proof.
  unfold Session_Start. case_if; [apply guarded_refl|]. breflect.
  pose proof (start_guarded s H0) as Hs. destruct (start s) as [[[c h]|e] s1]; [|done].
  by destruct (confirmHealth h).
Qed.

Lemma Session_Stop_guarded (u : UpdateSession) (s : Supervisor) :
  guarded s (snd (Session_Stop u s)).
Proof.
  unfold Session_Stop. destruct (process u) as [c|]; [|apply guarded_refl].
  pose proof (pop_stop_frame s) as (Hf & _ & Hl & Hb & _ & Hsf).
  destruct (pop_stop s) as [o s1]. simpl in *.
  assert (H1 : guarded s s1) by (apply guarded_same; congruence).
  destruct (so_joined o).
  - pose proof (settle_exit_guarded c (so_descendants o) s1) as Hg.
    destruct (waitDescendants _ s1) as [[e|] s2]; simpl; eauto using guarded_trans.
  - pose proof (stopChild_spec c o s1) as Hst. destruct (stopChild c o s1) as [[e|] s2];
      apply stop_spec_guarded in Hst; simpl; eauto using guarded_trans.
Qed.

Lemma run_work_guarded (w : work) (u : UpdateSession) (s : Supervisor) :
  guarded s (snd (run_work w u s)).
Proof.
  revert u s. induction w as [err|k IH|k IH|k IH|w IH]; intros u s; simpl; auto with mihari.
  - pose proof (Session_Start_guarded u s). destruct (Session_Start u s) as [[err u1] s1].
    eauto using guarded_trans.
  - pose proof (Session_Stop_guarded u s). destruct (Session_Stop u s) as [[err u1] s1].
    eauto using guarded_trans.
Qed.

Lemma performUpdate_guarded (w : bool -> work) (running : bool) (s : Supervisor) :
  guarded s (snd (performUpdate w running s)).
Proof.
  unfold performUpdate.
  pose proof (run_work_guarded (w running) (mkSession None running false false) s) as H1.
  destruct (run_work _ _ s) as [[err u] s1]. simpl in H1.
  pose proof (Session_Stop_guarded u s1) as H2.
  destruct (Session_Stop u s1) as [[e2 u2] s2]. simpl in H2.
  destruct (_ || _ || _); [|destruct (keepStopped u && _)].
  - eapply guarded_trans; [|eapply guarded_trans; [exact H2|]]; [done|]. simpl. auto with mihari.
  - eapply guarded_trans; [|eapply guarded_trans; [exact H2|]]; [done|].
    destruct e2; simpl; [auto with mihari|]. repeat case_if; auto with mihari.
  - eapply guarded_trans; [exact H1|]. simpl. repeat case_if; auto with mihari.
Qed.

Lemma finish_guarded (s : Supervisor) : guarded s (finish s).
Proof.
  unfold finish. destruct (pending s) as [c|]; [|auto with mihari].
  pose proof (stopRunning_guarded c s). eapply guarded_trans; [done|]. auto with mihari.
Qed.

Lemma enter_backoff_guarded (o : Options) (err : option error) (now : Z) (s : Supervisor) :
  guarded s (enter_backoff o err now s).
Proof.
  unfold enter_backoff. case_if; [auto with mihari|].
  destruct (Backoff_Next _). auto with mihari.
Qed.

Lemma after_child_guarded (o : Options) (err : option error) (x : bool) (now : Z) (s s1 : Supervisor) :
  guarded s s1 -> guarded s (after_child o err x now s1).
Proof.
  intros H. eapply guarded_trans; [exact H|]. unfold after_child. case_if; [|case_if].
  - eapply guarded_trans; [|apply finish_guarded]. auto with mihari.
  - unfold bump. auto with mihari.
  - apply enter_backoff_guarded.
Qed.

Lemma loop_top_guarded (o : Options) (now : Z) (s : Supervisor) : guarded s (loop_top o now s).
Proof.
  unfold loop_top. simpl. case_if; [auto with mihari|]. breflect.
  destruct (pending s); [auto with mihari|].
  set (s0 := set_loop _ _ _ _).
  assert (Hs : guarded s (snd (start s0))).
  { eapply guarded_trans; [|by apply start_guarded]. unfold s0. auto with mihari. }
  destruct (start s0) as [[[c h]|e] s1]; simpl in Hs; (eapply guarded_trans; [exact Hs|]).
  - auto with mihari.
  - eapply guarded_trans; [|apply enter_backoff_guarded]. case_if; auto with mihari.
Qed.

Lemma run_child_guarded (o : Options) (c : ownedChild) (ev : event) (s s' : Supervisor) :
  run_child o c ev s = Some s' -> guarded s s'.
Proof.
  pose proof (stopRunning_guarded c s) as Hst.
  destruct ev as [| | | | |res|w re|err d now|err now| |]; simpl; try done.
  - case_if; [|done]. destruct (stopRunning c s). intros; simplify_eq. by apply after_child_guarded.
  - destruct (stopRunning c s). intros; simplify_eq. by apply after_child_guarded.
  - destruct (stopRunning c s) as [[e|] s1]; intros; simplify_eq; apply after_child_guarded; [done|].
    eapply guarded_trans; [exact Hst|]. simpl. case_if; auto with mihari.
  - destruct (stopRunning c s) as [[e|] s1]; [intros; simplify_eq; by apply after_child_guarded|].
    pose proof (performUpdate_guarded w true s1) as Hu.
    destruct (performUpdate w true s1) as [err s2]. intros; simplify_eq.
    apply after_child_guarded. eapply guarded_trans; [exact Hst|exact Hu].
  - pose proof (settle_exit_guarded c d s). destruct (waitDescendants d s).
    intros; simplify_eq. by apply after_child_guarded.
  - destruct (stopRunning c s). intros; simplify_eq. by apply after_child_guarded.
  - intros; simplify_eq. auto with mihari.
Qed.

Lemma wait_backoff_guarded (ev : event) (s s' : Supervisor) :
  wait_backoff ev s = Some s' -> guarded s s'.
Proof.
  destruct ev as [| | | | |res|w re|err d now|err now| |]; simpl; try done;
    try (intros; simplify_eq; unfold bump; by auto with mihari).
  - case_if; intros; simplify_eq. eapply guarded_trans; [|apply finish_guarded]. auto with mihari.
  - intros; simplify_eq. unfold bump. case_if; auto with mihari.
  - pose proof (performUpdate_guarded w true s) as Hu.
    destruct (performUpdate w true s). intros; simplify_eq. exact Hu.
Qed.

Lemma idle_guarded (ev : event) (s s' : Supervisor) :
  is_reinstall ev = false -> idle ev s = Some s' -> guarded s s'.
Proof.
  intros Hre. destruct ev as [| | | | |res|w re|err d now|err now| |]; simpl in *; try done;
    try (intros; simplify_eq; by auto with mihari).
  - case_if; intros; simplify_eq. auto with mihari.
  - case_if; intros; simplify_eq. apply finish_guarded.
  - subst re. case_if; [intros; simplify_eq; auto with mihari|].
    pose proof (performUpdate_guarded w (negb (waiting s)) s) as Hu.
    destruct (performUpdate w _ s). intros; simplify_eq. exact Hu.
Qed.

Lemma step_guarded (o : Options) (s s' : Supervisor) (ev : event) :
  is_reinstall ev = false -> step o s ev = Some s' -> guarded s s'.
Proof.
  intros Hre. unfold step. destruct (at_phase s) as [| |c|d|]; [| | | |done].
  - destruct ev; try done.
    + intros; simplify_eq. auto with mihari.
    + case_if; intros; simplify_eq; [|apply loop_top_guarded].
      eapply guarded_trans; [|apply finish_guarded]. auto with mihari.
    + case_if; intros; simplify_eq. apply finish_guarded.
  - destruct ev; try (by apply idle_guarded). intros; simplify_eq. auto with mihari.
  - destruct ev; try (by apply run_child_guarded). intros; simplify_eq. auto with mihari.
  - destruct ev; try (by apply wait_backoff_guarded). intros; simplify_eq. auto with mihari.
Qed.

Lemma reach_guarded (o : Options) (s s' : Supervisor) (evs : list event) :
  reach o s evs s' -> Forall (fun ev => is_reinstall ev = false) evs -> guarded s s'.
Proof.
  induction 1 as [|s ev s1 evs s2 Hst _ IH]; intros Hf; [apply guarded_refl|].
  apply Forall_cons in Hf as [Hev Hf]. eauto using guarded_trans, step_guarded.
Qed.

(** ** Trial starts: lemmas *)

(** A child that was started and passed its health confirmation. *)
Definition confirmed (sts : list start_outcome) (c : ownedChild) : Prop :=
  exists h, StartOk c h ∈ sts /\ confirmHealth h = None.

Definition session_healthy (sts : list start_outcome) (u : UpdateSession) (s : Supervisor) : Prop :=
  starts s `suffix_of` sts /\
  (healthy u = true -> exists c, process u = Some c /\ confirmed sts c).

Lemma Session_Start_healthy (sts : list start_outcome) (u : UpdateSession) (s : Supervisor) :
  session_healthy sts u s -> (process u = None -> healthy u = false) ->
  let '(_, u', s') := Session_Start u s in session_healthy sts u' s'.
Proof.
  intros [Hsuf Hh] Hn. unfold Session_Start.
  destruct (bool_decide (is_Some (process u)) || blocked s) eqn:E; [done|].
  breflect. apply eq_None_not_Some in H. unfold start.
  destruct (starts s) as [|[e|c h] sts'] eqn:Hs.
  - split; [by rewrite Hs|done].
  - split; [by apply suffix_cons_l in Hsuf|done].
  - assert (Hin : StartOk c h ∈ sts).
    { destruct Hsuf as [l ->]. set_solver. }
    assert (sts' `suffix_of` sts) by by apply suffix_cons_l in Hsuf.
    destruct (confirmHealth h) eqn:Hc; (split; [done|]); simpl; intros Ht.
    + rewrite Hn in Ht by done. done.
    + exists c. split; [done|]. by exists h.
Qed.

Lemma Session_Stop_starts (u : UpdateSession) (s : Supervisor) :
  let '(err, u', s') := Session_Stop u s in
  starts s' = starts s /\ (blocked s' = false -> err = None) /\
  match err with
  | Some _ => u' = u
  | None => process u' = None /\ keepStopped u' = keepStopped u /\
            (process u = None -> healthy u' = healthy u) /\ (process u <> None -> healthy u' = false)
  end.
Proof.
  unfold Session_Stop. destruct (process u) as [c|] eqn:Hp; [|by rewrite Hp].
  pose proof (pop_stop_frame s) as (_ & _ & _ & _ & Hs & _).
  destruct (pop_stop s) as [o s1]. simpl in Hs.
  destruct (so_joined o).
  - pose proof (waitDescendants_spec (so_descendants o) s1) as Hd.
    destruct (waitDescendants _ s1) as [[e|] s2]; simpl; destruct Hd as (_ & _ & _ & ? & _ & ?);
      naive_solver congruence.
  - pose proof (stopChild_spec c o s1) as Hst.
    destruct (stopChild c o s1) as [[e|] s2]; destruct Hst as (_ & _ & ? & ?); simpl in *;
      naive_solver congruence.
Qed.

Lemma Session_Stop_healthy (sts : list start_outcome) (u : UpdateSession) (s : Supervisor) :
  session_healthy sts u s -> (process u = None -> healthy u = false) ->
  let '(_, u', s') := Session_Stop u s in
  session_healthy sts u' s' /\ (process u' = None -> healthy u' = false).
Proof.
  intros [Hsuf Hh] Hn. pose proof (Session_Stop_starts u s) as Hst.
  destruct (Session_Stop u s) as [[err u'] s']. destruct Hst as (Heq & _ & Hm).
  unfold session_healthy. rewrite Heq.
  destruct err as [e|]; [by subst|]. destruct Hm as (Hp & _ & H1 & H2).
  assert (Hf : healthy u' = false).
  { destruct (process u) eqn:E; [by apply H2|]. rewrite H1 by done. auto. }
  rewrite Hf. done.
Qed.

Lemma run_work_healthy (sts : list start_outcome) (w : work) (u : UpdateSession) (s : Supervisor) :
  session_healthy sts u s -> (process u = None -> healthy u = false) ->
  let '(_, u', s') := run_work w u s in session_healthy sts u' s'.
Proof.
  revert u s. induction w as [err|k IH|k IH|k IH|w IH]; intros u s Hs Hn; simpl.
  - done.
  - pose proof (Session_Start_healthy sts u s Hs Hn) as H1.
    assert (Hn1 : process (snd (fst (Session_Start u s))) = None ->
                  healthy (snd (fst (Session_Start u s))) = false).
    { unfold Session_Start. case_if; [done|].
      destruct (start s) as [[[c h]|e] s1]; [destruct (confirmHealth h)|]; done. }
    destruct (Session_Start u s) as [[err u1] s1]. by apply IH.
  - pose proof (Session_Stop_healthy sts u s Hs Hn) as H1.
    destruct (Session_Stop u s) as [[err u1] s1]. destruct H1. by apply IH.
  - by apply IH.
  - apply (IH (mkSession (process u) (wasRunning u) (healthy u) true) s); done.
Qed.

(** ** Recovery *)

(** Delays lie between zero and the maximum. *)
Definition backoff_inv (b : Backoff) : Prop := backoff_ok b /\ 0 <= current b <= maximum b.

Lemma Backoff_Next_inv (b : Backoff) :
  backoff_inv b -> 0 < fst (Backoff_Next b) <= maximum b /\ backoff_inv (snd (Backoff_Next b)) /\
  maximum (snd (Backoff_Next b)) = maximum b.
Proof.
  intros [Hok Hc]. assert (Hok' := Hok). destruct Hok' as [Hm Hx].
  destruct (decide (current b = 0)) as [H0|H0].
  - rewrite (Backoff_Next_first b Hok H0). cbn. unfold backoff_inv, backoff_ok. cbn. lia.
  - rewrite (Backoff_Next_double b Hok) by lia. cbn. unfold backoff_inv, backoff_ok. cbn. lia.
Qed.

Lemma enter_backoff_waits (o : Options) (err : option error) (now : Z) (s : Supervisor) :
  blocked s = false -> backoff_inv (backoff s) ->
  let s' := enter_backoff o err now s in
  exists d, at_phase s' = PBackoff d /\ 0 < d <= maximum (backoff s) /\
    backoff_inv (backoff s') /\ maximum (backoff s') = maximum (backoff s) /\ restarts s' = restarts s /\
    blocked s' = false /\ waiting s' = waiting s /\ pending s' = pending s /\ ctxDone s' = ctxDone s /\
    starts s' = starts s /\ alive s' = alive s.
Proof.
  intros Hb Hi. unfold enter_backoff. rewrite Hb.
  set (b := if _ <=? _ then _ else _).
  assert (Hbi : backoff_inv b /\ maximum b = maximum (backoff s)).
  { subst b. case_if; [|done]. destruct Hi as [[H1 H2] H3]. unfold Backoff_Reset, backoff_inv, backoff_ok. cbn. lia. }
  destruct Hbi as [Hbi Hmax]. pose proof (Backoff_Next_inv b Hbi) as (Hd & Hbi' & Hmax').
  destruct (Backoff_Next b) as [d b']. cbn [fst snd] in *. exists d. cbn. rewrite <- Hmax. split; [done|]. split; [done|].
  split; [done|]. done.
Qed.

(** The loop left alone: its timer runs out and it tries again, with the clock
    readings [nows]; the result lists the delays. *)
Inductive retries (o : Options) : list Z -> Supervisor -> list Z -> Supervisor -> Prop :=
| retries_none s : retries o [] s [] s
| retries_wait now nows s d s1 s2 ds s' :
    at_phase s = PBackoff d -> step o s EvElapsed = Some s1 -> step o s1 (EvGo now) = Some s2 ->
    retries o nows s2 ds s' -> retries o (now :: nows) s (d :: ds) s'.

Lemma retries_reach_start (o : Options) (es : list error) (c : ownedChild) (h : health_outcome) (rest : list start_outcome)
    (nows : list Z) (s : Supervisor) (d : Z) :
  at_phase s = PBackoff d -> 0 < d <= maximum (backoff s) ->
  blocked s = false -> waiting s = false -> pending s = None -> ctxDone s = false -> backoff_inv (backoff s) ->
  starts s = map StartErr es ++ StartOk c h :: rest -> Forall (fun e => maintenanceDegraded (Some e) = false) es ->
  length nows = S (length es) ->
  exists ds s', retries o nows s ds s' /\ Forall (fun d => 0 < d <= maximum (backoff s)) ds /\
    at_phase s' = PRun c /\ alive s' = c :: alive s /\ restarts s' = uint64 (restarts s + Z.of_nat (length nows)) /\
    hd_error (observed s') = Some (mkObservation StatusStarting (own_PID c) (restarts s') None 0 (own_startedAt c)).
Proof.
  revert es s d. induction nows as [|now nows IH]; intros es s d Hp Hd Hb Hw Hpend Hctx Hi Hs Hes Hlen; [done|].
  set (s1 := bump s).
  assert (H1 : step o s EvElapsed = Some s1) by (unfold step; by rewrite Hp).
  assert (H2 : step o s1 (EvGo now) = Some (loop_top o now s1)).
  { unfold step. change (at_phase s1) with PTop. change (ctxDone s1) with (ctxDone s). by rewrite Hctx. }
  assert (Hr1 : restarts s1 = uint64 (restarts s + 1)) by done.
  assert (Htop : loop_top o now s1 =
    match start (set_loop (restarts s1) (backoff s1) now s1) with
    | (Ok (c, _), s) =>
        set_phase (PRun c) (observe (mkObservation StatusStarting (own_PID c) (restarts s) None 0 (own_startedAt c)) s)
    | (Err e, s) =>
        let s := if maintenanceDegraded (Some e)
                 then observe (observation StatusDegraded (restarts s) (Some (EText "Core startup recovery could not be confirmed")))
                        (set_blocked true s)
                 else s in
        enter_backoff o (Some (supervisorFailure "mihomo process start failed" (Some e))) now s
    end).
  { unfold loop_top. change (blocked (set_loop _ _ _ _)) with (blocked s). change (waiting (set_loop _ _ _ _)) with (waiting s).
    change (pending (set_loop _ _ _ _)) with (pending s). by rewrite Hb, Hw, Hpend. }
  assert (Hs2 : starts (set_loop (restarts s1) (backoff s1) now s1) = starts s) by done.
  unfold start in Htop. rewrite Hs2, Hs in Htop. destruct es as [|e es]; cbn [map app] in Htop.
  - destruct nows; [|done]. exists [d]. eexists. split; [eapply retries_wait; [done..|constructor]|].
    split; [constructor; [exact Hd|constructor]|]. rewrite Htop. cbn. done.
  - apply Forall_cons in Hes as [He Hes]. rewrite He in Htop. cbn zeta in Htop.
    set (s2 := set_env _ _ _ _ _ _) in Htop.
    destruct (enter_backoff_waits o (Some (supervisorFailure "mihomo process start failed" (Some e))) now s2 Hb Hi)
      as (d' & Hp' & Hd' & Hi' & Hm' & Hr' & Hb' & Hw' & Hpend' & Hctx' & Hst' & Ha').
    rewrite <- Htop in *. set (s3 := loop_top o now s1) in *.
    change (maximum (backoff s2)) with (maximum (backoff s)) in *. change (restarts s2) with (uint64 (restarts s + 1)) in Hr'.
    destruct (IH es s3 d') as (ds & s' & Hret & Hds & Hrun & Hal & Hre & Ho); try done; [by rewrite Hm'|by rewrite Hw'|by rewrite Hpend'|by rewrite Hctx'|cbn in Hlen; lia|].
    exists (d :: ds), s'. split; [by eapply retries_wait|]. rewrite Hm' in Hds. split; [by constructor|].
    split; [done|]. rewrite Hal, Ha'. split; [done|]. split; [|done].
    rewrite Hre, Hr', uint64_add_l. cbn [length]. f_equal. lia.
Qed.

(** ** Theorems *)

(** C3. Whatever processes do, whatever requests arrive and whatever the update
    callbacks are: as long as every stop was confirmed, the live core processes
    are exactly those the loop owns in its current phase, there is at most one,
    and a supervisor that is blocked or has returned from [Run] runs none. *)
Theorem reachable_single_process (o : Options) (wait : bool) (sts : list start_outcome)
    (sps : list stop_outcome) (evs : list event) (s : Supervisor) :
  reach o (init o wait sts sps) evs s ->
  stopFailed s = false ->
  alive s = owned s /\ (length (alive s) <= 1)%nat /\
  (blocked s = true \/ at_phase s = PReturned -> alive s = []).
Proof.
  intros Hr Hsf. apply reach_inv in Hr; [|by apply loop_inv_quiet].
  destruct (Hr Hsf) as (Ha & Hp & Hrun). rewrite Ha. split; [done|].
  unfold owned in *. destruct (at_phase s) as [| |c|d|] eqn:Hph; destruct (pending s) as [c'|] eqn:Hpe;
    simpl; (split; [lia|]); try done;
    try (destruct (Hp ltac:(done)) as (? & _ & ?); intros [?|?]; congruence);
    destruct (Hrun c eq_refl); intros [?|?]; congruence.
Qed.

(** A stop that could not be confirmed blocks the supervisor in the same
    step, and from then on, until an explicit reinstall is requested, no process
    is ever started again whatever else happens. *)
Theorem unconfirmed_stop_blocks (o : Options) (s s' s'' : Supervisor) (ev : event)
    (evs : list event) :
  step o s ev = Some s' ->
  stopFailed s = false -> stopFailed s' = true ->
  is_reinstall ev = false ->
  reach o s' evs s'' ->
  Forall (fun ev => is_reinstall ev = false) evs ->
  blocked s'' = true /\ launched s'' = launched s'.
Proof.
  intros Hst H0 H1 Hre Hr Hf.
  apply step_guarded in Hst as [_ Hst]; [|done]. apply reach_guarded in Hr as [Hr _]; [|done].
  apply Hr. destruct (Hst H1); congruence.
Qed.

(** C8. An update leaves the supervisor unblocked only if the process it hands
    to the loop was started by this update and passed its health confirmation;
    an update of a running core then hands over such a process, or the callback
    asked for the core to stay stopped and the loop waits.  A degraded answer of
    the callback always blocks. *)
Theorem update_adopts_only_healthy (w : bool -> work) (running : bool) (s s' : Supervisor)
    (err : option error) :
  performUpdate w running s = (err, s') ->
  blocked s' = false ->
  (forall c, pending s' = Some c -> confirmed (starts s) c) /\
  (running = true -> pending s' <> None \/ waiting s' = true) /\
  maintenanceDegraded err = false.
Proof.
  unfold performUpdate.
  pose proof (run_work_healthy (starts s) (w running) (mkSession None running false false) s) as Hh.
  destruct (run_work _ _ s) as [[werr u] s1].
  destruct Hh as [Hsuf Hh]; [by split|done|].
  destruct (_ || _ || _) eqn:Econd.
  { destruct (Session_Stop u s1) as [[? ?] s2]. intros; by simplify_eq/=. }
  breflect. destruct (keepStopped u && bool_decide (is_Some (process u))) eqn:Ek.
  - pose proof (Session_Stop_starts u s1) as Hst. destruct (Session_Stop u s1) as [[[e|] u2] s2].
    + intros; by simplify_eq/=.
    + destruct Hst as (_ & _ & Hp & Hk & _). breflect. rewrite Hk, Hp, H2. intros; simplify_eq.
      simpl. naive_solver.
  - intros; simplify_eq. case_bool_decide as Hsome; simpl in *.
    + destruct (process u) as [c|] eqn:Hp; [|by destruct Hsome]. breflect.
      rewrite andb_true_r in Ek. rewrite Ek. simpl. split; [|naive_solver].
      intros c' Hc'. simplify_eq. destruct (Hh H1) as (c2 & ? & ?). naive_solver.
    + apply eq_None_not_Some in Hsome. rewrite Hsome in *. simpl in *.
      destruct (keepStopped u), running; simpl in *; naive_solver.
Qed.

(** C10. The restart delays double from the minimum and saturate at the maximum,
    for every number of calls and every 64-bit maximum: no overflow ever
    shortens a delay. *)
Theorem backoff_closed_form (min max : Z) (n : nat) :
  0 < min -> max < two63 -> min < two63 ->
  nth_delay n (NewBackoff min max) = Z.min (min * 2 ^ Z.of_nat n) (Z.max min max).
Proof.
  intros Hmin Hmax Hm.
  assert (Hb : NewBackoff min max = mkBackoff min (Z.max min max) 0).
  { unfold NewBackoff. destruct (Z.leb_spec min 0); [lia|].
    destruct (Z.ltb_spec max min); f_equal; lia. }
  rewrite Hb. assert (Hok : forall c, backoff_ok (mkBackoff min (Z.max min max) c)).
  { unfold backoff_ok. simpl. lia. }
  destruct n as [|n]; cbn [nth_delay]; rewrite (Backoff_Next_first _ (Hok 0) eq_refl); cbn -[Z.mul Z.pow].
  - lia.
  - rewrite nth_delay_from; simpl; [done|apply Hok|lia].
Qed.

(** The monitor declares the core unhealthy exactly when three consecutive
    health checks failed, with the last of them as the cause; before that it
    publishes Running at most once. *)
Theorem monitor_fails_iff_three (checks : list (option error)) :
  (forall e, MonFailed e ∈ monitor true false checks -> three_in_a_row checks e) /\
  ((exists e, three_in_a_row checks e) -> exists e, MonFailed e ∈ monitor true false checks) /\
  (length (List.filter is_MonRunning (monitor true false checks)) <= 1)%nat.
Proof.
  unfold monitor. simpl. split; [|split].
  - intros e He. apply monitor_loop_failed in He; [|lia]. by destruct He.
  - intros (e & l1 & a & b & l2 & Heq).
    destruct (existsb is_MonFailed (monitor_loop 0 false checks)) eqn:Hex.
    + apply existsb_exists in Hex as (m & Hin & Hm). destruct m; try done.
      eexists. by apply list_elem_of_In.
    + exfalso. eapply (monitor_loop_no_failure checks 0 false); [lia| |exact Heq].
      intros e' He'. apply not_true_iff_false in Hex. apply Hex, existsb_exists.
      exists (MonFailed e'). by rewrite <- list_elem_of_In.
  - apply (monitor_loop_running checks 0 false).
Qed.

(** C9. A crashed core comes back without outside help.  When the running process
    exits while nothing blocks the supervisor, the loop, left alone, tries again
    after every failed start and after the n-th retry runs the first process that
    starts: only the failures before it delay it, every delay is at most the
    maximum, and each retry counts as a restart. *)
Theorem crashed_core_restarts (o : Options) (s : Supervisor) (old c : ownedChild) (h : health_outcome) (err : option error)
    (now : Z) (es : list error) (rest : list start_outcome) (nows : list Z) :
  at_phase s = PRun old -> blocked s = false -> waiting s = false -> pending s = None -> ctxDone s = false ->
  backoff_inv (backoff s) ->
  starts s = map StartErr es ++ StartOk c h :: rest -> Forall (fun e => maintenanceDegraded (Some e) = false) es ->
  length nows = S (length es) ->
  exists s1 ds s',
    step o s (EvExit err None now) = Some s1 /\ retries o nows s1 ds s' /\
    Forall (fun d => 0 < d <= maximum (backoff s)) ds /\ length ds = length nows /\
    at_phase s' = PRun c /\ alive s' = c :: exited old (alive s) /\
    restarts s' = uint64 (restarts s + Z.of_nat (length nows)) /\
    hd_error (observed s') = Some (mkObservation StatusStarting (own_PID c) (restarts s') None 0 (own_startedAt c)).
Proof.
  intros Hp Hb Hw Hpend Hctx Hi Hs Hes Hlen.
  set (e := Some (supervisorFailure "mihomo process exited unexpectedly" (errors_Join err None))).
  set (s0 := settle_stop old None s).
  assert (H1 : step o s (EvExit err None now) = Some (enter_backoff o e now s0)).
  { unfold step. rewrite Hp. unfold run_child, after_child. cbn [waitDescendants]. fold s0 e.
    change (ctxDone s0) with (ctxDone s). by rewrite Hctx. }
  destruct (enter_backoff_waits o e now s0 Hb Hi) as (d & Hp' & Hd & Hi' & Hm & Hr & Hb' & Hw' & Hpend' & Hctx' & Hst & Ha).
  set (s1 := enter_backoff o e now s0) in *. change (maximum (backoff s0)) with (maximum (backoff s)) in *.
  destruct (retries_reach_start o es c h rest nows s1 d) as (ds & s' & Hret & Hds & Hrun & Hal & Hre & Ho);
    try done; [by rewrite Hm|by rewrite Hw'|by rewrite Hpend'|by rewrite Hctx'|by rewrite Hst|].
  exists s1, ds, s'. split; [done|]. split; [done|]. rewrite Hm in Hds. split; [done|]. split.
  { clear -Hret. induction Hret; cbn; congruence. }
  split; [done|]. split; [by rewrite Hal, Ha|]. split; [by rewrite Hre, Hr|done].
Qed.

(** The restart counter goes up after every backoff, also when nothing was
    started before it: the first process that starts after one failed start is
    published with one restart. *)
Theorem failed_start_counts_as_restart :
  let o := New_options (mkOptions 0 0 0 0 0 0) in
  let c := mkOwnedChild 42 7 in
  let h := mkHealthOutcome false None None [] in
  exists s, reach o (init o false [StartErr (EText "boom"); StartOk c h] [])
              [EvGo 0; EvElapsed; EvGo 1; EvRunning] s /\
    launched s = 1 /\
    hd_error (observed s) = Some (mkObservation StatusRunning 42 1 None 0 7).
Proof.
  eexists. split; [repeat (econstructor; [vm_compute; reflexivity|]); constructor|].
  split; reflexivity.
Qed.

(** ** Witnesses *)

Definition example_options : Options := New_options (mkOptions 0 0 0 0 0 0).
Definition example_child : ownedChild := mkOwnedChild 42 7.
Definition example_health : health_outcome := mkHealthOutcome false None None [].
Definition example_trial : bool -> work := fun _ => WStart (fun e => WReturn e).
Definition example_running : Supervisor :=
  default (init example_options false [] [])
    (step example_options
      (init example_options false [StartOk example_child example_health]
         [mkStopOutcome None false (Some (EText "kill")) None false]) (EvGo 5)).
Definition example_stuck : Supervisor :=
  default example_running (step example_options example_running EvRestart).

Definition example_crashing : Supervisor :=
  default (init example_options false [] [])
    (step example_options
      (init example_options false
         [StartOk example_child example_health; StartErr (EText "boom"); StartOk example_child example_health] []) (EvGo 5)).

Lemma reachable_single_process_witness :
  length (alive example_running) = 1%nat /\ alive example_running = owned example_running.
Proof.
  split; [reflexivity|].
  eapply (reachable_single_process example_options false _ _ [EvGo 5]).
  - econstructor; [reflexivity|constructor].
  - reflexivity.
Defined.

Lemma unconfirmed_stop_blocks_witness :
  blocked example_stuck = true /\ launched example_stuck = 1.
Proof.
  assert (H : blocked example_stuck = true /\ launched example_stuck = launched example_stuck).
  { eapply (unconfirmed_stop_blocks example_options example_running example_stuck example_stuck
              EvRestart []); try reflexivity; constructor. }
  split; [exact (proj1 H)|reflexivity].
Defined.

Lemma update_adopts_only_healthy_witness :
  confirmed [StartOk example_child example_health] example_child.
Proof.
  eapply (update_adopts_only_healthy example_trial true
            (init example_options false [StartOk example_child example_health] []));
    reflexivity.
Defined.

Lemma backoff_closed_form_witness :
  nth_delay 40 (NewBackoff 1000000000 30000000000) = 30000000000.
Proof.
  rewrite (backoff_closed_form 1000000000 30000000000 40); [reflexivity|unfold two63; lia..].
Defined.

Lemma crashed_core_restarts_witness :
  exists s1 ds s', step example_options example_crashing (EvExit None None 9) = Some s1 /\
    retries example_options [10; 11] s1 ds s' /\ at_phase s' = PRun example_child.
Proof.
  destruct (crashed_core_restarts example_options example_crashing example_child example_child example_health None 9
              [EText "boom"] [] [10; 11]) as (s1 & ds & s' & H1 & H2 & _ & _ & H3 & _);
    try reflexivity.
  - unfold backoff_inv, backoff_ok, two63. vm_compute. intuition congruence.
  - repeat constructor.
  - exists s1, ds, s'. split; [exact H1|]. split; [exact H2|exact H3].
Defined.
