(* ===== verification/Atomic.v ===== *)
(** * Atomic: atomic replacement of a file

    Models [internal/config/atomic.go].  A path is its directory and base name.
    [fs] is the directory tree the process sees, with the list of all earlier
    trees: a crash leaves one of them.  [atomic_env] says how every call of the
    operating system goes.

    The other components only rely on what [AtomicFile] promises. *)

From S2P Require Import Prelude.

Definition path : Type := string * string.

Record fs := mkFS {
  files : gmap path string;
  history : list (gmap path string)   (** newest first *)
}.

Definition fs_set (m : gmap path string) (w : fs) : fs := mkFS m (files w :: history w).

(** [CommitResult]. *)
Record CommitResult := mkCommitResult {
  Committed : bool;
  Warning : option error
}.

Definition no_commit : CommitResult := mkCommitResult false None.

(** The answer of each system call.  [ae_written] is what reaches the file when
    [Write] fails half-way. *)
Record atomic_env := mkAtomicEnv {
  ae_mkdir : option error;
  ae_suffix : string;                (** the random part of the temporary name *)
  ae_create : option error;
  ae_chmod : option error;
  ae_written : string;
  ae_write : option error;
  ae_sync : option error;
  ae_close : option error;
  ae_replace : option error;
  ae_syncDir : option error;
  ae_closeCleanup : option error;
  ae_remove : option error
}.

Definition no_faults (suffix : string) : atomic_env :=
  mkAtomicEnv None suffix None None "" None None None None None None None.

Definition fmt_error (m : string) (e : option error) : option error := option_map (EFmt m) e.

Definition temp_name (p : path) (suffix : string) : path :=
  (fst p, "." ++ snd p ++ ".tmp-" ++ suffix)%string.

(** [os.CreateTemp]: the name must not exist. *)
Definition create_temp (env : atomic_env) (t : path) (w : fs) : option error * fs :=
  match ae_create env, files w !! t with
  | Some e, _ => (Some e, w)
  | None, Some _ => (Some (ESentinel ErrExist), w)
  | None, None => (None, fs_set (<[t := ""%string]> (files w)) w)
  end.

(** [os.Remove]. *)
Definition os_remove (e : option error) (t : path) (w : fs) : option error * fs :=
  match files w !! t, e with
  | None, _ => (Some (ESentinel ErrNotExist), w)
  | Some _, Some e => (Some e, w)
  | Some _, None => (None, fs_set (delete t (files w)) w)
  end.

(** [os.Rename] of the temporary file onto the target. *)
Definition replace (e : option error) (t p : path) (w : fs) : option error * fs :=
  match e, files w !! t with
  | Some e, _ => (Some e, w)
  | None, None => (Some (ESentinel ErrNotExist), w)
  | None, Some c => (None, fs_set (<[p := c]> (delete t (files w))) w)
  end.

(** The body of [writeAtomic] after the temporary file exists: the result, the
    error and whether the file was closed. *)
Definition write_body (env : atomic_env) (t p : path) (content : string) (w : fs)
    : CommitResult * option error * bool * fs :=
  match ae_chmod env with
  | Some e => (no_commit, Some (EFmt "set temporary permissions" e), false, w)
  | None =>
      match ae_write env with
      | Some e => (no_commit, Some (EFmt "write temporary file" e), false,
                   fs_set (<[t := ae_written env]> (files w)) w)
      | None =>
          let w := fs_set (<[t := content]> (files w)) w in
          match ae_sync env with
          | Some e => (no_commit, Some (EFmt "sync temporary file" e), false, w)
          | None =>
              match ae_close env with
              | Some e => (no_commit, Some (EFmt "close temporary file" e), true, w)
              | None =>
                  match replace (ae_replace env) t p w with
                  | (Some e, w) => (no_commit, Some (EFmt "replace active file" e), true, w)
                  | (None, w) =>
                      (mkCommitResult true (fmt_error "sync parent directory" (ae_syncDir env)),
                       None, true, w)
                  end
              end
          end
      end
  end.

(** The deferred cleanup. *)
Definition write_cleanup (env : atomic_env) (t : path) (closed : bool) (w : fs)
    : option error * fs :=
  let cleanup := if closed then None
                 else fmt_error "close temporary file" (ae_closeCleanup env) in
  let '(rm, w) := os_remove (ae_remove env) t w in
  match rm with
  | Some e => if errors_Is e ErrNotExist then (cleanup, w)
              else (errors_Join cleanup (Some (EFmt "remove temporary file" e)), w)
  | None => (cleanup, w)
  end.

Definition writeAtomic (env : atomic_env) (p : path) (content : string) (w : fs)
    : CommitResult * option error * fs :=
  match ae_mkdir env with
  | Some e => (no_commit, Some (EFmt "create parent directory" e), w)
  | None =>
      let t := temp_name p (ae_suffix env) in
      match create_temp env t w with
      | (Some e, w) => (no_commit, Some (EFmt "create temporary file" e), w)
      | (None, w) =>
          let '(result, err, closed, w) := write_body env t p content w in
          let '(cleanup, w) := write_cleanup env t closed w in
          match cleanup with
          | None => (result, err, w)
          | Some _ =>
              if Committed result
              then (mkCommitResult true (errors_Join (Warning result) cleanup), err, w)
              else (result, errors_Join err cleanup, w)
          end
      end
  end.

Definition AtomicWriteWithCommit := writeAtomic.

Definition AtomicWrite (env : atomic_env) (p : path) (content : string) (w : fs)
    : option error * fs :=
  let '(result, err, w) := AtomicWriteWithCommit env p content w in
  match err with
  | Some e => (Some e, w)
  | None => (Warning result, w)
  end.

(** Temporary files are hidden. *)
Definition hidden (p : path) : bool := String.prefix "." (snd p).

(** What a component that owns files relies on: a write either commits the whole
    content or reports an error and leaves the file as it was; it touches no
    other file than one hidden temporary name; a removal touches one file. *)
Class AtomicFile (Env W : Type) := {
  af_read : path -> W -> option string;
  af_write : Env -> path -> string -> W -> CommitResult * option error * W;
  af_remove : path -> W -> W;
  af_committed : forall env p c w r e w',
    af_write env p c w = (r, e, w') -> Committed r = true -> e = None /\ af_read p w' = Some c;
  af_failed : forall env p c w r e w',
    af_write env p c w = (r, e, w') -> Committed r = false ->
    e <> None /\ af_read p w' = af_read p w;
  af_other : forall env p c w r e w' q,
    af_write env p c w = (r, e, w') -> q <> p -> hidden q = false -> af_read q w' = af_read q w;
  af_removed : forall p w q, af_read q (af_remove p w) = if decide (q = p) then None else af_read q w
}.

(** ** Lemmas *)

Lemma temp_name_ne (p : path) (suffix : string) : temp_name p suffix <> p.
Proof.
  destruct p as [d b]. unfold temp_name. intros [= H]. simpl in H.
  apply (f_equal String.length) in H. rewrite !append_length in H. simpl in H. lia.
Qed.

Lemma temp_name_hidden (p : path) (suffix : string) : hidden (temp_name p suffix) = true.
Proof. unfold hidden, temp_name. simpl. by destruct (snd p ++ _)%string. Qed.

(** The states between two points of an execution: all newer states of [w'] down
    to [w] satisfy [P]. *)
Definition passes (P : gmap path string -> Prop) (w w' : fs) : Prop :=
  exists l, files w' :: history w' = l ++ files w :: history w /\ Forall P l.

Lemma passes_refl (P : gmap path string -> Prop) (w : fs) : passes P w w.
Proof. by exists []. Qed.

Lemma passes_trans (P : gmap path string -> Prop) (w1 w2 w3 : fs) : passes P w1 w2 -> passes P w2 w3 -> passes P w1 w3.
Proof.
  intros (l1 & H1 & F1) (l2 & H2 & F2). exists (l2 ++ l1). rewrite H2, H1, app_assoc.
  split; [done|]. by apply Forall_app.
Qed.

Lemma passes_set (P : gmap path string -> Prop) (w : fs) (m : gmap path string) : P m -> passes P w (fs_set m w).
Proof. intros Hm. exists [m]. split; [done|]. by constructor. Qed.

(** The states in which the file at [p] is the old or the whole new one and the
    other files but the temporary one are untouched. *)
Definition old_or_new (p t : path) (w : fs) (content : string) (m : gmap path string) : Prop :=
  (m !! p = files w !! p \/ m !! p = Some content) /\
  (forall q, q <> p -> q <> t -> m !! q = files w !! q).

(** After the temporary file was created only it differs. *)
Definition only_temp (t : path) (w w' : fs) : Prop :=
  forall q, q <> t -> files w' !! q = files w !! q.

(** The body: its commit flag decides between the whole new content and the
    unchanged file; an uncommitted body reports an error and leaves the
    temporary file, a committed one consumed it. *)
Lemma write_body_spec (env : atomic_env) (t p : path) (content : string) (w0 w w' : fs)
    (r : CommitResult) (e : option error) (closed : bool) :
  t <> p -> only_temp t w0 w -> is_Some (files w !! t) -> files w0 !! t = None ->
  write_body env t p content w = (r, e, closed, w') ->
  passes (old_or_new p t w0 content) w w' /\
  (forall q, q <> p -> q <> t -> files w' !! q = files w0 !! q) /\
  if Committed r
  then e = None /\ closed = true /\ files w' !! p = Some content /\ files w' !! t = None /\
       Warning r = fmt_error "sync parent directory" (ae_syncDir env)
  else e <> None /\ r = no_commit /\ files w' !! p = files w0 !! p /\ is_Some (files w' !! t).
Proof.
  intros Hne Hot Ht Hnone.
  assert (Hp : files w !! p = files w0 !! p) by (apply Hot; congruence).
  assert (Hq : forall c q, q <> t -> <[t:=c]> (files w) !! q = files w0 !! q).
  { intros c q Hqt. rewrite lookup_insert_ne by congruence. by apply Hot. }
  assert (Hpw : forall c, passes (old_or_new p t w0 content) w (fs_set (<[t:=c]> (files w)) w)).
  { intros c. apply passes_set. split; [left; apply Hq; congruence|]. intros; by apply Hq. }
  unfold write_body. destruct (ae_chmod env).
  { intros; simplify_eq/=. repeat split; auto using passes_refl. }
  destruct (ae_write env).
  { intros; simplify_eq/=. split; [apply Hpw|]. split; [intros; by apply Hq|].
    split; [done|]. split; [done|]. split; [apply Hq; congruence|]. rewrite lookup_insert_eq; eauto. }
  assert (Hc : forall e' : error,
    passes (old_or_new p t w0 content) w (fs_set (<[t:=content]> (files w)) w) /\
    (forall q, q <> p -> q <> t -> <[t:=content]> (files w) !! q = files w0 !! q) /\
    Some e' <> None /\ no_commit = no_commit /\ <[t:=content]> (files w) !! p = files w0 !! p /\
    is_Some (<[t:=content]> (files w) !! t)).
  { intros e'. split; [apply Hpw|]. split; [intros; by apply Hq|]. split; [done|]. split; [done|].
    split; [apply Hq; congruence|]. rewrite lookup_insert_eq; eauto. }
  destruct (ae_sync env); [intros; simplify_eq/=; by apply Hc|].
  destruct (ae_close env); [intros; simplify_eq/=; by apply Hc|].
  unfold replace. simpl. destruct (ae_replace env); [intros; simplify_eq/=; by apply Hc|].
  rewrite lookup_insert_eq. intros; simplify_eq/=.
  assert (Hfin : forall q, q <> p -> q <> t ->
            <[p:=content]> (delete t (<[t:=content]> (files w))) !! q = files w0 !! q).
  { intros q ? ?. rewrite lookup_insert_ne by congruence. rewrite lookup_delete_ne by congruence.
    by apply Hq. }
  split; [|split; [exact Hfin|]].
  - eapply passes_trans; [apply (Hpw content)|]. apply passes_set. split; [|exact Hfin].
    right. by rewrite lookup_insert_eq.
  - rewrite lookup_insert_eq, lookup_insert_ne, lookup_delete_eq by congruence. done.
Qed.

(** The cleanup removes the temporary file or reports that it could not. *)
Lemma write_cleanup_spec (env : atomic_env) (t p : path) (content : string) (w0 w w' : fs)
    (closed : bool) (e : option error) :
  t <> p -> old_or_new p t w0 content (files w) ->
  write_cleanup env t closed w = (e, w') ->
  passes (old_or_new p t w0 content) w w' /\
  (forall q, q <> t -> files w' !! q = files w !! q) /\
  (files w !! t = None -> files w' !! t = None) /\
  (closed = true -> files w !! t = None -> e = None) /\
  (ae_remove env = None -> files w' !! t = None).
Proof.
  intros Hne [Hon Hoth]. unfold write_cleanup, os_remove.
  destruct (files w !! t) as [c|] eqn:Ht; [destruct (ae_remove env) as [re|] eqn:Hr|];
    simpl; intros H.
  - assert (w' = w) as -> by (destruct (errors_Is re ErrNotExist); congruence).
    repeat split; auto using passes_refl; done.
  - simplify_eq/=. rewrite lookup_delete_eq.
    assert (Hd : forall q, q <> t -> delete t (files w) !! q = files w !! q)
      by (intros; by rewrite lookup_delete_ne by congruence).
    repeat split; auto; try done. apply passes_set. split; [rewrite Hd by congruence; done|].
    intros q ? ?. rewrite Hd by done. auto.
  - simplify_eq/=. repeat split; auto using passes_refl. by intros ->.
Qed.

(** The whole write, from any state and for any behaviour of the system. *)
Lemma writeAtomic_spec (env : atomic_env) (p : path) (content : string) (w w' : fs)
    (r : CommitResult) (e : option error) :
  writeAtomic env p content w = (r, e, w') ->
  let t := temp_name p (ae_suffix env) in
  passes (old_or_new p t w content) w w' /\
  (forall q, q <> p -> q <> t -> files w' !! q = files w !! q) /\
  (ae_remove env = None -> files w !! t = None -> files w' !! t = None) /\
  if Committed r
  then e = None /\ files w' !! p = Some content /\ files w' !! t = None /\
       Warning r = fmt_error "sync parent directory" (ae_syncDir env)
  else e <> None /\ files w' !! p = files w !! p.
Proof.
  intros H t. unfold writeAtomic in H. fold t in H.
  pose proof (temp_name_ne p (ae_suffix env)) as Hne. fold t in Hne.
  destruct (ae_mkdir env); [simplify_eq/=; auto using passes_refl|].
  unfold create_temp in H.
  destruct (ae_create env); [simplify_eq/=; auto using passes_refl|].
  destruct (files w !! t) eqn:Ht; [simplify_eq/=; rewrite Ht; auto using passes_refl|].
  set (w1 := fs_set _ w) in H.
  assert (Hot : only_temp t w w1) by (intros q ?; simpl; by rewrite lookup_insert_ne by congruence).
  assert (H1 : passes (old_or_new p t w content) w w1).
  { apply passes_set. split; [left; apply Hot; congruence|]. intros; by apply Hot. }
  destruct (write_body env t p content w1) as [[[r1 e1] closed] w2] eqn:Hb.
  apply (write_body_spec env t p content w w1) in Hb as (H2 & Hoth2 & Hm);
    [|done|done|simpl; rewrite lookup_insert_eq; eauto|done].
  destruct (write_cleanup env t closed w2) as [ce w3] eqn:Hcl.
  apply (write_cleanup_spec env t p content w) in Hcl as (H3 & Hsame & Hgone & Hquiet & Hrm); [|done|].
  2:{ split; [|done]. destruct (Committed r1); [right|left]; apply Hm. }
  assert (w' = w3 /\ Committed r = Committed r1 /\
          (ce = None -> r = r1 /\ e = e1) /\ (Committed r1 = false -> e = errors_Join e1 ce))
    as (-> & Hc & Hnone & Herr).
  { destruct ce; [destruct (Committed r1) eqn:E|]; simplify_eq/=; repeat split; try done.
    intros. by destruct e. }
  split; [eauto using passes_trans|]. split; [intros; rewrite Hsame; auto|]. split; [auto|].
  rewrite Hc. destruct (Committed r1) eqn:E; simplify_eq/=.
  - destruct Hm as (-> & -> & Hp & Hg & Hw). rewrite (Hsame p) by congruence.
    destruct (Hnone (Hquiet eq_refl Hg)) as [-> ->]. auto.
  - destruct Hm as (He & -> & Hp & _). rewrite (Hsame p) by congruence.
    rewrite Herr by done. split; [|done]. by destruct e1, ce.
Qed.

#[export] Instance writeAtomic_AtomicFile : AtomicFile atomic_env fs.
Proof.
  refine {| af_read := fun p w => files w !! p; af_write := AtomicWriteWithCommit;
            af_remove := fun p w => fs_set (delete p (files w)) w |}.
  - intros env p c w r e w' H Hc. apply writeAtomic_spec in H as (_ & _ & _ & Hm).
    rewrite Hc in Hm. naive_solver.
  - intros env p c w r e w' H Hc. apply writeAtomic_spec in H as (_ & _ & _ & Hm).
    rewrite Hc in Hm. naive_solver.
  - intros env p c w r e w' q H Hq Hh. apply writeAtomic_spec in H as (_ & Ho & _). apply Ho; [done|].
    intros ->. by rewrite temp_name_hidden in Hh.
  - intros p w q. simpl. rewrite lookup_delete. by repeat case_decide.
Defined.

(** ** Theorems *)

(** C12. Atomic replacement, whatever the operating system answers: every state
    of the file system the write passes through, hence every state a crash can
    leave, holds either the previous or the complete new content at the path and
    the previous content everywhere else; the result says which one is there at
    the end (committed without an error, or unchanged with one); a committed
    write leaves no temporary file, and its only warning is the directory sync. *)
Theorem write_atomic_crash_safe (env : atomic_env) (p : path) (content : string) (w w' : fs)
    (r : CommitResult) (e : option error) :
  AtomicWriteWithCommit env p content w = (r, e, w') ->
  let t := temp_name p (ae_suffix env) in
  passes (old_or_new p t w content) w w' /\
  (forall q, q <> p -> q <> t -> files w' !! q = files w !! q) /\
  if Committed r
  then e = None /\ files w' !! p = Some content /\ files w' !! t = None /\
       Warning r = fmt_error "sync parent directory" (ae_syncDir env)
  else e <> None /\ files w' !! p = files w !! p.
Proof. intros H t. apply writeAtomic_spec in H. fold t in H. tauto. Qed.

(** A plain [AtomicWrite] that reports success wrote the content and synced the
    directory; one that reports failure left the old or the new content. *)
Lemma AtomicWrite_spec (env : atomic_env) (p : path) (content : string) (w w' : fs)
    (e : option error) :
  AtomicWrite env p content w = (e, w') ->
  (e = None -> files w' !! p = Some content /\ ae_syncDir env = None) /\
  (files w' !! p = files w !! p \/ files w' !! p = Some content).
Proof.
  unfold AtomicWrite, AtomicWriteWithCommit.
  destruct (writeAtomic env p content w) as [[r e1] w1] eqn:H. intros He.
  apply writeAtomic_spec in H as (_ & _ & _ & Hm).
  destruct (Committed r).
  - destruct Hm as (-> & Hp & _ & Hw). simplify_eq/=. split; [|auto]. rewrite Hw.
    by destruct (ae_syncDir env).
  - destruct Hm as (He1 & Hp). destruct e1; [|done]. simplify_eq/=. split; [done|auto].
Qed.

Definition example_path : path := ("/etc/mihari"%string, "settings.yaml"%string).

Lemma write_atomic_crash_safe_witness :
  let w := mkFS {[ example_path := "old"%string ]} [] in
  files (snd (AtomicWriteWithCommit (no_faults "1") example_path "new" w)) !! example_path
    = Some "new"%string.
Proof.
  intros w.
  destruct (AtomicWriteWithCommit (no_faults "1") example_path "new" w) as [[r e] w'] eqn:H.
  assert (Hc : Committed r = true).
  { change r with (fst (fst (r, e, w'))). rewrite <- H. vm_compute. reflexivity. }
  pose proof (write_atomic_crash_safe _ _ _ _ _ _ _ H) as Ht.
  rewrite Hc in Ht. destruct Ht as (_ & _ & _ & Hp & _). exact Hp.
Defined.
