(* ===== verification/GoStd.v ===== *)
(** * GoStd: the parts of Go's standard library the components use

    Go strings are byte strings; a Rocq [string] is the same thing.  The
    definitions follow the documented behaviour of [strings], [strconv],
    [unicode/utf8], [encoding/hex] and [net/netip]. *)

From Corelib Require Import SpecFloat.
From Stdlib Require Import Ascii DecimalString DecimalFacts DecimalN DecimalPos Decimal.
From S2P Require Import Prelude.

Definition byte (c : Ascii.ascii) : Z := Z.of_nat (Ascii.nat_of_ascii c).
Definition chr (n : nat) : Ascii.ascii := Ascii.ascii_of_nat n.
Definition len (s : string) : Z := Z.of_nat (String.length s).

(** ** strings *)

Definition HasPrefix (s p : string) : bool := String.prefix p s.

Fixpoint drop (n : nat) (s : string) : string :=
  match n, s with
  | O, _ => s
  | S _, EmptyString => EmptyString
  | S n, String _ s => drop n s
  end.

Fixpoint take (n : nat) (s : string) : string :=
  match n, s with
  | O, _ => EmptyString
  | S _, EmptyString => EmptyString
  | S n, String c s => String c (take n s)
  end.

Definition HasSuffix (s p : string) : bool :=
  (String.length p <=? String.length s)%nat
  && String.eqb (drop (String.length s - String.length p) s) p.

Definition TrimPrefix (s p : string) : string :=
  if HasPrefix s p then drop (String.length p) s else s.

Definition TrimSuffix (s p : string) : string :=
  if HasSuffix s p then take (String.length s - String.length p) s else s.

Definition CutPrefix (s p : string) : string * bool :=
  if HasPrefix s p then (drop (String.length p) s, true) else (s, false).

(** [strings.Cut] around the first [sep]. *)
Fixpoint Cut (s sep : string) : option (string * string) :=
  if String.prefix sep s then Some (EmptyString, drop (String.length sep) s)
  else match s with
       | EmptyString => None
       | String c s =>
           match Cut s sep with
           | Some (before, after) => Some (String c before, after)
           | None => None
           end
       end.

Definition Contains (s sub : string) : bool := bool_decide (is_Some (Cut s sub)).

(** [strings.Split] at a one-byte separator; never empty. *)
Fixpoint Split (sep : Ascii.ascii) (s : string) : list string :=
  match s with
  | EmptyString => [EmptyString]
  | String c s =>
      if Ascii.eqb c sep then EmptyString :: Split sep s
      else match Split sep s with
           | [] => [String c EmptyString]
           | part :: parts => String c part :: parts
           end
  end.

Fixpoint Join (sep : string) (l : list string) : string :=
  match l with
  | [] => EmptyString
  | [a] => a
  | a :: l => (a ++ sep ++ Join sep l)%string
  end.

Definition LF : Ascii.ascii := chr 10.
Definition CR : Ascii.ascii := chr 13.

(** [strings.ReplaceAll(s, "\r\n", "\n")]. *)
Fixpoint replace_crlf (s : string) : string :=
  match s with
  | EmptyString => EmptyString
  | String a s' =>
      match s' with
      | String b _ => if Ascii.eqb a CR && Ascii.eqb b LF then replace_crlf s'
                      else String a (replace_crlf s')
      | EmptyString => String a EmptyString
      end
  end.

(** [unicode.IsSpace] on the UTF-8 encoding: the number of bytes of the white
    space character that starts with these bytes, 0 if none does. *)
Definition space1 (a : Z) : bool := (9 <=? a) && (a <=? 13) || (a =? 32).
Definition space2 (a b : Z) : bool := (a =? 194) && ((b =? 133) || (b =? 160)).
Definition space3 (a b c : Z) : bool :=
  (a =? 225) && (b =? 154) && (c =? 128)
  || (a =? 226) && (b =? 128) &&
     ((128 <=? c) && (c <=? 138) || (c =? 168) || (c =? 169) || (c =? 175))
  || (a =? 226) && (b =? 129) && (c =? 159)
  || (a =? 227) && (b =? 128) && (c =? 128).

Fixpoint trim_left (s : string) : string :=
  match s with
  | EmptyString => EmptyString
  | String a s1 =>
      if space1 (byte a) then trim_left s1
      else match s1 with
           | EmptyString => s
           | String b s2 =>
               if space2 (byte a) (byte b) then trim_left s2
               else match s2 with
                    | EmptyString => s
                    | String c s3 =>
                        if space3 (byte a) (byte b) (byte c) then trim_left s3 else s
                    end
           end
  end.

Fixpoint rev_append (s acc : string) : string :=
  match s with EmptyString => acc | String c s => rev_append s (String c acc) end.
Definition reverse (s : string) : string := rev_append s EmptyString.

(** [trim_left] of the reversed string, whose characters have their bytes in
    reverse order. *)
Fixpoint trim_left_rev (s : string) : string :=
  match s with
  | EmptyString => EmptyString
  | String a s1 =>
      if space1 (byte a) then trim_left_rev s1
      else match s1 with
           | EmptyString => s
           | String b s2 =>
               if space2 (byte b) (byte a) then trim_left_rev s2
               else match s2 with
                    | EmptyString => s
                    | String c s3 =>
                        if space3 (byte c) (byte b) (byte a) then trim_left_rev s3 else s
                    end
           end
  end.

Definition TrimSpace (s : string) : string :=
  reverse (trim_left_rev (reverse (trim_left s))).

(** ** unicode/utf8 *)

Definition cont (c : Z) : bool := (128 <=? c) && (c <=? 191).

(** [utf8.ValidString]: RFC 3629, no surrogates, no overlong forms. *)
Fixpoint ValidString (s : string) : bool :=
  match s with
  | EmptyString => true
  | String a s1 =>
      let x := byte a in
      if x <? 128 then ValidString s1
      else match s1 with
           | EmptyString => false
           | String b s2 =>
               let y := byte b in
               if (194 <=? x) && (x <=? 223) then cont y && ValidString s2
               else match s2 with
                    | EmptyString => false
                    | String c s3 =>
                        let z := byte c in
                        if (224 <=? x) && (x <=? 239) then
                          (if x =? 224 then (160 <=? y) && (y <=? 191)
                           else if x =? 237 then (128 <=? y) && (y <=? 159)
                           else cont y) && cont z && ValidString s3
                        else match s3 with
                             | EmptyString => false
                             | String d s4 =>
                                 if (240 <=? x) && (x <=? 244) then
                                   (if x =? 240 then (144 <=? y) && (y <=? 191)
                                    else if x =? 244 then (128 <=? y) && (y <=? 143)
                                    else cont y) && cont z && cont (byte d) && ValidString s4
                                 else false
                             end
                    end
           end
  end.

(** ** strconv *)

(** [strconv.Itoa] of a non-negative number and [strconv.FormatUint]. *)
Definition Itoa_nonneg (n : N) : string := NilZero.string_of_uint (N.to_uint n).

Definition Itoa (z : Z) : string :=
  if z <? 0 then String "-"%char (Itoa_nonneg (Z.to_N (- z))) else Itoa_nonneg (Z.to_N z).

(** Decimal digits only, at least one; leading zeros are accepted. *)
Definition parse_digits (s : string) : option N :=
  option_map N.of_uint (NilZero.uint_of_string s).

(** [strconv.ParseUint(s, 10, bits)], [None] for any error. *)
Definition ParseUint (bits : Z) (s : string) : option Z :=
  match parse_digits s with
  | Some n => if Z.of_N n <? 2 ^ bits then Some (Z.of_N n) else None
  | None => None
  end.

(** [strconv.ParseInt(s, 10, 64)] and [strconv.Atoi] on a 64-bit platform. *)
Definition ParseInt (s : string) : option Z :=
  let '(neg, digits) :=
    match s with
    | String c s' => if Ascii.eqb c "-"%char then (true, s')
                     else if Ascii.eqb c "+"%char then (false, s') else (false, s)
    | EmptyString => (false, s)
    end in
  match parse_digits digits with
  | Some n =>
      let z := if neg : bool then - Z.of_N n else Z.of_N n in
      if (- two63 <=? z) && (z <? two63) then Some z else None
  | None => None
  end.

Definition Atoi : string -> option Z := ParseInt.

(** ** time.ParseDuration *)

Definition is_digit (c : Ascii.ascii) : bool := (48 <=? byte c) && (byte c <=? 57).
Definition digit (c : Ascii.ascii) : Z := byte c - 48.

(** [leadingInt]; [None] on overflow. *)
Fixpoint leadingInt (x : Z) (s : string) : option (Z * string) :=
  match s with
  | EmptyString => Some (x, s)
  | String c s' =>
      if is_digit c then
        if two63 / 10 <? x then None
        else let x := x * 10 + digit c in
             if two63 <? x then None else leadingInt x s'
      else Some (x, s)
  end.

(** IEEE double precision. *)
Definition float_of_Z (z : Z) : spec_float := binary_normalize 53 1024 z 0 false.
Definition float_mul : spec_float -> spec_float -> spec_float := SFmul 53 1024.
Definition float_div : spec_float -> spec_float -> spec_float := SFdiv 53 1024.

(** [uint64(f)] of a non-negative float in range. *)
Definition trunc_float (f : spec_float) : Z :=
  match f with
  | S754_finite _ m e => if 0 <=? e then Z.pos m * 2 ^ e else Z.pos m / 2 ^ (- e)
  | _ => 0
  end.

(** [leadingFraction]. *)
Fixpoint leadingFraction (x : Z) (scale : spec_float) (overflow : bool) (s : string)
    : Z * spec_float * string :=
  match s with
  | EmptyString => (x, scale, s)
  | String c s' =>
      if is_digit c then
        if overflow || ((two63 - 1) / 10 <? x) then leadingFraction x scale true s'
        else let y := x * 10 + digit c in
             if two63 <? y then leadingFraction x scale true s'
             else leadingFraction y (float_mul scale (float_of_Z 10)) false s'
      else (x, scale, s)
  end.

(** The text up to the next digit or point. *)
Fixpoint unit_text (s : string) : string * string :=
  match s with
  | EmptyString => (EmptyString, s)
  | String c s' =>
      if is_digit c || Ascii.eqb c "."%char then (EmptyString, s)
      else let '(u, rest) := unit_text s' in (String c u, rest)
  end.

Definition duration_unit (u : string) : option Z :=
  if String.eqb u "ns" then Some 1
  else if String.eqb u "us" then Some 1000
  else if String.eqb u (String (chr 194) (String (chr 181) "s")) then Some 1000
  else if String.eqb u (String (chr 206) (String (chr 188) "s")) then Some 1000
  else if String.eqb u "ms" then Some 1000000
  else if String.eqb u "s" then Some 1000000000
  else if String.eqb u "m" then Some 60000000000
  else if String.eqb u "h" then Some 3600000000000
  else None.

(** The rounds of [time.ParseDuration]; every round consumes at least one byte,
    so the length of the text is enough fuel. *)
Fixpoint duration_rounds (fuel : nat) (d : Z) (s : string) : option Z :=
  match fuel, s with
  | _, EmptyString => Some d
  | O, _ => None
  | S fuel, String c _ =>
      if negb (is_digit c || Ascii.eqb c "."%char) then None
      else match leadingInt 0 s with
      | None => None
      | Some (v, s1) =>
          let pre := negb (String.length s1 =? String.length s)%nat in
          let '(f, scale, s2, post) :=
            match s1 with
            | String p s1' =>
                if Ascii.eqb p "."%char then
                  let '(f, scale, s2) := leadingFraction 0 (float_of_Z 1) false s1' in
                  (f, scale, s2, negb (String.length s2 =? String.length s1')%nat)
                else (0, float_of_Z 1, s1, false)
            | EmptyString => (0, float_of_Z 1, s1, false)
            end in
          if negb pre && negb post then None
          else
            let '(u, s3) := unit_text s2 in
            match duration_unit u with
            | None => None
            | Some unit =>
                if two63 / unit <? v then None
                else
                  let v := v * unit in
                  let v := if 0 <? f
                           then uint64 (v + trunc_float (float_mul (float_of_Z f)
                                                           (float_div (float_of_Z unit) scale)))
                           else v in
                  if (0 <? f) && (two63 <? v) then None
                  else let d := uint64 (d + v) in
                       if two63 <? d then None else duration_rounds fuel d s3
            end
      end
  end.

Definition ParseDuration (s : string) : option Z :=
  let '(neg, s) :=
    match s with
    | String c s' => if Ascii.eqb c "-"%char then (true, s')
                     else if Ascii.eqb c "+"%char then (false, s') else (false, s)
    | EmptyString => (false, s)
    end in
  if String.eqb s "0" then Some 0
  else if String.eqb s "" then None
  else match duration_rounds (String.length s) 0 s with
       | None => None
       | Some d =>
           if neg : bool then Some (int64 (- d))
           else if two63 - 1 <? d then None else Some d
       end.

(** ** encoding/hex *)

Definition hex_digit (c : Ascii.ascii) : option Z :=
  let x := byte c in
  if (48 <=? x) && (x <=? 57) then Some (x - 48)
  else if (97 <=? x) && (x <=? 102) then Some (x - 87)
  else if (65 <=? x) && (x <=? 70) then Some (x - 55)
  else None.

(** [hex.DecodeString]. *)
Fixpoint hex_decode (s : string) : option (list Z) :=
  match s with
  | EmptyString => Some []
  | String a (String b s) =>
      match hex_digit a, hex_digit b, hex_decode s with
      | Some x, Some y, Some l => Some (16 * x + y :: l)
      | _, _, _ => None
      end
  | String _ EmptyString => None
  end.

Definition hex_char (x : Z) : Ascii.ascii :=
  chr (Z.to_nat (if x <? 10 then 48 + x else 87 + x)).

(** [hex.EncodeToString]. *)
Fixpoint hex_encode (l : list Z) : string :=
  match l with
  | [] => EmptyString
  | x :: l => String (hex_char (x / 16)) (String (hex_char (x mod 16)) (hex_encode l))
  end.

(** ** net/netip *)

(** An address: its bytes (4 or 16) and zone. *)
Record Addr := mkAddr {
  addr_bytes : list Z;
  addr_zone : string
}.

#[export] Instance Addr_eq_dec : EqDecision Addr.
Proof. solve_decision. Defined.

Record AddrPort := mkAddrPort {
  ap_addr : Addr;
  ap_port : Z
}.

Definition Is4 (a : Addr) : bool := (length (addr_bytes a) =? 4)%nat.
Definition Is6 (a : Addr) : bool := (length (addr_bytes a) =? 16)%nat.

(** One field of a dotted address: at most three digits, no leading zero, at
    most 255. *)
Definition parse_octet (s : string) : option Z :=
  match s with
  | String c (String _ _) =>
      if Ascii.eqb c "0"%char then None else ParseUint 8 s
  | _ => ParseUint 8 s
  end.

Definition parseIPv4 (s : string) : option (list Z) :=
  match Split "."%char s with
  | [a; b; c; d] =>
      match parse_octet a, parse_octet b, parse_octet c, parse_octet d with
      | Some a, Some b, Some c, Some d => Some [a; b; c; d]
      | _, _, _, _ => None
      end
  | _ => None
  end.

(** The leading hexadecimal digits of a group: the value, how many there are and
    the rest. *)
Fixpoint hex_group (acc count : Z) (s : string) : Z * Z * string :=
  match s with
  | EmptyString => (acc, count, s)
  | String c s' =>
      match hex_digit c with
      | Some d => hex_group (16 * acc + d) (count + 1) s'
      | None => (acc, count, s)
      end
  end.

(** The groups of an IPv6 address: bytes so far and the position of "::".  Every
    round consumes at least one byte, so the length of the string is enough
    fuel. *)
Fixpoint ipv6_groups (fuel : nat) (bytes : list Z) (ellipsis : option nat) (s : string)
    : option (list Z * option nat) :=
  match fuel with
  | O => None
  | S fuel =>
      if (16 <=? length bytes)%nat then
        match s with EmptyString => Some (bytes, ellipsis) | _ => None end
      else
        let '(acc, off, rest) := hex_group 0 0 s in
        if (off =? 0) || (4 <? off) then None
        else match rest with
             | EmptyString => Some (bytes ++ [acc / 256; acc mod 256], ellipsis)
             | String c rest' =>
                 if Ascii.eqb c "."%char then
                   match parseIPv4 s with
                   | Some v4 =>
                       if (match ellipsis with None => negb (length bytes =? 12)%nat | _ => false end)
                          || (12 <? length bytes)%nat
                       then None else Some (bytes ++ v4, ellipsis)
                   | None => None
                   end
                 else if Ascii.eqb c ":"%char then
                   let bytes := bytes ++ [acc / 256; acc mod 256] in
                   match rest' with
                   | EmptyString => None
                   | String c2 rest2 =>
                       if Ascii.eqb c2 ":"%char then
                         match ellipsis with
                         | Some _ => None
                         | None =>
                             match rest2 with
                             | EmptyString => Some (bytes, Some (length bytes))
                             | _ => ipv6_groups fuel bytes (Some (length bytes)) rest2
                             end
                         end
                       else ipv6_groups fuel bytes ellipsis rest'
                   end
                 else None
             end
  end.

Definition zeros (n : nat) : list Z := replicate n 0.

(** Expansion of "::", which must stand for at least one zero byte. *)
Definition ipv6_expand (bytes : list Z) (ellipsis : option nat) : option (list Z) :=
  let n := (16 - length bytes)%nat in
  if (length bytes <? 16)%nat then
    match ellipsis with
    | None => None
    | Some e => Some (firstn e bytes ++ zeros n ++ skipn e bytes)
    end
  else match ellipsis with Some _ => None | None => Some bytes end.

Definition parseIPv6 (s : string) : option Addr :=
  let '(body, zone, zoned) :=
    match Cut s "%" with Some (b, z) => (b, z, true) | None => (s, EmptyString, false) end in
  if zoned && String.eqb zone "" then None
  else
    let '(body, ellipsis) :=
      if HasPrefix body "::" then (drop 2 body, Some O) else (body, None) in
    match ellipsis, body with
    | Some _, EmptyString => Some (mkAddr (zeros 16) zone)
    | _, _ =>
        match ipv6_groups (S (String.length body)) [] ellipsis body with
        | Some (bytes, ellipsis) =>
            match ipv6_expand bytes ellipsis with
            | Some bytes => Some (mkAddr bytes zone)
            | None => None
            end
        | None => None
        end
    end.

(** [netip.ParseAddr]: the first of '.', ':' and '%' decides the family. *)
Fixpoint addr_family (s : string) : option bool :=
  match s with
  | EmptyString => None
  | String c s =>
      if Ascii.eqb c "."%char then Some false
      else if Ascii.eqb c ":"%char then Some true
      else if Ascii.eqb c "%"%char then None
      else addr_family s
  end.

Definition ParseAddr (s : string) : option Addr :=
  match addr_family s with
  | Some false => option_map (fun b => mkAddr b EmptyString) (parseIPv4 s)
  | Some true => parseIPv6 s
  | None => None
  end.

(** Split at the last ':'. *)
Fixpoint cut_last_colon (s : string) : option (string * string) :=
  match s with
  | EmptyString => None
  | String c s' =>
      match cut_last_colon s' with
      | Some (a, b) => Some (String c a, b)
      | None => if Ascii.eqb c ":"%char then Some (EmptyString, s') else None
      end
  end.

(** [netip.ParseAddrPort]. *)
Definition ParseAddrPort (s : string) : option AddrPort :=
  match cut_last_colon s with
  | None => None
  | Some (ip, port) =>
      if String.eqb ip "" || String.eqb port "" then None
      else
        let bracketed := HasPrefix ip "[" in
        if bracketed && negb ((2 <=? String.length ip)%nat && HasSuffix ip "]") then None
        else
          let ip := if bracketed then TrimSuffix (TrimPrefix ip "[") "]" else ip in
          match ParseUint 16 port, ParseAddr ip with
          | Some port, Some a =>
              if bracketed && Is4 a || negb bracketed && Is6 a then None
              else Some (mkAddrPort a port)
          | _, _ => None
          end
  end.

(** [Addr.IsLoopback]; an IPv4-mapped IPv6 address counts as its IPv4 address. *)
Definition v4_mapped : list Z := zeros 10 ++ [255; 255].

Definition IsLoopback (a : Addr) : bool :=
  let bytes := if bool_decide (firstn 12 (addr_bytes a) = v4_mapped)
               then skipn 12 (addr_bytes a) else addr_bytes a in
  match bytes with
  | [b; _; _; _] => b =? 127
  | _ => bool_decide (bytes = zeros 15 ++ [1])
  end.

(** ** Letter case and words *)

(** Case mapping of strings with non-ASCII characters, from the tables of
    package unicode; ASCII strings are mapped byte by byte. *)
Class Unicode := { unicode_ToLower : string -> string }.

Fixpoint is_ascii (s : string) : bool :=
  match s with EmptyString => true | String c s => (byte c <? 128) && is_ascii s end.

Definition lower_ascii (c : Ascii.ascii) : Ascii.ascii :=
  if (65 <=? byte c) && (byte c <=? 90) then chr (Z.to_nat (byte c + 32)) else c.

Fixpoint map_ascii (f : Ascii.ascii -> Ascii.ascii) (s : string) : string :=
  match s with EmptyString => EmptyString | String c s => String (f c) (map_ascii f s) end.

Definition ToLower `{Unicode} (s : string) : string :=
  if is_ascii s then map_ascii lower_ascii s else unicode_ToLower s.

(** [strings.EqualFold]; case folding beyond ASCII is from the tables. *)
Class CaseFold := { unicode_EqualFold : string -> string -> bool }.

Definition EqualFold `{CaseFold} (a b : string) : bool :=
  if is_ascii a && is_ascii b then String.eqb (map_ascii lower_ascii a) (map_ascii lower_ascii b)
  else unicode_EqualFold a b.

(** [strings.Fields]: the words between white space; [cur] is the word read so
    far. *)
Definition flush (cur : string) (l : list string) : list string :=
  match cur with EmptyString => l | _ => cur :: l end.

Fixpoint fields_from (cur s : string) : list string :=
  match s with
  | EmptyString => flush cur []
  | String a s1 =>
      if space1 (byte a) then flush cur (fields_from "" s1)
      else match s1 with
           | EmptyString => [(cur ++ String a "")%string]
           | String b s2 =>
               if space2 (byte a) (byte b) then flush cur (fields_from "" s2)
               else match s2 with
                    | EmptyString => fields_from (cur ++ String a "") s1
                    | String c s3 =>
                        if space3 (byte a) (byte b) (byte c) then flush cur (fields_from "" s3)
                        else fields_from (cur ++ String a "") s1
                    end
           end
  end.
Definition Fields (s : string) : list string := fields_from "" s.

(** ** Lemmas *)

Lemma len_nonneg (s : string) : 0 <= len s.
Proof. unfold len. lia. Qed.

Lemma is_ascii_app a b : is_ascii (a ++ b)%string = is_ascii a && is_ascii b.
Proof. induction a as [|c a IH]; [done|]. change (String c a ++ b)%string with (String c (a ++ b)%string). simpl. by rewrite IH, andb_assoc. Qed.

Lemma parse_digits_Itoa (n : N) : parse_digits (Itoa_nonneg n) = Some n.
Proof.
  unfold parse_digits, Itoa_nonneg.
  rewrite NilZero.usu.
  - simpl. f_equal. apply DecimalN.Unsigned.of_to.
  - destruct n as [|p]; [discriminate|]. simpl. apply DecimalPos.Unsigned.to_uint_nonnil.
Qed.

Lemma ParseUint_Itoa (bits n : Z) :
  0 <= n < 2 ^ bits -> ParseUint bits (Itoa_nonneg (Z.to_N n)) = Some n.
Proof.
  intros Hn. unfold ParseUint. rewrite parse_digits_Itoa, Z2N.id by lia.
  destruct (Z.ltb_spec n (2 ^ bits)); [done|lia].
Qed.

Lemma duration_rounds_range (fuel : nat) (d : Z) (s : string) (r : Z) :
  0 <= d -> duration_rounds fuel d s = Some r -> 0 <= r.
Proof.
  revert d s. induction fuel as [|fuel IH]; intros d [|c s]; cbn [duration_rounds];
    try (intros; by simplify_eq).
  intros Hd. case_if; [done|]. destruct (leadingInt 0 _) as [[v s1]|]; [|done].
  destruct (match s1 with EmptyString => _ | String _ _ => _ end) as [[[f scale] s2] post].
  case_if; [done|]. destruct (unit_text s2) as [u s3]. destruct (duration_unit u); [|done].
  repeat (case_if; [done|]). apply IH. apply uint64_range.
Qed.

Lemma ParseDuration_range (s : string) (d : Z) : ParseDuration s = Some d -> in_int64 d.
Proof.
  unfold ParseDuration. destruct (match s with EmptyString => _ | String _ _ => _ end) as [neg s1].
  case_if; [intros; simplify_eq; unfold in_int64, two63; lia|]. case_if; [done|].
  destruct (duration_rounds _ 0 s1) as [r|] eqn:Hr; [|done].
  apply duration_rounds_range in Hr; [|lia].
  destruct neg; [intros; simplify_eq; apply int64_range|].
  case_if; intros; simplify_eq. breflect. unfold in_int64, two63 in *. lia.
Qed.

(** The interval texts of the code and a few corner cases. *)
Example ParseDuration_examples :
  ParseDuration "12h" = Some 43200000000000 /\ ParseDuration "1h30m" = Some 5400000000000 /\
  ParseDuration "1.5h" = Some 5400000000000 /\ ParseDuration ".5ms" = Some 500000 /\
  ParseDuration "-1m" = Some (-60000000000) /\ ParseDuration "12" = None /\
  ParseDuration "." = None /\ ParseDuration "9223372036854775808ns" = None.
Proof. vm_compute. repeat split; reflexivity. Qed.

Example ParseAddrPort_examples :
  option_map ap_port (ParseAddrPort "127.0.0.1:9090") = Some 9090 /\
  option_map (fun a => IsLoopback (ap_addr a)) (ParseAddrPort "[::1]:80") = Some true /\
  option_map (fun a => IsLoopback (ap_addr a)) (ParseAddrPort "[::ffff:127.0.0.1]:80") = Some true /\
  option_map (fun a => IsLoopback (ap_addr a)) (ParseAddrPort "[fe80::1%eth0]:1") = Some false /\
  option_map ap_addr (ParseAddrPort "[1:2::7:8]:1") =
    Some (mkAddr [0; 1; 0; 2; 0; 0; 0; 0; 0; 0; 0; 0; 0; 7; 0; 8] "") /\
  ParseAddrPort "::1:80" = None /\ ParseAddrPort "1.2.3.04:1" = None /\
  ParseAddrPort "[1.2.3.4]:80" = None /\ ParseAddrPort "localhost:80" = None /\
  ParseAddrPort "127.0.0.1:65536" = None.
Proof. vm_compute. repeat split; reflexivity. Qed.

Example TrimSpace_examples :
  TrimSpace "  a b	" = "a b"%string /\
  TrimSpace (String (chr 194) (String (chr 160) (String "x"%char (String (chr 227) (String (chr 128)
    (String (chr 128) ""%string)))))) = "x"%string.
Proof. vm_compute. split; reflexivity. Qed.

(** ** TrimSpace is idempotent *)

Lemma append_nil_r (s : string) : (s ++ "")%string = s.
Proof. induction s as [|c s IH]; [done|]. exact (f_equal (String c) IH). Qed.

Lemma append_assoc (a b c : string) : ((a ++ b) ++ c)%string = (a ++ b ++ c)%string.
Proof. induction a as [|x a IH]; [done|]. exact (f_equal (String x) IH). Qed.

Lemma rev_append_spec (s acc : string) : rev_append s acc = (reverse s ++ acc)%string.
Proof.
  unfold reverse. revert acc. induction s as [|c s IH]; intros acc; simpl; [done|].
  rewrite IH, (IH (String c "")), append_assoc. done.
Qed.

Lemma reverse_app (a b : string) : reverse (a ++ b) = (reverse b ++ reverse a)%string.
Proof.
  induction a as [|c a IH]; [by rewrite append_nil_r|].
  change (rev_append (a ++ b) (String c "") = (reverse b ++ rev_append a (String c ""))%string).
  rewrite !rev_append_spec, IH, append_assoc. done.
Qed.

Lemma reverse_involutive (s : string) : reverse (reverse s) = s.
Proof.
  induction s as [|c s IH]; [done|]. unfold reverse at 2. simpl.
  rewrite rev_append_spec, reverse_app, IH. done.
Qed.

(** No white space at the front of the string, read forwards or backwards. *)
Definition lead_ok (s : string) : bool :=
  match s with
  | EmptyString => true
  | String a EmptyString => negb (space1 (byte a))
  | String a (String b EmptyString) => negb (space1 (byte a)) && negb (space2 (byte a) (byte b))
  | String a (String b (String c _)) =>
      negb (space1 (byte a)) && negb (space2 (byte a) (byte b))
      && negb (space3 (byte a) (byte b) (byte c))
  end.

Definition lead_rev_ok (s : string) : bool :=
  match s with
  | EmptyString => true
  | String a EmptyString => negb (space1 (byte a))
  | String a (String b EmptyString) => negb (space1 (byte a)) && negb (space2 (byte b) (byte a))
  | String a (String b (String c _)) =>
      negb (space1 (byte a)) && negb (space2 (byte b) (byte a))
      && negb (space3 (byte c) (byte b) (byte a))
  end.

Ltac use_bools :=
  simpl; repeat match goal with H : _ = false |- _ => rewrite H; clear H end.

Lemma trim_left_lead (s : string) : lead_ok (trim_left s) = true.
Proof.
  remember (String.length s) as n eqn:Hs. revert s Hs.
  induction n as [n IH] using (well_founded_induction lt_wf). intros s Hs.
  destruct s as [|a s1]; [done|]. simpl in *. case_if; [eapply IH; [|done]; lia|].
  destruct s1 as [|b s2]; [by use_bools|]. simpl in *. case_if; [eapply IH; [|done]; lia|].
  destruct s2 as [|c s3]; [by use_bools|]. simpl in *. case_if; [eapply IH; [|done]; lia|].
  by use_bools.
Qed.

Lemma trim_left_rev_lead (s : string) : lead_rev_ok (trim_left_rev s) = true.
Proof.
  remember (String.length s) as n eqn:Hs. revert s Hs.
  induction n as [n IH] using (well_founded_induction lt_wf). intros s Hs.
  destruct s as [|a s1]; [done|]. simpl in *. case_if; [eapply IH; [|done]; lia|].
  destruct s1 as [|b s2]; [by use_bools|]. simpl in *. case_if; [eapply IH; [|done]; lia|].
  destruct s2 as [|c s3]; [by use_bools|]. simpl in *. case_if; [eapply IH; [|done]; lia|].
  by use_bools.
Qed.

Lemma lead_ok_trim (s : string) : lead_ok s = true -> trim_left s = s.
Proof.
  destruct s as [|a [|b [|c s]]]; simpl; [done|..]; intros; breflect; by repeat case_if.
Qed.

Lemma lead_rev_ok_trim (s : string) : lead_rev_ok s = true -> trim_left_rev s = s.
Proof.
  destruct s as [|a [|b [|c s]]]; simpl; [done|..]; intros; breflect; by repeat case_if.
Qed.

(** A prefix of a string without leading space has none. *)
Lemma lead_ok_prefix (s t : string) : lead_ok (s ++ t) = true -> lead_ok s = true.
Proof.
  destruct s as [|a [|b [|c s]]]; [done|..]; simpl; [destruct t as [|b [|c t]]|destruct t as [|c t]|];
    simpl; intros; breflect; by rewrite ?H, ?H0, ?H1.
Qed.

Lemma trim_left_rev_suffix (s : string) : exists p, s = (p ++ trim_left_rev s)%string.
Proof.
  remember (String.length s) as n eqn:Hs. revert s Hs.
  induction n as [n IH] using (well_founded_induction lt_wf). intros s Hs.
  destruct s as [|a s1]; [by exists ""%string|]. simpl in *.
  case_if.
  { destruct (IH (String.length s1) ltac:(lia) s1 eq_refl) as [p Hp].
    exists (String a p). exact (f_equal (String a) Hp). }
  destruct s1 as [|b s2]; [by exists ""%string|]. simpl in *. case_if.
  { destruct (IH (String.length s2) ltac:(lia) s2 eq_refl) as [p Hp].
    exists (String a (String b p)). exact (f_equal (fun x => String a (String b x)) Hp). }
  destruct s2 as [|c s3]; [by exists ""%string|]. simpl in *. case_if; [|by exists ""%string].
  destruct (IH (String.length s3) ltac:(lia) s3 eq_refl) as [p Hp].
  exists (String a (String b (String c p))).
  exact (f_equal (fun x => String a (String b (String c x))) Hp).
Qed.

Lemma TrimSpace_idempotent (s : string) : TrimSpace (TrimSpace s) = TrimSpace s.
Proof.
  unfold TrimSpace at 2 3. set (r := trim_left_rev (reverse (trim_left s))).
  assert (Hl : lead_ok (reverse r) = true).
  { destruct (trim_left_rev_suffix (reverse (trim_left s))) as [p Hp]. fold r in Hp.
    apply (f_equal reverse) in Hp. rewrite reverse_involutive, reverse_app in Hp.
    apply (lead_ok_prefix _ (reverse p)). rewrite <- Hp. apply trim_left_lead. }
  unfold TrimSpace. rewrite (lead_ok_trim _ Hl), reverse_involutive.
  rewrite lead_rev_ok_trim; [done|]. apply trim_left_rev_lead.
Qed.

(** ** Prefixes and decimal numbers *)

Lemma prefix_append (p s : string) : String.prefix p (p ++ s) = true.
Proof.
  induction p as [|c p IH]; [by destruct s|].
  change (String.prefix (String c p) (String c (p ++ s)) = true). simpl.
  destruct (ascii_dec c c); done.
Qed.

Lemma drop_append (p s : string) : drop (String.length p) (p ++ s) = s.
Proof. induction p as [|c p IH]; [done|]. exact IH. Qed.

Lemma prefix_drop (p s : string) :
  String.prefix p s = true -> s = (p ++ drop (String.length p) s)%string.
Proof.
  revert s. induction p as [|c p IH]; intros s; [done|]. destruct s as [|d s]; [done|]. simpl.
  destruct (ascii_dec c d) as [->|]; [|done]. intros Hp. exact (f_equal (String d) (IH s Hp)).
Qed.

(** A positive number starts with a non-zero digit. *)
Lemma Itoa_pos_head (n : Z) :
  1 <= n -> exists c s, Itoa n = String c s /\ 49 <= byte c <= 57.
Proof.
  intros Hn. unfold Itoa. destruct (Z.ltb_spec n 0); [lia|]. unfold Itoa_nonneg.
  pose proof (DecimalN.Unsigned.to_of (N.to_uint (Z.to_N n))) as Hnorm.
  rewrite DecimalN.Unsigned.of_to in Hnorm.
  assert (Hz : N.to_uint (Z.to_N n) <> Decimal.D0 Decimal.Nil).
  { intros He. apply (f_equal N.of_uint) in He. rewrite DecimalN.Unsigned.of_to in He.
    simpl in He. lia. }
  destruct (N.to_uint (Z.to_N n)) as [|d|d|d|d|d|d|d|d|d|d] eqn:Hd;
    try (eexists _, _; split; [reflexivity|vm_compute; split; discriminate]).
  exfalso. unfold Decimal.unorm in Hnorm. simpl in Hnorm.
  destruct (Decimal.nzhead d) eqn:Hz2; try discriminate Hnorm.
  - injection Hnorm as ->. done.
  - by apply DecimalFacts.nzhead_nonzero in Hz2.
Qed.

Lemma Atoi_Itoa (n : Z) : 1 <= n < two63 -> Atoi (Itoa n) = Some n.
Proof.
  intros Hn. destruct (Itoa_pos_head n) as (c & s & Hi & Hc); [lia|].
  unfold Atoi, ParseInt. rewrite Hi.
  destruct (Ascii.eqb_spec c "-"%char) as [->|_]; [change (byte "-"%char) with 45 in Hc; lia|].
  destruct (Ascii.eqb_spec c "+"%char) as [->|_]; [change (byte "+"%char) with 43 in Hc; lia|].
  rewrite <- Hi. unfold Itoa. destruct (Z.ltb_spec n 0); [lia|].
  rewrite parse_digits_Itoa, Z2N.id by lia.
  destruct (Z.leb_spec (- two63) n), (Z.ltb_spec n two63); simpl; try done; unfold two63 in *; lia.
Qed.

(** A canonical decimal: digits only, no superfluous zero. *)
Fixpoint all_digits (s : string) : bool :=
  match s with EmptyString => true | String c s => is_digit c && all_digits s end.

Definition canonical_decimal (s : string) : bool :=
  match s with
  | EmptyString => false
  | String c EmptyString => is_digit c
  | String c t => is_digit c && negb (Ascii.eqb c "0"%char) && all_digits t
  end.

Lemma string_of_uint_digits (u : Decimal.uint) : all_digits (NilEmpty.string_of_uint u) = true.
Proof. induction u; simpl; auto. Qed.

Lemma unorm_canonical (u : Decimal.uint) :
  canonical_decimal (NilZero.string_of_uint (Decimal.unorm u)) = true.
Proof.
  unfold Decimal.unorm. destruct (Decimal.nzhead u) as [|d|d|d|d|d|d|d|d|d|d] eqn:Hu; [reflexivity| |..];
    try (cbn; pose proof (string_of_uint_digits d) as Hd; destruct (NilEmpty.string_of_uint d); cbn in *;
         [reflexivity|exact Hd]).
  by apply DecimalFacts.nzhead_nonzero in Hu.
Qed.

Lemma Itoa_canonical (n : Z) : 0 <= n -> canonical_decimal (Itoa n) = true.
Proof.
  intros Hn. unfold Itoa. destruct (Z.ltb_spec n 0); [lia|]. unfold Itoa_nonneg.
  rewrite <- (DecimalN.Unsigned.of_to (Z.to_N n)), DecimalN.Unsigned.to_of. apply unorm_canonical.
Qed.

(** A canonical decimal is the text of its value. *)
Lemma uint_of_canonical (s : string) (u : Decimal.uint) :
  canonical_decimal s = true -> NilZero.uint_of_string s = Some u -> Decimal.unorm u = u.
Proof.
  destruct s as [|c s]; [done|]. unfold NilZero.uint_of_string. cbn [NilEmpty.uint_of_string].
  destruct (NilEmpty.uint_of_string s) as [v|] eqn:Hv; [|done]. unfold uint_of_char.
  intros Hc He. destruct s as [|c2 s].
  - cbn in Hv. injection Hv as <-.
    destruct c as [[] [] [] [] [] [] [] []]; cbn in He; try discriminate He; injection He as <-; reflexivity.
  - cbn [canonical_decimal] in Hc.
    destruct c as [[] [] [] [] [] [] [] []]; cbn in He; try discriminate He;
      injection He as <-; try reflexivity; discriminate Hc.
Qed.

Lemma parse_digits_canonical (s : string) (n : N) :
  canonical_decimal s = true -> parse_digits s = Some n -> Itoa_nonneg n = s.
Proof.
  intros Hc. unfold parse_digits, Itoa_nonneg.
  destruct (NilZero.uint_of_string s) as [u|] eqn:Hu; [|done]. cbn. intros He. injection He as <-.
  rewrite DecimalN.Unsigned.to_of, (uint_of_canonical s u Hc Hu). by apply NilZero.sus.
Qed.

Lemma canonical_head (s : string) :
  canonical_decimal s = true -> exists c t, s = String c t /\ is_digit c = true /\ all_digits t = true.
Proof.
  destruct s as [|c [|c2 t]]; [done|..]; cbn [canonical_decimal]; intros H.
  - by exists c, ""%string.
  - apply andb_prop in H as [H Ht]. apply andb_prop in H as [Hc _]. by exists c, (String c2 t).
Qed.

Lemma Atoi_canonical (s : string) (n : Z) :
  canonical_decimal s = true -> Atoi s = Some n -> s = Itoa n /\ 0 <= n < two63.
Proof.
  intros Hc. destruct (canonical_head s Hc) as (c & t & Hs & Hd & _). unfold Atoi, ParseInt. rewrite Hs.
  unfold is_digit in Hd. breflect.
  destruct (Ascii.eqb_spec c "-"%char) as [->|_]; [change (byte "-"%char) with 45 in *; lia|].
  destruct (Ascii.eqb_spec c "+"%char) as [->|_]; [change (byte "+"%char) with 43 in *; lia|].
  rewrite <- Hs. destruct (parse_digits s) as [m|] eqn:Hp; [|done].
  apply (parse_digits_canonical s m Hc) in Hp. case_if; [|done]. intros He. injection He as <-.
  breflect. unfold Itoa. destruct (Z.ltb_spec (Z.of_N m) 0); [lia|]. rewrite N2Z.id. split; [done|lia].
Qed.

Lemma Atoi_Itoa_nonneg (n : Z) : 0 <= n < two63 -> Atoi (Itoa n) = Some n.
Proof.
  intros Hn. destruct (decide (n = 0)) as [->|]; [reflexivity|]. apply Atoi_Itoa. lia.
Qed.

(** Printable ASCII strings have no white space to trim. *)
Fixpoint printable (s : string) : bool :=
  match s with EmptyString => true | String c s => (33 <=? byte c) && (byte c <=? 126) && printable s end.

Lemma printable_app (a b : string) : printable (a ++ b) = printable a && printable b.
Proof.
  induction a as [|c a IH]; [done|]. change (String c a ++ b)%string with (String c (a ++ b)).
  cbn [printable]. rewrite IH. by rewrite andb_assoc.
Qed.

Lemma printable_reverse (s : string) : printable (reverse s) = printable s.
Proof.
  unfold reverse. assert (H : forall acc, printable (rev_append s acc) = printable s && printable acc).
  { induction s as [|c s IH]; intros acc; [done|]. cbn [rev_append printable]. rewrite IH.
    cbn [printable]. destruct (printable s), (printable acc), ((33 <=? byte c) && (byte c <=? 126)); done. }
  rewrite H. apply andb_true_r.
Qed.

Ltac no_space :=
  let E := fresh in
  apply not_true_is_false; intros E; unfold space1, space2, space3 in E;
  rewrite ?orb_true_iff, ?andb_true_iff, ?Z.leb_le, ?Z.eqb_eq in E; lia.

Lemma printable_lead (s : string) :
  printable s = true -> lead_ok s = true /\ lead_rev_ok s = true.
Proof.
  destruct s as [|a [|b [|c s]]]; cbn [printable lead_ok lead_rev_ok]; [done|..]; intros H;
    rewrite ?andb_true_iff, ?Z.leb_le in H; split; rewrite ?andb_true_iff, ?negb_true_iff;
    repeat split; no_space.
Qed.

Lemma TrimSpace_printable (s : string) : printable s = true -> TrimSpace s = s.
Proof.
  intros H. unfold TrimSpace. rewrite lead_ok_trim by (by apply printable_lead).
  rewrite lead_rev_ok_trim by (apply printable_lead; by rewrite printable_reverse).
  apply reverse_involutive.
Qed.
