(* ===== verification/GoNet.v ===== *)
(** * GoNet: host and port strings

    The documented behaviour of [net.JoinHostPort], [net.SplitHostPort] and
    [netip.Addr.String], and that they fit together. *)

From Stdlib Require Import Ascii.
From S2P Require Import Prelude GoStd.

(** ** Characters in strings *)

Fixpoint has_char (c : ascii) (s : string) : bool :=
  match s with EmptyString => false | String d s => Ascii.eqb d c || has_char c s end.

(** What stands before and after the first [c]. *)
Fixpoint cut_char (c : ascii) (s : string) : option (string * string) :=
  match s with
  | EmptyString => None
  | String d s' =>
      if Ascii.eqb d c then Some (EmptyString, s')
      else match cut_char c s' with Some (a, b) => Some (String d a, b) | None => None end
  end.

(** [net.JoinHostPort]. *)
Definition JoinHostPort (host port : string) : string :=
  if has_char ":" host then ("[" ++ host ++ "]:" ++ port)%string else (host ++ ":" ++ port)%string.

(** The rest of a string that starts with [c]. *)
Definition after_char (c : ascii) (s : string) : option string :=
  match s with String d s' => if Ascii.eqb d c then Some s' else None | EmptyString => None end.

(** [net.SplitHostPort]; [None] is an error. *)
Definition SplitHostPort (s : string) : option (string * string) :=
  match cut_last_colon s with
  | None => None
  | Some (before, port) =>
      match after_char "[" s with
      | Some body =>
          match cut_char "]" body with
          | None => None
          | Some (host, rest) =>
              (* the last colon must follow the bracket directly *)
              match after_char ":" rest with
              | Some rest' =>
                  if has_char ":" rest' then None
                  else if has_char "[" body || has_char "]" rest then None
                  else Some (host, port)
              | None => None
              end
          end
      | None =>
          if has_char ":" before then None
          else if has_char "[" s || has_char "]" s then None
          else Some (before, port)
      end
  end.

(** ** Addresses as text *)

(** Lower-case hexadecimal digits of a 16-bit number without leading zeros. *)
Definition hex16 (n : Z) : string :=
  let d k := String (hex_char (n / 16 ^ k mod 16)) EmptyString in
  if n <? 16 then d 0 else if n <? 256 then (d 1 ++ d 0)%string
  else if n <? 4096 then (d 2 ++ d 1 ++ d 0)%string else (d 3 ++ d 2 ++ d 1 ++ d 0)%string.

Fixpoint pairs16 (l : list Z) : list Z :=
  match l with a :: b :: l => 256 * a + b :: pairs16 l | _ => [] end.

(** The number of leading zeros. *)
Fixpoint zero_run (l : list Z) : nat := match l with x :: l => if x =? 0 then S (zero_run l) else O | [] => O end.

(** The first longest run of at least two zeros: start and end. *)
Fixpoint best_run (i : nat) (l : list Z) (best : nat * nat) : nat * nat :=
  match l with
  | [] => best
  | _ :: l' =>
      let n := zero_run l in
      best_run (S i) l' (if (2 <=? n)%nat && (snd best - fst best <? n)%nat then (i, i + n)%nat else best)
  end.

Fixpoint join (sep : string) (l : list string) : string :=
  match l with [] => EmptyString | [x] => x | x :: l => (x ++ sep ++ join sep l)%string end.

Definition dotted (l : list Z) : string := join "." (map Itoa l).

Definition string6 (g : list Z) : string :=
  let '(a, b) := best_run 0 g (0, 0)%nat in
  if (b =? 0)%nat then join ":" (map hex16 g)
  else (join ":" (map hex16 (firstn a g)) ++ "::" ++ join ":" (map hex16 (skipn b g)))%string.

(** [netip.Addr.String]. *)
Definition addr_String (a : Addr) : string :=
  let zone := if String.eqb (addr_zone a) "" then ""%string else ("%" ++ addr_zone a)%string in
  if Is4 a then dotted (addr_bytes a)
  else if bool_decide (firstn 12 (addr_bytes a) = v4_mapped)
  then ("::ffff:" ++ dotted (skipn 12 (addr_bytes a)) ++ zone)%string
  else (string6 (pairs16 (addr_bytes a)) ++ zone)%string.

Example addr_String_examples :
  option_map addr_String (ParseAddr "127.0.0.1") = Some "127.0.0.1"%string /\
  option_map addr_String (ParseAddr "0:0:0:0:0:0:0:1") = Some "::1"%string /\
  option_map addr_String (ParseAddr "2001:DB8:0:0:1:0:0:1") = Some "2001:db8::1:0:0:1"%string /\
  option_map addr_String (ParseAddr "::ffff:7f00:1") = Some "::ffff:127.0.0.1"%string /\
  option_map addr_String (ParseAddr "fe80::1%eth0") = Some "fe80::1%eth0"%string /\
  option_map addr_String (ParseAddr "1:0:2:3:4:5:6:0") = Some "1:0:2:3:4:5:6:0"%string /\
  option_map addr_String (ParseAddr "::") = Some "::"%string.
Proof. repeat split; vm_compute; reflexivity. Qed.

Example SplitHostPort_examples :
  SplitHostPort "127.0.0.1:80" = Some ("127.0.0.1", "80")%string /\
  SplitHostPort "[::1]:80" = Some ("::1", "80")%string /\
  SplitHostPort "::1:80" = None /\ SplitHostPort "[::1]80" = None /\ SplitHostPort "host" = None /\
  SplitHostPort "[::1" = None /\ SplitHostPort "[a]:b:c" = None /\ SplitHostPort "a[b:1" = None /\
  SplitHostPort ":80" = Some ("", "80")%string.
Proof. repeat split; vm_compute; reflexivity. Qed.

(** ** Lemmas *)

Lemma has_char_append (c : ascii) (a b : string) : has_char c (a ++ b) = has_char c a || has_char c b.
Proof.
  induction a as [|d a IH]; [done|]. change (has_char c (String d (a ++ b)) = has_char c (String d a) || has_char c b).
  cbn. by rewrite IH, orb_assoc.
Qed.

Lemma cut_last_colon_none (s : string) : has_char ":" s = false -> cut_last_colon s = None.
Proof.
  induction s as [|d s IH]; [done|]. cbn. intros H. apply orb_false_iff in H as [Hd Hs].
  rewrite IH by done. by rewrite Hd.
Qed.

Lemma cut_last_colon_app (a b : string) :
  has_char ":" b = false -> cut_last_colon (a ++ ":" ++ b) = Some (a, b).
Proof.
  intros Hb. induction a as [|d a IH].
  - change (cut_last_colon (String ":" b) = Some (""%string, b)). cbn. by rewrite cut_last_colon_none.
  - change (cut_last_colon (String d (a ++ ":" ++ b)) = Some (String d a, b)). cbn. by rewrite IH.
Qed.

Lemma cut_char_app (c : ascii) (a b : string) : has_char c a = false -> cut_char c (a ++ String c b) = Some (a, b).
Proof.
  induction a as [|d a IH]; intros Ha.
  - change (cut_char c (String c b) = Some (""%string, b)). cbn. by rewrite Ascii.eqb_refl.
  - cbn in Ha. apply orb_false_iff in Ha as [Hd Ha].
    change (cut_char c (String d (a ++ String c b)) = Some (String d a, b)). cbn. by rewrite Hd, IH.
Qed.

(** A host without brackets and a port without colon and brackets come apart as
    they were joined. *)
Lemma Split_Join (host port : string) :
  has_char "[" host = false -> has_char "]" host = false ->
  has_char ":" port = false -> has_char "[" port = false -> has_char "]" port = false ->
  SplitHostPort (JoinHostPort host port) = Some (host, port).
Proof.
  intros Ho Hc Hp1 Hp2 Hp3. unfold JoinHostPort. destruct (has_char ":" host) eqn:Hh.
  - change ("[" ++ host ++ "]:" ++ port)%string with (String "[" (host ++ String "]" (":" ++ port)))%string.
    assert (Hl : cut_last_colon (String "[" (host ++ String "]" (":" ++ port)))%string = Some (String "[" (host ++ "]"), port)%string).
    { pose proof (cut_last_colon_app (String "[" (host ++ "]")) port Hp1) as Hl. rewrite <- Hl. f_equal.
      change (String "[" (host ++ "]") ++ ":" ++ port)%string with (String "[" ((host ++ "]") ++ ":" ++ port))%string.
      f_equal. clear. induction host as [|d h IH]; [done|].
      change (String d (h ++ String "]" (":" ++ port)) = String d ((h ++ "]") ++ ":" ++ port))%string. by f_equal. }
    unfold SplitHostPort. rewrite Hl. cbn [after_char]. change (Ascii.eqb "[" "[") with true. cbv iota.
    rewrite cut_char_app by done. change (":" ++ port)%string with (String ":" port). cbn [after_char].
    change (Ascii.eqb ":" ":") with true. cbv iota.
    rewrite Hp1, !has_char_append. cbn. by rewrite Ho, Hp2, Hp3.
  - unfold SplitHostPort. rewrite cut_last_colon_app by done.
    assert (Hn : after_char "[" (host ++ ":" ++ port) = None).
    { destruct host as [|d h]; [done|]. cbn in Ho. apply orb_false_iff in Ho as [Hd _].
      change (after_char "[" (String d (h ++ ":" ++ port)) = None). cbn. by rewrite Hd. }
    rewrite Hn, Hh, !has_char_append. by rewrite Ho, Hc, Hp2, Hp3.
Qed.

(** ** net/url *)

(** [url.PathUnescape]; [None] is an error. *)
Fixpoint PathUnescape (s : string) : option string :=
  match s with
  | EmptyString => Some EmptyString
  | String c s' =>
      if Ascii.eqb c "%" then
        match s' with
        | String a (String b r) =>
            match hex_digit a, hex_digit b with
            | Some x, Some y => String (chr (Z.to_nat (16 * x + y))) <$> PathUnescape r
            | _, _ => None
            end
        | _ => None
        end
      else String c <$> PathUnescape s'
  end.

Definition upper_hex (x : Z) : ascii := chr (Z.to_nat (if x <? 10 then 48 + x else 55 + x)).

(** The characters a fragment may hold as they are. *)
Definition fragment_safe (c : ascii) : bool :=
  let x := byte c in
  (48 <=? x) && (x <=? 57) || (65 <=? x) && (x <=? 90) || (97 <=? x) && (x <=? 122)
  || has_char c "-_.~$&+,/:;=?@!()*".

Definition escape_byte (c : ascii) : string :=
  if fragment_safe c then String c ""
  else String "%" (String (upper_hex (byte c / 16)) (String (upper_hex (byte c mod 16)) "")).

(** [(&url.URL{Fragment: s}).EscapedFragment()]. *)
Fixpoint EscapedFragment (s : string) : string :=
  match s with EmptyString => EmptyString | String c s => (escape_byte c ++ EscapedFragment s)%string end.

Lemma unescape_byte (c : ascii) (s : string) :
  PathUnescape (escape_byte c ++ s) = String c <$> PathUnescape s.
Proof. destruct c as [[] [] [] [] [] [] [] []]; reflexivity. Qed.

Lemma unescape_escaped (s : string) : PathUnescape (EscapedFragment s) = Some s.
Proof. induction s as [|c s IH]; [done|]. cbn [EscapedFragment]. by rewrite unescape_byte, IH. Qed.

(** ** Splitting and joining *)

Lemma Split_plain (sep : ascii) (s : string) : has_char sep s = false -> Split sep s = [s].
Proof.
  induction s as [|c s IH]; [done|]. cbn. intros Hs. apply orb_false_iff in Hs as [Hc Hs].
  by rewrite Hc, (IH Hs).
Qed.

Lemma Split_app (sep : ascii) (a b : string) :
  has_char sep a = false -> Split sep (a ++ String sep b) = a :: Split sep b.
Proof.
  induction a as [|c a IH]; cbn.
  - intros _. change ("" ++ String sep b)%string with (String sep b). cbn. by rewrite Ascii.eqb_refl.
  - intros Hs. apply orb_false_iff in Hs as [Hc Hs]. change (String c a ++ ?x)%string with (String c (a ++ x)).
    cbn. by rewrite Hc, (IH Hs).
Qed.

Lemma Split_of_Join (sep : ascii) (l : list string) :
  l <> [] -> Forall (fun p => has_char sep p = false) l -> Split sep (Join (String sep "") l) = l.
Proof.
  induction l as [|a [|b l] IH]; intros Hne Hf; [done| |]; inversion Hf as [|? ? Ha Hl]; subst.
  - by apply Split_plain.
  - change (Join (String sep "") (a :: b :: l)) with (a ++ String sep (Join (String sep "") (b :: l)))%string.
    rewrite Split_app by done. f_equal. by apply IH.
Qed.

Lemma Split_parts (sep : ascii) (s : string) : Forall (fun p => has_char sep p = false) (Split sep s).
Proof.
  induction s as [|c s IH]; cbn; [by repeat constructor|].
  destruct (Ascii.eqb c sep) eqn:Hc; [by constructor|].
  destruct (Split sep s) as [|p l]; [by repeat constructor; cbn; rewrite Hc|].
  inversion IH; subst. constructor; [|done]. cbn. by rewrite Hc.
Qed.

Lemma Split_nonempty (sep : ascii) (s : string) : Split sep s <> [].
Proof. destruct s as [|c s]; cbn; [done|]. destruct (Ascii.eqb c sep); [done|]. by destruct (Split sep s). Qed.

Lemma Cut_char (c : ascii) (s a b : string) :
  Cut s (String c "") = Some (a, b) -> has_char c a = false /\ s = (a ++ String c b)%string.
Proof.
  revert a. induction s as [|d s IH]; intros a; [done|]. cbn [Cut].
  change (String.prefix (String c "") (String d s)) with (if Ascii.ascii_dec c d then String.prefix "" s else false).
  destruct (Ascii.ascii_dec c d) as [->|Hne].
  - replace (String.prefix "" s) with true by (by destruct s). intros [= <- <-]. done.
  - destruct (Cut s (String c "")) as [[x y]|]; [|done]. intros [= <- <-].
    destruct (IH x eq_refl) as [Hx ->]. split; [|done]. cbn. rewrite Hx. rewrite orb_false_r. by apply Ascii.eqb_neq.
Qed.

Lemma Cut_char_app (c : ascii) (a b : string) :
  has_char c a = false -> Cut (a ++ String c b) (String c "") = Some (a, b).
Proof.
  induction a as [|d a IH]; cbn [has_char].
  - intros _. change ("" ++ String c b)%string with (String c b). cbn.
    destruct (Ascii.ascii_dec c c); [|done]. by destruct b.
  - intros Hs. apply orb_false_iff in Hs as [Hd Ha]. change (String d a ++ ?x)%string with (String d (a ++ x)).
    cbn [Cut]. change (String.prefix (String c "") (String d ?s)) with (if Ascii.ascii_dec c d then String.prefix "" s else false).
    destruct (Ascii.ascii_dec c d) as [->|_]; [by rewrite Ascii.eqb_refl in Hd|]. by rewrite (IH Ha).
Qed.
