(* ===== verification/WebStatic.v ===== *)
(** * WebStatic: which file of a panel a request is answered with

    Models the static part of [internal/web/server.go] ([serveStatic] and the
    panel identifiers it reads from paths) and [UIMount] of
    [internal/panel/static_root.go], with [path.Clean] of the standard library on
    rooted paths.  The panels are a record of functions; what [os.Stat] says about
    a path is a function of the path; parsing the URL of a referer is a parameter.
    Warnings, and the bytes and headers of the answer, are left out. *)

From Stdlib Require Import Ascii.
From S2P Require Import Prelude GoStd.

(** ** Paths *)

Definition slash : ascii := "/".

(** The components [path.Clean] keeps of a rooted path: empty ones and ["."]
    vanish, [".."] removes its predecessor and nothing at the root. *)
Fixpoint resolve (stack parts : list string) : list string :=
  match parts with
  | [] => rev stack
  | p :: parts =>
      if String.eqb p "" || String.eqb p "." then resolve stack parts
      else if String.eqb p ".." then resolve (tail stack) parts
      else resolve (p :: stack) parts
  end.

(** [path.Clean("/" + s)]. *)
Definition Clean (s : string) : string := ("/" ++ Join "/" (resolve [] (Split slash s)))%string.

(** [path.Base] of a cleaned path. *)
Definition Base (s : string) : string :=
  match last (Split slash s) with
  | None => "/"%string
  | Some p => if String.eqb p "" then "/"%string else p
  end.

(** [filepath.Join] of a directory and a clean relative path. *)
Definition Join2 (dir rel : string) : string := (dir ++ "/" ++ rel)%string.

(** ** Panels *)

Definition UIPathPrefix : string := "/__mihari/panels".

(** [strings.Trim(s, "/")]. *)
Fixpoint trim_slashes (s : string) : string :=
  match s with
  | EmptyString => EmptyString
  | String c t => if Ascii.eqb c slash then trim_slashes t else s
  end.

Definition UIMount (panelID : string) : string :=
  let panelID := reverse (trim_slashes (reverse (trim_slashes panelID))) in
  if String.eqb panelID "" then UIPathPrefix else (UIPathPrefix ++ "/" ++ panelID)%string.

Definition panelIDFromPath (reqPath : string) : string :=
  let cleaned := Clean reqPath in
  let prefix := (UIPathPrefix ++ "/")%string in
  if String.eqb cleaned UIPathPrefix || String.eqb cleaned (UIPathPrefix ++ "/") then ""%string
  else if negb (HasPrefix cleaned prefix) then ""%string
  else
    let rest := TrimPrefix cleaned prefix in
    let id := match Cut rest "/" with Some (id, _) => id | None => rest end in
    let id := TrimSpace id in
    if String.eqb id "" || Contains id ".." then ""%string else id.

Definition isPanelEntryPath (reqPath : string) : bool :=
  let cleaned := Clean reqPath in
  if String.eqb cleaned "/" then true
  else
    let panelID := panelIDFromPath cleaned in
    if String.eqb panelID "" then false
    else
      let prefix := UIMount panelID in
      String.eqb cleaned prefix || String.eqb cleaned (prefix ++ "/").

Record PanelSource := mkPanelSource {
  ActiveDir : result string;
  PanelDir : string -> result string;
  SetupPath : string -> string;
  SetupPathFor : string -> string -> string
}.

Section Static.
Context `{Unicode} `{CaseFold} (parse_path : string -> option string).

Definition panelIDFromReferer (referer : string) : string :=
  let ref := TrimSpace referer in
  if String.eqb ref "" then ""%string
  else match parse_path ref with None => ""%string | Some p => panelIDFromPath p end.

Definition asset_names : list string :=
  ["registersw.js"; "sw.js"; "service-worker.js"; "manifest.webmanifest"; "manifest.json";
   "favicon.ico"; "index.html"]%string.
Definition asset_extensions : list string :=
  [".js"; ".mjs"; ".css"; ".map"; ".svg"; ".png"; ".jpg"; ".jpeg"; ".gif"; ".webp";
   ".ico"; ".woff"; ".woff2"; ".ttf"; ".otf"; ".eot"; ".webmanifest"; ".wasm"; ".html"]%string.

Definition looksLikeStaticAssetPath (reqPath : string) : bool :=
  let base := ToLower (Base reqPath) in
  if existsb (String.eqb base) [""; "."; "/"]%string then false
  else if existsb (String.eqb base) asset_names then true
  else existsb (HasSuffix base) asset_extensions.

(** What a request for a file is answered with. *)
Inductive static_reply :=
| StaticError (status : Z)
| StaticIndex (path mount : string)    (** [servePanelIndex] *)
| StaticFile (root rel : string).      (** [http.FileServer] *)

(** [os.Stat]: whether the path is a directory, or the error. *)
Variable stat : string -> result bool.

Definition exists_path (p : string) : bool := is_Ok (stat p).
Definition is_dir (p : string) : bool := match stat p with Ok b => b | Err _ => false end.

(** Root directory, path below it and mount of the panel a request addresses. *)
Definition static_root (panel : PanelSource) (reqPath referer : string) : (string * string * string) + Z :=
  let panelID := panelIDFromPath reqPath in
  if negb (String.eqb panelID "") then
    match PanelDir panel panelID with
    | Err _ => inr 404
    | Ok root =>
        if String.eqb root "" then inr 404
        else
          let mountPrefix := UIMount panelID in
          let servePath := TrimPrefix reqPath mountPrefix in
          inl (root, (if String.eqb servePath "" then "/"%string else servePath), mountPrefix)
    end
  else
    let active :=
      match ActiveDir panel with
      | Err _ => inr 503
      | Ok root => if String.eqb root "" then inr 503 else inl (root, reqPath, ""%string)
      end in
    let panelID := panelIDFromReferer referer in
    if negb (String.eqb panelID "") then
      match PanelDir panel panelID with
      | Ok root => if negb (String.eqb root "") then inl (root, reqPath, UIMount panelID) else active
      | Err _ => active
      end
    else active.

(** A build directory may have its files below [dist]. *)
Definition dist_root (root : string) : string :=
  if is_dir (Join2 root "dist") && exists_path (Join2 root "dist/index.html") then Join2 root "dist" else root.

Definition serve_below (fileRoot upath mountPrefix : string) : static_reply :=
  let rel := TrimPrefix upath "/" in
  let indexPath := Join2 fileRoot "index.html" in
  if String.eqb upath "/" then
    if exists_path indexPath then StaticIndex indexPath mountPrefix else StaticError 404
  else if negb (exists_path (Join2 fileRoot rel)) || is_dir (Join2 fileRoot rel) then
    if looksLikeStaticAssetPath upath then StaticError 404
    else if exists_path indexPath then StaticIndex indexPath mountPrefix
    else StaticError 404
  else if EqualFold (Base upath) "index.html" then StaticIndex (Join2 fileRoot rel) mountPrefix
  else StaticFile fileRoot rel.

Definition serveStatic (panel : option PanelSource) (path referer : string) : static_reply :=
  match panel with
  | None => StaticError 503
  | Some panel =>
      match static_root panel (Clean path) referer with
      | inr status => StaticError status
      | inl (root, servePath, mountPrefix) => serve_below (dist_root root) (Clean servePath) mountPrefix
      end
  end.

End Static.

(** ** Lemmas *)

(** A component that names something inside of its directory. *)
Definition component (c : string) : Prop :=
  c <> ""%string /\ c <> "."%string /\ c <> ".."%string /\ forall a b, c <> (a ++ "/" ++ b)%string.

Lemma Split_no_sep (sep : ascii) (s p : string) : p ∈ Split sep s -> forall a b, p <> (a ++ String sep b)%string.
Proof.
  revert p. induction s as [|c s IH]; intros p; cbn [Split].
  - intros ->%list_elem_of_singleton [|? ?] b; discriminate.
  - destruct (Ascii.eqb_spec c sep) as [_|Hc].
    { intros [->|Hp]%elem_of_cons; [intros [|? ?] b; discriminate|by apply IH]. }
    destruct (Split sep s) as [|q l].
    + intros ->%list_elem_of_singleton [|x a] b; intros [= ? Hb]; [congruence|by destruct a].
    + intros [->|Hp]%elem_of_cons; [|apply IH; by right].
      intros [|x a] b; intros [= ? Hb]; [congruence|]. apply (IH q ltac:(by left) a b Hb).
Qed.

Lemma resolve_components (parts stack : list string) :
  (forall p, p ∈ parts -> forall a b, p <> (a ++ "/" ++ b)%string) -> Forall component stack ->
  Forall component (resolve stack parts).
Proof.
  revert stack. induction parts as [|p parts IH]; intros stack Hp Hs; cbn; [by apply Forall_rev|].
  assert (Hp' : forall q, q ∈ parts -> forall a b, q <> (a ++ "/" ++ b)%string) by (intros q Hq; apply Hp; by right).
  case_if; [by apply IH|]. case_if; [apply IH; [done|]; by destruct Hs|].
  apply IH; [done|]. constructor; [|done]. breflect. split; [done|]. split; [done|]. split; [done|].
  apply Hp. by left.
Qed.

(** A cleaned path is the root or names components below it. *)
Lemma Clean_components (s : string) : exists l, Clean s = ("/" ++ Join "/" l)%string /\ Forall component l.
Proof.
  exists (resolve [] (Split slash s)). split; [done|].
  apply resolve_components; [|constructor]. intros p Hp. exact (Split_no_sep slash s p Hp).
Qed.

Lemma Clean_relative (s : string) :
  Clean s <> "/"%string -> exists l, TrimPrefix (Clean s) "/" = Join "/" l /\ l <> [] /\ Forall component l.
Proof.
  destruct (Clean_components s) as (l & -> & Hl). intros Hne. exists l. split; [|split; [|done]].
  - unfold TrimPrefix, HasPrefix. by rewrite prefix_append, drop_append.
  - by intros ->.
Qed.

(** ** Theorems *)

(** A path below a directory: components that stay inside of it. *)
Definition inside (dir path : string) : Prop :=
  exists l, path = Join2 dir (Join "/" l) /\ l <> [] /\ Forall component l.

(** The directory of files a request may be answered from. *)
Definition addressed (parse_path : string -> option string) (panel : PanelSource) (path referer dir : string) : Prop :=
  dir <> ""%string /\
  if String.eqb (panelIDFromPath (Clean path)) "" then
    ActiveDir panel = Ok dir \/
    panelIDFromReferer parse_path referer <> ""%string /\ PanelDir panel (panelIDFromReferer parse_path referer) = Ok dir
  else PanelDir panel (panelIDFromPath (Clean path)) = Ok dir.

Lemma static_root_addressed (parse_path : string -> option string) (panel : PanelSource) (path referer root sub mount : string) :
  static_root parse_path panel (Clean path) referer = inl (root, sub, mount) ->
  addressed parse_path panel path referer root.
Proof.
  unfold static_root, addressed. destruct (String.eqb_spec (panelIDFromPath (Clean path)) "") as [_|_]; cbn [negb].
  - destruct (String.eqb_spec (panelIDFromReferer parse_path referer) "") as [_|Hr]; cbn [negb].
    + destruct (ActiveDir panel) as [d|]; [|done]. case_if; [done|]. intros [= -> _ _]. breflect. auto.
    + destruct (PanelDir panel _) as [d|] eqn:Hd.
      * case_if; [intros [= -> _ _]; breflect; auto|].
        destruct (ActiveDir panel) as [d'|]; [|done]. case_if; [done|]. intros [= -> _ _]. breflect. auto.
      * destruct (ActiveDir panel) as [d'|]; [|done]. case_if; [done|]. intros [= -> _ _]. breflect. auto.
  - destruct (PanelDir panel _) as [d|]; [|done]. case_if; [done|]. intros [= -> _ _]. breflect. auto.
Qed.

(** The files an answer shows. *)
Definition answers_with (reply : static_reply) (file : string) : Prop :=
  match reply with
  | StaticError _ => False
  | StaticIndex path _ => file = path
  | StaticFile root rel => file = Join2 root rel
  end.

Fixpoint has_slash (s : string) : bool :=
  match s with EmptyString => false | String c s => Ascii.eqb c slash || has_slash s end.

Lemma has_slash_app (a b : string) : has_slash (a ++ b) = has_slash a || has_slash b.
Proof. induction a as [|c a IH]; [done|]. change (String c a ++ b)%string with (String c (a ++ b)). cbn. rewrite IH. apply orb_assoc. Qed.

Lemma inside_index (dir : string) : inside dir (Join2 dir "index.html").
Proof.
  exists ["index.html"%string]. split; [done|]. split; [done|]. constructor; [|constructor].
  unfold component. split_and!; try discriminate.
  intros a b Hab. apply (f_equal (has_slash)) in Hab. revert Hab. rewrite has_slash_app. cbn. by rewrite orb_true_r.
Qed.

Lemma serve_below_inside `{Unicode} `{CaseFold} (stat : string -> result bool) (root sub mount file : string) :
  answers_with (serve_below stat root (Clean sub) mount) file -> inside root file.
Proof.
  unfold serve_below. destruct (String.eqb_spec (Clean sub) "/") as [_|Hne].
  { case_if; cbn; [intros ->; apply inside_index|done]. }
  destruct (Clean_relative sub Hne) as (l & -> & Hl & Hc).
  case_if; [case_if; [done|]; case_if; cbn; [intros ->; apply inside_index|done]|].
  case_if; cbn; intros ->; by exists l.
Qed.

(** C26. A request for a panel is answered only with files below the directory of
    the panel it addresses: whatever its path contains, the file lies inside of
    the directory of the panel named in the path, else of the active one or the
    one the referer names (or its [dist] subdirectory), and no component of the
    way down is empty or a dot-dot. *)
Theorem static_files_stay_inside `{Unicode} `{CaseFold} (parse_path : string -> option string)
    (stat : string -> result bool) (panel : PanelSource) (path referer file : string) :
  answers_with (serveStatic parse_path stat (Some panel) path referer) file ->
  exists dir, addressed parse_path panel path referer dir /\ (inside dir file \/ inside (Join2 dir "dist") file).
Proof.
  cbn [serveStatic]. destruct (static_root parse_path panel (Clean path) referer) as [[[root sub] mount]|] eqn:Hr; [|done].
  intros Hf%serve_below_inside. exists root. split; [by eapply static_root_addressed|].
  unfold dist_root in Hf. case_if_in Hf; auto.
Qed.

(** ** Witness *)

Definition ex_panels : PanelSource :=
  mkPanelSource (Ok "/web/zashboard/1"%string) (fun id => Ok ("/web/" ++ id ++ "/1")%string) id (fun _ h => h).

#[local] Instance ex_unicode : Unicode := {| unicode_ToLower s := s |}.
#[local] Instance ex_casefold : CaseFold := {| unicode_EqualFold := String.eqb |}.

Definition ex_stat (p : string) : result bool :=
  if String.eqb p "/web/metacubexd/1/etc/passwd" then Ok false else Err (ESentinel ErrNotExist).

Lemma ex_traversal :
  serveStatic Some ex_stat (Some ex_panels) "/__mihari/panels/metacubexd/a/../../metacubexd/etc//./passwd" "" =
  StaticFile "/web/metacubexd/1" "etc/passwd".
Proof. vm_compute. reflexivity. Qed.

Lemma static_files_stay_inside_witness :
  exists dir, addressed Some ex_panels "/__mihari/panels/metacubexd/a/../../metacubexd/etc//./passwd" "" dir /\
    (inside dir "/web/metacubexd/1/etc/passwd" \/ inside (Join2 dir "dist") "/web/metacubexd/1/etc/passwd").
Proof.
  apply (static_files_stay_inside Some ex_stat ex_panels). rewrite ex_traversal. reflexivity.
Defined.
