(* ===== verification/Settings.v ===== *)
(** * Settings: the persisted daemon settings

    Models [internal/config] ([settings.go], [routing.go], [logging.go]).

    - A nil and an empty Go map behave alike in every operation here, so
      [GlobalSelections] is a finite map; the TUN block distinguishes nil (no
      managed block) from a map, so it is an option.
    - YAML is a third-party package: the class [YAML] holds the three operations
      the code calls.
    - [loadOrCreateWithOpsOutcome] takes its environment as a record of functions,
      [settingsCreationOps]; the model has the same record, where the n-th call
      of a function is its value at [n]. *)

From Stdlib Require Import Ascii.
From S2P Require Import Prelude GoStd Atomic.

Definition maxSettingsSize : Z := 1048576.

Definition DefaultLogLevel : string := "info".
Definition DefaultLogMaxSizeMB : Z := 10.
Definition DefaultLogMaxFiles : Z := 3.

Record LoggingSettings := mkLoggingSettings {
  Level : string;
  MaxSizeMB : Z;
  MaxFiles : Z
}.

#[export] Instance LoggingSettings_eq_dec : EqDecision LoggingSettings.
Proof. solve_decision. Defined.

Record RoutingSettings := mkRoutingSettings {
  Mode : string;
  GlobalSelections : gmap string string;
  BootstrapGlobal : string
}.

#[export] Instance RoutingSettings_eq_dec : EqDecision RoutingSettings.
Proof. solve_decision. Defined.

(** A decoded YAML value ([any]). *)
Inductive any :=
| ANull
| ABool (b : bool)
| AInt (z : Z)
| AFloat (text : string)
| AString (s : string)
| ASeq (l : list any)
| AMap (l : list (string * any))
| AOther (text : string).  (** a timestamp, or a mapping with other keys *)

(** The entry of a decoded mapping, and its assignment. *)
Definition member (l : list (string * any)) (k : string) : option any :=
  match list_find (fun kv => kv.1 = k) l with Some (_, (_, v)) => Some v | None => None end.

Fixpoint set_member (l : list (string * any)) (k : string) (v : any) : list (string * any) :=
  match l with
  | [] => [(k, v)]
  | (k', v') :: l => if String.eqb k' k then (k, v) :: l else (k', v') :: set_member l k v
  end.

Record Settings := mkSettings {
  EgressInterface : string;
  Routing : option RoutingSettings;
  Schema : string;
  MixedAddr : string;
  ControllerAddr : string;
  WebAddr : string;
  ControllerSecret : string;
  SystemProxyDesired : bool;
  Tun : option (gmap string any);
  CoreChannel : string;
  CoreChannelBundle : string;
  Logging : option LoggingSettings
}.

(** Structural equality ([reflect.DeepEqual] on decoded values). *)
#[export] Instance any_eq_dec : EqDecision any.
Proof.
  refine (fix go (x y : any) {struct x} : Decision (x = y) :=
    match x, y with
    | ANull, ANull => left eq_refl
    | ABool a, ABool b => cast_if (decide (a = b))
    | AInt a, AInt b => cast_if (decide (a = b))
    | AFloat a, AFloat b => cast_if (decide (a = b))
    | AString a, AString b => cast_if (decide (a = b))
    | ASeq a, ASeq b => cast_if (@list_eq_dec _ go a b)
    | AMap a, AMap b => cast_if (@list_eq_dec _ (@prod_eq_dec string _ any go) a b)
    | AOther a, AOther b => cast_if (decide (a = b))
    | _, _ => right _
    end); clear go; abstract congruence.
Defined.

#[export] Instance Settings_eq_dec : EqDecision Settings.
Proof. solve_decision. Defined.

Definition zero_Settings : Settings := mkSettings "" None "" "" "" "" "" false None "" "" None.

Definition with_Routing (r : option RoutingSettings) (s : Settings) : Settings :=
  mkSettings (EgressInterface s) r (Schema s) (MixedAddr s) (ControllerAddr s) (WebAddr s)
    (ControllerSecret s) (SystemProxyDesired s) (Tun s) (CoreChannel s) (CoreChannelBundle s)
    (Logging s).
Definition with_Logging (l : option LoggingSettings) (s : Settings) : Settings :=
  mkSettings (EgressInterface s) (Routing s) (Schema s) (MixedAddr s) (ControllerAddr s) (WebAddr s)
    (ControllerSecret s) (SystemProxyDesired s) (Tun s) (CoreChannel s) (CoreChannelBundle s) l.
Definition with_Tun (t : option (gmap string any)) (s : Settings) : Settings :=
  mkSettings (EgressInterface s) (Routing s) (Schema s) (MixedAddr s) (ControllerAddr s) (WebAddr s)
    (ControllerSecret s) (SystemProxyDesired s) t (CoreChannel s) (CoreChannelBundle s) (Logging s).
Definition with_SystemProxyDesired (b : bool) (s : Settings) : Settings :=
  mkSettings (EgressInterface s) (Routing s) (Schema s) (MixedAddr s) (ControllerAddr s) (WebAddr s)
    (ControllerSecret s) b (Tun s) (CoreChannel s) (CoreChannelBundle s) (Logging s).
Definition with_channel (c b : string) (s : Settings) : Settings :=
  mkSettings (EgressInterface s) (Routing s) (Schema s) (MixedAddr s) (ControllerAddr s) (WebAddr s)
    (ControllerSecret s) (SystemProxyDesired s) (Tun s) c b (Logging s).
Definition with_secret (k : string) (s : Settings) : Settings :=
  mkSettings (EgressInterface s) (Routing s) (Schema s) (MixedAddr s) (ControllerAddr s) (WebAddr s)
    k (SystemProxyDesired s) (Tun s) (CoreChannel s) (CoreChannelBundle s) (Logging s).
Definition with_MixedAddr (a : string) (s : Settings) : Settings :=
  mkSettings (EgressInterface s) (Routing s) (Schema s) a (ControllerAddr s) (WebAddr s)
    (ControllerSecret s) (SystemProxyDesired s) (Tun s) (CoreChannel s) (CoreChannelBundle s)
    (Logging s).

Definition dataError (message : string) (cause : option error) : error :=
  diagnostics_Wrap (mkAPIError CodeDataFailure message false) cause.

Definition data_error (message : string) : option error := Some (dataError message None).

(** ** Logging *)

Definition DefaultLoggingSettings : LoggingSettings :=
  mkLoggingSettings DefaultLogLevel DefaultLogMaxSizeMB DefaultLogMaxFiles.

Definition EffectiveLogging (s : Settings) : LoggingSettings :=
  match Logging s with
  | None => DefaultLoggingSettings
  | Some l =>
      mkLoggingSettings
        (if String.eqb (Level l) "" then DefaultLogLevel else Level l)
        (if MaxSizeMB l =? 0 then DefaultLogMaxSizeMB else MaxSizeMB l)
        (if MaxFiles l =? 0 then DefaultLogMaxFiles else MaxFiles l)
  end.

Definition SetLogging (l : LoggingSettings) (s : Settings) : Settings :=
  if bool_decide (l = DefaultLoggingSettings) then with_Logging None s
  else with_Logging (Some l) s.

Definition CoreLoggingLevel (s : Settings) : string :=
  let level := Level (EffectiveLogging s) in
  if String.eqb level "warn" then "warning" else level.

Definition ActiveLoggingLevel (level : string) : bool :=
  String.eqb level "debug" || String.eqb level "info" || String.eqb level "warn"
  || String.eqb level "error".

Definition ObservedLoggingLevel (level : string) : string * bool :=
  let level := if String.eqb level "warning" then "warn"%string else level in
  (level, String.eqb level "silent" || ActiveLoggingLevel level).

(** ** Routing *)

Definition ValidRoutingMode (mode : string) : bool :=
  String.eqb mode "rule" || String.eqb mode "global" || String.eqb mode "direct".

Definition RoutingMode (s : Settings) : string :=
  match Routing s with
  | None => "rule"
  | Some r => if String.eqb (Mode r) "" then "rule" else Mode r
  end.

Definition GlobalSelection (id : string) (s : Settings) : string :=
  match Routing s with
  | None => ""
  | Some r =>
      if String.eqb id "" then BootstrapGlobal r
      else default ""%string (GlobalSelections r !! id)
  end.

Definition SetRoutingMode (mode : string) (s : Settings) : Settings :=
  let r := default (mkRoutingSettings "" ∅ "") (Routing s) in
  with_Routing (Some (mkRoutingSettings mode (GlobalSelections r) (BootstrapGlobal r))) s.

Definition SetGlobalSelection (id name : string) (s : Settings) : Settings :=
  let r := default (mkRoutingSettings (RoutingMode s) ∅ "") (Routing s) in
  let r := if String.eqb id "" then mkRoutingSettings (Mode r) (GlobalSelections r) name
           else if String.eqb name "" then
             mkRoutingSettings (Mode r) (delete id (GlobalSelections r)) (BootstrapGlobal r)
           else mkRoutingSettings (Mode r) (<[id := name]> (GlobalSelections r)) (BootstrapGlobal r) in
  with_Routing (Some r) s.

Definition valid_selection_name (name : string) : bool := (len name <=? 4096) && ValidString name.

Definition valid_selection_id (id : string) : bool :=
  negb (String.eqb id "") && (len id <=? 256) && ValidString id.

Definition validateRouting (r : option RoutingSettings) : option error :=
  match r with
  | None => None
  | Some r =>
      if negb (String.eqb (Mode r) "") && negb (ValidRoutingMode (Mode r)) then
        data_error "invalid routing mode"
      else if negb (valid_selection_name (BootstrapGlobal r))
              || (4096 <? Z.of_nat (size (GlobalSelections r))) then
        data_error "invalid GLOBAL selections"
      else if existsb (fun '(id, name) => negb (valid_selection_id id) || negb (valid_selection_name name))
                (map_to_list (GlobalSelections r)) then
        data_error "invalid GLOBAL selection"
      else None
  end.

(** ** Validation *)

Definition parseEndpoint (name value : string) (loopback : bool) : result AddrPort :=
  match ParseAddrPort value with
  | None => Err (dataError (name ++ " must be an IP address and valid port") None)
  | Some endpoint =>
      if ap_port endpoint =? 0 then
        Err (dataError (name ++ " must be an IP address and valid port") None)
      else if loopback && negb (IsLoopback (ap_addr endpoint)) then
        Err (dataError (name ++ " must use a loopback address") None)
      else Ok endpoint
  end.

Definition validateTun (tun : option (gmap string any)) : option error :=
  match tun with
  | None => None
  | Some t =>
      match t !! "enable"%string with
      | Some (ABool _) | None =>
          match t !! "stack"%string with
          | Some (AString _) | None => None
          | Some _ => data_error "tun.stack must be a string"
          end
      | Some _ => data_error "tun.enable must be a boolean"
      end
  end.

Definition valid_secret (k : string) : bool :=
  match hex_decode k with Some l => (length l =? 32)%nat | None => false end.

Definition valid_log_level (l : string) : bool :=
  String.eqb l "debug" || String.eqb l "info" || String.eqb l "warn" || String.eqb l "error"
  || String.eqb l "silent".

Definition Validate (s : Settings) : option error :=
  match validateRouting (Routing s) with
  | Some e => Some e
  | None =>
      if negb (String.eqb (Schema s) "mihari.settings/v1") then
        data_error "unsupported settings schema"
      else match parseEndpoint "mixed-addr" (MixedAddr s) false with
      | Err e => Some e
      | Ok mixed =>
      match parseEndpoint "controller-addr" (ControllerAddr s) true with
      | Err e => Some e
      | Ok controller =>
      match parseEndpoint "web-addr" (WebAddr s) true with
      | Err e => Some e
      | Ok web =>
          if (ap_port mixed =? ap_port controller) || (ap_port mixed =? ap_port web)
             || (ap_port controller =? ap_port web) then
            data_error "managed ports must be distinct"
          else if negb (String.eqb (ControllerSecret s) "")
                  && negb (valid_secret (ControllerSecret s)) then
            data_error "invalid controller secret"
          else match validateTun (Tun s) with
          | Some e => Some e
          | None =>
              let l := EffectiveLogging s in
              if negb (valid_log_level (Level l)) then data_error "invalid log level"
              else if (MaxSizeMB l <? 1) || (100 <? MaxSizeMB l) then
                data_error "log max size must be between 1 and 100 MiB"
              else if (MaxFiles l <? 1) || (10 <? MaxFiles l) then
                data_error "log max files must be between 1 and 10"
              else if String.eqb (CoreChannel s) "" || String.eqb (CoreChannel s) "stable"
                      || String.eqb (CoreChannel s) "alpha" then None
              else data_error "invalid core channel"
          end
      end end end
  end.

(** [Defaults]. *)
Definition Defaults : Settings :=
  mkSettings "" None "mihari.settings/v1" "127.0.0.1:9190" "127.0.0.1:9090" "127.0.0.1:9191" ""
    false None "stable" "" None.

(** ** Core channel sidecar *)

Definition ParseCoreChannelSidecar (raw : string) : option (string * string) :=
  match Split LF (replace_crlf raw) with
  | line0 :: line1 :: _ =>
      let channel := TrimSpace line0 in
      let stamp := TrimSpace line1 in
      if String.eqb stamp "" || negb (String.eqb channel "stable") && negb (String.eqb channel "alpha")
      then None else Some (channel, stamp)
  | _ => None
  end.

(** [ApplyCoreChannelSidecar]; [read] is the answer of [os.ReadFile]. *)
Definition ApplyCoreChannelSidecar (read : result string) (s : Settings)
    : bool * Settings * option error :=
  match read with
  | Err e => if errors_Is e ErrNotExist then (false, s, None) else (false, s, Some e)
  | Ok raw =>
      match ParseCoreChannelSidecar raw with
      | None => (false, s, None)
      | Some (channel, stamp) =>
          if String.eqb (CoreChannelBundle s) stamp then (false, s, None)
          else (true, with_channel channel stamp s, None)
      end
  end.

(** [applySidecarIfPresent]; no sidecar path is [None]. *)
Definition applySidecarIfPresent (sidecar : option (result string)) (s : Settings)
    : bool * Settings * option error :=
  match sidecar with
  | None => (false, s, None)
  | Some read => ApplyCoreChannelSidecar read s
  end.

(** ** Saving and loading *)

(** The YAML package: [Marshal], the first strict [Decode] and what a second
    [Decode] answers ([None] is [io.EOF]; [Some None] is another document). *)
Class YAML := {
  yaml_Marshal : Settings -> result string;
  yaml_Decode : string -> result Settings;
  yaml_Extra : string -> option (option error)
}.

(** What the code relies on: a document the package wrote for [s] decodes to [s]
    and is the only one.  An empty TUN block is omitted by [omitempty]. *)
Definition yaml_round_trips `{YAML} (s : Settings) : Prop :=
  forall content, yaml_Marshal s = Ok content ->
    yaml_Decode content = Ok s /\ yaml_Extra content = None.

(** The form in which settings are written. *)
Definition canonical (s : Settings) : Settings := SetLogging (EffectiveLogging s) s.

Section Persistence.
Context `{YAML} {Env W : Type} `{AtomicFile Env W}.

Definition SaveWithCommit (env : Env) (p : path) (s : Settings) (w : W)
    : CommitResult * option error * W :=
  match Validate s with
  | Some e => (no_commit, Some e, w)
  | None =>
      if String.eqb (ControllerSecret s) "" then
        (no_commit, data_error "controller secret is required", w)
      else match yaml_Marshal (canonical s) with
      | Err e => (no_commit, Some (EFmt "encode settings" e), w)
      | Ok content =>
          if maxSettingsSize <? len content then
            (no_commit, data_error "settings file is too large", w)
          else af_write env p content w
      end
  end.

(** [Save]. *)
Definition Save (env : Env) (p : path) (s : Settings) (w : W) : option error * W :=
  let '(result, err, w) := SaveWithCommit env p s w in
  match err with
  | Some e => (Some e, w)
  | None => (Warning result, w)
  end.

(** [Load] of a readable file. *)
Definition Load (p : path) (w : W) : result Settings :=
  match af_read p w with
  | None => Err (ESentinel ErrNotExist)
  | Some content =>
      if maxSettingsSize <? len content then Err (dataError "settings file is too large" None)
      else match yaml_Decode content with
      | Err e => Err (dataError "invalid settings file" (Some e))
      | Ok s =>
          match yaml_Extra content with
          | Some cause => Err (dataError "settings file must contain one document" cause)
          | None =>
              match Validate s with
              | Some e => Err e
              | None =>
                  if String.eqb (ControllerSecret s) "" then
                    Err (dataError "controller secret is required" None)
                  else Ok s
              end
          end
      end
  end.

End Persistence.

(** ** First start: load or create *)

(** The operations of [settingsCreationOps]: the time that passes before the
    [n]-th reading of the monotonic clock, the [n]-th load and the [n]-th attempt
    to create the lock file. *)
Record creation_ops := mkCreationOps {
  op_start : Z;
  op_delay : nat -> N;
  op_load : nat -> result Settings;
  op_openLock : nat -> option error;
  op_save : Settings -> CommitResult * option error;
  op_closeLock : option error;
  op_removeLock : option error;
  op_transient : error -> bool;
  op_mkdir : option error;
  op_secret : result (list Z)
}.

(** How many calls were made so far, what the clock showed last, and at which times
    attempts and waits began. *)
Record calls := mkCalls {
  n_now : nat;
  n_load : nat;
  n_open : nat;
  n_wait : nat;
  clock : Z;
  begun : list Z
}.

Definition no_calls (ops : creation_ops) : calls := mkCalls 0 0 0 0 (op_start ops) [].

(** [ops.now()]. *)
Definition tick (ops : creation_ops) (c : calls) : calls :=
  mkCalls (S (n_now c)) (n_load c) (n_open c) (n_wait c) (clock c + Z.of_N (op_delay ops (n_now c))) (begun c).
Definition tick_load (c : calls) : calls :=
  mkCalls (n_now c) (S (n_load c)) (n_open c) (n_wait c) (clock c) (clock c :: begun c).
Definition tick_open (c : calls) : calls :=
  mkCalls (n_now c) (n_load c) (S (n_open c)) (n_wait c) (clock c) (clock c :: begun c).

Definition ms10 : Z := 10000000.

(** [ops.wait(10 * time.Millisecond)]: at least that long. *)
Definition wait10 (c : calls) : calls :=
  mkCalls (n_now c) (n_load c) (n_open c) (S (n_wait c)) (clock c + ms10) (clock c :: begun c).

Definition initialization_timeout : Z := 10000000000.

Definition timed_out : error := dataError "timed out waiting for settings initialization" None.

(** [waitForSettingsOrCreationLock]: [Ok None] is the lock, [Ok (Some s)] settings
    another process wrote; [None] when the fuel is exhausted. *)
Fixpoint waitForSettingsOrCreationLock (fuel : nat) (deadline : Z) (ops : creation_ops) (c : calls)
    : option (result (option Settings) * calls) :=
  match fuel with
  | O => None
  | S fuel =>
      let c := tick ops c in
      if negb (clock c <? deadline) then Some (Err timed_out, c)
      else
        let open := op_openLock ops (n_open c) in
        let c := tick_open c in
        match open with
        | None => Some (Ok None, c)
        | Some e =>
            let load := op_load ops (n_load c) in
            let c := tick_load c in
            match load with
            | Ok s => Some (Ok (Some s), c)
            | Err loadErr =>
                if negb (errors_Is e ErrExist) && negb (op_transient ops e) then
                  Some (Err (EFmt "create settings lock" e), c)
                else if negb (errors_Is loadErr ErrNotExist) && negb (op_transient ops loadErr) then
                  Some (Err loadErr, c)
                else
                  let c := tick ops c in
                  if negb (clock c <? deadline) then Some (Err timed_out, c)
                  else waitForSettingsOrCreationLock fuel deadline ops (wait10 c)
            end
        end
  end.

(** The loop that runs under the lock: [Ok None] when the file does not exist. *)
Fixpoint load_under_lock (fuel : nat) (deadline : Z) (ops : creation_ops) (c : calls)
    : option (result (option Settings) * calls) :=
  match fuel with
  | O => None
  | S fuel =>
      let c := tick ops c in
      if negb (clock c <? deadline) then Some (Err timed_out, c)
      else
        let load := op_load ops (n_load c) in
        let c := tick_load c in
        match load with
        | Ok s => Some (Ok (Some s), c)
        | Err err =>
            if errors_Is err ErrNotExist then Some (Ok None, c)
            else if negb (op_transient ops err) then Some (Err err, c)
            else
              let c := tick ops c in
              if negb (clock c <? deadline) then Some (Err timed_out, c)
              else load_under_lock fuel deadline ops (wait10 c)
        end
  end.

(** The results of the Go function: settings, created, commit result, error. *)
Definition outcome : Type := Settings * bool * CommitResult * option error.

Definition fail_with (e : error) : outcome := (zero_Settings, false, no_commit, Some e).

(** [persistSidecarIfChangedOutcome]. *)
Definition persistSidecarIfChangedOutcome (sidecar : option (result string))
    (save : Settings -> CommitResult * option error) (s : Settings) : outcome :=
  let '(changed, s, err) := applySidecarIfPresent sidecar s in
  match err with
  | Some e => fail_with e
  | None =>
      if changed then
        let '(result, err) := save s in
        match err with
        | Some e => (zero_Settings, false, result, Some e)
        | None => (s, false, result, None)
        end
      else (s, false, no_commit, None)
  end.

(** What is saved when no settings exist. *)
Definition create_settings (sidecar : option (result string)) (ops : creation_ops) : outcome :=
  match op_secret ops with
  | Err e => fail_with (EFmt "generate controller secret" e)
  | Ok secret =>
      let s := with_secret (hex_encode secret) Defaults in
      let '(_, s, err) := applySidecarIfPresent sidecar s in
      match err with
      | Some e => fail_with e
      | None =>
          let '(result, err) := op_save ops s in
          match err with
          | Some e => (zero_Settings, false, result, Some e)
          | None => (s, true, result, None)
          end
      end
  end.

(** The deferred release of the lock. *)
Definition release_lock (ops : creation_ops) (o : outcome) : outcome :=
  let '(s, created, result, err) := o in
  let removal := match op_removeLock ops with
                 | Some e => if errors_Is e ErrNotExist then None else Some e
                 | None => None
                 end in
  match errors_Join (op_closeLock ops) removal with
  | None => o
  | Some cleanup =>
      match err with
      | Some _ => (s, created, result, errors_Join err (Some cleanup))
      | None => (s, created, mkCommitResult (Committed result)
                               (errors_Join (Warning result) (Some cleanup)), None)
      end
  end.

Definition loadOrCreateWithOpsOutcome (fuel : nat) (sidecar : option (result string))
    (ops : creation_ops) : option (outcome * calls) :=
  let c := tick ops (no_calls ops) in
  let deadline := clock c + initialization_timeout in
  let load := op_load ops (n_load c) in
  let c := tick_load c in
  match load with
  | Ok s => Some (persistSidecarIfChangedOutcome sidecar (op_save ops) s, c)
  | Err err =>
      if negb (errors_Is err ErrNotExist) && negb (op_transient ops err) then Some (fail_with err, c)
      else match op_mkdir ops with
      | Some e => Some (fail_with (EFmt "create settings directory" e), c)
      | None =>
          match waitForSettingsOrCreationLock fuel deadline ops c with
          | None => None
          | Some (Err e, c) => Some (fail_with e, c)
          | Some (Ok (Some s), c) => Some (persistSidecarIfChangedOutcome sidecar (op_save ops) s, c)
          | Some (Ok None, c) =>
              match load_under_lock fuel deadline ops c with
              | None => None
              | Some (Err e, c) => Some (release_lock ops (fail_with e), c)
              | Some (Ok (Some s), c) =>
                  Some (release_lock ops (persistSidecarIfChangedOutcome sidecar (op_save ops) s), c)
              | Some (Ok None, c) => Some (release_lock ops (create_settings sidecar ops), c)
              end
          end
      end
  end.

(** [LoadOrCreateWithSidecar]. *)
Definition LoadOrCreateWithSidecar (fuel : nat) (sidecar : option (result string)) (ops : creation_ops)
    : option (Settings * bool * option error) :=
  match loadOrCreateWithOpsOutcome fuel sidecar ops with
  | None => None
  | Some (_, _, _, Some e, _) => Some (zero_Settings, false, Some e)
  | Some (s, created, result, None, _) => Some (s, created, Warning result)
  end.

(** ** Lemmas: logging *)

Lemma EffectiveLogging_nonzero (s : Settings) :
  Level (EffectiveLogging s) <> ""%string /\ MaxSizeMB (EffectiveLogging s) <> 0 /\
  MaxFiles (EffectiveLogging s) <> 0.
Proof.
  unfold EffectiveLogging. destruct (Logging s) as [l|]; [|done]. simpl.
  repeat case_if; breflect; done.
Qed.

(** A complete logging block is read back as it was stored. *)
Lemma EffectiveLogging_SetLogging (l : LoggingSettings) (s : Settings) :
  Level l <> ""%string -> MaxSizeMB l <> 0 -> MaxFiles l <> 0 ->
  EffectiveLogging (SetLogging l s) = l.
Proof.
  intros H1 H2 H3. unfold SetLogging. case_bool_decide as Hl; [by rewrite Hl|].
  unfold EffectiveLogging. simpl. destruct l as [a b c]. simpl in *.
  destruct (String.eqb_spec a ""), (Z.eqb_spec b 0), (Z.eqb_spec c 0); try done.
Qed.

Lemma canonical_EffectiveLogging (s : Settings) :
  EffectiveLogging (canonical s) = EffectiveLogging s.
Proof.
  unfold canonical. destruct (EffectiveLogging_nonzero s) as (? & ? & ?).
  by apply EffectiveLogging_SetLogging.
Qed.

Lemma SetLogging_frame (l : LoggingSettings) (s : Settings) :
  SetLogging l s = with_Logging (Logging (SetLogging l s)) s.
Proof. unfold SetLogging. by case_bool_decide. Qed.

(** Validation sees the logging block only through its effective values. *)
Lemma Validate_with_Logging (o : option LoggingSettings) (s : Settings) :
  EffectiveLogging (with_Logging o s) = EffectiveLogging s ->
  Validate (with_Logging o s) = Validate s.
Proof. unfold Validate. by intros ->. Qed.

Lemma Validate_canonical (s : Settings) : Validate (canonical s) = Validate s.
Proof.
  pose proof (canonical_EffectiveLogging s) as He. unfold canonical in *.
  rewrite SetLogging_frame in *. by apply Validate_with_Logging.
Qed.

Lemma canonical_idempotent (s : Settings) : canonical (canonical s) = canonical s.
Proof.
  unfold canonical at 1. rewrite canonical_EffectiveLogging.
  unfold canonical, SetLogging. by case_bool_decide.
Qed.

(** ** Lemmas: endpoints and validation *)

Lemma ParseUint_range (bits : Z) (s : string) (n : Z) :
  ParseUint bits s = Some n -> 0 <= n < 2 ^ bits.
Proof.
  unfold ParseUint. destruct (parse_digits s) as [m|]; [|done].
  case_if; intros; simplify_eq. breflect. lia.
Qed.

Lemma ParseAddrPort_port (s : string) (a : AddrPort) :
  ParseAddrPort s = Some a -> 0 <= ap_port a < 65536.
Proof.
  unfold ParseAddrPort. destruct (cut_last_colon s) as [[ip port]|]; [|done].
  case_if; [done|]. case_if; [done|].
  destruct (ParseUint 16 port) as [n|] eqn:Hn; [|done]. apply ParseUint_range in Hn.
  destruct (ParseAddr _) as [b|]; [|done]. case_if; intros; simplify_eq/=. lia.
Qed.

(** The address of a managed listener. *)
Definition endpoint_ok (value : string) (loopback : bool) (a : AddrPort) : Prop :=
  ParseAddrPort value = Some a /\ 0 < ap_port a < 65536 /\
  (loopback = true -> IsLoopback (ap_addr a) = true).

Lemma parseEndpoint_ok (name value : string) (loopback : bool) (a : AddrPort) :
  parseEndpoint name value loopback = Ok a <-> endpoint_ok value loopback a.
Proof.
  unfold parseEndpoint, endpoint_ok.
  destruct (ParseAddrPort value) as [b|] eqn:Hp; [|naive_solver].
  pose proof (ParseAddrPort_port _ _ Hp).
  destruct (Z.eqb_spec (ap_port b) 0); [split; [done|intros (? & ? & _); simplify_eq; lia]|].
  destruct loopback, (IsLoopback (ap_addr b)) eqn:Hl; simpl;
    (split; [intros; simplify_eq; repeat split; (done || lia)|intros (? & ? & Hi); simplify_eq]);
    try done. by rewrite Hi in Hl.
Qed.

Definition tun_ok (t : gmap string any) : Prop :=
  (forall v, t !! "enable"%string = Some v -> exists b, v = ABool b) /\
  (forall v, t !! "stack"%string = Some v -> exists x, v = AString x).

Lemma validateTun_ok (t : option (gmap string any)) :
  validateTun t = None <-> (forall m, t = Some m -> tun_ok m).
Proof.
  unfold validateTun, tun_ok. destruct t as [m|]; [|naive_solver].
  destruct (m !! "enable"%string) as [[]|] eqn:E1; destruct (m !! "stack"%string) as [[]|] eqn:E2;
    unfold data_error; split; intros H; try done;
    try (intros m' ?; simplify_eq; rewrite E1, E2; naive_solver);
    exfalso; specialize (H m eq_refl); rewrite E1, E2 in H; naive_solver.
Qed.

Definition routing_ok (r : RoutingSettings) : Prop :=
  (Mode r = ""%string \/ ValidRoutingMode (Mode r) = true) /\
  valid_selection_name (BootstrapGlobal r) = true /\
  Z.of_nat (size (GlobalSelections r)) <= 4096 /\
  map_Forall (fun id name => valid_selection_id id = true /\ valid_selection_name name = true)
    (GlobalSelections r).

Lemma selections_ok (m : gmap string string) :
  existsb (fun '(id, name) => negb (valid_selection_id id) || negb (valid_selection_name name))
    (map_to_list m) = false <->
  map_Forall (fun id name => valid_selection_id id = true /\ valid_selection_name name = true) m.
Proof.
  rewrite <- not_true_iff_false, existsb_exists. split.
  - intros Hno id name Hm. apply elem_of_map_to_list in Hm.
    destruct (valid_selection_id id) eqn:E1, (valid_selection_name name) eqn:E2; try done;
      exfalso; apply Hno; exists (id, name); rewrite <- list_elem_of_In, E1, E2; done.
  - intros Hall ([id name] & Hin & Hb). apply list_elem_of_In, elem_of_map_to_list in Hin.
    apply Hall in Hin as [H1 H2]. rewrite H1, H2 in Hb. done.
Qed.

Lemma validateRouting_ok (r : option RoutingSettings) :
  validateRouting r = None <-> (forall x, r = Some x -> routing_ok x).
Proof.
  unfold validateRouting, routing_ok. destruct r as [r|]; [|naive_solver].
  pose proof (selections_ok (GlobalSelections r)) as Hs.
  destruct (existsb _ _); destruct (String.eqb_spec (Mode r) ""), (ValidRoutingMode (Mode r)) eqn:?,
    (valid_selection_name (BootstrapGlobal r)) eqn:?,
    (Z.ltb_spec 4096 (Z.of_nat (size (GlobalSelections r)))); simpl; unfold data_error;
    (split; [intros Hn x ?; simplify_eq|intros Hx; specialize (Hx r eq_refl)]);
    try done; intuition (congruence || lia).
Qed.

(** The settings the daemon accepts. *)
Definition acceptable (s : Settings) : Prop :=
  Schema s = "mihari.settings/v1"%string /\
  (forall r, Routing s = Some r -> routing_ok r) /\
  (exists mixed controller web,
    endpoint_ok (MixedAddr s) false mixed /\
    endpoint_ok (ControllerAddr s) true controller /\
    endpoint_ok (WebAddr s) true web /\
    NoDup [ap_port mixed; ap_port controller; ap_port web]) /\
  (ControllerSecret s = ""%string \/ valid_secret (ControllerSecret s) = true) /\
  (forall t, Tun s = Some t -> tun_ok t) /\
  Level (EffectiveLogging s) ∈ ["debug"; "info"; "warn"; "error"; "silent"]%string /\
  1 <= MaxSizeMB (EffectiveLogging s) <= 100 /\
  1 <= MaxFiles (EffectiveLogging s) <= 10 /\
  CoreChannel s ∈ [""; "stable"; "alpha"]%string.

Lemma valid_log_level_ok (l : string) :
  valid_log_level l = true <-> l ∈ ["debug"; "info"; "warn"; "error"; "silent"]%string.
Proof. unfold valid_log_level. rewrite !orb_true_iff, !String.eqb_eq, !elem_of_cons, elem_of_nil. tauto. Qed.

Lemma channel_ok (c : string) :
  String.eqb c "" || String.eqb c "stable" || String.eqb c "alpha" = true <->
  c ∈ [""; "stable"; "alpha"]%string.
Proof. rewrite !orb_true_iff, !String.eqb_eq, !elem_of_cons, elem_of_nil. tauto. Qed.

Lemma ports_distinct (a b c : Z) :
  (a =? b) || (a =? c) || (b =? c) = false <-> NoDup [a; b; c].
Proof.
  rewrite !orb_false_iff, !Z.eqb_neq, !NoDup_cons, !elem_of_cons, !elem_of_nil.
  split; [intros [[? ?] ?]; repeat split; try tauto; try constructor; naive_solver|tauto].
Qed.

Lemma Validate_complete (s : Settings) : acceptable s -> Validate s = None.
Proof.
  intros (Hsch & Hr & (m & c & w & Hm & Hc & Hw & Hports) & Hk & Ht & Hl & Hsz & Hfl & Hch).
  unfold Validate. apply validateRouting_ok in Hr. rewrite Hr, Hsch. simpl.
  apply (parseEndpoint_ok "mixed-addr") in Hm. apply (parseEndpoint_ok "controller-addr") in Hc.
  apply (parseEndpoint_ok "web-addr") in Hw. rewrite Hm, Hc, Hw.
  apply ports_distinct in Hports. rewrite Hports.
  apply validateTun_ok in Ht. rewrite Ht.
  apply valid_log_level_ok in Hl. rewrite Hl. apply channel_ok in Hch. rewrite Hch. simpl.
  destruct (String.eqb_spec (ControllerSecret s) ""); [|destruct Hk as [?|Hk]; [done|rewrite Hk]]; simpl;
    repeat (case_if; [exfalso; rewrite orb_true_iff, !Z.ltb_lt in *; lia|]); done.
Qed.

Lemma Validate_sound (s : Settings) : Validate s = None -> acceptable s.
Proof.
  unfold Validate, data_error.
  destruct (validateRouting (Routing s)) eqn:Hr; [done|]. pose proof (proj1 (validateRouting_ok _) Hr).
  destruct (String.eqb_spec (Schema s) "mihari.settings/v1"); [|done]. simpl.
  destruct (parseEndpoint "mixed-addr" _ _) as [m|] eqn:Hm; [|done]. apply parseEndpoint_ok in Hm.
  destruct (parseEndpoint "controller-addr" _ _) as [c|] eqn:Hc; [|done]. apply parseEndpoint_ok in Hc.
  destruct (parseEndpoint "web-addr" _ _) as [w|] eqn:Hw; [|done]. apply parseEndpoint_ok in Hw.
  case_if; [done|]. apply ports_distinct in Heqb. case_if; [done|].
  destruct (validateTun (Tun s)) eqn:Ht; [done|]. pose proof (proj1 (validateTun_ok _) Ht).
  case_if; [done|]. apply negb_false_iff, valid_log_level_ok in Heqb1.
  case_if; [done|]. case_if; [done|]. case_if; [|done]. apply channel_ok in Heqb4. intros _.
  split; [done|]. split; [done|]. split; [by exists m, c, w|].
  breflect. split; [|repeat (split; [done || lia|]); done].
  apply andb_false_iff in Heqb0 as [H'|H']; apply negb_false_iff in H'; [left|by right].
  by apply String.eqb_eq in H'.
Qed.

(** ** Lemmas: sidecar *)

Lemma ParseCoreChannelSidecar_ok (raw channel stamp : string) :
  ParseCoreChannelSidecar raw = Some (channel, stamp) ->
  (channel = "stable"%string \/ channel = "alpha"%string) /\ stamp <> ""%string.
Proof.
  unfold ParseCoreChannelSidecar. destruct (Split _ _) as [|a [|b l]]; [done..|].
  case_if; [done|]. intros; simplify_eq. apply orb_false_iff in Heqb0 as [Hs Hc].
  apply andb_false_iff in Hc. breflect. split; [|done].
  destruct Hc as [Hc|Hc]; apply negb_false_iff, String.eqb_eq in Hc; auto.
Qed.

(** Validation sees the channel only as one of three names. *)
Lemma Validate_with_channel (c b : string) (s : Settings) :
  c ∈ [""; "stable"; "alpha"]%string -> Validate s = None -> Validate (with_channel c b s) = None.
Proof.
  intros Hc Hv. apply Validate_complete. apply Validate_sound in Hv.
  unfold acceptable in *. simpl. naive_solver.
Qed.

Lemma applySidecar_spec (sidecar : option (result string)) (s s' : Settings) (changed : bool)
    (err : option error) :
  applySidecarIfPresent sidecar s = (changed, s', err) ->
  (Validate s = None -> Validate s' = None) /\
  (changed = false -> s' = s) /\
  (changed = true -> err = None /\ exists c b, s' = with_channel c b s /\ CoreChannelBundle s <> b).
Proof.
  unfold applySidecarIfPresent, ApplyCoreChannelSidecar.
  destruct sidecar as [[raw|e]|]; [|case_if; intros; by simplify_eq|intros; by simplify_eq].
  destruct (ParseCoreChannelSidecar raw) as [[c b]|] eqn:Hp; [|intros; by simplify_eq].
  apply ParseCoreChannelSidecar_ok in Hp as [Hc _].
  case_if; intros; simplify_eq; [done|]. breflect. split; [|naive_solver].
  apply Validate_with_channel. set_solver.
Qed.

(** ** Lemmas: first start *)

Lemma wait_lock_ends (fuel n : nat) (deadline : Z) (ops : creation_ops) (c : calls) :
  (n < fuel)%nat -> deadline <= clock c + Z.of_nat n * ms10 ->
  is_Some (waitForSettingsOrCreationLock fuel deadline ops c).
Proof.
  revert n c. induction fuel as [|fuel IH]; intros n c Hn Hd; [lia|]. simpl.
  destruct (Z.ltb_spec (clock c + Z.of_N (op_delay ops (n_now c))) deadline); simpl; [|eauto].
  destruct (op_openLock _ _); [|eauto]. destruct (op_load _ _); [eauto|].
  repeat (case_if; [eauto|]).
  destruct n as [|n]; [lia|]. apply (IH n); [lia|]. simpl. unfold ms10 in *. lia.
Qed.

Lemma load_lock_ends (fuel n : nat) (deadline : Z) (ops : creation_ops) (c : calls) :
  (n < fuel)%nat -> deadline <= clock c + Z.of_nat n * ms10 ->
  is_Some (load_under_lock fuel deadline ops c).
Proof.
  revert n c. induction fuel as [|fuel IH]; intros n c Hn Hd; [lia|]. simpl.
  destruct (Z.ltb_spec (clock c + Z.of_N (op_delay ops (n_now c))) deadline); simpl; [|eauto].
  destruct (op_load _ _); [eauto|].
  repeat (case_if; [eauto|]).
  destruct n as [|n]; [lia|]. apply (IH n); [lia|]. simpl. unfold ms10 in *. lia.
Qed.

(** Time only passes. *)
Lemma wait_lock_clock (n : nat) (deadline : Z) (ops : creation_ops) (c c' : calls)
    (r : result (option Settings)) :
  waitForSettingsOrCreationLock n deadline ops c = Some (r, c') -> clock c <= clock c'.
Proof.
  revert c. induction n as [|n IH]; intros c; simpl; [done|].
  repeat (case_if; [intros; simplify_eq/=; lia|]).
  destruct (op_openLock _ _); [|intros; simplify_eq/=; lia].
  destruct (op_load _ _); [intros; simplify_eq/=; lia|].
  repeat (case_if; [intros; simplify_eq/=; lia|]).
  intros H. apply IH in H. simpl in H. unfold ms10 in *. lia.
Qed.

Lemma loadOrCreate_ends (sidecar : option (result string)) (ops : creation_ops) :
  is_Some (loadOrCreateWithOpsOutcome 1001 sidecar ops).
Proof.
  unfold loadOrCreateWithOpsOutcome. cbv zeta. destruct (op_load ops _); [eauto|].
  case_if; [eauto|]. destruct (op_mkdir ops); [eauto|].
  set (c0 := tick_load _). set (d := _ + initialization_timeout).
  assert (Hd : d <= clock c0 + Z.of_nat 1000 * ms10).
  { unfold d, c0, initialization_timeout, ms10. simpl. lia. }
  destruct (wait_lock_ends 1001 1000 d ops c0 ltac:(lia) Hd) as [[r c] Hw]. rewrite Hw.
  destruct r as [[s|]|x]; [eauto| |eauto].
  apply wait_lock_clock in Hw.
  destruct (load_lock_ends 1001 1000 d ops c) as [[r2 c2] Hl]; [lia|unfold ms10 in *; lia|].
  rewrite Hl. destruct r2 as [[s|]|x]; eauto.
Qed.

(** Within the time: nothing began at or after the deadline, and the waits so far fit
    between the first reading of the clock and the deadline. *)
Definition in_time (first deadline : Z) (c : calls) : Prop :=
  Forall (fun t => t < deadline) (begun c) /\ first + Z.of_nat (n_wait c) * ms10 <= clock c /\
  (Z.of_nat (n_wait c) - 1) * ms10 < deadline - first.

Lemma in_time_tick (first deadline : Z) (ops : creation_ops) (c : calls) :
  in_time first deadline c -> in_time first deadline (tick ops c).
Proof. intros (Hb & Hc & Hw). split; [done|]. split; [|done]. cbn. lia. Qed.

Lemma in_time_begin (first deadline : Z) (c : calls) :
  clock c < deadline -> in_time first deadline c ->
  in_time first deadline (tick_load c) /\ in_time first deadline (tick_open c) /\ in_time first deadline (wait10 c).
Proof.
  intros Hlt (Hb & Hc & Hw). repeat split; cbn; auto; unfold ms10 in *; lia.
Qed.

Lemma wait_lock_in_time (n : nat) (first deadline : Z) (ops : creation_ops) (c c' : calls) (r : result (option Settings)) :
  waitForSettingsOrCreationLock n deadline ops c = Some (r, c') -> in_time first deadline c -> in_time first deadline c'.
Proof.
  revert c. induction n as [|n IH]; intros c Hr Hc; [done|]. cbn [waitForSettingsOrCreationLock] in Hr. cbv zeta in Hr.
  apply (in_time_tick _ _ ops) in Hc. set (c1 := tick ops c) in *.
  destruct (Z.ltb_spec (clock c1) deadline) as [Hlt|]; cbn [negb] in Hr; [|by injection Hr as _ <-].
  destruct (in_time_begin _ _ _ Hlt Hc) as (_ & Ho & _). destruct (op_openLock _ _); [|by injection Hr as _ <-].
  destruct (in_time_begin _ _ _ (Hlt : clock (tick_open c1) < deadline) Ho) as (Hl & _).
  destruct (op_load _ _); [by injection Hr as _ <-|]. case_if_in Hr; [by injection Hr as _ <-|]. case_if_in Hr; [by injection Hr as _ <-|].
  apply (in_time_tick _ _ ops) in Hl. destruct (Z.ltb_spec (clock (tick ops (tick_load (tick_open c1)))) deadline) as [Hlt2|];
    cbn [negb] in Hr; [|by injection Hr as _ <-].
  eapply IH; [exact Hr|]. by apply in_time_begin.
Qed.

Lemma load_under_lock_in_time (n : nat) (first deadline : Z) (ops : creation_ops) (c c' : calls) (r : result (option Settings)) :
  load_under_lock n deadline ops c = Some (r, c') -> in_time first deadline c -> in_time first deadline c'.
Proof.
  revert c. induction n as [|n IH]; intros c Hr Hc; [done|]. cbn [load_under_lock] in Hr. cbv zeta in Hr.
  apply (in_time_tick _ _ ops) in Hc. set (c1 := tick ops c) in *.
  destruct (Z.ltb_spec (clock c1) deadline) as [Hlt|]; cbn [negb] in Hr; [|by injection Hr as _ <-].
  destruct (in_time_begin _ _ _ Hlt Hc) as (Hl & _).
  destruct (op_load _ _); [by injection Hr as _ <-|]. case_if_in Hr; [by injection Hr as _ <-|]. case_if_in Hr; [by injection Hr as _ <-|].
  apply (in_time_tick _ _ ops) in Hl. destruct (Z.ltb_spec (clock (tick ops (tick_load c1))) deadline) as [Hlt2|];
    cbn [negb] in Hr; [|by injection Hr as _ <-].
  eapply IH; [exact Hr|]. by apply in_time_begin.
Qed.

(** The first reading of the clock. *)
Definition first_reading (ops : creation_ops) : Z := op_start ops + Z.of_N (op_delay ops 0).

Lemma loadOrCreate_in_time (fuel : nat) (sidecar : option (result string)) (ops : creation_ops) (o : outcome) (c : calls) :
  loadOrCreateWithOpsOutcome fuel sidecar ops = Some (o, c) ->
  in_time (first_reading ops) (first_reading ops + initialization_timeout) c.
Proof.
  unfold loadOrCreateWithOpsOutcome. cbv zeta. change (clock (tick ops (no_calls ops))) with (first_reading ops).
  set (d := first_reading ops + initialization_timeout).
  assert (Hc : in_time (first_reading ops) d (tick_load (tick ops (no_calls ops)))).
  { split; [|unfold d, initialization_timeout, ms10; cbn; unfold first_reading; lia].
    constructor; [|constructor]. unfold d, initialization_timeout, first_reading. cbn. lia. }
  set (c0 := tick_load _) in *. clearbody c0. destruct (op_load ops _); [by intros [= _ <-]|].
  case_if; [by intros [= _ <-]|]. destruct (op_mkdir ops); [by intros [= _ <-]|].
  destruct (waitForSettingsOrCreationLock _ _ _ _) as [[r1 c1]|] eqn:Hw; [|done].
  apply (wait_lock_in_time _ (first_reading ops)) in Hw; [|done]. destruct r1 as [[s|]|x]; [by intros [= _ <-]| |by intros [= _ <-]].
  destruct (load_under_lock _ _ _ _) as [[r2 c2]|] eqn:Hl; [|done].
  apply (load_under_lock_in_time _ (first_reading ops)) in Hl; [|done]. by destruct r2 as [[s|]|x]; intros [= _ <-].
Qed.

Lemma release_lock_settings (ops : creation_ops) (o : outcome) :
  let '(s, created, r, err) := o in
  let '(s', created', r', err') := release_lock ops o in
  s' = s /\ created' = created /\ Committed r' = Committed r /\ (err' = None <-> err = None).
Proof.
  destruct o as [[[s created] r] err]. unfold release_lock.
  destruct (errors_Join (op_closeLock ops) _) as [x|]; [|done].
  destruct err as [e|]; simpl; done.
Qed.

(** The settings a successful first start returns: loaded by this call and, when
    the sidecar changed them, saved; or created, when the file was seen missing
    under the lock, and saved.  They are valid if the loaded ones are. *)
Definition outcome_ok (ops : creation_ops) (o : outcome) : Prop :=
  let '(s, created, r, err) := o in
  match err with
  | Some _ => s = zero_Settings /\ created = false
  | None =>
      if created then
        (exists r0, op_save ops s = (r0, None)) /\
        (exists k e, op_load ops k = Err e /\ errors_Is e ErrNotExist = true) /\
        (exists secret c b, op_secret ops = Ok secret /\
           s = with_channel c b (with_secret (hex_encode secret) Defaults))
      else
        exists k s0, op_load ops k = Ok s0 /\ (Validate s0 = None -> Validate s = None) /\
          (s = s0 \/ exists r0, op_save ops s = (r0, None))
  end.

Lemma outcome_ok_release (ops : creation_ops) (o : outcome) :
  outcome_ok ops o -> outcome_ok ops (release_lock ops o).
Proof.
  pose proof (release_lock_settings ops o) as Hr. destruct o as [[[s created] r] err].
  destruct (release_lock ops _) as [[[s' created'] r'] err']. destruct Hr as (-> & -> & _ & Hn).
  unfold outcome_ok. destruct err, err'; naive_solver.
Qed.

Lemma persistSidecar_ok (ops : creation_ops) (sidecar : option (result string)) (k : nat)
    (s0 : Settings) :
  op_load ops k = Ok s0 -> outcome_ok ops (persistSidecarIfChangedOutcome sidecar (op_save ops) s0).
Proof.
  intros Hk. unfold persistSidecarIfChangedOutcome.
  destruct (applySidecarIfPresent sidecar s0) as [[changed s1] err] eqn:Ha.
  apply applySidecar_spec in Ha as (Hv & Hsame & _).
  destruct err; [done|]. destruct changed.
  - destruct (op_save ops s1) as [r0 [e|]] eqn:Hs; simpl; [done|]. exists k, s0. eauto 10.
  - simpl. exists k, s0. rewrite Hsame by done. auto.
Qed.

Lemma create_settings_ok (ops : creation_ops) (sidecar : option (result string)) (k : nat) (e : error) :
  op_load ops k = Err e -> errors_Is e ErrNotExist = true ->
  outcome_ok ops (create_settings sidecar ops).
Proof.
  intros Hk He. unfold create_settings. destruct (op_secret ops) as [secret|x] eqn:Hsec; [|done].
  destruct (applySidecarIfPresent sidecar _) as [[changed s1] err] eqn:Ha.
  apply applySidecar_spec in Ha as (_ & Hsame & Hch).
  destruct err; [done|]. destruct (op_save ops s1) as [r0 [y|]] eqn:Hs; simpl; [done|].
  split; [eauto|]. split; [eauto|]. exists secret.
  destruct changed; [destruct Hch as (_ & c & b & -> & _); eauto|].
  rewrite Hsame by done. by exists "stable"%string, ""%string.
Qed.

Lemma wait_lock_loaded (n : nat) (deadline : Z) (ops : creation_ops) (c c' : calls) (s : Settings) :
  waitForSettingsOrCreationLock n deadline ops c = Some (Ok (Some s), c') ->
  exists k, op_load ops k = Ok s.
Proof.
  revert c. induction n as [|n IH]; intros c; simpl; [done|].
  case_if; [done|]. destruct (op_openLock _ _); [|done].
  destruct (op_load ops _) eqn:Hl; [intros; simplify_eq; eauto|].
  repeat (case_if; [done|]). apply IH.
Qed.

Lemma load_under_lock_loaded (n : nat) (deadline : Z) (ops : creation_ops) (c c' : calls)
    (r : option Settings) :
  load_under_lock n deadline ops c = Some (Ok r, c') ->
  match r with
  | Some s => exists k, op_load ops k = Ok s
  | None => exists k e, op_load ops k = Err e /\ errors_Is e ErrNotExist = true
  end.
Proof.
  revert c. induction n as [|n IH]; intros c; simpl; [done|].
  case_if; [done|].
  destruct (op_load ops _) eqn:Hl; [intros; simplify_eq; eauto|].
  case_if; [intros; simplify_eq; eauto|]. repeat (case_if; [done|]). apply IH.
Qed.

Lemma loadOrCreate_ok (fuel : nat) (sidecar : option (result string)) (ops : creation_ops) (o : outcome)
    (c : calls) :
  loadOrCreateWithOpsOutcome fuel sidecar ops = Some (o, c) -> outcome_ok ops o.
Proof.
  unfold loadOrCreateWithOpsOutcome. cbv zeta. destruct (op_load ops _) eqn:H0.
  { intros; simplify_eq. by eapply persistSidecar_ok. }
  case_if; [intros; by simplify_eq|]. destruct (op_mkdir ops); [intros; by simplify_eq|].
  destruct (waitForSettingsOrCreationLock _ _ _ _) as [[[[s|]|x] c1]|] eqn:Hw; [..|done].
  - apply wait_lock_loaded in Hw as [k Hk]. intros; simplify_eq. by eapply persistSidecar_ok.
  - destruct (load_under_lock _ _ _ _) as [[[[s|]|x] c2]|] eqn:Hl; [..|done]; intros; simplify_eq;
      apply outcome_ok_release; [| |done].
    + apply load_under_lock_loaded in Hl as [k Hk]. by eapply persistSidecar_ok.
    + apply load_under_lock_loaded in Hl as (k & e' & Hk & He). by eapply create_settings_ok.
  - intros; by simplify_eq.
Qed.

Lemma SaveWithCommit_spec `{YAML} {Env W : Type} `{AtomicFile Env W} (env : Env) (p : path)
    (s : Settings) (w w' : W) (r : CommitResult) (e : option error) :
  yaml_round_trips (canonical s) -> SaveWithCommit env p s w = (r, e, w') ->
  if Committed r then e = None /\ Load p w' = Ok (canonical s)
  else e <> None /\ af_read p w' = af_read p w.
Proof.
  intros Hrt. unfold SaveWithCommit. destruct (Validate s) eqn:Hv; [intros; by simplify_eq|].
  case_if; [intros; by simplify_eq|].
  destruct (yaml_Marshal (canonical s)) as [content|x] eqn:Hm; [|intros; by simplify_eq].
  case_if; [intros; by simplify_eq|]. intros Hw. destruct (Committed r) eqn:Hc.
  - destruct (af_committed _ _ _ _ _ _ _ Hw Hc) as [-> Hread].
    destruct (Hrt content Hm) as [Hd Hx].
    split; [done|].
    unfold Load. rewrite Hread, Heqb0, Hd, Hx, Validate_canonical, Hv.
    assert (Hk : ControllerSecret (canonical s) = ControllerSecret s)
      by (unfold canonical; by rewrite SetLogging_frame).
    by rewrite Hk, Heqb.
  - by eapply af_failed.
Qed.

(** ** Theorems *)

(** The settings the daemon accepts are exactly those with the known schema,
    a well-formed routing block, three parseable endpoints on pairwise distinct
    non-zero ports of which the controller and the web gateway are loopback
    addresses, an absent or 32-byte hexadecimal secret, a typed TUN block and
    logging limits within their ranges; the defaults are among them. *)
Theorem validate_iff_acceptable (s : Settings) :
  (Validate s = None <-> acceptable s) /\ Validate Defaults = None.
Proof.
  split; [|vm_compute; reflexivity].
  split; [apply Validate_sound|apply Validate_complete].
Qed.

(** C13. Saving and loading: if a save commits, loading the file returns the
    canonical form of the settings, which differs from them at most in how the
    same effective logging limits are spelled; if it does not commit, it reports
    an error and the file is as before.  This uses only what the atomic-file
    interface promises and that the YAML package reads back what it wrote. *)
Theorem save_then_load `{YAML} {Env W : Type} `{AtomicFile Env W} (env : Env) (p : path)
    (s : Settings) (w w' : W) (r : CommitResult) (e : option error) :
  yaml_round_trips (canonical s) ->
  SaveWithCommit env p s w = (r, e, w') ->
  if Committed r
  then e = None /\ Load p w' = Ok (canonical s) /\
       canonical s = with_Logging (Logging (canonical s)) s /\
       EffectiveLogging (canonical s) = EffectiveLogging s
  else e <> None /\ af_read p w' = af_read p w.
Proof.
  intros Hrt Hs. apply SaveWithCommit_spec in Hs; [|done]. destruct (Committed r); [|done].
  destruct Hs as [He Hl]. split; [done|]. split; [done|].
  split; [apply SetLogging_frame|apply canonical_EffectiveLogging].
Qed.


(** A packaged sidecar is applied once per stamp: applying it again, also
    after the user switched the channel, changes nothing; it keeps valid settings
    valid and touches only the channel. *)
Theorem sidecar_applied_once (read : result string) (s s' : Settings) (changed : bool)
    (user : string) :
  ApplyCoreChannelSidecar read s = (changed, s', None) ->
  changed = true ->
  let switched := with_channel user (CoreChannelBundle s') s' in
  ApplyCoreChannelSidecar read switched = (false, switched, None) /\
  (Validate s = None -> Validate s' = None) /\
  s' = with_channel (CoreChannel s') (CoreChannelBundle s') s.
Proof.
  intros Ha ->. pose proof (applySidecar_spec (Some read) s s' true None Ha) as (Hv & _ & Hc).
  destruct Hc as (_ & c & b & Hs & _); [done|]. split; [|split; [done|by subst]].
  unfold ApplyCoreChannelSidecar in *. destruct read as [raw|x]; [|by case_if_in Ha].
  destruct (ParseCoreChannelSidecar raw) as [[c' b']|]; [|done].
  case_if_in Ha; [done|]. simplify_eq/=. by rewrite String.eqb_refl.
Qed.

(** Routing intent: the mode and the per-subscription exits are independent
    cells.  A selection that was set is the one read, for that subscription and
    for no other; setting one never changes the mode and setting the mode never
    changes a selection. *)
Theorem routing_cells_independent (s : Settings) (id id' name mode : string) :
  GlobalSelection id' (SetGlobalSelection id name s) =
    (if String.eqb id' id then name else GlobalSelection id' s) /\
  RoutingMode (SetGlobalSelection id name s) = RoutingMode s /\
  GlobalSelection id' (SetRoutingMode mode s) = GlobalSelection id' s /\
  RoutingMode (SetRoutingMode mode s) = (if String.eqb mode "" then "rule"%string else mode).
Proof.
  unfold GlobalSelection, SetGlobalSelection, RoutingMode, SetRoutingMode. simpl.
  split; [|split; [|split]].
  - destruct (Routing s) as [r|]; simpl;
      destruct (String.eqb_spec id' id) as [->|Hne]; destruct (String.eqb_spec id "") as [->|];
      destruct (String.eqb_spec name "") as [->|]; simpl; try done;
      try (destruct (String.eqb_spec id' "") as [->|]; try done);
      by rewrite ?lookup_delete_eq, ?lookup_insert_eq, ?lookup_delete_ne, ?lookup_insert_ne,
        ?lookup_empty by congruence.
  - by destruct (Routing s), (String.eqb id ""), (String.eqb name "").
  - destruct (Routing s) as [r|]; simpl; [done|]. case_if; [done|]. by rewrite lookup_empty.
  - done.
Qed.

(** ** Witnesses *)

(** A YAML package that knows one document. *)
Definition example_yaml (s : Settings) (text : string) : YAML :=
  {| yaml_Marshal := fun _ => Ok text;
     yaml_Decode := fun c => if String.eqb c text then Ok s else Err (EText "yaml");
     yaml_Extra := fun _ => None |}.

Definition example_secret : string :=
  "000102030405060708090a0b0c0d0e0f101112131415161718191a1b1c1d1e1f".
Definition example_settings : Settings :=
  with_Logging (Some (mkLoggingSettings "info" 0 3)) (with_secret example_secret Defaults).
Definition example_text : string := "schema: mihari.settings/v1".

Lemma save_then_load_witness :
  let Y := example_yaml (canonical example_settings) example_text in
  let '(r, e, w') := @SaveWithCommit Y _ _ _ (no_faults "1") example_path example_settings (mkFS ∅ []) in
  Committed r = true /\ @Load Y _ _ _ example_path w' = Ok (with_secret example_secret Defaults).
Proof.
  intros Y.
  destruct (@SaveWithCommit Y _ _ _ (no_faults "1") example_path example_settings (mkFS ∅ []))
    as [[r e] w'] eqn:H.
  assert (Hc : Committed r = true).
  { change r with (fst (fst (r, e, w'))). rewrite <- H. vm_compute. reflexivity. }
  split; [exact Hc|].
  pose proof (@save_then_load Y _ _ _ (no_faults "1") example_path example_settings
                (mkFS ∅ []) w' r e) as Ht.
  rewrite Hc in Ht. destruct Ht as (_ & Hl & _).
  - intros c Hm. injection Hm as <-. split; reflexivity.
  - exact H.
  - exact Hl.
Defined.

Definition example_sidecar : result string := Ok (String.append "alpha" (String LF "build-7")).

Lemma sidecar_applied_once_witness :
  let s := with_channel "stable" "build-7" Defaults in
  ApplyCoreChannelSidecar example_sidecar s = (false, s, None).
Proof.
  apply (sidecar_applied_once example_sidecar Defaults (with_channel "alpha" "build-7" Defaults)
           true "stable"); reflexivity.
Defined.
