(* ===== verification/Catalog.v ===== *)
(** * Catalog: the subscription catalog

    Models [internal/subscription/model.go] and [catalog.go] and the source
    syntax of [source.go].

    A [time.Time] is the number of nanoseconds since the zero time, so [IsZero]
    is equality with 0.  The syntax of URLs and file URIs is a class without
    laws: every theorem holds for whatever it accepts. *)

From Stdlib Require Import Ascii.
From S2P Require Import Prelude GoStd Atomic.

Definition CatalogSchema : string := "mihari.subscriptions/v1".

Definition ProxyModeDirect : string := "".
Definition ProxyModeProxy : string := "proxy".
Definition ProxyModeAuto : string := "auto".

Definition ValidProxyMode (mode : string) : bool :=
  String.eqb mode ProxyModeDirect || String.eqb mode ProxyModeProxy || String.eqb mode ProxyModeAuto.

Record Profile := mkProfile {
  ID : string;
  Name : string;
  URL : string;
  CacheBaseDir : string;
  CacheURL : string;
  ScheduleFrom : Z;
  IntervalRefreshRequired : bool;
  Enabled : bool;
  AutoRefresh : bool;
  Interval : string;
  ProxyMode : string;
  Version : Z;
  Generation : Z;
  UpdatedAt : Z;
  ETag : string;
  LastModified : string;
  LastError : string;
  Upload : Z;
  Download : Z;
  Total : Z;
  Expire : Z
}.

#[export] Instance Profile_eq_dec : EqDecision Profile.
Proof. solve_decision. Defined.

Record Catalog := mkCatalog {
  Schema : string;
  GlobalInterval : string;
  ActiveID : string;
  Profiles : list Profile
}.

#[export] Instance Catalog_eq_dec : EqDecision Catalog.
Proof. solve_decision. Defined.

Definition zero_Catalog : Catalog := mkCatalog "" "" "" [].

Definition with_Name (n : string) (p : Profile) : Profile :=
  mkProfile (ID p) n (URL p) (CacheBaseDir p) (CacheURL p) (ScheduleFrom p)
    (IntervalRefreshRequired p) (Enabled p) (AutoRefresh p) (Interval p) (ProxyMode p) (Version p)
    (Generation p) (UpdatedAt p) (ETag p) (LastModified p) (LastError p) (Upload p) (Download p)
    (Total p) (Expire p).
Definition with_CacheURL (u : string) (p : Profile) : Profile :=
  mkProfile (ID p) (Name p) (URL p) (CacheBaseDir p) u (ScheduleFrom p)
    (IntervalRefreshRequired p) (Enabled p) (AutoRefresh p) (Interval p) (ProxyMode p) (Version p)
    (Generation p) (UpdatedAt p) (ETag p) (LastModified p) (LastError p) (Upload p) (Download p)
    (Total p) (Expire p).
Definition with_LastError (e : string) (p : Profile) : Profile :=
  mkProfile (ID p) (Name p) (URL p) (CacheBaseDir p) (CacheURL p) (ScheduleFrom p)
    (IntervalRefreshRequired p) (Enabled p) (AutoRefresh p) (Interval p) (ProxyMode p) (Version p)
    (Generation p) (UpdatedAt p) (ETag p) (LastModified p) e (Upload p) (Download p)
    (Total p) (Expire p).
Definition with_Enabled (b : bool) (p : Profile) : Profile :=
  mkProfile (ID p) (Name p) (URL p) (CacheBaseDir p) (CacheURL p) (ScheduleFrom p)
    (IntervalRefreshRequired p) b (AutoRefresh p) (Interval p) (ProxyMode p) (Version p)
    (Generation p) (UpdatedAt p) (ETag p) (LastModified p) (LastError p) (Upload p) (Download p)
    (Total p) (Expire p).

Definition with_Profiles (l : list Profile) (c : Catalog) : Catalog :=
  mkCatalog (Schema c) (GlobalInterval c) (ActiveID c) l.
Definition with_ActiveID (id : string) (c : Catalog) : Catalog :=
  mkCatalog (Schema c) (GlobalInterval c) id (Profiles c).

Definition Defaults : Catalog := mkCatalog CatalogSchema "12h" "" [].

Definition dataError (message : string) (cause : option error) : error :=
  diagnostics_Wrap (mkAPIError CodeDataFailure message false) cause.

(** ** Sources *)

(** [url.Parse] (scheme and host) and [platform.FileURI] (the canonical form). *)
Class SourceSyntax := {
  url_Parse : string -> result (string * string);
  FileURI : string -> result string
}.

Definition IsFileSource (source : string) : bool := HasPrefix source "file:".

Definition validateSource `{SourceSyntax} (source : string) : option error :=
  if IsFileSource source then
    match FileURI source with
    | Err e => Some (dataError "invalid local YAML source" (Some e))
    | Ok canonical =>
        if String.eqb canonical source then None
        else Some (dataError "local YAML source must use a canonical file URI" None)
    end
  else
    match url_Parse source with
    | Err e => Some (dataError "subscription source must use HTTP, HTTPS or file" (Some e))
    | Ok (scheme, host) =>
        if negb (String.eqb scheme "http") && negb (String.eqb scheme "https") || String.eqb host ""
        then Some (dataError "subscription source must use HTTP, HTTPS or file" None)
        else None
    end.

(** ** Fields *)

(** [^[0-9a-f]{32}$]. *)
Definition lower_hex (c : Ascii.ascii) : bool :=
  let x := byte c in (48 <=? x) && (x <=? 57) || (97 <=? x) && (x <=? 102).

Fixpoint all_chars (f : Ascii.ascii -> bool) (s : string) : bool :=
  match s with EmptyString => true | String c s => f c && all_chars f s end.

Definition profileIDPattern (id : string) : bool := (len id =? 32) && all_chars lower_hex id.

(** [filepath.IsAbs] on Unix. *)
Definition IsAbs (p : string) : bool := HasPrefix p "/".

(** [parseInterval]; a duration that parses but is not positive has no cause. *)
Definition parseInterval (value : string) : result Z :=
  match ParseDuration value with
  | Some d => if d <=? 0 then Err (dataError ("invalid refresh interval " ++ value) None) else Ok d
  | None => Err (dataError ("invalid refresh interval " ++ value) (Some (EText "time: invalid duration")))
  end.

(** [Catalog.Index]; -1 when absent. *)
Fixpoint index_of (id : string) (l : list Profile) : Z :=
  match l with
  | [] => -1
  | p :: l => if String.eqb (ID p) id then 0
              else let i := index_of id l in if i <? 0 then -1 else i + 1
  end.

Definition Index (c : Catalog) (id : string) : Z := index_of id (Profiles c).

(** [c.Profiles[c.Index(id)]]. *)
Definition find_profile (c : Catalog) (id : string) : option Profile :=
  let i := Index c id in
  if i <? 0 then None else Profiles c !! Z.to_nat i.

(** The body of the loop of [Normalize] for one profile. *)
Definition normalize_profile `{SourceSyntax} (seen : list string) (p : Profile) : result Profile :=
  if negb (profileIDPattern (ID p)) then Err (dataError "invalid subscription ID" None)
  else if bool_decide (ID p ∈ seen) then Err (dataError "duplicate subscription ID" None)
  else
    let p := with_Name (TrimSpace (Name p)) p in
    if String.eqb (Name p) "" then Err (dataError "subscription name is required" None)
    else match validateSource (URL p) with
    | Some e => Err e
    | None =>
        if IsFileSource (URL p) && negb (String.eqb (ProxyMode p) "") then
          Err (dataError "local YAML sources do not support HTTP proxy mode" None)
        else if negb (String.eqb (CacheBaseDir p) "") && negb (IsAbs (CacheBaseDir p)) then
          Err (dataError "cache base directory must be absolute" None)
        else if IsFileSource (URL p) && (0 <? Generation p) && String.eqb (CacheBaseDir p) "" then
          Err (dataError "local YAML cache is missing its base directory" None)
        else if negb (IsFileSource (URL p)) && negb (String.eqb (CacheBaseDir p) "") then
          Err (dataError "remote YAML cache cannot have a local base directory" None)
        else if negb (ValidProxyMode (ProxyMode p)) then
          Err (dataError "invalid subscription proxy mode" None)
        else if negb (String.eqb (Interval p) "") then
          match parseInterval (Interval p) with Err e => Err e | Ok _ => Ok p end
        else Ok p
    end.

Fixpoint normalize_profiles `{SourceSyntax} (seen : list string) (l : list Profile)
    : result (list Profile) :=
  match l with
  | [] => Ok []
  | p :: l =>
      match normalize_profile seen p with
      | Err e => Err e
      | Ok p =>
          match normalize_profiles (ID p :: seen) l with
          | Err e => Err e
          | Ok l => Ok (p :: l)
          end
      end
  end.

(** A profile that may be active. *)
Definition usable (p : Profile) : bool := Enabled p && (0 <? Generation p).

Definition Normalize `{SourceSyntax} (c : Catalog) : result Catalog :=
  if negb (String.eqb (Schema c) CatalogSchema) then
    Err (dataError "unsupported subscription catalog schema" None)
  else match parseInterval (GlobalInterval c) with
  | Err e => Err e
  | Ok _ =>
      match normalize_profiles [] (Profiles c) with
      | Err e => Err e
      | Ok l =>
          let c := with_Profiles l c in
          if negb (String.eqb (ActiveID c) "") then
            match find_profile c (ActiveID c) with
            | None => Ok (with_ActiveID "" c)
            | Some p => if negb (Enabled p) || (Generation p =? 0) then Ok (with_ActiveID "" c) else Ok c
            end
          else Ok c
      end
  end.

(** [migrate]: the current schema needs none. *)
Definition migrate (c : Catalog) : Catalog := c.

Definition fill_profile (p : Profile) : Profile :=
  if (0 <? Generation p) && String.eqb (CacheURL p) "" then with_CacheURL (URL p) p else p.

Definition fillDefaults (c : Catalog) : Catalog :=
  let c := with_Profiles (map fill_profile (Profiles c)) c in
  if negb (String.eqb (ActiveID c) "") then c
  else match List.find usable (Profiles c) with
       | Some p => with_ActiveID (ID p) c
       | None => c
       end.

(** [Normalize] followed by [fillDefaults], as every caller does. *)
Definition settle `{SourceSyntax} (c : Catalog) : result Catalog :=
  match Normalize c with Err e => Err e | Ok c => Ok (fillDefaults c) end.

Definition EffectiveInterval (c : Catalog) (p : Profile) : Z :=
  let value := if String.eqb (Interval p) "" then GlobalInterval c else Interval p in
  default 0 (ParseDuration value).

(** ** The public view *)

Record PublicProfile := mkPublicProfile {
  pub_SourceType : string;
  pub_CacheOutdated : bool;
  pub_ScheduleFrom : Z;
  pub_IntervalRefreshRequired : bool;
  pub_ID : string;
  pub_Name : string;
  pub_Enabled : bool;
  pub_AutoRefresh : bool;
  pub_Interval : string;
  pub_Cached : bool;
  pub_Generation : Z;
  pub_UpdatedAt : Z;
  pub_LastError : string;
  pub_Upload : Z;
  pub_Download : Z;
  pub_Total : Z;
  pub_Expire : Z;
  pub_ProxyMode : string
}.

Record PublicCatalog := mkPublicCatalog {
  pub_ActiveID : string;
  pub_GlobalInterval : string;
  pub_Profiles : list PublicProfile
}.

Definition sourceType (source : string) : string := if IsFileSource source then "file" else "".

Definition public_profile (p : Profile) : PublicProfile :=
  mkPublicProfile (sourceType (URL p))
    ((0 <? Generation p) && negb (String.eqb (CacheURL p) (URL p)))
    (ScheduleFrom p) (IntervalRefreshRequired p) (ID p) (Name p) (Enabled p) (AutoRefresh p)
    (Interval p) (0 <? Generation p) (Generation p) (UpdatedAt p) (LastError p) (Upload p)
    (Download p) (Total p) (Expire p) (ProxyMode p).

Definition Public (c : Catalog) : PublicCatalog :=
  mkPublicCatalog (ActiveID c) (GlobalInterval c) (map public_profile (Profiles c)).

(** ** Saving and loading *)

(** The YAML package, as the catalog uses it. *)
Class CatalogYAML := {
  cat_Marshal : Catalog -> result string;
  cat_Decode : string -> result Catalog;
  cat_Extra : string -> option (option error)
}.

Definition cat_round_trips `{CatalogYAML} (c : Catalog) : Prop :=
  forall content, cat_Marshal c = Ok content ->
    cat_Decode content = Ok c /\ cat_Extra content = None.

Definition maxCatalogSize : Z := 1048576.

Section Persistence.
Context `{SourceSyntax} `{CatalogYAML} {Env W : Type} `{AtomicFile Env W}.

(** [Save]: the catalog is settled and written with [config.AtomicWrite]. *)
Definition Save (env : Env) (p : path) (c : Catalog) (w : W) : option error * W :=
  match settle c with
  | Err e => (Some e, w)
  | Ok c =>
      match cat_Marshal c with
      | Err e => (Some (dataError "encode subscription catalog" (Some e)), w)
      | Ok content =>
          let '(result, err, w) := af_write env p content w in
          match err with Some e => (Some e, w) | None => (Warning result, w) end
      end
  end.

(** [Load] of a readable file; [decodeErrorMessage] only chooses the text. *)
Definition Load (p : path) (w : W) : result Catalog :=
  match af_read p w with
  | None => Err (ESentinel ErrNotExist)
  | Some content =>
      if maxCatalogSize <? len content then Err (dataError "subscription catalog is too large" None)
      else match cat_Decode content with
      | Err e => Err (dataError "invalid subscription catalog" (Some e))
      | Ok c =>
          match cat_Extra content with
          | Some cause => Err (dataError "subscription catalog must contain one document" cause)
          | None => settle (migrate c)
          end
      end
  end.

Definition LoadOrCreate (env : Env) (p : path) (w : W) : result Catalog * W :=
  match Load p w with
  | Ok c => (Ok c, w)
  | Err e =>
      if negb (errors_Is e ErrNotExist) then (Err e, w)
      else match Save env p Defaults w with
           | (Some e, w) => (Err e, w)
           | (None, w) => (Ok Defaults, w)
           end
  end.

End Persistence.

(** ** Lemmas: looking up profiles *)

Definition has_id (id : string) (p : Profile) : bool := String.eqb (ID p) id.

Lemma index_of_bounds (id : string) (l : list Profile) :
  -1 <= index_of id l < Z.of_nat (length l).
Proof.
  induction l as [|p l IH]; simpl; [lia|]. case_if; [lia|].
  destruct (Z.ltb_spec (index_of id l) 0); lia.
Qed.

(** [Index] finds the first profile with the ID. *)
Lemma find_profile_find (c : Catalog) (id : string) :
  find_profile c id = List.find (has_id id) (Profiles c).
Proof.
  unfold find_profile, Index. induction (Profiles c) as [|p l IH]; [done|]. simpl.
  unfold has_id at 1. destruct (String.eqb (ID p) id); [done|].
  pose proof (index_of_bounds id l). destruct (Z.ltb_spec (index_of id l) 0) as [Hlt|Hge]; simpl.
  - rewrite <- IH. done.
  - destruct (Z.ltb_spec (index_of id l + 1) 0); [lia|].
    rewrite Z2Nat.inj_add, Nat.add_1_r by lia. simpl. exact IH.
Qed.

Lemma find_profile_Some (c : Catalog) (id : string) (p : Profile) :
  find_profile c id = Some p -> p ∈ Profiles c /\ ID p = id.
Proof.
  rewrite find_profile_find. intros Hf. apply find_some in Hf as [Hin Hid].
  split; [by apply list_elem_of_In|]. by apply String.eqb_eq.
Qed.

Lemma find_profile_None (c : Catalog) (id : string) :
  find_profile c id = None -> forall p, p ∈ Profiles c -> ID p <> id.
Proof.
  rewrite find_profile_find. intros Hf p Hp Heq.
  apply list_elem_of_In in Hp. pose proof (find_none _ _ Hf p Hp) as Hx.
  unfold has_id in Hx. rewrite Heq, String.eqb_refl in Hx. done.
Qed.

Lemma find_profile_unique (c : Catalog) (p : Profile) :
  NoDup (map ID (Profiles c)) -> p ∈ Profiles c -> find_profile c (ID p) = Some p.
Proof.
  intros Hnd Hp. destruct (find_profile c (ID p)) as [q|] eqn:Hf.
  - apply find_profile_Some in Hf as [Hq Heq]. f_equal.
    by eapply (nodup_map_inj ID).
  - by destruct (find_profile_None _ _ Hf p Hp).
Qed.

(** ** Lemmas: normalisation *)

Section Normalisation.
Context `{SourceSyntax}.

(** What a normalised profile satisfies. *)
Definition profile_ok (p : Profile) : Prop :=
  profileIDPattern (ID p) = true /\ TrimSpace (Name p) = Name p /\ Name p <> ""%string /\
  validateSource (URL p) = None /\ ValidProxyMode (ProxyMode p) = true /\
  (IsFileSource (URL p) = true -> ProxyMode p = ""%string) /\
  (CacheBaseDir p <> ""%string -> IsAbs (CacheBaseDir p) = true /\ IsFileSource (URL p) = true) /\
  (IsFileSource (URL p) = true -> 0 < Generation p -> CacheBaseDir p <> ""%string) /\
  (Interval p <> ""%string -> exists d, ParseDuration (Interval p) = Some d /\ 0 < d).

Lemma parseInterval_ok (value : string) (d : Z) :
  parseInterval value = Ok d <-> ParseDuration value = Some d /\ 0 < d.
Proof.
  unfold parseInterval. destruct (ParseDuration value) as [d'|]; [|naive_solver].
  destruct (Z.leb_spec d' 0); (split; [intros ?|intros [? ?]]); simplify_eq; auto; lia.
Qed.

Lemma normalize_profile_sound (seen : list string) (p p' : Profile) :
  normalize_profile seen p = Ok p' ->
  p' = with_Name (TrimSpace (Name p)) p /\ (ID p' ∉ seen) /\ profile_ok p'.
Proof.
  unfold normalize_profile. intros Hn.
  destruct (profileIDPattern (ID p)) eqn:Hid; [|done].
  simpl negb in Hn. cbv iota in Hn. case_bool_decide as Hseen; [done|].
  cbn [with_Name Name URL ProxyMode CacheBaseDir Generation Interval ID] in Hn.
  destruct (String.eqb_spec (TrimSpace (Name p)) "") as [|Hne]; [done|].
  destruct (validateSource (URL p)) eqn:Hsrc; [done|].
  destruct (IsFileSource (URL p) && negb (String.eqb (ProxyMode p) "")) eqn:H1; [done|].
  destruct (negb (String.eqb (CacheBaseDir p) "") && negb (IsAbs (CacheBaseDir p))) eqn:H2; [done|].
  destruct (IsFileSource (URL p) && (0 <? Generation p) && String.eqb (CacheBaseDir p) "") eqn:H3;
    [done|].
  destruct (negb (IsFileSource (URL p)) && negb (String.eqb (CacheBaseDir p) "")) eqn:H4; [done|].
  destruct (ValidProxyMode (ProxyMode p)) eqn:H5; [|done].
  assert (Hp' : p' = with_Name (TrimSpace (Name p)) p /\
            (Interval p <> ""%string -> exists d, ParseDuration (Interval p) = Some d /\ 0 < d)).
  { simpl in Hn. destruct (String.eqb_spec (Interval p) ""); simpl in Hn; [by simplify_eq|].
    destruct (parseInterval (Interval p)) as [d|] eqn:Hd; [|done].
    apply parseInterval_ok in Hd. simplify_eq. eauto. }
  destruct Hp' as [-> Hint]. clear Hn. split; [done|]. split; [done|].
  unfold profile_ok. simpl. rewrite TrimSpace_idempotent. repeat (split; [done|]).
  split; [|split; [|split]].
  - intros Hf. rewrite Hf in H1. by destruct (String.eqb_spec (ProxyMode p) "").
  - intros Hc. apply String.eqb_neq in Hc. rewrite Hc in *. simpl in *.
    rewrite andb_true_r in H4. by destruct (IsAbs (CacheBaseDir p)), (IsFileSource (URL p)).
  - intros Hf Hg Hc. apply Z.ltb_lt in Hg. by rewrite Hf, Hg, Hc in H3.
  - done.
Qed.

Lemma normalize_profile_complete (seen : list string) (p : Profile) :
  profile_ok p -> ID p ∉ seen -> normalize_profile seen p = Ok p.
Proof.
  intros (Hid & Htr & Hne & Hsrc & Hvm & Hpm & Hcb & Hgen & Hint) Hseen.
  unfold normalize_profile. rewrite Hid. simpl negb. cbv iota.
  rewrite bool_decide_false by done. rewrite Htr.
  assert (Hw : with_Name (Name p) p = p) by by destruct p.
  rewrite Hw, Hsrc, Hvm. destruct (String.eqb_spec (Name p) "") as [|_]; [done|].
  assert (Hi : (if negb (String.eqb (Interval p) "")
                then match parseInterval (Interval p) with Err e => Err e | Ok _ => Ok p end
                else Ok p) = Ok p).
  { destruct (String.eqb_spec (Interval p) "") as [|Hi]; [done|]. simpl.
    destruct (Hint Hi) as (d & Hd). apply parseInterval_ok in Hd. by rewrite Hd. }
  destruct (IsFileSource (URL p)) eqn:Hfile; simpl.
  - rewrite Hpm by done. simpl.
    destruct (String.eqb_spec (CacheBaseDir p) "") as [He|He]; simpl.
    + destruct (Z.ltb_spec 0 (Generation p)); simpl; [by apply Hgen in He|done].
    + destruct (Hcb He) as [-> _]. rewrite andb_false_r. done.
  - destruct (String.eqb_spec (CacheBaseDir p) "") as [He|He]; simpl; [done|].
    by destruct (Hcb He).
Qed.

Lemma normalize_profiles_sound (seen : list string) (l l' : list Profile) :
  normalize_profiles seen l = Ok l' ->
  l' = map (fun p => with_Name (TrimSpace (Name p)) p) l /\
  Forall profile_ok l' /\ NoDup (map ID l') /\ (forall id, id ∈ seen -> id ∉ map ID l').
Proof.
  revert seen l'. induction l as [|p l IH]; intros seen l'; simpl.
  { intros; simplify_eq/=. repeat split; auto; [constructor|set_solver]. }
  destruct (normalize_profile seen p) as [p'|e] eqn:Hp; [|done].
  apply normalize_profile_sound in Hp as (-> & Hns & Hok).
  destruct (normalize_profiles _ l) as [l2|e] eqn:Hl; [|done]. intros; simplify_eq.
  apply IH in Hl as (-> & Hall & Hnd & Hseen). split; [done|].
  split; [by constructor|]. simpl in *. split.
  - constructor; [|done]. apply Hseen, elem_of_cons. by left.
  - intros id Hid [->|Hin]%elem_of_cons; [done|].
    apply (Hseen id); [|done]. apply elem_of_cons. by right.
Qed.

Lemma normalize_profiles_complete (seen : list string) (l : list Profile) :
  Forall profile_ok l -> NoDup (map ID l) -> (forall id, id ∈ seen -> id ∉ map ID l) ->
  normalize_profiles seen l = Ok l.
Proof.
  revert seen. induction l as [|p l IH]; intros seen Hall Hnd Hseen; [done|]. simpl in *.
  apply Forall_cons in Hall as [Hp Hall]. apply NoDup_cons in Hnd as [Hni Hnd].
  rewrite normalize_profile_complete; [|done|intros Hin; apply (Hseen _ Hin), elem_of_cons; by left].
  rewrite IH; [done..|]. intros id [->|Hid]%elem_of_cons; [done|].
  intros Hin. apply (Hseen id Hid), elem_of_cons. by right.
Qed.

(** The invariant of a catalog in memory and on disk. *)
Definition catalog_ok (c : Catalog) : Prop :=
  Schema c = CatalogSchema /\
  (exists d, ParseDuration (GlobalInterval c) = Some d /\ 0 < d) /\
  Forall profile_ok (Profiles c) /\
  NoDup (map ID (Profiles c)) /\
  Forall (fun p => 0 < Generation p -> CacheURL p = ""%string -> URL p = ""%string) (Profiles c) /\
  (ActiveID c <> ""%string ->
   exists p, p ∈ Profiles c /\ ID p = ActiveID c /\ Enabled p = true /\ Generation p <> 0) /\
  (ActiveID c = ""%string -> Forall (fun p => usable p = false) (Profiles c)).

Lemma fill_profile_frame (p : Profile) :
  ID (fill_profile p) = ID p /\ usable (fill_profile p) = usable p /\
  Enabled (fill_profile p) = Enabled p /\ Generation (fill_profile p) = Generation p /\
  (profile_ok p -> profile_ok (fill_profile p)) /\
  (0 < Generation (fill_profile p) -> CacheURL (fill_profile p) = ""%string ->
   URL (fill_profile p) = ""%string).
Proof.
  unfold fill_profile. destruct (_ && _) eqn:E; [repeat (split; [done|]); done|].
  repeat (split; [done|]). intros Hg Hc.
  apply Z.ltb_lt in Hg. by rewrite Hg, Hc in E.
Qed.

Lemma fill_profile_id (p : Profile) :
  (0 < Generation p -> CacheURL p = ""%string -> URL p = ""%string) -> fill_profile p = p.
Proof.
  unfold fill_profile. intros Hf. case_if; [|done]. breflect. specialize (Hf H0 H1).
  destruct p; simpl in *. unfold with_CacheURL. simpl. congruence.
Qed.

Lemma map_fill_ids (l : list Profile) : map ID (map fill_profile l) = map ID l.
Proof.
  rewrite map_map. apply map_ext. intros p. apply fill_profile_frame.
Qed.

(** The repaired active profile of a catalog with good profiles. *)
Lemma Normalize_sound (c c' : Catalog) :
  Normalize c = Ok c' ->
  Schema c' = CatalogSchema /\ GlobalInterval c' = GlobalInterval c /\
  (exists d, ParseDuration (GlobalInterval c) = Some d /\ 0 < d) /\
  Profiles c' = map (fun p => with_Name (TrimSpace (Name p)) p) (Profiles c) /\
  Forall profile_ok (Profiles c') /\ NoDup (map ID (Profiles c')) /\
  (ActiveID c' = ""%string \/ ActiveID c' = ActiveID c /\
   exists p, p ∈ Profiles c' /\ ID p = ActiveID c' /\ Enabled p = true /\ Generation p <> 0).
Proof.
  unfold Normalize. destruct (String.eqb_spec (Schema c) CatalogSchema) as [Hs|]; [|done]. simpl.
  destruct (parseInterval (GlobalInterval c)) as [d|] eqn:Hd; [|done]. apply parseInterval_ok in Hd.
  destruct (normalize_profiles [] (Profiles c)) as [l|] eqn:Hl; [|done].
  apply normalize_profiles_sound in Hl as (Hl & Hall & Hnd & _).
  assert (Hcommon : forall a, Schema (with_ActiveID a (with_Profiles l c)) = CatalogSchema /\
    Profiles (with_ActiveID a (with_Profiles l c)) = l) by done.
  destruct (String.eqb_spec (ActiveID c) "") as [He|He]; simpl.
  { intros; simplify_eq/=. repeat (split; [by eauto|]). auto. }
  destruct (find_profile _ (ActiveID c)) as [p|] eqn:Hf.
  2:{ intros; simplify_eq/=. repeat (split; [by eauto|]). auto. }
  destruct (negb (Enabled p) || (Generation p =? 0)) eqn:Hu; intros; simplify_eq/=.
  { repeat (split; [by eauto|]). auto. }
  apply find_profile_Some in Hf as [Hp Hid]. breflect.
  repeat (split; [by eauto|]). right. split; [done|]. exists p. auto.
Qed.

Lemma settle_sound (c c' : Catalog) : settle c = Ok c' -> catalog_ok c'.
Proof.
  unfold settle. destruct (Normalize c) as [c1|e] eqn:Hn; [|done]. intros; simplify_eq.
  apply Normalize_sound in Hn as (Hs & Hg & Hd & _ & Hall & Hnd & Hact).
  assert (Hall' : Forall profile_ok (map fill_profile (Profiles c1))).
  { apply Forall_map. eapply Forall_impl; [done|]. intros p. apply fill_profile_frame. }
  assert (Hnd' : NoDup (map ID (map fill_profile (Profiles c1)))) by by rewrite map_fill_ids.
  assert (Hcu : Forall (fun p => 0 < Generation p -> CacheURL p = ""%string -> URL p = ""%string)
                  (map fill_profile (Profiles c1))).
  { apply Forall_map, Forall_true. intros p. apply fill_profile_frame. }
  unfold fillDefaults. simpl.
  destruct (String.eqb_spec (ActiveID c1) "") as [He|He]; simpl.
  - destruct (List.find usable _) as [p|] eqn:Hf; simpl.
    + apply find_some in Hf as [Hin Hu]. apply list_elem_of_In in Hin.
      unfold catalog_ok. simpl. rewrite Hg. repeat (split; [done|]). split.
      * intros _. exists p. unfold usable in Hu. breflect. repeat split; auto. lia.
      * intros Hid. rewrite Forall_forall in Hall'. destruct (Hall' p Hin) as [Hpat _].
        rewrite Hid in Hpat. done.
    + unfold catalog_ok. simpl. rewrite Hg. repeat (split; [done|]).
      intros _. apply Forall_forall. intros p Hp. apply list_elem_of_In in Hp.
      by apply (find_none _ _ Hf).
  - destruct Hact as [|[_ (p & Hp & Hid & Hen & Hgen)]]; [done|].
    unfold catalog_ok. simpl. rewrite Hg. repeat (split; [done|]). split; [|done].
    intros _. exists (fill_profile p). destruct (fill_profile_frame p) as (-> & _ & -> & -> & _).
    split; [|auto]. apply list_elem_of_In, in_map, list_elem_of_In, Hp.
Qed.

(** A catalog that satisfies the invariant is not changed by settling it. *)
Lemma settle_complete (c : Catalog) : catalog_ok c -> settle c = Ok c.
Proof.
  intros (Hs & (d & Hd) & Hall & Hnd & Hcu & Hact & Hnone).
  unfold settle, Normalize. rewrite Hs. simpl. apply parseInterval_ok in Hd. rewrite Hd.
  rewrite normalize_profiles_complete by (done || set_solver).
  assert (Hw : with_Profiles (Profiles c) c = c) by by destruct c.
  rewrite Hw.
  assert (Hf : map fill_profile (Profiles c) = Profiles c).
  { rewrite <- (map_id (Profiles c)) at 2. apply map_ext_in. intros p Hp.
    rewrite Forall_forall in Hcu. apply fill_profile_id, Hcu, list_elem_of_In, Hp. }
  assert (Hfill : fillDefaults c = c).
  { unfold fillDefaults. rewrite Hf, Hw.
    destruct (String.eqb_spec (ActiveID c) "") as [He|]; [|done]. simpl.
    destruct (List.find usable (Profiles c)) as [p|] eqn:Hfi; [|done].
    apply find_some in Hfi as [Hin Hu]. apply list_elem_of_In in Hin.
    specialize (Hnone He). rewrite Forall_forall in Hnone. by rewrite (Hnone p Hin) in Hu. }
  destruct (String.eqb_spec (ActiveID c) "") as [He|He]; simpl; [by rewrite Hfill|].
  destruct (Hact He) as (p & Hp & Hid & Hen & Hgen). rewrite <- Hid.
  rewrite find_profile_unique by done. rewrite Hen. simpl.
  destruct (Z.eqb_spec (Generation p) 0); [done|]. simpl. by rewrite Hfill.
Qed.

Lemma Defaults_ok : catalog_ok Defaults.
Proof.
  repeat split; try done; try (by constructor).
  exists 43200000000000. split; [vm_compute; reflexivity|lia].
Qed.

End Normalisation.

(** ** Lemmas: saving *)

(** What [Save] leaves behind: nothing changed on an early error; otherwise the
    file is as before or the settled catalog. *)
Lemma Save_spec `{SourceSyntax} `{CatalogYAML} {Env W : Type} `{AtomicFile Env W} (env : Env)
    (p : path) (c : Catalog) (w w' : W) (e : option error) :
  Save env p c w = (e, w') ->
  (af_read p w' = af_read p w /\ e <> None) \/
  (exists c' content, settle c = Ok c' /\ cat_Marshal c' = Ok content /\
     af_read p w' = Some content).
Proof.
  unfold Save. destruct (settle c) as [c'|x] eqn:Hs; [|intros; simplify_eq; auto].
  destruct (cat_Marshal c') as [content|x] eqn:Hm; [|intros; simplify_eq; auto].
  destruct (af_write env p content w) as [[r err] w1] eqn:Hw.
  destruct (Committed r) eqn:Hc.
  - destruct (af_committed _ _ _ _ _ _ _ Hw Hc) as [-> Hr]. intros; simplify_eq. right. eauto.
  - destruct (af_failed _ _ _ _ _ _ _ Hw Hc) as [Hne Hr]. destruct err; [|done].
    intros; simplify_eq. auto.
Qed.

(** Loading what [Save] wrote. *)
Lemma Load_saved `{SourceSyntax} `{CatalogYAML} {Env W : Type} `{AtomicFile Env W}
    (p : path) (c : Catalog) (content : string) (w : W) :
  catalog_ok c -> cat_round_trips c -> cat_Marshal c = Ok content -> af_read p w = Some content ->
  Load p w = if maxCatalogSize <? len content
             then Err (dataError "subscription catalog is too large" None) else Ok c.
Proof.
  intros Hok Hrt Hm Hr. unfold Load. rewrite Hr. case_if; [done|].
  destruct (Hrt content Hm) as [Hd Hx]. rewrite Hd, Hx. unfold migrate. by apply settle_complete.
Qed.

(** ** Theorems *)

(** C15. Normalising a catalog and filling its defaults establishes the catalog
    invariant (known schema, positive intervals, well-formed profiles with
    unique IDs and trimmed names, a cache source wherever there is a cache, an
    active subscription that exists, is enabled and cached, and none only if no
    profile qualifies), and a catalog is left as it is exactly when it satisfies
    that invariant; in particular the operation is idempotent. *)
Theorem settle_fixpoint `{SourceSyntax} (c c' : Catalog) :
  (settle c = Ok c' -> catalog_ok c' /\ settle c' = Ok c') /\
  (settle c = Ok c <-> catalog_ok c).
Proof.
  split.
  - intros Hs. apply settle_sound in Hs. split; [done|]. by apply settle_complete.
  - split; [apply settle_sound|apply settle_complete].
Qed.

(** Saving a catalog that satisfies the invariant and reporting success
    puts exactly that catalog on disk: loading it back gives the same value,
    unless its encoding exceeds the size [Load] accepts; then [Load] refuses the
    file that [Save] wrote without complaint. *)
Theorem catalog_save_then_load `{SourceSyntax} `{CatalogYAML} {Env W : Type} `{AtomicFile Env W}
    (env : Env) (p : path) (c : Catalog) (w w' : W) :
  catalog_ok c -> cat_round_trips c ->
  Save env p c w = (None, w') ->
  exists content, cat_Marshal c = Ok content /\ af_read p w' = Some content /\
    Load p w' = if maxCatalogSize <? len content
                then Err (dataError "subscription catalog is too large" None) else Ok c.
Proof.
  intros Hok Hrt Hs. apply Save_spec in Hs as [[_ Hne]|(c' & content & Hset & Hm & Hr)]; [done|].
  rewrite settle_complete in Hset by done. simplify_eq.
  exists content. split; [done|]. split; [done|]. by apply Load_saved.
Qed.

(** The public view of a catalog shows as cached exactly the profiles with
    a fetched generation and as outdated exactly those whose cache came from
    another source, and it does not depend on the source addresses: replacing
    them so that local sources stay local and different ones different gives the
    same public view. *)
Theorem public_hides_sources (c : Catalog) (rename : string -> string) :
  (forall u, IsFileSource (rename u) = IsFileSource u) ->
  (forall u v, rename u = rename v -> u = v) ->
  let renamed := with_Profiles
    (map (fun p => mkProfile (ID p) (Name p) (rename (URL p)) (CacheBaseDir p) (rename (CacheURL p))
            (ScheduleFrom p) (IntervalRefreshRequired p) (Enabled p) (AutoRefresh p) (Interval p)
            (ProxyMode p) (Version p) (Generation p) (UpdatedAt p) (ETag p) (LastModified p)
            (LastError p) (Upload p) (Download p) (Total p) (Expire p)) (Profiles c)) c in
  Public renamed = Public c /\
  forall q, q ∈ pub_Profiles (Public c) -> exists p, p ∈ Profiles c /\ pub_ID q = ID p /\
    (pub_Cached q = true <-> 0 < Generation p) /\
    (pub_CacheOutdated q = true <-> 0 < Generation p /\ CacheURL p <> URL p).
Proof.
  intros Hfile Hinj renamed. split.
  - unfold Public, renamed. simpl. f_equal. rewrite map_map. apply map_ext. intros p.
    unfold public_profile, sourceType. simpl. rewrite Hfile. f_equal.
    destruct (String.eqb_spec (CacheURL p) (URL p)) as [->|Hne]; [by rewrite String.eqb_refl|].
    destruct (String.eqb_spec (rename (CacheURL p)) (rename (URL p))) as [He|]; [|done].
    by apply Hinj in He.
  - intros q Hq. unfold Public in Hq. simpl in Hq.
    apply list_elem_of_In, in_map_iff in Hq as (p & <- & Hp). exists p.
    split; [by apply list_elem_of_In|]. split; [done|]. simpl.
    rewrite Z.ltb_lt, andb_true_iff, Z.ltb_lt, negb_true_iff, String.eqb_neq. done.
Qed.

(** ** Witnesses *)

#[export] Instance example_syntax : SourceSyntax :=
  {| url_Parse := fun s => if HasPrefix s "https://" then Ok ("https"%string, "host"%string)
                           else Err (EText "url");
     FileURI := fun s => Ok s |}.

Definition example_profile : Profile :=
  mkProfile "0123456789abcdef0123456789abcdef" " home " "https://host/a" "" "" 0 false true true "" ""
    1 3 5 "" "" "" 0 0 0 0.
Definition example_catalog : Catalog := mkCatalog CatalogSchema "12h" "" [example_profile].

Definition settled_example : Catalog :=
  mkCatalog CatalogSchema "12h" "0123456789abcdef0123456789abcdef"
    [with_CacheURL "https://host/a" (with_Name "home" example_profile)].

Example settle_example : settle example_catalog = Ok settled_example.
Proof. vm_compute. reflexivity. Qed.

Lemma settle_fixpoint_witness : catalog_ok settled_example.
Proof.
  apply (proj1 (settle_fixpoint example_catalog settled_example)). vm_compute. reflexivity.
Defined.

Definition example_cat_yaml : CatalogYAML :=
  {| cat_Marshal := fun _ => Ok "profiles:"%string;
     cat_Decode := fun _ => Ok settled_example;
     cat_Extra := fun _ => None |}.

Lemma catalog_save_then_load_witness :
  let w' := snd (@Save _ example_cat_yaml _ _ _ (no_faults "1") example_path settled_example
                   (mkFS ∅ [])) in
  @Load _ example_cat_yaml _ _ _ example_path w' = Ok settled_example.
Proof.
  intros w'.
  destruct (@catalog_save_then_load _ example_cat_yaml _ _ _ (no_faults "1") example_path
              settled_example (mkFS ∅ []) w') as (content & Hm & _ & Hl).
  - apply settle_sound with (c := example_catalog). vm_compute. reflexivity.
  - intros c Hc. split; reflexivity.
  - assert (Hf : fst (@Save _ example_cat_yaml _ _ _ (no_faults "1") example_path settled_example
                   (mkFS ∅ [])) = None) by (vm_compute; reflexivity).
    unfold w'. rewrite <- Hf. apply surjective_pairing.
  - injection Hm as <-. exact Hl.
Defined.

Lemma public_hides_sources_witness :
  Public (with_Profiles [with_Name "home" (mkProfile "0123456789abcdef0123456789abcdef" " home "
     "https://host/a?" "" "https://host/a?" 0 false true true "" "" 1 3 5 "" "" "" 0 0 0 0)] settled_example)
  = Public settled_example.
Proof.
  apply (public_hides_sources settled_example
           (fun u => (u ++ "?")%string)).
  - intros u. unfold IsFileSource, HasPrefix.
    do 6 (destruct u as [|? u]; [reflexivity|simpl; try case_match; try done]).
  - intros u v H. revert v H. induction u as [|a u IH]; intros [|b v] H; [reflexivity|..].
    + destruct v; discriminate H.
    + destruct u; discriminate H.
    + injection H as -> H. f_equal. apply IH, H.
Defined.
