(* ===== verification/Scheduler.v ===== *)
(** * Scheduler: automatic refresh of subscriptions

    Models [internal/subscription/scheduler.go].  The three maps of [Run] are
    finite maps; a pass over the due subscriptions is a function of the answers
    of [Refresh] and of the catalogs [Snapshot] returns, so a list of passes is a
    run of the scheduler.  Durations are 64-bit. *)

From Stdlib Require Import Ascii.
From S2P Require Import Prelude GoStd Catalog.

Definition time_Minute : Z := 60000000000.
Definition time_Millisecond : Z := 1000000.

(** ** Time *)

(** [t.Add(d)] and the saturating [t.Sub(u)]. *)
Definition time_Add (t d : Z) : Z := t + d.
Definition time_Sub (t u : Z) : Z := Z.max (- two63) (Z.min (two63 - 1) (t - u)).

(** ** Jitter *)

(** [fnv.New32a]. *)
Definition fnv_offset : Z := 2166136261.
Definition fnv_prime : Z := 16777619.
Fixpoint fnv32a (h : Z) (s : string) : Z :=
  match s with
  | EmptyString => h
  | String c s => fnv32a ((Z.lxor h (byte c) * fnv_prime) mod 2 ^ 32) s
  end.

(** [stableJitter]; [Z.quot] is Go's truncating division. *)
Definition stableJitter (id : string) (interval : Z) : Z :=
  let parts := fnv32a fnv_offset id mod 101 - 50 in
  Z.quot (int64 (interval * parts)) 1000.

(** ** Options *)

Record SchedulerOptions := mkSchedulerOptions {
  Jitter : string -> Z -> Z;
  IdlePoll : Z;
  MinRetry : Z;
  MaxRetry : Z
}.

Definition NewScheduler (jitter : option (string -> Z -> Z)) (idle min max : Z) : SchedulerOptions :=
  mkSchedulerOptions (default stableJitter jitter)
    (if idle <=? 0 then time_Minute else idle)
    (if min <=? 0 then time_Minute else min)
    (if max <=? 0 then 30 * time_Minute else max).

(** ** Retry delay *)

(** The loop of [RetryDelay] with [n] rounds left. *)
Fixpoint retry_loop (n : nat) (delay maximum : Z) : Z :=
  match n with
  | O => if maximum <? delay then maximum else delay
  | S n =>
      if delay <? maximum then
        if Z.quot maximum 2 <? delay then maximum
        else retry_loop n (int64 (delay * 2)) maximum
      else if maximum <? delay then maximum else delay
  end.

Definition RetryDelay (failures minimum maximum : Z) : Z :=
  let failures := if failures <? 1 then 1 else failures in
  retry_loop (Z.to_nat (failures - 1)) minimum maximum.

(** ** Due subscriptions *)

Definition refreshScheduleBase (p : Profile) : Z :=
  if negb (ScheduleFrom p =? 0) then ScheduleFrom p else UpdatedAt p.

Definition Due (c : Catalog) (now : Z) : list string :=
  map ID (List.filter (fun p =>
    Enabled p && AutoRefresh p &&
    let base := refreshScheduleBase p in
    (base =? 0) || negb (now <? time_Add base (EffectiveInterval c p))) (Profiles c)).

(** When a profile is due; a duration sum wraps at 64 bits. *)
Definition due_at (o : SchedulerOptions) (c : Catalog) (now : Z) (nextAllowed : gmap string Z)
    (p : Profile) : Z :=
  let base := refreshScheduleBase p in
  let dueAt := if negb (base =? 0)
               then let interval := EffectiveInterval c p in
                    time_Add base (int64 (interval + Jitter o (ID p) interval))
               else now in
  let allowed := default 0 (nextAllowed !! ID p) in
  if dueAt <? allowed then allowed else dueAt.

(** The loop of [Scheduler.due]. *)
Fixpoint due_loop (o : SchedulerOptions) (c : Catalog) (now : Z) (nextAllowed : gmap string Z)
    (l : list Profile) (wait : Z) : list string * Z :=
  match l with
  | [] => ([], wait)
  | p :: l =>
      if negb (Enabled p) || negb (AutoRefresh p) then due_loop o c now nextAllowed l wait
      else
        let dueAt := due_at o c now nextAllowed p in
        if negb (now <? dueAt) then
          let '(ids, wait) := due_loop o c now nextAllowed l wait in (ID p :: ids, wait)
        else
          let remaining := time_Sub dueAt now in
          due_loop o c now nextAllowed l (if remaining <? wait then remaining else wait)
  end.

Definition due (o : SchedulerOptions) (c : Catalog) (now : Z) (nextAllowed : gmap string Z)
    : list string * Z :=
  let '(ids, wait) := due_loop o c now nextAllowed (Profiles c) (IdlePoll o) in
  (ids, if wait <=? 0 then time_Millisecond else wait).

(** ** The run loop *)

Record refreshScheduleIdentity := mkIdentity {
  rsi_from : Z;
  rsi_updated : Z;
  rsi_url : string;
  rsi_interval : string;
  rsi_effective : Z
}.

#[export] Instance refreshScheduleIdentity_eq_dec : EqDecision refreshScheduleIdentity.
Proof. solve_decision. Defined.

Definition zero_identity : refreshScheduleIdentity := mkIdentity 0 0 "" "" 0.

Definition scheduleIdentity (c : Catalog) (p : Profile) : refreshScheduleIdentity :=
  mkIdentity (ScheduleFrom p) (UpdatedAt p) (URL p) (Interval p) (EffectiveInterval c p).

Record Scheduler := mkScheduler {
  failures : gmap string Z;
  nextAllowed : gmap string Z;
  identities : gmap string refreshScheduleIdentity
}.

Definition new_run : Scheduler := mkScheduler ∅ ∅ ∅.

Definition forget (id : string) (s : Scheduler) : Scheduler :=
  mkScheduler (delete id (failures s)) (delete id (nextAllowed s)) (identities s).

Definition set_identity (id : string) (i : refreshScheduleIdentity) (s : Scheduler) : Scheduler :=
  mkScheduler (failures s) (nextAllowed s) (<[id := i]> (identities s)).

(** The first loop of [reconcile]: entries of removed subscriptions. *)
Definition drop_removed (c : Catalog) (s : Scheduler) : Scheduler :=
  let gone (id : string) : Prop := Index c id < 0 /\ is_Some (identities s !! id) in
  mkScheduler (filter (fun kv => ~ gone (fst kv)) (failures s))
              (filter (fun kv => ~ gone (fst kv)) (nextAllowed s))
              (filter (fun kv => ~ Index c (fst kv) < 0) (identities s)).

(** The second loop, for one profile. *)
Definition adopt (c : Catalog) (s : Scheduler) (p : Profile) : Scheduler :=
  let identity := scheduleIdentity c p in
  let s := match identities s !! ID p with
           | Some previous => if bool_decide (previous = identity) then s else forget (ID p) s
           | None => s
           end in
  set_identity (ID p) identity s.

Definition reconcile (c : Catalog) (s : Scheduler) : Scheduler :=
  fold_left (adopt c) (Profiles c) (drop_removed c s).

(** What the outside does for one due subscription: the context error and catalog
    before the refresh, the clock, the answer of [Refresh], the context error,
    the catalog and the clock after it. *)
Record turn := mkTurn {
  tn_ctxBefore : bool;
  tn_current : Catalog;
  tn_nowCheck : Z;
  tn_refresh : option error;
  tn_nowAfter : Z;
  tn_latest : Catalog;
  tn_ctxAfter : bool
}.

(** The body of the loop over [dueIDs]: [None] when [Run] returns because of its
    context; the flag says whether [Refresh] was called. *)
Definition refresh_one (o : SchedulerOptions) (id : string) (t : turn) (s : Scheduler)
    : option (Scheduler * bool) :=
  if tn_ctxBefore t then None
  else
    let s := reconcile (tn_current t) s in
    let '(stillDue, _) := due o (tn_current t) (tn_nowCheck t) (nextAllowed s) in
    if negb (bool_decide (id ∈ stillDue)) then Some (s, false)
    else
      let identity := default zero_identity (identities s !! id) in
      let s := reconcile (tn_latest t) s in
      match tn_refresh t with
      | Some _ =>
          if tn_ctxAfter t then None
          else if negb (bool_decide (default zero_identity (identities s !! id) = identity)) then Some (s, true)
          else
            let n := default 0 (failures s !! id) + 1 in
            let delay := int64 (RetryDelay n (MinRetry o) (MaxRetry o)
                                + Jitter o (id ++ "retry") (MinRetry o)) in
            Some (mkScheduler (<[id := n]> (failures s))
                    (<[id := time_Add (tn_nowAfter t) delay]> (nextAllowed s)) (identities s), true)
      | None =>
          let s := mkScheduler (delete id (failures s)) (nextAllowed s) (identities s) in
          match find_profile (tn_latest t) id with
          | Some p =>
              let interval := EffectiveInterval (tn_latest t) p in
              let base := refreshScheduleBase p in
              let base := if base =? 0 then tn_nowAfter t else base in
              Some (mkScheduler (failures s)
                      (<[id := time_Add base (int64 (interval + Jitter o id interval))]> (nextAllowed s))
                      (identities s), true)
          | None => Some (s, true)
          end
      end.

(** A pass over the due subscriptions, with the IDs that were refreshed. *)
Fixpoint refresh_all (o : SchedulerOptions) (ids : list string) (turns : list turn) (s : Scheduler)
    : option (Scheduler * list string) :=
  match ids, turns with
  | id :: ids, t :: turns =>
      match refresh_one o id t s with
      | None => None
      | Some (s, called) =>
          match refresh_all o ids turns s with
          | None => None
          | Some (s, done) => Some (s, if called : bool then id :: done else done)
          end
      end
  | _, _ => Some (s, [])
  end.

(** One round of [Run]: either it waits, or it refreshes what is due. *)
Inductive round :=
| Waits (wait : Z)
| Refreshed (ids : list string)
| Returned.

Definition run_round (o : SchedulerOptions) (now : Z) (c : Catalog) (turns : list turn) (s : Scheduler)
    : round * Scheduler :=
  let s := reconcile c s in
  let '(ids, wait) := due o c now (nextAllowed s) in
  match ids with
  | [] => (Waits wait, s)
  | _ => match refresh_all o ids turns s with
         | None => (Returned, s)
         | Some (s, done) => (Refreshed done, s)
         end
  end.

(** ** Lemmas: delays *)

Lemma retry_loop_closed (n : nat) (delay maximum : Z) :
  0 < delay -> 0 < maximum < two63 -> delay < two63 ->
  retry_loop n delay maximum = Z.min (delay * 2 ^ Z.of_nat n) maximum.
Proof.
  revert delay. induction n as [|n IH]; intros delay Hd Hm Hb; simpl retry_loop.
  { rewrite Z.mul_1_r. destruct (Z.ltb_spec maximum delay); lia. }
  assert (1 <= 2 ^ Z.of_nat n) by (apply (Z.pow_le_mono_r 2 0); lia).
  rewrite Nat2Z.inj_succ, Z.pow_succ_r by lia.
  destruct (Z.ltb_spec delay maximum).
  - rewrite Z.quot_div_nonneg by lia.
    destruct (Z.ltb_spec (maximum / 2) delay).
    + pose proof (Z.mod_pos_bound maximum 2). pose proof (Z.div_mod maximum 2). nia.
    + assert (2 * delay <= maximum) by (pose proof (Z.mul_div_le maximum 2); lia).
      rewrite int64_id by (unfold in_int64, two63 in *; lia).
      rewrite IH by (unfold two63 in *; lia). f_equal. lia.
  - destruct (Z.ltb_spec maximum delay); nia.
Qed.

Lemma fnv32a_range (h : Z) (s : string) : 0 <= h -> 0 <= fnv32a h s.
Proof.
  revert h. induction s as [|c s IH]; intros h Hh; simpl; [done|].
  apply IH. apply Z.mod_pos_bound. lia.
Qed.

(** The jitter is at most 5% of the interval, also where the product of interval
    and parts exceeds 64 bits. *)
Lemma stableJitter_bound (id : string) (interval : Z) :
  0 <= interval < two63 -> 20 * Z.abs (stableJitter id interval) <= interval.
Proof.
  intros Hi. unfold stableJitter.
  assert (Hp : -50 <= fnv32a fnv_offset id mod 101 - 50 <= 50).
  { pose proof (Z.mod_pos_bound (fnv32a fnv_offset id) 101). lia. }
  set (parts := _ - 50) in *. clearbody parts.
  assert (Hq : forall z, 1000 * Z.abs (Z.quot z 1000) <= Z.abs z).
  { intros z. pose proof (Z.quot_abs z 1000 ltac:(lia)) as Ha. change (Z.abs 1000) with 1000 in Ha.
    rewrite <- Ha. apply Z.mul_quot_le; lia. }
  specialize (Hq (int64 (interval * parts))).
  destruct (Z.le_gt_cases (50 * interval) (two63 - 1)) as [Hsmall|Hbig].
  - rewrite int64_id in * by (unfold in_int64, two63 in *; nia). nia.
  - pose proof (int64_range (interval * parts)) as Hr. unfold in_int64 in Hr.
    unfold two63 in *. lia.
Qed.

(** ** Lemmas: due subscriptions *)

(** A profile the scheduler looks after, and one that is due. *)
Definition scheduled (p : Profile) : bool := Enabled p && AutoRefresh p.
Definition is_due (o : SchedulerOptions) (c : Catalog) (now : Z) (na : gmap string Z) (p : Profile)
    : bool := scheduled p && negb (now <? due_at o c now na p).

Lemma due_loop_spec (o : SchedulerOptions) (c : Catalog) (now : Z) (na : gmap string Z)
    (l : list Profile) (wait : Z) :
  let '(ids, wait') := due_loop o c now na l wait in
  ids = map ID (List.filter (is_due o c now na) l) /\ wait' <= wait /\
  (forall p, p ∈ l -> scheduled p = true -> is_due o c now na p = false ->
     wait' <= due_at o c now na p - now) /\
  (wait' = wait \/ 0 < wait').
Proof.
  revert wait. induction l as [|p l IH]; intros wait; cbn [due_loop].
  { repeat split; auto; [lia|]. intros p Hp. by apply elem_of_nil in Hp. }
  cbn [List.filter]. unfold is_due at 1, scheduled at 1. rewrite <- negb_andb.
  destruct (Enabled p && AutoRefresh p) eqn:Hs; cbn [negb andb].
  2:{ specialize (IH wait). destruct (due_loop o c now na l wait) as [ids wait'].
      destruct IH as (-> & Hw & Hall & Hpos). repeat split; auto.
      intros q [->|Hq]%elem_of_cons Hsq; [unfold scheduled in Hsq; congruence|auto]. }
  destruct (Z.ltb_spec now (due_at o c now na p)) as [Hlt|Hge]; cbn [negb].
  - set (rem := time_Sub _ now). specialize (IH (if rem <? wait then rem else wait)).
    assert (Hrem : 0 < rem <= due_at o c now na p - now) by (unfold rem, time_Sub, two63; lia).
    destruct (due_loop o c now na l _) as [ids wait'].
    destruct IH as (-> & Hw & Hall & Hpos). destruct (Z.ltb_spec rem wait); repeat split; auto; try lia.
    + intros q [->|Hq]%elem_of_cons Hsq Hd; [lia|auto].
    + intros q [->|Hq]%elem_of_cons Hsq Hd; [lia|auto].
  - specialize (IH wait). destruct (due_loop o c now na l wait) as [ids wait'].
    destruct IH as (-> & Hw & Hall & Hpos). repeat split; auto.
    intros q [->|Hq]%elem_of_cons Hsq Hd; [|auto].
    unfold is_due in Hd. rewrite Hsq in Hd. simpl in Hd.
    apply negb_false_iff, Z.ltb_lt in Hd. lia.
Qed.

(** *** What being due means *)

(** A time before which a profile is not refreshed: the end of its interval, counted
    from the start of its schedule or, where none is set, from its last update; and
    the time before which a retry is not allowed. *)
Inductive obstacle (o : SchedulerOptions) (c : Catalog) (na : gmap string Z) (p : Profile) : Z -> Prop :=
| scheduled_interval :
    ScheduleFrom p <> 0 ->
    obstacle o c na p (ScheduleFrom p + int64 (EffectiveInterval c p + Jitter o (ID p) (EffectiveInterval c p)))
| update_interval :
    ScheduleFrom p = 0 -> UpdatedAt p <> 0 ->
    obstacle o c na p (UpdatedAt p + int64 (EffectiveInterval c p + Jitter o (ID p) (EffectiveInterval c p)))
| retry_time t :
    na !! ID p = Some t -> obstacle o c na p t.

Definition ready (o : SchedulerOptions) (c : Catalog) (na : gmap string Z) (now : Z) (p : Profile) : Prop :=
  Enabled p = true /\ AutoRefresh p = true /\ forall t, obstacle o c na p t -> t <= now.

Definition last_obstacle (o : SchedulerOptions) (c : Catalog) (na : gmap string Z) (p : Profile) (t : Z) : Prop :=
  obstacle o c na p t /\ forall t', obstacle o c na p t' -> t' <= t.

(** Every obstacle is at most the time the code computes. *)
Lemma obstacle_le (o : SchedulerOptions) (c : Catalog) (na : gmap string Z) (now : Z) (p : Profile) (t : Z) :
  obstacle o c na p t -> t <= due_at o c now na p.
Proof.
  unfold due_at, refreshScheduleBase, time_Add.
  intros [Hf|Hf Hu|r Hr]; rewrite ?Hr; simpl; repeat case_match; breflect; simplify_eq; lia.
Qed.

(** A time the code computes that lies ahead is an obstacle. *)
Lemma due_at_obstacle (o : SchedulerOptions) (c : Catalog) (na : gmap string Z) (now : Z) (p : Profile) :
  0 <= now -> now < due_at o c now na p -> last_obstacle o c na p (due_at o c now na p).
Proof.
  intros Hnow Hlt. split; [|intros t'; apply obstacle_le]. revert Hlt. unfold due_at, refreshScheduleBase, time_Add.
  destruct (na !! ID p) as [r|] eqn:Hr; simpl; destruct (Z.eqb_spec (ScheduleFrom p) 0) as [Hs|Hs]; simpl;
    try (destruct (Z.eqb_spec (UpdatedAt p) 0) as [Hu|Hu]; simpl);
    try (destruct (Z.eqb_spec (ScheduleFrom p) 0) as [?|?]; simpl; [lia|]);
    case_match; breflect; intros Hlt; try lia; by constructor.
Qed.

Lemma is_due_ready (o : SchedulerOptions) (c : Catalog) (na : gmap string Z) (now : Z) (p : Profile) :
  0 <= now -> is_due o c now na p = true <-> ready o c na now p.
Proof.
  intros Hnow. unfold is_due, scheduled, ready. rewrite !andb_true_iff, negb_true_iff, Z.ltb_ge. split.
  - intros [[He Ha] Hd]. split; [done|]. split; [done|]. intros t Ht. pose proof (obstacle_le o c na now p t Ht). lia.
  - intros (He & Ha & Hall). split; [done|]. apply Z.nlt_ge. intros Hlt.
    destruct (due_at_obstacle o c na now p Hnow Hlt) as [Ho _]. specialize (Hall _ Ho). lia.
Qed.

Lemma due_ids (o : SchedulerOptions) (c : Catalog) (now : Z) (na : gmap string Z) (id : string) :
  NoDup (map ID (Profiles c)) ->
  id ∈ fst (due o c now na) <->
  exists p, find_profile c id = Some p /\ is_due o c now na p = true.
Proof.
  intros Hnd. unfold due. pose proof (due_loop_spec o c now na (Profiles c) (IdlePoll o)) as Hs.
  destruct (due_loop o c now na _ _) as [ids w]. destruct Hs as (-> & _). simpl.
  rewrite list_elem_of_In, in_map_iff. setoid_rewrite filter_In. split.
  - intros (p & <- & Hp & Hd). exists p. split; [|done].
    apply find_profile_unique; [done|]. by apply list_elem_of_In.
  - intros (p & Hf & Hd). apply find_profile_Some in Hf as [Hp <-].
    exists p. split; [done|]. split; [by apply list_elem_of_In|done].
Qed.

(** ** Lemmas: reconcile *)

(** What [adopt] does to the entries of one ID. *)
Lemma adopt_other (c : Catalog) (s : Scheduler) (p : Profile) (id : string) :
  ID p <> id ->
  identities (adopt c s p) !! id = identities s !! id /\
  nextAllowed (adopt c s p) !! id = nextAllowed s !! id /\
  failures (adopt c s p) !! id = failures s !! id.
Proof.
  intros Hne. unfold adopt. destruct (identities s !! ID p); [case_bool_decide|]; simpl;
    by rewrite ?lookup_insert_ne, ?lookup_delete_ne.
Qed.

(** The entries of an ID after [reconcile]: they survive exactly if the identity
    is the one they were recorded for. *)
Definition kept {A} (c : Catalog) (s : Scheduler) (p : Profile) (m : gmap string A) : option A :=
  match identities s !! ID p with
  | Some previous => if bool_decide (previous = scheduleIdentity c p) then m !! ID p else None
  | None => m !! ID p
  end.

Lemma adopt_same (c : Catalog) (s : Scheduler) (p : Profile) :
  identities (adopt c s p) !! ID p = Some (scheduleIdentity c p) /\
  nextAllowed (adopt c s p) !! ID p = kept c s p (nextAllowed s) /\
  failures (adopt c s p) !! ID p = kept c s p (failures s).
Proof.
  unfold adopt, kept. destruct (identities s !! ID p); [case_bool_decide|]; simpl;
    by rewrite ?lookup_insert_eq, ?lookup_delete_eq.
Qed.

Lemma adopt_all (c : Catalog) (l : list Profile) (s : Scheduler) (id : string) :
  NoDup (map ID l) ->
  match List.find (has_id id) l with
  | Some p =>
      identities (fold_left (adopt c) l s) !! id = Some (scheduleIdentity c p) /\
      nextAllowed (fold_left (adopt c) l s) !! id = kept c s p (nextAllowed s) /\
      failures (fold_left (adopt c) l s) !! id = kept c s p (failures s)
  | None =>
      identities (fold_left (adopt c) l s) !! id = identities s !! id /\
      nextAllowed (fold_left (adopt c) l s) !! id = nextAllowed s !! id /\
      failures (fold_left (adopt c) l s) !! id = failures s !! id
  end.
Proof.
  revert s. induction l as [|p l IH]; intros s Hnd; [done|]. simpl in *.
  apply NoDup_cons in Hnd as [Hni Hnd]. specialize (IH (adopt c s p) Hnd).
  unfold has_id at 1. destruct (String.eqb_spec (ID p) id) as [<-|Hne].
  - assert (Hnone : List.find (has_id (ID p)) l = None).
    { destruct (List.find _ l) as [q|] eqn:Hf; [|done]. apply find_some in Hf as [Hq Hid].
      apply String.eqb_eq in Hid. destruct Hni. rewrite <- Hid.
      apply list_elem_of_In, in_map, Hq. }
    rewrite Hnone in IH. destruct IH as (-> & -> & ->). apply adopt_same.
  - destruct (adopt_other c s p id Hne) as (H1 & H2 & H3).
    destruct (List.find (has_id id) l) as [q|] eqn:Hf.
    + apply find_some in Hf as [_ Hid]. apply String.eqb_eq in Hid.
      unfold kept in *. rewrite Hid in *. rewrite H1, H2, H3 in IH. exact IH.
    + rewrite H1, H2, H3 in IH. exact IH.
Qed.

Lemma Index_find (c : Catalog) (id : string) :
  Index c id < 0 <-> find_profile c id = None.
Proof.
  unfold find_profile. destruct (Z.ltb_spec (Index c id) 0); [naive_solver|].
  split; [lia|]. intros Hn. apply lookup_ge_None in Hn.
  pose proof (index_of_bounds id (Profiles c)). unfold Index in *. lia.
Qed.

(** The full effect of [reconcile]: the recorded identities are those of the
    catalog; delays and failure counts of a removed subscription and of one whose
    schedule changed are forgotten, all others are kept. *)
Lemma reconcile_spec (c : Catalog) (s : Scheduler) (id : string) :
  NoDup (map ID (Profiles c)) ->
  match find_profile c id with
  | Some p =>
      identities (reconcile c s) !! id = Some (scheduleIdentity c p) /\
      nextAllowed (reconcile c s) !! id = kept c s p (nextAllowed s) /\
      failures (reconcile c s) !! id = kept c s p (failures s)
  | None =>
      identities (reconcile c s) !! id = None /\
      (is_Some (identities s !! id) ->
       nextAllowed (reconcile c s) !! id = None /\ failures (reconcile c s) !! id = None)
  end.
Proof.
  intros Hnd. unfold reconcile. pose proof (adopt_all c (Profiles c) (drop_removed c s) id Hnd) as Ha.
  rewrite <- find_profile_find in Ha.
  assert (Hkeep : forall (A : Type) (m : gmap string A), 0 <= Index c id ->
    filter (fun kv => ~ (Index c (fst kv) < 0 /\ is_Some (identities s !! fst kv))) m !! id = m !! id).
  { intros A m Hi. rewrite map_lookup_filter. destruct (m !! id); simpl; [|done].
    rewrite option_guard_True; [done|lia]. }
  destruct (find_profile c id) as [p|] eqn:Hf.
  - assert (Hi : 0 <= Index c id).
    { destruct (Z.lt_ge_cases (Index c id) 0) as [Hlt|]; [|done].
      apply Index_find in Hlt. congruence. }
    pose proof (find_profile_Some _ _ _ Hf) as [_ Hid]. destruct Ha as (-> & -> & ->).
    split; [done|].
    assert (Hids : identities (drop_removed c s) !! ID p = identities s !! ID p).
    { simpl. rewrite map_lookup_filter, Hid. destruct (identities s !! id); simpl; [|done].
      rewrite option_guard_True; [done|lia]. }
    unfold kept. rewrite Hids. simpl. rewrite Hid, !Hkeep by done. done.
  - apply Index_find in Hf. destruct Ha as (-> & -> & ->). simpl.
    rewrite !map_lookup_filter. split.
    + destruct (identities s !! id); simpl; [|done]. by rewrite option_guard_False by (simpl; lia).
    + intros Hs. split.
      * destruct (nextAllowed s !! id); simpl; [|done].
        rewrite option_guard_False by (simpl; tauto). done.
      * destruct (failures s !! id); simpl; [|done].
        rewrite option_guard_False by (simpl; tauto). done.
Qed.

(** A subscription that may not be refreshed yet is left alone. *)
Lemma not_yet_allowed (o : SchedulerOptions) (id : string) (t : turn) (s : Scheduler) (p : Profile)
    (allowed : Z) :
  tn_ctxBefore t = false -> NoDup (map ID (Profiles (tn_current t))) ->
  find_profile (tn_current t) id = Some p ->
  identities s !! id = Some (scheduleIdentity (tn_current t) p) ->
  nextAllowed s !! id = Some allowed -> tn_nowCheck t < allowed ->
  refresh_one o id t s = Some (reconcile (tn_current t) s, false).
Proof.
  intros Hctx Hnd Hf Hid Hna Hlt. unfold refresh_one. rewrite Hctx.
  pose proof (reconcile_spec (tn_current t) s id Hnd) as Hr. rewrite Hf in Hr.
  destruct Hr as (_ & Hn & _). pose proof (find_profile_Some _ _ _ Hf) as [_ Hp].
  unfold kept in Hn. rewrite Hp, Hid, bool_decide_true, Hna in Hn by done.
  pose proof (due_ids o (tn_current t) (tn_nowCheck t)
                (nextAllowed (reconcile (tn_current t) s)) id Hnd) as Hdue.
  destruct (due o _ _ _) as [ids w]. simpl in Hdue.
  rewrite bool_decide_false; [done|]. rewrite Hdue. intros (q & Hq & Hd).
  rewrite Hf in Hq. injection Hq as <-. unfold is_due, due_at in Hd. rewrite Hp, Hn in Hd. simpl in Hd.
  apply andb_true_iff in Hd as [_ Hd]. apply negb_true_iff, Z.ltb_ge in Hd.
  set (d := if negb _ then _ else _) in Hd. destruct (Z.ltb_spec d allowed); lia.
Qed.

(** ** Theorems *)

(** The retry delay after [n] consecutive failures is the minimum doubled
    [n - 1] times and capped at the maximum, for all failure counts and all
    64-bit durations. *)
Theorem retry_delay_closed_form (n minimum maximum : Z) :
  0 < minimum < two63 -> 0 < maximum < two63 -> 1 <= n ->
  RetryDelay n minimum maximum = Z.min (minimum * 2 ^ (n - 1)) maximum.
Proof.
  intros Hmin Hmax Hn. unfold RetryDelay. destruct (Z.ltb_spec n 1); [lia|].
  rewrite retry_loop_closed by lia. by rewrite Z2Nat.id by lia.
Qed.

(** The deterministic jitter stays within 5% of the interval for every
    64-bit interval, also where its intermediate product overflows; so a refresh
    is never scheduled earlier than 95% of the interval after its base, as long
    as interval plus 5% is a 64-bit duration. *)
Theorem jitter_within_five_percent (id : string) (interval : Z) :
  0 <= interval < two63 ->
  20 * Z.abs (stableJitter id interval) <= interval /\
  (21 * interval < 20 * two63 ->
   19 * interval <= 20 * int64 (interval + stableJitter id interval) <= 21 * interval).
Proof.
  intros Hi. pose proof (stableJitter_bound id interval Hi) as Hj. split; [done|].
  intros Hs. rewrite int64_id by (unfold in_int64, two63 in *; lia). lia.
Qed.

(** C16. A scheduling round at a time [now] selects, in catalog order, exactly the
    enabled, automatically refreshed profiles for which nothing lies ahead: neither
    the end of the interval (with jitter) after the start of their schedule, or after
    their last update where no start is set, nor the time before which a retry is not
    allowed.  The time it waits otherwise is positive, at most the idle poll and at
    most the time until the last thing ahead of any other such profile, so none is
    overslept. *)
Theorem due_exact_and_never_overslept (o : SchedulerOptions) (c : Catalog) (now : Z)
    (na : gmap string Z) :
  0 < IdlePoll o -> 0 <= now ->
  let '(ids, wait) := due o c now na in
  (exists pick, ids = map ID (List.filter pick (Profiles c)) /\ forall p, pick p = true <-> ready o c na now p) /\
  0 < wait <= IdlePoll o /\
  (forall p, p ∈ Profiles c -> Enabled p = true -> AutoRefresh p = true -> ~ ready o c na now p ->
     exists t, last_obstacle o c na p t /\ now < t /\ wait <= t - now).
Proof.
  intros Hpoll Hnow. unfold due.
  pose proof (due_loop_spec o c now na (Profiles c) (IdlePoll o)) as Hs.
  destruct (due_loop o c now na _ _) as [ids wait]. destruct Hs as (-> & Hw & Hall & Hpos).
  assert (0 < wait) by (destruct Hpos; lia).
  destruct (Z.leb_spec wait 0); [lia|]. split; [|split; [lia|]].
  - exists (is_due o c now na). split; [done|]. intros p. by apply is_due_ready.
  - intros p Hp He Ha Hr. assert (Hd : is_due o c now na p = false).
    { destruct (is_due o c now na p) eqn:Hd; [|done]. destruct Hr. by apply is_due_ready. }
    exists (due_at o c now na p).
    assert (Hlt : now < due_at o c now na p).
    { unfold is_due, scheduled in Hd. rewrite He, Ha in Hd. simpl in Hd. by apply negb_false_iff, Z.ltb_lt in Hd. }
    split; [by apply due_at_obstacle|]. split; [done|]. apply Hall; [done| |done]. unfold scheduled. by rewrite He, Ha.
Qed.

(** After a failed refresh the same subscription is not refreshed again
    before its retry delay (with jitter) is over, as long as neither its source
    nor its schedule changed in between. *)
Theorem failed_refresh_backs_off (o : SchedulerOptions) (id : string) (t t' : turn)
    (s s1 : Scheduler) (e : error) (p p1 p2 : Profile) :
  NoDup (map ID (Profiles (tn_current t))) -> NoDup (map ID (Profiles (tn_latest t))) ->
  NoDup (map ID (Profiles (tn_current t'))) ->
  find_profile (tn_current t) id = Some p ->
  find_profile (tn_latest t) id = Some p1 ->
  find_profile (tn_current t') id = Some p2 ->
  scheduleIdentity (tn_latest t) p1 = scheduleIdentity (tn_current t) p ->
  scheduleIdentity (tn_current t') p2 = scheduleIdentity (tn_current t) p ->
  refresh_one o id t s = Some (s1, true) -> tn_refresh t = Some e ->
  tn_ctxBefore t' = false ->
  tn_nowCheck t' < time_Add (tn_nowAfter t)
    (int64 (RetryDelay (default 0 (failures s1 !! id)) (MinRetry o) (MaxRetry o)
            + Jitter o (id ++ "retry") (MinRetry o))) ->
  exists s2, refresh_one o id t' s1 = Some (s2, false).
Proof.
  intros Hn1 Hn2 Hn3 Hf Hf1 Hf2 Hi1 Hi2 Hone Href Hctx Hlt.
  unfold refresh_one in Hone. destruct (tn_ctxBefore t); [done|].
  destruct (due o (tn_current t) _ _) as [ids w]. case_if_in Hone; [done|].
  rewrite Href in Hone. destruct (tn_ctxAfter t); [done|].
  pose proof (reconcile_spec (tn_current t) s id Hn1) as Hr1. rewrite Hf in Hr1.
  destruct Hr1 as (Hr1 & _). set (s0 := reconcile (tn_current t) s) in *.
  pose proof (reconcile_spec (tn_latest t) s0 id Hn2) as Hr2. rewrite Hf1 in Hr2.
  destruct Hr2 as (Hr2 & _). rewrite Hr1, Hr2, Hi1, bool_decide_true in Hone by done.
  simpl in Hone. injection Hone as <-. simpl in Hlt. rewrite lookup_insert_eq in Hlt. simpl in Hlt.
  eexists. eapply not_yet_allowed; [done|done|exact Hf2| | |exact Hlt]; simpl.
  - by rewrite Hr2, Hi1, Hi2.
  - by rewrite lookup_insert_eq.
Qed.

(** ** Witnesses *)

Lemma retry_delay_closed_form_witness : RetryDelay 100 60000000000 1800000000000 = 1800000000000.
Proof. rewrite (retry_delay_closed_form 100); [reflexivity|unfold two63; lia..]. Defined.

Lemma jitter_within_five_percent_witness :
  20 * Z.abs (stableJitter "0123456789abcdef0123456789abcdef" 9000000000000000000)
    <= 9000000000000000000.
Proof.
  assert (H : 0 <= 9000000000000000000 < two63) by (unfold two63; lia).
  exact (proj1 (jitter_within_five_percent "0123456789abcdef0123456789abcdef" _ H)).
Defined.

Definition example_scheduler : SchedulerOptions := NewScheduler None 0 0 0.

Lemma due_exact_and_never_overslept_witness :
  let '(ids, wait) := due example_scheduler settled_example 10 ∅ in ids = [] /\ 0 < wait.
Proof.
  pose proof (due_exact_and_never_overslept example_scheduler settled_example 10 ∅ eq_refl ltac:(lia)) as Hdue.
  assert (Hids : fst (due example_scheduler settled_example 10 ∅) = []) by (vm_compute; reflexivity).
  destruct (due example_scheduler settled_example 10 ∅) as [ids wait].
  split; [exact Hids|exact (proj1 (proj1 (proj2 Hdue)))].
Defined.

Definition example_id : string := "0123456789abcdef0123456789abcdef".
Definition example_turn (now : Z) (err : option error) : turn :=
  mkTurn false settled_example now err now settled_example false.
Definition example_now : Z := 90000000000000.

Lemma failed_refresh_backs_off_witness :
  exists s1 s2,
    refresh_one example_scheduler example_id (example_turn example_now (Some (EText "503"))) new_run
      = Some (s1, true) /\
    refresh_one example_scheduler example_id (example_turn (example_now + 1) None) s1
      = Some (s2, false).
Proof.
  destruct (refresh_one example_scheduler example_id
              (example_turn example_now (Some (EText "503"))) new_run) as [[s1 b]|] eqn:H1.
  2:{ exfalso. revert H1. vm_compute. discriminate. }
  assert (Hb : b = true).
  { assert (Hx : option_map snd (refresh_one example_scheduler example_id
      (example_turn example_now (Some (EText "503"))) new_run) = Some true) by (vm_compute; reflexivity).
    rewrite H1 in Hx. simpl in Hx. congruence. }
  subst b. exists s1.
  assert (Hf : failures s1 !! example_id = Some 1).
  { assert (Hx : option_map (fun x => failures (fst x) !! example_id)
        (refresh_one example_scheduler example_id
           (example_turn example_now (Some (EText "503"))) new_run) = Some (Some 1))
      by (vm_compute; reflexivity).
    rewrite H1 in Hx. simpl in Hx. congruence. }
  edestruct (failed_refresh_backs_off example_scheduler example_id
    (example_turn example_now (Some (EText "503"))) (example_turn (example_now + 1) None) new_run s1
    (EText "503")) as [s2 H2].
  1-3: apply NoDup_singleton.
  1-3: vm_compute; reflexivity.
  1-2: reflexivity.
  - exact H1.
  - reflexivity.
  - reflexivity.
  - rewrite Hf. vm_compute. reflexivity.
  - exists s2. split; [reflexivity|exact H2].
Defined.
