(* ===== verification/Generator.v ===== *)
(** * Generator: the configuration the core runs

    Models [internal/subscription/generator.go], [egress.go] and [document.go],
    and the bootstrap configuration and its check at start-up of
    [internal/core/config.go].

    A subscription is a decoded YAML document.  [Generate] copies it, makes it
    routable, binds it to the outbound interface and then writes the fields the
    daemon manages over whatever the subscription holds.  YAML is a third-party
    package: the class [DocumentYAML] holds the operations the code calls.  The
    code edits the copy in place; a decoded copy shares no mapping, so an edit is
    a new value here. *)

From Stdlib Require Import Ascii.
From S2P Require Import Prelude GoStd GoNet Atomic Settings.

Abbreviation Document := (gmap string any).

(** [yaml.Marshal] of a decoded value, [yaml.Unmarshal] into a mapping ([None] is
    the nil mapping of an empty document), and a [Decoder]: the first document
    and whether another one follows. *)
Class DocumentYAML := {
  doc_Marshal : any -> result string;
  doc_Unmarshal : string -> result (option Document);
  doc_Decode : string -> result (option Document);
  doc_Extra : string -> option (option error)
}.

(** A document as a value. *)
Definition document_value (d : Document) : any := AMap (map_to_list d).

Definition maxDocumentBytes : Z := 16777216.

Definition ParseDocument `{DocumentYAML} (content : string) : result Document :=
  if (len content =? 0) || (maxDocumentBytes <? len content) then
    Err (dataError "invalid subscription document size" None)
  else match doc_Decode content with
  | Err x => Err (dataError "invalid subscription YAML" (Some x))
  | Ok None => Err (dataError "invalid subscription YAML" None)
  | Ok (Some document) =>
      match doc_Extra content with
      | Some x => Err (dataError "subscription must contain one YAML document" x)
      | None =>
          match document !! "proxies"%string, document !! "proxy-providers"%string with
          | None, None => Err (dataError "document is not a mihomo subscription" None)
          | None, Some _ | Some (ASeq _), _ => Ok document
          | Some _, _ => Err (dataError "subscription proxies must be a list" None)
          end
      end
  end.

(** ** Outbound interface *)

Definition egressMapping (v : any) : option (list (string * any)) :=
  match v with AMap l => Some l | _ => None end.

(** The position of the last part without "=". *)
Fixpoint last_bare (i : nat) (parts : list string) : option nat :=
  match parts with
  | [] => None
  | p :: parts =>
      match last_bare (S i) parts with
      | Some j => Some j
      | None => if Contains p "=" then None else Some i
      end
  end.

Definition contains_any (s chars : string) : bool := existsb (fun c => has_char c s) (String.list_ascii_of_string chars).

Definition dns_binding_error : error :=
  EText "DNS interface binding cannot represent adapter without changing proxy selection".

(** A name server: the token after the last "&" without "=" selects a proxy or an
    interface. *)
Definition egress_server (name : string) (proxies : gset string) (value : string) : result string :=
  match Cut value "#" with
  | None => Ok value
  | Some (base, fragment) =>
      match PathUnescape fragment with
      | None => Ok value
      | Some fragment =>
          let parts := Split "&" fragment in
          match last_bare 0 parts with
          | None => Ok value
          | Some last =>
              let token := default ""%string (parts !! last) in
              if String.eqb token "" || bool_decide (token ∈ proxies) then Ok value
              else if bool_decide (name ∈ proxies) || contains_any name "&=" then Err dns_binding_error
              else Ok (base ++ "#" ++ EscapedFragment (Join "&" (<[last := name]> parts)))%string
          end
      end
  end.

Fixpoint egressDNS (name : string) (proxies : gset string) (value : any) : result any :=
  match value with
  | AString s => match egress_server name proxies s with Ok s => Ok (AString s) | Err x => Err x end
  | ASeq l =>
      (fix go (l acc : list any) : result any :=
         match l with
         | [] => Ok (ASeq (rev acc))
         | v :: l => match egressDNS name proxies v with Ok v => go l (v :: acc) | Err x => Err x end
         end) l []
  | AMap l =>
      (fix go (l acc : list (string * any)) : result any :=
         match l with
         | [] => Ok (AMap (rev acc))
         | (k, v) :: l => match egressDNS name proxies v with Ok v => go l ((k, v) :: acc) | Err x => Err x end
         end) l []
  | v => Ok v
  end.

(** The items of a list that are mappings. *)
Definition items (v : option any) : list any := match v with Some (ASeq l) => l | _ => [] end.

Definition item_name (v : any) : option string :=
  match egressMapping v with
  | Some l => match member l "name" with Some (AString n) => Some n | _ => None end
  | None => None
  end.

Definition builtin_proxies : gset string :=
  {["DIRECT"; "REJECT"; "REJECT-DROP"; "PASS"; "PASS-RULE"; "GLOBAL"; "COMPATIBLE"; "RULES"]}%string.

(** The names a fragment of a DNS server may select. *)
Definition proxy_selectors (d : Document) : gset string :=
  builtin_proxies
  ∪ list_to_set (omap item_name (items (d !! "proxies"%string)))
  ∪ list_to_set (omap item_name (items (d !! "proxy-groups"%string))).

Definition bind_item (name : string) (v : any) : any :=
  match egressMapping v with Some l => AMap (set_member l "interface-name" (AString name)) | None => v end.

Definition bind_provider (name : string) (v : any) : any :=
  match egressMapping v with
  | None => v
  | Some provider =>
      let override := default [] (match member provider "override" with Some o => egressMapping o | None => None end) in
      AMap (set_member provider "override" (AMap (set_member override "interface-name" (AString name))))
  end.

Definition dns_keys : list string :=
  ["nameserver"; "fallback"; "default-nameserver"; "proxy-server-nameserver"; "direct-nameserver"; "nameserver-policy"].

Fixpoint bind_dns (name : string) (proxies : gset string) (keys : list string) (dns : list (string * any))
    : result (list (string * any)) :=
  match keys with
  | [] => Ok dns
  | key :: keys =>
      match member dns key with
      | None => bind_dns name proxies keys dns
      | Some value =>
          match egressDNS name proxies value with
          | Err x => Err x
          | Ok v => bind_dns name proxies keys (set_member dns key v)
          end
      end
  end.

Definition bind_proxies (name : string) (d : Document) : Document :=
  match d !! "proxies"%string with
  | Some (ASeq l) => <["proxies"%string := ASeq (map (bind_item name) l)]> d
  | _ => d
  end.

Definition bind_providers (name : string) (d : Document) : Document :=
  match d !! "proxy-providers"%string with
  | Some (AMap l) => <["proxy-providers"%string := AMap (map (fun kv => (kv.1, bind_provider name kv.2)) l)]> d
  | _ => d
  end.

Definition applyEgress (d : Document) (name : string) : result Document :=
  if String.eqb name "" then Ok d
  else
    let d := <["interface-name"%string := AString name]> d in
    let proxies := proxy_selectors d in
    let d := bind_providers name (bind_proxies name d) in
    match d !! "dns"%string with
    | Some (AMap dns) =>
        match bind_dns name proxies dns_keys dns with
        | Err x => Err x
        | Ok dns => Ok (<["dns"%string := AMap dns]> d)
        end
    | _ => Ok d
    end.

(** ** Generation *)

Definition proxyNames (v : option any) : list string :=
  filter (fun n => n <> ""%string) (omap item_name (items v)).

Definition default_group (proxies : option any) : any :=
  AMap [("name", AString "MIHARI"); ("type", AString "select");
        ("proxies", ASeq (map AString (proxyNames proxies) ++ [AString "DIRECT"]))]%string.

(** A list with at least one item. *)
Definition nonempty_list (v : option any) : bool := match v with Some (ASeq (_ :: _)) => true | _ => false end.

Definition ensureRoutable (d : Document) : Document :=
  let d := if nonempty_list (d !! "proxy-groups"%string) then d
           else <["proxy-groups"%string := ASeq [default_group (d !! "proxies"%string)]]> d in
  let d := if nonempty_list (d !! "rules"%string) then d
           else <["rules"%string := ASeq [AString "MATCH,MIHARI"]]> d in
  match d !! "mode"%string with Some _ => d | None => <["mode"%string := AString "rule"]> d end.

Section Generate.
Context `{DocumentYAML}.

Definition copy_error (x : option error) : error := dataError "copy subscription document" x.

Definition cloneDocument (base : Document) : result Document :=
  match doc_Marshal (document_value base) with
  | Err x => Err (copy_error (Some x))
  | Ok content =>
      match doc_Unmarshal content with
      | Err x => Err (copy_error (Some x))
      | Ok None => Err (EText "assignment to entry in nil map")  (* a panic; an encoded mapping does not decode to nil *)
      | Ok (Some clone) => Ok clone
      end
  end.

(** The fields of the daemon over those of the subscription. *)
Definition managed_fields (s : Settings) (mixed : AddrPort) (d : Document) : Document :=
  let d := <["mode"%string := AString (RoutingMode s)]> d in
  let d := <["log-level"%string := AString (CoreLoggingLevel s)]> d in
  let d := <["mixed-port"%string := AInt (ap_port mixed)]> d in
  let d := <["bind-address"%string := AString (addr_String (ap_addr mixed))]> d in
  let d := <["allow-lan"%string := ABool false]> d in
  let d := <["external-controller"%string := AString (ControllerAddr s)]> d in
  let d := <["secret"%string := AString (ControllerSecret s)]> d in
  delete "external-ui-url"%string (delete "external-ui-name"%string (delete "external-ui"%string d)).

(** [settings.Tun["enable"].(bool)]. *)
Definition managed_tun (s : Settings) : option bool :=
  match Tun s with
  | Some t => match t !! "enable"%string with Some (ABool b) => Some b | _ => None end
  | None => None
  end.

(** The mapping of a subscription's "tun", decoded again. *)
Definition decode_tun (d : Document) : result Document :=
  match d !! "tun"%string with
  | None => Ok ∅
  | Some raw =>
      match doc_Marshal raw with
      | Err x => Err (dataError "tun must be a mapping" (Some x))
      | Ok content =>
          match doc_Unmarshal content with
          | Err x => Err (dataError "tun must be a mapping" (Some x))
          | Ok None => Err (dataError "tun must be a mapping" None)
          | Ok (Some tun) => Ok tun
          end
      end
  end.

Definition apply_tun (s : Settings) (d : Document) : result Document :=
  match managed_tun s with
  | None => Ok d
  | Some enable =>
      match decode_tun d with
      | Err x => Err x
      | Ok tun => Ok (<["tun"%string := document_value (<["enable"%string := ABool enable]> tun)]> d)
      end
  end.

Definition Generate (base overrides : Document) (s : Settings) : result string :=
  match Validate s with
  | Some x => Err x
  | None =>
      if String.eqb (ControllerSecret s) "" then Err (dataError "controller secret is required" None)
      else
        match cloneDocument (overrides ∪ base) with
        | Err x => Err x
        | Ok document =>
            match applyEgress (ensureRoutable document) (EgressInterface s) with
            | Err x => Err (dataError "generate DNS outbound interface bindings" (Some x))
            | Ok document =>
                match ParseAddrPort (MixedAddr s) with
                | None => Err (dataError "invalid mixed address" (Some (EText "parse")))
                | Some mixed =>
                    match apply_tun s (managed_fields s mixed document) with
                    | Err x => Err x
                    | Ok document =>
                        match doc_Marshal (document_value document) with
                        | Err x => Err (dataError "encode generated configuration" (Some x))
                        | Ok content => Ok content
                        end
                    end
                end
            end
        end
  end.

(** ** The bootstrap configuration (core/config.go) *)

Definition bootstrapDocument (s : Settings) (mixed : AddrPort) : list (string * any) :=
  [("mixed-port", AInt (ap_port mixed)); ("allow-lan", ABool false); ("bind-address", AString (addr_String (ap_addr mixed)));
   ("mode", AString (RoutingMode s)); ("log-level", AString (CoreLoggingLevel s));
   ("external-controller", AString (ControllerAddr s)); ("secret", AString (ControllerSecret s));
   ("proxies", ASeq []); ("proxy-groups", ASeq []); ("rules", ASeq [AString "MATCH,DIRECT"])]%string.

Definition BootstrapConfig (s : Settings) : result string :=
  match Validate s with
  | Some x => Err x
  | None =>
      if String.eqb (ControllerSecret s) "" then Err (dataError "controller secret is required" None)
      else match ParseAddrPort (MixedAddr s) with
      | None => Err (dataError "invalid mixed address" (Some (EText "parse")))
      | Some mixed =>
          match doc_Marshal (AMap (bootstrapDocument s mixed)) with
          | Err x => Err (diagnostics_Wrap (mkAPIError CodeInternal "encode bootstrap configuration" false) (Some x))
          | Ok content => Ok content
          end
      end
  end.

Definition invariant_keys : list string := ["mixed-port"; "allow-lan"; "bind-address"; "external-controller"; "secret"].

(** [document[key]]; a key that is absent reads as nil. *)
Definition entry_of (d : option Document) (k : string) : any :=
  match d with Some d => default ANull (d !! k) | None => ANull end.

Definition maxRuntimeConfig : Z := 33554432.

(** The checks of [EnsureRuntimeConfig] on the content of the file. *)
Definition check_runtime (content : string) (s : Settings) : option error :=
  if maxRuntimeConfig <? len content then data_error "runtime configuration is too large"
  else match doc_Unmarshal content with
  | Err x => Some (dataError "invalid runtime configuration" (Some x))
  | Ok document =>
      match BootstrapConfig s with
      | Err x => Some x
      | Ok bootstrap =>
          match doc_Unmarshal bootstrap with
          | Err x => Some (diagnostics_Wrap (mkAPIError CodeInternal "decode managed runtime invariants" false) (Some x))
          | Ok managed =>
              if forallb (fun k => bool_decide (entry_of document k = entry_of managed k)) invariant_keys then None
              else data_error "runtime configuration violates a mihari-managed field"
          end
      end
  end.

(** [WriteBootstrapConfig] and [EnsureRuntimeConfig] on a file; [failed] is a read
    error other than absence. *)
Context {Env W : Type} `{AtomicFile Env W}.

Definition WriteBootstrapConfig (env : Env) (p : path) (s : Settings) (w : W) : option error * W :=
  match BootstrapConfig s with
  | Err x => (Some x, w)
  | Ok content =>
      let '(r, x, w) := af_write env p content w in
      (match x with Some x => Some x | None => Warning r end, w)
  end.

Definition EnsureRuntimeConfig (env : Env) (failed : option error) (p : path) (s : Settings) (w : W) : option error * W :=
  match af_read p w with
  | None => WriteBootstrapConfig env p s w
  | Some content =>
      match failed with
      | Some x => (Some (dataError "read runtime configuration" (Some x)), w)
      | None => (check_runtime content s, w)
      end
  end.

End Generate.

(** ** Lemmas *)

Lemma member_map (l : list (string * any)) (k : string) : member l k = (list_to_map l : Document) !! k.
Proof.
  unfold member. induction l as [|[k' v] l IH]; cbn [list_find list_to_map foldr]; [by rewrite lookup_empty|].
  cbn. destruct (decide (k' = k)) as [->|Hne]; [by rewrite lookup_insert_eq|].
  rewrite lookup_insert_ne by done. rewrite <- IH. by destruct (list_find _ l) as [[i [? ?]]|].
Qed.

Lemma member_document (d : Document) (k : string) : member (map_to_list d) k = d !! k.
Proof. by rewrite member_map, list_to_map_to_list. Qed.

Lemma member_set (l : list (string * any)) (k k' : string) (v : any) :
  member (set_member l k v) k' = if decide (k = k') then Some v else member l k'.
Proof.
  rewrite !member_map. induction l as [|[j w] l IH]; cbn.
  - destruct (decide (k = k')) as [->|]; [by rewrite lookup_insert_eq|by rewrite lookup_insert_ne].
  - destruct (String.eqb_spec j k) as [->|Hne]; cbn.
    + destruct (decide (k = k')) as [->|]; [by rewrite lookup_insert_eq|by rewrite !lookup_insert_ne].
    + destruct (decide (j = k')) as [->|]; [rewrite !lookup_insert_eq; by rewrite decide_False|].
      rewrite !lookup_insert_ne by done. exact IH.
Qed.

Lemma Contains_char (c : ascii) (s : string) : Contains s (String c "") = has_char c s.
Proof.
  unfold Contains. destruct (Cut s (String c "")) as [[a b]|] eqn:Hc.
  - rewrite bool_decide_true by eauto. apply Cut_char in Hc as [Ha ->]. induction a as [|d a IH]; cbn [has_char].
    + change ("" ++ String c b)%string with (String c b). cbn. by rewrite Ascii.eqb_refl.
    + cbn in Ha. apply orb_false_iff in Ha as [Hd Ha]. change (String d a ++ ?x)%string with (String d (a ++ x)).
      cbn. rewrite Hd. by apply IH.
  - rewrite bool_decide_false by (by intros [? [=]]). induction s as [|d s IH]; [done|]. cbn [Cut] in Hc.
    change (String.prefix (String c "") (String d s)) with (if Ascii.ascii_dec c d then String.prefix "" s else false) in Hc.
    destruct (Ascii.ascii_dec c d) as [->|Hne].
    { replace (String.prefix "" s) with true in Hc by (by destruct s). discriminate. }
    destruct (Cut s (String c "")) as [[? ?]|]; [discriminate|]. cbn. rewrite <- IH by done.
    rewrite orb_false_r. symmetry. apply Ascii.eqb_neq. congruence.
Qed.

(** *** Managed fields *)

(** What the daemon decides about the configuration; [None] is absence. *)
Definition owned_fields (s : Settings) (mixed : AddrPort) : list (string * option any) :=
  [("mode", Some (AString (RoutingMode s))); ("log-level", Some (AString (CoreLoggingLevel s)));
   ("mixed-port", Some (AInt (ap_port mixed))); ("bind-address", Some (AString (addr_String (ap_addr mixed))));
   ("allow-lan", Some (ABool false)); ("external-controller", Some (AString (ControllerAddr s)));
   ("secret", Some (AString (ControllerSecret s)));
   ("external-ui", None); ("external-ui-name", None); ("external-ui-url", None)]%string.

Definition owned_keys : list string := map fst (owned_fields zero_Settings (mkAddrPort (mkAddr [] "") 0)).

Ltac map_simpl :=
  repeat first [rewrite lookup_insert_eq | rewrite lookup_delete_eq
               | rewrite lookup_insert_ne by done | rewrite lookup_delete_ne by done].

Lemma managed_fields_owned (s : Settings) (mixed : AddrPort) (d : Document) (k : string) (v : option any) :
  (k, v) ∈ owned_fields s mixed -> managed_fields s mixed d !! k = v.
Proof.
  intros Hin. apply list_elem_of_In in Hin. cbn in Hin. unfold managed_fields.
  repeat (destruct Hin as [[= <- <-]|Hin]; [by map_simpl|]). done.
Qed.

Lemma managed_fields_other (s : Settings) (mixed : AddrPort) (d : Document) (k : string) :
  k ∉ owned_keys -> managed_fields s mixed d !! k = d !! k.
Proof.
  unfold owned_keys. cbn. intros Hk. repeat (apply not_elem_of_cons in Hk as [? Hk]).
  unfold managed_fields. rewrite !lookup_delete_ne by done. by rewrite !lookup_insert_ne by done.
Qed.

Lemma ensureRoutable_lists (d : Document) :
  nonempty_list (ensureRoutable d !! "proxy-groups"%string) = true /\
  nonempty_list (ensureRoutable d !! "rules"%string) = true.
Proof.
  unfold ensureRoutable. cbv zeta.
  set (d1 := if nonempty_list (d !! "proxy-groups"%string) then d else _).
  assert (Hg : nonempty_list (d1 !! "proxy-groups"%string) = true).
  { subst d1. destruct (nonempty_list (d !! "proxy-groups"%string)) eqn:Hg; [done|by map_simpl]. }
  set (d2 := if nonempty_list (d1 !! "rules"%string) then d1 else _).
  assert (Hr : nonempty_list (d2 !! "rules"%string) = true /\ nonempty_list (d2 !! "proxy-groups"%string) = true).
  { subst d2. destruct (nonempty_list (d1 !! "rules"%string)) eqn:Hr; [done|by map_simpl]. }
  destruct Hr as [Hr Hg2]. destruct (d2 !! "mode"%string); [done|by map_simpl].
Qed.

Lemma ensureRoutable_other (d : Document) (k : string) :
  k <> "proxy-groups"%string -> k <> "rules"%string -> k <> "mode"%string -> ensureRoutable d !! k = d !! k.
Proof.
  intros Hg Hr Hm. unfold ensureRoutable.
  repeat match goal with |- context [if ?x then _ else _] => destruct x end; by rewrite ?lookup_insert_ne by done.
Qed.

(** *** The outbound interface *)

Definition egress_keys : list string := ["interface-name"; "proxies"; "proxy-providers"; "dns"].

Lemma applyEgress_other (d d' : Document) (name k : string) :
  applyEgress d name = Ok d' -> k ∉ egress_keys \/ name = ""%string -> d' !! k = d !! k.
Proof.
  unfold applyEgress. destruct (String.eqb_spec name "") as [->|Hne]; [by intros [= <-]|].
  intros Ha [Hk|]; [|done]. unfold egress_keys in Hk. repeat (apply not_elem_of_cons in Hk as [? Hk]).
  set (d0 := <["interface-name"%string := AString name]> d) in *.
  set (d1 := bind_providers name (bind_proxies name d0)) in *.
  assert (Hd1 : d1 !! k = d !! k).
  { subst d1 d0. unfold bind_providers, bind_proxies.
    repeat match goal with |- context [match ?x with Some _ => _ | None => _ end] => destruct x as [[]|] end;
      by rewrite ?lookup_insert_ne by done. }
  destruct (d1 !! "dns"%string) as [[]|]; try (injection Ha as <-; exact Hd1).
  destruct (bind_dns _ _ _ _); [|done]. injection Ha as <-. by rewrite lookup_insert_ne.
Qed.

Lemma applyEgress_bound (d d' : Document) (name : string) :
  applyEgress d name = Ok d' -> name <> ""%string ->
  d' !! "interface-name"%string = Some (AString name) /\
  (forall l, d !! "proxies"%string = Some (ASeq l) -> d' !! "proxies"%string = Some (ASeq (map (bind_item name) l))).
Proof.
  unfold applyEgress. intros Ha Hne. destruct (String.eqb_spec name ""); [done|].
  set (d0 := <["interface-name"%string := AString name]> d) in *.
  set (d1 := bind_providers name (bind_proxies name d0)) in *.
  assert (Hd1 : d1 !! "interface-name"%string = Some (AString name) /\
    forall l, d !! "proxies"%string = Some (ASeq l) -> d1 !! "proxies"%string = Some (ASeq (map (bind_item name) l))).
  { assert (H0 : bind_proxies name d0 !! "interface-name"%string = Some (AString name) /\
      forall l, d !! "proxies"%string = Some (ASeq l) -> bind_proxies name d0 !! "proxies"%string = Some (ASeq (map (bind_item name) l))).
    { unfold bind_proxies. subst d0. split.
      - destruct (<["interface-name"%string := _]> d !! "proxies"%string) as [[]|]; by map_simpl.
      - intros l Hl. rewrite lookup_insert_ne, Hl by done. by map_simpl. }
    subst d1. unfold bind_providers. destruct (bind_proxies name d0 !! "proxy-providers"%string) as [[]|]; try done.
    by map_simpl. }
  destruct (d1 !! "dns"%string) as [[]|]; try (by injection Ha as <-).
  destruct (bind_dns _ _ _ _); [|done]. injection Ha as <-. by map_simpl.
Qed.

(** What a DNS server selects: the base address, the decoded parts of the
    fragment, and the last part without "=". *)
Definition server_parts (value : string) : option (string * list string) :=
  match Cut value "#" with
  | Some (base, fragment) => match PathUnescape fragment with Some f => Some (base, Split "&" f) | None => None end
  | None => None
  end.

Definition selector (value : string) : option string :=
  match server_parts value with
  | Some (_, parts) => match last_bare 0 parts with Some i => parts !! i | None => None end
  | None => None
  end.

Lemma last_bare_bounds (i j : nat) (parts : list string) :
  last_bare i parts = Some j ->
  exists k p, j = (i + k)%nat /\ parts !! k = Some p /\ Contains p "=" = false.
Proof.
  revert i. induction parts as [|p parts IH]; intros i; [done|]. cbn [last_bare].
  destruct (last_bare (S i) parts) as [j'|] eqn:Hl.
  - intros [= <-]. destruct (IH _ Hl) as (k & q & -> & Hk & Hq). exists (S k), q. split; [lia|done].
  - destruct (Contains p "=") eqn:Hp; [done|]. intros [= <-]. exists 0%nat, p. split; [lia|done].
Qed.

Lemma last_bare_insert (i k : nat) (parts : list string) (name : string) :
  last_bare i parts = Some (i + k)%nat -> Contains name "=" = false ->
  last_bare i (<[k := name]> parts) = Some (i + k)%nat.
Proof.
  revert i k. induction parts as [|p parts IH]; intros i k; [done|]. cbn [last_bare].
  destruct (last_bare (S i) parts) as [j|] eqn:Hl.
  - intros [= ->] Hn. destruct k as [|k].
    { destruct (last_bare_bounds _ _ _ Hl) as (m & _ & Hm & _). lia. }
    change (<[S k := name]> (p :: parts)) with (p :: <[k := name]> parts). cbn [last_bare].
    replace (i + S k)%nat with (S i + k)%nat in * by lia. by rewrite (IH (S i) k).
  - destruct (Contains p "=") eqn:Hp; [done|]. intros [= Hk] Hn. assert (k = 0%nat) as -> by lia.
    change (<[0%nat := name]> (p :: parts)) with (name :: parts). cbn [last_bare]. rewrite Hl, Hn. f_equal. lia.
Qed.

Lemma contains_any_sep (name : string) :
  contains_any name "&=" = false -> has_char "&" name = false /\ Contains name "=" = false.
Proof.
  unfold contains_any. cbn. intros Hn. apply orb_false_iff in Hn as [Ha Hn]. apply orb_false_iff in Hn as [He _].
  split; [exact Ha|]. change "="%string with (String "=" ""). by rewrite Contains_char.
Qed.

(** A server that is bound again has the same base and the same parts, except
    the selecting one. *)
Lemma bound_parts (base name : string) (parts : list string) (i : nat) :
  has_char "#" base = false -> parts <> [] -> Forall (fun p => has_char "&" p = false) parts -> has_char "&" name = false ->
  server_parts (base ++ "#" ++ EscapedFragment (Join "&" (<[i := name]> parts))) = Some (base, <[i := name]> parts).
Proof.
  intros Hb Hne Hp Hn. unfold server_parts.
  change ("#" ++ ?x)%string with (String "#" x). change "#"%string with (String "#" "").
  rewrite Cut_char_app by done. rewrite unescape_escaped. change "&"%string with (String "&" "").
  rewrite Split_of_Join; [done| |].
  - intros He. apply (f_equal length) in He. rewrite length_insert in He. by destruct parts.
  - by apply Forall_insert.
Qed.

(** ** Theorems *)

(** The document [Generate] encodes, step by step. *)
Lemma Generate_inv `{DocumentYAML} (base overrides : Document) (s : Settings) (content : string) :
  Generate base overrides s = Ok content ->
  exists copy d1 mixed d,
    Validate s = None /\ ControllerSecret s <> ""%string /\ ParseAddrPort (MixedAddr s) = Some mixed /\
    cloneDocument (overrides ∪ base) = Ok copy /\
    applyEgress (ensureRoutable copy) (EgressInterface s) = Ok d1 /\
    apply_tun s (managed_fields s mixed d1) = Ok d /\ doc_Marshal (document_value d) = Ok content.
Proof.
  unfold Generate. destruct (Validate s); [done|]. destruct (String.eqb_spec (ControllerSecret s) ""); [done|].
  destruct (cloneDocument _) as [copy|] eqn:Hc; [|done]. destruct (applyEgress _ _) as [d1|] eqn:He; [|done].
  destruct (ParseAddrPort (MixedAddr s)) as [mixed|] eqn:Hm; [|done]. destruct (apply_tun _ _) as [d|] eqn:Ht; [|done].
  destruct (doc_Marshal _) eqn:Hd; [|done]. intros [= <-]. by exists copy, d1, mixed, d.
Qed.

Lemma apply_tun_spec `{DocumentYAML} (s : Settings) (d d' : Document) :
  apply_tun s d = Ok d' ->
  (forall k, k <> "tun"%string \/ managed_tun s = None -> d' !! k = d !! k) /\
  (forall b, managed_tun s = Some b -> exists tun, decode_tun d = Ok tun /\
     d' !! "tun"%string = Some (document_value (<["enable"%string := ABool b]> tun))).
Proof.
  unfold apply_tun. destruct (managed_tun s) as [b|]; [|by intros [= <-]].
  destruct (decode_tun d) as [tun|]; [|done]. intros [= <-]. split.
  - intros k [Hk|]; [by rewrite lookup_insert_ne|done].
  - intros b' [= <-]. exists tun. by rewrite lookup_insert_eq.
Qed.

(** A validated controller listens on the loopback interface. *)
Lemma Validate_controller (s : Settings) :
  Validate s = None -> exists c, ParseAddrPort (ControllerAddr s) = Some c /\ IsLoopback (ap_addr c) = true.
Proof.
  unfold Validate. destruct (validateRouting _); [done|]. case_if; [done|].
  destruct (parseEndpoint "mixed-addr" _ _); [|done].
  destruct (parseEndpoint "controller-addr" (ControllerAddr s) true) as [c|] eqn:Hc; [|done]. intros _.
  apply parseEndpoint_ok in Hc as (Hp & _ & Hl). exists c. split; [done|]. by apply Hl.
Qed.

(** C32. Whatever the subscription and the overrides hold, a generated
    configuration has the daemon's routing mode, log level, mixed port and
    address, loopback controller and non-empty secret, allows no LAN clients and
    names no external UI; it has a proxy group and a rule; a managed TUN block is
    the subscription's with the daemon's switch; with an outbound interface every
    proxy of the subscription is bound to it; and every other field is the
    subscription's. *)
Theorem generated_config_managed `{DocumentYAML} (base overrides : Document) (s : Settings) (content : string) :
  Generate base overrides s = Ok content ->
  exists copy d mixed controller,
    cloneDocument (overrides ∪ base) = Ok copy /\ doc_Marshal (document_value d) = Ok content /\
    ParseAddrPort (MixedAddr s) = Some mixed /\ ControllerSecret s <> ""%string /\
    ParseAddrPort (ControllerAddr s) = Some controller /\ IsLoopback (ap_addr controller) = true /\
    (forall k v, (k, v) ∈ owned_fields s mixed -> d !! k = v) /\
    nonempty_list (d !! "proxy-groups"%string) = true /\ nonempty_list (d !! "rules"%string) = true /\
    (forall b, managed_tun s = Some b -> exists tun, decode_tun copy = Ok tun /\
       d !! "tun"%string = Some (document_value (<["enable"%string := ABool b]> tun))) /\
    (EgressInterface s <> ""%string ->
       d !! "interface-name"%string = Some (AString (EgressInterface s)) /\
       forall l, copy !! "proxies"%string = Some (ASeq l) ->
         d !! "proxies"%string = Some (ASeq (map (bind_item (EgressInterface s)) l))) /\
    (forall k, k ∉ owned_keys -> k <> "proxy-groups"%string -> k <> "rules"%string ->
       (k <> "tun"%string \/ managed_tun s = None) -> (k ∉ egress_keys \/ EgressInterface s = ""%string) ->
       d !! k = copy !! k).
Proof.
  intros Hg. apply Generate_inv in Hg as (copy & d1 & mixed & d & Hv & Hs & Hm & Hc & He & Ht & Hd).
  destruct (Validate_controller s Hv) as (controller & Hca & Hcl).
  apply apply_tun_spec in Ht as [Hother Htun].
  destruct (ensureRoutable_lists copy) as [Hgroups Hrules].
  assert (Hfield : forall k, k ∉ owned_keys -> (k <> "tun"%string \/ managed_tun s = None) -> d !! k = d1 !! k).
  { intros k Hk Hk'. rewrite Hother by done. by apply managed_fields_other. }
  assert (Hkey : forall k, bool_decide (k ∈ owned_keys) = false -> k ∉ owned_keys) by (intros k; apply bool_decide_eq_false).
  assert (Hno : forall k, bool_decide (k ∈ egress_keys) = false -> k ∉ egress_keys) by (intros k; apply bool_decide_eq_false).
  exists copy, d, mixed, controller. repeat (split; [done|]). split_and!.
  - intros k v Hin. rewrite Hother; [by apply managed_fields_owned|]. left. intros ->.
    apply list_elem_of_In in Hin. cbn in Hin. repeat destruct Hin as [Hin|Hin]; simplify_eq; done.
  - rewrite Hfield, (applyEgress_other _ _ _ _ He) by (auto || by left). exact Hgroups.
  - rewrite Hfield, (applyEgress_other _ _ _ _ He) by (auto || by left). exact Hrules.
  - intros b Hb. destruct (Htun b Hb) as (tun & Hdt & Hl). exists tun. split; [|done].
    unfold decode_tun in *. rewrite managed_fields_other in Hdt by auto.
    rewrite (applyEgress_other _ _ _ _ He), ensureRoutable_other in Hdt by (done || (left; auto)). exact Hdt.
  - intros Hne. destruct (applyEgress_bound _ _ _ He Hne) as [Hi Hp].
    rewrite !Hfield by (auto || by left). split; [exact Hi|]. intros l Hl. apply Hp. by rewrite ensureRoutable_other.
  - intros k Hk Hkg Hkr Hkt Hke. rewrite Hfield, (applyEgress_other _ _ _ _ He) by done.
    apply ensureRoutable_other; try done. intros ->. apply Hk. by apply (bool_decide_eq_true_1 ("mode"%string ∈ owned_keys)).
Qed.

(** What the start-up check relies on: a scalar entry of an encoded mapping is
    there when the text is decoded. *)
Definition scalar (v : any) : bool := match v with ABool _ | AInt _ | AString _ => true | _ => false end.

Definition yaml_keeps_scalars `{DocumentYAML} : Prop :=
  forall l c, doc_Marshal (AMap l) = Ok c ->
    exists d, doc_Unmarshal c = Ok (Some d) /\ forall k v, member l k = Some v -> scalar v = true -> d !! k = Some v.

(** C33. At start-up a generated configuration is accepted exactly when the
    settings of the start agree with those it was generated for on the proxy's
    port and address, the controller's address and its secret. *)
Theorem startup_check_exact `{DocumentYAML} (base overrides : Document) (s s' : Settings) (content : string) :
  Generate base overrides s = Ok content -> len content <= maxRuntimeConfig -> yaml_keeps_scalars ->
  is_Ok (BootstrapConfig s') = true ->
  exists m m', ParseAddrPort (MixedAddr s) = Some m /\ ParseAddrPort (MixedAddr s') = Some m' /\
    (check_runtime content s' = None <->
     ap_port m = ap_port m' /\ addr_String (ap_addr m) = addr_String (ap_addr m') /\
     ControllerAddr s = ControllerAddr s' /\ ControllerSecret s = ControllerSecret s').
Proof.
  intros Hg Hlen Hyaml Hboot. apply Generate_inv in Hg as (copy & d1 & m & d & _ & _ & Hm & _ & _ & Ht & Hd).
  apply apply_tun_spec in Ht as [Hother _].
  unfold check_runtime. destruct (Z.ltb_spec maxRuntimeConfig (len content)); [lia|].
  destruct (Hyaml _ _ Hd) as (doc & Hdoc & Hent). rewrite Hdoc.
  destruct (BootstrapConfig s') as [boot|] eqn:Hb; [|done].
  unfold BootstrapConfig in Hb. destruct (Validate s'); [done|]. case_if_in Hb; [done|].
  destruct (ParseAddrPort (MixedAddr s')) as [m'|] eqn:Hm'; [|done].
  destruct (doc_Marshal (AMap (bootstrapDocument s' m'))) as [c|] eqn:Hc; [|done]. injection Hb as <-.
  destruct (Hyaml _ _ Hc) as (bdoc & Hbdoc & Hbent). rewrite Hbdoc. exists m, m'. split; [done|]. split; [done|].
  assert (Hgen : forall k v, (k, Some v) ∈ owned_fields s m -> scalar v = true -> entry_of (Some doc) k = v).
  { intros k v Hin Hsc. cbn. rewrite (Hent k v); [done| |done]. rewrite member_document, Hother; [by apply managed_fields_owned|].
    left. intros ->. apply list_elem_of_In in Hin. cbn in Hin. repeat destruct Hin as [Hin|Hin]; simplify_eq; done. }
  assert (Hbs : forall k v, member (bootstrapDocument s' m') k = Some v -> scalar v = true -> entry_of (Some bdoc) k = v).
  { intros k v Hk Hsc. cbn. by rewrite (Hbent k v). }
  assert (Hin : forall k v, In (k, v) (owned_fields s m) -> (k, v) ∈ owned_fields s m) by (intros; by apply list_elem_of_In).
  set (ok := forallb _ invariant_keys). assert (Hok : ok = true <->
    ap_port m = ap_port m' /\ addr_String (ap_addr m) = addr_String (ap_addr m') /\
    ControllerAddr s = ControllerAddr s' /\ ControllerSecret s = ControllerSecret s').
  { subst ok. unfold invariant_keys. cbn [forallb].
    rewrite (Hgen "mixed-port"%string (AInt (ap_port m))), (Hgen "allow-lan"%string (ABool false)),
      (Hgen "bind-address"%string (AString (addr_String (ap_addr m)))),
      (Hgen "external-controller"%string (AString (ControllerAddr s))),
      (Hgen "secret"%string (AString (ControllerSecret s))) by (done || (apply Hin; cbn; tauto)).
    rewrite (Hbs "mixed-port"%string (AInt (ap_port m'))), (Hbs "allow-lan"%string (ABool false)),
      (Hbs "bind-address"%string (AString (addr_String (ap_addr m')))),
      (Hbs "external-controller"%string (AString (ControllerAddr s'))),
      (Hbs "secret"%string (AString (ControllerSecret s'))) by done.
    rewrite !andb_true_iff, !bool_decide_eq_true. naive_solver congruence. }
  destruct ok; [by rewrite <- Hok|]. split; [done|]. intros Hs. by apply Hok in Hs.
Qed.

(** Binding a DNS server to the outbound interface changes what selects an
    interface and nothing else: a server without a selector, or whose selector
    names a proxy, stays as it is; otherwise the selector becomes the interface,
    the address and all other parts staying the same; and the binding is refused
    exactly when the name of the interface would select a proxy or cannot be
    written. *)
Theorem egress_binds_selector (name value : string) (proxies : gset string) :
  match selector value with
  | None => egress_server name proxies value = Ok value
  | Some token =>
      if decide (token = ""%string \/ token ∈ proxies) then egress_server name proxies value = Ok value
      else if decide (name ∈ proxies \/ contains_any name "&=" = true) then egress_server name proxies value = Err dns_binding_error
      else exists value' base parts i,
        egress_server name proxies value = Ok value' /\ selector value' = Some name /\
        server_parts value = Some (base, parts) /\ parts !! i = Some token /\
        server_parts value' = Some (base, <[i := name]> parts)
  end.
Proof.
  unfold selector at 1, egress_server. unfold server_parts at 1.
  destruct (Cut value "#") as [[base fragment]|] eqn:Hcut; [|done].
  destruct (PathUnescape fragment) as [f|] eqn:Hf; [|done].
  set (parts := Split "&" f). destruct (last_bare 0 parts) as [i|] eqn:Hl; [|done].
  pose proof (last_bare_bounds _ _ _ Hl) as (k & token & Hk & Htok & _). cbn in Hk. subst k. rewrite Htok. change (default ""%string (Some token)) with token.
  destruct (decide (token = ""%string \/ token ∈ proxies)) as [Hd|Hd].
  { destruct (String.eqb_spec token "") as [|Hne]; [done|]. cbn [orb]. destruct Hd as [|Hd]; [done|]. by rewrite (bool_decide_true _ Hd). }
  apply Decidable.not_or in Hd as [Hne Hnp]. apply String.eqb_neq in Hne. rewrite Hne. cbn [orb]. rewrite (bool_decide_false _ Hnp).
  destruct (decide (name ∈ proxies \/ contains_any name "&=" = true)) as [Hd|Hd].
  { destruct Hd as [Hd|Hd]; [by rewrite (bool_decide_true _ Hd)|by rewrite Hd, orb_true_r]. }
  apply Decidable.not_or in Hd as [Hnn Hca]. rewrite (bool_decide_false _ Hnn). apply not_true_is_false in Hca. rewrite Hca. cbn [orb].
  apply contains_any_sep in Hca as [Hamp Heq]. change "#"%string with (String "#" "") in Hcut. apply Cut_char in Hcut as [Hbase ->].
  pose proof (bound_parts base name parts i Hbase (Split_nonempty _ _) (Split_parts _ _) Hamp) as Hb.
  eexists _, base, parts, i. split; [done|]. split_and!; try done.
  - unfold selector. rewrite Hb. rewrite (last_bare_insert 0 i parts name Hl Heq).
    apply list_lookup_insert_eq. by apply lookup_lt_Some in Htok.
  - unfold server_parts. change "#"%string with (String "#" ""). by rewrite Cut_char_app, Hf by done.
Qed.

(** ** Witnesses *)

(** A text format that keeps the scalar entries of a mapping: their encoding in
    binary digits. *)
Fixpoint bits (p : positive) : string :=
  match p with xH => "" | xO p => String "0" (bits p) | xI p => String "1" (bits p) end.

Fixpoint of_bits (s : string) : positive :=
  match s with EmptyString => xH | String c s => if Ascii.eqb c "0" then xO (of_bits s) else xI (of_bits s) end.

Lemma of_bits_bits (p : positive) : of_bits (bits p) = p.
Proof. induction p as [p IH|p IH|]; cbn; congruence. Qed.

Definition scalar_of (v : any) : option (bool + Z + string) :=
  match v with ABool b => Some (inl (inl b)) | AInt z => Some (inl (inr z)) | AString s => Some (inr s) | _ => None end.

Definition of_scalar (v : bool + Z + string) : any :=
  match v with inl (inl b) => ABool b | inl (inr z) => AInt z | inr s => AString s end.

Definition scalars (l : list (string * any)) : list (string * (bool + Z + string)) :=
  omap (fun kv => pair kv.1 <$> scalar_of kv.2) l.

Definition bits_Unmarshal (c : string) : result (option Document) :=
  match decode (A := list (string * (bool + Z + string))) (of_bits c) with
  | Some l => Ok (Some (list_to_map (prod_map id of_scalar <$> l)))
  | None => Err (EText "not a document")
  end.

Definition bits_yaml : DocumentYAML :=
  {| doc_Marshal := fun v => match v with AMap l => Ok (bits (encode (scalars l))) | _ => Err (EText "not a mapping") end;
     doc_Unmarshal := bits_Unmarshal; doc_Decode := bits_Unmarshal; doc_Extra := fun _ => None |}.

Lemma scalars_member (l : list (string * any)) (k : string) (v : any) :
  member l k = Some v -> scalar v = true -> (list_to_map (prod_map id of_scalar <$> scalars l) : Document) !! k = Some v.
Proof.
  rewrite member_map. induction l as [|[k' v'] l IH]; cbn; [by rewrite lookup_empty|].
  destruct (decide (k' = k)) as [->|Hne].
  - rewrite lookup_insert_eq. intros [= ->] Hs. destruct v; try done; cbn; by rewrite lookup_insert_eq.
  - rewrite lookup_insert_ne by done. intros Hm Hs. destruct (scalar_of v'); cbn; [rewrite lookup_insert_ne by done|]; auto.
Qed.

Lemma bits_keeps_scalars : @yaml_keeps_scalars bits_yaml.
Proof.
  intros l c [= <-]. unfold doc_Unmarshal, bits_yaml, bits_Unmarshal. rewrite of_bits_bits, decode_encode.
  eexists. split; [done|]. intros k v. apply scalars_member.
Qed.

Definition example_config : Settings :=
  with_secret "000102030405060708090a0b0c0d0e0f101112131415161718191a1b1c1d1e1f" (with_Tun (Some {["enable"%string := ABool true]}) Defaults).

(** A subscription that tries to open the controller and the proxy to the LAN. *)
Definition example_base : Document :=
  {["allow-lan" := ABool true; "external-controller" := AString "0.0.0.0:1"; "secret" := AString ""; "ipv6" := ABool false]}%string.

Definition example_content : string :=
  match @Generate bits_yaml example_base ∅ example_config with Ok c => c | Err _ => "" end.

Lemma example_generates : @Generate bits_yaml example_base ∅ example_config = Ok example_content.
Proof. vm_compute. reflexivity. Qed.

Lemma example_size : (len example_content <=? maxRuntimeConfig) = true.
Proof. vm_compute. reflexivity. Qed.

Lemma example_boots : is_Ok (@BootstrapConfig bits_yaml example_config) = true.
Proof. vm_compute. reflexivity. Qed.

Lemma generated_config_managed_witness :
  exists d mixed, @doc_Marshal bits_yaml (document_value d) = Ok example_content /\
    ParseAddrPort (MixedAddr example_config) = Some mixed /\ d !! "allow-lan"%string = Some (ABool false).
Proof.
  destruct (@generated_config_managed bits_yaml example_base ∅ example_config example_content example_generates)
    as (copy & d & mixed & controller & _ & Hd & Hm & _ & _ & _ & Ho & _).
  exists d, mixed. split; [exact Hd|]. split; [exact Hm|]. apply Ho. apply list_elem_of_In. cbn. tauto.
Defined.

Lemma startup_check_exact_witness : @check_runtime bits_yaml example_content example_config = None.
Proof.
  destruct (@startup_check_exact bits_yaml example_base ∅ example_config example_config example_content example_generates)
    as (m & m' & Hm & Hm' & Hiff).
  - apply Z.leb_le. exact example_size.
  - exact bits_keeps_scalars.
  - exact example_boots.
  - apply Hiff. rewrite Hm in Hm'. injection Hm' as <-. done.
Defined.
