(* ===== verification/FileRefs.v ===== *)
(** * FileRefs: the files a subscription refers to

    Models [internal/subscription/file_references.go] on Unix.  One traversal
    visits the places of a document where the core reads a file;
    [FileReferences] lists them and [ResolveFileReferences] rewrites relative
    ones.  The code edits mappings in place, so the traversal returns the edited
    document with the visitor's log.  Whether a text is a key pair or a
    certificate is [crypto/tls]'s to say, the class [PEM]. *)

From Stdlib Require Import Ascii.
From S2P Require Import Prelude GoStd Atomic Settings Catalog WebStatic Generator.

Class PEM := {
  X509KeyPair : string -> string -> bool;
  AppendCertsFromPEM : string -> bool
}.

Record FileReference := mkFileReference {
  Location : string;
  ref_Path : string
}.

(** A value with the log of the visits that made it. *)
Definition logged (R A : Type) : Type := A * list R.

Definition lret {R A} (a : A) : logged R A := (a, []).
Definition lbind {R A B} (m : logged R A) (k : A -> logged R B) : logged R B :=
  let '(a, l) := m in let '(b, l') := k a in (b, l ++ l').

Section Visit.
Context `{PEM} {R : Type} (visit : string -> string -> logged R string).

Abbreviation mapping := (list (string * any)).
Abbreviation L := (logged R).

Definition text_of (m : mapping) (k : string) : string := match member m k with Some (AString s) => s | _ => "" end.

Definition field (m : mapping) (key location : string) : L mapping :=
  match member m key with
  | Some (AString v) =>
      if String.eqb v "" then lret m
      else lbind (visit (location ++ "." ++ key)%string v) (fun v' => lret (set_member m key (AString v')))
  | _ => lret m
  end.

Definition certificates (location : string) (m : mapping) : L mapping :=
  let cert := text_of m "certificate" in
  let key := text_of m "private-key" in
  lbind (if (negb (String.eqb cert "") || negb (String.eqb key "")) && negb (X509KeyPair cert key)
         then lbind (field m "certificate" location) (fun m => field m "private-key" location)
         else lret m)
    (fun m => let auth := text_of m "client-auth-cert" in
              if negb (String.eqb auth "") && negb (AppendCertsFromPEM auth) then field m "client-auth-cert" location
              else lret m).

Definition has_type (m : mapping) (t : string) : bool := bool_decide (member m "type" = Some (AString t)).

Definition proxy (location : string) (m : mapping) : L mapping :=
  if has_type m "ssh" then
    if Contains (text_of m "private-key") "PRIVATE KEY" then lret m else field m "private-key" location
  else if has_type m "wireguard" then lret m
  else certificates location m.

(** [referenceMap]: other values are passed over. *)
Definition on_map (f : mapping -> L mapping) (v : any) : L any :=
  match v with AMap m => lbind (f m) (fun m => lret (AMap m)) | v => lret v end.

Fixpoint on_items (i : Z) (f : Z -> any -> L any) (l : list any) : L (list any) :=
  match l with
  | [] => lret []
  | v :: l => lbind (f i v) (fun v => lbind (on_items (i + 1) f l) (fun l => lret (v :: l)))
  end.

Definition on_seq (f : Z -> any -> L any) (v : any) : L any :=
  match v with ASeq l => lbind (on_items 0 f l) (fun l => lret (ASeq l)) | v => lret v end.

Fixpoint on_entries (f : string -> any -> L any) (m : mapping) : L mapping :=
  match m with
  | [] => lret []
  | (k, v) :: m => lbind (f k v) (fun v => lbind (on_entries f m) (fun m => lret ((k, v) :: m)))
  end.

(** An entry of a mapping, when it is there. *)
Definition at_member (key : string) (f : any -> L any) (m : mapping) : L mapping :=
  match member m key with
  | Some v => lbind (f v) (fun v => lret (set_member m key v))
  | None => lret m
  end.

Definition at_key (key : string) (f : any -> L any) (d : Document) : L Document :=
  match d !! key with Some v => lbind (f v) (fun v => lret (<[key := v]> d)) | None => lret d end.

Definition indexed (location : string) (i : Z) : string := (location ++ "[" ++ Itoa i ++ "]")%string.

Definition provider (section name : string) (p : mapping) : L mapping :=
  let location := (section ++ "[" ++ name ++ "]")%string in
  lbind (if has_type p "file" then field p "path" location else lret p)
    (fun p =>
       if String.eqb section "proxy-providers" then
         lbind (at_member "override" (on_map (certificates (location ++ ".override")%string)) p)
           (at_member "payload" (on_seq (fun i => on_map (proxy (indexed (location ++ ".payload")%string i)))))
       else lret p).

Definition listed_item (section : string) (i : Z) : mapping -> L mapping := fun m =>
  lbind (proxy (indexed section i) m)
    (at_member "realm-opts" (on_map (certificates (indexed section i ++ ".realm-opts")%string))).

Definition visitFileReferences (d : Document) : L Document :=
  let providers section := at_key section (on_map (on_entries (fun name => on_map (provider section name)))) in
  let lists section := at_key section (on_seq (fun i => on_map (listed_item section i))) in
  lbind (providers "proxy-providers"%string d) (fun d =>
  lbind (providers "rule-providers"%string d) (fun d =>
  lbind (at_key "tls" (on_map (certificates "tls")) d) (fun d =>
  lbind (lists "proxies"%string d) (fun d =>
  lbind (lists "listeners"%string d)
    (at_key "tuic-server" (on_map (certificates "tuic-server"))))))).

End Visit.

(** [sort.Slice] by location. *)
Fixpoint insert_ref (r : FileReference) (l : list FileReference) : list FileReference :=
  match l with
  | [] => [r]
  | x :: l' => if String.ltb (Location x) (Location r) then x :: insert_ref r l' else r :: l
  end.

Definition FileReferences `{PEM} (d : Document) : list FileReference :=
  foldr insert_ref [] (snd (visitFileReferences (fun location v => (v, [mkFileReference location v])) d)).

(** [filepath.Join] below an absolute directory. *)
Definition resolved (baseDir value : string) : string :=
  if IsAbs value then value else Clean (baseDir ++ "/" ++ value).

Definition ResolveFileReferences `{PEM} (d : Document) (baseDir : string) : Document :=
  if String.eqb baseDir "" then d
  else fst (visitFileReferences (R := FileReference) (fun _ v => (resolved baseDir v, [])) d).

(** ** Lemmas *)

Lemma set_member_same (m : list (string * any)) (k : string) (v : any) : member m k = Some v -> set_member m k v = m.
Proof.
  rewrite member_map. induction m as [|[k' v'] m IH]; cbn; [done|].
  destruct (String.eqb_spec k' k) as [->|Hne].
  - rewrite lookup_insert_eq. by intros [= ->].
  - rewrite lookup_insert_ne by done. intros Hm. by rewrite IH.
Qed.

Create HintDb keeps.

Section Keeps.
Context `{PEM} (base : string).

Definition collect (location v : string) : logged FileReference string := (v, [mkFileReference location v]).
Definition rebase (location v : string) : logged FileReference string := (resolved base v, []).

Definition absolute (r : FileReference) : Prop := IsAbs (ref_Path r) = true.

(** The listing gives [a] back, and so does the rewriting when everything listed
    is absolute. *)
Definition keeps {A} (c1 c2 : logged FileReference A) (a : A) : Prop :=
  fst c1 = a /\ (Forall absolute (snd c1) -> fst c2 = a).

Lemma keeps_ret {A} (a : A) : keeps (lret a) (lret a) a.
Proof. done. Qed.

Lemma keeps_bind {A B} (m1 m2 : logged FileReference A) (k1 k2 : A -> logged FileReference B) (a : A) (b : B) :
  keeps m1 m2 a -> keeps (k1 a) (k2 a) b -> keeps (lbind m1 k1) (lbind m2 k2) b.
Proof.
  unfold keeps, lbind. destruct m1 as [a1 l1], m2 as [a2 l2]. cbn. intros [-> Ha] [Hb1 Hb2].
  destruct (k1 a) as [b1 l1'] eqn:Hk1. cbn in *. split; [by destruct (k2 a2)|]. rewrite Forall_app. intros [Hl Hl'].
  rewrite (Ha Hl). destruct (k2 a) as [b2 l2']. cbn in *. auto.
Qed.

Lemma keeps_visit (location v : string) : keeps (collect location v) (rebase location v) v.
Proof.
  split; [done|]. cbn. intros Hf. inversion Hf as [|? ? Ha]; subst.
  unfold resolved. change (IsAbs v = true) in Ha. by rewrite Ha.
Qed.

#[local] Hint Resolve keeps_ret keeps_bind keeps_visit : keeps.

Lemma field_keeps (m : list (string * any)) (key location : string) :
  keeps (field collect m key location) (field rebase m key location) m.
Proof.
  unfold field. destruct (member m key) as [[]|] eqn:Hm; eauto with keeps. case_if; [eauto with keeps|].
  eapply keeps_bind; [apply keeps_visit|]. rewrite set_member_same by done. apply keeps_ret.
Qed.

#[local] Hint Resolve field_keeps : keeps.

Lemma certificates_keeps (location : string) (m : list (string * any)) :
  keeps (certificates collect location m) (certificates rebase location m) m.
Proof.
  unfold certificates. cbv zeta. eapply keeps_bind; [case_if; eauto with keeps|]. case_if; eauto with keeps.
Qed.

#[local] Hint Resolve certificates_keeps : keeps.

Lemma proxy_keeps (location : string) (m : list (string * any)) :
  keeps (proxy collect location m) (proxy rebase location m) m.
Proof. unfold proxy. repeat case_if; eauto with keeps. Qed.

Lemma on_map_keeps (f1 f2 : list (string * any) -> logged FileReference (list (string * any))) (v : any) :
  (forall m, keeps (f1 m) (f2 m) m) -> keeps (on_map f1 v) (on_map f2 v) v.
Proof. intros Hf. destruct v; cbn; eauto with keeps. Qed.

Lemma on_items_keeps (f1 f2 : Z -> any -> logged FileReference any) (i : Z) (l : list any) :
  (forall j v, keeps (f1 j v) (f2 j v) v) -> keeps (on_items i f1 l) (on_items i f2 l) l.
Proof. intros Hf. revert i. induction l as [|v l IH]; intros i; cbn; eauto with keeps. Qed.

Lemma on_seq_keeps (f1 f2 : Z -> any -> logged FileReference any) (v : any) :
  (forall j v, keeps (f1 j v) (f2 j v) v) -> keeps (on_seq f1 v) (on_seq f2 v) v.
Proof. intros Hf. destruct v; cbn; eauto using on_items_keeps with keeps. Qed.

Lemma on_entries_keeps (f1 f2 : string -> any -> logged FileReference any) (m : list (string * any)) :
  (forall k v, keeps (f1 k v) (f2 k v) v) -> keeps (on_entries f1 m) (on_entries f2 m) m.
Proof. intros Hf. induction m as [|[k v] m IH]; cbn; eauto with keeps. Qed.

Lemma at_member_keeps (key : string) (f1 f2 : any -> logged FileReference any) (m : list (string * any)) :
  (forall v, keeps (f1 v) (f2 v) v) -> keeps (at_member key f1 m) (at_member key f2 m) m.
Proof.
  intros Hf. unfold at_member. destruct (member m key) as [v|] eqn:Hm; [|apply keeps_ret].
  eapply keeps_bind; [apply Hf|]. rewrite set_member_same by done. apply keeps_ret.
Qed.

Lemma at_key_keeps (key : string) (f1 f2 : any -> logged FileReference any) (d : Document) :
  (forall v, keeps (f1 v) (f2 v) v) -> keeps (at_key key f1 d) (at_key key f2 d) d.
Proof.
  intros Hf. unfold at_key. destruct (d !! key) as [v|] eqn:Hm; [|apply keeps_ret].
  eapply keeps_bind; [apply Hf|]. rewrite insert_id by done. apply keeps_ret.
Qed.

#[local] Hint Resolve proxy_keeps on_map_keeps on_seq_keeps on_entries_keeps at_member_keeps at_key_keeps : keeps.

Lemma provider_keeps (section name : string) (p : list (string * any)) :
  keeps (provider collect section name p) (provider rebase section name p) p.
Proof.
  unfold provider. cbv zeta. eapply keeps_bind; [case_if; eauto with keeps|]. case_if; [|apply keeps_ret].
  eapply keeps_bind; auto 7 with keeps.
Qed.

Lemma listed_item_keeps (section : string) (i : Z) (m : list (string * any)) :
  keeps (listed_item collect section i m) (listed_item rebase section i m) m.
Proof. unfold listed_item. eapply keeps_bind; auto with keeps. Qed.

#[local] Hint Resolve provider_keeps listed_item_keeps : keeps.

Lemma visit_keeps (d : Document) : keeps (visitFileReferences collect d) (visitFileReferences rebase d) d.
Proof. unfold visitFileReferences. cbv zeta. repeat (eapply keeps_bind; [auto 8 with keeps|]). auto 8 with keeps. Qed.

End Keeps.

Lemma insert_ref_elem (r x : FileReference) (l : list FileReference) : x ∈ insert_ref r l <-> x = r \/ x ∈ l.
Proof.
  induction l as [|y l IH]; cbn; [set_solver|]. case_if; rewrite !elem_of_cons, ?IH; [naive_solver|set_solver].
Qed.

Lemma FileReferences_elem `{PEM} (d : Document) (r : FileReference) :
  r ∈ FileReferences d <-> r ∈ snd (visitFileReferences collect d).
Proof.
  unfold FileReferences. change (fun location v => (v, [mkFileReference location v])) with collect.
  induction (snd (visitFileReferences collect d)) as [|x l IH]; cbn; [done|]. rewrite insert_ref_elem, elem_of_cons. by rewrite IH.
Qed.

(** ** Theorem *)

(** The references a user is asked to confirm are all the references there
    are: a document whose listed references are all absolute is not changed by
    resolving them against any directory. *)
Theorem listed_references_complete `{PEM} (d : Document) (baseDir : string) :
  Forall (fun r => IsAbs (ref_Path r) = true) (FileReferences d) -> ResolveFileReferences d baseDir = d.
Proof.
  intros Hall. unfold ResolveFileReferences. case_if; [done|]. apply (visit_keeps baseDir d).
  apply Forall_forall. intros r Hr. by apply (proj1 (Forall_forall _ _) Hall), FileReferences_elem.
Qed.
