(* ===== verification/SubService.v ===== *)
(** * SubService: the subscription service

    Models [internal/subscription/service.go], [create.go] and [userinfo.go].

    The service keeps a catalog in memory, its file on disk and one cache file
    per subscription.  [Service] is that state together with the schedule of
    environment answers: the [n]-th input/output call of the run is governed by
    [io n], so a theorem over all states covers every combination of failures,
    including writes that fail after they took effect.  Files are reached only
    through the interface [AtomicFile]. *)

From Stdlib Require Import Ascii.
From S2P Require Import Prelude GoStd Atomic Settings Catalog Generator FileRefs.

(** ** subscription-userinfo (userinfo.go) *)

Record UserInfo := mkUserInfo {
  ui_Upload : Z;
  ui_Download : Z;
  ui_Total : Z;
  ui_Expire : Z
}.

Definition zero_UserInfo : UserInfo := mkUserInfo 0 0 0 0.

Definition Used (u : UserInfo) : Z :=
  let used := int64 (ui_Upload u + ui_Download u) in
  if used <? 0 then 0 else used.

(** [strings.ToLower] as far as a comparison with ASCII letters can tell: the
    only characters outside ASCII with an ASCII lower case are U+0130 and U+212A;
    the bytes of all others stay outside ASCII. *)
Definition lower_byte (c : Ascii.ascii) : Ascii.ascii :=
  if (65 <=? byte c) && (byte c <=? 90) then chr (Z.to_nat (byte c + 32)) else c.

Fixpoint ToLower_ascii (s : string) : string :=
  match s with
  | EmptyString => EmptyString
  | String a s1 =>
      match s1 with
      | String b s2 =>
          if (byte a =? 196) && (byte b =? 176) then String (chr 105) (ToLower_ascii s2)
          else match s2 with
               | String c s3 =>
                   if (byte a =? 226) && (byte b =? 132) && (byte c =? 170)
                   then String (chr 107) (ToLower_ascii s3)
                   else String (lower_byte a) (ToLower_ascii s1)
               | EmptyString => String (lower_byte a) (ToLower_ascii s1)
               end
      | EmptyString => String (lower_byte a) EmptyString
      end
  end.

(** One "key=value" part. *)
Definition userinfo_part (part : string) (acc : UserInfo * bool) : UserInfo * bool :=
  let '(info, found) := acc in
  let part := TrimSpace part in
  if String.eqb part "" then acc
  else match Cut part "=" with
  | None => acc
  | Some (key, value) =>
      let key := ToLower_ascii (TrimSpace key) in
      match ParseInt (TrimSpace value) with
      | None => acc
      | Some n =>
          if n <? 0 then acc
          else if String.eqb key "upload" then
            (mkUserInfo n (ui_Download info) (ui_Total info) (ui_Expire info), true)
          else if String.eqb key "download" then
            (mkUserInfo (ui_Upload info) n (ui_Total info) (ui_Expire info), true)
          else if String.eqb key "total" then
            (mkUserInfo (ui_Upload info) (ui_Download info) n (ui_Expire info), true)
          else if String.eqb key "expire" then
            (mkUserInfo (ui_Upload info) (ui_Download info) (ui_Total info) n, true)
          else acc
      end
  end.

Definition ParseUserInfo (raw : string) : option UserInfo :=
  let raw := TrimSpace raw in
  if String.eqb raw "" then None
  else
    let '(info, found) :=
      fold_left (fun acc part => userinfo_part part acc) (Split ";"%char raw) (zero_UserInfo, false) in
    if found : bool then Some info else None.

(** ** Data *)

Record FetchResult := mkFetchResult {
  Content : string;
  fr_ETag : string;
  fr_LastModified : string;
  Userinfo : string;
  BaseDir : string;
  NotModified : bool
}.

Record PreparedRefresh := mkPreparedRefresh {
  profileID : string;
  profileVersion : Z;
  profile : Profile;
  fetched : FetchResult;
  document : Document
}.

Definition AdvancesGeneration (p : PreparedRefresh) : bool := negb (NotModified (fetched p)).

Record Receipt := mkReceipt {
  Before : Catalog;
  After : Catalog;
  r_cachePath : path;
  cacheBefore : string;
  hadCache : bool;
  wroteCache : bool;
  r_profileID : string
}.

Definition no_receipt : Receipt := mkReceipt zero_Catalog zero_Catalog (""%string, ""%string) "" false false "".

(** How one input/output call goes: the environment of an atomic write, and the
    failure of a read or a removal. *)
Record io_answer (Env : Type) := mkIO {
  io_env : Env;
  io_fail : option string
}.
Arguments mkIO {Env}.
Arguments io_env {Env}.
Arguments io_fail {Env}.

Record Service (Env W : Type) := mkService {
  catalogPath : path;
  cacheDir : string;
  catalog : Catalog;
  disk : W;
  io : nat -> io_answer Env;
  tick : nat
}.
Arguments mkService {Env W}.
Arguments catalogPath {Env W}.
Arguments cacheDir {Env W}.
Arguments catalog {Env W}.
Arguments disk {Env W}.
Arguments io {Env W}.
Arguments tick {Env W}.

Definition notFoundError : error := api_error CodeInvalidArgument "subscription not found".

Definition degraded_rollback : APIError :=
  degraded_api CodeDataFailure "subscription state rollback failed".

Definition subscriptionRollbackError (e : error) (setup : bool) : error :=
  if setup then diagnostics_Wrap degraded_rollback (Some e) else e.

Section Service.
Context `{SourceSyntax} `{CatalogYAML} `{DocumentYAML} `{PEM} {Env W : Type} `{AtomicFile Env W}.

Abbreviation SV := (Service Env W).

Definition set_catalog (c : Catalog) (s : SV) : SV :=
  mkService (catalogPath s) (cacheDir s) c (disk s) (io s) (tick s).
Definition set_disk (w : W) (s : SV) : SV :=
  mkService (catalogPath s) (cacheDir s) (catalog s) w (io s) (S (tick s)).

Definition CachePath (id : string) (s : SV) : path := (cacheDir s, (id ++ ".yaml")%string).

(** ** Files *)

Definition answer (s : SV) : io_answer Env := io s (tick s).

(** [os.ReadFile]. *)
Definition ReadFile (p : path) (s : SV) : result string * SV :=
  (match af_read p (disk s) with
   | None => Err (ESentinel ErrNotExist)
   | Some c => match io_fail (answer s) with Some m => Err (EText m) | None => Ok c end
   end, set_disk (disk s) s).

(** [os.Remove]. *)
Definition Remove (p : path) (s : SV) : option error * SV :=
  match af_read p (disk s) with
  | None => (Some (ESentinel ErrNotExist), set_disk (disk s) s)
  | Some _ =>
      match io_fail (answer s) with
      | Some m => (Some (EText m), set_disk (disk s) s)
      | None => (None, set_disk (af_remove p (disk s)) s)
      end
  end.

(** [config.AtomicWriteWithCommit], the service's [restoreCacheFile]. *)
Definition restoreCacheFile (p : path) (content : string) (s : SV) : CommitResult * option error * SV :=
  let '(r, e, w) := af_write (io_env (answer s)) p content (disk s) in (r, e, set_disk w s).

(** [config.AtomicWrite], the service's [writeCache]. *)
Definition writeCache (p : path) (content : string) (s : SV) : option error * SV :=
  let '(r, e, w) := af_write (io_env (answer s)) p content (disk s) in
  (match e with Some e => Some e | None => Warning r end, set_disk w s).

(** [Save] as the service calls it. *)
Definition saveCatalog (c : Catalog) (s : SV) : option error * SV :=
  let '(e, w) := Save (io_env (answer s)) (catalogPath s) c (disk s) in (e, set_disk w s).

(** [Load] as the service calls it. *)
Definition loadCatalog (s : SV) : result Catalog * SV :=
  (match io_fail (answer s) with
   | Some m => Err (EText m)
   | None => Load (catalogPath s) (disk s)
   end, set_disk (disk s) s).

(** ** Catalog edits *)

(** [Service.Mutate]. *)
Definition Mutate (f : Catalog -> result Catalog) : st SV (Catalog * Catalog * option error) :=
  fun s =>
    let before := catalog s in
    match f before with
    | Err e => ((zero_Catalog, zero_Catalog, Some e), s)
    | Ok after =>
        match settle after with
        | Err e => ((zero_Catalog, zero_Catalog, Some e), s)
        | Ok after =>
            match saveCatalog after s with
            | (Some e, s) => ((zero_Catalog, zero_Catalog, Some e), s)
            | (None, s) => ((before, after, None), set_catalog after s)
            end
        end
    end.

(** [Service.Add]; [id] is the answer of [newProfileID]. *)
Definition new_profile (id name rawURL mode : string) : Profile :=
  mkProfile id name rawURL "" "" 0 false true true "" mode 1 0 0 "" "" "" 0 0 0 0.

Definition Add (id : result string) (name rawURL mode : string) : st SV (option Profile * option error) :=
  match id with
  | Err e => st_ret (None, Some (diagnostics_Wrap (mkAPIError CodeInternal "generate subscription ID" false) (Some e)))
  | Ok id =>
      let! '(_, after, err) := Mutate (fun c => Ok (with_Profiles (Profiles c ++ [new_profile id name rawURL mode]) c)) in
      match err with
      | Some e => st_ret (None, Some e)
      | None => st_ret (find_profile after id, None)
      end
  end.

(** Update of the profile at [Index(id)]. *)
Definition update_profile (id : string) (f : Profile -> Profile) (c : Catalog) : Catalog :=
  let i := Index c id in
  if i <? 0 then c else with_Profiles (alter f (Z.to_nat i) (Profiles c)) c.

Definition refresh_message (cause : error) : string :=
  match errors_As cause with
  | Some a => if String.eqb (api_message a) "" then "subscription refresh failed" else api_message a
  | None => "subscription refresh failed"
  end.

(** [noteRefreshError] for one profile version. *)
Definition noteRefreshError (id : string) (cause : error) (version : Z) : st SV (option error) :=
  let! '(_, _, err) :=
    Mutate (fun c =>
      match find_profile c id with
      | None => Err (ESentinel ErrStaleRefreshFailure)
      | Some p => if negb (Version p =? version) then Err (ESentinel ErrStaleRefreshFailure)
                  else Ok (update_profile id (with_LastError (refresh_message cause)) c)
      end) in
  st_ret err.

Definition refreshFailure (id : string) (cause : error) (version : Z) : st SV error :=
  if errors_Is cause ErrCanceled then st_ret cause
  else
    let! noteErr := noteRefreshError id cause version in
    match noteErr with
    | Some n =>
        if errors_Is n ErrStaleRefreshFailure then st_ret cause
        else
          let joined := EJoin cause (EFmt "record subscription refresh failure" n) in
          st_ret (match errors_As cause with
                  | Some a => diagnostics_Wrap a (Some joined)
                  | None => diagnostics_Wrap (mkAPIError CodeInternal "internal error" false) (Some joined)
                  end)
    | None => st_ret cause
    end.

Definition RecordRefreshFailure (prepared : PreparedRefresh) (cause : error) : st SV error :=
  match errors_As cause with
  | Some a =>
      if bool_decide (api_code a = CodeRevisionConflict) || api_degraded a then st_ret cause
      else refreshFailure (profileID prepared) cause (profileVersion prepared)
  | None => refreshFailure (profileID prepared) cause (profileVersion prepared)
  end.

(** The fetched bytes as a document. *)
Definition fetched_document (content baseDir : string) : result Document :=
  match ParseDocument content with
  | Err e => Err e
  | Ok d => Ok (ResolveFileReferences d baseDir)
  end.

(** [PrepareRefresh] once the source answered for the profile. *)
Definition prepared_from (id : string) (p : Profile) (answer : result FetchResult) : st SV (result PreparedRefresh) :=
  let fail cause := let! e := refreshFailure id cause (Version p) in st_ret (Err e) in
  match answer with
  | Err e => fail e
  | Ok result =>
      let parsed content :=
        match fetched_document content (if NotModified result then CacheBaseDir p else BaseDir result) with
        | Err e => fail e
        | Ok d => st_ret (Ok (mkPreparedRefresh id (Version p) p result d))
        end in
      if NotModified result then
        if (0 <? Generation p) && negb (String.eqb (CacheURL p) (URL p)) then
          fail (dataError "subscription provider returned not-modified for a different cache source" None)
        else
          let! s := st_get in
          let! cached := ReadFile (CachePath id s) in
          match cached with
          | Err e => fail (diagnostics_Wrap (mkAPIError CodeDataFailure
               "subscription provider returned not-modified without a valid cache" false) (Some e))
          | Ok content => parsed content
          end
      else parsed (Content result)
  end.

(** [PrepareRefresh]; [fetch] answers for the profile. *)
Definition PrepareRefresh (fetch : Profile -> result FetchResult) (id : string) : st SV (result PreparedRefresh) :=
  let! s := st_get in
  match find_profile (catalog s) id with
  | None => st_ret (Err notFoundError)
  | Some p => prepared_from id p (fetch p)
  end.

(** ** Cache rollback *)

(** [restoreCacheWithCommit]. *)
Definition restoreCacheWithCommit (p : path) (content : string) (existed changed : bool)
    : st SV (bool * option error) :=
  if negb changed then st_ret (true, None)
  else if existed then
    let! '(r, e) := restoreCacheFile p content in
    st_ret (Committed r, errors_Join e (Warning r))
  else
    let! e := Remove p in
    match e with
    | None => st_ret (true, None)
    | Some e => if errors_Is e ErrNotExist then st_ret (true, None)
                else st_ret (false, Some (diagnostics_Wrap
                  (mkAPIError CodeDataFailure "remove rolled-back subscription cache" false) (Some e)))
    end.

Definition restoreCache (p : path) (content : string) (existed changed : bool) : st SV (option error) :=
  let! '(_, e) := restoreCacheWithCommit p content existed changed in st_ret e.

Definition failAfterRestore (original : error) (p : path) (content : string)
    (existed changed setup : bool) : st SV error :=
  let! e := restoreCache p content existed changed in
  match e with
  | Some e => st_ret (subscriptionRollbackError (EJoin original (EFmt "restore subscription cache" e)) setup)
  | None => st_ret original
  end.

(** ** Committing a refresh *)

(** The new metadata of a refreshed profile. *)
Definition refreshed_profile (result : FetchResult) (now : Z) (p : Profile) : Profile :=
  let info := ParseUserInfo (Userinfo result) in
  mkProfile (ID p) (Name p) (URL p)
    (if NotModified result then CacheBaseDir p else BaseDir result)
    (URL p) 0 false (Enabled p) (AutoRefresh p) (Interval p) (ProxyMode p)
    (uint64 (Version p + 1))
    (if NotModified result then Generation p else uint64 (Generation p + 1))
    now
    (if String.eqb (fr_ETag result) "" then ETag p else fr_ETag result)
    (if String.eqb (fr_LastModified result) "" then LastModified p else fr_LastModified result)
    ""
    (match info with Some i => ui_Upload i | None => Upload p end)
    (match info with Some i => ui_Download i | None => Download p end)
    (match info with Some i => ui_Total i | None => Total p end)
    (match info with Some i => ui_Expire i | None => Expire p end).

(** The candidate catalog of a commit, before it is settled. *)
Definition refresh_catalog (prepared : PreparedRefresh) (now : Z) (c : Catalog) : Catalog :=
  update_profile (profileID prepared) (refreshed_profile (fetched prepared) now) c.

(** The answer of [commitRefreshLocked] with [keepCommitted]. *)
Definition commit_answer : Type := Receipt * option error * bool.

(** The tail of [commitRefreshLocked] once the cache is written. *)
Definition commit_catalog (id : string) (before after : Catalog) (cp : path) (old : string)
    (had wrote setup : bool) : st SV commit_answer :=
  let fail_restored e :=
    let! e := failAfterRestore e cp old had wrote setup in st_ret (no_receipt, Some e, false) in
  match settle after with
  | Err e => fail_restored e
  | Ok after =>
      let receipt := mkReceipt before after cp old had wrote id in
      let! saveErr := saveCatalog after in
      match saveErr with
      | None => do! st_modify (set_catalog after) in st_ret (receipt, None, false)
      | Some err =>
          let! restoreErr := saveCatalog before in
          match restoreErr with
          | None => fail_restored err
          | Some r =>
              let err := EJoin err (EFmt "restore subscription catalog" r) in
              let! durable := loadCatalog in
              match durable with
              | Err x =>
                  st_ret (no_receipt, Some (subscriptionRollbackError
                    (EJoin err (EFmt "inspect subscription catalog after failed restore" x)) setup), false)
              | Ok durable =>
                  if bool_decide (durable = after) then
                    do! st_modify (set_catalog durable) in st_ret (receipt, Some err, true)
                  else if negb (bool_decide (durable = before)) then
                    st_ret (no_receipt, Some (subscriptionRollbackError
                      (EJoin err (EText "subscription catalog changed during failed restore")) setup), false)
                  else fail_restored err
              end
          end
      end
  end.

(** [commitRefreshLocked] once the previous cache was read. *)
Definition commit_with (prepared : PreparedRefresh) (before after : Catalog) (cp : path) (old : string)
    (had setup : bool) : st SV commit_answer :=
  let id := profileID prepared in
  if NotModified (fetched prepared) then commit_catalog id before after cp old had false setup
  else
    let! err := writeCache cp (Content (fetched prepared)) in
    match err with
    | None => commit_catalog id before after cp old had true setup
    | Some e =>
        let! e := failAfterRestore e cp old had true setup in
        if error_degraded e then st_ret (no_receipt, Some e, false)
        else st_ret (no_receipt, Some (diagnostics_Wrap
               (mkAPIError CodeDataFailure "write subscription cache" false) (Some e)), false)
    end.

Definition commit_body (prepared : PreparedRefresh) (before : Catalog) (setup : bool) (now : Z)
    : st SV commit_answer :=
  let! s := st_get in
  let id := profileID prepared in
  match find_profile (catalog s) id with
  | None => st_ret (no_receipt, Some (ESentinel ErrRefreshChanged), false)
  | Some p =>
      if negb (Version p =? profileVersion prepared) then
        st_ret (no_receipt, Some (ESentinel ErrRefreshChanged), false)
      else
        let after := refresh_catalog prepared now (catalog s) in
        let cp := CachePath id s in
        let! old := ReadFile cp in
        match old with
        | Err e =>
            if negb (errors_Is e ErrNotExist) then
              st_ret (no_receipt, Some (diagnostics_Wrap
                (mkAPIError CodeDataFailure "read existing subscription cache" false) (Some e)), false)
            else commit_with prepared before after cp "" false setup
        | Ok old => commit_with prepared before after cp old true setup
        end
  end.

(** [commitRefreshLocked] with its deferred reset of the catalog in memory. *)
Definition commitRefreshLocked (prepared : PreparedRefresh) (before : Catalog) (setup : bool) (now : Z)
    : st SV (Receipt * option error) :=
  let! '(receipt, err, keepCommitted) := commit_body prepared before setup now in
  match err with
  | Some e =>
      if keepCommitted : bool then st_ret (receipt, err)
      else do! st_modify (set_catalog before) in st_ret (receipt, err)
  | None => st_ret (receipt, err)
  end.

Definition CommitRefresh (prepared : PreparedRefresh) (now : Z) : st SV (Receipt * option error) :=
  let! s := st_get in commitRefreshLocked prepared (catalog s) false now.

(** [settleSetupCommitLocked]. *)
Definition compensate_catalog (receipt : Receipt) (err : error) (cacheErr : option error)
    (cacheAfter : string) : st SV (Receipt * option error) :=
  let rollback es := (no_receipt, Some (subscriptionRollbackError es true)) in
  let! restoreErr := saveCatalog (Before receipt) in
  match restoreErr with
  | None =>
      do! st_modify (set_catalog (Before receipt)) in
      match cacheErr with
      | Some c => st_ret (rollback (EJoin err c))
      | None => st_ret (no_receipt, Some err)
      end
  | Some r =>
      let all := EJoin err (default r (errors_Join cacheErr (Some r))) in
      let! durable := loadCatalog in
      match durable with
      | Err x => st_ret (rollback (EJoin all x))
      | Ok durable =>
          do! st_modify (set_catalog durable) in
          if bool_decide (durable = After receipt) then
            if wroteCache receipt then
              let! forwardErr := writeCache (r_cachePath receipt) cacheAfter in
              match forwardErr with
              | Some f => st_ret (rollback (EJoin all (EFmt
                            "restore committed subscription cache after failed catalog rollback" f)))
              | None => st_ret (rollback all)
              end
            else st_ret (rollback all)
          else if negb (bool_decide (durable = Before receipt)) then
            st_ret (rollback (EJoin all (EText "subscription catalog changed during setup compensation")))
          else
            do! st_modify (set_catalog (Before receipt)) in st_ret (rollback all)
      end
  end.

Definition settleSetupCommitLocked (receipt : Receipt) (err : option error)
    : st SV (Receipt * option error) :=
  match err with
  | None => st_ret (receipt, err)
  | Some e =>
      if String.eqb (r_profileID receipt) "" then st_ret (receipt, err)
      else
        let rollback es := (no_receipt, Some (subscriptionRollbackError es true)) in
        let compensate cacheAfter :=
          let! '(restored, cacheErr) :=
            restoreCacheWithCommit (r_cachePath receipt) (cacheBefore receipt) (hadCache receipt)
              (wroteCache receipt) in
          if negb restored then st_ret (rollback (default e (errors_Join (Some e) cacheErr)))
          else compensate_catalog receipt e cacheErr cacheAfter in
        if wroteCache receipt then
          let! content := ReadFile (r_cachePath receipt) in
          match content with
          | Err x => st_ret (rollback (EJoin e (EFmt
                       "read committed subscription cache before compensation" x)))
          | Ok content => compensate content
          end
        else compensate ""%string
  end.

Definition CommitRefreshAndActivate (prepared : PreparedRefresh) (now : Z)
    : st SV (Receipt * option error) :=
  let! s := st_get in
  let before := catalog s in
  let c := update_profile (profileID prepared) (with_Enabled true)
             (with_ActiveID (profileID prepared) before) in
  do! st_modify (set_catalog c) in
  let! '(receipt, err) := commitRefreshLocked prepared before true now in
  settleSetupCommitLocked receipt err.

(** ** Adding a subscription (create.go) *)

Record PreparedAdd := mkPreparedAdd {
  pa_profile : Profile;
  pa_refresh : PreparedRefresh
}.

Definition zero_Profile : Profile :=
  mkProfile "" "" "" "" "" 0 false false false "" "" 0 0 0 "" "" "" 0 0 0 0.

Definition PrepareAdd (fetch : Profile -> result FetchResult) (id : result string) (name source mode : string)
    : result PreparedAdd :=
  match id with
  | Err e => Err e
  | Ok id =>
      match Normalize (with_Profiles [new_profile id name source mode] Catalog.Defaults) with
      | Err e => Err e
      | Ok c =>
          match Profiles c with
          | p :: _ =>
              match fetch p with
              | Err e => Err e
              | Ok result =>
                  if NotModified result then
                    Err (dataError "new subscription returned not-modified without a cache" None)
                  else match fetched_document (Content result) (BaseDir result) with
                       | Err e => Err e
                       | Ok d => Ok (mkPreparedAdd p (mkPreparedRefresh id 1 zero_Profile result d))
                       end
              end
          | [] => Err notFoundError
          end
      end
  end.

Definition commitAdd (prepared : PreparedAdd) (activate : bool) (now : Z)
    : st SV (Receipt * option error) :=
  let! s := st_get in
  let before := catalog s in
  let c := with_Profiles (Profiles before ++ [pa_profile prepared]) before in
  let c := if activate then with_ActiveID (ID (pa_profile prepared)) c else c in
  do! st_modify (set_catalog c) in
  let! '(receipt, err) := commitRefreshLocked (pa_refresh prepared) before activate now in
  if activate then settleSetupCommitLocked receipt err
  else match err with
       | Some e => st_ret (no_receipt, Some e)
       | None => st_ret (receipt, None)
       end.

(** ** Rollback and restore *)

Definition Rollback (receipt : Receipt) : st SV (option error) :=
  let! e := restoreCache (r_cachePath receipt) (cacheBefore receipt) (hadCache receipt) (wroteCache receipt) in
  match e with
  | Some e => st_ret (Some e)
  | None =>
      let! e := saveCatalog (Before receipt) in
      match e with
      | Some e => st_ret (Some e)
      | None => do! st_modify (set_catalog (Before receipt)) in st_ret None
      end
  end.

Definition Restore (c : Catalog) : st SV (option error) :=
  let! e := saveCatalog c in
  match e with
  | Some e => st_ret (Some e)
  | None => do! st_modify (set_catalog c) in st_ret None
  end.

(** [ReprepareSetupRefresh]: what is prepared goes on with the current profile,
    unless the cache behind a not-modified answer is another one now. *)
Definition same_source (a b : Profile) : bool := String.eqb (URL a) (URL b) && String.eqb (ProxyMode a) (ProxyMode b).

Definition rebase_prepared (prepared : PreparedRefresh) (c : Catalog) : result (option PreparedRefresh) :=
  match find_profile c (profileID prepared) with
  | None => Err notFoundError
  | Some current =>
      if negb (same_source current (profile prepared)) then
        Err (api_error CodeInvalidState
          "selected subscription source changed; review the subscription before retrying setup")
      else if NotModified (fetched prepared)
              && (negb (Generation current =? Generation (profile prepared))
                  || negb (String.eqb (CacheBaseDir current) (CacheBaseDir (profile prepared)))) then Ok None
      else Ok (Some (mkPreparedRefresh (profileID prepared) (Version current) current (fetched prepared) (document prepared)))
  end.

Definition refetched (prepared next : PreparedRefresh) : result PreparedRefresh :=
  if negb (same_source (profile next) (profile prepared)) then
    Err (api_error CodeInvalidState "selected subscription source changed during setup refresh")
  else Ok next.

Definition ReprepareSetupRefresh (fetch : Profile -> result FetchResult) (prepared : PreparedRefresh)
    : st SV (result PreparedRefresh) :=
  let! s := st_get in
  match rebase_prepared prepared (catalog s) with
  | Err e => st_ret (Err e)
  | Ok (Some next) => st_ret (Ok next)
  | Ok None => try! next := PrepareRefresh fetch (profileID prepared) in st_ret (refetched prepared next)
  end.

End Service.

(** Does the error tree contain this text? *)
Fixpoint mentions (m : string) (e : error) : bool :=
  match e with
  | EAPI _ | ESentinel _ => false
  | EText t => String.eqb t m
  | EFmt t c => String.eqb t m || mentions m c
  | EWrap _ c => mentions m c
  | EJoin a b => mentions m a || mentions m b
  end.

(** The caller is told that the rollback itself did not succeed. *)
Definition reports_rollback (e : error) : bool :=
  mentions "restore subscription cache" e
  || mentions "inspect subscription catalog after failed restore" e
  || mentions "subscription catalog changed during failed restore" e.

(** ** Specifications of the file operations *)

Section Specs.
Context `{SourceSyntax} `{CatalogYAML} {Env W : Type} `{AtomicFile Env W}.

Abbreviation SV := (Service Env W).

(** The paths of the service and the answers of the environment are fixed. *)
Definition same_setup (s s' : SV) : Prop :=
  catalogPath s' = catalogPath s /\ cacheDir s' = cacheDir s.

(** The content of a cache file and of the catalog file. *)
Definition cached (p : path) (s : SV) : option string := af_read p (disk s).

Definition stored (c : Catalog) (s : SV) : Prop :=
  exists content, cat_Marshal c = Ok content /\ af_read (catalogPath s) (disk s) = Some content.

(** A cache path that is neither the catalog nor a temporary file. *)
Definition proper_paths (p : path) (s : SV) : Prop :=
  hidden (catalogPath s) = false /\ hidden p = false /\ catalogPath s <> p.

(** An operation that leaves the catalog in memory and on disk alone. *)
Definition catalog_same (s s' : SV) : Prop :=
  same_setup s s' /\ catalog s' = catalog s /\
  af_read (catalogPath s) (disk s') = af_read (catalogPath s) (disk s).

Lemma catalog_same_refl (s : SV) : catalog_same s s.
Proof. by repeat split. Qed.

Lemma catalog_same_trans (s1 s2 s3 : SV) :
  catalog_same s1 s2 -> catalog_same s2 s3 -> catalog_same s1 s3.
Proof. intros ([? ?] & ? & ?) ([? ?] & ? & ?). repeat split; congruence. Qed.

Lemma stored_same (c : Catalog) (s s' : SV) : catalog_same s s' -> stored c s -> stored c s'.
Proof. intros ([Hp _] & _ & Hr) (x & Hm & Hx). exists x. rewrite Hp, Hr. done. Qed.

Lemma ReadFile_spec (p : path) (s : SV) :
  let '(r, s') := ReadFile p s in
  catalog_same s s' /\ cached p s' = cached p s /\
  match r with
  | Ok c => cached p s = Some c
  | Err e => errors_Is e ErrNotExist = true -> cached p s = None
  end.
Proof.
  unfold ReadFile. split; [by repeat split|]. split; [done|]. unfold cached.
  destruct (af_read p (disk s)); [|done]. by destruct (io_fail (answer s)).
Qed.

Lemma writeCache_spec (p : path) (content : string) (s : SV) :
  proper_paths p s ->
  let '(e, s') := writeCache p content s in
  catalog_same s s' /\ (e = None -> cached p s' = Some content) /\
  (cached p s' = cached p s \/ cached p s' = Some content).
Proof.
  intros (Hh & Hhp & Hne). unfold writeCache, cached.
  destruct (af_write _ p content (disk s)) as [[r e] w] eqn:Hw. simpl.
  split; [repeat split; by eapply af_other|].
  destruct (Committed r) eqn:Hc.
  - destruct (af_committed _ _ _ _ _ _ _ Hw Hc) as [-> Hr]. auto.
  - destruct (af_failed _ _ _ _ _ _ _ Hw Hc) as [He Hr]. destruct e; [|done]. split; [done|auto].
Qed.

(** The cache as it was before the operation. *)
Definition original (had : bool) (old : string) : option string := if had then Some old else None.

Lemma restoreCacheWithCommit_spec (p : path) (old : string) (had changed : bool) (s : SV) :
  proper_paths p s ->
  let '((restored, e), s') := restoreCacheWithCommit p old had changed s in
  catalog_same s s' /\ (e = None -> restored = true) /\
  (restored = true -> cached p s' = if changed then original had old else cached p s).
Proof.
  intros (Hh & Hhp & Hne). unfold restoreCacheWithCommit, cached. st_unfold.
  destruct changed; simpl; [|split; [apply catalog_same_refl|done]].
  destruct had; simpl.
  - unfold restoreCacheFile.
    destruct (af_write _ p old (disk s)) as [[r e] w] eqn:Hw. simpl.
    split; [repeat split; by eapply af_other|].
    destruct (Committed r) eqn:Hc.
    + destruct (af_committed _ _ _ _ _ _ _ Hw Hc) as [-> Hr]. auto.
    + destruct (af_failed _ _ _ _ _ _ _ Hw Hc) as [He Hr].
      destruct e; [|done]. destruct (Warning r); done.
  - unfold Remove. destruct (af_read p (disk s)) eqn:Hr; [destruct (io_fail (answer s))|]; simpl.
    + split; [by repeat split|done].
    + split; [repeat split; simpl; rewrite af_removed; by rewrite decide_False|].
      split; [done|]. intros _. rewrite af_removed. by rewrite decide_True.
    + split; [by repeat split|]. done.
Qed.

Lemma saveCatalog_spec (c : Catalog) (p : path) (s : SV) :
  proper_paths p s -> catalog_ok c ->
  let '(e, s') := saveCatalog c s in
  same_setup s s' /\ catalog s' = catalog s /\ cached p s' = cached p s /\
  (e = None -> stored c s') /\
  (af_read (catalogPath s) (disk s') = af_read (catalogPath s) (disk s) \/ stored c s').
Proof.
  intros (Hh & Hhp & Hne) Hok. unfold saveCatalog.
  destruct (Save _ (catalogPath s) c (disk s)) as [e w] eqn:Hs. simpl.
  split; [by split|]. split; [done|]. split.
  - unfold Save in Hs. destruct (settle c); [|by simplify_eq].
    destruct (cat_Marshal a); [|by simplify_eq].
    destruct (af_write _ (catalogPath s) a0 (disk s)) as [[r x] w1] eqn:Hw.
    destruct x; simplify_eq; unfold cached; simpl; by eapply af_other.
  - apply Save_spec in Hs as [[Hr He]|(c' & content & Hset & Hm & Hr)].
    + split; [done|]. by left.
    + rewrite settle_complete in Hset by done. simplify_eq.
      assert (stored c' (set_disk w s)) by (exists content; done). auto.
Qed.

Lemma loadCatalog_spec (s : SV) :
  let '(r, s') := loadCatalog s in
  catalog_same s s' /\ (forall q, cached q s' = cached q s) /\
  match r with Ok c => Load (catalogPath s) (disk s) = Ok c | Err _ => True end.
Proof.
  unfold loadCatalog. split; [by repeat split|]. split; [done|].
  destruct (io_fail (answer s)); [done|]. by destruct (Load (catalogPath s) (disk s)).
Qed.

(** What the file holds when it can only hold one of two saved catalogs and
    loads as one of them. *)
Lemma stored_loaded (before after d : Catalog) (s : SV) :
  (forall c, catalog_ok c -> cat_round_trips c) -> catalog_ok before -> catalog_ok after ->
  stored before s \/ stored after s ->
  Load (catalogPath s) (disk s) = Ok d -> (d = before \/ d = after) /\ stored d s.
Proof.
  intros Hrt Hb Ha Hst Hl.
  assert (Hone : forall c, catalog_ok c -> stored c s -> d = c).
  { intros c Hok (content & Hm & Hr).
    rewrite (Load_saved _ _ content _ Hok (Hrt c Hok) Hm Hr) in Hl. case_if_in Hl; [done|].
    congruence. }
  destruct Hst as [Hst|Hst]; [rewrite (Hone before)|rewrite (Hone after)]; auto.
Qed.

(** ** Committing a refresh *)

(** A failure of the rollback is reported, and in a setup marked as degraded. *)
Definition rollback_failed (setup : bool) (e : error) : Prop :=
  reports_rollback e = true /\ (setup = true -> error_degraded e = true).

Lemma rollback_error_reported (e : error) (setup : bool) :
  reports_rollback e = true -> rollback_failed setup (subscriptionRollbackError e setup).
Proof. intros Hr. unfold rollback_failed, subscriptionRollbackError. destruct setup; done. Qed.

Lemma reports_join_l (a b : error) : reports_rollback b = true -> reports_rollback (EJoin a b) = true.
Proof.
  unfold reports_rollback. simpl. rewrite !orb_true_iff. tauto.
Qed.

Lemma failAfterRestore_spec (e : error) (p : path) (old : string) (had changed setup : bool) (s : SV) :
  proper_paths p s ->
  let '(e', s') := failAfterRestore e p old had changed setup s in
  catalog_same s s' /\
  ((e' = e /\ cached p s' = if changed then original had old else cached p s) \/
   rollback_failed setup e').
Proof.
  intros Hp. unfold failAfterRestore, restoreCache. st_unfold.
  pose proof (restoreCacheWithCommit_spec p old had changed s Hp) as Hr.
  destruct (restoreCacheWithCommit p old had changed s) as [[restored r] s'].
  destruct Hr as (Hs & Hok & Hc). destruct r as [x|]; simpl; (split; [done|]).
  - right. apply rollback_error_reported, reports_join_l. done.
  - left. auto.
Qed.

(** The new catalog is in memory and on disk with the new cache, and the receipt
    holds what is needed to undo it. *)
Definition published (before : Catalog) (oc nc : option string) (p : path) (receipt : Receipt)
    (s : SV) : Prop :=
  catalog_ok (After receipt) /\ catalog s = After receipt /\ stored (After receipt) s /\
  cached p s = nc /\ Before receipt = before /\ r_cachePath receipt = p /\
  (if wroteCache receipt then original (hadCache receipt) (cacheBefore receipt) = oc else nc = oc).

(** The outcomes of a commit that started with [before] on disk and the cache as
    [oc]: published, published although the save reported an error, undone, or a
    reported rollback failure. *)
Definition committed (before : Catalog) (oc nc : option string) (p : path) (setup : bool)
    (a : commit_answer) (s : SV) : Prop :=
  let '(receipt, err, keep) := a in
  match err with
  | None => published before oc nc p receipt s
  | Some e =>
      if keep : bool then published before oc nc p receipt s
      else receipt = no_receipt /\ (stored before s /\ cached p s = oc \/ rollback_failed setup e)
  end.

Lemma commit_catalog_spec (id : string) (before after : Catalog) (p : path) (old : string)
    (had wrote setup : bool) (oc : option string) (s : SV) :
  (forall c, catalog_ok c -> cat_round_trips c) ->
  proper_paths p s -> catalog_ok before -> stored before s ->
  (if wrote then original had old = oc else cached p s = oc) ->
  let '(a, s') := commit_catalog id before after p old had wrote setup s in
  same_setup s s' /\ committed before oc (cached p s) p setup a s' /\
  (snd (fst a) = None \/ snd a = true ->
   r_profileID (fst (fst a)) = id /\ settle after = Ok (After (fst (fst a)))).
Proof.
  intros Hrt Hp Hb Hst Hoc. unfold commit_catalog. st_unfold.
  assert (Hfail : forall e (s1 : SV), proper_paths p s1 -> stored before s1 ->
    cached p s1 = cached p s -> same_setup s s1 ->
    let '(a, s') := (let '(e0, w') := failAfterRestore e p old had wrote setup s1 in
                     ((no_receipt, Some e0, false), w')) in
    same_setup s s' /\ committed before oc (cached p s) p setup a s' /\
    (snd (fst a) = None \/ snd a = true ->
   r_profileID (fst (fst a)) = id /\ settle after = Ok (After (fst (fst a))))).
  { intros e s1 Hp1 Hst1 Hc1 Hs1. pose proof (failAfterRestore_spec e p old had wrote setup s1 Hp1) as Hf.
    destruct (failAfterRestore e p old had wrote setup s1) as [e' s2].
    destruct Hf as (Hsame & Hf). simpl.
    split; [destruct Hs1, Hsame as ([? ?] & _); split; congruence|].
    split; [|intros [?|?]; done]. split; [done|].
    destruct Hf as [[_ Hc]|Hf]; [left|right; done].
    split; [by eapply stored_same|]. rewrite Hc. destruct wrote; congruence. }
  destruct (settle after) as [after'|e] eqn:Hset; [|apply Hfail; auto; by split].
  pose proof Hset as Hset0. apply settle_sound in Hset.
  pose proof (saveCatalog_spec after' p s Hp Hset) as Hs1.
  destruct (saveCatalog after' s) as [e1 s1].
  destruct Hs1 as (Hsame1 & Hcat1 & Hc1 & Hok1 & Hdisk1).
  assert (Hp1 : proper_paths p s1).
  { destruct Hsame1 as [Hpa _]. unfold proper_paths in *. by rewrite Hpa. }
  destruct e1 as [err|].
  2:{ simpl. split; [by destruct Hsame1|]. split; [|done]. specialize (Hok1 eq_refl).
      repeat (split; [done|]). by destruct wrote. }
  pose proof (saveCatalog_spec before p s1 Hp1 Hb) as Hs2.
  destruct (saveCatalog before s1) as [e2 s2].
  destruct Hs2 as (Hsame2 & Hcat2 & Hc2 & Hok2 & Hdisk2).
  assert (Hsame02 : same_setup s s2) by (destruct Hsame1, Hsame2; split; congruence).
  assert (Hp2 : proper_paths p s2).
  { destruct Hsame02 as [Hpa _]. unfold proper_paths in *. by rewrite Hpa. }
  destruct e2 as [r|]; [|apply Hfail; auto; congruence].
  assert (Hone : stored before s2 \/ stored after' s2).
  { destruct Hsame1 as [Hpa1 _], Hsame2 as [Hpa2 _].
    destruct Hdisk2 as [Hd2|Hd2]; [|by left]. destruct Hdisk1 as [Hd1|(c & Hm & Hr)].
    - left. destruct Hst as (c & Hm & Hr). exists c. rewrite Hpa2, Hd2, Hpa1, Hd1. done.
    - right. exists c. rewrite Hpa2, Hd2. done. }
  pose proof (loadCatalog_spec s2) as Hl. destruct (loadCatalog s2) as [d s3].
  destruct Hl as (Hsame3 & Hc3 & Hl).
  assert (Hsame03 : same_setup s s3) by (destruct Hsame02, Hsame3 as ([? ?] & _); split; congruence).
  destruct d as [d|x]; simpl.
  2:{ split; [done|]. split; [|intros [?|?]; done]. split; [done|]. right.
      apply rollback_error_reported, reports_join_l. unfold reports_rollback. simpl.
      by rewrite orb_true_r. }
  apply (stored_loaded before after' d s2 Hrt Hb Hset Hone) in Hl as [Hd Hstd].
  apply (stored_same _ _ _ Hsame3) in Hstd.
  case_bool_decide as Hda; simpl.
  { subst d. split; [done|]. split; [|done]. repeat (split; [done|]).
    split; [change (cached p s3 = cached p s); by rewrite Hc3, Hc2, Hc1|].
    repeat (split; [done|]). by destruct wrote. }
  case_bool_decide as Hdb; simpl.
  2:{ destruct Hd; done. }
  subst d. apply Hfail; [|done|by rewrite Hc3, Hc2, Hc1|done].
  destruct Hsame03 as [Hpa _]. unfold proper_paths in *. by rewrite Hpa.
Qed.

Lemma commit_with_spec (prepared : PreparedRefresh) (before after : Catalog) (p : path) (old : string)
    (had setup : bool) (s : SV) :
  (forall c, catalog_ok c -> cat_round_trips c) ->
  proper_paths p s -> catalog_ok before -> stored before s -> cached p s = original had old ->
  let nc := if NotModified (fetched prepared) then cached p s else Some (Content (fetched prepared)) in
  let '(a, s') := commit_with prepared before after p old had setup s in
  same_setup s s' /\ committed before (cached p s) nc p setup a s' /\
  (snd (fst a) = None \/ snd a = true ->
   r_profileID (fst (fst a)) = profileID prepared /\ settle after = Ok (After (fst (fst a)))).
Proof.
  intros Hrt Hp Hb Hst Hold. unfold commit_with. destruct (NotModified (fetched prepared)); simpl.
  { apply (commit_catalog_spec _ before after p old had false setup (cached p s) s); auto. }
  st_unfold. pose proof (writeCache_spec p (Content (fetched prepared)) s Hp) as Hw.
  destruct (writeCache p (Content (fetched prepared)) s) as [err s1].
  destruct Hw as (Hsame & Hok & _).
  assert (Hp1 : proper_paths p s1).
  { destruct Hsame as ([Hpa _] & _). unfold proper_paths in *. by rewrite Hpa. }
  assert (Hset : same_setup s s1) by apply Hsame.
  destruct err as [e|].
  - pose proof (failAfterRestore_spec e p old had true setup s1 Hp1) as Hf.
    destruct (failAfterRestore e p old had true setup s1) as [e' s2]. destruct Hf as (Hsame2 & Hf).
    assert (Hset2 : same_setup s s2).
    { destruct Hset, Hsame2 as ([? ?] & _). split; congruence. }
    assert (Hst2 : stored before s2) by (eapply stored_same; [done|]; by eapply stored_same).
    destruct (error_degraded e') eqn:Hdeg; simpl; (split; [done|]); (split; [|intros [?|?]; done]);
      (split; [done|]); destruct Hf as [[_ Hc]|[Hr Hd]]; try (left; split; [done|congruence]); right.
    + by split.
    + split; [exact Hr|]. intros Hs. rewrite Hd in Hdeg by done. done.
  - pose proof (commit_catalog_spec (profileID prepared) before after p old had true setup
                  (cached p s) s1 Hrt Hp1 Hb) as Hc.
    rewrite Hok in Hc by done.
    destruct (commit_catalog _ before after p old had true setup s1) as [a s2].
    destruct Hc as (Hs2 & Hc & Hid); [by eapply stored_same|done|].
    split; [destruct Hset, Hs2; split; congruence|]. done.
Qed.

Lemma commit_body_spec (prepared : PreparedRefresh) (before : Catalog) (setup : bool) (now : Z) (s : SV) :
  let p := CachePath (profileID prepared) s in
  (forall c, catalog_ok c -> cat_round_trips c) ->
  proper_paths p s -> catalog_ok before -> stored before s ->
  let nc := if NotModified (fetched prepared) then cached p s else Some (Content (fetched prepared)) in
  let '(a, s') := commit_body prepared before setup now s in
  same_setup s s' /\ committed before (cached p s) nc p setup a s' /\
  (snd (fst a) = None \/ snd a = true ->
   r_profileID (fst (fst a)) = profileID prepared /\
   settle (refresh_catalog prepared now (catalog s)) = Ok (After (fst (fst a)))).
Proof.
  intros p Hrt Hp Hb Hst nc. unfold commit_body. st_unfold. fold p.
  assert (Hnothing : forall e (s1 : SV), catalog_same s s1 -> cached p s1 = cached p s ->
    same_setup s s1 /\ committed before (cached p s) nc p setup (no_receipt, Some e, false) s1 /\
    (Some e = None \/ false = true -> r_profileID no_receipt = profileID prepared /\
       settle (refresh_catalog prepared now (catalog s)) = Ok (After no_receipt))).
  { intros e s1 Hs Hc. split; [apply Hs|]. split; [|intros [?|?]; done]. split; [done|].
    left. split; [by eapply stored_same|done]. }
  destruct (find_profile (catalog s) (profileID prepared)) as [q|];
    [|by apply Hnothing; [apply catalog_same_refl|]].
  case_if; [by apply Hnothing; [apply catalog_same_refl|]|].
  pose proof (ReadFile_spec p s) as Hr. destruct (ReadFile p s) as [old s1].
  destruct Hr as (Hsame & Hc & Hr).
  assert (Hp1 : proper_paths p s1).
  { destruct Hsame as ([Hpa _] & _). unfold proper_paths in *. by rewrite Hpa. }
  assert (Hst1 : stored before s1) by by eapply stored_same.
  set (after := refresh_catalog prepared now (catalog s)) in *.
  assert (Hgo : forall old' had, cached p s = original had old' ->
    let '(a, s') := commit_with prepared before after p old' had setup s1 in
    same_setup s s' /\ committed before (cached p s) nc p setup a s' /\
    (snd (fst a) = None \/ snd a = true ->
   r_profileID (fst (fst a)) = profileID prepared /\
   settle (refresh_catalog prepared now (catalog s)) = Ok (After (fst (fst a))))).
  { intros old' had Ho. rewrite <- Hc in Ho.
    pose proof (commit_with_spec prepared before after p old' had setup s1 Hrt Hp1 Hb Hst1 Ho) as Hw.
    rewrite Hc in Hw. destruct (commit_with _ _ _ _ _ _ _ s1) as [a s2]. fold nc in Hw.
    destruct Hw as (Hs2 & Hw). split; [|done].
    destruct Hsame as ([? ?] & _), Hs2. split; congruence. }
  destruct old as [old|e]; [by apply Hgo|].
  destruct (errors_Is e ErrNotExist) eqn:He; simpl; [apply Hgo; by apply Hr|by apply Hnothing].
Qed.

(** The same after the deferred reset of the catalog in memory. *)
Lemma commitRefreshLocked_spec (prepared : PreparedRefresh) (before : Catalog) (setup : bool) (now : Z)
    (s : SV) :
  let p := CachePath (profileID prepared) s in
  (forall c, catalog_ok c -> cat_round_trips c) ->
  proper_paths p s -> catalog_ok before -> stored before s ->
  let oc := cached p s in
  let nc := if NotModified (fetched prepared) then cached p s else Some (Content (fetched prepared)) in
  let '((receipt, err), s') := commitRefreshLocked prepared before setup now s in
  same_setup s s' /\
  match err with
  | None => published before oc nc p receipt s' /\ r_profileID receipt = profileID prepared /\
            settle (refresh_catalog prepared now (catalog s)) = Ok (After receipt)
  | Some e =>
      published before oc nc p receipt s' /\ r_profileID receipt = profileID prepared /\
      settle (refresh_catalog prepared now (catalog s)) = Ok (After receipt) \/
      receipt = no_receipt /\ catalog s' = before /\
      (stored before s' /\ cached p s' = oc \/ rollback_failed setup e)
  end.
Proof.
  intros p Hrt Hp Hb Hst oc nc. unfold commitRefreshLocked. st_unfold.
  pose proof (commit_body_spec prepared before setup now s Hrt Hp Hb Hst) as Hc.
  destruct (commit_body prepared before setup now s) as [[[receipt err] keep] s1].
  destruct Hc as (Hs & Hc & Hid).
  destruct err as [e|]; [destruct keep|]; cbn [fst snd committed] in *;
    [split; [done|]; left; auto| |split; [done|]; auto].
  destruct Hc as [-> Hc]. split; [done|]. right. split; [done|]. split; [done|].
  destruct Hc as [[Hst1 Hc1]|Hc]; [left|by right]. by split.
Qed.

(** ** Compensating a retained setup commit *)

(** The state before the operation. *)
Definition undone (before : Catalog) (oc : option string) (p : path) (s : SV) : Prop :=
  catalog s = before /\ stored before s /\ cached p s = oc.

Lemma degraded_rollback_error (e : error) : error_degraded (subscriptionRollbackError e true) = true.
Proof. done. Qed.

Ltac degraded := simpl; split; [done|]; eexists; split; [reflexivity|]; left.

Lemma compensate_catalog_spec (receipt : Receipt) (e : error) (cacheErr : option error)
    (cacheAfter : string) (p : path) (s : SV) :
  proper_paths p s -> catalog_ok (Before receipt) ->
  let '((r, err), s') := compensate_catalog receipt e cacheErr cacheAfter s in
  r = no_receipt /\ exists e', err = Some e' /\
  (error_degraded e' = true \/ e' = e /\ undone (Before receipt) (cached p s) p s').
Proof.
  intros Hp Hb. unfold compensate_catalog. st_unfold.
  pose proof (saveCatalog_spec (Before receipt) p s Hp Hb) as Hs.
  destruct (saveCatalog (Before receipt) s) as [[r|] s1]; destruct Hs as (_ & _ & Hc & Hok & _).
  - destruct (loadCatalog s1) as [[d|x] s2]; [|by degraded].
    case_bool_decide; [destruct (wroteCache receipt); [destruct (writeCache _ _ _) as [[?|] ?]|]|
      case_bool_decide]; by degraded.
  - destruct cacheErr as [c|]; simpl; (split; [done|]); eexists; (split; [done|]); [by left|right].
    split; [done|]. split; [done|]. split; [by apply Hok|exact Hc].
Qed.

Lemma settleSetup_spec (receipt : Receipt) (e : error) (before : Catalog) (oc nc : option string)
    (p : path) (s : SV) :
  proper_paths p s -> catalog_ok before -> published before oc nc p receipt s ->
  r_profileID receipt <> ""%string ->
  let '((r, err), s') := settleSetupCommitLocked receipt (Some e) s in
  r = no_receipt /\ exists e', err = Some e' /\
  (error_degraded e' = true \/ e' = e /\ undone before oc p s').
Proof.
  intros Hp Hb (Ha & Hcat & Hst & Hc & Hbef & Hcp & Hoc) Hid.
  unfold settleSetupCommitLocked. st_unfold. subst p.
  destruct (String.eqb_spec (r_profileID receipt) "") as [|_]; [done|].
  assert (Hgo : forall content (s1 : SV), proper_paths (r_cachePath receipt) s1 ->
    cached (r_cachePath receipt) s1 = cached (r_cachePath receipt) s ->
    let '((r, err), s') :=
      (let '((restored, cacheErr), w) :=
         restoreCacheWithCommit (r_cachePath receipt) (cacheBefore receipt) (hadCache receipt)
           (wroteCache receipt) s1 in
       (if negb restored
        then st_ret (no_receipt, Some (subscriptionRollbackError
               (default e (errors_Join (Some e) cacheErr)) true))
        else compensate_catalog receipt e cacheErr content) w) in
    r = no_receipt /\ exists e', err = Some e' /\
    (error_degraded e' = true \/ e' = e /\ undone before oc (r_cachePath receipt) s')).
  { intros content s1 Hp1 Hc1.
    pose proof (restoreCacheWithCommit_spec (r_cachePath receipt) (cacheBefore receipt)
                  (hadCache receipt) (wroteCache receipt) s1 Hp1) as Hr.
    destruct (restoreCacheWithCommit _ _ _ _ s1) as [[restored ce] s2].
    destruct Hr as (Hsame & _ & Hr). destruct restored; simpl; [|by degraded].
    assert (Hp2 : proper_paths (r_cachePath receipt) s2).
    { destruct Hsame as ([Hpa _] & _). unfold proper_paths in *. by rewrite Hpa. }
    rewrite <- Hbef in Hb.
    pose proof (compensate_catalog_spec receipt e ce content (r_cachePath receipt) s2 Hp2 Hb) as Hcc.
    destruct (compensate_catalog receipt e ce content s2) as [[r err] s3].
    rewrite Hr, Hc1, Hc, Hbef in Hcc by done.
    destruct (wroteCache receipt); rewrite Hoc in Hcc; exact Hcc. }
  destruct (wroteCache receipt) eqn:Hw.
  - pose proof (ReadFile_spec (r_cachePath receipt) s) as Hr.
    destruct (ReadFile (r_cachePath receipt) s) as [[content|x] s1]; [|by degraded].
    destruct Hr as (Hsame & Hc1 & _). specialize (Hgo content s1).
    destruct (restoreCacheWithCommit _ _ _ _ s1) as [[restored ce] s2].
    apply Hgo; [|done]. destruct Hsame as ([Hpa _] & _). unfold proper_paths in *. by rewrite Hpa.
  - specialize (Hgo ""%string s).
    destruct (restoreCacheWithCommit _ _ _ _ s) as [[restored ce] s2]. by apply Hgo.
Qed.

(** A commit followed by the compensation of a retained one. *)
Lemma setup_commit_spec (prepared : PreparedRefresh) (before : Catalog) (now : Z) (s : SV) :
  let p := CachePath (profileID prepared) s in
  (forall c, catalog_ok c -> cat_round_trips c) ->
  proper_paths p s -> catalog_ok before -> stored before s -> profileID prepared <> ""%string ->
  let oc := cached p s in
  let nc := if NotModified (fetched prepared) then cached p s else Some (Content (fetched prepared)) in
  let '((r, err), s') :=
    (let! '(receipt, err) := commitRefreshLocked prepared before true now in
     settleSetupCommitLocked receipt err) s in
  match err with
  | None => published before oc nc p r s' /\
            settle (refresh_catalog prepared now (catalog s)) = Ok (After r)
  | Some e => r = no_receipt /\ (error_degraded e = true \/ undone before oc p s')
  end.
Proof.
  intros p Hrt Hp Hb Hst Hid oc nc. st_unfold.
  pose proof (commitRefreshLocked_spec prepared before true now s Hrt Hp Hb Hst) as Hc.
  destruct (commitRefreshLocked prepared before true now s) as [[receipt err] s1].
  destruct Hc as (Hsame & Hc). fold p oc nc in Hc.
  assert (Hp1 : proper_paths p s1).
  { destruct Hsame as [Hpa _]. unfold proper_paths in *. by rewrite Hpa. }
  destruct err as [e|]; [|by destruct Hc as (? & ? & ?)].
  destruct Hc as [(Hpub & Hr & _)|(-> & Hcat & Hc)].
  - rewrite <- Hr in Hid.
    pose proof (settleSetup_spec receipt e before oc nc p s1 Hp1 Hb Hpub Hid) as Hs.
    destruct (settleSetupCommitLocked receipt (Some e) s1) as [[r err] s2].
    destruct Hs as (-> & e' & -> & Hs). naive_solver.
  - simpl. split; [done|]. destruct Hc as [[Hst1 Hc1]|[_ Hd]]; [right; by split|left; auto].
Qed.

(** ** Theorems *)

(** The catalog in memory satisfies its invariant and is the one on disk. *)
Definition consistent (s : SV) : Prop := catalog_ok (catalog s) /\ stored (catalog s) s.

(** The YAML package reads back every valid catalog it wrote. *)
Definition yaml_faithful : Prop := forall c, catalog_ok c -> cat_round_trips c.

(** C17. Publishing a refresh, whatever reads, writes, renames and directory
    syncs fail: a success has the refreshed catalog in memory and on disk and the
    new bytes in the cache.  After an error either that same complete state was
    kept (and the receipt says so), or the catalog in memory is the old one and
    so are the catalog file and the cache, unless the error reports that the
    rollback failed.  Catalog and cache never end up from different generations
    without a report. *)
Theorem commit_refresh_outcomes (prepared : PreparedRefresh) (now : Z) (s s' : SV)
    (receipt : Receipt) (err : option error) :
  let p := CachePath (profileID prepared) s in
  yaml_faithful -> proper_paths p s -> consistent s ->
  CommitRefresh prepared now s = ((receipt, err), s') ->
  let new := if NotModified (fetched prepared) then cached p s else Some (Content (fetched prepared)) in
  let complete := consistent s' /\ catalog s' = After receipt /\ cached p s' = new /\
                  settle (refresh_catalog prepared now (catalog s)) = Ok (After receipt) in
  match err with
  | None => complete
  | Some e => r_profileID receipt = profileID prepared /\ complete \/
              receipt = no_receipt /\ catalog s' = catalog s /\
              (consistent s' /\ cached p s' = cached p s \/ reports_rollback e = true)
  end.
Proof.
  intros p Hrt Hp [Hok Hst] Hc new complete. unfold CommitRefresh in Hc. st_unfold.
  pose proof (commitRefreshLocked_spec prepared (catalog s) false now s Hrt Hp Hok Hst) as Hs.
  rewrite Hc in Hs. destruct Hs as (_ & Hs). fold p new in Hs.
  assert (Hpub : published (catalog s) (cached p s) new p receipt s' ->
                 settle (refresh_catalog prepared now (catalog s)) = Ok (After receipt) -> complete).
  { intros (Ha & Hcat & Hsto & Hca & _) Hset. split; [|done].
    unfold consistent. by rewrite Hcat. }
  destruct err as [e|]; [|destruct Hs as (? & _ & ?); auto].
  destruct Hs as [(? & ? & ?)|(-> & Hcat & Hs)]; [left; auto|right].
  split; [done|]. split; [done|]. destruct Hs as [[? ?]|[? _]]; [left|by right].
  split; [|done]. unfold consistent. by rewrite Hcat.
Qed.

(** A setup commit (refresh and activate, or add and activate) is all or
    nothing: on success the new state is complete; an error that is not marked
    as degraded means that the catalog in memory, the catalog file and the cache
    are exactly as before. *)
Theorem setup_commit_all_or_nothing (prepared : PreparedRefresh) (add : option Profile) (now : Z)
    (s s' : SV) (receipt : Receipt) (err : option error) :
  let p := CachePath (profileID prepared) s in
  yaml_faithful -> proper_paths p s -> consistent s -> profileID prepared <> ""%string ->
  match add with
  | Some new => commitAdd (mkPreparedAdd new prepared) true now s
  | None => CommitRefreshAndActivate prepared now s
  end = ((receipt, err), s') ->
  match err with
  | None => consistent s' /\ catalog s' = After receipt /\ Before receipt = catalog s /\
            cached p s' = if NotModified (fetched prepared) then cached p s
                          else Some (Content (fetched prepared))
  | Some e => error_degraded e = false ->
              catalog s' = catalog s /\ consistent s' /\ cached p s' = cached p s
  end.
Proof.
  intros p Hrt Hp [Hok Hst] Hid Hc.
  assert (Hrun : exists c, (let! '(receipt, err) := commitRefreshLocked prepared (catalog s) true now in
                            settleSetupCommitLocked receipt err) (set_catalog c s) = ((receipt, err), s')).
  { destruct add as [new|]; [unfold commitAdd in Hc|unfold CommitRefreshAndActivate in Hc];
      st_unfold; eexists; exact Hc. }
  destruct Hrun as [c Hrun].
  pose proof (setup_commit_spec prepared (catalog s) now (set_catalog c s) Hrt Hp Hok Hst Hid) as Hs.
  rewrite Hrun in Hs. destruct err as [e|].
  - intros Hd. destruct Hs as (_ & [Hx|(Hcat & Hsto & Hca)]); [congruence|].
    split; [done|]. split; [|done]. unfold consistent. by rewrite Hcat.
  - destruct Hs as ((Ha & Hcat & Hsto & Hca & Hb & _) & _). split; [|done].
    unfold consistent. by rewrite Hcat.
Qed.

(** Rolling back a published refresh restores everything: catalog in memory,
    catalog file and cache are as before the refresh. *)
Theorem rollback_undoes_commit (prepared : PreparedRefresh) (now : Z) (s s1 s2 : SV)
    (receipt : Receipt) :
  let p := CachePath (profileID prepared) s in
  yaml_faithful -> proper_paths p s -> consistent s ->
  CommitRefresh prepared now s = ((receipt, None), s1) ->
  Rollback receipt s1 = (None, s2) ->
  catalog s2 = catalog s /\ consistent s2 /\ cached p s2 = cached p s.
Proof.
  intros p Hrt Hp [Hok Hst] Hc Hr. unfold CommitRefresh in Hc. st_unfold.
  pose proof (commitRefreshLocked_spec prepared (catalog s) false now s Hrt Hp Hok Hst) as Hs.
  rewrite Hc in Hs. destruct Hs as ([Hpa _] & (Ha & Hcat & Hsto & Hca & Hb & Hcp & Hoc) & _).
  fold p in Hca, Hcp, Hoc.
  assert (Hp1 : proper_paths p s1) by (unfold proper_paths in *; by rewrite Hpa).
  unfold Rollback, restoreCache in Hr. st_unfold. rewrite Hcp in Hr.
  pose proof (restoreCacheWithCommit_spec p (cacheBefore receipt) (hadCache receipt)
                (wroteCache receipt) s1 Hp1) as Hres.
  destruct (restoreCacheWithCommit p _ _ _ s1) as [[restored [e|]] s3]; [done|].
  destruct Hres as (Hsame & Hre & Hres).
  assert (Hp3 : proper_paths p s3).
  { destruct Hsame as ([Hpa3 _] & _). unfold proper_paths in *. by rewrite Hpa3. }
  rewrite Hb in Hr. pose proof (saveCatalog_spec (catalog s) p s3 Hp3 Hok) as Hsv.
  destruct (saveCatalog (catalog s) s3) as [[e|] s4]; [done|]. injection Hr as <-.
  destruct Hsv as (_ & _ & Hc4 & Hst4 & _). split; [done|].
  split; [split; [done|]; by apply Hst4|]. change (cached p s4 = cached p s).
  rewrite Hc4, Hres by (by apply Hre). destruct (wroteCache receipt); congruence.
Qed.

End Specs.

(** ** Witnesses *)

Definition example_fetch : FetchResult := mkFetchResult "proxies: []" "" "" "upload=1; total=9" "" false.
Definition example_prepared : PreparedRefresh :=
  mkPreparedRefresh "0123456789abcdef0123456789abcdef" 1 example_profile example_fetch ∅.

Definition refreshed_example : Catalog :=
  match settle (refresh_catalog example_prepared 99 settled_example) with
  | Ok c => c
  | Err _ => zero_Catalog
  end.

(** A YAML package that knows two catalogs. *)
#[export] Instance two_catalogs : CatalogYAML :=
  {| cat_Marshal := fun c => if decide (c = settled_example) then Ok "one"%string
                             else if decide (c = refreshed_example) then Ok "two"%string
                             else Err (EText "yaml");
     cat_Decode := fun s => if String.eqb s "one" then Ok settled_example
                            else if String.eqb s "two" then Ok refreshed_example
                            else Err (EText "yaml");
     cat_Extra := fun _ => None |}.

Lemma two_catalogs_faithful : yaml_faithful.
Proof.
  intros c _ content. simpl. case_decide as H1; [intros; by simplify_eq/=|].
  case_decide as H2; intros; by simplify_eq/=.
Qed.

Definition example_catalog_path : path := ("/d"%string, "subscriptions.yaml"%string).
Definition example_service (io : nat -> io_answer atomic_env) : Service atomic_env fs :=
  mkService example_catalog_path "/c" settled_example
    (mkFS {[ example_catalog_path := "one"%string ]} []) io 0.
Definition quiet_io : nat -> io_answer atomic_env := fun _ => mkIO (no_faults "1") None.

Lemma example_consistent (io : nat -> io_answer atomic_env) : consistent (example_service io).
Proof.
  split; [apply settle_sound with (c := example_catalog); vm_compute; reflexivity|].
  exists "one"%string. split; [vm_compute; reflexivity|reflexivity].
Qed.

Definition example_cache : path :=
  ("/c"%string, "0123456789abcdef0123456789abcdef.yaml"%string).

Lemma example_paths (io : nat -> io_answer atomic_env) :
  proper_paths example_cache (example_service io).
Proof. repeat split; done. Qed.

(** The answer of a refresh without failures. *)
Lemma example_commit_ok :
  snd (fst (CommitRefresh example_prepared 99 (example_service quiet_io))) = None.
Proof. vm_compute. reflexivity. Qed.

Lemma commit_refresh_outcomes_witness :
  cached example_cache (snd (CommitRefresh example_prepared 99 (example_service quiet_io)))
    = Some "proxies: []"%string.
Proof.
  destruct (CommitRefresh example_prepared 99 (example_service quiet_io)) as [[receipt err] s'] eqn:Hc.
  pose proof (commit_refresh_outcomes example_prepared 99 (example_service quiet_io) s' receipt err
    two_catalogs_faithful (example_paths quiet_io) (example_consistent quiet_io) Hc) as Ht.
  pose proof example_commit_ok as He. rewrite Hc in He. simpl in He. subst err.
  destruct Ht as (_ & _ & Hca & _). exact Hca.
Defined.

Lemma setup_commit_all_or_nothing_witness :
  catalog (snd (CommitRefreshAndActivate example_prepared 99 (example_service quiet_io)))
    = refreshed_example.
Proof.
  destruct (CommitRefreshAndActivate example_prepared 99 (example_service quiet_io))
    as [[receipt err] s'] eqn:Hc.
  pose proof (setup_commit_all_or_nothing example_prepared None 99 (example_service quiet_io) s' receipt
    err two_catalogs_faithful (example_paths quiet_io) (example_consistent quiet_io) ltac:(done) Hc) as Ht.
  assert (He : err = None /\ After receipt = refreshed_example).
  { assert (Hx : snd (fst (CommitRefreshAndActivate example_prepared 99 (example_service quiet_io))) = None
      /\ After (fst (fst (CommitRefreshAndActivate example_prepared 99 (example_service quiet_io))))
           = refreshed_example) by (vm_compute; split; reflexivity).
    rewrite Hc in Hx. exact Hx. }
  destruct He as [-> He]. destruct Ht as (_ & Hcat & _). simpl. congruence.
Defined.

Lemma rollback_undoes_commit_witness :
  let '((receipt, _), s1) := CommitRefresh example_prepared 99 (example_service quiet_io) in
  catalog (snd (Rollback receipt s1)) = settled_example.
Proof.
  destruct (CommitRefresh example_prepared 99 (example_service quiet_io)) as [[receipt err] s1] eqn:Hc.
  pose proof example_commit_ok as He. rewrite Hc in He. simpl in He. subst err.
  destruct (Rollback receipt s1) as [e s2] eqn:Hr.
  assert (e = None) as ->.
  { assert (Hx : fst (Rollback (fst (fst (CommitRefresh example_prepared 99 (example_service quiet_io))))
                     (snd (CommitRefresh example_prepared 99 (example_service quiet_io)))) = None)
      by (vm_compute; reflexivity).
    rewrite Hc in Hx. simpl in Hx. rewrite Hr in Hx. exact Hx. }
  apply (rollback_undoes_commit example_prepared 99 (example_service quiet_io) s1 s2 receipt
    two_catalogs_faithful (example_paths quiet_io) (example_consistent quiet_io) Hc Hr).
Defined.
