(* ===== verification/Rotator.v ===== *)
(** * Rotator: the rotating log writer

    Models [internal/logging/rotator.go].  The log directory is a finite map from
    names to entries; the [n]-th file operation of a run is governed by [ops n].
    The advisory lock makes each [Write] and [Apply] one atomic transition on the
    directory; a lock that cannot be taken in time is the flag [locked = false].

    Failure reports to the [FailureReporter] are collected in [reports]. *)

From Stdlib Require Import Ascii.
From S2P Require Import Prelude GoStd.

Inductive FailureClass := FailureDropped | FailureWrite | FailureRotate | FailureCleanup.

Record entry := mkEntry {
  regular : bool;
  data : string
}.

Record Config := mkConfig {
  MaxSizeBytes : Z;
  MaxFiles : Z
}.

(** How a file operation goes; [op_written] bounds a failed or short write. *)
Record op_answer := mkOp {
  op_error : option error;
  op_written : option nat
}.

Record RotatingWriter := mkWriter {
  dir : gmap string entry;
  basePath : string;
  cfg : Config;
  dropped : Z;
  open : bool;        (** [w.file != nil] *)
  closed : bool;
  ops : nat -> op_answer;
  tick : nat;
  reports : list FailureClass
}.

Definition set_dir (d : gmap string entry) (w : RotatingWriter) : RotatingWriter :=
  mkWriter d (basePath w) (cfg w) (dropped w) (open w) (closed w) (ops w) (S (tick w)) (reports w).
Definition set_open (b : bool) (w : RotatingWriter) : RotatingWriter :=
  mkWriter (dir w) (basePath w) (cfg w) (dropped w) b (closed w) (ops w) (tick w) (reports w).
Definition report (c : FailureClass) (w : RotatingWriter) : RotatingWriter :=
  mkWriter (dir w) (basePath w) (cfg w) (dropped w) (open w) (closed w) (ops w) (tick w)
    (c :: reports w).

Definition answer (w : RotatingWriter) : op_answer := ops w (tick w).

(** ** Names *)

Definition archiveName (base : string) (n : Z) : string := (base ++ "." ++ Itoa n)%string.

Definition archiveSuffix (base name : string) : option Z :=
  let prefix := (base ++ ".")%string in
  if negb (HasPrefix name prefix) then None
  else
    let suffix := drop (String.length prefix) name in
    match suffix with
    | EmptyString => None
    | String c _ =>
        if (byte c <? 49) || (57 <? byte c) then None
        else match Atoi suffix with
             | None => None
             | Some n => if (n <? 1) || negb (String.eqb (Itoa n) suffix) then None else Some n
             end
    end.

Definition needRotate (currentSize incoming maxSize : Z) : bool :=
  (maxSize <? incoming) || (incoming <=? maxSize) && (int64 (maxSize - incoming) <? currentSize).

(** ** File operations *)

Definition fs_Remove (name : string) (w : RotatingWriter) : option error * RotatingWriter :=
  match op_error (answer w) with
  | Some e => (Some e, set_dir (dir w) w)
  | None => (None, set_dir (delete name (dir w)) w)
  end.

Definition fs_Rename (old new : string) (w : RotatingWriter) : option error * RotatingWriter :=
  match op_error (answer w), dir w !! old with
  | Some e, _ => (Some e, set_dir (dir w) w)
  | None, None => (Some (ESentinel ErrNotExist), set_dir (dir w) w)
  | None, Some e => (None, set_dir (<[new := e]> (delete old (dir w))) w)
  end.

Definition ReplaceEmpty (name : string) (w : RotatingWriter) : option error * RotatingWriter :=
  match op_error (answer w) with
  | Some e => (Some e, set_dir (dir w) w)
  | None => (None, set_dir (<[name := mkEntry true ""]> (dir w)) w)
  end.

Definition ReadDir (w : RotatingWriter) : result (list (string * entry)) * RotatingWriter :=
  (match op_error (answer w) with
   | Some e => Err e
   | None => Ok (map_to_list (dir w))
   end, set_dir (dir w) w).

(** [OpenAppend] creates a missing file. *)
Definition OpenAppend (name : string) (w : RotatingWriter) : option error * RotatingWriter :=
  match op_error (answer w) with
  | Some e => (Some e, set_dir (dir w) w)
  | None =>
      match dir w !! name with
      | Some _ => (None, set_dir (dir w) w)
      | None => (None, set_dir (<[name := mkEntry true ""]> (dir w)) w)
      end
  end.

Definition RepairAccessChecked (w : RotatingWriter) : option error * RotatingWriter :=
  (op_error (answer w), set_dir (dir w) w).

(** ** The writer *)

Definition closeFile (w : RotatingWriter) : option error * RotatingWriter :=
  if open w then (op_error (answer w), set_open false (set_dir (dir w) w)) else (None, w).

Definition openBaseLocked (w : RotatingWriter) : option error * RotatingWriter :=
  let '(e, w) := closeFile w in
  match e with
  | Some e => (Some e, w)
  | None =>
      let '(e, w) := OpenAppend (basePath w) w in
      match e with
      | Some e => (Some e, w)
      | None => (None, set_open true w)
      end
  end.

(** The loop of [convergeLocked]. *)
Fixpoint converge_loop (maxFiles : Z) (entries : list (string * entry)) (w : RotatingWriter)
    : RotatingWriter :=
  match entries with
  | [] => w
  | (name, e) :: entries =>
      match archiveSuffix (basePath w) name with
      | None => converge_loop maxFiles entries w
      | Some n =>
          if negb (regular e) then converge_loop maxFiles entries (report FailureCleanup w)
          else
            let '(err, w) := if n <? maxFiles then RepairAccessChecked w else fs_Remove name w in
            let w := match err with Some _ => report FailureCleanup w | None => w end in
            converge_loop maxFiles entries w
      end
  end.

Definition convergeLocked (w : RotatingWriter) : option error * RotatingWriter :=
  match ReadDir w with
  | (Err e, w) => (Some e, w)
  | (Ok entries, w) =>
      let maxFiles := if MaxFiles (cfg w) <? 1 then 1 else MaxFiles (cfg w) in
      (None, converge_loop maxFiles entries w)
  end.

Definition removeIfRegular (l : gmap string entry) (name : string) (w : RotatingWriter)
    : option error * gmap string entry * RotatingWriter :=
  match l !! name with
  | None => (None, l, w)
  | Some e =>
      if negb (regular e) then (None, l, report FailureRotate w)
      else match fs_Remove name w with
           | (Some e, w) => (Some e, l, w)
           | (None, w) => (None, delete name l, w)
           end
  end.

Definition renameIfRegular (l : gmap string entry) (oldName newName : string) (w : RotatingWriter)
    : option error * gmap string entry * RotatingWriter :=
  match l !! oldName with
  | None => (None, l, w)
  | Some src =>
      if negb (regular src) then (None, l, report FailureRotate w)
      else
        let rename l w :=
          match fs_Rename oldName newName w with
          | (Some e, w) => (Some e, l, w)
          | (None, w) => (None, <[newName := src]> (delete oldName l), w)
          end in
        match l !! newName with
        | None => rename l w
        | Some dst =>
            if negb (regular dst) then (None, l, report FailureRotate w)
            else match fs_Remove newName w with
                 | (Some e, w) => (Some e, l, w)
                 | (None, w) => rename (delete newName l) w
                 end
        end
  end.

(** The loop of [shiftLocked] for the suffixes [i], ..., 1. *)
Fixpoint shift_loop (i : nat) (l : gmap string entry) (w : RotatingWriter)
    : option error * gmap string entry * RotatingWriter :=
  match i with
  | O => (None, l, w)
  | S i' =>
      let n := Z.of_nat i in
      match renameIfRegular l (archiveName (basePath w) n) (archiveName (basePath w) (n + 1)) w with
      | (Some e, l, w) => (Some e, l, w)
      | (None, l, w) => shift_loop i' l w
      end
  end.

Definition shiftLocked (maxFiles : Z) (w : RotatingWriter) : option error * RotatingWriter :=
  match ReadDir w with
  | (Err e, w) => (Some e, w)
  | (Ok entries, w) =>
      let l := list_to_map entries in
      let oldest := maxFiles - 1 in
      let '(err, l, w) :=
        if 1 <=? oldest then removeIfRegular l (archiveName (basePath w) oldest) w else (None, l, w) in
      match err with
      | Some e => (Some e, w)
      | None =>
          let '(err, l, w) := shift_loop (Z.to_nat (oldest - 1)) l w in
          match err with
          | Some e => (Some e, w)
          | None =>
              let '(err, _, w) := renameIfRegular l (basePath w) (archiveName (basePath w) 1) w in
              (err, w)
          end
      end
  end.

Definition rotateLocked (w : RotatingWriter) : option error * RotatingWriter :=
  let '(e, w) := closeFile w in
  match e with
  | Some e => (Some e, w)
  | None =>
      let '(e, w) := convergeLocked w in
      match e with
      | Some e => (Some e, w)
      | None =>
          let '(e, w) := if MaxFiles (cfg w) <=? 1 then ReplaceEmpty (basePath w) w
                         else shiftLocked (MaxFiles (cfg w)) w in
          match e with
          | Some e => (Some e, w)
          | None => openBaseLocked w
          end
      end
  end.

(** [w.file.Write(p)] on the open base file. *)
Definition file_Write (p : string) (w : RotatingWriter) : nat * option error * RotatingWriter :=
  let a := answer w in
  let n := match op_written a with
           | Some k => Nat.min k (String.length p)
           | None => String.length p
           end in
  let old := match dir w !! basePath w with Some e => data e | None => ""%string end in
  (n, op_error a, set_dir (<[basePath w := mkEntry true (old ++ take n p)]> (dir w)) w).

(** [Write]; [lockErr] and [unlockErr] are the answers of the advisory lock. *)
Definition Write (lockErr unlockErr : option error) (p : string) (w : RotatingWriter)
    : nat * option error * RotatingWriter :=
  if closed w then (O, Some (ESentinel ErrClosed), w)
  else match lockErr with
  | Some e =>
      (O, Some e, report FailureDropped
         (mkWriter (dir w) (basePath w) (cfg w) (uint64 (dropped w + 1)) (open w) (closed w) (ops w)
            (tick w) (reports w)))
  | None =>
      let unlocked r :=
        let '(n, err, w) := r in
        match unlockErr with
        | Some u => (n, errors_Join err (Some u), report FailureWrite w)
        | None => (n, err, w)
        end in
      unlocked (
        match openBaseLocked w with
        | (Some e, w) => (O, Some e, report FailureWrite w)
        | (None, w) =>
            let stat := op_error (answer w) in
            let w := set_dir (dir w) w in
            match stat with
            | Some e =>
                let '(ce, w) := closeFile w in
                (O, errors_Join (Some e) ce, report FailureWrite w)
            | None =>
                let size := match dir w !! basePath w with Some e => len (data e) | None => 0 end in
                let write w :=
                  let '(n, err, w) := file_Write p w in
                  let err := match err with
                             | None => if (n =? String.length p)%nat then None
                                       else Some (EText "short write")
                             | Some _ => err
                             end in
                  let '(ce, w) := closeFile w in
                  match errors_Join err ce with
                  | Some e => (n, Some e, report FailureWrite w)
                  | None => (n, None, w)
                  end in
                if needRotate size (len p) (MaxSizeBytes (cfg w)) then
                  let '(rerr, w) := rotateLocked w in
                  match rerr with
                  | None => write w
                  | Some _ =>
                      let w := report FailureRotate w in
                      if open w then write w
                      else match openBaseLocked w with
                           | (Some e, w) => (O, Some e, report FailureWrite w)
                           | (None, w) => write w
                           end
                  end
                else write w
            end
        end)
  end.

(** [Apply]: the new configuration is kept whether or not the lock is taken. *)
Definition Apply (lockErr unlockErr : option error) (c : Config) (w : RotatingWriter) : RotatingWriter :=
  let w := mkWriter (dir w) (basePath w) c (dropped w) (open w) (closed w) (ops w) (tick w)
             (reports w) in
  if closed w then w
  else match lockErr with
  | Some _ => report FailureCleanup w
  | None =>
      let '(e, w) := convergeLocked w in
      let w := match e with Some _ => report FailureCleanup w | None => w end in
      match unlockErr with Some _ => report FailureCleanup w | None => w end
  end.

(** [Close]; [lockErr] is the answer of the lock's [Close]. *)
Definition Close (lockErr : option error) (w : RotatingWriter) : option error * RotatingWriter :=
  if closed w then (None, w)
  else
    let '(e, w) := closeFile w in
    (errors_Join e lockErr,
     mkWriter (dir w) (basePath w) (cfg w) (dropped w) (open w) true (ops w) (tick w) (reports w)).

(** ** Lemmas: names *)

Lemma archiveSuffix_Name (base : string) (n : Z) :
  1 <= n < two63 -> archiveSuffix base (archiveName base n) = Some n.
Proof.
  intros Hn. unfold archiveSuffix, archiveName, HasPrefix.
  rewrite <- append_assoc, prefix_append, drop_append. simpl negb. cbv iota.
  pose proof (Atoi_Itoa n Hn) as Ha. destruct (Itoa_pos_head n) as (c & s & Hi & Hc); [lia|].
  rewrite Hi in *. destruct (Z.ltb_spec (byte c) 49), (Z.ltb_spec 57 (byte c)); try lia. simpl orb.
  cbv iota. rewrite Ha. destruct (Z.ltb_spec n 1); [lia|]. rewrite Hi, String.eqb_refl. done.
Qed.

Lemma archiveSuffix_inv (base name : string) (n : Z) :
  archiveSuffix base name = Some n -> name = archiveName base n /\ 1 <= n.
Proof.
  unfold archiveSuffix, HasPrefix.
  destruct (String.prefix (base ++ ".") name) eqn:Hp; [|done]. simpl negb. cbv iota.
  apply prefix_drop in Hp.
  destruct (drop _ name) as [|c s] eqn:Hd; [done|]. case_if; [done|].
  destruct (Atoi (String c s)) as [m|]; [|done]. case_if; [done|]. intros He. injection He as <-.
  apply orb_false_iff in Heqb0 as [H1 H2]. breflect.
  split; [|lia]. rewrite Hp, <- H2. unfold archiveName. by rewrite <- append_assoc.
Qed.

Lemma archiveName_inj (base : string) (i j : Z) :
  1 <= i < two63 -> 1 <= j < two63 -> archiveName base i = archiveName base j -> i = j.
Proof.
  intros Hi Hj He. apply (f_equal (archiveSuffix base)) in He.
  rewrite !archiveSuffix_Name in He by done. congruence.
Qed.

Lemma archiveName_base (base : string) (i : Z) : archiveName base i <> base.
Proof.
  unfold archiveName. intros He. apply (f_equal String.length) in He.
  rewrite !append_length in He. simpl in He. lia.
Qed.

(** Rotation is decided without overflow: no rotation means the record fits. *)
Lemma needRotate_spec (cur inc max : Z) :
  0 <= cur < two63 -> 0 <= inc < two63 -> - two63 <= max < two63 ->
  needRotate cur inc max = false <-> cur + inc <= max.
Proof.
  intros Hc Hi Hm. unfold needRotate. destruct (Z.ltb_spec max inc); simpl; [split; [done|lia]|].
  destruct (Z.leb_spec inc max); [|lia]. simpl.
  rewrite int64_id by (unfold in_int64, two63 in *; lia). rewrite Z.ltb_ge. lia.
Qed.

(** ** Lemmas: rotation without failures *)

Definition quiet (w : RotatingWriter) : Prop := forall k, ops w k = mkOp None None.

Definition all_regular (d : gmap string entry) : Prop := forall q e, d !! q = Some e -> regular e = true.

(** The parts of the writer file operations leave alone. *)
Definition same_writer (w w' : RotatingWriter) : Prop :=
  basePath w' = basePath w /\ cfg w' = cfg w /\ ops w' = ops w /\ closed w' = closed w /\
  open w' = open w.

Lemma same_writer_refl (w : RotatingWriter) : same_writer w w.
Proof. by repeat split. Qed.

Lemma same_writer_trans (w1 w2 w3 : RotatingWriter) :
  same_writer w1 w2 -> same_writer w2 w3 -> same_writer w1 w3.
Proof. unfold same_writer. intuition congruence. Qed.

Lemma quiet_same (w w' : RotatingWriter) : same_writer w w' -> quiet w -> quiet w'.
Proof. intros (_ & _ & Ho & _) Hq k. rewrite Ho. apply Hq. Qed.

Lemma rename_spec (d : gmap string entry) (old new : string) (w : RotatingWriter) :
  quiet w -> dir w = d -> all_regular d -> old <> new ->
  let '(e, l, w') := renameIfRegular d old new w in
  e = None /\ dir w' = l /\ same_writer w w' /\
  forall q, l !! q = if decide (q = new) then match d !! old with Some s => Some s | None => d !! new end
                     else if decide (q = old) then None else d !! q.
Proof.
  intros Hq Hd Hall Hne. unfold renameIfRegular.
  destruct (d !! old) as [src|] eqn:Ho.
  2:{ cbv beta iota. split; [done|]. split; [done|]. split; [apply same_writer_refl|].
      intros q. repeat case_decide; congruence. }
  rewrite (Hall _ _ Ho). simpl.
  assert (Hren : forall l w1, quiet w1 -> dir w1 = l -> l !! old = Some src -> same_writer w w1 ->
    (forall q, q <> new -> l !! q = d !! q) ->
    let '(e, l', w') := match fs_Rename old new w1 with
                        | (Some e, w2) => (Some e, l, w2)
                        | (None, w2) => (None, <[new := src]> (delete old l), w2)
                        end in
    e = None /\ dir w' = l' /\ same_writer w w' /\
    forall q, l' !! q = if decide (q = new) then Some src
                        else if decide (q = old) then None else d !! q).
  { intros l w1 Hq1 Hd1 Hl Hs Hoth. unfold fs_Rename, answer. rewrite Hq1, Hd1, Hl. simpl.
    split; [done|]. split; [done|]. split; [done|]. intros q. case_decide as H1.
    - subst q. apply lookup_insert_eq.
    - rewrite lookup_insert_ne by congruence. case_decide as H2.
      + subst q. apply lookup_delete_eq.
      + rewrite lookup_delete_ne by congruence. auto. }
  destruct (d !! new) as [dst|] eqn:Hn.
  - rewrite (Hall _ _ Hn). simpl. unfold fs_Remove, answer. rewrite Hq. simpl.
    apply Hren; simpl; [exact Hq|congruence|by rewrite lookup_delete_ne by congruence|by repeat split|].
    intros q Hqn. by rewrite lookup_delete_ne by congruence.
  - apply Hren; auto using same_writer_refl.
Qed.

Lemma all_regular_rename (d l : gmap string entry) (old new : string) :
  all_regular d ->
  (forall q, l !! q = if decide (q = new) then match d !! old with Some s => Some s | None => d !! new end
                      else if decide (q = old) then None else d !! q) ->
  all_regular l.
Proof.
  intros Hall Hl q e He. rewrite Hl in He.
  case_decide; [destruct (d !! old) eqn:?; simplify_eq; eauto|]. case_decide; [done|eauto].
Qed.

(** The shift of the archives [1..i] by one, the slot above being free. *)
Lemma shift_loop_spec (i : nat) (d : gmap string entry) (w : RotatingWriter) :
  let slot k := archiveName (basePath w) k in
  quiet w -> dir w = d -> all_regular d -> Z.of_nat i + 1 < two63 ->
  d !! slot (Z.of_nat i + 1) = None ->
  let '(e, l, w') := shift_loop i d w in
  e = None /\ dir w' = l /\ same_writer w w' /\ all_regular l /\ l !! slot 1 = None /\
  (forall j, 1 <= j <= Z.of_nat i -> l !! slot (j + 1) = d !! slot j) /\
  (forall q, (forall j, 1 <= j <= Z.of_nat i + 1 -> q <> slot j) -> l !! q = d !! q).
Proof.
  revert d w. induction i as [|i IH]; intros d w slot Hq Hd Hall Hb Hfree.
  { simpl. split; [done|]. split; [done|]. split; [apply same_writer_refl|]. split; [done|].
    split; [done|]. split; [lia|done]. }
  cbn [shift_loop]. fold slot.
  assert (Hne : slot (Z.of_nat (S i)) <> slot (Z.of_nat (S i) + 1)).
  { intros He. apply archiveName_inj in He; lia. }
  pose proof (rename_spec d (slot (Z.of_nat (S i))) (slot (Z.of_nat (S i) + 1)) w Hq Hd Hall Hne) as Hr.
  fold (slot (Z.of_nat (S i))) (slot (Z.of_nat (S i) + 1)).
  destruct (renameIfRegular d (slot (Z.of_nat (S i))) (slot (Z.of_nat (S i) + 1)) w) as [[e l] w1].
  destruct Hr as (-> & Hd1 & Hs1 & Hl). pose proof (all_regular_rename _ _ _ _ Hall Hl) as Hall1.
  assert (Hslot : forall k, archiveName (basePath w1) k = slot k).
  { destruct Hs1 as (Hbp & _). intros k. unfold slot. by rewrite Hbp. }
  assert (Hfree1 : l !! slot (Z.of_nat i + 1) = None).
  { rewrite Hl. replace (Z.of_nat (S i)) with (Z.of_nat i + 1) by lia.
    rewrite decide_False by (intros He; apply archiveName_inj in He; lia). by rewrite decide_True. }
  specialize (IH l w1 (quiet_same _ _ Hs1 Hq) Hd1 Hall1 ltac:(lia)).
  rewrite Hslot in IH. specialize (IH Hfree1).
  destruct (shift_loop i l w1) as [[e l2] w2].
  destruct IH as (-> & Hd2 & Hs2 & Hall2 & H1 & Hsh & Hoth). rewrite Hslot in H1.
  split; [done|]. split; [done|]. split; [by eapply same_writer_trans|]. split; [done|]. split; [done|].
  assert (Hx : forall j, 1 <= j <= Z.of_nat i -> slot j <> slot (Z.of_nat (S i)) /\
                 slot j <> slot (Z.of_nat (S i) + 1)).
  { intros j Hj. split; intros He; apply archiveName_inj in He; lia. }
  split.
  - intros j Hj. destruct (Z.eq_dec j (Z.of_nat (S i))) as [->|Hji].
    + rewrite Hoth.
      * rewrite Hl, decide_True by done. destruct (d !! slot (Z.of_nat (S i))); [done|exact Hfree].
      * intros k Hk. rewrite Hslot. intros He. apply archiveName_inj in He; lia.
    + pose proof (Hsh j ltac:(lia)) as Hj'. rewrite !Hslot in Hj'. rewrite Hj', Hl.
      destruct (Hx j ltac:(lia)). by rewrite !decide_False.
  - intros q Hnq. rewrite Hoth; [rewrite Hl, !decide_False; [done|..]|].
    + apply Hnq. lia.
    + apply Hnq. lia.
    + intros j Hj. rewrite Hslot. apply Hnq. lia.
Qed.

(** Is this the name of an archive beyond the retention limit? *)
Definition surplus (base : string) (maxFiles : Z) (q : string) : bool :=
  match archiveSuffix base q with Some n => maxFiles <=? n | None => false end.

Lemma converge_loop_spec (maxFiles : Z) (entries : list (string * entry)) (w : RotatingWriter) :
  quiet w -> (forall q e, (q, e) ∈ entries -> regular e = true) ->
  let w' := converge_loop maxFiles entries w in
  same_writer w w' /\
  forall q, dir w' !! q = if bool_decide (q ∈ map fst entries) && surplus (basePath w) maxFiles q
                          then None else dir w !! q.
Proof.
  revert w. induction entries as [|[name e] entries IH]; intros w Hq Hreg;
    cbn [converge_loop map fst].
  { split; [apply same_writer_refl|]. intros q.
    rewrite bool_decide_false; [done|apply not_elem_of_nil]. }
  assert (Hreg' : forall q e, (q, e) ∈ entries -> regular e = true).
  { intros q x Hx. apply (Hreg q x). apply elem_of_cons. by right. }
  assert (He : regular e = true) by (apply (Hreg name e), elem_of_cons; by left).
  assert (Hcase : forall w1, same_writer w w1 ->
    (forall q, dir w1 !! q = if bool_decide (q = name) && surplus (basePath w) maxFiles q
                             then None else dir w !! q) ->
    let w' := converge_loop maxFiles entries w1 in
    same_writer w w' /\
    forall q, dir w' !! q =
      if bool_decide (q ∈ name :: map fst entries) && surplus (basePath w) maxFiles q
      then None else dir w !! q).
  { intros w1 Hs Hd. destruct (IH w1 (quiet_same _ _ Hs Hq) Hreg') as [Hs2 Hd2].
    split; [by eapply same_writer_trans|]. intros q. rewrite Hd2.
    destruct Hs as (Hbp & _). rewrite Hbp.
    destruct (surplus (basePath w) maxFiles q) eqn:Hsu; rewrite ?andb_false_r, ?andb_true_r.
    - rewrite Hd, Hsu, andb_true_r. repeat case_bool_decide; set_solver.
    - by rewrite Hd, Hsu, andb_false_r. }
  unfold surplus in *. destruct (archiveSuffix (basePath w) name) as [n|] eqn:Hn.
  - rewrite He. simpl. destruct (Z.ltb_spec n maxFiles) as [Hlt|Hge].
    + unfold RepairAccessChecked, answer. rewrite Hq. simpl. apply Hcase; [by repeat split|].
      intros q. case_bool_decide as Hqn; [|done]. subst q. rewrite Hn. simpl.
      destruct (Z.leb_spec maxFiles n); [lia|done].
    + unfold fs_Remove, answer. rewrite Hq. simpl. apply Hcase; [by repeat split|].
      intros q. simpl. rewrite lookup_delete. case_bool_decide as Hqn.
      * subst q. rewrite Hn, decide_True by done. simpl. destruct (Z.leb_spec maxFiles n); [done|lia].
      * rewrite decide_False by congruence. done.
  - apply Hcase; [apply same_writer_refl|]. intros q. case_bool_decide as Hqn; [|done].
    subst q. by rewrite Hn.
Qed.

(** [convergeLocked] removes exactly the surplus archives. *)
Lemma converge_spec (w : RotatingWriter) :
  quiet w -> all_regular (dir w) -> 1 <= MaxFiles (cfg w) ->
  let '(e, w') := convergeLocked w in
  e = None /\ same_writer w w' /\
  forall q, dir w' !! q = if surplus (basePath w) (MaxFiles (cfg w)) q then None else dir w !! q.
Proof.
  intros Hq Hall Hm. unfold convergeLocked, ReadDir, answer. rewrite Hq. simpl.
  destruct (Z.ltb_spec (MaxFiles (cfg w)) 1); [lia|]. split; [done|].
  pose proof (converge_loop_spec (MaxFiles (cfg w)) (map_to_list (dir w)) (set_dir (dir w) w)) as Hc.
  destruct Hc as [Hs Hd]; [exact Hq| |].
  { intros q e Hin. apply elem_of_map_to_list in Hin. eauto. }
  split; [exact Hs|]. intros q. rewrite Hd. simpl.
  case_bool_decide as Hin; [done|]. simpl. destruct (surplus _ _ q); [|done].
  destruct (dir w !! q) as [e|] eqn:He; [|done]. destruct Hin.
  apply list_elem_of_In, in_map_iff. exists (q, e). split; [done|].
  by apply list_elem_of_In, elem_of_map_to_list.
Qed.

(** [shiftLocked] moves every file one slot up and drops the oldest. *)
Lemma shift_spec (maxFiles : Z) (w : RotatingWriter) :
  let slot k := archiveName (basePath w) k in
  quiet w -> all_regular (dir w) -> 2 <= maxFiles < two63 ->
  let '(e, w') := shiftLocked maxFiles w in
  e = None /\ same_writer w w' /\ all_regular (dir w') /\
  dir w' !! basePath w = None /\ dir w' !! slot 1 = dir w !! basePath w /\
  (forall j, 1 <= j < maxFiles - 1 -> dir w' !! slot (j + 1) = dir w !! slot j) /\
  (forall q, q <> basePath w -> (forall j, 1 <= j < maxFiles -> q <> slot j) ->
     dir w' !! q = dir w !! q).
Proof.
  intros slot Hq Hall Hm. unfold shiftLocked, ReadDir, answer. rewrite Hq. simpl.
  rewrite list_to_map_to_list. destruct (Z.leb_spec 1 (maxFiles - 1)); [|lia].
  set (w0 := set_dir (dir w) w). set (d0 := dir w) in *.
  set (d1 := delete (slot (maxFiles - 1)) d0).
  assert (Hrm : exists w1, removeIfRegular d0 (archiveName (basePath w) (maxFiles - 1)) w0
                  = (None, d1, w1) /\ dir w1 = d1 /\ same_writer w w1).
  { unfold removeIfRegular. fold (slot (maxFiles - 1)).
    destruct (d0 !! slot (maxFiles - 1)) as [e|] eqn:He.
    - rewrite (Hall _ _ He). simpl. unfold fs_Remove, answer. rewrite (Hq : forall k, ops w0 k = _). simpl.
      eexists. split; [done|]. by repeat split.
    - exists w0. unfold d1. rewrite delete_id by done. by repeat split. }
  destruct Hrm as (w1 & -> & Hd1 & Hs1).
  assert (Hall1 : all_regular d1).
  { intros q e He. apply lookup_delete_Some in He as [_ He]. eauto. }
  assert (Hslot : forall k, archiveName (basePath w1) k = slot k).
  { destruct Hs1 as (Hbp & _). intros k. unfold slot. by rewrite Hbp. }
  pose proof (shift_loop_spec (Z.to_nat (maxFiles - 1 - 1)) d1 w1 (quiet_same _ _ Hs1 Hq) Hd1 Hall1) as Hsh.
  rewrite Z2Nat.id in Hsh by lia. specialize (Hsh ltac:(lia)).
  rewrite Hslot in Hsh. replace (maxFiles - 1 - 1 + 1) with (maxFiles - 1) in Hsh by lia.
  specialize (Hsh (lookup_delete_eq _ _)).
  destruct (shift_loop _ d1 w1) as [[e l] w2].
  destruct Hsh as (-> & Hd2 & Hs2 & Hall2 & Hone & Hmove & Hoth). rewrite Hslot in Hone.
  assert (Hs02 : same_writer w w2) by by eapply same_writer_trans.
  assert (Hbp2 : basePath w2 = basePath w) by apply Hs02.
  rewrite !Hbp2. change (archiveName (basePath w) 1) with (slot 1).
  pose proof (rename_spec l (basePath w) (slot 1) w2 (quiet_same _ _ Hs02 Hq) Hd2 Hall2) as Hr.
  specialize (Hr ltac:(intros He; symmetry in He; by apply archiveName_base in He)).
  destruct (renameIfRegular l (basePath w) (slot 1) w2) as [[e l3] w3].
  destruct Hr as (-> & Hd3 & Hs3 & Hl3). rewrite Hd3.
  assert (Hnb : forall k, slot k <> basePath w) by (intros k; apply archiveName_base).
  assert (Hlb : l !! basePath w = d0 !! basePath w).
  { rewrite Hoth; [unfold d1; by rewrite lookup_delete_ne|]. intros j _. rewrite Hslot.
    intros He. by destruct (Hnb j). }
  split; [done|]. split; [by eapply same_writer_trans|].
  split; [by eapply all_regular_rename|].
  split; [rewrite Hl3, decide_False, decide_True by (done || (intros He; by destruct (Hnb 1))); done|].
  split; [rewrite Hl3, decide_True, Hlb, Hone by done; by destruct (d0 !! basePath w)|].
  split.
  - intros j Hj. rewrite Hl3, !decide_False.
    + pose proof (Hmove j ltac:(lia)) as Hj'. rewrite !Hslot in Hj'. rewrite Hj'. unfold d1.
      rewrite lookup_delete_ne; [done|]. intros He. apply archiveName_inj in He; lia.
    + apply Hnb.
    + intros He. apply archiveName_inj in He; unfold two63 in *; lia.
  - intros q Hqb Hqs. rewrite Hl3, !decide_False; [|done|apply Hqs; lia].
    rewrite Hoth; [unfold d1; rewrite lookup_delete_ne; [done|]|].
    + intros He. symmetry in He. revert He. apply Hqs. lia.
    + intros j Hj. rewrite Hslot. apply Hqs. lia.
Qed.

(** ** Lemmas: a write without failures *)

Lemma take_all (s : string) : take (String.length s) s = s.
Proof. induction s as [|c s IH]; simpl; [done|]. by rewrite IH. Qed.

Definition old_data (w : RotatingWriter) : string :=
  match dir w !! basePath w with Some e => data e | None => ""%string end.

(** The configuration, paths and answers are the same. *)
Definition same_config (w w' : RotatingWriter) : Prop :=
  basePath w' = basePath w /\ cfg w' = cfg w /\ ops w' = ops w /\ closed w' = closed w.

Lemma openBase_spec (w : RotatingWriter) :
  quiet w -> all_regular (dir w) ->
  let '(e, w') := openBaseLocked w in
  e = None /\ same_config w w' /\ open w' = true /\ all_regular (dir w') /\
  dir w' !! basePath w = Some (mkEntry true (old_data w)) /\
  forall q, q <> basePath w -> dir w' !! q = dir w !! q.
Proof.
  intros Hq Hall. unfold openBaseLocked.
  assert (Hc : exists w1, closeFile w = (None, w1) /\ dir w1 = dir w /\ same_config w w1).
  { unfold closeFile, answer. rewrite Hq. destruct (open w); eexists; by repeat split. }
  destruct Hc as (w1 & -> & Hd & Hbp & Hcf & Hop & Hcl).
  unfold OpenAppend, answer. rewrite Hop, Hq. simpl. unfold old_data. rewrite Hd, Hbp.
  destruct (dir w !! basePath w) as [e|] eqn:He; simpl; (split; [done|]).
  - repeat (split; [done|]). split; [|done].
    rewrite He. pose proof (Hall _ _ He). destruct e; simpl in *. by subst.
  - repeat (split; [done|]). split; [|split; [apply lookup_insert_eq|]].
    + intros q e Hx. apply lookup_insert_Some in Hx as [[_ <-]|[_ Hx]]; eauto.
    + intros q Hne. by rewrite lookup_insert_ne.
Qed.

(** What a rotation leaves on disk. *)
Definition rotated (w : RotatingWriter) (d : gmap string entry) : Prop :=
  let slot k := archiveName (basePath w) k in
  d !! basePath w = Some (mkEntry true ""%string) /\
  (2 <= MaxFiles (cfg w) -> d !! slot 1 = dir w !! basePath w) /\
  (forall j, 1 <= j < MaxFiles (cfg w) - 1 -> d !! slot (j + 1) = dir w !! slot j) /\
  (forall n, MaxFiles (cfg w) <= n < two63 -> d !! slot n = None) /\
  (forall q, q <> basePath w -> archiveSuffix (basePath w) q = None -> d !! q = dir w !! q).

Lemma surplus_slot (base : string) (m n : Z) :
  1 <= n < two63 -> surplus base m (archiveName base n) = (m <=? n).
Proof. intros Hn. unfold surplus. by rewrite archiveSuffix_Name. Qed.

Lemma surplus_base (base : string) (m : Z) : surplus base m base = false.
Proof.
  unfold surplus. destruct (archiveSuffix base base) as [n|] eqn:He; [|done].
  apply archiveSuffix_inv in He as [He _]. symmetry in He. by apply archiveName_base in He.
Qed.

Lemma rotate_spec (w : RotatingWriter) :
  quiet w -> all_regular (dir w) -> 1 <= MaxFiles (cfg w) < two63 ->
  let '(e, w') := rotateLocked w in
  e = None /\ same_config w w' /\ open w' = true /\ rotated w (dir w').
Proof.
  intros Hq Hall Hm. unfold rotateLocked.
  assert (Hc : exists w1, closeFile w = (None, w1) /\ dir w1 = dir w /\ same_config w w1).
  { unfold closeFile, answer. rewrite Hq. destruct (open w); eexists; by repeat split. }
  destruct Hc as (w1 & -> & Hd & Hbp & Hcf & Hop & Hcl).
  assert (Hq1 : quiet w1) by (intros k; rewrite Hop; apply Hq).
  assert (Hall1 : all_regular (dir w1)) by by rewrite Hd.
  pose proof (converge_spec w1 Hq1 Hall1 ltac:(rewrite Hcf; lia)) as Hcv.
  destruct (convergeLocked w1) as [e w2]. destruct Hcv as (-> & Hs2 & Hd2).
  rewrite Hd, Hbp, Hcf in Hd2.
  assert (Hq2 : quiet w2) by by eapply quiet_same.
  destruct Hs2 as (Hbp2 & Hcf2 & Hop2 & Hcl2 & Hopen2). rewrite Hcf2, Hcf.
  assert (Hall2 : all_regular (dir w2)).
  { intros q e He. rewrite Hd2 in He. case_if_in He; eauto; done. }
  assert (Hfin : forall w3, quiet w3 -> all_regular (dir w3) -> same_config w w3 ->
    old_data w3 = ""%string ->
    (2 <= MaxFiles (cfg w) -> dir w3 !! archiveName (basePath w) 1 = dir w !! basePath w) ->
    (forall j, 1 <= j < MaxFiles (cfg w) - 1 ->
       dir w3 !! archiveName (basePath w) (j + 1) = dir w !! archiveName (basePath w) j) ->
    (forall n, MaxFiles (cfg w) <= n < two63 -> dir w3 !! archiveName (basePath w) n = None) ->
    (forall q, q <> basePath w -> archiveSuffix (basePath w) q = None -> dir w3 !! q = dir w !! q) ->
    let '(e, w') := openBaseLocked w3 in
    e = None /\ same_config w w' /\ open w' = true /\ rotated w (dir w')).
  { intros w3 Hq3 Hall3 (Hb3 & Hc3 & Ho3 & Hl3) Hold H1 H2 H3 H4.
    pose proof (openBase_spec w3 Hq3 Hall3) as Ho. destruct (openBaseLocked w3) as [e w4].
    destruct Ho as (-> & (Hb4 & Hc4 & Ho4 & Hl4) & Hop4 & _ & Hbase & Hoth).
    rewrite Hb3 in *. rewrite Hold in Hbase.
    assert (Hnb : forall k, archiveName (basePath w) k <> basePath w) by (intros; apply archiveName_base).
    split; [done|]. split; [repeat split; congruence|]. split; [done|].
    unfold rotated. split; [done|]. split; [intros; rewrite Hoth by apply Hnb; auto|].
    split; [intros; rewrite Hoth by apply Hnb; auto|].
    split; [intros; rewrite Hoth by apply Hnb; auto|intros; rewrite Hoth by done; auto]. }
  assert (Hgone : forall n, MaxFiles (cfg w) <= n < two63 ->
            dir w2 !! archiveName (basePath w) n = None).
  { intros n Hn. rewrite Hd2, surplus_slot by lia. destruct (Z.leb_spec (MaxFiles (cfg w)) n); [done|lia]. }
  assert (Hkeep : forall j, 1 <= j < MaxFiles (cfg w) ->
            dir w2 !! archiveName (basePath w) j = dir w !! archiveName (basePath w) j).
  { intros j Hj. rewrite Hd2, surplus_slot by lia. destruct (Z.leb_spec (MaxFiles (cfg w)) j); [lia|done]. }
  assert (Hother : forall q, archiveSuffix (basePath w) q = None -> dir w2 !! q = dir w !! q).
  { intros q Hn. rewrite Hd2. unfold surplus. by rewrite Hn. }
  assert (Hbase2 : dir w2 !! basePath w = dir w !! basePath w) by by rewrite Hd2, surplus_base.
  destruct (Z.leb_spec (MaxFiles (cfg w)) 1) as [Hle|Hgt].
  - unfold ReplaceEmpty, answer. rewrite Hq2. simpl.
    assert (Hnb : forall k, archiveName (basePath w) k <> basePath w2).
    { intros k He. rewrite Hbp2, Hbp in He. by apply archiveName_base in He. }
    assert (Hbw : basePath w2 = basePath w) by congruence.
    apply Hfin.
    + exact Hq2.
    + intros q e Hx. simpl in Hx. apply lookup_insert_Some in Hx as [[_ <-]|[_ Hx]]; eauto.
    + split; simpl; [congruence|]. split; [congruence|]. split; congruence.
    + unfold old_data. simpl. by rewrite lookup_insert_eq.
    + lia.
    + lia.
    + intros n Hn. simpl. rewrite lookup_insert_ne by (intros He; symmetry in He; by apply Hnb in He). auto.
    + intros q Hne Hn. simpl. rewrite lookup_insert_ne by congruence. auto.
  - pose proof (shift_spec (MaxFiles (cfg w)) w2 Hq2 Hall2 ltac:(lia)) as Hsh.
    destruct (shiftLocked (MaxFiles (cfg w)) w2) as [e w3].
    destruct Hsh as (-> & Hs3 & Hall3 & Hb3 & H1 & Hmv & Hoth).
    assert (Hbw : basePath w2 = basePath w) by congruence. rewrite Hbw in *.
    assert (Hq3 : quiet w3) by by eapply quiet_same.
    destruct Hs3 as (Hbp3 & Hcf3 & Hop3 & Hcl3 & _).
    apply Hfin; auto.
    + repeat split; congruence.
    + unfold old_data. by rewrite Hbp3, Hbw, Hb3.
    + intros _. by rewrite H1.
    + intros j Hj. rewrite Hmv by lia. apply Hkeep. lia.
    + intros n Hn. rewrite Hoth; [by apply Hgone|apply archiveName_base|].
      intros j Hj He. apply archiveName_inj in He; lia.
    + intros q Hne Hn. rewrite Hoth; [auto|done|]. intros j Hj ->.
      rewrite archiveSuffix_Name in Hn by lia. done.
Qed.

(** ** Lemmas: any outcome of the file operations *)

(** Nothing but the base file and its archives changed, and no report was lost. *)
Definition tended (w w' : RotatingWriter) : Prop :=
  basePath w' = basePath w /\ cfg w' = cfg w /\
  (forall q, q <> basePath w -> archiveSuffix (basePath w) q = None -> dir w' !! q = dir w !! q) /\
  (forall c, c ∈ reports w -> c ∈ reports w').

Definition base_of (w : RotatingWriter) : option entry := dir w !! basePath w.

Lemma tended_refl (w : RotatingWriter) : tended w w.
Proof. by repeat split. Qed.

Lemma tended_trans (a b c : RotatingWriter) : tended a b -> tended b c -> tended a c.
Proof.
  intros (Hb1 & Hc1 & Hd1 & Hr1) (Hb2 & Hc2 & Hd2 & Hr2). rewrite Hb1 in *.
  split; [congruence|]. split; [congruence|]. split; [|auto]. intros q Hne Hs. by rewrite Hd2, Hd1.
Qed.

Lemma tended_report (c : FailureClass) (w : RotatingWriter) : tended w (report c w).
Proof. repeat split; auto. intros c' Hc. by right. Qed.

Lemma tended_dir (d : gmap string entry) (w : RotatingWriter) :
  (forall q, q <> basePath w -> archiveSuffix (basePath w) q = None -> d !! q = dir w !! q) -> tended w (set_dir d w).
Proof. by repeat split. Qed.

#[local] Hint Resolve tended_refl tended_report : core.

Lemma closeFile_any (w w' : RotatingWriter) (e : option error) :
  closeFile w = (e, w') -> tended w w' /\ dir w' = dir w /\ reports w' = reports w /\ open w' = false.
Proof.
  unfold closeFile. destruct (open w) eqn:Ho; intros [= <- <-]; [|by repeat split]. by repeat split.
Qed.

Lemma fs_Remove_any (name : string) (w w' : RotatingWriter) (e : option error) :
  fs_Remove name w = (e, w') -> archiveSuffix (basePath w) name <> None ->
  tended w w' /\ base_of w' = base_of w /\ dir w' = match e with None => delete name (dir w) | Some _ => dir w end.
Proof.
  unfold fs_Remove, base_of. intros Hr Hs. destruct (op_error (answer w)); injection Hr as <- <-; [by repeat split|].
  split; [|split; [|done]].
  - apply tended_dir. intros q _ Hq. rewrite lookup_delete_ne; [done|]. by intros ->.
  - cbn. rewrite lookup_delete_ne; [done|]. intros ->. pose proof (surplus_base (basePath w) 0) as Hb. unfold surplus in Hb.
    destruct (archiveSuffix (basePath w) (basePath w)) as [n|] eqn:Hn; [|done]. apply archiveSuffix_inv in Hn as [_ Hn].
    destruct (Z.leb_spec 0 n); [done|lia].
Qed.

Lemma slot_suffix (base : string) (n : Z) : 1 <= n < two63 -> archiveSuffix base (archiveName base n) <> None.
Proof. intros Hn. by rewrite archiveSuffix_Name. Qed.

Lemma converge_any (w w' : RotatingWriter) (e : option error) :
  convergeLocked w = (e, w') -> tended w w' /\ base_of w' = base_of w.
Proof.
  assert (Hloop : forall m l w, tended w (converge_loop m l w) /\ base_of (converge_loop m l w) = base_of w).
  { clear. intros m l. induction l as [|[name en] l IH]; intros w; cbn [converge_loop]; [done|].
    destruct (archiveSuffix (basePath w) name) as [n|] eqn:Hn; [|apply IH].
    case_if; [destruct (IH (report FailureCleanup w)) as [H1' H2']; split; [by eapply tended_trans|done]|].
    destruct (if n <? m then _ else _) as [err w1] eqn:Hop.
    assert (H1 : tended w w1 /\ base_of w1 = base_of w).
    { case_if_in Hop; [injection Hop as <- <-; by repeat split|]. apply fs_Remove_any in Hop as (? & ? & _); [done|by rewrite Hn]. }
    destruct H1 as [Ht1 Hb1]. destruct (IH (match err with Some _ => report FailureCleanup w1 | None => w1 end)) as [Ht2 Hb2].
    split; [|by rewrite Hb2; destruct err]. eapply tended_trans; [exact Ht1|]. eapply tended_trans; [|exact Ht2]. by destruct err. }
  unfold convergeLocked, ReadDir. destruct (op_error (answer w)); intros [= <- <-]; [by repeat split|].
  match goal with |- tended _ ?x /\ _ => destruct (Hloop (if MaxFiles (cfg w) <? 1 then 1 else MaxFiles (cfg w)) (map_to_list (dir w)) (set_dir (dir w) w)) as [H1 H2] end.
  split; [|exact H2]. eapply tended_trans; [|exact H1]. by apply tended_dir.
Qed.

(** One rename of the shift; [old] is an archive or the base file. *)
Lemma renameIfRegular_any (old new : string) (w w' : RotatingWriter) (e : option error) (l : gmap string entry) :
  renameIfRegular (dir w) old new w = (e, l, w') ->
  old <> new -> old = basePath w \/ archiveSuffix (basePath w) old <> None -> archiveSuffix (basePath w) new <> None ->
  tended w w' /\ dir w' = l /\
  (old <> basePath w -> base_of w' = base_of w) /\
  (old = basePath w ->
     base_of w' = base_of w /\ (e = None -> base_of w <> None -> FailureRotate ∈ reports w') \/
     e = None /\ base_of w' = None /\ dir w' !! new = base_of w).
Proof.
  intros Hr Hdiff Hold Hnew. assert (Hnb : new <> basePath w).
  { intros ->. pose proof (surplus_base (basePath w) 0) as Hb. unfold surplus in Hb.
    destruct (archiveSuffix (basePath w) (basePath w)) as [n|] eqn:Hn; [|done]. apply archiveSuffix_inv in Hn as [_ Hn].
    destruct (Z.leb_spec 0 n); [done|lia]. }
  assert (Hmv : forall w1 src, tended w w1 -> base_of w1 = base_of w -> dir w1 !! old = Some src ->
    (match fs_Rename old new w1 with
     | (Some e, w2) => (Some e, dir w1, w2)
     | (None, w2) => (None, <[new := src]> (delete old (dir w1)), w2)
     end) = (e, l, w') ->
    tended w w' /\ dir w' = l /\ (old <> basePath w -> base_of w' = base_of w) /\
    (old = basePath w ->
       base_of w' = base_of w /\ (e = None -> base_of w <> None -> FailureRotate ∈ reports w') \/
       e = None /\ base_of w' = None /\ dir w' !! new = base_of w)).
  { clear Hr. intros w1 src Ht Hb Hsrc. pose proof Ht as (Hbp & _). unfold fs_Rename. destruct (op_error (answer w1)).
    - intros [= <- <- <-]. split; [eapply tended_trans; [exact Ht|by apply tended_dir]|]. split; [done|]. by split; [|left].
    - rewrite Hsrc. intros [= <- <- <-]. split.
      { eapply tended_trans; [exact Ht|]. apply tended_dir. rewrite Hbp. intros q Hq Hs. rewrite lookup_insert_ne by (by intros ->).
        rewrite lookup_delete_ne; [done|]. intros ->. by destruct Hold. }
      split; [done|]. unfold base_of in *. cbn. rewrite Hbp in *. split.
      + intros Hne. by rewrite lookup_insert_ne, lookup_delete_ne.
      + intros ->. right. split; [done|]. split; [by rewrite lookup_insert_ne, lookup_delete_eq|].
        rewrite lookup_insert_eq. congruence. }
  assert (Hskip : forall w1, w1 = report FailureRotate w -> tended w w1 /\ dir w1 = dir w /\ (old <> basePath w -> base_of w1 = base_of w) /\
    (old = basePath w -> base_of w1 = base_of w /\ ((None : option error) = None -> base_of w <> None -> FailureRotate ∈ reports w1) \/
       (None : option error) = None /\ base_of w1 = None /\ dir w1 !! new = base_of w)).
  { intros w1 ->. split; [done|]. split; [done|]. split; [done|]. intros _. left. split; [done|]. intros _ _. by left. }
  unfold renameIfRegular in Hr. destruct (dir w !! old) as [src|] eqn:Hsrc.
  2:{ injection Hr as <- <- <-. split; [done|]. split; [done|]. split; [done|]. intros ->. left. split; [done|].
      intros _ Hne. by destruct Hne. }
  case_if_in Hr; [injection Hr as <- <- <-; exact (Hskip _ eq_refl)|].
  destruct (dir w !! new) as [dst|] eqn:Hdst; [|by eapply (Hmv w)].
  case_if_in Hr; [injection Hr as <- <- <-; exact (Hskip _ eq_refl)|].
  destruct (fs_Remove new w) as [err w1] eqn:Hrm. apply fs_Remove_any in Hrm as (Ht & Hb & Hd); [|done].
  destruct err as [err|].
  - injection Hr as <- <- <-. split; [done|]. split; [done|]. split; [done|]. intros _. by left.
  - rewrite <- Hd in Hr. eapply Hmv; eauto. by rewrite Hd, lookup_delete_ne.
Qed.

Lemma removeIfRegular_any (name : string) (w w' : RotatingWriter) (e : option error) (l : gmap string entry) :
  removeIfRegular (dir w) name w = (e, l, w') -> archiveSuffix (basePath w) name <> None ->
  tended w w' /\ dir w' = l /\ base_of w' = base_of w.
Proof.
  unfold removeIfRegular. intros Hr Hs. destruct (dir w !! name); [|by injection Hr as _ <- <-].
  case_if_in Hr; [by injection Hr as _ <- <-|]. destruct (fs_Remove name w) as [err w1] eqn:Hrm.
  apply fs_Remove_any in Hrm as (Ht & Hb & Hd); [|done]. by destruct err; injection Hr as _ <- <-.
Qed.

Lemma shift_loop_any (i : nat) (w w' : RotatingWriter) (e : option error) (l : gmap string entry) :
  shift_loop i (dir w) w = (e, l, w') -> Z.of_nat i + 1 < two63 ->
  tended w w' /\ dir w' = l /\ base_of w' = base_of w.
Proof.
  revert w. induction i as [|i IH]; intros w Hr Hi; cbn [shift_loop] in Hr; [by injection Hr as _ <- <-|].
  destruct (renameIfRegular _ _ _ _) as [[err l1] w1] eqn:Hre.
  assert (Hne : archiveName (basePath w) (Z.of_nat (S i)) <> archiveName (basePath w) (Z.of_nat (S i) + 1))
    by (intros He; apply archiveName_inj in He; lia).
  apply renameIfRegular_any in Hre as (Ht & <- & Hb & _); [|done|right; apply slot_suffix; lia|apply slot_suffix; lia].
  specialize (Hb (archiveName_base _ _)). destruct err as [err|]; [by injection Hr as _ <- <-|].
  apply IH in Hr as (Ht2 & Hd2 & Hb2); [|lia]. split; [by eapply tended_trans|]. split; [done|congruence].
Qed.

(** The shift: the base file stays, or it becomes archive 1. *)
Lemma shift_any (maxFiles : Z) (w w' : RotatingWriter) (e : option error) :
  shiftLocked maxFiles w = (e, w') -> 2 <= maxFiles < two63 ->
  tended w w' /\
  (base_of w' = base_of w /\ (e = None -> base_of w <> None -> FailureRotate ∈ reports w') \/
   e = None /\ base_of w' = None /\ dir w' !! archiveName (basePath w) 1 = base_of w).
Proof.
  unfold shiftLocked, ReadDir. intros Hr Hm. destruct (op_error (answer w)).
  { injection Hr as <- <-. split; [by apply tended_dir|]. by left. }
  rewrite list_to_map_to_list in Hr. assert (Ht0 : tended w (set_dir (dir w) w)) by (by apply tended_dir).
  set (w0 := set_dir (dir w) w) in *.
  destruct (Z.leb_spec 1 (maxFiles - 1)); [|lia]. destruct (removeIfRegular _ _ w0) as [[err l1] w1] eqn:Hrm.
  apply (removeIfRegular_any _ w0) in Hrm as (Ht1 & <- & Hb1); [|apply slot_suffix; lia]. pose proof (tended_trans _ _ _ Ht0 Ht1) as Ht01.
  destruct err as [err|]; [injection Hr as <- <-; split; [done|by left]|].
  destruct (shift_loop _ _ w1) as [[err l2] w2] eqn:Hsh. apply shift_loop_any in Hsh as (Ht2 & <- & Hb2); [|lia].
  pose proof (tended_trans _ _ _ Ht01 Ht2) as Ht02. assert (Hb : base_of w2 = base_of w) by (rewrite Hb2, Hb1; done).
  destruct err as [err|]; [injection Hr as <- <-; split; [done|by left]|].
  destruct (renameIfRegular _ _ _ w2) as [[err l3] w3] eqn:Hre. injection Hr as <- <-. pose proof Ht02 as (Hbp & _).
  apply renameIfRegular_any in Hre as (Ht3 & _ & _ & Hbase);
    [|intros He; symmetry in He; by apply archiveName_base in He|by left|apply slot_suffix; unfold two63; lia].
  rewrite Hbp, Hb in Hbase. split; [by eapply tended_trans|]. by apply Hbase.
Qed.

(** Opening the base file creates it where it is missing. *)
Lemma openBase_any (w w' : RotatingWriter) (e : option error) :
  openBaseLocked w = (e, w') ->
  tended w w' /\ (forall q, q <> basePath w -> dir w' !! q = dir w !! q) /\
  match e with
  | None => base_of w' = Some (default (mkEntry true "") (base_of w)) /\ open w' = true
  | Some _ => base_of w' = base_of w /\ open w' = false
  end.
Proof.
  unfold openBaseLocked. destruct (closeFile w) as [err w1] eqn:Hc. apply closeFile_any in Hc as (Ht1 & Hd1 & _ & Ho1).
  pose proof Ht1 as (Hb1 & _). unfold base_of. destruct err as [err|]; [intros [= <- <-]; rewrite Hd1, Hb1; by split_and!|].
  unfold OpenAppend. destruct (op_error (answer w1)).
  { intros [= <- <-]. split; [eapply tended_trans; [exact Ht1|by apply tended_dir]|]. cbn. rewrite Hd1, Hb1. by split_and!. }
  rewrite Hb1, Hd1. destruct (dir w !! basePath w) as [en|] eqn:Hen; intros [= <- <-]; cbn; rewrite ?Hb1.
  - split; [eapply tended_trans; [exact Ht1|]; split; [done|]; split; [done|]; split; [|done]; intros q _ _; cbn; by rewrite Hd1|].
    split; [done|]. by rewrite Hen.
  - split.
    + eapply tended_trans; [exact Ht1|]. split; [done|]. split; [done|]. split; [|done]. cbn. intros q Hq _. rewrite Hb1 in Hq.
      by rewrite lookup_insert_ne, Hd1.
    + split; [intros q Hq; by rewrite lookup_insert_ne|]. by rewrite lookup_insert_eq.
Qed.

(** A rotation: the base file stays, which is an error or is reported, or it was
    emptied, being archive 1 where archives are kept. *)
Lemma rotate_any (w w' : RotatingWriter) (e : option error) (en : entry) :
  rotateLocked w = (e, w') -> MaxFiles (cfg w) < two63 -> base_of w = Some en ->
  tended w w' /\
  (base_of w' = Some en /\ (e = None -> FailureRotate ∈ reports w') \/
   default (mkEntry true "") (base_of w') = mkEntry true "" /\
   (2 <= MaxFiles (cfg w) -> dir w' !! archiveName (basePath w) 1 = Some en)).
Proof.
  unfold rotateLocked. intros Hr Hm Hen. destruct (closeFile w) as [err w1] eqn:Hc.
  apply closeFile_any in Hc as (Ht1 & Hd1 & _ & Ho1). pose proof Ht1 as (Hb1 & Hc1 & _).
  assert (Hen1 : base_of w1 = Some en) by (unfold base_of in *; by rewrite Hd1, Hb1).
  destruct err as [err|]; [injection Hr as <- <-; split; [done|]; by left|].
  destruct (convergeLocked w1) as [err w2] eqn:Hcv. apply converge_any in Hcv as [Ht2 Hb2]. pose proof (tended_trans _ _ _ Ht1 Ht2) as Ht12.
  rewrite Hen1 in Hb2. destruct err as [err|]; [injection Hr as <- <-; split; [done|]; by left|].
  pose proof Ht12 as (Hbp & Hcf & _). rewrite Hcf in Hr.
  destruct (if MaxFiles (cfg w) <=? 1 then _ else _) as [err w3] eqn:Hs.
  assert (Hw3 : tended w2 w3 /\
    (base_of w3 = Some en /\ (err = None -> FailureRotate ∈ reports w3) \/
     default (mkEntry true "") (base_of w3) = mkEntry true "" /\
     (2 <= MaxFiles (cfg w) -> dir w3 !! archiveName (basePath w) 1 = Some en))).
  { destruct (Z.leb_spec (MaxFiles (cfg w)) 1) as [Hle|Hgt].
    - unfold ReplaceEmpty in Hs. destruct (op_error (answer w2)); injection Hs as <- <-; [split; [by apply tended_dir|by left]|].
      split; [apply tended_dir; intros q Hq _; by rewrite lookup_insert_ne|]. right. unfold base_of. cbn.
      rewrite lookup_insert_eq. split; [done|lia].
    - apply shift_any in Hs as [Ht3 Hb3]; [|lia]. split; [done|]. rewrite Hb2, Hbp in Hb3.
      destruct Hb3 as [[Hb3 Hrep]|(-> & Hb3 & Hone)]; [left; by split; [|intros He; apply Hrep]|right]. by rewrite Hb3. }
  destruct Hw3 as [Ht3 Hw3]. pose proof (tended_trans _ _ _ Ht12 Ht3) as Ht13.
  destruct err as [err|]; [injection Hr as <- <-; split; [done|]; by destruct Hw3 as [[? _]|?]; [left|right]|].
  apply openBase_any in Hr as (Ht4 & Hoth & Hb4). split; [by eapply tended_trans|]. pose proof Ht13 as (Hbp3 & _).
  destruct Ht4 as (_ & _ & _ & Hrep4). destruct Hw3 as [[Hw3 Hrep]|[Hw3 Hone]]; [left|right].
  - rewrite Hw3 in Hb4. split; [by destruct e; destruct Hb4|auto].
  - split; [destruct e; destruct Hb4 as [-> _]; done|]. intros Hge. rewrite Hoth, Hone; [done|done|].
    rewrite Hbp3. apply archiveName_base.
Qed.

(** The end of [Write]: the record goes to the base file, which is closed. *)
Lemma append_any (p : string) (w w' : RotatingWriter) (n : nat) (x : option error) :
  (let '(n, err, w) := file_Write p w in
   let err := match err with
              | None => if (n =? String.length p)%nat then None else Some (EText "short write")
              | Some _ => err
              end in
   let '(ce, w) := closeFile w in
   match errors_Join err ce with
   | Some e => (n, Some e, report FailureWrite w)
   | None => (n, None, w)
   end) = (n, x, w') ->
  tended w w' /\ (forall q, q <> basePath w -> dir w' !! q = dir w !! q) /\
  (x = None -> n = String.length p /\ base_of w' = Some (mkEntry true (old_data w ++ p))).
Proof.
  unfold file_Write. cbv zeta. fold (old_data w). intros Hr. set (m := match op_written (answer w) with Some _ => _ | None => _ end) in *.
  set (w1 := set_dir _ w) in *. destruct (closeFile w1) as [ce w2] eqn:Hc. apply closeFile_any in Hc as (Ht2 & Hd2 & _ & _).
  assert (Hoth : forall q, q <> basePath w -> dir w1 !! q = dir w !! q) by (intros q Hq; cbn; by rewrite lookup_insert_ne).
  assert (Ht1 : tended w w1) by (apply tended_dir; intros q Hq _; by rewrite lookup_insert_ne).
  pose proof (tended_trans _ _ _ Ht1 Ht2) as Ht. pose proof Ht as (Hbp & _).
  destruct (errors_Join _ ce) as [y|] eqn:Hj; injection Hr as <- <- <-.
  - split; [by eapply tended_trans|]. split; [|done]. intros q Hq. cbn. by rewrite Hd2, Hoth.
  - split; [done|]. split; [intros q Hq; by rewrite Hd2, Hoth|]. intros _. destruct (op_error (answer w)); [by destruct ce|].
    destruct (Nat.eqb_spec m (String.length p)) as [Hm|]; [|by destruct ce]. split; [done|].
    unfold base_of. rewrite Hd2, Hbp. cbn. rewrite lookup_insert_eq, Hm, take_all. done.
Qed.

(** What is in the base file and in archive 1 after a record was accepted. *)
Definition accepted (p : string) (w w' : RotatingWriter) : Prop :=
  let fits := len (old_data w) + len p <= MaxSizeBytes (cfg w) in
  dir w' !! basePath w = Some (mkEntry true (old_data w ++ p)) /\ (fits \/ FailureRotate ∈ reports w') \/
  dir w' !! basePath w = Some (mkEntry true p) /\ ~ fits /\
  (2 <= MaxFiles (cfg w) -> exists e, dir w' !! archiveName (basePath w) 1 = Some e /\ data e = old_data w).

(** The same after the lock is taken and the base file is open. *)
Lemma append_accepted (p : string) (w w1 w' : RotatingWriter) (n : nat) (x : option error) :
  tended w w1 -> tended w1 w' -> (forall q, q <> basePath w1 -> dir w' !! q = dir w1 !! q) ->
  (x = None -> n = String.length p /\ base_of w' = Some (mkEntry true (old_data w1 ++ p))) ->
  old_data w1 = old_data w /\ (len (old_data w) + len p <= MaxSizeBytes (cfg w) \/ FailureRotate ∈ reports w1) \/
  old_data w1 = ""%string /\ ~ len (old_data w) + len p <= MaxSizeBytes (cfg w) /\
  (2 <= MaxFiles (cfg w) -> exists e, dir w1 !! archiveName (basePath w) 1 = Some e /\ data e = old_data w) ->
  tended w w' /\ (x = None -> n = String.length p /\ accepted p w w').
Proof.
  intros Ht1 Ht2 Hoth Happ Hold. pose proof (tended_trans _ _ _ Ht1 Ht2) as Ht. split; [done|]. intros Hx.
  destruct (Happ Hx) as [Hn Hb]. split; [done|]. destruct Ht as (Hbp & _), Ht1 as (Hbp1 & _), Ht2 as (_ & _ & _ & Hrep).
  unfold base_of in Hb. rewrite Hbp in Hb. unfold accepted. destruct Hold as [[Ho Hf]|(Ho & Hf & Hone)]; rewrite Ho in Hb; [left|right].
  - split; [done|]. destruct Hf; auto.
  - split; [done|]. split; [done|]. intros Hge. destruct (Hone Hge) as (e & He & Hd). exists e. split; [|done].
    rewrite Hoth; [done|]. rewrite Hbp1. apply archiveName_base.
Qed.

(** A write, whatever the lock and the file operations answer. *)
Lemma Write_any (lockErr unlockErr : option error) (p : string) (w w' : RotatingWriter) (n : nat) (x : option error) :
  Write lockErr unlockErr p w = (n, x, w') ->
  MaxFiles (cfg w) < two63 -> - two63 <= MaxSizeBytes (cfg w) < two63 -> len (old_data w) < two63 -> len p < two63 ->
  tended w w' /\ (x = None -> n = String.length p /\ accepted p w w').
Proof.
  intros Hr Hm Hs Hold Hp. unfold Write in Hr. destruct (closed w); [by injection Hr as <- <- <-|].
  destruct lockErr as [e|]; [injection Hr as <- <- <-; split; [|done]; by repeat split; auto; intros c Hc; right|].
  cbv zeta in Hr. match type of Hr with (match ?b with _ => _ end) = _ => destruct b as [[n0 x0] w0] eqn:Hb end.
  assert (Hw0 : tended w w0 /\ (x0 = None -> n0 = String.length p /\ accepted p w w0)).
  2:{ destruct Hw0 as [Ht Ha]. destruct unlockErr as [u|]; injection Hr as <- <- <-; [|done].
      split; [by eapply tended_trans|]. by destruct x0. }
  cbv beta in Hb. clear Hr w' n x unlockErr. rename n0 into n, x0 into x, w0 into w'.
  destruct (openBaseLocked w) as [e w1] eqn:Ho. apply openBase_any in Ho as (Ht1 & Hoth1 & Hb1).
  destruct e as [e|]; [injection Hb as <- <- <-; split; [by eapply tended_trans|done]|]. destruct Hb1 as [Hb1 _].
  pose proof Ht1 as (Hbp & Hcf & _). set (w2 := set_dir (dir w1) w1) in *.
  assert (Ht2 : tended w w2) by (eapply tended_trans; [exact Ht1|by apply tended_dir]).
  destruct (op_error (answer w1)).
  { destruct (closeFile w2) as [ce w3] eqn:Hc. apply closeFile_any in Hc as (Ht3 & _). injection Hb as <- <- <-.
    split; [|by destruct ce]. eapply tended_trans; [exact Ht2|]. by eapply tended_trans. }
  assert (Hbase : exists en, base_of w2 = Some en /\ data en = old_data w).
  { change (base_of w2) with (base_of w1). rewrite Hb1. eexists. split; [done|]. unfold old_data, base_of. by destruct (dir w !! basePath w). }
  destruct Hbase as (en & Hen & Hdata). assert (Hold2 : old_data w2 = old_data w) by (unfold old_data, base_of in *; by rewrite Hen).
  unfold base_of in Hen. rewrite Hen in Hb. rewrite Hdata in Hb. change (cfg w2) with (cfg w1) in Hb. rewrite Hcf in Hb.
  pose proof (needRotate_spec (len (old_data w)) (len p) (MaxSizeBytes (cfg w))
                ltac:(pose proof (len_nonneg (old_data w)); lia) ltac:(pose proof (len_nonneg p); lia) Hs) as Hn.
  destruct (needRotate _ _ _).
  2:{ apply append_any in Hb as (Ht3 & Hoth3 & Happ). eapply append_accepted; eauto. left. split; [done|]. left. by apply Hn. }
  assert (Hbig : ~ len (old_data w) + len p <= MaxSizeBytes (cfg w)) by (intros Hle; by apply Hn in Hle).
  destruct (rotateLocked w2) as [rerr w3] eqn:Hrot.
  apply (rotate_any w2 w3 rerr en) in Hrot as [Ht3 Hw3]; [|by change (cfg w2) with (cfg w1); rewrite Hcf|done].
  pose proof (tended_trans _ _ _ Ht2 Ht3) as Ht23. pose proof Ht23 as (Hbp3 & _).
  change (cfg w2) with (cfg w1) in Hw3. change (basePath w2) with (basePath w1) in Hw3. rewrite Hcf, Hbp in Hw3.
  set (w4 := match rerr with None => w3 | Some _ => report FailureRotate w3 end).
  assert (Hw4 : tended w w4 /\
    (old_data w4 = old_data w /\ FailureRotate ∈ reports w4 \/
     old_data w4 = ""%string /\ (2 <= MaxFiles (cfg w) -> exists e, dir w4 !! archiveName (basePath w) 1 = Some e /\ data e = old_data w))).
  { split; [subst w4; destruct rerr; [by eapply tended_trans|done]|].
    assert (Hd : old_data w4 = data (default (mkEntry true "") (base_of w3))).
    { unfold base_of, old_data. subst w4. destruct rerr; cbn; by destruct (dir w3 !! basePath w3). }
    destruct Hw3 as [[Hk Hrep]|[Hk Hone]]; rewrite Hd, Hk; [left|right]; (split; [done|]).
    - subst w4. destruct rerr; [by left|auto].
    - intros Hge. exists en. split; [|done]. subst w4. destruct rerr; exact (Hone Hge). }
  assert (Hfin : forall w5, tended w w5 ->
    old_data w5 = old_data w /\ FailureRotate ∈ reports w5 \/
     old_data w5 = ""%string /\ (2 <= MaxFiles (cfg w) -> exists e, dir w5 !! archiveName (basePath w) 1 = Some e /\ data e = old_data w) ->
    tended w5 w' /\ (forall q, q <> basePath w5 -> dir w' !! q = dir w5 !! q) /\
    (x = None -> n = String.length p /\ base_of w' = Some (mkEntry true (old_data w5 ++ p))) ->
    tended w w' /\ (x = None -> n = String.length p /\ accepted p w w')).
  { intros w5 Ht5 Hd5 (Ht6 & Ho6 & Ha6). eapply (append_accepted p w w5 w'); eauto. destruct Hd5 as [[? ?]|[? ?]]; auto. }
  destruct Hw4 as [Ht4 Hd4]. destruct rerr as [rerr|]; [|apply (Hfin w4); [done|done|by apply append_any in Hb]].
  change (open w3) with (open w4) in Hb. fold w4 in Hb. destruct (open w4); [apply (Hfin w4); [done|done|by apply append_any in Hb]|].
  destruct (openBaseLocked w4) as [e w5] eqn:Ho. apply openBase_any in Ho as (Ht5 & Hoth5 & Hb5).
  pose proof (tended_trans _ _ _ Ht4 Ht5) as Ht45. destruct e as [e|]; [injection Hb as <- <- <-; split; [by eapply tended_trans|done]|].
  destruct Hb5 as [Hb5 _]. apply (Hfin w5); [done| |by apply append_any in Hb].
  assert (Hd5 : old_data w5 = old_data w4).
  { unfold old_data. fold (base_of w5) (base_of w4). rewrite Hb5. by destruct (base_of w4). }
  rewrite Hd5. destruct Ht5 as (_ & _ & _ & Hrep5), Ht4 as (Hbp4 & _). destruct Hd4 as [[Hd4 Hrep]|[Hd4 Hone]]; [left|right]; (split; [done|auto]).
  intros Hge. rewrite Hoth5; [by apply Hone|]. rewrite Hbp4. apply archiveName_base.
Qed.

(** Writing to the open base file and closing it. *)
Lemma write_open_spec (p : string) (w : RotatingWriter) (old : string) :
  quiet w -> dir w !! basePath w = Some (mkEntry true old) ->
  let '(n, err, w1) := file_Write p w in
  let '(ce, w2) := closeFile w1 in
  n = String.length p /\ err = None /\ ce = None /\
  dir w2 !! basePath w = Some (mkEntry true (old ++ p)%string) /\
  (forall q, q <> basePath w -> dir w2 !! q = dir w !! q).
Proof.
  intros Hq Hb. unfold file_Write, closeFile, answer. simpl. rewrite !Hq. simpl. rewrite Hb. simpl.
  rewrite take_all. destruct (open w); simpl; rewrite ?Hq; simpl; repeat (split; [done|]);
    (split; [apply lookup_insert_eq|]; intros q Hne; by rewrite lookup_insert_ne).
Qed.

(** ** Theorems *)

(** Archive names: the suffix read from a name is the number it was built
    with, and only names built that way have a suffix; so no foreign file is ever
    taken for an archive, and different archives have different names. *)
Theorem archive_names_roundtrip (base name : string) (n : Z) :
  (1 <= n < two63 -> archiveSuffix base (archiveName base n) = Some n) /\
  (archiveSuffix base name = Some n -> name = archiveName base n /\ 1 <= n).
Proof. split; [apply archiveSuffix_Name|apply archiveSuffix_inv]. Qed.

(** A write on a log directory of regular files without failures. *)
Lemma Write_quiet (p : string) (w : RotatingWriter) :
  let slot k := archiveName (basePath w) k in
  quiet w -> closed w = false -> all_regular (dir w) ->
  1 <= MaxFiles (cfg w) < two63 -> - two63 <= MaxSizeBytes (cfg w) < two63 ->
  len (old_data w) < two63 -> len p < two63 ->
  let '(n, err, w') := Write None None p w in
  n = String.length p /\ err = None /\
  if len (old_data w) + len p <=? MaxSizeBytes (cfg w) then
    dir w' !! basePath w = Some (mkEntry true (old_data w ++ p)%string) /\
    (forall q, q <> basePath w -> dir w' !! q = dir w !! q)
  else
    dir w' !! basePath w = Some (mkEntry true p) /\
    (2 <= MaxFiles (cfg w) -> dir w' !! slot 1 = Some (mkEntry true (old_data w))) /\
    (forall j, 1 <= j < MaxFiles (cfg w) - 1 -> dir w' !! slot (j + 1) = dir w !! slot j) /\
    (forall n, MaxFiles (cfg w) <= n < two63 -> dir w' !! slot n = None) /\
    (forall q, q <> basePath w -> archiveSuffix (basePath w) q = None -> dir w' !! q = dir w !! q).
Proof.
  intros slot Hq Hcl Hall Hm Hs Hold Hp. unfold Write. rewrite Hcl.
  pose proof (openBase_spec w Hq Hall) as Ho. destruct (openBaseLocked w) as [e w1].
  destruct Ho as (-> & (Hb1 & Hc1 & Ho1 & Hl1) & Hop1 & Hall1 & Hbase1 & Hoth1).
  assert (Hq1 : quiet w1) by (intros k; rewrite Ho1; apply Hq).
  unfold answer at 1. rewrite Hq1. simpl op_error. cbv iota. set (w2 := set_dir (dir w1) w1).
  change (basePath w2) with (basePath w1). change (cfg w2) with (cfg w1).
  change (dir w2) with (dir w1). rewrite Hb1, Hc1, Hbase1. simpl data.
  pose proof (needRotate_spec (len (old_data w)) (len p) (MaxSizeBytes (cfg w))
                ltac:(unfold len in *; lia) ltac:(unfold len in *; lia) Hs) as Hn.
  destruct (needRotate _ _ _) eqn:Hnr.
  - assert (Hrot : (len (old_data w) + len p <=? MaxSizeBytes (cfg w)) = false).
    { apply Z.leb_gt. destruct (Z.le_gt_cases (len (old_data w) + len p) (MaxSizeBytes (cfg w)))
        as [Hle|]; [|lia]. by apply Hn in Hle. }
    rewrite Hrot.
    pose proof (rotate_spec w2 Hq1 Hall1 ltac:(simpl; rewrite Hc1; lia)) as Hr.
    destruct (rotateLocked w2) as [e w3]. destruct Hr as (-> & (Hb3 & Hc3 & Ho3 & _) & _ & Hr).
    unfold rotated in Hr. simpl in Hr. rewrite Hb1, Hc1, Hbase1 in Hr.
    destruct Hr as (Hb & H1 & H2 & H3 & H4). change (basePath w2) with (basePath w1) in Hb3.
    assert (Hbw : basePath w3 = basePath w) by congruence.
    pose proof (write_open_spec p w3 "" ltac:(intros k; rewrite Ho3; apply Hq1)) as Hw.
    rewrite Hbw in Hw. specialize (Hw Hb).
    destruct (file_Write p w3) as [[n err] w4]. destruct (closeFile w4) as [ce w5].
    destruct Hw as (-> & -> & -> & Hbase5 & Hoth5). rewrite Nat.eqb_refl. simpl.
    split; [done|]. split; [done|]. split; [done|].
    assert (Hnb : forall k, slot k <> basePath w) by (intros; apply archiveName_base).
    split; [intros; rewrite Hoth5 by apply Hnb; auto|].
    split; [intros; unfold slot; rewrite Hoth5, H2, Hoth1 by (done || apply Hnb); done|].
    split; [intros; rewrite Hoth5 by apply Hnb; auto|].
    intros q Hne Hsuf. rewrite Hoth5, H4, Hoth1 by done. done.
  - assert (Hfit : (len (old_data w) + len p <=? MaxSizeBytes (cfg w)) = true).
    { apply Z.leb_le. by apply Hn. }
    rewrite Hfit.
    pose proof (write_open_spec p w2 (old_data w) Hq1) as Hw.
    change (basePath w2) with (basePath w1) in Hw. change (dir w2) with (dir w1) in Hw. rewrite Hb1 in Hw.
    specialize (Hw Hbase1). destruct (file_Write p w2) as [[n err] w4].
    destruct (closeFile w4) as [ce w5].
    destruct Hw as (-> & -> & -> & Hbase5 & Hoth5). rewrite Nat.eqb_refl. simpl.
    split; [done|]. split; [done|]. split; [done|].
    intros q Hne. rewrite Hoth5, Hoth1 by done. done.
Qed.

(** C18. A write to the log, whatever the lock and every file operation answer, never
    touches a file that is neither the base file nor an archive of it.  When it
    reports no error, the whole record is at the end of the base file: after the
    previous content, if the record fits or a failed rotation was reported, or alone
    in a new file, if it does not fit, and then archive 1 holds the previous content
    where archives are kept.  Where no operation fails and all files are regular, it
    reports no error, a record that fits is appended, and one that does not fit
    starts a new file after every archive moved up by one and nothing beyond the
    retention limit is left.  Overflow of the 64-bit sizes never makes a record that
    does not fit be taken for one that does. *)
Theorem write_appends_or_rotates (lockErr unlockErr : option error) (p : string) (w : RotatingWriter) :
  let slot k := archiveName (basePath w) k in
  let fits := len (old_data w) + len p <= MaxSizeBytes (cfg w) in
  1 <= MaxFiles (cfg w) < two63 -> - two63 <= MaxSizeBytes (cfg w) < two63 ->
  len (old_data w) < two63 -> len p < two63 ->
  let '(n, err, w') := Write lockErr unlockErr p w in
  (forall q, q <> basePath w -> archiveSuffix (basePath w) q = None -> dir w' !! q = dir w !! q) /\
  (err = None ->
     n = String.length p /\
     (dir w' !! basePath w = Some (mkEntry true (old_data w ++ p)) /\ (fits \/ FailureRotate ∈ reports w') \/
      dir w' !! basePath w = Some (mkEntry true p) /\ ~ fits /\
      (2 <= MaxFiles (cfg w) -> exists e, dir w' !! slot 1 = Some e /\ data e = old_data w))) /\
  (lockErr = None -> unlockErr = None -> quiet w -> closed w = false -> all_regular (dir w) ->
     err = None /\
     if decide fits then
       dir w' !! basePath w = Some (mkEntry true (old_data w ++ p)) /\
       (forall q, q <> basePath w -> dir w' !! q = dir w !! q)
     else
       dir w' !! basePath w = Some (mkEntry true p) /\
       (2 <= MaxFiles (cfg w) -> dir w' !! slot 1 = Some (mkEntry true (old_data w))) /\
       (forall j, 1 <= j < MaxFiles (cfg w) - 1 -> dir w' !! slot (j + 1) = dir w !! slot j) /\
       (forall m, MaxFiles (cfg w) <= m < two63 -> dir w' !! slot m = None)).
Proof.
  intros slot fits Hm Hs Hold Hp. destruct (Write lockErr unlockErr p w) as [[n err] w'] eqn:Hw.
  destruct (Write_any _ _ _ _ _ _ _ Hw) as [(_ & _ & Hoth & _) Hacc]; [lia|done|done|done|].
  split; [exact Hoth|]. split; [exact Hacc|]. intros -> -> Hq Hcl Hall.
  pose proof (Write_quiet p w Hq Hcl Hall Hm Hs Hold Hp) as Hquiet. rewrite Hw in Hquiet.
  destruct Hquiet as (_ & -> & Hquiet). split; [done|]. subst fits.
  destruct (Z.leb_spec (len (old_data w) + len p) (MaxSizeBytes (cfg w))); case_decide; try lia; [done|].
  by destruct Hquiet as (? & ? & ? & ? & _).
Qed.

(** ** Witnesses *)

Lemma archive_names_roundtrip_witness : archiveSuffix "mihari.log" "mihari.log.12" = Some 12.
Proof.
  apply (proj1 (archive_names_roundtrip "mihari.log" "mihari.log.12" 12)). unfold two63. lia.
Defined.

Definition example_writer : RotatingWriter :=
  mkWriter {[ "log"%string := mkEntry true "12345678"; "log.1"%string := mkEntry true "older" ]} "log"
    (mkConfig 10 3) 0 false false (fun _ => mkOp None None) 0 [].

Lemma write_appends_or_rotates_witness :
  let '(_, _, w') := Write None None "abcd" example_writer in
  dir w' !! "log"%string = Some (mkEntry true "abcd") /\
  dir w' !! "log.1"%string = Some (mkEntry true "12345678") /\
  dir w' !! "log.2"%string = Some (mkEntry true "older").
Proof.
  pose proof (write_appends_or_rotates None None "abcd" example_writer) as H.
  destruct (Write None None "abcd" example_writer) as [[n err] w'].
  destruct H as (_ & _ & Hq); [unfold two63; simpl; lia|unfold two63; simpl; lia|reflexivity|reflexivity|].
  destruct Hq as (_ & Hb & H1 & H2 & _).
  - reflexivity.
  - reflexivity.
  - intros k. reflexivity.
  - reflexivity.
  - intros q e. unfold example_writer. simpl. rewrite lookup_insert_Some, lookup_singleton_Some.
    naive_solver.
  - split; [exact Hb|]. split; [apply H1; simpl; lia|]. apply (H2 1). simpl. lia.
Defined.
