(* ===== verification/History.v ===== *)
(** * History: the bounded diagnostic history of a process

    Models [internal/diagnostics/history.go] and the data of
    [internal/control/protocol/diagnostics.go] it returns. *)

From Stdlib Require Import Ascii Sorted.
From S2P Require Import Prelude GoStd.

Inductive DiagnosticState :=
| DiagnosticUnset
| DiagnosticAvailable
| DiagnosticReference
| DiagnosticUnsupported
| DiagnosticExpired
| DiagnosticUnknown
| DiagnosticRestarted
| DiagnosticUnavailable.

#[export] Instance DiagnosticState_eq_dec : EqDecision DiagnosticState.
Proof. solve_decision. Defined.

Definition state_text (s : DiagnosticState) : string :=
  match s with
  | DiagnosticUnset => ""
  | DiagnosticAvailable => "available"
  | DiagnosticReference => "reference"
  | DiagnosticUnsupported => "unsupported"
  | DiagnosticExpired => "expired"
  | DiagnosticUnknown => "unknown"
  | DiagnosticRestarted => "restarted"
  | DiagnosticUnavailable => "unavailable"
  end.

Record Diagnostic := mkDiagnostic {
  ID : string;
  InstanceID : string;
  Sequence : Z;
  Time : Z;
  Severity : string;
  Component : string;
  Event : string;
  OperationID : string;
  Operation : string;
  Object : string;
  Code : string;
  Summary : string;
  Detail : string;
  State : DiagnosticState;
  Truncated : bool;
  TruncationReason : string;
  RetrievalError : string
}.

(** [Diagnostic.Reference]. *)
Definition Reference (d : Diagnostic) : Diagnostic :=
  mkDiagnostic (ID d) (InstanceID d) (Sequence d) (Time d) (Severity d) (Component d) (Event d)
    (OperationID d) (Operation d) (Object d) (Code d) (Summary d) "" DiagnosticReference
    (Truncated d) (TruncationReason d) (RetrievalError d).

Record History := mkHistory {
  instanceID : string;
  maxRecords : Z;
  maxBytes : Z;
  sequence : Z;
  records : list Diagnostic;
  bytes : Z
}.

(** [NewHistory] with its instance identifier chosen. *)
Definition NewHistory (instance : string) (maxR maxB : Z) : History :=
  mkHistory instance (if maxR <=? 0 then 256 else maxR) (if maxB <=? 0 then 33554432 else maxB) 0 [] 0.

Definition diagnosticSize (d : Diagnostic) : Z :=
  len (ID d) + len (InstanceID d) + len (Severity d) + len (Component d) + len (Event d)
  + len (OperationID d) + len (Operation d) + len (Object d) + len (Code d) + len (Summary d)
  + len (Detail d) + len (state_text (State d)) + len (TruncationReason d) + len (RetrievalError d).

Definition occurrence_id (instance : string) (n : Z) : string :=
  (instance ++ ":" ++ Itoa n)%string.

(** The eviction loop of [Add]. *)
Fixpoint evict (maxR maxB : Z) (l : list Diagnostic) (b : Z) : list Diagnostic * Z :=
  match l with
  | [] => ([], b)
  | d :: l' =>
      if (maxR <? Z.of_nat (length l)) || (maxB <? b) then evict maxR maxB l' (b - diagnosticSize d)
      else (l, b)
  end.

(** The record as it is stored. *)
Definition stamped (h : History) (now : Z) (d : Diagnostic) : Diagnostic :=
  let n := uint64 (sequence h + 1) in
  mkDiagnostic (occurrence_id (instanceID h) n) (instanceID h) n
    (if Time d =? 0 then now else Time d)
    (Severity d) (Component d) (Event d) (OperationID d) (Operation d) (Object d) (Code d)
    (Summary d) (Detail d)
    (if bool_decide (State d = DiagnosticUnset) then DiagnosticAvailable else State d)
    (Truncated d) (TruncationReason d) (RetrievalError d).

(** The append and the eviction of [Add]. *)
Definition store (d : Diagnostic) (h : History) : History :=
  let '(l, b) := evict (maxRecords h) (maxBytes h) (records h ++ [d]) (bytes h + diagnosticSize d) in
  mkHistory (instanceID h) (maxRecords h) (maxBytes h) (Sequence d) l b.

Definition Add (now : Z) (d : Diagnostic) (h : History) : Diagnostic * History :=
  (stamped h now d, store (stamped h now d) h).

Record DiagnosticList := mkDiagnosticList {
  dl_InstanceID : string;
  dl_OldestSequence : Z;
  dl_LatestSequence : Z;
  dl_NextSequence : Z;
  dl_LostBefore : bool;
  dl_HasMore : bool;
  dl_Records : list Diagnostic;
  dl_State : DiagnosticState
}.

(** The loop of [List]: the records taken so far in reverse, the cursor and
    whether more remain. *)
Fixpoint list_loop (after limit : Z) (l : list Diagnostic) (acc : list Diagnostic) (next : Z)
    : list Diagnostic * Z * bool :=
  match l with
  | [] => (acc, next, false)
  | d :: l =>
      if Sequence d <=? after then list_loop after limit l acc next
      else if Z.of_nat (length acc) =? limit then (acc, next, true)
      else list_loop after limit l (acc ++ [Reference d]) (Sequence d)
  end.

Definition page_limit (limit : Z) : Z := if (limit <=? 0) || (100 <? limit) then 50 else limit.

Definition List_ (instance : string) (after limit : Z) (h : History) : DiagnosticList :=
  let limit := page_limit limit in
  let foreign := negb (String.eqb instance "") && negb (String.eqb instance (instanceID h)) in
  let state := if foreign then DiagnosticRestarted else DiagnosticAvailable in
  let after := if foreign then 0 else after in
  let oldest := match records h with d :: _ => Sequence d | [] => uint64 (sequence h + 1) end in
  let lost := (0 <? oldest) && (after <? oldest - 1) in
  let '(l, next, more) := list_loop after limit (records h) [] after in
  mkDiagnosticList (instanceID h) oldest (sequence h) next lost more l state.

(** [Get]: the state and, when available, the record. *)
Definition Get (id : string) (h : History) : DiagnosticState * option Diagnostic :=
  match Cut id ":" with
  | None => (DiagnosticUnknown, None)
  | Some (instance, number) =>
      if String.eqb instance "" then (DiagnosticUnknown, None)
      else match ParseUint 64 number with
      | None => (DiagnosticUnknown, None)
      | Some n =>
          if n =? 0 then (DiagnosticUnknown, None)
          else if negb (String.eqb instance (instanceID h)) then (DiagnosticRestarted, None)
          else match List.find (fun d => String.eqb (ID d) id) (records h) with
               | Some d => (DiagnosticAvailable, Some d)
               | None => if n <=? sequence h then (DiagnosticExpired, None) else (DiagnosticUnknown, None)
               end
      end
  end.

(** ** Lemmas: the ring *)

Definition total_size (l : list Diagnostic) : Z := fold_right Z.add 0 (map diagnosticSize l).

Lemma sum_snoc (l : list Z) (x : Z) : fold_right Z.add 0 (l ++ [x]) = fold_right Z.add 0 l + x.
Proof. induction l as [|y l IH]; simpl; [lia|]. rewrite IH. lia. Qed.

Lemma total_size_snoc (l : list Diagnostic) (d : Diagnostic) :
  total_size (l ++ [d]) = total_size l + diagnosticSize d.
Proof. unfold total_size. rewrite map_app. apply sum_snoc. Qed.

Lemma diagnosticSize_nonneg (d : Diagnostic) : 0 <= diagnosticSize d.
Proof. unfold diagnosticSize, len. lia. Qed.

(** The retained records are the latest ones, numbered without gaps, each with
    the identifier of its number, within both limits and accounted for. *)
Definition history_ok (h : History) : Prop :=
  0 < maxRecords h /\ 0 < maxBytes h /\ 0 <= sequence h < two64 /\
  map Sequence (records h)
    = seqZ (sequence h - Z.of_nat (length (records h)) + 1) (Z.of_nat (length (records h))) /\
  Z.of_nat (length (records h)) <= sequence h /\
  Forall (fun d => ID d = occurrence_id (instanceID h) (Sequence d) /\ InstanceID d = instanceID h)
    (records h) /\
  bytes h = total_size (records h) /\
  Z.of_nat (length (records h)) <= maxRecords h /\ bytes h <= maxBytes h.

Lemma evict_spec (maxR maxB : Z) (l : list Diagnostic) :
  0 <= maxR -> 0 <= maxB ->
  let '(l', b') := evict maxR maxB l (total_size l) in
  l' `suffix_of` l /\ b' = total_size l' /\ Z.of_nat (length l') <= maxR /\ b' <= maxB.
Proof.
  intros HR HB. induction l as [|d l IH]; [cbn; split; [done|lia]|].
  cbn [evict]. destruct (_ || _) eqn:E.
  - replace (total_size (d :: l) - diagnosticSize d) with (total_size l)
      by (unfold total_size; cbn [map fold_right]; lia).
    destruct (evict maxR maxB l (total_size l)) as [l' b']. destruct IH as (Hs & ?).
    split; [by apply suffix_cons_r|done].
  - breflect. split; [done|]. simpl length in *. split; [done|]. lia.
Qed.

Lemma seqZ_suffix (m n : Z) (l : list Diagnostic) (k : list Diagnostic) :
  0 <= n -> map Sequence (k ++ l) = seqZ m n ->
  map Sequence l = seqZ (m + n - Z.of_nat (length l)) (Z.of_nat (length l)).
Proof.
  revert m n. induction k as [|d k IH]; intros m n Hn Heq; simpl in *.
  - assert (Hlen : length (map Sequence l) = length (seqZ m n)) by by rewrite Heq.
    rewrite length_map, length_seqZ in Hlen. rewrite Heq. f_equal; lia.
  - destruct (decide (0 < n)).
    + rewrite seqZ_cons in Heq by lia. injection Heq as _ Heq.
      apply IH in Heq; [|lia]. rewrite Heq. f_equal. lia.
    + rewrite seqZ_nil in Heq by lia. done.
Qed.

Lemma stamped_identity (h : History) (now : Z) (d : Diagnostic) :
  Sequence (stamped h now d) = uint64 (sequence h + 1) /\
  ID (stamped h now d) = occurrence_id (instanceID h) (Sequence (stamped h now d)) /\
  InstanceID (stamped h now d) = instanceID h.
Proof. unfold stamped. cbv zeta. cbn [Sequence ID InstanceID]. split; [|split]; reflexivity. Qed.

Lemma store_ok (d' : Diagnostic) (h : History) :
  history_ok h -> sequence h + 1 < two64 -> Sequence d' = sequence h + 1 ->
  ID d' = occurrence_id (instanceID h) (Sequence d') -> InstanceID d' = instanceID h ->
  let h' := store d' h in
  history_ok h' /\ sequence h' = sequence h + 1 /\
  instanceID h' = instanceID h /\ maxRecords h' = maxRecords h /\ maxBytes h' = maxBytes h /\
  records h' `suffix_of` records h ++ [d'].
Proof.
  intros (HR & HB & Hseq & Hnum & Hle & Hids & Hbytes & Hlen & Hsize) Hlt Hd' Hid' Hin'. unfold store.
  pose proof (evict_spec (maxRecords h) (maxBytes h) (records h ++ [d']) ltac:(lia) ltac:(lia)) as He.
  rewrite total_size_snoc, <- Hbytes in He.
  destruct (evict _ _ _ _) as [l b]. destruct He as (Hsuf & Hb & Hl & Hbm).
  split; [|repeat split; done]. unfold history_ok.
  cbn [records sequence maxRecords maxBytes bytes instanceID]. rewrite Hd'.
  assert (Hall : map Sequence (records h ++ [d'])
            = seqZ (sequence h - Z.of_nat (length (records h)) + 1) (Z.of_nat (length (records h)) + 1)).
  { rewrite map_app, Hnum. change (map Sequence [d']) with [Sequence d']. rewrite Hd', seqZ_app by lia. f_equal.
    rewrite (seqZ_cons _ 1) by lia. simpl. f_equal. lia. }
  destruct Hsuf as [k Hk].
  assert (Hlen2 : (length l <= length (records h) + 1)%nat).
  { apply (f_equal length) in Hk. rewrite !length_app in Hk. simpl in Hk. lia. }
  split; [lia|]. split; [lia|]. split; [lia|]. split; [|split; [lia|split; [|done]]].
  - rewrite Hk in Hall. apply seqZ_suffix in Hall; [|lia]. rewrite Hall. f_equal. lia.
  - assert (Hf : Forall (fun x => ID x = occurrence_id (instanceID h) (Sequence x) /\
                                  InstanceID x = instanceID h) (records h ++ [d'])).
    { apply Forall_app. split; [done|]. apply Forall_singleton. done. }
    rewrite Hk in Hf. by apply Forall_app in Hf as [_ Hf].
Qed.

Lemma Add_ok (now : Z) (d : Diagnostic) (h : History) :
  history_ok h -> sequence h + 1 < two64 ->
  let '(d', h') := Add now d h in
  history_ok h' /\ sequence h' = sequence h + 1 /\ Sequence d' = sequence h + 1 /\
  instanceID h' = instanceID h /\ maxRecords h' = maxRecords h /\ maxBytes h' = maxBytes h /\
  records h' `suffix_of` records h ++ [d'].
Proof.
  intros Hok Hlt. unfold Add. destruct (stamped_identity h now d) as (Hd' & Hid' & Hin').
  rewrite uint64_id in Hd' by (destruct Hok as (_ & _ & Hseq & _); unfold in_uint64; lia).
  destruct (store_ok (stamped h now d) h Hok Hlt Hd' Hid' Hin') as (? & ? & ? & ? & ? & ?).
  repeat (split; [assumption|]). assumption.
Qed.

(** ** Lemmas: paging *)

Definition after_cursor (after : Z) (d : Diagnostic) : bool := after <? Sequence d.

(** The loop takes the first records behind the cursor, up to the limit. *)
Lemma list_loop_spec (after limit : Z) (l acc : list Diagnostic) (next : Z) :
  Z.of_nat (length acc) <= limit ->
  let rest := List.filter (after_cursor after) l in
  let room := Z.to_nat (limit - Z.of_nat (length acc)) in
  list_loop after limit l acc next =
    (acc ++ map Reference (firstn room rest),
     match last (firstn room rest) with Some d => Sequence d | None => next end,
     (room <? length rest)%nat).
Proof.
  revert acc next. induction l as [|d l IH]; intros acc next Hacc; cbn [list_loop].
  { simpl. rewrite firstn_nil. simpl. by rewrite app_nil_r. }
  destruct (Z.leb_spec (Sequence d) after) as [Hle|Hgt].
  { assert (Hc : after_cursor after d = false) by (apply Z.ltb_ge; exact Hle).
    cbn [List.filter]. rewrite Hc. apply IH. exact Hacc. }
  assert (Hc : after_cursor after d = true) by (apply Z.ltb_lt; exact Hgt).
  cbn [List.filter]. rewrite Hc.
  destruct (Z.eqb_spec (Z.of_nat (length acc)) limit) as [Heq|Hne].
  - rewrite <- Heq, Z.sub_diag. cbn. by rewrite app_nil_r.
  - rewrite IH by (rewrite length_app; cbn; lia). rewrite length_app. cbn [length].
    replace (Z.to_nat (limit - Z.of_nat (length acc)))
      with (S (Z.to_nat (limit - Z.of_nat (length acc + 1)))) by lia.
    cbn [firstn map]. rewrite <- app_assoc. cbn [app]. f_equal. f_equal.
    rewrite last_cons. destruct (last (firstn _ _)); reflexivity.
Qed.

(** In a list with increasing numbers the records behind the last one of a
    prefix are the remaining ones. *)
Lemma filter_behind (l1 l2 : list Diagnostic) (d : Diagnostic) :
  StronglySorted Z.lt (map Sequence (l1 ++ d :: l2)) ->
  List.filter (after_cursor (Sequence d)) (l1 ++ d :: l2) = l2.
Proof.
  induction l1 as [|x l1 IH]; simpl; intros Hs; apply StronglySorted_inv in Hs as [Hs Hall].
  - unfold after_cursor at 1. destruct (Z.ltb_spec (Sequence d) (Sequence d)); [lia|].
    clear Hs. induction l2 as [|y l2 IH2]; [done|]. simpl in *. apply Forall_cons in Hall as [Hy Hall].
    unfold after_cursor at 1. destruct (Z.ltb_spec (Sequence d) (Sequence y)); [|lia].
    f_equal. by apply IH2.
  - rewrite map_app in Hall. apply Forall_app in Hall as [_ Hall]. simpl in Hall.
    apply Forall_cons in Hall as [Hx _].
    unfold after_cursor at 1. destruct (Z.ltb_spec (Sequence d) (Sequence x)); [lia|]. by apply IH.
Qed.

Lemma seqZ_sorted (k : nat) (m : Z) : StronglySorted Z.lt (seqZ m (Z.of_nat k)).
Proof.
  revert m. induction k as [|k IH]; intros m; [constructor|].
  rewrite seqZ_cons by lia. constructor.
  - replace (Z.pred (Z.of_nat (S k))) with (Z.of_nat k) by lia. apply IH.
  - apply Forall_forall. intros x Hx. apply elem_of_seqZ in Hx. lia.
Qed.

Lemma filter_filter_later (a b : Z) (l : list Diagnostic) :
  a <= b -> List.filter (after_cursor b) (List.filter (after_cursor a) l) = List.filter (after_cursor b) l.
Proof.
  intros Hab. induction l as [|d l IH]; [done|]. cbn [List.filter].
  destruct (after_cursor a d) eqn:Ha; cbn [List.filter]; [by rewrite IH|].
  assert (Hb : after_cursor b d = false) by (unfold after_cursor in *; breflect; lia).
  by rewrite Hb.
Qed.

Lemma filter_sorted (f : Diagnostic -> bool) (l : list Diagnostic) :
  StronglySorted Z.lt (map Sequence l) -> StronglySorted Z.lt (map Sequence (List.filter f l)).
Proof.
  induction l as [|d l IH]; simpl; intros Hs; [done|]. apply StronglySorted_inv in Hs as [Hs Hall].
  destruct (f d); [|by apply IH]. simpl. constructor; [by apply IH|].
  apply Forall_forall. intros x Hx. rewrite Forall_forall in Hall. apply Hall.
  apply list_elem_of_In, in_map_iff in Hx as (y & <- & Hy). apply filter_In in Hy as [Hy _].
  by apply list_elem_of_In, in_map.
Qed.

(** A client that follows the cursor of each page. *)
Fixpoint follow (fuel : nat) (instance : string) (after limit : Z) (h : History) : list Diagnostic :=
  match fuel with
  | O => []
  | S fuel =>
      let page := List_ instance after limit h in
      dl_Records page ++
      if dl_HasMore page then follow fuel (dl_InstanceID page) (dl_NextSequence page) limit h else []
  end.

Lemma List_own (instance : string) (after limit : Z) (h : History) :
  instance = ""%string \/ instance = instanceID h ->
  let page := List_ instance after limit h in
  let rest := List.filter (after_cursor after) (records h) in
  let n := Z.to_nat (page_limit limit) in
  dl_Records page = map Reference (firstn n rest) /\
  dl_NextSequence page = match last (firstn n rest) with Some d => Sequence d | None => after end /\
  dl_HasMore page = (n <? length rest)%nat /\ dl_InstanceID page = instanceID h.
Proof.
  intros Hi. unfold List_.
  assert (Hf : negb (String.eqb instance "") && negb (String.eqb instance (instanceID h)) = false).
  { destruct Hi as [->| ->]; [done|]. rewrite String.eqb_refl. by rewrite andb_false_r. }
  rewrite Hf. rewrite list_loop_spec.
  - simpl. rewrite Z.sub_0_r. done.
  - simpl. unfold page_limit. destruct (Z.leb_spec limit 0); simpl; [lia|].
    destruct (Z.ltb_spec 100 limit); lia.
Qed.

Lemma page_limit_pos (limit : Z) : 0 < page_limit limit.
Proof.
  unfold page_limit. destruct (Z.leb_spec limit 0); simpl; [lia|]. destruct (Z.ltb_spec 100 limit); lia.
Qed.

Lemma follow_spec (fuel : nat) (instance : string) (after limit : Z) (h : History) :
  StronglySorted Z.lt (map Sequence (records h)) ->
  instance = ""%string \/ instance = instanceID h ->
  (length (List.filter (after_cursor after) (records h)) < fuel)%nat ->
  follow fuel instance after limit h
    = map Reference (List.filter (after_cursor after) (records h)).
Proof.
  revert instance after. induction fuel as [|fuel IH]; intros instance after Hs Hi Hf; [lia|].
  cbn [follow]. destruct (List_own instance after limit h Hi) as (Hr & Hn & Hm & Hid).
  rewrite Hr, Hm, Hid, Hn. set (rest := List.filter (after_cursor after) (records h)) in *.
  set (n := Z.to_nat (page_limit limit)) in *.
  assert (Hnpos : (0 < n)%nat) by (pose proof (page_limit_pos limit); lia).
  destruct (Nat.ltb_spec n (length rest)) as [Hlt|Hge].
  2:{ rewrite firstn_all2 by lia. by rewrite app_nil_r. }
  destruct (last (firstn n rest)) as [d|] eqn:Hl.
  2:{ apply last_None in Hl. apply (f_equal length) in Hl. rewrite length_firstn in Hl. simpl in Hl. lia. }
  apply last_Some in Hl as [l' Hl'].
  assert (Hsplit : rest = l' ++ d :: skipn n rest).
  { rewrite <- (firstn_skipn n rest) at 1. rewrite Hl', <- app_assoc. done. }
  assert (Hgt : after < Sequence d).
  { assert (Hd : In d rest) by (rewrite Hsplit; apply in_app_iff; right; by left).
    apply filter_In in Hd as [_ Hd]. by apply Z.ltb_lt in Hd. }
  assert (Hrest : List.filter (after_cursor (Sequence d)) (records h) = skipn n rest).
  { rewrite <- (filter_filter_later after) by lia. fold rest. rewrite Hsplit at 1.
    apply filter_behind. rewrite <- Hsplit. by apply filter_sorted. }
  rewrite IH; [|done|by right|].
  - rewrite Hrest, <- map_app, firstn_skipn. done.
  - rewrite Hrest, length_skipn. lia.
Qed.

(** ** Lemmas: identifiers *)

Lemma Cut_at_colon (i s : string) :
  Cut i ":" = None -> Cut (i ++ ":" ++ s)%string ":" = Some (i, s).
Proof.
  induction i as [|c i IH]; intros Hi.
  - cbn. by destruct s.
  - change (String c i ++ ":" ++ s)%string with (String c (i ++ ":" ++ s)).
    cbn [Cut String.prefix String.length] in Hi |- *. destruct (ascii_dec ":"%char c); [by destruct i|].
    destruct (Cut i ":") as [[? ?]|]; [done|]. by rewrite (IH eq_refl).
Qed.

Lemma Get_occurrence (instance : string) (n : Z) (h : History) :
  instance <> ""%string -> Cut instance ":" = None -> 0 < n < two64 ->
  Get (occurrence_id instance n) h =
    if negb (String.eqb instance (instanceID h)) then (DiagnosticRestarted, None)
    else match List.find (fun d => String.eqb (ID d) (occurrence_id instance n)) (records h) with
         | Some d => (DiagnosticAvailable, Some d)
         | None => if n <=? sequence h then (DiagnosticExpired, None) else (DiagnosticUnknown, None)
         end.
Proof.
  intros Hne Hcut Hn. unfold Get, occurrence_id at 1. rewrite (Cut_at_colon _ _ Hcut).
  destruct (String.eqb_spec instance "") as [He|_]; [done|].
  unfold Itoa. destruct (Z.ltb_spec n 0); [lia|].
  rewrite ParseUint_Itoa by (unfold two64 in Hn; lia).
  destruct (Z.eqb_spec n 0); [lia|]. reflexivity.
Qed.

Lemma Itoa_inj (a b : Z) : 0 <= a -> 0 <= b -> Itoa a = Itoa b -> a = b.
Proof.
  intros Ha Hb. unfold Itoa. destruct (Z.ltb_spec a 0), (Z.ltb_spec b 0); try lia. intros He.
  apply (f_equal parse_digits) in He. rewrite !parse_digits_Itoa in He. injection He as He. lia.
Qed.

Lemma occurrence_id_inj (i : string) (a b : Z) :
  0 <= a -> 0 <= b -> occurrence_id i a = occurrence_id i b -> a = b.
Proof. intros Ha Hb He. do 2 apply append_inj_r in He. by apply Itoa_inj. Qed.

(** A whole history: diagnostics added one after the other. *)
Definition add_all (ds : list (Z * Diagnostic)) (h : History) : History :=
  fold_left (fun h '(now, d) => snd (Add now d h)) ds h.

Lemma NewHistory_ok (instance : string) (maxR maxB : Z) : history_ok (NewHistory instance maxR maxB).
Proof.
  unfold history_ok, NewHistory. cbn. unfold two64.
  destruct (Z.leb_spec maxR 0), (Z.leb_spec maxB 0); repeat split; try lia; constructor.
Qed.

Lemma add_all_ok (ds : list (Z * Diagnostic)) (h : History) :
  history_ok h -> sequence h + Z.of_nat (length ds) < two64 ->
  history_ok (add_all ds h) /\ sequence (add_all ds h) = sequence h + Z.of_nat (length ds) /\
  instanceID (add_all ds h) = instanceID h /\
  maxRecords (add_all ds h) = maxRecords h /\ maxBytes (add_all ds h) = maxBytes h.
Proof.
  revert h. induction ds as [|[now d] ds IH]; intros h Hok Hlt; cbn [length] in Hlt.
  { cbn. rewrite Z.add_0_r. done. }
  cbn [add_all fold_left length]. pose proof (Add_ok now d h Hok ltac:(lia)) as HA.
  destruct (Add now d h) as [d' h']. destruct HA as (Hok' & Hs & _ & Hi & HR & HB & _).
  cbn [snd]. destruct (IH h' Hok' ltac:(lia)) as (H1 & H2 & H3 & H4 & H5).
  fold (add_all ds h'). rewrite H2, H3, H4, H5, Hs.
  split; [done|]. split; [lia|]. done.
Qed.

Lemma ok_sorted (h : History) : history_ok h -> StronglySorted Z.lt (map Sequence (records h)).
Proof. intros (_ & _ & _ & -> & _). apply seqZ_sorted. Qed.

Lemma ok_retained (h : History) (n : Z) :
  history_ok h ->
  (exists d, In d (records h) /\ Sequence d = n) <->
  sequence h - Z.of_nat (length (records h)) < n <= sequence h.
Proof.
  intros (_ & _ & _ & Hnum & _). split.
  - intros (d & Hd & <-). apply (in_map Sequence) in Hd. rewrite Hnum in Hd.
    apply list_elem_of_In, elem_of_seqZ in Hd. lia.
  - intros Hn. assert (Hin : n ∈ map Sequence (records h)) by (rewrite Hnum; apply elem_of_seqZ; lia).
    apply list_elem_of_In, in_map_iff in Hin as (d & <- & Hd). by exists d.
Qed.

Lemma ok_oldest (h : History) :
  history_ok h -> sequence h + 1 < two64 ->
  match records h with d :: _ => Sequence d | [] => uint64 (sequence h + 1) end
    = sequence h - Z.of_nat (length (records h)) + 1.
Proof.
  intros (_ & _ & Hs & Hnum & _) Hlt. destruct (records h) as [|d l].
  - rewrite uint64_id by (unfold in_uint64; lia). cbn. lia.
  - cbn [map length] in Hnum. rewrite seqZ_cons in Hnum by lia. injection Hnum as -> _. done.
Qed.

Lemma ok_lost (h : History) (after limit : Z) (instance : string) :
  history_ok h -> sequence h + 1 < two64 -> 0 <= after ->
  instance = ""%string \/ instance = instanceID h ->
  dl_LostBefore (List_ instance after limit h) = true <->
  (exists n, after < n <= sequence h /\ ~ exists d, In d (records h) /\ Sequence d = n).
Proof.
  intros Hok Hlt Ha Hi. unfold List_.
  assert (Hf : negb (String.eqb instance "") && negb (String.eqb instance (instanceID h)) = false).
  { destruct Hi as [->| ->]; [done|]. rewrite String.eqb_refl. by rewrite andb_false_r. }
  rewrite Hf, (ok_oldest h Hok Hlt). destruct (list_loop _ _ _ _ _) as [[? ?] ?]. cbn [dl_LostBefore].
  assert (Hle : Z.of_nat (length (records h)) <= sequence h) by apply Hok.
  rewrite andb_true_iff, !Z.ltb_lt. split.
  - intros [_ Hl]. exists (after + 1). split; [lia|]. rewrite ok_retained by done. lia.
  - intros (n & Hn & Hx). rewrite ok_retained in Hx by done. lia.
Qed.

Lemma find_occurrence (h : History) (n : Z) :
  history_ok h -> 0 < n ->
  match List.find (fun d => String.eqb (ID d) (occurrence_id (instanceID h) n)) (records h) with
  | Some d => In d (records h) /\ Sequence d = n
  | None => ~ exists d, In d (records h) /\ Sequence d = n
  end.
Proof.
  intros Hok Hn. assert (Hpos : forall d, In d (records h) -> 0 < Sequence d).
  { intros d Hd. assert (Hr : exists e, In e (records h) /\ Sequence e = Sequence d) by by exists d.
    apply ok_retained in Hr; [|done]. destruct Hok as (_ & _ & _ & _ & Hle & _). lia. }
  destruct Hok as (_ & _ & _ & _ & _ & Hids & _). rewrite List.Forall_forall in Hids.
  destruct (List.find _ _) as [d|] eqn:Hf.
  - apply List.find_some in Hf as [Hd He]. apply String.eqb_eq in He. split; [done|].
    destruct (Hids d Hd) as [Hid _]. rewrite Hid in He. pose proof (Hpos d Hd).
    apply occurrence_id_inj in He; [done|lia|lia].
  - intros (d & Hd & <-). apply (List.find_none _ _ Hf) in Hd as He. destruct (Hids d Hd) as [Hid _].
    rewrite Hid, String.eqb_refl in He. done.
Qed.

(** ** Theorems *)

(** After any sequence of fewer than 2^64 - 1 additions the history holds
    the latest diagnostics, numbered without gaps up to the count of
    additions, within both its limits. A client that pages through it by
    following the returned cursor, with any page size and from any position,
    receives exactly the retained diagnostics behind that position, in order,
    none lost and none repeated; and a page reports a loss exactly when some
    diagnostic behind the cursor is no longer retained. *)
Theorem history_pages_complete (instance : string) (maxR maxB : Z) (ds : list (Z * Diagnostic)) :
  Z.of_nat (length ds) + 1 < two64 ->
  let h := add_all ds (NewHistory instance maxR maxB) in
  history_ok h /\ sequence h = Z.of_nat (length ds) /\
  forall (who : string) (after limit : Z),
    who = ""%string \/ who = instance -> 0 <= after ->
    follow (S (length (records h))) who after limit h
      = map Reference (List.filter (after_cursor after) (records h)) /\
    (dl_LostBefore (List_ who after limit h) = true <->
     exists n, after < n <= Z.of_nat (length ds) /\ ~ exists d, In d (records h) /\ Sequence d = n).
Proof.
  intros Hlen. cbv zeta.
  destruct (add_all_ok ds _ (NewHistory_ok instance maxR maxB)) as (Hok & Hs & Hi & _); [cbn; lia|].
  change (sequence (NewHistory instance maxR maxB)) with 0 in Hs. rewrite Z.add_0_l in Hs.
  change (instanceID (NewHistory instance maxR maxB)) with instance in Hi.
  set (h := add_all ds (NewHistory instance maxR maxB)) in *. clearbody h. split; [done|]. split; [done|].
  intros who after limit Hwho Hafter. rewrite <- Hi in Hwho. split.
  - apply follow_spec; [by apply ok_sorted|done|].
    pose proof (filter_length_le (after_cursor after) (records h)). lia.
  - rewrite <- Hs. apply ok_lost; [done|lia|done|done].
Qed.

(** [Get] is exact: for the identifier of the n-th occurrence of this process it
    returns that record when it is retained, says that it expired when it was
    evicted and that it is unknown when it never existed; the identifier of another
    process is answered as a restart. *)
Lemma Get_exact (instance : string) (maxR maxB : Z) (ds : list (Z * Diagnostic)) (n : Z) :
  instance <> ""%string -> Cut instance ":" = None ->
  Z.of_nat (length ds) + 1 < two64 -> 0 < n < two64 ->
  let h := add_all ds (NewHistory instance maxR maxB) in
  match Get (occurrence_id instance n) h with
  | (DiagnosticAvailable, Some d) => In d (records h) /\ Sequence d = n
  | (DiagnosticExpired, None) => n <= Z.of_nat (length ds) /\ ~ exists d, In d (records h) /\ Sequence d = n
  | (DiagnosticUnknown, None) => Z.of_nat (length ds) < n
  | _ => False
  end /\
  forall other, other <> ""%string -> Cut other ":" = None -> other <> instance ->
    Get (occurrence_id other n) h = (DiagnosticRestarted, None).
Proof.
  intros Hne Hcut Hlen Hn. cbv zeta.
  destruct (add_all_ok ds _ (NewHistory_ok instance maxR maxB)) as (Hok & Hs & Hi & _); [cbn; lia|].
  change (sequence (NewHistory instance maxR maxB)) with 0 in Hs. rewrite Z.add_0_l in Hs.
  change (instanceID (NewHistory instance maxR maxB)) with instance in Hi.
  set (h := add_all ds (NewHistory instance maxR maxB)) in *. clearbody h. split.
  - rewrite Get_occurrence by done. rewrite Hi, String.eqb_refl. cbn [negb].
    pose proof (find_occurrence h n Hok ltac:(lia)) as Hf. rewrite Hi in Hf.
    destruct (List.find _ _) as [d|]; [done|]. destruct (Z.leb_spec n (sequence h)); [|lia].
    split; [lia|done].
  - intros other Ho Hoc Hdiff. rewrite Get_occurrence by done. rewrite Hi.
    destruct (String.eqb_spec other instance); [done|reflexivity].
Qed.

(** ** Refinement of an unbounded log *)

(** The n-th occurrence of a process as it is recorded. *)
Definition occurrence (instance : string) (n now : Z) (d : Diagnostic) : Diagnostic :=
  mkDiagnostic (occurrence_id instance n) instance n (if Time d =? 0 then now else Time d)
    (Severity d) (Component d) (Event d) (OperationID d) (Operation d) (Object d) (Code d) (Summary d) (Detail d)
    (if bool_decide (State d = DiagnosticUnset) then DiagnosticAvailable else State d)
    (Truncated d) (TruncationReason d) (RetrievalError d).

(** The abstract history: everything that was ever added. *)
Definition log_add (instance : string) (log : list Diagnostic) (x : Z * Diagnostic) : list Diagnostic :=
  log ++ [occurrence instance (Z.of_nat (length log) + 1) x.1 x.2].
Definition log_of (instance : string) (ds : list (Z * Diagnostic)) : list Diagnostic :=
  fold_left (log_add instance) ds [].

Definition fits (h : History) (l : list Diagnostic) : Prop :=
  Z.of_nat (length l) <= maxRecords h /\ total_size l <= maxBytes h.

(** The history retains the longest end of the log that fits: all but the first
    [k] records. *)
Definition window (h : History) (log : list Diagnostic) (k : nat) : Prop :=
  (k <= length log)%nat /\ records h = skipn k log /\ forall j, (j < k)%nat -> ~ fits h (skipn j log).

Lemma total_size_app (a b : list Diagnostic) : total_size (a ++ b) = total_size a + total_size b.
Proof. unfold total_size. rewrite map_app. induction (map diagnosticSize a) as [|x l IH]; cbn; [done|]. rewrite IH. lia. Qed.

Lemma total_size_nonneg (l : list Diagnostic) : 0 <= total_size l.
Proof. induction l as [|d l IH]; [done|]. pose proof (diagnosticSize_nonneg d). unfold total_size in *. cbn. lia. Qed.

Lemma fits_suffix (h : History) (a b : list Diagnostic) : fits h (a ++ b) -> fits h a.
Proof.
  unfold fits. rewrite length_app, total_size_app. pose proof (total_size_nonneg b). lia.
Qed.

(** The eviction drops no more than necessary. *)
Lemma evict_minimal (maxR maxB : Z) (l : list Diagnostic) :
  exists k, (k <= length l)%nat /\ fst (evict maxR maxB l (total_size l)) = skipn k l /\
    forall j, (j < k)%nat -> ~ (Z.of_nat (length (skipn j l)) <= maxR /\ total_size (skipn j l) <= maxB).
Proof.
  induction l as [|d l (k & Hk & He & Hmin)]; [exists 0%nat; split; [done|]; split; [done|]; lia|].
  cbn [evict]. destruct (_ || _) eqn:Hc.
  - replace (total_size (d :: l) - diagnosticSize d) with (total_size l) by (unfold total_size; cbn [map fold_right]; lia).
    exists (S k). split; [cbn; lia|]. split; [done|]. intros [|j] Hj; [|apply Hmin; lia]. cbn [skipn].
    apply orb_true_iff in Hc as [Hc|Hc]; breflect; lia.
  - exists 0%nat. split; [lia|]. split; [done|]. lia.
Qed.

Lemma skipn_snoc (k : nat) (l : list Diagnostic) (d : Diagnostic) : (k <= length l)%nat -> skipn k (l ++ [d]) = skipn k l ++ [d].
Proof. intros Hk. rewrite skipn_app. by replace (k - length l)%nat with 0%nat by lia. Qed.

Lemma Add_window (now : Z) (d : Diagnostic) (h : History) (log : list Diagnostic) (k : nat) :
  history_ok h -> sequence h = Z.of_nat (length log) -> sequence h + 1 < two64 -> window h log k ->
  exists k', window (snd (Add now d h)) (log_add (instanceID h) log (now, d)) k'.
Proof.
  intros Hok Hs Hlt (Hk & Hr & Hmin).
  assert (Hd : stamped h now d = occurrence (instanceID h) (Z.of_nat (length log) + 1) now d).
  { unfold stamped, occurrence. rewrite uint64_id by (destruct Hok as (_ & _ & Hq & _); unfold in_uint64; lia). by rewrite Hs. }
  unfold log_add. cbn [fst snd]. rewrite <- Hd. cbn [Add snd]. set (x := stamped h now d). unfold store.
  assert (Hb : bytes h + diagnosticSize x = total_size (records h ++ [x])).
  { rewrite total_size_snoc. destruct Hok as (_ & _ & _ & _ & _ & _ & -> & _). done. }
  rewrite Hb. destruct (evict_minimal (maxRecords h) (maxBytes h) (records h ++ [x])) as (j & Hj & He & Hm).
  destruct (evict _ _ _ _) as [l b]. cbn [fst] in He. subst l.
  rewrite Hr, <- skipn_snoc in * by done. exists (k + j)%nat. split; [|split].
  - rewrite length_skipn, length_app in Hj. rewrite length_app. cbn in *. lia.
  - cbn [records]. rewrite skipn_skipn. f_equal. lia.
  - intros i Hi Hf. change (fits h (skipn i (log ++ [x]))) in Hf. destruct (decide (i < k)%nat) as [Hlk|Hge].
    + apply (Hmin i Hlk). rewrite skipn_snoc in Hf by lia. by apply fits_suffix in Hf.
    + apply (Hm (i - k)%nat); [lia|]. rewrite skipn_skipn. replace (i - k + k)%nat with i by lia. exact Hf.
Qed.

Lemma add_all_window (ds : list (Z * Diagnostic)) (h : History) (log : list Diagnostic) (k : nat) :
  history_ok h -> sequence h = Z.of_nat (length log) -> sequence h + Z.of_nat (length ds) < two64 -> window h log k ->
  exists k', window (add_all ds h) (fold_left (log_add (instanceID h)) ds log) k'.
Proof.
  revert h log k. induction ds as [|[now d] ds IH]; intros h log k Hok Hs Hlt Hw; [by exists k|].
  cbn [add_all fold_left length] in *. destruct (Add_window now d h log k Hok Hs ltac:(lia) Hw) as [k' Hw'].
  pose proof (Add_ok now d h Hok ltac:(lia)) as HA. unfold Add in HA, Hw' |- *. cbn [snd] in *.
  destruct HA as (Hok' & Hs' & _ & Hi & _). rewrite <- Hi. fold (add_all ds (store (stamped h now d) h)).
  apply (IH _ _ k'); [done| |lia|by rewrite Hi].
  rewrite Hs', Hs. unfold log_add. rewrite length_app. cbn. lia.
Qed.

(** The position of a number in the log. *)
Lemma log_lookup (instance : string) (ds : list (Z * Diagnostic)) (d : Diagnostic) (i : nat) :
  log_of instance ds !! i = Some d -> Sequence d = Z.of_nat i + 1.
Proof.
  unfold log_of. rewrite <- (rev_involutive ds). generalize (rev ds) as rs. intros rs. revert i.
  induction rs as [|x rs IH]; intros i; [done|]. cbn [rev]. rewrite fold_left_app. cbn [fold_left].
  unfold log_add at 1. rewrite lookup_app. destruct (fold_left _ (rev rs) [] !! i) eqn:Hl; [intros [= <-]; by apply IH|].
  apply lookup_ge_None in Hl. intros Hx. apply list_lookup_singleton_Some in Hx as [Hx <-]. cbn [occurrence Sequence]. lia.
Qed.

Lemma log_of_length (instance : string) (ds : list (Z * Diagnostic)) : length (log_of instance ds) = length ds.
Proof.
  unfold log_of. rewrite <- (rev_involutive ds). induction (rev ds) as [|x rs IH]; [done|]. cbn [rev].
  rewrite fold_left_app, length_app. cbn [fold_left length]. unfold log_add at 1. rewrite length_app, IH. done.
Qed.

(** C19. The bounded history refines the log of everything that was added: it
    retains the longest end of the log that fits its limits, and it answers a
    request for the n-th occurrence with the n-th record of the log, except that a
    record before the retained end is reported as expired; an occurrence the log
    does not have is unknown, and one of another process is a restart. *)
Theorem history_refines_log (instance : string) (maxR maxB : Z) (ds : list (Z * Diagnostic)) :
  instance <> ""%string -> Cut instance ":" = None -> Z.of_nat (length ds) + 1 < two64 ->
  let h := add_all ds (NewHistory instance maxR maxB) in
  exists k, window h (log_of instance ds) k /\
  forall n other, 0 < n < two64 -> other <> ""%string -> Cut other ":" = None ->
    Get (occurrence_id other n) h =
      if negb (String.eqb other instance) then (DiagnosticRestarted, None)
      else match log_of instance ds !! Z.to_nat (n - 1) with
      | None => (DiagnosticUnknown, None)
      | Some d => if n <=? Z.of_nat k then (DiagnosticExpired, None) else (DiagnosticAvailable, Some d)
      end.
Proof.
  intros Hne Hcut Hlen h.
  destruct (add_all_window ds (NewHistory instance maxR maxB) [] 0 (NewHistory_ok instance maxR maxB) eq_refl) as [k Hw].
  { cbn. lia. } { split; [done|]. split; [done|]. lia. }
  fold h in Hw. change (fold_left _ ds []) with (log_of instance ds) in Hw.
  exists k. split; [exact Hw|]. intros n other Hn Ho Hoc.
  pose proof (Get_exact instance maxR maxB ds n Hne Hcut Hlen Hn) as [Hg Hr]. fold h in Hg, Hr.
  destruct (String.eqb_spec other instance) as [->|Hdiff]; cbn [negb]; [|by apply Hr]. clear Hr.
  destruct Hw as (Hk & Hrec & _). rewrite log_of_length in Hk.
  assert (Hret : forall d, In d (records h) /\ Sequence d = n <-> log_of instance ds !! Z.to_nat (n - 1) = Some d /\ Z.of_nat k < n).
  { intros d. rewrite Hrec. split.
    - intros [Hd Hs]. apply list_elem_of_In, list_elem_of_lookup in Hd as [i Hi]. rewrite lookup_drop in Hi.
      pose proof (log_lookup _ _ _ _ Hi). replace (Z.to_nat (n - 1)) with (k + i)%nat by lia. split; [done|lia].
    - intros [Hd Hkn]. split; [|apply log_lookup in Hd; lia]. apply list_elem_of_In, list_elem_of_lookup.
      exists (Z.to_nat (n - 1) - k)%nat. rewrite lookup_drop. by replace (k + (Z.to_nat (n - 1) - k))%nat with (Z.to_nat (n - 1)) by lia. }
  destruct (log_of instance ds !! Z.to_nat (n - 1)) as [d|] eqn:Hl.
  - pose proof (lookup_lt_Some _ _ _ Hl) as Hlt. rewrite log_of_length in Hlt.
    destruct (Get (occurrence_id instance n) h) as [[] [d'|]]; try done; try lia.
    + destruct (proj1 (Hret d') Hg) as [Heq Hkn]. injection Heq as ->. destruct (Z.leb_spec n (Z.of_nat k)); [lia|done].
    + destruct (Z.leb_spec n (Z.of_nat k)); [done|]. destruct Hg as [_ []]. exists d. by apply Hret.
  - apply lookup_ge_None in Hl. rewrite log_of_length in Hl.
    destruct (Get (occurrence_id instance n) h) as [[] [d'|]]; try done; try lia.
    destruct (proj1 (Hret d') Hg) as [Heq _]. congruence.
Qed.

(** ** Witnesses *)

Definition example_diagnostic (s : string) : Z * Diagnostic :=
  (7, mkDiagnostic "" "" 0 0 "warn" "core" "exit" "" "" "" "" s "detail" DiagnosticUnset false "" "").

(** Three diagnostics in a history of two: the first one is lost. *)
Lemma history_pages_complete_witness :
  let ds := [example_diagnostic "a"; example_diagnostic "b"; example_diagnostic "c"] in
  let h := add_all ds (NewHistory "i" 2 0) in
  map Summary (follow 3 "i" 0 1 h) = ["b"; "c"]%string /\
  follow 3 "i" 2 1 h = map Reference (List.filter (after_cursor 2) (records h)) /\
  dl_LostBefore (List_ "i" 0 1 h) = true.
Proof.
  cbv zeta.
  assert (Hl : Z.of_nat (length [example_diagnostic "a"; example_diagnostic "b"; example_diagnostic "c"]) + 1
               < two64) by (vm_compute; reflexivity).
  destruct (history_pages_complete "i" 2 0 _ Hl) as (_ & _ & Hp).
  split; [vm_compute; reflexivity|]. split.
  - exact (proj1 (Hp "i"%string 2 1 (or_intror eq_refl) ltac:(lia))).
  - apply (proj2 (Hp "i"%string 0 1 (or_intror eq_refl) ltac:(lia))).
    exists 1. split; [cbn; lia|]. vm_compute. intros (d & [<-|[<-|[]]] & Hd); discriminate Hd.
Defined.

Lemma history_refines_log_witness :
  let ds := [example_diagnostic "a"; example_diagnostic "b"; example_diagnostic "c"] in
  let h := add_all ds (NewHistory "i" 2 0) in
  fst (Get "i:1" h) = DiagnosticExpired /\ fst (Get "i:3" h) = DiagnosticAvailable /\
  fst (Get "i:4" h) = DiagnosticUnknown /\ Get (occurrence_id "j" 1) h = (DiagnosticRestarted, None).
Proof.
  cbv zeta. split; [vm_compute; reflexivity|]. split; [vm_compute; reflexivity|].
  split; [vm_compute; reflexivity|].
  destruct (history_refines_log "i" 2 0 [example_diagnostic "a"; example_diagnostic "b"; example_diagnostic "c"])
    as (k & _ & Hg); [done|reflexivity|vm_compute; reflexivity|].
  apply (Hg 1 "j"%string); [split; vm_compute; reflexivity|done|reflexivity].
Defined.
