(* ===== verification/Version.v ===== *)
(** * Version: release tags, channels and replacement risk

    Models [internal/update/channel.go], [replacement_version.go] and the tag
    comparison of [self.go].  The two regular expressions of the source are
    anchored and deterministic; they are written as a parser of the same
    language. *)

From Stdlib Require Import Ascii.
From S2P Require Import Prelude GoStd Atomic.

Definition ChannelMain : string := "main".
Definition ChannelDev : string := "dev".

(** ** Canonical tags *)

Record canonicalTag := mkTag {
  major : Z;
  minor : Z;
  patch : Z;
  dev : Z;
  isDev : bool
}.

#[export] Instance canonicalTag_eq_dec : EqDecision canonicalTag.
Proof. solve_decision. Defined.

Fixpoint span_digits (s : string) : string * string :=
  match s with
  | EmptyString => (EmptyString, EmptyString)
  | String c t =>
      if is_digit c then let '(d, rest) := span_digits t in (String c d, rest) else (EmptyString, s)
  end.

(** One group of the expressions: a decimal without a superfluous zero. *)
Definition number (s : string) : option (string * string) :=
  let '(d, rest) := span_digits s in if canonical_decimal d then Some (d, rest) else None.

Definition literal (p s : string) : option string :=
  if HasPrefix s p then Some (drop (String.length p) s) else None.

Definition triple (s : string) : option (list string * string) :=
  s ← literal "v" s;
  '(a, s) ← number s;
  s ← literal "." s;
  '(b, s) ← number s;
  s ← literal "." s;
  '(c, s) ← number s;
  Some ([a; b; c], s).

Definition at_end (s : string) : option unit := if String.eqb s "" then Some tt else None.

Definition canonicalStable (s : string) : option (list string) :=
  '(m, s) ← triple s; _ ← at_end s; Some m.

Definition canonicalDev (s : string) : option (list string) :=
  '(m, s) ← triple s; s ← literal "-dev." s; '(n, s) ← number s; _ ← at_end s; Some (m ++ [n]).

Definition parseCanonicalTag (tag : string) : option canonicalTag :=
  '(m, d) ← match canonicalStable tag with
            | Some m => Some (m, false)
            | None => m ← canonicalDev tag; Some (m, true)
            end;
  fields ← mapM Atoi m;
  Some (mkTag (nth 0 fields 0) (nth 1 fields 0) (nth 2 fields 0) (nth 3 fields 0) d).

Definition cmp_Compare (a b : Z) : Z := if a <? b then -1 else if b <? a then 1 else 0.

(** The comparison of two parsed tags. *)
Definition compare_tags (a b : canonicalTag) : Z :=
  let c := cmp_Compare (major a) (major b) in
  if negb (c =? 0) then c
  else let c := cmp_Compare (minor a) (minor b) in
  if negb (c =? 0) then c
  else let c := cmp_Compare (patch a) (patch b) in
  if negb (c =? 0) then c
  else if negb (Bool.eqb (isDev a) (isDev b)) then (if isDev a then -1 else 1)
  else if isDev a then cmp_Compare (dev a) (dev b)
  else 0.

Definition compareCanonicalTags (left right : string) : option Z :=
  match parseCanonicalTag left, parseCanonicalTag right with
  | Some a, Some b => Some (compare_tags a b)
  | _, _ => None
  end.

(** ** Channels and updates *)

Section Update.
Context `{Unicode}.

Definition sameTag (current latest : string) : bool :=
  let a := TrimPrefix (ToLower (TrimSpace current)) "v" in
  let b := TrimPrefix (ToLower (TrimSpace latest)) "v" in
  negb (String.eqb a "") && String.eqb a b.

(** The current version read as a tag, with or without its "v". *)
Definition current_tag (current : string) : option (string * canonicalTag) :=
  let normalized := TrimSpace current in
  match parseCanonicalTag normalized with
  | Some t => Some (normalized, t)
  | None =>
      if String.eqb normalized "" || HasPrefix (ToLower normalized) "v" then None
      else let normalized := ("v" ++ normalized)%string in
           t ← parseCanonicalTag normalized; Some (normalized, t)
  end.

(** [classifyUpdate]: is an update available, is the current version ahead? *)
Definition classifyUpdate (current latest : string) : bool * bool :=
  if sameTag current latest then (false, false)
  else match current_tag current with
  | None => (true, false)
  | Some (normalized, currentTag) =>
      let leaves_dev :=
        match parseCanonicalTag latest with Some l => isDev currentTag && negb (isDev l) | None => false end in
      if leaves_dev then (true, false)
      else match compareCanonicalTags latest normalized with
      | None => (true, false)
      | Some c => if 0 <? c then (true, false) else if c <? 0 then (false, true) else (false, false)
      end
  end.

End Update.

Definition channel_error : error := api_error CodeInvalidArgument "mihari channel must be main or dev".

Definition normalizeChannel (channel : string) : result string :=
  let c := TrimSpace channel in
  if String.eqb c "" || String.eqb c ChannelMain then Ok ChannelMain
  else if String.eqb c ChannelDev then Ok ChannelDev
  else Err channel_error.

(** The channel file: [LoadChannel] and [SaveChannel].  [read_error] is a
    failure of reading other than a missing file; [owned] is the answer of the
    ownership repair after the write. *)
Section ChannelFile.
Context {Env W : Type} `{AtomicFile Env W}.

Definition LoadChannel (read_error : option error) (p : path) (w : W) : result string :=
  match read_error with
  | Some e => Err (diagnostics_Wrap (mkAPIError CodeDataFailure "read mihari channel" false) (Some e))
  | None =>
      match af_read p w with
      | None => Ok ChannelMain
      | Some raw =>
          let line := match Cut raw (String LF "") with Some (l, _) => l | None => raw end in
          let c := TrimSpace line in
          if String.eqb c ChannelMain || String.eqb c ChannelDev then Ok c
          else Err (api_error CodeDataFailure "invalid mihari channel file")
      end
  end.

Definition SaveChannel (env : Env) (owned : option error) (p : path) (channel : string) (w : W)
    : option error * W :=
  if negb (String.eqb channel ChannelMain || String.eqb channel ChannelDev) then (Some channel_error, w)
  else
    let '(result, err, w) := af_write env p (channel ++ String LF "")%string w in
    match (match err with Some e => Some e | None => Warning result end) with
    | Some e => (Some (diagnostics_Wrap (mkAPIError CodeDataFailure "write mihari channel" false) (Some e)), w)
    | None => (owned, w)
    end.

End ChannelFile.

(** ** Replacement risk *)

Inductive ReplacementRisk := ReplacementNone | ReplacementDowngrade | ReplacementUnknown.

#[export] Instance ReplacementRisk_eq_dec : EqDecision ReplacementRisk.
Proof. solve_decision. Defined.

(** The local function [normalize]. *)
Definition with_v (value : string) : string :=
  let value := TrimSpace value in
  if negb (String.eqb value "") && negb (HasPrefix value "v") then ("v" ++ value)%string else value.

Definition ClassifyReplacementVersion (current target : string) : ReplacementRisk :=
  match compareCanonicalTags (with_v current) (with_v target) with
  | None => ReplacementUnknown
  | Some order => if 0 <? order then ReplacementDowngrade else ReplacementNone
  end.

(** ** Lemmas: printing and parsing tags *)

Definition field_ok (z : Z) : Prop := 0 <= z < two63.

Definition tag_ok (t : canonicalTag) : Prop :=
  field_ok (major t) /\ field_ok (minor t) /\ field_ok (patch t) /\ field_ok (dev t) /\
  (isDev t = false -> dev t = 0).

(** The text of a tag. *)
Definition show_tag (t : canonicalTag) : string :=
  ("v" ++ Itoa (major t) ++ "." ++ Itoa (minor t) ++ "." ++ Itoa (patch t)
   ++ (if isDev t then "-dev." ++ Itoa (dev t) else ""))%string.

Definition no_digit_first (s : string) : bool :=
  match s with EmptyString => true | String c _ => negb (is_digit c) end.

Lemma span_digits_app (d rest : string) :
  all_digits d = true -> no_digit_first rest = true -> span_digits (d ++ rest) = (d, rest).
Proof.
  intros Hd Hr. induction d as [|c d IH].
  - change ("" ++ rest)%string with rest. destruct rest as [|c rest]; [done|]. cbn in *.
    by destruct (is_digit c).
  - cbn [all_digits] in Hd. apply andb_prop in Hd as [Hc Hd].
    change (String c d ++ rest)%string with (String c (d ++ rest)). cbn [span_digits].
    by rewrite Hc, IH.
Qed.

Lemma canonical_all_digits (d : string) : canonical_decimal d = true -> all_digits d = true.
Proof.
  intros H. apply canonical_head in H as (c & t & -> & Hc & Ht). cbn. by rewrite Hc, Ht.
Qed.

Lemma number_Itoa (n : Z) (rest : string) :
  0 <= n -> no_digit_first rest = true -> number (Itoa n ++ rest) = Some (Itoa n, rest).
Proof.
  intros Hn Hr. pose proof (Itoa_canonical n Hn) as Hc. unfold number.
  rewrite span_digits_app; [by rewrite Hc|by apply canonical_all_digits|done].
Qed.

Lemma span_digits_inv (s : string) : s = (fst (span_digits s) ++ snd (span_digits s))%string.
Proof.
  induction s as [|c s IH]; [done|]. cbn [span_digits]. destruct (is_digit c); [|done].
  destruct (span_digits s) as [d rest]. cbn in *. exact (f_equal (String c) IH).
Qed.

Lemma number_inv (s d rest : string) :
  number s = Some (d, rest) -> s = (d ++ rest)%string /\ canonical_decimal d = true.
Proof.
  unfold number. pose proof (span_digits_inv s) as Hs. destruct (span_digits s) as [d' rest'].
  destruct (canonical_decimal d') eqn:Hc; [|done]. intros He. injection He as <- <-. done.
Qed.

Lemma literal_app (p s : string) : literal p (p ++ s) = Some s.
Proof. unfold literal, HasPrefix. by rewrite prefix_append, drop_append. Qed.

Lemma literal_inv (p s rest : string) : literal p s = Some rest -> s = (p ++ rest)%string.
Proof.
  unfold literal, HasPrefix. destruct (String.prefix p s) eqn:Hp; [|done].
  intros He. injection He as <-. by apply prefix_drop.
Qed.

Lemma triple_show (a b c : Z) (rest : string) :
  0 <= a -> 0 <= b -> 0 <= c -> no_digit_first rest = true ->
  triple ("v" ++ Itoa a ++ "." ++ Itoa b ++ "." ++ Itoa c ++ rest) = Some ([Itoa a; Itoa b; Itoa c], rest).
Proof.
  intros Ha Hb Hc Hr. unfold triple. rewrite literal_app. cbn [mbind option_bind].
  rewrite number_Itoa by done. cbn [mbind option_bind]. rewrite literal_app. cbn [mbind option_bind].
  rewrite number_Itoa by done. cbn [mbind option_bind]. rewrite literal_app. cbn [mbind option_bind].
  by rewrite number_Itoa.
Qed.

Lemma triple_inv (s rest : string) (m : list string) :
  triple s = Some (m, rest) ->
  exists a b c, m = [a; b; c] /\ s = ("v" ++ a ++ "." ++ b ++ "." ++ c ++ rest)%string /\
    canonical_decimal a = true /\ canonical_decimal b = true /\ canonical_decimal c = true.
Proof.
  unfold triple. intros He.
  apply bind_Some in He as (s1 & H1 & He). apply literal_inv in H1.
  apply bind_Some in He as ([a s2] & H2 & He). apply number_inv in H2 as [H2 Ha].
  apply bind_Some in He as (s3 & H3 & He). apply literal_inv in H3.
  apply bind_Some in He as ([b s4] & H4 & He). apply number_inv in H4 as [H4 Hb].
  apply bind_Some in He as (s5 & H5 & He). apply literal_inv in H5.
  apply bind_Some in He as ([c s6] & H6 & He). apply number_inv in H6 as [H6 Hc].
  injection He as <- <-. exists a, b, c. subst. done.
Qed.

Lemma parse_fields (a b c : Z) :
  field_ok a -> field_ok b -> field_ok c -> mapM Atoi [Itoa a; Itoa b; Itoa c] = Some [a; b; c].
Proof. unfold field_ok. intros Ha Hb Hc. cbn [mapM]. by rewrite !Atoi_Itoa_nonneg. Qed.

Lemma parse_fields4 (a b c d : Z) :
  field_ok a -> field_ok b -> field_ok c -> field_ok d ->
  mapM Atoi [Itoa a; Itoa b; Itoa c; Itoa d] = Some [a; b; c; d].
Proof. unfold field_ok. intros Ha Hb Hc Hd. cbn [mapM]. by rewrite !Atoi_Itoa_nonneg. Qed.

Lemma parse_show (t : canonicalTag) : tag_ok t -> parseCanonicalTag (show_tag t) = Some t.
Proof.
  destruct t as [a b c d [|]]; unfold tag_ok, show_tag; cbn [major minor patch dev isDev];
    intros (Ha & Hb & Hc & Hd & Hz); pose proof Ha as Ha'; pose proof Hb as Hb'; pose proof Hc as Hc';
    pose proof Hd as Hd'; unfold field_ok in Ha', Hb', Hc', Hd';
    unfold parseCanonicalTag, canonicalStable, canonicalDev; rewrite triple_show by (lia || done);
    cbn [mbind option_bind].
  - change (at_end ("-dev." ++ Itoa d)%string) with (@None unit). cbn [mbind option_bind].
    rewrite literal_app. cbn [mbind option_bind].
    rewrite <- (append_nil_r (Itoa d)), number_Itoa by (lia || done). cbn [mbind option_bind app at_end String.eqb].
    by rewrite parse_fields4.
  - cbn [at_end String.eqb mbind option_bind]. rewrite parse_fields by done. by rewrite Hz.
Qed.

Lemma Atoi_each (l : list string) (fields : list Z) :
  Forall (fun s => canonical_decimal s = true) l -> mapM Atoi l = Some fields ->
  l = map Itoa fields /\ Forall field_ok fields.
Proof.
  intros Hl He. apply mapM_Some in He. induction He as [|s z l fields Hs He IH]; [done|].
  apply Forall_cons in Hl as [Hc Hl]. destruct (Atoi_canonical s z Hc Hs) as [-> Hz].
  destruct (IH Hl) as [-> Hf]. split; [done|]. by constructor.
Qed.

Lemma at_end_inv (s : string) (u : unit) : at_end s = Some u -> s = ""%string.
Proof. unfold at_end. destruct (String.eqb_spec s ""); done. Qed.

Lemma parse_inv (s : string) (t : canonicalTag) : parseCanonicalTag s = Some t -> s = show_tag t /\ tag_ok t.
Proof.
  unfold parseCanonicalTag. intros He. apply bind_Some in He as ([m d] & Hm & He).
  apply bind_Some in He as (fields & Hf & He). injection He as <-.
  destruct (canonicalStable s) as [m'|] eqn:Hst.
  - injection Hm as -> <-. unfold canonicalStable in Hst. apply bind_Some in Hst as ([m' r] & Ht & Hst).
    apply bind_Some in Hst as ([] & Hend & Hst). injection Hst as ->. apply at_end_inv in Hend. subst r.
    apply triple_inv in Ht as (a & b & c & -> & -> & Ha & Hb & Hc).
    apply Atoi_each in Hf as [Hm Hok]; [|by repeat constructor].
    destruct fields as [|x [|y [|z [|]]]]; try discriminate Hm. injection Hm as -> -> ->.
    rewrite !Forall_cons in Hok. unfold tag_ok, show_tag. cbn. repeat split; try apply Hok; lia.
  - apply bind_Some in Hm as (m' & Hdev & Hm). injection Hm as -> <-.
    unfold canonicalDev in Hdev. apply bind_Some in Hdev as ([m' r] & Ht & Hdev).
    apply bind_Some in Hdev as (r2 & Hl & Hdev). apply literal_inv in Hl. subst r.
    apply bind_Some in Hdev as ([n r3] & Hn & Hdev). apply number_inv in Hn as [-> Hcn].
    apply bind_Some in Hdev as ([] & Hend & Hdev). injection Hdev as <-. apply at_end_inv in Hend. subst r3.
    apply triple_inv in Ht as (a & b & c & -> & -> & Ha & Hb & Hc).
    apply Atoi_each in Hf as [Hm Hok]; [|by repeat constructor].
    destruct fields as [|x [|y [|z [|w [|]]]]]; try discriminate Hm. injection Hm as -> -> -> ->.
    rewrite !Forall_cons in Hok. unfold tag_ok, show_tag. cbn. rewrite append_nil_r.
    repeat split; try apply Hok; done.
Qed.

(** ** Lemmas: the order *)

(** [a] is an earlier version than [b]: by the numbers, then previews before
    the release, then by the preview number. *)
Definition tag_before (a b : canonicalTag) : Prop :=
  major a < major b \/ major a = major b /\
  (minor a < minor b \/ minor a = minor b /\
  (patch a < patch b \/ patch a = patch b /\
  (isDev a = true /\ isDev b = false \/ isDev a = true /\ isDev b = true /\ dev a < dev b))).

Lemma cmp_Compare_cases (a b : Z) :
  cmp_Compare a b = -1 /\ a < b \/ cmp_Compare a b = 0 /\ a = b \/ cmp_Compare a b = 1 /\ b < a.
Proof. unfold cmp_Compare. destruct (Z.ltb_spec a b), (Z.ltb_spec b a); lia. Qed.

Lemma compare_tags_cases (a b : canonicalTag) :
  tag_ok a -> tag_ok b ->
  compare_tags a b = -1 /\ tag_before a b \/ compare_tags a b = 0 /\ a = b \/
  compare_tags a b = 1 /\ tag_before b a.
Proof.
  destruct a as [a1 a2 a3 a4 a5], b as [b1 b2 b3 b4 b5]. unfold tag_ok, compare_tags, tag_before.
  cbn [major minor patch dev isDev]. intros (_ & _ & _ & _ & Hza) (_ & _ & _ & _ & Hzb).
  destruct (cmp_Compare_cases a1 b1) as [[-> ?]|[[-> ->]|[-> ?]]]; cbn; [left|..|right; right]; try (split; lia).
  destruct (cmp_Compare_cases a2 b2) as [[-> ?]|[[-> ->]|[-> ?]]]; cbn; [left|..|right; right]; try (split; lia).
  destruct (cmp_Compare_cases a3 b3) as [[-> ?]|[[-> ->]|[-> ?]]]; cbn; [left|..|right; right]; try (split; lia).
  destruct a5, b5; cbn; [|left|right; right|].
  - destruct (cmp_Compare_cases a4 b4) as [[-> ?]|[[-> ->]|[-> ?]]]; cbn; [left|right; left|right; right]; split; try done; lia.
  - split; [done|]. lia.
  - split; [done|]. lia.
  - right; left. split; [done|]. by rewrite (Hza eq_refl), (Hzb eq_refl).
Qed.

Lemma tag_before_irrefl (a b : canonicalTag) : tag_before a b -> tag_before b a -> False.
Proof. unfold tag_before. destruct (isDev a), (isDev b); intuition (lia || discriminate). Qed.

Lemma tag_before_ne (a b : canonicalTag) : tag_before a b -> a <> b.
Proof. intros H ->. by apply (tag_before_irrefl b b). Qed.

Lemma tag_before_trans (a b c : canonicalTag) : tag_before a b -> tag_before b c -> tag_before a c.
Proof. unfold tag_before. destruct (isDev a), (isDev b), (isDev c); intuition (lia || discriminate). Qed.

Lemma compare_tags_before (a b : canonicalTag) :
  tag_ok a -> tag_ok b -> compare_tags a b < 0 <-> tag_before a b.
Proof.
  intros Ha Hb. destruct (compare_tags_cases a b Ha Hb) as [[-> H]|[[-> ->]|[-> H]]].
  - split; [done|lia].
  - split; [lia|]. intros H. by apply tag_before_ne in H.
  - split; [lia|]. intros H'. by destruct (tag_before_irrefl a b).
Qed.

Lemma compare_tags_swap (a b : canonicalTag) : tag_ok a -> tag_ok b -> compare_tags b a = - compare_tags a b.
Proof.
  intros Ha Hb.
  destruct (compare_tags_cases a b Ha Hb) as [[-> H]|[[-> H]|[-> H]]],
           (compare_tags_cases b a Hb Ha) as [[-> H']|[[-> H']|[-> H']]]; try done; subst;
    try (by apply tag_before_ne in H); try (by apply tag_before_ne in H');
    exfalso; eauto using tag_before_irrefl.
Qed.

Lemma show_tag_inj (a b : canonicalTag) : tag_ok a -> tag_ok b -> show_tag a = show_tag b -> a = b.
Proof. intros Ha Hb He. apply (f_equal parseCanonicalTag) in He. rewrite !parse_show in He by done. congruence. Qed.

(** ** Lemmas: letter case and white space of tags *)

(** Characters of canonical tags. *)
Definition tag_char (c : ascii) : bool :=
  is_digit c || Ascii.eqb c "." || Ascii.eqb c "-" || Ascii.eqb c "v" || Ascii.eqb c "d" || Ascii.eqb c "e".

Fixpoint all_chars (f : ascii -> bool) (s : string) : bool :=
  match s with EmptyString => true | String c s => f c && all_chars f s end.

Lemma all_chars_app (f : ascii -> bool) (a b : string) : all_chars f (a ++ b) = all_chars f a && all_chars f b.
Proof.
  induction a as [|c a IH]; [done|]. change (String c a ++ b)%string with (String c (a ++ b)).
  cbn [all_chars]. rewrite IH. by rewrite andb_assoc.
Qed.

Lemma all_chars_impl (f g : ascii -> bool) (s : string) :
  (forall c, f c = true -> g c = true) -> all_chars f s = true -> all_chars g s = true.
Proof.
  intros Hfg. induction s as [|c s IH]; [done|]. cbn. intros H. apply andb_prop in H as [Hc Hs].
  rewrite (Hfg c Hc). by apply IH.
Qed.

Lemma Itoa_digits (n : Z) : 0 <= n -> all_chars is_digit (Itoa n) = true.
Proof.
  intros Hn. pose proof (canonical_all_digits _ (Itoa_canonical n Hn)) as H.
  revert H. induction (Itoa n) as [|c s IH]; [done|]. cbn [all_digits all_chars].
  rewrite !andb_true_iff. intros [Hc Hs]. split; [done|by apply IH].
Qed.

Lemma show_tag_chars (t : canonicalTag) : tag_ok t -> all_chars tag_char (show_tag t) = true.
Proof.
  unfold tag_ok, field_ok, show_tag. intros (Ha & Hb & Hc & Hd & _).
  assert (Hi : forall n, 0 <= n -> all_chars tag_char (Itoa n) = true).
  { intros n Hn. apply (all_chars_impl is_digit); [|by apply Itoa_digits].
    intros c Hc'. unfold tag_char. by rewrite Hc'. }
  rewrite !all_chars_app, !Hi by lia. destruct (isDev t); [|done]. rewrite all_chars_app, Hi by lia. done.
Qed.

Lemma tag_chars_printable (s : string) :
  all_chars tag_char s = true -> printable s = true /\ is_ascii s = true /\ map_ascii lower_ascii s = s.
Proof.
  induction s as [|c s IH]; [done|]. cbn [all_chars printable is_ascii map_ascii]. intros H.
  apply andb_prop in H as [Hc Hs]. destruct (IH Hs) as (-> & -> & ->).
  assert (Hb : 33 <= byte c <= 126 /\ ~ (65 <= byte c <= 90)).
  { unfold tag_char, is_digit in Hc. rewrite !orb_true_iff, andb_true_iff, !Z.leb_le, !Ascii.eqb_eq in Hc.
    destruct Hc as [[[[[Hc|Hc]|Hc]|Hc]|Hc]|Hc]; [lia|subst c; vm_compute; intuition discriminate..]. }
  unfold lower_ascii.
  destruct (Z.leb_spec 33 (byte c)), (Z.leb_spec (byte c) 126), (Z.ltb_spec (byte c) 128),
    (Z.leb_spec 65 (byte c)), (Z.leb_spec (byte c) 90); try lia; done.
Qed.

Lemma TrimSpace_tag (t : canonicalTag) : tag_ok t -> TrimSpace (show_tag t) = show_tag t.
Proof. intros Ht. by apply TrimSpace_printable, tag_chars_printable, show_tag_chars. Qed.

Section Cases.
Context `{Unicode}.

Lemma ToLower_tag (t : canonicalTag) : tag_ok t -> ToLower (show_tag t) = show_tag t.
Proof.
  intros Ht. destruct (tag_chars_printable _ (show_tag_chars t Ht)) as (_ & Ha & Hl).
  unfold ToLower. by rewrite Ha.
Qed.

(** The text of a tag behind its "v". *)
Definition bare_tag (t : canonicalTag) : string := drop 1 (show_tag t).

Lemma show_tag_bare (t : canonicalTag) : show_tag t = ("v" ++ bare_tag t)%string.
Proof. reflexivity. Qed.

Lemma bare_tag_head (t : canonicalTag) :
  tag_ok t -> exists c s, bare_tag t = String c s /\ is_digit c = true.
Proof.
  intros (Ha & _). unfold field_ok in Ha.
  destruct (canonical_head _ (Itoa_canonical (major t) ltac:(lia))) as (c & s & Hi & Hc & _).
  unfold bare_tag, show_tag. rewrite Hi. eexists c, _. split; [reflexivity|done].
Qed.

Lemma bare_tag_chars (t : canonicalTag) : tag_ok t -> all_chars tag_char (bare_tag t) = true.
Proof.
  intros Ht. pose proof (show_tag_chars t Ht) as Hc. rewrite show_tag_bare, all_chars_app in Hc.
  by apply andb_prop in Hc as [_ Hc].
Qed.

Lemma bare_tag_trim (t : canonicalTag) : tag_ok t -> TrimSpace (bare_tag t) = bare_tag t.
Proof. intros Ht. by apply TrimSpace_printable, tag_chars_printable, bare_tag_chars. Qed.

Lemma bare_tag_lower (t : canonicalTag) : tag_ok t -> ToLower (bare_tag t) = bare_tag t.
Proof.
  intros Ht. destruct (tag_chars_printable _ (bare_tag_chars t Ht)) as (_ & Ha & Hl).
  unfold ToLower. by rewrite Ha.
Qed.

Lemma bare_no_v (t : canonicalTag) : tag_ok t -> HasPrefix (bare_tag t) "v" = false.
Proof.
  intros Ht. destruct (bare_tag_head t Ht) as (c & s & -> & Hc). unfold HasPrefix.
  cbn [String.prefix]. destruct (ascii_dec "v"%char c) as [<-|]; [discriminate Hc|reflexivity].
Qed.

Lemma bare_not_empty (t : canonicalTag) : tag_ok t -> String.eqb (bare_tag t) "" = false.
Proof. intros Ht. by destruct (bare_tag_head t Ht) as (c & s & -> & _). Qed.

Lemma bare_not_tag (t : canonicalTag) : tag_ok t -> parseCanonicalTag (bare_tag t) = None.
Proof.
  intros Ht. destruct (parseCanonicalTag (bare_tag t)) as [u|] eqn:Hp; [|done].
  apply parse_inv in Hp as [Hp _]. pose proof (bare_no_v t Ht) as Hv. rewrite Hp in Hv.
  rewrite show_tag_bare in Hv. unfold HasPrefix in Hv. rewrite prefix_append in Hv. discriminate Hv.
Qed.

(** A version is written with or without its "v". *)
Definition spelled (t : canonicalTag) (s : string) : Prop := s = show_tag t \/ s = bare_tag t.

Lemma spelled_trim (t : canonicalTag) (s : string) : tag_ok t -> spelled t s -> TrimSpace s = s.
Proof. intros Ht [->| ->]; [by apply TrimSpace_tag|by apply bare_tag_trim]. Qed.

Lemma spelled_core (t : canonicalTag) (s : string) :
  tag_ok t -> spelled t s -> TrimPrefix (ToLower (TrimSpace s)) "v" = bare_tag t.
Proof.
  intros Ht Hs. rewrite (spelled_trim t s Ht Hs). unfold TrimPrefix.
  destruct Hs as [->| ->].
  - rewrite ToLower_tag by done. rewrite show_tag_bare. unfold HasPrefix.
    by rewrite prefix_append, drop_append.
  - rewrite (bare_tag_lower t Ht), bare_no_v by done. done.
Qed.

Lemma sameTag_spelled (a b : canonicalTag) (s1 s2 : string) :
  tag_ok a -> tag_ok b -> spelled a s1 -> spelled b s2 -> sameTag s1 s2 = bool_decide (a = b).
Proof.
  intros Ha Hb H1 H2. unfold sameTag. rewrite (spelled_core a s1), (spelled_core b s2) by done.
  rewrite bare_not_empty by done. cbn [negb andb].
  destruct (String.eqb_spec (bare_tag a) (bare_tag b)) as [He|Hne].
  - rewrite bool_decide_true; [done|]. apply show_tag_inj; [done|done|].
    by rewrite !show_tag_bare, He.
  - rewrite bool_decide_false; [done|]. intros ->. done.
Qed.

Lemma current_tag_spelled (t : canonicalTag) (s : string) :
  tag_ok t -> spelled t s -> current_tag s = Some (show_tag t, t).
Proof.
  intros Ht Hs. unfold current_tag. rewrite (spelled_trim t s Ht Hs). destruct Hs as [->| ->].
  - by rewrite parse_show.
  - rewrite bare_not_tag, bare_not_empty by done.
    rewrite (bare_tag_lower t Ht), bare_no_v by done. cbn [orb].
    rewrite <- show_tag_bare, parse_show by done. done.
Qed.

End Cases.

Lemma with_v_spelled (t : canonicalTag) (s : string) : tag_ok t -> spelled t s -> with_v s = show_tag t.
Proof.
  intros Ht Hs. unfold with_v. rewrite (spelled_trim t s Ht Hs). destruct Hs as [->| ->].
  - rewrite show_tag_bare. unfold HasPrefix. by rewrite prefix_append, andb_false_r.
  - by rewrite bare_not_empty, bare_no_v.
Qed.

(** ** Lemmas: the channel file *)

Lemma LoadChannel_written {Env W} `{AtomicFile Env W} (p : path) (channel : string) (w : W) :
  channel = ChannelMain \/ channel = ChannelDev ->
  af_read p w = Some (channel ++ String LF "")%string -> LoadChannel None p w = Ok channel.
Proof. intros Hc Hr. unfold LoadChannel. rewrite Hr. by destruct Hc as [->| ->]. Qed.

(** A saved channel is read back; a save that fails before its commit, or is
    refused, leaves the file alone. *)
Lemma channel_save_then_load {Env W} `{AtomicFile Env W} (env : Env) (owned : option error) (p : path)
    (channel : string) (w : W) :
  let '(e, w') := SaveChannel env owned p channel w in
  LoadChannel None p w' = Ok channel \/ e <> None /\ af_read p w' = af_read p w.
Proof.
  unfold SaveChannel. case_if; [right; done|].
  assert (Hc : channel = ChannelMain \/ channel = ChannelDev).
  { breflect. rewrite orb_true_iff, !String.eqb_eq in *. done. }
  destruct (af_write env p _ w) as [[r e] w'] eqn:Hw. destruct (Committed r) eqn:Hr.
  - destruct (af_committed _ _ _ _ _ _ _ Hw Hr) as [-> Hread].
    destruct (Warning r); left; by apply LoadChannel_written.
  - destruct (af_failed _ _ _ _ _ _ _ Hw Hr) as [He Hread]. destruct e as [e|]; [|done]. by right.
Qed.

(** ** Theorems *)

(** Release tags: parsing inverts printing and accepts nothing else, so
    every accepted tag has one spelling; comparing two tags is defined exactly
    for canonical ones and is a strict total order on them, in which the
    previews of a version come before it and after every earlier version. *)
Theorem canonical_tags_ordered :
  (forall t, tag_ok t -> parseCanonicalTag (show_tag t) = Some t) /\
  (forall s t, parseCanonicalTag s = Some t -> s = show_tag t /\ tag_ok t) /\
  (forall a b, tag_ok a -> tag_ok b ->
     exists c, compareCanonicalTags (show_tag a) (show_tag b) = Some c /\
       compareCanonicalTags (show_tag b) (show_tag a) = Some (- c) /\
       (c < 0 <-> tag_before a b) /\ (c = 0 <-> a = b) /\ -1 <= c <= 1) /\
  (forall a b c, tag_before a b -> tag_before b c -> tag_before a c) /\
  (forall l r, compareCanonicalTags l r <> None ->
     exists a b, tag_ok a /\ tag_ok b /\ l = show_tag a /\ r = show_tag b).
Proof.
  split; [exact parse_show|]. split; [exact parse_inv|]. split; [|split; [exact tag_before_trans|]].
  - intros a b Ha Hb. unfold compareCanonicalTags. rewrite !parse_show by done.
    exists (compare_tags a b). rewrite (compare_tags_swap a b), compare_tags_before by done.
    repeat split; try done;
      destruct (compare_tags_cases a b Ha Hb) as [[-> Hlt]|[[-> He]|[-> Hlt]]]; try done; try lia;
      intros He; subst; by apply tag_before_ne in Hlt.
  - intros l r. unfold compareCanonicalTags.
    destruct (parseCanonicalTag l) as [a|] eqn:Hl; [|done].
    destruct (parseCanonicalTag r) as [b|] eqn:Hr; [|done]. intros _.
    apply parse_inv in Hl as [-> Ha]. apply parse_inv in Hr as [-> Hb]. by exists a, b.
Qed.

(** Whether an update is offered: for canonical versions, spelled with or
    without "v", nothing is offered for the same version; a preview is always
    led to the latest release; otherwise an update is offered exactly for a
    later version, and an earlier one is reported as being behind.  A current
    version that is not canonical is always offered the latest release unless it
    has the same text.  Replacing an installation is called a downgrade exactly
    when the installed version is later, and unknown exactly when either version
    is not canonical. *)
Theorem classify_update_exact `{Unicode} (cur lat : canonicalTag) (current latest : string) :
  tag_ok cur -> tag_ok lat -> spelled cur current -> latest = show_tag lat ->
  classifyUpdate current latest =
    (bool_decide (cur <> lat) && (isDev cur && negb (isDev lat) || (0 <? compare_tags lat cur)),
     negb (isDev cur && negb (isDev lat)) && (compare_tags lat cur <? 0)) /\
  (forall odd, current_tag odd = None -> sameTag odd latest = false ->
     classifyUpdate odd latest = (true, false)) /\
  (ClassifyReplacementVersion current latest = ReplacementDowngrade <-> tag_before lat cur) /\
  (ClassifyReplacementVersion current latest = ReplacementNone <-> tag_before cur lat \/ cur = lat) /\
  (forall c l, ClassifyReplacementVersion c l = ReplacementUnknown <->
     parseCanonicalTag (with_v c) = None \/ parseCanonicalTag (with_v l) = None).
Proof.
  intros Hc Hl Hs ->. assert (Hsl : spelled lat (show_tag lat)) by by left.
  pose proof (compare_tags_cases lat cur Hl Hc) as Hcmp. split; [|split; [|split; [|split]]].
  - unfold classifyUpdate. rewrite (sameTag_spelled cur lat) by done. rewrite (current_tag_spelled cur) by done.
    unfold compareCanonicalTags. rewrite !parse_show by done.
    destruct (decide (cur = lat)) as [->|Hne].
    + rewrite !bool_decide_true, bool_decide_false by (try done; intros Hx; done). cbn [andb].
      destruct Hcmp as [[_ Hb]|[[-> _]|[_ Hb]]]; [by apply tag_before_ne in Hb| |by apply tag_before_ne in Hb].
      by rewrite andb_false_r.
    + rewrite (bool_decide_false (cur = lat)), (bool_decide_true (cur <> lat)) by done. cbn [andb].
      destruct (isDev cur && negb (isDev lat)); [done|]. cbn [orb negb andb].
      destruct Hcmp as [[-> _]|[[_ ->]|[-> _]]]; done.
  - intros odd Ho Hsame. unfold classifyUpdate. by rewrite Hsame, Ho.
  - unfold ClassifyReplacementVersion. rewrite !(with_v_spelled cur), (with_v_spelled lat) by done.
    unfold compareCanonicalTags. rewrite !parse_show, compare_tags_swap by done.
    rewrite <- compare_tags_before by done. destruct (Z.ltb_spec 0 (- compare_tags lat cur)); split; (lia || done).
  - unfold ClassifyReplacementVersion. rewrite !(with_v_spelled cur), (with_v_spelled lat) by done.
    unfold compareCanonicalTags. rewrite !parse_show by done.
    destruct (compare_tags_cases cur lat Hc Hl) as [[-> Hb]|[[-> He]|[-> Hb]]]; cbn; split; auto; intros He;
      try done. destruct He as [Hx|Hx]; [by destruct (tag_before_irrefl cur lat)|].
    subst. by apply tag_before_ne in Hb.
  - intros c l. unfold ClassifyReplacementVersion, compareCanonicalTags.
    destruct (parseCanonicalTag (with_v c)) as [a|], (parseCanonicalTag (with_v l)) as [b|];
      try (by split; auto). split; [by destruct (0 <? _)|]. by intros [?|?].
Qed.

(** ** Witnesses *)

Definition ascii_only : Unicode := {| unicode_ToLower := map_ascii lower_ascii |}.

(** A preview of 1.3.0 written without "v" and the release 1.2.9. *)
Lemma classify_update_exact_witness :
  parseCanonicalTag "v1.3.0-dev.4" = Some (mkTag 1 3 0 4 true) /\
  @classifyUpdate ascii_only "1.3.0-dev.4" "v1.2.9" = (true, false) /\
  ClassifyReplacementVersion "1.3.0-dev.4" "v1.2.9" = ReplacementDowngrade.
Proof.
  split; [reflexivity|].
  assert (Hok1 : tag_ok (mkTag 1 3 0 4 true)) by (repeat split; vm_compute; congruence).
  assert (Hok2 : tag_ok (mkTag 1 2 9 0 false)) by (repeat split; vm_compute; congruence).
  destruct (@classify_update_exact ascii_only (mkTag 1 3 0 4 true) (mkTag 1 2 9 0 false) "1.3.0-dev.4" "v1.2.9"
              Hok1 Hok2 ltac:(right; reflexivity) ltac:(reflexivity)) as (H1 & _ & H2 & _).
  split; [exact H1|]. apply H2. unfold tag_before. cbn. lia.
Defined.
