(* ===== verification/SelfUpdate.v ===== *)
(** * SelfUpdate: finding, verifying and installing a release of Mihari

    Models [internal/update/self.go], [prepare.go], [apply_prepared.go],
    [replacement.go], [installed_version.go] and [replace_unix.go] /
    [replace_windows.go].

    The world answers every request and every file operation with what [env]
    says for the current tick ([net], [os], [observed]), and other processes may
    change the candidate and the staged copy before they are read ([tamper]), so the theorems hold for all behaviours of the
    network and of the file system.  The hash function and the JSON codecs are
    classes: nothing is assumed of them except that a hash is 32 bytes. *)

From Stdlib Require Import Ascii.
From S2P Require Import Prelude GoStd Atomic Version.

(** [crypto/sha256]. *)
Class Sha256 := {
  sha256 : string -> list Z;
  sha256_bytes : forall s, Forall (fun b => 0 <= b < 256) (sha256 s) /\ length (sha256 s) = 32%nat
}.

Definition maxReleaseResponseSize : Z := 2097152.
Definition maxReleaseListResponseSize : Z := 8388608.
Definition maxDevReleasePages : nat := 5.
Definition maxSelfBinarySize : Z := 134217728.
Definition maxChecksumManifestSize : Z := 1048576.
Definition defaultRepo : string := "mihari-proxy/mihari".
Definition checksumAssetName : string := "SHA256SUMS.txt".

Record Asset := mkAsset {
  Name : string;
  URL : string;
  Size : Z
}.

Record Release := mkRelease {
  TagName : string;
  Draft : bool;
  Assets : list Asset
}.

(** [json.Unmarshal] into a release and into a list of releases. *)
Class ReleaseJSON := {
  json_Release : string -> result Release;
  json_Releases : string -> result (list Release)
}.

Record SelfUpdater := mkSelfUpdater {
  APIBase : string;
  Repository : string;
  GOOS : string;
  GOARCH : string
}.

Record CheckResult := mkCheckResult {
  Current : string;
  Latest : string;
  cr_Available : bool;
  cr_Ahead : bool;
  cr_Channel : string
}.

(** ** Replacement targets and previews *)

Record ReplacementCandidate := mkCandidate {
  rc_Version : string;
  rc_SHA256 : string;
  rc_Channel : string
}.

Record ReplacementTarget := mkTarget {
  Roles : list string;
  Path : string;
  FileID : string;
  rt_SHA256 : string;
  Exists : bool;
  rt_Version : string;
  UnrecognizedVersion : string
}.

Record ReplacementSnapshot := mkSnapshot {
  Targets : list ReplacementTarget;
  ServiceDefinitionSHA256 : string
}.

Record ReplacementPreview := mkPreview {
  rp_Candidate : ReplacementCandidate;
  rp_Snapshot : ReplacementSnapshot;
  Risk : ReplacementRisk;
  rp_ID : string
}.

Record ReplacementConsent := mkConsent {
  Yes : bool;
  ExpectedPreview : string
}.

(** [json.Marshal] of the version 1 wire form. *)
Class PreviewJSON := {
  json_preview : ReplacementCandidate -> ReplacementSnapshot -> result string
}.

(** ** The environment *)

Record response := mkResponse {
  status : Z;
  links : list string;
  body : string;
  body_error : option error;
  close_error : option error
}.

(** How a request goes. *)
Inductive outcome :=
| BadRequest (e : error)
| Transport (e : error)
| Answer (r : response).

Record env := mkEnv {
  net : nat -> string -> outcome;
  os : nat -> option error;
  observed : nat -> result ReplacementSnapshot;
  tamper : nat -> option string -> option string;
  runtime_GOOS : string;
  runtime_GOARCH : string
}.

Definition windows (e : env) : bool := String.eqb (runtime_GOOS e) "windows".

(** What a process sees and changes on disk: the prepared candidate, the copy
    staged beside the target, the installed binary and, on Windows, the stashed
    one. *)
Record world := mkWorld {
  tick : nat;
  candidate : option string;
  staged : option string;
  target : option string;
  stash : option string
}.

Definition set_candidate (c : option string) (w : world) : world :=
  mkWorld (tick w) c (staged w) (target w) (stash w).
Definition set_staged (c : option string) (w : world) : world :=
  mkWorld (tick w) (candidate w) c (target w) (stash w).
Definition set_target (c : option string) (w : world) : world :=
  mkWorld (tick w) (candidate w) (staged w) c (stash w).
Definition set_stash (c : option string) (w : world) : world :=
  mkWorld (tick w) (candidate w) (staged w) (target w) c.

(** The number of the next operation. *)
Definition next : st world nat :=
  fun w => (tick w, mkWorld (S (tick w)) (candidate w) (staged w) (target w) (stash w)).

(** The answer to a file operation. *)
Definition ask (e : env) : st world (option error) := let! n := next in st_ret (os e n).

(** [io.LimitReader(r, n)]. *)
Fixpoint takeZ (n : Z) (s : string) : string :=
  match s with
  | EmptyString => EmptyString
  | String c s => if n <=? 0 then EmptyString else String c (takeZ (n - 1) s)
  end.

(** [io.ReadAll] of the first [n] bytes: a failure behind them is not met. *)
Definition read_limited (n : Z) (r : response) : result string :=
  if n <=? len (body r) then Ok (takeZ n (body r))
  else match body_error r with Some e => Err e | None => Ok (body r) end.

(** ** Errors *)

Definition data_failure (m : string) : error := api_error CodeDataFailure m.
Definition net_failure (m : string) (cause : error) : error :=
  EWrap (mkAPIError CodeNetworkFailure m false) cause.

Definition joinUpdateFailure (primary : error) (secondary : option error) : error :=
  match secondary with
  | None => primary
  | Some s =>
      match errors_As primary with
      | Some api => EWrap api (EJoin primary s)
      | None => EJoin primary s
      end
  end.

(** [closeUpdateResponse]: a close error joins a failure and is only reported
    after a success. *)
Definition closeUpdateResponse {A} (r : response) (res : result A) : result A :=
  match res, close_error r with
  | Err x, Some c => Err (joinUpdateFailure x (Some (EFmt "close" c)))
  | _, _ => res
  end.

(** The common shape of the requests: the request is built and sent, the status
    checked, the bounded body read and decoded, the body closed. *)
Definition fetch {A} (e : env) (url : string) (create fail read_fail too_large : string) (limit : Z)
    (decode : response -> string -> result A) : st world (result A) :=
  let! n := next in
  st_ret
    match net e n url with
    | BadRequest x => Err (EWrap (mkAPIError CodeInternal create false) x)
    | Transport x => Err (net_failure fail x)
    | Answer r =>
        closeUpdateResponse r
          (if negb (status r =? 200) then Err (net_failure fail (EText "status"))
           else match read_limited (limit + 1) r with
                | Err x => Err (net_failure read_fail x)
                | Ok raw => if limit <? len raw then Err (data_failure too_large) else decode r raw
                end)
    end.

(** ** Assets and checksums *)

Section Assets.
Context `{Unicode}.

Definition selfAssetName (goos goarch : string) : string :=
  let goos := ToLower goos in
  let goarch := ToLower goarch in
  let name := ("mihari-" ++ goos ++ "-" ++ goarch)%string in
  if String.eqb goos "windows" then (name ++ ".exe")%string else name.

(** The search loops of [SelectSelfAsset] and [selectChecksumAsset]: the last
    asset with the name and the number of matches. *)
Fixpoint find_asset (want : string) (l : list Asset) (found : Asset) (matches : Z) : Asset * Z :=
  match l with
  | [] => (found, matches)
  | a :: l =>
      if negb (String.eqb (Name a) want) then find_asset want l found matches
      else find_asset want l a (matches + 1)
  end.

Definition no_asset : Asset := mkAsset "" "" 0.

Definition SelectSelfAsset (release : Release) (goos goarch : string) : result Asset :=
  let '(found, matches) := find_asset (selfAssetName goos goarch) (Assets release) no_asset 0 in
  if negb (matches =? 1) then Err (data_failure "mihari release has no compatible asset") else Ok found.

Definition selectChecksumAsset (release : Release) : result Asset :=
  let '(found, matches) := find_asset checksumAssetName (Assets release) no_asset 0 in
  if negb (matches =? 1) then Err (data_failure "mihari release has no unique checksum manifest")
  else if (Size found <? 0) || (maxChecksumManifestSize <? Size found) then
    Err (data_failure "checksum manifest is too large")
  else Ok found.

End Assets.

(** The loop of [parseChecksumManifest]. *)
Fixpoint manifest_loop (lines : list string) (targetName : string) (found : list Z) (matches : Z)
    : result (list Z * Z) :=
  match lines with
  | [] => Ok (found, matches)
  | line :: lines =>
      let line := TrimSuffix line (String CR "") in
      if String.eqb (TrimSpace line) "" then manifest_loop lines targetName found matches
      else match Fields line with
      | [digest; file] =>
          match hex_decode digest with
          | Some decoded =>
              if negb (length decoded =? 32)%nat then Err (data_failure "invalid checksum manifest")
              else if negb (String.eqb (TrimPrefix file "*") targetName) then
                manifest_loop lines targetName found matches
              else manifest_loop lines targetName decoded (matches + 1)
          | None =>
              Err (EWrap (mkAPIError CodeDataFailure "invalid checksum manifest" false) (EText "hex"))
          end
      | _ => Err (data_failure "invalid checksum manifest")
      end
  end.

Definition parseChecksumManifest (raw targetName : string) : result (list Z) :=
  match manifest_loop (Split LF raw) targetName [] 0 with
  | Err e => Err e
  | Ok (found, matches) =>
      if negb (matches =? 1) then Err (data_failure "checksum manifest has no unique target digest")
      else Ok found
  end.

(** ** Finding the release *)

Definition DQUOTE : ascii := chr 34.
Definition SQUOTE : ascii := chr 39.

Fixpoint trim_front (f : ascii -> bool) (s : string) : string :=
  match s with String c t => if f c then trim_front f t else s | EmptyString => EmptyString end.
Definition trim_back (f : ascii -> bool) (s : string) : string := reverse (trim_front f (reverse s)).

Section Releases.
Context `{Unicode} `{ReleaseJSON} (u : SelfUpdater) (e : env).

Definition apiBase : string :=
  if negb (String.eqb (APIBase u) "") then trim_back (fun c => Ascii.eqb c "/") (APIBase u)
  else "https://api.github.com".

Definition repository : string :=
  if negb (String.eqb (Repository u) "") then Repository u else defaultRepo.

Definition targetOS : string := if negb (String.eqb (GOOS u) "") then GOOS u else runtime_GOOS e.
Definition targetArch : string := if negb (String.eqb (GOARCH u) "") then GOARCH u else runtime_GOARCH e.

(** The parameters of a link, one of them [rel=next]? *)
Fixpoint rel_next (params : list string) : bool :=
  match params with
  | [] => false
  | param :: params =>
      match Cut (TrimSpace param) "=" with
      | None => rel_next params
      | Some (key, value) =>
          if negb (String.eqb (TrimSpace (ToLower key)) "rel") then rel_next params
          else
            let quote c := Ascii.eqb c DQUOTE || Ascii.eqb c SQUOTE in
            if String.eqb (trim_back quote (trim_front quote (TrimSpace value))) "next" then true
            else rel_next params
      end
  end.

Definition linkRel (params : string) : bool := rel_next (Split ";" params).

Fixpoint next_link (parts : list string) : option string :=
  match parts with
  | [] => None
  | part :: parts =>
      let part := TrimSpace part in
      if negb (HasPrefix part "<") then next_link parts
      else match Cut part ">" with
      | None => next_link parts
      | Some (before, after) => if linkRel after then Some (drop 1 before) else next_link parts
      end
  end.

(** [nextReleaseLink]: the empty string when there is none. *)
Fixpoint nextReleaseLink (values : list string) : string :=
  match values with
  | [] => ""
  | value :: values =>
      match next_link (Split "," value) with Some uri => uri | None => nextReleaseLink values end
  end.

Definition fetchReleaseListPage (pageURL : string) : st world (result (list Release * string)) :=
  fetch e pageURL "create release list request" "fetch mihari release list failed"
    "read mihari release list failed" "mihari release list is too large" maxReleaseListResponseSize
    (fun r raw =>
       match json_Releases raw with
       | Err x => Err (EWrap (mkAPIError CodeDataFailure "invalid mihari release list" false) x)
       | Ok releases => Ok (releases, nextReleaseLink (links r))
       end).

Definition decode_release (raw : string) : result Release :=
  match json_Release raw with
  | Err x => Err (EWrap (mkAPIError CodeDataFailure "invalid mihari release response" false) x)
  | Ok release =>
      if String.eqb (TagName release) "" then
        Err (EWrap (mkAPIError CodeDataFailure "invalid mihari release response" false)
               (EText "mihari release response is missing tag_name"))
      else Ok release
  end.

Definition fetch_release (url create : string) : st world (result Release) :=
  fetch e url create "fetch mihari release failed" "read mihari release failed"
    "mihari release response is too large" maxReleaseResponseSize (fun _ raw => decode_release raw).

Definition releaseByTag (tag : string) : st world (result Release) :=
  fetch_release (apiBase ++ "/repos/" ++ repository ++ "/releases/tags/" ++ tag) "create release tag request".

Definition latestMainRelease : st world (result Release) :=
  fetch_release (apiBase ++ "/repos/" ++ repository ++ "/releases/latest") "create release request".

(** One release of a page in [latestDevRelease]. *)
Definition consider (best : option Release) (release : Release) : option Release :=
  if Draft release then best
  else match parseCanonicalTag (TagName release) with
  | None => best
  | Some tag =>
      if negb (isDev tag) then best
      else match best with
      | None => Some release
      | Some b =>
          match compareCanonicalTags (TagName release) (TagName b) with
          | Some c => if 0 <? c then Some release else best
          | None => best
          end
      end
  end.

(** The loop over the pages; [pages] of them may still be read. *)
Fixpoint dev_pages (pages : nat) (url : string) (best : option Release)
    : st world (result (option Release)) :=
  match pages with
  | O => st_ret (Ok best)
  | S pages =>
      let! page := fetchReleaseListPage url in
      match page with
      | Err x => st_ret (Err x)
      | Ok (releases, next) =>
          let best := fold_left consider releases best in
          if String.eqb next "" then st_ret (Ok best) else dev_pages pages next best
      end
  end.

Definition latestDevRelease : st world (result Release) :=
  let! found := dev_pages maxDevReleasePages
                  (apiBase ++ "/repos/" ++ repository ++ "/releases?per_page=100") None in
  match found with
  | Err x => st_ret (Err x)
  | Ok None => st_ret (Err (data_failure "no canonical mihari dev release"))
  | Ok (Some best) =>
      match Assets best with [] => releaseByTag (TagName best) | _ => st_ret (Ok best) end
  end.

Definition latestRelease (channel : string) : st world (result Release) :=
  if String.eqb channel ChannelDev then latestDevRelease
  else if String.eqb channel ChannelMain then latestMainRelease
  else st_ret (Err channel_error).

Definition SelfUpdater_Check (currentVersion channel : string) : st world (result CheckResult) :=
  match normalizeChannel channel with
  | Err x => st_ret (Err x)
  | Ok ch =>
      let! release := latestRelease ch in
      st_ret
        match release with
        | Err x => Err x
        | Ok release =>
            let '(available, ahead) := classifyUpdate currentVersion (TagName release) in
            Ok (mkCheckResult currentVersion (TagName release) available ahead ch)
        end
  end.

Definition fetchExpectedChecksum (asset : Asset) (targetName : string) : st world (result (list Z)) :=
  fetch e (URL asset) "create checksum request" "download checksum manifest failed"
    "read checksum manifest failed" "checksum manifest is too large" maxChecksumManifestSize
    (fun _ raw => parseChecksumManifest raw targetName).

End Releases.

(** ** Previews *)

Section Sorting.
Context {A : Type} (le : A -> A -> bool).

Fixpoint insert_sorted (x : A) (l : list A) : list A :=
  match l with
  | [] => [x]
  | y :: l' => if le x y then x :: l else y :: insert_sorted x l'
  end.

Definition sort (l : list A) : list A := fold_right insert_sorted [] l.

End Sorting.

(** [slices.Compact]: runs of equal elements become one. *)
Fixpoint Compact (l : list string) : list string :=
  match l with
  | x :: (y :: _) as l' => if String.eqb x y then Compact l' else x :: Compact l'
  | _ => l
  end.

Definition normalized_roles (l : list string) : list string := Compact (sort String.leb l).

Definition normalizedReplacementVersion (value : string) : string :=
  let value := with_v value in
  match parseCanonicalTag value with None => "" | Some _ => value end.

Definition version_char (c : ascii) : bool :=
  (97 <=? byte c) && (byte c <=? 122) || (65 <=? byte c) && (byte c <=? 90) || is_digit c
  || Ascii.eqb c "." || Ascii.eqb c "_" || Ascii.eqb c "+" || Ascii.eqb c "-".

Definition safeUnrecognizedVersion (value : string) : string :=
  let space c := Ascii.eqb c " " in
  let value := trim_back space (trim_front space value) in
  if (len value =? 0) || (128 <? len value) || negb (String.eqb (normalizedReplacementVersion value) "") then ""
  else if all_chars version_char value then value else "".

(** The normalisation of one target in [NewReplacementPreview]. *)
Definition normalize_target (t : ReplacementTarget) : ReplacementTarget :=
  let v := normalizedReplacementVersion (rt_Version t) in
  let un := safeUnrecognizedVersion (UnrecognizedVersion t) in
  mkTarget (normalized_roles (Roles t)) (Path t) (FileID t) (rt_SHA256 t) (Exists t) v
    (if negb (String.eqb v "") || negb (Exists t) then "" else un).

Definition same_file (a b : ReplacementTarget) : bool :=
  String.eqb (FileID a) (FileID b) && String.eqb (rt_SHA256 a) (rt_SHA256 b)
  && Bool.eqb (Exists a) (Exists b) && String.eqb (rt_Version a) (rt_Version b)
  && String.eqb (UnrecognizedVersion a) (UnrecognizedVersion b).

Definition replacementChanged : error := api_error CodeInvalidState "installation changed; start again".

(** The loop that merges the roles of one path; [acc] is reversed. *)
Fixpoint merge_targets (l : list ReplacementTarget) (acc : list ReplacementTarget)
    : result (list ReplacementTarget) :=
  match l with
  | [] => Ok (rev acc)
  | t :: l =>
      let t := normalize_target t in
      match acc with
      | prev :: acc' =>
          if String.eqb (Path prev) (Path t) then
            if negb (same_file prev t) then Err replacementChanged
            else merge_targets l
                   (mkTarget (normalized_roles (Roles prev ++ Roles t)) (Path prev) (FileID prev)
                      (rt_SHA256 prev) (Exists prev) (rt_Version prev) (UnrecognizedVersion prev) :: acc')
          else merge_targets l (t :: acc)
      | [] => merge_targets l [t]
      end
  end.

(** The risk of a replacement: a downgrade of any target, else an unknown. *)
Definition add_risk (version : string) (risk : ReplacementRisk) (t : ReplacementTarget) : ReplacementRisk :=
  if negb (Exists t) then risk
  else let r := ClassifyReplacementVersion (rt_Version t) version in
       if bool_decide (r = ReplacementDowngrade)
          || bool_decide (r = ReplacementUnknown) && bool_decide (risk = ReplacementNone)
       then r else risk.

(** The fields of a target that are encoded. *)
Definition wire_target (t : ReplacementTarget) : ReplacementTarget :=
  mkTarget (Roles t) (Path t) (FileID t) (rt_SHA256 t) (Exists t) (rt_Version t) "".

Definition validPreviewID (value : string) : bool :=
  (len value =? 64)
  && all_chars (fun c => is_digit c || (97 <=? byte c) && (byte c <=? 102)) value.

Section Previews.
Context `{Sha256} `{PreviewJSON}.

Definition NewReplacementPreview (c : ReplacementCandidate) (s : ReplacementSnapshot) : result ReplacementPreview :=
  match merge_targets (sort (fun a b => String.leb (Path a) (Path b)) (Targets s)) [] with
  | Err e => Err e
  | Ok targets =>
      let risk := fold_left (add_risk (rc_Version c)) targets ReplacementNone in
      match json_preview c (mkSnapshot (map wire_target targets) (ServiceDefinitionSHA256 s)) with
      | Err e => Err (EFmt "encode replacement preview" e)
      | Ok raw => Ok (mkPreview c (mkSnapshot targets (ServiceDefinitionSHA256 s)) risk (hex_encode (sha256 raw)))
      end
  end.

Definition RecheckReplacement (p : ReplacementPreview) (c : ReplacementCandidate) (s : ReplacementSnapshot)
    : option error :=
  match NewReplacementPreview c s with
  | Err e => Some e
  | Ok current =>
      if negb (validPreviewID (rp_ID p)) || negb (String.eqb (rp_ID current) (rp_ID p))
      then Some replacementChanged else None
  end.

End Previews.

Definition displayReplacementVersion (value : string) : string :=
  let value := normalizedReplacementVersion value in if String.eqb value "" then "unknown" else value.

(** [displayReplacementTargets]: roles and version of each existing target. *)
Definition displayReplacementTargets (p : ReplacementPreview) : list (list string * string) :=
  let shown r := String.eqb r "binary" || String.eqb r "path" || String.eqb r "service" || String.eqb r "managed" in
  map (fun t =>
         (match List.filter shown (Roles t) with [] => ["binary"%string] | l => l end,
          displayReplacementVersion (rt_Version t)))
    (List.filter Exists (Targets (rp_Snapshot p))).

Definition replacementRiskWarning : string :=
  "Older Mihari versions may not support settings, subscriptions, state, or generated files written by the current version. Mihari may fail to start or load data, which can look like data loss. Downgrade is not a supported configuration migration and does not roll back disk state.".

Definition ReplacementWarning (p : ReplacementPreview) : string :=
  if bool_decide (Risk p = ReplacementNone) then ""
  else
    let unknown :=
      if bool_decide (Risk p = ReplacementUnknown)
      then ["Mihari could not determine version compatibility for this replacement."%string] else [] in
    Join " " (unknown ++ [replacementRiskWarning] ++
      map (fun '(roles, v) =>
             (Join "/" roles ++ ": " ++ v ++ " -> " ++ displayReplacementVersion (rc_Version (rp_Candidate p)) ++ ".")%string)
        (displayReplacementTargets p)).

Definition ReplacementConfirmationError (p : ReplacementPreview) : error :=
  api_error CodeInvalidArgument (ReplacementWarning p).

Definition ValidateReplacementConsent (p : ReplacementPreview) (c : ReplacementConsent) : option error :=
  let expected := negb (String.eqb (ExpectedPreview c) "") in
  if expected && (negb (Yes c) || negb (validPreviewID (ExpectedPreview c))) then
    Some (api_error CodeInvalidArgument "--expected-preview requires --yes and a valid preview ID")
  else if expected && negb (String.eqb (ExpectedPreview c) (rp_ID p)) then Some replacementChanged
  else if negb (bool_decide (Risk p = ReplacementNone)) && negb (Yes c) then Some (ReplacementConfirmationError p)
  else None.

(** ** Preparing and applying *)

Record PreparedUpdate := mkPrepared {
  Version : string;
  SHA256 : string;
  Channel : string;
  Available : bool;
  Ahead : bool;
  Preview : ReplacementPreview;
  Consent : ReplacementConsent;
  cleanup : bool
}.

Record Result := mkResult {
  res_Version : string;
  Updated : bool;
  res_Ahead : bool;
  res_Channel : string
}.

Definition no_preview : ReplacementPreview :=
  mkPreview (mkCandidate "" "" "") (mkSnapshot [] "") ReplacementNone "".
Definition no_consent : ReplacementConsent := mkConsent false "".

(** Continue unless an operation fails. *)
Definition on_error {A} (m : st world (option error)) (h : error -> st world A) (k : st world A) : st world A :=
  let! x := m in match x with Some x => h x | None => k end.

Section Flow.
Context `{Unicode} `{ReleaseJSON} `{Sha256} `{PreviewJSON} (u : SelfUpdater) (e : env).

(** [PreparedUpdate.Close]: the workspace with the candidate is removed. *)
Definition Close (p : PreparedUpdate) : st world (option error) :=
  if cleanup p then
    let! x := ask e in
    match x with
    | Some x => st_ret (Some x)
    | None => do! st_modify (set_candidate None) in st_ret None
    end
  else st_ret None.

(** [download] checks while it writes and removes what fails the checks. *)
Definition download_checks (asset : Asset) (expected : list Z) (written : string) : option error :=
  if maxSelfBinarySize <? len written then Some (data_failure "mihari asset is too large")
  else if (0 <? Size asset) && negb (len written =? Size asset) then
    Some (data_failure "mihari asset size mismatch")
  else if negb (bool_decide (sha256 written = expected)) then
    Some (data_failure "mihari asset digest mismatch")
  else None.

(** From the creation of the candidate file to its checks. *)
Definition save_candidate (asset : Asset) (expected : list Z) (r : response) : st world (option error) :=
  on_error (ask e) (fun x => st_ret (Some (EFmt "create mihari candidate" x)))
    (let written := takeZ (maxSelfBinarySize + 1) (body r) in
     let cut := if maxSelfBinarySize + 1 <=? len (body r) then None else body_error r in
     do! st_modify (set_candidate (Some written)) in
     let! writeErr := ask e in
     let copyErr := match writeErr with Some x => Some x | None => cut end in
     let! closeErr := ask e in
     let err :=
       match errors_Join copyErr closeErr with
       | Some x => Some (net_failure "read mihari asset failed" x)
       | None => download_checks asset expected written
       end in
     match err with
     | None => st_ret None
     | Some x =>
         let! removeErr := ask e in
         match removeErr with
         | None => do! st_modify (set_candidate None) in st_ret (Some x)
         | Some y => st_ret (Some (joinUpdateFailure x (Some (EFmt "remove mihari candidate" y))))
         end
     end).

Definition download (asset : Asset) (expected : list Z) : st world (option error) :=
  let! n := next in
  match net e n (URL asset) with
  | BadRequest x => st_ret (Some (EWrap (mkAPIError CodeInternal "create mihari download request" false) x))
  | Transport x => st_ret (Some (net_failure "download mihari asset failed" x))
  | Answer r =>
      let! err :=
        if negb (status r =? 200) then st_ret (Some (net_failure "download mihari asset failed" (EText "status")))
        else save_candidate asset expected r in
      st_ret
        match err, close_error r with
        | Some x, Some c => Some (joinUpdateFailure x (Some (EFmt "close" c)))
        | _, _ => err
        end
  end.

Definition observeReplacement : st world (result ReplacementSnapshot) :=
  let! n := next in st_ret (observed e n).

(** [Prepare] after the expected digest is known. *)
Definition prepare_candidate (p : PreparedUpdate) (asset : Asset) (expected : list Z)
    : st world (result PreparedUpdate) :=
  on_error (ask e)
    (fun x => st_ret (Err (EWrap (mkAPIError CodeDataFailure "create update workspace" false) x)))
    (let p := mkPrepared (Version p) "" (Channel p) (Available p) (Ahead p) no_preview no_consent true in
     let failed x := let! y := Close p in st_ret (Err (match errors_Join (Some x) y with Some z => z | None => x end)) in
     on_error (download asset expected) failed
       (let sha := hex_encode expected in
        let! snapshot := observeReplacement in
        match (match snapshot with
               | Err x => Err x
               | Ok s => NewReplacementPreview (mkCandidate (Version p) sha (Channel p)) s
               end) with
        | Err x => failed x
        | Ok preview =>
            st_ret (Ok (mkPrepared (Version p) sha (Channel p) (Available p) (Ahead p) preview no_consent true))
        end)).

(** [Prepare] for an available release. *)
Definition prepare_release (p : PreparedUpdate) : st world (result PreparedUpdate) :=
  let tag := Version p in
  match parseCanonicalTag tag with
  | None => st_ret (Err (data_failure "invalid fixed release tag"))
  | Some _ =>
      let! release := releaseByTag u e tag in
      match release with
      | Err x => st_ret (Err x)
      | Ok release =>
          if negb (String.eqb (TagName release) tag) || Draft release then
            st_ret (Err (data_failure "fixed release identity changed"))
          else match SelectSelfAsset release (targetOS u e) (targetArch u e) with
          | Err x => st_ret (Err x)
          | Ok asset =>
              if (Size asset <? 0) || (maxSelfBinarySize <? Size asset) then
                st_ret (Err (data_failure "mihari asset is too large"))
              else match selectChecksumAsset release with
              | Err x => st_ret (Err x)
              | Ok checksums =>
                  let! expected := fetchExpectedChecksum e checksums (Name asset) in
                  match expected with
                  | Err x => st_ret (Err x)
                  | Ok expected => prepare_candidate p asset expected
                  end
              end
          end
      end
  end.

Definition Prepare (currentVersion channel : string) : st world (result PreparedUpdate) :=
  match normalizeChannel channel with
  | Err x => st_ret (Err x)
  | Ok ch =>
      let! release := latestRelease u e ch in
      match release with
      | Err x => st_ret (Err x)
      | Ok release =>
          let '(available, ahead) := classifyUpdate currentVersion (TagName release) in
          on_error (ask e) (fun x => st_ret (Err x))
            (let p := mkPrepared (TagName release) "" ch available ahead no_preview no_consent false in
             if negb available then st_ret (Ok p) else prepare_release p)
      end
  end.

(** [verifyPreparedCandidate]: the error and what was copied. *)
Definition verifyPreparedCandidate (p : PreparedUpdate) (file : option string)
    : st world (option error * string) :=
  let! ctxErr := ask e in
  match ctxErr with
  | Some x => st_ret (Some x, ""%string)
  | None =>
      match parseCanonicalTag (Version p) with
      | None => st_ret (Some replacementChanged, ""%string)
      | Some _ =>
          let! openErr := ask e in
          match openErr, file with
          | Some x, _ => st_ret (Some x, ""%string)
          | None, None => st_ret (Some (ESentinel ErrNotExist), ""%string)
          | None, Some content =>
              let data := takeZ (maxSelfBinarySize + 1) content in
              let! copyErr := ask e in
              let! ctxErr := ask e in
              let err :=
                match copyErr, ctxErr with
                | Some x, _ => Some x
                | None, Some x => Some x
                | None, None =>
                    if (maxSelfBinarySize <? len data) || negb (String.eqb (hex_encode (sha256 data)) (SHA256 p))
                    then Some replacementChanged else None
                end in
              let! closeErr := ask e in
              st_ret (errors_Join err closeErr, data)
          end
      end
  end.

(** The candidate and the staged copy as they are found. *)
Definition find_candidate : st world (option string) :=
  let! n := next in let! w := st_get in st_ret (tamper e n (candidate w)).
Definition find_staged : st world (option string) :=
  let! n := next in
  do! st_modify (fun w => set_staged (tamper e n (staged w)) w) in let! w := st_get in st_ret (staged w).

(** [replaceBinary] with renames that can fail. *)
Definition replaceBinary : st world (option error) :=
  let! w := st_get in
  if windows e then
    let! stashErr := ask e in
    match stashErr, target w with
    | Some x, Some _ => st_ret (Some x)
    | _, old =>
        do! match old with
            | Some _ => st_modify (fun w => set_target None (set_stash old w))
            | None => st_ret tt
            end in
        let! err := ask e in
        match err with
        | None => do! st_modify (fun w => set_target (staged w) (set_staged None w)) in st_ret None
        | Some x =>
            match old with
            | None => st_ret (Some x)
            | Some _ =>
                let! back := ask e in
                match back with
                | None => do! st_modify (fun w => set_target old (set_stash None w)) in st_ret (Some x)
                | Some y => st_ret (Some (EJoin x y))
                end
            end
        end
    end
  else
    let! err := ask e in
    match err with
    | None => do! st_modify (fun w => set_target (staged w) (set_staged None w)) in st_ret None
    | Some x => st_ret (Some x)
    end.

(** The staged part of [ApplyPrepared]: copy, verify, recheck, replace.  The
    first component of the answer says whether the binary was replaced. *)
Definition apply_staged (p : PreparedUpdate) (candidate : ReplacementCandidate) : st world (bool * option error) :=
  let fail x := st_ret (false, Some x) in
  on_error (ask e) fail
  (let! file := find_candidate in
   let! '(copyErr, data) := verifyPreparedCandidate p file in
   do! st_modify (set_staged (Some data)) in
   let! closeErr := ask e in
   on_error (st_ret (errors_Join copyErr closeErr)) fail
   (on_error (ask e) fail
   (let! file := find_staged in
    let! '(verifyErr, _) := verifyPreparedCandidate p file in
    on_error (st_ret verifyErr) fail
    (let! snapshot := observeReplacement in
     match snapshot with
     | Err x => fail x
     | Ok s =>
         on_error (st_ret (RecheckReplacement (Preview p) candidate s)) fail
         (on_error (ask e) fail
         (on_error replaceBinary
            (fun x => fail (EWrap (mkAPIError CodeDataFailure "replace mihari binary" false) x))
            (let! hookErr := ask e in st_ret (true, hookErr))))
     end)))).

Definition ApplyPrepared (p : PreparedUpdate) : st world (Result * option error) :=
  let result b := mkResult (Version p) b (Ahead p) (Channel p) in
  let fail x := st_ret (result false, Some x) in
  if negb (Available p) then st_ret (result false, None)
  else
    let! file := find_candidate in
    let! '(verifyErr, _) := verifyPreparedCandidate p file in
    on_error (st_ret verifyErr) fail
    (let! snapshot := observeReplacement in
     match snapshot with
     | Err x => fail x
     | Ok s =>
         let candidate := mkCandidate (Version p) (SHA256 p) (Channel p) in
         on_error (st_ret (RecheckReplacement (Preview p) candidate s)) fail
         match NewReplacementPreview candidate s with
         | Err x => fail x
         | Ok preview =>
             let p := mkPrepared (Version p) (SHA256 p) (Channel p) (Available p) (Ahead p) preview (Consent p) (cleanup p) in
             on_error (st_ret (ValidateReplacementConsent preview (Consent p))) fail
             (on_error (ask e) fail
             (let! '(updated, err) := apply_staged p candidate in
              let! removeErr := ask e in
              do! match removeErr with None => st_modify (set_staged None) | Some _ => st_ret tt end in
              st_ret (result updated, errors_Join err removeErr)))
         end
     end).

(** [Update]. *)
Definition Update (currentVersion channel : string) : st world (result Result * option error) :=
  let! p := Prepare currentVersion channel in
  match p with
  | Err x => st_ret (Err x, Some x)
  | Ok p =>
      let! '(r, err) := ApplyPrepared p in
      let! closeErr := Close p in
      st_ret (Ok r, errors_Join err closeErr)
  end.

End Flow.

(** ** Lemmas: running the flow *)


Lemma on_error_inv {A} (m : st world (option error)) (h : error -> st world A) (k : st world A)
    (w w' : world) (b : A) :
  on_error m h k w = (b, w') ->
  exists x w1, m w = (x, w1) /\ match x with Some x => h x w1 = (b, w') | None => k w1 = (b, w') end.
Proof.
  unfold on_error. intros Hb. apply st_bind_inv in Hb as (x & w1 & Hm & Hk). exists x, w1. split; [done|].
  by destruct x.
Qed.

(** Nothing on disk changed. *)
Definition same_disk (w w' : world) : Prop :=
  candidate w' = candidate w /\ staged w' = staged w /\ target w' = target w /\ stash w' = stash w.

Lemma same_disk_refl (w : world) : same_disk w w.
Proof. done. Qed.

Lemma same_disk_trans (a b c : world) : same_disk a b -> same_disk b c -> same_disk a c.
Proof. unfold same_disk. intros (? & ? & ? & ?) (? & ? & ? & ?). repeat split; congruence. Qed.

Lemma next_same (w w' : world) (n : nat) : next w = (n, w') -> same_disk w w'.
Proof. unfold next. intros [= <- <-]. done. Qed.

Lemma ask_same (e : env) (w w' : world) (x : option error) : ask e w = (x, w') -> same_disk w w'.
Proof.
  unfold ask. intros Hb. apply st_bind_inv in Hb as (n & w1 & Hn & [= _ <-]). by apply next_same in Hn.
Qed.

Lemma takeZ_short (n : Z) (s : string) : len (takeZ n s) < n -> takeZ n s = s.
Proof.
  revert n. induction s as [|c s IH]; intros n; [done|]. cbn [takeZ].
  destruct (Z.leb_spec n 0); [unfold len; simpl; lia|]. unfold len in *. cbn [String.length]. intros Hl.
  f_equal. apply IH. lia.
Qed.

Section FlowLemmas.
Context `{Unicode} `{ReleaseJSON} `{Sha256} `{PreviewJSON} (u : SelfUpdater) (e : env).

(** What a passed verification tells of the file. *)
Definition verified (p : PreparedUpdate) (content : string) : Prop :=
  hex_encode (sha256 content) = SHA256 p /\ len content <= maxSelfBinarySize /\
  exists t, parseCanonicalTag (Version p) = Some t.

Lemma verify_spec (p : PreparedUpdate) (file : option string) (w w' : world) (err : option error) (data : string) :
  verifyPreparedCandidate e p file w = ((err, data), w') ->
  same_disk w w' /\ (err = None -> file = Some data /\ verified p data).
Proof.
  unfold verifyPreparedCandidate. intros Hb.
  apply st_bind_inv in Hb as (x & w1 & Hx & Hb). apply ask_same in Hx.
  destruct x as [x|]; [injection Hb as <- _ <-; done|].
  destruct (parseCanonicalTag (Version p)) as [t|] eqn:Ht; [|injection Hb as <- _ <-; done].
  apply st_bind_inv in Hb as (y & w2 & Hy & Hb). apply ask_same in Hy.
  assert (Hs2 : same_disk w w2) by eauto using same_disk_trans.
  destruct y as [y|]; [injection Hb as <- _ <-; done|].
  destruct file as [content|]; [|injection Hb as <- _ <-; done].
  apply st_bind_inv in Hb as (c & w3 & Hc & Hb). apply ask_same in Hc.
  apply st_bind_inv in Hb as (d & w4 & Hd & Hb). apply ask_same in Hd.
  apply st_bind_inv in Hb as (f & w5 & Hf & Hb). apply ask_same in Hf.
  injection Hb as <- <- <-. split; [eauto 6 using same_disk_trans|].
  intros He. apply errors_Join_None in He as [He _].
  destruct c; [done|]. destruct d; [done|]. case_if_in He; [done|]. breflect.
  rewrite takeZ_short in * by lia. split; [done|]. unfold verified. eauto.
Qed.

Lemma replaceBinary_spec (w w' : world) (err : option error) :
  replaceBinary e w = (err, w') ->
  match err with
  | None => target w' = staged w
  | Some _ =>
      target w' = target w \/
      windows e = true /\ target w <> None /\ target w' = None /\ stash w' = target w
  end.
Proof.
  unfold replaceBinary. intros Hb. apply st_bind_inv in Hb as (w0 & w1 & [= <- <-] & Hb).
  destruct (windows e).
  - apply st_bind_inv in Hb as (x & w2 & Hx & Hb). apply ask_same in Hx as (_ & Hst & Htg & _).
    destruct x as [x|], (target w) as [old|] eqn:Hold; cbv iota in Hb.
    + injection Hb as <- <-. left. congruence.
    + apply st_bind_inv in Hb as (y & w3 & Hy & Hb). injection Hy as _ <-.
      apply st_bind_inv in Hb as (z & w4 & Hz & Hb). apply ask_same in Hz as (_ & Hst4 & Htg4 & _).
      destruct z; injection Hb as <- <-; cbn; [left|]; congruence.
    + apply st_bind_inv in Hb as (y & w3 & Hy & Hb). injection Hy as _ <-.
      apply st_bind_inv in Hb as (z & w4 & Hz & Hb). apply ask_same in Hz as (_ & Hst4 & Htg4 & Hsh4).
      destruct z; [|injection Hb as <- <-; cbn in *; congruence].
      apply st_bind_inv in Hb as (b & w5 & Hb5 & Hb). apply ask_same in Hb5 as (_ & _ & Htg5 & Hsh5).
      destruct b; injection Hb as <- <-; cbn in *; [right|by left]. repeat split; congruence.
    + apply st_bind_inv in Hb as (y & w3 & Hy & Hb). injection Hy as _ <-.
      apply st_bind_inv in Hb as (z & w4 & Hz & Hb). apply ask_same in Hz as (_ & Hst4 & Htg4 & _).
      destruct z; injection Hb as <- <-; cbn; [left|]; congruence.
  - apply st_bind_inv in Hb as (x & w2 & Hx & Hb). apply ask_same in Hx as (_ & Hst & Htg & _).
    destruct x; injection Hb as <- <-; cbn; [left|]; congruence.
Qed.

(** The one way to lose the installed binary: on Windows, when the new one
    cannot be moved in and the old one cannot be moved back from its stash. *)
Definition left_in_stash (w w' : world) : Prop :=
  windows e = true /\ target w <> None /\ target w' = None /\ stash w' = target w.

Definition target_kept (w w' : world) : Prop := target w' = target w \/ left_in_stash w w'.

Lemma kept_same (w w' : world) : same_disk w w' -> target_kept w w'.
Proof. intros (_ & _ & Ht & _). by left. Qed.

Lemma kept_trans (w w1 w' : world) : target w1 = target w -> target_kept w1 w' -> target_kept w w'.
Proof. unfold target_kept, left_in_stash. intros ->. done. Qed.

Lemma observe_spec (w w' : world) (s : result ReplacementSnapshot) :
  observeReplacement e w = (s, w') -> same_disk w w' /\ exists n, observed e n = s.
Proof.
  unfold observeReplacement. intros Hb. apply st_bind_inv in Hb as (n & w1 & Hn & [= <- <-]).
  apply next_same in Hn. eauto.
Qed.

Lemma find_candidate_same (w w' : world) (f : option string) :
  find_candidate e w = (f, w') -> same_disk w w'.
Proof.
  unfold find_candidate. intros Hb. apply st_bind_inv in Hb as (n & w1 & Hn & Hb).
  apply next_same in Hn. by injection Hb as _ <-.
Qed.

Lemma find_staged_spec (w w' : world) (f : option string) :
  find_staged e w = (f, w') -> target w' = target w /\ staged w' = f.
Proof.
  unfold find_staged. intros Hb. apply st_bind_inv in Hb as (n & w1 & Hn & Hb).
  apply next_same in Hn as (_ & _ & Ht & _). by injection Hb as <- <-.
Qed.

(** Moving and checking in the stage: the last three steps. *)
Lemma replace_step (w w' : world) (updated : bool) (err : option error) (k : error -> error) :
  on_error (ask e) (fun x => st_ret (false, Some x))
    (on_error (replaceBinary e) (fun x => st_ret (false, Some (k x)))
       (let! hookErr := ask e in st_ret (true, hookErr))) w = ((updated, err), w') ->
  if updated then target w' = staged w else err <> None /\ target_kept w w'.
Proof.
  intros Hb. apply on_error_inv in Hb as (x & w1 & Hx & Hb). apply ask_same in Hx as Hs.
  destruct x as [x|]; [injection Hb as <- <- <-; split; [done|by apply kept_same]|].
  destruct Hs as (_ & Hst & Ht & _).
  apply on_error_inv in Hb as (y & w2 & Hy & Hb). apply replaceBinary_spec in Hy.
  destruct y as [y|].
  - injection Hb as <- <- <-. split; [done|]. apply (kept_trans w w1); [done|]. exact Hy.
  - apply st_bind_inv in Hb as (z & w3 & Hz & Hb). apply ask_same in Hz as (_ & _ & Ht3 & _).
    injection Hb as <- _ <-. congruence.
Qed.

Lemma apply_staged_spec (p : PreparedUpdate) (cand : ReplacementCandidate) (w w' : world)
    (updated : bool) (err : option error) :
  apply_staged e p cand w = ((updated, err), w') ->
  if updated then
    (exists c, target w' = Some c /\ verified p c) /\
    exists n s, observed e n = Ok s /\ RecheckReplacement (Preview p) cand s = None
  else err <> None /\ target_kept w w'.
Proof.
  unfold apply_staged. intros Hb.
  apply on_error_inv in Hb as (x & w1 & Hx & Hb). apply ask_same in Hx.
  destruct x as [x|]; [injection Hb as <- <- <-; split; [done|by apply kept_same]|].
  apply st_bind_inv in Hb as (f1 & w2 & Hf1 & Hb). apply find_candidate_same in Hf1.
  apply st_bind_inv in Hb as ([ce data] & w3 & Hv1 & Hb). apply verify_spec in Hv1 as [Hs3 _].
  apply st_bind_inv in Hb as (z1 & w4 & Hz1 & Hb). injection Hz1 as _ <-.
  apply st_bind_inv in Hb as (cl & w5 & Hcl & Hb). apply ask_same in Hcl.
  assert (Ht5 : target w5 = target w).
  { destruct Hx as (_ & _ & ? & _), Hf1 as (_ & _ & ? & _), Hs3 as (_ & _ & ? & _), Hcl as (_ & _ & ? & _).
    cbn in *. congruence. }
  clear Hx Hf1 Hs3 Hcl.
  apply on_error_inv in Hb as (x & w6 & [= <- <-] & Hb).
  destruct (errors_Join ce cl); [injection Hb as <- <- <-; split; [done|by left]|].
  apply on_error_inv in Hb as (x & w7 & Hx & Hb). apply ask_same in Hx as (_ & _ & Ht7 & _).
  destruct x as [x|]; [injection Hb as <- <- <-; split; [done|left; congruence]|].
  apply st_bind_inv in Hb as (f2 & w8 & Hf2 & Hb). apply find_staged_spec in Hf2 as [Ht8 Hst8].
  apply st_bind_inv in Hb as ([ve d2] & w9 & Hv2 & Hb). apply verify_spec in Hv2 as [(_ & Hst9 & Ht9 & _) Hv2].
  apply on_error_inv in Hb as (x & w10 & [= <- <-] & Hb).
  destruct ve; [injection Hb as <- <- <-; split; [done|left; congruence]|].
  destruct (Hv2 eq_refl) as [-> Hver]. clear Hv2.
  apply st_bind_inv in Hb as (s & w11 & Hs & Hb). apply observe_spec in Hs as [(_ & Hst11 & Ht11 & _) [n Hn]].
  destruct s as [s|x]; [|injection Hb as <- <- <-; split; [done|left; congruence]].
  apply on_error_inv in Hb as (x & w12 & [= <- <-] & Hb).
  destruct (RecheckReplacement (Preview p) cand s) eqn:Hre;
    [injection Hb as <- <- <-; split; [done|left; congruence]|].
  apply replace_step in Hb. destruct updated.
  - split; [|by exists n, s]. exists d2. split; [congruence|done].
  - destruct Hb as [He Hk]. split; [done|]. apply (kept_trans w w11); [congruence|done].
Qed.

Lemma apply_spec (p : PreparedUpdate) (w w' : world) (r : Result) (err : option error) :
  ApplyPrepared e p w = ((r, err), w') ->
  let cand := mkCandidate (Version p) (SHA256 p) (Channel p) in
  if Updated r then
    (exists c, target w' = Some c /\ verified p c) /\
    exists n m s1 s2 pv1 pv2,
      observed e n = Ok s1 /\ NewReplacementPreview cand s1 = Ok pv1 /\ rp_ID pv1 = rp_ID (Preview p) /\
      ValidateReplacementConsent pv1 (Consent p) = None /\
      observed e m = Ok s2 /\ NewReplacementPreview cand s2 = Ok pv2 /\ rp_ID pv2 = rp_ID (Preview p)
  else target_kept w w'.
Proof.
  intros Hb cand. unfold ApplyPrepared in Hb.
  destruct (Available p); cbn [negb] in Hb; [|injection Hb as <- _ <-; by left].
  apply st_bind_inv in Hb as (f & w1 & Hf & Hb). apply find_candidate_same in Hf.
  apply st_bind_inv in Hb as ([ve d] & w2 & Hv & Hb). apply verify_spec in Hv as [Hs2 _].
  assert (Hs : same_disk w w2) by eauto using same_disk_trans. clear Hf Hs2.
  apply on_error_inv in Hb as (x & w3 & [= <- <-] & Hb).
  destruct ve; [injection Hb as <- _ <-; by apply kept_same|].
  apply st_bind_inv in Hb as (s & w4 & Hobs & Hb). apply observe_spec in Hobs as [Hs4 [n Hn]].
  assert (Hs' : same_disk w w4) by eauto using same_disk_trans. clear Hs Hs4.
  destruct s as [s|]; [|injection Hb as <- _ <-; by apply kept_same]. fold cand in Hb.
  apply on_error_inv in Hb as (x & w5 & [= <- <-] & Hb).
  destruct (RecheckReplacement (Preview p) cand s) eqn:Hre; [injection Hb as <- _ <-; by apply kept_same|].
  unfold RecheckReplacement in Hre.
  destruct (NewReplacementPreview cand s) as [pv|] eqn:Hpv; [|done].
  case_if_in Hre; [done|]. breflect. cbn [Consent] in Hb.
  apply on_error_inv in Hb as (x & w6 & [= <- <-] & Hb).
  destruct (ValidateReplacementConsent pv (Consent p)) eqn:Hco; [injection Hb as <- _ <-; by apply kept_same|].
  apply on_error_inv in Hb as (x & w7 & Hx & Hb). apply ask_same in Hx.
  assert (Hs7 : same_disk w w7) by eauto using same_disk_trans. clear Hs' Hx.
  destruct x; [injection Hb as <- _ <-; by apply kept_same|].
  apply st_bind_inv in Hb as ([up er] & w8 & Hst & Hb). apply apply_staged_spec in Hst.
  apply st_bind_inv in Hb as (re & w9 & Hr & Hb). apply ask_same in Hr as (_ & _ & Ht9 & Hsh9).
  apply st_bind_inv in Hb as (un & w10 & Hu & Hb). injection Hb as <- _ <-. cbn [Updated].
  assert (Hw10 : target w10 = target w8 /\ stash w10 = stash w8).
  { destruct re; injection Hu as _ <-; cbn; split; congruence. }
  destruct Hw10 as [Ht10 Hsh10]. destruct up.
  - destruct Hst as ((c & Hc & Hver) & m & s2 & Hm & Hre2). split.
    { exists c. split; [congruence|]. exact Hver. }
    cbn [Preview] in Hre2. unfold RecheckReplacement in Hre2.
    destruct (NewReplacementPreview cand s2) as [pv2|] eqn:Hpv2; [|done].
    case_if_in Hre2; [done|]. breflect. exists n, m, s, s2, pv, pv2. repeat split; congruence.
  - destruct Hst as [_ Hk]. destruct Hs7 as (_ & _ & Ht7 & _).
    unfold target_kept, left_in_stash in *. rewrite Ht10, Hsh10, <- Ht7. exact Hk.
Qed.

(** *** Preparing *)

Lemma ask_fault (w w' : world) (x : option error) :
  ask e w = (x, w') -> same_disk w w' /\ (x <> None -> exists n, os e n <> None).
Proof.
  intros Ha. split; [by eapply ask_same|]. unfold ask in Ha.
  apply st_bind_inv in Ha as (n & w1 & _ & [= <- _]). eauto.
Qed.

Lemma fetch_spec {A} (url a1 a2 a3 a4 : string) (limit : Z) (decode : response -> string -> result A)
    (w w' : world) (res : result A) :
  fetch e url a1 a2 a3 a4 limit decode w = (res, w') ->
  same_disk w w' /\ forall a, res = Ok a -> exists r raw, decode r raw = Ok a.
Proof.
  unfold fetch. intros Hb. apply st_bind_inv in Hb as (n & w1 & Hn & Hb). apply next_same in Hn.
  injection Hb as <- <-. split; [done|]. intros a. destruct (net e n url) as [|?|r]; [done|done|].
  unfold closeUpdateResponse. case_if; [by destruct (close_error r)|].
  destruct (read_limited (limit + 1) r) as [raw|x]; [|by destruct (close_error r)].
  case_if; [by destruct (close_error r)|].
  destruct (decode r raw) as [b|x] eqn:Hd; [|by destruct (close_error r)].
  intros [= ->]. eauto.
Qed.

Lemma dev_pages_same (pages : nat) (url : string) (best : option Release) (w w' : world)
    (res : result (option Release)) :
  dev_pages e pages url best w = (res, w') -> same_disk w w'.
Proof.
  revert url best w. induction pages as [|pages IH]; intros url best w Hb; cbn [dev_pages] in Hb.
  { by injection Hb as _ <-. }
  apply st_bind_inv in Hb as (page & w1 & Hp & Hb). apply fetch_spec in Hp as [Hs _].
  destruct page as [[releases nxt]|x]; [|by injection Hb as _ <-].
  case_if_in Hb; [by injection Hb as _ <-|]. eauto using same_disk_trans.
Qed.

Lemma latestRelease_same (ch : string) (w w' : world) (res : result Release) :
  latestRelease u e ch w = (res, w') -> same_disk w w'.
Proof.
  unfold latestRelease, latestDevRelease, latestMainRelease, releaseByTag, fetch_release.
  intros Hb. case_if_in Hb.
  - apply st_bind_inv in Hb as (found & w1 & Hf & Hb). apply dev_pages_same in Hf.
    destruct found as [[best|]|x]; try (by injection Hb as _ <-).
    destruct (Assets best); [|by injection Hb as _ <-]. apply fetch_spec in Hb as [Hs _].
    eauto using same_disk_trans.
  - case_if_in Hb; [by apply fetch_spec in Hb as [Hs _]|by injection Hb as _ <-].
Qed.

(** The candidate is gone, or an operation failed that could not remove it. *)
Definition no_leftover (w : world) : Prop := candidate w = None \/ exists n, os e n <> None.

(** Only the candidate may have changed. *)
Definition only_candidate (w w' : world) : Prop :=
  staged w' = staged w /\ target w' = target w /\ stash w' = stash w.

Lemma only_same (w w' : world) : same_disk w w' -> only_candidate w w'.
Proof. intros (_ & ? & ? & ?). done. Qed.

Lemma only_trans (a b c : world) : only_candidate a b -> only_candidate b c -> only_candidate a c.
Proof. unfold only_candidate. intros (? & ? & ?) (? & ? & ?). repeat split; congruence. Qed.

Lemma only_set (w : world) (c : option string) : only_candidate w (set_candidate c w).
Proof. done. Qed.

Lemma download_checks_None (asset : Asset) (expected : list Z) (c : string) :
  download_checks asset expected c = None -> sha256 c = expected /\ len c <= maxSelfBinarySize.
Proof. unfold download_checks. repeat (case_if; [done|]). breflect. intros _. split; [done|lia]. Qed.

Lemma save_candidate_spec (asset : Asset) (expected : list Z) (r : response) (w w' : world) (err : option error) :
  save_candidate e asset expected r w = (err, w') ->
  only_candidate w w' /\
  match err with
  | None => exists c, candidate w' = Some c /\ sha256 c = expected /\ len c <= maxSelfBinarySize
  | Some _ => candidate w = None -> no_leftover w'
  end.
Proof.
  unfold save_candidate. intros Hb. apply on_error_inv in Hb as (x & w1 & Hx & Hb).
  apply ask_same in Hx as Hs1.
  destruct x as [x|].
  { injection Hb as <- <-. split; [by apply only_same|]. intros Hc. left. destruct Hs1 as [-> _]. done. }
  apply st_bind_inv in Hb as (z & w2 & [= _ <-] & Hb).
  apply st_bind_inv in Hb as (we & w3 & Hwe & Hb). apply ask_same in Hwe.
  apply st_bind_inv in Hb as (ce & w4 & Hce & Hb). apply ask_same in Hce.
  assert (Ho : only_candidate w w4).
  { destruct Hs1 as (_ & ? & ? & ?), Hwe as (_ & ? & ? & ?), Hce as (_ & ? & ? & ?).
    unfold only_candidate. cbn in *. repeat split; congruence. }
  assert (Hc4 : candidate w4 = Some (takeZ (maxSelfBinarySize + 1) (body r))).
  { destruct Hce as [-> _], Hwe as [-> _]. done. }
  clear Hs1 Hwe Hce. revert Hb.
  match goal with |- match ?err0 with _ => _ end w4 = _ -> _ => destruct err0 as [y|] eqn:Herr end; intros Hb.
  - apply st_bind_inv in Hb as (re & w5 & Hre & Hb). apply ask_fault in Hre as [Hs5 Hf].
    destruct re as [re|].
    + injection Hb as <- <-. split; [exact (only_trans _ _ _ Ho (only_same _ _ Hs5))|]. intros _. right. by apply Hf.
    + injection Hb as <- <-. split; [|by left]. exact (only_trans _ _ _ Ho (only_same _ _ Hs5)).
  - injection Hb as <- <-. split; [done|]. exists (takeZ (maxSelfBinarySize + 1) (body r)). split; [done|].
    destruct (errors_Join _ ce); [done|]. by apply download_checks_None in Herr.
Qed.

Lemma download_spec (asset : Asset) (expected : list Z) (w w' : world) (err : option error) :
  download e asset expected w = (err, w') ->
  only_candidate w w' /\
  match err with
  | None => exists c, candidate w' = Some c /\ sha256 c = expected /\ len c <= maxSelfBinarySize
  | Some _ => candidate w = None -> no_leftover w'
  end.
Proof.
  unfold download. intros Hb. apply st_bind_inv in Hb as (n & w1 & Hn & Hb). apply next_same in Hn as Hs.
  assert (Hno : candidate w = None -> no_leftover w1) by (intros Hc; left; destruct Hs as [-> _]; done).
  destruct (net e n (URL asset)) as [x|x|r]; try (injection Hb as <- <-; split; [by apply only_same|done]).
  apply st_bind_inv in Hb as (err1 & w2 & He & Hb). injection Hb as <- <-. case_if_in He.
  - injection He as <- <-. split; [by apply only_same|]. by destruct (close_error r).
  - apply save_candidate_spec in He as [Ho He]. split; [eauto using only_trans, only_same|].
    destruct err1 as [x|]; [|by destruct (close_error r)].
    assert (Hl : candidate w = None -> no_leftover w2) by (intros Hc; apply He; destruct Hs as [-> _]; done).
    by destruct (close_error r).
Qed.

Lemma Close_spec (p : PreparedUpdate) (w w' : world) (err : option error) :
  Close e p w = (err, w') ->
  only_candidate w w' /\ (cleanup p = true -> no_leftover w') /\ (cleanup p = false -> same_disk w w').
Proof.
  unfold Close. destruct (cleanup p); intros Hb; [|by injection Hb as _ <-].
  apply st_bind_inv in Hb as (x & w1 & Hx & Hb). apply ask_fault in Hx as [Hs Hf]. destruct x as [x|].
  - injection Hb as _ <-. split; [by apply only_same|]. split; [|done]. intros _. right. by apply Hf.
  - injection Hb as _ <-. split; [exact (only_same _ _ Hs)|]. split; [|done]. by left.
Qed.

(** What [Prepare] promises of an available update. *)
Definition prepared_ok (p : PreparedUpdate) (w : world) : Prop :=
  (exists c, candidate w = Some c /\ verified p c) /\
  exists release asset raw digest,
    TagName release = Version p /\ Draft release = false /\
    SelectSelfAsset release (targetOS u e) (targetArch u e) = Ok asset /\
    parseChecksumManifest raw (Name asset) = Ok digest /\ SHA256 p = hex_encode digest.

Lemma prepare_candidate_spec (p0 : PreparedUpdate) (asset : Asset) (expected : list Z) (w w' : world)
    (res : result PreparedUpdate) :
  prepare_candidate e p0 asset expected w = (res, w') ->
  only_candidate w w' /\
  match res with
  | Ok p => Version p = Version p0 /\ SHA256 p = hex_encode expected /\
      exists c, candidate w' = Some c /\ sha256 c = expected /\ len c <= maxSelfBinarySize
  | Err _ => candidate w = None -> no_leftover w'
  end.
Proof.
  unfold prepare_candidate. intros Hb. apply on_error_inv in Hb as (x & w1 & Hx & Hb).
  apply ask_same in Hx as Hs. destruct x as [x|].
  { injection Hb as <- <-. split; [by apply only_same|]. intros Hc. left. destruct Hs as [-> _]. done. }
  apply on_error_inv in Hb as (y & w2 & Hd & Hb). apply download_spec in Hd as [Ho Hd].
  assert (Ho2 : only_candidate w w2) by exact (only_trans _ _ _ (only_same _ _ Hs) Ho).
  destruct y as [y|].
  { apply st_bind_inv in Hb as (z & w3 & Hz & Hb). apply Close_spec in Hz as (Hoz & Hl & _).
    injection Hb as <- <-. split; [exact (only_trans _ _ _ Ho2 Hoz)|]. intros _. by apply Hl. }
  apply st_bind_inv in Hb as (s & w3 & Hobs & Hb). apply observe_spec in Hobs as [Hs3 _].
  assert (Ho3 : only_candidate w w3) by exact (only_trans _ _ _ Ho2 (only_same _ _ Hs3)).
  revert Hb. match goal with |- match ?r with _ => _ end w3 = _ -> _ => destruct r as [pv|x] end; intros Hb.
  - injection Hb as <- <-. split; [done|]. cbn. split; [done|]. split; [done|].
    destruct Hd as (c & Hc & Hrest). exists c. split; [|done]. destruct Hs3 as [-> _]. done.
  - apply st_bind_inv in Hb as (z & w4 & Hz & Hb). apply Close_spec in Hz as (Hoz & Hl & _).
    injection Hb as <- <-. split; [exact (only_trans _ _ _ Ho3 Hoz)|]. intros _. by apply Hl.
Qed.

Lemma prepare_release_spec (p0 : PreparedUpdate) (w w' : world) (res : result PreparedUpdate) :
  prepare_release u e p0 w = (res, w') ->
  only_candidate w w' /\
  match res with
  | Ok p => prepared_ok p w'
  | Err _ => candidate w = None -> no_leftover w'
  end.
Proof.
  unfold prepare_release, releaseByTag, fetch_release, fetchExpectedChecksum. intros Hb.
  destruct (parseCanonicalTag (Version p0)) as [t|] eqn:Htag;
    [|injection Hb as <- <-; split; [by apply only_same|by left]].
  apply st_bind_inv in Hb as (rel & w1 & Hrel & Hb). apply fetch_spec in Hrel as [Hs _].
  assert (Hno : candidate w = None -> no_leftover w1) by (intros Hc; left; destruct Hs as [-> _]; done).
  destruct rel as [release|x]; [|injection Hb as <- <-; split; [by apply only_same|done]].
  case_if_in Hb; [injection Hb as <- <-; split; [by apply only_same|done]|].
  apply orb_false_iff in Heqb as [Htn Hdraft]. breflect.
  destruct (SelectSelfAsset release _ _) as [asset|x] eqn:Hsel; [|injection Hb as <- <-; split; [by apply only_same|done]].
  case_if_in Hb; [injection Hb as <- <-; split; [by apply only_same|done]|].
  destruct (selectChecksumAsset release) as [sums|x]; [|injection Hb as <- <-; split; [by apply only_same|done]].
  apply st_bind_inv in Hb as (expd & w2 & Hexp & Hb). apply fetch_spec in Hexp as [Hs2 Hraw].
  assert (Hs' : same_disk w w2) by exact (same_disk_trans _ _ _ Hs Hs2).
  assert (Hno2 : candidate w = None -> candidate w2 = None) by (destruct Hs' as [-> _]; done).
  destruct expd as [expected|x].
  2:{ injection Hb as <- <-. split; [by apply only_same|]. intros Hc. left. by apply Hno2. }
  destruct (Hraw expected eq_refl) as (r & raw & Hparse).
  apply prepare_candidate_spec in Hb as [Ho Hb]. split; [exact (only_trans _ _ _ (only_same _ _ Hs') Ho)|].
  destruct res as [p|x]; [|intros Hc; by apply Hb, Hno2].
  destruct Hb as (Hv & Hsha & c & Hc & Hh & Hlen). split.
  - exists c. split; [done|]. unfold verified. rewrite Hsha, Hv, Hh. eauto.
  - exists release, asset, raw, expected. rewrite Hv. done.
Qed.

Lemma prepare_release_available (p0 p : PreparedUpdate) (w w' : world) :
  prepare_release u e p0 w = (Ok p, w') -> Available p = Available p0.
Proof.
  unfold prepare_release, prepare_candidate, on_error. st_unfold. intros Hb.
  repeat (case_match_in Hb; try discriminate Hb); by injection Hb as <- _.
Qed.

Lemma Prepare_spec (current channel : string) (w w' : world) (res : result PreparedUpdate) :
  Prepare u e current channel w = (res, w') -> candidate w = None ->
  only_candidate w w' /\
  match res with
  | Ok p => if Available p then prepared_ok p w' else candidate w' = None
  | Err _ => no_leftover w'
  end.
Proof.
  unfold Prepare. intros Hb Hc. destruct (normalizeChannel channel) as [ch|x];
    [|injection Hb as <- <-; split; [by apply only_same|by left]].
  apply st_bind_inv in Hb as (rel & w1 & Hrel & Hb). apply latestRelease_same in Hrel as Hs.
  assert (Hc1 : candidate w1 = None) by (destruct Hs as [-> _]; done).
  destruct rel as [release|x]; [|injection Hb as <- <-; split; [by apply only_same|by left]].
  destruct (classifyUpdate current (TagName release)) as [available ahead].
  apply on_error_inv in Hb as (y & w2 & Hy & Hb). apply ask_same in Hy.
  assert (Hs2 : same_disk w w2) by exact (same_disk_trans _ _ _ Hs Hy).
  assert (Hc2 : candidate w2 = None) by (destruct Hs2 as [-> _]; done).
  destruct y as [y|]; [injection Hb as <- <-; split; [by apply only_same|by left]|].
  destruct available; cbn [negb] in Hb.
  - apply prepare_release_spec in Hb as Hp. destruct Hp as [Ho Hp].
    split; [exact (only_trans _ _ _ (only_same _ _ Hs2) Ho)|].
    destruct res as [p|x]; [|by apply Hp]. destruct (Available p) eqn:Ha; [done|].
    exfalso. revert Ha Hb. clear. intros Ha Hb. by rewrite (prepare_release_available _ _ _ _ Hb) in Ha.
  - injection Hb as <- <-. split; [by apply only_same|]. done.
Qed.

End FlowLemmas.

(** ** Lemmas: checksum manifests *)

Definition trim_line (line : string) : string := TrimSuffix line (String CR "").
Definition blank (line : string) : bool := String.eqb (TrimSpace line) "".

(** One line as file name and digest. *)
Definition manifest_entry (line : string) : option (string * list Z) :=
  match Fields line with
  | [digest; file] =>
      decoded ← hex_decode digest;
      if (length decoded =? 32)%nat then Some (TrimPrefix file "*", decoded) else None
  | _ => None
  end.

(** All entries of a manifest, when every line that is not blank is one. *)
Definition manifest_entries (raw : string) : option (list (string * list Z)) :=
  mapM manifest_entry (List.filter (fun l => negb (blank l)) (map trim_line (Split LF raw))).

Definition entries_of (name : string) (es : list (string * list Z)) : list (string * list Z) :=
  List.filter (fun x => String.eqb (fst x) name) es.

Lemma manifest_loop_spec (lines : list string) (name : string) (found : list Z) (k : Z) :
  match mapM manifest_entry (List.filter (fun l => negb (blank l)) (map trim_line lines)) with
  | None => exists x, manifest_loop lines name found k = Err x
  | Some es =>
      manifest_loop lines name found k
        = Ok (fold_left (fun _ x => snd x) (entries_of name es) found, k + Z.of_nat (length (entries_of name es)))
  end.
Proof.
  revert found k. induction lines as [|line lines IH]; intros found k.
  { cbn. by rewrite Z.add_0_r. }
  cbn [map manifest_loop]. fold (trim_line line). fold (blank (trim_line line)).
  cbn [List.filter]. destruct (blank (trim_line line)); cbn [negb]; [apply IH|].
  cbn [mapM]. unfold manifest_entry at 2.
  destruct (Fields (trim_line line)) as [|digest [|file [|]]];
    try (cbn [mbind option_bind]; eexists; reflexivity).
  destruct (hex_decode digest) as [decoded|]; [|cbn [mbind option_bind]; eexists; reflexivity]. cbn [mbind option_bind].
  destruct (length decoded =? 32)%nat; cbn [negb]; [|cbn [mbind option_bind]; eexists; reflexivity]. cbn [mbind option_bind].
  destruct (String.eqb_spec (TrimPrefix file "*") name) as [Hn|Hn]; cbn [negb].
  - specialize (IH decoded (k + 1)). destruct (mapM _ _) as [es|]; cbn [mbind option_bind mret option_ret]; [|done].
    unfold entries_of in *. cbn [List.filter fst]. rewrite Hn, String.eqb_refl.
    cbn [fold_left length snd]. rewrite IH. f_equal. f_equal. lia.
  - specialize (IH found k). destruct (mapM _ _) as [es|]; cbn [mbind option_bind mret option_ret]; [|done].
    unfold entries_of in *. cbn [List.filter fst].
    destruct (String.eqb_spec (TrimPrefix file "*") name); [done|]. done.
Qed.

(** ** Lemmas: the latest preview release *)

Definition eligible (r : Release) (t : canonicalTag) : Prop :=
  Draft r = false /\ parseCanonicalTag (TagName r) = Some t /\ isDev t = true.

(** [best] is the latest eligible release of [seen]. *)
Definition latest_of (seen : list Release) (best : option Release) : Prop :=
  match best with
  | None => forall r t, In r seen -> ~ eligible r t
  | Some b =>
      In b seen /\ exists tb, eligible b tb /\ forall r t, In r seen -> eligible r t -> ~ tag_before tb t
  end.

Lemma eligible_fun (r : Release) (t t' : canonicalTag) : eligible r t -> eligible r t' -> t = t'.
Proof. intros (_ & H1 & _) (_ & H2 & _). congruence. Qed.

Lemma consider_skip (best : option Release) (r : Release) :
  (forall t, ~ eligible r t) -> consider best r = best.
Proof.
  intros Hno. unfold consider. destruct (Draft r) eqn:Hd; [done|].
  destruct (parseCanonicalTag (TagName r)) as [t|] eqn:Ht; [|done].
  destruct (isDev t) eqn:Hdev; [|done]. exfalso. by apply (Hno t).
Qed.

Lemma eligible_dec (r : Release) : (exists t, eligible r t) \/ forall t, ~ eligible r t.
Proof.
  unfold eligible. destruct (Draft r); [right; by intros t (? & _)|].
  destruct (parseCanonicalTag (TagName r)) as [t|]; [|right; by intros t (_ & ? & _)].
  destruct (isDev t) eqn:Hd; [left; by exists t|]. right. intros t' (_ & [= <-] & Hx). congruence.
Qed.

Lemma consider_latest (seen : list Release) (best : option Release) (r : Release) :
  latest_of seen best -> latest_of (seen ++ [r]) (consider best r).
Proof.
  intros Hl. destruct (eligible_dec r) as [[t Ht]|Hno].
  2:{ rewrite consider_skip by done. destruct best as [b|]; cbn in *.
      - destruct Hl as (Hin & tb & Htb & Hmax). split; [apply in_app_iff; by left|]. exists tb. split; [done|].
        intros x tx Hx He. apply in_app_iff in Hx as [Hx|[<-|[]]]; [eauto|by apply Hno in He].
      - intros x tx Hx He. apply in_app_iff in Hx as [Hx|[<-|[]]]; [by eapply Hl|by apply Hno in He]. }
  destruct Ht as (Hd & Hp & Hdev). unfold consider. rewrite Hd, Hp, Hdev. cbn [negb].
  destruct best as [b|]; cbn [latest_of] in Hl.
  - destruct Hl as (Hin & tb & Htb & Hmax). destruct Htb as (Hbd & Hbp & Hbdev).
    unfold compareCanonicalTags. rewrite Hp, Hbp.
    pose proof (proj2 (parse_inv _ _ Hp)) as Hok. pose proof (proj2 (parse_inv _ _ Hbp)) as Hokb.
    pose proof (compare_tags_cases t tb Hok Hokb) as Hc.
    destruct (Z.ltb_spec 0 (compare_tags t tb)); cbn [latest_of].
    + split; [apply in_app_iff; right; by left|]. exists t. split; [done|].
      assert (Hb : tag_before tb t) by (destruct Hc as [[? _]|[[? _]|[_ ?]]]; [lia|lia|done]).
      intros x tx Hx He Hlt. apply in_app_iff in Hx as [Hx|[<-|[]]].
      * eapply Hmax; [done|done|]. by eapply tag_before_trans.
      * destruct He as (_ & He & _). rewrite Hp in He. injection He as <-. by apply tag_before_ne in Hlt.
    + split; [apply in_app_iff; by left|]. exists tb. split; [done|].
      intros x tx Hx He Hlt. apply in_app_iff in Hx as [Hx|[<-|[]]]; [by eapply Hmax|].
      destruct He as (_ & He & _). rewrite Hp in He. injection He as <-.
      destruct Hc as [[_ Hc]|[[_ ->]|[? _]]]; [|by apply tag_before_ne in Hlt|lia].
      by eapply tag_before_irrefl.
  - split; [apply in_app_iff; right; by left|]. exists t. split; [done|].
    intros x tx Hx He Hlt. apply in_app_iff in Hx as [Hx|[<-|[]]]; [by apply (Hl x tx) in Hx|].
    destruct He as (_ & He & _). rewrite Hp in He. injection He as <-. by apply tag_before_ne in Hlt.
Qed.

Lemma fold_consider_latest (l seen : list Release) (best : option Release) :
  latest_of seen best -> latest_of (seen ++ l) (fold_left consider l best).
Proof.
  revert seen best. induction l as [|r l IH]; intros seen best Hl; [by rewrite app_nil_r|].
  cbn [fold_left]. replace (seen ++ r :: l) with ((seen ++ [r]) ++ l) by (by rewrite <- app_assoc).
  by apply IH, consider_latest.
Qed.

Lemma dev_pages_spec `{Unicode} `{ReleaseJSON} (e : env) (pages : nat) (url : string) (best best' : option Release)
    (seen : list Release) (w w' : world) :
  dev_pages e pages url best w = (Ok best', w') -> latest_of seen best ->
  exists read, (length read <= pages)%nat /\ Forall (fun l => exists raw, json_Releases raw = Ok l) read /\
    latest_of (seen ++ concat read) best'.
Proof.
  revert url best seen w. induction pages as [|pages IH]; intros url best seen w Hb Hl; cbn [dev_pages] in Hb.
  { injection Hb as <- <-. exists []. cbn. rewrite app_nil_r. done. }
  apply st_bind_inv in Hb as (page & w1 & Hp & Hb).
  destruct page as [[releases nxt]|x]; [|discriminate Hb].
  apply fetch_spec in Hp as [_ Hp]. destruct (Hp _ eq_refl) as (r & raw & Hraw).
  destruct (json_Releases raw) as [l|] eqn:Hj; [|discriminate Hraw]. injection Hraw as -> _.
  apply (fold_consider_latest releases) in Hl. case_if_in Hb.
  - injection Hb as <- <-. exists [releases]. cbn. rewrite app_nil_r. split; [lia|].
    split; [|done]. by repeat econstructor.
  - destruct (IH _ _ _ _ Hb Hl) as (read & Hlen & Hserved & Hlat). exists (releases :: read).
    cbn [concat length]. rewrite app_assoc. split; [lia|]. split; [|done]. constructor; eauto.
Qed.

Lemma hex_char_digit (x : Z) : 0 <= x < 16 -> hex_digit (hex_char x) = Some x.
Proof.
  intros Hx. assert (H : forallb (fun k => bool_decide (hex_digit (hex_char (Z.of_nat k)) = Some (Z.of_nat k)))
                           (seq 0 16) = true) by (vm_compute; reflexivity).
  rewrite forallb_forall in H. specialize (H (Z.to_nat x) ltac:(apply in_seq; lia)).
  apply bool_decide_eq_true in H. by rewrite Z2Nat.id in H by lia.
Qed.

Lemma hex_decode_encode (l : list Z) :
  Forall (fun b => 0 <= b < 256) l -> hex_decode (hex_encode l) = Some l.
Proof.
  induction l as [|x l IH]; intros Hl; [done|]. apply Forall_cons in Hl as [Hx Hl].
  cbn [hex_encode hex_decode]. pose proof (Z.mod_pos_bound x 16 ltac:(lia)).
  rewrite !hex_char_digit, IH; [|done|lia|].
  - f_equal. f_equal. pose proof (Z.div_mod x 16 ltac:(lia)). lia.
  - split; [apply Z.div_pos; lia|apply Z.div_lt_upper_bound; lia].
Qed.

Lemma hex_encode_inj (a b : list Z) :
  Forall (fun b => 0 <= b < 256) a -> Forall (fun b => 0 <= b < 256) b -> hex_encode a = hex_encode b -> a = b.
Proof.
  intros Ha Hb He. apply (f_equal hex_decode) in He. rewrite !hex_decode_encode in He by done. congruence.
Qed.

Lemma hex_digit_range (c : ascii) (x : Z) : hex_digit c = Some x -> 0 <= x < 16.
Proof. unfold hex_digit. repeat case_if; intros [= <-]; breflect; lia. Qed.

Lemma hex_decode_bytes (s : string) (l : list Z) :
  hex_decode s = Some l -> Forall (fun b => 0 <= b < 256) l.
Proof.
  remember (String.length s) as n eqn:Hn. revert s l Hn.
  induction n as [n IH] using (well_founded_induction lt_wf). intros s l Hn.
  destruct s as [|a [|b s]]; cbn [hex_decode]; [intros [= <-]; constructor|done|].
  destruct (hex_digit a) as [x|] eqn:Hx; [|done]. destruct (hex_digit b) as [y|] eqn:Hy; [|done].
  destruct (hex_decode s) as [t|] eqn:Ht; [|done]. intros [= <-].
  apply hex_digit_range in Hx, Hy. constructor; [lia|].
  eapply (IH (String.length s)); [cbn in Hn; lia|reflexivity|done].
Qed.

Lemma manifest_digest_bytes (raw name : string) (digest : list Z) :
  parseChecksumManifest raw name = Ok digest -> Forall (fun b => 0 <= b < 256) digest.
Proof.
  unfold parseChecksumManifest.
  assert (Hg : forall lines found k f m, manifest_loop lines name found k = Ok (f, m) ->
    Forall (fun b => 0 <= b < 256) found -> Forall (fun b => 0 <= b < 256) f).
  { intros lines. induction lines as [|line lines IH]; intros found k f m; cbn [manifest_loop].
    { by intros [= <- _]. }
    case_if; [apply IH|]. destruct (Fields _) as [|d [|file [|]]]; try done.
    destruct (hex_decode d) as [l|] eqn:Hd; [|done]. case_if; [done|].
    case_if; [apply IH|]. intros Hm _. apply (IH _ _ _ _ Hm). by eapply hex_decode_bytes. }
  destruct (manifest_loop (Split LF raw) name [] 0) as [[f m]|] eqn:Hm; [|done]. case_if; [done|].
  intros [= <-]. by apply (Hg _ _ _ _ _ Hm).
Qed.

Lemma consent_spec (p : ReplacementPreview) (c : ReplacementConsent) :
  ValidateReplacementConsent p c = None ->
  (Risk p <> ReplacementNone -> Yes c = true) /\ (ExpectedPreview c <> ""%string -> ExpectedPreview c = rp_ID p).
Proof.
  unfold ValidateReplacementConsent. destruct (String.eqb_spec (ExpectedPreview c) "") as [He|He]; cbn [negb andb].
  - case_if; [done|]. intros _. split; [|done]. intros Hr. rewrite bool_decide_false in Heqb by done.
    by destruct (Yes c).
  - case_if; [done|]. case_if; [done|]. breflect. case_if; [done|]. intros _. by split.
Qed.

(** ** Theorems *)

(** C20. A prepared update is applied safely, whatever fails and whatever other
    processes do to the candidate before it is read: if the binary is replaced,
    then by bytes with the prepared SHA-256 digest and within the size limit,
    for a canonical version, after two observations of the installation with the
    fingerprint the preview was confirmed with, and a replacement that may lose
    data only with consent; if it is not, the installed binary is as before,
    except on Windows, when it may be left in its stash after both renames
    failed. *)
Theorem apply_installs_only_verified `{Sha256} `{PreviewJSON} (e : env) (p : PreparedUpdate) (w : world) :
  let '((r, err), w') := ApplyPrepared e p w in
  if Updated r then
    (exists c, target w' = Some c /\ hex_encode (sha256 c) = SHA256 p /\ len c <= maxSelfBinarySize) /\
    (exists t, parseCanonicalTag (Version p) = Some t) /\
    exists n m s1 s2 pv1 pv2,
      let cand := mkCandidate (Version p) (SHA256 p) (Channel p) in
      observed e n = Ok s1 /\ NewReplacementPreview cand s1 = Ok pv1 /\ rp_ID pv1 = rp_ID (Preview p) /\
      observed e m = Ok s2 /\ NewReplacementPreview cand s2 = Ok pv2 /\ rp_ID pv2 = rp_ID (Preview p) /\
      (Risk pv1 <> ReplacementNone -> Yes (Consent p) = true) /\
      (ExpectedPreview (Consent p) <> ""%string -> ExpectedPreview (Consent p) = rp_ID (Preview p))
  else
    target w' = target w \/
    windows e = true /\ target w <> None /\ target w' = None /\ stash w' = target w.
Proof.
  destruct (ApplyPrepared e p w) as [[r err] w'] eqn:Ha. apply apply_spec in Ha. cbv zeta in Ha.
  destruct (Updated r); [|exact Ha].
  destruct Ha as ((c & Hc & Hh & Hl & Ht) & n & m & s1 & s2 & pv1 & pv2 & H1 & H2' & H3 & H4 & H5 & H6 & H7).
  apply consent_spec in H4 as [Hy He]. split; [by exists c|]. split; [done|].
  exists n, m, s1, s2, pv1, pv2. rewrite <- H3. repeat split; try done; congruence.
Qed.

(** Preparing an update changes nothing but the candidate.  When it
    succeeds with an update, the candidate's bytes have the digest that the
    checksum manifest of the release lists for the one asset of this platform,
    the release is not a draft and has the announced canonical tag; when it
    fails, or there is no update, no candidate is left, unless removing it
    failed. *)
Theorem prepare_verifies_download `{Unicode} `{ReleaseJSON} `{Sha256} `{PreviewJSON}
    (u : SelfUpdater) (e : env) (current channel : string) (w : world) :
  candidate w = None ->
  let '(res, w') := Prepare u e current channel w in
  target w' = target w /\ staged w' = staged w /\ stash w' = stash w /\
  match res with
  | Ok p =>
      if Available p then
        exists c release asset raw digest,
          candidate w' = Some c /\ sha256 c = digest /\ SHA256 p = hex_encode digest /\
          len c <= maxSelfBinarySize /\ TagName release = Version p /\ Draft release = false /\
          (exists t, parseCanonicalTag (Version p) = Some t) /\
          SelectSelfAsset release (targetOS u e) (targetArch u e) = Ok asset /\
          parseChecksumManifest raw (Name asset) = Ok digest
      else candidate w' = None
  | Err _ => candidate w' = None \/ exists n, os e n <> None
  end.
Proof.
  intros Hc. destruct (Prepare u e current channel w) as [res w'] eqn:Hp.
  apply Prepare_spec in Hp as [(Hs & Ht & Hsh) Hp]; [|done]. repeat (split; [done|]).
  destruct res as [p|x]; [|exact Hp]. destruct (Available p); [|exact Hp].
  destruct Hp as ((c & Hcand & Hh & Hl & Ht') & release & asset & raw & digest & H1' & H2' & H3' & H4' & H5').
  exists c, release, asset, raw, digest. repeat split; try done.
  apply hex_encode_inj; [by apply sha256_bytes| |congruence].
  by apply manifest_digest_bytes in H4'.
Qed.

(** A checksum manifest gives a digest exactly when every line that is not
    blank is a well-formed entry and exactly one of them names the file. *)
Theorem manifest_digest_unique (raw name : string) (digest : list Z) :
  parseChecksumManifest raw name = Ok digest <->
  exists es, manifest_entries raw = Some es /\ entries_of name es = [(name, digest)].
Proof.
  unfold parseChecksumManifest, manifest_entries. pose proof (manifest_loop_spec (Split LF raw) name [] 0) as Hl.
  destruct (mapM manifest_entry _) as [es|].
  2:{ destruct Hl as [x ->]. split; [done|]. by intros (es & ? & _). }
  rewrite Hl, Z.add_0_l. clear Hl. split.
  - case_if; [done|]. breflect. intros [= <-]. exists es. split; [done|].
    assert (Hall : Forall (fun x => fst x = name) (entries_of name es)).
    { apply List.Forall_forall. intros x Hx. apply filter_In in Hx as [_ Hx]. by apply String.eqb_eq. }
    destruct (entries_of name es) as [|[n d] [|]]; cbn in *; try lia.
    apply Forall_cons in Hall as [Hn _]. cbn in Hn. by subst n.
  - intros (es' & [= <-] & ->). done.
Qed.

(** The preview channel finds the latest release: among all releases of the
    at most five pages it reads, drafts and other tags aside, none is later than
    the one it returns (whose details may be fetched again by its tag). *)
Theorem latest_dev_release_maximal `{Unicode} `{ReleaseJSON} (u : SelfUpdater) (e : env) (w w' : world)
    (r : Release) :
  latestDevRelease u e w = (Ok r, w') ->
  exists best read tag,
    (length read <= 5)%nat /\ Forall (fun l => exists raw, json_Releases raw = Ok l) read /\
    In best (concat read) /\ eligible best tag /\
    (forall x t, In x (concat read) -> eligible x t -> ~ tag_before tag t) /\
    (r = best \/ Assets best = []).
Proof.
  unfold latestDevRelease. intros Hb. apply st_bind_inv in Hb as (found & w1 & Hf & Hb).
  destruct found as [[best|]|x]; [|discriminate Hb..].
  destruct (dev_pages_spec e _ _ None (Some best) [] _ _ Hf ltac:(cbn; tauto)) as (read & Hlen & Hserved & Hlat).
  destruct Hlat as (Hin & tag & Hel & Hmax). exists best, read, tag. repeat (split; [done|]).
  destruct (Assets best); [by right|]. injection Hb as <- _. by left.
Qed.

(** ** Witnesses *)

Definition toy_sha256 (s : string) : list Z := replicate 32 (len s mod 256).

Lemma toy_sha256_bytes (s : string) :
  Forall (fun b => 0 <= b < 256) (toy_sha256 s) /\ length (toy_sha256 s) = 32%nat.
Proof.
  unfold toy_sha256. split; [|by rewrite length_replicate]. apply Forall_replicate.
  apply Z.mod_pos_bound. lia.
Qed.

Definition toy_hash : Sha256 := {| sha256 := toy_sha256; sha256_bytes := toy_sha256_bytes |}.

Definition example_release : Release :=
  mkRelease "v1.2.0" false [mkAsset "mihari-linux-amd64" "binary" 3; mkAsset "SHA256SUMS.txt" "sums" 0].

Definition example_json : ReleaseJSON := {|
  json_Release := fun _ => Ok example_release;
  json_Releases := fun _ => Ok [mkRelease "v1.2.0-dev.9" false [no_asset]; mkRelease "v1.2.0-dev.10" false [no_asset];
                                mkRelease "v1.2.0" false []; mkRelease "v1.3.0-dev.1" true []]
|}.

Definition example_preview : PreviewJSON := {| json_preview := fun _ _ => Ok "preview"%string |}.

Definition example_net (_ : nat) (url : string) : outcome :=
  Answer (mkResponse 200 []
    (if String.eqb url "binary" then "abc"
     else if String.eqb url "sums" then (hex_encode (toy_sha256 "abc") ++ "  mihari-linux-amd64")
     else "json")%string None None).

Definition example_env : env :=
  mkEnv example_net (fun _ => None) (fun _ => Ok (mkSnapshot [] "")) (fun _ c => c) "linux" "amd64".

Definition example_updater : SelfUpdater := mkSelfUpdater "" "" "" "".
Definition example_world : world := mkWorld 0 None None (Some "old"%string) None.

(** A whole update without failures installs the downloaded bytes. *)
Example update_example :
  let '(_, w) := @Update ascii_only example_json toy_hash example_preview example_updater example_env
                   "v1.1.0" "main" example_world in
  target w = Some "abc"%string /\ candidate w = None /\ staged w = None.
Proof. vm_compute. done. Qed.

Lemma prepare_verifies_download_witness :
  let '(res, w') := @Prepare ascii_only example_json toy_hash example_preview example_updater example_env
                      "v1.1.0" "main" example_world in
  target w' = Some "old"%string /\ candidate w' = Some "abc"%string.
Proof.
  pose proof (@prepare_verifies_download ascii_only example_json toy_hash example_preview example_updater
                example_env "v1.1.0" "main" example_world eq_refl) as Hp.
  destruct (Prepare _ _ _ _ _) as [res w'] eqn:He. destruct Hp as (Ht & _). split; [exact Ht|].
  vm_compute in He. injection He as _ <-. reflexivity.
Defined.

Definition example_dev : Release := mkRelease "v1.2.0-dev.10" false [no_asset].

(** Number 10 is later than number 9, the draft and the release are passed over. *)
Lemma latest_dev_release_maximal_witness :
  exists best read tag,
    In best (concat read) /\ eligible best tag /\
    (forall x t, In x (concat read) -> eligible x t -> ~ tag_before tag t) /\
    (example_dev = best \/ Assets best = []).
Proof.
  destruct (@latest_dev_release_maximal ascii_only example_json example_updater example_env example_world
              (mkWorld 1 None None (Some "old"%string) None) example_dev)
    as (best & read & tag & _ & _ & Hin & Hel & Hmax & Hr); [vm_compute; reflexivity|].
  exists best, read, tag. split; [exact Hin|]. split; [exact Hel|]. split; [exact Hmax|exact Hr].
Defined.
