(* ===== verification/CoreUpdate.v ===== *)
(** * CoreUpdate: the transaction that replaces the mihomo core

    Models [internal/core/update_transaction.go], the object comparison of
    [provenance_pair.go], the private store of [update_files.go] and the
    execution gate of [verified_command.go].

    The store is a finite map from roles to files.  Every operation on it takes
    the next fault of the environment: it may succeed, fail without an effect or
    fail after its effect (a directory sync behind a rename).  A crash is the
    case that everything from some tick on fails without an effect.  The
    journal's JSON form and SHA-256 are classes. *)

From Stdlib Require Import Ascii.
From S2P Require Import Prelude GoStd Version SelfUpdate.

(** ** Objects and roles *)

Inductive ProvenanceRole :=
| InstalledBinary
| PairJournal
| UpdateJournal
| UpdateCandidate
| UpdateBackup
| UpdateRestore
| UpdateMarker
| UpdateInterrupted
| UpdateCleanup.

#[export] Instance ProvenanceRole_eq_dec : EqDecision ProvenanceRole.
Proof. solve_decision. Defined.

Definition role_code (r : ProvenanceRole) : nat :=
  match r with
  | InstalledBinary => 0 | PairJournal => 1 | UpdateJournal => 2 | UpdateCandidate => 3 | UpdateBackup => 4
  | UpdateRestore => 5 | UpdateMarker => 6 | UpdateInterrupted => 7 | UpdateCleanup => 8
  end%nat.

Definition code_role (n : nat) : option ProvenanceRole :=
  nth_error [InstalledBinary; PairJournal; UpdateJournal; UpdateCandidate; UpdateBackup; UpdateRestore;
             UpdateMarker; UpdateInterrupted; UpdateCleanup] n.

#[export] Instance ProvenanceRole_countable : Countable ProvenanceRole.
Proof. apply (inj_countable role_code code_role). by intros []. Defined.

Record ProvenanceObject := mkObject {
  Present : bool;
  obj_SHA256 : string;
  Identity : string;
  BootID : string
}.

#[export] Instance ProvenanceObject_eq_dec : EqDecision ProvenanceObject.
Proof. solve_decision. Defined.

Definition absent : ProvenanceObject := mkObject false "" "" "".

Definition sameObject (a b : ProvenanceObject) : bool :=
  if negb (Present a) || negb (Present b) then Bool.eqb (Present a) (Present b)
  else if negb (String.eqb (obj_SHA256 a) (obj_SHA256 b)) then false
  else negb (String.eqb (BootID a) (BootID b)) || String.eqb (Identity a) (Identity b).

Record ProvenanceMutation := mkMutation {
  pm_Role : ProvenanceRole;
  pm_Source : option ProvenanceRole;
  pm_Transaction : string;
  pm_Expected : ProvenanceObject;
  pm_SourceExpected : ProvenanceObject
}.

(** ** Hashes and identifiers *)

Definition digest `{Sha256} (b : string) : string := hex_encode (sha256 b).

(** Hexadecimal text of [n] bytes in its canonical form. *)
Definition canonical_hex (n : nat) (s : string) : bool :=
  match hex_decode s with
  | Some l => (length l =? n)%nat && String.eqb (hex_encode l) s
  | None => false
  end.

Definition validHash : string -> bool := canonical_hex 32.
Definition validTransaction : string -> bool := canonical_hex 16.

Definition validProvenanceObject (o : ProvenanceObject) : bool :=
  if negb (Present o) then String.eqb (obj_SHA256 o) "" && String.eqb (Identity o) "" && String.eqb (BootID o) ""
  else validHash (obj_SHA256 o) && negb (String.eqb (Identity o) "") && negb (String.eqb (BootID o) "").

(** ** Selections and the journal *)

Record CoreSelection := mkSelection {
  cs_Channel : string;
  Bundle : string;
  cs_Version : string;
  AlphaSHA : string
}.

#[export] Instance CoreSelection_eq_dec : EqDecision CoreSelection.
Proof. solve_decision. Defined.

Definition validSelection (s : CoreSelection) : bool :=
  String.eqb (cs_Channel s) "stable" || String.eqb (cs_Channel s) "alpha".

Record UpdateIntent := mkIntent {
  Previous : CoreSelection;
  Next : CoreSelection;
  WasRunning : bool;
  StartNew : bool;
  Reinstall : bool
}.

#[export] Instance UpdateIntent_eq_dec : EqDecision UpdateIntent.
Proof. solve_decision. Defined.

Record updateJournal := mkJournal {
  j_Schema : string;
  Transaction : string;
  Phase : string;
  Intent : UpdateIntent;
  Old : ProvenanceObject;
  New : ProvenanceObject;
  Backup : ProvenanceObject;
  Restore : ProvenanceObject;
  Marker : ProvenanceObject
}.

#[export] Instance updateJournal_eq_dec : EqDecision updateJournal.
Proof. solve_decision. Defined.

Definition with_Phase (phase : string) (j : updateJournal) : updateJournal :=
  mkJournal (j_Schema j) (Transaction j) phase (Intent j) (Old j) (New j) (Backup j) (Restore j) (Marker j).

(** [json.Marshal] of a journal and [decodeStrict] into one. *)
Class JournalJSON := {
  json_Marshal : updateJournal -> string;
  decodeStrict : string -> result updateJournal
}.

Record UpdateTransaction := mkTransaction {
  journal : updateJournal;
  warnings : list error;
  uncertain : bool
}.

Definition updateSchema : string := "mihari.core-update/v1".
Definition dataFailure (m : string) : error := api_error CodeDataFailure m.

Definition coreUpdateUncertain (cause : option error) : error :=
  diagnostics_Wrap (degraded_api CodeDataFailure "core update commit state could not be confirmed; recovery required") cause.

(** ** The world *)

Record file := mkFile {
  content : string;
  ident : string
}.

Record executionGate := mkGate {
  installed : ProvenanceObject;
  admitted : bool
}.

Record store := mkStore {
  files : gmap (ProvenanceRole * string) file;
  gate : executionGate;
  selection : CoreSelection;
  clock : nat
}.

Definition set_files (f : gmap (ProvenanceRole * string) file) (w : store) : store :=
  mkStore f (gate w) (selection w) (clock w).
Definition set_gate (g : executionGate) (w : store) : store := mkStore (files w) g (selection w) (clock w).
Definition set_selection (c : CoreSelection) (w : store) : store := mkStore (files w) (gate w) c (clock w).

(** The behaviour of the environment: the fault of each operation, the identity
    of each new file, and the boot the daemon runs in. *)
Record environment := mkEnvironment {
  op : nat -> fault;
  fresh : nat -> string;
  boot : string
}.

(** [fileUpdatePath]: the installed binary is the same file in every
    transaction; [None] is an invalid combination. *)
Definition key (role : ProvenanceRole) (tx : string) : option (ProvenanceRole * string) :=
  match role with
  | InstalledBinary => Some (InstalledBinary, ""%string)
  | PairJournal => if String.eqb tx "" then Some (PairJournal, ""%string) else None
  | UpdateJournal => if String.eqb tx "" then Some (UpdateJournal, ""%string) else None
  | r => if validTransaction tx then Some (r, tx) else None
  end.

Definition maxCoreBinarySize : Z := 134217728.

Section Store.
Context `{Sha256} (e : environment).

(** The observation of a file. *)
Definition observe_file (f : option file) : ProvenanceObject :=
  match f with None => absent | Some f => mkObject true (digest (content f)) (ident f) (boot e) end.

(** [readUpdateFile] refuses a file above the size limit. *)
Definition oversized (f : option file) : bool :=
  match f with None => false | Some f => maxCoreBinarySize <? len (content f) end.

Definition next_fault : st store fault :=
  fun w => (op e (clock w), mkStore (files w) (gate w) (selection w) (S (clock w))).

Definition store_Load (role : ProvenanceRole) (tx : string) : st store (result string) :=
  match key role tx with
  | None => st_ret (Err (ESentinel ErrInvalid))
  | Some k =>
      let! x := next_fault in
      let! w := st_get in
      st_ret match fault_error x with
             | Some err => Err err
             | None =>
                 if oversized (files w !! k) then Err (ESentinel ErrPermission)
                 else match files w !! k with Some f => Ok (content f) | None => Err (ESentinel ErrNotExist) end
             end
  end.

Definition store_Inspect (role : ProvenanceRole) (tx : string) : st store (result ProvenanceObject) :=
  match key role tx with
  | None => st_ret (Err (ESentinel ErrInvalid))
  | Some k =>
      let! x := next_fault in
      let! w := st_get in
      st_ret match fault_error x with
             | Some err => Err err
             | None =>
                 if oversized (files w !! k) then Err (ESentinel ErrPermission)
                 else Ok (observe_file (files w !! k))
             end
  end.

Definition store_Save (role : ProvenanceRole) (tx : string) (body : string) : st store (option error) :=
  if (maxCoreBinarySize <? len body) || bool_decide (role = InstalledBinary) || bool_decide (role = PairJournal)
  then st_ret (Some (ESentinel ErrInvalid))
  else match key role tx with
  | None => st_ret (Some (ESentinel ErrInvalid))
  | Some k =>
      let! x := next_fault in
      let! w := st_get in
      match x with
      | FErr err => st_ret (Some err)
      | _ =>
          if bool_decide (is_Some (files w !! k)) && negb (bool_decide (role = UpdateJournal)) then
            st_ret (Some (ESentinel ErrExist))
          else
            do! st_modify (fun w => set_files (<[k := mkFile body (fresh e (clock w))]> (files w)) w) in
            st_ret (fault_error x)
      end
  end.

(** [Apply]: remove or move one observed object. *)
Definition store_Apply (a : ProvenanceMutation) : st store (option error) :=
  match key (pm_Role a) (pm_Transaction a) with
  | None => st_ret (Some (ESentinel ErrInvalid))
  | Some k =>
      let! x := next_fault in
      let! w := st_get in
      match x with
      | FErr err => st_ret (Some err)
      | _ =>
          if oversized (files w !! k) then st_ret (Some (ESentinel ErrPermission))
          else if negb (sameObject (observe_file (files w !! k)) (pm_Expected a)) then
            st_ret (Some (dataFailure "core update destination identity changed"))
          else match pm_Source a with
          | None =>
              if negb (Present (observe_file (files w !! k))) then st_ret None
              else do! st_modify (fun w => set_files (delete k (files w)) w) in st_ret (fault_error x)
          | Some source =>
              if negb (bool_decide (pm_Role a = InstalledBinary))
                 || negb (bool_decide (source = UpdateCandidate) || bool_decide (source = UpdateRestore))
              then st_ret (Some (ESentinel ErrInvalid))
              else match key source (pm_Transaction a) with
              | None => st_ret (Some (ESentinel ErrInvalid))
              | Some ks =>
                  match files w !! ks with
                  | None => st_ret (Some (ESentinel ErrNotExist))
                  | Some f =>
                      if oversized (Some f) then st_ret (Some (ESentinel ErrPermission))
                      else if negb (sameObject (observe_file (Some f)) (pm_SourceExpected a)) then
                        st_ret (Some (dataFailure "core update source identity changed"))
                      else
                        do! st_modify (fun w => set_files (<[k := f]> (delete ks (files w))) w) in
                        st_ret (fault_error x)
                  end
              end
          end
      end
  end.

(** [executionGate.acquire]: fails only with the context. *)
Definition acquire : st store (option error) := let! x := next_fault in st_ret (fault_error x).

Definition admitInstalled (observed : ProvenanceObject) : st store (option error) :=
  let! w := st_get in
  if admitted (gate w) && negb (sameObject (installed (gate w)) observed) then
    st_ret (Some (dataFailure "installed mihomo changed outside a core update transaction"))
  else do! st_modify (set_gate (mkGate observed true)) in st_ret None.

Definition acceptPublished (observed : ProvenanceObject) : st store unit :=
  st_modify (set_gate (mkGate observed (Present observed))).

(** The owner's callbacks: the core part of the settings is written. *)
Definition save_selection (c : CoreSelection) : st store (option error) :=
  let! x := next_fault in
  match x with
  | FErr err => st_ret (Some err)
  | _ => do! st_modify (set_selection c) in st_ret (fault_error x)
  end.

End Store.

(** ** The transaction *)

Section Transactions.
Context `{Sha256} `{JournalJSON} (e : environment).

Definition phases : list string :=
  ["prepared"; "publishing"; "verifying"; "committing"; "committed"; "rolling_back"; "rolled_back";
   "recovery_required"]%string.

Definition decodeUpdateJournal (raw : string) : result updateJournal :=
  match decodeStrict raw with
  | Err x => Err x
  | Ok j =>
      if negb (String.eqb (j_Schema j) updateSchema) || negb (validTransaction (Transaction j))
         || negb (validSelection (Previous (Intent j))) || negb (validSelection (Next (Intent j)))
      then Err (dataFailure "invalid core update journal")
      else if negb (bool_decide (Phase j ∈ phases)) then Err (dataFailure "invalid core update phase")
      else if negb (forallb validProvenanceObject [Old j; New j; Backup j; Restore j; Marker j]) then
        Err (dataFailure "invalid core update file observation")
      else if negb (Present (New j)) || negb (Present (Marker j))
              || negb (String.eqb (obj_SHA256 (Marker j)) (digest (Transaction j)))
              || negb (Bool.eqb (Present (Old j)) (Present (Backup j)))
              || negb (Bool.eqb (Present (Old j)) (Present (Restore j)))
      then Err (dataFailure "incomplete core update journal")
      else if Present (Old j)
              && (negb (String.eqb (obj_SHA256 (Old j)) (obj_SHA256 (Backup j)))
                  || negb (String.eqb (obj_SHA256 (Old j)) (obj_SHA256 (Restore j))))
      then Err (dataFailure "core update recovery hashes disagree")
      else Ok j
  end.

Definition verifyMarker (j : updateJournal) : st store (option error) :=
  let! marker := store_Inspect e UpdateMarker (Transaction j) in
  st_ret match marker with
         | Err x => Some x
         | Ok m => if negb (sameObject m (Marker j)) then Some (dataFailure "core update transaction identity changed") else None
         end.

Definition OpenUpdate : st store (result UpdateTransaction) :=
  let! raw := store_Load e UpdateJournal "" in
  match raw with
  | Err x => st_ret (Err x)
  | Ok raw =>
      let! pair := store_Load e PairJournal "" in
      let coexist x := Err (match errors_Join (Some (dataFailure "legacy and current core recovery journals coexist")) x
                            with Some y => y | None => dataFailure "" end) in
      match pair with
      | Ok _ => st_ret (coexist None)
      | Err x =>
          if negb (errors_Is x ErrNotExist) then st_ret (coexist (Some x))
          else match decodeUpdateJournal raw with
          | Err x => st_ret (Err x)
          | Ok j =>
              let! bad := verifyMarker j in
              st_ret match bad with Some x => Err x | None => Ok (mkTransaction j [] false) end
          end
      end
  end.

(** [writePhase]: after a failed save the store is read back. *)
Definition writePhase (phase : string) (u : UpdateTransaction) : st store (option error * UpdateTransaction) :=
  if uncertain u then st_ret (Some (coreUpdateUncertain None), u)
  else
    let next := with_Phase phase (journal u) in
    let raw := json_Marshal next in
    let! saved := store_Save e UpdateJournal "" raw in
    match saved with
    | None => st_ret (None, mkTransaction next (warnings u) false)
    | Some err =>
        let! actual := store_Load e UpdateJournal "" in
        let unsure x :=
          (Some (coreUpdateUncertain (errors_Join (Some err) x)), mkTransaction (journal u) (warnings u) true) in
        st_ret
          match actual with
          | Err readErr =>
              if String.eqb (Phase (journal u)) "" && errors_Is readErr ErrNotExist then (Some err, u)
              else unsure (Some readErr)
          | Ok actual =>
              if String.eqb (digest actual) (digest raw) then
                (None, mkTransaction next (warnings u ++ [err]) false)
              else match decodeStrict actual with
                   | Ok previous => if bool_decide (previous = journal u) then (Some err, u) else unsure None
                   | Err _ => unsure None
                   end
          end
    end.

Definition move (source : option ProvenanceRole) (expected sourceExpected : ProvenanceObject) (u : UpdateTransaction)
    : st store (option error * UpdateTransaction) :=
  let tx := Transaction (journal u) in
  let! applied := store_Apply e (mkMutation InstalledBinary source tx expected sourceExpected) in
  match applied with
  | None => st_ret (None, u)
  | Some err =>
      let! actual := store_Inspect e InstalledBinary tx in
      let wanted := match source with None => absent | Some _ => sourceExpected end in
      st_ret
        match actual with
        | Err readErr => (errors_Join (Some err) (Some readErr), u)
        | Ok o =>
            if negb (sameObject o wanted) then (Some err, u)
            else (None, mkTransaction (journal u) (warnings u ++ [err]) (uncertain u))
        end
  end.

Definition recovery_error (cause : option error) : error :=
  diagnostics_Wrap (degraded_api CodeDataFailure "core update recovery failed; automatic execution prohibited") cause.

Definition recoveryFailure (cause : error) (u : UpdateTransaction) : st store (option error * UpdateTransaction) :=
  if uncertain u || String.eqb (Phase (journal u)) "committed" then
    st_ret (Some (coreUpdateUncertain (Some cause)), u)
  else
    let! '(markerErr, u) := writePhase "recovery_required" u in
    st_ret (Some (recovery_error (errors_Join (Some cause) markerErr)), u).

(** Continue unless a step of the transaction fails. *)
Definition or_return (m : st store (option error)) (h : error -> st store (option error * UpdateTransaction))
    (k : st store (option error * UpdateTransaction)) : st store (option error * UpdateTransaction) :=
  let! x := m in match x with Some x => h x | None => k end.

Definition Publish (u : UpdateTransaction) : st store (option error * UpdateTransaction) :=
  if negb (String.eqb (Phase (journal u)) "prepared") then
    st_ret (Some (dataFailure "core update is not prepared"), u)
  else
    or_return (acquire e) (fun x => st_ret (Some x, u))
    (or_return (verifyMarker (journal u)) (fun x => st_ret (Some x, u))
    (let! '(err, u) := writePhase "publishing" u in
     match err with
     | Some x => st_ret (Some x, u)
     | None =>
         let j := journal u in
         let! '(err, u) := move (Some UpdateCandidate) (Old j) (New j) u in
         match err with
         | Some x => st_ret (Some x, u)
         | None => do! acceptPublished (New j) in writePhase "verifying" u
         end
     end)).

(** The switch of [Rollback] on the installed core. *)
Definition restore_core (current : ProvenanceObject) (u : UpdateTransaction)
    : st store (option error * UpdateTransaction) :=
  let j := journal u in
  if sameObject current (Old j) || Present (Old j) && sameObject current (Restore j) then st_ret (None, u)
  else if sameObject current (New j) then
    move (if Present (Old j) then Some UpdateRestore else None) current (Restore j) u
  else st_ret (Some (dataFailure "unknown core identity prevents rollback"), u).

Definition Rollback (u : UpdateTransaction) : st store (option error * UpdateTransaction) :=
  if String.eqb (Phase (journal u)) "committed" || Reinstall (Intent (journal u)) then
    st_ret (Some (dataFailure "core update cannot be rolled back"), u)
  else if uncertain u then st_ret (Some (coreUpdateUncertain None), u)
  else
    or_return (acquire e) (fun x => st_ret (Some x, u))
    (or_return (verifyMarker (journal u)) (fun x => recoveryFailure x u)
    (let! '(err, u) := writePhase "rolling_back" u in
     match err with
     | Some x => recoveryFailure x u
     | None =>
         let j := journal u in
         let! current := store_Inspect e InstalledBinary "" in
         match current with
         | Err x => recoveryFailure x u
         | Ok current =>
             let! '(err, u) := restore_core current u in
             match err with
             | Some x => recoveryFailure x u
             | None =>
                 or_return (save_selection e (Previous (Intent j))) (fun x => recoveryFailure x u)
                 (let! current := store_Inspect e InstalledBinary "" in
                  match current with
                  | Err x => recoveryFailure x u
                  | Ok current => do! acceptPublished current in st_ret (None, u)
                  end)
             end
         end
     end)).

Definition verifyFinalCore (committed : bool) (j : updateJournal) : st store (option error) :=
  let! current := store_Inspect e InstalledBinary "" in
  st_ret
    match current with
    | Err x => Some x
    | Ok current =>
        if committed && sameObject current (New j)
           || negb committed && (sameObject current (Old j) || Present (Old j) && sameObject current (Restore j))
        then None else Some (dataFailure "core identity disagrees with completed update")
    end.

Definition CompleteRollback (u : UpdateTransaction) : st store (option error * UpdateTransaction) :=
  if negb (String.eqb (Phase (journal u)) "rolling_back") || uncertain u then
    st_ret (Some (dataFailure "core rollback has not been verified"), u)
  else
    or_return (acquire e) (fun x => st_ret (Some x, u))
    (or_return (verifyMarker (journal u)) (fun x => recoveryFailure x u)
    (or_return (verifyFinalCore false (journal u)) (fun x => recoveryFailure x u)
    (writePhase "rolled_back" u))).

Definition Commit (u : UpdateTransaction) : st store (option error * UpdateTransaction) :=
  if negb (String.eqb (Phase (journal u)) "verifying") then
    st_ret (Some (dataFailure "core update has not been verified"), u)
  else
    or_return (verifyMarker (journal u)) (fun x => st_ret (Some x, u))
    (let! current := store_Inspect e InstalledBinary "" in
     match current with
     | Err x => st_ret (Some x, u)
     | Ok current =>
         if negb (sameObject current (New (journal u))) then
           st_ret (Some (dataFailure "published core changed before commit"), u)
         else
           let! '(err, u) := writePhase "committing" u in
           match err with
           | Some x => st_ret (Some x, u)
           | None =>
               or_return (save_selection e (Next (Intent (journal u)))) (fun x => st_ret (Some x, u))
                 (writePhase "committed" u)
           end
     end).

Definition RequireRecovery (cause : error) (u : UpdateTransaction) : st store (option error * UpdateTransaction) :=
  recoveryFailure cause u.

(** [ReinstallSelection]. *)
Definition ReinstallSelection (u : UpdateTransaction) : CoreSelection * bool :=
  let i := Intent (journal u) in
  if String.eqb (Phase (journal u)) "committed" then (Next i, StartNew i) else (Previous i, StartNew i).

(** Fallible steps in sequence. *)
Definition rbind {A B} (m : st store (result A)) (k : A -> st store (result B)) : st store (result B) :=
  let! x := m in match x with Err y => st_ret (Err y) | Ok a => k a end.
Definition rguard {B} (m : st store (option error)) (k : st store (result B)) : st store (result B) :=
  let! x := m in match x with Some y => st_ret (Err y) | None => k end.

(** [deferCleanupLocked]: the completed journal is archived, the archive's
    durability confirmed, and the journal released. *)
Definition deferCleanupLocked (u : UpdateTransaction) : st store (option error) :=
  let j := journal u in
  let committed := String.eqb (Phase j) "committed" in
  let finish (r : result unit) : option error := match r with Ok _ => None | Err x => Some x end in
  if uncertain u || negb committed && negb (String.eqb (Phase j) "rolled_back") then
    st_ret (Some (dataFailure "core recovery required before update"))
  else
    let! r :=
      rguard (verifyFinalCore committed j)
      (rguard (verifyMarker j)
      (let raw := json_Marshal j in
       rbind (store_Inspect e UpdateJournal "") (fun current =>
       if negb (Present current) || negb (String.eqb (obj_SHA256 current) (digest raw)) then
         st_ret (Err (dataFailure "completed core journal changed"))
       else
         let! archived := store_Load e UpdateCleanup (Transaction j) in
         rguard
           match archived with
           | Ok a => st_ret (if negb (String.eqb (digest a) (digest raw))
                             then Some (dataFailure "core pending cleanup record changed") else None)
           | Err x =>
               if errors_Is x ErrNotExist then store_Save e UpdateCleanup (Transaction j) raw else st_ret (Some x)
           end
         (let! synced := next_fault e in
          rguard (st_ret (fault_error synced))
          (rguard (store_Apply e (mkMutation UpdateJournal None "" current absent)) (st_ret (Ok tt))))))) in
    st_ret (finish r).

(** The part of [beginUpdate] that a reinstallation runs over an interrupted
    update: the original selection and intent are kept, its record archived. *)
Definition adopt_interrupted (previous : string) (intent : UpdateIntent) : st store (result UpdateIntent) :=
  rbind OpenUpdate (fun interrupted =>
    let '(sel, start) := ReinstallSelection interrupted in
    if negb (String.eqb (cs_Channel (Next intent)) (cs_Channel sel)) || negb (bool_decide (Previous intent = sel)) then
      st_ret (Err (dataFailure "reinstall must use the original core selection"))
    else
      let intent := mkIntent (Previous intent) (Next intent) (WasRunning (Intent (journal interrupted))) start (Reinstall intent) in
      let tx := Transaction (journal interrupted) in
      let! archived := store_Load e UpdateInterrupted tx in
      rguard
        match archived with
        | Ok a => st_ret (if negb (String.eqb (digest a) (digest previous))
                          then Some (dataFailure "interrupted update record changed") else None)
        | Err x =>
            if errors_Is x ErrNotExist then store_Save e UpdateInterrupted tx previous else st_ret (Some x)
        end
      (st_ret (Ok intent))).

(** The backups of [beginUpdate]: the objects of backup and restoration copy. *)
Definition save_backups (tx : string) (old : ProvenanceObject)
    : st store (result (ProvenanceObject * ProvenanceObject)) :=
  if negb (Present old) then st_ret (Ok (absent, absent))
  else
    rbind (store_Load e InstalledBinary "") (fun body =>
    rbind (store_Inspect e InstalledBinary "") (fun current =>
    if negb (sameObject old current) || negb (String.eqb (digest body) (obj_SHA256 old)) then
      st_ret (Err (dataFailure "installed core changed while preparing backup"))
    else
      rguard (store_Save e UpdateBackup tx body)
      (rguard (store_Save e UpdateRestore tx body)
      (rbind (store_Inspect e UpdateBackup tx) (fun backup =>
       rbind (store_Inspect e UpdateRestore tx) (fun restore =>
       if negb (String.eqb (obj_SHA256 backup) (obj_SHA256 old)) || negb (String.eqb (obj_SHA256 restore) (obj_SHA256 old))
       then st_ret (Err (dataFailure "core update backup changed"))
       else st_ret (Ok (backup, restore)))))))).

(** The snapshot of [beginUpdate]: [pending] tells whether a reinstallation
    found an interrupted update. *)
Definition snapshot_update (tx : string) (expected : ProvenanceObject) (intent : UpdateIntent) (pending reinstall : bool)
    : st store (result UpdateTransaction) :=
  let intent := mkIntent (Previous intent) (Next intent) (WasRunning intent) (StartNew intent) reinstall in
  rbind (store_Inspect e UpdateCandidate tx) (fun new =>
  rbind (store_Inspect e UpdateMarker tx) (fun marker =>
  if negb (Present new) || negb (sameObject new expected) || negb (Present marker)
     || negb (String.eqb (obj_SHA256 marker) (digest tx)) then
    st_ret (Err (dataFailure "core update candidate or marker missing"))
  else
  rbind (store_Inspect e InstalledBinary "") (fun old =>
  let! admission := admitInstalled old in
  rguard (st_ret (if reinstall then None else admission))
  (let intent :=
     if negb reinstall || negb pending then
       mkIntent (Previous intent) (Next intent) (WasRunning intent)
         (WasRunning intent || negb (Present old) && StartNew intent) (Reinstall intent)
     else intent in
   rbind (save_backups tx old) (fun '(backup, restore) =>
   let! '(err, u) :=
     writePhase "prepared" (mkTransaction (mkJournal updateSchema tx "" intent old new backup restore marker) [] false) in
   st_ret match err with Some x => Err x | None => Ok u end))))).

Definition beginUpdate (tx : string) (expected : ProvenanceObject) (intent : UpdateIntent) (reinstall : bool)
    : st store (result UpdateTransaction) :=
  if negb (validTransaction tx) || negb (validSelection (Previous intent)) || negb (validSelection (Next intent)) then
    st_ret (Err (dataFailure "invalid core update intent"))
  else
    rguard (acquire e)
    (let! pair := store_Load e PairJournal "" in
     let legacy x := Err (match errors_Join (Some (dataFailure "legacy core recovery required before update")) x
                          with Some y => y | None => dataFailure "" end) in
     match pair with
     | Ok _ => st_ret (legacy None)
     | Err x =>
         if negb (errors_Is x ErrNotExist) then st_ret (legacy (Some x))
         else
           let! previous := store_Load e UpdateJournal "" in
           match previous with
           | Err x =>
               if negb (errors_Is x ErrNotExist) then st_ret (Err x)
               else if reinstall && negb (String.eqb (cs_Channel (Next intent)) (cs_Channel (Previous intent))) then
                 st_ret (Err (dataFailure "reinstall cannot switch the core channel"))
               else snapshot_update tx expected intent false reinstall
           | Ok previous =>
               if reinstall then
                 rbind (adopt_interrupted previous intent) (fun intent =>
                 if negb (String.eqb (cs_Channel (Next intent)) (cs_Channel (Previous intent))) then
                   st_ret (Err (dataFailure "reinstall cannot switch the core channel"))
                 else snapshot_update tx expected intent true true)
               else
                 rbind OpenUpdate (fun completed =>
                 rguard (deferCleanupLocked completed) (snapshot_update tx expected intent false false))
           end
     end).

Definition BeginUpdate (tx : string) (expected : ProvenanceObject) (intent : UpdateIntent) :=
  beginUpdate tx expected intent false.

(** The authority carried by a context: [ExecutionContext]. *)
Record updateExecution := mkExecution {
  ex_transaction : string;
  ex_newCore : bool
}.

Definition ExecutionContext (u : UpdateTransaction) : updateExecution :=
  let p := Phase (journal u) in
  mkExecution (Transaction (journal u))
    (String.eqb p "verifying" || String.eqb p "committing" || String.eqb p "committed").

Definition authorizePendingUpdate (authority : option updateExecution) : st store (option error) :=
  let! update := OpenUpdate in
  match update with
  | Err x => st_ret (if errors_Is x ErrNotExist then None else Some x)
  | Ok u =>
      let p := Phase (journal u) in
      if String.eqb p "committed" || String.eqb p "rolled_back" then
        verifyFinalCore (String.eqb p "committed") (journal u)
      else
        st_ret
          match authority with
          | None => Some (dataFailure "core update recovery or transaction ownership required")
          | Some a =>
              if negb (String.eqb (ex_transaction a) (Transaction (journal u))) then
                Some (dataFailure "core update recovery or transaction ownership required")
              else if ex_newCore a && (String.eqb p "verifying" || String.eqb p "committing" || String.eqb p "committed") then None
              else if negb (ex_newCore a) && (String.eqb p "rolling_back" || String.eqb p "rolled_back") then None
              else Some (dataFailure "core update phase does not allow this execution")
          end
  end.

(** [InterruptedUpdate]; [ctxErr] is the context's error after a refused
    authorization. *)
Definition InterruptedUpdate (authority : option updateExecution) (ctxErr : option error) : st store (result bool) :=
  let! pending := OpenUpdate in
  match pending with
  | Err x => st_ret (if errors_Is x ErrNotExist then Ok false else Err x)
  | Ok u =>
      let p := Phase (journal u) in
      if String.eqb p "committed" || String.eqb p "rolled_back" then
        let! refused := authorizePendingUpdate authority in
        st_ret match refused with
               | None => Ok false
               | Some _ => match ctxErr with Some x => Err x | None => Ok true end
               end
      else st_ret (Ok true)
  end.

End Transactions.

(** ** Lemmas: store operations *)

(** Everything but the clock is unchanged. *)
Definition same_store (w w' : store) : Prop :=
  files w' = files w /\ gate w' = gate w /\ selection w' = selection w.

Lemma same_store_trans (a b c : store) : same_store a b -> same_store b c -> same_store a c.
Proof. unfold same_store. intros (? & ? & ?) (? & ? & ?). repeat split; congruence. Qed.

(** An operation reports a missing file only when it is missing. *)
Definition honest (e : environment) : Prop :=
  forall n x, fault_error (op e n) = Some x -> errors_Is x ErrNotExist = false.

(** Nothing fails. *)
Definition fault_free (e : environment) : Prop := forall n, op e n = FOk.

Definition journal_key : ProvenanceRole * string := (UpdateJournal, ""%string).
Definition core_key : ProvenanceRole * string := (InstalledBinary, ""%string).

Section StoreLemmas.
Context `{Sha256} (e : environment).

Lemma next_fault_inv (w w' : store) (x : fault) :
  next_fault e w = (x, w') -> same_store w w' /\ exists n, op e n = x.
Proof. unfold next_fault. intros [= <- <-]. split; [done|eauto]. Qed.

Lemma store_Load_spec (role : ProvenanceRole) (tx : string) (w w' : store) (r : result string) :
  store_Load e role tx w = (r, w') ->
  same_store w w' /\
  match r with
  | Ok c => exists k f, key role tx = Some k /\ files w !! k = Some f /\ content f = c
  | Err x => honest e -> errors_Is x ErrNotExist = true -> exists k, key role tx = Some k /\ files w !! k = None
  end.
Proof.
  unfold store_Load. destruct (key role tx) as [k|]; [|intros [= <- <-]; split; [done|by intros _ ?]].
  intros Hb. apply st_bind_inv in Hb as (x & w1 & Hx & Hb). apply next_fault_inv in Hx as [Hs [n Hn]].
  apply st_bind_inv in Hb as (w2 & w3 & [= <- <-] & [= <- <-]). split; [done|].
  destruct Hs as [Hf _]. rewrite Hf. destruct (fault_error x) as [y|] eqn:Hfe.
  - intros Hh Hne. subst x. rewrite (Hh n y Hfe) in Hne. done.
  - case_if; [done|]. destruct (files w !! k) as [f|] eqn:Hk; eauto.
Qed.

Lemma store_Inspect_spec (role : ProvenanceRole) (tx : string) (w w' : store) (r : result ProvenanceObject) :
  store_Inspect e role tx w = (r, w') ->
  same_store w w' /\
  forall o, r = Ok o -> exists k, key role tx = Some k /\ o = observe_file e (files w !! k) /\ oversized (files w !! k) = false.
Proof.
  unfold store_Inspect. destruct (key role tx) as [k|]; [|by intros [= <- <-]].
  intros Hb. apply st_bind_inv in Hb as (x & w1 & Hx & Hb). apply next_fault_inv in Hx as [Hs [n Hn]].
  apply st_bind_inv in Hb as (w2 & w3 & [= <- <-] & [= <- <-]). split; [done|].
  destruct Hs as [Hf _]. rewrite Hf. intros o. destruct (fault_error x); [done|]. case_if; [done|].
  intros [= <-]. eauto.
Qed.

Lemma store_Inspect_honest (role : ProvenanceRole) (tx : string) (w w' : store) (x : error) :
  store_Inspect e role tx w = (Err x, w') -> honest e -> errors_Is x ErrNotExist = false.
Proof.
  unfold store_Inspect. destruct (key role tx) as [k|]; [|by intros [= <- <-]].
  intros Hb Hh. apply st_bind_inv in Hb as (y & w1 & Hy & Hb). apply next_fault_inv in Hy as [_ [n Hn]].
  apply st_bind_inv in Hb as (w2 & w3 & [= <- <-] & Hb). revert Hb. subst y.
  destruct (fault_error (op e n)) as [z|] eqn:Hz; [intros [= <- _]; by apply (Hh n)|].
  case_if; [by intros [= <- _]|done].
Qed.

(** A save either does nothing and fails, or writes the whole new file. *)
Lemma store_Save_spec (role : ProvenanceRole) (tx body : string) (w w' : store) (err : option error) :
  store_Save e role tx body w = (err, w') ->
  gate w' = gate w /\ selection w' = selection w /\
  (files w' = files w /\ err <> None \/
   exists k n, key role tx = Some k /\ role <> InstalledBinary /\ role <> PairJournal /\
     (files w !! k = None \/ role = UpdateJournal) /\ files w' = <[k := mkFile body (fresh e n)]> (files w)).
Proof.
  unfold store_Save. intros Hb. case_if_in Hb; [injection Hb as <- <-; auto|]. breflect.
  destruct (key role tx) as [k|]; [|injection Hb as <- <-; auto].
  apply st_bind_inv in Hb as (x & w1 & Hx & Hb). apply next_fault_inv in Hx as [(Hf & Hg & Hsel) _].
  apply st_bind_inv in Hb as (w2 & w3 & [= <- <-] & Hb). rewrite <- Hf.
  assert (Hgo : forall w'', (if bool_decide (is_Some (files w1 !! k)) && negb (bool_decide (role = UpdateJournal))
      then st_ret (Some (ESentinel ErrExist))
      else do! st_modify (fun w => set_files (<[k := mkFile body (fresh e (clock w))]> (files w)) w) in
           st_ret (fault_error x)) w1 = (err, w'') ->
    gate w'' = gate w /\ selection w'' = selection w /\
    (files w'' = files w1 /\ err <> None \/
     exists k0 n, Some k = Some k0 /\ role <> InstalledBinary /\ role <> PairJournal /\
       (files w1 !! k0 = None \/ role = UpdateJournal) /\ files w'' = <[k0 := mkFile body (fresh e n)]> (files w1))).
  { intros w'' Hw. case_if_in Hw; [injection Hw as <- <-; rewrite Hg, Hsel; auto|].
    injection Hw as _ <-. cbn. split; [done|]. split; [done|]. right. exists k, (clock w1).
    repeat split; try done. apply andb_false_iff in Heqb as [Hz|Hz]; breflect.
    - left. by apply eq_None_not_Some.
    - by right. }
  destruct x; [by apply Hgo| |by apply Hgo]. injection Hb as <- <-. rewrite Hg, Hsel. auto.
Qed.

(** Moving a source onto the installed binary: nothing, or exactly that. *)
Lemma store_Apply_move_spec (source : ProvenanceRole) (tx : string) (exp srcExp : ProvenanceObject) (w w' : store)
    (err : option error) :
  store_Apply e (mkMutation InstalledBinary (Some source) tx exp srcExp) w = (err, w') ->
  gate w' = gate w /\ selection w' = selection w /\
  (files w' = files w /\ err <> None \/
   exists ks f, key source tx = Some ks /\ files w !! ks = Some f /\
     sameObject (observe_file e (files w !! core_key)) exp = true /\
     sameObject (observe_file e (Some f)) srcExp = true /\ oversized (Some f) = false /\
     files w' = <[core_key := f]> (delete ks (files w))).
Proof.
  unfold store_Apply. cbn [pm_Role pm_Transaction key pm_Expected pm_Source pm_SourceExpected]. intros Hb.
  apply st_bind_inv in Hb as (x & w1 & Hx & Hb). apply next_fault_inv in Hx as [(Hf & Hg & Hsel) _].
  apply st_bind_inv in Hb as (w2 & w3 & [= <- <-] & Hb). fold core_key in Hb. rewrite <- Hf, <- Hg, <- Hsel.
  destruct x; [| injection Hb as <- <-; auto |];
    (case_if_in Hb; [injection Hb as <- <-; auto|];
     case_if_in Hb; [injection Hb as <- <-; auto|]; breflect;
     case_if_in Hb; [injection Hb as <- <-; auto|];
     destruct (key source tx) as [ks|] eqn:Hks; [|injection Hb as <- <-; auto];
     destruct (files w1 !! ks) as [f|] eqn:Hsf; [|injection Hb as <- <-; auto];
     case_if_in Hb; [injection Hb as <- <-; auto|];
     case_if_in Hb; [injection Hb as <- <-; auto|]; breflect;
     injection Hb as _ <-; cbn; split; [done|]; split; [done|]; right; by exists ks, f).
Qed.

End StoreLemmas.

(** *** Objects *)

(** The file is the one of the observation, in whatever boot it is seen. *)
Definition fits `{Sha256} (f : file) (o : ProvenanceObject) : Prop :=
  Present o = true /\ digest (content f) = obj_SHA256 o /\ ident f = Identity o /\ oversized (Some f) = false.

Lemma fits_same `{Sha256} (e : environment) (f : file) (o : ProvenanceObject) :
  fits f o -> sameObject (observe_file e (Some f)) o = true.
Proof.
  intros (Hp & Hd & Hi & _). unfold sameObject. cbn. rewrite Hp, Hd, Hi, !String.eqb_refl. cbn.
  by rewrite orb_true_r.
Qed.

Lemma same_fits `{Sha256} (e : environment) (f : file) (o : ProvenanceObject) :
  sameObject (observe_file e (Some f)) o = true -> oversized (Some f) = false ->
  BootID o = boot e \/ Present o = false -> fits f o.
Proof.
  unfold sameObject, fits. cbn. destruct (Present o); cbn; [|done].
  destruct (String.eqb_spec (digest (content f)) (obj_SHA256 o)) as [Hd|]; cbn; [|done].
  intros Hs Hsz [Hb|Hb]; [|done]. rewrite Hb, String.eqb_refl in Hs. cbn in Hs. by apply String.eqb_eq in Hs.
Qed.

Lemma same_digest `{Sha256} (e : environment) (f : option file) (o : ProvenanceObject) :
  sameObject (observe_file e f) o = true ->
  match f with
  | Some f => Present o = true /\ digest (content f) = obj_SHA256 o
  | None => Present o = false
  end.
Proof.
  unfold sameObject. destruct f as [f|]; cbn; [|by destruct (Present o)]. destruct (Present o); cbn; [|done].
  by destruct (String.eqb_spec (digest (content f)) (obj_SHA256 o)).
Qed.

Lemma sameObject_refl (o : ProvenanceObject) : sameObject o o = true.
Proof.
  unfold sameObject. destruct (Present o); cbn; [|done]. by rewrite !String.eqb_refl.
Qed.

(** ** Lemmas: the state of a transaction *)

Section Recovery.
Context `{Sha256} `{JournalJSON}.

(** Membership in a concrete list of phases. *)
Ltac in_phases := apply list_elem_of_In; vm_compute; tauto.

Implicit Types (j : updateJournal) (w : store) (p : string).

(** The journal on disk is [j] in phase [p]. *)
Definition phase_stored j p w : Prop :=
  exists f, files w !! journal_key = Some f /\ content f = json_Marshal (with_Phase p j).

(** What makes the journal acceptable, whatever its phase. *)
Definition journal_valid j : Prop :=
  j_Schema j = updateSchema /\ validTransaction (Transaction j) = true /\
  validSelection (Previous (Intent j)) = true /\ validSelection (Next (Intent j)) = true /\
  forallb validProvenanceObject [Old j; New j; Backup j; Restore j; Marker j] = true /\
  Present (New j) = true /\ Present (Marker j) = true /\ obj_SHA256 (Marker j) = digest (Transaction j) /\
  Present (Backup j) = Present (Old j) /\ Present (Restore j) = Present (Old j) /\
  (Present (Old j) = true -> obj_SHA256 (Backup j) = obj_SHA256 (Old j) /\ obj_SHA256 (Restore j) = obj_SHA256 (Old j)).

(** The codec works on this journal in every phase, and the result is small. *)
Definition journal_codec j : Prop :=
  forall p, p ∈ phases ->
    decodeStrict (json_Marshal (with_Phase p j)) = Ok (with_Phase p j) /\
    len (json_Marshal (with_Phase p j)) <= maxCoreBinarySize.

(** The objects were observed in the boot of [e]. *)
Definition observed_in (e : environment) (o : ProvenanceObject) : Prop := Present o = true -> BootID o = boot e.
Definition journal_boot (e : environment) j : Prop :=
  observed_in e (Old j) /\ observed_in e (New j) /\ observed_in e (Restore j) /\ observed_in e (Marker j).

Definition core_old j w : Prop :=
  match files w !! core_key with Some f => fits f (Old j) | None => Present (Old j) = false end.
Definition core_new j w : Prop := exists f, files w !! core_key = Some f /\ fits f (New j).
Definition restorable j w : Prop :=
  Present (Old j) = true -> exists r, files w !! (UpdateRestore, Transaction j) = Some r /\ fits r (Restore j).

(** A pending update that can be decided: the marker and the way back are there. *)
Definition pending_ok j w : Prop :=
  files w !! (PairJournal, ""%string) = None /\
  (exists m, files w !! (UpdateMarker, Transaction j) = Some m /\ fits m (Marker j)) /\
  restorable j w /\ (core_old j w \/ core_new j w).

(** Only the journal changed. *)
Definition journal_frame w w' : Prop :=
  (forall k, k <> journal_key -> files w' !! k = files w !! k) /\ selection w' = selection w.

Lemma frame_same (w w' : store) : same_store w w' -> journal_frame w w'.
Proof. intros (Hf & _ & Hs). split; [intros k _; by rewrite Hf|done]. Qed.

Lemma frame_trans (a b c : store) : journal_frame a b -> journal_frame b c -> journal_frame a c.
Proof. intros [Ha Hsa] [Hb Hsb]. split; [intros k Hk; rewrite Hb, Ha; done|congruence]. Qed.

Lemma frame_pending j w w' : journal_frame w w' -> pending_ok j w -> pending_ok j w'.
Proof.
  intros [Hf _]. unfold pending_ok, restorable, core_old, core_new, journal_key, core_key in *.
  rewrite !Hf by done. done.
Qed.

Lemma frame_new j w w' : journal_frame w w' -> core_new j w -> core_new j w'.
Proof. intros [Hf _]. unfold core_new. rewrite !Hf by done. done. Qed.

Lemma with_Phase_twice (p q : string) j : with_Phase p (with_Phase q j) = with_Phase p j.
Proof. reflexivity. Qed.

Context (e : environment).

Lemma writePhase_spec (p q : string) j (u u' : UpdateTransaction) (w w' : store) (err : option error) :
  writePhase e p u w = ((err, u'), w') -> uncertain u = false -> journal u = with_Phase q j ->
  journal_frame w w' /\
  (files w' !! journal_key = files w !! journal_key \/ phase_stored j p w') /\
  match err with
  | None =>
      journal u' = with_Phase p j /\ uncertain u' = false /\
      (phase_stored j p w' \/
       files w' !! journal_key = files w !! journal_key /\
       exists f, files w !! journal_key = Some f /\ digest (content f) = digest (json_Marshal (with_Phase p j)))
  | Some _ => journal u' = journal u
  end.
Proof.
  unfold writePhase. intros Hb Hu Hj. rewrite Hu in Hb. rewrite Hj, with_Phase_twice in Hb.
  apply st_bind_inv in Hb as (saved & w1 & Hs & Hb). apply store_Save_spec in Hs as (_ & Hsel & Hs).
  assert (Hw1 : journal_frame w w1 /\
    (files w1 !! journal_key = files w !! journal_key /\ saved <> None \/ phase_stored j p w1)).
  { destruct Hs as [[Hf Hne]|(k & n & Hk & _ & _ & _ & Hf)].
    - split; [split; [intros k _; by rewrite Hf|done]|]. left. by rewrite Hf.
    - cbn in Hk. injection Hk as <-. split.
      + split; [|done]. intros k Hk. rewrite Hf. by rewrite lookup_insert_ne.
      + right. exists (mkFile (json_Marshal (with_Phase p j)) (fresh e n)). rewrite Hf.
        split; [apply lookup_insert_eq|done]. }
  clear Hs Hsel. destruct Hw1 as [Hfr Hst]. destruct saved as [x|].
  2:{ injection Hb as <- <- <-. destruct Hst as [[_ ?]|Hst]; [done|].
      split; [done|]. split; [by right|]. split; [done|]. split; [done|]. by left. }
  apply st_bind_inv in Hb as (actual & w2 & Ha & Hb). apply store_Load_spec in Ha as [Hs2 Ha].
  assert (Hfr2 : journal_frame w w2) by exact (frame_trans _ _ _ Hfr (frame_same _ _ Hs2)).
  assert (Hf2 : files w2 = files w1) by apply Hs2.
  assert (Hor : files w2 !! journal_key = files w !! journal_key \/ phase_stored j p w2).
  { unfold phase_stored. rewrite Hf2. destruct Hst as [[Hst _]|Hst]; auto. }
  destruct actual as [actual|readErr].
  - destruct Ha as (k & f & Hk & Hf & Hc). cbn in Hk. injection Hk as <-. subst actual.
    revert Hb. destruct (String.eqb_spec (digest (content f)) (digest (json_Marshal (with_Phase p j)))) as [Hd|_].
    + intros Hb. injection Hb as <- <- <-. split; [done|]. split; [done|]. cbn. split; [done|]. split; [done|].
      destruct Hor as [Hor|Hor]; [|by left]. right. split; [done|]. exists f. split; [|done].
      rewrite <- Hor, Hf2. done.
    + destruct (decodeStrict (content f)) as [prev|]; [case_if|]; intros Hb; injection Hb as <- <- <-;
        (split; [done|]; split; [done|]; cbn; congruence).
  - revert Hb. case_if; intros Hb; injection Hb as <- <- <-; (split; [done|]; split; [done|]; cbn; congruence).
Qed.

Lemma verifyMarker_same j (w w' : store) (err : option error) : verifyMarker e j w = (err, w') -> same_store w w'.
Proof.
  unfold verifyMarker. intros Hb. apply st_bind_inv in Hb as (m & w1 & Hm & [= _ <-]).
  by apply store_Inspect_spec in Hm as [Hs _].
Qed.

Lemma or_return_inv (m : st store (option error)) (h : error -> st store (option error * UpdateTransaction))
    (k : st store (option error * UpdateTransaction)) (w w' : store) (r : option error * UpdateTransaction) :
  or_return m h k w = (r, w') ->
  exists x w1, m w = (x, w1) /\ match x with Some x => h x w1 = (r, w') | None => k w1 = (r, w') end.
Proof.
  unfold or_return. intros Hb. apply st_bind_inv in Hb as (x & w1 & Hm & Hk). exists x, w1. split; [done|].
  by destruct x.
Qed.

Lemma acquire_same (w w' : store) (x : option error) : acquire e w = (x, w') -> same_store w w'.
Proof.
  unfold acquire. intros Hb. apply st_bind_inv in Hb as (y & w1 & Hy & [= _ <-]). by apply next_fault_inv in Hy as [Hs _].
Qed.

(** Moving the candidate onto the installed binary. *)
Lemma publish_move_spec j (u u' : UpdateTransaction) (w w' : store) (err : option error) :
  move e (Some UpdateCandidate) (Old j) (New j) u w = ((err, u'), w') ->
  Transaction (journal u) = Transaction j -> journal_boot e j -> Present (New j) = true ->
  validTransaction (Transaction j) = true ->
  pending_ok j w -> core_old j w ->
  journal u' = journal u /\ uncertain u' = uncertain u /\
  files w' !! journal_key = files w !! journal_key /\ selection w' = selection w /\
  pending_ok j w' /\ (err = None -> core_new j w').
Proof.
  unfold move. intros Hb Htx (HbO & HbN & _) HpN Hvt Hok Hold. rewrite Htx in Hb.
  apply st_bind_inv in Hb as (ap & w1 & Hap & Hb). apply store_Apply_move_spec in Hap as (_ & Hsel & Hap).
  assert (Hw1 : files w1 !! journal_key = files w !! journal_key /\ pending_ok j w1 /\
                (ap = None -> core_new j w1)).
  { destruct Hap as [[Hf Hne]|(ks & f & Hks & Hsrc & _ & Hsame & Hsz & Hf)].
    - unfold pending_ok, restorable, core_old, core_new in *. rewrite Hf. done.
    - cbn [key] in Hks. rewrite Hvt in Hks. injection Hks as <-.
      assert (Hfit : fits f (New j)) by (eapply same_fits; [done|done|left; auto]).
      assert (Hother : forall k, k <> core_key -> k <> (UpdateCandidate, Transaction j) -> files w1 !! k = files w !! k).
      { intros k H1 H2. rewrite Hf, lookup_insert_ne, lookup_delete_ne by done. done. }
      assert (Hnew : core_new j w1) by (exists f; rewrite Hf; split; [apply lookup_insert_eq|done]).
      split; [apply Hother; done|]. split; [|done]. destruct Hok as (Hpair & Hm & Hr & _).
      unfold pending_ok, restorable. rewrite !Hother by done. auto. }
  destruct Hw1 as (Hj1 & Hok1 & Hnew1). destruct ap as [x|].
  2:{ injection Hb as <- <- <-. repeat split; auto; apply Hok1. }
  apply st_bind_inv in Hb as (act & w2 & Hact & Hb). apply store_Inspect_spec in Hact as [Hs2 Hact].
  assert (Hok2 : pending_ok j w2) by exact (frame_pending _ _ _ (frame_same _ _ Hs2) Hok1).
  assert (Hj2 : files w2 !! journal_key = files w !! journal_key) by (destruct Hs2 as (-> & _); done).
  assert (Hsel2 : selection w2 = selection w) by (destruct Hs2 as (_ & _ & ->); done).
  destruct act as [o|y]; [|injection Hb as <- <- <-; repeat (split; [done|]); done].
  revert Hb. case_if; intros Hb; injection Hb as <- <- <-; [repeat (split; [done|]); done|].
  repeat (split; [done|]). intros _. breflect. destruct (Hact o eq_refl) as (k & [= <-] & -> & Hsz).
  fold core_key in Heqb, Hsz. unfold core_new. destruct Hs2 as (-> & _).
  destruct (files w1 !! core_key) as [f|].
  - exists f. split; [done|]. eapply same_fits; [done|done|left; auto].
  - apply same_digest in Heqb. congruence.
Qed.

(** The phases in which an update is not decided yet and its files may be in
    either state. *)
Definition open_phases : list string := ["prepared"; "publishing"; "verifying"; "committing"]%string.

Definition undecided j w : Prop := exists p, p ∈ open_phases /\ phase_stored j p w.

Lemma undecided_keep j w w' :
  files w' !! journal_key = files w !! journal_key -> undecided j w -> undecided j w'.
Proof. unfold undecided, phase_stored. by intros ->. Qed.

Lemma undecided_step p j w w' :
  p ∈ open_phases -> files w' !! journal_key = files w !! journal_key \/ phase_stored j p w' ->
  undecided j w -> undecided j w'.
Proof. intros Hp [Hk|Hst] Hu; [by eapply undecided_keep|by exists p]. Qed.

Lemma Publish_spec j (u u' : UpdateTransaction) (w w' : store) (err : option error) :
  Publish e u w = ((err, u'), w') -> uncertain u = false -> journal u = with_Phase "prepared" j ->
  journal_valid j -> journal_boot e j -> pending_ok j w -> core_old j w -> undecided j w ->
  pending_ok j w' /\ undecided j w' /\ selection w' = selection w /\
  (err = None -> core_new j w' /\ journal u' = with_Phase "verifying" j /\ uncertain u' = false).
Proof.
  unfold Publish. intros Hb Hu Hj Hval Hboot Hok Hold Hund.
  destruct Hval as (_ & Hvt & _ & _ & _ & HpN & _).
  rewrite Hj in Hb. cbn [Phase with_Phase] in Hb. change (negb (String.eqb "prepared" "prepared")) with false in Hb.
  apply or_return_inv in Hb as (x & w1 & Hx & Hb). apply acquire_same in Hx as Hs1.
  assert (Hfr1 := frame_same _ _ Hs1).
  destruct x as [x|].
  { injection Hb as <- <- <-. split; [by eapply frame_pending|]. split; [|split; [apply Hfr1|done]].
    eapply undecided_keep; [|done]. destruct Hs1 as (-> & _); done. }
  apply or_return_inv in Hb as (x & w2 & Hx2 & Hb). apply verifyMarker_same in Hx2 as Hs2.
  assert (Hs : same_store w w2) by exact (same_store_trans _ _ _ Hs1 Hs2).
  assert (Hfr2 := frame_same _ _ Hs). clear Hs1 Hfr1 Hs2 Hx Hx2.
  assert (Hok2 : pending_ok j w2) by (by eapply frame_pending).
  assert (Hold2 : core_old j w2) by (unfold core_old; destruct Hs as (-> & _); exact Hold).
  assert (Hund2 : undecided j w2) by (eapply undecided_keep; [|done]; destruct Hs as (-> & _); done).
  assert (Hsel2 : selection w2 = selection w) by apply Hfr2.
  destruct x as [x|]; [injection Hb as <- <- <-; repeat (split; [done|]); done|].
  apply st_bind_inv in Hb as ([err3 u3] & w3 & Hw & Hb).
  apply (writePhase_spec _ "prepared" j) in Hw as (Hfr3 & Hst3 & Hu3); [|done|done].
  assert (Hok3 : pending_ok j w3) by exact (frame_pending _ _ _ Hfr3 Hok2).
  assert (Hund3 : undecided j w3) by (eapply (undecided_step "publishing"); [in_phases|done|done]).
  assert (Hsel3 : selection w3 = selection w) by (destruct Hfr3 as [_ ->]; done).
  destruct err3 as [x|]; [injection Hb as <- <- <-; repeat (split; [done|]); done|].
  destruct Hu3 as (Hj3 & Hunc3 & _). rewrite Hj3 in Hb. cbn [Old New with_Phase] in Hb.
  apply st_bind_inv in Hb as ([err4 u4] & w4 & Hm & Hb).
  assert (Hold3 : core_old j w3).
  { unfold core_old in *. destruct Hfr3 as [Hfr3 _]. rewrite Hfr3 by done. done. }
  apply publish_move_spec in Hm as (Hj4 & Hunc4 & Hjk4 & Hsel4 & Hok4 & Hnew4); try done; [|by rewrite Hj3].
  assert (Hund4 : undecided j w4) by (by eapply undecided_keep).
  destruct err4 as [x|]; [injection Hb as <- <- <-; repeat (split; [congruence || done|]); done|].
  apply st_bind_inv in Hb as (z & w5 & Hz & Hb). injection Hz as _ <-.
  apply (writePhase_spec _ "publishing" j) in Hb as (Hfr6 & Hst6 & Hu6); [|congruence|congruence].
  specialize (Hnew4 eq_refl).
  split; [exact (frame_pending _ _ _ Hfr6 Hok4)|]. split; [|split].
  - eapply (undecided_step "verifying"); [in_phases|exact Hst6|exact Hund4].
  - destruct Hfr6 as [_ ->]. cbn. congruence.
  - intros ->. destruct Hu6 as (Hj6 & Hunc6 & _). split; [|done]. exact (frame_new _ _ _ Hfr6 Hnew4).
Qed.

(** Committing: the settings are written before the decision. *)
Lemma Commit_spec j (u u' : UpdateTransaction) (w w' : store) (err : option error) :
  Commit e u w = ((err, u'), w') -> uncertain u = false -> journal u = with_Phase "verifying" j ->
  pending_ok j w -> core_new j w -> undecided j w ->
  pending_ok j w' /\ core_new j w' /\
  (undecided j w' \/ phase_stored j "committed" w' /\ selection w' = Next (Intent j)) /\
  (err = None ->
   phase_stored j "committed" w' \/
   exists p, p ∈ open_phases /\ phase_stored j p w' /\
     digest (json_Marshal (with_Phase p j)) = digest (json_Marshal (with_Phase "committed" j))).
Proof.
  unfold Commit. intros Hb Hu Hj Hok Hnew Hund.
  rewrite Hj in Hb. cbn [Phase with_Phase New] in Hb. change (negb (String.eqb "verifying" "verifying")) with false in Hb.
  apply or_return_inv in Hb as (x & w1 & Hx & Hb). apply verifyMarker_same in Hx as Hs1.
  destruct x as [x|].
  { injection Hb as <- <- <-. split; [exact (frame_pending _ _ _ (frame_same _ _ Hs1) Hok)|].
    split; [exact (frame_new _ _ _ (frame_same _ _ Hs1) Hnew)|]. split; [left|done].
    eapply undecided_keep; [|done]. destruct Hs1 as (-> & _); done. }
  apply st_bind_inv in Hb as (cur & w2 & Hc & Hb). apply store_Inspect_spec in Hc as [Hs2 _].
  assert (Hs : same_store w w2) by exact (same_store_trans _ _ _ Hs1 Hs2). clear Hs1 Hs2 Hx.
  assert (Hok2 := frame_pending _ _ _ (frame_same _ _ Hs) Hok).
  assert (Hnew2 := frame_new _ _ _ (frame_same _ _ Hs) Hnew).
  assert (Hund2 : undecided j w2) by (eapply undecided_keep; [|done]; destruct Hs as (-> & _); done).
  clear Hs Hok Hnew Hund.
  destruct cur as [cur|x]; [|injection Hb as <- <- <-; split_and!; [done|done|by left|done]].
  case_if_in Hb; [injection Hb as <- <- <-; split_and!; [done|done|by left|done]|].
  apply st_bind_inv in Hb as ([err3 u3] & w3 & Hw & Hb).
  apply (writePhase_spec _ "verifying" j) in Hw as (Hfr3 & Hst3 & Hu3); [|done|done].
  assert (Hok3 := frame_pending _ _ _ Hfr3 Hok2). assert (Hnew3 := frame_new _ _ _ Hfr3 Hnew2).
  assert (Hund3 : undecided j w3) by (eapply (undecided_step "committing"); [in_phases|done|done]).
  destruct err3 as [x|]; [injection Hb as <- <- <-; split_and!; [done|done|by left|done]|].
  destruct Hu3 as (Hj3 & Hunc3 & _). rewrite Hj3 in Hb. cbn [Intent with_Phase] in Hb.
  apply or_return_inv in Hb as (x & w4 & Hsv & Hb). unfold save_selection in Hsv.
  apply st_bind_inv in Hsv as (ft & w4' & Hft & Hsv). apply next_fault_inv in Hft as [(Hf4 & _ & _) _].
  assert (Hw4 : files w4 = files w3 /\ (x = None -> selection w4 = Next (Intent j))).
  { destruct ft; injection Hsv as <- <-; cbn; auto; split; congruence. }
  destruct Hw4 as [Hf4' Hsel4].
  assert (Hok4 : pending_ok j w4) by (unfold pending_ok, restorable, core_old, core_new in *; by rewrite Hf4').
  assert (Hnew4 : core_new j w4) by (unfold core_new in *; by rewrite Hf4').
  assert (Hund4 : undecided j w4) by (eapply undecided_keep; [|done]; by rewrite Hf4').
  destruct x as [x|]; [injection Hb as <- <- <-; split_and!; [done|done|by left|done]|]. specialize (Hsel4 eq_refl).
  apply (writePhase_spec _ "committing" j) in Hb as (Hfr5 & Hst5 & Hu5); [|done|done].
  split; [exact (frame_pending _ _ _ Hfr5 Hok4)|]. split; [exact (frame_new _ _ _ Hfr5 Hnew4)|]. split.
  - destruct Hst5 as [Hk|Hst5]; [left; by eapply undecided_keep|]. right. split; [done|].
    destruct Hfr5 as [_ ->]. done.
  - intros ->. destruct Hu5 as (_ & _ & [Hst|[Hk (f & Hf & Hd)]]); [by left|]. right.
    destruct Hund4 as (p & Hp & f' & Hf' & Hc). exists p. split; [done|]. rewrite Hf in Hf'. injection Hf' as <-.
    split; [exists f; split; [congruence|done]|]. by rewrite <- Hc.
Qed.

(** *** Recovery without failures *)

Section FaultFree.
Context (Hfree : fault_free e).

Definition ticked (w : store) : store := mkStore (files w) (gate w) (selection w) (S (clock w)).

Lemma next_fault_free (w : store) : next_fault e w = (FOk, ticked w).
Proof. unfold next_fault. by rewrite Hfree. Qed.

Lemma store_Load_free (role : ProvenanceRole) (tx : string) (k : ProvenanceRole * string) (w : store) :
  key role tx = Some k -> oversized (files w !! k) = false ->
  store_Load e role tx w =
    (match files w !! k with Some f => Ok (content f) | None => Err (ESentinel ErrNotExist) end, ticked w).
Proof.
  intros Hk Hsz. unfold store_Load, st_bind, st_get, st_ret. rewrite Hk, next_fault_free. cbn [fault_error].
  change (files (ticked w)) with (files w). by rewrite Hsz.
Qed.

Lemma store_Inspect_free (role : ProvenanceRole) (tx : string) (k : ProvenanceRole * string) (w : store) :
  key role tx = Some k -> oversized (files w !! k) = false ->
  store_Inspect e role tx w = (Ok (observe_file e (files w !! k)), ticked w).
Proof.
  intros Hk Hsz. unfold store_Inspect, st_bind, st_get, st_ret. rewrite Hk, next_fault_free. cbn [fault_error].
  change (files (ticked w)) with (files w). by rewrite Hsz.
Qed.

Lemma journal_small (body ident : string) :
  len body <= maxCoreBinarySize -> oversized (Some (mkFile body ident)) = false.
Proof. cbn. destruct (Z.ltb_spec maxCoreBinarySize (len body)); [lia|done]. Qed.

Lemma core_small j (w : store) : pending_ok j w -> oversized (files w !! core_key) = false.
Proof.
  intros (_ & _ & _ & [Hc|(f & Hf & Hc)]).
  - unfold core_old in Hc. destruct (files w !! core_key); [apply Hc|done].
  - rewrite Hf. apply Hc.
Qed.

Lemma verifyMarker_free j (w : store) :
  validTransaction (Transaction j) = true -> pending_ok j w -> verifyMarker e j w = (None, ticked w).
Proof.
  intros Hvt (_ & (m & Hm & Hfit) & _). unfold verifyMarker, st_bind.
  rewrite (store_Inspect_free _ _ (UpdateMarker, Transaction j)) by first [rewrite Hm; apply Hfit | cbn; by rewrite Hvt].
  rewrite Hm. unfold st_ret. by rewrite (fits_same e m _ Hfit).
Qed.

Lemma writePhase_free (p q : string) j (ws : list error) (w : store) :
  len (json_Marshal (with_Phase p j)) <= maxCoreBinarySize ->
  exists n, writePhase e p (mkTransaction (with_Phase q j) ws false) w =
    ((None, mkTransaction (with_Phase p j) ws false),
     set_files (<[journal_key := mkFile (json_Marshal (with_Phase p j)) (fresh e n)]> (files w)) (ticked w)).
Proof.
  intros Hlen. exists (S (clock w)). unfold writePhase. cbn [uncertain journal warnings]. rewrite with_Phase_twice.
  unfold st_bind, store_Save. destruct (Z.ltb_spec maxCoreBinarySize (len (json_Marshal (with_Phase p j)))); [lia|].
  rewrite !bool_decide_false by done. cbn [orb key]. change (String.eqb "" "") with true. cbv iota.
  unfold st_bind. rewrite next_fault_free. unfold st_get. rewrite (bool_decide_true (UpdateJournal = UpdateJournal)) by done.
  cbn [negb]. rewrite andb_false_r. reflexivity.
Qed.

Lemma OpenUpdate_free j p (w : store) :
  journal_valid j -> journal_codec j -> p ∈ phases -> pending_ok j w -> phase_stored j p w ->
  exists w', OpenUpdate e w = (Ok (mkTransaction (with_Phase p j) [] false), w') /\ same_store w w'.
Proof.
  intros Hval Hcodec Hp Hok (f & Hf & Hc). unfold OpenUpdate, st_bind.
  assert (Hsz : oversized (files w !! journal_key) = false).
  { rewrite Hf. destruct f as [c i]. cbn in Hc. subst c. apply journal_small, Hcodec, Hp. }
  rewrite (store_Load_free _ _ journal_key) by done. rewrite Hf, Hc.
  rewrite (store_Load_free _ _ (PairJournal, ""%string)) by
    first [reflexivity | change (files (ticked w)) with (files w); by rewrite (proj1 Hok)].
  change (files (ticked w)) with (files w). rewrite (proj1 Hok).
  change (errors_Is (ESentinel ErrNotExist) ErrNotExist) with true. cbn [negb].
  assert (Hd : decodeUpdateJournal (json_Marshal (with_Phase p j)) = Ok (with_Phase p j)).
  { unfold decodeUpdateJournal. rewrite (proj1 (Hcodec p Hp)).
    destruct Hval as (H1 & H2 & H3 & H4 & H5 & H6 & H7 & H8 & H9 & H10 & H11).
    cbn [j_Schema Transaction Phase Intent Old New Backup Restore Marker with_Phase].
    rewrite H1, H2, H3, H4, H5, H6, H7, H8, H9, H10, !String.eqb_refl. cbn [negb orb].
    rewrite bool_decide_true by done. cbn [negb].
    destruct (Present (Old j)); cbn [Bool.eqb negb andb orb]; [|done].
    destruct (H11 eq_refl) as [-> ->]. by rewrite !String.eqb_refl. }
  rewrite Hd.
  assert (Hok' : pending_ok (with_Phase p j) (ticked (ticked w))) by exact Hok.
  rewrite (verifyMarker_free (with_Phase p j)) by (done || apply Hval). eexists. split; [reflexivity|done].
Qed.

(** The old core is installed. *)
Definition old_installed j (w : store) : Prop :=
  match files w !! core_key with
  | Some f => Present (Old j) = true /\ digest (content f) = obj_SHA256 (Old j)
  | None => Present (Old j) = false
  end.

Lemma rollback_move_free j (u : UpdateTransaction) (w : store) :
  journal_valid j -> journal u = with_Phase "rolling_back" j -> pending_ok j w ->
  exists w',
    restore_core e (observe_file e (files w !! core_key)) u w = ((None, u), w') /\
    old_installed j w' /\ selection w' = selection w /\ oversized (files w' !! core_key) = false.
Proof.
  intros Hval Hj Hok. pose proof (core_small j w Hok) as Hsz. destruct Hval as (_ & Hvt & _ & _ & _ & _ & _ & _ & _ & HpR & Hsha).
  destruct Hok as (_ & _ & Hres & Hcore). unfold restore_core. rewrite Hj. cbn [Old New Restore with_Phase].
  destruct (sameObject _ (Old j) || _) eqn:Hsame.
  { exists w. split; [done|]. split; [|done]. unfold old_installed. apply orb_prop in Hsame as [Hs|Hs].
    - by apply same_digest in Hs.
    - apply andb_prop in Hs as [Hpo Hs]. apply same_digest in Hs. destruct (files w !! core_key); [|congruence].
      split; [done|]. rewrite <- (proj2 (Hsha Hpo)). by destruct Hs. }
  apply orb_false_iff in Hsame as [Hso _].
  destruct Hcore as [Hold|Hnew].
  { unfold core_old in Hold. destruct (files w !! core_key) as [f|].
    - by rewrite (fits_same e f _ Hold) in Hso.
    - unfold sameObject in Hso. cbn in Hso. by rewrite Hold in Hso. }
  destruct Hnew as (f & Hf & Hfit). rewrite Hf, (fits_same e f _ Hfit). unfold move. rewrite Hj.
  cbn [Transaction with_Phase]. unfold st_bind, store_Apply.
  cbn [pm_Role pm_Transaction pm_Expected pm_Source pm_SourceExpected key]. unfold st_bind.
  rewrite next_fault_free. unfold st_get. change (files (ticked w)) with (files w). fold core_key.
  rewrite Hf in Hsz. rewrite Hf, Hsz, sameObject_refl. cbn [negb]. destruct (Present (Old j)) eqn:Hpo.
  - rewrite (bool_decide_true (InstalledBinary = InstalledBinary)), (bool_decide_false (UpdateRestore = UpdateCandidate)),
      (bool_decide_true (UpdateRestore = UpdateRestore)) by done. cbn [negb orb key].
    rewrite Hvt. destruct (Hres Hpo) as (r & Hr & Hfr). rewrite Hr, (fits_same e r _ Hfr).
    assert (Hszr : oversized (Some r) = false) by apply Hfr. rewrite Hszr. cbn [negb].
    eexists. split; [reflexivity|]. split; [|split; [done|cbn [files set_files]; by rewrite lookup_insert_eq]]. unfold old_installed. cbn [files set_files].
    rewrite lookup_insert_eq. split; [done|]. rewrite <- (proj2 (Hsha eq_refl)). by destruct Hfr as (_ & ? & _ & _).
  - cbn [observe_file Present negb]. eexists. split; [reflexivity|].
    split; [|split; [done|cbn [files set_files st_modify]; by rewrite lookup_delete_eq]].
    unfold old_installed. cbn [files set_files st_modify]. by rewrite lookup_delete_eq.
Qed.

Lemma Rollback_free j p (w : store) :
  journal_valid j -> journal_codec j -> Reinstall (Intent j) = false -> p <> "committed"%string ->
  pending_ok j w ->
  exists u' w', Rollback e (mkTransaction (with_Phase p j) [] false) w = ((None, u'), w') /\
    old_installed j w' /\ selection w' = Previous (Intent j).
Proof.
  intros Hval Hcodec Hre Hp Hok. unfold Rollback. cbn [journal Phase with_Phase Intent uncertain].
  destruct (String.eqb_spec p "committed"); [done|]. rewrite Hre. cbn [orb].
  unfold or_return, acquire, st_bind. rewrite next_fault_free. cbn [fault_error st_ret].
  unfold st_ret at 1. rewrite (verifyMarker_free (with_Phase p j)) by (exact Hok || apply Hval).
  destruct (writePhase_free "rolling_back" p j [] (ticked (ticked w))) as [nw Hw];
    [apply Hcodec; in_phases|].
  rewrite Hw. set (w3 := set_files _ _). cbn [journal Old New Restore Intent with_Phase].
  assert (Hok3 : pending_ok j (ticked w3)).
  { apply (frame_pending j w); [|done]. split; [|done]. intros k Hk. cbn. by rewrite lookup_insert_ne. }
  rewrite (store_Inspect_free _ _ core_key) by first [reflexivity | exact (core_small j _ Hok3)].
  destruct (rollback_move_free j (mkTransaction (with_Phase "rolling_back" j) [] false) (ticked w3) Hval eq_refl Hok3)
    as (w4 & Hm & Hold & Hsel & Hsz4).
  change (files (ticked w3)) with (files w3) in Hm. rewrite Hm.
  unfold save_selection, st_bind. rewrite next_fault_free. cbn [st_modify].
  unfold st_ret. cbn [fault_error]. rewrite (store_Inspect_free _ _ core_key) by first [reflexivity | exact Hsz4]. eexists _, _. split; [reflexivity|]. split; [exact Hold|done].
Qed.

End FaultFree.

(** *** Beginning *)

Lemma rbind_inv {A B} (m : st store (result A)) (k : A -> st store (result B)) (w w' : store) (b : B) :
  rbind m k w = (Ok b, w') -> exists a w1, m w = (Ok a, w1) /\ k a w1 = (Ok b, w').
Proof.
  unfold rbind. intros Hb. apply st_bind_inv in Hb as ([a|x] & w1 & Hm & Hk); [eauto|discriminate Hk].
Qed.

Lemma rguard_inv {B} (m : st store (option error)) (k : st store (result B)) (w w' : store) (b : B) :
  rguard m k w = (Ok b, w') -> exists w1, m w = (None, w1) /\ k w1 = (Ok b, w').
Proof.
  unfold rguard. intros Hb. apply st_bind_inv in Hb as ([x|] & w1 & Hm & Hk); [discriminate Hk|eauto].
Qed.

(** Every file has an identity. *)
Definition files_named (w : store) : Prop := forall k f, files w !! k = Some f -> ident f <> ""%string.
Definition names_ok : Prop := (forall n, fresh e n <> ""%string) /\ boot e <> ""%string.

(** The operations of a preparation change only these files. *)
Definition changes (P : ProvenanceRole * string -> Prop) (w w' : store) : Prop :=
  (forall k, ~ P k -> files w' !! k = files w !! k) /\ selection w' = selection w /\
  (names_ok -> files_named w -> files_named w').

Lemma changes_same (P : ProvenanceRole * string -> Prop) (w w' : store) : same_store w w' -> changes P w w'.
Proof. intros (Hf & _ & Hs). split; [intros k _; by rewrite Hf|]. split; [done|]. unfold files_named. by rewrite Hf. Qed.

Lemma changes_trans (P : ProvenanceRole * string -> Prop) (a b c : store) :
  changes P a b -> changes P b c -> changes P a c.
Proof.
  intros (Ha & Hsa & Hna) (Hb & Hsb & Hnb). split; [intros k Hk; rewrite Hb, Ha; done|]. split; [congruence|auto].
Qed.

Lemma store_Save_changes (P : ProvenanceRole * string -> Prop) (role : ProvenanceRole) (tx body : string) (w w' : store)
    (err : option error) :
  store_Save e role tx body w = (err, w') -> (forall k, key role tx = Some k -> P k) ->
  changes P w w' /\
  (err = None -> exists k n, key role tx = Some k /\ files w' !! k = Some (mkFile body (fresh e n))).
Proof.
  intros Hs HP. apply store_Save_spec in Hs as (_ & Hsel & [[Hf Hne]|(k & n & Hk & _ & _ & _ & Hf)]).
  - split; [|done]. split; [intros k _; by rewrite Hf|]. split; [done|]. unfold files_named. by rewrite Hf.
  - split.
    + split; [|split; [done|]].
      * intros k' Hk'. rewrite Hf, lookup_insert_ne; [done|]. intros ->. by apply Hk', HP.
      * intros [Hn _] Hnamed k' f. rewrite Hf. destruct (decide (k' = k)) as [->|Hne].
        { rewrite lookup_insert_eq. intros [= <-]. apply Hn. }
        rewrite lookup_insert_ne by done. apply Hnamed.
    + intros _. exists k, n. rewrite Hf. split; [done|apply lookup_insert_eq].
Qed.

(** Removing one object. *)
Lemma store_Apply_remove_spec (role : ProvenanceRole) (tx : string) (exp srcExp : ProvenanceObject) (w w' : store) :
  store_Apply e (mkMutation role None tx exp srcExp) w = (None, w') ->
  exists k, key role tx = Some k /\ files w' = delete k (files w) /\ selection w' = selection w.
Proof.
  unfold store_Apply. cbn [pm_Role pm_Transaction pm_Expected pm_Source pm_SourceExpected].
  destruct (key role tx) as [k|]; [|done]. intros Hb.
  apply st_bind_inv in Hb as (x & w1 & Hx & Hb). apply next_fault_inv in Hx as [(Hf & _ & Hsel) _].
  apply st_bind_inv in Hb as (w2 & w3 & [= <- <-] & Hb). exists k. rewrite <- Hf, <- Hsel.
  assert (Hno : negb (Present (observe_file e (files w1 !! k))) = true -> files w1 = delete k (files w1)).
  { destruct (files w1 !! k) eqn:Hk; [done|]. intros _. by rewrite delete_id. }
  destruct x; [| discriminate Hb |]; (case_if_in Hb; [discriminate Hb|]; case_if_in Hb; [discriminate Hb|]; case_if_in Hb;
    [injection Hb as <-; split; [done|]; split; [by apply Hno|done]
    |first [discriminate Hb | injection Hb as <-; done]]).
Qed.

Lemma deferCleanup_spec (u : UpdateTransaction) (w w' : store) :
  deferCleanupLocked e u w = (None, w') ->
  changes (fun k => k = journal_key \/ fst k = UpdateCleanup) w w' /\ files w' !! journal_key = None.
Proof.
  unfold deferCleanupLocked. intros Hb. case_if_in Hb; [discriminate Hb|]. clear Heqb.
  apply st_bind_inv in Hb as (r & w1 & Hr & Hb). injection Hb as Hres <-. destruct r as [[]|]; [|discriminate Hres].
  apply rguard_inv in Hr as (w2 & Hv & Hr). apply rguard_inv in Hr as (w3 & Hm & Hr).
  apply verifyMarker_same in Hm. unfold verifyFinalCore in Hv.
  apply st_bind_inv in Hv as (c & w2' & Hc & Hv). apply store_Inspect_spec in Hc as [Hs2 _]. injection Hv as _ <-.
  apply rbind_inv in Hr as (cur & w4 & Hcur & Hr). apply store_Inspect_spec in Hcur as [Hs4 _].
  assert (Hs : same_store w w4) by eauto using same_store_trans. clear Hs2 Hm Hs4.
  case_if_in Hr; [discriminate Hr|]. clear Heqb.
  apply st_bind_inv in Hr as (arch & w5 & Ha & Hr). apply store_Load_spec in Ha as [Hs5 _].
  assert (Hs' : same_store w w5) by eauto using same_store_trans. clear Hs Hs5.
  apply rguard_inv in Hr as (w6 & Hsave & Hr).
  set (P := fun k : ProvenanceRole * string => k = journal_key \/ fst k = UpdateCleanup).
  assert (H6 : changes P w5 w6).
  { destruct arch as [a|x].
    - injection Hsave as _ <-. by apply changes_same.
    - case_if_in Hsave; [|discriminate Hsave]. eapply store_Save_changes; [exact Hsave|].
      intros k Hk. right. cbn in Hk. case_if_in Hk; [by injection Hk as <-|done]. }
  apply st_bind_inv in Hr as (ft & w7 & Hft & Hr). apply next_fault_inv in Hft as [Hs7 _].
  apply rguard_inv in Hr as (w8 & H8 & Hr). injection H8 as _ <-.
  apply rguard_inv in Hr as (w9 & H9 & Hr). injection Hr as <-.
  apply store_Apply_remove_spec in H9 as (k & Hk & Hf & Hsel). cbn in Hk. injection Hk as <-.
  split; [|rewrite Hf; apply lookup_delete_eq].
  apply (changes_trans P w w5); [by apply changes_same|]. apply (changes_trans P w5 w6); [done|].
  apply (changes_trans P w6 w7); [by apply changes_same|]. split; [|split; [done|]].
  - intros k' Hk'. rewrite Hf, lookup_delete_ne; [done|]. intros Heq. apply Hk'. left. by rewrite <- Heq.
  - intros _ Hn k' f. rewrite Hf, lookup_delete_Some. intros [_ Hk']. by eapply Hn.
Qed.

Lemma digest_valid (b : string) : validHash (digest b) = true.
Proof.
  unfold validHash, canonical_hex, digest. destruct (sha256_bytes b) as [Hb Hl].
  rewrite hex_decode_encode by done. rewrite Hl, String.eqb_refl. done.
Qed.

Lemma observed_valid (w : store) (k : ProvenanceRole * string) :
  names_ok -> files_named w -> validProvenanceObject (observe_file e (files w !! k)) = true.
Proof.
  intros [_ Hb] Hn. unfold validProvenanceObject. destruct (files w !! k) as [f|] eqn:Hf; cbn; [|done].
  rewrite digest_valid. cbn. apply Hn in Hf.
  destruct (String.eqb_spec (ident f) ""), (String.eqb_spec (boot e) ""); done.
Qed.

Lemma observed_boot (f : option file) : observed_in e (observe_file e f).
Proof. unfold observed_in. by destruct f. Qed.

Lemma observed_fits (f : file) : oversized (Some f) = false -> fits f (observe_file e (Some f)).
Proof. done. Qed.

Lemma save_backups_spec (tx : string) (w w' : store) (backup restore : ProvenanceObject) :
  let old := observe_file e (files w !! core_key) in
  save_backups e tx old w = (Ok (backup, restore), w') ->
  changes (fun k => k = (UpdateBackup, tx) \/ k = (UpdateRestore, tx)) w w' /\
  (if Present old then
     (exists b, files w' !! (UpdateBackup, tx) = Some b /\ backup = observe_file e (Some b)) /\
     (exists r, files w' !! (UpdateRestore, tx) = Some r /\ restore = observe_file e (Some r) /\ oversized (Some r) = false) /\
     obj_SHA256 backup = obj_SHA256 old /\ obj_SHA256 restore = obj_SHA256 old
   else backup = absent /\ restore = absent).
Proof.
  cbv zeta. set (P := fun k : ProvenanceRole * string => k = (UpdateBackup, tx) \/ k = (UpdateRestore, tx)).
  unfold save_backups. intros Hb. destruct (Present (observe_file e (files w !! core_key))) eqn:Hp; cbn [negb] in Hb.
  2:{ injection Hb as <- <- <-. split; [by apply changes_same|done]. }
  apply rbind_inv in Hb as (body & w1 & Hl & Hb). apply store_Load_spec in Hl as [Hs1 _].
  apply rbind_inv in Hb as (cur & w2 & Hc & Hb). apply store_Inspect_spec in Hc as [Hs2 _].
  assert (Hs : same_store w w2) by eauto using same_store_trans. clear Hs1 Hs2.
  case_if_in Hb; [discriminate Hb|].
  apply rguard_inv in Hb as (w3 & H3 & Hb). apply (store_Save_changes P) in H3 as [Hc3 H3].
  2:{ intros k Hk. left. cbn in Hk. case_if_in Hk; [by injection Hk as <-|done]. }
  apply rguard_inv in Hb as (w4 & H4 & Hb). apply (store_Save_changes P) in H4 as [Hc4 H4].
  2:{ intros k Hk. right. cbn in Hk. case_if_in Hk; [by injection Hk as <-|done]. }
  destruct (H3 eq_refl) as (k3 & n3 & Hk3 & Hf3). destruct (H4 eq_refl) as (k4 & n4 & Hk4 & Hf4).
  cbn in Hk3, Hk4. destruct (validTransaction tx) eqn:Hvt; [|discriminate Hk3].
  injection Hk3 as <-. injection Hk4 as <-.
  apply rbind_inv in Hb as (bo & w5 & H5 & Hb). apply store_Inspect_spec in H5 as [Hs5 H5].
  destruct (H5 bo eq_refl) as (k5 & Hk5 & -> & _). cbn in Hk5. rewrite Hvt in Hk5. injection Hk5 as <-.
  apply rbind_inv in Hb as (ro & w6 & H6 & Hb). apply store_Inspect_spec in H6 as [Hs6 H6].
  destruct (H6 ro eq_refl) as (k6 & Hk6 & -> & Hsz6). cbn in Hk6. rewrite Hvt in Hk6. injection Hk6 as <-.
  case_if_in Hb; [discriminate Hb|]. injection Hb as <- <- <-.
  apply orb_false_iff in Heqb0 as [Hsb Hsr]. apply negb_false_iff, String.eqb_eq in Hsb, Hsr.
  assert (Hf5 : files w5 = files w4) by apply Hs5. assert (Hf6 : files w6 = files w5) by apply Hs6.
  split.
  { apply (changes_trans P w w2); [by apply changes_same|]. apply (changes_trans P w2 w3); [done|].
    apply (changes_trans P w3 w4); [done|]. apply changes_same. eauto using same_store_trans. }
  rewrite Hf6, Hf5, Hf4 in *. split; [|split; [by eexists|done]].
  clear Hsz6. destruct (files w4 !! (UpdateBackup, tx)) as [b|]; [by exists b|].
  exfalso. revert Hsb. cbn. destruct (files w !! core_key) as [f|]; [|done]. cbn.
  intros He. pose proof (digest_valid (content f)) as Hv. rewrite <- He in Hv. done.
Qed.

(** A transaction as [BeginUpdate] leaves it. *)
Definition begun j (u : UpdateTransaction) (w : store) : Prop :=
  journal u = with_Phase "prepared" j /\ uncertain u = false /\ journal_valid j /\ journal_boot e j /\
  pending_ok j w /\ core_old j w /\ undecided j w.

Definition prepare_keys (tx : string) (k : ProvenanceRole * string) : Prop :=
  k = (UpdateBackup, tx) \/ k = (UpdateRestore, tx) \/ k = journal_key.

Lemma changes_weaken (P Q : ProvenanceRole * string -> Prop) (w w' : store) :
  (forall k, P k -> Q k) -> changes P w w' -> changes Q w w'.
Proof. intros HPQ (Hk & Hr). split; [|done]. intros k HQ. apply Hk. auto. Qed.

Lemma store_Inspect_ok (role : ProvenanceRole) (tx : string) (k : ProvenanceRole * string) (w w' : store) (o : ProvenanceObject) :
  store_Inspect e role tx w = (Ok o, w') -> key role tx = Some k ->
  same_store w w' /\ o = observe_file e (files w' !! k) /\ oversized (files w' !! k) = false.
Proof.
  intros Hi Hk. apply store_Inspect_spec in Hi as [Hs Ho]. destruct (Ho o eq_refl) as (k' & Hk' & -> & Hsz).
  rewrite Hk in Hk'. injection Hk' as <-. split; [done|]. by destruct Hs as (-> & _).
Qed.

Lemma admit_same (o : ProvenanceObject) (w w' : store) (x : option error) :
  admitInstalled o w = (x, w') -> files w' = files w /\ selection w' = selection w.
Proof.
  unfold admitInstalled. intros Hb. apply st_bind_inv in Hb as (w1 & w2 & [= <- <-] & Hb).
  case_if_in Hb; by injection Hb as _ <-.
Qed.

Lemma snapshot_spec (tx : string) (expected : ProvenanceObject) (intent : UpdateIntent) (w w' : store)
    (u : UpdateTransaction) :
  snapshot_update e tx expected intent false false w = (Ok u, w') ->
  names_ok -> files_named w -> validTransaction tx = true ->
  validSelection (Previous intent) = true -> validSelection (Next intent) = true ->
  files w !! journal_key = None -> files w !! (PairJournal, ""%string) = None ->
  exists j, begun j u w' /\ Transaction j = tx /\ Previous (Intent j) = Previous intent /\
    Next (Intent j) = Next intent /\ Reinstall (Intent j) = false /\ selection w' = selection w /\
    files w' !! core_key = files w !! core_key.
Proof.
  unfold snapshot_update. intros Hb Hnames Hnamed Hvt Hvp Hvn Hnoj Hpair.
  apply rbind_inv in Hb as (new & w1 & Hn & Hb).
  apply (store_Inspect_ok _ _ (UpdateCandidate, tx)) in Hn as (Hs1 & Hn & _); [|cbn; by rewrite Hvt].
  apply rbind_inv in Hb as (marker & w2 & Hm & Hb).
  apply (store_Inspect_ok _ _ (UpdateMarker, tx)) in Hm as (Hs2 & Hm & Hszm); [|cbn; by rewrite Hvt].
  case_if_in Hb; [discriminate Hb|].
  apply orb_false_iff in Heqb as [Heqb Hmd]. apply orb_false_iff in Heqb as [Heqb Hmp].
  apply orb_false_iff in Heqb as [Hnp _]. apply negb_false_iff in Hnp, Hmp, Hmd. apply String.eqb_eq in Hmd.
  apply rbind_inv in Hb as (old & w3 & Ho & Hb). apply (store_Inspect_ok _ _ core_key) in Ho as (Hs3 & Ho & Hszo); [|done].
  apply st_bind_inv in Hb as (adm & w4 & Ha & Hb). apply admit_same in Ha as [Hf4 Hsel4].
  apply rguard_inv in Hb as (w5 & H5 & Hb). injection H5 as _ <-.
  apply rbind_inv in Hb as ([backup restore] & w6 & Hsb & Hb).
  assert (Hf3 : files w3 = files w).
  { destruct Hs1 as (H1 & _), Hs2 as (H2 & _), Hs3 as (H3 & _). congruence. }
  assert (Hsel : selection w4 = selection w).
  { destruct Hs1 as (_ & _ & H1), Hs2 as (_ & _ & H2), Hs3 as (_ & _ & H3). congruence. }
  assert (Hf4w : files w4 = files w) by congruence.
  rewrite Hf3, <- Hf4w in Ho. rewrite (proj1 Hs1), <- Hf4w in Hn.
  rewrite Hf3, <- Hf4w in Hszo. rewrite (proj1 Hs2), (proj1 Hs1), <- Hf4w in Hm, Hszm. clear Hs1 Hs2 Hs3 Hf3 Hf4.
  assert (Hnamed4 : files_named w4) by (unfold files_named; by rewrite Hf4w).
  rewrite Ho in Hsb. apply save_backups_spec in Hsb as [Hch Hback]. rewrite <- Ho in Hback.
  apply st_bind_inv in Hb as ([err u'] & w7 & Hw & Hb). destruct err as [x|]; [discriminate Hb|].
  injection Hb as <- <-.
  match type of Hw with writePhase e _ (mkTransaction ?jj _ _) _ = _ => set (j := jj) in * end.
  apply (writePhase_spec _ "" j) in Hw as (Hfr & Hst & Hj & Hunc & Hstored); [|done|done].
  destruct Hch as (Hch & Hsel6 & Hnamed6). specialize (Hnamed6 Hnames Hnamed4).
  assert (Hkeep : forall k, k <> (UpdateBackup, tx) -> k <> (UpdateRestore, tx) -> k <> journal_key ->
                    files w7 !! k = files w4 !! k).
  { intros k H1 H2 H3. destruct Hfr as [Hfr _]. rewrite Hfr by done. apply Hch. intros [?|?]; done. }
  exists j. split; [|split; [done|]; split; [done|]; split; [done|]; split; [done|]; split;
    [destruct Hfr as [_ Hfr]; congruence|rewrite Hkeep by done; by rewrite Hf4w]].
  assert (Hvo : validProvenanceObject backup = true /\ validProvenanceObject restore = true /\
                Present backup = Present old /\ Present restore = Present old /\
                (Present old = true -> obj_SHA256 backup = obj_SHA256 old /\ obj_SHA256 restore = obj_SHA256 old) /\
                observed_in e restore /\
                (Present old = true -> exists r, files w7 !! (UpdateRestore, tx) = Some r /\ fits r restore)).
  { destruct (Present old) eqn:Hpo.
    - destruct Hback as ((b & Hb & Eb) & (r & Hr & Er & Hszr) & Hh1 & Hh2).
      assert (Vb := observed_valid w6 (UpdateBackup, tx) Hnames Hnamed6). rewrite Hb, <- Eb in Vb.
      assert (Vr := observed_valid w6 (UpdateRestore, tx) Hnames Hnamed6). rewrite Hr, <- Er in Vr.
      split; [done|]. split; [done|]. rewrite Eb, Er. repeat split; try done.
      + by rewrite <- Eb.
      + by rewrite <- Er.
      + intros _. exists r. destruct Hfr as [Hfr _]. rewrite Hfr by done. done.
    - destruct Hback as [-> ->]. repeat split; done. }
  destruct Hvo as (Hvb & Hvr & Hpb & Hpr & Hhash & Hbr & Hrest).
  assert (Hund : undecided j w7).
  { exists "prepared"%string. split; [in_phases|]. destruct Hstored as [Hs|[_ (f & Hf & _)]]; [done|].
    exfalso. rewrite Hch, Hf4w, Hnoj in Hf; [done|]. intros [?|?]; done. }
  split; [done|]. split; [done|]. split; [|split; [|split; [|split; [|done]]]].
  - repeat split; try done; try (by apply Hhash). subst j. cbn [forallb Old New Backup Restore Marker].
    rewrite Hvb, Hvr, Ho, Hn, Hm, !observed_valid by done. done.
  - subst j. unfold journal_boot. cbn. rewrite Ho, Hn, Hm. repeat split; try apply observed_boot. exact Hbr.
  - split; [by rewrite Hkeep by done; rewrite Hf4w|]. subst j. cbn. split.
    + rewrite Hkeep by done. rewrite Hm in Hmp |- *. destruct (files w4 !! (UpdateMarker, tx)) as [m|]; [|done].
      exists m. split; [done|]. by apply observed_fits.
    + split; [exact Hrest|]. left. unfold core_old. rewrite Hkeep by done. cbn. rewrite Ho.
      by destruct (files w4 !! core_key).
  - subst j. unfold core_old. rewrite Hkeep by done. cbn. rewrite Ho. by destruct (files w4 !! core_key).
Qed.

Lemma BeginUpdate_spec (tx : string) (expected : ProvenanceObject) (intent : UpdateIntent) (w w' : store)
    (u : UpdateTransaction) :
  BeginUpdate e tx expected intent w = (Ok u, w') -> honest e -> names_ok -> files_named w ->
  exists j, begun j u w' /\ Previous (Intent j) = Previous intent /\ Next (Intent j) = Next intent /\
    Reinstall (Intent j) = false /\ selection w' = selection w /\ files w' !! core_key = files w !! core_key.
Proof.
  unfold BeginUpdate, beginUpdate. intros Hb Hhon Hnames Hnamed. case_if_in Hb; [discriminate Hb|].
  apply orb_false_iff in Heqb as [Heqb Hvn]. apply orb_false_iff in Heqb as [Hvt Hvp].
  apply negb_false_iff in Hvt, Hvp, Hvn.
  apply rguard_inv in Hb as (w1 & H1 & Hb). apply acquire_same in H1.
  apply st_bind_inv in Hb as (pair & w2 & H2 & Hb). apply store_Load_spec in H2 as [Hs2 Hpair].
  destruct pair as [c|x]; [discriminate Hb|]. case_if_in Hb; [discriminate Hb|]. apply negb_false_iff in Heqb.
  destruct (Hpair Hhon Heqb) as (k & [= <-] & Hnop). clear Hpair Heqb.
  apply st_bind_inv in Hb as (prev & w3 & H3 & Hb). apply store_Load_spec in H3 as [Hs3 Hprev].
  assert (Hs : same_store w w3) by eauto using same_store_trans.
  assert (Hf3 : files w3 = files w) by apply Hs.
  assert (Hnop3 : files w3 !! (PairJournal, ""%string) = None).
  { rewrite Hf3. destruct H1 as (Hf1 & _). by rewrite <- Hf1. }
  assert (Hnamed3 : files_named w3) by (unfold files_named; by rewrite Hf3).
  assert (Hsel3 : selection w3 = selection w) by apply Hs.
  destruct prev as [prev|y].
  - apply rbind_inv in Hb as (done_ & w4 & H4 & Hb).
    assert (Hs4 : same_store w3 w4).
    { clear -H4. unfold OpenUpdate in H4. apply st_bind_inv in H4 as (raw & wa & Ha & H4).
      apply store_Load_spec in Ha as [Hsa _]. destruct raw as [raw|]; [|discriminate H4].
      apply st_bind_inv in H4 as (pr & wb & Hb & H4). apply store_Load_spec in Hb as [Hsb _].
      destruct pr as [|y]; [discriminate H4|]. case_if_in H4; [discriminate H4|].
      destruct (decodeUpdateJournal raw) as [jj|]; [|discriminate H4].
      apply st_bind_inv in H4 as (bad & wc & Hc & H4). apply verifyMarker_same in Hc. injection H4 as _ <-.
      eauto using same_store_trans. }
    apply rguard_inv in Hb as (w5 & H5 & Hb). apply deferCleanup_spec in H5 as [(Hk5 & Hsel5 & Hn5) Hnoj].
    assert (Hf4 : files w4 = files w) by (destruct Hs4 as (-> & _); done).
    apply snapshot_spec in Hb as (j & Hbeg & _ & Hp & Hn & Hre & Hsel & Hcore); try done.
    + exists j. repeat (split; [done|]). split; [destruct Hs4 as (_ & _ & ?); congruence|].
      rewrite Hcore, Hk5, Hf4; [done|]. intros [?|?]; done.
    + apply Hn5; [done|]. unfold files_named. by rewrite Hf4.
    + rewrite Hk5, Hf4, <- Hf3; [done|]. intros [?|?]; done.
  - case_if_in Hb; [discriminate Hb|]. apply negb_false_iff in Heqb. cbn [andb] in Hb.
    destruct (Hprev Hhon Heqb) as (k & [= <-] & Hnoj).
    apply snapshot_spec in Hb as (j & Hbeg & _ & Hp & Hn & Hre & Hsel & Hcore); try done.
    + exists j. repeat (split; [done|]). split; [congruence|]. by rewrite Hcore, Hf3.
    + destruct Hs3 as (-> & _). done.
Qed.

End Recovery.

Lemma committed_phase : "committed"%string ∈ phases.
Proof. apply list_elem_of_In. vm_compute. tauto. Qed.

Lemma open_phase (p : string) : p ∈ open_phases -> p ∈ phases /\ p <> "committed"%string.
Proof.
  rewrite !list_elem_of_In. unfold open_phases, phases. cbn [In].
  intros [<-|[<-|[<-|[<-|[]]]]]; (split; [tauto|discriminate]).
Qed.

(** ** The whole update *)

(** The owner's use of a transaction: publish, and commit what was published. *)
Definition run_update `{Sha256} `{JournalJSON} (e : environment) (u : UpdateTransaction)
    : st store (option error * UpdateTransaction) :=
  let! '(err, u) := Publish e u in
  match err with Some x => st_ret (Some x, u) | None => Commit e u end.

Section Whole.
Context `{Sha256} `{JournalJSON} (e : environment).

Definition decided (j : updateJournal) (w : store) : Prop :=
  phase_stored j "committed" w /\ core_new j w /\ selection w = Next (Intent j).

(** Publishing and committing leave the update decidable; success means that
    the decision is stored, unless two phases collide under the hash. *)
Lemma run_update_spec (j : updateJournal) (u u' : UpdateTransaction) (w w' : store) (err : option error) :
  run_update e u w = ((err, u'), w') -> begun e j u w ->
  pending_ok j w' /\ (undecided j w' \/ decided j w') /\
  (err = None -> phase_stored j "committed" w' \/
     exists p, p ∈ open_phases /\ phase_stored j p w' /\
       digest (json_Marshal (with_Phase p j)) = digest (json_Marshal (with_Phase "committed" j))).
Proof.
  unfold run_update. intros Hrun (Hj & Hunc & Hval & Hboot & Hok1 & Hold1 & Hund1).
  apply st_bind_inv in Hrun as ([perr u2] & wp & Hp & Hrun).
  eapply Publish_spec in Hp as (Hokp & Hundp & Hselp & Hnewp); try done.
  destruct perr as [x|]; [injection Hrun as <- <- <-; split_and!; [done|by left|done]|].
  destruct (Hnewp eq_refl) as (Hn & Hj2 & Hu2).
  eapply Commit_spec in Hrun as (Hok2 & Hn2 & Hdec & Hs); try done. split; [done|]. split; [|done].
  unfold decided. destruct Hdec as [Hdec|[Hdec Hselc]]; auto.
Qed.

(** The phase on disk, and what it says. *)
Lemma stored_phase (j : updateJournal) (w : store) :
  undecided j w \/ decided j w ->
  exists p, p ∈ phases /\ phase_stored j p w /\ (p ∈ open_phases \/ p = "committed"%string /\ decided j w).
Proof.
  intros [(p & Hin & Hst)|Hd].
  - destruct (open_phase p Hin). exists p. auto.
  - exists "committed"%string. split; [exact committed_phase|]. split; [apply Hd|]. auto.
Qed.

(** Opening a pending update in any honest environment: the journal that is
    stored, or an error that is not the absence of a journal. *)
Lemma OpenUpdate_stored (j : updateJournal) (p : string) (w w' : store) (r : result UpdateTransaction) :
  OpenUpdate e w = (r, w') -> honest e -> journal_codec j -> p ∈ phases -> phase_stored j p w ->
  same_store w w' /\
  match r with
  | Ok v => v = mkTransaction (with_Phase p j) [] false
  | Err x => errors_Is x ErrNotExist = false
  end.
Proof.
  unfold OpenUpdate. intros Hb Hhon Hc Hp (f & Hf & Hcf).
  apply st_bind_inv in Hb as (raw & w1 & H1 & Hb). apply store_Load_spec in H1 as [Hs1 H1].
  destruct raw as [raw|x].
  2:{ injection Hb as <- <-. split; [done|]. destruct (errors_Is x ErrNotExist) eqn:Hx; [|done].
      destruct (H1 Hhon eq_refl) as (k & [= <-] & Hk). unfold journal_key in Hf. congruence. }
  destruct H1 as (k & f' & [= <-] & Hf' & <-). fold journal_key in Hf'. rewrite Hf in Hf'. injection Hf' as <-.
  apply st_bind_inv in Hb as (pair & w2 & H2 & Hb). apply store_Load_spec in H2 as [Hs2 H2].
  assert (Hs : same_store w w2) by eauto using same_store_trans.
  destruct pair as [raw|x]; [injection Hb as <- <-; split; done|].
  revert Hb. case_if; intros Hb.
  { injection Hb as <- <-. split; [done|]. apply negb_true_iff in Heqb. cbn. by rewrite Heqb. }
  rewrite Hcf in Hb. unfold decodeUpdateJournal in Hb. rewrite (proj1 (Hc p Hp)) in Hb.
  repeat (revert Hb; case_if; intros Hb; [injection Hb as <- <-; done|]).
  apply st_bind_inv in Hb as (bad & w3 & H3 & Hb). injection Hb as <- <-. split.
  - apply verifyMarker_same in H3. eauto using same_store_trans.
  - unfold verifyMarker in H3. apply st_bind_inv in H3 as (m & w4 & Hm & [= <- <-]).
    destruct m as [m|y]; [by case_if|]. by apply store_Inspect_honest in Hm.
Qed.

End Whole.

(** ** Theorems *)

(** C1. A core update is all or nothing.  Whatever fails while it is published
    and committed, and wherever the process dies, a later daemon can open the
    transaction; and either the decision is recorded as committed, the new core
    is installed and the new selection saved, or a rollback succeeds and leaves
    the core that was installed before (or none, when there was none) with the
    previous selection.  When the update reports success, and no two phases of
    its journal have the same hash, the first is the case. *)
Theorem core_update_all_or_nothing `{Sha256} `{JournalJSON} (e e2 : environment) (tx : string)
    (expected : ProvenanceObject) (intent : UpdateIntent) (w w1 : store) (u : UpdateTransaction) :
  BeginUpdate e tx expected intent w = (Ok u, w1) ->
  honest e -> names_ok e -> files_named w -> selection w = Previous intent ->
  journal_codec (journal u) -> fault_free e2 ->
  let '((err, u'), w2) := run_update e u w1 in
  exists v w3, OpenUpdate e2 w2 = (Ok v, w3) /\
    (Phase (journal v) = "committed"%string /\ core_new (journal u) w3 /\ selection w3 = Next intent \/
     exists v' w4, Rollback e2 v w3 = ((None, v'), w4) /\ selection w4 = Previous intent /\
       match files w !! core_key with
       | Some f0 => exists f, files w4 !! core_key = Some f /\ digest (content f) = digest (content f0)
       | None => files w4 !! core_key = None
       end) /\
    (err = None ->
     (forall p, p ∈ open_phases ->
        digest (json_Marshal (with_Phase p (journal u))) <> digest (json_Marshal (with_Phase "committed" (journal u)))) ->
     Phase (journal v) = "committed"%string).
Proof.
  intros Hbeg Hhon Hnames Hnamed Hsel0 Hcodec Hfree.
  apply BeginUpdate_spec in Hbeg as (j & Hbg & Hprev & Hnext & Hre & Hsel1 & Hcore1); try done.
  pose proof Hbg as (Hj & Hunc & Hval & Hboot & Hok1 & Hold1 & Hund1). rewrite Hj in Hcodec |- *.
  assert (Hc : journal_codec j) by exact Hcodec. clear Hcodec.
  destruct (run_update e u w1) as [[err u'] w2] eqn:Hrun.
  apply (run_update_spec e j) in Hrun as (Hok & Hdec & Hsucc); [|done].
  destruct (stored_phase j w2 Hdec) as (p & Hin & Hst & Hcase).
  destruct (OpenUpdate_free e2 Hfree j p w2 Hval Hc Hin Hok Hst) as (w3 & Hopen & Hs3).
  exists (mkTransaction (with_Phase p j) [] false), w3. split; [exact Hopen|]. cbn [journal Phase with_Phase].
  assert (Hok3 : pending_ok j w3) by exact (frame_pending _ _ _ (frame_same _ _ Hs3) Hok).
  split.
  - destruct (decide (p = "committed"%string)) as [->|Hpc].
    + left. destruct Hcase as [Ho|(_ & _ & Hn & Hs)]; [by apply open_phase in Ho as [_ []]|]. split; [done|].
      split; [exact (frame_new _ _ _ (frame_same _ _ Hs3) Hn)|]. destruct Hs3 as (_ & _ & ->). congruence.
    + right. destruct (Rollback_free e2 Hfree j p w3 Hval Hc Hre Hpc Hok3) as (v' & w4 & Hrb & Hoi & Hsel).
      exists v', w4. split; [exact Hrb|]. split; [congruence|].
      unfold old_installed in Hoi. unfold core_old in Hold1. rewrite Hcore1 in Hold1.
      destruct (files w !! core_key) as [f0|].
      * destruct Hold1 as (Hp0 & Hd0 & _). destruct (files w4 !! core_key) as [f|]; [|congruence].
        exists f. split; [done|]. destruct Hoi as [_ Hd]. congruence.
      * destruct (files w4 !! core_key) as [f|]; [destruct Hoi; congruence|done].
  - intros He Hcol. destruct (Hsucc He) as [Hstc|(q & Hq & _ & Hd)]; [|by apply Hcol in Hq].
    destruct Hst as (f & Hf & Hcf), Hstc as (f' & Hf' & Hcf'). rewrite Hf in Hf'. injection Hf' as <-.
    rewrite Hcf in Hcf'. apply (f_equal decodeStrict) in Hcf'.
    rewrite (proj1 (Hc p Hin)), (proj1 (Hc "committed"%string committed_phase)) in Hcf'.
    injection Hcf' as Hcf'. exact Hcf'.
Qed.

(** C11. No core is executed while an update is undecided.  Whatever fails while
    the update is published and committed, and wherever the process dies, an
    execution that does not carry the authority of this very transaction is
    admitted afterwards only when the decision is recorded as committed, the new
    core is installed and the new selection saved. *)
Theorem undecided_update_blocks_execution `{Sha256} `{JournalJSON} (e e2 : environment) (tx : string)
    (expected : ProvenanceObject) (intent : UpdateIntent) (w w1 : store) (u : UpdateTransaction)
    (authority : option updateExecution) :
  BeginUpdate e tx expected intent w = (Ok u, w1) ->
  honest e -> names_ok e -> files_named w -> journal_codec (journal u) -> honest e2 ->
  (forall a, authority = Some a -> ex_transaction a <> Transaction (journal u)) ->
  let '((err, u'), w2) := run_update e u w1 in
  let '(refused, w3) := authorizePendingUpdate e2 authority w2 in
  refused = None ->
  phase_stored (journal u) "committed" w3 /\ core_new (journal u) w3 /\ selection w3 = Next intent.
Proof.
  intros Hbeg Hhon Hnames Hnamed Hcodec Hhon2 Hauth.
  apply BeginUpdate_spec in Hbeg as (j & Hbg & Hprev & Hnext & Hre & Hsel1 & Hcore1); try done.
  pose proof Hbg as (Hj & _). rewrite Hj in Hcodec, Hauth |- *.
  assert (Hc : journal_codec j) by exact Hcodec. clear Hcodec.
  destruct (run_update e u w1) as [[err u'] w2] eqn:Hrun.
  apply (run_update_spec e j) in Hrun as (Hok & Hdec & _); [|done].
  destruct (stored_phase j w2 Hdec) as (p & Hin & Hst & Hcase).
  destruct (authorizePendingUpdate e2 authority w2) as [refused w3] eqn:Hau. intros ->.
  unfold authorizePendingUpdate in Hau. apply st_bind_inv in Hau as (r & w4 & Hopen & Hau).
  apply (OpenUpdate_stored e2 j p) in Hopen as [Hs4 Hr]; try done.
  destruct r as [v|x]; [|rewrite Hr in Hau; discriminate Hau]. subst v. cbn [journal Phase with_Phase] in Hau.
  destruct Hcase as [Ho|[-> (Hstc & Hn & Hsel)]].
  - exfalso. revert Hau. assert (Hp : (String.eqb p "committed" || String.eqb p "rolled_back") = false).
    { apply list_elem_of_In in Ho. cbn in Ho. by destruct Ho as [<-|[<-|[<-|[<-|[]]]]]. }
    rewrite Hp. intros [= Hau _]. destruct authority as [a|]; [|discriminate Hau].
    specialize (Hauth a eq_refl). cbn in Hau, Hauth.
    destruct (String.eqb_spec (ex_transaction a) (Transaction j)); [done|discriminate Hau].
  - change (String.eqb "committed" "committed" || _) with true in Hau. cbv iota in Hau.
    unfold verifyFinalCore in Hau. apply st_bind_inv in Hau as (cur & w5 & Hcur & [= _ <-]).
    apply store_Inspect_spec in Hcur as [Hs5 _].
    destruct (same_store_trans _ _ _ Hs4 Hs5) as (Hf & _ & Hs).
    unfold phase_stored, core_new. rewrite Hf, Hs. rewrite Hsel, Hnext. done.
Qed.

(** ** Witnesses *)

(** A hash that tells short strings apart: their first 32 bytes. *)
Fixpoint prefix_bytes (n : nat) (s : string) : list Z :=
  match n with
  | O => []
  | S m =>
      match s with
      | EmptyString => 0 :: prefix_bytes m ""
      | String c rest => byte c :: prefix_bytes m rest
      end
  end.

Lemma prefix_bytes_ok (n : nat) (s : string) :
  Forall (fun b => 0 <= b < 256) (prefix_bytes n s) /\ length (prefix_bytes n s) = n.
Proof.
  revert s. induction n as [|n IH]; intros s; [by split|].
  destruct s as [|c s]; cbn; (split; [constructor; [|apply IH]|f_equal; apply IH]).
  - lia.
  - unfold byte. pose proof (nat_ascii_bounded c). lia.
Qed.

#[local] Instance prefix_hash : Sha256 := {| sha256 := prefix_bytes 32; sha256_bytes := prefix_bytes_ok 32 |}.

(** A first store: core "old", candidate "new" and the marker of the transaction. *)
Definition ex_tx : string := "000102030405060708090a0b0c0d0e0f".
Definition ex_store : store :=
  mkStore
    (<[core_key := mkFile "old" "i1"]>
      (<[(UpdateCandidate, ex_tx) := mkFile "new" "i2"]>
        (<[(UpdateMarker, ex_tx) := mkFile ex_tx "i3"]> ∅)))
    (mkGate absent false) (mkSelection "stable" "" "1" "") 0.

(** Everything fails from the given tick on. *)
Definition ex_env (until : nat) : environment :=
  mkEnvironment (fun n => if (n <? until)%nat then FOk else FErr (EText "power loss")) (fun _ => "f"%string) "b".
Definition ex_calm : environment := mkEnvironment (fun _ => FOk) (fun _ => "g"%string) "b2".

Definition ex_intent : UpdateIntent :=
  mkIntent (mkSelection "stable" "" "1" "") (mkSelection "alpha" "" "2" "") true true false.

Definition ex_object (c i : string) : ProvenanceObject := mkObject true (digest c) i "b".
Definition ex_journal : updateJournal :=
  mkJournal updateSchema ex_tx "prepared" ex_intent (ex_object "old" "i1") (ex_object "new" "i2")
    (ex_object "old" "f") (ex_object "old" "f") (ex_object ex_tx "i3").

(** The codec of one transaction's journal, whose phase is its text. *)
#[local] Instance ex_json : JournalJSON :=
  {| json_Marshal := Phase; decodeStrict := fun raw => Ok (with_Phase raw ex_journal) |}.

Definition ex_begun : UpdateTransaction := mkTransaction ex_journal [] false.
Definition ex_expected : ProvenanceObject := ex_object "new" "i2".

Lemma ex_honest (n : nat) : honest (ex_env n).
Proof. intros m x. unfold ex_env. cbn [op]. destruct (m <? n)%nat; cbn [fault_error]; [discriminate|]. by intros [= <-]. Qed.

Lemma ex_names (n : nat) : names_ok (ex_env n).
Proof. split; [intros m|]; discriminate. Qed.

Lemma ex_named : files_named ex_store.
Proof.
  intros k f. unfold ex_store. cbn [files].
  rewrite !lookup_insert_Some, lookup_empty. intros [[_ <-]|(_ & [[_ <-]|(_ & [[_ <-]|[_ [=]]])])]; discriminate.
Qed.

Lemma ex_codec : journal_codec (journal ex_begun).
Proof.
  intros p Hp. split; [reflexivity|]. apply list_elem_of_In in Hp. cbn in Hp.
  repeat (destruct Hp as [<-|Hp]; [vm_compute; discriminate|]). destruct Hp.
Qed.

Definition ex_w1 (n : nat) : store := snd (BeginUpdate (ex_env n) ex_tx ex_expected ex_intent ex_store).

Lemma ex_begin_crash : BeginUpdate (ex_env 22) ex_tx ex_expected ex_intent ex_store = (Ok ex_begun, ex_w1 22).
Proof. vm_compute. reflexivity. Qed.
Lemma ex_begin_calm : BeginUpdate (ex_env 100) ex_tx ex_expected ex_intent ex_store = (Ok ex_begun, ex_w1 100).
Proof. vm_compute. reflexivity. Qed.

(** The machine dies after the new selection was saved and before the decision:
    the daemon that starts next restores the old core and selection. *)
Lemma core_update_all_or_nothing_witness :
  let '((err, u'), w2) := run_update (ex_env 22) ex_begun (ex_w1 22) in
  exists v w3, OpenUpdate ex_calm w2 = (Ok v, w3) /\
    (Phase (journal v) = "committed"%string /\ core_new (journal ex_begun) w3 /\ selection w3 = Next ex_intent \/
     exists v' w4, Rollback ex_calm v w3 = ((None, v'), w4) /\ selection w4 = Previous ex_intent /\
       match files ex_store !! core_key with
       | Some f0 => exists f, files w4 !! core_key = Some f /\ digest (content f) = digest (content f0)
       | None => files w4 !! core_key = None
       end).
Proof.
  pose proof (core_update_all_or_nothing (ex_env 22) ex_calm ex_tx ex_expected ex_intent ex_store (ex_w1 22) ex_begun
    ex_begin_crash (ex_honest 22) (ex_names 22) ex_named eq_refl ex_codec (fun _ => eq_refl)) as Hw.
  destruct (run_update (ex_env 22) ex_begun (ex_w1 22)) as [[err u'] w2].
  destruct Hw as (v & w3 & Hopen & Hcase & _). exists v, w3. split; [exact Hopen|exact Hcase].
Defined.

(** Nothing fails: afterwards the core may be started by anybody. *)
Lemma undecided_update_blocks_execution_witness :
  let '((err, u'), w2) := run_update (ex_env 100) ex_begun (ex_w1 100) in
  let '(refused, w3) := authorizePendingUpdate (ex_env 200) None w2 in
  refused = None ->
  phase_stored (journal ex_begun) "committed" w3 /\ core_new (journal ex_begun) w3 /\ selection w3 = Next ex_intent.
Proof.
  apply (undecided_update_blocks_execution (ex_env 100) (ex_env 200) ex_tx ex_expected ex_intent ex_store (ex_w1 100)
    ex_begun None ex_begin_calm (ex_honest 100) (ex_names 100) ex_named ex_codec (ex_honest 200)).
  discriminate.
Defined.

Example ex_started_afterwards :
  fst (authorizePendingUpdate (ex_env 200) None (snd (run_update (ex_env 100) ex_begun (ex_w1 100)))) = None.
Proof. vm_compute. reflexivity. Qed.
