(* ===== verification/Manager.v ===== *)
(** * Manager: ownership of mutations and the settings transaction

    Models [internal/runtime/settings.go] and the ownership part of
    [manager.go] and [core_update.go]: the mutation gates, the revision check,
    the transaction that changes the settings (prepare, save, publish, restore)
    and the wrapper of controller mutations.  [Routing] and [SysProxy]
    model services built on it.

    - The manager is one record.  Mutation ownership is a token in a channel: a
      model run is what one owner does between taking and returning it.
    - The settings file is the class [SettingsFile]; [settings_file] discharges
      it with [Settings.SaveWithCommit] over any atomic file.
    - The running core and the operating system answer through the environment:
      a read may fail, a write may leave any state behind and report anything.
    - [ctx.Err()] is a function of the tick, so a request may be cancelled
      between any two steps. *)

From S2P Require Import Prelude GoStd Atomic State Settings Catalog.

(** ** The settings file *)

Class SettingsFile (Env FS : Type) := {
  sf_saved : FS -> option Settings;
  sf_save : Env -> Settings -> FS -> CommitResult * option error * FS;
  sf_committed : forall env s fs r e fs',
    sf_save env s fs = (r, e, fs') -> Committed r = true ->
    e = None /\ sf_saved fs' = Some (canonical s);
  sf_failed : forall env s fs r e fs',
    sf_save env s fs = (r, e, fs') -> Committed r = false ->
    e <> None /\ sf_saved fs' = sf_saved fs
}.

(** ** The state *)

(** [mihomo.Proxy], as far as routing reads it. *)
Record Proxy := mkProxy {
  px_Type : string;
  px_All : list string;
  px_Now : string
}.

(** What the controller reports: [Configs] and the group GLOBAL of [Proxies]. *)
Record Kernel := mkKernel {
  k_Configs : gmap string any;
  k_GLOBAL : option Proxy
}.

(** [sysproxy.State]. *)
Record ProxyState := mkProxyState {
  ps_Enabled : bool;
  ps_Server : string
}.

#[export] Instance ProxyState_eq_dec : EqDecision ProxyState.
Proof. solve_decision. Defined.

Record Manager (FS : Type) := mkManager {
  settings : Settings;
  configGeneration : Z;
  mutationDegraded : bool;
  closing : bool;
  coreRecovery : bool;
  coreUpdate : option nat;
  stopCoreOnUnlock : bool;
  store : Snapshot;
  subscriptions : option Catalog;
  routingMessage : string;
  tunLastError : string;
  fs : FS;
  kernel : Kernel;
  osProxy : ProxyState;
  clock : nat
}.
Arguments mkManager {FS}.
Arguments settings {FS}. Arguments configGeneration {FS}. Arguments mutationDegraded {FS}.
Arguments closing {FS}. Arguments coreRecovery {FS}. Arguments coreUpdate {FS}.
Arguments stopCoreOnUnlock {FS}. Arguments store {FS}. Arguments subscriptions {FS}.
Arguments routingMessage {FS}. Arguments tunLastError {FS}. Arguments fs {FS}. Arguments kernel {FS}.
Arguments osProxy {FS}. Arguments clock {FS}.

(** The fields of [Options] that do not change. *)
Record Options := mkOptions {
  validationMode : bool;
  activationPhase : string;
  settingsPath : string;
  has_controller : bool;
  has_sysProxy : bool;
  trustedCore : bool
}.

(** The calls of the system-proxy backend that change it. *)
Inductive proxy_request :=
| BackendEnable (host : string) (port : Z)
| BackendDisable.

(** The environment at each tick. *)
Record environment (Env : Type) := mkEnvironment {
  ctx_owner : option nat;
  ctx_err : nat -> option error;
  read_err : nat -> option error;
  kernel_write : nat -> Kernel -> Kernel * option error;
  os_write : nat -> proxy_request -> ProxyState -> ProxyState * option error;
  save_env : nat -> Env
}.
Arguments mkEnvironment {Env}.
Arguments ctx_owner {Env}. Arguments ctx_err {Env}. Arguments read_err {Env}.
Arguments kernel_write {Env}. Arguments os_write {Env}. Arguments save_env {Env}.

Record Operation := mkOperation {
  op_ID : string;
  op_Source : string;
  op_IfRevision : option Z
}.

Section Setters.
Context {FS : Type}.
Implicit Type m : Manager FS.

Definition set_settings (s : Settings) (g : Z) m : Manager FS :=
  mkManager s g (mutationDegraded m) (closing m) (coreRecovery m) (coreUpdate m) (stopCoreOnUnlock m) (store m)
    (subscriptions m) (routingMessage m) (tunLastError m) (fs m) (kernel m) (osProxy m) (clock m).
Definition set_degraded m : Manager FS :=
  mkManager (settings m) (configGeneration m) true (closing m) (coreRecovery m) (coreUpdate m) (stopCoreOnUnlock m) (store m)
    (subscriptions m) (routingMessage m) (tunLastError m) (fs m) (kernel m) (osProxy m) (clock m).
Definition set_stop (b : bool) m : Manager FS :=
  mkManager (settings m) (configGeneration m) (mutationDegraded m) (closing m) (coreRecovery m) (coreUpdate m) b (store m)
    (subscriptions m) (routingMessage m) (tunLastError m) (fs m) (kernel m) (osProxy m) (clock m).
Definition set_store (s : Snapshot) m : Manager FS :=
  mkManager (settings m) (configGeneration m) (mutationDegraded m) (closing m) (coreRecovery m) (coreUpdate m)
    (stopCoreOnUnlock m) s (subscriptions m) (routingMessage m) (tunLastError m) (fs m) (kernel m) (osProxy m) (clock m).
Definition set_message (t : string) m : Manager FS :=
  mkManager (settings m) (configGeneration m) (mutationDegraded m) (closing m) (coreRecovery m) (coreUpdate m)
    (stopCoreOnUnlock m) (store m) (subscriptions m) t (tunLastError m) (fs m) (kernel m) (osProxy m) (clock m).
Definition set_tunLastError (t : string) m : Manager FS :=
  mkManager (settings m) (configGeneration m) (mutationDegraded m) (closing m) (coreRecovery m) (coreUpdate m)
    (stopCoreOnUnlock m) (store m) (subscriptions m) (routingMessage m) t (fs m) (kernel m) (osProxy m) (clock m).
Definition set_fs (f : FS) m : Manager FS :=
  mkManager (settings m) (configGeneration m) (mutationDegraded m) (closing m) (coreRecovery m) (coreUpdate m)
    (stopCoreOnUnlock m) (store m) (subscriptions m) (routingMessage m) (tunLastError m) f (kernel m) (osProxy m) (clock m).
Definition set_kernel (k : Kernel) m : Manager FS :=
  mkManager (settings m) (configGeneration m) (mutationDegraded m) (closing m) (coreRecovery m) (coreUpdate m)
    (stopCoreOnUnlock m) (store m) (subscriptions m) (routingMessage m) (tunLastError m) (fs m) k (osProxy m) (clock m).
Definition set_osProxy (p : ProxyState) m : Manager FS :=
  mkManager (settings m) (configGeneration m) (mutationDegraded m) (closing m) (coreRecovery m) (coreUpdate m)
    (stopCoreOnUnlock m) (store m) (subscriptions m) (routingMessage m) (tunLastError m) (fs m) (kernel m) p (clock m).
Definition ticked m : Manager FS :=
  mkManager (settings m) (configGeneration m) (mutationDegraded m) (closing m) (coreRecovery m) (coreUpdate m)
    (stopCoreOnUnlock m) (store m) (subscriptions m) (routingMessage m) (tunLastError m) (fs m) (kernel m) (osProxy m) (S (clock m)).

#[export] Program Instance HasStore_Manager : HasStore (Manager FS) :=
  {| State.Load := store; State.Store := set_store |}.
Next Obligation. reflexivity. Qed.

Definition tick : st (Manager FS) nat := fun m => (clock m, ticked m).
Definition gets {A} (f : Manager FS -> A) : st (Manager FS) A := fun m => (f m, m).

End Setters.

(** ** Gates *)

Section Gates.
Context {Env FS : Type} `{SettingsFile Env FS} (o : Options) (e : environment Env).

Abbreviation M := (st (Manager FS)).

(** [ctx.Err()]. *)
Definition ctxErr : M (option error) := let! n := tick in st_ret (ctx_err e n).

Definition ownsCoreUpdate : M bool :=
  gets (fun m => match coreUpdate m, ctx_owner e with
                 | Some r, Some r' => (r =? r')%nat
                 | _, _ => false
                 end).

Definition checkOpen : M (option error) :=
  gets (fun m => if closing m then Some (api_error CodeInvalidState "mihari daemon is shutting down") else None).

Definition checkCoreUpdateReservation : M (option error) :=
  let! m := st_get in
  let! owner := ownsCoreUpdate in
  st_ret (if (bool_decide (is_Some (coreUpdate m)) || coreRecovery m) && negb owner
          then Some (api_error CodeInvalidState "core update or recovery is in progress") else None).

Definition businessMutationAllowed : bool :=
  if validationMode o then false
  else String.eqb (activationPhase o) "" || String.eqb (activationPhase o) "activation_committed"
       || String.eqb (activationPhase o) "complete".

(** The token is free, so only the context can end the wait. *)
Definition lockMaintenance : M (option error) :=
  let! done := ctxErr in
  match done with
  | Some x => st_ret (Some x)
  | None =>
      let! open := checkOpen in
      let! owner := ownsCoreUpdate in
      st_ret (match open with Some x => if owner then None else Some x | None => None end)
  end.

Definition degraded_refusal : error :=
  api_error CodeInvalidState "mutation compensation failed; restart required".

Definition lockMutation : M (option error) :=
  let! x := checkCoreUpdateReservation in
  match x with
  | Some x => st_ret (Some x)
  | None =>
      let! x := lockMaintenance in
      match x with
      | Some x => st_ret (Some x)
      | None =>
          let! x := checkCoreUpdateReservation in
          match x with
          | Some x => st_ret (Some x)
          | None =>
              if negb businessMutationAllowed then
                st_ret (Some (api_error CodeInvalidState "install activation is required"))
              else
                let! degraded := gets mutationDegraded in
                st_ret (if degraded then Some degraded_refusal else None)
          end
      end
  end.

(** [unlock]: a core that must not run any more is stopped through the
    supervisor, which the manager does not own. *)
Definition unlock : M unit := st_modify (set_stop false).

Definition checkIfRevision (revision : option Z) : M (option error) :=
  gets (fun m => match revision with
                 | Some r => if r =? Revision (store m) then None
                             else Some (api_error CodeRevisionConflict "state revision changed")
                 | None => None
                 end).

(** The gate of [doOperation]: [key] is the operation's key. *)
Definition admit_operation (key : string) : M (option error) :=
  let! owner := ownsCoreUpdate in
  if owner then st_ret None
  else
    let! x := checkOpen in
    match x with
    | Some x => st_ret (Some x)
    | None =>
        gets (fun m => if coreRecovery m && negb (HasPrefix key "reinstall:")
                       then Some (api_error CodeInvalidState "core reinstall required") else None)
    end.

(** [updateStateLocked] under [context.WithoutCancel]. *)
Definition updateStateLocked (meta : CommandMeta) (update : Mutation (Manager FS)) : M (Snapshot * option error) :=
  Do None meta update.

Definition keep_snapshot : Mutation (Manager FS) := fun s => st_ret (s, None).

(** ** The settings transaction *)

Record settingsCandidate := mkCandidate {
  cand_before : Settings;
  cand_after : Settings;
  cand_changed : bool;
  cand_generation : Z
}.

Definition changed (a b : Settings) : bool := negb (bool_decide (a = b)).

Definition prepareSettings (update : Settings -> result Settings) : M (result settingsCandidate) :=
  let! m := st_get in
  let before := settings m in
  match update before with
  | Err x => st_ret (Err x)
  | Ok after =>
      match Validate after with
      | Some x => st_ret (Err x)
      | None => st_ret (Ok (mkCandidate before after (changed before after) (configGeneration m)))
      end
  end.

Definition persist_error : APIError := mkAPIError CodeDataFailure "persist settings" false.

(** The result says whether the file holds the candidate. *)
Definition saveSettingsCandidate (c : settingsCandidate) : M (CommitResult * option error) :=
  if negb (cand_changed c) then st_ret (mkCommitResult true None, None)
  else if String.eqb (settingsPath o) "" then st_ret (mkCommitResult true None, None)
  else
    let! n := tick in
    let! m := st_get in
    let '(r, err, f) := sf_save (save_env e n) (cand_after c) (fs m) in
    do! st_modify (set_fs f) in
    match err with
    | Some x =>
        if Committed r then st_ret (no_commit, Some (diagnostics_Wrap persist_error (Some x)))
        else st_ret (r, Some (diagnostics_Wrap persist_error (Some x)))
    | None =>
        if negb (Committed r) then
          st_ret (no_commit, Some (diagnostics_Wrap persist_error (Some (EText "invalid commit outcome"))))
        else st_ret (r, None)
    end.

Definition publishSettings (c : settingsCandidate) : M unit :=
  if negb (cand_changed c) then st_ret tt
  else st_modify (fun m => set_settings (cand_after c) (uint64 (configGeneration m + 1)) m).

Definition updateSettings (update : Settings -> result Settings) : M (result settingsCandidate) :=
  let! degraded := gets mutationDegraded in
  if degraded then st_ret (Err degraded_refusal)
  else
    try! c := prepareSettings update in
    if negb (cand_changed c) then st_ret (Ok c)
    else
      let! '(_, err) := saveSettingsCandidate c in
      match err with
      | Some x => st_ret (Err x)
      | None => do! publishSettings c in st_ret (Ok c)
      end.

Definition restoreSettings (s : Settings) : M (CommitResult * option error) :=
  let! m := st_get in
  let c := mkCandidate (settings m) s (changed (settings m) s) 0 in
  let! '(r, err) := saveSettingsCandidate c in
  match err with
  | Some x => st_ret (r, Some x)
  | None => if Committed r then do! publishSettings c in st_ret (r, None) else st_ret (r, None)
  end.

Definition compensation_failed : APIError := mkAPIError CodeDataFailure "mutation compensation failed" false.

(** [enterMutationDegraded]. *)
Definition enterMutationDegraded (s : Snapshot) : M Snapshot :=
  do! st_modify set_degraded in
  st_ret (with_Health "degraded" "mutation compensation failed; restart required" s).

(** The mutation of the compensations of system proxy and TUN. *)
Definition degrade (causes : option error) : Mutation (Manager FS) :=
  fun s => let! s := enterMutationDegraded s in
           st_ret (s, Some (CommittedError (diagnostics_Wrap compensation_failed causes))).

(** [withMaintenance] and [withControllerMutation]: [mutation] is the call of
    the controller. *)
Definition withMaintenance (operation : M (option error)) : M (option error) :=
  let! x := lockMutation in
  match x with
  | Some x => st_ret (Some x)
  | None =>
      let! x := checkOpen in
      let! r := match x with Some x => st_ret (Some x) | None => operation end in
      do! unlock in st_ret r
  end.

(** A call that changes the running core. *)
Definition kernel_call : M (option error) :=
  let! n := tick in
  fun m => let '(k, x) := kernel_write e n (kernel m) in (x, set_kernel k m).

(** A call that changes the system proxy. *)
Definition os_call (q : proxy_request) : M (option error) :=
  let! n := tick in
  fun m => let '(p, x) := os_write e n q (osProxy m) in (x, set_osProxy p m).

Definition withControllerMutation (op : Operation) (mutation : M (option error)) : M (option error) :=
  withMaintenance (
    let! x := checkIfRevision (op_IfRevision op) in
    match x with
    | Some x => st_ret (Some x)
    | None =>
        let! x := mutation in
        match x with
        | Some x => st_ret (Some x)
        | None =>
            let! '(_, err) := updateStateLocked (mkCommandMeta (op_ID op) (op_Source op) None) keep_snapshot in
            st_ret err
        end
    end).

Definition no_controller : error := api_error CodeInvalidState "mihomo controller is unavailable".

(** [CloseConnection], [CloseAllConnections] and [SelectProxy] of a group other
    than GLOBAL run one call of the controller. *)
Definition controller_operation (key : string) (op : Operation) : M (option error) :=
  let! x := admit_operation key in
  match x with
  | Some x => st_ret (Some x)
  | None => if negb (has_controller o) then st_ret (Some no_controller) else withControllerMutation op kernel_call
  end.

End Gates.

(** ** Lemmas *)

Section Lemmas.
Context {Env FS : Type} `{SettingsFile Env FS} (o : Options) (e : environment Env).

Definition set_clock (n : nat) (m : Manager FS) : Manager FS :=
  mkManager (settings m) (configGeneration m) (mutationDegraded m) (closing m) (coreRecovery m) (coreUpdate m)
    (stopCoreOnUnlock m) (store m) (subscriptions m) (routingMessage m) (tunLastError m) (fs m) (kernel m) (osProxy m) n.

(** Only time has passed. *)
Definition later (w w' : Manager FS) : Prop := exists n, w' = set_clock n w.

Lemma later_refl (w : Manager FS) : later w w.
Proof. exists (clock w). by destruct w. Qed.

Lemma later_trans (a b c : Manager FS) : later a b -> later b c -> later a c.
Proof. intros [n ->] [k ->]. by exists k. Qed.

Lemma later_ticked (w : Manager FS) : later w (ticked w).
Proof. by exists (S (clock w)). Qed.

Lemma ctxErr_later (w w' : Manager FS) (x : option error) : ctxErr e w = (x, w') -> later w w'.
Proof. unfold ctxErr. st_unfold. cbn. intros [= _ <-]. apply later_ticked. Qed.

Lemma lockMaintenance_later (w w' : Manager FS) (x : option error) :
  lockMaintenance e w = (x, w') -> later w w' /\ (x = None -> closing w = true -> ownsCoreUpdate e w = (true, w)).
Proof.
  unfold lockMaintenance, checkOpen, ownsCoreUpdate, gets, ctxErr. st_unfold. cbn.
  destruct (ctx_err e (clock w)); intros [= <- <-]; (split; [apply later_ticked|]); [done|].
  destruct (closing w); [|done]. destruct (coreUpdate w) as [r|], (ctx_owner e) as [r'|]; try done.
  by destruct (r =? r')%nat.
Qed.

(** Mutation ownership is granted only when nothing stands against it. *)
Lemma lockMutation_spec (w w' : Manager FS) (x : option error) :
  lockMutation o e w = (x, w') ->
  later w w' /\ (x = None -> mutationDegraded w = false /\ businessMutationAllowed o = true /\
    ((coreUpdate w = None /\ coreRecovery w = false /\ closing w = false) \/ ownsCoreUpdate e w = (true, w))).
Proof.
  unfold lockMutation. intros Hl. unfold st_bind at 1 in Hl.
  destruct (checkCoreUpdateReservation e w) as [a wa] eqn:Ha.
  assert (Hres : wa = w /\ (a = None -> (coreUpdate w = None /\ coreRecovery w = false) \/ ownsCoreUpdate e w = (true, w))).
  { revert Ha. unfold checkCoreUpdateReservation, ownsCoreUpdate, gets. st_unfold. cbn. intros [= <- <-].
    split; [done|]. destruct (coreUpdate w) as [r|], (coreRecovery w), (ctx_owner e) as [r'|]; cbn; try done; auto;
      match goal with |- context [(?a =? ?b)%nat] => destruct (a =? b)%nat; cbn end; try done; auto. }
  destruct Hres as [-> Hres]. destruct a as [a|]; [injection Hl as <- <-; split; [apply later_refl|done]|].
  unfold st_bind at 1 in Hl. destruct (lockMaintenance e w) as [b wb] eqn:Hb.
  apply lockMaintenance_later in Hb as [[n ->] Hclosing].
  destruct b as [b|]; [injection Hl as <- <-; split; [by exists n|done]|].
  unfold st_bind at 1 in Hl.
  destruct (checkCoreUpdateReservation e (set_clock n w)) as [c wc] eqn:Hc.
  assert (Hwc : wc = set_clock n w) by (revert Hc; unfold checkCoreUpdateReservation, ownsCoreUpdate, gets; st_unfold; cbn; by intros [= _ <-]).
  subst wc. destruct c as [c|]; [injection Hl as <- <-; split; [by exists n|done]|].
  revert Hl. case_if; intros Hl; [injection Hl as <- <-; split; [by exists n|done]|].
  unfold gets in Hl. st_unfold. cbn in Hl. injection Hl as <- <-. split; [by exists n|].
  destruct (mutationDegraded w) eqn:Hd; [done|]. intros _. apply negb_false_iff in Heqb.
  repeat split; try done. specialize (Hres eq_refl).
  destruct Hres as [[Hu Hr]|Ho]; [|by right].
  destruct (closing w) eqn:Hcl; [right; auto|by left].
Qed.

(** What a save may change: the file. *)
Lemma saveSettingsCandidate_spec (c : settingsCandidate) (w w' : Manager FS) (r : CommitResult) (err : option error) :
  saveSettingsCandidate o e c w = ((r, err), w') ->
  exists n f, w' = set_clock n (set_fs f w) /\
    match err with
    | None =>
        Committed r = true /\
        if cand_changed c && negb (String.eqb (settingsPath o) "") then sf_saved f = Some (canonical (cand_after c))
        else f = fs w
    | Some _ => cand_changed c = true /\ sf_saved f = sf_saved (fs w)
    end.
Proof.
  unfold saveSettingsCandidate. destruct (cand_changed c); cbn [negb andb].
  2:{ intros [= <- <- <-]. exists (clock w), (fs w). split; [by destruct w|done]. }
  destruct (String.eqb (settingsPath o) ""); cbn [negb].
  { intros [= <- <- <-]. exists (clock w), (fs w). split; [by destruct w|done]. }
  unfold tick. st_unfold. cbn.
  destruct (sf_save (save_env e (clock w)) (cand_after c) (fs w)) as [[r0 x] f] eqn:Hs. cbn.
  destruct (Committed r0) eqn:Hc.
  - destruct (sf_committed _ _ _ _ _ _ Hs Hc) as [-> Hsaved]. cbn. intros [= <- <- <-].
    exists (S (clock w)), f. done.
  - destruct (sf_failed _ _ _ _ _ _ Hs Hc) as [Hx Hsaved]. destruct x as [x|]; [|done].
    cbn. intros [= <- <- <-]. exists (S (clock w)), f. done.
Qed.

(** The settings in the file are those in memory. *)
Definition persisted (w : Manager FS) : Prop :=
  settingsPath o <> ""%string -> sf_saved (fs w) = Some (canonical (settings w)).

(** The outcome of a settings transaction on memory and file. *)
Definition settings_moved (w w' : Manager FS) (s : Settings) : Prop :=
  settings w' = s /\ (persisted w -> persisted w').

(** Nothing but settings, generation, file and clock. *)
Definition settings_frame (w w' : Manager FS) : Prop :=
  exists s g f n, w' = set_clock n (set_fs f (set_settings s g w)).

Lemma settings_frame_refl (w : Manager FS) : settings_frame w w.
Proof. exists (settings w), (configGeneration w), (fs w), (clock w). by destruct w. Qed.

Lemma settings_frame_trans (a b c : Manager FS) : settings_frame a b -> settings_frame b c -> settings_frame a c.
Proof. intros (s & g & f & n & ->) (s' & g' & f' & n' & ->). by exists s', g', f', n'. Qed.

Lemma later_frame (w w' : Manager FS) : later w w' -> settings_frame w w'.
Proof. intros [n ->]. exists (settings w), (configGeneration w), (fs w), n. by destruct w. Qed.

Lemma later_persisted (w w' : Manager FS) : later w w' -> persisted w -> persisted w'.
Proof. by intros [n ->]. Qed.

Lemma save_publish_spec (c : settingsCandidate) (w w1 : Manager FS) (r : CommitResult) (err : option error) :
  saveSettingsCandidate o e c w = ((r, err), w1) ->
  cand_before c = settings w -> cand_changed c = changed (cand_before c) (cand_after c) ->
  match err with
  | Some _ => settings w1 = settings w /\ (persisted w -> persisted w1) /\ settings_frame w w1
  | None => let w2 := snd (publishSettings c w1) in settings_moved w w2 (cand_after c) /\ settings_frame w w2
  end.
Proof.
  intros Hs Hb Hc. apply saveSettingsCandidate_spec in Hs as (n & f & -> & Hs).
  assert (Hfr : settings_frame w (set_clock n (set_fs f w))).
  { exists (settings w), (configGeneration w), f, n. by destruct w. }
  destruct err as [x|].
  - destruct Hs as [_ Hs]. split; [done|]. split; [|done]. unfold persisted. cbn. by rewrite Hs.
  - destruct Hs as [_ Hs]. unfold publishSettings. destruct (cand_changed c) eqn:Hch; cbn [negb andb] in *.
    + cbn. split; [|eapply settings_frame_trans; [exact Hfr|]; exists (cand_after c), (uint64 (configGeneration w + 1)), f, n; by destruct w].
      split; [done|]. unfold persisted. cbn. intros _ Hp.
      destruct (String.eqb_spec (settingsPath o) ""); [done|]. exact Hs.
    + unfold changed in Hc. symmetry in Hc. apply negb_false_iff, bool_decide_eq_true in Hc.
      cbn. subst f. split; [|done]. split; [cbn; congruence|]. done.
Qed.

Lemma prepareSettings_same (update : Settings -> result Settings) (w w' : Manager FS) (r : result settingsCandidate) :
  prepareSettings update w = (r, w') -> w' = w.
Proof.
  unfold prepareSettings. intros Hp. st_unfold. destruct (update (settings w)) as [after|]; [destruct (Validate after)|]; by injection Hp as _ <-.
Qed.

Lemma prepareSettings_spec (update : Settings -> result Settings) (w w' : Manager FS) (c : settingsCandidate) :
  prepareSettings update w = (Ok c, w') ->
  cand_before c = settings w /\ update (settings w) = Ok (cand_after c) /\ Validate (cand_after c) = None /\
  cand_changed c = changed (cand_before c) (cand_after c) /\ cand_generation c = configGeneration w.
Proof.
  unfold prepareSettings. intros Hp. st_unfold. destruct (update (settings w)) as [after|]; [|done].
  destruct (Validate after) eqn:Hv; [done|]. by injection Hp as <- _.
Qed.

Lemma updateSettings_spec (update : Settings -> result Settings) (w w' : Manager FS) (r : result settingsCandidate) :
  updateSettings o e update w = (r, w') ->
  settings_frame w w' /\ (persisted w -> persisted w') /\
  match r with
  | Ok c => cand_before c = settings w /\ update (settings w) = Ok (cand_after c) /\
            Validate (cand_after c) = None /\ settings w' = cand_after c /\ mutationDegraded w = false
  | Err _ => settings w' = settings w
  end.
Proof.
  unfold updateSettings, gets. intros Hu. unfold st_bind at 1 in Hu. cbn in Hu. destruct (mutationDegraded w) eqn:Hd.
  { injection Hu as <- <-. split; [apply settings_frame_refl|]. done. }
  apply st_try_inv in Hu as [(x & -> & Hp)|(c & w1 & Hp & Hu)].
  { unfold prepareSettings in Hp. st_unfold. destruct (update (settings w)) as [after|]; [destruct (Validate after)|];
      injection Hp as _ <-; (split; [apply settings_frame_refl|done]). }
  assert (Hc : w1 = w /\ cand_before c = settings w /\ update (settings w) = Ok (cand_after c) /\
    Validate (cand_after c) = None /\ cand_changed c = changed (cand_before c) (cand_after c)).
  { unfold prepareSettings in Hp. st_unfold. destruct (update (settings w)) as [after|]; [|done].
    destruct (Validate after) eqn:Hv; [done|]. by injection Hp as <- <-. }
  destruct Hc as (-> & Hb & Hup & Hv & Hch). clear Hp. destruct (cand_changed c) eqn:Hcc; cbn [negb] in Hu.
  2:{ injection Hu as <- <-. split; [apply settings_frame_refl|]. split; [done|]. split; [done|]. split; [done|].
      split; [done|]. split; [|done]. symmetry in Hch. apply negb_false_iff, bool_decide_eq_true in Hch. congruence. }
  unfold st_bind at 1 in Hu. destruct (saveSettingsCandidate o e c w) as [[cr err] w1] eqn:Hs.
  apply save_publish_spec in Hs; [|done|congruence]. destruct err as [x|].
  - injection Hu as <- <-. destruct Hs as (Hs & Hp & Hf). done.
  - unfold st_bind in Hu. destruct (publishSettings c w1) as [t w2]. injection Hu as <- <-. cbn in Hs.
    destruct Hs as [[Hs Hp] Hf]. done.
Qed.

Lemma restoreSettings_spec (s : Settings) (w w' : Manager FS) (r : CommitResult) (err : option error) :
  restoreSettings o e s w = ((r, err), w') ->
  settings_frame w w' /\ (persisted w -> persisted w') /\
  match err with None => settings w' = s | Some _ => settings w' = settings w end.
Proof.
  unfold restoreSettings. intros Hr. unfold st_bind at 1, st_get in Hr. cbn beta iota in Hr.
  set (c := mkCandidate (settings w) s (changed (settings w) s) 0) in *.
  unfold st_bind at 1 in Hr. destruct (saveSettingsCandidate o e c w) as [[cr x] w1] eqn:Hs.
  assert (Hcom : x = None -> Committed cr = true).
  { intros ->. apply saveSettingsCandidate_spec in Hs as (? & ? & _ & Hs & _). exact Hs. }
  apply save_publish_spec in Hs; [|done|done]. destruct x as [x|].
  - injection Hr as <- <- <-. destruct Hs as (? & ? & ?). done.
  - rewrite (Hcom eq_refl) in Hr. unfold st_bind in Hr. destruct (publishSettings c w1) as [t w2].
    injection Hr as <- <- <-. cbn in Hs. destruct Hs as [[? ?] ?]. done.
Qed.

(** Publishing a snapshot without a condition cannot fail. *)
Lemma updateState_pure (id source : string) (f : Snapshot -> Snapshot) (w : Manager FS) :
  let next := with_Revision (uint64 (Revision (store w) + 1)) (f (store w)) in
  updateStateLocked (mkCommandMeta id source None) (fun s => st_ret (f s, None)) w = ((next, None), set_store next w).
Proof. reflexivity. Qed.

(** The condition of a request, checked once, holds while the request owns the
    mutation. *)
Definition fresh (r : option Z) (w : Manager FS) : Prop := forall n, r = Some n -> n = Revision (store w).

Lemma checkIfRevision_spec (r : option Z) (w w' : Manager FS) (x : option error) :
  checkIfRevision r w = (x, w') -> w' = w /\ (x = None -> fresh r w).
Proof.
  unfold checkIfRevision, gets, fresh. intros [= <- <-]. split; [done|]. destruct r as [n|]; [|done].
  destruct (Z.eqb_spec n (Revision (store w))); [|done]. by intros _ ? [= <-].
Qed.

Lemma updateState_fresh (id source : string) (r : option Z) (mutate : Mutation (Manager FS)) (w : Manager FS) :
  fresh r w -> updateStateLocked (mkCommandMeta id source r) mutate w = updateStateLocked (mkCommandMeta id source None) mutate w.
Proof.
  unfold fresh. intros Hr. unfold updateStateLocked, Do. st_unfold. cbn. destruct r as [n|]; [|done].
  by rewrite (Hr n eq_refl), Z.eqb_refl.
Qed.

Lemma updateState_keep (id source : string) (r : option Z) (w : Manager FS) :
  fresh r w ->
  let next := with_Revision (uint64 (Revision (store w) + 1)) (store w) in
  updateStateLocked (mkCommandMeta id source r) keep_snapshot w = ((next, None), set_store next w).
Proof. intros Hr. rewrite updateState_fresh by done. reflexivity. Qed.

(** Entering the degraded state: published, and every further mutation refused. *)
Lemma updateState_degrade (id source : string) (r : option Z) (causes : option error) (w w' : Manager FS)
    (s : Snapshot) (x : option error) :
  updateStateLocked (mkCommandMeta id source r) (degrade causes) w = ((s, x), w') -> fresh r w ->
  x <> None /\ mutationDegraded w' = true /\ Health (store w') = "degraded"%string /\
  settings w' = settings w /\ fs w' = fs w /\ osProxy w' = osProxy w /\ kernel w' = kernel w.
Proof.
  intros Hu Hr. rewrite updateState_fresh in Hu by done. unfold updateStateLocked, Do, degrade, enterMutationDegraded in Hu.
  st_unfold. cbn in Hu. injection Hu as _ <- <-. done.
Qed.

(** A degraded manager grants no mutation. *)
Lemma degraded_fence (w : Manager FS) : mutationDegraded w = true -> fst (lockMutation o e w) <> None.
Proof.
  intros Hd Hl. destruct (lockMutation o e w) as [x w'] eqn:Hx. cbn in Hl. subst x.
  apply lockMutation_spec in Hx as [_ Hx]. destruct (Hx eq_refl) as [Hf _]. congruence.
Qed.

End Lemmas.

(** ** The settings file over an atomic file *)

Section File.
Context `{YAML} {Env W : Type} `{AtomicFile Env W} (p : path) (Hrt : forall s, yaml_round_trips (canonical s)).

Definition file_saved (w : W) : option Settings :=
  match Settings.Load p w with Ok s => Some s | Err _ => None end.

Lemma file_committed (env : Env) (s : Settings) (w : W) (r : CommitResult) (x : option error) (w' : W) :
  SaveWithCommit env p s w = (r, x, w') -> Committed r = true -> x = None /\ file_saved w' = Some (canonical s).
Proof.
  intros Hs Hc. apply SaveWithCommit_spec in Hs; [|auto]. rewrite Hc in Hs. destruct Hs as [-> Hl].
  split; [done|]. unfold file_saved. by rewrite Hl.
Qed.

Lemma file_failed (env : Env) (s : Settings) (w : W) (r : CommitResult) (x : option error) (w' : W) :
  SaveWithCommit env p s w = (r, x, w') -> Committed r = false -> x <> None /\ file_saved w' = file_saved w.
Proof.
  intros Hs Hc. apply SaveWithCommit_spec in Hs; [|auto]. rewrite Hc in Hs. destruct Hs as [Hx Hl].
  split; [done|]. unfold file_saved, Settings.Load. by rewrite Hl.
Qed.

Definition settings_file : SettingsFile Env W :=
  {| sf_saved := file_saved; sf_save := fun env s w => SaveWithCommit env p s w;
     sf_committed := file_committed; sf_failed := file_failed |}.

End File.

(** A settings file kept in memory; the environment says whether a write
    succeeds. *)
Section Memory.

Definition memory_save (ok : bool) (s : Settings) (f : option Settings) : CommitResult * option error * option Settings :=
  if ok then (mkCommitResult true None, None, Some (canonical s))
  else (no_commit, Some (EText "disk full"), f).

Lemma memory_committed (ok : bool) (s : Settings) (f : option Settings) (r : CommitResult) (x : option error) (f' : option Settings) :
  memory_save ok s f = (r, x, f') -> Committed r = true -> x = None /\ f' = Some (canonical s).
Proof. destruct ok; intros [= <- <- <-]; done. Qed.

Lemma memory_failed (ok : bool) (s : Settings) (f : option Settings) (r : CommitResult) (x : option error) (f' : option Settings) :
  memory_save ok s f = (r, x, f') -> Committed r = false -> x <> None /\ f' = f.
Proof. destruct ok; intros [= <- <- <-]; done. Qed.

Definition memory_file : SettingsFile bool (option Settings) :=
  {| sf_saved := fun f => f; sf_save := memory_save; sf_committed := memory_committed; sf_failed := memory_failed |}.

End Memory.
