(* ===== verification/Routing.v ===== *)
(** * Routing: the routing mode and the GLOBAL exit

    Models [internal/runtime/routing.go] and the GLOBAL branch of
    [Manager.SelectProxy].  The settings are the authority after a restart; the
    running core is changed and confirmed first, and put back when saving fails.
    The core answers through the environment of [Manager]: reads may fail, a
    write may leave any state behind. *)

From S2P Require Import Prelude GoStd Atomic State Settings Catalog Manager.

Record RoutingStatus := mkRoutingStatus {
  rs_Revision : Z;
  DesiredMode : string;
  LiveMode : string;
  rs_State : string;
  SubscriptionID : string;
  rs_GlobalSelection : string;
  LiveGlobalSelection : string;
  rs_Message : string
}.

Definition routingArgument (message : string) : error := api_error CodeInvalidArgument message.
Definition routingUnavailable (message : string) (cause : option error) : error :=
  diagnostics_Wrap (mkAPIError CodeUpstreamFailure message false) cause.

(** [document["mode"].(string)]. *)
Definition string_of (v : option any) : string := match v with Some (AString s) => s | _ => "" end.

Definition live_mode (k : Kernel) : string := string_of (k_Configs k !! "mode"%string).
Definition live_now (k : Kernel) : string := match k_GLOBAL k with Some g => px_Now g | None => "" end.

(** The selections of subscriptions that do not exist any more are dropped. *)
Definition prune_selections (c : option Catalog) (s : Settings) : Settings :=
  match c, Routing s with
  | Some c, Some r =>
      with_Routing (Some (mkRoutingSettings (Mode r)
        (filter (fun p => ~ Index c (fst p) < 0) (GlobalSelections r)) (BootstrapGlobal r))) s
  | _, _ => s
  end.

(** Which exit GLOBAL gets: the mode, the exit and the message. *)
Definition choose_exit `{CaseFold} (g : Proxy) (mode saved explicitExit : string) : result (string * string * string) :=
  let selectable := EqualFold (px_Type g) "selector" in
  let has x := bool_decide (x ∈ px_All g) in
  if negb (String.eqb explicitExit "") then
    if negb selectable || negb (has explicitExit)
    then Err (routingArgument "GLOBAL candidate is unavailable or not selectable")
    else Ok (mode, explicitExit, ""%string)
  else if negb selectable || negb (has saved) then
    if selectable && has "DIRECT"%string
    then Ok (mode, "DIRECT", "GLOBAL uses DIRECT; the saved exit was unavailable")%string
    else Ok (if String.eqb mode "global" then "rule" else mode, "",
             "GLOBAL exit is unavailable; choose an exit before using Global")%string
  else Ok (mode, saved, ""%string).

Section Routing.
Context `{CaseFold} {Env FS : Type} `{SettingsFile Env FS} (o : Options) (e : environment Env).

Abbreviation M := (st (Manager FS)).

Definition routingSubscriptionID (m : Manager FS) : string :=
  match subscriptions m with Some c => ActiveID c | None => ActiveSubscription (store m) end.

Definition routingCoreStopped (m : Manager FS) : bool :=
  let core := Core (store m) in
  (core_PID core =? 0) && (String.eqb (core_Status core) "stopped" || String.eqb (core_Status core) "missing").

Definition savedRoutingStatus (m : Manager FS) : RoutingStatus :=
  let id := routingSubscriptionID m in
  mkRoutingStatus (Revision (store m)) (RoutingMode (settings m)) "" "unknown" id (GlobalSelection id (settings m)) ""
    (routingMessage m).

(** One read of the controller. *)
Definition read_kernel : M (result Kernel) :=
  let! n := tick in
  let! m := st_get in
  st_ret match read_err e n with Some x => Err x | None => Ok (kernel m) end.

Definition observeRoutingMode : M (result string) :=
  if negb (has_controller o) then st_ret (Err (routingUnavailable "mihomo controller is unavailable" None))
  else
    try! k := read_kernel in
    if ValidRoutingMode (live_mode k) then st_ret (Ok (live_mode k))
    else st_ret (Err (routingUnavailable "mihomo returned an invalid routing mode" None)).

Definition observeGlobal : M (result Proxy) :=
  if negb (has_controller o) then st_ret (Err (routingUnavailable "mihomo controller is unavailable" None))
  else
    try! k := read_kernel in
    st_ret match k_GLOBAL k with
           | Some g => Ok g
           | None => Err (routingUnavailable "GLOBAL group is unavailable" None)
           end.

(** The writes of [applyRoutingLive]: the exit, then the mode. *)
Definition select_exit (exit : string) : M (result (option error)) :=
  if String.eqb exit "" then st_ret (Ok None)
  else
    try! g := observeGlobal in
    if String.eqb (px_Now g) exit then st_ret (Ok None)
    else let! x := kernel_call e in st_ret (Ok x).

Definition patch_mode (mode : string) : M (option error) :=
  let! current := observeRoutingMode in
  match current with
  | Err x => st_ret (Some x)
  | Ok current => if String.eqb current mode then st_ret None else kernel_call e
  end.

(** The confirmation: what the core reports, whatever the writes reported. *)
Definition confirm_routing (mode exit : string) : M (bool * option error) :=
  let! observed := observeRoutingMode in
  match observed with
  | Err x => st_ret (false, Some x)
  | Ok observed =>
      if negb (String.eqb observed mode) then st_ret (false, None)
      else if String.eqb exit "" then st_ret (true, None)
      else
        let! g := observeGlobal in
        st_ret match g with
               | Err x => (false, Some x)
               | Ok g => (String.eqb (px_Now g) exit, None)
               end
  end.

Definition applyRoutingLive (mode exit : string) : M (option error) :=
  let! selected := select_exit exit in
  match selected with
  | Err x => st_ret (Some x)
  | Ok applyErr =>
      let! applyErr := match applyErr with None => patch_mode mode | Some x => st_ret (Some x) end in
      let! '(confirmed, err) := confirm_routing mode exit in
      st_ret (if confirmed then None
              else Some (routingUnavailable "routing change could not be confirmed" (errors_Join applyErr err)))
  end.

Definition recovery_message : string := "Routing recovery could not be confirmed; restart required".

Definition compensateRouting (mode exit : string) (cause : error) : M error :=
  let! x := applyRoutingLive mode exit in
  match x with
  | None => st_ret cause
  | Some x =>
      do! st_modify set_degraded in
      do! st_modify (set_message recovery_message) in
      st_ret (diagnostics_Wrap (degraded_api CodeUpstreamFailure recovery_message) (errors_Join (Some cause) (Some x)))
  end.

Definition candidate_of (before after : Settings) : settingsCandidate :=
  mkCandidate before after (changed before after) 0.

(** The part of [changeRoutingLocked] for a stopped core: only the intent. *)
Definition save_stopped (before after : Settings) (explicitExit : string) : M (result (RoutingStatus * bool)) :=
  match Validate after with
  | Some x => st_ret (Err x)
  | None =>
      if negb (String.eqb explicitExit "") then
        st_ret (Err (routingUnavailable "GLOBAL candidates are unavailable while the core is stopped" None))
      else
        let c := candidate_of before after in
        let! '(_, err) := saveSettingsCandidate o e c in
        match err with
        | Some x => st_ret (Err x)
        | None =>
            do! publishSettings c in
            do! st_modify (set_message "Saved; waiting for the core to start") in
            let! s := gets savedRoutingStatus in
            st_ret (Ok (mkRoutingStatus (rs_Revision s) (DesiredMode s) "" "pending" (SubscriptionID s)
                          (rs_GlobalSelection s) "" (rs_Message s), cand_changed c))
        end
  end.

(** What was read before the change, and what is to be applied. *)
Record routing_plan := mkPlan {
  pl_oldMode : string;
  pl_oldNow : string;
  pl_needGlobal : bool;
  pl_mode : string;
  pl_exit : string;
  pl_message : string;
  pl_after : Settings
}.

(** The reads of [changeRoutingLocked] and the choice of the exit. *)
Definition plan_routing (before after : Settings) (id mode explicitExit : string) : M (result routing_plan) :=
  let! oldMode := observeRoutingMode in
  match oldMode with
  | Err x => st_ret (Err (routingUnavailable "read routing state before apply" (Some x)))
  | Ok oldMode =>
      let saved := GlobalSelection id before in
      if negb (String.eqb mode "global" || negb (String.eqb saved "") || negb (String.eqb explicitExit "")) then
        st_ret (Ok (mkPlan oldMode "" false mode saved "" after))
      else
        let! g := observeGlobal in
        match g with
        | Err x => st_ret (Err (routingUnavailable "read GLOBAL candidates before apply" (Some x)))
        | Ok g =>
            st_ret match choose_exit g mode saved explicitExit with
                   | Err x => Err x
                   | Ok (mode', exit, message) =>
                       let after := if String.eqb mode' mode then after else SetRoutingMode mode' after in
                       let after := if String.eqb exit saved then after else SetGlobalSelection id exit after in
                       Ok (mkPlan oldMode (px_Now g) true mode' exit message after)
                   end
        end
  end.

(** The writes of [changeRoutingLocked]: core first, then the settings. *)
Definition perform_routing (before : Settings) (p : routing_plan) (restore : bool) : M (result (RoutingStatus * bool)) :=
  match Validate (pl_after p) with
  | Some x => st_ret (Err x)
  | None =>
      let liveChanged :=
        negb (String.eqb (pl_oldMode p) (pl_mode p))
        || negb (String.eqb (pl_exit p) "") && negb (String.eqb (pl_exit p) (pl_oldNow p)) in
      let! applied := if liveChanged then applyRoutingLive (pl_mode p) (pl_exit p) else st_ret None in
      match applied with
      | Some x => let! x := compensateRouting (pl_oldMode p) (pl_oldNow p) x in st_ret (Err x)
      | None =>
          let c := candidate_of before (pl_after p) in
          let! '(_, err) := saveSettingsCandidate o e c in
          match err with
          | Some x =>
              if liveChanged then let! x := compensateRouting (pl_oldMode p) (pl_oldNow p) x in st_ret (Err x)
              else st_ret (Err x)
          | None =>
              do! publishSettings c in
              do! (if negb restore || cand_changed c || liveChanged then st_modify (set_message (pl_message p))
                   else st_ret tt) in
              let! s := gets savedRoutingStatus in
              st_ret (Ok (mkRoutingStatus (rs_Revision s) (DesiredMode s) (pl_mode p) "applied" (SubscriptionID s)
                            (rs_GlobalSelection s)
                            (if pl_needGlobal p then if String.eqb (pl_exit p) "" then pl_oldNow p else pl_exit p else "")
                            (rs_Message s), cand_changed c || liveChanged))
          end
      end
  end.

Definition changeRoutingLocked (mode explicitExit : string) (restore stopped : bool)
    : M (result (RoutingStatus * bool)) :=
  check! ctxErr e in
  let! m := st_get in
  let before := settings m in
  let after := if String.eqb mode (RoutingMode before) then before else SetRoutingMode mode before in
  let id := routingSubscriptionID m in
  let after := prune_selections (subscriptions m) after in
  if stopped then save_stopped before after explicitExit
  else
    try! p := plan_routing before after id mode explicitExit in
    perform_routing before p restore.

(** [markRoutingDegraded]: the failed recovery is published. *)
Definition markRoutingDegraded (x : error) : M unit :=
  if error_degraded x then
    do! updateStateLocked (mkCommandMeta "" "routing" None)
          (fun s => st_ret (with_Health "degraded" recovery_message s, None)) in st_ret tt
  else st_ret tt.

(** The body shared by [UpdateRouting], [RestoreRouting] and the GLOBAL branch
    of [SelectProxy], between taking and returning ownership. *)
Definition routing_mutation (meta : CommandMeta) (ifRevision : option Z) (mode : Manager FS -> string)
    (explicitExit : string) (restore : bool) (stopped : Manager FS -> bool) : M (result RoutingStatus) :=
  check! lockMutation o e in
  let! r :=
    (check! checkIfRevision ifRevision in
     let! m := st_get in
     let! changed := changeRoutingLocked (mode m) explicitExit restore (stopped m) in
     match changed with
     | Err x => do! markRoutingDegraded x in st_ret (Err x)
     | Ok (status, false) => st_ret (Ok status)
     | Ok (status, true) =>
         let! '(_, err) := updateStateLocked meta keep_snapshot in
         st_ret match err with Some x => Err x | None => Ok status end
     end) in
  do! unlock in st_ret r.

Definition UpdateRouting (op : Operation) (mode : string) : M (result RoutingStatus) :=
  if negb (ValidRoutingMode mode) then st_ret (Err (routingArgument "invalid routing mode"))
  else
    check! admit_operation e ("routing:" ++ op_ID op)%string in
    let! r := routing_mutation (mkCommandMeta (op_ID op) (op_Source op) None) (op_IfRevision op) (fun _ => mode) ""
                false routingCoreStopped in
    let! m := st_get in
    st_ret match r with
           | Err x => Err x
           | Ok s => Ok (mkRoutingStatus (Revision (store m)) (DesiredMode s) (LiveMode s) (rs_State s) (SubscriptionID s)
                           (rs_GlobalSelection s) (LiveGlobalSelection s) (rs_Message s))
           end.

Definition RestoreRouting : M (result RoutingStatus) :=
  check! admit_operation e "routing-restore:" in
  routing_mutation (mkCommandMeta "" "routing-restore" None) None (fun m => RoutingMode (settings m)) "" true (fun _ => false).

Definition SelectGlobal (op : Operation) (name : string) : M (result RoutingStatus) :=
  check! admit_operation e ("select:" ++ op_ID op)%string in
  if String.eqb name "" then st_ret (Err (routingArgument "GLOBAL selection is empty"))
  else routing_mutation (mkCommandMeta (op_ID op) (op_Source op) None) (op_IfRevision op)
         (fun m => RoutingMode (settings m)) name false routingCoreStopped.

(** [RoutingStatus]: the saved intent and what the core reports. *)
Definition observed_status : M RoutingStatus :=
  let! s := gets savedRoutingStatus in
  let! stopped := gets routingCoreStopped in
  let put state mode now message :=
    mkRoutingStatus (rs_Revision s) (DesiredMode s) mode state (SubscriptionID s) (rs_GlobalSelection s) now message in
  if stopped then st_ret (put "pending" "" "" (rs_Message s))%string
  else
    let! mode := observeRoutingMode in
    match mode with
    | Err _ => st_ret (put "unknown" "" "" "Routing state is unavailable")%string
    | Ok mode =>
        let! degraded := gets mutationDegraded in
        let applied := String.eqb mode (DesiredMode s) && negb degraded in
        let! g := observeGlobal in
        let now := match g with Ok g => px_Now g | Err _ => ""%string end in
        let wrong := match g with Ok g => negb (String.eqb (px_Now g) (rs_GlobalSelection s)) | Err _ => true end in
        st_ret (put (if (String.eqb (DesiredMode s) "global" || negb (String.eqb (rs_GlobalSelection s) "")) && wrong
                     then "unknown" else if applied then "applied" else "unknown")%string mode now (rs_Message s))
    end.

Definition ReadRoutingStatus : M (result RoutingStatus) :=
  check! lockMaintenance e in
  let! s := observed_status in
  do! unlock in st_ret (Ok s).

End Routing.

(** ** Lemmas *)

Section Lemmas.
Context `{CaseFold} {Env FS : Type} `{SettingsFile Env FS} (o : Options) (e : environment Env).

Lemma read_kernel_spec (w w' : Manager FS) (r : result Kernel) :
  read_kernel e w = (r, w') -> later w w' /\ forall k, r = Ok k -> k = kernel w.
Proof.
  unfold read_kernel, tick. st_unfold. cbn. intros [= <- <-]. split; [apply later_ticked|].
  destruct (read_err e (clock w)); by intros k [= <-].
Qed.

Lemma observeRoutingMode_spec (w w' : Manager FS) (r : result string) :
  observeRoutingMode o e w = (r, w') -> later w w' /\ forall s, r = Ok s -> s = live_mode (kernel w).
Proof.
  unfold observeRoutingMode. case_if; [intros [= <- <-]; split; [apply later_refl|done]|].
  intros Hr. apply st_try_inv in Hr as [(x & -> & Hr)|(k & w1 & Hr & Hk)]; apply read_kernel_spec in Hr as [Hl Hr].
  - by split.
  - revert Hk. case_if; intros [= <- <-]; (split; [done|]); [|done]. intros s [= <-]. by rewrite (Hr k eq_refl).
Qed.

Lemma observeGlobal_spec (w w' : Manager FS) (r : result Proxy) :
  observeGlobal o e w = (r, w') -> later w w' /\ forall g, r = Ok g -> k_GLOBAL (kernel w) = Some g.
Proof.
  unfold observeGlobal. case_if; [intros [= <- <-]; split; [apply later_refl|done]|].
  intros Hr. apply st_try_inv in Hr as [(x & -> & Hr)|(k & w1 & Hr & Hk)]; apply read_kernel_spec in Hr as [Hl Hr].
  - by split.
  - injection Hk as <- <-. split; [done|]. intros g. rewrite <- (Hr k eq_refl).
    destruct (k_GLOBAL k); [congruence|done].
Qed.

(** Only the running core may have changed. *)
Definition kernel_frame (w w' : Manager FS) : Prop := exists k n, w' = set_clock n (set_kernel k w).

Lemma kernel_frame_later (w w' : Manager FS) : later w w' -> kernel_frame w w'.
Proof. intros [n ->]. exists (kernel w), n. by destruct w. Qed.

Lemma kernel_frame_trans (a b c : Manager FS) : kernel_frame a b -> kernel_frame b c -> kernel_frame a c.
Proof. intros (k & n & ->) (k' & n' & ->). by exists k', n'. Qed.

Lemma kernel_call_frame (w w' : Manager FS) (x : option error) : kernel_call e w = (x, w') -> kernel_frame w w'.
Proof.
  unfold kernel_call, tick. st_unfold. cbn. destruct (kernel_write e (clock w) (kernel w)) as [k y].
  intros [= _ <-]. by exists k, (S (clock w)).
Qed.

#[local] Hint Resolve kernel_frame_later kernel_frame_trans kernel_call_frame later_trans : mihari.

Lemma select_exit_frame (exit : string) (w w' : Manager FS) (r : result (option error)) :
  select_exit o e exit w = (r, w') -> kernel_frame w w'.
Proof.
  unfold select_exit. case_if; [intros [= _ <-]; apply kernel_frame_later, later_refl|].
  intros Hr. apply st_try_inv in Hr as [(x & -> & Hg)|(g & w1 & Hg & Hr)];
    apply observeGlobal_spec in Hg as [Hl _]; [by apply kernel_frame_later|].
  revert Hr. case_if; [intros [= _ <-]; eauto with mihari|]. unfold st_bind at 1.
  destruct (kernel_call e w1) as [x w2] eqn:Hc. intros [= _ <-]. eauto with mihari.
Qed.

Lemma patch_mode_frame (mode : string) (w w' : Manager FS) (x : option error) :
  patch_mode o e mode w = (x, w') -> kernel_frame w w'.
Proof.
  unfold patch_mode. unfold st_bind at 1. destruct (observeRoutingMode o e w) as [r w1] eqn:Hr.
  apply observeRoutingMode_spec in Hr as [Hl _].
  destruct r as [s|y]; [case_if|]; intros Hw; [| |]; try (injection Hw as _ <-); eauto with mihari.
Qed.

(** The core is what the confirmation says. *)
Lemma confirm_routing_spec (mode exit : string) (w w' : Manager FS) (b : bool) (x : option error) :
  confirm_routing o e mode exit w = ((b, x), w') ->
  later w w' /\
  (b = true -> live_mode (kernel w) = mode /\ (exit <> ""%string -> live_now (kernel w) = exit)).
Proof.
  unfold confirm_routing. unfold st_bind at 1. destruct (observeRoutingMode o e w) as [r w1] eqn:Hr.
  apply observeRoutingMode_spec in Hr as [Hl Hm]. destruct r as [s|y]; [|intros [= <- _ <-]; done].
  specialize (Hm s eq_refl). destruct (String.eqb_spec s mode) as [->|]; cbn [negb]; [|intros [= <- _ <-]; done].
  destruct (String.eqb_spec exit "") as [->|Hne]; [intros [= <- _ <-]; done|].
  unfold st_bind. destruct (observeGlobal o e w1) as [g w2] eqn:Hg. apply observeGlobal_spec in Hg as [Hl2 Hg].
  intros [= Hb <-]. split; [by eapply later_trans|]. destruct g as [g|y]; [|injection Hb as <- _; done].
  injection Hb as <- _. intros Heq. apply String.eqb_eq in Heq. split; [done|]. intros _.
  specialize (Hg g eq_refl). destruct Hl as [n ->]. cbn in Hg. unfold live_now. by rewrite Hg.
Qed.

Lemma applyRoutingLive_spec (mode exit : string) (w w' : Manager FS) (x : option error) :
  applyRoutingLive o e mode exit w = (x, w') ->
  kernel_frame w w' /\
  (x = None -> live_mode (kernel w') = mode /\ (exit <> ""%string -> live_now (kernel w') = exit)).
Proof.
  unfold applyRoutingLive. unfold st_bind at 1. destruct (select_exit o e exit w) as [r w1] eqn:Hs.
  apply select_exit_frame in Hs. destruct r as [a|y]; [|intros [= <- <-]; done].
  intros Hb. apply st_bind_inv in Hb as (a2 & w2 & Hp & Hb).
  assert (Hf : kernel_frame w w2).
  { destruct a; [by injection Hp as _ <-|]. apply patch_mode_frame in Hp. eauto with mihari. }
  apply st_bind_inv in Hb as ([b y] & w3 & Hc & Hb).
  apply confirm_routing_spec in Hc as [Hl Hc]. injection Hb as <- <-. split; [eauto with mihari|].
  destruct b; [|done]. intros _. destruct (Hc eq_refl) as [Hm Hn]. destruct Hl as [n ->]. done.
Qed.

(** The core has the mode and, when it is known, the exit. *)
Definition core_at (mode now : string) (k : Kernel) : Prop :=
  live_mode k = mode /\ (now <> ""%string -> live_now k = now).

(** After a compensation the old state is confirmed, or the fence is up. *)
Lemma compensateRouting_spec (mode now : string) (cause x : error) (w w' : Manager FS) :
  compensateRouting o e mode now cause w = (x, w') ->
  settings w' = settings w /\ fs w' = fs w /\ store w' = store w /\ subscriptions w' = subscriptions w /\
  (mutationDegraded w' = mutationDegraded w /\ core_at mode now (kernel w') \/
   mutationDegraded w' = true /\ error_degraded x = true).
Proof.
  unfold compensateRouting. unfold st_bind at 1. destruct (applyRoutingLive o e mode now w) as [y w1] eqn:Ha.
  apply applyRoutingLive_spec in Ha as [(k & n & ->) Hok]. destruct y as [y|].
  - intros [= <- <-]. cbn. repeat (split; [done|]). by right.
  - intros [= <- <-]. cbn. repeat (split; [done|]). left. split; [done|]. by apply Hok.
Qed.

(** *** The plan *)

Lemma RoutingMode_set (mode : string) (s : Settings) :
  mode <> ""%string -> RoutingMode (SetRoutingMode mode s) = mode.
Proof. intros Hm. unfold RoutingMode, SetRoutingMode. cbn. by destruct (String.eqb_spec mode ""). Qed.

Lemma RoutingMode_prune (c : option Catalog) (s : Settings) : RoutingMode (prune_selections c s) = RoutingMode s.
Proof.
  unfold RoutingMode, prune_selections. destruct c; [|done]. destruct (Routing s) as [r|] eqn:Hr; [done|].
  by rewrite Hr.
Qed.

Lemma RoutingMode_select (id name : string) (s : Settings) : RoutingMode (SetGlobalSelection id name s) = RoutingMode s.
Proof.
  unfold SetGlobalSelection. unfold RoutingMode. destruct (Routing s) as [r|]; cbn [default Routing with_Routing];
    destruct (String.eqb id ""), (String.eqb name ""); done.
Qed.

Lemma GlobalSelection_mode (id mode : string) (s : Settings) :
  GlobalSelection id (SetRoutingMode mode s) = GlobalSelection id s.
Proof. unfold GlobalSelection, SetRoutingMode. destruct (Routing s) as [r|]; cbn; [done|]. case_if; [done|]. by rewrite lookup_empty. Qed.

(** Pruning keeps a selection or drops it. *)
Lemma GlobalSelection_prune (c : option Catalog) (id : string) (s : Settings) :
  GlobalSelection id (prune_selections c s) = GlobalSelection id s \/
  GlobalSelection id (prune_selections c s) = ""%string.
Proof.
  unfold GlobalSelection, prune_selections. destruct c as [c|]; [|by left]. destruct (Routing s) as [r|] eqn:Hr; cbn.
  - case_if; [by left|]. rewrite map_lookup_filter. destruct (GlobalSelections r !! id); cbn; [|by left].
    case_guard; auto.
  - rewrite Hr. by left.
Qed.

Lemma GlobalSelection_select (id name : string) (s : Settings) : GlobalSelection id (SetGlobalSelection id name s) = name.
Proof.
  unfold GlobalSelection, SetGlobalSelection. destruct (Routing s) as [r|]; cbn; case_if; try done;
    (destruct (String.eqb_spec name "") as [->|]; cbn; [by rewrite lookup_delete_eq|by rewrite lookup_insert_eq]).
Qed.

(** GLOBAL can be set to [x]. *)
Definition usable (g : Proxy) (x : string) : Prop := EqualFold (px_Type g) "selector" = true /\ x ∈ px_All g.

(** GLOBAL has an exit for a request: the one it asks for, or else the saved one or
    DIRECT. *)
Definition has_exit (g : Proxy) (saved explicitExit : string) : Prop :=
  if String.eqb explicitExit "" then usable g saved \/ usable g "DIRECT" else usable g explicitExit.

(** The mode a request for [mode] gets: the one it asks for, except that global needs
    an exit and becomes rule without one. *)
Definition mode_granted (k : Kernel) (saved explicitExit mode mode' : string) : Prop :=
  (mode <> "global"%string -> mode' = mode) /\
  (mode = "global"%string -> exists g, k_GLOBAL k = Some g /\
     (mode' = "global"%string /\ has_exit g saved explicitExit \/ mode' = "rule"%string /\ ~ has_exit g saved explicitExit)).

(** The exit that is chosen is a candidate, and a mode is changed only for want of one. *)
Lemma choose_exit_spec (g : Proxy) (mode saved explicitExit mode' exit message : string) :
  choose_exit g mode saved explicitExit = Ok (mode', exit, message) ->
  mode' = mode /\ has_exit g saved explicitExit \/
  exit = ""%string /\ ~ has_exit g saved explicitExit /\ mode' = (if String.eqb mode "global" then "rule"%string else mode).
Proof.
  unfold choose_exit, has_exit, usable. destruct (String.eqb_spec explicitExit "") as [->|Hne]; cbn [negb].
  - destruct (EqualFold (px_Type g) "selector"); cbn [negb orb andb].
    + destruct (bool_decide_reflect (saved ∈ px_All g)); cbn [negb].
      { intros [= <- <- <-]. auto. }
      destruct (bool_decide_reflect ("DIRECT"%string ∈ px_All g)); intros [= <- <- <-]; [auto|]. right.
      split; [done|]. split; [|done]. by intros [[? ?]|[? ?]].
    + intros [= <- <- <-]. right.
      split; [done|]. split; [|done]. by intros [[? ?]|[? ?]].
  - destruct (EqualFold (px_Type g) "selector"); cbn [negb orb]; [|done].
    destruct (bool_decide_reflect (explicitExit ∈ px_All g)); cbn [negb]; [|done]. intros [= <- <- <-]. auto.
Qed.

Lemma chosen_granted (k : Kernel) (g : Proxy) (mode saved explicitExit mode' exit message : string) :
  k_GLOBAL k = Some g -> choose_exit g mode saved explicitExit = Ok (mode', exit, message) ->
  mode_granted k saved explicitExit mode mode'.
Proof.
  intros Hg [[-> He]|(_ & He & ->)]%choose_exit_spec; split; intros Hm; subst; eauto 6.
  by destruct (String.eqb_spec mode "global").
Qed.

(** What a plan says of the core it was made for and of the settings. *)
Record plan_ok (id : string) (w : Manager FS) (p : routing_plan) : Prop := {
  po_mode : pl_oldMode p = live_mode (kernel w);
  po_now : if pl_needGlobal p then pl_oldNow p = live_now (kernel w) else pl_oldNow p = ""%string;
  po_desired : RoutingMode (pl_after p) = pl_mode p;
  po_exit : GlobalSelection id (pl_after p) = pl_exit p \/ GlobalSelection id (pl_after p) = ""%string
}.

Lemma plan_routing_spec (c : option Catalog) (before : Settings) (id mode explicitExit : string) (w w' : Manager FS)
    (r : result routing_plan) :
  let after := prune_selections c (if String.eqb mode (RoutingMode before) then before else SetRoutingMode mode before) in
  plan_routing o e before after id mode explicitExit w = (r, w') -> mode <> ""%string ->
  later w w' /\
  forall p, r = Ok p ->
    plan_ok id w p /\ mode_granted (kernel w) (GlobalSelection id before) explicitExit mode (pl_mode p) /\
    pl_needGlobal p = String.eqb mode "global" || negb (String.eqb (GlobalSelection id before) "") || negb (String.eqb explicitExit "").
Proof.
  cbv zeta. intros Hp Hmode.
  set (after := prune_selections c _) in *.
  assert (Hdes : RoutingMode after = mode).
  { subst after. rewrite RoutingMode_prune. case_if; breflect; [done|by apply RoutingMode_set]. }
  assert (Hsel : GlobalSelection id after = GlobalSelection id before \/ GlobalSelection id after = ""%string).
  { subst after. destruct (GlobalSelection_prune c id (if String.eqb mode (RoutingMode before) then before else SetRoutingMode mode before))
      as [-> | ->]; [left|by right]. case_if; [done|apply GlobalSelection_mode]. }
  unfold plan_routing in Hp. apply st_bind_inv in Hp as (om & w1 & Ho & Hp).
  apply observeRoutingMode_spec in Ho as [Hl1 Ho]. destruct om as [om|x]; [|injection Hp as <- <-; done].
  specialize (Ho om eq_refl). case_if_in Hp.
  { injection Hp as <- <-. split; [done|]. intros p [= <-]. apply negb_true_iff in Heqb. rewrite Heqb.
    split; [constructor; cbn; auto|]. split; [|done]. split; [done|]. intros Hm. rewrite Hm in Heqb. discriminate Heqb. }
  apply negb_false_iff in Heqb. rewrite Heqb.
  apply st_bind_inv in Hp as (g & w2 & Hg & Hp). apply observeGlobal_spec in Hg as [Hl2 Hg].
  assert (Hl : later w w2) by eauto using later_trans.
  destruct g as [g|x]; [|injection Hp as <- <-; done]. injection Hp as <- <-. split; [done|]. intros p Hp.
  destruct (choose_exit g mode (GlobalSelection id before) explicitExit) as [[[mode' exit] message]|x] eqn:Hch;
    [|discriminate Hp]. injection Hp as <-.
  specialize (Hg g eq_refl). destruct Hl1 as [n ->]. cbn in Hg.
  split; [|split; [by eapply chosen_granted|done]]. constructor; cbn.
  - done.
  - unfold live_now. by rewrite Hg.
  - assert (Hm0 : RoutingMode (if String.eqb mode' mode then after else SetRoutingMode mode' after) = mode').
    { case_if; breflect; [congruence|]. apply RoutingMode_set.
      apply choose_exit_spec in Hch as [[-> _]|(_ & _ & ->)]; [done|by case_if]. }
    case_if; [done|]. by rewrite RoutingMode_select.
  - destruct (String.eqb_spec exit (GlobalSelection id before)) as [->|_].
    + case_if; [done|]. by rewrite GlobalSelection_mode.
    + left. apply GlobalSelection_select.
Qed.

Lemma plan_core_at (id : string) (w : Manager FS) (p : routing_plan) :
  plan_ok id w p -> core_at (pl_oldMode p) (pl_oldNow p) (kernel w).
Proof.
  intros [Hm Hn _ _]. split; [done|]. destruct (pl_needGlobal p); [done|]. by rewrite Hn.
Qed.

(** The outcome of the writes. *)
Definition performed (w w' : Manager FS) (p : routing_plan) (r : result (RoutingStatus * bool)) : Prop :=
  (persisted o w -> persisted o w') /\ store w' = store w /\ subscriptions w' = subscriptions w /\
  match r with
  | Ok (s, _) =>
      rs_State s = "applied"%string /\ LiveMode s = pl_mode p /\ settings w' = pl_after p /\
      DesiredMode s = RoutingMode (settings w') /\
      live_mode (kernel w') = pl_mode p /\ (pl_exit p <> ""%string -> live_now (kernel w') = pl_exit p)
  | Err x =>
      settings w' = settings w /\
      (mutationDegraded w' = true /\ error_degraded x = true \/
       core_at (pl_oldMode p) (pl_oldNow p) (kernel w'))
  end.

Lemma perform_routing_spec (id : string) (p : routing_plan) (restore : bool) (w w' : Manager FS)
    (r : result (RoutingStatus * bool)) :
  perform_routing o e (settings w) p restore w = (r, w') -> plan_ok id w p -> performed w w' p r.
Proof.
  unfold perform_routing. intros Hp Hplan. pose proof (plan_core_at _ _ _ Hplan) as Hat.
  destruct (Validate (pl_after p)); [injection Hp as <- <-; by split_and!; [..|right]|].
  set (live := negb (String.eqb (pl_oldMode p) (pl_mode p)) || _) in *.
  apply st_bind_inv in Hp as (applied & w1 & Ha & Hp).
  assert (Hw1 : kernel_frame w w1 /\
    (applied = None -> live_mode (kernel w1) = pl_mode p /\ (pl_exit p <> ""%string -> live_now (kernel w1) = pl_exit p)) /\
    (live = false -> w1 = w)).
  { destruct live eqn:Hlive; [apply applyRoutingLive_spec in Ha as [? ?]; by split_and!|].
    injection Ha as <- <-. split; [apply kernel_frame_later, later_refl|]. split; [|done]. intros _.
    apply orb_false_iff in Hlive as [Hm He]. breflect. destruct Hat as [Hat Hnow].
    split; [congruence|]. intros Hne. apply andb_false_iff in He as [He|He]; breflect; [done|]. rewrite He. apply Hnow. congruence. }
  destruct Hw1 as ((k & n & Hk) & Hok & Hsame).
  destruct applied as [x|].
  { apply st_bind_inv in Hp as (y & w2 & Hc & Hp). injection Hp as <- <-.
    apply compensateRouting_spec in Hc as (Hs & Hf & Hst & Hsub & Hc). subst w1. cbn in *.
    unfold performed, persisted. rewrite Hs, Hf, Hst, Hsub. repeat (split; [done|]). destruct Hc as [[_ Hc]|Hc]; auto. }
  specialize (Hok eq_refl). apply st_bind_inv in Hp as ([cr err] & w2 & Hsave & Hp).
  apply save_publish_spec in Hsave; [|subst w1; done|done]. destruct err as [x|].
  - destruct Hsave as (Hs & Hper & (s0 & g0 & f0 & n0 & Hfr)).
    assert (Hw2 : settings w2 = settings w /\ (persisted o w -> persisted o w2) /\ store w2 = store w /\
                  subscriptions w2 = subscriptions w /\ (live = false -> kernel w2 = kernel w)).
    { subst w2 w1. cbn in *. repeat (split; [done|]). intros Hl. by rewrite <- (f_equal kernel (Hsame Hl)). }
    destruct Hw2 as (Hs2 & Hper2 & Hst2 & Hsub2 & Hk2). destruct live.
    + apply st_bind_inv in Hp as (y & w3 & Hc & Hp). injection Hp as <- <-.
      apply compensateRouting_spec in Hc as (Hs3 & Hf & Hst & Hsub & Hc).
      unfold performed, persisted in *. rewrite Hs3, Hf, Hst, Hsub. repeat (split; [done || auto|]). destruct Hc as [[_ Hc]|Hc]; auto.
    + injection Hp as <- <-. unfold performed. rewrite (Hk2 eq_refl). by split_and!; [..|right].
  - apply st_bind_inv in Hp as (t & w3 & Hpub & Hp). rewrite Hpub in Hsave. cbn [snd] in Hsave.
    destruct Hsave as [[Hs Hper] (s0 & g0 & f0 & n0 & Hfr)]. cbn in Hs.
    apply st_bind_inv in Hp as (t' & w4 & Hmsg & Hp).
    assert (Hw4 : exists msg, w4 = set_message msg w3).
    { case_if_in Hmsg; injection Hmsg as _ <-; [by eexists|]. exists (routingMessage w3). by destruct w3. }
    destruct Hw4 as [msg ->]. cbn in Hp. injection Hp as <- <-. unfold performed. cbn.
    assert (Hp0 : persisted o w -> persisted o w1) by (by subst w1).
    split; [auto|]. subst w3 w1. cbn in *. repeat (split; [done|]). done.
Qed.

Lemma save_stopped_spec (after : Settings) (explicitExit : string) (w w' : Manager FS) (r : result (RoutingStatus * bool)) :
  save_stopped o e (settings w) after explicitExit w = (r, w') ->
  (persisted o w -> persisted o w') /\ store w' = store w /\ subscriptions w' = subscriptions w /\ kernel w' = kernel w /\
  match r with
  | Ok (s, _) => rs_State s = "pending"%string /\ settings w' = after /\ DesiredMode s = RoutingMode (settings w')
  | Err _ => settings w' = settings w
  end.
Proof.
  unfold save_stopped. intros Hp. destruct (Validate after); [by injection Hp as <- <-|].
  case_if_in Hp; [by injection Hp as <- <-|]. apply st_bind_inv in Hp as ([cr err] & w2 & Hsave & Hp).
  apply save_publish_spec in Hsave; [|done|done]. destruct err as [x|].
  - destruct Hsave as (Hs & Hper & (s0 & g0 & f0 & n0 & ->)). by injection Hp as <- <-.
  - apply st_bind_inv in Hp as (t & w3 & Hpub & Hp). rewrite Hpub in Hsave. cbn [snd] in Hsave.
    destruct Hsave as [[Hs Hper] (s0 & g0 & f0 & n0 & ->)]. cbn in Hs. st_unfold. cbn in Hp. by injection Hp as <- <-.
Qed.

(** *** The whole change *)

(** The exit of GLOBAL is part of the change. *)
Definition involves_global (w : Manager FS) (mode explicitExit : string) : Prop :=
  mode = "global"%string \/ GlobalSelection (routingSubscriptionID w) (settings w) <> ""%string \/ explicitExit <> ""%string.

Definition settled (w w' : Manager FS) (mode explicitExit : string) (stopped : bool) (r : result (RoutingStatus * bool)) : Prop :=
  match r with
  | Ok (s, _) =>
      DesiredMode s = RoutingMode (settings w') /\
      if stopped
      then rs_State s = "pending"%string /\ kernel w' = kernel w /\ RoutingMode (settings w') = mode
      else rs_State s = "applied"%string /\ LiveMode s = live_mode (kernel w') /\
           RoutingMode (settings w') = live_mode (kernel w') /\
           mode_granted (kernel w) (GlobalSelection (routingSubscriptionID w) (settings w)) explicitExit mode
             (live_mode (kernel w')) /\
           (GlobalSelection (routingSubscriptionID w) (settings w') <> ""%string ->
            live_now (kernel w') = GlobalSelection (routingSubscriptionID w) (settings w'))
  | Err x =>
      settings w' = settings w /\
      (mutationDegraded w' = true /\ error_degraded x = true \/
       live_mode (kernel w') = live_mode (kernel w) /\
       (involves_global w mode explicitExit -> live_now (kernel w) <> ""%string ->
        live_now (kernel w') = live_now (kernel w)))
  end.

Lemma changeRoutingLocked_spec (mode explicitExit : string) (restore stopped : bool) (w w' : Manager FS)
    (r : result (RoutingStatus * bool)) :
  changeRoutingLocked o e mode explicitExit restore stopped w = (r, w') -> mode <> ""%string ->
  (persisted o w -> persisted o w') /\ store w' = store w /\ subscriptions w' = subscriptions w /\
  settled w w' mode explicitExit stopped r.
Proof.
  unfold changeRoutingLocked. intros Hc Hmode.
  apply st_check_inv in Hc as [(x & -> & Hc)|(w1 & Hc & Hp)]; apply ctxErr_later in Hc as [n Hw1].
  { subst w'. unfold settled. split_and!; try done. by right. }
  unfold st_bind at 1, st_get in Hp. cbn beta iota in Hp.
  assert (Hsame : settings w1 = settings w /\ kernel w1 = kernel w /\ store w1 = store w /\
    subscriptions w1 = subscriptions w /\ (persisted o w -> persisted o w1) /\
    routingSubscriptionID w1 = routingSubscriptionID w) by (by subst w1).
  clear Hw1. destruct Hsame as (Hs1 & Hk1 & Hst1 & Hsub1 & Hper1 & Hid1).
  unfold settled, involves_global. rewrite <- Hs1, <- Hk1, <- Hst1, <- Hsub1, <- Hid1. destruct stopped.
  - apply save_stopped_spec in Hp as (Hper & Hst & Hsub & Hk & Hr). split_and!; try done; [auto|].
    destruct r as [[s b]|x].
    + destruct Hr as (Hstate & Hset & Hdes). split_and!; try done. rewrite Hset, RoutingMode_prune.
      case_if; breflect; [done|by apply RoutingMode_set].
    + split; [done|]. right. by rewrite Hk.
  - apply st_try_inv in Hp as [(x & -> & Hp)|(p & w2 & Hp & Hr)]; apply plan_routing_spec in Hp as [[n2 ->] Hp]; try done.
    { cbn. split_and!; try done. by right. }
    destruct (Hp p eq_refl) as (Hplan & Hgrant & Hneed). clear Hp.
    apply (perform_routing_spec (routingSubscriptionID w1) p restore (set_clock n2 w1)) in Hr;
      [|by destruct Hplan; constructor].
    destruct Hr as (Hper & Hst & Hsub & Hr). cbn in Hst, Hsub. split_and!; try done; [intros; by apply Hper, Hper1|].
    destruct r as [[s b]|x].
    + destruct Hr as (Hstate & Hlive & Hset & Hdes & Hm & Hn). destruct Hplan as [_ _ Hd He].
      split; [congruence|]. split; [congruence|]. split; [congruence|]. split; [congruence|]. rewrite Hm. split; [exact Hgrant|].
      rewrite Hset. intros Hne. destruct He as [He|He]; [|done]. rewrite He in *. auto.
    + destruct Hr as [Hset Hr]. cbn in Hset. split; [done|]. destruct Hr as [Hr|[Hm Hn]]; [by left|right].
      destruct Hplan as [Ho Hnow _ _]. split; [congruence|]. intros Hinv Hne.
      assert (Hng : pl_needGlobal p = true).
      { rewrite Hneed. destruct Hinv as [->|[Hi|Hi]]; [done| |].
        - apply String.eqb_neq in Hi. rewrite Hi. by rewrite orb_true_r.
        - apply String.eqb_neq in Hi. rewrite Hi. by rewrite orb_true_r. }
      rewrite Hng in Hnow. rewrite <- Hnow in *. auto.
Qed.

End Lemmas.

(** *** What a change does to the settings *)

Section Moves.
Context `{CaseFold} {Env FS : Type} `{SettingsFile Env FS} (o : Options) (e : environment Env).

(** Nothing but the routing differs. *)
Definition same_but_routing (s s' : Settings) : Prop := exists r, s' = with_Routing r s.

Lemma same_but_routing_refl (s : Settings) : same_but_routing s s.
Proof. exists (Settings.Routing s). by destruct s. Qed.

Lemma same_but_routing_trans (a b c : Settings) : same_but_routing a b -> same_but_routing b c -> same_but_routing a c.
Proof. intros [r ->] [r' ->]. by exists r'. Qed.

Lemma same_but_routing_Tun (s s' : Settings) : same_but_routing s s' -> Tun s' = Tun s.
Proof. by intros [r ->]. Qed.

Lemma same_but_routing_logging (s s' : Settings) : same_but_routing s s' -> EffectiveLogging s' = EffectiveLogging s.
Proof. by intros [r ->]. Qed.

Lemma SetRoutingMode_routing (mode : string) (s : Settings) : same_but_routing s (SetRoutingMode mode s).
Proof. unfold SetRoutingMode. by eexists. Qed.

Lemma SetGlobalSelection_routing (id name : string) (s : Settings) : same_but_routing s (SetGlobalSelection id name s).
Proof. unfold SetGlobalSelection. by eexists. Qed.

Lemma prune_routing (c : option Catalog) (s : Settings) : same_but_routing s (prune_selections c s).
Proof.
  unfold prune_selections. destruct c; [|apply same_but_routing_refl].
  destruct (Settings.Routing s); [by eexists|apply same_but_routing_refl].
Qed.

Lemma plan_routing_after (before after : Settings) (id mode explicitExit : string) (w w' : Manager FS) (p : routing_plan) :
  plan_routing o e before after id mode explicitExit w = (Ok p, w') -> same_but_routing after (pl_after p).
Proof.
  unfold plan_routing. intros Hp. apply st_bind_inv in Hp as ([om|x] & w1 & _ & Hp); [|done].
  case_if_in Hp; [injection Hp as <- _; apply same_but_routing_refl|].
  apply st_bind_inv in Hp as ([g|x] & w2 & _ & Hp); [|done]. injection Hp as Hp _.
  destruct (choose_exit g mode (GlobalSelection id before) explicitExit) as [[[mode' exit] message]|x]; [|done]. injection Hp as <-.
  cbn [pl_after]. eapply same_but_routing_trans with (b := if String.eqb mode' mode then after else SetRoutingMode mode' after).
  - case_if; auto using same_but_routing_refl, SetRoutingMode_routing.
  - destruct (String.eqb exit _); auto using same_but_routing_refl, SetGlobalSelection_routing.
Qed.

Lemma plan_routing_later (before after : Settings) (id mode explicitExit : string) (w w' : Manager FS) (r : result routing_plan) :
  plan_routing o e before after id mode explicitExit w = (r, w') -> later w w'.
Proof.
  unfold plan_routing. intros Hp. apply st_bind_inv in Hp as (om & w1 & Ho & Hp). apply observeRoutingMode_spec in Ho as [Hl _].
  destruct om as [om|x]; [|by injection Hp as _ <-]. case_if_in Hp; [by injection Hp as _ <-|].
  apply st_bind_inv in Hp as (g & w2 & Hg & Hp). apply observeGlobal_spec in Hg as [Hl2 _].
  destruct g as [g|x]; injection Hp as _ <-; by eapply later_trans.
Qed.

(** The settings are the same and so is the file, or only the routing changed and
    the file holds the settings in memory. *)
Definition routing_moved (w w' : Manager FS) : Prop :=
  settings w' = settings w /\ sf_saved (fs w') = sf_saved (fs w)
  \/ same_but_routing (settings w) (settings w') /\ Settings.Routing (settings w') <> Settings.Routing (settings w)
     /\ persisted o w'.

Lemma same_but_routing_moved (s s' : Settings) : same_but_routing s s' -> s <> s' -> Settings.Routing s' <> Settings.Routing s.
Proof. intros [r ->] Hne Heq. apply Hne. destruct s. cbn in *. by subst. Qed.

Lemma perform_routing_moves (p : routing_plan) (restore : bool) (w w' : Manager FS) (r : result (RoutingStatus * bool)) :
  perform_routing o e (settings w) p restore w = (r, w') -> same_but_routing (settings w) (pl_after p) ->
  routing_moved w w' /\ (forall x, r = Err x -> settings w' = settings w /\ sf_saved (fs w') = sf_saved (fs w)).
Proof.
  unfold perform_routing. intros Hp Hafter.
  assert (Hsame : forall w', settings w' = settings w /\ sf_saved (fs w') = sf_saved (fs w) ->
    routing_moved w w' /\ (forall x, r = Err x -> settings w' = settings w /\ sf_saved (fs w') = sf_saved (fs w))).
  { intros w0 Hw0. split; [by left|done]. }
  destruct (Validate (pl_after p)); [injection Hp as <- <-; by apply Hsame|].
  apply st_bind_inv in Hp as (applied & w1 & Ha & Hp).
  assert (Hw1 : kernel_frame w w1).
  { case_if_in Ha; [by apply applyRoutingLive_spec in Ha as [Ha _]|injection Ha as _ <-; apply kernel_frame_later, later_refl]. }
  assert (Hcomp : forall x y w2 w3, compensateRouting o e (pl_oldMode p) (pl_oldNow p) x w2 = (y, w3) ->
    settings w2 = settings w /\ sf_saved (fs w2) = sf_saved (fs w) -> settings w3 = settings w /\ sf_saved (fs w3) = sf_saved (fs w)).
  { intros x y w2 w3 Hc Hw2. apply compensateRouting_spec in Hc as (Hs & Hf & _). by rewrite Hs, Hf. }
  destruct Hw1 as (k & n & ->). destruct applied as [x|].
  { apply st_bind_inv in Hp as (y & w2 & Hc & Hp). injection Hp as <- <-. apply Hsame. by eapply Hcomp. }
  apply st_bind_inv in Hp as ([cr err] & w2 & Hsave & Hp).
  apply saveSettingsCandidate_spec in Hsave as (n2 & f & -> & Hsave). destruct err as [x|].
  { destruct Hsave as [_ Hsave]. case_if_in Hp; [|injection Hp as <- <-; by apply Hsame].
    apply st_bind_inv in Hp as (y & w3 & Hc & Hp). injection Hp as <- <-. apply Hsame. by eapply Hcomp. }
  destruct Hsave as [_ Hsave]. apply st_bind_inv in Hp as ([] & w3 & Hpub & Hp).
  apply st_bind_inv in Hp as ([] & w4 & Hmsg & Hp).
  assert (Hw4 : settings w4 = settings w3 /\ fs w4 = fs w3) by (case_if_in Hmsg; by injection Hmsg as <-).
  cbn in Hp. injection Hp as <- <-. destruct Hw4 as [Hs4 Hf4]. split; [|done]. unfold routing_moved, persisted. rewrite Hs4, Hf4.
  unfold publishSettings in Hpub. cbn [cand_changed candidate_of cand_after] in *.
  destruct (changed (settings w) (pl_after p)) eqn:Hch; cbn [negb andb] in *; injection Hpub as <-; cbn in *.
  - right. split; [done|]. split.
    + apply same_but_routing_moved; [done|]. unfold changed in Hch. apply negb_true_iff, bool_decide_eq_false in Hch. done.
    + intros Hne. destruct (String.eqb_spec (settingsPath o) ""); [done|exact Hsave].
  - left. by rewrite Hsave.
Qed.

Lemma changeRoutingLocked_moves (mode explicitExit : string) (restore : bool) (w w' : Manager FS)
    (r : result (RoutingStatus * bool)) :
  changeRoutingLocked o e mode explicitExit restore false w = (r, w') ->
  routing_moved w w' /\ (forall x, r = Err x -> settings w' = settings w /\ sf_saved (fs w') = sf_saved (fs w)).
Proof.
  unfold changeRoutingLocked. intros Hc.
  apply st_check_inv in Hc as [(x & -> & Hc)|(w1 & Hc & Hp)]; apply ctxErr_later in Hc as [n ->]; [split; [by left|done]|].
  unfold st_bind at 1, st_get in Hp. cbn beta iota in Hp.
  apply st_try_inv in Hp as [(x & -> & Hp)|(p & w2 & Hp & Hr)].
  - apply plan_routing_later in Hp as [n2 ->]. split; [by left|done].
  - pose proof Hp as Hl. apply plan_routing_later in Hl as [n2 ->]. apply plan_routing_after in Hp.
    change (settings (set_clock n w)) with (settings (set_clock n2 (set_clock n w))) in Hr.
    apply perform_routing_moves in Hr; [exact Hr|]. eapply same_but_routing_trans; [|exact Hp].
    eapply same_but_routing_trans; [|apply prune_routing]. case_if; [apply same_but_routing_refl|apply SetRoutingMode_routing].
Qed.

End Moves.

(** *** Ownership around the change *)

Section Mutation.
Context `{CaseFold} {Env FS : Type} `{SettingsFile Env FS} (o : Options) (e : environment Env).

(** The mutation is refused at a gate, or it runs [changeRoutingLocked] on a
    manager that grants mutations, publishes the outcome and returns ownership. *)
Lemma routing_mutation_inv (id source : string) (ifRevision : option Z) (mode : Manager FS -> string) (explicitExit : string)
    (restore : bool) (stopped : Manager FS -> bool) (w w' : Manager FS) (r : result RoutingStatus) :
  routing_mutation o e (mkCommandMeta id source None) ifRevision mode explicitExit restore stopped w = (r, w') ->
  (exists n b x, r = Err x /\ w' = set_clock n (set_stop b w)) \/
  exists n w2 cr s, mutationDegraded w = false /\
    changeRoutingLocked o e (mode (set_clock n w)) explicitExit restore (stopped (set_clock n w)) (set_clock n w) = (cr, w2) /\
    w' = set_stop false (set_store s w2) /\
    match cr with
    | Ok (status, b) => r = Ok status
    | Err x => r = Err x /\ (error_degraded x = true -> Health s = "degraded"%string)
    end.
Proof.
  unfold routing_mutation. intros Hr.
  apply st_check_inv in Hr as [(x & -> & Hl)|(w1 & Hl & Hr)]; apply lockMutation_spec in Hl as [[n ->] Hl].
  { left. exists n, (stopCoreOnUnlock w), x. split; [done|]. by destruct w. }
  destruct (Hl eq_refl) as [Hd _]. apply st_bind_inv in Hr as (r1 & w2 & Hr & Hu). injection Hu as <- <-.
  apply st_check_inv in Hr as [(x & -> & Hc)|(w3 & Hc & Hr)].
  { unfold checkIfRevision, gets in Hc. injection Hc as _ <-. left. exists n, false, x. done. }
  unfold checkIfRevision, gets in Hc. injection Hc as _ <-. unfold st_bind at 1, st_get in Hr. cbn beta iota in Hr.
  apply st_bind_inv in Hr as (cr & w4 & Hch & Hr). right. exists n, w4, cr.
  destruct cr as [[status b]|x].
  - destruct b.
    + unfold st_bind, keep_snapshot in Hr. rewrite (updateState_pure id source (fun s => s)) in Hr. injection Hr as <- <-.
      eexists. split; [done|]. split; [exact Hch|]. done.
    + injection Hr as <- <-. exists (store w4). split; [done|]. split; [exact Hch|]. split; [by destruct w4|done].
  - unfold markRoutingDegraded in Hr. unfold st_bind at 1 in Hr. destruct (error_degraded x) eqn:Hx.
    + unfold st_bind in Hr. rewrite (updateState_pure "" "routing" (with_Health "degraded" recovery_message)) in Hr.
      injection Hr as <- <-. eexists. split; [done|]. split; [exact Hch|]. done.
    + injection Hr as <- <-. exists (store w4). split; [done|]. split; [exact Hch|]. split; [by destruct w4|done].
Qed.

(** [mode] and [exit] are what a request asks for. *)
Definition routing_settles (w w' : Manager FS) (mode explicitExit : string) (stopped : bool) (r : result RoutingStatus) : Prop :=
  (persisted o w -> persisted o w') /\
  match r with
  | Ok s => settled w w' mode explicitExit stopped (Ok (s, true))
  | Err _ =>
      settings w' = settings w /\
      (mutationDegraded w' = true /\ Health (store w') = "degraded"%string /\
         (forall e' : environment Env, fst (lockMutation o e' w') <> None) \/
       live_mode (kernel w') = live_mode (kernel w) /\
       (involves_global w mode explicitExit -> live_now (kernel w) <> ""%string ->
        live_now (kernel w') = live_now (kernel w)))
  end.

Lemma routing_mutation_settles (id source : string) (ifRevision : option Z) (mode : Manager FS -> string)
    (explicitExit : string) (restore : bool) (stopped : Manager FS -> bool) (w w' : Manager FS) (r : result RoutingStatus) :
  routing_mutation o e (mkCommandMeta id source None) ifRevision mode explicitExit restore stopped w = (r, w') ->
  (forall n, mode (set_clock n w) = mode w) -> (forall n, stopped (set_clock n w) = stopped w) -> mode w <> ""%string ->
  routing_settles w w' (mode w) explicitExit (stopped w) r.
Proof.
  intros Hr Hm Hst Hne. apply routing_mutation_inv in Hr as [(n & b & x & -> & ->)|(n & w2 & cr & s & Hd & Hc & -> & Hr)].
  { split; [done|]. split; [done|]. by right. }
  rewrite Hm, Hst in Hc. apply changeRoutingLocked_spec in Hc as (Hper & Hstore & Hsub & Hset); [|done].
  split; [exact Hper|]. destruct cr as [[status b]|x].
  - subst r. exact Hset.
  - destruct Hr as [-> Hh]. destruct Hset as [Hset [[Hdeg Hx]|Hlive]].
    + split; [done|]. left. split; [done|]. split; [by apply Hh|]. intros e'. by apply degraded_fence.
    + split; [done|]. right. exact Hlive.
Qed.

Lemma admit_operation_same (key : string) (w w' : Manager FS) (x : option error) : admit_operation e key w = (x, w') -> w' = w.
Proof.
  unfold admit_operation, ownsCoreUpdate, checkOpen, gets. st_unfold. cbn.
  destruct (match coreUpdate w with Some _ => _ | None => _ end); [by intros [= _ <-]|].
  destruct (closing w); by intros [= _ <-].
Qed.

(** What [UpdateRouting] does to the manager is what the mutation does. *)
Lemma UpdateRouting_inv (op : Operation) (mode : string) (w w' : Manager FS) (r : result RoutingStatus) :
  UpdateRouting o e op mode w = (r, w') ->
  (exists x, r = Err x /\ w' = w) \/
  exists r0, ValidRoutingMode mode = true /\
    routing_mutation o e (mkCommandMeta (op_ID op) (op_Source op) None) (op_IfRevision op) (fun _ => mode) ""
      false routingCoreStopped w = (r0, w') /\
    match r0 with
    | Err x => r = Err x
    | Ok s => r = Ok (mkRoutingStatus (Revision (store w')) (DesiredMode s) (LiveMode s) (rs_State s) (SubscriptionID s)
                        (rs_GlobalSelection s) (LiveGlobalSelection s) (rs_Message s))
    end.
Proof.
  unfold UpdateRouting. destruct (ValidRoutingMode mode) eqn:Hv; cbn [negb]; [|intros [= <- <-]; eauto].
  intros Hr. apply st_check_inv in Hr as [(x & -> & Ha)|(w1 & Ha & Hr)]; apply admit_operation_same in Ha as ->; [left; eauto|].
  apply st_bind_inv in Hr as (r0 & w1 & Hm & Hr). unfold st_bind, st_get, st_ret in Hr. injection Hr as <- <-.
  right. exists r0. split; [done|]. split; [exact Hm|]. by destruct r0.
Qed.

End Mutation.

(** ** Theorems *)

(** C21. A change of the routing mode settles, whatever the core answers to the
    writes, whichever reads fail and whenever the request is cancelled.  On
    success the saved mode is the one the core reports, and it is the requested one,
    except that a request for global is granted as rule exactly when GLOBAL can be set
    neither to the saved exit nor to DIRECT; the saved exit of GLOBAL, if there is
    one, is the one the core uses (or, with a stopped core, the requested mode is
    saved and the core is left alone).  On failure the
    settings are as before, in memory and on disk, and the core reports the old
    mode and the old exit; where this cannot be confirmed, the daemon is marked
    degraded and refuses every further mutation. *)
Theorem routing_update_settles `{CaseFold} {Env FS : Type} `{SettingsFile Env FS} (o : Options) (e : environment Env)
    (op : Operation) (mode : string) (w : Manager FS) :
  persisted o w ->
  let '(r, w') := UpdateRouting o e op mode w in
  persisted o w' /\
  match r with
  | Ok s =>
      DesiredMode s = RoutingMode (settings w') /\
      if routingCoreStopped w
      then rs_State s = "pending"%string /\ kernel w' = kernel w /\ RoutingMode (settings w') = mode
      else rs_State s = "applied"%string /\ LiveMode s = live_mode (kernel w') /\
           RoutingMode (settings w') = live_mode (kernel w') /\
           mode_granted (kernel w) (GlobalSelection (routingSubscriptionID w) (settings w)) "" mode (live_mode (kernel w')) /\
           (GlobalSelection (routingSubscriptionID w) (settings w') <> ""%string ->
            live_now (kernel w') = GlobalSelection (routingSubscriptionID w) (settings w'))
  | Err _ =>
      settings w' = settings w /\
      (mutationDegraded w' = true /\ Health (store w') = "degraded"%string /\
         (forall e' : environment Env, fst (lockMutation o e' w') <> None) \/
       live_mode (kernel w') = live_mode (kernel w) /\
       (involves_global w mode "" -> live_now (kernel w) <> ""%string -> live_now (kernel w') = live_now (kernel w)))
  end.
Proof.
  intros Hp. destruct (UpdateRouting o e op mode w) as [r w'] eqn:Hu.
  apply UpdateRouting_inv in Hu as [(x & -> & ->)|(r0 & Hv & Hm & Hr)].
  { split; [done|]. split; [done|]. by right. }
  assert (Hne : mode <> ""%string) by (by intros ->).
  apply routing_mutation_settles in Hm as [Hper Hset]; [|done|done|done]. split; [auto|].
  destruct r0 as [s|x]; subst r; exact Hset.
Qed.

(** ** Witnesses *)

#[local] Instance ascii_fold : CaseFold := {| unicode_EqualFold := String.eqb |}.
#[local] Instance ex_file : SettingsFile bool (option Settings) := memory_file.

Definition ex_core (mode now : string) : Kernel :=
  mkKernel {[ "mode"%string := AString mode ]} (Some (mkProxy "Selector" ["A"; "DIRECT"]%string now)).

(** A running core in mode rule, with exit A. *)
Definition ex_manager : Manager (option Settings) :=
  mkManager example_settings 7 false false false None false
    (with_Core (mkCoreState "running" "" "" "" 4 0 "" 0 0) zero_Snapshot) None "" ""
    (Some (canonical example_settings)) (ex_core "rule" "A") (mkProxyState false "") 0.

Definition ex_options : Options := mkOptions false "" "settings.yaml" true true false.

(** Every write leaves the core in mode [mode] with exit [now]; saving goes as
    [ok] says. *)
Definition ex_env (mode now : string) (ok : bool) : environment bool :=
  mkEnvironment None (fun _ => None) (fun _ => None) (fun _ _ => (ex_core mode now, None))
    (fun _ _ p => (p, None)) (fun _ => ok).

Definition ex_op : Operation := mkOperation "op-1" "cli" None.

Lemma routing_update_settles_witness :
  let '(r, w') := UpdateRouting ex_options (ex_env "global" "DIRECT" true) ex_op "global" ex_manager in
  persisted ex_options w' /\
  match r with
  | Ok s => DesiredMode s = RoutingMode (settings w') /\ rs_State s = "applied"%string
  | Err _ => False
  end.
Proof.
  pose proof (routing_update_settles ex_options (ex_env "global" "DIRECT" true) ex_op "global" ex_manager
    (fun _ => eq_refl)) as Hw.
  assert (Hok : is_Ok (fst (UpdateRouting ex_options (ex_env "global" "DIRECT" true) ex_op "global" ex_manager)) = true)
    by (vm_compute; reflexivity).
  destruct (UpdateRouting ex_options (ex_env "global" "DIRECT" true) ex_op "global" ex_manager) as [[s|x] w'];
    [|discriminate Hok].
  destruct Hw as [Hp Hw]. split; [exact Hp|]. destruct Hw as (Hd & Hs & _). split; [exact Hd|exact Hs].
Defined.

(** Saving fails and the core does not come back: the fence is up. *)
Example routing_degrades :
  let '(r, w') := UpdateRouting ex_options (ex_env "direct" "A" false) ex_op "direct" ex_manager in
  (is_Ok r, mutationDegraded w', Health (store w'), fs w') =
  (false, true, "degraded"%string, Some (canonical example_settings)).
Proof. vm_compute. reflexivity. Qed.
