(* ===== verification/SysProxy.v ===== *)
(** * SysProxy: the system proxy

    Models [internal/sysproxy] (ownership, server names, the arguments of
    [Enable], the parser of [networksetup]) and [internal/runtime/sysproxy.go]
    (enabling, disabling, compensation, startup and shutdown).  The platform
    backend is the environment's [os_write]; [reliable] is its contract. *)

From Stdlib Require Import Ascii.
From S2P Require Import Prelude GoStd GoNet Atomic State Settings Catalog Manager.

(** ** Ownership *)

Definition IsOwned (observed : ProxyState) (target : string) : bool :=
  if negb (ps_Enabled observed) then false else String.eqb (ps_Server observed) target.

Definition IsForeign (observed : ProxyState) (target : string) : bool :=
  if negb (ps_Enabled observed) then false
  else if String.eqb (ps_Server observed) "" then false
  else negb (IsOwned observed target).

Definition NormalizeServer (host : string) (port : Z) : string := JoinHostPort host (Itoa port).

(** [normalizeEnableArgs]. *)
Definition normalizeEnableArgs (host : string) (port : Z) : result (string * Z) :=
  if (port <? 1) || (65535 <? port) then Err (EText ("sysproxy: invalid port " ++ Itoa port)%string)
  else
    let host := TrimSpace host in
    Ok (if String.eqb host "" then "127.0.0.1"%string else host, port).

(** ** [networksetup -getwebproxy] *)

(** One line: the flag, server and port so far. *)
Definition webproxy_line `{CaseFold} (acc : bool * string * string) (line : string) : bool * string * string :=
  let '(enabled, server, port) := acc in
  match Cut line ":" with
  | None => acc
  | Some (key, val) =>
      let val := TrimSpace val in
      let key := TrimSpace key in
      if String.eqb key "Enabled" then (EqualFold val "Yes", server, port)
      else if String.eqb key "Server" then (enabled, val, port)
      else if String.eqb key "Port" then (enabled, server, val)
      else acc
  end.

Definition parseGetWebProxy `{CaseFold} (out : string) : ProxyState :=
  let '(enabled, server, port) := fold_left webproxy_line (Split LF out) (false, ""%string, ""%string) in
  mkProxyState enabled
    (if enabled && negb (String.eqb server "") && negb (String.eqb port "") then JoinHostPort server port else "").

(** [ignoreHostsArray]. *)
Definition defaultBypass : list string := ["localhost"; "127.0.0.1"; "::1"]%string.
Definition ignoreHostsArray : string :=
  ("[" ++ join ", " (map (fun h => "'" ++ h ++ "'") defaultBypass) ++ "]")%string.

(** ** The service *)

Record SystemProxyStatus := mkSystemProxyStatus {
  sp_Revision : Z;
  sp_Desired : bool;
  sp_Target : string;
  sp_Observed : ProxyState;
  sp_Owned : bool;
  sp_Foreign : bool
}.

Definition upstream (message : string) (cause : option error) : error :=
  diagnostics_Wrap (mkAPIError CodeUpstreamFailure message false) cause.

(** [resolveSystemProxyTarget]: target, host and port. *)
Definition resolveSystemProxyTarget (mixedAddr : string) : result (string * string * Z) :=
  match ParseAddrPort mixedAddr with
  | None => Err (diagnostics_Wrap (mkAPIError CodeInvalidArgument "invalid mixed-addr for system proxy" false)
                   (Some (EText "netip.ParseAddrPort")))
  | Some a =>
      let host := addr_String (ap_addr a) in
      Ok (NormalizeServer host (ap_port a), host, ap_port a)
  end.

Section Service.
Context {Env FS : Type} `{SettingsFile Env FS} (o : Options) (e : environment Env).

Abbreviation M := (st (Manager FS)).

(** [sysProxy.Get], [Enable] and [Disable]. *)
Definition proxy_Get : M (result ProxyState) :=
  let! n := tick in
  let! m := st_get in
  st_ret match read_err e n with Some x => Err x | None => Ok (osProxy m) end.

Definition proxy_Enable (host : string) (port : Z) : M (option error) :=
  match normalizeEnableArgs host port with
  | Err x => st_ret (Some x)
  | Ok (host, port) => os_call e (BackendEnable host port)
  end.

Definition proxy_Disable : M (option error) := os_call e BackendDisable.

Definition buildSystemProxyStatus (desired : bool) (target : string) (observed : ProxyState) (m : Manager FS)
    : SystemProxyStatus :=
  mkSystemProxyStatus (Revision (store m)) desired target observed (IsOwned observed target) (IsForeign observed target).

(** [restoreSystemProxy]: the port must be a decimal number in range. *)
Definition restoreSystemProxy (observed : ProxyState) : M (option error) :=
  if negb (ps_Enabled observed) then
    st_ret (Some (EText "restore disabled system proxy state cannot be proven"))
  else match SplitHostPort (ps_Server observed) with
  | None => st_ret (Some (EText "restore system proxy state"))
  | Some (host, portText) =>
      if String.eqb host "" || String.eqb portText "" then st_ret (Some (EText "restore system proxy state"))
      else match Atoi portText with
      | None => st_ret (Some (EText "restore system proxy state"))
      | Some port =>
          if (port <? 1) || (65535 <? port) then st_ret (Some (EText "restore system proxy state"))
          else proxy_Enable host port
      end
  end.

Definition compensateSystemProxy (op : Operation) (c : settingsCandidate) (observed : ProxyState) (cause : error)
    (restoreLive : bool) : M error :=
  let! '(_, rollbackErr) := restoreSettings o e (cand_before c) in
  let! liveRestoreErr := if restoreLive then restoreSystemProxy observed else st_ret None in
  match rollbackErr, liveRestoreErr with
  | None, None => st_ret cause
  | _, _ =>
      let! '(_, err) := updateStateLocked (mkCommandMeta (op_ID op) (op_Source op) (op_IfRevision op))
                          (degrade (errors_Join (errors_Join (Some cause) rollbackErr) liveRestoreErr)) in
      st_ret (match err with Some x => x | None => cause end)
  end.

(** The OS write of [mutateSystemProxy]. *)
Definition apply_proxy (enable : bool) (observed : ProxyState) (target host : string) (port : Z) : M (option error) :=
  if enable then
    let! x := proxy_Enable host port in
    st_ret (option_map (fun x => upstream "enable system proxy" (Some x)) x)
  else if IsOwned observed target then
    let! x := proxy_Disable in
    st_ret (option_map (fun x => upstream "disable system proxy" (Some x)) x)
  else st_ret None.

(** What must be observed after it. *)
Definition confirm_proxy (enable : bool) (target : string) (confirmed : result ProxyState) : option error :=
  match confirmed with
  | Err x => Some (upstream "read system proxy state" (Some x))
  | Ok s =>
      if enable && negb (IsOwned s target) then Some (upstream "enable system proxy" None)
      else if negb enable && ps_Enabled s then Some (upstream "disable system proxy" None)
      else None
  end.

(** The part of [mutateSystemProxy] behind the checks. *)
Definition commit_proxy (op : Operation) (enable : bool) (observed : ProxyState) (target host : string) (port : Z)
    : M (result SystemProxyStatus) :=
  try! c := updateSettings o e (fun s => Ok (with_SystemProxyDesired enable s)) in
  let fail x live := let! x := compensateSystemProxy op c observed x live in st_ret (Err x) in
  let! done := ctxErr e in
  match done with
  | Some x => fail x false
  | None =>
      let! applyErr := apply_proxy enable observed target host port in
      match applyErr with
      | Some x => fail x true
      | None =>
          let! done := ctxErr e in
          match done with
          | Some x => fail x true
          | None =>
              let! confirmed := proxy_Get in
              match confirm_proxy enable target confirmed, confirmed with
              | Some x, _ => fail x true
              | None, Err x => fail x true
              | None, Ok confirmed =>
                  let! '(_, err) := updateStateLocked (mkCommandMeta (op_ID op) (op_Source op) (op_IfRevision op)) keep_snapshot in
                  match err with
                  | Some x => st_ret (Err x)
                  | None => let! s := gets (buildSystemProxyStatus enable target confirmed) in st_ret (Ok s)
                  end
              end
          end
      end
  end.

(** The checks: who owns the proxy now. *)
Definition check_proxy (enable force : bool) (observed : ProxyState) (target : string) : option error :=
  if enable && IsForeign observed target && negb force then
    Some (api_error CodeSystemProxyConflict "system proxy is managed by another application")
  else if negb enable && IsForeign observed target then
    Some (api_error CodeSystemProxyNotOwned "system proxy is managed by another application; Mihari will not clear it")
  else None.

Definition backend_unavailable : error := api_error CodeInvalidState "system proxy backend is unavailable".

Definition mutateSystemProxy (op : Operation) (enable force : bool) : M (result SystemProxyStatus) :=
  if negb (has_sysProxy o) then st_ret (Err backend_unavailable)
  else
    check! lockMutation o e in
    let! r :=
      (check! ctxErr e in
       check! checkIfRevision (op_IfRevision op) in
       let! m := st_get in
       match resolveSystemProxyTarget (MixedAddr (settings m)) with
       | Err x => st_ret (Err x)
       | Ok (target, host, port) =>
           let! observed := proxy_Get in
           match observed with
           | Err x => st_ret (Err (upstream "read system proxy state" (Some x)))
           | Ok observed =>
               match check_proxy enable force observed target with
               | Some x => st_ret (Err x)
               | None => check! ctxErr e in commit_proxy op enable observed target host port
               end
           end
       end) in
    do! unlock in st_ret r.

Definition EnableSystemProxy (op : Operation) (force : bool) : M (result SystemProxyStatus) :=
  check! admit_operation e ("sysproxy-enable:" ++ op_ID op)%string in mutateSystemProxy op true force.

Definition DisableSystemProxy (op : Operation) : M (result SystemProxyStatus) :=
  check! admit_operation e ("sysproxy-disable:" ++ op_ID op)%string in mutateSystemProxy op false false.

(** Clear the proxy if this daemon owns it. *)
Definition disable_owned (what target : string) (cleared : M (option error)) : M (option error) :=
  let! observed := proxy_Get in
  match observed with
  | Err x => st_ret (Some (EFmt what x))
  | Ok observed =>
      if negb (IsOwned observed target) then st_ret None
      else
        let! x := proxy_Disable in
        match x with Some x => st_ret (Some (EFmt what x)) | None => cleared end
  end.

Definition ApplyDesiredSystemProxy : M (option error) :=
  if negb (has_sysProxy o) then st_ret None
  else
    let! x := lockMaintenance e in
    match x with
    | Some x => st_ret (Some x)
    | None =>
        let! r :=
          (let! x := ctxErr e in
           match x with
           | Some x => st_ret (Some x)
           | None =>
               let! m := st_get in
               match resolveSystemProxyTarget (MixedAddr (settings m)) with
               | Err x => st_ret (Some x)
               | Ok (target, host, port) =>
                   if SystemProxyDesired (settings m) then
                     let! x := proxy_Enable host port in st_ret (option_map (EFmt "apply desired system proxy") x)
                   else disable_owned "apply desired system proxy" target (st_ret None)
               end
           end) in
        do! unlock in st_ret r
    end.

Definition ClearOwnedSystemProxy : M (option error) :=
  if negb (has_sysProxy o) then st_ret None
  else
    let! m := st_get in
    match resolveSystemProxyTarget (MixedAddr (settings m)) with
    | Err x => st_ret (Some x)
    | Ok (target, _, _) =>
        disable_owned "clear owned system proxy" target (ctxErr e)
    end.

Definition SystemProxyStatus_read : M (result SystemProxyStatus) :=
  check! lockMaintenance e in
  let! r :=
    (if negb (has_sysProxy o) then st_ret (Err backend_unavailable)
     else
       check! ctxErr e in
       let! m := st_get in
       match resolveSystemProxyTarget (MixedAddr (settings m)) with
       | Err x => st_ret (Err x)
       | Ok (target, _, _) =>
           let! observed := proxy_Get in
           match observed with
           | Err x => st_ret (Err (upstream "read system proxy state" (Some x)))
           | Ok observed =>
               let! s := gets (buildSystemProxyStatus (SystemProxyDesired (settings m)) target observed) in st_ret (Ok s)
           end
       end) in
  do! unlock in st_ret r.

End Service.

(** ** Lemmas *)

(** A server that is written as a host and a port. *)
Definition normal_server (s : string) : Prop :=
  exists host port, s = NormalizeServer host port /\ 1 <= port <= 65535 /\ host <> ""%string /\ TrimSpace host = host /\
    has_char "[" host = false /\ has_char "]" host = false.

Section Lemmas.
Context {Env FS : Type} `{SettingsFile Env FS} (o : Options) (e : environment Env).

(** The contract of the backend: a call that reports success has done it. *)
Definition reliable : Prop :=
  forall n q p p', os_write e n q p = (p', None) ->
    match q with
    | BackendEnable host port => p' = mkProxyState true (NormalizeServer host port)
    | BackendDisable => ps_Enabled p' = false
    end.

(** Only the system proxy may have changed. *)
Definition os_frame (w w' : Manager FS) : Prop := exists p n, w' = set_clock n (set_osProxy p w).

Lemma os_frame_refl (w : Manager FS) : os_frame w w.
Proof. exists (osProxy w), (clock w). by destruct w. Qed.

Lemma proxy_Get_spec (w w' : Manager FS) (r : result ProxyState) :
  proxy_Get e w = (r, w') -> later w w' /\ forall p, r = Ok p -> p = osProxy w.
Proof.
  unfold proxy_Get, tick. st_unfold. cbn. intros [= <- <-]. split; [apply later_ticked|].
  destruct (read_err e (clock w)); by intros p [= <-].
Qed.

Lemma os_call_spec (q : proxy_request) (w w' : Manager FS) (x : option error) :
  os_call e q w = (x, w') -> os_frame w w' /\ exists n, os_write e n q (osProxy w) = (osProxy w', x).
Proof.
  unfold os_call, tick. st_unfold. cbn. destruct (os_write e (clock w) q (osProxy w)) as [p y] eqn:Hw.
  intros [= <- <-]. split; [by exists p, (S (clock w))|]. by exists (clock w).
Qed.

Lemma proxy_Enable_spec (host : string) (port : Z) (w w' : Manager FS) (x : option error) :
  proxy_Enable e host port w = (x, w') ->
  os_frame w w' /\
  (x = None -> reliable -> host <> ""%string -> TrimSpace host = host ->
   osProxy w' = mkProxyState true (NormalizeServer host port)).
Proof.
  unfold proxy_Enable, normalizeEnableArgs. case_if; [intros [= <- <-]; split; [apply os_frame_refl|done]|].
  intros Hc. apply os_call_spec in Hc as [Hf [n Hw]]. split; [done|]. intros -> Hrel Hne Htrim.
  apply Hrel in Hw. rewrite Htrim in Hw. by destruct (String.eqb_spec host "").
Qed.

Lemma digits_without (c : ascii) (s : string) : is_digit c = false -> all_digits s = true -> has_char c s = false.
Proof.
  intros Hc. induction s as [|d s IH]; [done|]. cbn. intros Hs. apply andb_prop in Hs as [Hd Hs].
  rewrite IH by done. destruct (Ascii.eqb_spec d c); [congruence|done].
Qed.

Lemma Itoa_plain (port : Z) :
  1 <= port <= 65535 ->
  has_char ":" (Itoa port) = false /\ has_char "[" (Itoa port) = false /\ has_char "]" (Itoa port) = false /\
  Itoa port <> ""%string /\ Atoi (Itoa port) = Some port.
Proof.
  intros Hp. destruct (Itoa_pos_head port) as (c & s & Hi & _); [lia|].
  assert (Hd : all_digits (Itoa port) = true).
  { pose proof (Itoa_canonical port ltac:(lia)) as Hc. rewrite Hi in *.
    cbn in *. destruct s; cbn in *; [by rewrite Hc|]. apply andb_prop in Hc as [Hc1 Hc2]. apply andb_prop in Hc1 as [Hc1 _]. by rewrite Hc1, Hc2. }
  split_and!; [by apply digits_without|by apply digits_without|by apply digits_without|by rewrite Hi|].
  apply Atoi_Itoa. unfold two63. lia.
Qed.

Lemma restoreSystemProxy_spec (observed : ProxyState) (w w' : Manager FS) (x : option error) :
  restoreSystemProxy e observed w = (x, w') ->
  os_frame w w' /\
  (x = None -> ps_Enabled observed = true /\ (reliable -> normal_server (ps_Server observed) -> osProxy w' = observed)).
Proof.
  unfold restoreSystemProxy. destruct (ps_Enabled observed) eqn:He; cbn [negb];
    [|intros [= <- <-]; split; [apply os_frame_refl|done]].
  destruct (SplitHostPort (ps_Server observed)) as [[host portText]|] eqn:Hs;
    [|intros [= <- <-]; split; [apply os_frame_refl|done]].
  case_if; [intros [= <- <-]; split; [apply os_frame_refl|done]|].
  destruct (Atoi portText) as [port|] eqn:Ha; [|intros [= <- <-]; split; [apply os_frame_refl|done]].
  case_if; [intros [= <- <-]; split; [apply os_frame_refl|done]|].
  intros Hen. apply proxy_Enable_spec in Hen as [Hf Hen]. split; [done|]. intros ->. split; [done|].
  intros Hrel (h & p & Hserver & Hport & Hne & Htrim & Hb1 & Hb2).
  destruct (Itoa_plain p Hport) as (Hc & Hl & Hr & _ & Hatoi).
  rewrite Hserver in Hs. unfold NormalizeServer in Hs. rewrite Split_Join in Hs by done. injection Hs as <- <-.
  rewrite Hatoi in Ha. injection Ha as <-. rewrite Hen by done. destruct observed as [b s]. cbn in *. by subst.
Qed.

(** The degraded state: visible, and closed to mutations. *)
Definition fenced (w : Manager FS) : Prop :=
  mutationDegraded w = true /\ Health (store w) = "degraded"%string /\
  forall e' : environment Env, fst (lockMutation o e' w) <> None.

(** After a compensation the settings and the proxy are back, or the fence is up. *)
Lemma compensateSystemProxy_spec (op : Operation) (c : settingsCandidate) (observed : ProxyState) (cause x : error)
    (restoreLive : bool) (w w' : Manager FS) :
  compensateSystemProxy o e op c observed cause restoreLive w = (x, w') -> fresh (op_IfRevision op) w ->
  (persisted o w -> persisted o w') /\
  (fenced w' \/
   settings w' = cand_before c /\
   (if restoreLive
    then ps_Enabled observed = true /\ (reliable -> normal_server (ps_Server observed) -> osProxy w' = observed)
    else osProxy w' = osProxy w)).
Proof.
  unfold compensateSystemProxy. intros Hc Hfresh. apply st_bind_inv in Hc as ([cr rb] & w1 & Hr & Hc).
  apply restoreSettings_spec in Hr as ((s0 & g0 & f0 & n0 & Hw1) & Hper & Hset).
  apply st_bind_inv in Hc as (live & w2 & Hl & Hc).
  assert (Hw2 : os_frame w1 w2 /\
    (live = None ->
     if restoreLive
     then ps_Enabled observed = true /\ (reliable -> normal_server (ps_Server observed) -> osProxy w2 = observed)
     else osProxy w2 = osProxy w1)).
  { destruct restoreLive; [apply restoreSystemProxy_spec in Hl as [Hf Hl]; split; [done|]; intros ->; by apply Hl|].
    injection Hl as <- <-. split; [apply os_frame_refl|done]. }
  destruct Hw2 as ((p & n & Hw2) & Hlive).
  assert (Hsame : settings w2 = settings w1 /\ (persisted o w -> persisted o w2) /\ fresh (op_IfRevision op) w2 /\ osProxy w1 = osProxy w)
    by (subst w2 w1; cbn; split_and!; auto).
  destruct Hsame as (Hs2 & Hper2 & Hfr2 & Hos1).
  assert (Hdeg : forall causes y w3, updateStateLocked (mkCommandMeta (op_ID op) (op_Source op) (op_IfRevision op)) (degrade causes) w2 = (y, w3) ->
    (persisted o w -> persisted o w3) /\ fenced w3).
  { intros causes [s y] w3 Hu. apply updateState_degrade in Hu as (_ & Hd & Hh & Hs & Hf & _ & _); [|done].
    split; [unfold persisted in *; by rewrite Hs, Hf|]. split; [done|]. split; [done|]. intros e'. by apply degraded_fence. }
  destruct rb as [rb|], live as [live|]; try (apply st_bind_inv in Hc as ([s y] & w3 & Hu & Hc); injection Hc as _ <-;
    apply Hdeg in Hu as [? ?]; auto).
  injection Hc as _ <-. split; [done|]. right. split; [congruence|]. specialize (Hlive eq_refl).
  destruct restoreLive; [done|]. congruence.
Qed.

(** The outcome of a change, relative to the state before it. *)
Definition proxy_settled (w w' : Manager FS) (enable : bool) (target : string) (r : result SystemProxyStatus) : Prop :=
  (persisted o w -> persisted o w') /\
  match r with
  | Ok s =>
      settings w' = with_SystemProxyDesired enable (settings w) /\ sp_Target s = target /\
      if enable then IsOwned (osProxy w') target = true else ps_Enabled (osProxy w') = false
  | Err _ =>
      fenced w' \/
      settings w' = settings w /\
      (reliable -> (ps_Enabled (osProxy w) = true -> normal_server (ps_Server (osProxy w))) -> osProxy w' = osProxy w)
  end.

Lemma apply_proxy_frame (enable : bool) (observed : ProxyState) (target host : string) (port : Z) (w w' : Manager FS)
    (x : option error) :
  apply_proxy e enable observed target host port w = (x, w') -> os_frame w w'.
Proof.
  unfold apply_proxy. repeat case_if; intros Hb.
  - apply st_bind_inv in Hb as (y & w1 & Hy & [= _ <-]). by apply proxy_Enable_spec in Hy as [Hf _].
  - apply st_bind_inv in Hb as (y & w1 & Hy & [= _ <-]). by apply os_call_spec in Hy as [Hf _].
  - injection Hb as _ <-. apply os_frame_refl.
Qed.

Lemma commit_proxy_spec (op : Operation) (enable : bool) (target host : string) (port : Z) (w w' : Manager FS)
    (r : result SystemProxyStatus) :
  commit_proxy o e op enable (osProxy w) target host port w = (r, w') -> fresh (op_IfRevision op) w ->
  proxy_settled w w' enable target r.
Proof.
  unfold commit_proxy. intros Hc Hfresh.
  apply st_try_inv in Hc as [(x & -> & Hu)|(c & w1 & Hu & Hc)];
    apply updateSettings_spec in Hu as ((s0 & g0 & f0 & n0 & Hw1) & Hper1 & Hu).
  { split; [done|]. right. split; [done|]. intros _ _. by rewrite Hw1. }
  destruct Hu as (Hbefore & [= Hafter] & _ & Hset1 & _).
  (* every failure from here on compensates, from a state that differs in the proxy only *)
  assert (Hfail : forall x live w2 w3 y, os_frame w1 w2 ->
    (live = false -> osProxy w2 = osProxy w1) ->
    compensateSystemProxy o e op c (osProxy w) x live w2 = (y, w3) -> proxy_settled w w3 enable target (Err y)).
  { intros x live w2 w3 y (p & n & Hw2) Hkeep Hcomp. apply compensateSystemProxy_spec in Hcomp as [Hp Hcomp];
      [|by subst w2 w1]. assert (Hper2 : persisted o w -> persisted o w2) by (intros; subst w2; by apply Hper1).
    split; [auto|]. destruct Hcomp as [Hf|[Hs Hl]]; [by left|right]. split; [congruence|]. intros Hrel Hn.
    destruct live; [destruct Hl as [He Hl]; auto|]. rewrite Hl, Hkeep by done. by rewrite Hw1. }
  apply st_bind_inv in Hc as (d1 & w2 & Hd1 & Hc). apply ctxErr_later in Hd1 as [n1 Hw2].
  assert (Hf2 : os_frame w1 w2) by (exists (osProxy w1), n1; subst w2; by destruct w1).
  destruct d1 as [x|].
  { apply st_bind_inv in Hc as (y & w3 & Hcomp & [= <- <-]). eapply Hfail; [exact Hf2| |exact Hcomp]. intros _. by rewrite Hw2. }
  apply st_bind_inv in Hc as (ap & w3 & Hap & Hc). apply apply_proxy_frame in Hap as (p3 & n3 & Hw3).
  assert (Hf3 : os_frame w1 w3) by (exists p3, n3; by subst w3 w2).
  destruct ap as [x|].
  { apply st_bind_inv in Hc as (y & w4 & Hcomp & [= <- <-]). eapply (Hfail _ true); [exact Hf3|discriminate|exact Hcomp]. }
  apply st_bind_inv in Hc as (d2 & w4 & Hd2 & Hc). apply ctxErr_later in Hd2 as [n4 Hw4].
  assert (Hf4 : os_frame w1 w4) by (exists p3, n4; by subst w4 w3 w2).
  destruct d2 as [x|].
  { apply st_bind_inv in Hc as (y & w5 & Hcomp & [= <- <-]). eapply (Hfail _ true); [exact Hf4|discriminate|exact Hcomp]. }
  apply st_bind_inv in Hc as (cf & w5 & Hcf & Hc). apply proxy_Get_spec in Hcf as [[n5 Hw5] Hcf].
  assert (Hf5 : os_frame w1 w5) by (exists p3, n5; by subst w5 w4 w3 w2).
  destruct (confirm_proxy enable target cf) as [x|] eqn:Hconf.
  { apply st_bind_inv in Hc as (y & w6 & Hcomp & [= <- <-]). eapply (Hfail _ true); [exact Hf5|discriminate|exact Hcomp]. }
  destruct cf as [cf|x]; [|discriminate Hconf]. rewrite (Hcf cf eq_refl) in Hconf.
  assert (Hw : settings w5 = settings w1 /\ (persisted o w1 -> persisted o w5) /\ fresh (op_IfRevision op) w5 /\ osProxy w5 = osProxy w4)
    by (subst w5 w4 w3 w2 w1; done).
  destruct Hw as (Hs5 & Hp5 & Hfr5 & Hos5). unfold st_bind at 1 in Hc. rewrite updateState_keep in Hc by done.
  cbn in Hc. injection Hc as <- <-. split; [by auto|]. cbn. split; [congruence|]. split; [done|].
  rewrite Hos5. revert Hconf. unfold confirm_proxy. destruct enable; cbn [negb andb].
  - by destruct (IsOwned (osProxy w4) target).
  - by destruct (ps_Enabled (osProxy w4)).
Qed.

End Lemmas.

Section Mutation.
Context {Env FS : Type} `{SettingsFile Env FS} (o : Options) (e : environment Env).

(** The change is refused before anything is written, or it is committed for
    the target of the settings after the ownership check. *)
Lemma mutateSystemProxy_inv (op : Operation) (enable force : bool) (w w' : Manager FS) (r : result SystemProxyStatus) :
  mutateSystemProxy o e op enable force w = (r, w') ->
  (exists n b x, r = Err x /\ w' = set_clock n (set_stop b w)) \/
  exists n target host port w2,
    resolveSystemProxyTarget (MixedAddr (settings w)) = Ok (target, host, port) /\
    check_proxy enable force (osProxy w) target = None /\ fresh (op_IfRevision op) w /\
    commit_proxy o e op enable (osProxy w) target host port (set_clock n w) = (r, w2) /\ w' = set_stop false w2.
Proof.
  unfold mutateSystemProxy. intros Hr.
  assert (Hkeep : forall n, set_clock n w = set_clock n (set_stop (stopCoreOnUnlock w) w)) by (by destruct w).
  case_if_in Hr.
  { injection Hr as <- <-. left. exists (clock w), (stopCoreOnUnlock w), backend_unavailable. split; [done|]. by destruct w. }
  apply st_check_inv in Hr as [(x & -> & Hl)|(w1 & Hl & Hr)]; apply lockMutation_spec in Hl as [[n ->] _].
  { left. exists n, (stopCoreOnUnlock w), x. auto. }
  apply st_bind_inv in Hr as (r1 & w2 & Hr & Hu). injection Hu as <- <-.
  apply st_check_inv in Hr as [(x & -> & Hc)|(w3 & Hc & Hr)]; apply ctxErr_later in Hc as [n1 ->].
  { left. exists n1, false, x. done. }
  apply st_check_inv in Hr as [(x & -> & Hc)|(w3 & Hc & Hr)]; apply checkIfRevision_spec in Hc as [-> Hc].
  { left. exists n1, false, x. done. }
  specialize (Hc eq_refl). unfold st_bind at 1, st_get in Hr. cbn beta iota in Hr.
  change (settings (set_clock n1 (set_clock n w))) with (settings w) in Hr.
  destruct (resolveSystemProxyTarget (MixedAddr (settings w))) as [[[target host] port]|x] eqn:Ht.
  2:{ injection Hr as <- <-. left. exists n1, false, x. done. }
  apply st_bind_inv in Hr as (ob & w4 & Hob & Hr). apply proxy_Get_spec in Hob as [[n4 ->] Hob].
  destruct ob as [ob|x]; [|injection Hr as <- <-; left; by eexists n4, false, _].
  specialize (Hob ob eq_refl). cbn in Hob. subst ob.
  destruct (check_proxy enable force (osProxy w) target) as [x|] eqn:Hch; [injection Hr as <- <-; left; by eexists n4, false, _|].
  apply st_check_inv in Hr as [(x & -> & Hcx)|(w5 & Hcx & Hr)]; apply ctxErr_later in Hcx as [n5 ->].
  { left. exists n5, false, x. done. }
  right. exists n5, target, host, port, w2. split_and!; try done. Qed.

Lemma disable_owned_unowned (what target : string) (w w' : Manager FS) (cleared : st (Manager FS) (option error)) (x : option error) :
  disable_owned e what target cleared w = (x, w') -> IsOwned (osProxy w) target = false -> later w w'.
Proof.
  unfold disable_owned. intros Hd Ho. apply st_bind_inv in Hd as (ob & w1 & Hob & Hd).
  apply proxy_Get_spec in Hob as [Hl Hob]. destruct ob as [ob|y]; [|by injection Hd as _ <-].
  rewrite (Hob ob eq_refl), Ho in Hd. by injection Hd as _ <-.
Qed.

End Mutation.

(** ** Theorems *)

(** C22. Enabling or disabling the system proxy settles.  On success the wish is
    saved, nothing else of the settings changed, and the operating system was
    seen to use the daemon's server (or no proxy).  On failure the settings are
    as before, in memory and on disk, and so is the system proxy if its server
    is written as a host and a port and the backend does what it reports;
    otherwise the daemon is marked degraded and refuses every further mutation. *)
Theorem system_proxy_settles {Env FS : Type} `{SettingsFile Env FS} (o : Options) (e : environment Env)
    (op : Operation) (enable force : bool) (w : Manager FS) :
  persisted o w ->
  let '(r, w') := mutateSystemProxy o e op enable force w in
  persisted o w' /\
  match r with
  | Ok s =>
      settings w' = with_SystemProxyDesired enable (settings w) /\
      exists host port, resolveSystemProxyTarget (MixedAddr (settings w)) = Ok (sp_Target s, host, port) /\
        if enable then IsOwned (osProxy w') (sp_Target s) = true else ps_Enabled (osProxy w') = false
  | Err _ =>
      (mutationDegraded w' = true /\ Health (store w') = "degraded"%string /\
         forall e' : environment Env, fst (lockMutation o e' w') <> None) \/
      settings w' = settings w /\
      (reliable e -> (ps_Enabled (osProxy w) = true -> normal_server (ps_Server (osProxy w))) -> osProxy w' = osProxy w)
  end.
Proof.
  intros Hp. destruct (mutateSystemProxy o e op enable force w) as [r w'] eqn:Hm.
  apply mutateSystemProxy_inv in Hm as [(n & b & x & -> & ->)|(n & target & host & port & w2 & Ht & _ & Hf & Hc & ->)].
  { split; [exact Hp|]. right. split; [done|]. done. }
  apply (commit_proxy_spec o e op enable target host port (set_clock n w)) in Hc as [Hper Hc]; [|exact Hf].
  split; [by apply Hper|]. destruct r as [s|x].
  - destruct Hc as (Hs & <- & Hos). split; [exact Hs|]. exists host, port. split; [exact Ht|exact Hos].
  - destruct Hc as [(Hd & Hh & _)|Hc]; [left|right; exact Hc]. split; [exact Hd|]. split; [exact Hh|].
    intros e'. by apply degraded_fence.
Qed.

(** A proxy that another application has set is never touched unless this is
    forced: enabling without force, disabling, clearing at shutdown and the
    restoration at startup of a wish for no proxy leave the operating system's
    proxy and the settings as they are, and the first two report an error. *)
Theorem foreign_proxy_untouched {Env FS : Type} `{SettingsFile Env FS} (o : Options) (e : environment Env)
    (op : Operation) (w : Manager FS) (target host : string) (port : Z) :
  resolveSystemProxyTarget (MixedAddr (settings w)) = Ok (target, host, port) ->
  IsForeign (osProxy w) target = true ->
  (let '(r, w') := mutateSystemProxy o e op true false w in
   is_Ok r = false /\ osProxy w' = osProxy w /\ settings w' = settings w) /\
  (let '(r, w') := mutateSystemProxy o e op false false w in
   is_Ok r = false /\ osProxy w' = osProxy w /\ settings w' = settings w) /\
  (let '(_, w') := ClearOwnedSystemProxy o e w in osProxy w' = osProxy w /\ settings w' = settings w) /\
  (SystemProxyDesired (settings w) = false ->
   let '(_, w') := ApplyDesiredSystemProxy o e w in osProxy w' = osProxy w /\ settings w' = settings w).
Proof.
  intros Ht Hfor.
  assert (Hown : IsOwned (osProxy w) target = false).
  { unfold IsForeign in Hfor. destruct (negb (ps_Enabled (osProxy w))); [done|]. case_if_in Hfor; [done|]. by breflect. }
  assert (Hmut : forall enable, let '(r, w') := mutateSystemProxy o e op enable false w in
    is_Ok r = false /\ osProxy w' = osProxy w /\ settings w' = settings w).
  { intros enable. destruct (mutateSystemProxy o e op enable false w) as [r w'] eqn:Hm.
    apply mutateSystemProxy_inv in Hm as [(n & b & x & -> & ->)|(n & t & h & p & w2 & Ht' & Hch & _)]; [done|].
    exfalso. rewrite Ht in Ht'. injection Ht' as <- <- <-. unfold check_proxy in Hch. rewrite Hfor in Hch. by destruct enable. }
  split; [apply Hmut|]. split; [apply Hmut|]. split.
  - unfold ClearOwnedSystemProxy. case_if; [done|]. unfold st_bind at 1, st_get. cbn beta iota. rewrite Ht.
    destruct (disable_owned _ _ _ _ w) as [x w'] eqn:Hd. apply disable_owned_unowned in Hd as [n ->]; done.
  - intros Hdes. unfold ApplyDesiredSystemProxy. case_if; [done|]. unfold st_bind at 1.
    destruct (lockMaintenance e w) as [x w1] eqn:Hl. apply lockMaintenance_later in Hl as [[n ->] _].
    destruct x as [x|]; [done|]. unfold st_bind at 1. unfold st_bind at 1.
    destruct (ctxErr e (set_clock n w)) as [x w1] eqn:Hx. apply ctxErr_later in Hx as [n1 ->].
    destruct x as [x|]; [done|]. unfold st_bind at 1, st_get. cbn beta iota.
    change (settings (set_clock n1 (set_clock n w))) with (settings w). rewrite Ht, Hdes.
    destruct (disable_owned _ _ _ _ _) as [x w'] eqn:Hd. apply disable_owned_unowned in Hd as [n2 ->]; done.
Qed.

(** ** Witnesses *)

#[local] Instance ex_file : SettingsFile bool (option Settings) := memory_file.

Definition ex_manager (p : ProxyState) : Manager (option Settings) :=
  mkManager example_settings 7 false false false None false zero_Snapshot None "" ""
    (Some (canonical example_settings)) (mkKernel ∅ None) p 0.

Definition ex_options : Options := mkOptions false "" "settings.yaml" true true false.

(** A backend that does what it is told; saving always works. *)
Definition ex_backend (q : proxy_request) (p : ProxyState) : ProxyState :=
  match q with
  | BackendEnable host port => mkProxyState true (NormalizeServer host port)
  | BackendDisable => mkProxyState false ""
  end.

Definition ex_env (failing : nat -> bool) : environment bool :=
  mkEnvironment None (fun _ => None) (fun _ => None) (fun _ k => (k, None))
    (fun n q p => if failing n then (p, Some (EText "denied")) else (ex_backend q p, None)) (fun _ => true).

Definition ex_op : Operation := mkOperation "op-1" "cli" (Some 0).

Lemma ex_reliable (failing : nat -> bool) : reliable (ex_env failing).
Proof. intros n q p p'. cbn. destruct (failing n); intros [= <-]. by destruct q. Qed.

Definition ex_foreign : ProxyState := mkProxyState true "10.0.0.1:3128".

Lemma ex_foreign_normal : normal_server (ps_Server ex_foreign).
Proof. exists "10.0.0.1"%string, 3128. split_and!; done. Qed.

(** Overwriting a foreign proxy by force fails at the first OS write; the proxy
    is put back. *)
Lemma system_proxy_settles_witness :
  let '(r, w') := mutateSystemProxy ex_options (ex_env (fun n => (n =? 6)%nat)) ex_op true true (ex_manager ex_foreign) in
  is_Ok r = false /\ settings w' = example_settings /\ osProxy w' = ex_foreign.
Proof.
  pose proof (system_proxy_settles ex_options (ex_env (fun n => (n =? 6)%nat)) ex_op true true (ex_manager ex_foreign)
    (fun _ => eq_refl)) as Hw.
  assert (Hbad : let '(r, w') := mutateSystemProxy ex_options (ex_env (fun n => (n =? 6)%nat)) ex_op true true (ex_manager ex_foreign) in
    is_Ok r = false /\ mutationDegraded w' = false) by (vm_compute; split; reflexivity).
  destruct (mutateSystemProxy ex_options _ ex_op true true (ex_manager ex_foreign)) as [[s|x] w']; destruct Hbad as [Hr Hd];
    [discriminate Hr|].
  destruct Hw as [_ [[Hd' _]|[Hs Hos]]]; [rewrite Hd in Hd'; discriminate Hd'|].
  split; [reflexivity|]. split; [exact Hs|]. apply Hos; [apply ex_reliable|]. intros _. exact ex_foreign_normal.
Defined.

Lemma foreign_proxy_untouched_witness :
  let '(r, w') := mutateSystemProxy ex_options (ex_env (fun _ => false)) ex_op false false (ex_manager ex_foreign) in
  is_Ok r = false /\ osProxy w' = ex_foreign /\ settings w' = example_settings.
Proof.
  refine (proj1 (proj2 (foreign_proxy_untouched ex_options (ex_env (fun _ => false)) ex_op (ex_manager ex_foreign)
    "127.0.0.1:9190" "127.0.0.1" 9190 _ _))); vm_compute; reflexivity.
Defined.

(** A failed first activation cannot be undone by the same calls: nothing was
    enabled before, so the daemon closes itself to mutations. *)
Example failed_activation_degrades :
  let '(r, w') := mutateSystemProxy ex_options (ex_env (fun n => (n =? 6)%nat)) ex_op true false (ex_manager (mkProxyState false "")) in
  (is_Ok r, mutationDegraded w', SystemProxyDesired (settings w'), osProxy w') = (false, true, false, mkProxyState false "").
Proof. vm_compute. reflexivity. Qed.

Example parseGetWebProxy_example `{CaseFold} :
  parseGetWebProxy ("Enabled: Yes" ++ String LF ("Server: ::1" ++ String LF ("Port: 9190" ++ String LF "")))
  = mkProxyState true "[::1]:9190".
Proof. reflexivity. Qed.
