(* ===== verification/Operations.v ===== *)
(** * Operations: each requested operation runs once

    Models the table of operations of [Manager.doOperation]
    ([internal/runtime/manager.go]): calls with the same key share one execution,
    up to 256 operations are remembered, and finished ones are forgotten to make
    room.  Calls of many goroutines interleave: the model is a step relation
    whose steps are the critical section at the start of a call, the end of an
    execution, the return of a waiting call and the end of a waiting call's context.
    Go iterates over a map in any order, so the order of an eviction is chosen by
    the step.  A result is a value of [R], the pair of result and error; an execution
    that [executeOnce] refuses because the core must be reinstalled ends with that
    error.  The warnings, which the waiting calls get by reference, are not in [R]. *)

From Stdlib Require Import Ascii.
From S2P Require Import Prelude GoStd.

Section Table.
Context {R : Type}.

Definition max_operations : nat := 256.

(** [operationEntry]: [None] until [done] is closed. *)
Abbreviation entry := (option R).

Record table := mkTable {
  entries : list entry;                     (** all entries ever made; an entry is its index *)
  operations : gmap string nat;             (** the map [m.operations] *)
  running : list (string * nat);            (** executions with an entry *)
  waiting : list (string * nat);            (** calls that wait for an entry *)
  executions : list (string * option nat);  (** all executions ever started, with their entry *)
  answers : list (nat * option R)           (** what calls returned for an entry; [None] is the error of their context *)
}.

Definition empty_table : table := mkTable [] ∅ [] [] [] [].

Definition finished (l : list entry) (id : nat) : bool :=
  match l !! id with Some (Some _) => true | _ => false end.

(** The loop that forgets finished operations, over the keys in [order]. *)
Fixpoint evict (l : list entry) (order : list string) (ops : gmap string nat) : gmap string nat :=
  match order with
  | [] => ops
  | k :: order =>
      let ops := match ops !! k with
                 | Some id => if finished l id then delete k ops else ops
                 | None => ops
                 end in
      if (size ops <? max_operations)%nat then ops else evict l order ops
  end.

(** An empty operation ID leaves a key that ends with a colon. *)
Fixpoint last_char (s : string) : option ascii :=
  match s with
  | EmptyString => None
  | String c EmptyString => Some c
  | String _ s => last_char s
  end.

Definition anonymous (key : string) : bool :=
  match last_char key with None => true | Some c => Ascii.eqb c ":" end.

Inductive decision :=
| Refused                   (** the daemon is shutting down *)
| Unrecorded                (** execute without an entry *)
| Join (id : nat)           (** wait for an entry, or take its result *)
| Recorded (id : nat).      (** execute for a new entry *)

Definition execute_unrecorded (key : string) (t : table) : decision * table :=
  (Unrecorded, mkTable (entries t) (operations t) (running t) (waiting t) ((key, None) :: executions t) (answers t)).

(** A call up to the end of its critical section; [owns] says that it is part of the
    running update of the core, [closing] that the daemon shuts down. *)
Definition begin_operation (owns closing : bool) (order : list string) (key : string) (t : table) : decision * table :=
  if owns then execute_unrecorded key t
  else if closing then (Refused, t)
  else if anonymous key then execute_unrecorded key t
  else match operations t !! key with
  | Some id =>
      (Join id, mkTable (entries t) (operations t) (running t) ((key, id) :: waiting t) (executions t) (answers t))
  | None =>
      let ops := if (max_operations <=? size (operations t))%nat then evict (entries t) order (operations t)
                 else operations t in
      if (max_operations <=? size ops)%nat then
        execute_unrecorded key (mkTable (entries t) ops (running t) (waiting t) (executions t) (answers t))
      else
        let id := length (entries t) in
        (Recorded id, mkTable (entries t ++ [None]) (<[key := id]> ops) ((key, id) :: running t) (waiting t)
                        ((key, Some id) :: executions t) (answers t))
  end.

(** The end of an execution: the result is stored, [done] closed, and the call that
    executed returns it. *)
Definition finish_operation (id : nat) (r : R) (t : table) : table :=
  mkTable (<[id := Some r]> (entries t)) (operations t)
    (filter (fun p => p.2 <> id) (running t)) (waiting t) (executions t) ((id, Some r) :: answers t).

(** A waiting call ends: with the result, or with the error of its context. *)
Definition answer (id : nat) (r : option R) (l : list (string * nat)) (t : table) : table :=
  mkTable (entries t) (operations t) (running t) l (executions t) ((id, r) :: answers t).

Inductive step : table -> table -> Prop :=
| step_call (owns closing : bool) (order : list string) (key : string) (t : table) :
    order ≡ₚ elements (dom (operations t)) -> step t (snd (begin_operation owns closing order key t))
| step_finish (key : string) (id : nat) (r : R) (t : table) :
    (key, id) ∈ running t -> step t (finish_operation id r t)
| step_return (key : string) (id : nat) (r : R) (t : table) (l l' : list (string * nat)) :
    waiting t = l ++ (key, id) :: l' -> entries t !! id = Some (Some r) -> step t (answer id (Some r) (l ++ l') t)
| step_cancel (key : string) (id : nat) (t : table) (l l' : list (string * nat)) :
    waiting t = l ++ (key, id) :: l' -> step t (answer id None (l ++ l') t).

Definition reachable (t : table) : Prop := rtc step empty_table t.

(** ** Lemmas *)

Lemma evict_subset (l : list entry) (order : list string) (ops : gmap string nat) : evict l order ops ⊆ ops.
Proof.
  revert ops. induction order as [|k order IH]; intros ops; cbn; [done|].
  set (ops' := match ops !! k with Some _ => _ | None => _ end).
  assert (Hs : ops' ⊆ ops).
  { subst ops'. destruct (ops !! k); [|done]. case_if; [apply delete_subseteq|done]. }
  case_if; [done|]. by transitivity ops'.
Qed.

(** Only finished operations are forgotten. *)
Lemma evict_keeps (l : list entry) (order : list string) (ops : gmap string nat) (k : string) (id : nat) :
  ops !! k = Some id -> finished l id = false -> evict l order ops !! k = Some id.
Proof.
  revert ops. induction order as [|k' order IH]; intros ops Hk Hf; cbn; [done|].
  assert (Hs : match ops !! k' with Some i => if finished l i then delete k' ops else ops | None => ops end !! k = Some id).
  { destruct (ops !! k') as [i|] eqn:Hk'; [|done]. destruct (finished l i) eqn:Hi; [|done].
    rewrite lookup_delete_ne; [done|]. intros ->. congruence. }
  case_if; auto.
Qed.

(** Where nothing can be forgotten, nothing is finished. *)
Lemma evict_full (l : list entry) (order : list string) (ops : gmap string nat) :
  (size ops <= max_operations)%nat -> (max_operations <= size (evict l order ops))%nat ->
  evict l order ops = ops /\ forall k id, k ∈ order -> ops !! k = Some id -> finished l id = false.
Proof.
  intros Hsize. induction order as [|k order IH]; cbn [evict]; intros Hfull; [by split; [|intros ? ? ?%not_elem_of_nil]|].
  destruct (ops !! k) as [i|] eqn:Hk; [destruct (finished l i) eqn:Hi|].
  - exfalso. assert (Hd : size (delete k ops) = Nat.pred (size ops)) by (rewrite map_size_delete, Hk; done).
    assert (Hp : size ops <> 0%nat) by (intros Hz%map_size_empty_iff; by subst ops).
    assert (Hlt : (size (delete k ops) <? max_operations)%nat = true) by (apply Nat.ltb_lt; lia).
    rewrite Hlt in Hfull. lia.
  - case_if; [apply Nat.ltb_lt in Heqb; lia|]. destruct (IH Hfull) as [He Hall]. split; [done|].
    intros k' id [->|Hk']%elem_of_cons Hl; [congruence|eauto].
  - case_if; [apply Nat.ltb_lt in Heqb; lia|]. destruct (IH Hfull) as [He Hall]. split; [done|].
    intros k' id [->|Hk']%elem_of_cons Hl; [congruence|eauto].
Qed.

(** The invariant of the table. *)
Record table_ok (t : table) : Prop := {
  ok_size : (size (operations t) <= max_operations)%nat;
  ok_named : forall k id, operations t !! k = Some id -> anonymous k = false;
  ok_ops : forall k id, operations t !! k = Some id -> (k, Some id) ∈ executions t;
  ok_waiting : forall k id, (k, id) ∈ waiting t -> (k, Some id) ∈ executions t;
  ok_running : forall k id, (k, id) ∈ running t -> operations t !! k = Some id /\ entries t !! id = Some None;
  ok_pending : forall id, entries t !! id = Some None -> exists k, (k, id) ∈ running t;
  ok_once : NoDup (omap snd (executions t));
  ok_executed : forall k id, (k, Some id) ∈ executions t -> (id < length (entries t))%nat;
  ok_answers : forall id r, (id, Some r) ∈ answers t -> entries t !! id = Some (Some r)
}.

Lemma execute_unrecorded_ok (key : string) (t : table) : table_ok t -> table_ok (snd (execute_unrecorded key t)).
Proof.
  intros [H1' H2' H3' H4' H5' H6' H7' H8' H9']. constructor; cbn; auto.
  - intros k id Hk. right. auto.
  - intros k id Hk. right. auto.
  - intros k id [[=]|Hk]%elem_of_cons. eauto.
Qed.

Lemma begin_ok (owns closing : bool) (order : list string) (key : string) (t : table) :
  table_ok t -> table_ok (snd (begin_operation owns closing order key t)).
Proof.
  intros Ht. unfold begin_operation. destruct owns; [by apply execute_unrecorded_ok|]. destruct closing; [done|].
  destruct (anonymous key) eqn:Han; [by apply execute_unrecorded_ok|].
  destruct (operations t !! key) as [id|] eqn:Hk.
  - destruct Ht as [H1' H2' H3' H4' H5' H6' H7' H8' H9']. constructor; cbn; auto.
    intros k i [[= -> ->]|Hi]%elem_of_cons; auto.
  - set (ops := if (max_operations <=? size (operations t))%nat then _ else _).
    assert (Hsub : ops ⊆ operations t) by (subst ops; case_if; [apply evict_subset|done]).
    assert (Hkeep : forall k id, operations t !! k = Some id -> entries t !! id = Some None -> ops !! k = Some id).
    { intros k id Hk1 Hn. subst ops. case_if; [|done]. apply evict_keeps; [done|]. unfold finished. by rewrite Hn. }
    assert (Hnone : ops !! key = None).
    { destruct (ops !! key) as [i|] eqn:Hi; [|done]. eapply lookup_weaken in Hi; [|exact Hsub]. congruence. }
    assert (Hdown : forall k id, ops !! k = Some id -> operations t !! k = Some id) by (intros k id Hi; by eapply lookup_weaken).
    destruct Ht as [H1' H2' H3' H4' H5' H6' H7' H8' H9']. case_if.
    + apply execute_unrecorded_ok. constructor; cbn; eauto.
      * transitivity (size (operations t)); [by apply map_subseteq_size|done].
      * intros k id Hi. destruct (H5' k id Hi). auto.
    + apply Nat.leb_gt in Heqb. clearbody ops. constructor; cbn.
      * rewrite map_size_insert_None by done. lia.
      * intros k id [[<- <-]|[_ Hi]]%lookup_insert_Some; eauto.
      * intros k id [[<- <-]|[_ Hi]]%lookup_insert_Some; [by left|right; auto].
      * intros k id Hi. right. auto.
      * intros k id. rewrite elem_of_cons. intros [[= -> ->]|Hi].
        { rewrite lookup_insert_eq. split; [done|]. by rewrite list_lookup_middle. }
        destruct (H5' k id Hi) as [Ha Hb]. assert (Hne : k <> key) by (intros ->; congruence).
        rewrite lookup_insert_ne by done. split; [auto|]. by rewrite lookup_app_l by (eapply lookup_lt_Some; eauto).
      * intros id. rewrite lookup_snoc_Some. intros [[Hlt Hi]|[-> _]]; [|exists key; by left].
        destruct (H6' id Hi) as [k Hk']. exists k. by right.
      * constructor; [|done]. intros (i & Hi & He)%list_elem_of_omap. destruct i as [k i]. cbn in He. subst i.
        apply H8' in Hi. lia.
      * intros k id Hi. rewrite length_app. cbn. apply elem_of_cons in Hi as [[= -> ->]|Hi]; [lia|]. apply H8' in Hi. lia.
      * intros id r Hi. apply H9' in Hi. by rewrite lookup_app_l by (eapply lookup_lt_Some; eauto).
Qed.

Lemma finish_ok (key : string) (id : nat) (r : R) (t : table) :
  table_ok t -> (key, id) ∈ running t -> table_ok (finish_operation id r t).
Proof.
  intros Ht Hrun. pose proof (ok_running t Ht key id Hrun) as [_ Hid].
  pose proof (lookup_lt_Some _ _ _ Hid) as Hlt. destruct Ht as [H1' H2' H3' H4' H5' H6' H7' H8' H9'].
  constructor; cbn; rewrite ?length_insert; auto.
  - intros k i Hi. apply list_elem_of_filter in Hi as [Hne Hi]. cbn in Hne. destruct (H5' k i Hi) as [Ha Hb].
    split; [done|]. by rewrite list_lookup_insert_ne.
  - intros i Hi. destruct (decide (i = id)) as [->|Hne]; [by rewrite list_lookup_insert_eq in Hi|].
    rewrite list_lookup_insert_ne in Hi by done. destruct (H6' i Hi) as [k Hk]. exists k.
    apply list_elem_of_filter. done.
  - intros i r' [[= -> ->]|Hi]%elem_of_cons; [by rewrite list_lookup_insert_eq|].
    apply H9' in Hi. rewrite list_lookup_insert_ne; [done|]. congruence.
Qed.

(** Taking a call out of the waiting ones. *)
Lemma answer_ok (key : string) (id : nat) (r : option R) (l l' : list (string * nat)) (t : table) :
  table_ok t -> waiting t = l ++ (key, id) :: l' -> (forall x, r = Some x -> entries t !! id = Some (Some x)) ->
  table_ok (answer id r (l ++ l') t).
Proof.
  intros [H1' H2' H3' H4' H5' H6' H7' H8' H9'] Hw Hr. constructor; cbn; auto.
  - intros k i Hi. apply H4'. rewrite Hw. rewrite elem_of_app, elem_of_cons. apply elem_of_app in Hi. tauto.
  - intros i x [[= -> <-]|Hi]%elem_of_cons; auto.
Qed.

Lemma step_ok (t t' : table) : step t t' -> table_ok t -> table_ok t'.
Proof.
  intros Hs Ht. destruct Hs; eauto using begin_ok, finish_ok.
  - eapply answer_ok; eauto. by intros x [= <-].
  - by eapply answer_ok.
Qed.

Lemma empty_ok : table_ok empty_table.
Proof.
  constructor; cbn; try (intros; set_solver); [rewrite map_size_empty; unfold max_operations; lia|constructor].
Qed.

Lemma reachable_ok (t : table) : reachable t -> table_ok t.
Proof.
  unfold reachable. intros Hr. assert (H : forall a b, rtc step a b -> table_ok a -> table_ok b).
  { induction 1; eauto using step_ok. }
  eapply H; [exact Hr|exact empty_ok].
Qed.

(** A stored result is final. *)
Lemma step_result (t t' : table) (id : nat) (r : R) :
  step t t' -> table_ok t -> entries t !! id = Some (Some r) -> entries t' !! id = Some (Some r).
Proof.
  intros Hs Ht Hid. destruct Hs as [owns closing order key t _|key i r' t Hrun|key i r' t l l' Hw Hi|key i t l l' Hw]; [|cbn|done|done].
  - unfold begin_operation. destruct owns, closing, (anonymous key); try done. destruct (operations t !! key); try done.
    repeat case_if; try done; cbn; by rewrite lookup_app_l by (eapply lookup_lt_Some; eauto).
  - destruct (ok_running t Ht key i Hrun) as [_ Hn]. rewrite list_lookup_insert_ne; [done|]. congruence.
Qed.

(** An operation is forgotten only when it is finished and the table is full. *)
Lemma step_remembers (t t' : table) (key : string) (id : nat) :
  step t t' -> table_ok t -> operations t !! key = Some id ->
  operations t' !! key = Some id \/ finished (entries t) id = true /\ size (operations t) = max_operations.
Proof.
  intros Hs Ht Hk. destruct Hs as [owns closing order key' t _|? ? ? ? ?|? ? ? ? ? ? ? ?|? ? ? ? ? ?]; [|by left..].
  unfold begin_operation. destruct owns, closing, (anonymous key'); try (by left). destruct (operations t !! key') eqn:Hk'; [by left|].
  pose proof (ok_size t Ht) as Hsize.
  assert (Hev : evict (entries t) order (operations t) !! key = Some id \/ finished (entries t) id = true).
  { destruct (finished (entries t) id) eqn:Hf; [by right|left; by apply evict_keeps]. }
  destruct (Nat.leb_spec max_operations (size (operations t))) as [Hfull|Hroom].
  - destruct Hev as [Hev|Hf]; [left|right; split; [done|lia]]. case_if; cbn; [done|].
    rewrite lookup_insert_ne; [done|]. intros ->. congruence.
  - left. case_if; cbn; [done|]. rewrite lookup_insert_ne; [done|]. intros ->. congruence.
Qed.

(** The executions of an entry. *)
Definition executions_of (id : nat) (l : list (string * option nat)) : list (string * option nat) :=
  List.filter (fun e => bool_decide (e.2 = Some id)) l.

Lemma executions_of_once (l : list (string * option nat)) (k : string) (id : nat) :
  NoDup (omap snd l) -> (k, Some id) ∈ l -> executions_of id l = [(k, Some id)].
Proof.
  assert (Hnone : forall l, id ∉ omap snd l -> executions_of id l = []).
  { clear. induction l as [|[k [i|]] l IH]; cbn; intros Hni; [done| |by apply IH].
    apply not_elem_of_cons in Hni as [Hne Hni]. rewrite bool_decide_false by congruence. by apply IH. }
  induction l as [|[k' [i|]] l IH]; cbn; intros Hnd Hin; [by apply not_elem_of_nil in Hin| |].
  - apply NoDup_cons in Hnd as [Hni Hnd]. apply elem_of_cons in Hin as [[= -> ->]|Hin].
    + rewrite bool_decide_true by done. f_equal. by apply Hnone.
    + rewrite bool_decide_false; [by apply IH|]. intros [= ->]. apply Hni, list_elem_of_omap. by exists (k, Some id).
  - apply elem_of_cons in Hin as [[=]|Hin]. by apply IH.
Qed.

End Table.

(** ** Theorems *)

(** C23. Every recorded operation runs once, however the calls interleave and
    whichever finished operations are forgotten first.  In every reachable state at
    most 256 operations are remembered.  An operation that is remembered, running or
    finished, has been executed exactly once, and a call with its key joins it and
    starts no execution.  It is forgotten only when it is finished and the table is
    full; a call with a key executes without being recorded only where all 256
    remembered operations are unfinished.  A call that waits for an operation can
    return its result, or the operation is still being executed; every call for it,
    the executing one included, returned its one result, which never changes, or the
    error of its own context. *)
Theorem operations_run_once {R : Type} (t : table (R := R)) :
  reachable t ->
  (size (operations t) <= 256)%nat /\
  (forall key id, operations t !! key = Some id -> executions_of id (executions t) = [(key, Some id)]) /\
  (forall order key id, operations t !! key = Some id ->
     fst (begin_operation false false order key t) = Join id /\
     executions (snd (begin_operation false false order key t)) = executions t) /\
  (forall t' key id, step t t' -> operations t !! key = Some id ->
     operations t' !! key = Some id \/ (exists r, entries t !! id = Some (Some r)) /\ size (operations t) = 256%nat) /\
  (forall order key, order ≡ₚ elements (dom (operations t)) -> anonymous key = false ->
     fst (begin_operation false false order key t) = Unrecorded ->
     size (operations t) = 256%nat /\ forall k id, operations t !! k = Some id -> entries t !! id = Some None) /\
  (forall key id, (key, id) ∈ waiting t ->
     executions_of id (executions t) = [(key, Some id)] /\
     ((exists r, entries t !! id = Some (Some r)) \/ exists key', (key', id) ∈ running t)) /\
  (forall id r, (id, Some r) ∈ answers t -> entries t !! id = Some (Some r)) /\
  (forall t' id r, step t t' -> entries t !! id = Some (Some r) -> entries t' !! id = Some (Some r)).
Proof.
  intros Hr. pose proof (reachable_ok t Hr) as Ht. destruct (Ht) as [H1' H2' H3' H4' H5' H6' H7' H8' H9'].
  assert (Hdone : forall id, finished (entries t) id = true -> exists r, entries t !! id = Some (Some r)).
  { intros id. unfold finished. destruct (entries t !! id) as [[r|]|]; eauto; done. }
  split; [exact H1'|]. split; [intros key id Hk; apply executions_of_once; auto|].
  split; [intros order key id Hk; unfold begin_operation; by rewrite (H2' _ _ Hk), Hk|].
  split. { intros t' key id Hs Hk. destruct (step_remembers t t' key id Hs Ht Hk) as [?|[? ?]]; [by left|right; auto]. }
  split.
  { intros order key Ho Han. unfold begin_operation. rewrite Han. destruct (operations t !! key); [done|].
    destruct (Nat.leb_spec max_operations (size (operations t))) as [Hfull|Hroom]; case_if; try done; intros _; apply Nat.leb_le in Heqb; [|lia].
    destruct (evict_full (entries t) order (operations t) H1' Heqb) as [_ Hall]. split; [unfold max_operations in *; lia|].
    intros k id Hk. assert (Hin : k ∈ order) by (rewrite Ho; apply elem_of_elements, elem_of_dom; eauto).
    specialize (Hall k id Hin Hk). unfold finished in Hall. pose proof (H8' k id (H3' _ _ Hk)) as Hlt.
    apply lookup_lt_is_Some in Hlt as [[r|] Hl]; rewrite Hl in Hall; done. }
  split.
  { intros key id Hw. apply H4' in Hw. split; [by apply executions_of_once|].
    apply H8' in Hw. apply lookup_lt_is_Some in Hw as [[r|] Hw]; eauto. }
  split; [done|]. intros t' id r Hs Hid. by eapply step_result.
Qed.

(** ** Witnesses *)

(** Three calls share an execution: its own, one that returns the result and one
    whose context ends. *)
Definition ex_key : string := "routing:op-1".

Lemma operations_run_once_witness :
  exists t : table (R := nat),
    answers t = [(0, Some 7); (0, Some 7); (0, None)]%nat /\ executions_of 0 (executions t) = [(ex_key, Some 0%nat)].
Proof.
  set (t1 := snd (begin_operation (R := nat) false false [] ex_key empty_table)).
  set (t2 := snd (begin_operation false false [ex_key] ex_key t1)).
  set (t3 := snd (begin_operation false false [ex_key] ex_key t2)).
  set (t4 := answer 0%nat None [(ex_key, 0%nat)] t3).
  set (t5 := finish_operation 0%nat 7%nat t4).
  set (t6 := answer 0%nat (Some 7%nat) [] t5).
  assert (Hreach : reachable t6).
  { apply (rtc_l _ _ t1); [by apply (step_call false false [] ex_key)|].
    apply (rtc_l _ _ t2); [by apply (step_call false false [ex_key] ex_key)|].
    apply (rtc_l _ _ t3); [by apply (step_call false false [ex_key] ex_key)|].
    apply (rtc_l _ _ t4); [by apply (step_cancel ex_key 0%nat t3 [(ex_key, 0%nat)] [])|].
    apply (rtc_l _ _ t5); [apply (step_finish ex_key 0%nat 7%nat); left|].
    apply (rtc_l _ _ t6); [|apply rtc_refl].
    by apply (step_return ex_key 0%nat 7%nat t5 [] []). }
  exists t6. split; [reflexivity|].
  exact (proj1 (proj2 (operations_run_once t6 Hreach)) ex_key 0%nat eq_refl).
Defined.
