(* ===== verification/Utf8.v ===== *)
(** * Utf8: the part of [unicode/utf8] that the log capture uses

    [DecodeRune], [RuneStart] and [FullRune] on byte strings, with the facts about
    cutting a valid text at the start of a rune. *)

From Stdlib Require Import Ascii.
From S2P Require Import Prelude GoStd.

(** [utf8.RuneStart]. *)
Definition RuneStart (c : ascii) : bool := negb (cont (byte c)).

(** The length a first byte announces; 1 for ASCII and for bytes that start no rune. *)
Definition announced (x : Z) : nat :=
  if (194 <=? x) && (x <=? 223) then 2
  else if (224 <=? x) && (x <=? 239) then 3
  else if (240 <=? x) && (x <=? 244) then 4
  else 1.

(** The range of the second byte after a first byte. *)
Definition second_ok (x y : Z) : bool :=
  if x =? 224 then (160 <=? y) && (y <=? 191)
  else if x =? 237 then (128 <=? y) && (y <=? 159)
  else if x =? 240 then (144 <=? y) && (y <=? 191)
  else if x =? 244 then (128 <=? y) && (y <=? 143)
  else cont y.

Definition bytes4 (s : string) : Z * option Z * option Z * option Z :=
  let get n := match String.get n s with Some c => Some (byte c) | None => None end in
  (default 0 (get 0%nat), get 1%nat, get 2%nat, get 3%nat).

(** The size [utf8.DecodeRune] gives for a valid encoding at the start of a text;
    0 if there is none ([RuneError] of width 1, or an empty text). *)
Definition rune_len (s : string) : nat :=
  match s with
  | EmptyString => 0
  | _ =>
      let '(x, y, z, u) := bytes4 s in
      if x <? 128 then 1%nat
      else match announced x with
      | 2%nat => match y with Some y => if cont y then 2%nat else 0%nat | None => 0%nat end
      | 3%nat =>
          match y, z with
          | Some y, Some z => if second_ok x y && cont z then 3%nat else 0%nat
          | _, _ => 0%nat
          end
      | 4%nat =>
          match y, z, u with
          | Some y, Some z, Some u => if second_ok x y && cont z && cont u then 4%nat else 0%nat
          | _, _, _ => 0%nat
          end
      | _ => 0%nat
      end
  end.

(** [utf8.FullRune]: the text starts with a whole rune or with bytes that no
    continuation makes one. *)
Definition FullRune (s : string) : bool :=
  match s with
  | EmptyString => false
  | _ =>
      let '(x, y, z, _) := bytes4 s in
      if (announced x <=? String.length s)%nat then true
      else match y with
      | Some y => if negb (second_ok x y) then true
                  else match z with Some z => negb (cont z) | None => false end
      | None => false
      end
  end.

(** ** Lemmas *)

Lemma rune_len_le (s : string) : (rune_len s <= String.length s)%nat.
Proof.
  destruct s as [|a [|b [|c [|d s]]]]; cbn -[second_ok cont announced byte Z.ltb]; [lia|..];
    (destruct (byte a <? 128); [lia|]); destruct (announced (byte a)) as [|[|[|[|[|n]]]]];
    repeat case_if; lia.
Qed.

Lemma rune_len_max (s : string) : (rune_len s <= 4)%nat.
Proof.
  destruct s as [|a [|b [|c [|d s]]]]; cbn -[second_ok cont announced byte Z.ltb]; [lia|..];
    (destruct (byte a <? 128); [lia|]); destruct (announced (byte a)) as [|[|[|[|[|n]]]]];
    repeat case_if; lia.
Qed.

Lemma announced_cases (x : Z) :
  (announced x = 2%nat /\ 194 <= x <= 223) \/ (announced x = 3%nat /\ 224 <= x <= 239) \/
  (announced x = 4%nat /\ 240 <= x <= 244) \/
  (announced x = 1%nat /\ ~ 194 <= x <= 223 /\ ~ 224 <= x <= 239 /\ ~ 240 <= x <= 244).
Proof.
  unfold announced. destruct (Z.leb_spec 194 x), (Z.leb_spec x 223), (Z.leb_spec 224 x), (Z.leb_spec x 239),
    (Z.leb_spec 240 x), (Z.leb_spec x 244); cbn; (left; lia) || (right; left; lia) || (right; right; left; lia) || (right; right; right; lia).
Qed.

Lemma in_range (a x b : Z) : (a <=? x) && (x <=? b) = bool_decide (a <= x <= b).
Proof.
  destruct (Z.leb_spec a x), (Z.leb_spec x b); cbn; symmetry;
    (apply bool_decide_eq_true_2; lia) || (apply bool_decide_eq_false_2; lia).
Qed.

Lemma second_ok_3 (x y : Z) : 224 <= x <= 239 ->
  (if x =? 224 then (160 <=? y) && (y <=? 191)
   else if x =? 237 then (128 <=? y) && (y <=? 159) else cont y) = second_ok x y.
Proof. intros Hx. unfold second_ok. destruct (Z.eqb_spec x 240), (Z.eqb_spec x 244); [lia..|done]. Qed.

Lemma second_ok_4 (x y : Z) : 240 <= x <= 244 ->
  (if x =? 240 then (144 <=? y) && (y <=? 191)
   else if x =? 244 then (128 <=? y) && (y <=? 143) else cont y) = second_ok x y.
Proof. intros Hx. unfold second_ok. destruct (Z.eqb_spec x 224), (Z.eqb_spec x 237); [lia..|done]. Qed.

(** A text is valid if it starts with a rune and the rest is valid. *)
Lemma ValidString_step (s : string) :
  s <> ""%string -> ValidString s = (0 <? rune_len s)%nat && ValidString (drop (rune_len s) s).
Proof.
  destruct s as [|a s1]; [done|]. intros _. cbn [ValidString]. unfold rune_len.
  change (fst (fst (fst (bytes4 (String a s1))))) with (byte a).
  destruct s1 as [|b s2]; [|destruct s2 as [|c s3]; [|destruct s3 as [|d s4]]];
    cbn [bytes4 String.get default]; unfold id; (destruct (Z.ltb_spec (byte a) 128); [done|]);
    rewrite ?in_range;
    destruct (announced_cases (byte a)) as [[-> Hx]|[[-> Hx]|[[-> Hx]|[-> Hx]]]];
    repeat first
      [ rewrite (bool_decide_eq_true_2 (194 <= byte a <= 223)) by lia
      | rewrite (bool_decide_eq_false_2 (194 <= byte a <= 223)) by lia
      | rewrite (bool_decide_eq_true_2 (224 <= byte a <= 239)) by lia
      | rewrite (bool_decide_eq_false_2 (224 <= byte a <= 239)) by lia
      | rewrite (bool_decide_eq_true_2 (240 <= byte a <= 244)) by lia
      | rewrite (bool_decide_eq_false_2 (240 <= byte a <= 244)) by lia ];
    try done.
  all: rewrite <- ?in_range, ?second_ok_3, ?second_ok_4 by lia.
  all: try (destruct (cont (byte b)); done).
  all: repeat match goal with |- context [second_ok ?x ?y] => destruct (second_ok x y); cbn end; try done.
  all: repeat match goal with |- context [cont ?x] => destruct (cont x); cbn end; done.
Qed.

Lemma length_take (n : nat) (s : string) : String.length (take n s) = Nat.min n (String.length s).
Proof. revert s. induction n as [|n IH]; intros [|c s]; cbn; [done..|]. by rewrite IH. Qed.
Lemma length_drop (n : nat) (s : string) : String.length (drop n s) = (String.length s - n)%nat.
Proof. revert s. induction n as [|n IH]; intros [|c s]; cbn; [done..|]. apply IH. Qed.
Lemma take_drop (n : nat) (s : string) : (take n s ++ drop n s)%string = s.
Proof.
  revert s. induction n as [|n IH]; intros [|c s]; try done.
  change (String c (take n s ++ drop n s) = String c s)%string. by rewrite IH.
Qed.
Lemma take_whole (n : nat) (s : string) : (String.length s <= n)%nat -> take n s = s.
Proof. revert s. induction n as [|n IH]; intros [|c s]; cbn; intros; try done; [lia|]. rewrite IH by lia. done. Qed.
Lemma take_take (n m : nat) (s : string) : take n (take m s) = take (Nat.min n m) s.
Proof. revert m s. induction n as [|n IH]; intros [|m] [|c s]; cbn; try done. by rewrite IH. Qed.
Lemma take_add (n m : nat) (s : string) : take (n + m) s = (take n s ++ take m (drop n s))%string.
Proof.
  revert s. induction n as [|n IH]; intros [|c s]; try done; [by destruct m|].
  change (String c (take (n + m) s) = String c (take n s ++ take m (drop n s)))%string. by rewrite IH.
Qed.
Lemma drop_take (n m : nat) (s : string) : drop n (take m s) = take (m - n) (drop n s).
Proof.
  revert m s. induction n as [|n IH]; intros m s; [by rewrite Nat.sub_0_r|].
  destruct m as [|m]; [by destruct s|]. destruct s as [|c s]; [by destruct (S m - S n)%nat|]. cbn. apply IH.
Qed.
Lemma drop_drop (n m : nat) (s : string) : drop n (drop m s) = drop (m + n) s.
Proof. revert s. induction m as [|m IH]; intros s; [done|]. destruct s as [|c s]; [by destruct n|]. cbn. apply IH. Qed.
Lemma take_append (a b : string) : take (String.length a) (a ++ b) = a.
Proof. induction a as [|c a IH]; [by destruct b|]. cbn. f_equal. exact IH. Qed.
Lemma get_drop (n m : nat) (s : string) : String.get n (drop m s) = String.get (m + n) s.
Proof. revert s. induction m as [|m IH]; intros s; [done|]. destruct s as [|c s]; [by destruct n|]. cbn. apply IH. Qed.
Lemma get_take (n m : nat) (s : string) : (n < m)%nat -> String.get n (take m s) = String.get n s.
Proof.
  revert m s. induction n as [|n IH]; intros [|m] [|c s] Hn; cbn; try lia; try done. apply IH. lia.
Qed.
Lemma get_length (n : nat) (s : string) : (n < String.length s)%nat -> exists c, String.get n s = Some c.
Proof. revert s. induction n as [|n IH]; intros [|c s]; cbn; try lia; [eauto|]. intros. apply IH. lia. Qed.

(** The bytes of a rune after the first are continuation bytes. *)
Lemma rune_inner (s : string) (n : nat) :
  (0 < n < rune_len s)%nat -> exists c, String.get n s = Some c /\ RuneStart c = false.
Proof.
  destruct s as [|a [|b [|c [|d s]]]]; unfold rune_len; cbn [bytes4 String.get default]; unfold id;
    (try lia); (destruct (byte a <? 128); [lia|]);
    destruct (announced_cases (byte a)) as [[-> Hx]|[[-> Hx]|[[-> Hx]|[-> Hx]]]]; try lia;
    case_if; try lia; breflect; intros Hn; destruct n as [|[|[|[|n]]]]; try lia; cbn [String.get];
    eexists; (split; [reflexivity|]); unfold RuneStart; apply negb_false_iff; try done;
    unfold second_ok in *; unfold cont in *; repeat case_if_in H; breflect; rewrite andb_true_iff, !Z.leb_le; lia.
Qed.

Lemma rune_first (s : string) : (0 < rune_len s)%nat -> exists c, String.get 0 s = Some c /\ RuneStart c = true.
Proof.
  destruct s as [|a s]; [cbn; lia|]. unfold rune_len. cbn [bytes4 String.get default]. unfold id. intros Hn.
  exists a. split; [done|]. unfold RuneStart, cont. apply negb_true_iff, andb_false_iff.
  revert Hn. destruct (Z.ltb_spec (byte a) 128); [rewrite Z.leb_gt; lia|].
  destruct (announced_cases (byte a)) as [[-> Hx]|[[-> Hx]|[[-> Hx]|[-> Hx]]]]; rewrite !Z.leb_gt; lia.
Qed.

(** Whether a text starts with a rune depends on the bytes of the rune only. *)
Lemma rune_len_prefix (s t : string) :
  (0 < rune_len s)%nat -> take (rune_len s) t = take (rune_len s) s -> rune_len t = rune_len s.
Proof.
  destruct s as [|a s1]; [cbn; lia|]. unfold rune_len at 1 2 3 5. cbn [bytes4 String.get default]. unfold id.
  destruct (byte a <? 128) eqn:Ha.
  { intros _. destruct t as [|a' t]; [done|]. cbn. intros [= ->]. by rewrite Ha. }
  destruct (announced_cases (byte a)) as [[Hn Hx]|[[Hn Hx]|[[Hn Hx]|[Hn Hx]]]]; rewrite Hn; try lia;
    destruct s1 as [|b s2]; cbn [String.get]; try lia;
    try (destruct s2 as [|c s3]; cbn [String.get]; try lia);
    try (destruct s3 as [|d s4]; cbn [String.get]; try lia);
    case_if; try lia; intros _ Ht; cbn [take] in Ht;
    destruct t as [|a' [|b' t]]; try discriminate; try (destruct t as [|c' t]; try discriminate);
    try (destruct t as [|d' t]; try discriminate); injection Ht; intros; subst; unfold rune_len;
    cbn [bytes4 String.get default]; unfold id; rewrite Ha, Hn; try (match goal with Hc : _ = true |- _ => by rewrite Hc end).
Qed.

(** A valid text starts with a rune, unless it is empty. *)
Lemma ValidString_rune (s : string) :
  ValidString s = true -> s <> ""%string -> (0 < rune_len s)%nat /\ ValidString (drop (rune_len s) s) = true.
Proof. intros Hv Hs. rewrite ValidString_step in Hv by done. apply andb_true_iff in Hv as [Hr Hv]. by apply Nat.ltb_lt in Hr. Qed.

Lemma ValidString_cons (r s : string) :
  (0 < rune_len r)%nat -> ValidString s = true -> ValidString (take (rune_len r) r ++ s) = true.
Proof.
  intros Hr Hs. pose proof (rune_len_le r) as Hle.
  assert (Hl : String.length (take (rune_len r) r) = rune_len r) by (rewrite length_take; lia).
  assert (Hk : rune_len (take (rune_len r) r ++ s) = rune_len r).
  { apply rune_len_prefix; [done|]. pose proof (take_append (take (rune_len r) r) s) as Ht. by rewrite Hl in Ht. }
  rewrite ValidString_step.
  - rewrite Hk. apply andb_true_iff. split; [by apply Nat.ltb_lt|].
    pose proof (drop_append (take (rune_len r) r) s) as Hd. rewrite Hl in Hd. by rewrite Hd.
  - intros He. rewrite He in Hk. cbn in Hk. lia.
Qed.

Lemma ValidString_app (a b : string) : ValidString a = true -> ValidString b = true -> ValidString (a ++ b) = true.
Proof.
  remember (String.length a) as n eqn:Hn. revert a Hn. induction (lt_wf n) as [n _ IH]. intros a -> Ha Hb.
  destruct (decide (a = ""%string)) as [->|Hne]; [done|].
  apply ValidString_rune in Ha as [Hr Ha]; [|done].
  rewrite <- (take_drop (rune_len a) a), append_assoc. apply ValidString_cons; [done|].
  pose proof (rune_len_le a). eapply IH; [|reflexivity|done|done]. rewrite length_drop. lia.
Qed.

(** A valid text cut at the start of a rune is valid. *)
Definition boundary (n : nat) (s : string) : Prop := forall c, String.get n s = Some c -> RuneStart c = true.

Lemma ValidString_cut (s : string) (n : nat) : ValidString s = true -> boundary n s -> ValidString (take n s) = true.
Proof.
  remember (String.length s) as m eqn:Hm. revert s n Hm. induction (lt_wf m) as [m _ IH]. intros s n -> Hv Hb.
  destruct (decide (s = ""%string)) as [->|Hne]; [by destruct n|].
  apply ValidString_rune in Hv as [Hr Hv]; [|done]. pose proof (rune_len_le s).
  destruct (decide (n = 0%nat)) as [->|Hn0]; [by destruct s|].
  destruct (decide (n < rune_len s)%nat) as [Hlt|Hge].
  { destruct (rune_inner s n ltac:(lia)) as (c & Hc & Hs). by rewrite (Hb c Hc) in Hs. }
  replace n with (rune_len s + (n - rune_len s))%nat by lia. rewrite take_add.
  apply ValidString_cons; [done|]. eapply IH; [|reflexivity|done|].
  - rewrite length_drop. lia.
  - intros c. rewrite get_drop. replace (rune_len s + (n - rune_len s))%nat with n by lia. apply Hb.
Qed.

Lemma ValidString_drop (s : string) (n : nat) : ValidString s = true -> boundary n s -> ValidString (drop n s) = true.
Proof.
  remember (String.length s) as m eqn:Hm. revert s n Hm. induction (lt_wf m) as [m _ IH]. intros s n -> Hv Hb.
  destruct (decide (s = ""%string)) as [->|Hne]; [by destruct n|].
  destruct (decide (n = 0%nat)) as [->|Hn0]; [by destruct s|].
  apply ValidString_rune in Hv as [Hr Hv]; [|done]. pose proof (rune_len_le s).
  destruct (decide (n < rune_len s)%nat) as [Hlt|Hge].
  { destruct (rune_inner s n ltac:(lia)) as (c & Hc & Hs). by rewrite (Hb c Hc) in Hs. }
  replace n with (rune_len s + (n - rune_len s))%nat by lia. rewrite <- drop_drop.
  eapply IH; [|reflexivity|done|].
  - rewrite length_drop. lia.
  - intros c. rewrite get_drop. replace (rune_len s + (n - rune_len s))%nat with n by lia. apply Hb.
Qed.

Lemma drop_nonempty (n : nat) (s : string) : (n < String.length s)%nat -> drop n s <> ""%string.
Proof. intros Hn He. apply (f_equal String.length) in He. rewrite length_drop in He. cbn in He. lia. Qed.

(** The start of a valid text is a boundary, and so is the end of its first rune. *)
Lemma boundary_0 (s : string) : ValidString s = true -> boundary 0 s.
Proof.
  intros Hv c Hc. destruct (decide (s = ""%string)) as [->|Hne]; [done|].
  apply ValidString_rune in Hv as [Hr _]; [|done]. destruct (rune_first s Hr) as (c' & Hc' & Hs). congruence.
Qed.

Lemma boundary_next (s : string) (n : nat) :
  ValidString s = true -> boundary n s -> boundary (n + rune_len (drop n s)) s.
Proof.
  intros Hv Hb c Hc. pose proof (ValidString_drop s n Hv Hb) as Hd.
  destruct (decide (drop n s = ""%string)) as [He|Hne].
  { rewrite He in Hc. cbn in Hc. rewrite Nat.add_0_r in Hc. by apply Hb. }
  apply ValidString_rune in Hd as [_ Hd]; [|done]. rewrite drop_drop in Hd.
  apply (boundary_0 _ Hd). by rewrite get_drop, Nat.add_0_r.
Qed.

(** [FullRune] of a part of a rune. *)
Lemma FullRune_part (s : string) (n : nat) :
  (0 < n <= rune_len s)%nat -> FullRune (take n s) = (n =? rune_len s)%nat.
Proof.
  destruct s as [|a [|b [|c [|d s]]]]; unfold rune_len; cbn [bytes4 String.get default]; unfold id; (try lia);
    (destruct (Z.ltb_spec (byte a) 128);
     [intros Hn; replace n with 1%nat by lia; cbn [take]; unfold FullRune; cbn [bytes4 String.get default String.length]; unfold id;
      destruct (announced_cases (byte a)) as [[_ Hx]|[[_ Hx]|[[_ Hx]|[-> Hx]]]]; [lia..|done]|]);
    destruct (announced_cases (byte a)) as [[Ha Hx]|[[Ha Hx]|[[Ha Hx]|[Ha Hx]]]]; rewrite Ha; try lia;
    case_if; try lia; breflect; intros Hn; destruct n as [|[|[|[|[|n]]]]]; try lia;
    unfold FullRune; cbn [take bytes4 String.get default String.length]; unfold id; rewrite Ha; cbn [Nat.leb Nat.eqb]; try done;
    repeat match goal with Hs : second_ok _ _ = true |- _ => rewrite Hs; clear Hs end; cbn [negb]; try done;
    repeat match goal with Hs : cont _ = true |- _ => rewrite Hs; clear Hs end; try done.
Qed.
