(* ===== verification/Capture.v ===== *)
(** * Capture: the output of the core as log lines

    Models [internal/logging/capture.go]: arbitrary chunks of the core's output
    are split into lines, capped, cleaned to valid UTF-8 and logged one record per
    line.  The reference is the whole output split at line feeds.  The level of a
    record and the handler it is given to are left out: a record is its message
    and its two marks. *)

From Stdlib Require Import Ascii.
From S2P Require Import Prelude GoStd Utf8.

Definition MaxCaptureLineBytes : Z := 2 ^ 18.
#[local] Opaque MaxCaptureLineBytes.

(** A log record: message, truncated, invalid_utf8. *)
Record record := mkRecord {
  msg : string;
  truncated : bool;
  invalid : bool
}.

Record lineCaptureWriter := mkWriter {
  buf : string;
  trunc : bool;
  dropping : bool;       (** the field [drop] *)
  closed : bool;
  records : list record  (** what was logged so far *)
}.

Definition NewLineCaptureWriter : lineCaptureWriter := mkWriter "" false false false [].

Definition newline : string := String LF EmptyString.
Definition carriage_return : string := String CR EmptyString.

Definition appendCapped (buf chunk : string) : string * bool :=
  let room := MaxCaptureLineBytes - len buf in
  let room := if room <? 0 then 0 else room in
  if len chunk <=? room then ((buf ++ chunk)%string, false)
  else ((buf ++ take (Z.to_nat room) chunk)%string, true).

(** The encoding of [utf8.RuneError]. *)
Definition replacement : string := String (chr 239) (String (chr 191) (String (chr 189) EmptyString)).

(** The loop of [sanitizeUTF8]; the text gets shorter in every round. *)
Fixpoint sanitize_loop (fuel : nat) (b : string) : string * bool :=
  match fuel with
  | O => (""%string, false)
  | S fuel =>
      match b with
      | EmptyString => (""%string, false)
      | String _ rest =>
          if (rune_len b =? 0)%nat then
            let '(out, _) := sanitize_loop fuel rest in ((replacement ++ out)%string, true)
          else
            let '(out, bad) := sanitize_loop fuel (drop (rune_len b) b) in
            ((take (rune_len b) b ++ out)%string, bad)
      end
  end.

Definition sanitizeUTF8 (b : string) : string * bool :=
  if ValidString b then (b, false) else sanitize_loop (String.length b) b.

(** The last start of a rune at or before an index, or 0. *)
Fixpoint last_start (n : nat) (s : string) : nat :=
  match n with
  | O => O
  | S m => match String.get n s with
           | Some c => if RuneStart c then n else last_start m s
           | None => last_start m s
           end
  end.

(** An incomplete rune at the end of a capped line is dropped. *)
Definition drop_incomplete (line : string) : string :=
  let start := last_start (String.length line - 1) line in
  if negb (FullRune (drop start line)) then take start line else line.

(** The record [emitLine] logs for the buffer. *)
Definition line_record (buf : string) (trunc : bool) : record :=
  let line := TrimSuffix buf carriage_return in
  let line := if trunc && negb (String.eqb line "") then drop_incomplete line else line in
  let '(msg, invalid) := sanitizeUTF8 line in
  if MaxCaptureLineBytes <? len msg then
    mkRecord (take (last_start (Z.to_nat MaxCaptureLineBytes) msg) msg) true invalid
  else mkRecord msg trunc invalid.

Definition emitLine (w : lineCaptureWriter) : lineCaptureWriter :=
  mkWriter "" false false (closed w) (records w ++ [line_record (buf w) (trunc w)]).

Definition emitPartial (w : lineCaptureWriter) : lineCaptureWriter :=
  if String.eqb (buf w) "" && negb (trunc w) then mkWriter (buf w) (trunc w) false (closed w) (records w)
  else emitLine w.

Definition store_chunk (chunk : string) (w : lineCaptureWriter) : lineCaptureWriter :=
  let '(b, overflow) := appendCapped (buf w) chunk in
  mkWriter b (trunc w || overflow) (dropping w || overflow) (closed w) (records w).

(** The loop of [consume]; every round ends a line. *)
Fixpoint consume (fuel : nat) (p : string) (w : lineCaptureWriter) : lineCaptureWriter :=
  match fuel with
  | O => w
  | S fuel =>
      if String.eqb p "" then w
      else if dropping w then
        match Cut p newline with
        | None => w
        | Some (_, rest) => consume fuel rest (emitLine w)
        end
      else
        match Cut p newline with
        | None => store_chunk p w
        | Some (chunk, rest) => consume fuel rest (emitLine (store_chunk chunk w))
        end
  end.

Definition Write (p : string) (w : lineCaptureWriter) : result Z * lineCaptureWriter :=
  if closed w then (Err (ESentinel ErrClosed), w)
  else (Ok (len p), consume (S (String.length p)) p w).

Definition Flush (w : lineCaptureWriter) : option error * lineCaptureWriter :=
  if closed w then (Some (ESentinel ErrClosed), w) else (None, emitPartial w).

Definition Close (w : lineCaptureWriter) : lineCaptureWriter :=
  if closed w then w
  else
    let w := emitPartial w in
    mkWriter (buf w) (trunc w) (dropping w) true (records w).

(** ** The reference *)

(** A whole text as lines; the second part is what follows the last line feed. *)
Fixpoint split_lines (cur s : string) : list string * string :=
  match s with
  | EmptyString => ([], cur)
  | String c s =>
      if Ascii.eqb c LF then let '(ls, r) := split_lines "" s in (cur :: ls, r)
      else split_lines (cur ++ String c EmptyString) s
  end.

(** The record of a whole line. *)
Definition render (line : string) : record :=
  line_record (take (Z.to_nat MaxCaptureLineBytes) line) (MaxCaptureLineBytes <? len line).

(** The records of a text that ends with a flush. *)
Definition reference (text : string) : list record :=
  let '(ls, r) := split_lines "" text in map render (ls ++ (if String.eqb r "" then [] else [r])).

(** What the process does: chunks of output and flushes. *)
Inductive input :=
| Chunk (p : string)
| FlushNow.

Definition feed (w : lineCaptureWriter) (i : input) : lineCaptureWriter :=
  match i with Chunk p => snd (Write p w) | FlushNow => snd (Flush w) end.

(** The texts between the flushes. *)
Fixpoint segments (cur : string) (l : list input) : list string :=
  match l with
  | [] => [cur]
  | Chunk p :: l => segments (cur ++ p) l
  | FlushNow :: l => cur :: segments "" l
  end.

(** ** The writer follows the reference *)

(** The writer holds the capped part of the current line. *)
Definition holds (cur : string) (w : lineCaptureWriter) : Prop :=
  closed w = false /\ buf w = take (Z.to_nat MaxCaptureLineBytes) cur /\
  trunc w = (MaxCaptureLineBytes <? len cur) /\ dropping w = (MaxCaptureLineBytes <? len cur).

Lemma max_pos : 4 < MaxCaptureLineBytes.
Proof. Transparent MaxCaptureLineBytes. vm_compute. reflexivity. Opaque MaxCaptureLineBytes. Qed.

Lemma len_app (a b : string) : len (a ++ b) = len a + len b.
Proof. unfold len. rewrite append_length. lia. Qed.

Lemma take_app_ge (n : nat) (a b : string) :
  (String.length a <= n)%nat -> take n (a ++ b) = (a ++ take (n - String.length a) b)%string.
Proof.
  revert n. induction a as [|c a IH]; intros n Hn; [by rewrite Nat.sub_0_r|].
  destruct n as [|n]; cbn [String.length] in Hn; [lia|].
  change (String c (take n (a ++ b)) = String c (a ++ take (n - String.length a) b))%string. rewrite IH by lia. done.
Qed.

Lemma take_app_le (n : nat) (a b : string) : (n <= String.length a)%nat -> take n (a ++ b) = take n a.
Proof.
  revert a. induction n as [|n IH]; intros [|c a] Hn; cbn [String.length] in Hn; try lia; [by destruct b|done|].
  change (String c (take n (a ++ b)) = String c (take n a)). rewrite IH by lia. done.
Qed.

Lemma store_chunk_holds (cur chunk : string) (w : lineCaptureWriter) :
  holds cur w -> dropping w = false -> holds (cur ++ chunk) (store_chunk chunk w) /\
  records (store_chunk chunk w) = records w.
Proof.
  intros (Hc & Hb & Ht & Hd) Hn. rewrite Hn in Hd. rewrite <- Hd in Ht. symmetry in Hd. apply Z.ltb_ge in Hd.
  pose proof max_pos as Hm. pose proof (len_nonneg chunk).
  assert (Hb' : buf w = cur) by (rewrite Hb; apply take_whole; unfold len in Hd; lia).
  unfold store_chunk, appendCapped, holds. rewrite Hb', Ht, Hn.
  destruct (Z.ltb_spec (MaxCaptureLineBytes - len cur) 0); [lia|].
  rewrite len_app. destruct (Z.leb_spec (len chunk) (MaxCaptureLineBytes - len cur)).
  - split; [|done]. cbn. split; [done|]. split.
    { symmetry. apply take_whole. rewrite append_length. unfold len in *. lia. }
    split; symmetry; apply Z.ltb_ge; lia.
  - split; [|done]. cbn. split; [done|]. split.
    { rewrite take_app_ge by (unfold len in *; lia). do 2 f_equal. unfold len in *. lia. }
    split; symmetry; apply Z.ltb_lt; lia.
Qed.

(** A line that is already capped grows without a change. *)
Lemma dropping_holds (cur chunk : string) (w : lineCaptureWriter) :
  holds cur w -> dropping w = true -> holds (cur ++ chunk) w.
Proof.
  intros (Hc & Hb & Ht & Hd) Hn. rewrite Hn in Hd. rewrite <- Hd in Ht. symmetry in Hd. apply Z.ltb_lt in Hd.
  pose proof (len_nonneg chunk). unfold holds. rewrite Hc, Hb, Ht, Hn, len_app.
  split; [done|]. split; [rewrite take_app_le; [done|unfold len in Hd; lia]|]. split; symmetry; apply Z.ltb_lt; lia.
Qed.

Lemma emitLine_holds (cur : string) (w : lineCaptureWriter) :
  holds cur w -> holds "" (emitLine w) /\ records (emitLine w) = records w ++ [render cur].
Proof.
  intros (Hc & Hb & Ht & Hd). unfold emitLine, holds, render. cbn [closed buf trunc dropping records]. rewrite Hb, Ht.
  split; [|done]. split; [done|]. split; [by destruct (Z.to_nat MaxCaptureLineBytes)|].
  split; symmetry; apply Z.ltb_ge; unfold len; cbn; pose proof max_pos; lia.
Qed.

Lemma Cut_newline (c : ascii) (s : string) :
  Cut (String c s) newline =
  if Ascii.eqb c LF then Some (""%string, s)
  else match Cut s newline with Some (x, y) => Some (String c x, y) | None => None end.
Proof.
  cbn [Cut]. unfold newline at 1 2. cbn [String.prefix String.length].
  destruct (Ascii.eqb_spec c LF) as [->|Hc]; destruct (ascii_dec LF _) as [He|He]; try done; by destruct s.
Qed.

(** [bytes.IndexByte] and the reference. *)
Lemma split_lines_cut (s cur : string) :
  match Cut s newline with
  | None => split_lines cur s = ([], (cur ++ s)%string)
  | Some (chunk, rest) =>
      (String.length rest < String.length s)%nat /\
      split_lines cur s = let '(ls, r) := split_lines "" rest in ((cur ++ chunk)%string :: ls, r)
  end.
Proof.
  revert cur. induction s as [|c s IH]; intros cur; [cbn; by rewrite append_nil_r|].
  rewrite Cut_newline. cbn [split_lines String.length]. destruct (Ascii.eqb_spec c LF) as [->|Hc].
  - split; [lia|]. by rewrite append_nil_r.
  - specialize (IH (cur ++ String c "")%string). destruct (Cut s newline) as [[chunk rest]|].
    + destruct IH as [Hl ->]. split; [lia|]. destruct (split_lines "" rest) as [ls r]. by rewrite append_assoc.
    + rewrite IH. by rewrite append_assoc.
Qed.

Lemma consume_spec (fuel : nat) (p cur : string) (w : lineCaptureWriter) :
  (String.length p < fuel)%nat -> holds cur w ->
  let '(ls, r) := split_lines cur p in
  holds r (consume fuel p w) /\ records (consume fuel p w) = records w ++ map render ls.
Proof.
  revert p cur w. induction fuel as [|fuel IH]; intros p cur w Hf Hw; [lia|]. cbn [consume].
  destruct (String.eqb_spec p "") as [->|Hp].
  { cbn. split; [done|]. by rewrite app_nil_r. }
  pose proof (split_lines_cut p cur) as Hcut.
  assert (Hline : forall chunk rest w1, Cut p newline = Some (chunk, rest) -> holds (cur ++ chunk) w1 -> records w1 = records w ->
    let '(ls, r) := split_lines cur p in
    holds r (consume fuel rest (emitLine w1)) /\ records (consume fuel rest (emitLine w1)) = records w ++ map render ls).
  { intros chunk rest w1 Hc Hw1 Hr1. rewrite Hc in Hcut. destruct Hcut as [Hl ->].
    apply emitLine_holds in Hw1 as [Hw1 Hr]. specialize (IH rest ""%string _ ltac:(lia) Hw1).
    destruct (split_lines "" rest) as [ls r]. destruct IH as [IH1 IH2]. split; [done|].
    rewrite IH2, Hr, Hr1. cbn. by rewrite <- app_assoc. }
  destruct (dropping w) eqn:Hd; destruct (Cut p newline) as [[chunk rest]|].
  - eapply Hline; [done|by apply dropping_holds|done].
  - rewrite Hcut. split; [by apply dropping_holds|]. by rewrite app_nil_r.
  - destruct (store_chunk_holds cur chunk w Hw Hd) as [Hw1 Hr1]. by eapply Hline.
  - rewrite Hcut. destruct (store_chunk_holds cur p w Hw Hd) as [Hw1 Hr1]. split; [done|]. by rewrite app_nil_r.
Qed.

Lemma split_lines_app (a b cur : string) :
  split_lines cur (a ++ b) =
  let '(l1, r1) := split_lines cur a in let '(l2, r2) := split_lines r1 b in (l1 ++ l2, r2).
Proof.
  revert cur. induction a as [|c a IH]; intros cur.
  { change ("" ++ b)%string with b. cbn. by destruct (split_lines cur b). }
  change (String c a ++ b)%string with (String c (a ++ b)). cbn [split_lines]. case_if; rewrite IH; [|done].
  destruct (split_lines "" a) as [l1 r1]. by destruct (split_lines r1 b).
Qed.

(** The end of a text: what is left over is logged, if there is something. *)
Lemma emitPartial_holds (cur : string) (w : lineCaptureWriter) :
  holds cur w -> holds "" (emitPartial w) /\
  records (emitPartial w) = records w ++ map render (if String.eqb cur "" then [] else [cur]).
Proof.
  intros Hw. unfold emitPartial. destruct Hw as (Hc & Hb & Ht & Hd).
  destruct (String.eqb_spec cur "") as [->|Hne].
  - assert (Hb0 : buf w = ""%string) by (rewrite Hb; by destruct (Z.to_nat MaxCaptureLineBytes)).
    assert (Ht0 : trunc w = false) by (rewrite Ht; apply Z.ltb_ge; unfold len; cbn; pose proof max_pos; lia).
    rewrite Hb0, Ht0. cbn [String.eqb andb negb]. split; [|by rewrite app_nil_r].
    unfold holds. cbn [closed buf trunc dropping]. rewrite Hc. split; [done|].
    split; [by destruct (Z.to_nat MaxCaptureLineBytes)|]. split; symmetry; apply Z.ltb_ge; unfold len; cbn; pose proof max_pos; lia.
  - assert (Hb0 : String.eqb (buf w) "" = false).
    { apply String.eqb_neq. rewrite Hb. pose proof max_pos. destruct cur as [|c cur]; [done|].
      destruct (Z.to_nat MaxCaptureLineBytes) eqn:Hm; [lia|done]. }
    rewrite Hb0. cbn [andb]. by apply emitLine_holds.
Qed.

Lemma feed_spec (l : list input) (text : string) (past : list record) (w : lineCaptureWriter) :
  (let '(ls, r) := split_lines "" text in holds r w /\ records w = past ++ map render ls) ->
  records (Close (fold_left feed l w)) = past ++ concat (map reference (segments text l)).
Proof.
  revert text past w. induction l as [|[p|] l IH]; intros text past w Hw; cbn [fold_left segments map concat].
  - unfold reference. destruct (split_lines "" text) as [ls r]. destruct Hw as [Hw Hr].
    unfold Close. destruct Hw as [Hc Hw]. rewrite Hc. cbn [records].
    destruct (emitPartial_holds r w (conj Hc Hw)) as [_ ->].
    by rewrite Hr, app_nil_r, map_app, <- app_assoc.
  - apply IH. rewrite split_lines_app. destruct (split_lines "" text) as [ls r] eqn:Hs. destruct Hw as [Hw Hr].
    cbn [feed]. unfold Write. rewrite (proj1 Hw). cbn [snd].
    pose proof (consume_spec (S (String.length p)) p r w ltac:(lia) Hw) as Hcon.
    destruct (split_lines r p) as [l2 r2]. destruct Hcon as [Hcon1 Hcon2]. split; [done|].
    by rewrite Hcon2, Hr, map_app, <- app_assoc.
  - rewrite app_assoc. apply IH. cbn [split_lines]. unfold reference.
    destruct (split_lines "" text) as [ls r]. destruct Hw as [Hw Hr]. cbn [feed]. unfold Flush. rewrite (proj1 Hw). cbn [snd].
    destruct (emitPartial_holds r w Hw) as [Hw1 ->]. split; [done|]. by rewrite Hr, map_app, <- !app_assoc, app_nil_r.
Qed.

Lemma feed_open (l : list input) (w : lineCaptureWriter) : closed w = false -> closed (fold_left feed l w) = false.
Proof.
  revert w. induction l as [|i l IH]; intros w Hw; [done|]. cbn [fold_left]. apply IH.
  destruct i as [p|]; cbn [feed]; unfold Write, Flush; rewrite Hw; cbn [snd].
  - generalize (S (String.length p)) as fuel. intros fuel. revert p w Hw.
    induction fuel as [|fuel IHf]; intros p w Hw; [done|]. cbn [consume]. case_if; [done|].
    assert (Hs : forall q, closed (store_chunk q w) = false) by (intros q; unfold store_chunk; by destruct (appendCapped _ _)).
    case_if; (destruct (Cut p newline) as [[q rest]|]; [apply IHf; cbn [emitLine closed]|]); done.
  - unfold emitPartial. by case_if.
Qed.

(** ** Records are valid UTF-8 *)

Lemma last_start_spec (n : nat) (s : string) :
  let i := last_start n s in
  (i <= n)%nat /\ (0 < i -> exists c, String.get i s = Some c /\ RuneStart c = true)%nat /\
  forall j c, (i < j <= n)%nat -> String.get j s = Some c -> RuneStart c = false.
Proof.
  cbn zeta. induction n as [|n IH]; cbn [last_start].
  { split; [lia|]. split; [lia|]. intros. lia. }
  assert (Hmiss : (forall c, String.get (S n) s = Some c -> RuneStart c = false) ->
    (last_start n s <= S n)%nat /\
    (0 < last_start n s -> exists c, String.get (last_start n s) s = Some c /\ RuneStart c = true)%nat /\
    forall j c, (last_start n s < j <= S n)%nat -> String.get j s = Some c -> RuneStart c = false).
  { intros Hn. destruct IH as (H1 & H2 & H3). split; [lia|]. split; [done|]. intros j c Hj Hc.
    destruct (decide (j = S n)) as [->|]; [by apply Hn|]. apply (H3 j c); [lia|done]. }
  destruct (String.get (S n) s) as [c|] eqn:Hg.
  - destruct (RuneStart c) eqn:Hc.
    + split; [lia|]. split; [eauto|]. intros. lia.
    + apply Hmiss. by intros ? [= <-].
  - apply Hmiss. done.
Qed.

(** Going back to the start of a rune in a valid text finds a boundary. *)
Lemma last_start_boundary (n : nat) (s : string) : ValidString s = true -> boundary (last_start n s) s.
Proof.
  intros Hv. destruct (last_start_spec n s) as (_ & Hs & _).
  destruct (decide (last_start n s = 0%nat)) as [->|]; [by apply boundary_0|].
  destruct (Hs ltac:(lia)) as (c & Hc & Hr). intros c' Hc'. congruence.
Qed.

(** ... at most three bytes before, as a rune has four at most. *)
Lemma last_start_near (n : nat) (s : string) :
  ValidString s = true -> (n < String.length s)%nat -> (n < last_start n s + rune_len (drop (last_start n s) s))%nat.
Proof.
  intros Hv Hn. destruct (last_start_spec n s) as (Hle & _ & Hlast). set (i := last_start n s) in *.
  destruct (decide (n < i + rune_len (drop i s))%nat) as [|Hge]; [done|]. exfalso.
  pose proof (last_start_boundary n s Hv) as Hb. fold i in Hb.
  assert (Hpos : (0 < rune_len (drop i s))%nat).
  { apply ValidString_rune; [by apply ValidString_drop|]. apply drop_nonempty. lia. }
  destruct (get_length (i + rune_len (drop i s)) s ltac:(lia)) as [c Hc].
  pose proof (boundary_next s i Hv Hb c Hc) as Hr. 
  rewrite (Hlast (i + rune_len (drop i s))%nat c ltac:(lia) Hc) in Hr. done.
Qed.

(** A capped valid line loses an incomplete rune only. *)
Lemma drop_incomplete_valid (s : string) (m : nat) :
  ValidString s = true -> (0 < m <= String.length s)%nat ->
  exists m', drop_incomplete (take m s) = take m' s /\ ValidString (take m' s) = true /\ (m' <= m <= m' + 3)%nat.
Proof.
  intros Hv Hm. unfold drop_incomplete.
  assert (Hl : String.length (take m s) = m) by (rewrite length_take; lia). rewrite Hl.
  assert (Hi : last_start (m - 1) (take m s) = last_start (m - 1) s).
  { assert (Hg : forall n, (n <= m - 1)%nat -> last_start n (take m s) = last_start n s).
    { induction n as [|n IH]; intros Hn; cbn [last_start]; [done|]. rewrite get_take by lia. by rewrite IH by lia. }
    by apply Hg. }
  rewrite Hi. destruct (last_start_spec (m - 1) s) as (Hle & _ & _).
  pose proof (last_start_boundary (m - 1) s Hv) as Hb. pose proof (last_start_near (m - 1) s Hv ltac:(lia)) as Hnear.
  set (i := last_start (m - 1) s) in *. pose proof (rune_len_max (drop i s)).
  rewrite drop_take, FullRune_part by lia.
  destruct (Nat.eqb_spec (m - i) (rune_len (drop i s))) as [He|Hne]; cbn [negb].
  - exists m. split; [done|]. split; [|lia]. apply ValidString_cut; [done|].
    replace m with (i + rune_len (drop i s))%nat by lia. by apply boundary_next.
  - exists i. rewrite take_take, Nat.min_l by lia. split; [done|]. split; [by apply ValidString_cut|lia].
Qed.

Lemma sanitize_loop_valid (fuel : nat) (b : string) :
  (String.length b <= fuel)%nat -> ValidString (fst (sanitize_loop fuel b)) = true /\
  (snd (sanitize_loop fuel b) = false -> fst (sanitize_loop fuel b) = b).
Proof.
  revert b. induction fuel as [|fuel IH]; intros [|c b] Hf; cbn [String.length] in Hf; try lia; [done..|].
  cbn [sanitize_loop]. destruct (Nat.eqb_spec (rune_len (String c b)) 0) as [_|Hr].
  - destruct (IH b ltac:(lia)) as [Hv _]. destruct (sanitize_loop fuel b) as [out bad]. cbn [fst snd] in *.
    split; [by apply ValidString_app|done].
  - assert (Hls : String.length (String c b) = S (String.length b)) by done.
    set (s := String c b) in *. destruct (IH (drop (rune_len s) s)) as [Hv Hsame]; [rewrite length_drop; lia|].
    destruct (sanitize_loop fuel (drop (rune_len s) s)) as [out bad]. cbn [fst snd] in *.
    split; [apply ValidString_cons; [lia|done]|]. intros Hb. rewrite (Hsame Hb). apply take_drop.
Qed.

Lemma sanitizeUTF8_spec (b : string) :
  ValidString (fst (sanitizeUTF8 b)) = true /\ snd (sanitizeUTF8 b) = negb (ValidString b) /\
  (ValidString b = true -> fst (sanitizeUTF8 b) = b).
Proof.
  unfold sanitizeUTF8. destruct (ValidString b) eqn:Hv; [done|].
  destruct (sanitize_loop_valid (String.length b) b ltac:(lia)) as [H1 H2].
  split; [done|]. split; [|done]. destruct (snd (sanitize_loop _ b)); [done|]. rewrite (H2 eq_refl) in H1. congruence.
Qed.

Lemma get_end (s : string) : String.get (String.length s) s = None.
Proof. by induction s. Qed.

Lemma boundary_end (s : string) : boundary (String.length s) s.
Proof. intros c. by rewrite get_end. Qed.

(** Dropping a carriage return cuts at a boundary. *)
Lemma TrimSuffix_take (s : string) :
  exists m, TrimSuffix s carriage_return = take m s /\ (m <= String.length s <= m + 1)%nat /\ boundary m s.
Proof.
  unfold TrimSuffix, HasSuffix. change (String.length carriage_return) with 1%nat.
  destruct ((1 <=? String.length s)%nat && _) eqn:Hs.
  - breflect. exists (String.length s - 1)%nat. split; [done|]. split; [lia|]. intros c Hc.
    replace (String.length s - 1)%nat with (String.length s - 1 + 0)%nat in Hc by lia.
    rewrite <- get_drop in Hc. match goal with He : drop _ s = _ |- _ => rewrite He in Hc end. by injection Hc as <-.
  - exists (String.length s). split; [by rewrite take_whole by lia|]. split; [lia|]. apply boundary_end.
Qed.

(** The record of a valid line. *)
Lemma render_valid (line : string) :
  ValidString line = true ->
  if MaxCaptureLineBytes <? len line then
    exists m, render line = mkRecord (take m line) true false /\ MaxCaptureLineBytes - 4 <= Z.of_nat m <= MaxCaptureLineBytes
  else render line = mkRecord (TrimSuffix line carriage_return) false false.
Proof.
  intros Hv. unfold render, line_record. pose proof max_pos as Hmax.
  destruct (Z.ltb_spec MaxCaptureLineBytes (len line)) as [Hlong|Hshort]; unfold len in *.
  - set (cap := Z.to_nat MaxCaptureLineBytes). destruct (TrimSuffix_take (take cap line)) as (m & -> & Hm & _).
    rewrite length_take in Hm. rewrite take_take, Nat.min_l by lia.
    destruct (drop_incomplete_valid line m Hv ltac:(lia)) as (m' & Hd & Hv' & Hm').
    destruct (String.eqb_spec (take m line) "") as [He|_].
    { apply (f_equal String.length) in He. rewrite length_take in He. cbn in He. lia. }
    cbn [andb negb]. rewrite Hd. unfold sanitizeUTF8. rewrite Hv'.
    assert (Hl : (String.length (take m' line) <= m')%nat) by (rewrite length_take; lia).
    destruct (Z.ltb_spec MaxCaptureLineBytes (Z.of_nat (String.length (take m' line)))); [lia|].
    exists m'. split; [done|lia].
  - rewrite take_whole by lia. destruct (TrimSuffix_take line) as (m & -> & Hm & Hb). cbn [andb].
    unfold sanitizeUTF8. rewrite (ValidString_cut line m Hv Hb).
    assert (Hl : (String.length (take m line) <= m)%nat) by (rewrite length_take; lia).
    destruct (Z.ltb_spec MaxCaptureLineBytes (Z.of_nat (String.length (take m line)))); [lia|done].
Qed.

Lemma render_bounded (line : string) : ValidString (msg (render line)) = true /\ len (msg (render line)) <= MaxCaptureLineBytes.
Proof.
  unfold render, line_record. pose proof max_pos as Hmax. set (text := if _ && _ then _ else _).
  destruct (sanitizeUTF8_spec text) as (Hv & _ & _). destruct (sanitizeUTF8 text) as [out bad]. cbn [fst] in Hv.
  destruct (Z.ltb_spec MaxCaptureLineBytes (len out)) as [Hlong|Hshort]; cbn [msg]; [|done].
  destruct (last_start_spec (Z.to_nat MaxCaptureLineBytes) out) as (Hle & _ & _).
  split; [apply ValidString_cut; [done|by apply last_start_boundary]|]. unfold len. rewrite length_take. lia.
Qed.

(** ** Theorems *)

(** C27. The log does not depend on how the output of the core is cut into chunks:
    after any sequence of writes and flushes and a final close, the records are
    those of the texts between the flushes, each split at its line feeds, one
    record per line and one for a remainder that is not empty.  No write fails
    before the writer is closed. *)
Theorem capture_matches_reference (l : list input) :
  records (Close (fold_left feed l NewLineCaptureWriter)) = concat (map reference (segments "" l)) /\
  forall p, fst (Write p (fold_left feed l NewLineCaptureWriter)) = Ok (len p).
Proof.
  assert (Hnew : holds "" NewLineCaptureWriter).
  { unfold holds. cbn [NewLineCaptureWriter closed buf trunc dropping]. split; [done|].
    split; [by destruct (Z.to_nat MaxCaptureLineBytes)|]. split; symmetry; apply Z.ltb_ge; unfold len; cbn; pose proof max_pos; lia. }
  split; [by apply (feed_spec l "" [])|]. intros p. unfold Write. by rewrite feed_open.
Qed.

(** C28. Every record is well formed: its message is valid UTF-8 of at most 256 KiB,
    whatever bytes the line consists of.  A valid line is never marked as invalid:
    one that fits is logged as it is, without its carriage return; a longer one is
    marked as truncated and keeps a prefix that lacks at most the last rune and a
    carriage return. *)
Theorem captured_records_wellformed (line : string) :
  ValidString (msg (render line)) = true /\ len (msg (render line)) <= MaxCaptureLineBytes /\
  (ValidString line = true ->
   invalid (render line) = false /\
   (len line <= MaxCaptureLineBytes ->
    truncated (render line) = false /\ msg (render line) = TrimSuffix line carriage_return) /\
   (MaxCaptureLineBytes < len line ->
    truncated (render line) = true /\
    exists m, msg (render line) = take m line /\ MaxCaptureLineBytes - 4 <= Z.of_nat m)).
Proof.
  destruct (render_bounded line) as [H1 H2]. split; [done|]. split; [done|]. intros Hv. pose proof (render_valid line Hv) as Hr.
  destruct (Z.ltb_spec MaxCaptureLineBytes (len line)) as [Hlong|Hshort].
  - destruct Hr as (m & -> & Hm). split; [done|]. split; [lia|]. intros _. split; [done|]. exists m. split; [done|lia].
  - rewrite Hr. split; [done|]. split; [done|]. lia.
Qed.

(** Chunks that cut a line and a two-byte rune, and a flush. *)
Example capture_example :
  let a := String (chr 195) EmptyString in
  let b := String (chr 169) EmptyString in
  map msg (records (Close (fold_left feed
    [Chunk ("x" ++ a); Chunk (b ++ "y" ++ carriage_return ++ newline ++ "rest"); FlushNow; Chunk "end"]%string NewLineCaptureWriter))) =
  [("x" ++ a ++ b ++ "y"); "rest"; "end"]%string.
Proof. vm_compute. reflexivity. Qed.
