(* ===== verification/Web.v ===== *)
(** * Web: the browser gateway

    Models [internal/web/classify.go], [auth.go], [proxy.go] and the request
    handling of [server.go]: how a browser request is classified, authenticated,
    and answered, forwarded to the controller of the core or turned into a
    mutation of the daemon.

    - A request carries its parsed query, its headers and what the JSON decoders
      make of its body; parsing them is the standard library's part.
    - The handler gives the reply and the list of its effects outside of the
      gateway: requests to the controller and calls of the mutator.
    - The answers of the mutator and the links of the panels are functions of the
      server; the bytes of pages and the relay of frames after the handshake of a
      stream are left out. *)

From Stdlib Require Import Ascii.
From S2P Require Import Prelude GoStd Settings WebStatic.

(** [strings.ToUpper]: the mapping of non-ASCII text is a parameter. *)
Class UpperCase := { unicode_ToUpper : string -> string }.

Definition upper_ascii (c : ascii) : ascii :=
  if (97 <=? byte c) && (byte c <=? 122) then chr (Z.to_nat (byte c - 32)) else c.

Definition ToUpper `{UpperCase} (s : string) : string :=
  if is_ascii s then map_ascii upper_ascii s else unicode_ToUpper s.

(** ** Classification *)

Inductive Action :=
| ActionProxyRead
| ActionProxyWS
| ActionProxyStorage
| ActionMutateSelectProxy
| ActionMutateClose
| ActionMutateDelayTest
| ActionMutateRestart
| ActionMutateConfigs
| ActionRejectUpgrade
| ActionRejectManaged
| ActionRejectUnknown
| ActionNotAPI.

#[export] Instance Action_eq_dec : EqDecision Action.
Proof. solve_decision. Defined.

Definition one_of (s : string) (l : list string) : bool := existsb (String.eqb s) l.

(** A path itself, or something below it. *)
Definition at_or_below (path prefix : string) : bool :=
  String.eqb path prefix || HasPrefix path (prefix ++ "/").

(** A missing leading slash is added. *)
Definition rooted (path : string) : string :=
  if HasPrefix path "/" then path else ("/" ++ path)%string.

Definition normalizeAPIPath (path : string) : string :=
  if String.eqb path "" then ""%string
  else
    let path := rooted path in
    if (1 <? len path) && HasSuffix path "/" then TrimSuffix path "/" else path.

Definition isPanelMountPath (path : string) : bool :=
  if String.eqb path "" then false else at_or_below (rooted path) "/__mihari/panels".

Definition isStoragePath (path : string) : bool := at_or_below path "/storage".

Definition api_prefixes : list string :=
  ["/version"; "/proxies"; "/proxy-providers"; "/rules"; "/rule-providers";
   "/connections"; "/configs"; "/providers"; "/cache"; "/dns"; "/traffic";
   "/memory"; "/logs"; "/upgrade"; "/restart"; "/group"; "/script";
   "/meta"; "/debug"; "/ui"; "/fakeip"; "/storage"]%string.

Definition looksLikeAPIPath (path : string) : bool := existsb (at_or_below path) api_prefixes.

Definition isSafeReadPath (path : string) : bool :=
  if one_of path ["/version"; "/configs"]%string then true
  else if HasPrefix path "/proxies" || HasPrefix path "/proxy-providers" then true
  else if HasPrefix path "/rules" || HasPrefix path "/rule-providers" then true
  else if String.eqb path "/connections" || HasPrefix path "/connections/" then true
  else if String.eqb path "/providers/proxies" || HasPrefix path "/providers/" then true
  else if String.eqb path "/dns/query" || HasPrefix path "/cache" then true
  else one_of path ["/traffic"; "/memory"; "/logs"]%string.

Definition isUpgradePath (path : string) : bool :=
  at_or_below path "/upgrade" || String.eqb path "/upgrade/ui" || String.eqb path "/configs/upgrade".

Definition isProxyGroupSelect (path : string) : bool :=
  if negb (HasPrefix path "/proxies/") then false
  else
    let rest := TrimPrefix path "/proxies/" in
    if String.eqb rest "" || Contains rest "/" then false else true.

Definition isDelayTestPath (path : string) : bool :=
  if HasSuffix path "/delay" && HasPrefix path "/proxies/" then true
  else if HasPrefix path "/group/" && HasSuffix path "/delay" then true
  else false.

Definition stream_paths : list string := ["/traffic"; "/memory"; "/logs"; "/connections"]%string.

Section Classification.
Context `{UpperCase}.

Definition Classify (method path : string) : Action :=
  let method := ToUpper method in
  if isPanelMountPath path then ActionNotAPI
  else
    let path := normalizeAPIPath path in
    if String.eqb path "" then ActionNotAPI
    else if isStoragePath path then
      if one_of method ["GET"; "HEAD"; "PUT"; "DELETE"]%string then ActionProxyStorage else ActionRejectUnknown
    else if one_of path stream_paths && String.eqb method "GET" then ActionProxyRead
    else if String.eqb method "GET" || String.eqb method "HEAD" then
      if isSafeReadPath path then ActionProxyRead
      else if looksLikeAPIPath path then ActionProxyRead
      else ActionNotAPI
    else if isUpgradePath path then ActionRejectUpgrade
    else if String.eqb method "PUT" && isProxyGroupSelect path then ActionMutateSelectProxy
    else if String.eqb method "DELETE" && (String.eqb path "/connections" || HasPrefix path "/connections/") then ActionMutateClose
    else if String.eqb method "POST" && isDelayTestPath path then ActionMutateDelayTest
    else if String.eqb method "POST" && (String.eqb path "/restart" || String.eqb path "/configs/restart") then ActionMutateRestart
    else if (String.eqb method "PATCH" || String.eqb method "PUT") && String.eqb path "/configs" then ActionMutateConfigs
    else if looksLikeAPIPath path then ActionRejectUnknown
    else ActionNotAPI.

Definition ClassifyUpgrade (method path : string) (connectionUpgrade : bool) : Action :=
  let action := Classify method path in
  if connectionUpgrade && bool_decide (action = ActionProxyRead) then
    if one_of (normalizeAPIPath path) stream_paths then ActionProxyWS else action
  else action.

End Classification.

(** ** Requests *)

(** [http.Header] with canonical keys. *)
Abbreviation Header := (gmap string (list string)).
Definition header_Get (h : Header) (k : string) : string :=
  match h !! k with Some (v :: _) => v | _ => ""%string end.

Record Request := mkRequest {
  r_Method : string;
  r_Path : string;
  r_Query : list (string * string);        (** [URL.Query()] *)
  r_Host : string;
  r_Header : Header;
  r_Password : result string;              (** [ParseForm] and the field password *)
  r_Next : string;                         (** the field next of the form *)
  r_Name : result string;                  (** the body decoded into a struct with a name *)
  r_Patch : result (gmap string any);      (** the body decoded into a map *)
  r_Trailing : option error                (** the second decode; [None] is [io.EOF] *)
}.

Definition query_Get (q : list (string * string)) (k : string) : string :=
  match list_find (fun kv => kv.1 = k) q with Some (_, (_, v)) => v | None => ""%string end.

(** ** Authentication *)

Definition CookieName : string := "mihari_web_auth".
Definition AuthPath : string := "/__mihari/auth".

(** [textproto.TrimString]. *)
Definition ascii_space (c : ascii) : bool := existsb (Ascii.eqb c) [" "%char; chr 9; LF; CR].
Fixpoint trim_left (f : ascii -> bool) (s : string) : string :=
  match s with
  | EmptyString => EmptyString
  | String c t => if f c then trim_left f t else s
  end.
Definition trim_both (f : ascii -> bool) (s : string) : string := reverse (trim_left f (reverse (trim_left f s))).
Definition TrimString (s : string) : string := trim_both ascii_space s.

Fixpoint all_chars (f : ascii -> bool) (s : string) : bool :=
  match s with EmptyString => true | String c s => f c && all_chars f s end.

Definition dquote : ascii := chr 34.
Definition cookie_value_byte (c : ascii) : bool :=
  (32 <=? byte c) && (byte c <? 127) && negb (existsb (Ascii.eqb c) [dquote; ";"%char; "\"%char]).

(** [parseCookieValue] with quotes allowed. *)
Definition parse_cookie_value (v : string) : option string :=
  let q := String dquote EmptyString in
  let v := if (1 <? len v) && HasPrefix v q && HasSuffix v q then TrimSuffix (TrimPrefix v q) q else v in
  if all_chars cookie_value_byte v then Some v else None.

(** A part of a cookie line that carries the wanted cookie. *)
Definition cookie_part (name part : string) : option string :=
  let part := TrimString part in
  if String.eqb part "" then None
  else
    let '(n, v) := match Cut part "=" with Some (n, v) => (n, v) | None => (part, ""%string) end in
    if String.eqb (TrimString n) name then parse_cookie_value v else None.

(** [Request.Cookie(name)]. *)
Definition Cookie (h : Header) (name : string) : option string :=
  let parts := line ← default [] (h !! "Cookie"%string); Split ";" (TrimString line) in
  head (omap (cookie_part name) parts).

Record Authenticator := mkAuthenticator {
  WebCredential : string;
  auth_ControllerSecret : string
}.

Definition bearerToken (header : string) : string :=
  if negb (HasPrefix header "Bearer ") then ""%string else TrimSpace (TrimPrefix header "Bearer ").

Definition matchesWeb (a : Authenticator) (candidate : string) : bool :=
  if String.eqb (WebCredential a) "" || String.eqb candidate "" then false
  else String.eqb candidate (WebCredential a).

Definition Authorized (a : Authenticator) (r : Request) : bool :=
  if String.eqb (WebCredential a) "" then false
  else
    let token := bearerToken (header_Get (r_Header r) "Authorization") in
    if negb (String.eqb token "") then matchesWeb a token
    else match Cookie (r_Header r) CookieName with
    | Some v => matchesWeb a v
    | None =>
        let token := query_Get (r_Query r) "token" in
        if negb (String.eqb token "") then matchesWeb a token else false
    end.

(** ** The proxy to the controller *)

(** *** Headers, [net/http] and [net/textproto] *)

Definition token_byte (c : ascii) : bool :=
  (48 <=? byte c) && (byte c <=? 57) || (65 <=? byte c) && (byte c <=? 90) || (97 <=? byte c) && (byte c <=? 122)
  || existsb (Ascii.eqb c) ["!"; "#"; "$"; "%"; "&"; "'"; "*"; "+"; "-"; "."; "^"; "_"; "`"; "|"; "~"]%char.
Fixpoint canonical_from (upper : bool) (s : string) : string :=
  match s with
  | EmptyString => EmptyString
  | String c s =>
      let c := if upper then upper_ascii c else lower_ascii c in
      String c (canonical_from (Ascii.eqb c "-") s)
  end.
Definition CanonicalMIMEHeaderKey (s : string) : string :=
  if all_chars token_byte s then canonical_from true s else s.
Definition header_Del (h : Header) (k : string) : Header := delete (CanonicalMIMEHeaderKey k) h.

(** [httpguts.HeaderValuesContainsToken], for a token in lower case. *)
Definition contains_token (values : list string) (token : string) : bool :=
  existsb (fun v => existsb (fun part => String.eqb (map_ascii lower_ascii (trim_both (fun c => Ascii.eqb c " " || Ascii.eqb c (chr 9)) part)) token) (Split "," v)) values.

(** *** [httputil.ReverseProxy] *)

Definition hopHeaders : list string :=
  ["Connection"; "Proxy-Connection"; "Keep-Alive"; "Proxy-Authenticate"; "Proxy-Authorization"; "Te"; "Trailer";
   "Transfer-Encoding"; "Upgrade"]%string.
(** The headers that the header Connection names. *)
Definition connection_names (h : Header) : list string :=
  filter (fun name => name <> ""%string) (line ← default [] (h !! "Connection"%string); TrimString <$> Split "," line).
Definition removeHopByHopHeaders (h : Header) : Header := foldl header_Del h (connection_names h ++ hopHeaders).

Definition forwarding_headers : list string := ["Forwarded"; "X-Forwarded-For"; "X-Forwarded-Host"; "X-Forwarded-Proto"]%string.

Definition upgradeType (h : Header) : string :=
  if contains_token (default [] (h !! "Connection"%string)) "upgrade" then header_Get h "Upgrade" else ""%string.
Definition printable (s : string) : bool := all_chars (fun c => (32 <=? byte c) && (byte c <=? 126)) s.

(** The headers that [Rewrite] finds in the outgoing request; none when the client
    asks for a protocol that has no printable name. *)
Definition outgoing_headers (h : Header) : option Header :=
  let upType := upgradeType h in
  if negb (printable upType) then None
  else
    let out := removeHopByHopHeaders h in
    let out := if contains_token (default [] (h !! "Te"%string)) "trailers" then <["Te"%string := ["trailers"%string]]> out else out in
    let out := if negb (String.eqb upType "")
               then <["Upgrade"%string := [upType]]> (<["Connection"%string := ["Upgrade"%string]]> out) else out in
    Some (foldl header_Del out forwarding_headers).

(** [Rewrite] of [NewControllerProxy], on the headers of the outgoing request. *)
Definition rewrite_headers (secret : string) (h : Header) : Header :=
  let h := header_Del h "Authorization" in
  if negb (String.eqb secret "") then <["Authorization"%string := [("Bearer " ++ secret)%string]]> h else h.

(** What [ReverseProxy] sends to the controller. *)
Definition proxied_headers (secret : string) (h : Header) : option Header :=
  match outgoing_headers h with
  | None => None
  | Some out =>
      let out := rewrite_headers secret out in
      Some (match out !! "User-Agent"%string with Some _ => out | None => <["User-Agent"%string := [""%string]]> out end)
  end.

(** [ModifyResponse]: the loop over the headers of the response, in the order of
    the list; every order gives the same. *)
Definition leaks `{Unicode} (secret name : string) (values : list string) : bool :=
  String.eqb (ToLower name) "authorization" ||
  negb (String.eqb secret "") && existsb (fun v => Contains v secret) values.

Definition modify_response `{Unicode} (secret : string) (h : Header) : Header :=
  foldl (fun h kv => if leaks secret kv.1 kv.2 then header_Del h kv.1 else h) h (map_to_list h).

(** The headers of the controller's response that reach the browser. *)
Definition browser_headers `{Unicode} (secret : string) (response : Header) : Header :=
  modify_response secret (removeHopByHopHeaders response).

(** ** The server *)

(** Calls of the [Mutator]. *)
Inductive mutation :=
| SelectProxy (group name : string)
| CloseConnection (id : string)
| CloseAllConnections
| ApplyConfigPatch (patch : gmap string any).

Record Server := mkServer {
  Auth : Authenticator;
  ControllerSecret : string;
  ListenAddr : string;
  Panel : option PanelSource;
  Mutator : option (mutation -> option error)
}.

(** What leaves the gateway. *)
Inductive effect :=
| ToController (method path : string) (h : Header)
| DialController (path : string) (h : Header)
| Mutate (call : mutation).

Inductive reply :=
| Login
| HTTPError (status : Z)
| Reject (action : Action)
| Redirect (cookie : bool) (path : string) (query : list (string * string))
| Static (file : static_reply)
| FromController
| FromStream
| MutationError (e : error)
| NoContent.

Abbreviation outcome := (reply * list effect)%type.

Definition isManagedConfigField (key : string) : bool :=
  one_of key ["external-controller"; "secret"; "mixed-port"; "bind-address";
              "external-ui"; "external-ui-name"; "external-ui-url"]%string
  || HasPrefix key "external-ui".

Section Gateway.
Context `{UpperCase} `{Unicode} `{CaseFold} (parse_path : string -> option string) (stat : string -> result bool).
Variable s : Server.

Definition isUpgradeRequest (r : Request) : bool := EqualFold (header_Get (r_Header r) "Upgrade") "websocket".

Definition panelSetupPath (r : Request) : string :=
  let host := if String.eqb (r_Host r) "" then ListenAddr s else r_Host r in
  match Panel s with
  | None => "/"%string
  | Some panel =>
      let default := if negb (String.eqb (SetupPath panel host) "") then SetupPath panel host else "/"%string in
      let panelID := panelIDFromPath (r_Path r) in
      if negb (String.eqb panelID "") then
        if negb (String.eqb (SetupPathFor panel panelID host) "") then SetupPathFor panel panelID host else default
      else default
  end.

Definition serve_file (r : Request) : reply :=
  Static (serveStatic parse_path stat (Panel s) (r_Path r) (header_Get (r_Header r) "Referer")).

Definition handleAuth (r : Request) : reply :=
  if String.eqb (r_Method r) "GET" then Login
  else if String.eqb (r_Method r) "POST" then
    match r_Password r with
    | Err _ => HTTPError 400
    | Ok password =>
        if negb (matchesWeb (Auth s) password) then HTTPError 401
        else
          let next := r_Next r in
          let next := if String.eqb next "" || String.eqb next "/" || negb (HasPrefix next "/") || HasPrefix next "//"
                      then panelSetupPath r else next in
          Redirect true next []
    end
  else HTTPError 405.

(** A call of the mutator and its answer. *)
Definition call_mutator (answer : mutation -> option error) (m : mutation) : outcome :=
  match answer m with
  | Some e => (MutationError e, [Mutate m])
  | None => (NoContent, [Mutate m])
  end.

Definition log_levels : list string := ["debug"; "info"; "warn"; "warning"; "error"]%string.

Definition handleConfigMutation (answer : mutation -> option error) (r : Request) : outcome :=
  match r_Patch r with
  | Err _ => (HTTPError 400, [])
  | Ok patch =>
      if bool_decide (is_Some (r_Trailing r)) then (HTTPError 400, [])
      else if bool_decide (size patch = 0%nat) then (Reject ActionRejectUnknown, [])
      else if existsb (fun kv => isManagedConfigField kv.1) (map_to_list patch) then (Reject ActionRejectManaged, [])
      else match patch !! "log-level"%string with
      | Some raw =>
          if negb (bool_decide (size patch = 1%nat)) || negb (String.eqb (r_Method r) "PATCH") then (Reject ActionRejectUnknown, [])
          else match raw with
          | AString level => if one_of level log_levels then call_mutator answer (ApplyConfigPatch patch) else (HTTPError 400, [])
          | _ => (HTTPError 400, [])
          end
      | None =>
      match patch !! "mode"%string with
      | Some raw =>
          if negb (bool_decide (size patch = 1%nat)) || negb (String.eqb (r_Method r) "PATCH") then (Reject ActionRejectUnknown, [])
          else match raw with
          | AString mode => if ValidRoutingMode mode then call_mutator answer (ApplyConfigPatch patch) else (HTTPError 400, [])
          | _ => (HTTPError 400, [])
          end
      | None =>
          if existsb (fun kv => negb (String.eqb kv.1 "tun")) (map_to_list patch) then (Reject ActionRejectUnknown, [])
          else match patch !! "tun"%string with
          | None => (Reject ActionRejectUnknown, [])
          | Some (AMap tun) =>
              match member tun "enable" with
              | Some (ABool _) =>
                  match member tun "stack" with
                  | None | Some (AString _) => call_mutator answer (ApplyConfigPatch patch)
                  | Some _ => (HTTPError 400, [])
                  end
              | _ => (HTTPError 400, [])
              end
          | Some _ => (HTTPError 400, [])
          end
      end
      end
  end.

Definition handleMutation (r : Request) (action : Action) : outcome :=
  match Mutator s with
  | None => (Reject ActionRejectUnknown, [])
  | Some answer =>
      match action with
      | ActionMutateSelectProxy =>
          let group := TrimPrefix (normalizeAPIPath (r_Path r)) "/proxies/" in
          match r_Name r with
          | Err _ => (HTTPError 400, [])
          | Ok name =>
              if String.eqb name "" || String.eqb group "" then (HTTPError 400, [])
              else call_mutator answer (SelectProxy group name)
          end
      | ActionMutateClose =>
          let p := normalizeAPIPath (r_Path r) in
          if String.eqb p "/connections" then call_mutator answer CloseAllConnections
          else
            let id := TrimPrefix p "/connections/" in
            if String.eqb id "" then (HTTPError 400, []) else call_mutator answer (CloseConnection id)
      | ActionMutateConfigs => handleConfigMutation answer r
      | _ => (Reject ActionRejectUnknown, [])
      end
  end.

(** The handshake of [proxyWebSocket] with the controller. *)
Definition stream_headers : Header :=
  if negb (String.eqb (ControllerSecret s) "") then {["Authorization"%string := [("Bearer " ++ ControllerSecret s)%string]]} else ∅.

Definition dispatch (r : Request) : outcome :=
  let action := ClassifyUpgrade (r_Method r) (r_Path r) (isUpgradeRequest r) in
  match action with
  | ActionProxyRead | ActionProxyStorage =>
      match proxied_headers (ControllerSecret s) (r_Header r) with
      | Some h => (FromController, [ToController (r_Method r) (r_Path r) h])
      | None => (HTTPError 502, [])
      end
  | ActionProxyWS => (FromStream, [DialController (r_Path r) stream_headers])
  | ActionRejectUpgrade | ActionRejectManaged | ActionRejectUnknown => (Reject action, [])
  | ActionMutateSelectProxy | ActionMutateClose | ActionMutateDelayTest | ActionMutateRestart | ActionMutateConfigs =>
      handleMutation r action
  | ActionNotAPI => (serve_file r, [])
  end.

(** [handler]: what a request is answered with, and what it causes. *)
Definition handler (r : Request) : outcome :=
  if String.eqb (r_Path r) AuthPath then (handleAuth r, [])
  else
    let token := query_Get (r_Query r) "token" in
    if negb (String.eqb token "") && matchesWeb (Auth s) token then
      let q := filter (fun kv => kv.1 <> "token"%string) (r_Query r) in
      let reqPath := if String.eqb (r_Path r) "" then "/"%string else r_Path r in
      if bool_decide (q = []) && isPanelEntryPath reqPath then (Redirect true (panelSetupPath r) [], [])
      else (Redirect true reqPath q, [])
    else if String.eqb (r_Path r) "/__mihari/setup" then
      if negb (Authorized (Auth s) r) then (Login, [])
      else (Redirect false (panelSetupPath r) [], [])
    else if negb (Authorized (Auth s) r) then
      if looksLikeAPIPath (normalizeAPIPath (r_Path r)) || isUpgradeRequest r then (HTTPError 401, [])
      else if one_of (r_Method r) ["GET"; "HEAD"; ""]%string then (serve_file r, [])
      else (Login, [])
    else dispatch r.

End Gateway.

(** ** Lemmas *)

Lemma one_of_spec (s : string) (l : list string) : one_of s l = true <-> s ∈ l.
Proof.
  unfold one_of. rewrite existsb_exists. setoid_rewrite String.eqb_eq.
  split; [intros (x & Hx & ->); by apply list_elem_of_In|]. intros Hs. exists s. split; [by apply list_elem_of_In|done].
Qed.

Lemma trim_prefix (s p : string) : HasPrefix s p = true -> s = (p ++ TrimPrefix s p)%string.
Proof. unfold TrimPrefix, HasPrefix. intros Hp. rewrite Hp. by apply prefix_drop. Qed.

(** Configuration patches the browser may request. *)
Definition allowed_patch (patch : gmap string any) : Prop :=
  (exists level, patch = {["log-level"%string := AString level]} /\ level ∈ log_levels) \/
  (exists mode, patch = {["mode"%string := AString mode]} /\ ValidRoutingMode mode = true) \/
  (exists tun b, patch = {["tun"%string := AMap tun]} /\ member tun "enable" = Some (ABool b) /\
     forall v, member tun "stack" = Some v -> exists stack, v = AString stack).

Lemma single_member (patch : gmap string any) (k : string) (v : any) :
  patch !! k = Some v -> size patch = 1%nat -> patch = {[k := v]}.
Proof.
  intros Hk Hs. pose proof (map_size_delete_Some k patch (mk_is_Some _ _ Hk)) as Hd. rewrite Hs in Hd.
  apply map_size_empty_inv in Hd. rewrite <- (insert_delete_id patch k v Hk), Hd. done.
Qed.

Lemma only_member (patch : gmap string any) (k : string) (v : any) :
  patch !! k = Some v -> existsb (fun kv => negb (String.eqb kv.1 k)) (map_to_list patch) = false -> patch = {[k := v]}.
Proof.
  intros Hk Hall. apply map_eq. intros k'. destruct (decide (k' = k)) as [->|Hne].
  { by rewrite Hk, lookup_singleton_eq. }
  rewrite lookup_singleton_ne by done. destruct (patch !! k') as [v'|] eqn:Hk'; [|done].
  exfalso. apply not_true_iff_false in Hall. apply Hall, existsb_exists. exists (k', v'). split.
  - by apply list_elem_of_In, elem_of_map_to_list.
  - cbn. apply negb_true_iff. by apply String.eqb_neq.
Qed.

Section Facts.
Context `{UpperCase} `{Unicode} `{CaseFold} (parse_path : string -> option string) (stat : string -> result bool).
Variable s : Server.

(** What a request may cause. *)
Definition permitted (r : Request) (x : effect) : Prop :=
  let method := ToUpper (r_Method r) in
  let path := normalizeAPIPath (r_Path r) in
  match x with
  | ToController m p _ =>
      m = r_Method r /\ p = r_Path r /\
      (method ∈ ["GET"; "HEAD"]%string \/ method ∈ ["PUT"; "DELETE"]%string /\ at_or_below path "/storage" = true)
  | DialController p _ =>
      p = r_Path r /\ method ∈ ["GET"; "HEAD"]%string /\ path ∈ stream_paths /\ isUpgradeRequest r = true
  | Mutate (SelectProxy group name) =>
      method = "PUT"%string /\ path = ("/proxies/" ++ group)%string /\ Contains group "/" = false /\ name <> ""%string
  | Mutate (CloseConnection id) =>
      method = "DELETE"%string /\ path = ("/connections/" ++ id)%string /\ id <> ""%string
  | Mutate CloseAllConnections => method = "DELETE"%string /\ path = "/connections"%string
  | Mutate (ApplyConfigPatch patch) =>
      method ∈ ["PATCH"; "PUT"]%string /\ path = "/configs"%string /\ allowed_patch patch
  end.

(** What the classes of the requests say about method and path. *)
Lemma Classify_spec (method path : string) :
  match Classify method path with
  | ActionProxyRead => ToUpper method ∈ ["GET"; "HEAD"]%string
  | ActionProxyStorage =>
      ToUpper method ∈ ["GET"; "HEAD"]%string \/
      ToUpper method ∈ ["PUT"; "DELETE"]%string /\ at_or_below (normalizeAPIPath path) "/storage" = true
  | ActionMutateSelectProxy => ToUpper method = "PUT"%string /\ isProxyGroupSelect (normalizeAPIPath path) = true
  | ActionMutateClose =>
      ToUpper method = "DELETE"%string /\
      (normalizeAPIPath path = "/connections"%string \/ HasPrefix (normalizeAPIPath path) "/connections/" = true)
  | ActionMutateConfigs => ToUpper method ∈ ["PATCH"; "PUT"]%string /\ normalizeAPIPath path = "/configs"%string
  | _ => True
  end.
Proof.
  unfold Classify. case_if; [done|]. case_if; [done|]. case_if.
  { destruct (one_of (ToUpper method) _) eqn:Hm; [|done]. apply one_of_spec in Hm.
    repeat (apply elem_of_cons in Hm as [->|Hm]); [left; set_solver..|right|right|by apply not_elem_of_nil in Hm];
      (split; [set_solver|done]). }
  case_if; [breflect; set_solver|]. case_if.
  { assert (ToUpper method ∈ ["GET"; "HEAD"]%string).
    { match goal with Hx : (_ || _) = true |- _ => apply orb_true_iff in Hx as [Hx|Hx] end; breflect; set_solver. }
    by repeat case_if. }
  case_if; [done|]. case_if; [by breflect|]. case_if.
  { breflect. split; [done|]. match goal with Hx : (_ || _) = true |- _ => apply orb_true_iff in Hx as [Hx|Hx] end; breflect; auto. }
  case_if; [done|]. case_if; [done|]. case_if; [|by case_if].
  breflect. split; [|done]. match goal with Hx : (_ || _) = true |- _ => apply orb_true_iff in Hx as [Hx|Hx] end; breflect; set_solver.
Qed.

Lemma ClassifyUpgrade_stream (method path : string) (up : bool) :
  ClassifyUpgrade method path up = ActionProxyWS -> Classify method path <> ActionProxyWS ->
  up = true /\ Classify method path = ActionProxyRead /\ normalizeAPIPath path ∈ stream_paths.
Proof.
  unfold ClassifyUpgrade. case_if; [|done]. breflect. case_if; [|by intros ->].
  intros _ _. split; [done|]. split; [done|]. by apply one_of_spec.
Qed.

Lemma ClassifyUpgrade_other (method path : string) (up : bool) :
  ClassifyUpgrade method path up <> ActionProxyWS -> ClassifyUpgrade method path up = Classify method path.
Proof. unfold ClassifyUpgrade. case_if; [|done]. by case_if. Qed.

Lemma Classify_not_stream (method path : string) : Classify method path <> ActionProxyWS.
Proof. unfold Classify. by repeat case_if. Qed.

(** Effects of the handlers of mutations. *)
Lemma call_mutator_effects (answer : mutation -> option error) (m : mutation) : snd (call_mutator answer m) = [Mutate m].
Proof. unfold call_mutator. by destruct (answer m). Qed.

Lemma handleConfigMutation_effects (answer : mutation -> option error) (r : Request) :
  snd (handleConfigMutation answer r) = [] \/
  exists patch, snd (handleConfigMutation answer r) = [Mutate (ApplyConfigPatch patch)] /\ allowed_patch patch.
Proof.
  unfold handleConfigMutation. destruct (r_Patch r) as [patch|]; [|by left].
  do 3 (case_if; [by left|]). destruct (patch !! "log-level"%string) as [raw|] eqn:Hl.
  { case_if; [by left|]. breflect. destruct raw as [| | | |level| | |]; try by left. case_if; [|by left].
    right. exists patch. split; [apply call_mutator_effects|]. left. exists level.
    split; [by apply single_member|by apply one_of_spec]. }
  destruct (patch !! "mode"%string) as [raw|] eqn:Hm.
  { case_if; [by left|]. breflect. destruct raw as [| | | |mode| | |]; try by left. case_if; [|by left].
    right. exists patch. split; [apply call_mutator_effects|]. right; left. exists mode. split; [by apply single_member|done]. }
  case_if; [by left|]. destruct (patch !! "tun"%string) as [raw|] eqn:Ht; [|by left].
  destruct raw as [| | | | | |tun|]; try by left.
  destruct (member tun "enable") as [[| | | | | | |]|] eqn:He; try by left.
  assert (Hp : (forall v, member tun "stack" = Some v -> exists stack, v = AString stack) -> allowed_patch patch).
  { intros Hstack. right; right. exists tun. eexists. split; [by apply only_member|]. split; [exact He|exact Hstack]. }
  destruct (member tun "stack") as [[| | | | | | |]|] eqn:Hs; try by left.
  all: right; exists patch; split; [apply call_mutator_effects|]; apply Hp; intros v [= <-] || done; eauto.
Qed.

Lemma handleMutation_effects (r : Request) :
  let action := Classify (r_Method r) (r_Path r) in
  snd (handleMutation s r action) = [] \/ exists x, snd (handleMutation s r action) = [x] /\ permitted r x.
Proof.
  cbn zeta. unfold handleMutation. destruct (Mutator s) as [answer|]; [|by left].
  pose proof (Classify_spec (r_Method r) (r_Path r)) as Hc. set (path := normalizeAPIPath (r_Path r)) in *.
  destruct (Classify (r_Method r) (r_Path r)); try by left.
  - destruct Hc as [Hm Hg]. destruct (r_Name r) as [name|]; [|by left]. case_if; [by left|]. breflect.
    right. eexists. split; [apply call_mutator_effects|]. cbn. unfold isProxyGroupSelect in Hg. fold path.
    case_if_in Hg; [done|]. case_if_in Hg; [done|]. breflect.
    split; [done|]. split; [by apply trim_prefix|]. done.
  - destruct Hc as [Hm Hp]. destruct (String.eqb_spec path "/connections") as [He|Hne].
    + right. eexists. split; [apply call_mutator_effects|]. done.
    + destruct Hp as [Hp|Hp]; [done|]. case_if; [by left|]. breflect.
      right. eexists. split; [apply call_mutator_effects|]. cbn. fold path. split; [done|]. split; [by apply trim_prefix|done].
  - destruct (handleConfigMutation_effects answer r) as [->|(patch & -> & Ha)]; [by left|]. right. eexists. split; [done|].
    cbn. fold path. tauto.
Qed.

Lemma handleMutation_calls (r : Request) (action : Action) (x : effect) :
  x ∈ snd (handleMutation s r action) -> exists c, x = Mutate c.
Proof.
  assert (Hcall : forall answer m, x ∈ snd (call_mutator answer m) -> exists c, x = Mutate c).
  { intros answer m. rewrite call_mutator_effects. intros ->%list_elem_of_singleton. eauto. }
  unfold handleMutation. destruct (Mutator s) as [answer|]; [|by intros ?%not_elem_of_nil].
  destruct action; try (by intros ?%not_elem_of_nil).
  - destruct (r_Name r) as [name|]; [case_if|]; [by intros ?%not_elem_of_nil|apply Hcall|by intros ?%not_elem_of_nil].
  - case_if; [apply Hcall|]. case_if; [by intros ?%not_elem_of_nil|apply Hcall].
  - destruct (handleConfigMutation_effects answer r) as [->|(patch & -> & _)]; [by intros ?%not_elem_of_nil|].
    intros ->%list_elem_of_singleton. eauto.
Qed.

Lemma dispatch_effects (r : Request) :
  snd (dispatch parse_path stat s r) = [] \/ exists x, snd (dispatch parse_path stat s r) = [x] /\ permitted r x.
Proof.
  unfold dispatch. pose proof (Classify_spec (r_Method r) (r_Path r)) as Hc. pose proof (handleMutation_effects r) as Hm.
  destruct (decide (ClassifyUpgrade (r_Method r) (r_Path r) (isUpgradeRequest r) = ActionProxyWS)) as [Hw|Hw].
  { rewrite Hw. right. eexists. split; [done|]. cbn. apply ClassifyUpgrade_stream in Hw as (Hu & Hr & Hp); [|apply Classify_not_stream].
    rewrite Hr in Hc. done. }
  rewrite (ClassifyUpgrade_other _ _ _ Hw). cbn zeta in Hm.
  pose proof (Classify_not_stream (r_Method r) (r_Path r)) as Hn.
  destruct (Classify (r_Method r) (r_Path r)); try (by left); try exact Hm; try done.
  - destruct (proxied_headers _ _); [right|by left]. eexists. split; [done|]. cbn. auto.
  - destruct (proxied_headers _ _); [right|by left]. eexists. split; [done|]. cbn. auto.
Qed.

(** Effects come from authorized requests only. *)
Lemma handler_effects (r : Request) :
  snd (handler parse_path stat s r) = [] \/
  Authorized (Auth s) r = true /\ snd (handler parse_path stat s r) = snd (dispatch parse_path stat s r).
Proof.
  unfold handler. case_if; [by left|]. case_if; [case_if; by left|]. case_if; [case_if; by left|].
  destruct (Authorized (Auth s) r); cbn [negb]; [by right|]. left. by repeat case_if.
Qed.

Lemma matchesWeb_spec (a : Authenticator) (c : string) : matchesWeb a c = true -> c = WebCredential a.
Proof. unfold matchesWeb. case_if; [done|]. by intros ?%String.eqb_eq. Qed.

Lemma Authorized_spec (a : Authenticator) (r : Request) :
  Authorized a r = true ->
  bearerToken (header_Get (r_Header r) "Authorization") = WebCredential a \/
  Cookie (r_Header r) CookieName = Some (WebCredential a) \/ query_Get (r_Query r) "token" = WebCredential a.
Proof.
  unfold Authorized. case_if; [done|]. case_if; [intros ?%matchesWeb_spec; auto|].
  destruct (Cookie _ _) as [v|]; [intros ->%matchesWeb_spec; auto|]. case_if; [|done]. intros ?%matchesWeb_spec. auto.
Qed.

Lemma handler_forwards (r : Request) (m p : string) (h : Header) :
  ToController m p h ∈ snd (handler parse_path stat s r) -> proxied_headers (ControllerSecret s) (r_Header r) = Some h.
Proof.
  destruct (handler_effects r) as [->|[_ ->]]; [by intros ?%not_elem_of_nil|].
  unfold dispatch. pose proof (handleMutation_calls r) as Hm.
  destruct (ClassifyUpgrade _ _ _) eqn:Hc; cbn [snd];
    try (by intros ?%not_elem_of_nil); try (by intros [=]%list_elem_of_singleton); try (by intros [c [=]]%Hm).
  all: destruct (proxied_headers _ _) as [h'|]; cbn [snd]; [|by intros ?%not_elem_of_nil].
  all: intros Hx%list_elem_of_singleton; congruence.
Qed.

Lemma handler_dials (r : Request) (p : string) (h : Header) :
  DialController p h ∈ snd (handler parse_path stat s r) -> h = stream_headers s.
Proof.
  destruct (handler_effects r) as [->|[_ ->]]; [by intros ?%not_elem_of_nil|].
  unfold dispatch. pose proof (handleMutation_calls r) as Hm.
  destruct (ClassifyUpgrade _ _ _) eqn:Hc; cbn [snd];
    try (destruct (proxied_headers _ _); cbn [snd]);
    try (by intros ?%not_elem_of_nil); try (by intros [=]%list_elem_of_singleton); try (by intros [c [=]]%Hm).
  all: intros Hx%list_elem_of_singleton; congruence.
Qed.

(** Deleting headers by name. *)
Lemma header_Del_fold (names : list string) (h : Header) (k : string) :
  foldl header_Del h names !! k = if bool_decide (k ∈ CanonicalMIMEHeaderKey <$> names) then None else h !! k.
Proof.
  revert h. induction names as [|n names IH]; intros h; cbn [foldl fmap list_fmap]; [by rewrite bool_decide_eq_false_2 by apply not_elem_of_nil|].
  rewrite IH. unfold header_Del. destruct (decide (k = CanonicalMIMEHeaderKey n)) as [->|Hne].
  - rewrite lookup_delete_eq, (bool_decide_eq_true_2 _ (list_elem_of_here _ _)). by case_bool_decide.
  - rewrite lookup_delete_ne by congruence. by rewrite (bool_decide_ext _ _ (elem_of_cons _ _ _ : _ <-> _)), bool_decide_or,
      (bool_decide_eq_false_2 (k = _)).
Qed.

(** The headers that the proxy removes from a request, and those it sets itself. *)
Definition removed (h : Header) : list string :=
  (CanonicalMIMEHeaderKey <$> connection_names h) ++ hopHeaders ++ forwarding_headers.
Definition set_by_proxy : list string := ["Authorization"; "Te"; "Connection"; "Upgrade"; "User-Agent"]%string.

Lemma canonical_names : (CanonicalMIMEHeaderKey <$> hopHeaders) = hopHeaders /\
  (CanonicalMIMEHeaderKey <$> forwarding_headers) = forwarding_headers.
Proof. by vm_compute. Qed.

Lemma removeHopByHop_lookup (h : Header) (k : string) :
  removeHopByHopHeaders h !! k =
  if bool_decide (k ∈ (CanonicalMIMEHeaderKey <$> connection_names h) ++ hopHeaders) then None else h !! k.
Proof. unfold removeHopByHopHeaders. by rewrite header_Del_fold, fmap_app, (proj1 canonical_names). Qed.

Lemma outgoing_headers_spec (h out : Header) (k : string) :
  outgoing_headers h = Some out -> k ∉ set_by_proxy -> out !! k = if bool_decide (k ∈ removed h) then None else h !! k.
Proof.
  unfold outgoing_headers, set_by_proxy. rewrite !not_elem_of_cons. intros Ho (_ & Ht & Hc & Hu & _). destruct (negb _); [done|].
  apply (inj Some) in Ho as <-. rewrite header_Del_fold, (proj2 canonical_names). unfold removed. rewrite app_assoc.
  assert (Hh : forall a b : Header, a !! k = b !! k -> (if contains_token (default [] (h !! "Te"%string)) "trailers"
            then <["Te"%string := ["trailers"%string]]> a else a) !! k = b !! k).
  { intros a b Hab. case_if; [by rewrite lookup_insert_ne|done]. }
  rewrite (bool_decide_ext (k ∈ _ ++ forwarding_headers) _ (elem_of_app _ _ _)), bool_decide_or.
  destruct (bool_decide (k ∈ forwarding_headers)); [by rewrite orb_true_r|]. rewrite orb_false_r, <- removeHopByHop_lookup.
  case_if; [|by apply Hh]. rewrite !lookup_insert_ne by done. by apply Hh.
Qed.

Lemma rewrite_headers_spec (secret : string) (h : Header) :
  rewrite_headers secret h !! "Authorization"%string =
    (if String.eqb secret "" then None else Some [("Bearer " ++ secret)%string]) /\
  forall k, k <> "Authorization"%string -> rewrite_headers secret h !! k = h !! k.
Proof.
  unfold rewrite_headers, header_Del. change (CanonicalMIMEHeaderKey "Authorization") with "Authorization"%string.
  destruct (String.eqb secret ""); cbn [negb].
  - split; [apply lookup_delete_eq|]. intros k Hk. by rewrite lookup_delete_ne.
  - split; [apply lookup_insert_eq|]. intros k Hk. by rewrite lookup_insert_ne, lookup_delete_ne.
Qed.

Lemma proxied_headers_spec (secret : string) (h out : Header) :
  proxied_headers secret h = Some out ->
  out !! "Authorization"%string = (if String.eqb secret "" then None else Some [("Bearer " ++ secret)%string]) /\
  forall k, k ∉ set_by_proxy -> out !! k = if bool_decide (k ∈ removed h) then None else h !! k.
Proof.
  unfold proxied_headers. destruct (outgoing_headers h) as [o|] eqn:Ho; [|done]. intros [= <-].
  destruct (rewrite_headers_spec secret o) as [Ha Hk].
  split; [destruct (rewrite_headers secret o !! "User-Agent"%string); [done|by rewrite lookup_insert_ne]|].
  intros k Hset. rewrite <- (outgoing_headers_spec h o k Ho Hset).
  unfold set_by_proxy in Hset. rewrite !not_elem_of_cons in Hset. destruct Hset as (Hauth & _ & _ & _ & Hua & _).
  rewrite <- (Hk k Hauth). destruct (rewrite_headers secret o !! "User-Agent"%string); [done|by rewrite lookup_insert_ne].
Qed.

(** The deletions of [ModifyResponse], on headers with canonical names. *)
Definition canonical_headers (h : Header) : Prop := forall k v, h !! k = Some v -> CanonicalMIMEHeaderKey k = k.

Lemma modify_fold (secret : string) (l : list (string * list string)) (h : Header) (k : string) :
  (forall kv, kv ∈ l -> CanonicalMIMEHeaderKey kv.1 = kv.1) ->
  foldl (fun h kv => if leaks secret kv.1 kv.2 then header_Del h kv.1 else h) h l !! k =
  if existsb (fun kv => String.eqb kv.1 k && leaks secret kv.1 kv.2) l then None else h !! k.
Proof.
  revert h. induction l as [|[n v] l IH]; intros h Hl; cbn [foldl existsb fst snd]; [done|].
  rewrite IH by (intros; apply Hl; by right). pose proof (Hl (n, v) (list_elem_of_here _ _)) as Hn. cbn in Hn.
  destruct (existsb _ l); [by rewrite orb_true_r|]. rewrite orb_false_r. destruct (leaks secret n v); [|by rewrite andb_false_r].
  rewrite andb_true_r. unfold header_Del. rewrite Hn. destruct (String.eqb_spec n k) as [->|Hne]; [apply lookup_delete_eq|by rewrite lookup_delete_ne].
Qed.

Lemma modify_response_spec (secret : string) (h : Header) (k : string) (values : list string) :
  canonical_headers h ->
  modify_response secret h !! k = Some values <-> h !! k = Some values /\ leaks secret k values = false.
Proof.
  intros Hc. unfold modify_response. rewrite modify_fold.
  2: { intros [n v] Hin%elem_of_map_to_list. by eapply Hc. }
  destruct (existsb _ _) eqn:He.
  - split; [done|]. intros [Hk Hl]. apply existsb_exists in He as ([n v] & Hin & Hm). apply list_elem_of_In, elem_of_map_to_list in Hin.
    cbn in Hm. apply andb_prop in Hm as [->%String.eqb_eq Hm]. rewrite Hk in Hin. injection Hin as ->. congruence.
  - split; [|by intros []]. intros Hk. split; [done|]. destruct (leaks secret k values) eqn:Hl; [|done].
    rewrite <- not_true_iff_false in He. destruct He. apply existsb_exists. exists (k, values).
    split; [by apply list_elem_of_In, elem_of_map_to_list|]. cbn. by rewrite String.eqb_refl.
Qed.

Lemma leaks_spec (secret name : string) (values : list string) :
  leaks secret name values = false <->
  ToLower name <> "authorization"%string /\ (secret <> ""%string -> forall v, v ∈ values -> Contains v secret = false).
Proof.
  unfold leaks. rewrite orb_false_iff, andb_false_iff, String.eqb_neq, negb_false_iff, String.eqb_eq.
  apply and_iff_compat_l. split.
  - intros [Hs|Hall] Hne v Hv; [done|]. destruct (Contains v secret) eqn:Hc; [|done].
    apply not_true_iff_false in Hall. exfalso. apply Hall, existsb_exists. exists v. by rewrite <- list_elem_of_In.
  - intros Hall. destruct (decide (secret = ""%string)) as [|Hne]; [by left|right].
    apply not_true_iff_false. intros (v & Hv%list_elem_of_In & Hc)%existsb_exists. by rewrite (Hall Hne v Hv) in Hc.
Qed.

End Facts.

(** ** Theorems *)

(** C24. The browser reaches the core and the daemon only through the gateway's
    rules.  A request has at most one effect, and only when it carries the web
    credential.  It goes to the controller unchanged only if it reads, or reads
    or writes below [/storage]; it opens a stream only for the four stream paths;
    the only changes of the daemon it can ask for are the selection of a proxy,
    closing connections, and a configuration patch of exactly one field: the log
    level, the routing mode or an on/off switch of TUN. *)
Theorem gateway_mediates_access `{UpperCase} `{Unicode} `{CaseFold} (parse_path : string -> option string)
    (stat : string -> result bool) (s : Server) (r : Request) :
  (length (snd (handler parse_path stat s r)) <= 1)%nat /\
  forall x, x ∈ snd (handler parse_path stat s r) ->
    WebCredential (Auth s) <> ""%string /\
    (bearerToken (header_Get (r_Header r) "Authorization") = WebCredential (Auth s) \/
     Cookie (r_Header r) CookieName = Some (WebCredential (Auth s)) \/
     query_Get (r_Query r) "token" = WebCredential (Auth s)) /\
    permitted r x.
Proof.
  destruct (handler_effects parse_path stat s r) as [->|[Ha ->]].
  { split; [cbn; lia|]. by intros x Hx%not_elem_of_nil. }
  destruct (dispatch_effects parse_path stat s r) as [->|(x & -> & Hx)].
  { split; [cbn; lia|]. by intros x Hx%not_elem_of_nil. }
  split; [cbn; lia|]. intros y ->%list_elem_of_singleton. split; [|split; [|done]].
  - unfold Authorized in Ha. case_if_in Ha; [done|]. by breflect.
  - by apply Authorized_spec.
Qed.

(** C25. The controller's secret is the gateway's.  A request to the controller
    carries that secret as its only Authorization, whatever the browser sent there;
    of the other headers those that concern the connection or its forwarding are
    removed, with those that the header Connection names, five are the proxy's own,
    and the rest are as the browser sent them, among them the cookie of the session
    (see [session_cookie_reaches_controller]).  The handshake of a stream carries
    nothing but the secret.  A response of the controller, with the canonical names
    that its client gives it, reaches the browser without any header that is named
    Authorization or has a value with the secret in it, and with all others but
    those of the connection. *)
Theorem gateway_keeps_secret `{UpperCase} `{Unicode} `{CaseFold} (parse_path : string -> option string)
    (stat : string -> result bool) (s : Server) (r : Request) (response : Header) :
  canonical_headers response ->
  let bearer := if String.eqb (ControllerSecret s) "" then None else Some [("Bearer " ++ ControllerSecret s)%string] in
  (forall m p h, ToController m p h ∈ snd (handler parse_path stat s r) ->
     h !! "Authorization"%string = bearer /\
     forall k, k ∉ set_by_proxy -> h !! k = if bool_decide (k ∈ removed (r_Header r)) then None else r_Header r !! k) /\
  (forall p h, DialController p h ∈ snd (handler parse_path stat s r) ->
     h !! "Authorization"%string = bearer /\ forall k, k <> "Authorization"%string -> h !! k = None) /\
  (forall k values, browser_headers (ControllerSecret s) response !! k = Some values <->
     response !! k = Some values /\ k ∉ (CanonicalMIMEHeaderKey <$> connection_names response) ++ hopHeaders /\
     ToLower k <> "authorization"%string /\
     (ControllerSecret s <> ""%string -> forall v, v ∈ values -> Contains v (ControllerSecret s) = false)).
Proof.
  intros Hcan. cbn zeta. split; [|split].
  - intros m p h Hx. apply handler_forwards in Hx. by apply proxied_headers_spec.
  - intros p h Hx. apply handler_dials in Hx as ->. unfold stream_headers.
    destruct (String.eqb (ControllerSecret s) ""); cbn [negb]; [split; [done|]; intros; apply lookup_empty|].
    split; [apply lookup_singleton_eq|]. intros k Hk. by rewrite lookup_singleton_ne.
  - intros k values. unfold browser_headers. rewrite modify_response_spec, leaks_spec, removeHopByHop_lookup.
    + case_bool_decide; naive_solver.
    + intros n v Hn. rewrite removeHopByHop_lookup in Hn. case_bool_decide; [done|]. by eapply Hcan.
Qed.

(** The proxy leaves the session cookie, whose value is the web credential, in the
    request to the controller. *)
Theorem session_cookie_reaches_controller `{UpperCase} `{Unicode} `{CaseFold} (parse_path : string -> option string)
    (stat : string -> result bool) (s : Server) (r : Request) (m p : string) (h : Header) :
  ToController m p h ∈ snd (handler parse_path stat s r) ->
  r_Header r !! "Connection"%string = None ->
  Cookie (r_Header r) CookieName = Some (WebCredential (Auth s)) ->
  Cookie h CookieName = Some (WebCredential (Auth s)).
Proof.
  intros Hx Hn Hc. apply handler_forwards, proxied_headers_spec in Hx as [_ Hk]. rewrite <- Hc. unfold Cookie.
  rewrite Hk by by apply (bool_decide_unpack _). unfold removed, connection_names. rewrite Hn. cbn. by rewrite bool_decide_eq_false_2 by by apply (bool_decide_unpack _).
Qed.

(** ** Examples *)

#[local] Instance ex_upper : UpperCase := {| unicode_ToUpper s := s |}.
#[local] Instance ex_lower : Unicode := {| unicode_ToLower s := s |}.
#[local] Instance ex_fold : CaseFold := {| unicode_EqualFold := String.eqb |}.

Definition ex_server : Server :=
  mkServer (mkAuthenticator "web-token" "core-secret") "core-secret" "127.0.0.1:9099" None (Some (fun _ => None)).

Definition ex_request (method path : string) (h : Header) (patch : gmap string any) : Request :=
  mkRequest method path [] "127.0.0.1:9099" h (Ok "") "" (Ok "HK 01") (Ok patch) None.

Definition ex_session : Header := {["Cookie"%string := ["theme=dark; mihari_web_auth=web-token"%string]]}.

Definition ex_effects (r : Request) : list effect := snd (handler Some (fun _ => Err (ESentinel ErrNotExist)) ex_server r).

(** A read with the session cookie, one without it, and one with the wrong credential. *)
Example read_is_forwarded :
  ex_effects (ex_request "get" "/proxies/" ex_session ∅) =
  [ToController "get" "/proxies/"
     (<["User-Agent"%string := [""%string]]> (<["Authorization"%string := ["Bearer core-secret"%string]]> ex_session))].
Proof. vm_compute. reflexivity. Qed.

(** Headers of the connection and of forwarding are removed, and what asks for an
    upgrade is put back. *)
Example hop_headers_removed :
  map_to_list <$> proxied_headers "core-secret"
    (list_to_map [("Connection", ["keep-alive, x-trace"; "Upgrade"]); ("X-Trace", ["1"]); ("Keep-Alive", ["5"]);
       ("Upgrade", ["websocket"]); ("X-Forwarded-For", ["10.0.0.1"]); ("Accept", ["*/*"]); ("User-Agent", ["b"]);
       ("Authorization", ["Bearer web-token"])]%string) =
  Some (map_to_list (list_to_map [("Connection", ["Upgrade"]); ("Upgrade", ["websocket"]); ("Accept", ["*/*"]);
       ("User-Agent", ["b"]); ("Authorization", ["Bearer core-secret"])]%string : Header)).
Proof. vm_compute. reflexivity. Qed.

(** A response that leaks the secret in a header. *)
Definition ex_response : Header :=
  list_to_map [("Content-Type", ["application/json"]); ("X-Debug", ["auth=core-secret"]); ("Authorization", ["x"]);
    ("Trailer", ["X"])]%string.

Lemma ex_response_canonical : canonical_headers ex_response.
Proof.
  intros k v Hk%elem_of_map_to_list. revert k v Hk.
  assert (Hall : Forall (fun kv => CanonicalMIMEHeaderKey kv.1 = kv.1) (map_to_list ex_response)).
  { apply (bool_decide_unpack _). vm_compute. reflexivity. }
  rewrite Forall_forall in Hall. intros k v Hk. exact (Hall (k, v) Hk).
Qed.

Lemma gateway_keeps_secret_witness :
  browser_headers "core-secret" ex_response !! "Content-Type"%string = Some ["application/json"%string] /\
  browser_headers "core-secret" ex_response !! "X-Debug"%string = None /\
  forall m p h, ToController m p h ∈ ex_effects (ex_request "GET" "/proxies" ex_session ∅) ->
    h !! "Authorization"%string = Some ["Bearer core-secret"%string].
Proof.
  destruct (gateway_keeps_secret Some (fun _ => Err (ESentinel ErrNotExist)) ex_server (ex_request "GET" "/proxies" ex_session ∅)
    ex_response ex_response_canonical) as (Hto & _ & Hres). cbn [ControllerSecret ex_server] in Hres. split; [|split].
  - apply Hres. split; [vm_compute; reflexivity|]. split; [apply (bool_decide_unpack _); vm_compute; reflexivity|].
    split; [by vm_compute|]. intros _ v Hv%list_elem_of_singleton. by subst v.
  - destruct (browser_headers "core-secret" ex_response !! "X-Debug"%string) as [v|] eqn:Hv; [|done]. exfalso.
    apply Hres in Hv as (Hr & _ & _ & Hs). vm_compute in Hr. injection Hr as <-.
    by specialize (Hs ltac:(done) _ (list_elem_of_here _ _)).
  - intros m p h Hx. exact (proj1 (Hto m p h Hx)).
Defined.

Example read_needs_credential :
  ex_effects (ex_request "GET" "/proxies" ∅ ∅) = [] /\
  ex_effects (ex_request "GET" "/proxies" {["Authorization"%string := ["Bearer core-secret"%string]]} ∅) = [].
Proof. vm_compute. auto. Qed.

(** Writes: a selection, a mode, and a managed field. *)
Example writes_are_filtered :
  ex_effects (ex_request "PUT" "/proxies/GLOBAL" ex_session ∅) = [Mutate (SelectProxy "GLOBAL" "HK 01")] /\
  ex_effects (ex_request "PATCH" "/configs" ex_session {["mode"%string := AString "direct"]}) =
    [Mutate (ApplyConfigPatch {["mode"%string := AString "direct"]})] /\
  ex_effects (ex_request "PATCH" "/configs" ex_session {["secret"%string := AString "x"]}) = [] /\
  ex_effects (ex_request "PUT" "/providers/proxies/p" ex_session ∅) = [].
Proof. vm_compute. auto. Qed.
