(* ===== verification/TrustedConfig.v ===== *)
(** * TrustedConfig: the configuration of a root daemon

    Models the configuration part of [internal/core/trusted_runtime.go], its
    files on Linux and macOS ([trusted_runtime_unix.go],
    [verified_command_unix.go]) and the capability of [verified_command.go].

    A daemon that runs as root keeps the core's configuration in its data root
    and remembers the hash of the last configuration it accepted.  [Trusted] is
    that memory together with the regular files of the root; a file has an inode,
    so that a replacement is noticed.  Every operation takes the next fault of
    the environment; a write may fail after its rename.  A capability is used
    here before it is closed and belongs to the one root. *)

From Stdlib Require Import Ascii.
From S2P Require Import Prelude GoStd Settings SelfUpdate.

Record tfile := mkTFile {
  tf_content : string;
  tf_inode : nat
}.

(** [TrustedExecution] and the files below its root, by relative path. *)
Record Trusted := mkTrusted {
  t_committed : list Z;
  t_ready : bool;
  t_files : gmap string tfile;
  t_next : nat;     (** the next inode *)
  t_clock : nat
}.

(** The environment: how each file operation goes, what [OpenInstalledCore]
    answers, what the core says of a configuration, and random names. *)
Record trusted_env := mkTrustedEnv {
  te_fault : nat -> fault;
  te_core : nat -> option error;
  te_validate : nat -> string -> option error;
  te_random : nat -> string
}.

Record ConfigCapability := mkCapability {
  cc_path : string;
  cc_inode : nat;
  cc_hash : list Z;
  cc_committed : bool
}.

Record GeneratedConfig := mkGenerated {
  g_cap : ConfigCapability;
  g_content : string;
  g_hash : list Z
}.

Definition config_path : string := "runtime/config.yaml".
Definition max_config : Z := 33554432.
Definition maxCoreBinarySize : Z := 268435456.

Definition trusted_failure (m : string) : error := api_error CodeDataFailure m.

Definition set_trusted (f : gmap string tfile) (n : nat) (t : Trusted) : Trusted :=
  mkTrusted (t_committed t) (t_ready t) f n (t_clock t).
Definition set_committed (h : list Z) (t : Trusted) : Trusted :=
  mkTrusted h true (t_files t) (t_next t) (t_clock t).
Definition set_tclock (n : nat) (t : Trusted) : Trusted :=
  mkTrusted (t_committed t) (t_ready t) (t_files t) (t_next t) n.

(** The content of the configuration file. *)
Definition trusted_config (t : Trusted) : option string := tf_content <$> t_files t !! config_path.

Section Trusted.
Context `{Sha256} (e : trusted_env).

Abbreviation T := (st Trusted).

Definition tstep : T nat := fun t => (t_clock t, set_tclock (S (t_clock t)) t).

(** A call without an effect on files: a directory, a descriptor, a context. *)
Definition call : T (option error) := let! n := tstep in st_ret (fault_error (te_fault e n)).

(** ** The data root (platform.TrustedRoot) *)

Definition OpenFile (name : string) : T (result tfile) :=
  check! call in
  let! t := st_get in
  st_ret match t_files t !! name with Some f => Ok f | None => Err (ESentinel ErrNotExist) end.

Definition readCoreFile (f : tfile) (limit : Z) : T (result string) :=
  check! call in
  st_ret (if limit <? len (tf_content f) then Err (trusted_failure "core object exceeds size limit") else Ok (tf_content f)).

(** [checkDestination]: what stands at the name is what the caller saw. *)
Definition checkDestination (name : string) (expected : option nat) (t : Trusted) : option error :=
  match expected, t_files t !! name with
  | None, None => None
  | None, Some _ => Some (ESentinel ErrExist)
  | Some _, None => Some (ESentinel ErrNotExist)
  | Some id, Some f => if (id =? tf_inode f)%nat then None else Some (EText "trusted component identity changed")
  end.

(** The published inode is reported also when the directory cannot be synced. *)
Definition WriteFileWithIdentity (name data : string) (expected : option nat) : T (option nat * option error) :=
  let! n := tstep in
  match te_fault e n with
  | FErr x => st_ret (None, Some x)
  | f =>
      let! t := st_get in
      match checkDestination name expected t with
      | Some x => st_ret (None, Some x)
      | None =>
          do! st_modify (fun t => set_trusted (<[name := mkTFile data (t_next t)]> (t_files t)) (S (t_next t)) t) in
          st_ret (Some (t_next t), fault_error f)
      end
  end.

Definition RemoveFile (name : string) (expected : nat) : T (option error) :=
  let! n := tstep in
  match te_fault e n with
  | FErr x => st_ret (Some x)
  | f =>
      let! t := st_get in
      match checkDestination name (Some expected) t with
      | Some x => st_ret (Some x)
      | None => do! st_modify (fun t => set_trusted (delete name (t_files t)) (t_next t) t) in st_ret (fault_error f)
      end
  end.

(** ** Capabilities *)

(** [unixVerifiedFile.verify]. *)
Definition file_verify (c : ConfigCapability) : T (result string) :=
  try! f := OpenFile (cc_path c) in
  if negb (tf_inode f =? cc_inode c)%nat then st_ret (Err (EText "trusted component identity changed"))
  else
    check! call in
    try! b := readCoreFile f maxCoreBinarySize in
    st_ret (if bool_decide (sha256 b = cc_hash c) then Ok (cc_path c)
            else Err (trusted_failure "verified core object bytes changed")).

Definition cap_verify (c : ConfigCapability) (committed : bool) : T (result string) :=
  if committed && negb (cc_committed c) then st_ret (Err (ESentinel ErrPermission)) else file_verify c.

(** [ConfigCapability.Path]. *)
Definition cap_Path (c : ConfigCapability) : T (result string) := cap_verify c false.

Fixpoint lower_hex_text (s : string) : bool :=
  match s with
  | EmptyString => true
  | String c s => ((48 <=? byte c) && (byte c <=? 57) || (97 <=? byte c) && (byte c <=? 102)) && lower_hex_text s
  end.

(** The regular expression of generated names, below "staging/". *)
Definition generated_name (relative : string) : bool :=
  HasPrefix relative "staging/config-" && HasSuffix relative ".yaml" && (len relative =? 52)
  && lower_hex_text (take 32 (drop 15 relative)).

(** The first call is [data.Snapshot]: the owner and the mode of the root. *)
Definition BindGeneratedConfig (relative : string) (expected : list Z) : T (result ConfigCapability) :=
  check! call in
  let committed := String.eqb relative config_path in
  if negb committed && negb (generated_name relative) then st_ret (Err (ESentinel ErrPermission))
  else
    check! call in
    try! f := OpenFile relative in
    try! b := readCoreFile f max_config in
    st_ret (if bool_decide (sha256 b = expected) then Ok (mkCapability relative (tf_inode f) expected committed)
            else Err (trusted_failure "generated configuration hash mismatch")).

(** ** Files of the configuration (unixConfigFiles) *)

Definition config_remove (c : ConfigCapability) : T (option error) :=
  if cc_committed c then st_ret (Some (ESentinel ErrInvalid))
  else
    let! v := file_verify c in
    match v with
    | Err x => st_ret (if errors_Is x ErrNotExist then None else Some x)
    | Ok _ => RemoveFile (cc_path c) (cc_inode c)
    end.

Definition joined (x : error) (others : list (option error)) : error :=
  fold_left (fun acc o => match o with Some y => EJoin acc y | None => acc end) others x.

Definition config_prepare (b : string) : T (result ConfigCapability) :=
  let! n := tstep in
  match fault_error (te_fault e n) with
  | Some x => st_ret (Err x)
  | None =>
      let relative := ("staging/config-" ++ te_random e n ++ ".yaml")%string in
      check! call in
      let! '(identity, err) := WriteFileWithIdentity relative b None in
      match err, identity with
      | Some x, Some id =>
          let! r := RemoveFile relative id in
          let! c := call in st_ret (Err (joined x [r; c]))
      | Some x, None => let! c := call in st_ret (Err (joined x [c]))
      | None, _ =>
          let! cap := BindGeneratedConfig relative (sha256 b) in
          match cap with
          | Err x =>
              let! r := match identity with Some id => RemoveFile relative id | None => st_ret None end in
              let! c := call in st_ret (Err (joined x [r; c]))
          | Ok cap =>
              let! c := call in
              match c with
              | Some x => let! r := config_remove cap in let! c := call in st_ret (Err (joined x [r; c]))
              | None => st_ret (Ok cap)
              end
          end
      end
  end.

Definition config_read : T (result string) :=
  check! call in
  let! b := (try! f := OpenFile config_path in
             let! b := readCoreFile f max_config in
             let! c := call in
             st_ret match b, c with Ok b, None => Ok b | Ok _, Some x => Err x | Err x, c => Err (joined x [c]) end) in
  let! c := call in
  st_ret match b, c with Ok b, None => Ok b | Ok _, Some x => Err x | Err x, c => Err (joined x [c]) end.

Definition config_bind (hash : list Z) : T (result ConfigCapability) := BindGeneratedConfig config_path hash.

(** [config_write] over the file the caller saw. *)
Definition config_replace (b : string) (expected : option nat) : T (result ConfigCapability) :=
  let! '(_, err) := WriteFileWithIdentity config_path b expected in
  match err with Some x => st_ret (Err x) | None => config_bind (sha256 b) end.

Definition config_write (b : string) : T (result ConfigCapability) :=
  check! call in
  let! f := OpenFile config_path in
  match f with
  | Ok f => check! call in config_replace b (Some (tf_inode f))
  | Err x => if errors_Is x ErrNotExist then config_replace b None else st_ret (Err x)
  end.

(** ** TrustedExecution *)

Definition CommittedConfig : T (result ConfigCapability) :=
  let! t := st_get in
  if negb (t_ready t) then st_ret (Err (trusted_failure "committed configuration not initialized"))
  else config_bind (t_committed t).

Definition PreviousConfig : T (result string) :=
  try! cap := CommittedConfig in
  try! _ := cap_verify cap true in
  try! b := config_read in
  st_ret (if bool_decide (sha256 b = cc_hash cap) then Ok b
          else Err (trusted_failure "previous configuration changed during capture")).

Definition publishContent (b : string) : T (result ConfigCapability) :=
  try! cap := config_write b in
  do! st_modify (set_committed (sha256 b)) in
  st_ret (Ok cap).

(** The first call is the acquisition of the execution gate. *)
Definition RestoreConfig (previous : string) : T (result ConfigCapability) :=
  check! call in publishContent previous.

(** [GeneratedConfig.Close]. *)
Definition generated_Close (cap : ConfigCapability) : T (option error) :=
  let! x := config_remove cap in let! c := call in st_ret (errors_Join x c).

(** [OpenInstalledCore], and [ValidateVerifiedConfig]: the core checks the file
    behind the capability. *)
Definition open_core : T (option error) := let! n := tstep in st_ret (te_core e n).

Definition validate_config (cap : ConfigCapability) (content : string) : T (option error) :=
  let! v := cap_verify cap false in
  match v with
  | Err x => st_ret (Some x)
  | Ok _ => let! n := tstep in st_ret (te_validate e n content)
  end.

Definition PrepareGenerated (generated : string) : T (result GeneratedConfig) :=
  if len generated =? 0 then st_ret (Err (trusted_failure "generated configuration is empty"))
  else
    try! cap := config_prepare generated in
    let! x := open_core in
    let! x := match x with Some x => st_ret (Some x) | None => validate_config cap generated end in
    match x with
    | Some x => let! c := generated_Close cap in st_ret (Err (joined x [c]))
    | None => st_ret (Ok (mkGenerated cap generated (sha256 generated)))
    end.

Definition publication_unconfirmed (x : error) (others : list (option error)) : error :=
  diagnostics_Wrap (degraded_api CodeDataFailure "configuration publication recovery could not be confirmed")
    (Some (joined x others)).

(** The recovery of [Publish] after a failed write. *)
Definition publish_recovery (g : GeneratedConfig) (ready : bool) (previous : string) (x : error)
    : T (result ConfigCapability) :=
  let! actual := config_read in
  let readErr := match actual with Err y => Some y | Ok _ => None end in
  let known := match actual with
               | Ok b => bool_decide (sha256 b = g_hash g) || bool_decide (sha256 b = sha256 previous)
               | Err _ => false
               end in
  if negb ready || negb known then st_ret (Err (publication_unconfirmed x [readErr]))
  else
    let! restored := publishContent previous in
    match restored with
    | Err y => st_ret (Err (publication_unconfirmed x [Some y]))
    | Ok _ => let! c := call in st_ret (Err (joined x [c]))
    end.

Definition Publish (g : GeneratedConfig) (expected : list Z) : T (result ConfigCapability) :=
  check! call in
  if negb (bool_decide (g_hash g = expected)) || negb (bool_decide (sha256 (g_content g) = expected)) then
    st_ret (Err (trusted_failure "generated configuration changed before commit"))
  else
    try! _ := cap_verify (g_cap g) false in
    let! t := st_get in
    try! previous := if t_ready t then PreviousConfig else st_ret (Ok ""%string) in
    let! published := publishContent (g_content g) in
    match published with
    | Ok cap => st_ret (Ok cap)
    | Err x => publish_recovery g (t_ready t) previous x
    end.

(** The configuration part of [RunCommand]. *)
Definition RunCommand : T (result string) :=
  check! call in
  check! open_core in
  try! c := CommittedConfig in cap_verify c true.

Definition BindRepairConfig : T (option error) :=
  let! content := config_read in
  match content with
  | Err x => st_ret (Some x)
  | Ok content =>
      if len content =? 0 then st_ret (Some (trusted_failure "repair configuration is empty"))
      else
        let! cap := config_bind (sha256 content) in
        match cap with
        | Err x => st_ret (Some x)
        | Ok _ =>
            let! c := call in
            match c with
            | Some x => st_ret (Some x)
            | None => do! st_modify (set_committed (sha256 content)) in st_ret None
            end
        end
  end.

(** [InstalledAvailable], without the answer. *)
Definition InstalledAvailable : T (option error) :=
  let! x := open_core in
  match x with
  | Some x => st_ret (if errors_Is x ErrNotExist then None else Some x)
  | None => call
  end.

(** The body of [InitializeConfig] between the candidate and its removal; a start
    without a core accepts the generated bytes as they are. *)
Definition initialize_with (cap : ConfigCapability) (content : string) : T (option error) :=
  let! x := open_core in
  let! x := match x with
            | None => validate_config cap content
            | Some x => st_ret (if errors_Is x ErrNotExist then None else Some x)
            end in
  match x with
  | Some x => st_ret (Some x)
  | None =>
      let! committed := RestoreConfig content in
      match committed with Err x => st_ret (Some x) | Ok _ => call end
  end.

Definition InitializeConfig (generated : string) : T (option error) :=
  if len generated =? 0 then st_ret (Some (trusted_failure "generated configuration is empty"))
  else
    let! x := InstalledAvailable in
    match x with
    | Some x => st_ret (Some x)
    | None =>
        let! cap := config_prepare generated in
        match cap with
        | Err x => st_ret (Some x)
        | Ok cap =>
            let! r := initialize_with cap generated in
            do! config_remove cap in st_ret r
        end
    end.

End Trusted.

(** ** Lemmas *)

Section Lemmas.
Context `{Sha256} (e : trusted_env).

(** Only time has passed. *)
Definition waited (t t' : Trusted) : Prop := exists n, t' = set_tclock n t.

Lemma waited_refl (t : Trusted) : waited t t.
Proof. exists (t_clock t). by destruct t. Qed.

Lemma waited_trans (a b c : Trusted) : waited a b -> waited b c -> waited a c.
Proof. intros [n ->] [m ->]. by exists m. Qed.

Lemma waited_files (t t' : Trusted) :
  waited t t' -> t_files t' = t_files t /\ t_committed t' = t_committed t /\ t_ready t' = t_ready t.
Proof. by intros [n ->]. Qed.

#[local] Hint Resolve waited_refl waited_trans : mihari.

Lemma call_waited (t t' : Trusted) (x : option error) : call e t = (x, t') -> waited t t'.
Proof. unfold call, tstep. st_unfold. cbn. intros [= _ <-]. by eexists. Qed.

Lemma open_core_waited (t t' : Trusted) (x : option error) : open_core e t = (x, t') -> waited t t'.
Proof. unfold open_core, tstep. st_unfold. cbn. intros [= _ <-]. by eexists. Qed.

Lemma OpenFile_spec (name : string) (t t' : Trusted) (r : result tfile) :
  OpenFile e name t = (r, t') -> waited t t' /\ forall f, r = Ok f -> t_files t !! name = Some f.
Proof.
  unfold OpenFile. intros Hr. apply st_check_inv in Hr as [(x & -> & Hc)|(t1 & Hc & Hr)]; apply call_waited in Hc; [by split|].
  unfold st_bind, st_get in Hr. injection Hr as <- <-. split; [done|]. intros f.
  apply waited_files in Hc as (-> & _). destruct (t_files t !! name); naive_solver.
Qed.

Lemma readCoreFile_spec (f : tfile) (limit : Z) (t t' : Trusted) (r : result string) :
  readCoreFile e f limit t = (r, t') -> waited t t' /\ forall b, r = Ok b -> b = tf_content f.
Proof.
  unfold readCoreFile. intros Hr. apply st_check_inv in Hr as [(x & -> & Hc)|(t1 & Hc & Hr)]; apply call_waited in Hc; [by split|].
  injection Hr as <- <-. split; [done|]. intros b. by case_if; intros [= <-].
Qed.

(** A verified capability names an unchanged file. *)
Lemma file_verify_spec (c : ConfigCapability) (t t' : Trusted) (r : result string) :
  file_verify e c t = (r, t') -> waited t t' /\
  forall p, r = Ok p -> exists f, t_files t !! cc_path c = Some f /\ tf_inode f = cc_inode c /\ sha256 (tf_content f) = cc_hash c.
Proof.
  unfold file_verify. intros Hr.
  apply st_try_inv in Hr as [(x & -> & Ho)|(f & t1 & Ho & Hr)]; apply OpenFile_spec in Ho as [Hw1 Ho]; [by split|].
  specialize (Ho f eq_refl). case_if_in Hr; [injection Hr as <- <-; by split|].
  apply st_check_inv in Hr as [(x & -> & Hc)|(t2 & Hc & Hr)]; apply call_waited in Hc; [split; [eauto with mihari|done]|].
  apply st_try_inv in Hr as [(x & -> & Hb)|(b & t3 & Hb & Hr)]; apply readCoreFile_spec in Hb as [Hw3 Hb];
    [split; [eauto with mihari|done]|].
  injection Hr as <- <-. split; [eauto with mihari|]. intros p. rewrite (Hb b eq_refl). case_if; [|done]. intros _.
  exists f. apply negb_false_iff, Nat.eqb_eq in Heqb. breflect. done.
Qed.

Lemma cap_verify_spec (c : ConfigCapability) (committed : bool) (t t' : Trusted) (r : result string) :
  cap_verify e c committed t = (r, t') -> waited t t' /\
  forall p, r = Ok p -> exists f, t_files t !! cc_path c = Some f /\ sha256 (tf_content f) = cc_hash c.
Proof.
  unfold cap_verify. case_if; [intros [= <- <-]; split; [apply waited_refl|done]|].
  intros Hv. apply file_verify_spec in Hv as [Hw Hv]. split; [done|]. intros p Hp.
  destruct (Hv p Hp) as (f & Hf & _ & Hh). by exists f.
Qed.

Lemma BindGeneratedConfig_spec (relative : string) (expected : list Z) (t t' : Trusted) (r : result ConfigCapability) :
  BindGeneratedConfig e relative expected t = (r, t') -> waited t t' /\
  forall c, r = Ok c -> cc_path c = relative /\ cc_hash c = expected /\
    exists f, t_files t !! relative = Some f /\ sha256 (tf_content f) = expected.
Proof.
  unfold BindGeneratedConfig. intros Hr.
  apply st_check_inv in Hr as [(x & -> & Hc)|(t1 & Hc & Hr)]; apply call_waited in Hc; [by split|].
  case_if_in Hr; [injection Hr as <- <-; by split|].
  apply st_check_inv in Hr as [(x & -> & Hc2)|(t2 & Hc2 & Hr)]; apply call_waited in Hc2; [split; [eauto with mihari|done]|].
  apply st_try_inv in Hr as [(x & -> & Ho)|(f & t3 & Ho & Hr)]; apply OpenFile_spec in Ho as [Hw3 Ho];
    [split; [eauto with mihari|done]|].
  apply st_try_inv in Hr as [(x & -> & Hb)|(b & t4 & Hb & Hr)]; apply readCoreFile_spec in Hb as [Hw4 Hb];
    [split; [eauto with mihari|done]|].
  injection Hr as <- <-. split; [eauto with mihari|]. intros c. rewrite (Hb b eq_refl). case_if; [|done]. intros [= <-].
  cbn. split; [done|]. split; [done|]. exists f. breflect. split; [|done]. specialize (Ho f eq_refl).
  apply waited_files in Hc as (Hf1 & _), Hc2 as (Hf2 & _). congruence.
Qed.

Lemma config_read_spec (t t' : Trusted) (r : result string) :
  config_read e t = (r, t') -> waited t t' /\ forall b, r = Ok b -> trusted_config t = Some b.
Proof.
  unfold config_read. intros Hr.
  apply st_check_inv in Hr as [(x & -> & Hc)|(t1 & Hc & Hr)]; apply call_waited in Hc; [by split|].
  apply st_bind_inv in Hr as (b & t2 & Hb & Hr). apply st_bind_inv in Hr as (c & t3 & Hc3 & Hr). injection Hr as <- <-.
  apply call_waited in Hc3.
  assert (Hin : waited t1 t2 /\ forall v, b = Ok v -> trusted_config t1 = Some v).
  { apply st_try_inv in Hb as [(x & -> & Ho)|(f & t4 & Ho & Hb)]; apply OpenFile_spec in Ho as [Hw4 Ho]; [by split|].
    apply st_bind_inv in Hb as (v & t5 & Hv & Hb). apply readCoreFile_spec in Hv as [Hw5 Hv].
    apply st_bind_inv in Hb as (c2 & t6 & Hc2 & Hb). injection Hb as <- <-. apply call_waited in Hc2.
    split; [eauto with mihari|]. destruct v as [v|], c2; try done. intros w [= <-].
    unfold trusted_config. rewrite (Ho f eq_refl). cbn. by rewrite (Hv v eq_refl). }
  destruct Hin as [Hw Hin]. split; [eauto with mihari|]. destruct b as [b|], c; try done. intros w [= <-].
  unfold trusted_config. apply waited_files in Hc as (<- & _). by apply Hin.
Qed.

(** The captured configuration is the committed one. *)
Lemma PreviousConfig_spec (t t' : Trusted) (r : result string) :
  PreviousConfig e t = (r, t') -> waited t t' /\
  forall b, r = Ok b -> trusted_config t = Some b /\ sha256 b = t_committed t /\ t_ready t = true.
Proof.
  unfold PreviousConfig, CommittedConfig. intros Hr.
  apply st_try_inv in Hr as [(x & -> & Hc)|(cap & t1 & Hc & Hr)]; unfold st_bind at 1, st_get in Hc; cbn beta iota in Hc;
    case_if_in Hc; try (injection Hc as <- <-; split; [apply waited_refl|done]); try discriminate;
    apply BindGeneratedConfig_spec in Hc as [Hw1 Hc]; [by split|].
  destruct (Hc cap eq_refl) as (_ & Hh & _).
  apply st_try_inv in Hr as [(x & -> & Hv)|(p & t2 & Hv & Hr)]; apply cap_verify_spec in Hv as [Hw2 _];
    [split; [eauto with mihari|done]|].
  apply st_try_inv in Hr as [(x & -> & Hb)|(b & t3 & Hb & Hr)]; apply config_read_spec in Hb as [Hw3 Hb];
    [split; [eauto with mihari|done]|].
  injection Hr as <- <-. split; [eauto with mihari|]. intros v. case_if; [|done]. intros [= <-].
  apply negb_false_iff in Heqb. breflect. split; [|split; [congruence|done]]. specialize (Hb b eq_refl).
  unfold trusted_config in *. apply waited_files in Hw1 as (Hf1 & _), Hw2 as (Hf2 & _). congruence.
Qed.

(** *** Writes *)

(** What a write may do to the configuration; the memory of the hash stays. *)
Definition config_written (b : string) (t t' : Trusted) : Prop :=
  t_committed t' = t_committed t /\ t_ready t' = t_ready t /\
  (trusted_config t' = trusted_config t \/ trusted_config t' = Some b).

Lemma waited_written (b : string) (t t' : Trusted) : waited t t' -> config_written b t t'.
Proof. intros [n ->]. split; [done|]. split; [done|]. by left. Qed.

Lemma config_written_trans (b : string) (x y z : Trusted) :
  waited x y -> config_written b y z -> config_written b x z.
Proof. intros [n ->] (Hc & Hr & Hf). done. Qed.

Lemma WriteFile_config (b : string) (expected : option nat) (t t' : Trusted) (id : option nat) (x : option error) :
  WriteFileWithIdentity e config_path b expected t = ((id, x), t') ->
  config_written b t t' /\ (x = None -> trusted_config t' = Some b).
Proof.
  unfold WriteFileWithIdentity, tstep. st_unfold. cbn. intros Hw.
  assert (Hpub : forall n, trusted_config (set_trusted (<[config_path := mkTFile b n]> (t_files t)) (S (t_next t)) (set_tclock (S (t_clock t)) t)) = Some b).
  { intros n. unfold trusted_config. cbn. by rewrite lookup_insert_eq. }
  destruct (te_fault e (t_clock t)) as [|y|y].
  - destruct (checkDestination _ _ _); injection Hw as <- <- <-; (split; [|done || (intros _; apply Hpub)]).
    + apply waited_written. by eexists.
    + split; [done|]. split; [done|]. right. apply Hpub.
  - injection Hw as <- <- <-. split; [|done]. apply waited_written. by eexists.
  - destruct (checkDestination _ _ _); injection Hw as <- <- <-; (split; [|done]).
    + apply waited_written. by eexists.
    + split; [done|]. split; [done|]. right. apply Hpub.
Qed.

Lemma config_replace_spec (b : string) (expected : option nat) (t t' : Trusted) (r : result ConfigCapability) :
  config_replace e b expected t = (r, t') ->
  config_written b t t' /\ forall c, r = Ok c -> trusted_config t' = Some b /\ cc_hash c = sha256 b.
Proof.
  unfold config_replace. intros Hr. apply st_bind_inv in Hr as ([id x] & t1 & Hw & Hb).
  apply WriteFile_config in Hw as [Hw Hok]. destruct x as [x|]; [injection Hb as <- <-; by split|].
  apply BindGeneratedConfig_spec in Hb as [[n ->] Hb]. split; [exact Hw|].
  intros c Hc. split; [by apply Hok|]. by destruct (Hb c Hc) as (_ & Hh & _).
Qed.

Lemma config_write_spec (b : string) (t t' : Trusted) (r : result ConfigCapability) :
  config_write e b t = (r, t') ->
  config_written b t t' /\ forall c, r = Ok c -> trusted_config t' = Some b /\ cc_hash c = sha256 b.
Proof.
  unfold config_write. intros Hr.
  apply st_check_inv in Hr as [(x & -> & Hc)|(t1 & Hc & Hr)]; apply call_waited in Hc.
  { split; [by apply waited_written|done]. }
  apply st_bind_inv in Hr as (f & t2 & Ho & Hr). apply OpenFile_spec in Ho as [Hw2 _].
  assert (Hw : waited t t2) by eauto with mihari. destruct f as [f|x].
  - apply st_check_inv in Hr as [(x & -> & Hc2)|(t3 & Hc2 & Hr)]; apply call_waited in Hc2.
    { split; [apply waited_written; eauto with mihari|done]. }
    apply config_replace_spec in Hr as [Hr Hok]. split; [|done]. eapply config_written_trans; [|exact Hr]. eauto with mihari.
  - case_if_in Hr.
    + apply config_replace_spec in Hr as [Hr Hok]. split; [|done]. by eapply config_written_trans.
    + injection Hr as <- <-. split; [by apply waited_written|done].
Qed.

Lemma publishContent_spec (b : string) (t t' : Trusted) (r : result ConfigCapability) :
  publishContent e b t = (r, t') ->
  match r with
  | Ok c => trusted_config t' = Some b /\ t_committed t' = sha256 b /\ t_ready t' = true /\ cc_hash c = sha256 b
  | Err _ => config_written b t t'
  end.
Proof.
  unfold publishContent. intros Hr.
  apply st_try_inv in Hr as [(x & -> & Hw)|(c & t1 & Hw & Hr)]; apply config_write_spec in Hw as [Hw Hok]; [done|].
  destruct (Hok c eq_refl) as [Hc Hh]. injection Hr as <- <-. done.
Qed.

Lemma RestoreConfig_spec (b : string) (t t' : Trusted) (r : result ConfigCapability) :
  RestoreConfig e b t = (r, t') ->
  match r with
  | Ok c => trusted_config t' = Some b /\ t_committed t' = sha256 b /\ t_ready t' = true /\ cc_hash c = sha256 b
  | Err _ => config_written b t t'
  end.
Proof.
  unfold RestoreConfig. intros Hr.
  apply st_check_inv in Hr as [(x & -> & Hc)|(t1 & Hc & Hr)]; apply call_waited in Hc; [by apply waited_written|].
  apply publishContent_spec in Hr. destruct r; [done|]. by eapply config_written_trans.
Qed.
(** *** Publication *)

(** The configuration and what is remembered of it. *)
Definition same_config (t t' : Trusted) : Prop :=
  trusted_config t' = trusted_config t /\ t_committed t' = t_committed t /\ t_ready t' = t_ready t.

Lemma waited_same (t t' : Trusted) : waited t t' -> same_config t t'.
Proof. by intros [n ->]. Qed.

Lemma publish_recovery_spec (g : GeneratedConfig) (ready : bool) (previous : string) (x : error) (t t' : Trusted)
    (r : result ConfigCapability) :
  publish_recovery e g ready previous x t = (r, t') ->
  exists y, r = Err y /\
    (error_degraded y = true \/
     ready = true /\ trusted_config t' = Some previous /\ t_committed t' = sha256 previous /\ t_ready t' = true).
Proof.
  unfold publish_recovery. intros Hr. apply st_bind_inv in Hr as (actual & t1 & _ & Hr).
  case_if_in Hr; [injection Hr as <- <-; eexists; split; [done|]; by left|].
  apply orb_false_iff in Heqb as [Hrd _]. apply negb_false_iff in Hrd.
  apply st_bind_inv in Hr as (restored & t2 & Hp & Hr). apply publishContent_spec in Hp.
  destruct restored as [c|y]; [|injection Hr as <- <-; eexists; split; [done|]; by left].
  apply st_bind_inv in Hr as (cl & t3 & Hc & Hr). injection Hr as <- <-. apply call_waited in Hc as [n ->].
  eexists. split; [done|]. right. destruct Hp as (? & ? & ? & _). done.
Qed.

Lemma TrustedPublish_spec (g : GeneratedConfig) (expected : list Z) (t t' : Trusted) (r : result ConfigCapability) :
  Publish e g expected t = (r, t') ->
  match r with
  | Ok c => trusted_config t' = Some (g_content g) /\ t_committed t' = sha256 (g_content g) /\ t_ready t' = true /\
            sha256 (g_content g) = expected /\ cc_hash c = expected
  | Err x => error_degraded x = true \/ same_config t t'
  end.
Proof.
  unfold Publish. intros Hr.
  apply st_check_inv in Hr as [(x & -> & Hc)|(t1 & Hc & Hr)]; apply call_waited in Hc; [right; by apply waited_same|].
  case_if_in Hr; [injection Hr as <- <-; right; by apply waited_same|].
  apply orb_false_iff in Heqb as [_ Hx]. apply negb_false_iff in Hx. breflect.
  apply st_try_inv in Hr as [(x & -> & Hv)|(p & t2 & Hv & Hr)]; apply cap_verify_spec in Hv as [Hw2 _];
    [right; apply waited_same; eauto with mihari|].
  unfold st_bind at 1, st_get in Hr. cbn beta iota in Hr.
  assert (Hw : waited t t2) by eauto with mihari.
  apply st_try_inv in Hr as [(x & -> & Hp)|(previous & t3 & Hp & Hr)].
  { right. destruct (t_ready t2); [apply PreviousConfig_spec in Hp as [Hp _]; apply waited_same; eauto with mihari|discriminate]. }
  assert (Hprev : waited t2 t3 /\ (t_ready t2 = true -> trusted_config t2 = Some previous /\ sha256 previous = t_committed t2)).
  { destruct (t_ready t2); [apply PreviousConfig_spec in Hp as [Hp Hq]; destruct (Hq previous eq_refl) as (? & ? & _); done|].
    injection Hp as _ <-. split; [apply waited_refl|done]. }
  destruct Hprev as [Hw3 Hprev].
  apply st_bind_inv in Hr as (published & t4 & Hpub & Hr). apply publishContent_spec in Hpub. destruct published as [c|x].
  - injection Hr as <- <-. destruct Hpub as (? & ? & ? & ?). split_and!; congruence.
  - apply publish_recovery_spec in Hr as (y & -> & [Hy|(Hrd & Hcfg & Hcom & Hready)]); [by left|]. right.
    destruct (Hprev Hrd) as [Hc2 Hs2]. destruct (waited_same _ _ Hw) as (Ha & Hb & Hd).
    split_and!; congruence.
Qed.

(** *** Candidates do not touch the configuration *)

Lemma same_config_trans (a b c : Trusted) : same_config a b -> same_config b c -> same_config a c.
Proof. intros (? & ? & ?) (? & ? & ?). split_and!; congruence. Qed.

#[local] Hint Resolve waited_same same_config_trans : mihari.

Lemma WriteFile_other (name data : string) (expected : option nat) (t t' : Trusted) (a : option nat * option error) :
  WriteFileWithIdentity e name data expected t = (a, t') -> name <> config_path -> same_config t t'.
Proof.
  unfold WriteFileWithIdentity, tstep. st_unfold. cbn. intros Hw Hne.
  destruct (te_fault e (t_clock t)); [destruct (checkDestination _ _ _)| |destruct (checkDestination _ _ _)];
    injection Hw as _ <-; try done; (split; [|done]); unfold trusted_config; cbn; by rewrite lookup_insert_ne.
Qed.

Lemma RemoveFile_other (name : string) (id : nat) (t t' : Trusted) (x : option error) :
  RemoveFile e name id t = (x, t') -> name <> config_path -> same_config t t'.
Proof.
  unfold RemoveFile, tstep. st_unfold. cbn [fst snd]. intros Hw Hne.
  destruct (te_fault e (t_clock t)); [destruct (checkDestination _ _ _)| |destruct (checkDestination _ _ _)];
    injection Hw as _ <-; try done; (split; [|done]); unfold trusted_config; cbn; by rewrite lookup_delete_ne.
Qed.

Lemma config_remove_other (c : ConfigCapability) (t t' : Trusted) (x : option error) :
  config_remove e c t = (x, t') -> cc_path c <> config_path -> same_config t t'.
Proof.
  unfold config_remove. intros Hr Hne. case_if_in Hr; [injection Hr as _ <-; done|].
  apply st_bind_inv in Hr as (v & t1 & Hv & Hr). apply file_verify_spec in Hv as [Hv _].
  destruct v as [v|y]; [|injection Hr as _ <-; by apply waited_same]. apply RemoveFile_other in Hr; eauto with mihari.
Qed.

Lemma generated_Close_other (c : ConfigCapability) (t t' : Trusted) (x : option error) :
  generated_Close e c t = (x, t') -> cc_path c <> config_path -> same_config t t'.
Proof.
  unfold generated_Close. intros Hr Hne. apply st_bind_inv in Hr as (y & t1 & Hy & Hr).
  apply config_remove_other in Hy; [|done]. apply st_bind_inv in Hr as (z & t2 & Hz & Hr). injection Hr as _ <-.
  apply call_waited in Hz. eauto with mihari.
Qed.

Lemma staging_other (s : string) : ("staging/config-" ++ s)%string <> config_path.
Proof. by intros [=]. Qed.

Lemma config_prepare_spec (b : string) (t t' : Trusted) (r : result ConfigCapability) :
  config_prepare e b t = (r, t') -> same_config t t' /\ forall c, r = Ok c -> cc_path c <> config_path.
Proof.
  unfold config_prepare. intros Hr. apply st_bind_inv in Hr as (n & t1 & Hn & Hr).
  assert (H1 : waited t t1) by (injection Hn as _ <-; by eexists). clear Hn.
  destruct (fault_error (te_fault e n)) as [x|]; [injection Hr as <- <-; split; [auto with mihari|done]|].
  set (relative := ("staging/config-" ++ _)%string) in *. assert (Hne : relative <> config_path) by apply staging_other.
  apply st_check_inv in Hr as [(x & -> & Hc)|(t2 & Hc & Hr)]; apply call_waited in Hc; [split; [eauto with mihari|done]|].
  apply st_bind_inv in Hr as ([id err] & t3 & Hw & Hr). apply WriteFile_other in Hw; [|done].
  assert (H3 : same_config t t3) by eauto with mihari. destruct err as [x|].
  { destruct id as [id|].
    - apply st_bind_inv in Hr as (y & t4 & Hy & Hr). apply RemoveFile_other in Hy; [|done].
      apply st_bind_inv in Hr as (z & t5 & Hz & Hr). injection Hr as <- <-. apply call_waited in Hz. split; [eauto with mihari|done].
    - apply st_bind_inv in Hr as (z & t5 & Hz & Hr). injection Hr as <- <-. apply call_waited in Hz. split; [eauto with mihari|done]. }
  apply st_bind_inv in Hr as (cap & t4 & Hb & Hr). apply BindGeneratedConfig_spec in Hb as [Hw4 Hb].
  assert (H4 : same_config t t4) by eauto with mihari. destruct cap as [cap|x].
  - destruct (Hb cap eq_refl) as (Hp & _). apply st_bind_inv in Hr as (z & t5 & Hz & Hr). apply call_waited in Hz.
    assert (H5 : same_config t t5) by eauto with mihari.
    destruct z as [z|]; [|injection Hr as <- <-; split; [done|]; intros c [= <-]; congruence].
    apply st_bind_inv in Hr as (y & t6 & Hy & Hr). apply config_remove_other in Hy; [|congruence].
    apply st_bind_inv in Hr as (w & t7 & Hw7 & Hr). injection Hr as <- <-. apply call_waited in Hw7. split; [eauto with mihari|done].
  - apply st_bind_inv in Hr as (y & t5 & Hy & Hr). apply st_bind_inv in Hr as (z & t6 & Hz & Hr). injection Hr as <- <-.
    apply call_waited in Hz. assert (H5 : same_config t4 t5) by (destruct id; [by apply RemoveFile_other in Hy|by injection Hy as _ <-]).
    split; [eauto with mihari|done].
Qed.

Lemma validate_config_waited (cap : ConfigCapability) (content : string) (t t' : Trusted) (x : option error) :
  validate_config e cap content t = (x, t') -> waited t t'.
Proof.
  unfold validate_config. intros Hr. apply st_bind_inv in Hr as (v & t1 & Hv & Hr). apply cap_verify_spec in Hv as [Hv _].
  destruct v as [v|y]; [|by injection Hr as _ <-]. apply st_bind_inv in Hr as (n & t2 & Hn & Hr). injection Hr as _ <-.
  injection Hn as _ <-. eapply waited_trans; [exact Hv|]. by eexists.
Qed.

(** Preparing a configuration leaves the committed one alone; the candidate was
    accepted by the core, byte for byte. *)
Lemma PrepareGenerated_spec (content : string) (t t' : Trusted) (r : result GeneratedConfig) :
  PrepareGenerated e content t = (r, t') -> same_config t t' /\
  forall g, r = Ok g -> g_content g = content /\ g_hash g = sha256 content /\ cc_path (g_cap g) <> config_path /\
    exists n, te_validate e n content = None.
Proof.
  unfold PrepareGenerated. intros Hr. case_if_in Hr; [injection Hr as <- <-; by split|].
  apply st_try_inv in Hr as [(x & -> & Hp)|(cap & t1 & Hp & Hr)]; apply config_prepare_spec in Hp as [Hs1 Hp]; [by split|].
  specialize (Hp cap eq_refl). apply st_bind_inv in Hr as (x & t2 & Hx & Hr). apply open_core_waited in Hx.
  apply st_bind_inv in Hr as (y & t3 & Hy & Hr).
  assert (H3 : waited t2 t3) by (destruct x; [by injection Hy as _ <-; apply waited_refl|by apply validate_config_waited in Hy]).
  assert (Hs3 : same_config t t3) by eauto with mihari. destruct y as [y|].
  - apply st_bind_inv in Hr as (c & t4 & Hc & Hr). injection Hr as <- <-. apply generated_Close_other in Hc; [|done].
    split; [eauto with mihari|done].
  - injection Hr as <- <-. split; [done|]. intros g [= <-]. split; [done|]. split; [done|]. split; [done|].
    destruct x as [x|]; [discriminate|]. unfold validate_config in Hy. apply st_bind_inv in Hy as (v & t5 & _ & Hy).
    destruct v as [v|v]; [|discriminate]. unfold tstep in Hy. st_unfold. cbn in Hy. injection Hy as Hy _. by exists (t_clock t5).
Qed.

(** A command to run the core names a file with the committed hash. *)
Lemma RunCommand_spec (t t' : Trusted) (p : string) :
  RunCommand e t = (Ok p, t') ->
  p = config_path /\ t_ready t = true /\ exists b, trusted_config t = Some b /\ sha256 b = t_committed t.
Proof.
  unfold RunCommand, CommittedConfig. intros Hr.
  apply st_check_inv in Hr as [(x & [=] & _)|(t1 & Hc & Hr)]. apply call_waited in Hc as [n1 ->].
  apply st_check_inv in Hr as [(x & [=] & _)|(t2 & Hc & Hr)]. apply open_core_waited in Hc as [n2 ->].
  apply st_try_inv in Hr as [(x & [=] & _)|(c & t3 & Hb & Hr)].
  unfold st_bind at 1, st_get in Hb. cbn beta iota in Hb. case_if_in Hb; [discriminate|].
  apply BindGeneratedConfig_spec in Hb as [Hw Hb]. destruct (Hb c eq_refl) as (Hpath & _ & f & Hf & Hs).
  apply negb_false_iff in Heqb. cbn in Heqb, Hf, Hs.
  assert (p = cc_path c) as ->.
  { revert Hr. unfold cap_verify. case_if; [done|]. unfold file_verify. intros Hv.
    apply st_try_inv in Hv as [(x & [=] & _)|(f' & t4 & _ & Hv)]. case_if_in Hv; [discriminate|].
    apply st_check_inv in Hv as [(x & [=] & _)|(t5 & _ & Hv)]. apply st_try_inv in Hv as [(x & [=] & _)|(b & t6 & _ & Hv)].
    injection Hv as Hv _. revert Hv. by case_if; intros [= <-]. }
  split; [done|]. split; [done|]. exists (tf_content f). unfold trusted_config. rewrite Hf. done.
Qed.

End Lemmas.

(** ** Theorems *)

(** C30. Publishing a prepared configuration either installs exactly the bytes
    the core accepted and remembers their hash, or leaves the configuration and
    the remembered hash as they were, or reports the degraded state; wherever the
    file operations fail, and whatever happened between preparation and
    publication. *)
Theorem publish_installs_validated `{Sha256} (e : trusted_env) (content : string) (t0 t1 t t' : Trusted)
    (g : GeneratedConfig) (r : result ConfigCapability) :
  PrepareGenerated e content t0 = (Ok g, t1) -> Publish e g (sha256 content) t = (r, t') ->
  match r with
  | Ok c => trusted_config t' = Some content /\ t_committed t' = sha256 content /\ t_ready t' = true /\
            cc_hash c = sha256 content /\ exists n, te_validate e n content = None
  | Err x => error_degraded x = true \/ same_config t t'
  end.
Proof.
  intros Hp Hr. apply PrepareGenerated_spec in Hp as [_ Hp]. destruct (Hp g eq_refl) as (Hc & _ & _ & Hv).
  apply TrustedPublish_spec in Hr. rewrite Hc in Hr.
  destruct r as [c|x]; [|done]. by destruct Hr as (? & ? & ? & _ & ?).
Qed.

(** C31. A core is never started with a configuration that was changed behind the
    daemon's back: after a publication, whatever the files hold when the core is
    to be started, the start is refused unless the configuration has the hash of
    the published bytes. *)
Theorem tampered_config_not_run `{Sha256} (e e' : trusted_env) (content p : string) (g : GeneratedConfig)
    (c : ConfigCapability) (t t1 t2 t3 : Trusted) :
  Publish e g (sha256 content) t = (Ok c, t1) ->
  t_committed t2 = t_committed t1 -> t_ready t2 = t_ready t1 ->
  RunCommand e' t2 = (Ok p, t3) ->
  p = config_path /\ exists b, trusted_config t2 = Some b /\ sha256 b = sha256 content.
Proof.
  intros Hp Hc2 Hr2 Hrun. apply TrustedPublish_spec in Hp as (_ & Hcom & _ & Hs & _).
  apply RunCommand_spec in Hrun as (-> & _ & b & Hb & Hh). split; [done|]. exists b. split; [done|]. congruence.
Qed.

(** ** Witnesses *)

Section Witnesses.

#[local] Instance example_hash : Sha256 := toy_hash.

(** A daemon that accepted the configuration "a". *)
Definition ex_trusted : Trusted :=
  mkTrusted (sha256 "a") true {[config_path := mkTFile "a" 0]} 1 0.

(** The operation at tick [late] fails after its effect. *)
Definition ex_trusted_env (late : nat) : trusted_env :=
  mkTrustedEnv (fun n => if (n =? late)%nat then FLate (EText "sync") else FOk) (fun _ => None) (fun _ _ => None)
    (fun _ => "000102030405060708090a0b0c0d0e0f"%string).

Definition ex_prepared : result GeneratedConfig * Trusted := PrepareGenerated (ex_trusted_env 100) "bb" ex_trusted.

Definition ex_generated : GeneratedConfig := mkGenerated (mkCapability "staging/config-000102030405060708090a0b0c0d0e0f.yaml" 1 (sha256 "bb") false) "bb" (sha256 "bb").

Lemma ex_prepared_ok : ex_prepared = (Ok ex_generated, snd ex_prepared).
Proof. vm_compute. reflexivity. Qed.

Lemma ex_prepared_late : PrepareGenerated (ex_trusted_env 32) "bb" ex_trusted = (Ok ex_generated, snd ex_prepared).
Proof. vm_compute. reflexivity. Qed.

Definition ex_published (late : nat) : result ConfigCapability * Trusted :=
  Publish (ex_trusted_env late) ex_generated (sha256 "bb") (snd ex_prepared).

Lemma ex_published_ok : is_Ok (fst (ex_published 100)) = true.
Proof. vm_compute. reflexivity. Qed.

Lemma ex_published_config : trusted_config (snd (ex_published 100)) = Some "bb"%string.
Proof. vm_compute. reflexivity. Qed.
(** The directory sync behind the rename of the new configuration fails. *)
Lemma ex_published_late : is_Ok (fst (ex_published 32)) = false /\
  match fst (ex_published 32) with Err x => error_degraded x | Ok _ => true end = false.
Proof. vm_compute. done. Qed.

Lemma publish_installs_validated_witness : trusted_config (snd (ex_published 32)) = Some "a"%string.
Proof.
  destruct ex_published_late as [Hbad Hdeg]. destruct (ex_published 32) as [r t'] eqn:Hr. cbn [fst snd] in *.
  pose proof (publish_installs_validated (ex_trusted_env 32) "bb" ex_trusted (snd ex_prepared) (snd ex_prepared) t' ex_generated r
    ex_prepared_late Hr) as Hs.
  destruct r as [c|x]; [discriminate Hbad|]. destruct Hs as [Hs|[Hs _]]; [congruence|]. exact Hs.
Defined.

Lemma ex_published_result : ex_published 100 = (Ok (mkCapability config_path 2 (sha256 "bb") true), snd (ex_published 100)).
Proof. vm_compute. reflexivity. Qed.

Lemma ex_run_ok : RunCommand (ex_trusted_env 100) (snd (ex_published 100))
  = (Ok config_path, snd (RunCommand (ex_trusted_env 100) (snd (ex_published 100)))).
Proof. vm_compute. reflexivity. Qed.

Lemma tampered_config_not_run_witness :
  exists b, trusted_config (snd (ex_published 100)) = Some b /\ sha256 b = sha256 "bb".
Proof.
  exact (proj2 (tampered_config_not_run (ex_trusted_env 100) (ex_trusted_env 100) "bb" config_path ex_generated
    _ (snd ex_prepared) _ (snd (ex_published 100)) _ ex_published_result eq_refl eq_refl ex_run_ok)).
Defined.

End Witnesses.
