(* ===== verification/RuntimeConfig.v ===== *)
(** * RuntimeConfig: changing what the core runs

    Models [internal/runtime/routing_config.go], [logging_sync.go] and the
    configuration and catalog operations of [internal/runtime/subscription.go].
    It composes the manager, the routing service, the subscription service, the
    generator and the trusted configuration: a change of the active subscription
    changes the catalog, the configuration file, the running core and the saved
    routing together, or takes back what it did.

    - [Runtime] is the manager, the subscription service with its files, the
      trusted configuration, and the configuration the core has loaded.
    - A reload that reports success has loaded the configuration file; one that
      reports an error may or may not have.
    - Where a request does not own the mutation, other requests may run: the
      environment's [re_others] is any change of the whole state. *)

From S2P Require Import Prelude GoStd SelfUpdate Atomic State Settings Catalog SubService TrustedConfig Generator FileRefs.
From S2P Require Import Manager Routing.

(** What [loggingObservation] holds. *)
Record logging_observation := mkObservation {
  ob_level : string;
  ob_state : string;
  ob_message : string
}.

#[export] Instance logging_observation_eq_dec : EqDecision logging_observation.
Proof. solve_decision. Defined.

Record Runtime (FS AEnv W : Type) := mkRuntime {
  mgr : Manager FS;
  svc : Service AEnv W;
  trusted : Trusted;
  loaded : option string;
  coreEpoch : Z;
  loggingUnsaved : bool;
  loggingObservation : logging_observation;
  egressTunName : string
}.
Arguments mkRuntime {FS AEnv W}.
Arguments mgr {FS AEnv W}. Arguments svc {FS AEnv W}. Arguments trusted {FS AEnv W}. Arguments loaded {FS AEnv W}.
Arguments coreEpoch {FS AEnv W}. Arguments loggingUnsaved {FS AEnv W}. Arguments loggingObservation {FS AEnv W}.
Arguments egressTunName {FS AEnv W}.

(** How the core answers a reload, and what it reports afterwards. *)
Record reload_answer := mkReload {
  ra_err : option error;
  ra_took : bool;
  ra_kernel : Kernel
}.

(** [configCandidate] without the path of its staging file. *)
Record configCandidate := mkConfigCandidate {
  c_generation : Z;
  c_bound : bool;
  c_generated : option GeneratedConfig;
  c_hash : list Z;
  c_content : string
}.

(** The options and the environment; [re_staging] is the outcome of writing and
    validating a staging file without a trusted core. *)
Record rt_env (Env FS AEnv W : Type) := mkRtEnv {
  re_options : Options;
  re_config : path;
  re_reloader : bool;
  re_logging : bool;
  re_env : environment Env;
  re_trusted : trusted_env;
  re_reload : nat -> reload_answer;
  re_staging : nat -> option error;
  re_others : Runtime FS AEnv W -> Runtime FS AEnv W
}.
Arguments mkRtEnv {Env FS AEnv W}.
Arguments re_options {Env FS AEnv W}. Arguments re_config {Env FS AEnv W}. Arguments re_reloader {Env FS AEnv W}.
Arguments re_logging {Env FS AEnv W}. Arguments re_env {Env FS AEnv W}. Arguments re_trusted {Env FS AEnv W}.
Arguments re_reload {Env FS AEnv W}. Arguments re_staging {Env FS AEnv W}. Arguments re_others {Env FS AEnv W}.

Section Setters.
Context {FS AEnv W : Type}.
Implicit Type r : Runtime FS AEnv W.

Definition set_mgr (m : Manager FS) r : Runtime FS AEnv W :=
  mkRuntime m (svc r) (trusted r) (loaded r) (coreEpoch r) (loggingUnsaved r) (loggingObservation r) (egressTunName r).
Definition set_svc (s : Service AEnv W) r : Runtime FS AEnv W :=
  mkRuntime (mgr r) s (trusted r) (loaded r) (coreEpoch r) (loggingUnsaved r) (loggingObservation r) (egressTunName r).
Definition set_trusted_config (t : Trusted) r : Runtime FS AEnv W :=
  mkRuntime (mgr r) (svc r) t (loaded r) (coreEpoch r) (loggingUnsaved r) (loggingObservation r) (egressTunName r).
Definition set_loaded (c : option string) r : Runtime FS AEnv W :=
  mkRuntime (mgr r) (svc r) (trusted r) c (coreEpoch r) (loggingUnsaved r) (loggingObservation r) (egressTunName r).
Definition set_unsaved (b : bool) r : Runtime FS AEnv W :=
  mkRuntime (mgr r) (svc r) (trusted r) (loaded r) (coreEpoch r) b (loggingObservation r) (egressTunName r).
Definition set_observation (x : logging_observation) r : Runtime FS AEnv W :=
  mkRuntime (mgr r) (svc r) (trusted r) (loaded r) (coreEpoch r) (loggingUnsaved r) x (egressTunName r).
Definition set_egressTunName (name : string) r : Runtime FS AEnv W :=
  mkRuntime (mgr r) (svc r) (trusted r) (loaded r) (coreEpoch r) (loggingUnsaved r) (loggingObservation r) name.

(** The manager reads the catalog of the service. *)
Definition with_subscriptions (c : Catalog) (m : Manager FS) : Manager FS :=
  mkManager (settings m) (configGeneration m) (mutationDegraded m) (closing m) (coreRecovery m) (coreUpdate m)
    (stopCoreOnUnlock m) (store m) (Some c) (routingMessage m) (tunLastError m) (fs m) (kernel m) (osProxy m) (clock m).

#[export] Program Instance HasStore_Runtime : HasStore (Runtime FS AEnv W) :=
  {| State.Load := fun r => store (mgr r); State.Store := fun s r => set_mgr (set_store s (mgr r)) r |}.
Next Obligation. reflexivity. Qed.

End Setters.

Section Runtime.
Context `{CaseFold} `{SourceSyntax} `{CatalogYAML} `{DocumentYAML} `{PEM} `{Sha256}
  {Env FS AEnv W : Type} `{SettingsFile Env FS} `{AtomicFile AEnv W} (E : rt_env Env FS AEnv W).

Abbreviation R := (st (Runtime FS AEnv W)).
Abbreviation o := (re_options E).
Abbreviation e := (re_env E).
Abbreviation te := (re_trusted E).

(** ** The parts *)

Definition onM {A} (m : st (Manager FS) A) : R A :=
  fun r => let '(a, m') := m (with_subscriptions (catalog (svc r)) (mgr r)) in (a, set_mgr m' r).
Definition onS {A} (m : st (Service AEnv W) A) : R A :=
  fun r => let '(a, s) := m (svc r) in (a, set_svc s r).
Definition onT {A} (m : st Trusted A) : R A :=
  fun r => let '(a, t) := m (trusted r) in (a, set_trusted_config t r).

(** Other requests run. *)
Definition gap : R unit := st_modify (re_others E).

(** The content of the configuration file. *)
Definition active_config (r : Runtime FS AEnv W) : option string :=
  if trustedCore o then trusted_config (trusted r) else af_read (re_config E) (disk (svc r)).

(** [reloader.Reload]. *)
Definition Reload : R (option error) :=
  let! n := onM Manager.tick in
  let a := re_reload E n in
  fun r =>
    (ra_err a,
     if bool_decide (ra_err a = None) || ra_took a
     then set_loaded (active_config r) (set_mgr (set_kernel (ra_kernel a) (mgr r)) r) else r).

(** [config.AtomicWrite] of the configuration file. *)
Definition write_config (content : string) : R (option error) := onS (writeCache (re_config E) content).

(** ** Installing a configuration (subscription.go) *)

Definition restoreRuntimeConfig (previous : string) (existed : bool) : R (option error) :=
  if existed then write_config previous
  else
    let! x := onS (Remove (re_config E)) in
    st_ret match x with Some x => if errors_Is x ErrNotExist then None else Some x | None => None end.

Definition reload_unavailable : APIError := mkAPIError CodeInvalidState "mihomo reload is unavailable" false.

Definition rollback_unconfirmed (causes : option error) : error :=
  diagnostics_Wrap (degraded_api CodeUpstreamFailure "mihomo reload failed and rollback could not be confirmed") causes.

Definition rolled_back (cause : error) : error :=
  diagnostics_Wrap (mkAPIError CodeUpstreamFailure "mihomo rejected generated configuration; previous configuration restored" false)
    (Some cause).

(** The steps of [commitTrustedRuntimeConfig] after the first reload failed. *)
Definition restore_trusted (previous : string) (cause : error) : R (option error) :=
  let! old := onT (RestoreConfig te previous) in
  match old with
  | Err y => st_ret (Some (rollback_unconfirmed (errors_Join (Some cause) (Some y))))
  | Ok old =>
      let! p := onT (cap_Path te old) in
      match p with
      | Err y => st_ret (Some (rollback_unconfirmed (errors_Join (Some cause) (Some y))))
      | Ok _ =>
          let! y := Reload in
          st_ret (Some match y with
                       | Some y => rollback_unconfirmed (errors_Join (Some cause) (Some y))
                       | None => rolled_back cause
                       end)
      end
  end.

Definition bump_generation (m : Manager FS) : Manager FS := set_settings (settings m) (uint64 (configGeneration m + 1)) m.

(** [commitTrustedRuntimeConfig] from the publication on. *)
Definition publish_trusted (c : configCandidate) (previous : string) : R (option error) :=
  let! cap := match c_generated c with
              | Some g => onT (Publish te g (c_hash c))
              | None => st_ret (Err (trusted_failure "generated configuration changed before commit"))
              end in
  match cap with
  | Err x => st_ret (Some x)
  | Ok cap =>
      let! p := onT (cap_Path te cap) in
      let! x := match p with Err x => st_ret (Some x) | Ok _ => Reload end in
      match x with
      | None => do! onM (st_modify bump_generation) in st_ret None
      | Some x => restore_trusted previous x
      end
  end.

Definition commitTrustedRuntimeConfig (c : configCandidate) : R (option error) :=
  let! r := st_get in
  if negb (c_bound c) || negb (c_generation c =? configGeneration (mgr r)) then
    st_ret (Some (api_error CodeRevisionConflict "configuration inputs changed during generation"))
  else if negb (bool_decide (sha256 (c_content c) = c_hash c)) then
    st_ret (Some (api_error CodeDataFailure "validated configuration changed before publication"))
  else
    let! previous := onT (PreviousConfig te) in
    match previous with
    | Err x => st_ret (Some x)
    | Ok previous =>
        if negb (re_reloader E) then st_ret (Some (EAPI reload_unavailable))
        else publish_trusted c previous
    end.

(** [commitRuntimeConfigBytes] once the previous file was read. *)
Definition install_config (c : configCandidate) (previous : string) (had : bool) : R (option error) :=
  let! x := write_config (c_content c) in
  match x with
  | Some x => st_ret (Some (diagnostics_Wrap (mkAPIError CodeDataFailure "install generated runtime configuration" false) (Some x)))
  | None =>
      if negb (re_reloader E) then
        let! x := restoreRuntimeConfig previous had in
        st_ret (Some (diagnostics_Wrap reload_unavailable x))
      else
        let! first := Reload in
        match first with
        | None => st_ret None
        | Some first =>
            let! restoreErr := restoreRuntimeConfig previous had in
            let! reloadErr := Reload in
            match restoreErr, reloadErr with
            | None, None => st_ret (Some (rolled_back first))
            | _, _ => st_ret (Some (rollback_unconfirmed (errors_Join (Some first) (errors_Join restoreErr reloadErr))))
            end
        end
  end.

Definition commitRuntimeConfigBytes (c : configCandidate) : R (option error) :=
  if trustedCore o then commitTrustedRuntimeConfig c
  else
    let! previous := onS (ReadFile (re_config E)) in
    match previous with
    | Ok previous => install_config c previous true
    | Err x =>
        if errors_Is x ErrNotExist then install_config c "" false
        else st_ret (Some (diagnostics_Wrap (mkAPIError CodeDataFailure "read previous runtime configuration" false) (Some x)))
    end.

(** ** With the routing of the core (routing_config.go) *)

Definition loggingCoreError (message : string) (cause : option error) : error :=
  diagnostics_Wrap (mkAPIError CodeUpstreamFailure message false) cause.

Definition routingConflict : error :=
  api_error CodeRevisionConflict "configuration inputs changed during routing preparation".

Definition degradedConfigError (a b : error) : error :=
  diagnostics_Wrap (degraded_api CodeDataFailure "subscription state rollback failed") (Some (EJoin a b)).

Definition restoreRoutingConfig (content : string) : R (option error) :=
  if negb (re_reloader E) then st_ret (Some (EText "configuration reloader is unavailable"))
  else if negb (trustedCore o) then
    let! x := write_config content in
    match x with Some x => st_ret (Some x) | None => Reload end
  else
    let! cap := onT (RestoreConfig te content) in
    match cap with
    | Err x => st_ret (Some x)
    | Ok cap =>
        let! p := onT (cap_Path te cap) in
        match p with Err x => st_ret (Some x) | Ok _ => Reload end
    end.

Definition capture_config : R (result string) :=
  if trustedCore o then onT (PreviousConfig te) else onS (ReadFile (re_config E)).

(** The recovery of [commitRuntimeConfig]. *)
Definition recover_runtime (previous oldMode oldNow : string) (cause : error) : R error :=
  let! x := restoreRoutingConfig previous in
  let! x := match x with Some x => st_ret (Some x) | None => onM (applyRoutingLive o e oldMode oldNow) end in
  match x with
  | Some x =>
      do! onM (st_modify set_degraded) in
      do! onM (st_modify (set_stop (trustedCore o))) in
      st_ret (degradedConfigError cause x)
  | None => st_ret cause
  end.

Definition commitRuntimeConfig (controlled : bool) (c : configCandidate) : R (option error) :=
  let! r := st_get in
  if loggingUnsaved r && negb controlled then
    st_ret (Some (loggingCoreError "save the observed core logging level before reloading configuration" None))
  else if c_bound c && negb (c_generation c =? configGeneration (mgr r)) then st_ret (Some routingConflict)
  else match Settings.Routing (settings (mgr r)) with
  | None => commitRuntimeConfigBytes c
  | Some _ =>
      let! previous := capture_config in
      match previous with
      | Err x => st_ret (Some (routingUnavailable "capture configuration before routing reload" (Some x)))
      | Ok previous =>
          let! oldMode := onM (observeRoutingMode o e) in
          match oldMode with
          | Err x => st_ret (Some x)
          | Ok oldMode =>
              let! oldGlobal := onM (observeGlobal o e) in
              match oldGlobal with
              | Err x => st_ret (Some x)
              | Ok oldGlobal =>
                  let! x := commitRuntimeConfigBytes c in
                  let! x := match x with
                            | Some x => st_ret (Some x)
                            | None =>
                                let! changed := onM (changeRoutingLocked o e (RoutingMode (settings (mgr r))) "" true false) in
                                st_ret match changed with Err x => Some x | Ok _ => None end
                            end in
                  match x with
                  | None => st_ret None
                  | Some x => let! x := recover_runtime previous oldMode (px_Now oldGlobal) x in st_ret (Some x)
                  end
              end
          end
      end
  end.

(** ** The log level of the core (logging_sync.go) *)

Definition observeLoggingLevel : st (Manager FS) (result string) :=
  if negb (has_controller o) then st_ret (Err (loggingCoreError "core logging controller is unavailable" None))
  else
    let! k := read_kernel e in
    st_ret match k with
           | Err x => Err (loggingCoreError "read core logging level" (Some x))
           | Ok k =>
               match k_Configs k !! "log-level"%string with
               | Some (AString v) =>
                   let '(level, valid) := ObservedLoggingLevel v in
                   if valid : bool then Ok level
                   else Err (loggingCoreError "core returned an unsupported logging level" None)
               | _ => Err (loggingCoreError "core returned an unsupported logging level" None)
               end
           end.

Definition publishLoggingObservation (observed : logging_observation) : R unit :=
  let! r := st_get in
  if bool_decide (loggingObservation r = observed) then st_ret tt
  else
    do! st_modify (set_observation observed) in
    do! Do None (mkCommandMeta "" "logging-sync" None) (fun s => st_ret (s, None)) in
    st_ret tt.

Definition core_running (r : Runtime FS AEnv W) : bool := String.eqb (core_Status (Core (store (mgr r)))) "running".

Definition unknown_level : logging_observation := mkObservation "" "unknown" "Core logging state is unavailable".

(** [SyncLogging] while it owns the mutation and the core is the one it asked. *)
Definition adopt_level (readErr : option error) : R (option error) :=
  match readErr with
  | Some x => do! publishLoggingObservation unknown_level in st_ret (Some x)
  | None =>
      let! live := onM observeLoggingLevel in
      match live with
      | Err x => do! publishLoggingObservation unknown_level in st_ret (Some x)
      | Ok live =>
          let! cand := onM (prepareSettings (fun s =>
            let l := EffectiveLogging s in Ok (SetLogging (mkLoggingSettings live (MaxSizeMB l) (MaxFiles l)) s))) in
          let! x := match cand with
                    | Err x => st_ret (Some x)
                    | Ok cand =>
                        if String.eqb (Level (EffectiveLogging (cand_before cand))) live then st_ret None
                        else
                          let! '(_, err) := onM (saveSettingsCandidate o e cand) in
                          match err with
                          | Some x => st_ret (Some x)
                          | None => do! onM (publishSettings cand) in st_ret None
                          end
                    end in
          match x with
          | Some x =>
              do! st_modify (set_unsaved true) in
              do! publishLoggingObservation
                    (mkObservation live "unsaved" "Core logging changed; saving failed and will be retried") in
              st_ret (Some x)
          | None =>
              do! st_modify (set_unsaved false) in
              do! publishLoggingObservation (mkObservation live "applied" "") in
              st_ret None
          end
      end
  end.

Definition SyncLogging : R (option error) :=
  let! r := st_get in
  if negb (re_logging E) || negb (businessMutationAllowed o) || mutationDegraded (mgr r) then st_ret None
  else
    let! x := onM (lockMaintenance e) in
    match x with
    | Some x => st_ret (Some x)
    | None =>
        let! r := st_get in
        if negb (core_running r) then do! onM unlock in st_ret None
        else
          do! onM unlock in
          let! read := onM observeLoggingLevel in
          do! gap in
          let! x := onM (lockMutation o e) in
          match x with
          | Some x => st_ret (Some x)
          | None =>
              let! r' := st_get in
              let! x :=
                if negb (coreEpoch r =? coreEpoch r') || negb (configGeneration (mgr r) =? configGeneration (mgr r'))
                   || negb (core_running r') then st_ret None
                else adopt_level match read with Err x => Some x | Ok _ => None end in
              do! onM unlock in st_ret x
          end
    end.

(** ** Preparing a configuration *)

Definition prepareContent (content : string) : R (result configCandidate) :=
  let hash := sha256 content in
  if trustedCore o then
    let! g := onT (PrepareGenerated te content) in
    match g with
    | Err x => st_ret (Err x)
    | Ok g =>
        let! p := onT (cap_verify te (g_cap g) false) in
        match p with
        | Err x => do! onT (generated_Close te (g_cap g)) in st_ret (Err x)
        | Ok _ => st_ret (Ok (mkConfigCandidate 0 false (Some g) hash content))
        end
    end
  else
    let! n := onM Manager.tick in
    st_ret match re_staging E n with
           | Some x => Err x
           | None => Ok (mkConfigCandidate 0 false None hash content)
           end.

Definition prepareConfigWithSettings (document : Document) (s : Settings) (generation : Z) : R (result configCandidate) :=
  match Generate document ∅ s with
  | Err x => st_ret (Err x)
  | Ok content =>
      try! c := prepareContent content in
      st_ret (Ok (mkConfigCandidate generation true (c_generated c) (c_hash c) (c_content c)))
  end.

Definition prepareConfig (document : Document) : R (result configCandidate) :=
  check! SyncLogging in
  let! r := st_get in
  prepareConfigWithSettings document (settings (mgr r)) (configGeneration (mgr r)).

(** [Service.ReadCache]: the bytes and the document. *)
Definition read_cache (id : string) : R (result (string * Document)) :=
  if negb (profileIDPattern id) then st_ret (Err notFoundError)
  else
    let! r := st_get in
    let! content := onS (ReadFile (CachePath id (svc r))) in
    st_ret match content with
           | Err x => Err (diagnostics_Wrap (mkAPIError CodeDataFailure "subscription cache is unavailable" false) (Some x))
           | Ok content =>
               match ParseDocument content with
               | Err x => Err x
               | Ok d => Ok (content, match find_profile (catalog (svc r)) id with
                                      | Some p => ResolveFileReferences d (CacheBaseDir p)
                                      | None => d
                                      end)
               end
           end.

Definition ReadCache (id : string) : R (result Document) :=
  try! '(_, d) := read_cache id in st_ret (Ok d).

(** The document of a catalog without an active subscription. *)
Definition direct_document : Document :=
  {["proxies"%string := ASeq []; "proxy-groups"%string := ASeq []; "rules"%string := ASeq [AString "MATCH,DIRECT"]]}.

Definition prepareCatalogConfigWithSettings (c : Catalog) (s : Settings) (generation : Z) : R (result configCandidate) :=
  if String.eqb (ActiveID c) "" then prepareConfigWithSettings direct_document s generation
  else try! d := ReadCache (ActiveID c) in prepareConfigWithSettings d s generation.

Definition prepareCatalogConfig (c : Catalog) : R (result configCandidate) :=
  let! r := st_get in
  prepareCatalogConfigWithSettings c (settings (mgr r)) (configGeneration (mgr r)).

(** [configCandidate.cleanup]. *)
Definition cleanup (c : configCandidate) : R unit :=
  match c_generated c with
  | Some g => do! onT (generated_Close te (g_cap g)) in st_ret tt
  | None => st_ret tt
  end.

(** ** State *)

Definition subscription_state (p : PublicProfile) : SubscriptionState :=
  mkSubscriptionState (pub_ID p) (pub_Name p) (pub_Enabled p) (pub_AutoRefresh p) (pub_Interval p) (pub_Cached p)
    (pub_Generation p) (pub_UpdatedAt p) (pub_LastError p).

Definition syncSubscriptionState (c : Catalog) (s : Snapshot) : Snapshot :=
  let public := Public c in
  with_Subscriptions (pub_ActiveID public) (map subscription_state (pub_Profiles public)) s.

Definition markConfigApplied (s : Snapshot) : Snapshot :=
  let next := uint64 (Revision s + 1) in with_Config (mkConfigState "ok" next next "") s.

Definition config_degraded (s : Snapshot) : Snapshot :=
  with_Config (mkConfigState "degraded" (uint64 (Revision s + 1)) (Revision s) "generated configuration rollback could not be confirmed")
    (with_Health "degraded" (State.LastError s) s).

Definition markConfigDegraded (x : error) : R unit :=
  if negb (error_degraded x) then st_ret tt
  else
    do! (if trustedCore o then onM (st_modify (fun m => set_stop true (set_degraded m))) else st_ret tt) in
    do! Do None (mkCommandMeta "" "runtime" None) (fun s => st_ret (config_degraded s, None)) in
    st_ret tt.

Definition findPublicProfile (c : PublicCatalog) (id : string) : result PublicProfile :=
  match List.find (fun p => String.eqb (pub_ID p) id) (pub_Profiles c) with
  | Some p => Ok p
  | None => Err notFoundError
  end.

(** ** Changing the catalog *)

(** The catalog is put back after a failure. *)
Definition restore_catalog (before : Catalog) (cause : error) : R error :=
  let! y := onS (SubService.Restore before) in
  st_ret match y with Some y => degradedConfigError cause y | None => cause end.

Definition refused (s : Snapshot) (x : error) : R (Snapshot * option mutation_error) := st_ret (s, Some (Ordinary x)).

(** The candidate is committed under the changed catalog. *)
Definition apply_candidate (before after : Catalog) (c : configCandidate) (s : Snapshot)
    : R (Snapshot * option mutation_error) :=
  let! x := commitRuntimeConfig false c in
  match x with
  | Some x => let! x := restore_catalog before x in refused s x
  | None => st_ret (syncSubscriptionState after (markConfigApplied s), None)
  end.

(** The configuration of the changed catalog is prepared and committed. *)
Definition apply_catalog (before after : Catalog) (s : Snapshot) : R (Snapshot * option mutation_error) :=
  let! c := prepareCatalogConfig after in
  match c with
  | Err x => let! x := restore_catalog before x in refused s x
  | Ok c => let! a := apply_candidate before after c s in do! cleanup c in st_ret a
  end.

Definition activation_conflict : error :=
  api_error CodeRevisionConflict "subscription changed while activation was in progress".

(** The mutation of [UseSubscription]. *)
Definition use_mutation (id : string) (version : Z) (c : configCandidate) : Mutation (Runtime FS AEnv W) := fun s =>
  let! r := st_get in
  match find_profile (catalog (svc r)) id with
  | None => refused s activation_conflict
  | Some p =>
      if negb (Catalog.Version p =? version) then refused s activation_conflict
      else
        let! '(before, after, err) := onS (Mutate (fun next => Ok (with_ActiveID id next))) in
        match err with
        | Some x => refused s x
        | None => apply_candidate before after c s
        end
  end.

(** The mutation of [RemoveSubscription]. *)
Definition forget_selection (id : string) (s : Settings) : Settings :=
  match Settings.Routing s with
  | Some r => with_Routing (Some (mkRoutingSettings (Mode r) (delete id (GlobalSelections r)) (BootstrapGlobal r))) s
  | None => s
  end.

Definition remove_profile (id : string) (c : Catalog) : result Catalog :=
  let i := Index c id in
  if i <? 0 then Err notFoundError
  else Ok (with_Profiles (firstn (Z.to_nat i) (Profiles c) ++ skipn (S (Z.to_nat i)) (Profiles c)) c).

Definition remove_mutation (id : string) : Mutation (Runtime FS AEnv W) := fun s =>
  let! '(before, after, err) := onS (Mutate (remove_profile id)) in
  match err with
  | Some x => refused s x
  | None =>
      if String.eqb (ActiveID before) id then apply_catalog before after s
      else
        let! saved := onM (updateSettings o e (fun t => Ok (forget_selection id t))) in
        match saved with
        | Err x => let! x := restore_catalog before x in refused s x
        | Ok _ => st_ret (syncSubscriptionState after s, None)
        end
  end.

(** The mutation of [mutateSubscription]. *)
Definition edit_profile (id : string) (f : Catalog -> Profile -> result (Catalog * Profile)) (c : Catalog) : result Catalog :=
  match find_profile c id with
  | None => Err notFoundError
  | Some p =>
      match f c p with
      | Err x => Err x
      | Ok (c, p) => Ok (update_profile id (fun _ => p) c)
      end
  end.

Definition edit_mutation (id : string) (f : Catalog -> Profile -> result (Catalog * Profile))
    : Mutation (Runtime FS AEnv W) := fun s =>
  let! '(before, after, err) := onS (Mutate (edit_profile id f)) in
  match err with
  | Some x => refused s x
  | None =>
      if String.eqb (ActiveID before) (ActiveID after) then st_ret (syncSubscriptionState after s, None)
      else apply_catalog before after s
  end.

(** ** Requests *)

(** A mutation of the state by a request that owns the mutation. *)
Definition locked_mutation (op : Operation) (mutate : Mutation (Runtime FS AEnv W)) : R (option error) :=
  let! x := onM (lockMutation o e) in
  match x with
  | Some x => st_ret (Some x)
  | None =>
      let! ctx := onM (ctxErr e) in
      let! '(_, err) := Do ctx (mkCommandMeta (op_ID op) (op_Source op) (op_IfRevision op)) mutate in
      do! match err with Some x => markConfigDegraded x | None => st_ret tt end in
      do! onM unlock in st_ret err
  end.

Definition no_valid_cache : error := api_error CodeInvalidState "subscription is disabled or has no valid cache".

Definition UseSubscription (op : Operation) (id : string) : R (result PublicProfile) :=
  check! onM (admit_operation e ("sub-use:" ++ op_ID op)%string) in
  let! r := st_get in
  match find_profile (catalog (svc r)) id with
  | None => st_ret (Err no_valid_cache)
  | Some p =>
      if negb (Enabled p) || (Generation p =? 0) then st_ret (Err no_valid_cache)
      else
        try! document := ReadCache id in
        try! c := prepareConfig document in
        do! gap in
        let! x := locked_mutation op (use_mutation id (Catalog.Version p) c) in
        let! r := st_get in
        do! cleanup c in
        st_ret match x with Some x => Err x | None => findPublicProfile (Public (catalog (svc r))) id end
  end.

(** The cache is removed before ownership is returned; the two steps concern
    different parts of the state and are exchanged here. *)
Definition RemoveSubscription (op : Operation) (id : string) : R (option error) :=
  let! x := onM (admit_operation e ("sub-remove:" ++ op_ID op)%string) in
  match x with
  | Some x => st_ret (Some x)
  | None =>
      let! r := st_get in
      let! x := if String.eqb (ActiveID (catalog (svc r))) id then SyncLogging else st_ret None in
      match x with
      | Some x => st_ret (Some x)
      | None =>
          do! gap in
          let! x := locked_mutation op (remove_mutation id) in
          match x with
          | Some x => st_ret (Some x)
          | None => let! r := st_get in do! onS (Remove (CachePath id (svc r))) in st_ret None
          end
      end
  end.

Definition mutateSubscription (prefix : string) (op : Operation) (id : string)
    (f : Catalog -> Profile -> result (Catalog * Profile)) : R (result PublicProfile) :=
  check! onM (admit_operation e (prefix ++ op_ID op)%string) in
  let! r := st_get in
  check! (if String.eqb prefix "sub-enabled:" && String.eqb (ActiveID (catalog (svc r))) id then SyncLogging else st_ret None) in
  do! gap in
  check! locked_mutation op (edit_mutation id f) in
  let! r := st_get in
  st_ret (findPublicProfile (Public (catalog (svc r))) id).

Definition set_enabled (enabled : bool) (c : Catalog) (p : Profile) : result (Catalog * Profile) :=
  Ok (if negb enabled && String.eqb (ActiveID c) (ID p) then with_ActiveID "" c else c,
      mkProfile (ID p) (Name p) (URL p) (CacheBaseDir p) (CacheURL p) (ScheduleFrom p) (IntervalRefreshRequired p) enabled
        (AutoRefresh p) (Interval p) (ProxyMode p) (uint64 (Catalog.Version p + 1)) (Generation p) (UpdatedAt p) (ETag p)
        (LastModified p) (LastError p) (Upload p) (Download p) (Total p) (Expire p)).

Definition SetSubscriptionEnabled (op : Operation) (id : string) (enabled : bool) : R (result PublicProfile) :=
  mutateSubscription "sub-enabled:" op id (set_enabled enabled).

Record SetSubscriptionInput := mkSetInput {
  in_Name : option string;
  in_URL : option string;
  in_Interval : option string;
  in_AutoRefresh : option bool;
  in_GlobalPeriod : option string;
  in_ProxyMode : option string
}.

(** [x != nil && *x != old]. *)
Definition differs (x : option string) (old : string) : bool := match x with Some v => negb (String.eqb v old) | None => false end.

(** [now] is the service's clock. *)
Definition set_subscription (now : Z) (i : SetSubscriptionInput) (c : Catalog) (p : Profile) : result (Catalog * Profile) :=
  let intervalChanged := differs (in_Interval i) (Interval p) in
  let urlChanged := differs (in_URL i) (URL p) in
  if urlChanged && negb (Bool.eqb (IsFileSource (default ""%string (in_URL i))) (IsFileSource (URL p))) then
    Err (api_error CodeInvalidArgument "subscription source type cannot be changed; create a new subscription")
  else
    Ok (mkCatalog (Schema c) (default (GlobalInterval c) (in_GlobalPeriod i)) (ActiveID c) (Profiles c),
        mkProfile (ID p) (default (Name p) (in_Name i)) (if urlChanged then default ""%string (in_URL i) else URL p)
          (CacheBaseDir p) (CacheURL p) (if intervalChanged || urlChanged then now else ScheduleFrom p)
          (intervalChanged || IntervalRefreshRequired p) (Enabled p) (default (AutoRefresh p) (in_AutoRefresh i))
          (default (Interval p) (in_Interval i)) (default (ProxyMode p) (in_ProxyMode i)) (uint64 (Catalog.Version p + 1))
          (Generation p) (UpdatedAt p) (if urlChanged then "" else ETag p) (if urlChanged then "" else LastModified p)
          (if urlChanged then "" else LastError p) (Upload p) (Download p) (Total p) (Expire p))%string.

Definition SetSubscription (now : Z) (op : Operation) (id : string) (i : SetSubscriptionInput) : R (result PublicProfile) :=
  mutateSubscription "sub-set:" op id (set_subscription now i).

End Runtime.

(** ** Lemmas *)

Create HintDb safe.

Section Lemmas.
Context `{CaseFold} `{SourceSyntax} `{CatalogYAML} `{DocumentYAML} `{PEM} `{Sha256}
  {Env FS AEnv W : Type} `{SettingsFile Env FS} `{AtomicFile AEnv W} (E : rt_env Env FS AEnv W).

Abbreviation RT := (Runtime FS AEnv W).

Lemma onM_inv {A} (m : st (Manager FS) A) (r r' : RT) (a : A) :
  onM m r = (a, r') ->
  exists m', m (with_subscriptions (catalog (svc r)) (mgr r)) = (a, m') /\ r' = set_mgr m' r.
Proof. unfold onM. destruct (m _) as [b m'] eqn:Hm. intros [= <- <-]. by exists m'. Qed.

Lemma onS_inv {A} (m : st (Service AEnv W) A) (r r' : RT) (a : A) :
  onS m r = (a, r') -> exists s, m (svc r) = (a, s) /\ r' = set_svc s r.
Proof. unfold onS. destruct (m _) as [b s] eqn:Hm. intros [= <- <-]. by exists s. Qed.

Lemma onT_inv {A} (m : st Trusted A) (r r' : RT) (a : A) :
  onT m r = (a, r') -> exists t, m (trusted r) = (a, t) /\ r' = set_trusted_config t r.
Proof. unfold onT. destruct (m _) as [b t] eqn:Hm. intros [= <- <-]. by exists t. Qed.

(** What a change of the configuration leaves alone: the catalog in memory, every
    other file and the published snapshot. *)
Definition config_frame (r r' : RT) : Prop :=
  same_setup (svc r) (svc r') /\ catalog (svc r') = catalog (svc r) /\
  (forall q, q <> re_config E -> hidden q = false -> af_read q (disk (svc r')) = af_read q (disk (svc r))) /\
  store (mgr r') = store (mgr r).

(** Nothing a client can tell has changed. *)
Definition quiet (r r' : RT) : Prop :=
  config_frame r r' /\ active_config E r' = active_config E r /\ loaded r' = loaded r /\
  settings (mgr r') = settings (mgr r) /\ kernel (mgr r') = kernel (mgr r) /\
  configGeneration (mgr r') = configGeneration (mgr r).

Lemma config_frame_refl (r : RT) : config_frame r r.
Proof. by repeat split. Qed.

Lemma config_frame_trans (a b c : RT) : config_frame a b -> config_frame b c -> config_frame a c.
Proof.
  intros ([Hp Hd] & Hc & Hf & Hs) ([Hp' Hd'] & Hc' & Hf' & Hs'). split; [split; congruence|]. split; [congruence|].
  split; [|congruence]. intros q Hq Hh. by rewrite Hf', Hf.
Qed.

Lemma quiet_refl (r : RT) : quiet r r.
Proof. split; [apply config_frame_refl|done]. Qed.

Lemma quiet_trans (a b c : RT) : quiet a b -> quiet b c -> quiet a c.
Proof.
  intros (Hf & Ha & Hl & Hs & Hk & Hg) (Hf' & Ha' & Hl' & Hs' & Hk' & Hg').
  split; [by eapply config_frame_trans|]. split_and!; congruence.
Qed.

Lemma quiet_frame (r r' : RT) : quiet r r' -> config_frame r r'.
Proof. by intros [Hf _]. Qed.

#[local] Hint Resolve config_frame_refl config_frame_trans quiet_refl quiet_trans quiet_frame : mihari.

Lemma onM_quiet {A} (m : st (Manager FS) A) (r r' : RT) (a : A) :
  onM m r = (a, r') -> (forall w w' b, m w = (b, w') -> later w w') -> quiet r r'.
Proof.
  intros Ho Hm. apply onM_inv in Ho as (m' & Ho & ->). apply Hm in Ho as [n ->].
  split; [by repeat split|]. done.
Qed.

Lemma onT_quiet {A} (m : st Trusted A) (r r' : RT) (a : A) :
  onT m r = (a, r') -> (forall w w' b, m w = (b, w') -> waited w w') -> quiet r r'.
Proof.
  intros Ho Hm. apply onT_inv in Ho as (t & Ho & ->). apply Hm in Ho as [n ->].
  split; [by repeat split|]. by unfold active_config.
Qed.

Lemma ReadFile_quiet (p : path) (r r' : RT) (x : result string) :
  onS (ReadFile p) r = (x, r') -> quiet r r' /\
  match x with Ok c => af_read p (disk (svc r)) = Some c | Err x => errors_Is x ErrNotExist = true -> af_read p (disk (svc r)) = None end.
Proof.
  intros Hr. apply onS_inv in Hr as (s & Hr & ->). pose proof (ReadFile_spec p (svc r)) as Hs. rewrite Hr in Hs.
  destruct Hs as (_ & _ & Hs). unfold ReadFile in Hr. injection Hr as _ <-.
  split; [|exact Hs]. split; [by repeat split|]. done.
Qed.

(** Directory syncs succeed, or are not reported: no write is reported both as
    made and as failed. *)
Definition durable : Prop :=
  forall env p c w cr x w', af_write env p c w = (cr, x, w') -> Warning cr = None.

Lemma write_config_spec (content : string) (r r' : RT) (x : option error) :
  write_config E content r = (x, r') -> trustedCore (re_options E) = false ->
  config_frame r r' /\ loaded r' = loaded r /\ mgr r' = mgr r /\
  (x = None -> active_config E r' = Some content) /\
  (x <> None -> active_config E r' = active_config E r \/ ~ durable /\ active_config E r' = Some content).
Proof.
  intros Hw Ht. apply onS_inv in Hw as (s & Hw & ->). unfold writeCache in Hw.
  destruct (af_write _ (re_config E) content (disk (svc r))) as [[cr y] w] eqn:Ha. injection Hw as <- <-.
  unfold active_config. rewrite Ht. cbn.
  split; [split; [done|]; split; [done|]; split; [|done]; intros q Hq Hh; by eapply af_other|].
  split; [done|]. split; [done|]. destruct (Committed cr) eqn:Hc.
  - destruct (af_committed _ _ _ _ _ _ _ Ha Hc) as [-> Hr]. split; [done|]. intros Hx. right. split; [|done].
    intros Hd. by apply Hx, (Hd _ _ _ _ _ _ _ Ha).
  - destruct (af_failed _ _ _ _ _ _ _ Ha Hc) as [Hy Hr]. destruct y; [|done]. split; [done|auto].
Qed.

Lemma restoreRuntimeConfig_spec (previous : string) (had : bool) (r r' : RT) (x : option error) :
  restoreRuntimeConfig E previous had r = (x, r') -> trustedCore (re_options E) = false ->
  config_frame r r' /\ loaded r' = loaded r /\ mgr r' = mgr r /\ (x = None -> active_config E r' = original had previous).
Proof.
  unfold restoreRuntimeConfig. intros Hr Ht. destruct had.
  { apply write_config_spec in Hr as (? & ? & ? & ? & _); [|done]. done. }
  apply st_bind_inv in Hr as (y & r1 & Hr & Hx). injection Hx as <- <-. apply onS_inv in Hr as (s & Hr & ->).
  unfold Remove in Hr. unfold active_config. rewrite Ht. cbn.
  destruct (af_read (re_config E) (disk (svc r))) as [c|] eqn:Hc; [destruct (io_fail (answer (svc r)))|]; injection Hr as <- <-; cbn.
  - split; [by repeat split|]. done.
  - split; [split; [done|]; split; [done|]; split; [|done]; intros q Hq Hh; cbn; rewrite af_removed; by rewrite decide_False|].
    split; [done|]. split; [done|]. intros _. rewrite af_removed. by rewrite decide_True.
  - split; [by repeat split|]. done.
Qed.

Lemma Reload_spec (r r' : RT) (x : option error) :
  Reload E r = (x, r') ->
  config_frame r r' /\ active_config E r' = active_config E r /\ settings (mgr r') = settings (mgr r) /\
  (x = None -> loaded r' = active_config E r) /\ (loaded r' = loaded r \/ loaded r' = active_config E r).
Proof.
  unfold Reload. intros Hr. apply st_bind_inv in Hr as (n & r1 & Ht & Hr).
  apply onM_quiet in Ht as (Hf & Ha & Hl & Hs & _ & _); [|intros w w' b [= <- <-]; apply later_ticked].
  injection Hr as <- <-. destruct (bool_decide (ra_err (re_reload E n) = None) || ra_took (re_reload E n)) eqn:Hb.
  - cbn. split; [eapply config_frame_trans; [exact Hf|by repeat split]|].
    unfold active_config in *. cbn. split; [done|]. split; [done|]. rewrite Ha. auto.
  - apply orb_false_iff in Hb as [Hb _]. apply bool_decide_eq_false in Hb.
    split; [done|]. split; [done|]. split; [done|]. split; [done|]. by left.
Qed.

(** *** Installing bytes *)

(** The candidate's content is what was validated, in a file of its own. *)
Definition coherent (c : configCandidate) : Prop :=
  forall g, c_generated c = Some g -> g_content g = c_content c /\ cc_path (g_cap g) <> config_path.

(** The core runs the configuration in the file. *)
Definition in_step (r : RT) : Prop := loaded r = active_config E r.

(** The core still runs what it ran; so does the file, except that without a
    trusted core a write that could not be synced is left behind. *)
Definition config_kept (c : configCandidate) (r r' : RT) : Prop :=
  loaded r' = loaded r /\
  (active_config E r' = active_config E r \/
   trustedCore (re_options E) = false /\ ~ durable /\ active_config E r' = Some (c_content c)).

Definition bytes_settled (c : configCandidate) (r r' : RT) (x : option error) : Prop :=
  config_frame r r' /\ settings (mgr r') = settings (mgr r) /\
  match x with
  | None => active_config E r' = Some (c_content c) /\ loaded r' = Some (c_content c)
  | Some x => error_degraded x = true \/ config_kept c r r'
  end.

Lemma install_config_spec (c : configCandidate) (previous : string) (had : bool) (r r' : RT) (x : option error) :
  install_config E c previous had r = (x, r') -> trustedCore (re_options E) = false -> re_reloader E = true ->
  active_config E r = original had previous -> in_step r -> bytes_settled c r r' x.
Proof.
  unfold install_config. intros Hr Ht Hrel Hprev Hstep.
  apply st_bind_inv in Hr as (y & r1 & Hw & Hr). apply write_config_spec in Hw as (Hf1 & Hl1 & Hm1 & Hok1 & Hany1); [|done].
  destruct y as [y|].
  { injection Hr as <- <-. split; [done|]. split; [by rewrite Hm1|]. right. split; [done|]. destruct (Hany1 ltac:(done)) as [Ha|[Hd Ha]]; auto. }
  specialize (Hok1 eq_refl). rewrite Hrel in Hr. cbn [negb] in Hr.
  apply st_bind_inv in Hr as (first & r2 & Hrl & Hr). apply Reload_spec in Hrl as (Hf2 & Ha2 & Hs2 & Hok2 & _).
  assert (Hs : settings (mgr r2) = settings (mgr r)) by (rewrite Hs2; by rewrite Hm1).
  destruct first as [first|].
  2:{ injection Hr as <- <-. split; [eauto with mihari|]. split; [done|]. rewrite (Hok2 eq_refl), Ha2. done. }
  apply st_bind_inv in Hr as (rerr & r3 & Hre & Hr).
  apply restoreRuntimeConfig_spec in Hre as (Hf3 & Hl3 & Hm3 & Hok3); [|done].
  apply st_bind_inv in Hr as (lerr & r4 & Hle & Hr). apply Reload_spec in Hle as (Hf4 & Ha4 & Hs4 & Hok4 & _).
  assert (Hx : x = Some (rolled_back first) /\ rerr = None /\ lerr = None \/
               exists z, x = Some z /\ error_degraded z = true).
  { destruct rerr, lerr; injection Hr as <- _; [right; eexists; split; reflexivity..|by left]. }
  assert (r' = r4) as -> by (by destruct rerr, lerr; injection Hr as _ <-).
  split; [eauto 6 with mihari|]. split; [rewrite Hs4; by rewrite Hm3|].
  destruct Hx as [(-> & -> & ->)|(z & -> & Hz)]; [right|by left].
  specialize (Hok3 eq_refl). specialize (Hok4 eq_refl). unfold config_kept. rewrite Ha4, Hok4, Hok3. split; [|by left].
  unfold in_step in Hstep. congruence.
Qed.

Lemma cap_Path_quiet (cap : ConfigCapability) (r r' : RT) (x : result string) :
  onT (cap_Path (re_trusted E) cap) r = (x, r') -> quiet r r'.
Proof.
  intros Ho. eapply onT_quiet; [exact Ho|]. intros w w' b Hc. by apply cap_verify_spec in Hc as [Hw _].
Qed.

Lemma PreviousConfig_quiet (r r' : RT) (x : result string) :
  onT (PreviousConfig (re_trusted E)) r = (x, r') -> quiet r r' /\ forall b, x = Ok b -> trusted_config (trusted r) = Some b.
Proof.
  intros Ho. split; [eapply onT_quiet; [exact Ho|]; intros w w' b Hc; by apply PreviousConfig_spec in Hc as [Hw _]|].
  apply onT_inv in Ho as (t & Ho & ->). apply PreviousConfig_spec in Ho as [_ Ho]. intros b Hb. by destruct (Ho b Hb) as [Hc _].
Qed.

(** A change of the trusted configuration alone. *)
Lemma onT_frame {A} (m : st Trusted A) (r r' : RT) (a : A) :
  onT m r = (a, r') -> exists t, m (trusted r) = (a, t) /\ trusted r' = t /\
    config_frame r r' /\ loaded r' = loaded r /\ settings (mgr r') = settings (mgr r).
Proof. intros Ho. apply onT_inv in Ho as (t & Ho & ->). exists t. split; [done|]. by repeat split. Qed.

Lemma restore_trusted_spec (previous : string) (cause : error) (r r' : RT) (x : option error) :
  restore_trusted E previous cause r = (x, r') -> trustedCore (re_options E) = true ->
  config_frame r r' /\ settings (mgr r') = settings (mgr r) /\
  exists y, x = Some y /\ (error_degraded y = true \/ active_config E r' = Some previous /\ loaded r' = Some previous).
Proof.
  unfold restore_trusted. intros Hr Ht. apply st_bind_inv in Hr as (old & r1 & Ho & Hr).
  apply onT_frame in Ho as (t & Ho & Htr & Hf1 & Hl1 & Hs1). apply RestoreConfig_spec in Ho.
  destruct old as [old|y]; [|injection Hr as <- <-; eauto 8].
  apply st_bind_inv in Hr as (p & r2 & Hp & Hr). apply cap_Path_quiet in Hp as (Hf2 & Ha2 & Hl2 & Hs2 & _).
  destruct p as [p|y]; [|injection Hr as <- <-; split; [eauto with mihari|]; split; [congruence|]; eauto].
  apply st_bind_inv in Hr as (y & r3 & Hl & Hr). apply Reload_spec in Hl as (Hf3 & Ha3 & Hs3 & Hok3 & _).
  injection Hr as <- <-. split; [eauto with mihari|]. split; [congruence|].
  eexists. split; [done|]. destruct y as [y|]; [by left|]. right. destruct Ho as (Hc & _).
  assert (Ha1 : active_config E r1 = Some previous) by (unfold active_config; by rewrite Ht, Htr).
  rewrite Ha3, (Hok3 eq_refl), Ha2. done.
Qed.

Lemma publish_trusted_spec (c : configCandidate) (previous : string) (r r' : RT) (x : option error) :
  publish_trusted E c previous r = (x, r') -> trustedCore (re_options E) = true -> coherent c ->
  active_config E r = Some previous -> in_step r -> bytes_settled c r r' x.
Proof.
  unfold publish_trusted. intros Hr Ht Hcoh Hprev Hstep. apply st_bind_inv in Hr as (cap & r1 & Ho & Hr).
  destruct (c_generated c) as [g|] eqn:Hg.
  2:{ injection Ho as <- <-. injection Hr as <- <-. split; [eauto with mihari|]. split; [done|]. right. split; [done|by left]. }
  apply onT_frame in Ho as (t & Ho & Htr & Hf1 & Hl1 & Hs1). apply TrustedPublish_spec in Ho.
  destruct cap as [cap|y].
  2:{ injection Hr as <- <-. split; [done|]. split; [done|]. destruct Ho as [Ho|[Ho _]]; [by left|right].
      split; [done|]. left. unfold active_config. by rewrite Ht, Htr. }
  destruct Ho as (Hcfg & _). rewrite (proj1 (Hcoh g Hg)) in Hcfg.
  assert (Ha1 : active_config E r1 = Some (c_content c)) by (unfold active_config; by rewrite Ht, Htr).
  apply st_bind_inv in Hr as (p & r2 & Hp & Hr). apply cap_Path_quiet in Hp as (Hf2 & Ha2 & Hl2 & Hs2 & _).
  apply st_bind_inv in Hr as (y & r3 & Hy & Hr).
  assert (Hr3 : config_frame r2 r3 /\ active_config E r3 = active_config E r2 /\ settings (mgr r3) = settings (mgr r2) /\
    (y = None -> loaded r3 = active_config E r2)).
  { destruct p as [p|z]; [by apply Reload_spec in Hy as (? & ? & ? & ? & _)|]. injection Hy as <- <-. split; [auto with mihari|done]. }
  destruct Hr3 as (Hf3 & Ha3 & Hs3 & Hok3). destruct y as [y|].
  - apply restore_trusted_spec in Hr as (Hf & Hs & z & -> & Hz); [|done].
    split; [eauto 6 with mihari|]. split; [congruence|]. destruct Hz as [Hz|[Ha Hl]]; [by left|right].
    unfold in_step in Hstep. split; [congruence|]. left. congruence.
  - apply st_bind_inv in Hr as (u & r4 & Hb & Hr). injection Hr as <- <-. apply onM_inv in Hb as (m' & [= _ <-] & ->).
    split; [eapply config_frame_trans; [|by repeat split]; eauto 6 with mihari|].
    unfold active_config in *. cbn. split; [congruence|]. rewrite (Hok3 eq_refl). split; congruence.
Qed.

Lemma commitRuntimeConfigBytes_spec (c : configCandidate) (r r' : RT) (x : option error) :
  commitRuntimeConfigBytes E c r = (x, r') -> re_reloader E = true -> coherent c -> in_step r -> bytes_settled c r r' x.
Proof.
  unfold commitRuntimeConfigBytes. intros Hr Hrel Hcoh Hstep.
  assert (Hquiet : forall r1 y, quiet r r1 -> bytes_settled c r r1 (Some y)).
  { intros r1 y (Hf & Ha & Hl & Hs & _). split; [done|]. split; [done|]. right. split; [done|by left]. }
  assert (Hafter : forall r1 y, quiet r r1 -> bytes_settled c r1 r' y -> bytes_settled c r r' y).
  { intros r1 y (Hf & Ha & Hl & Hs & _) (Hf' & Hs' & Hy). split; [eauto with mihari|]. split; [congruence|].
    destruct y as [y|]; [|done]. unfold config_kept in *. rewrite <- Ha, <- Hl. done. }
  assert (Hstep1 : forall r1, quiet r r1 -> in_step r1).
  { intros r1 (Hf & Ha & Hl & Hs & _). unfold in_step in *. congruence. }
  destruct (trustedCore (re_options E)) eqn:Ht.
  - unfold commitTrustedRuntimeConfig in Hr. unfold st_bind at 1, st_get in Hr. cbn beta iota in Hr.
    case_if_in Hr; [injection Hr as <- <-; apply Hquiet; auto with mihari|].
    case_if_in Hr; [injection Hr as <- <-; apply Hquiet; auto with mihari|].
    apply st_bind_inv in Hr as (previous & r1 & Hp & Hr). apply PreviousConfig_quiet in Hp as [Hq Hp].
    destruct previous as [previous|y]; [|injection Hr as <- <-; by apply Hquiet].
    rewrite Hrel in Hr. cbn [negb] in Hr. apply (Hafter r1); [done|].
    apply (publish_trusted_spec _ previous) in Hr; auto.
    destruct Hq as (_ & Ha & _). rewrite Ha. unfold active_config. rewrite Ht. by apply Hp.
  - apply st_bind_inv in Hr as (previous & r1 & Hp & Hr). apply ReadFile_quiet in Hp as [Hq Hp].
    assert (Ha1 : active_config E r1 = af_read (re_config E) (disk (svc r))).
    { destruct Hq as (_ & -> & _). unfold active_config. by rewrite Ht. }
    destruct previous as [previous|y].
    + apply (Hafter r1); [done|]. apply (install_config_spec _ previous true) in Hr; auto. by rewrite Ha1.
    + case_if_in Hr; [|injection Hr as <- <-; by apply Hquiet].
      apply (Hafter r1); [done|]. apply (install_config_spec _ "" false) in Hr; auto. rewrite Ha1. by apply Hp.
Qed.

(** *** With the routing of the core *)

(** A step of the manager that leaves snapshot and settings alone. *)
Lemma onM_frame {A} (m : st (Manager FS) A) (r r' : RT) (a : A) :
  onM m r = (a, r') -> (forall w w' b, m w = (b, w') -> store w' = store w) ->
  config_frame r r' /\ active_config E r' = active_config E r /\ loaded r' = loaded r.
Proof.
  intros Ho Hm. apply onM_inv in Ho as (m' & Ho & ->). apply Hm in Ho. by repeat split.
Qed.

Lemma restoreRoutingConfig_spec (content : string) (r r' : RT) (x : option error) :
  restoreRoutingConfig E content r = (x, r') ->
  config_frame r r' /\ settings (mgr r') = settings (mgr r) /\
  (x = None -> active_config E r' = Some content /\ loaded r' = Some content).
Proof.
  unfold restoreRoutingConfig. intros Hr. case_if_in Hr; [injection Hr as <- <-; split; [auto with mihari|done]|].
  destruct (trustedCore (re_options E)) eqn:Ht; cbn [negb] in Hr.
  - apply st_bind_inv in Hr as (cap & r1 & Ho & Hr). apply onT_frame in Ho as (t & Ho & Htr & Hf1 & Hl1 & Hs1).
    apply RestoreConfig_spec in Ho. destruct cap as [cap|y]; [|injection Hr as <- <-; done].
    apply st_bind_inv in Hr as (p & r2 & Hp & Hr). apply cap_Path_quiet in Hp as (Hf2 & Ha2 & Hl2 & Hs2 & _).
    destruct p as [p|y]; [|injection Hr as <- <-; split; [eauto with mihari|]; split; [congruence|done]].
    apply Reload_spec in Hr as (Hf3 & Ha3 & Hs3 & Hok3 & _). split; [eauto with mihari|]. split; [congruence|].
    intros ->. destruct Ho as (Hc & _).
    assert (Ha1 : active_config E r1 = Some content) by (unfold active_config; by rewrite Ht, Htr).
    rewrite (Hok3 eq_refl), Ha3, Ha2. done.
  - apply st_bind_inv in Hr as (y & r1 & Hw & Hr). apply write_config_spec in Hw as (Hf1 & Hl1 & Hm1 & Hok1 & _); [|done].
    destruct y as [y|]; [injection Hr as <- <-; split; [done|]; split; [by rewrite Hm1|done]|].
    apply Reload_spec in Hr as (Hf2 & Ha2 & Hs2 & Hok2 & _). split; [eauto with mihari|].
    split; [rewrite Hs2; by rewrite Hm1|]. intros ->. rewrite (Hok2 eq_refl), Ha2. split; by apply Hok1.
Qed.

Lemma recover_runtime_spec (previous oldMode oldNow : string) (cause x : error) (r r' : RT) :
  recover_runtime E previous oldMode oldNow cause r = (x, r') ->
  config_frame r r' /\ settings (mgr r') = settings (mgr r) /\
  (error_degraded x = true \/
   x = cause /\ active_config E r' = Some previous /\ loaded r' = Some previous /\ core_at oldMode oldNow (kernel (mgr r'))).
Proof.
  unfold recover_runtime. intros Hr. apply st_bind_inv in Hr as (y & r1 & Hy & Hr).
  apply restoreRoutingConfig_spec in Hy as (Hf1 & Hs1 & Hok1). apply st_bind_inv in Hr as (z & r2 & Hz & Hr).
  assert (Hr2 : config_frame r1 r2 /\ settings (mgr r2) = settings (mgr r1) /\
    (z = None -> y = None /\ active_config E r2 = active_config E r1 /\ loaded r2 = loaded r1 /\ core_at oldMode oldNow (kernel (mgr r2)))).
  { destruct y as [y|]; [injection Hz as <- <-; split; [auto with mihari|done]|].
    apply onM_inv in Hz as (m' & Hz & ->). apply applyRoutingLive_spec in Hz as [(k & n & ->) Hok].
    split; [by repeat split|]. split; [done|]. intros ->. specialize (Hok eq_refl). split; [done|]. split; [done|]. split; [done|]. exact Hok. }
  destruct Hr2 as (Hf2 & Hs2 & Hok2). destruct z as [z|].
  - apply st_bind_inv in Hr as (u & r3 & H1' & Hr). apply st_bind_inv in Hr as (v & r4 & H2' & Hr). injection Hr as <- <-.
    apply onM_inv in H1' as (m1 & [= _ <-] & ->). apply onM_inv in H2' as (m2 & [= _ <-] & ->).
    split; [eapply config_frame_trans; [|by repeat split]; eauto with mihari|]. split; [cbn; congruence|]. by left.
  - injection Hr as <- <-. destruct (Hok2 eq_refl) as (-> & Ha & Hl & Hat). destruct (Hok1 eq_refl) as [Ha1 Hl1].
    split; [eauto with mihari|]. split; [congruence|]. right. split_and!; try done; congruence.
Qed.

Lemma RoutingMode_nonempty (s : Settings) : RoutingMode s <> ""%string.
Proof. unfold RoutingMode. destruct (Settings.Routing s) as [r|]; [|done]. by destruct (String.eqb_spec (Mode r) ""). Qed.

(** The outcome of a committed configuration. *)
Definition commit_settled (c : configCandidate) (r r' : RT) (x : option error) : Prop :=
  config_frame r r' /\
  match x with
  | None => active_config E r' = Some (c_content c) /\ loaded r' = Some (c_content c)
  | Some x =>
      error_degraded x = true \/
      settings (mgr r') = settings (mgr r) /\ config_kept c r r' /\
      (Settings.Routing (settings (mgr r)) <> None ->
       active_config E r' = active_config E r /\
       core_at (live_mode (kernel (mgr r))) (live_now (kernel (mgr r))) (kernel (mgr r')))
  end.

(** The routing of the core after a commit: the saved mode and exit are the live
    ones, and the mode is the one that was saved before, unless the core reported,
    after it loaded the configuration, that global has no exit. *)
Definition routed (r r' : RT) : Prop :=
  let id := ActiveID (catalog (svc r)) in
  RoutingMode (settings (mgr r')) = live_mode (kernel (mgr r')) /\
  (GlobalSelection id (settings (mgr r')) <> ""%string -> live_now (kernel (mgr r')) = GlobalSelection id (settings (mgr r'))) /\
  exists k, mode_granted k (GlobalSelection id (settings (mgr r))) "" (RoutingMode (settings (mgr r)))
              (RoutingMode (settings (mgr r'))).

Lemma quiet_settled (c : configCandidate) (r r' : RT) (x : error) : quiet r r' -> commit_settled c r r' (Some x).
Proof.
  intros (Hf & Ha & Hl & Hs & Hk & _). split; [done|]. right. split; [done|]. split; [split; [done|by left]|].
  intros _. split; [done|]. by rewrite Hk.
Qed.

Lemma capture_config_spec (r r' : RT) (x : result string) :
  capture_config E r = (x, r') -> quiet r r' /\ forall b, x = Ok b -> active_config E r = Some b.
Proof.
  unfold capture_config. intros Hr. unfold active_config. destruct (trustedCore (re_options E)).
  - by apply PreviousConfig_quiet in Hr.
  - apply ReadFile_quiet in Hr as [Hq Hr]. split; [done|]. by intros b ->.
Qed.

(** The attempt of [commitRuntimeConfig] before its recovery. *)
Lemma attempt_spec (c : configCandidate) (mode : string) (r r1 r2 : RT) (x y : option error) :
  commitRuntimeConfigBytes E c r = (x, r1) -> re_reloader E = true -> coherent c -> in_step r ->
  mode = RoutingMode (settings (mgr r)) ->
  match x with
  | Some x => st_ret (Some x)
  | None =>
      let! changed := onM (changeRoutingLocked (re_options E) (re_env E) mode "" true false) in
      st_ret match changed with Err x => Some x | Ok _ => None end
  end r1 = (y, r2) ->
  config_frame r r2 /\
  match y with
  | None => active_config E r2 = Some (c_content c) /\ loaded r2 = Some (c_content c) /\ routed r r2 /\
            same_but_routing (settings (mgr r)) (settings (mgr r2))
  | Some _ => settings (mgr r2) = settings (mgr r)
  end.
Proof.
  intros Hb Hrel Hcoh Hstep -> Hy. apply commitRuntimeConfigBytes_spec in Hb as (Hf & Hs & Hx); [|done..].
  destruct x as [x|]; [by injection Hy as <- <-|]. destruct Hx as [Ha Hl].
  apply st_bind_inv in Hy as (changed & r3 & Hc & Hy). injection Hy as <- <-.
  apply onM_inv in Hc as (m' & Hc & ->). pose proof Hc as Hmove. apply changeRoutingLocked_moves in Hmove as [Hmove _].
  apply changeRoutingLocked_spec in Hc as (_ & Hst & _ & Hset); [|apply RoutingMode_nonempty].
  split; [eapply config_frame_trans; [exact Hf|by repeat split]|]. destruct changed as [[s b]|z].
  - split; [done|]. split; [done|]. destruct Hf as (_ & Hcat & _). unfold settled, routingSubscriptionID in Hset. cbn in Hset.
    rewrite Hcat, Hs in Hset. destruct Hset as (_ & _ & _ & Hm & Hg & Hn). split.
    + split; [exact Hm|]. split; [exact Hn|]. exists (kernel (mgr r1)). cbn. by rewrite Hm.
    + cbn in *. rewrite <- Hs. destruct Hmove as [[-> _]|[Hmove _]]; [apply same_but_routing_refl|exact Hmove].
  - destruct Hset as [Hset _]. cbn in *. congruence.
Qed.

Lemma commitRuntimeConfig_routed (controlled : bool) (c : configCandidate) (r r' : RT) (x : option error) :
  commitRuntimeConfig E controlled c r = (x, r') -> re_reloader E = true -> coherent c -> in_step r ->
  commit_settled c r r' x /\ same_but_routing (settings (mgr r)) (settings (mgr r')) /\
  (x = None -> Settings.Routing (settings (mgr r)) <> None -> routed r r').
Proof.
  assert (Hquiet : forall r1 y, quiet r r1 ->
            commit_settled c r r1 (Some y) /\ same_but_routing (settings (mgr r)) (settings (mgr r1)) /\
            (Some y = None -> Settings.Routing (settings (mgr r)) <> None -> routed r r1)).
  { intros r1 y Hq. split; [by apply quiet_settled|]. split; [|done]. destruct Hq as (_ & _ & _ & -> & _). apply same_but_routing_refl. }
  unfold commitRuntimeConfig. intros Hr Hrel Hcoh Hstep. unfold st_bind at 1, st_get in Hr. cbn beta iota in Hr.
  case_if_in Hr; [injection Hr as <- <-; apply Hquiet; auto with mihari|].
  case_if_in Hr; [injection Hr as <- <-; apply Hquiet; auto with mihari|].
  destruct (Settings.Routing (settings (mgr r))) as [routing|] eqn:Hrt.
  2:{ apply commitRuntimeConfigBytes_spec in Hr as (Hf & Hs & Hx); [|done..].
      split; [|split; [rewrite Hs; apply same_but_routing_refl|done]]. split; [done|].
      destruct x as [x|]; [|done]. destruct Hx as [Hx|Hx]; [by left|right]. by rewrite Hrt. }
  apply st_bind_inv in Hr as (previous & r1 & Hp & Hr). apply capture_config_spec in Hp as [Hq1 Hp].
  destruct previous as [previous|y]; [|injection Hr as <- <-; by apply Hquiet]. specialize (Hp previous eq_refl).
  apply st_bind_inv in Hr as (om & r2 & Hom & Hr).
  assert (Hq2 : quiet r1 r2 /\ forall s, om = Ok s -> s = live_mode (kernel (mgr r1))).
  { split; [eapply onM_quiet; [exact Hom|]; intros w w' b Hb; by apply observeRoutingMode_spec in Hb as [Hl _]|].
    apply onM_inv in Hom as (m' & Hom & _). by apply observeRoutingMode_spec in Hom as [_ Hom]. }
  destruct Hq2 as [Hq2 Hmode]. destruct om as [om|y]; [|injection Hr as <- <-; apply Hquiet; eauto with mihari].
  specialize (Hmode om eq_refl). apply st_bind_inv in Hr as (og & r3 & Hog & Hr).
  assert (Hq3 : quiet r2 r3 /\ forall g, og = Ok g -> k_GLOBAL (kernel (mgr r2)) = Some g).
  { split; [eapply onM_quiet; [exact Hog|]; intros w w' b Hb; by apply observeGlobal_spec in Hb as [Hl _]|].
    apply onM_inv in Hog as (m' & Hog & _). by apply observeGlobal_spec in Hog as [_ Hog]. }
  destruct Hq3 as [Hq3 Hg]. destruct og as [og|y]; [|injection Hr as <- <-; apply Hquiet; eauto with mihari].
  specialize (Hg og eq_refl). assert (Hq : quiet r r3) by eauto with mihari.
  destruct Hq as (Hf & Ha & Hl & Hs & Hk & _).
  apply st_bind_inv in Hr as (b & r4 & Hb & Hr). apply st_bind_inv in Hr as (y & r5 & Hy & Hr).
  eapply attempt_spec in Hy as (Hf5 & Hy); [|exact Hb|done|done|unfold in_step in *; congruence|by rewrite Hs].
  destruct y as [y|].
  2:{ injection Hr as <- <-. destruct Hy as (Hy1 & Hy2 & Hy3 & Hy4). split; [split; [eauto with mihari|done]|].
      split; [by rewrite <- Hs|]. intros _ _.
      destruct Hf as (_ & Hcat & _). unfold routed in *. by rewrite Hcat, Hs in Hy3. }
  apply st_bind_inv in Hr as (z & r6 & Hz & Hr). injection Hr as <- <-.
  apply recover_runtime_spec in Hz as (Hf6 & Hs6 & Hz). split; [|split; [rewrite Hs6, Hy, Hs; apply same_but_routing_refl|done]]. split; [eauto with mihari|].
  destruct Hz as [Hz|(_ & Ha6 & Hl6 & Hat)]; [by left|right]. unfold in_step in Hstep.
  split; [congruence|]. split; [split; [congruence|left; congruence]|]. intros _. split; [congruence|].
  destruct Hq1 as (_ & _ & _ & _ & Hk1 & _), Hq2 as (_ & _ & _ & _ & Hk2 & _). rewrite Hk2, Hk1 in Hg.
  rewrite Hk1 in Hmode. rewrite <- Hmode. unfold live_now. rewrite Hg. done.
Qed.

Lemma commitRuntimeConfig_spec (controlled : bool) (c : configCandidate) (r r' : RT) (x : option error) :
  commitRuntimeConfig E controlled c r = (x, r') -> re_reloader E = true -> coherent c -> in_step r -> commit_settled c r r' x.
Proof. intros Hc Hrel Hcoh Hstep. by eapply commitRuntimeConfig_routed. Qed.

(** *** Preparing *)

Lemma onT_same {A} (m : st Trusted A) (r r' : RT) (a : A) :
  onT m r = (a, r') -> (forall t t' b, m t = (b, t') -> same_config t t') -> quiet r r'.
Proof.
  intros Ho Hm. apply onT_inv in Ho as (t & Ho & ->). apply Hm in Ho as (Hc & _).
  split; [by repeat split|]. unfold active_config. cbn. by rewrite Hc.
Qed.

Lemma cleanup_quiet (c : configCandidate) (r r' : RT) : cleanup E c r = (tt, r') -> coherent c -> quiet r r'.
Proof.
  unfold cleanup. intros Hr Hcoh. destruct (c_generated c) as [g|] eqn:Hg; [|injection Hr as <-; auto with mihari].
  apply st_bind_inv in Hr as (x & r1 & Ho & Hr). injection Hr as <-. apply onT_inv in Ho as (t & Ho & ->).
  apply generated_Close_other in Ho as (Hc & _); [|by apply (Hcoh g Hg)].
  split; [by repeat split|]. unfold active_config. cbn. by rewrite Hc.
Qed.

Lemma prepareContent_spec (content : string) (r r' : RT) (x : result configCandidate) :
  prepareContent E content r = (x, r') -> quiet r r' /\ forall c, x = Ok c -> coherent c /\ c_content c = content.
Proof.
  unfold prepareContent. intros Hr. destruct (trustedCore (re_options E)).
  - apply st_bind_inv in Hr as (g & r1 & Hg & Hr). apply onT_inv in Hg as (t & Hg & ->).
    apply PrepareGenerated_spec in Hg as [(Hc & _) Hg].
    assert (Hq1 : quiet r (set_trusted_config t r)) by (split; [by repeat split|]; unfold active_config; cbn; by rewrite Hc).
    destruct g as [g|y]; [|injection Hr as <- <-; by split]. destruct (Hg g eq_refl) as (Hgc & _ & Hgp & _).
    apply st_bind_inv in Hr as (p & r2 & Hp & Hr). apply cap_Path_quiet in Hp. destruct p as [p|y].
    + injection Hr as <- <-. split; [eauto with mihari|]. intros c [= <-]. split; [|done]. by intros g' [= <-].
    + apply st_bind_inv in Hr as (z & r3 & Hz & Hr). injection Hr as <- <-. apply onT_inv in Hz as (t3 & Hz & ->).
      apply generated_Close_other in Hz as (Hc3 & _); [|done]. split; [|done].
      eapply quiet_trans; [eapply quiet_trans; [exact Hq1|exact Hp]|]. split; [by repeat split|]. unfold active_config. cbn. by rewrite Hc3.
  - apply st_bind_inv in Hr as (n & r1 & Hn & Hr). injection Hr as <- <-.
    split; [eapply onM_quiet; [exact Hn|]; intros w w' b [= _ <-]; apply later_ticked|].
    destruct (re_staging E n); [done|]. intros c [= <-]. split; [|done]. by intros g.
Qed.

Lemma prepareConfigWithSettings_spec (d : Document) (s : Settings) (g : Z) (r r' : RT) (x : result configCandidate) :
  prepareConfigWithSettings E d s g r = (x, r') -> quiet r r' /\
  forall c, x = Ok c -> coherent c /\ Generate d ∅ s = Ok (c_content c).
Proof.
  unfold prepareConfigWithSettings. intros Hr. destruct (Generate d ∅ s) as [content|y] eqn:Hg.
  2:{ injection Hr as <- <-. split; [auto with mihari|done]. }
  apply st_try_inv in Hr as [(y & -> & Hp)|(c & r1 & Hp & Hr)]; apply prepareContent_spec in Hp as [Hq Hp]; [by split|].
  injection Hr as <- <-. split; [done|]. intros c' [= <-]. destruct (Hp c eq_refl) as [Hc <-]. split; [|done]. exact Hc.
Qed.

Lemma read_cache_quiet (id : string) (r r' : RT) (x : result (string * Document)) : read_cache id r = (x, r') -> quiet r r'.
Proof.
  unfold read_cache. intros Hr. case_if_in Hr; [injection Hr as _ <-; auto with mihari|].
  unfold st_bind at 1, st_get in Hr. cbn beta iota in Hr. apply st_bind_inv in Hr as (c & r1 & Hc & Hr). injection Hr as _ <-.
  by apply ReadFile_quiet in Hc as [Hq _].
Qed.

Lemma ReadCache_quiet (id : string) (r r' : RT) (x : result Document) : ReadCache id r = (x, r') -> quiet r r'.
Proof.
  unfold ReadCache. intros Hr. apply st_try_inv in Hr as [(y & -> & Hp)|([c d] & r1 & Hp & Hr)]; apply read_cache_quiet in Hp; [done|].
  by injection Hr as _ <-.
Qed.

Lemma prepareCatalogConfigWithSettings_spec (k : Catalog) (s : Settings) (g : Z) (r r' : RT) (x : result configCandidate) :
  prepareCatalogConfigWithSettings E k s g r = (x, r') -> quiet r r' /\
  forall c, x = Ok c -> coherent c /\ exists d, Generate d ∅ s = Ok (c_content c).
Proof.
  unfold prepareCatalogConfigWithSettings. intros Hr. case_if_in Hr.
  { apply prepareConfigWithSettings_spec in Hr as [Hq Hc]. split; [done|]. intros c Hx. destruct (Hc c Hx); eauto. }
  apply st_try_inv in Hr as [(y & -> & Hp)|(d & r1 & Hp & Hr)]; apply ReadCache_quiet in Hp; [by split|].
  apply prepareConfigWithSettings_spec in Hr as [Hq Hc]. split; [eauto with mihari|]. intros c Hx. destruct (Hc c Hx); eauto.
Qed.

Lemma prepareCatalogConfig_spec (k : Catalog) (r r' : RT) (x : result configCandidate) :
  prepareCatalogConfig E k r = (x, r') -> quiet r r' /\ forall c, x = Ok c -> coherent c.
Proof.
  unfold prepareCatalogConfig. intros Hr. unfold st_bind at 1, st_get in Hr. cbn beta iota in Hr.
  apply prepareCatalogConfigWithSettings_spec in Hr as [Hq Hc]. split; [done|]. intros c Hx. by destruct (Hc c Hx).
Qed.

(** *** The catalog *)

(** The catalog, the configuration and the files beside them have proper names. *)
Definition paths_ok (r : RT) : Prop :=
  hidden (re_config E) = false /\ hidden (catalogPath (svc r)) = false /\ catalogPath (svc r) <> re_config E /\
  cacheDir (svc r) <> fst (catalogPath (svc r)) /\ cacheDir (svc r) <> fst (re_config E).

Lemma saveCatalog_files (c : Catalog) (s s' : Service AEnv W) (x : option error) :
  saveCatalog c s = (x, s') -> catalog_ok c ->
  same_setup s s' /\ catalog s' = catalog s /\
  (forall q, q <> catalogPath s -> hidden q = false -> af_read q (disk s') = af_read q (disk s)) /\
  (x = None -> stored c s') /\
  (x <> None -> durable -> af_read (catalogPath s) (disk s') = af_read (catalogPath s) (disk s)).
Proof.
  unfold saveCatalog. destruct (Save _ (catalogPath s) c (disk s)) as [y w] eqn:Hs. intros [= <- <-] Hok.
  split; [done|]. split; [done|]. unfold Save in Hs. rewrite settle_complete in Hs by done.
  destruct (cat_Marshal c) as [content|z] eqn:Hm; [|by injection Hs as <- <-].
  destruct (af_write _ (catalogPath s) content (disk s)) as [[cr z] w1] eqn:Ha.
  assert (w1 = w) as -> by (by destruct z; injection Hs as _ <-). cbn.
  split; [intros q Hq Hh; by eapply af_other|]. destruct (Committed cr) eqn:Hc.
  - destruct (af_committed _ _ _ _ _ _ _ Ha Hc) as [-> Hr]. injection Hs as <-.
    split; [intros _; by exists content|]. intros Hx Hd. by destruct Hx, (Hd _ _ _ _ _ _ _ Ha).
  - destruct (af_failed _ _ _ _ _ _ _ Ha Hc) as [Hz Hr]. destruct z as [z|]; [|done]. injection Hs as <-. done.
Qed.

(** What a catalog edit does to the service. *)
Lemma Mutate_spec (f : Catalog -> result Catalog) (s s' : Service AEnv W) (before after : Catalog) (x : option error) :
  Mutate f s = ((before, after, x), s') ->
  same_setup s s' /\
  (forall q, q <> catalogPath s -> hidden q = false -> af_read q (disk s') = af_read q (disk s)) /\
  match x with
  | None => before = catalog s /\ (exists c, f before = Ok c /\ settle c = Ok after) /\ catalog s' = after /\ stored after s'
  | Some _ => catalog s' = catalog s /\ (durable -> af_read (catalogPath s) (disk s') = af_read (catalogPath s) (disk s))
  end.
Proof.
  unfold Mutate. destruct (f (catalog s)) as [c|y] eqn:Hf; [|intros [= <- <- <- <-]; done].
  destruct (settle c) as [c'|y] eqn:Hset; [|intros [= <- <- <- <-]; done].
  destruct (saveCatalog c' s) as [y s1] eqn:Hs. apply saveCatalog_files in Hs as (Hsetup & Hc & Hfiles & Hok & Hbad);
    [|by eapply settle_sound].
  destruct y as [y|]; intros [= <- <- <- <-].
  - split; [done|]. split; [done|]. split; [done|]. by apply Hbad.
  - split; [done|]. split; [done|]. split; [done|]. split; [by exists c|]. split; [done|].
    destruct (Hok eq_refl) as (content & Hm & Hr). by exists content.
Qed.

Lemma Restore_spec (c : Catalog) (s s' : Service AEnv W) (x : option error) :
  SubService.Restore c s = (x, s') -> catalog_ok c ->
  same_setup s s' /\
  (forall q, q <> catalogPath s -> hidden q = false -> af_read q (disk s') = af_read q (disk s)) /\
  (x = None -> catalog s' = c /\ stored c s').
Proof.
  unfold SubService.Restore. intros Hr Hok. apply st_bind_inv in Hr as (y & s1 & Hs & Hr).
  apply saveCatalog_files in Hs as (Hsetup & Hc & Hfiles & Hst & _); [|done].
  destruct y as [y|]; [injection Hr as <- <-; by split|]. unfold st_bind, st_modify in Hr. injection Hr as <- <-.
  split; [done|]. split; [done|]. intros _. split; [done|]. destruct (Hst eq_refl) as (content & Hm & Hrd). by exists content.
Qed.

(** Everything a client can observe of the change is as before. *)
Definition untouched (r r' : RT) : Prop :=
  catalog (svc r') = catalog (svc r) /\ loaded r' = loaded r /\ settings (mgr r') = settings (mgr r) /\
  store (mgr r') = store (mgr r) /\
  (active_config E r' = active_config E r \/ trustedCore (re_options E) = false /\ ~ durable) /\
  (durable -> stored (catalog (svc r)) (svc r) -> stored (catalog (svc r)) (svc r')).

(** The catalog in memory and on disk and the core agree. *)
Definition changed_to (r' : RT) (after : Catalog) : Prop :=
  catalog (svc r') = after /\ catalog_ok after /\ stored after (svc r') /\ in_step r'.

Definition change_settled (s : Snapshot) (r r' : RT) (res : Snapshot * option mutation_error) : Prop :=
  same_setup (svc r) (svc r') /\ store (mgr r') = store (mgr r) /\
  match res with
  | (s', None) => exists after, changed_to r' after /\
      (s' = syncSubscriptionState after s \/ s' = syncSubscriptionState after (markConfigApplied s))
  | (_, Some (Ordinary x)) => error_degraded x = true \/ untouched r r'
  | (_, Some (CommittedError _)) => False
  end.

Lemma active_config_files (r : RT) (s : Service AEnv W) :
  paths_ok r ->
  (forall q, q <> catalogPath (svc r) -> hidden q = false -> af_read q (disk s) = af_read q (disk (svc r))) ->
  active_config E (set_svc s r) = active_config E r.
Proof. intros (Hh & _ & Hne & _) Hf. unfold active_config. cbn. destruct (trustedCore _); [done|]. by apply Hf. Qed.

Lemma stored_frame (c : Catalog) (r r' : RT) : config_frame r r' -> paths_ok r -> stored c (svc r) -> stored c (svc r').
Proof.
  intros ([Hp _] & _ & Hf & _) (_ & Hh & Hne & _) (x & Hm & Hr). exists x. split; [done|]. rewrite Hp, Hf by done. exact Hr.
Qed.

Lemma paths_ok_setup (r r' : RT) : same_setup (svc r) (svc r') -> paths_ok r -> paths_ok r'.
Proof. intros [Hp Hd] Hok. unfold paths_ok in *. by rewrite Hp, Hd. Qed.

(** The state after the catalog was put back over whatever the commit left. *)
Lemma restore_catalog_spec (before : Catalog) (cause x : error) (r r' : RT) :
  restore_catalog before cause r = (x, r') -> catalog_ok before -> paths_ok r ->
  same_setup (svc r) (svc r') /\ mgr r' = mgr r /\ loaded r' = loaded r /\ active_config E r' = active_config E r /\
  (error_degraded x = true \/ x = cause /\ catalog (svc r') = before /\ stored before (svc r')).
Proof.
  unfold restore_catalog. intros Hr Hok Hp. apply st_bind_inv in Hr as (y & r1 & Hy & Hr). injection Hr as <- <-.
  apply onS_inv in Hy as (s & Hy & ->). apply Restore_spec in Hy as (Hset & Hfiles & Hs); [|done].
  split; [done|]. split; [done|]. split; [done|]. split; [by apply active_config_files|].
  destruct y as [y|]; [by left|right]. destruct (Hs eq_refl). done.
Qed.

(** The catalog was changed and saved, and nothing else. *)
Record edited (r r1 : RT) (after : Catalog) : Prop := {
  ed_setup : same_setup (svc r) (svc r1);
  ed_store : store (mgr r1) = store (mgr r);
  ed_settings : settings (mgr r1) = settings (mgr r);
  ed_loaded : loaded r1 = loaded r;
  ed_active : active_config E r1 = active_config E r;
  ed_catalog : catalog (svc r1) = after;
  ed_ok : catalog_ok after;
  ed_stored : stored after (svc r1)
}.

Lemma edited_quiet (r r1 r2 : RT) (after : Catalog) : edited r r1 after -> quiet r1 r2 -> paths_ok r -> edited r r2 after.
Proof.
  intros [Hset Hst Hs Hl Ha Hc Hok Hstd] (Hf & Ha2 & Hl2 & Hs2 & _) Hp. pose proof Hf as ([Hp2 Hd2] & Hc2 & _ & Hst2).
  constructor; try congruence.
  - destruct Hset as [Hp1 Hd1]. split; congruence.
  - eapply stored_frame; [exact Hf|by eapply paths_ok_setup|done].
Qed.

Lemma onS_Mutate (f : Catalog -> result Catalog) (r r1 : RT) (before after : Catalog) (x : option error) :
  onS (Mutate f) r = ((before, after, x), r1) -> paths_ok r ->
  match x with
  | None => before = catalog (svc r) /\ edited r r1 after
  | Some _ => same_setup (svc r) (svc r1) /\ untouched r r1
  end.
Proof.
  intros Hm Hp. apply onS_inv in Hm as (s & Hm & ->). apply Mutate_spec in Hm as (Hset & Hfiles & Hm).
  pose proof (active_config_files r s Hp Hfiles) as Ha. destruct x as [x|].
  - destruct Hm as [Hc Hd]. split; [done|]. split_and!; try done; [by left|].
    intros Hdur (content & Hmar & Hrd). exists content. split; [done|]. destruct Hset as [Hpath _]. cbn. by rewrite Hpath, Hd.
  - destruct Hm as (-> & (c & _ & Hset2) & Hc & Hst). split; [done|]. constructor; try done. by eapply settle_sound.
Qed.

Lemma untouched_refl (r : RT) : untouched r r.
Proof. split_and!; try done. by left. Qed.

(** After an edit, a failure whose catalog was put back. *)
Lemma restored_settled (s : Snapshot) (r r1 r2 r' : RT) (after : Catalog) (cause x : error) :
  edited r r1 after -> same_setup (svc r1) (svc r2) -> store (mgr r2) = store (mgr r1) ->
  (error_degraded cause = true \/
   settings (mgr r2) = settings (mgr r1) /\ loaded r2 = loaded r1 /\
   (active_config E r2 = active_config E r1 \/ trustedCore (re_options E) = false /\ ~ durable)) ->
  restore_catalog (catalog (svc r)) cause r2 = (x, r') -> catalog_ok (catalog (svc r)) -> paths_ok r ->
  change_settled s r r' (s, Some (Ordinary x)).
Proof.
  intros Hed [Hp2 Hd2] Hst2 Hkept Hr Hok Hp. destruct Hed as [[Hp1 Hd1] Hst Hs Hl Ha Hc _ _].
  apply restore_catalog_spec in Hr as ([Hp3 Hd3] & Hm & Hl3 & Ha3 & Hx); [|done|].
  2:{ eapply paths_ok_setup; [|exact Hp]. split; congruence. }
  split; [split; congruence|]. split; [rewrite Hm; congruence|].
  destruct Hx as [Hx|(-> & Hcat & Hstd)]; [by left|]. destruct Hkept as [Hk|(Hs2 & Hl2 & Ha2)]; [by left|right].
  split; [done|]. split; [congruence|]. split; [rewrite Hm; congruence|]. split; [rewrite Hm; congruence|]. split; [|done].
  destruct Ha2 as [Ha2|Ha2]; [left; congruence|by right].
Qed.

Lemma apply_candidate_spec (r r1 r' : RT) (after : Catalog) (c : configCandidate) (s : Snapshot)
    (res : Snapshot * option mutation_error) :
  edited r r1 after -> apply_candidate E (catalog (svc r)) after c s r1 = (res, r') ->
  re_reloader E = true -> coherent c -> in_step r -> paths_ok r -> catalog_ok (catalog (svc r)) ->
  change_settled s r r' res.
Proof.
  unfold apply_candidate. intros Hed Hr Hrel Hcoh Hstep Hp Hok.
  apply st_bind_inv in Hr as (x & r2 & Hc & Hr).
  apply commitRuntimeConfig_spec in Hc as [Hf Hx]; [|done|done|unfold in_step in *; destruct Hed; congruence].
  pose proof Hf as ([Hp2 Hd2] & Hc2 & _ & Hst2). destruct x as [x|].
  - apply st_bind_inv in Hr as (y & r3 & Hy & Hr). injection Hr as <- <-.
    eapply restored_settled; [exact Hed|by split|exact Hst2| |exact Hy|done|done].
    destruct Hx as [Hx|(Hs & [Hl Ha] & _)]; [by left|right]. split; [done|]. split; [done|]. destruct Ha as [Ha|(? & ? & _)]; auto.
  - injection Hr as <- <-. destruct Hx as [Ha Hl]. pose proof Hed as [[Hp1 Hd1] Hst Hs Hl1 Ha1 Hc1 Hok1 Hstd].
    split; [split; congruence|]. split; [congruence|]. exists after. split; [|by right].
    split; [congruence|]. split; [done|]. split; [|unfold in_step; congruence].
    eapply stored_frame; [exact Hf|by eapply paths_ok_setup|done].
Qed.

Lemma change_settled_quiet (s : Snapshot) (r r1 r2 : RT) (res : Snapshot * option mutation_error) :
  change_settled s r r1 res -> quiet r1 r2 -> paths_ok r -> change_settled s r r2 res.
Proof.
  intros ([Hp1 Hd1] & Hst & Hres) (Hf & Ha & Hl & Hs & _) Hp. pose proof Hf as ([Hp2 Hd2] & Hc2 & _ & Hst2).
  assert (Hp1' : paths_ok r1) by (eapply paths_ok_setup; [|exact Hp]; by split).
  split; [split; congruence|]. split; [congruence|]. destruct res as [s' [[x|x]|]].
  - destruct Hres as [Hx|(Hcat & Hl1 & Hs1 & Hst1 & Ha1 & Hd)]; [by left|right].
    split; [congruence|]. split; [congruence|]. split; [congruence|]. split; [congruence|].
    split; [destruct Ha1; [left; congruence|by right]|]. intros Hdur Hsr. eapply stored_frame; [exact Hf|done|]. auto.
  - done.
  - destruct Hres as (after & (Hcat & Hok & Hstd & Hstep) & Hs'). exists after. split; [|done].
    split; [congruence|]. split; [done|]. split; [by eapply stored_frame|]. unfold in_step in *. congruence.
Qed.

Lemma apply_catalog_spec (r r1 r' : RT) (after : Catalog) (s : Snapshot) (res : Snapshot * option mutation_error) :
  edited r r1 after -> apply_catalog E (catalog (svc r)) after s r1 = (res, r') ->
  re_reloader E = true -> in_step r -> paths_ok r -> catalog_ok (catalog (svc r)) ->
  change_settled s r r' res.
Proof.
  unfold apply_catalog. intros Hed Hr Hrel Hstep Hp Hok. apply st_bind_inv in Hr as (c & r2 & Hc & Hr).
  apply prepareCatalogConfig_spec in Hc as [Hq Hcoh]. destruct c as [c|x].
  - specialize (Hcoh c eq_refl). apply st_bind_inv in Hr as (a & r3 & Ha & Hr).
    apply (apply_candidate_spec r) in Ha; [|by eapply edited_quiet|done..].
    apply st_bind_inv in Hr as ([] & r4 & Hcl & Hr). injection Hr as <- <-. apply cleanup_quiet in Hcl; [|done].
    by eapply change_settled_quiet.
  - apply st_bind_inv in Hr as (y & r3 & Hy & Hr). injection Hr as <- <-.
    destruct Hq as (Hf & Ha & Hl & Hs & _). pose proof Hf as (Hset & _ & _ & Hst).
    eapply restored_settled; [exact Hed|exact Hset|exact Hst| |exact Hy|done|done]. right. auto.
Qed.

(** *** Mutations *)

(** A mutation that settles from every state in which the core runs the file. *)
Definition settling (m : Mutation RT) : Prop :=
  forall s r r' res, m s r = (res, r') -> in_step r -> paths_ok r -> catalog_ok (catalog (svc r)) -> change_settled s r r' res.

Lemma refused_settled (s : Snapshot) (x : error) (r r' : RT) :
  same_setup (svc r) (svc r') -> untouched r r' -> change_settled s r r' (s, Some (Ordinary x)).
Proof. intros Hs Hu. split; [done|]. split; [by destruct Hu as (_ & _ & _ & Hst & _)|]. by right. Qed.

Lemma use_mutation_settles (id : string) (version : Z) (c : configCandidate) :
  re_reloader E = true -> coherent c -> settling (use_mutation E id version c).
Proof.
  intros Hrel Hcoh s r r' res Hr Hstep Hp Hok. unfold use_mutation in Hr. unfold st_bind at 1, st_get in Hr. cbn beta iota in Hr.
  destruct (find_profile (catalog (svc r)) id) as [p|]; [|injection Hr as <- <-; apply refused_settled; [done|apply untouched_refl]].
  case_if_in Hr; [injection Hr as <- <-; apply refused_settled; [done|apply untouched_refl]|].
  apply st_bind_inv in Hr as ([[before after] x] & r1 & Hm & Hr). apply onS_Mutate in Hm; [|done]. destruct x as [x|].
  - injection Hr as <- <-. destruct Hm. by apply refused_settled.
  - destruct Hm as [-> Hed]. by eapply apply_candidate_spec in Hr.
Qed.

Lemma remove_mutation_settles (id : string) : re_reloader E = true -> settling (remove_mutation E id).
Proof.
  intros Hrel s r r' res Hr Hstep Hp Hok. unfold remove_mutation in Hr.
  apply st_bind_inv in Hr as ([[before after] x] & r1 & Hm & Hr). apply onS_Mutate in Hm; [|done]. destruct x as [x|].
  { injection Hr as <- <-. destruct Hm. by apply refused_settled. }
  destruct Hm as [-> Hed]. case_if_in Hr; [by eapply apply_catalog_spec in Hr|].
  apply st_bind_inv in Hr as (saved & r2 & Hs & Hr). apply onM_inv in Hs as (m' & Hs & ->).
  apply updateSettings_spec in Hs as ((s0 & g & f & n & ->) & _ & Hs). cbn in Hs. destruct saved as [cand|x].
  - injection Hr as <- <-. destruct Hed as [Hset Hst _ Hl Ha Hc Hok1 Hstd]. split; [done|]. split; [done|].
    exists after. split; [|by left]. split; [done|]. split; [done|]. split; [done|]. unfold in_step, active_config in *. cbn in *. congruence.
  - apply st_bind_inv in Hr as (y & r3 & Hy & Hr). injection Hr as <- <-.
    eapply restored_settled; [exact Hed| | | |exact Hy|done|done]; [done|done|]. right. cbn. split; [done|]. split; [done|]. by left.
Qed.

Lemma edit_mutation_settles (id : string) (f : Catalog -> Profile -> result (Catalog * Profile)) :
  re_reloader E = true -> settling (edit_mutation E id f).
Proof.
  intros Hrel s r r' res Hr Hstep Hp Hok. unfold edit_mutation in Hr.
  apply st_bind_inv in Hr as ([[before after] x] & r1 & Hm & Hr). apply onS_Mutate in Hm; [|done]. destruct x as [x|].
  { injection Hr as <- <-. destruct Hm. by apply refused_settled. }
  destruct Hm as [-> Hed]. case_if_in Hr; [|by eapply apply_catalog_spec in Hr].
  injection Hr as <- <-. destruct Hed as [Hset Hst _ Hl Ha Hc Hok1 Hstd]. split; [done|]. split; [done|].
  exists after. split; [|by left]. split; [done|]. split; [done|]. split; [done|]. unfold in_step in *. congruence.
Qed.

(** *** Requests *)

Lemma untouched_quiet (r r1 r2 r3 : RT) :
  quiet r r1 -> untouched r1 r2 -> same_setup (svc r1) (svc r2) -> quiet r2 r3 -> paths_ok r -> untouched r r3.
Proof.
  intros (Hf1 & Ha1 & Hl1 & Hs1 & _) (Hc & Hl & Hs & Hst & Ha & Hd) Hset (Hf3 & Ha3 & Hl3 & Hs3 & _) Hp.
  pose proof Hf1 as (Hset1 & Hc1 & _ & Hst1). pose proof Hf3 as (_ & Hc3 & _ & Hst3).
  assert (Hp2 : paths_ok r2) by (eapply paths_ok_setup; [exact Hset|]; by eapply paths_ok_setup).
  split; [congruence|]. split; [congruence|]. split; [congruence|]. split; [congruence|].
  split; [destruct Ha; [left; congruence|by right]|].
  intros Hdur Hstd. eapply stored_frame; [exact Hf3|done|]. rewrite <- Hc1. apply Hd; [done|]. rewrite Hc1. by eapply stored_frame.
Qed.

Lemma unlock_quiet (r r' : RT) : onM unlock r = (tt, r') -> quiet r r' /\ mutationDegraded (mgr r') = mutationDegraded (mgr r).
Proof. intros Hu. apply onM_inv in Hu as (m' & [= <-] & ->). split; [|done]. split; [by repeat split|done]. Qed.

(** The published state says that the configuration is degraded. *)
Definition reports_degraded (r : RT) : Prop :=
  Health (store (mgr r)) = "degraded"%string /\ cfg_Status (Config (store (mgr r))) = "degraded"%string /\
  (trustedCore (re_options E) = true -> mutationDegraded (mgr r) = true).

Lemma markConfigDegraded_spec (x : error) (r r' : RT) :
  markConfigDegraded E x r = (tt, r') ->
  if error_degraded x then reports_degraded r' else r' = r.
Proof.
  unfold markConfigDegraded. destruct (error_degraded x); cbn [negb]; [|by intros [= <-]].
  intros Hr. apply st_bind_inv in Hr as ([] & r1 & H1' & Hr). apply st_bind_inv in Hr as (a & r2 & H2' & Hr). injection Hr as <-.
  unfold Do in H2'. st_unfold. cbn in H2'. injection H2' as _ <-. split; [done|]. split; [done|]. intros Ht. rewrite Ht in H1'.
  apply onM_inv in H1' as (m' & [= <-] & ->). done.
Qed.

(** The published subscriptions are those of the catalog. *)
Definition published (r : RT) (after : Catalog) : Prop :=
  ActiveSubscription (store (mgr r)) = ActiveID after /\
  Subscriptions (store (mgr r)) = map subscription_state (pub_Profiles (Public after)).

Definition request_settled (r r' : RT) (x : option error) : Prop :=
  match x with
  | None => exists after, changed_to r' after /\ published r' after
  | Some x => error_degraded x = true /\ reports_degraded r' \/ untouched r r'
  end.

Lemma locked_mutation_settles (op : Operation) (m : Mutation RT) (r r' : RT) (x : option error) :
  locked_mutation E op m r = (x, r') -> settling m -> in_step r -> paths_ok r -> catalog_ok (catalog (svc r)) ->
  same_setup (svc r) (svc r') /\ request_settled r r' x.
Proof.
  unfold locked_mutation. intros Hr Hm Hstep Hp Hok. apply st_bind_inv in Hr as (l & r1 & Hl & Hr).
  apply onM_quiet in Hl; [|intros w w' b Hb; by apply lockMutation_spec in Hb as [Hb _]].
  assert (Hself : forall ra rb rc, quiet r ra -> quiet rb rc -> rb = ra -> same_setup (svc r) (svc rc) /\ untouched r rc).
  { intros ra rb rc Ha Hb ->. split; [|eapply untouched_quiet; [exact Ha|apply untouched_refl|done|exact Hb|done]].
    assert (Hq : quiet r rc) by eauto with mihari. by destruct Hq as ((Hset & _) & _). }
  destruct l as [l|]; [injection Hr as <- <-; destruct (Hself r1 r1 r1); auto with mihari; split; [done|by right]|].
  apply st_bind_inv in Hr as (ctx & r2 & Hc & Hr).
  apply onM_quiet in Hc; [|intros w w' b Hb; by apply ctxErr_later in Hb].
  assert (Hq : quiet r r2) by eauto with mihari.
  apply st_bind_inv in Hr as ([sn err] & r3 & Hd & Hr). apply st_bind_inv in Hr as ([] & r4 & Hmark & Hr).
  apply st_bind_inv in Hr as ([] & r5 & Hu & Hr). injection Hr as <- <-. apply unlock_quiet in Hu as [Hq5 Hdeg5].
  assert (Hfinish : forall y, error_degraded y = true -> markConfigDegraded E y r3 = (tt, r4) ->
    same_setup (svc r) (svc r3) -> same_setup (svc r) (svc r5) /\ request_settled r r5 (Some y)).
  { intros y Hy Hmk Hset. pose proof (markConfigDegraded_spec y r3 r4 Hmk) as Hrep. rewrite Hy in Hrep.
    destruct Hq5 as ((Hset5 & _ & _ & Hst5) & _). split.
    - assert (Hset4 : svc r4 = svc r3).
      { revert Hmk. unfold markConfigDegraded. rewrite Hy. cbn [negb]. destruct (trustedCore (re_options E)); by intros [= <-]. }
      rewrite Hset4 in Hset5. destruct Hset as [? ?], Hset5 as [? ?]. split; congruence.
    - left. split; [done|]. unfold reports_degraded. rewrite Hst5, Hdeg5. exact Hrep. }
  pose proof Hq as (Hf2 & Ha2 & Hl2 & Hs2 & Hrest).
  assert (Hrefused : forall y, err = Some y -> r3 = r2 -> same_setup (svc r) (svc r5) /\ request_settled r r5 err).
  { intros y -> ->. destruct (error_degraded y) eqn:Hy; [apply Hfinish; [done|done|by destruct Hf2]|].
    pose proof (markConfigDegraded_spec y r2 r4 Hmark) as Hrep. rewrite Hy in Hrep. subst r4.
    destruct (Hself r2 r2 r5); auto. split; [done|by right]. }
  unfold Do in Hd. destruct ctx as [ctx|]; [injection Hd as _ <- <-; by eapply Hrefused|].
  unfold st_bind at 1, st_get in Hd. cbn beta iota in Hd. case_if_in Hd; [injection Hd as _ <- <-; by eapply Hrefused|].
  apply st_bind_inv in Hd as ([next merr] & r6 & Hmut & Hd).
  assert (Hstep2 : in_step r2) by (unfold in_step in *; congruence).
  assert (Hp2 : paths_ok r2) by (eapply paths_ok_setup; [|exact Hp]; by destruct Hf2).
  assert (Hok2 : catalog_ok (catalog (svc r2))) by (by destruct Hf2 as (_ & -> & _)).
  destruct (Hm _ _ _ _ Hmut Hstep2 Hp2 Hok2) as (Hset6 & Hst6 & Hres6). clear Hmut. rename Hres6 into Hmut.
  assert (Hset : same_setup (svc r) (svc r6)) by (destruct Hf2 as ([? ?] & _), Hset6; split; congruence).
  destruct merr as [[y|y]|]; [|done|].
  - injection Hd as _ <- <-. destruct (error_degraded y) eqn:Hy; [by apply Hfinish|].
    pose proof (markConfigDegraded_spec _ _ _ Hmark) as Hrep. change (error_degraded (EFmt ?t y)) with (error_degraded y) in Hrep.
    rewrite Hy in Hrep. subst r4. destruct Hmut as [Hmut|Hmut]; [congruence|].
    split; [destruct Hq5 as (([? ?] & _) & _), Hset; split; congruence|]. right. eapply untouched_quiet; eauto.
  - cbn in Hd. injection Hd as _ <- <-. injection Hmark as <-. destruct Hmut as (after & (Hc6 & Hok6 & Hstd6 & Hstep6) & Hs').
    destruct Hq5 as (Hf5 & Ha5 & Hl5 & _). pose proof Hf5 as ([Hp5 Hd5] & Hc5 & _ & Hst5). cbn in Hp5, Hd5, Hc5, Hst5.
    split; [destruct Hset; split; congruence|]. exists after. split.
    + split; [congruence|]. split; [done|]. split.
      * eapply stored_frame; [exact Hf5| |exact Hstd6]. by eapply paths_ok_setup.
      * unfold in_step in *. rewrite Ha5, Hl5. exact Hstep6.
    + unfold published. rewrite Hst5. by destruct Hs' as [-> | ->].
Qed.

(** *** An invariant of all requests *)

(** The core runs the configuration in the file; the catalog in memory is valid,
    is the saved one, and its active subscription is the published one. *)
Definition good (r : RT) : Prop :=
  in_step r /\ paths_ok r /\ catalog_ok (catalog (svc r)) /\ stored (catalog (svc r)) (svc r) /\
  ActiveSubscription (store (mgr r)) = ActiveID (catalog (svc r)).

(** A step that does not concern it. *)
Definition calm (r r' : RT) : Prop :=
  svc r' = svc r /\ trusted r' = trusted r /\ loaded r' = loaded r /\
  ActiveSubscription (store (mgr r')) = ActiveSubscription (store (mgr r)).

Lemma good_calm (r r' : RT) : calm r r' -> good r -> good r'.
Proof.
  intros (Hs & Ht & Hl & Ha) (Hstep & Hp & Hok & Hst & Hact). unfold good, in_step, paths_ok, active_config in *.
  rewrite Hs, Ht, Hl, Ha. done.
Qed.

Lemma good_quiet (r r' : RT) : quiet r r' -> good r -> good r'.
Proof.
  intros (Hf & Ha & Hl & _) (Hstep & Hp & Hok & Hst & Hact). pose proof Hf as (Hset & Hc & _ & Hstore).
  split; [unfold in_step in *; congruence|]. split; [by eapply paths_ok_setup|]. rewrite Hc, Hstore.
  split; [done|]. split; [by eapply stored_frame|done].
Qed.

Lemma good_untouched (r r' : RT) : untouched r r' -> same_setup (svc r) (svc r') -> durable -> good r -> good r'.
Proof.
  intros (Hc & Hl & _ & Hstore & Ha & Hst') Hset Hdur (Hstep & Hp & Hok & Hst & Hact).
  split; [unfold in_step in *; destruct Ha as [Ha|[_ Ha]]; [congruence|done]|]. split; [by eapply paths_ok_setup|].
  rewrite Hc, Hstore. auto.
Qed.

(** Computations that keep the invariant. *)
Definition safe {A} (m : st RT A) : Prop := forall r r' a, m r = (a, r') -> good r -> good r'.

Lemma safe_ret {A} (a : A) : safe (st_ret a).
Proof. by intros r r' b [= _ <-]. Qed.

Lemma safe_get : safe st_get.
Proof. by intros r r' b [= _ <-]. Qed.

Lemma safe_bind {A B} (m : st RT A) (k : A -> st RT B) : safe m -> (forall a, safe (k a)) -> safe (st_bind m k).
Proof. intros Hm Hk r r' b Hb Hg. apply st_bind_inv in Hb as (a & r1 & Ha & Hb). eapply Hk; [exact Hb|]. by eapply Hm. Qed.

Lemma safe_onM {A} (m : st (Manager FS) A) :
  (forall w w' b, m w = (b, w') -> store w' = store w) -> safe (onM m).
Proof.
  intros Hm r r' a Ho. apply onM_inv in Ho as (m' & Ho & ->). apply Hm in Ho. apply good_calm. split_and!; try done. cbn. by rewrite Ho.
Qed.

Lemma safe_quiet {A} (m : st RT A) : (forall r r' a, m r = (a, r') -> quiet r r') -> safe m.
Proof. intros Hm r r' a Ha. apply good_quiet. by eapply Hm. Qed.

Lemma safe_later {A} (m : st (Manager FS) A) : (forall w w' b, m w = (b, w') -> later w w') -> safe (onM m).
Proof. intros Hm. apply safe_onM. intros w w' b Hb. by apply Hm in Hb as [n ->]. Qed.

Lemma observeLoggingLevel_later (w w' : Manager FS) (x : result string) : observeLoggingLevel E w = (x, w') -> later w w'.
Proof.
  unfold observeLoggingLevel. intros Hr. case_if_in Hr; [injection Hr as _ <-; apply later_refl|].
  apply st_bind_inv in Hr as (k & w1 & Hk & Hr). injection Hr as _ <-. by apply read_kernel_spec in Hk as [Hk _].
Qed.

Lemma calm_onM {A} (m : st (Manager FS) A) (r : RT) :
  (forall w w' b, m w = (b, w') -> store w' = store w) -> preserves (calm r) (onM m).
Proof.
  intros Hm r1 r2 a Ho (Hs & Ht & Hl & Ha). apply onM_inv in Ho as (m' & Ho & ->). apply Hm in Ho.
  split_and!; try done. cbn. by rewrite Ho.
Qed.

Lemma publishLoggingObservation_calm (r : RT) (x : logging_observation) : preserves (calm r) (publishLoggingObservation x).
Proof.
  intros r1 r2 [] Hr Hc. unfold publishLoggingObservation in Hr. st_unfold. case_if_in Hr; [by injection Hr as <-|].
  cbn in Hr. by injection Hr as <-.
Qed.

Lemma settings_step_calm (r : RT) (c : settingsCandidate) :
  preserves (calm r) (onM (saveSettingsCandidate (re_options E) (re_env E) c)) /\
  preserves (calm r) (onM (publishSettings (FS := FS) c)).
Proof.
  split; apply calm_onM; intros w w' b Hb.
  - destruct b as [cr x]. by apply saveSettingsCandidate_spec in Hb as (n & f & -> & _).
  - unfold publishSettings in Hb. by case_if_in Hb; injection Hb as _ <-.
Qed.

#[local] Hint Resolve publishLoggingObservation_calm : preserves.

(** Adopting the level of the core concerns the settings and the observation. *)
Lemma adopt_level_calm (r : RT) (x : option error) : preserves (calm r) (adopt_level E x).
Proof.
  unfold adopt_level. destruct x as [x|]; [solve_preserves|].
  apply preserves_bind; [apply calm_onM; intros w w' b Hb; by apply observeLoggingLevel_later in Hb as [n ->]|].
  intros [live|x]; [|solve_preserves]. apply preserves_bind.
  { apply calm_onM. intros w w' b Hb. unfold prepareSettings in Hb. st_unfold. cbn in Hb. by destruct (Validate _); injection Hb as _ <-. }
  intros cand. apply preserves_bind.
  - destruct cand as [cand|x]; [|solve_preserves]. case_if; [solve_preserves|]. destruct (settings_step_calm r cand) as [Hs Hp].
    apply preserves_bind; [exact Hs|]. intros [cr [x|]]; [solve_preserves|]. apply preserves_bind; [exact Hp|solve_preserves].
  - intros [x|]; (apply preserves_bind; [by intros r1 r2 [] [= <-]|]; solve_preserves).
Qed.

Lemma adopt_level_safe (x : option error) : safe (adopt_level E x).
Proof. intros r r' a Hr. apply good_calm. by eapply adopt_level_calm. Qed.

#[local] Hint Resolve safe_ret safe_get safe_bind : safe.

Lemma unlock_safe : safe (onM (A := unit) (FS := FS) (AEnv := AEnv) (W := W) unlock).
Proof. intros r r' [] Hu. apply good_quiet. by apply unlock_quiet in Hu as [Hq _]. Qed.

Lemma SyncLogging_safe : (forall r, good r -> good (re_others E r)) -> safe (SyncLogging E).
Proof.
  intros Hothers. unfold SyncLogging. apply safe_bind; [auto with safe|]. intros r0. case_if; [auto with safe|].
  apply safe_bind; [apply safe_later; intros w w' b Hb; by apply lockMaintenance_later in Hb as [Hb _]|].
  intros [x|]; [auto with safe|]. apply safe_bind; [auto with safe|]. intros r1. case_if.
  { apply safe_bind; [apply unlock_safe|auto with safe]. }
  apply safe_bind; [apply unlock_safe|]. intros _.
  apply safe_bind; [apply safe_later; intros w w' b; apply observeLoggingLevel_later|]. intros read.
  apply safe_bind; [intros r r' [] [= <-]; apply Hothers|]. intros _.
  apply safe_bind; [apply safe_later; intros w w' b Hb; by apply lockMutation_spec in Hb as [Hb _]|].
  intros [x|]; [auto with safe|]. apply safe_bind; [auto with safe|]. intros r2.
  apply safe_bind; [case_if; [auto with safe|apply adopt_level_safe]|]. intros y.
  apply safe_bind; [apply unlock_safe|auto with safe].
Qed.

(** *** Whole requests *)

(** The invariant holds, or the request reports that it does not. *)
Definition good_or_degraded (r' : RT) (x : option error) : Prop :=
  good r' \/ exists y, x = Some y /\ error_degraded y = true /\ reports_degraded r'.

Lemma locked_good (op : Operation) (m : Mutation RT) (r r' : RT) (x : option error) :
  locked_mutation E op m r = (x, r') -> settling m -> durable -> good r -> good_or_degraded r' x.
Proof.
  intros Hl Hm Hdur Hg. pose proof Hg as (Hstep & Hp & Hok & _ & _).
  apply locked_mutation_settles in Hl as [Hset Hl]; try done. destruct x as [x|].
  - destruct Hl as [[Hx Hrep]|Hu]; [right; eauto|left]. by eapply good_untouched.
  - destruct Hl as (after & (Hc & Hok' & Hst & Hstep') & [Hact _]). left. unfold good. rewrite Hc.
    split; [done|]. split; [by eapply paths_ok_setup|]. done.
Qed.

Lemma cleanup_mgr (c : configCandidate) (r r' : RT) : cleanup E c r = (tt, r') -> mgr r' = mgr r.
Proof.
  unfold cleanup. destruct (c_generated c); [|by intros [= <-]]. intros Hr. apply st_bind_inv in Hr as (x & r1 & Ho & Hr).
  injection Hr as <-. by apply onT_inv in Ho as (t & _ & ->).
Qed.

Lemma prepareConfig_safe (d : Document) :
  (forall r, good r -> good (re_others E r)) -> safe (prepareConfig E d) /\
  forall r r' c, prepareConfig E d r = (Ok c, r') -> coherent c.
Proof.
  intros Hothers. split.
  - intros r r' a Hr Hg. unfold prepareConfig in Hr.
    apply st_check_inv in Hr as [(x & -> & Hs)|(r1 & Hs & Hr)]; apply SyncLogging_safe in Hs; try done; auto.
    unfold st_bind at 1, st_get in Hr. cbn beta iota in Hr. apply prepareConfigWithSettings_spec in Hr as [Hq _].
    eapply good_quiet; eauto.
  - intros r r' c Hr. unfold prepareConfig in Hr. apply st_check_inv in Hr as [(x & [=] & _)|(r1 & _ & Hr)].
    unfold st_bind at 1, st_get in Hr. cbn beta iota in Hr. apply prepareConfigWithSettings_spec in Hr as [_ Hr].
    by destruct (Hr c eq_refl).
Qed.

Lemma admit_quiet (key : string) (r r' : RT) (x : option error) : onM (admit_operation (re_env E) key) r = (x, r') -> quiet r r'.
Proof. intros Ha. eapply onM_quiet; [exact Ha|]. intros w w' b Hb. apply admit_operation_same in Hb as ->. apply later_refl. Qed.

Lemma Use_good (op : Operation) (id : string) (r r' : RT) (res : result PublicProfile) :
  UseSubscription E op id r = (res, r') -> (forall r, good r -> good (re_others E r)) -> durable -> re_reloader E = true ->
  good r -> good_or_degraded r' (match res with Ok _ => None | Err x => Some x end).
Proof.
  unfold UseSubscription. intros Hr Hothers Hdur Hrel Hg.
  apply st_check_inv in Hr as [(x & -> & Ha)|(r1 & Ha & Hr)]; apply admit_quiet in Ha; [left; by eapply good_quiet|].
  assert (Hg1 : good r1) by (by eapply good_quiet). unfold st_bind at 1, st_get in Hr. cbn beta iota in Hr.
  destruct (find_profile _ id) as [p|]; [|injection Hr as <- <-; by left].
  case_if_in Hr; [injection Hr as <- <-; by left|].
  apply st_try_inv in Hr as [(x & -> & Hc)|(d & r2 & Hc & Hr)]; apply ReadCache_quiet in Hc; [left; by eapply good_quiet|].
  assert (Hg2 : good r2) by (by eapply good_quiet). destruct (prepareConfig_safe d Hothers) as [Hsafe Hcoh].
  apply st_try_inv in Hr as [(x & -> & Hc3)|(c & r3 & Hc3 & Hr)]; [left; by eapply Hsafe|].
  assert (Hg3 : good r3) by (by eapply Hsafe). specialize (Hcoh _ _ _ Hc3).
  apply st_bind_inv in Hr as ([] & r4 & Hgap & Hr). injection Hgap as <-. apply Hothers in Hg3.
  apply st_bind_inv in Hr as (x & r5 & Hl & Hr). apply locked_good in Hl; [|by apply use_mutation_settles|done|done].
  unfold st_bind at 1, st_get in Hr. cbn beta iota in Hr. apply st_bind_inv in Hr as ([] & r6 & Hcl & Hr). injection Hr as <- <-.
  pose proof (cleanup_mgr _ _ _ Hcl) as Hmgr. apply cleanup_quiet in Hcl; [|done].
  destruct Hl as [Hl|(y & -> & Hy & Hrep)]; [left; by eapply good_quiet|]. right. exists y. split; [done|]. split; [done|].
  unfold reports_degraded. rewrite Hmgr. exact Hrep.
Qed.

Lemma Remove_cache_quiet (id : string) (r r' : RT) (x : option error) :
  onS (Remove (CachePath id (svc r))) r = (x, r') -> good r -> good r'.
Proof.
  intros Hr (Hstep & Hp & Hok & Hst & Hact). apply onS_inv in Hr as (s & Hr & ->).
  pose proof Hp as (_ & _ & _ & Hd1 & Hd2).
  assert (Hs : same_setup (svc r) s /\ catalog s = catalog (svc r) /\
    forall q, q <> CachePath id (svc r) -> af_read q (disk s) = af_read q (disk (svc r))).
  { unfold Remove in Hr. destruct (af_read _ _) as [c|]; [destruct (io_fail _)|]; injection Hr as <- <-; try done.
    split; [done|]. split; [done|]. intros q Hq. cbn. rewrite af_removed. by rewrite decide_False. }
  destruct Hs as (Hset & Hc & Hf).
  assert (Hne1 : catalogPath (svc r) <> CachePath id (svc r)) by (intros Heq; apply Hd1; by rewrite Heq).
  assert (Hne2 : re_config E <> CachePath id (svc r)) by (intros Heq; apply Hd2; by rewrite Heq).
  split; [unfold in_step, active_config in *; cbn; destruct (trustedCore _); [done|]; by rewrite Hf|].
  split; [by eapply paths_ok_setup|]. cbn. rewrite Hc. split; [done|]. split; [|done].
  destruct Hst as (content & Hm & Hrd). exists content. split; [done|]. destruct Hset as [-> _]. by rewrite Hf.
Qed.

Lemma Remove_good (op : Operation) (id : string) (r r' : RT) (x : option error) :
  RemoveSubscription E op id r = (x, r') -> (forall r, good r -> good (re_others E r)) -> durable -> re_reloader E = true ->
  good r -> good_or_degraded r' x.
Proof.
  unfold RemoveSubscription. intros Hr Hothers Hdur Hrel Hg. apply st_bind_inv in Hr as (y & r1 & Ha & Hr).
  apply admit_quiet in Ha. assert (Hg1 : good r1) by (by eapply good_quiet).
  destruct y as [y|]; [injection Hr as <- <-; by left|]. unfold st_bind at 1, st_get in Hr. cbn beta iota in Hr.
  apply st_bind_inv in Hr as (y & r2 & Hs & Hr).
  assert (Hg2 : good r2) by (case_if_in Hs; [by eapply SyncLogging_safe; eauto|by injection Hs as _ <-]).
  destruct y as [y|]; [injection Hr as <- <-; by left|].
  apply st_bind_inv in Hr as ([] & r3 & Hgap & Hr). injection Hgap as <-. apply Hothers in Hg2.
  apply st_bind_inv in Hr as (y & r4 & Hl & Hr). apply locked_good in Hl; [|by apply remove_mutation_settles|done|done].
  destruct y as [y|]; [injection Hr as <- <-; done|]. destruct Hl as [Hl|(z & [=] & _)].
  unfold st_bind at 1, st_get in Hr. cbn beta iota in Hr. apply st_bind_inv in Hr as (z & r5 & Hrm & Hr). injection Hr as <- <-.
  left. by eapply Remove_cache_quiet.
Qed.

Lemma mutate_good (prefix : string) (op : Operation) (id : string) (f : Catalog -> Profile -> result (Catalog * Profile))
    (r r' : RT) (res : result PublicProfile) :
  mutateSubscription E prefix op id f r = (res, r') -> (forall r, good r -> good (re_others E r)) -> durable ->
  re_reloader E = true -> good r -> good_or_degraded r' (match res with Ok _ => None | Err x => Some x end).
Proof.
  unfold mutateSubscription. intros Hr Hothers Hdur Hrel Hg.
  apply st_check_inv in Hr as [(x & -> & Ha)|(r1 & Ha & Hr)]; apply admit_quiet in Ha; [left; by eapply good_quiet|].
  assert (Hg1 : good r1) by (by eapply good_quiet). unfold st_bind at 1, st_get in Hr. cbn beta iota in Hr.
  assert (Hsync : forall y r2, (if String.eqb prefix "sub-enabled:" && String.eqb (ActiveID (catalog (svc r1))) id
    then SyncLogging E else st_ret None) r1 = (y, r2) -> good r2).
  { intros y r2 Hs. case_if_in Hs; [by eapply SyncLogging_safe; eauto|by injection Hs as _ <-]. }
  apply st_check_inv in Hr as [(x & -> & Hs)|(r2 & Hs & Hr)]; apply Hsync in Hs; [by left|].
  apply st_bind_inv in Hr as ([] & r3 & Hgap & Hr). injection Hgap as <-. apply Hothers in Hs.
  apply st_check_inv in Hr as [(x & -> & Hl)|(r4 & Hl & Hr)]; apply locked_good in Hl; try done; try by apply edit_mutation_settles.
  destruct Hl as [Hl|(z & [=] & _)]. unfold st_bind, st_get in Hr. injection Hr as <- <-. by left.
Qed.

End Lemmas.

(** ** Theorems *)


(** ** Witnesses *)

Section Witnesses.

#[local] Instance ex_fold : CaseFold := {| unicode_EqualFold := String.eqb |}.
#[local] Instance ex_yaml : DocumentYAML := bits_yaml.
#[local] Instance ex_pem : PEM := {| X509KeyPair := fun _ _ => false; AppendCertsFromPEM := fun _ => false |}.
#[local] Instance ex_hash : Sha256 := toy_hash.
#[local] Instance ex_settings_file : SettingsFile bool (option Settings) := memory_file.

(** Files in memory; a write goes as the environment says and always lasts. *)
#[local] Program Instance memory_disk : AtomicFile bool (gmap path string) := {|
  af_read := fun p w => w !! p;
  af_write := fun ok p c w => if ok : bool then (mkCommitResult true None, None, <[p := c]> w)
                              else (no_commit, Some (EText "disk full"), w);
  af_remove := fun p w => delete p w
|}.
Next Obligation. intros [] p c w r x w' [= <- <- <-] Hc; [|done]. by rewrite lookup_insert_eq. Qed.
Next Obligation. intros [] p c w r x w' [= <- <- <-] Hc; done. Qed.
Next Obligation. intros [] p c w r x w' q [= <- <- <-] Hq _; [|done]. by rewrite lookup_insert_ne. Qed.
Next Obligation.
  intros p w q. destruct (decide (q = p)) as [->|Hne]; [by rewrite lookup_delete_eq|by rewrite lookup_delete_ne].
Qed.

Lemma memory_durable : durable (AEnv := bool) (W := gmap path string).
Proof. by intros [] p c w r x w' [= <- _ _]. Qed.

Definition ex_config_path : path := ("/r"%string, "config.yaml"%string).

(** The core runs the configuration "old" of the one subscription. *)
Definition ex_runtime : Runtime (option Settings) bool (gmap path string) :=
  mkRuntime
    (mkManager example_config 7 false false false None false
       (with_Subscriptions (ActiveID settled_example) []
          (with_Core (mkCoreState "running" "" "" "" 4 0 "" 0 0) zero_Snapshot)) None "" ""
       (Some (canonical example_config)) (ex_core "rule" "A") (mkProxyState false "") 0)
    (mkService example_catalog_path "/c" settled_example
       {[ example_catalog_path := "one"%string; ex_config_path := "old"%string ]} (fun _ => mkIO true None) 0)
    ex_trusted (Some "old"%string) 0 false (mkObservation "" "" "") "".

(** The core refuses the first reload when [refuses] says so. *)
Definition ex_rt_env (refuses : bool) : rt_env bool (option Settings) bool (gmap path string) :=
  mkRtEnv (mkOptions false "" "settings.yaml" true true false) ex_config_path true false (ex_env "rule" "A" true)
    (ex_trusted_env 100)
    (fun n => mkReload (if refuses && (n =? 0)%nat then Some (EText "refused") else None) true (ex_core "rule" "A"))
    (fun _ => None) (fun r => r).

Lemma ex_runtime_good (refuses : bool) : good (ex_rt_env refuses) ex_runtime.
Proof.
  split; [vm_compute; reflexivity|]. split; [by repeat split|]. split; [apply settle_sound with (c := example_catalog); vm_compute; reflexivity|].
  split; [|reflexivity]. exists "one"%string. split; vm_compute; reflexivity.
Qed.

Definition ex_candidate : configCandidate := mkConfigCandidate 7 true None (sha256 "new") "new".

Lemma ex_refused : match fst (commitRuntimeConfig (ex_rt_env true) false ex_candidate ex_runtime) with
                   | Some x => error_degraded x = false | None => False end.
Proof. vm_compute. reflexivity. Qed.


End Witnesses.
