(* ===== verification/SubEffects.v ===== *)
(** * SubEffects: what a request that changes the catalog does when it succeeds

    [RuntimeConfig] shows that requests keep the parts of the daemon together.
    This file states what a successful request has done: which subscription is
    active, and that the core runs the configuration generated from that
    subscription's document.  Other requests run while a request owns nothing, so
    its effect is stated from the moment it takes effect on ([waits]). *)

From S2P Require Import Prelude GoStd SelfUpdate Atomic State Settings Catalog SubService TrustedConfig Generator FileRefs.
From S2P Require Import Manager Routing RuntimeConfig.

(** ** Which subscription is active *)

Section Catalogs.
Context `{SourceSyntax}.

Definition trimmed (p : Profile) : Profile := with_Name (TrimSpace (Name p)) p.

Lemma Normalize_profiles (c c' : Catalog) : Normalize c = Ok c' -> Profiles c' = map trimmed (Profiles c).
Proof. intros Hn. by apply Normalize_sound in Hn as (_ & _ & _ & Hp & _). Qed.

Lemma fillDefaults_profiles (c : Catalog) : Profiles (fillDefaults c) = map fill_profile (Profiles c).
Proof. unfold fillDefaults. cbn. case_if; [done|]. by destruct (List.find _ _). Qed.

Lemma settle_ids (c c' : Catalog) : settle c = Ok c' -> map ID (Profiles c') = map ID (Profiles c).
Proof.
  unfold settle. destruct (Normalize c) as [c1|] eqn:Hn; [|done]. intros [= <-].
  rewrite fillDefaults_profiles, map_fill_ids, (Normalize_profiles _ _ Hn), map_map. done.
Qed.

(** A usable selection is kept. *)
Lemma settle_keeps (c c' : Catalog) (p : Profile) :
  settle c = Ok c' -> p ∈ Profiles c -> ID p = ActiveID c -> ID p <> ""%string -> Enabled p = true -> Generation p <> 0 ->
  ActiveID c' = ActiveID c.
Proof.
  unfold settle. destruct (Normalize c) as [c1|] eqn:Hn; [|done]. intros [= <-] Hp Hid Hne Hen Hgen.
  pose proof (Normalize_sound _ _ Hn) as (_ & _ & _ & Hps & _ & Hnd & _).
  assert (Hact : ActiveID c1 = ActiveID c).
  { revert Hn. unfold Normalize. case_if; [done|]. destruct (parseInterval _); [|done].
    destruct (normalize_profiles [] (Profiles c)) as [l|] eqn:Hl; [|done]. cbn.
    apply normalize_profiles_sound in Hl as (Hl & _ & Hndl & _). case_if.
    2:{ intros [= <-]. done. }
    assert (Hf : find_profile (with_Profiles l c) (ActiveID c) = Some (trimmed p)).
    { rewrite <- Hid. change (ID p) with (ID (trimmed p)). apply find_profile_unique; [done|]. cbn. rewrite Hl.
      by apply (list_elem_of_fmap_2 trimmed). }
    rewrite Hf. cbn. rewrite Hen. destruct (Z.eqb_spec (Generation p) 0); [done|]. by intros [= <-]. }
  unfold fillDefaults. cbn. destruct (String.eqb_spec (ActiveID c1) ""); [congruence|done].
Qed.

(** Without a selection a usable subscription is selected, if there is one. *)
Lemma settle_selects (c c' : Catalog) :
  settle c = Ok c' -> ActiveID c = ""%string ->
  ActiveID c' = ""%string \/ exists p, p ∈ Profiles c /\ ID p = ActiveID c' /\ Catalog.usable p = true.
Proof.
  unfold settle. destruct (Normalize c) as [c1|] eqn:Hn; [|done]. intros [= <-] He.
  pose proof (Normalize_sound _ _ Hn) as (_ & _ & _ & Hps & _ & _ & Hact).
  assert (He1 : ActiveID c1 = ""%string) by (destruct Hact as [?|[? _]]; congruence).
  unfold fillDefaults. cbn. rewrite He1. cbn. destruct (List.find Catalog.usable _) as [q|] eqn:Hf; cbn; [|by left].
  right. apply find_some in Hf as [Hin Hu]. apply list_elem_of_In, list_elem_of_fmap in Hin as (q1 & -> & Hin).
  rewrite Hps in Hin. apply list_elem_of_fmap in Hin as (p & -> & Hin). exists p. split; [done|].
  destruct (fill_profile_frame (trimmed p)) as (Hid & Hus & _). split; [symmetry; exact Hid|]. etransitivity; [|exact Hu]. symmetry. exact Hus.
Qed.

(** A change of one subscription that does not become active leaves the selection. *)
Lemma selection_kept (id : string) (b c c' : Catalog) :
  catalog_ok b -> settle c = Ok c' -> ActiveID c = ActiveID b ->
  (forall p, ID p <> id -> p ∈ Profiles c <-> p ∈ Profiles b) ->
  ActiveID b <> id -> ActiveID c' <> id -> ActiveID c' = ActiveID b.
Proof.
  intros (_ & _ & _ & _ & _ & Hact & Hnone) Hset Heq Hps Hb Hc. destruct (decide (ActiveID b = ""%string)) as [He|Hne].
  - destruct (settle_selects _ _ Hset) as [Hs|(p & Hp & Hid & Hu)]; [congruence..|].
    apply Hps in Hp; [|congruence]. specialize (Hnone He). rewrite Forall_forall in Hnone. rewrite (Hnone p Hp) in Hu. done.
  - destruct (Hact Hne) as (p & Hp & Hid & Hen & Hgen). rewrite <- Heq. eapply (settle_keeps c c' p); try done; try congruence.
    apply Hps; [congruence|done].
Qed.

Lemma Index_Some (c : Catalog) (id : string) :
  (Index c id <? 0) = false -> exists p, Profiles c !! Z.to_nat (Index c id) = Some p /\ ID p = id.
Proof.
  intros Hi. destruct (find_profile c id) as [p|] eqn:Hf.
  - exists p. apply find_profile_Some in Hf as Hp. split; [|by apply Hp]. unfold find_profile in Hf. by rewrite Hi in Hf.
  - pose proof (find_profile_None _ _ Hf) as Hn. unfold find_profile in Hf. rewrite Hi in Hf. apply lookup_ge_None in Hf.
    pose proof (index_of_bounds id (Profiles c)). unfold Index in *. apply Z.ltb_ge in Hi. lia.
Qed.

(** Removing. *)
Lemma remove_profile_spec (id : string) (b c c' : Catalog) :
  remove_profile id b = Ok c -> catalog_ok b -> settle c = Ok c' ->
  ActiveID c = ActiveID b /\ (forall p, ID p <> id -> p ∈ Profiles c <-> p ∈ Profiles b) /\
  find_profile c' id = None /\ ActiveID c' <> id.
Proof.
  unfold remove_profile. intros Hr (_ & _ & Hall & Hnd & _) Hset. case_if_in Hr; [done|]. injection Hr as <-.
  destruct (Index_Some b id) as (x & Hx & Hid); [done|]. set (i := Z.to_nat (Index b id)) in *.
  pose proof (take_drop_middle _ _ _ Hx) as Hl. split; [done|]. cbn [Profiles with_Profiles].
  assert (Hgone : id ∉ map ID (firstn i (Profiles b) ++ skipn (S i) (Profiles b))).
  { rewrite <- Hl in Hnd. rewrite map_app in Hnd |- *. cbn in Hnd. rewrite Hid in Hnd.
    apply NoDup_app in Hnd as (_ & Hd & Hnd). apply NoDup_cons in Hnd as [Hn _].
    rewrite elem_of_app. intros [Hin|Hin]; [|done]. eapply Hd; [exact Hin|]. left. }
  split.
  { intros p Hp. rewrite <- Hl at 3. rewrite !elem_of_app, elem_of_cons. split; [tauto|]. intros [?|[->|?]]; [tauto|done|tauto]. }
  apply settle_ids in Hset as Hids. apply settle_sound in Hset as (_ & _ & Hall' & _ & _ & Hact & _).
  assert (Hn : find_profile c' id = None).
  { destruct (find_profile c' id) as [q|] eqn:Hf; [|done]. apply find_profile_Some in Hf as [Hin Hq]. destruct Hgone.
    cbn in Hids. rewrite <- Hids, <- Hq. by apply (list_elem_of_fmap_2 ID). }
  split; [done|]. intros Heq. pose proof (find_profile_None _ _ Hn) as Hno.
  assert (Hne : ActiveID c' <> ""%string).
  { rewrite Heq. intros ->. apply list_elem_of_lookup_2 in Hx. rewrite Forall_forall in Hall. apply Hall in Hx as [Hpat _].
    rewrite Hid in Hpat. done. }
  destruct (Hact Hne) as (p & Hp & Hpid & _). apply (Hno p Hp). congruence.
Qed.

(** Updating one. *)
Lemma update_profile_others (id : string) (f : Profile -> Profile) (c : Catalog) (p : Profile) :
  (forall q, ID (f q) = ID q) -> ID p <> id -> p ∈ Profiles (update_profile id f c) <-> p ∈ Profiles c.
Proof.
  intros Hf Hp. unfold update_profile. case_if; [done|]. destruct (Index_Some c id) as (x & Hx & Hid); [done|].
  set (i := Z.to_nat (Index c id)) in *. cbn. rewrite !list_elem_of_lookup. split; intros [j Hj]; exists j.
  - destruct (decide (i = j)) as [<-|Hne]; [|by rewrite list_lookup_alter_ne in Hj].
    rewrite list_lookup_alter_eq, Hx in Hj. injection Hj as <-. by rewrite Hf in Hp.
  - rewrite list_lookup_alter_ne; [done|]. intros <-. rewrite Hx in Hj. injection Hj as <-. done.
Qed.

Lemma update_profile_active (id : string) (f : Profile -> Profile) (c : Catalog) : ActiveID (update_profile id f c) = ActiveID c.
Proof. unfold update_profile. by case_if. Qed.

End Catalogs.

(** ** Effects *)

Section Effects.
Context `{CaseFold} `{SourceSyntax} `{CatalogYAML} `{DocumentYAML} `{PEM} `{Sha256}
  {Env FS AEnv W : Type} `{SettingsFile Env FS} `{AtomicFile AEnv W} (E : rt_env Env FS AEnv W).

Abbreviation RT := (Runtime FS AEnv W).

(** A step that leaves the catalog, the files beside the configuration, the
    configuration, what the core runs and the published selection alone. *)
Record aside (r r' : RT) : Prop := {
  as_setup : same_setup (svc r) (svc r');
  as_catalog : catalog (svc r') = catalog (svc r);
  as_files : forall q, q <> re_config E -> hidden q = false -> af_read q (disk (svc r')) = af_read q (disk (svc r));
  as_config : active_config E r' = active_config E r;
  as_loaded : loaded r' = loaded r;
  as_published : ActiveSubscription (store (mgr r')) = ActiveSubscription (store (mgr r))
}.

(** Until a request takes effect only other requests change these. *)
Inductive waits (r : RT) : RT -> Prop :=
| waits_here : waits r r
| waits_aside m m' : waits r m -> aside m m' -> waits r m'
| waits_others m : waits r m -> waits r (re_others E m).

(** Other requests keep the parts together, and a change of the settings counts. *)
Record counting_others : Prop := {
  co_good : forall r, good E r -> good E (re_others E r);
  co_count : forall r, configGeneration (mgr (re_others E r)) = configGeneration (mgr r) ->
    settings (mgr (re_others E r)) = settings (mgr r)
}.

(** The document in the cache of a subscription, its references resolved as the
    catalog says. *)
Definition cached_document (id : string) (r : RT) (d : Document) : Prop :=
  profileIDPattern id = true /\
  exists content parsed, af_read (CachePath id (svc r)) (disk (svc r)) = Some content /\ ParseDocument content = Ok parsed /\
    d = match find_profile (catalog (svc r)) id with
        | Some p => ResolveFileReferences parsed (CacheBaseDir p)
        | None => parsed
        end.

(** The document of the active subscription; without one everything is direct. *)
Definition active_document (r : RT) (d : Document) : Prop :=
  let id := ActiveID (catalog (svc r)) in
  if String.eqb id "" then d = direct_document else cached_document id r d.

(** The core runs, and the file holds, what is generated from the document with
    the settings; adopting the routing of the core may follow the generation. *)
Definition runs (r : RT) (d : Document) : Prop :=
  exists s content, Generate d ∅ s = Ok content /\ same_but_routing s (settings (mgr r)) /\
    active_config E r = Some content /\ loaded r = Some content.

Definition config_untouched (m r' : RT) : Prop := loaded r' = loaded m /\ active_config E r' = active_config E m.

(** Selecting [id]: [p] is what the catalog had when the request came. *)
Definition uses (id : string) (r m r' : RT) : Prop :=
  exists p p' d, find_profile (catalog (svc r)) id = Some p /\ cached_document id r d /\
    find_profile (catalog (svc m)) id = Some p' /\ Catalog.Version p' = Catalog.Version p /\
    (Enabled p' = true -> Generation p' <> 0 -> ActiveID (catalog (svc r')) = id) /\ runs r' d.

(** Removing [id]. *)
Definition removes (id : string) (m r' : RT) : Prop :=
  find_profile (catalog (svc m)) id <> None /\ find_profile (catalog (svc r')) id = None /\
  if String.eqb (ActiveID (catalog (svc m))) id then exists d, active_document r' d /\ runs r' d
  else ActiveID (catalog (svc r')) = ActiveID (catalog (svc m)) /\ config_untouched m r'.

(** Editing [id] with [f]. *)
Definition edits (id : string) (f : Catalog -> Profile -> result (Catalog * Profile)) (m r' : RT) : Prop :=
  (exists p c p', find_profile (catalog (svc m)) id = Some p /\ f (catalog (svc m)) p = Ok (c, p') /\
    settle (update_profile id (fun _ => p') c) = Ok (catalog (svc r'))) /\
  if String.eqb (ActiveID (catalog (svc m))) (ActiveID (catalog (svc r'))) then config_untouched m r'
  else exists d, active_document r' d /\ runs r' d.

(** The fetched document [d] of [id] was committed. *)
Definition fetches (id : string) (d : Document) (m r' : RT) : Prop :=
  find_profile (catalog (svc r')) id <> None /\
  if String.eqb (ActiveID (catalog (svc r'))) id then runs r' d
  else config_untouched m r' /\
       (ActiveID (catalog (svc m)) <> id -> ActiveID (catalog (svc r')) = ActiveID (catalog (svc m))).

(** *** Waiting *)

Lemma quiet_aside (r r' : RT) : quiet E r r' -> aside r r'.
Proof. intros ((Hset & Hc & Hf & Hst) & Ha & Hl & _). constructor; try done. by rewrite Hst. Qed.

Lemma calm_aside (r r' : RT) : calm r r' -> aside r r'.
Proof. intros (Hs & Ht & Hl & Ha). unfold active_config. constructor; unfold active_config; rewrite ?Hs, ?Ht; done. Qed.

Lemma aside_good (r r' : RT) : aside r r' -> good E r -> good E r'.
Proof.
  intros [Hset Hc Hf Ha Hl Hp] (Hstep & Hpaths & Hok & (x & Hm & Hx) & Hact). unfold good. rewrite Hc.
  split; [unfold in_step in *; congruence|]. split; [by eapply paths_ok_setup|]. split; [done|]. split; [|congruence].
  exists x. split; [done|]. destruct Hpaths as (_ & Hh & Hne & _), Hset as [-> _]. by rewrite Hf.
Qed.

Lemma waits_good (r m : RT) : waits r m -> (forall r, good E r -> good E (re_others E r)) -> good E r -> good E m.
Proof. intros Hw Ho Hg. induction Hw; [done|by eapply aside_good|auto]. Qed.

Lemma waits_quiet (r m m' : RT) : waits r m -> quiet E m m' -> waits r m'.
Proof. intros Hw Hq. eapply waits_aside; [exact Hw|by apply quiet_aside]. Qed.

Lemma waits_trans (a b c : RT) : waits a b -> waits b c -> waits a c.
Proof. intros Hab Hbc. induction Hbc as [|m m' _ IH Hm|m _ IH]; [done|by eapply waits_aside|by apply waits_others]. Qed.

Lemma waits_later {A} (r : RT) (m : st (Manager FS) A) :
  (forall w w' b, m w = (b, w') -> later w w') -> preserves (waits r) (onM m).
Proof. intros Hm a b x Ho Hw. eapply waits_quiet; [exact Hw|]. by eapply onM_quiet. Qed.

Lemma waits_unlock (r : RT) : preserves (waits r) (onM unlock).
Proof. intros a b [] Hu Hw. eapply waits_quiet; [exact Hw|]. by apply unlock_quiet with (E := E) in Hu as [Hu _]. Qed.

Lemma waits_gap (r : RT) : preserves (waits r) (gap E).
Proof. intros a b [] [= <-]. apply waits_others. Qed.

#[local] Hint Resolve waits_unlock waits_gap : preserves.

Lemma waits_SyncLogging (r : RT) : preserves (waits r) (SyncLogging E).
Proof.
  unfold SyncLogging. apply preserves_bind; [solve_preserves|]. intros r0. case_if; [solve_preserves|].
  apply preserves_bind; [apply waits_later; intros w w' b Hb; by apply lockMaintenance_later in Hb as [Hb _]|].
  intros [x|]; [solve_preserves|]. apply preserves_bind; [solve_preserves|]. intros r1. case_if; [solve_preserves|].
  apply preserves_bind; [solve_preserves|]. intros _.
  apply preserves_bind; [apply waits_later; intros w w' b; apply observeLoggingLevel_later|]. intros read.
  apply preserves_bind; [solve_preserves|]. intros _.
  apply preserves_bind; [apply waits_later; intros w w' b Hb; by apply lockMutation_spec in Hb as [Hb _]|].
  intros [x|]; [solve_preserves|]. apply preserves_bind; [solve_preserves|]. intros r2.
  apply preserves_bind; [|solve_preserves]. case_if; [solve_preserves|].
  intros a b y Hy Hw. eapply waits_aside; [exact Hw|]. apply calm_aside. eapply adopt_level_calm; [exact Hy|done].
Qed.

(** *** Generating and installing *)

(** [c] was generated from [d] with the settings of its generation. *)
Definition made_for (d : Document) (c : configCandidate) (r : RT) : Prop :=
  coherent c /\ c_bound c = true /\
  (c_generation c = configGeneration (mgr r) -> Generate d ∅ (settings (mgr r)) = Ok (c_content c)).

Lemma made_for_same (d : Document) (c : configCandidate) (r r' : RT) :
  configGeneration (mgr r') = configGeneration (mgr r) -> settings (mgr r') = settings (mgr r) -> made_for d c r -> made_for d c r'.
Proof. intros Hg Hs. unfold made_for. by rewrite Hg, Hs. Qed.

Lemma made_for_quiet (d : Document) (c : configCandidate) (r r' : RT) : quiet E r r' -> made_for d c r -> made_for d c r'.
Proof. intros (_ & _ & _ & Hs & _ & Hg). by apply made_for_same. Qed.

Lemma prepareConfigWithSettings_made (d : Document) (c : configCandidate) (r r' : RT) :
  prepareConfigWithSettings E d (settings (mgr r)) (configGeneration (mgr r)) r = (Ok c, r') ->
  quiet E r r' /\ c_generation c = configGeneration (mgr r') /\ made_for d c r'.
Proof.
  intros Hr. pose proof (prepareConfigWithSettings_spec E _ _ _ _ _ _ Hr) as [Hq Hc]. destruct (Hc c eq_refl) as [Hcoh Hgen].
  pose proof Hq as (_ & _ & _ & Hs & _ & Hg). unfold prepareConfigWithSettings in Hr. rewrite Hgen in Hr.
  apply st_try_inv in Hr as [(y & ? & _)|(c1 & r1 & _ & Hr)]; [done|]. injection Hr as <- <-. split; [done|].
  split; [by rewrite Hg|]. split; [done|]. split; [done|]. intros _. by rewrite Hs.
Qed.

(** Preparing; other requests run only before the settings are read. *)
Lemma prepareConfig_made (d : Document) (c : configCandidate) (r r' : RT) :
  prepareConfig E d r = (Ok c, r') -> waits r r' /\ c_generation c = configGeneration (mgr r') /\ made_for d c r'.
Proof.
  unfold prepareConfig. intros Hr. apply st_check_inv in Hr as [(x & [=] & _)|(r1 & Hs & Hr)].
  pose proof (waits_SyncLogging r _ _ _ Hs (waits_here r)) as Hw. unfold st_bind at 1, st_get in Hr. cbn beta iota in Hr.
  apply prepareConfigWithSettings_made in Hr as (Hq & Hm). split; [by eapply waits_quiet|done].
Qed.

(** Other requests may run between preparing and committing. *)
Lemma made_for_others (d : Document) (c : configCandidate) (r : RT) :
  counting_others -> c_generation c = configGeneration (mgr r) -> made_for d c r -> made_for d c (re_others E r).
Proof.
  intros [_ Hco] Hg (Hcoh & Hb & Hm). split; [done|]. split; [done|]. intros Hg'. rewrite Hco by congruence. auto.
Qed.

Section Installing.
Hypothesis Hrel : re_reloader E = true.

Lemma commit_runs_generated (d : Document) (c : configCandidate) (r r' : RT) :
  commitRuntimeConfig E false c r = (None, r') -> in_step E r -> made_for d c r -> config_frame E r r' /\ runs r' d.
Proof.
  intros Hr Hstep (Hcoh & Hb & Hm). pose proof Hr as Hfresh.
  apply commitRuntimeConfig_routed in Hr as ([Hf [Ha Hl]] & Hmove & _); [|done..]. split; [done|].
  exists (settings (mgr r)), (c_content c). split; [|done]. apply Hm. unfold commitRuntimeConfig in Hfresh.
  unfold st_bind at 1, st_get in Hfresh. cbn beta iota in Hfresh. case_if_in Hfresh; [done|].
  rewrite Hb in Hfresh. cbn [andb] in Hfresh. destruct (Z.eqb_spec (c_generation c) (configGeneration (mgr r))); [done|discriminate Hfresh].
Qed.

Lemma pattern_not_hidden (d id : string) : profileIDPattern id = true -> hidden (d, (id ++ ".yaml")%string) = false.
Proof.
  unfold profileIDPattern, hidden. rewrite andb_true_iff. intros [Hl Hc]. destruct id as [|c id]; [done|].
  apply andb_true_iff in Hc as [Hc _]. change (String c id ++ ".yaml")%string with (String c (id ++ ".yaml")%string). cbn -[lower_hex].
  case_match; [by subst c|done].
Qed.

Lemma cached_document_frame (id : string) (d : Document) (r r' : RT) :
  config_frame E r r' -> paths_ok E r -> cached_document id r d -> cached_document id r' d.
Proof.
  intros ([_ Hd] & Hc & Hf & _) (_ & _ & _ & _ & Hne) (Hid & content & parsed & Hr & Hp & ->). split; [done|].
  exists content, parsed. rewrite Hc. split; [|done]. unfold CachePath. rewrite Hd, Hf; [done| |by apply pattern_not_hidden].
  intros Heq. apply Hne. by rewrite <- Heq.
Qed.

Lemma active_document_frame (d : Document) (r r' : RT) :
  config_frame E r r' -> paths_ok E r -> active_document r d -> active_document r' d.
Proof.
  intros Hf Hp. unfold active_document. destruct Hf as (? & Hc & ?) eqn:Heq. rewrite Hc. case_if; [done|]. by apply cached_document_frame.
Qed.

Lemma read_cache_spec (id : string) (r r' : RT) (content : string) (d : Document) :
  read_cache id r = (Ok (content, d), r') -> cached_document id r d.
Proof.
  unfold read_cache. intros Hr. destruct (profileIDPattern id) eqn:Hid; [|done]. cbn [negb] in Hr.
  unfold st_bind at 1, st_get in Hr. cbn beta iota in Hr. apply st_bind_inv in Hr as (c & r1 & Hc & Hr).
  apply (ReadFile_quiet E) in Hc as [_ Hc]. destruct c as [c|x]; [|done]. destruct (ParseDocument c) as [parsed|] eqn:Hp; [|done].
  injection Hr as <- <- _. split; [done|]. by exists c, parsed.
Qed.

Lemma ReadCache_spec (id : string) (r r' : RT) (d : Document) : ReadCache id r = (Ok d, r') -> cached_document id r d.
Proof.
  unfold ReadCache. intros Hr. apply st_try_inv in Hr as [(y & [=] & _)|([c d'] & r1 & Hp & Hr)].
  injection Hr as <- _. by eapply read_cache_spec.
Qed.

Lemma prepareCatalogConfig_made (c : configCandidate) (r r' : RT) :
  prepareCatalogConfig E (catalog (svc r)) r = (Ok c, r') ->
  quiet E r r' /\ exists d, active_document r d /\ made_for d c r'.
Proof.
  unfold prepareCatalogConfig, prepareCatalogConfigWithSettings. intros Hr. unfold st_bind at 1, st_get in Hr. cbn beta iota in Hr.
  unfold active_document. case_if_in Hr.
  { apply prepareConfigWithSettings_made in Hr as (Hq & _ & Hm). split; [done|]. by exists direct_document. }
  apply st_try_inv in Hr as [(y & [=] & _)|(d & r1 & Hp & Hr)]. pose proof (ReadCache_quiet E _ _ _ _ Hp) as Hq1.
  apply ReadCache_spec in Hp. pose proof Hq1 as (_ & _ & _ & Hs & _ & Hg). rewrite <- Hs, <- Hg in Hr.
  apply prepareConfigWithSettings_made in Hr as (Hq & _ & Hm). split; [by eapply quiet_trans|]. by exists d.
Qed.

(** Installing the configuration of the catalog in memory. *)
Lemma apply_catalog_runs (before : Catalog) (s s' : Snapshot) (r r' : RT) :
  apply_catalog E before (catalog (svc r)) s r = ((s', None), r') -> in_step E r -> paths_ok E r ->
  config_frame E r r' /\ exists d, active_document r' d /\ runs r' d.
Proof.
  unfold apply_catalog. intros Hr Hstep Hp. apply st_bind_inv in Hr as (c & r1 & Hc & Hr). destruct c as [c|x].
  2:{ apply st_bind_inv in Hr as (y & r2 & _ & Hr). discriminate Hr. }
  apply prepareCatalogConfig_made in Hc as (Hq & d & Hd & Hm). apply st_bind_inv in Hr as (a & r2 & Ha & Hr).
  apply st_bind_inv in Hr as ([] & r3 & Hcl & Hr). injection Hr as -> <-. apply (cleanup_quiet E) in Hcl; [|by destruct Hm].
  unfold apply_candidate in Ha. apply st_bind_inv in Ha as (x & r4 & Hx & Ha). destruct x as [x|].
  { apply st_bind_inv in Ha as (y & r5 & _ & Ha). discriminate Ha. }
  injection Ha as _ <-. pose proof Hq as (Hf1 & Ha1 & Hl1 & _).
  apply (commit_runs_generated d) in Hx as [Hf Hruns]; [|unfold in_step in *; congruence|done].
  pose proof Hcl as (Hf3 & Ha3 & Hl3 & Hs3 & _).
  assert (Hframe : config_frame E r r3) by (eapply config_frame_trans; [exact Hf1|]; by eapply config_frame_trans).
  split; [done|]. exists d. split; [by eapply active_document_frame|].
  destruct Hruns as (t & content & Hg & Ht & Hact & Hl). exists t, content. split; [done|]. split; [by rewrite Hs3|]. split; congruence.
Qed.

(** *** Publishing *)

(** Publishing a mutation and returning the ownership leave these alone. *)
Record publishes (r r' : RT) : Prop := {
  pu_svc : svc r' = svc r;
  pu_trusted : trusted r' = trusted r;
  pu_loaded : loaded r' = loaded r;
  pu_settings : settings (mgr r') = settings (mgr r)
}.

Lemma publishes_refl (r : RT) : publishes r r.
Proof. done. Qed.

Lemma publishes_config (r r' : RT) : publishes r r' -> active_config E r' = active_config E r.
Proof. intros [Hs Ht _ _]. unfold active_config. by rewrite Hs, Ht. Qed.

Lemma publishes_runs (d : Document) (r r' : RT) : publishes r r' -> runs r d -> runs r' d.
Proof.
  intros Hp (t & content & Hg & Ht & Ha & Hl). exists t, content. rewrite (publishes_config _ _ Hp), (pu_loaded _ _ Hp), (pu_settings _ _ Hp). done.
Qed.

Lemma publishes_document (d : Document) (r r' : RT) : publishes r r' -> active_document r d -> active_document r' d.
Proof. intros [Hs _ _ _]. unfold active_document, cached_document. by rewrite Hs. Qed.

Lemma publishes_untouched (m r r' : RT) : publishes r r' -> config_untouched m r -> config_untouched m r'.
Proof. intros Hp [Hl Ha]. split; [rewrite (pu_loaded _ _ Hp)|rewrite (publishes_config _ _ Hp)]; done. Qed.

Lemma Do_effect (ctx : option error) (meta : CommandMeta) (mu : Mutation RT) (r r' : RT) (sn : Snapshot) :
  Do ctx meta mu r = ((sn, None), r') -> exists s' r1, mu (store (mgr r)) r = ((s', None), r1) /\ publishes r1 r'.
Proof.
  unfold Do. intros Hd. destruct ctx as [x|]; [discriminate Hd|]. unfold st_bind at 1, st_get in Hd. cbn beta iota in Hd.
  case_if_in Hd; [discriminate Hd|]. apply st_bind_inv in Hd as ([next merr] & r1 & Hm & Hd).
  destruct merr as [[x|x]|]; [discriminate Hd|discriminate Hd|]. unfold st_bind, st_modify in Hd. injection Hd as _ <-.
  by exists next, r1.
Qed.

Lemma unlock_publishes (r r' : RT) : onM unlock r = (tt, r') -> publishes r r'.
Proof. intros Hu. by apply onM_inv in Hu as (m' & [= <-] & ->). Qed.

Lemma publishes_trans (a b c : RT) : publishes a b -> publishes b c -> publishes a c.
Proof. intros [? ? ? ?] [? ? ? ?]. constructor; congruence. Qed.

Lemma locked_effect (op : Operation) (mu : Mutation RT) (r r' : RT) :
  locked_mutation E op mu r = (None, r') ->
  exists m s' r1, quiet E r m /\ mu (store (mgr m)) m = ((s', None), r1) /\ publishes r1 r'.
Proof.
  unfold locked_mutation. intros Hr. apply st_bind_inv in Hr as (l & r1 & Hl & Hr). destruct l as [l|]; [discriminate Hr|].
  apply (onM_quiet E) in Hl; [|intros w w' b Hb; by apply lockMutation_spec in Hb as [Hb _]].
  apply st_bind_inv in Hr as (ctx & r2 & Hc & Hr). apply (onM_quiet E) in Hc; [|intros w w' b Hb; by apply ctxErr_later in Hb].
  apply st_bind_inv in Hr as ([sn err] & r3 & Hd & Hr). apply st_bind_inv in Hr as ([] & r4 & Hm & Hr).
  apply st_bind_inv in Hr as ([] & r5 & Hu & Hr). injection Hr as -> <-. injection Hm as <-.
  apply Do_effect in Hd as (s' & r6 & Hmu & Hp). exists r2, s', r6. split; [by eapply quiet_trans|]. split; [done|].
  eapply publishes_trans; [exact Hp|by apply unlock_publishes].
Qed.

(** *** Mutations *)

Lemma apply_candidate_runs (before after : Catalog) (d : Document) (c : configCandidate) (s s' : Snapshot) (r r' : RT) :
  apply_candidate E before after c s r = ((s', None), r') -> in_step E r -> made_for d c r -> config_frame E r r' /\ runs r' d.
Proof.
  unfold apply_candidate. intros Hr Hstep Hm. apply st_bind_inv in Hr as (x & r1 & Hx & Hr). destruct x as [x|].
  { apply st_bind_inv in Hr as (y & r2 & _ & Hr). discriminate Hr. }
  injection Hr as _ <-. by eapply commit_runs_generated.
Qed.

(** The state after the catalog was edited. *)
Lemma Mutate_effect (f : Catalog -> result Catalog) (m r1 : RT) (before after : Catalog) :
  onS (Mutate f) m = ((before, after, None), r1) -> good E m ->
  before = catalog (svc m) /\ catalog (svc r1) = after /\ (exists c, f before = Ok c /\ settle c = Ok after) /\
  mgr r1 = mgr m /\ config_untouched m r1 /\ in_step E r1 /\ paths_ok E r1 /\
  forall q, q <> catalogPath (svc m) -> hidden q = false -> af_read q (disk (svc r1)) = af_read q (disk (svc m)).
Proof.
  intros Hm (Hstep & Hp & _). pose proof (onS_Mutate E _ _ _ _ _ _ Hm Hp) as [-> [Hset _ _ Hl Ha Hc _ _]].
  apply onS_inv in Hm as (s & Hm & ->). apply Mutate_spec in Hm as (_ & Hf & _ & Hex & _). split_and!; try done.
  - unfold in_step in *. congruence.
  - by eapply paths_ok_setup.
Qed.

Lemma use_effect (id : string) (version : Z) (d : Document) (c : configCandidate) (s s' : Snapshot) (m r' : RT) :
  use_mutation E id version c s m = ((s', None), r') -> good E m -> made_for d c m ->
  exists p', find_profile (catalog (svc m)) id = Some p' /\ Catalog.Version p' = version /\
    (Enabled p' = true -> Generation p' <> 0 -> ActiveID (catalog (svc r')) = id) /\ runs r' d.
Proof.
  intros Hr Hg Hm. unfold use_mutation in Hr. unfold st_bind at 1, st_get in Hr. cbn beta iota in Hr.
  destruct (find_profile (catalog (svc m)) id) as [p|] eqn:Hf; [|discriminate Hr].
  destruct (Z.eqb_spec (Catalog.Version p) version) as [Hv|]; [|discriminate Hr]. cbn [negb] in Hr.
  apply st_bind_inv in Hr as ([[before after] x] & r1 & Hmu & Hr). destruct x as [x|]; [discriminate Hr|].
  apply Mutate_effect in Hmu as (-> & Hc & (c1 & [= <-] & Hset) & Hmgr & _ & Hstep & _ & _); [|done].
  apply (apply_candidate_runs _ _ d) in Hr as [(_ & Hc' & _) Hruns]; [|done|].
  2:{ eapply made_for_same; [..|exact Hm]; by rewrite Hmgr. }
  exists p. split; [done|]. split; [done|]. split; [|done]. intros Hen Hgen. rewrite Hc', Hc.
  apply find_profile_Some in Hf as [Hin Hid]. rewrite (settle_keeps _ _ p Hset); try done.
  intros He. destruct Hg as (_ & _ & (_ & _ & Hall & _) & _). rewrite Forall_forall in Hall. apply Hall in Hin as [Hpat _].
  rewrite He in Hpat. done.
Qed.

Lemma remove_effect (id : string) (s s' : Snapshot) (m r' : RT) :
  remove_mutation E id s m = ((s', None), r') -> good E m -> removes id m r' /\ ActiveID (catalog (svc r')) <> id.
Proof.
  intros Hr Hg. unfold remove_mutation in Hr. apply st_bind_inv in Hr as ([[before after] x] & r1 & Hmu & Hr).
  destruct x as [x|]; [discriminate Hr|].
  apply Mutate_effect in Hmu as (-> & Hc & (c1 & Hrm & Hset) & Hmgr & Hun & Hstep & Hp & _); [|done].
  pose proof Hg as (_ & _ & Hok & _).
  assert (Hex : find_profile (catalog (svc m)) id <> None).
  { unfold remove_profile in Hrm. case_if_in Hrm; [done|]. destruct (Index_Some (catalog (svc m)) id) as (p & Hp' & _); [done|].
    unfold find_profile. rewrite Heqb. by rewrite Hp'. }
  destruct (remove_profile_spec _ _ _ _ Hrm Hok Hset) as (Hact & Hps & Hnone & Hne). unfold removes.
  destruct (String.eqb_spec (ActiveID (catalog (svc m))) id) as [Heq|Hne'].
  - rewrite <- Hc in Hr. apply apply_catalog_runs in Hr as [(_ & Hc' & _) Hd]; [|done..]. rewrite Hc', Hc. done.
  - apply st_bind_inv in Hr as (saved & r2 & Hs & Hr). destruct saved as [cand|x].
    2:{ apply st_bind_inv in Hr as (y & r3 & _ & Hr). discriminate Hr. }
    injection Hr as _ <-. apply onM_inv in Hs as (m' & _ & ->). cbn [svc set_mgr]. rewrite Hc. split; [|done].
    split; [done|]. split; [done|]. split; [by eapply (selection_kept id _ c1)|exact Hun].
Qed.

Lemma edit_effect (id : string) (f : Catalog -> Profile -> result (Catalog * Profile)) (s s' : Snapshot) (m r' : RT) :
  edit_mutation E id f s m = ((s', None), r') -> good E m -> edits id f m r'.
Proof.
  intros Hr Hg. unfold edit_mutation in Hr. apply st_bind_inv in Hr as ([[before after] x] & r1 & Hmu & Hr).
  destruct x as [x|]; [discriminate Hr|].
  apply Mutate_effect in Hmu as (-> & Hc & (c1 & Hed & Hset) & _ & Hun & Hstep & Hp & _); [|done].
  assert (Hex : exists p c p', find_profile (catalog (svc m)) id = Some p /\ f (catalog (svc m)) p = Ok (c, p') /\
    settle (update_profile id (fun _ => p') c) = Ok after).
  { unfold edit_profile in Hed. destruct (find_profile _ id) as [p|]; [|done]. destruct (f _ p) as [[c p']|] eqn:Hf; [|done].
    injection Hed as <-. by exists p, c, p'. }
  unfold edits. case_if_in Hr.
  - injection Hr as _ <-. rewrite Hc. split; [done|]. by rewrite Heqb.
  - rewrite <- Hc in Hr. apply apply_catalog_runs in Hr as [(_ & Hc' & _) Hd]; [|done..]. rewrite Hc', Hc. split; [done|]. by rewrite Heqb.
Qed.

(** *** Requests *)

Lemma runs_quiet (d : Document) (r r' : RT) : quiet E r r' -> runs r d -> runs r' d.
Proof.
  intros (_ & Ha & Hl & Hs & _) (t & content & Hg & Ht & Hact & Hld). exists t, content. rewrite Ha, Hl, Hs. done.
Qed.

Lemma admit_parts (key : string) (r r' : RT) (x : option error) :
  onM (admit_operation (re_env E) key) r = (x, r') -> svc r' = svc r /\ waits r r'.
Proof.
  intros Ha. split; [by apply onM_inv in Ha as (m' & _ & ->)|]. eapply waits_quiet; [constructor|]. by eapply admit_quiet.
Qed.

Lemma CachePath_inj (a b : string) (s : Service AEnv W) : CachePath a s = CachePath b s -> a = b.
Proof.
  unfold CachePath. intros [= He]. revert b He.
  assert (Hlen : forall c t, (".yaml" <> String c t ++ ".yaml")%string).
  { intros c t Heq. apply (f_equal String.length) in Heq. rewrite append_length in Heq. simpl in Heq. lia. }
  induction a as [|x a IH]; intros [|y b] He; [done|by apply Hlen in He|by symmetry in He; apply Hlen in He|].
  injection He as -> He. f_equal. by apply IH.
Qed.

(** Removing the cache of a subscription that is not active. *)
Lemma cache_removed (id : string) (r : RT) (s : Service AEnv W) (x : option error) :
  Remove (CachePath id (svc r)) (svc r) = (x, s) -> paths_ok E r ->
  catalog s = catalog (svc r) /\ active_config E (set_svc s r) = active_config E r /\
  (ActiveID (catalog (svc r)) <> id -> forall d, active_document r d -> active_document (set_svc s r) d).
Proof.
  intros Hr (_ & _ & _ & _ & Hd).
  assert (Hs : same_setup (svc r) s /\ catalog s = catalog (svc r) /\
    forall q, q <> CachePath id (svc r) -> af_read q (disk s) = af_read q (disk (svc r))).
  { unfold Remove in Hr. destruct (af_read _ _) as [c|]; [destruct (io_fail _)|]; injection Hr as <- <-; try done.
    split; [done|]. split; [done|]. intros q Hq. cbn. rewrite af_removed. by rewrite decide_False. }
  destruct Hs as ([_ Hdir] & Hc & Hf). split; [done|]. split.
  - unfold active_config. cbn. destruct (trustedCore _); [done|]. apply Hf. intros Heq. apply Hd. by rewrite Heq.
  - intros Hne d. unfold active_document, cached_document. cbn [svc set_svc]. rewrite Hc. case_if; [done|].
    intros (Hp & content & parsed & Hrd & Hrest). split; [done|]. exists content, parsed. split; [|done].
    unfold CachePath at 1. rewrite Hdir. rewrite Hf; [exact Hrd|]. intros Heq. by apply CachePath_inj in Heq.
Qed.

Section Requests.
Hypothesis Hco : counting_others.

(** The moment a request takes effect, and its effect from there on. *)
Definition took_effect (effect : RT -> RT -> Prop) (r r' : RT) : Prop := exists m, waits r m /\ good E m /\ effect m r'.

Lemma locked_took_effect (op : Operation) (mu : Mutation RT) (r r1 r' : RT) (effect : RT -> RT -> Prop) :
  locked_mutation E op mu r1 = (None, r') -> waits r r1 -> good E r ->
  (forall m s s' r2, quiet E r1 m -> mu s m = ((s', None), r2) -> good E m -> publishes r2 r' -> effect m r') ->
  took_effect effect r r'.
Proof.
  intros Hl Hw Hg Heff. apply locked_effect in Hl as (m & s' & r2 & Hq & Hmu & Hp). assert (Hwm : waits r m) by (by eapply waits_quiet).
  assert (Hgm : good E m) by (eapply waits_good; [exact Hwm|apply Hco|done]). exists m. split; [done|]. split; [done|]. by eapply Heff.
Qed.

Lemma Use_took_effect (op : Operation) (id : string) (r r' : RT) (v : PublicProfile) :
  UseSubscription E op id r = (Ok v, r') -> good E r -> took_effect (uses id r) r r'.
Proof.
  unfold UseSubscription. intros Hr Hg. apply st_check_inv in Hr as [(x & [=] & _)|(r1 & Ha & Hr)].
  apply admit_parts in Ha as [Hs1 Hw1]. unfold st_bind at 1, st_get in Hr. cbn beta iota in Hr. rewrite Hs1 in Hr.
  destruct (find_profile _ id) as [p|] eqn:Hf; [|discriminate Hr]. case_if_in Hr; [discriminate Hr|].
  apply st_try_inv in Hr as [(x & [=] & _)|(d & r2 & Hd & Hr)]. pose proof (ReadCache_quiet E _ _ _ _ Hd) as Hq2.
  apply ReadCache_spec in Hd. assert (Hd' : cached_document id r d) by (unfold cached_document in *; by rewrite Hs1 in Hd).
  apply st_try_inv in Hr as [(x & [=] & _)|(c & r3 & Hc & Hr)]. apply prepareConfig_made in Hc as (Hw3 & Hgen & Hm).
  apply st_bind_inv in Hr as ([] & r4 & Hgap & Hr). injection Hgap as <-.
  apply (made_for_others d c) in Hm; [|done..].
  apply st_bind_inv in Hr as (x & r5 & Hl & Hr). unfold st_bind at 1, st_get in Hr. cbn beta iota in Hr.
  apply st_bind_inv in Hr as ([] & r6 & Hcl & Hr). injection Hr as Hv <-. destruct x as [x|]; [discriminate Hv|].
  apply (cleanup_quiet E) in Hcl; [|by destruct Hm].
  assert (Hw : waits r (re_others E r3)).
  { apply waits_others. eapply waits_trans; [|exact Hw3]. by eapply waits_quiet. }
  eapply (locked_took_effect _ _ r) with (effect := fun m r' => uses id r m r6) in Hl as (m & Hwm & Hgm & He); [by exists m|done..|].
  intros m s s' r7 Hq Hmu Hgm Hp. apply (use_effect _ _ d) in Hmu as (p' & Hf' & Hv' & Hact & Hruns); [|done|by eapply made_for_quiet].
  exists p, p', d. do 4 (split; [done|]). pose proof Hcl as ((_ & Hc6 & _) & _).
  split; [intros Hen Hge; rewrite Hc6, (pu_svc _ _ Hp); auto|].
  eapply runs_quiet; [exact Hcl|by eapply publishes_runs].
Qed.

Lemma Remove_took_effect (op : Operation) (id : string) (r r' : RT) :
  RemoveSubscription E op id r = (None, r') -> good E r -> took_effect (removes id) r r'.
Proof.
  unfold RemoveSubscription. intros Hr Hg. apply st_bind_inv in Hr as (x & r1 & Ha & Hr). destruct x as [x|]; [discriminate Hr|].
  apply admit_parts in Ha as [_ Hw1]. unfold st_bind at 1, st_get in Hr. cbn beta iota in Hr.
  apply st_bind_inv in Hr as (x & r2 & Hs & Hr). destruct x as [x|]; [discriminate Hr|].
  assert (Hw2 : waits r r2) by (case_if_in Hs; [by eapply waits_SyncLogging|injection Hs as <-; done]).
  apply st_bind_inv in Hr as ([] & r3 & Hgap & Hr). injection Hgap as <-.
  apply st_bind_inv in Hr as (x & r4 & Hl & Hr). destruct x as [x|]; [discriminate Hr|].
  unfold st_bind at 1, st_get in Hr. cbn beta iota in Hr. apply st_bind_inv in Hr as (x & r5 & Hrm & Hr). injection Hr as <-.
  eapply (locked_took_effect _ _ r) with (effect := fun m r' => removes id m r' /\ ActiveID (catalog (svc r')) <> id /\ paths_ok E r') in Hl
    as (m & Hwm & Hgm & (Hex & Hnone & Hrem) & Hne & Hp); [|by apply waits_others|done|].
  - exists m. split; [done|]. split; [done|]. split; [done|].
    apply onS_inv in Hrm as (s & Hrm & ->). apply (cache_removed id r4) in Hrm as (Hc & Ha & Hfiles); [|done].
    unfold removes. cbn [svc set_svc]. rewrite Hc. split; [done|]. case_if_in Hrem.
    + destruct Hrem as (d & Hd & Hruns). exists d. split; [by apply (Hfiles Hne)|]. destruct Hruns as (t & content & Hg' & Ht & Hact & Hl).
      exists t, content. by rewrite Ha.
    + destruct Hrem as [Hact [Hl Hcfg]]. split; [done|]. split; [done|]. by rewrite Ha.
  - intros m s s' r6 Hq Hmu Hgm Hp. destruct (remove_effect _ _ _ _ _ Hmu Hgm) as [(Hex & Hnone & Hrem) Hne].
    pose proof Hgm as (Hstep & Hpm & Hok & _). destruct (remove_mutation_settles E id Hrel _ _ _ _ Hmu Hstep Hpm Hok) as (Hset & _).
    unfold removes, paths_ok. rewrite (pu_svc _ _ Hp). split; [|split; [done|by eapply paths_ok_setup in Hpm]].
    split; [done|]. split; [done|]. case_if; [|by destruct Hrem; split; [|eapply publishes_untouched]].
    destruct Hrem as (d & Hd & Hruns). exists d. split; [by eapply publishes_document|by eapply publishes_runs].
Qed.

Lemma mutate_took_effect (prefix : string) (op : Operation) (id : string) (f : Catalog -> Profile -> result (Catalog * Profile))
    (r r' : RT) (v : PublicProfile) :
  mutateSubscription E prefix op id f r = (Ok v, r') -> good E r -> took_effect (edits id f) r r'.
Proof.
  unfold mutateSubscription. intros Hr Hg. apply st_check_inv in Hr as [(x & [=] & _)|(r1 & Ha & Hr)].
  apply admit_parts in Ha as [_ Hw1]. unfold st_bind at 1, st_get in Hr. cbn beta iota in Hr.
  apply st_check_inv in Hr as [(x & [=] & _)|(r2 & Hs & Hr)].
  assert (Hw2 : waits r r2) by (case_if_in Hs; [by eapply waits_SyncLogging|injection Hs as <-; done]).
  apply st_bind_inv in Hr as ([] & r3 & Hgap & Hr). injection Hgap as <-.
  apply st_check_inv in Hr as [(x & [=] & _)|(r4 & Hl & Hr)]. unfold st_bind, st_get in Hr. injection Hr as _ <-.
  eapply locked_took_effect; [exact Hl|by apply waits_others|done|]. intros m s s' r5 _ Hmu Hgm Hp.
  destruct (edit_effect _ _ _ _ _ _ Hmu Hgm) as [Hex Hed]. unfold edits. rewrite (pu_svc _ _ Hp). split; [done|].
  case_if; [by eapply publishes_untouched|]. destruct Hed as (d & Hd & Hruns). exists d.
  split; [by eapply publishes_document|by eapply publishes_runs].
Qed.

End Requests.

End Installing.

End Effects.
