(* ===== verification/SubRequests.v ===== *)
(** * SubRequests: adding and refreshing a subscription

    Models [AddSubscription] and [RefreshSubscription] of
    [internal/runtime/subscription.go] with the commit of a fetched document
    ([commitSubscriptionCandidate] of [setup.go]), and states of all requests that
    change the catalog what they keep together and what they have done when they
    report success.

    A request fetches its source without owning anything, generates and validates
    a configuration, and only then takes ownership and commits.  In setup mode it
    starts again, at most twice, when what it prepared is out of date.  Where the
    request owns nothing other requests run: [gap] of [RuntimeConfig]. *)

From S2P Require Import Prelude GoStd SelfUpdate Atomic State Settings Catalog SubService TrustedConfig Generator FileRefs.
From S2P Require Import Manager Routing RuntimeConfig SubEffects.

(** The answers of a request's sources, its random identifier, the clock, and how
    often a setup request sees a core update end before its deadline. *)
Record source_env := mkSourceEnv {
  src_fetch : nat -> Profile -> result FetchResult;
  src_id : nat -> result string;
  src_now : nat -> Z;
  src_rounds : nat
}.

Record AddSubscriptionInput := mkAddInput {
  add_Name : string;
  add_URL : string;
  add_ProxyMode : string;
  add_AllowFileReferences : bool
}.

Section Requests.
Context `{CaseFold} `{SourceSyntax} `{CatalogYAML} `{DocumentYAML} `{PEM} `{Sha256}
  {Env FS AEnv W : Type} `{SettingsFile Env FS} `{AtomicFile AEnv W} (E : rt_env Env FS AEnv W) (src : source_env).

Abbreviation R := (st (Runtime FS AEnv W)).
Abbreviation o := (re_options E).
Abbreviation e := (re_env E).

(** ** Setup mode (setup.go) *)

(** [setupPreparationChanged]. *)
Definition preparation_changed (resource : string) : error := EFmt resource (ESentinel ErrPreparationChanged).

Definition still_changing (cause : error) : error :=
  diagnostics_Wrap (mkAPIError CodeRevisionConflict
    "still changing; your input and earlier setup steps are kept. Try again shortly." false) (Some cause).

(** The loop of [lockSetupMutation]; the deadline of the request ends it. *)
Fixpoint lock_rounds (n : nat) : R (option error) :=
  match n with
  | O => st_ret (Some (ESentinel ErrDeadline))
  | S n =>
      let! owner := onM (ownsCoreUpdate e) in
      let! r := st_get in
      if negb owner && bool_decide (is_Some (coreUpdate (mgr r))) then
        let! ctx := onM (ctxErr e) in
        match ctx with
        | Some x => st_ret (Some x)
        | None => do! gap E in lock_rounds n
        end
      else
        do! gap E in
        let! x := onM (lockMutation o e) in
        match x with
        | None => st_ret None
        | Some x =>
            let! r := st_get in
            if bool_decide (is_Some (coreUpdate (mgr r))) then lock_rounds n else st_ret (Some x)
        end
  end.

Definition lockSetupMutation (setup : bool) : R (option error) :=
  if setup then lock_rounds (S (src_rounds src))
  else do! gap E in onM (lockMutation o e).

(** ** Committing what was fetched *)

Section Commit.
Context {P : Type} (op : Operation) (setup : bool) (id : P -> string) (prepare : P -> R (result P))
  (document_of : P -> Document) (check : option error) (commit : P -> configCandidate -> Mutation (Runtime FS AEnv W)).

(** The part of an attempt that owns the mutation, with whether the degraded
    state was published.  After a commit the catalog in memory is the receipt's,
    so the committed profile is read from it. *)
Definition owned_attempt (p : P) (c : configCandidate) : R (result PublicProfile * bool) :=
  let! x := onM (checkIfRevision (op_IfRevision op)) in
  match x with
  | Some x => st_ret (Err x, false)
  | None =>
      let! r := st_get in
      if setup && negb (c_generation c =? configGeneration (mgr r)) then
        st_ret (Err (preparation_changed "Subscription configuration"), false)
      else
        let! ctx := onM (ctxErr e) in
        let! '(_, err) := Do ctx (mkCommandMeta (op_ID op) (op_Source op) (op_IfRevision op)) (commit p c) in
        match err with
        | None => let! r := st_get in st_ret (findPublicProfile (Public (catalog (svc r))) (id p), false)
        | Some x =>
            if setup && error_degraded x then
              do! onM (st_modify (fun m => set_stop true (set_degraded m))) in
              do! markConfigDegraded E x in
              st_ret (Err x, true)
            else st_ret (Err x, false)
        end
  end.

(** The body of [commitSubscriptionCandidate]. *)
Definition attempt (p : P) : R (P * result PublicProfile * bool) :=
  let! next := prepare p in
  match next with
  | Err x => st_ret (p, Err x, false)
  | Ok p =>
      let! c := prepareConfig E (document_of p) in
      match c with
      | Err x => st_ret (p, Err x, false)
      | Ok c =>
          let! '(a, marked) :=
            match check with
            | Some x => st_ret (Err x, false)
            | None =>
                let! x := lockSetupMutation setup in
                match x with
                | Some x => st_ret (Err x, false)
                | None => let! a := owned_attempt p c in do! onM unlock in st_ret a
                end
            end in
          do! cleanup E c in
          st_ret (p, a, marked)
      end
  end.

(** [retrySetupPreparation]; [k] attempts may follow this one. *)
Fixpoint retrySetupPreparation (k : nat) (p : P) (marked : bool) : R (P * result PublicProfile * bool) :=
  let! ctx := onM (ctxErr e) in
  match ctx with
  | Some x => st_ret (p, Err x, marked)
  | None =>
      let! '(p, a, now) := attempt p in
      let marked := marked || now in
      match a with
      | Err x =>
          if setup && errors_Is x ErrPreparationChanged then
            match k with
            | O => st_ret (p, Err (still_changing x), marked)
            | S k => do! gap E in retrySetupPreparation k p marked
            end
          else st_ret (p, Err x, marked)
      | Ok _ => st_ret (p, a, marked)
      end
  end.

Definition commitSubscriptionCandidate (p : P) : R (P * result PublicProfile) :=
  let! '(p, a, marked) := retrySetupPreparation 2 p false in
  match a with
  | Ok _ => st_ret (p, a)
  | Err x =>
      do! (if marked then st_ret tt else do! gap E in markConfigDegraded E x) in
      st_ret (p, a)
  end.

End Commit.

(** The catalog and the cache are put back after a failure. *)
Definition rollback_receipt (receipt : Receipt) (cause : error) : R error :=
  let! y := onS (Rollback receipt) in
  st_ret match y with Some y => degradedConfigError cause y | None => cause end.

(** The common end of both commits: the configuration of an active subscription
    is installed. *)
Definition apply_receipt (id : string) (receipt : Receipt) (c : configCandidate) (s : Snapshot)
    : R (Snapshot * option mutation_error) :=
  match findPublicProfile (Public (After receipt)) id with
  | Err x => let! x := rollback_receipt receipt x in refused s x
  | Ok _ =>
      if String.eqb (ActiveID (After receipt)) id then
        let! x := commitRuntimeConfig E false c in
        match x with
        | Some x => let! x := rollback_receipt receipt x in refused s x
        | None => st_ret (syncSubscriptionState (After receipt) (markConfigApplied s), None)
        end
      else st_ret (syncSubscriptionState (After receipt) s, None)
  end.

(** ** Adding *)

Definition add_mutation (setup : bool) (p : PreparedAdd) (c : configCandidate) : Mutation (Runtime FS AEnv W) := fun s =>
  let! n := onM Manager.tick in
  let! '(receipt, err) := onS (commitAdd p setup (src_now src n)) in
  match err with
  | Some x => refused s x
  | None => apply_receipt (ID (pa_profile p)) receipt c s
  end.

Definition references_refused : error :=
  api_error CodeInvalidArgument "This YAML references local files. Provide --allow-file-references to continue.".

Definition AddSubscription (op : Operation) (setup : bool) (input : AddSubscriptionInput) : R (result PublicProfile) :=
  check! onM (admit_operation e ("sub-add:" ++ op_ID op)%string) in
  check! (if setup then onM (checkIfRevision (op_IfRevision op)) else st_ret None) in
  let! n := onM Manager.tick in
  do! gap E in
  match PrepareAdd (src_fetch src n) (src_id src n) (add_Name input) (add_URL input) (add_ProxyMode input) with
  | Err x => st_ret (Err x)
  | Ok prepared =>
      let d := document (pa_refresh prepared) in
      let check := if negb (bool_decide (FileReferences d = [])) && negb (add_AllowFileReferences input)
                   then Some references_refused else None in
      let! '(_, a) := commitSubscriptionCandidate op setup (fun p => ID (pa_profile p)) (fun p => st_ret (Ok p))
                        (fun p => document (pa_refresh p)) check (add_mutation setup) prepared in
      st_ret a
  end.

(** ** Refreshing *)

Definition refresh_mutation (setup : bool) (p : PreparedRefresh) (c : configCandidate) : Mutation (Runtime FS AEnv W) := fun s =>
  let! n := onM Manager.tick in
  let! '(receipt, err) := onS (if setup then CommitRefreshAndActivate p (src_now src n) else CommitRefresh p (src_now src n)) in
  match err with
  | Some x =>
      refused s (if setup && errors_Is x ErrRefreshChanged then preparation_changed "Selected subscription" else x)
  | None => apply_receipt (profileID p) receipt c s
  end.

(** [PrepareRefresh] while other requests run. *)
Definition prepare_refresh (id : string) : R (result PreparedRefresh) :=
  let! r := st_get in
  match find_profile (catalog (svc r)) id with
  | None => st_ret (Err notFoundError)
  | Some p =>
      let! n := onM Manager.tick in
      do! gap E in
      onS (prepared_from id p (src_fetch src n p))
  end.

(** [ReprepareSetupRefresh] while other requests run. *)
Definition reprepare (p : PreparedRefresh) : R (result PreparedRefresh) :=
  let! r := st_get in
  match rebase_prepared p (catalog (svc r)) with
  | Err x => st_ret (Err x)
  | Ok (Some next) => st_ret (Ok next)
  | Ok None => try! next := prepare_refresh (profileID p) in st_ret (refetched p next)
  end.

(** A degraded failure is not recorded, so nothing of the request follows it. *)
Definition RefreshSubscription (op : Operation) (setup : bool) (id : string) : R (result PublicProfile) :=
  check! onM (admit_operation e ("sub-refresh:" ++ op_ID op)%string) in
  check! (if setup then onM (checkIfRevision (op_IfRevision op)) else st_ret None) in
  try! prepared := prepare_refresh id in
  let! '(prepared, a) := commitSubscriptionCandidate op setup profileID
                           (fun p => if setup then reprepare p else st_ret (Ok p)) document None
                           (refresh_mutation setup) prepared in
  match a with
  | Ok v => st_ret (Ok v)
  | Err x =>
      do! (if error_degraded x then st_ret tt else gap E) in
      let! y := onS (RecordRefreshFailure prepared x) in
      st_ret (Err y)
  end.

End Requests.

(** ** Lemmas on the service *)

Section Service.
Context `{SourceSyntax} `{CatalogYAML} `{DocumentYAML} `{PEM} {AEnv W : Type} `{AtomicFile AEnv W}.

Abbreviation SV := (Service AEnv W).

(** Only the file [p] may have changed. *)
Definition cache_op (p : path) (s s' : SV) : Prop :=
  same_setup s s' /\ catalog s' = catalog s /\
  forall q, q <> p -> hidden q = false -> af_read q (disk s') = af_read q (disk s).

Lemma cache_op_refl (p : path) (s : SV) : cache_op p s s.
Proof. by repeat split. Qed.

Lemma cache_op_trans (p : path) (s1 s2 s3 : SV) : cache_op p s1 s2 -> cache_op p s2 s3 -> cache_op p s1 s3.
Proof.
  intros ([Hp Hd] & Hc & Hf) ([Hp' Hd'] & Hc' & Hf'). split; [split; congruence|]. split; [congruence|].
  intros q Hq Hh. by rewrite Hf', Hf.
Qed.

Lemma ReadFile_op (p q : path) (s s' : SV) (x : result string) : ReadFile q s = (x, s') -> cache_op p s s'.
Proof. intros [= _ <-]. by repeat split. Qed.

Lemma writeCache_op (p : path) (content : string) (s s' : SV) (x : option error) :
  writeCache p content s = (x, s') -> cache_op p s s'.
Proof.
  unfold writeCache. destruct (af_write _ p content (disk s)) as [[r y] w] eqn:Hw. intros [= _ <-].
  split; [done|]. split; [done|]. intros q Hq Hh. by eapply af_other.
Qed.

Lemma restoreCacheWithCommit_op (p : path) (old : string) (had changed : bool) (s s' : SV) (x : bool * option error) :
  restoreCacheWithCommit p old had changed s = (x, s') -> cache_op p s s'.
Proof.
  unfold restoreCacheWithCommit. intros Hr. destruct changed; cbn in Hr; [|injection Hr as _ <-; apply cache_op_refl].
  destruct had; apply st_bind_inv in Hr as (y & s1 & Hy & Hr).
  - destruct y as [cr y]. injection Hr as _ <-. unfold restoreCacheFile in Hy.
    destruct (af_write _ p old (disk s)) as [[cr' y'] w] eqn:Hw. injection Hy as _ _ <-.
    split; [done|]. split; [done|]. intros q Hq Hh. by eapply af_other.
  - assert (s1 = s') as -> by (destruct y as [y|]; [case_if_in Hr|]; by injection Hr).
    unfold Remove in Hy. destruct (af_read p (disk s)); [destruct (io_fail _)|]; injection Hy as _ <-; try by repeat split.
    split; [done|]. split; [done|]. intros q Hq Hh. cbn. rewrite af_removed. by rewrite decide_False.
Qed.

Lemma failAfterRestore_op (x : error) (p : path) (old : string) (had changed setup : bool) (s s' : SV) (y : error) :
  failAfterRestore x p old had changed setup s = (y, s') -> cache_op p s s'.
Proof.
  unfold failAfterRestore, restoreCache. intros Hr. apply st_bind_inv in Hr as (z & s1 & Hz & Hr).
  apply st_bind_inv in Hz as ([b c] & s2 & Hz & Hz'). injection Hz' as <- <-. apply restoreCacheWithCommit_op in Hz.
  destruct c; by injection Hr as _ <-.
Qed.

Lemma stored_op (p : path) (c : Catalog) (s s' : SV) :
  cache_op p s s' -> catalogPath s <> p -> hidden (catalogPath s) = false -> stored c s -> stored c s'.
Proof. intros ([Hp _] & _ & Hf) Hne Hh (x & Hm & Hr). exists x. split; [done|]. by rewrite Hp, Hf. Qed.

(** Only the file [p] and the catalog may have changed. *)
Definition outside (p : path) (s s' : SV) : Prop :=
  same_setup s s' /\
  forall q, q <> catalogPath s -> q <> p -> hidden q = false -> af_read q (disk s') = af_read q (disk s).

Lemma outside_refl (p : path) (s : SV) : outside p s s.
Proof. by repeat split. Qed.

Lemma outside_trans (p : path) (s1 s2 s3 : SV) : outside p s1 s2 -> outside p s2 s3 -> outside p s1 s3.
Proof.
  intros ([Hp Hd] & Hf) ([Hp' Hd'] & Hf'). split; [split; congruence|]. intros q Hc Hq Hh.
  rewrite Hf' by congruence. by apply Hf.
Qed.

Lemma cache_outside (p : path) (s s' : SV) : cache_op p s s' -> outside p s s'.
Proof. intros (Hset & _ & Hf). split; [done|]. auto. Qed.

Lemma saveCatalog_outside (p : path) (c : Catalog) (s s' : SV) (x : option error) :
  saveCatalog c s = (x, s') -> catalog_ok c -> outside p s s'.
Proof. intros Hs Hok. apply saveCatalog_files in Hs as (Hset & _ & Hf & _); [|done]. split; [done|]. auto. Qed.

Lemma set_catalog_outside (p : path) (c : Catalog) (s s' : SV) : outside p s s' -> outside p s (set_catalog c s').
Proof. done. Qed.

Lemma outside_paths (p : path) (s s' : SV) : outside p s s' -> catalogPath s' = catalogPath s.
Proof. by intros [[Hp _] _]. Qed.

(** A save that fails leaves the saved catalog. *)
Lemma saveCatalog_durable (p : path) (before c : Catalog) (s s' : SV) (x : option error) :
  saveCatalog c s = (x, s') -> durable -> catalog_ok c -> stored before s ->
  outside p s s' /\ catalog s' = catalog s /\ stored (match x with Some _ => before | None => c end) s'.
Proof.
  intros Hs Hdur Hok (content & Hm & Hr). split; [by eapply saveCatalog_outside|].
  apply saveCatalog_files in Hs as ([Hp _] & Hc & _ & Hst & Hbad); [|done]. split; [done|].
  destruct x as [x|]; [|by apply Hst]. exists content. split; [done|]. rewrite Hp, Hbad by done. exact Hr.
Qed.

(** What a commit of a refresh leaves behind when no write is reported both as
    made and as failed. *)
Definition commit_out (p : path) (before : Catalog) (s s' : SV) (receipt : Receipt) (err : option error) (keep : bool) : Prop :=
  outside p s s' /\
  match err with
  | None => catalog s' = After receipt /\ catalog_ok (After receipt) /\ stored (After receipt) s' /\
            Before receipt = before /\ r_cachePath receipt = p
  | Some _ => stored before s' /\ (keep = true -> catalog s' = before)
  end.

Lemma commit_catalog_out (id : string) (before after : Catalog) (p : path) (old : string) (had wrote setup : bool)
    (s s' : SV) (receipt : Receipt) (err : option error) (keep : bool) :
  commit_catalog id before after p old had wrote setup s = ((receipt, err, keep), s') ->
  durable -> yaml_faithful -> proper_paths p s -> catalog_ok before -> stored before s ->
  commit_out p before s s' receipt err keep.
Proof.
  unfold commit_catalog. intros Hr Hdur Hyaml (Hh & _ & Hne) Hok Hst.
  assert (Hfail : forall y s1, outside p s s1 -> stored before s1 ->
    (let! y := failAfterRestore y p old had wrote setup in st_ret (no_receipt, Some y, false)) s1 = ((receipt, err, keep), s') ->
    commit_out p before s s' receipt err keep).
  { intros y s1 Hout Hst1 Hf. apply st_bind_inv in Hf as (z & s2 & Hf & Hz). injection Hz as <- <- <- <-.
    apply failAfterRestore_op in Hf. split; [eapply outside_trans; [exact Hout|by apply cache_outside]|].
    pose proof (outside_paths _ _ _ Hout) as Hp. split; [|done]. eapply stored_op; [exact Hf| | |done]; by rewrite Hp. }
  destruct (settle after) as [after'|y] eqn:Hset; [|by eapply Hfail; [apply outside_refl|..]].
  apply settle_sound in Hset as Hok'. apply st_bind_inv in Hr as (x & s1 & Hs & Hr).
  apply (saveCatalog_durable p before) in Hs as (Hout1 & Hc1 & Hst1); [|done..]. destruct x as [x|].
  2:{ unfold st_bind, st_modify in Hr. injection Hr as <- <- <- <-. split; [done|]. split; [done|]. split; [done|]. split; [exact Hst1|done]. }
  apply st_bind_inv in Hr as (y & s2 & Hs2 & Hr).
  apply (saveCatalog_durable p before) in Hs2 as (Hout2 & Hc2 & Hst2); [|done..].
  assert (Hout : outside p s s2) by (by eapply outside_trans). assert (Hst2' : stored before s2) by (by destruct y).
  destruct y as [y|]; [|by eapply Hfail]. apply st_bind_inv in Hr as (d & s3 & Hl & Hr).
  pose proof (loadCatalog_spec s2) as Hls. rewrite Hl in Hls. destruct Hls as (Hsame & _ & Hls).
  unfold loadCatalog in Hl. injection Hl as _ <-.
  assert (Hst3 : stored before (set_disk (disk s2) s2)) by (by eapply stored_same).
  destruct d as [d|z]; [|injection Hr as <- <- <- <-; split; [exact Hout|done]].
  destruct (stored_loaded before before d s2 Hyaml Hok Hok (or_introl Hst2') Hls) as [Hd _].
  assert (d = before) as -> by (by destruct Hd). case_if_in Hr.
  - unfold st_bind, st_modify in Hr. injection Hr as <- <- <- <-. split; [exact Hout|]. split; [exact Hst3|done].
  - rewrite bool_decide_true in Hr by done. cbn [negb] in Hr. eapply Hfail; [|exact Hst3|exact Hr]. exact Hout.
Qed.

Lemma commit_out_op (p : path) (before : Catalog) (s s1 s' : SV) (receipt : Receipt) (err : option error) (keep : bool) :
  cache_op p s s1 -> commit_out p before s1 s' receipt err keep -> commit_out p before s s' receipt err keep.
Proof. intros Hop [Hout He]. split; [|done]. eapply outside_trans; [|exact Hout]. by apply cache_outside. Qed.

Lemma proper_op (p q : path) (s s' : SV) : cache_op p s s' -> proper_paths q s -> proper_paths q s'.
Proof. intros ([Hp _] & _) Hpp. unfold proper_paths in *. by rewrite Hp. Qed.

Lemma commit_with_out (prepared : PreparedRefresh) (before after : Catalog) (p : path) (old : string) (had setup : bool)
    (s s' : SV) (receipt : Receipt) (err : option error) (keep : bool) :
  commit_with prepared before after p old had setup s = ((receipt, err, keep), s') ->
  durable -> yaml_faithful -> proper_paths p s -> catalog_ok before -> stored before s ->
  commit_out p before s s' receipt err keep.
Proof.
  unfold commit_with. intros Hr Hdur Hyaml Hp Hok Hst. case_if_in Hr; [by eapply commit_catalog_out|].
  apply st_bind_inv in Hr as (x & s1 & Hw & Hr). apply writeCache_op in Hw. pose proof Hp as (Hh & _ & Hne).
  assert (Hst1 : stored before s1) by (by eapply stored_op). pose proof (proper_op _ _ _ _ Hw Hp) as Hp1. destruct x as [x|].
  - apply st_bind_inv in Hr as (y & s2 & Hf & Hr). apply failAfterRestore_op in Hf. pose proof Hp1 as (Hh1 & _ & Hne1).
    assert (Hst2 : stored before s2) by (by eapply stored_op).
    assert (Hop : cache_op p s s2) by (by eapply cache_op_trans).
    case_if_in Hr; injection Hr as <- <- <- <-; (split; [by apply cache_outside|done]).
  - eapply commit_out_op; [exact Hw|]. by eapply commit_catalog_out.
Qed.

Lemma commitRefreshLocked_out (prepared : PreparedRefresh) (before : Catalog) (setup : bool) (now : Z)
    (s s' : SV) (receipt : Receipt) (err : option error) :
  let p := CachePath (profileID prepared) s in
  commitRefreshLocked prepared before setup now s = ((receipt, err), s') ->
  durable -> yaml_faithful -> proper_paths p s -> catalog_ok before -> stored before s ->
  commit_out p before s s' receipt err true.
Proof.
  intros p Hr Hdur Hyaml Hp Hok Hst. unfold commitRefreshLocked in Hr.
  apply st_bind_inv in Hr as ([[rc er] keep] & s1 & Hb & Hr).
  assert (Hout : commit_out p before s s1 rc er keep).
  { unfold commit_body in Hb. unfold st_bind at 1, st_get in Hb. cbn beta iota in Hb. fold p in Hb.
    destruct (find_profile (catalog s) _) as [q|]; [|injection Hb as <- <- <- <-; split; [apply outside_refl|done]].
    case_if_in Hb; [injection Hb as <- <- <- <-; split; [apply outside_refl|done]|].
    apply st_bind_inv in Hb as (old & s2 & Hf & Hb). apply (ReadFile_op p) in Hf. pose proof Hp as (Hh & _ & Hne).
    assert (Hst2 : stored before s2) by (by eapply stored_op). pose proof (proper_op _ _ _ _ Hf Hp) as Hp2.
    destruct old as [old|x]; [eapply commit_out_op; [exact Hf|]; by eapply commit_with_out|].
    case_if_in Hb; [injection Hb as <- <- <- <-; split; [by apply cache_outside|done]|].
    eapply commit_out_op; [exact Hf|]; by eapply commit_with_out. }
  destruct Hout as [Hout Herr]. destruct er as [x|]; [|injection Hr as <- <- <-; by split].
  destruct keep.
  - injection Hr as <- <- <-. by split.
  - unfold st_bind, st_modify in Hr. injection Hr as <- <- <-. split; [done|]. destruct Herr as [Hs _]. by split.
Qed.

(** The committed catalog is the refreshed one. *)
Lemma commit_receipt (prepared : PreparedRefresh) (before : Catalog) (setup : bool) (now : Z) (s s' : SV) (receipt : Receipt) :
  commitRefreshLocked prepared before setup now s = ((receipt, None), s') ->
  settle (refresh_catalog prepared now (catalog s)) = Ok (After receipt).
Proof.
  assert (Hcat : forall id b after p old had wrote s1 s2 rc keep,
    commit_catalog id b after p old had wrote setup s1 = ((rc, None, keep), s2) -> settle after = Ok (After rc)).
  { intros id b after p old had wrote s1 s2 rc keep Hr. unfold commit_catalog in Hr. destruct (settle after) as [a|x].
    2:{ apply st_bind_inv in Hr as (? & ? & _ & Hr). discriminate Hr. }
    apply st_bind_inv in Hr as ([x|] & s3 & _ & Hr); [|unfold st_bind, st_modify in Hr; by injection Hr as <- _ _].
    apply st_bind_inv in Hr as ([y|] & s4 & _ & Hr); [|apply st_bind_inv in Hr as (? & ? & _ & Hr); discriminate Hr].
    apply st_bind_inv in Hr as ([d|y'] & s5 & _ & Hr); [|discriminate Hr]. case_if_in Hr; [discriminate Hr|].
    case_if_in Hr; [discriminate Hr|]. apply st_bind_inv in Hr as (? & ? & _ & Hr). discriminate Hr. }
  intros Hr. unfold commitRefreshLocked in Hr. apply st_bind_inv in Hr as ([[rc er] keep] & s1 & Hb & Hr).
  destruct er as [x|]; [destruct keep; [discriminate Hr|unfold st_bind, st_modify in Hr; discriminate Hr]|injection Hr as <- <-].
  unfold commit_body in Hb. unfold st_bind at 1, st_get in Hb. cbn beta iota in Hb.
  destruct (find_profile _ _); [|discriminate Hb]. case_if_in Hb; [discriminate Hb|].
  apply st_bind_inv in Hb as (old & s2 & _ & Hb).
  assert (Hw : forall old had s3, commit_with prepared before (refresh_catalog prepared now (catalog s)) (CachePath (profileID prepared) s)
    old had setup s3 = ((rc, None, keep), s1) -> settle (refresh_catalog prepared now (catalog s)) = Ok (After rc)).
  { intros o' had s3 Hw. unfold commit_with in Hw. case_if_in Hw; [by eapply Hcat|].
    apply st_bind_inv in Hw as ([x|] & s4 & _ & Hw); [|by eapply Hcat]. apply st_bind_inv in Hw as (y & ? & _ & Hw).
    case_if_in Hw; discriminate Hw. }
  destruct old as [old|x]; [by eapply Hw|]. case_if_in Hb; [discriminate Hb|by eapply Hw].
Qed.

End Service.

(** ** Lemmas on requests *)

Section Lemmas.
Context `{CaseFold} `{SourceSyntax} `{CatalogYAML} `{DocumentYAML} `{PEM} `{Sha256}
  {Env FS AEnv W : Type} `{SettingsFile Env FS} `{AtomicFile AEnv W} (E : rt_env Env FS AEnv W) (src : source_env).
Hypothesis Hothers : forall r, good E r -> good E (re_others E r).
Hypothesis Hdur : durable (AEnv := AEnv) (W := W).
Hypothesis Hyaml : yaml_faithful.
Hypothesis Hrel : re_reloader E = true.

Abbreviation RT := (Runtime FS AEnv W).

Lemma cache_proper (id : string) (r : RT) :
  good E r -> profileIDPattern id = true ->
  proper_paths (CachePath id (svc r)) (svc r) /\ re_config E <> CachePath id (svc r).
Proof.
  intros (_ & (_ & Hh & _ & Hd1 & Hd2) & _) Hid. split; [split; [done|]; split; [by apply pattern_not_hidden|]|].
  - intros Heq. apply Hd1. by rewrite Heq.
  - intros Heq. apply Hd2. by rewrite Heq.
Qed.

Lemma outside_config (id : string) (r : RT) (s : Service AEnv W) :
  outside (CachePath id (svc r)) (svc r) s -> good E r -> profileIDPattern id = true ->
  active_config E (set_svc s r) = active_config E r.
Proof.
  intros [_ Hf] Hg Hid. destruct (cache_proper id r Hg Hid) as [_ Hne]. destruct Hg as (_ & (Hh & _ & Hc & _) & _).
  unfold active_config. cbn. destruct (trustedCore _); [done|]. by apply Hf.
Qed.

(** A committed refresh is an edit of the catalog. *)
Lemma committed_edited (id : string) (r : RT) (s : Service AEnv W) (receipt : Receipt) :
  commit_out (CachePath id (svc r)) (catalog (svc r)) (svc r) s receipt None true -> good E r -> profileIDPattern id = true ->
  edited E r (set_svc s r) (After receipt).
Proof.
  intros (Hout & Hc & Hok & Hst & _) Hg Hid. constructor; try done; [by destruct Hout|by eapply outside_config].
Qed.

(** A refused commit leaves the invariant. *)
Lemma refused_good (id : string) (r : RT) (s : Service AEnv W) (receipt : Receipt) (x : error) :
  commit_out (CachePath id (svc r)) (catalog (svc r)) (svc r) s receipt (Some x) true -> good E r -> profileIDPattern id = true ->
  good E (set_svc s r).
Proof.
  intros (Hout & Hst & Hc) Hg Hid. specialize (Hc eq_refl). pose proof (outside_config id r s Hout Hg Hid) as Ha.
  destruct Hg as (Hstep & Hp & Hok & _ & Hact).
  split; [unfold in_step in *; rewrite Ha; exact Hstep|]. split; [eapply paths_ok_setup; [|exact Hp]; by destruct Hout|].
  cbn. by rewrite Hc.
Qed.

(** What a mutation does to the invariant. *)
Definition mutation_good (r' : RT) (res : Snapshot * option mutation_error) : Prop :=
  match res with
  | (s', None) => in_step E r' /\ paths_ok E r' /\ catalog_ok (catalog (svc r')) /\ stored (catalog (svc r')) (svc r') /\
                  ActiveSubscription s' = ActiveID (catalog (svc r'))
  | (_, Some (Ordinary x)) => good E r' \/ error_degraded x = true
  | (_, Some (CommittedError _)) => False
  end.

Lemma Rollback_out (p : path) (receipt : Receipt) (s s' : Service AEnv W) (x : option error) :
  Rollback receipt s = (x, s') -> r_cachePath receipt = p -> catalog_ok (Before receipt) ->
  outside p s s' /\ (x = None -> catalog s' = Before receipt /\ stored (Before receipt) s').
Proof.
  unfold Rollback, restoreCache. intros Hr <- Hok. apply st_bind_inv in Hr as (y & s1 & Hy & Hr).
  apply st_bind_inv in Hy as ([b c] & s2 & Hy & Hc). injection Hc as <- <-. apply restoreCacheWithCommit_op, cache_outside in Hy.
  destruct c as [c|]; [injection Hr as <- <-; by split|]. apply st_bind_inv in Hr as (z & s3 & Hz & Hr).
  pose proof (saveCatalog_outside (r_cachePath receipt) _ _ _ _ Hz Hok) as Hout.
  apply saveCatalog_files in Hz as (_ & _ & _ & Hst & _); [|done].
  assert (Hall : outside (r_cachePath receipt) s s3) by (by eapply outside_trans).
  destruct z as [z|]; [injection Hr as <- <-; by split|]. unfold st_bind, st_modify in Hr. injection Hr as <- <-.
  split; [exact Hall|]. intros _. split; [done|]. exact (Hst eq_refl).
Qed.

(** After a commit of the catalog, a failure that was rolled back. *)
Lemma rollback_good (id : string) (r r1 r2 r' : RT) (receipt : Receipt) (cause x : error) :
  edited E r r1 (After receipt) -> same_setup (svc r1) (svc r2) -> store (mgr r2) = store (mgr r1) ->
  (error_degraded cause = true \/ loaded r2 = loaded r1 /\ active_config E r2 = active_config E r1) ->
  rollback_receipt receipt cause r2 = (x, r') ->
  Before receipt = catalog (svc r) -> r_cachePath receipt = CachePath id (svc r) ->
  good E r -> profileIDPattern id = true -> good E r' \/ error_degraded x = true.
Proof.
  intros Hed [Hp2 Hd2] Hst2 Hkept Hr Hbef Hcp Hg Hid. destruct (cache_proper id r Hg Hid) as [_ Hne].
  destruct Hg as (Hstep & Hp & Hok & _ & Hact). destruct Hed as [[Hp1 Hd1] Hst Hs Hl Ha _ _ _].
  unfold rollback_receipt in Hr. apply st_bind_inv in Hr as (y & r3 & Hy & Hr). injection Hr as <- <-.
  apply onS_inv in Hy as (s & Hy & ->).
  apply (Rollback_out (CachePath id (svc r))) in Hy as [[[Hp3 Hd3] Hf3] Hres]; [|done|by rewrite Hbef].
  destruct y as [y|]; [by right|]. destruct Hkept as [Hk|[Hl2 Ha2]]; [by right|left].
  destruct (Hres eq_refl) as [Hc3 Hst3]. rewrite Hbef in Hc3, Hst3.
  assert (Hact3 : active_config E (set_svc s r2) = active_config E r2).
  { unfold active_config. cbn. destruct (trustedCore _); [done|]. destruct Hp as (Hh & _ & Hc & _).
    apply Hf3; [|done|done]. intros Heq. apply Hc. congruence. }
  split; [unfold in_step in *; cbn [loaded set_svc]; congruence|].
  split; [eapply paths_ok_setup; [|exact Hp]; cbn; split; congruence|].
  cbn. rewrite Hc3. split; [done|]. split; [done|]. congruence.
Qed.

Lemma apply_receipt_good (id : string) (r r1 r' : RT) (receipt : Receipt) (c : configCandidate)
    (res : Snapshot * option mutation_error) :
  edited E r r1 (After receipt) -> apply_receipt E id receipt c (store (mgr r)) r1 = (res, r') -> coherent c ->
  Before receipt = catalog (svc r) -> r_cachePath receipt = CachePath id (svc r) ->
  good E r -> profileIDPattern id = true -> mutation_good r' res.
Proof.
  unfold apply_receipt. intros Hed Hr Hcoh Hbef Hcp Hg Hid. pose proof Hg as (Hstep & Hp & Hok & _ & Hact).
  pose proof Hed as [[Hp1 Hd1] Hst Hs Hl Ha Hc Hok1 Hstd].
  destruct (findPublicProfile _ id) as [pub|x].
  2:{ apply st_bind_inv in Hr as (y & r2 & Hy & Hr). injection Hr as <- <-.
      eapply (rollback_good id r r1 r1); eauto; by split. }
  case_if_in Hr.
  2:{ injection Hr as <- <-. split; [unfold in_step in *; congruence|].
      split; [eapply paths_ok_setup; [|exact Hp]; by split|]. rewrite Hc. split; [done|]. split; [done|reflexivity]. }
  apply st_bind_inv in Hr as (x & r2 & Hcommit & Hr).
  apply commitRuntimeConfig_spec in Hcommit as [Hf Hx]; [|done|done|unfold in_step in *; congruence].
  pose proof Hf as ([Hp2 Hd2] & Hc2 & _ & Hst2). destruct x as [x|].
  - apply st_bind_inv in Hr as (y & r3 & Hy & Hr). injection Hr as <- <-.
    eapply (rollback_good id r r1 r2); eauto; [by split|].
    destruct Hx as [Hx|(_ & [Hl2 Ha2] & _)]; [by left|right]. split; [done|]. destruct Ha2 as [Ha2|(_ & Hn & _)]; done.
  - injection Hr as <- <-. destruct Hx as [Ha2 Hl2]. split; [unfold in_step; congruence|].
    assert (Hp1' : paths_ok E r1) by (eapply paths_ok_setup; [|exact Hp]; by split).
    split; [eapply paths_ok_setup; [|exact Hp1']; by split|]. rewrite Hc2, Hc. split; [done|]. split; [by eapply stored_frame|done].
Qed.

(** *** Recording a failure *)

Lemma elem_of_alter (f : Profile -> Profile) (i : nat) (l : list Profile) (p : Profile) :
  p ∈ l -> p ∈ alter f i l \/ f p ∈ alter f i l.
Proof.
  intros [j Hj]%list_elem_of_lookup. destruct (decide (i = j)) as [->|Hne].
  - right. apply list_elem_of_lookup. exists j. by rewrite list_lookup_alter_eq, Hj.
  - left. apply list_elem_of_lookup. exists j. by rewrite list_lookup_alter_ne.
Qed.

Lemma map_ID_alter (f : Profile -> Profile) (i : nat) (l : list Profile) :
  (forall p, ID (f p) = ID p) -> map ID (alter f i l) = map ID l.
Proof.
  intros Hf. revert i. induction l as [|p l IH]; intros [|i]; cbn; [done|done|by rewrite Hf|]. by rewrite IH.
Qed.

Lemma last_error_ok (id m : string) (c : Catalog) :
  catalog_ok c -> catalog_ok (update_profile id (with_LastError m) c).
Proof.
  intros Hok. unfold update_profile. case_if; [done|]. destruct Hok as (Hs & Hd & Hall & Hnd & Hcu & Hact & Hnone).
  assert (Hall2 : forall P : Profile -> Prop, (forall p, P p -> P (with_LastError m p)) -> Forall P (Profiles c) ->
    Forall P (alter (with_LastError m) (Z.to_nat (Index c id)) (Profiles c))).
  { intros P HP HF. apply Forall_alter; auto. }
  split; [done|]. split; [done|]. cbn. split; [by apply Hall2|]. split; [by rewrite map_ID_alter|]. split; [by apply Hall2|].
  split; [|intros Ha; by apply Hall2; auto]. intros Ha. destruct (Hact Ha) as (p & Hp & Hid & Hen & Hgen).
  destruct (elem_of_alter (with_LastError m) (Z.to_nat (Index c id)) _ _ Hp); eauto.
Qed.

(** An edit that keeps the catalog valid and its selection. *)
Lemma Mutate_safe (f : Catalog -> result Catalog) :
  (forall c c', f c = Ok c' -> catalog_ok c -> catalog_ok c' /\ ActiveID c' = ActiveID c) ->
  safe E (onS (Mutate f)).
Proof.
  intros Hf r r' [[before after] x] Hr Hg. pose proof Hg as (Hstep & Hp & Hok & Hst & Hact).
  pose proof (onS_Mutate E _ _ _ _ _ _ Hr Hp) as Hm. apply onS_inv in Hr as (s & Hr & ->).
  apply Mutate_spec in Hr as (_ & _ & Hr). destruct x as [x|]; [destruct Hm as [Hset Hu]; by eapply good_untouched|].
  destruct Hm as [_ [Hset Hst1 _ Hl Ha Hc Hok1 Hstd]], Hr as (-> & (c & Hfc & Hsettle) & _).
  destruct (Hf _ _ Hfc Hok) as [Hokc Hid]. rewrite settle_complete in Hsettle by done. injection Hsettle as <-.
  split; [unfold in_step in *; congruence|]. split; [by eapply paths_ok_setup|]. rewrite Hc. split; [done|]. split; [done|].
  congruence.
Qed.

Lemma noteRefreshError_safe (id : string) (cause : error) (version : Z) :
  safe E (onS (noteRefreshError id cause version)).
Proof.
  intros r r' x Hr Hg. unfold noteRefreshError in Hr. apply onS_inv in Hr as (s & Hr & ->).
  apply st_bind_inv in Hr as ([[b a] y] & s1 & Hm & Hr). injection Hr as _ <-.
  eapply (Mutate_safe); [|unfold onS; by rewrite Hm|exact Hg]. intros c c' Hf Hok. cbn in Hf.
  destruct (find_profile c id) as [p|]; [|done]. case_if_in Hf; [done|]. injection Hf as <-.
  split; [by apply last_error_ok|]. unfold update_profile. by case_if.
Qed.

Lemma onS_bind {A B} (m : st (Service AEnv W) A) (k : A -> st (Service AEnv W) B) (r r' : RT) (b : B) :
  onS (st_bind m k) r = (b, r') -> exists a r1, onS m r = (a, r1) /\ onS (k a) r1 = (b, r').
Proof.
  intros Hr. apply onS_inv in Hr as (s & Hr & ->). apply st_bind_inv in Hr as (a & s1 & Hm & Hk).
  exists a, (set_svc s1 r). unfold onS. rewrite Hm. cbn. by rewrite Hk.
Qed.

Lemma safe_onS_bind {A B} (m : st (Service AEnv W) A) (k : A -> st (Service AEnv W) B) :
  safe E (onS m) -> (forall a, safe E (onS (k a))) -> safe E (onS (st_bind m k)).
Proof. intros Hm Hk r r' b Hr Hg. apply onS_bind in Hr as (a & r1 & Ha & Hb). eapply Hk; [exact Hb|]. by eapply Hm. Qed.

Lemma safe_onS_ret {A} (a : A) : safe E (onS (st_ret a)).
Proof. intros r r' b [= _ <-] Hg. by destruct r. Qed.

Lemma safe_onS_get : safe E (onS st_get).
Proof. intros r r' b [= _ <-] Hg. by destruct r. Qed.

Lemma refreshFailure_safe (id : string) (cause : error) (version : Z) : safe E (onS (refreshFailure id cause version)).
Proof.
  unfold refreshFailure. case_if; [apply safe_onS_ret|]. apply safe_onS_bind; [apply noteRefreshError_safe|].
  intros [x|]; [case_if|]; apply safe_onS_ret.
Qed.

Lemma ReadFile_safe (p : path) : safe E (onS (ReadFile p)).
Proof. intros r r' x Hr. apply good_quiet. by apply ReadFile_quiet with (E := E) in Hr as [Hq _]. Qed.

Lemma prepared_from_safe (id : string) (p : Profile) (a : result FetchResult) : safe E (onS (prepared_from id p a)).
Proof.
  unfold prepared_from. cbv zeta.
  assert (Hfail : forall cause, safe E (onS (let! y := refreshFailure id cause (Catalog.Version p) in st_ret (Err (A := PreparedRefresh) y)))).
  { intros cause. apply safe_onS_bind; [apply refreshFailure_safe|]. intros y. apply safe_onS_ret. }
  destruct a as [res|x]; [|apply Hfail].
  assert (Hparsed : forall content base, safe E (onS (match fetched_document content base with
    | Err x => let! y := refreshFailure id x (Catalog.Version p) in st_ret (Err y)
    | Ok d => st_ret (Ok (mkPreparedRefresh id (Catalog.Version p) p res d)) end))).
  { intros content base. destruct (fetched_document _ _); [apply safe_onS_ret|apply Hfail]. }
  destruct (NotModified res); [|apply Hparsed]. case_if; [apply Hfail|].
  apply safe_onS_bind; [apply safe_onS_get|]. intros s. apply safe_onS_bind; [apply ReadFile_safe|].
  intros [content|x]; [apply Hparsed|apply Hfail].
Qed.

Lemma RecordRefreshFailure_safe (p : PreparedRefresh) (x : error) : safe E (onS (RecordRefreshFailure p x)).
Proof.
  unfold RecordRefreshFailure. destruct (errors_As x); [case_if|]; try apply safe_onS_ret; apply refreshFailure_safe.
Qed.

(** *** The commit of an ordinary request *)

Definition add_ok (p : PreparedAdd) : Prop :=
  profileIDPattern (ID (pa_profile p)) = true /\ profileID (pa_refresh p) = ID (pa_profile p).

Definition refresh_ok (p : PreparedRefresh) : Prop := profileIDPattern (profileID p) = true.

(** From a commit of the catalog to the end of the mutation. *)
Lemma commit_then_apply (id : string) (r r' : RT) (s : Service AEnv W) (c : configCandidate) (receipt : Receipt)
    (err : option error) (other : error -> error) (res : Snapshot * option mutation_error) :
  commit_out (CachePath id (svc r)) (catalog (svc r)) (svc r) s receipt err true ->
  match err with
  | Some x => refused (store (mgr r)) (other x)
  | None => apply_receipt E id receipt c (store (mgr r))
  end (set_svc s r) = (res, r') ->
  coherent c -> good E r -> profileIDPattern id = true -> mutation_good r' res.
Proof.
  intros Hout Hr Hcoh Hg Hid. destruct err as [x|].
  - injection Hr as <- <-. left. by eapply refused_good.
  - eapply (apply_receipt_good id r); [by eapply committed_edited|exact Hr|done| | |done|done]; by destruct Hout as (_ & _ & _ & _ & ? & ?).
Qed.

Lemma tick_store (n : nat) (r r' : RT) : onM Manager.tick r = (n, r') -> good E r -> good E r' /\ store (mgr r') = store (mgr r).
Proof.
  intros Hr Hg. apply onM_quiet with (E := E) in Hr; [|intros w w' b [= _ <-]; by exists (S (clock w))].
  split; [by eapply good_quiet|]. by destruct Hr as ((_ & _ & _ & Hs) & _).
Qed.

Lemma add_mutation_good (p : PreparedAdd) (c : configCandidate) (r r' : RT) (res : Snapshot * option mutation_error) :
  add_mutation E src false p c (store (mgr r)) r = (res, r') -> add_ok p -> coherent c -> good E r -> mutation_good r' res.
Proof.
  unfold add_mutation. intros Hr [Hid Heq] Hcoh Hg. apply st_bind_inv in Hr as (n & r1 & Ht & Hr).
  apply tick_store in Ht as [Hg1 Hs1]; [|done]. rewrite <- Hs1 in Hr.
  apply st_bind_inv in Hr as ([receipt err] & r2 & Hc & Hr). apply onS_inv in Hc as (s & Hc & ->).
  destruct (cache_proper _ r1 Hg1 Hid) as [Hp _]. pose proof Hg1 as (_ & _ & Hok & Hst & _).
  unfold commitAdd in Hc. unfold st_bind at 1, st_get in Hc. cbn beta iota in Hc.
  apply st_bind_inv in Hc as ([] & s1 & Hset & Hc). injection Hset as <-.
  apply st_bind_inv in Hc as ([rc er] & s2 & Hc & Hfin).
  apply commitRefreshLocked_out in Hc; [|done|done| |done|done]; rewrite Heq in *; [|exact Hp].
  assert (Hfin' : err = er /\ s2 = s /\ (er = None -> receipt = rc)) by (by destruct er; injection Hfin as <- <- <-).
  destruct Hfin' as (-> & -> & Hrc). eapply (commit_then_apply _ r1 r' s c rc er (fun x => x)); [exact Hc| |done..].
  destruct er; [exact Hr|]. by rewrite <- (Hrc eq_refl).
Qed.

Lemma refresh_mutation_good (p : PreparedRefresh) (c : configCandidate) (r r' : RT) (res : Snapshot * option mutation_error) :
  refresh_mutation E src false p c (store (mgr r)) r = (res, r') -> refresh_ok p -> coherent c -> good E r -> mutation_good r' res.
Proof.
  unfold refresh_mutation. intros Hr Hid Hcoh Hg. apply st_bind_inv in Hr as (n & r1 & Ht & Hr).
  apply tick_store in Ht as [Hg1 Hs1]; [|done]. rewrite <- Hs1 in Hr.
  apply st_bind_inv in Hr as ([receipt err] & r2 & Hc & Hr). apply onS_inv in Hc as (s & Hc & ->).
  destruct (cache_proper _ r1 Hg1 Hid) as [Hp _]. pose proof Hg1 as (_ & _ & Hok & Hst & _).
  unfold CommitRefresh in Hc. unfold st_bind at 1, st_get in Hc. cbn beta iota in Hc.
  apply commitRefreshLocked_out in Hc; [|done..].
  eapply (commit_then_apply _ r1 r' s c receipt err (fun x => x)); [exact Hc|exact Hr|done..].
Qed.

Section Commit.
Context {P : Type} (op : Operation) (id : P -> string) (prepare : P -> st RT (result P)) (document_of : P -> Document)
  (check : option error) (commit : P -> configCandidate -> Mutation RT) (okP : P -> Prop).
Hypothesis prepare_good : forall p r r' a, prepare p r = (a, r') -> okP p -> good E r ->
  good E r' /\ (forall q, a = Ok q -> okP q).
Hypothesis commit_good : forall p c r r' res, commit p c (store (mgr r)) r = (res, r') -> okP p -> coherent c ->
  good E r -> mutation_good r' res.

(** The invariant holds, or the answer says that recovery is needed. *)
Definition good_or_told (r' : RT) {A} (a : result A) : Prop := good E r' \/ exists x, a = Err x /\ error_degraded x = true.

Lemma Do_good (ctx : option error) (meta : CommandMeta) (p : P) (c : configCandidate) (r r' : RT) (sn : Snapshot) (err : option error) :
  Do ctx meta (commit p c) r = ((sn, err), r') -> okP p -> coherent c -> good E r ->
  match err with None => good E r' | Some x => good E r' \/ error_degraded x = true end.
Proof.
  unfold Do. intros Hd Hp Hcoh Hg. destruct ctx as [x|]; [injection Hd as _ <- <-; by left|].
  unfold st_bind at 1, st_get in Hd. cbn beta iota in Hd. case_if_in Hd; [injection Hd as _ <- <-; by left|].
  apply st_bind_inv in Hd as ([next merr] & r1 & Hm & Hd). apply commit_good in Hm; [|done..].
  destruct merr as [[x|x]|]; [|done|].
  - by injection Hd as _ <- <-.
  - unfold st_bind, st_modify in Hd. injection Hd as _ <- <-. exact Hm.
Qed.

Lemma owned_good (p : P) (c : configCandidate) (r r' : RT) (a : result PublicProfile) (marked : bool) :
  owned_attempt E op false id commit p c r = ((a, marked), r') -> okP p -> coherent c -> good E r ->
  marked = false /\ good_or_told r' a.
Proof.
  unfold owned_attempt. intros Hr Hp Hcoh Hg. apply st_bind_inv in Hr as (x & r1 & Hx & Hr).
  assert (Hg1 : good E r1).
  { eapply good_quiet; [|exact Hg]. eapply onM_quiet; [exact Hx|]. intros w w' b [= _ <-]. apply later_refl. }
  destruct x as [x|]; [injection Hr as <- <- <-; split; [done|by left]|].
  unfold st_bind at 1, st_get in Hr. cbn beta iota in Hr. cbn [andb] in Hr.
  apply st_bind_inv in Hr as (ctx & r2 & Hctx & Hr).
  assert (Hg2 : good E r2).
  { eapply good_quiet; [|exact Hg1]. eapply onM_quiet; [exact Hctx|]. intros w w' b Hb. by apply ctxErr_later in Hb. }
  apply st_bind_inv in Hr as ([sn err] & r3 & Hd & Hr). apply Do_good in Hd; [|done..]. destruct err as [x|].
  - injection Hr as <- <- <-. split; [done|]. destruct Hd as [Hd|Hd]; [by left|right; eauto].
  - unfold st_bind, st_get in Hr. injection Hr as <- <- <-. split; [done|by left].
Qed.

Lemma attempt_good (p p' : P) (r r' : RT) (a : result PublicProfile) (marked : bool) :
  attempt E src op false id prepare document_of check commit p r = ((p', a, marked), r') -> okP p -> good E r ->
  okP p' /\ marked = false /\ good_or_told r' a.
Proof.
  unfold attempt. intros Hr Hp Hg. apply st_bind_inv in Hr as (q & r1 & Hq & Hr).
  destruct (prepare_good _ _ _ _ Hq Hp Hg) as [Hg1 Hok]. destruct q as [q|x]; [|injection Hr as <- <- <- <-; by repeat split; [..|left]].
  specialize (Hok q eq_refl). apply st_bind_inv in Hr as (c & r2 & Hc & Hr).
  destruct (prepareConfig_safe E (document_of q) Hothers) as [Hsafe Hcoh]. assert (Hg2 : good E r2) by (by eapply Hsafe).
  destruct c as [c|x]; [|injection Hr as <- <- <- <-; by repeat split; [..|left]]. specialize (Hcoh _ _ _ Hc).
  apply st_bind_inv in Hr as ([b m] & r3 & Hb & Hr). apply st_bind_inv in Hr as ([] & r4 & Hcl & Hr). injection Hr as <- <- <- <-.
  apply (cleanup_quiet E) in Hcl; [|done]. split; [done|].
  assert (Hin : m = false /\ good_or_told r3 b).
  { destruct check as [x|]; [injection Hb as <- <- <-; split; [done|by left]|].
    apply st_bind_inv in Hb as (x & r5 & Hl & Hb). unfold lockSetupMutation in Hl.
    apply st_bind_inv in Hl as ([] & r6 & Hgap & Hl). injection Hgap as <-. apply Hothers in Hg2.
    assert (Hg5 : good E r5).
    { eapply good_quiet; [|exact Hg2]. eapply onM_quiet; [exact Hl|]. intros w w' y Hy. by apply lockMutation_spec in Hy as [Hy _]. }
    destruct x as [x|]; [injection Hb as <- <- <-; split; [done|by left]|].
    apply st_bind_inv in Hb as ([b' m'] & r7 & Ho & Hb). apply st_bind_inv in Hb as ([] & r8 & Hu & Hb). injection Hb as <- <- <-.
    apply owned_good in Ho as [-> Ho]; [|done..]. split; [done|]. destruct Ho as [Ho|Ho]; [left|by right].
    eapply good_quiet; [|exact Ho]. by apply unlock_quiet with (E := E) in Hu as [Hu _]. }
  destruct Hin as [-> [Hin|Hin]]; (split; [done|]); [left; by eapply good_quiet|by right].
Qed.

Lemma commitSubscriptionCandidate_good (p p' : P) (r r' : RT) (a : result PublicProfile) :
  commitSubscriptionCandidate E src op false id prepare document_of check commit p r = ((p', a), r') -> okP p -> good E r ->
  okP p' /\ good_or_degraded E r' (match a with Ok _ => None | Err x => Some x end).
Proof.
  unfold commitSubscriptionCandidate. intros Hr Hp Hg. apply st_bind_inv in Hr as ([[q b] m] & r1 & Hb & Hr).
  assert (Hin : okP q /\ m = false /\ good_or_told r1 b).
  { cbn [retrySetupPreparation] in Hb. apply st_bind_inv in Hb as (ctx & r2 & Hctx & Hb).
    assert (Hg2 : good E r2).
    { eapply good_quiet; [|exact Hg]. eapply onM_quiet; [exact Hctx|]. intros w w' y Hy. by apply ctxErr_later in Hy. }
    destruct ctx as [x|]; [injection Hb as <- <- <- <-; by repeat split; [..|left]|].
    apply st_bind_inv in Hb as ([[q' b'] m'] & r3 & Ha & Hb). apply attempt_good in Ha as (Hq & -> & Ha); [|done..].
    destruct b' as [v|x]; cbn [andb orb] in Hb; by injection Hb as <- <- <- <-. }
  destruct Hin as (Hq & -> & Hin). destruct b as [v|x].
  { injection Hr as <- <- <-. split; [done|]. destruct Hin as [Hin|(x & [=] & _)]. by left. }
  apply st_bind_inv in Hr as ([] & r2 & Hm & Hr). injection Hr as <- <- <-. split; [done|].
  apply st_bind_inv in Hm as ([] & r3 & Hgap & Hm). injection Hgap as <-. apply markConfigDegraded_spec in Hm.
  destruct (error_degraded x) eqn:Hx; [right; eauto|]. subst r2. destruct Hin as [Hin|(y & [= <-] & Hy)]; [left; auto|congruence].
Qed.

End Commit.

(** *** Whole requests *)

Lemma PrepareAdd_ok (fetch : Profile -> result FetchResult) (rid : result string) (name source mode : string) (p : PreparedAdd) :
  PrepareAdd fetch rid name source mode = Ok p -> add_ok p.
Proof.
  unfold PrepareAdd. destruct rid as [id|]; [|done]. destruct (Normalize _) as [c|] eqn:Hn; [|done].
  apply Normalize_sound in Hn as (_ & _ & _ & Hprof & Hall & _). cbn in Hprof. rewrite Hprof in *.
  destruct (fetch _) as [res|]; [|done]. destruct (NotModified res); [done|]. destruct (fetched_document _ _); [|done].
  intros [= <-]. apply Forall_inv in Hall as [Hid _]. by split.
Qed.

Lemma setup_check_quiet (op : Operation) (setup : bool) (r r' : RT) (x : option error) :
  (if setup then onM (checkIfRevision (op_IfRevision op)) else st_ret None) r = (x, r') -> quiet E r r'.
Proof.
  destruct setup; [|intros [= _ <-]; apply quiet_refl]. intros Hr. eapply onM_quiet; [exact Hr|].
  intros w w' b [= _ <-]. apply later_refl.
Qed.

Lemma Add_good (op : Operation) (input : AddSubscriptionInput) (r r' : RT) (res : result PublicProfile) :
  AddSubscription E src op false input r = (res, r') -> good E r ->
  good_or_degraded E r' (match res with Ok _ => None | Err x => Some x end).
Proof.
  unfold AddSubscription. intros Hr Hg.
  apply st_check_inv in Hr as [(x & -> & Ha)|(r1 & Ha & Hr)]; apply (admit_quiet E) in Ha; [left; by eapply good_quiet|].
  assert (Hg1 : good E r1) by (by eapply good_quiet).
  apply st_check_inv in Hr as [(x & -> & Hs)|(r2 & Hs & Hr)]; [discriminate Hs|injection Hs as <-].
  apply st_bind_inv in Hr as (n & r3 & Ht & Hr). apply tick_store in Ht as [Hg3 _]; [|done].
  apply st_bind_inv in Hr as ([] & r4 & Hgap & Hr). injection Hgap as <-. apply Hothers in Hg3.
  destruct (PrepareAdd _ _ _ _ _) as [p|x] eqn:Hp; [|injection Hr as <- <-; by left]. apply PrepareAdd_ok in Hp.
  apply st_bind_inv in Hr as ([q a] & r5 & Hc & Hr). injection Hr as <- <-.
  apply (commitSubscriptionCandidate_good) with (okP := add_ok) in Hc as [_ Hc]; [done| | |done|done].
  - intros p0 r0 r0' a0 [= <- <-] Hok Hg0. split; [done|]. by intros q0 [= <-].
  - intros p0 c r0 r0' res0 Hm Hok Hcoh Hg0. by eapply add_mutation_good.
Qed.

Lemma prepared_from_Ok (id : string) (p : Profile) (answer : result FetchResult) (r r' : RT) (q : PreparedRefresh) :
  onS (prepared_from id p answer) r = (Ok q, r') -> quiet E r r' /\ profileID q = id.
Proof.
  intros Hr. apply onS_inv in Hr as (s & Hr & ->). unfold prepared_from in Hr.
  destruct answer as [res|x]; [|apply st_bind_inv in Hr as (? & ? & _ & Hr); discriminate].
  assert (Hparsed : forall content base s1, (match fetched_document content base with
    | Err x => let! y := refreshFailure id x (Catalog.Version p) in st_ret (Err y)
    | Ok d => st_ret (Ok (mkPreparedRefresh id (Catalog.Version p) p res d)) end) s1 = (Ok q, s) -> s = s1 /\ profileID q = id).
  { intros content base s1. destruct (fetched_document content base); [by intros [= <- <-]|]. intros Hx.
    apply st_bind_inv in Hx as (? & ? & _ & Hx). discriminate. }
  destruct (NotModified res).
  2:{ apply Hparsed in Hr as [-> Hq]. split; [|done]. destruct r. apply quiet_refl. }
  case_if_in Hr; [apply st_bind_inv in Hr as (? & ? & _ & Hr); discriminate|].
  unfold st_bind at 1, st_get in Hr. cbn beta iota in Hr.
  apply st_bind_inv in Hr as ([content|x] & s3 & Hf & Hr); [|apply st_bind_inv in Hr as (? & ? & _ & Hr); discriminate].
  apply Hparsed in Hr as [-> Hq]. split; [|done]. eapply (ReadFile_quiet E). unfold onS. by rewrite Hf.
Qed.

Lemma prepare_refresh_good (id : string) (r r' : RT) (a : result PreparedRefresh) :
  prepare_refresh E src id r = (a, r') -> good E r -> good E r' /\ (forall p, a = Ok p -> refresh_ok p).
Proof.
  unfold prepare_refresh. intros Hr Hg. unfold st_bind at 1, st_get in Hr. cbn beta iota in Hr.
  destruct (find_profile (catalog (svc r)) id) as [p|] eqn:Hf; [|injection Hr as <- <-; by split].
  assert (Hid : profileIDPattern id = true).
  { apply find_profile_Some in Hf as [Hin <-]. destruct Hg as (_ & _ & (_ & _ & Hall & _) & _).
    rewrite Forall_forall in Hall. by apply Hall in Hin as [Hin _]. }
  apply st_bind_inv in Hr as (n & r1 & Ht & Hr). apply tick_store in Ht as [Hg1 _]; [|done].
  apply st_bind_inv in Hr as ([] & r2 & Hgap & Hr). injection Hgap as <-. apply Hothers in Hg1.
  split; [by eapply prepared_from_safe|]. intros q ->. apply prepared_from_Ok in Hr as [_ Hq]. unfold refresh_ok. by rewrite Hq.
Qed.

Lemma Refresh_good (op : Operation) (id : string) (r r' : RT) (res : result PublicProfile) :
  RefreshSubscription E src op false id r = (res, r') -> good E r ->
  good_or_degraded E r' (match res with Ok _ => None | Err x => Some x end).
Proof.
  unfold RefreshSubscription. intros Hr Hg.
  apply st_check_inv in Hr as [(x & -> & Ha)|(r1 & Ha & Hr)]; apply (admit_quiet E) in Ha; [left; by eapply good_quiet|].
  assert (Hg1 : good E r1) by (by eapply good_quiet).
  apply st_check_inv in Hr as [(x & -> & Hs)|(r2 & Hs & Hr)]; [discriminate Hs|injection Hs as <-].
  apply st_try_inv in Hr as [(x & -> & Hp)|(p & r2 & Hp & Hr)]; apply prepare_refresh_good in Hp as [Hg2 Hok]; try done; [by left|].
  specialize (Hok p eq_refl). apply st_bind_inv in Hr as ([q a] & r3 & Hc & Hr).
  apply (commitSubscriptionCandidate_good) with (okP := refresh_ok) in Hc as [_ Hc]; [| | |done|done].
  - destruct a as [v|x]; [injection Hr as <- <-; exact Hc|].
    apply st_bind_inv in Hr as ([] & r4 & Hgap & Hr). apply st_bind_inv in Hr as (y & r5 & Hrec & Hr). injection Hr as <- <-.
    destruct (error_degraded x) eqn:Hx.
    + injection Hgap as <-. unfold RecordRefreshFailure in Hrec. apply onS_inv in Hrec as (s & Hrec & ->).
      unfold error_degraded in Hx. destruct (errors_As x) as [api|] eqn:Has; [|done]. rewrite Hx, orb_true_r in Hrec.
      injection Hrec as <- <-. by destruct r3.
    + destruct Hc as [Hc|(y' & [= <-] & Hy & _)]; [|congruence]. injection Hgap as <-. apply Hothers in Hc.
      left. by eapply RecordRefreshFailure_safe.
  - intros p0 r0 r0' a0 [= <- <-] Hok0 Hg0. split; [done|]. by intros q0 [= <-].
  - intros p0 c r0 r0' res0 Hm Hok0 Hcoh Hg0. by eapply refresh_mutation_good.
Qed.

(** *** What a successful request has done *)

Lemma quiet_untouched (m m1 r' : RT) : quiet E m m1 -> config_untouched E m1 r' -> config_untouched E m r'.
Proof. intros (_ & Ha & Hl & _) [Hl' Ha']. split; congruence. Qed.

Lemma fetches_from (id : string) (d : Document) (m m1 r' : RT) : quiet E m m1 -> fetches E id d m1 r' -> fetches E id d m r'.
Proof.
  intros Hq [Hf He]. pose proof Hq as ((_ & Hc & _) & _). split; [done|]. rewrite Hc in He. case_if; [done|].
  destruct He as [Hu Ha]. split; [by eapply quiet_untouched|done].
Qed.

Lemma fetches_published (id : string) (d : Document) (m r r' : RT) : publishes r r' -> fetches E id d m r -> fetches E id d m r'.
Proof.
  intros Hp [Hf He]. unfold fetches. rewrite (pu_svc _ _ Hp). split; [done|]. case_if; [by eapply publishes_runs|].
  destruct He as [Hu Ha]. split; [by eapply publishes_untouched|done].
Qed.

Lemma fetches_quiet (id : string) (d : Document) (m r r' : RT) : quiet E r r' -> fetches E id d m r -> fetches E id d m r'.
Proof.
  intros Hq [Hf He]. pose proof Hq as ((_ & Hc & _) & Ha & Hl & _). unfold fetches. rewrite Hc. split; [done|].
  case_if; [by eapply runs_quiet|]. destruct He as [[Hl' Ha'] Hact]. split; [split; congruence|done].
Qed.

Lemma public_found (c : Catalog) (id : string) (v : PublicProfile) :
  findPublicProfile (Public c) id = Ok v -> find_profile c id <> None.
Proof.
  unfold findPublicProfile. destruct (List.find _ _) as [q|] eqn:Hf; [|done]. intros _ Hn. apply find_some in Hf as [Hin Hid].
  cbn in Hin. apply in_map_iff in Hin as (p & <- & Hin). eapply find_profile_None; [exact Hn|by apply list_elem_of_In|].
  by apply String.eqb_eq in Hid.
Qed.

Lemma apply_receipt_effect (id : string) (d : Document) (m : RT) (s : Service AEnv W) (receipt : Receipt) (c : configCandidate)
    (sn sn' : Snapshot) (r' : RT) :
  commit_out (CachePath id (svc m)) (catalog (svc m)) (svc m) s receipt None true ->
  apply_receipt E id receipt c sn (set_svc s m) = ((sn', None), r') -> good E m -> profileIDPattern id = true ->
  made_for d c m ->
  (ActiveID (catalog (svc m)) <> id -> ActiveID (After receipt) <> id -> ActiveID (After receipt) = ActiveID (catalog (svc m))) ->
  fetches E id d m r'.
Proof.
  intros Hout Hr Hg Hid Hm Hsel. pose proof (committed_edited id m s receipt Hout Hg Hid) as [_ _ _ Hl Ha Hc _ _].
  pose proof Hg as (Hstep & _). unfold apply_receipt in Hr. destruct (findPublicProfile _ id) as [v|x] eqn:Hf.
  2:{ apply st_bind_inv in Hr as (y & r2 & _ & Hr). discriminate Hr. }
  apply public_found in Hf. unfold fetches. case_if_in Hr.
  - apply st_bind_inv in Hr as (x & r2 & Hx & Hr). destruct x as [x|].
    { apply st_bind_inv in Hr as (y & r3 & _ & Hr). discriminate Hr. }
    injection Hr as _ <-. apply (commit_runs_generated E Hrel d) in Hx as [(_ & Hc' & _) Hruns]; [|unfold in_step in *; congruence|done].
    rewrite Hc', Hc. split; [done|]. by rewrite Heqb.
  - injection Hr as _ <-. rewrite Hc. split; [done|]. rewrite Heqb. split; [by split|]. intros Hne. apply Hsel; [done|].
    by apply String.eqb_neq.
Qed.

Lemma refresh_catalog_others (p : PreparedRefresh) (now : Z) (c : Catalog) :
  ActiveID (refresh_catalog p now c) = ActiveID c /\
  forall q, ID q <> profileID p -> q ∈ Profiles (refresh_catalog p now c) <-> q ∈ Profiles c.
Proof. split; [apply update_profile_active|]. intros q Hq. by apply update_profile_others. Qed.

Lemma refresh_effect (p : PreparedRefresh) (c : configCandidate) (s s' : Snapshot) (m r' : RT) :
  refresh_mutation E src false p c s m = ((s', None), r') -> refresh_ok p -> good E m -> made_for (document p) c m ->
  fetches E (profileID p) (document p) m r'.
Proof.
  unfold refresh_mutation. intros Hr Hid Hg Hm. apply st_bind_inv in Hr as (n & m1 & Ht & Hr).
  apply (onM_quiet E) in Ht; [|intros w w' b [= _ <-]; apply later_ticked].
  eapply fetches_from; [exact Ht|]. assert (Hg1 : good E m1) by (by eapply good_quiet).
  apply st_bind_inv in Hr as ([receipt err] & r2 & Hc & Hr). apply onS_inv in Hc as (sv & Hc & ->).
  destruct err as [x|]; [discriminate Hr|]. destruct (cache_proper _ m1 Hg1 Hid) as [Hp _]. pose proof Hg1 as (_ & _ & Hok & Hst & _).
  unfold CommitRefresh in Hc. unfold st_bind at 1, st_get in Hc. cbn beta iota in Hc. pose proof (commit_receipt _ _ _ _ _ _ _ Hc) as Hset.
  apply commitRefreshLocked_out in Hc; [|done..].
  eapply apply_receipt_effect; [exact Hc|exact Hr|done|done|by eapply made_for_quiet|]. intros Hne Hne'.
  destruct (refresh_catalog_others p (src_now src n) (catalog (svc m1))). by eapply (selection_kept (profileID p)).
Qed.

Lemma add_effect (p : PreparedAdd) (c : configCandidate) (s s' : Snapshot) (m r' : RT) :
  add_mutation E src false p c s m = ((s', None), r') -> add_ok p -> good E m -> made_for (document (pa_refresh p)) c m ->
  fetches E (ID (pa_profile p)) (document (pa_refresh p)) m r'.
Proof.
  unfold add_mutation. intros Hr [Hid Heq] Hg Hm. apply st_bind_inv in Hr as (n & m1 & Ht & Hr).
  apply (onM_quiet E) in Ht; [|intros w w' b [= _ <-]; apply later_ticked].
  eapply fetches_from; [exact Ht|]. assert (Hg1 : good E m1) by (by eapply good_quiet).
  apply st_bind_inv in Hr as ([receipt err] & r2 & Hc & Hr). apply onS_inv in Hc as (sv & Hc & ->).
  destruct err as [x|]; [discriminate Hr|]. destruct (cache_proper _ m1 Hg1 Hid) as [Hp _]. pose proof Hg1 as (_ & _ & Hok & Hst & _).
  unfold commitAdd in Hc. unfold st_bind at 1, st_get in Hc. cbn beta iota in Hc.
  apply st_bind_inv in Hc as ([] & s1 & Hset1 & Hc). injection Hset1 as <-.
  apply st_bind_inv in Hc as ([rc er] & s2 & Hc & Hfin). destruct er as [x|]; [discriminate Hfin|]. injection Hfin as <- <-.
  pose proof (commit_receipt _ _ _ _ _ _ _ Hc) as Hset. apply commitRefreshLocked_out in Hc; [|done|done| |done|done]; rewrite Heq in *; [|exact Hp].
  eapply apply_receipt_effect; [exact Hc|exact Hr|done|done|by eapply made_for_quiet|]. intros Hne Hne'.
  destruct (refresh_catalog_others (pa_refresh p) (src_now src n)
    (with_Profiles (Profiles (catalog (svc m1)) ++ [pa_profile p]) (catalog (svc m1)))) as [Hact Hps].
  eapply (selection_kept (ID (pa_profile p))); [exact Hok|exact Hset|exact Hact| |done|done].
  intros q Hq. rewrite Hps by congruence. cbn. rewrite elem_of_app, list_elem_of_singleton. split; [|tauto]. intros [?| ->]; done.
Qed.

Section CommitEffect.
Hypothesis Hco : counting_others E.
Context {P : Type} (op : Operation) (id : P -> string) (prepare : P -> st RT (result P)) (document_of : P -> Document)
  (check : option error) (commit : P -> configCandidate -> Mutation RT) (p : P).
Hypothesis prepare_same : forall r, prepare p r = (Ok p, r).
Hypothesis commit_effect : forall c s s' m r', commit p c s m = ((s', None), r') -> good E m -> made_for (document_of p) c m ->
  fetches E (id p) (document_of p) m r'.

Lemma owned_effect (c : configCandidate) (r r' : RT) (v : PublicProfile) (marked : bool) :
  owned_attempt E op false id commit p c r = ((Ok v, marked), r') -> good E r -> made_for (document_of p) c r ->
  exists m, quiet E r m /\ fetches E (id p) (document_of p) m r'.
Proof.
  unfold owned_attempt. intros Hr Hg Hm. apply st_bind_inv in Hr as (x & r1 & Hx & Hr). destruct x as [x|]; [discriminate Hr|].
  apply (onM_quiet E) in Hx; [|intros w w' b [= _ <-]; apply later_refl].
  unfold st_bind at 1, st_get in Hr. cbn beta iota in Hr. cbn [andb] in Hr. apply st_bind_inv in Hr as (ctx & r2 & Hctx & Hr).
  apply (onM_quiet E) in Hctx; [|intros w w' b Hb; by apply ctxErr_later in Hb].
  assert (Hq : quiet E r r2) by (by eapply quiet_trans).
  apply st_bind_inv in Hr as ([sn err] & r3 & Hd & Hr). destruct err as [x|]; [discriminate Hr|].
  unfold st_bind, st_get in Hr. injection Hr as _ _ <-. apply Do_effect in Hd as (s' & r4 & Hmu & Hp). exists r2. split; [done|].
  eapply fetches_published; [exact Hp|]. eapply commit_effect; [exact Hmu|by eapply good_quiet|by eapply made_for_quiet].
Qed.

Lemma attempt_effect (p' : P) (r r' : RT) (v : PublicProfile) (marked : bool) :
  attempt E src op false id prepare document_of check commit p r = ((p', Ok v, marked), r') -> good E r ->
  took_effect E (fetches E (id p) (document_of p)) r r'.
Proof.
  unfold attempt. intros Hr Hg. apply st_bind_inv in Hr as (q & r1 & Hq & Hr). rewrite prepare_same in Hq. injection Hq as <- <-.
  apply st_bind_inv in Hr as (c & r2 & Hc & Hr). destruct c as [c|x]; [|discriminate Hr].
  apply prepareConfig_made in Hc as (Hw & Hgen & Hm).
  apply st_bind_inv in Hr as ([b mk] & r3 & Hb & Hr). apply st_bind_inv in Hr as ([] & r4 & Hcl & Hr). injection Hr as _ -> _ <-.
  apply (cleanup_quiet E) in Hcl; [|by destruct Hm]. destruct check as [x|]; [discriminate Hb|].
  apply st_bind_inv in Hb as (x & r5 & Hl & Hb). destruct x as [x|]; [discriminate Hb|]. unfold lockSetupMutation in Hl.
  apply st_bind_inv in Hl as ([] & r6 & Hgap & Hl). injection Hgap as <-.
  apply (onM_quiet E) in Hl; [|intros w w' y Hy; by apply lockMutation_spec in Hy as [Hy _]].
  apply st_bind_inv in Hb as ([b' m'] & r7 & Ho & Hb). apply st_bind_inv in Hb as ([] & r8 & Hu & Hb). injection Hb as -> -> <-.
  assert (Hw5 : waits E r r5) by (eapply waits_quiet; [apply waits_others, Hw|done]).
  assert (Hg5 : good E r5) by (eapply waits_good; [exact Hw5|apply Hco|done]).
  apply owned_effect in Ho as (m & Hqm & He); [|done|eapply made_for_quiet; [exact Hl|by apply made_for_others]].
  exists m. split; [by eapply waits_quiet|]. split; [by eapply good_quiet|]. eapply fetches_quiet; [exact Hcl|].
  eapply fetches_published; [by apply unlock_publishes|exact He].
Qed.

Lemma candidate_effect (p' : P) (r r' : RT) (v : PublicProfile) :
  commitSubscriptionCandidate E src op false id prepare document_of check commit p r = ((p', Ok v), r') -> good E r ->
  took_effect E (fetches E (id p) (document_of p)) r r'.
Proof.
  unfold commitSubscriptionCandidate. intros Hr Hg. apply st_bind_inv in Hr as ([[q b] mk] & r1 & Hb & Hr).
  destruct b as [v'|x]; [|apply st_bind_inv in Hr as (? & ? & _ & Hr); discriminate Hr]. injection Hr as _ <- <-.
  cbn [retrySetupPreparation] in Hb. apply st_bind_inv in Hb as (ctx & r2 & Hctx & Hb). destruct ctx as [x|]; [discriminate Hb|].
  apply (onM_quiet E) in Hctx; [|intros w w' y Hy; by apply ctxErr_later in Hy].
  apply st_bind_inv in Hb as ([[q' b'] mk'] & r3 & Ha & Hb). destruct b' as [v''|x]; [|cbn [andb] in Hb; discriminate Hb].
  injection Hb as <- <- <- <-. apply attempt_effect in Ha as (m & Hw & Hgm & He); [|by eapply good_quiet].
  exists m. split; [|done]. eapply waits_trans; [|exact Hw]. eapply waits_quiet; [constructor|done].
Qed.

End CommitEffect.

Lemma took_effect_from (effect : RT -> RT -> Prop) (r r1 r' : RT) : waits E r r1 -> took_effect E effect r1 r' -> took_effect E effect r r'.
Proof. intros Hw (m & Hm & He). exists m. split; [by eapply waits_trans|done]. Qed.

(** The fetched document of an added subscription, committed. *)
Definition adds (input : AddSubscriptionInput) (r r' : RT) : Prop :=
  exists n p, PrepareAdd (src_fetch src n) (src_id src n) (add_Name input) (add_URL input) (add_ProxyMode input) = Ok p /\
    took_effect E (fetches E (ID (pa_profile p)) (document (pa_refresh p))) r r'.

Lemma Add_took_effect (op : Operation) (input : AddSubscriptionInput) (r r' : RT) (v : PublicProfile) :
  AddSubscription E src op false input r = (Ok v, r') -> counting_others E -> good E r -> adds input r r'.
Proof.
  unfold AddSubscription. intros Hr Hco Hg. apply st_check_inv in Hr as [(x & [=] & _)|(r1 & Ha & Hr)].
  apply admit_parts with (E := E) in Ha as [_ Hw1].
  apply st_check_inv in Hr as [(x & [=] & _)|(r2 & Hs & Hr)]. injection Hs as <-.
  apply st_bind_inv in Hr as (n & r3 & Ht & Hr). apply (onM_quiet E) in Ht; [|intros w w' b [= _ <-]; apply later_ticked].
  apply st_bind_inv in Hr as ([] & r4 & Hgap & Hr). injection Hgap as <-.
  destruct (PrepareAdd _ _ _ _ _) as [p|x] eqn:Hp; [|discriminate Hr]. exists n, p. split; [done|].
  apply st_bind_inv in Hr as ([q a] & r5 & Hc & Hr). injection Hr as -> <-.
  assert (Hw : waits E r (re_others E r3)) by (apply waits_others; by eapply waits_quiet).
  eapply took_effect_from; [exact Hw|]. apply PrepareAdd_ok in Hp.
  eapply candidate_effect in Hc; [exact Hc|done|done| |eapply waits_good; [exact Hw|apply Hco|done]].
  intros c s s' m r6 Hmu Hgm Hm. by eapply add_effect.
Qed.

(** The answer of the source for the subscription as the catalog had it when the
    request came, committed. *)
Definition refreshes (id : string) (r r' : RT) : Prop :=
  exists n p w prepared, find_profile (catalog (svc r)) id = Some p /\ waits E r w /\
    fst (prepared_from id p (src_fetch src n p) (svc w)) = Ok prepared /\
    took_effect E (fetches E id (document prepared)) r r'.

Lemma Refresh_took_effect (op : Operation) (id : string) (r r' : RT) (v : PublicProfile) :
  RefreshSubscription E src op false id r = (Ok v, r') -> counting_others E -> good E r -> refreshes id r r'.
Proof.
  unfold RefreshSubscription. intros Hr Hco Hg. apply st_check_inv in Hr as [(x & [=] & _)|(r1 & Ha & Hr)].
  apply admit_parts with (E := E) in Ha as [Hs1 Hw1]. assert (Hg1 : good E r1) by (eapply waits_good; [exact Hw1|apply Hco|done]).
  apply st_check_inv in Hr as [(x & [=] & _)|(r2 & Hs & Hr)]. injection Hs as <-.
  apply st_try_inv in Hr as [(x & [=] & _)|(q & r2 & Hp & Hr)]. pose proof (prepare_refresh_good _ _ _ _ Hp Hg1) as [Hg2 Hok].
  specialize (Hok q eq_refl). unfold prepare_refresh in Hp. unfold st_bind at 1, st_get in Hp. cbn beta iota in Hp. rewrite Hs1 in Hp.
  destruct (find_profile (catalog (svc r)) id) as [p|] eqn:Hf; [|discriminate Hp].
  apply st_bind_inv in Hp as (n & r3 & Ht & Hp). apply (onM_quiet E) in Ht; [|intros w w' b [= _ <-]; apply later_ticked].
  apply st_bind_inv in Hp as ([] & r4 & Hgap & Hp). injection Hgap as <-.
  assert (Hw : waits E r (re_others E r3)) by (apply waits_others; by eapply waits_quiet).
  pose proof (prepared_from_Ok _ _ _ _ _ _ Hp) as [Hq2 Hid]. exists n, p, (re_others E r3), q. split; [done|]. split; [done|].
  split; [apply onS_inv in Hp as (sv & Hp & _); by rewrite Hp|].
  apply st_bind_inv in Hr as ([q' a] & r5 & Hc & Hr). destruct a as [v'|x].
  2:{ apply st_bind_inv in Hr as (? & ? & _ & Hr). apply st_bind_inv in Hr as (? & ? & _ & Hr). discriminate Hr. }
  injection Hr as <- <-. eapply took_effect_from; [by eapply waits_quiet|]. rewrite <- Hid.
  eapply candidate_effect in Hc; [exact Hc|done|done| |done]. intros c s s' m r6 Hmu Hgm Hm. by eapply refresh_effect.
Qed.

End Lemmas.

(** ** Theorems *)

(** The ordinary requests that change the catalog. *)
Inductive request :=
| Use (op : Operation) (id : string)
| Remove_ (op : Operation) (id : string)
| Enable (op : Operation) (id : string) (enabled : bool)
| Set_ (op : Operation) (id : string) (now : Z) (input : SetSubscriptionInput)
| Add_ (op : Operation) (input : AddSubscriptionInput)
| Refresh (op : Operation) (id : string).

Definition outcome_error {A} (r : result A) : option error := match r with Ok _ => None | Err x => Some x end.

Definition run_request `{CaseFold} `{SourceSyntax} `{CatalogYAML} `{DocumentYAML} `{PEM} `{Sha256}
    {Env FS AEnv W : Type} `{SettingsFile Env FS} `{AtomicFile AEnv W} (E : rt_env Env FS AEnv W) (src : source_env)
    (q : request) : st (Runtime FS AEnv W) (option error) :=
  match q with
  | Use op id => let! x := UseSubscription E op id in st_ret (outcome_error x)
  | Remove_ op id => RemoveSubscription E op id
  | Enable op id b => let! x := SetSubscriptionEnabled E op id b in st_ret (outcome_error x)
  | Set_ op id now i => let! x := SetSubscription E now op id i in st_ret (outcome_error x)
  | Add_ op i => let! x := AddSubscription E src op false i in st_ret (outcome_error x)
  | Refresh op id => let! x := RefreshSubscription E src op false id in st_ret (outcome_error x)
  end.

(** What a request has done when it reports success, from the moment it took
    effect on: what other requests did before that moment is in [waits]. *)
Definition takes_effect `{CaseFold} `{SourceSyntax} `{CatalogYAML} `{DocumentYAML} `{PEM} `{Sha256}
    {Env FS AEnv W : Type} `{SettingsFile Env FS} `{AtomicFile AEnv W} (E : rt_env Env FS AEnv W) (src : source_env)
    (q : request) (r r' : Runtime FS AEnv W) : Prop :=
  match q with
  | Use _ id => took_effect E (uses E id r) r r'
  | Remove_ _ id => took_effect E (removes E id) r r'
  | Enable _ id b => took_effect E (edits E id (set_enabled b)) r r'
  | Set_ _ id now i => took_effect E (edits E id (set_subscription now i)) r r'
  | Add_ _ i => adds E src i r r'
  | Refresh _ id => refreshes E src id r r'
  end.

(** C4. No ordinary request that changes the catalog lets the parts drift apart.
    When the core runs the configuration in the file, the catalog in memory is
    valid and saved, and its active subscription is the published one, then after
    adding, refreshing, selecting, removing, enabling, disabling or editing a
    subscription the same holds, or the request reports an error that says
    recovery is needed and the degraded state is published; whatever the sources
    answer and whatever fails.  A request that reports success has taken effect as
    a whole: the selected subscription, still at the version it had and usable, is
    the active one, and the core runs what is generated from its cached document;
    a removed one is gone; a fetched one is in the catalog; an edited catalog is
    the settled edit.  Whenever the active subscription is another one, or the
    active one was fetched, the core runs what is generated with the current settings
    (routing aside) from the document of the subscription that is active, or from
    the direct document without one; otherwise it still runs what it ran.  Other
    requests may do anything while the request owns nothing, as long as they keep
    the first part and count their changes of the settings.  The requests are those
    outside the setup.  It relies on catalogs surviving YAML, on a controller that
    can reload, and on writes that do not fail after they replaced the file
    ([durable]): subscription.go:575 reports such a write of the configuration as a plain
    failure although the new file stays. *)
Theorem requests_keep_parts_together `{CaseFold} `{SourceSyntax} `{CatalogYAML} `{DocumentYAML} `{PEM} `{Sha256}
    {Env FS AEnv W : Type} `{SettingsFile Env FS} `{AtomicFile AEnv W} (E : rt_env Env FS AEnv W) (src : source_env)
    (q : request) (r r' : Runtime FS AEnv W) (x : option error) :
  run_request E src q r = (x, r') -> durable (AEnv := AEnv) (W := W) -> yaml_faithful -> re_reloader E = true ->
  counting_others E -> good E r ->
  match x with
  | None => good E r' /\ takes_effect E src q r r'
  | Some y => good E r' \/ error_degraded y = true /\ reports_degraded E r'
  end.
Proof.
  intros Hq Hdur Hyaml Hrel Hco Hg. pose proof (co_good E Hco) as Ho. assert (Hkept : good_or_degraded E r' x).
  { destruct q as [op id|op id|op id b|op id now i|op i|op id]; cbn in Hq; [|by eapply Remove_good|..];
      apply st_bind_inv in Hq as (res & r1 & Hu & Hq); injection Hq as <- <-;
      [by eapply Use_good|by eapply mutate_good|by eapply mutate_good|by eapply Add_good|by eapply Refresh_good]. }
  destruct x as [x|]; [destruct Hkept as [?|(y & [= <-] & ?)]; auto|]. destruct Hkept as [Hk|(y & [=] & _)]. split; [done|].
  destruct q as [op id|op id|op id b|op id now i|op i|op id]; cbn in Hq |- *; [|by eapply Remove_took_effect|..];
    apply st_bind_inv in Hq as ([v|y] & r1 & Hu & Hq); try discriminate Hq; injection Hq as <-;
    [by eapply Use_took_effect|by eapply mutate_took_effect|by eapply mutate_took_effect|by eapply Add_took_effect|by eapply Refresh_took_effect].
Qed.

(** ** Witnesses *)

Section Witnesses.

#[local] Existing Instance ex_fold.
#[local] Existing Instance ex_yaml.
#[local] Existing Instance ex_pem.
#[local] Existing Instance ex_hash.
#[local] Existing Instance ex_settings_file.
#[local] Existing Instance memory_disk.

Definition ex_document : string :=
  match doc_Marshal (document_value {["proxy-providers"%string := AString "none"]}) with Ok c => c | Err _ => "" end.

(** The source of the subscription answers with a document. *)
Definition ex_source : source_env :=
  mkSourceEnv (fun _ _ => Ok (mkFetchResult ex_document "" "" "upload=1; total=9" "" false))
    (fun _ => Ok "0123456789abcdef0123456789abcdef"%string) (fun _ => 99) 0.

Definition ex_refresh : request := Refresh ex_op (ActiveID settled_example).

Lemma ex_refreshed : fst (run_request (ex_rt_env false) ex_source ex_refresh ex_runtime) = None /\
  catalog (svc (snd (run_request (ex_rt_env false) ex_source ex_refresh ex_runtime))) = refreshed_example.
Proof. vm_compute. split; reflexivity. Qed.

Lemma ex_alone (refuses : bool) : counting_others (ex_rt_env refuses).
Proof. by split. Qed.

(** The active subscription is refreshed: the core runs what is generated from the
    fetched document, and the refreshed catalog is saved. *)
Lemma requests_keep_parts_together_witness :
  let r' := snd (run_request (ex_rt_env false) ex_source ex_refresh ex_runtime) in
  good (ex_rt_env false) r' /\ takes_effect (ex_rt_env false) ex_source ex_refresh ex_runtime r' /\ catalog (svc r') = refreshed_example.
Proof.
  destruct ex_refreshed as [Hx Hc]. destruct (run_request (ex_rt_env false) ex_source ex_refresh ex_runtime) as [x r'] eqn:Hr.
  cbn [fst snd] in *. subst x.
  destruct (requests_keep_parts_together (ex_rt_env false) ex_source ex_refresh ex_runtime r' None Hr memory_durable
    two_catalogs_faithful eq_refl (ex_alone false) (ex_runtime_good false)) as [Hg He]. split; [exact Hg|]. split; [exact He|exact Hc].
Defined.

End Witnesses.
