(* ===== verification/CoreTx.v ===== *)
(** * CoreTx: changing a setting together with the running core

    What the outbound interface ([internal/runtime/egress.go]) and the log level
    ([internal/runtime/logging_transaction.go]) have in common.  A request plans
    its change, validates a configuration generated for it without owning
    anything, takes ownership again, checks that its inputs are the same, changes
    core and file and saves the settings last.  A failure puts everything back,
    or the daemon refuses all further mutations.

    - [captured] holds the inputs that are checked again.
    - [since] relates the state a request began with to the one it works on:
      other requests ran in between.
    - [restored] says that nothing has changed, [fenced] that the daemon asks for
      a restart. *)

From S2P Require Import Prelude GoStd SelfUpdate Atomic State Settings Catalog SubService TrustedConfig Generator FileRefs.
From S2P Require Import Manager Routing RuntimeConfig.

(** The inputs of a preparation. *)
Record captured := mkCaptured {
  in_catalog : Catalog;
  in_epoch : Z;
  in_hash : list Z;
  in_generation : Z
}.

(** [configCandidate{}]. *)
Definition zero_configCandidate : configCandidate := mkConfigCandidate 0 false None (repeat 0 32) "".

Section CoreTx.
Context `{CaseFold} `{SourceSyntax} `{CatalogYAML} `{DocumentYAML} `{PEM} `{Sha256}
  {Env FS AEnv W : Type} `{SettingsFile Env FS} `{AtomicFile AEnv W} (E : rt_env Env FS AEnv W).

Abbreviation R := (st (Runtime FS AEnv W)).
Abbreviation o := (re_options E).
Abbreviation e := (re_env E).

Definition loggingCacheHash (id : string) : R (result (list Z)) :=
  if String.eqb id "" then st_ret (Ok (repeat 0 32))
  else try! '(raw, _) := read_cache id in st_ret (Ok (sha256 raw)).

(** The inputs, read while the request owns the mutation. *)
Definition capture_inputs (generation : Z) : R (result captured) :=
  let! r := st_get in
  let c := catalog (svc r) in
  try! hash := loggingCacheHash (ActiveID c) in
  st_ret (Ok (mkCaptured c (coreEpoch r) hash generation)).

(** The comparison after ownership was taken again. *)
Definition inputs_same (i : captured) (hash : list Z) (r : Runtime FS AEnv W) : bool :=
  bool_decide (in_hash i = hash) && (in_generation i =? configGeneration (mgr r)) && (in_epoch i =? coreEpoch r)
  && bool_decide (in_catalog i = catalog (svc r)) && core_running r.

(** A configuration is generated and validated without ownership; then ownership
    is taken again and [recheck] compares the inputs. *)
Definition validate_unowned (recheck : R (option error)) (c : settingsCandidate) (i : captured) : R (result configCandidate) :=
  do! onM unlock in
  do! gap E in
  try! g := prepareCatalogConfigWithSettings E (in_catalog i) (cand_after c) (cand_generation c) in
  do! gap E in
  let! x := onM (lockMutation o e) in
  match x with
  | Some x => do! cleanup E g in st_ret (Err x)
  | None =>
      let! x := recheck in
      match x with
      | Some x => do! cleanup E g in do! onM unlock in st_ret (Err x)
      | None => st_ret (Ok g)
      end
  end.

(** The routing of the core before a change; without saved routing it is not
    managed. *)
Definition observe_old_routing (before : Settings) : R (result (string * string)) :=
  match Settings.Routing before with
  | None => st_ret (Ok (""%string, ""%string))
  | Some _ =>
      try! mode := onM (observeRoutingMode o e) in
      try! g := onM (observeGlobal o e) in
      st_ret (Ok (mode, px_Now g))
  end.

(** The routing is put back. *)
Definition restore_routing (mode exit : string) : R (option error) :=
  if String.eqb mode "" then st_ret None else onM (applyRoutingLive o e mode exit).

(** The settings are put back, when they are not those of before. *)
Definition restore_settings (before : Settings) : R (option error) :=
  let! r := st_get in
  if bool_decide (before = settings (mgr r)) then st_ret None
  else let! '(_, err) := onM (restoreSettings o e before) in st_ret err.

(** The fence: no mutation any more, and a trusted core is stopped. *)
Definition raise_fence : R unit :=
  do! onM (st_modify set_degraded) in onM (st_modify (set_stop (trustedCore o))).

End CoreTx.

(** ** Lemmas *)

Section Lemmas.
Context `{CaseFold} `{SourceSyntax} `{CatalogYAML} `{DocumentYAML} `{PEM} `{Sha256}
  {Env FS AEnv W : Type} `{SettingsFile Env FS} `{AtomicFile AEnv W} (E : rt_env Env FS AEnv W).

Abbreviation RT := (Runtime FS AEnv W).

(** *** The settings file *)

(** The settings in memory are the saved ones. *)
Definition saved (r : RT) : Prop := persisted (re_options E) (mgr r).

Lemma saved_onM {A} (m : st (Manager FS) A) :
  (forall w w' a, m w = (a, w') -> persisted (re_options E) w -> persisted (re_options E) w') -> preserves saved (onM m).
Proof. intros Hm r r' a Hr Hs. apply onM_inv in Hr as (m' & Hr & ->). by eapply Hm. Qed.

Lemma saved_later {A} (m : st (Manager FS) A) : (forall w w' a, m w = (a, w') -> later w w') -> preserves saved (onM m).
Proof. intros Hm. apply saved_onM. intros w w' a Ha. apply later_persisted. by eapply Hm. Qed.

Lemma saved_onS {A} (m : st (Service AEnv W) A) : preserves saved (onS m).
Proof. intros r r' a Hr. by apply onS_inv in Hr as (s & _ & ->). Qed.

Lemma saved_onT {A} (m : st Trusted A) : preserves saved (onT m).
Proof. intros r r' a Hr. by apply onT_inv in Hr as (t & _ & ->). Qed.

Lemma saved_modifyM (f : Manager FS -> Manager FS) :
  (forall w, settings (f w) = settings w /\ fs (f w) = fs w) -> preserves saved (onM (st_modify f)).
Proof.
  intros Hf. apply saved_onM. intros w w' [] [= <-] Hp. destruct (Hf w) as [Hs Hfs]. unfold persisted. by rewrite Hs, Hfs.
Qed.

Lemma saved_Reload : preserves saved (Reload E).
Proof.
  unfold Reload. apply preserves_bind; [apply saved_later; intros w w' a [= _ <-]; apply later_ticked|].
  intros n r r' x Hr. cbn in Hr. injection Hr as _ <-. by case_if.
Qed.

#[local] Hint Resolve saved_onS saved_onT saved_Reload : preserves.
#[local] Hint Extern 1 (preserves saved (write_config _ _)) => apply saved_onS : preserves.
#[local] Hint Extern 1 (preserves saved (onM (st_modify _))) => (apply saved_modifyM; done) : preserves.

Lemma saved_observeRoutingMode : preserves saved (onM (observeRoutingMode (re_options E) (re_env E)) : st RT _).
Proof. apply saved_later. intros w w' a Ha. by apply observeRoutingMode_spec in Ha as [Ha _]. Qed.

Lemma saved_observeGlobal : preserves saved (onM (observeGlobal (re_options E) (re_env E)) : st RT _).
Proof. apply saved_later. intros w w' a Ha. by apply observeGlobal_spec in Ha as [Ha _]. Qed.

Lemma saved_applyRoutingLive (mode exit : string) :
  preserves saved (onM (applyRoutingLive (re_options E) (re_env E) mode exit) : st RT _).
Proof. apply saved_onM. intros w w' a Ha. by apply applyRoutingLive_spec in Ha as [(k & n & ->) _]. Qed.

Lemma saved_restoreRoutingConfig (content : string) : preserves saved (restoreRoutingConfig E content).
Proof. unfold restoreRoutingConfig. solve_preserves. Qed.

Lemma saved_commitRuntimeConfigBytes (c : configCandidate) : preserves saved (commitRuntimeConfigBytes E c).
Proof.
  unfold commitRuntimeConfigBytes, commitTrustedRuntimeConfig, publish_trusted, restore_trusted, install_config, restoreRuntimeConfig.
  solve_preserves.
Qed.

Lemma saved_capture_config : preserves saved (capture_config E).
Proof. unfold capture_config. solve_preserves. Qed.

#[local] Hint Resolve saved_applyRoutingLive saved_restoreRoutingConfig saved_commitRuntimeConfigBytes saved_capture_config : preserves.
#[local] Hint Resolve saved_observeRoutingMode saved_observeGlobal : preserves.

Lemma saved_commitRuntimeConfig (controlled : bool) (c : configCandidate) : preserves saved (commitRuntimeConfig E controlled c).
Proof.
  unfold commitRuntimeConfig, recover_runtime. apply preserves_bind; [auto with preserves|]. intros r.
  assert (Hch : preserves saved (onM (changeRoutingLocked (re_options E) (re_env E) (RoutingMode (settings (mgr r))) "" true false) : st RT _)).
  { apply saved_onM. intros w w' a Ha. apply changeRoutingLocked_spec in Ha as [Ha _]; [done|apply RoutingMode_nonempty]. }
  solve_preserves.
Qed.

Lemma saved_prepareContent (content : string) : preserves saved (prepareContent E content).
Proof.
  unfold prepareContent. solve_preserves. apply saved_later. intros w w' a [= _ <-]. apply later_ticked.
Qed.

Lemma saved_read_cache (id : string) : preserves saved (read_cache id : st RT _).
Proof. unfold read_cache. solve_preserves. Qed.

#[local] Hint Resolve saved_prepareContent saved_read_cache : preserves.

Lemma saved_ReadCache (id : string) : preserves saved (ReadCache id : st RT _).
Proof. unfold ReadCache. solve_preserves. Qed.

#[local] Hint Resolve saved_ReadCache : preserves.

Lemma saved_prepareCatalogConfigWithSettings (k : Catalog) (s : Settings) (g : Z) :
  preserves saved (prepareCatalogConfigWithSettings E k s g).
Proof. unfold prepareCatalogConfigWithSettings, prepareConfigWithSettings. solve_preserves. Qed.

Lemma saved_cleanup (c : configCandidate) : preserves saved (cleanup E c).
Proof. unfold cleanup. solve_preserves. Qed.

(** *** Steps that change nothing *)

Definition still (r r' : RT) : Prop := quiet E r r' /\ (saved r -> saved r').

Lemma still_refl (r : RT) : still r r.
Proof. split; [apply quiet_refl|done]. Qed.

Lemma still_trans (a b c : RT) : still a b -> still b c -> still a c.
Proof. intros [Hq Hs] [Hq' Hs']. split; [by eapply quiet_trans|auto]. Qed.

Lemma still_step {A} (r : RT) (m : st RT A) :
  (forall r r' a, m r = (a, r') -> quiet E r r') -> preserves saved m -> preserves (still r) m.
Proof. intros Hq Hs a b x Hx [Hq0 Hs0]. split; [eapply quiet_trans; eauto|eauto]. Qed.

Lemma still_later {A} (r : RT) (m : st (Manager FS) A) :
  (forall w w' a, m w = (a, w') -> later w w') -> preserves (still r) (onM m).
Proof. intros Hm. apply still_step; [|by apply saved_later]. intros a b x Hx. by eapply onM_quiet. Qed.

Lemma still_unlock (r : RT) : preserves (still r) (onM unlock).
Proof.
  apply still_step; [|apply saved_modifyM; done]. intros a b [] Hu. by destruct (unlock_quiet E a b Hu).
Qed.

Lemma still_lockMutation (r : RT) : preserves (still r) (onM (lockMutation (re_options E) (re_env E))).
Proof. apply still_later. intros w w' a Ha. by apply lockMutation_spec in Ha as [Ha _]. Qed.

Lemma still_lockMaintenance (r : RT) : preserves (still r) (onM (lockMaintenance (re_env E))).
Proof. apply still_later. intros w w' a Ha. by apply lockMaintenance_later in Ha as [Ha _]. Qed.

Lemma still_checkIfRevision (r : RT) (rev : option Z) : preserves (still r) (onM (checkIfRevision rev)).
Proof. apply still_later. intros w w' a Ha. apply checkIfRevision_spec in Ha as [-> _]. apply later_refl. Qed.

Lemma still_admit (r : RT) (key : string) : preserves (still r) (onM (admit_operation (re_env E) key)).
Proof. apply still_later. intros w w' a Ha. apply admit_operation_same in Ha as ->. apply later_refl. Qed.

Lemma still_tick (r : RT) : preserves (still r) (onM Manager.tick).
Proof. apply still_later. intros w w' a [= _ <-]. apply later_ticked. Qed.

Lemma still_ctxErr (r : RT) : preserves (still r) (onM (ctxErr (re_env E))).
Proof. apply still_later. intros w w' a. apply ctxErr_later. Qed.

Lemma still_read_kernel (r : RT) : preserves (still r) (onM (read_kernel (re_env E))).
Proof. apply still_later. intros w w' a Ha. by apply read_kernel_spec in Ha as [Ha _]. Qed.

Lemma still_prepareSettings (r : RT) (f : Settings -> result Settings) : preserves (still r) (onM (prepareSettings f)).
Proof. apply still_later. intros w w' a Ha. apply prepareSettings_same in Ha as ->. apply later_refl. Qed.

Lemma still_capture_config (r : RT) : preserves (still r) (capture_config E).
Proof.
  apply still_step; [|apply saved_capture_config]. intros a b x Hx. by apply capture_config_spec in Hx as [Hq _].
Qed.

Lemma still_read_cache (r : RT) (id : string) : preserves (still r) (read_cache id).
Proof. apply still_step; [|apply saved_read_cache]. intros a b x. apply read_cache_quiet. Qed.

Lemma still_ReadCache (r : RT) (id : string) : preserves (still r) (ReadCache id).
Proof. apply still_step; [|apply saved_ReadCache]. intros a b x. apply ReadCache_quiet. Qed.

Lemma still_prepareCatalogConfigWithSettings (r : RT) (k : Catalog) (s : Settings) (g : Z) :
  preserves (still r) (prepareCatalogConfigWithSettings E k s g).
Proof.
  apply still_step; [|apply saved_prepareCatalogConfigWithSettings]. intros a b x Hx.
  by apply prepareCatalogConfigWithSettings_spec in Hx as [Hq _].
Qed.

Lemma still_cleanup (r : RT) (c : configCandidate) : coherent c -> preserves (still r) (cleanup E c).
Proof. intros Hc. apply still_step; [|apply saved_cleanup]. intros a b [] Hx. by eapply cleanup_quiet. Qed.

#[local] Hint Resolve still_unlock still_lockMutation still_lockMaintenance still_checkIfRevision still_admit still_tick still_ctxErr
  still_read_kernel still_prepareSettings still_capture_config still_read_cache still_ReadCache
  still_prepareCatalogConfigWithSettings still_cleanup : preserves.

Lemma still_loggingCacheHash (r : RT) (id : string) : preserves (still r) (loggingCacheHash id).
Proof. unfold loggingCacheHash. solve_preserves. Qed.

#[local] Hint Resolve still_loggingCacheHash : preserves.

Lemma still_capture_inputs (r : RT) (g : Z) : preserves (still r) (capture_inputs g).
Proof. unfold capture_inputs. solve_preserves. Qed.

Lemma still_observe_old_routing (r : RT) (s : Settings) : preserves (still r) (observe_old_routing E s).
Proof.
  unfold observe_old_routing. solve_preserves; apply still_later; intros w w' x Hx;
    [by apply observeRoutingMode_spec in Hx as [Hx _]|by apply observeGlobal_spec in Hx as [Hx _]].
Qed.

(** *** What other requests may do *)

(** The core runs the file, the catalog is saved and published, and so are the
    settings. *)
Definition sound (r : RT) : Prop := good E r /\ saved r.

(** Other requests keep the invariant and count every change of the settings;
    the 64-bit count does not come round during one request. *)
Record fair_others : Prop := {
  others_sound : forall r, sound r -> sound (re_others E r);
  others_grow : forall r, configGeneration (mgr r) <= configGeneration (mgr (re_others E r));
  others_count : forall r, configGeneration (mgr (re_others E r)) = configGeneration (mgr r) ->
    settings (mgr (re_others E r)) = settings (mgr r)
}.

(** *** Adopting the level of the core *)

Lemma sound_step {A} (m : st RT A) : safe E m -> preserves saved m -> preserves sound m.
Proof. intros Hg Hs r r' a Ha [Hgood Hsaved]. split; [by eapply Hg|by eapply Hs]. Qed.

Lemma sound_later {A} (m : st (Manager FS) A) : (forall w w' a, m w = (a, w') -> later w w') -> preserves sound (onM m).
Proof. intros Hm. apply sound_step; [by apply safe_later|by apply saved_later]. Qed.

Lemma saved_publishLoggingObservation (x : logging_observation) : preserves saved (publishLoggingObservation x : st RT _).
Proof.
  intros r r' [] Hr. unfold publishLoggingObservation in Hr. st_unfold. case_if_in Hr; [by injection Hr as <-|].
  cbn in Hr. by injection Hr as <-.
Qed.

(** A candidate of the settings in memory is saved and published. *)
Lemma saved_adopted (f : Settings -> result Settings) (c : settingsCandidate) (r r1 r2 : RT) (x : option error) :
  onM (prepareSettings f) r = (Ok c, r1) ->
  (let! '(_, err) := onM (saveSettingsCandidate (re_options E) (re_env E) c) in
   match err with
   | Some x => st_ret (Some x)
   | None => do! onM (publishSettings c) in st_ret None
   end) r1 = (x, r2) -> saved r -> saved r2.
Proof.
  intros Hp Hr Hsv. apply onM_inv in Hp as (w & Hp & ->). pose proof (prepareSettings_same _ _ _ _ Hp) as ->.
  apply prepareSettings_spec in Hp as (Hb & _ & _ & Hch & _). apply st_bind_inv in Hr as ([cr err] & r3 & Hs & Hr).
  apply onM_inv in Hs as (w & Hs & ->). eapply save_publish_spec in Hs; [|done|done]. destruct err as [y|].
  - injection Hr as _ <-. destruct Hs as (_ & Hs & _). exact (Hs Hsv).
  - apply st_bind_inv in Hr as ([] & r4 & Hpub & Hr). injection Hr as _ <-. cbn in Hs. destruct Hs as [[_ Hs] _].
    apply onM_inv in Hpub as (w2 & Hpub & ->). unfold publishSettings in *.
    destruct (cand_changed c); cbn [negb] in *; injection Hpub as <-; exact (Hs Hsv).
Qed.

Lemma saved_adopt_level (x : option error) : preserves saved (adopt_level E x).
Proof.
  unfold adopt_level. pose proof saved_publishLoggingObservation as Hpub.
  destruct x as [x|]; [apply preserves_bind; [apply Hpub|solve_preserves]|].
  apply preserves_bind; [apply saved_later; intros w w' a; apply observeLoggingLevel_later|].
  intros [live|x]; [|apply preserves_bind; [apply Hpub|solve_preserves]].
  intros r r' a Hr Hsv. apply st_bind_inv in Hr as (cand & r1 & Hp & Hr). apply st_bind_inv in Hr as (x & r2 & Hx & Hr).
  assert (Hsv2 : saved r2).
  { destruct cand as [cand|y].
    - case_if_in Hx; [|by eapply saved_adopted]. injection Hx as _ <-. eapply saved_later; [|exact Hp|exact Hsv].
      intros w w' b Hb. apply prepareSettings_same in Hb as ->. apply later_refl.
    - injection Hx as _ <-. eapply saved_later; [|exact Hp|exact Hsv].
      intros w w' b Hb. apply prepareSettings_same in Hb as ->. apply later_refl. }
  assert (Hend : forall b (ob : logging_observation) (y : option error),
    preserves saved (do! st_modify (set_unsaved b) in do! publishLoggingObservation ob in st_ret y : st RT _)).
  { intros b ob y. apply preserves_bind; [by intros ? ? [] [= <-]|]. intros _. apply preserves_bind; [apply Hpub|solve_preserves]. }
  destruct x as [x|]; by eapply Hend.
Qed.

Lemma sound_SyncLogging : fair_others -> preserves sound (SyncLogging E).
Proof.
  intros Hf. unfold SyncLogging.
  assert (Hu : preserves sound (onM unlock)) by (apply sound_step; [apply unlock_safe|by apply saved_modifyM]).
  apply preserves_bind; [solve_preserves|]. intros r0. case_if; [solve_preserves|].
  apply preserves_bind; [apply sound_later; intros w w' b Hb; by apply lockMaintenance_later in Hb as [Hb _]|].
  intros [x|]; [solve_preserves|]. apply preserves_bind; [solve_preserves|]. intros r1.
  case_if; [apply preserves_bind; [exact Hu|solve_preserves]|].
  apply preserves_bind; [exact Hu|]. intros _.
  apply preserves_bind; [apply sound_later; intros w w' b; apply observeLoggingLevel_later|]. intros read.
  apply preserves_bind; [intros r r' [] [= <-]; apply Hf|]. intros _.
  apply preserves_bind; [apply sound_later; intros w w' b Hb; by apply lockMutation_spec in Hb as [Hb _]|].
  intros [x|]; [solve_preserves|]. apply preserves_bind; [solve_preserves|]. intros r2.
  apply preserves_bind; [case_if; [solve_preserves|apply sound_step; [apply adopt_level_safe|apply saved_adopt_level]]|].
  intros y. apply preserves_bind; [exact Hu|solve_preserves].
Qed.

(** What a request has seen of the world when it has changed nothing yet. *)
Inductive since (r : RT) : RT -> Prop :=
| since_refl : since r r
| since_still a b : since r a -> still a b -> since r b
| since_others a : since r a -> since r (re_others E a).

Lemma since_sound (r r' : RT) : since r r' -> fair_others -> sound r -> sound r'.
Proof.
  intros Hs Hf Hr. induction Hs as [|a b _ IH [Hq Hs]|a _ IH]; [done| |by apply Hf].
  destruct IH as [Hg Hsv]. split; [by eapply good_quiet|auto].
Qed.

Lemma since_settings (r r' : RT) :
  since r r' -> fair_others ->
  configGeneration (mgr r) <= configGeneration (mgr r') /\
  (configGeneration (mgr r') = configGeneration (mgr r) -> settings (mgr r') = settings (mgr r)).
Proof.
  intros Hs Hf. induction Hs as [|a b _ [IH1 IH2] [Hq _]|a _ [IH1 IH2]]; [done| |].
  - destruct Hq as (_ & _ & _ & Hse & _ & Hg). rewrite Hg, Hse. done.
  - pose proof (others_grow Hf a). pose proof (others_count Hf a) as Hcount. split; [lia|]. intros Hg.
    etransitivity; [apply Hcount; lia|apply IH2; lia].
Qed.

Lemma since_trans (a b c : RT) : since a b -> since b c -> since a c.
Proof. intros Hab Hbc. induction Hbc as [|x y _ IH Hxy|x _ IH]; [done|by eapply since_still|by apply since_others]. Qed.

Lemma since_step {A} (r : RT) (m : st RT A) : (forall r, preserves (still r) m) -> preserves (since r) m.
Proof. intros Hm a b x Hx Hs. eapply since_still; [exact Hs|]. eapply Hm; [exact Hx|apply still_refl]. Qed.

Lemma since_gap (r : RT) : preserves (since r) (gap E).
Proof. intros a b [] [= <-]. apply since_others. Qed.

(** *** Outcomes *)

(** File, running configuration and settings are as before. *)
Definition put_back (r r' : RT) : Prop :=
  config_frame E r r' /\ settings (mgr r') = settings (mgr r) /\ loaded r' = loaded r /\
  active_config E r' = active_config E r /\ (saved r -> saved r').

(** And so is the routing of a managed core. *)
Definition restored (r r' : RT) : Prop :=
  put_back r r' /\
  (Settings.Routing (settings (mgr r)) <> None ->
   core_at (live_mode (kernel (mgr r))) (live_now (kernel (mgr r))) (kernel (mgr r'))).

(** The daemon refuses mutations and says so. *)
Definition fenced (r : RT) : Prop :=
  mutationDegraded (mgr r) = true /\ Health (store (mgr r)) = "degraded"%string.

Lemma still_put_back (r r' : RT) : still r r' -> put_back r r'.
Proof. intros [(Hf & Ha & Hl & Hs & Hk & _) Hsv]. done. Qed.

Lemma put_back_trans (a b c : RT) : put_back a b -> put_back b c -> put_back a c.
Proof.
  intros (Hf & Hs & Hl & Ha & Hsv) (Hf' & Hs' & Hl' & Ha' & Hsv').
  split_and!; [by eapply config_frame_trans|congruence..|auto].
Qed.

Lemma still_restored (r r' : RT) : still r r' -> restored r r'.
Proof. intros Hst. split; [by apply still_put_back|]. destruct Hst as [(_ & _ & _ & _ & Hk & _) _]. intros _. by rewrite Hk. Qed.

Lemma restored_still (a b c : RT) : restored a b -> still b c -> restored a c.
Proof.
  intros [Hp Hr] Hst. split; [eapply put_back_trans; [done|by apply still_put_back]|].
  destruct Hst as [(_ & _ & _ & _ & Hk & _) _]. intros Hn. rewrite Hk. auto.
Qed.

Lemma good_frame (r r' : RT) : config_frame E r r' -> in_step E r' -> good E r -> good E r'.
Proof.
  intros Hf Hstep (_ & Hp & Hok & Hst & Hact). pose proof Hf as (Hset & Hc & _ & Hstore). unfold good. rewrite Hc, Hstore.
  split; [done|]. split; [by eapply paths_ok_setup|]. split; [done|]. split; [by eapply stored_frame|done].
Qed.

Lemma put_back_sound (r r' : RT) : put_back r r' -> sound r -> sound r'.
Proof.
  intros (Hf & Hs & Hl & Ha & Hsv) [Hg Hsd]. split; [|auto]. eapply good_frame; [done| |done].
  destruct Hg as [Hstep _]. unfold in_step in *. congruence.
Qed.

Lemma restored_sound (r r' : RT) : restored r r' -> sound r -> sound r'.
Proof. intros [Hp _]. by apply put_back_sound. Qed.

Lemma fenced_unlocked (r r' : RT) : onM unlock r = (tt, r') -> fenced r -> fenced r'.
Proof. intros Hu [Hd Hh]. apply onM_inv in Hu as (m' & [= <-] & ->). done. Qed.

Lemma fenced_cleaned (c : configCandidate) (r r' : RT) : cleanup E c r = (tt, r') -> fenced r -> fenced r'.
Proof. intros Hc Hf. apply cleanup_mgr in Hc. unfold fenced. by rewrite Hc. Qed.

(** *** Taking a change back *)

Lemma observe_old_routing_spec (s : Settings) (r r' : RT) (mode exit : string) :
  observe_old_routing E s r = (Ok (mode, exit), r') ->
  Settings.Routing s <> None -> mode <> ""%string /\ mode = live_mode (kernel (mgr r)) /\ exit = live_now (kernel (mgr r)).
Proof.
  unfold observe_old_routing. intros Hr Hs. destruct (Settings.Routing s); [|done].
  apply st_try_inv in Hr as [(x & ? & _)|(m & r1 & Hm & Hr)]; [done|].
  apply st_try_inv in Hr as [(x & ? & _)|(g & r2 & Hg & Hr)]; [done|]. injection Hr as <- <- _.
  apply onM_inv in Hm as (w1 & Hm & ->). apply onM_inv in Hg as (w2 & Hg & ->).
  pose proof Hm as Hv. apply observeRoutingMode_spec in Hm as [[n Hn] Hm]. specialize (Hm _ eq_refl).
  apply observeGlobal_spec in Hg as [_ Hg]. specialize (Hg _ eq_refl). subst w1. cbn in Hm, Hg.
  split; [|split; [done|unfold live_now; by rewrite Hg]].
  intros ->. unfold observeRoutingMode in Hv. case_if_in Hv; [by injection Hv|].
  apply st_try_inv in Hv as [(x & ? & _)|(k & w & _ & Hv)]; [done|]. case_if_in Hv; [|by injection Hv].
  injection Hv as Hlive _. rewrite Hlive in Heqb0. done.
Qed.

Lemma restore_routing_spec (mode exit : string) (r r' : RT) (x : option error) :
  restore_routing E mode exit r = (x, r') ->
  config_frame E r r' /\ active_config E r' = active_config E r /\ loaded r' = loaded r /\
  settings (mgr r') = settings (mgr r) /\ (saved r -> saved r') /\
  (x = None -> mode <> ""%string -> core_at mode exit (kernel (mgr r'))).
Proof.
  unfold restore_routing. intros Hr. case_if_in Hr.
  { injection Hr as <- <-. apply String.eqb_eq in Heqb. split; [apply config_frame_refl|done]. }
  pose proof (saved_applyRoutingLive mode exit _ _ _ Hr) as Hsv.
  pose proof Hr as Hf. apply onM_frame with (E := E) in Hf as (Hf & Ha & Hl).
  2:{ intros w w' b Hb. by apply applyRoutingLive_spec in Hb as [(k & n & ->) _]. }
  apply onM_inv in Hr as (w & Hr & ->). apply applyRoutingLive_spec in Hr as [(k & n & ->) Hr].
  do 3 (split; [done|]). split; [done|]. split; [done|]. intros -> _. by apply Hr.
Qed.

Lemma restore_settings_spec (before : Settings) (r r' : RT) (x : option error) :
  restore_settings E before r = (x, r') ->
  config_frame E r r' /\ active_config E r' = active_config E r /\ loaded r' = loaded r /\
  kernel (mgr r') = kernel (mgr r) /\ (saved r -> saved r') /\ (x = None -> settings (mgr r') = before).
Proof.
  unfold restore_settings. intros Hr. unfold st_bind at 1, st_get in Hr. cbn beta iota in Hr. case_if_in Hr.
  { injection Hr as <- <-. apply bool_decide_eq_true in Heqb. split; [apply config_frame_refl|done]. }
  apply st_bind_inv in Hr as ([cr y] & r1 & Hs & Hr). injection Hr as <- <-.
  pose proof Hs as Hf. apply onM_frame with (E := E) in Hf as (Hf & Ha & Hl).
  2:{ intros w w' [b z] Hb. by apply restoreSettings_spec in Hb as [(? & ? & ? & ? & ->) _]. }
  apply onM_inv in Hs as (w & Hs & ->). apply restoreSettings_spec in Hs as (Hframe & Hp & Hs).
  destruct Hframe as (? & ? & ? & ? & ->). do 4 (split; [done|]). split; [exact Hp|]. by intros ->.
Qed.

(** The end of a failed recovery. *)
Lemma raise_fence_spec (r r' : RT) : raise_fence E r = (tt, r') -> mutationDegraded (mgr r') = true.
Proof.
  unfold raise_fence. intros Hr. apply st_bind_inv in Hr as ([] & r1 & Hd & Hr).
  apply onM_inv in Hd as (w & [= <-] & ->). by apply onM_inv in Hr as (w & [= <-] & ->).
Qed.

Lemma markConfigDegraded_fenced (x : error) (r r' : RT) :
  markConfigDegraded E x r = (tt, r') -> error_degraded x = true -> mutationDegraded (mgr r) = true -> fenced r'.
Proof.
  intros Hm Hx Hd. pose proof Hm as Hrep. apply markConfigDegraded_spec in Hrep. rewrite Hx in Hrep.
  destruct Hrep as (Hh & _ & _). split; [|done]. unfold markConfigDegraded in Hm. rewrite Hx in Hm. cbn [negb] in Hm.
  apply st_bind_inv in Hm as ([] & r1 & Hst & Hm). assert (mutationDegraded (mgr r1) = true).
  { case_if_in Hst; [by apply onM_inv in Hst as (w & [= <-] & ->)|by injection Hst as <-]. }
  st_unfold. cbn in Hm. by injection Hm as <-.
Qed.

(** *** Saving *)

(** Publishing the candidate makes memory agree with the file. *)
Definition staged (c : settingsCandidate) (r : RT) : Prop :=
  forall r', onM (publishSettings c) r = (tt, r') -> settings (mgr r') = cand_after c /\ saved r'.

Lemma save_spec (c : settingsCandidate) (r r' : RT) (cr : CommitResult) (x : option error) :
  onM (saveSettingsCandidate (re_options E) (re_env E) c) r = ((cr, x), r') ->
  cand_before c = settings (mgr r) -> cand_changed c = changed (cand_before c) (cand_after c) -> saved r ->
  config_frame E r r' /\ active_config E r' = active_config E r /\ loaded r' = loaded r /\
  kernel (mgr r') = kernel (mgr r) /\ settings (mgr r') = settings (mgr r) /\
  match x with None => staged c r' | Some _ => saved r' end.
Proof.
  intros Hs Hb Hc Hsv. pose proof Hs as Hf. apply onM_frame with (E := E) in Hf as (Hf & Ha & Hl).
  2:{ intros w w' [b z] Hbz. by apply saveSettingsCandidate_spec in Hbz as (n & f & -> & _). }
  apply onM_inv in Hs as (w & Hs & ->). pose proof Hs as Hw. apply saveSettingsCandidate_spec in Hw as (n & f & -> & _).
  do 5 (split; [done|]). eapply save_publish_spec in Hs; [|done|done].
  destruct x as [x|]; [destruct Hs as (_ & Hp & _); by apply Hp|]. cbn in Hs.
  intros r2 Hr2. apply onM_inv in Hr2 as (w2 & Hp & ->). destruct Hs as [[Hs1 Hs2] _].
  unfold publishSettings in Hp, Hs1, Hs2. destruct (cand_changed c); cbn [negb] in *; injection Hp as <-;
    (split; [exact Hs1|exact (Hs2 Hsv)]).
Qed.

Lemma publish_frame (c : settingsCandidate) (r r' : RT) :
  onM (publishSettings c) r = (tt, r') ->
  svc r' = svc r /\ trusted r' = trusted r /\ loaded r' = loaded r /\ store (mgr r') = store (mgr r) /\
  kernel (mgr r') = kernel (mgr r).
Proof.
  intros Hp. apply onM_inv in Hp as (w & Hp & ->). unfold publishSettings in Hp. by case_if_in Hp; injection Hp as <-.
Qed.

(** What the core runs and what is saved is the same. *)
Definition same_world (r r' : RT) : Prop :=
  svc r' = svc r /\ trusted r' = trusted r /\ loaded r' = loaded r /\ kernel (mgr r') = kernel (mgr r).

Lemma same_world_active (r r' : RT) : same_world r r' -> active_config E r' = active_config E r.
Proof. intros (Hs & Ht & _). unfold active_config. by rewrite Hs, Ht. Qed.

(** Publishing the settings, and then a snapshot. *)
Lemma publish_sound (c : settingsCandidate) (r r' : RT) :
  onM (publishSettings c) r = (tt, r') -> staged c r -> good E r ->
  sound r' /\ settings (mgr r') = cand_after c /\ store (mgr r') = store (mgr r) /\ same_world r r'.
Proof.
  intros Hp Hst Hg. destruct (Hst _ Hp) as [Hs Hsv]. apply publish_frame in Hp as (Hsvc & Ht & Hl & Hstore & Hk).
  split; [|done]. split; [|done]. eapply good_calm; [|exact Hg]. split_and!; [done..|by rewrite Hstore].
Qed.

Lemma snapshot_sound (f : Snapshot -> Snapshot) (meta : CommandMeta) (r r' : RT) (res : Snapshot * option error) :
  Do None meta (fun s => st_ret (f s, None)) r = (res, r') -> fresh (IfRevision meta) (mgr r) ->
  (forall s, ActiveSubscription (f s) = ActiveSubscription s) -> sound r ->
  snd res = None /\ sound r' /\ settings (mgr r') = settings (mgr r) /\ same_world r r'.
Proof.
  intros Hd Hfr Hf [Hg Hsv]. unfold Do in Hd. st_unfold. cbn in Hd.
  assert (Hstale : (match IfRevision meta with Some n => negb (n =? Revision (store (mgr r))) | None => false end) = false).
  { destruct (IfRevision meta) as [n|] eqn:Hi; [|done]. by rewrite (Hfr n), Z.eqb_refl. }
  rewrite Hstale in Hd. injection Hd as <- <-. split; [done|]. split; [|done]. split; [|exact Hsv].
  eapply good_calm; [|exact Hg]. split_and!; try done. cbn. by rewrite Hf.
Qed.

End Lemmas.

#[export] Hint Resolve still_unlock still_lockMutation still_lockMaintenance still_checkIfRevision still_admit still_tick still_ctxErr
  still_read_kernel still_prepareSettings still_capture_config still_read_cache still_ReadCache
  still_prepareCatalogConfigWithSettings still_cleanup still_loggingCacheHash still_capture_inputs
  still_observe_old_routing : preserves.

(** A step after which a request has still changed nothing. *)
Ltac since_in H :=
  match type of H with
  | ?m ?a = (?x, ?b) =>
      match goal with
      | Hs : since ?E ?r a |- _ =>
          let H' := fresh in
          assert (H' : since E r b) by
            (first [exact (since_gap E r _ _ _ H Hs) | refine (since_step E r m _ a b x H Hs); intros; auto with preserves]);
          clear H; rename H' into H
      end
  end.

Section Requests.
Context `{CaseFold} `{SourceSyntax} `{CatalogYAML} `{DocumentYAML} `{PEM} `{Sha256}
  {Env FS AEnv W : Type} `{SettingsFile Env FS} `{AtomicFile AEnv W} (E : rt_env Env FS AEnv W).

Abbreviation RT := (Runtime FS AEnv W).

Lemma capture_inputs_generation (g : Z) (r r' : RT) (i : captured) : capture_inputs g r = (Ok i, r') -> in_generation i = g.
Proof.
  unfold capture_inputs. intros Hr. unfold st_bind at 1, st_get in Hr. cbn beta iota in Hr.
  apply st_try_inv in Hr as [(x & ? & _)|(h & r1 & _ & Hr)]; [done|]. by injection Hr as <- _.
Qed.

Lemma validate_unowned_spec (recheck : st RT (option error)) (c : settingsCandidate) (i : captured) (r r' : RT)
    (res : result configCandidate) :
  validate_unowned E recheck c i r = (res, r') -> (forall r, preserves (still E r) recheck) ->
  since E r r' /\
  forall g, res = Ok g -> coherent g /\ (exists r0, recheck r0 = (None, r')) /\
    exists d, Generate d ∅ (cand_after c) = Ok (c_content g).
Proof.
  unfold validate_unowned. intros Hr Hstill. pose proof (since_refl E r) as Hs.
  apply st_bind_inv in Hr as ([] & r1 & Hu & Hr). since_in Hu.
  apply st_bind_inv in Hr as ([] & r2 & Hg & Hr). since_in Hg.
  apply st_try_inv in Hr as [(x & -> & Hp)|(g & r3 & Hp & Hr)]; pose proof Hp as Hgen; since_in Hp; [by split|].
  apply prepareCatalogConfigWithSettings_spec in Hgen as [_ Hgen]. destruct (Hgen g eq_refl) as [Hco Hd].
  apply st_bind_inv in Hr as ([] & r4 & Hg2 & Hr). since_in Hg2.
  apply st_bind_inv in Hr as (x & r5 & Hl & Hr). since_in Hl. destruct x as [x|].
  { apply st_bind_inv in Hr as ([] & r6 & Hcl & Hr). since_in Hcl. injection Hr as <- <-. by split. }
  apply st_bind_inv in Hr as (x & r6 & Hre & Hr). pose proof Hre as Hre'. since_in Hre. destruct x as [x|].
  { apply st_bind_inv in Hr as ([] & r7 & Hcl & Hr). since_in Hcl.
    apply st_bind_inv in Hr as ([] & r8 & Hu2 & Hr). since_in Hu2. injection Hr as <- <-. by split. }
  injection Hr as <- <-. split; [done|]. intros g' [= <-]. eauto.
Qed.

(** A request that was refused before it changed anything. *)
Lemma refused_restored (r r1 : RT) :
  since E r r1 -> fair_others E -> sound E r -> since E r r1 /\ sound E r1 /\ restored E r1 r1.
Proof. intros Hs Hf Hso. split; [done|]. split; [by eapply since_sound|]. apply still_restored, still_refl. Qed.

(** The end of a request: the candidate is removed and ownership returned. *)
Lemma finish_still (g : option configCandidate) (r r1 r2 : RT) :
  match g with Some g => cleanup E g | None => st_ret tt end r = (tt, r1) -> onM unlock r1 = (tt, r2) ->
  (forall g', g = Some g' -> coherent g') -> still E r r2 /\ (fenced r -> fenced r2).
Proof.
  intros Hcl Hu Hco. split.
  - eapply still_unlock; [exact Hu|]. destruct g as [g|]; [|by injection Hcl as <-; apply still_refl].
    eapply still_cleanup; [by apply Hco|exact Hcl|apply still_refl].
  - intros Hf. eapply fenced_unlocked; [exact Hu|]. destruct g as [g|]; [by eapply fenced_cleaned|by injection Hcl as <-].
Qed.

End Requests.
