(* ===== verification/Egress.v ===== *)
(** * Egress: the outbound interface

    Models [internal/runtime/egress.go] and the types of
    [internal/control/protocol/egress.go].  The saved interface is bound into the
    generated configuration, so a change goes through the configuration
    transaction; the interface the core reports afterwards confirms it.

    - The adapters of the machine are the environment's, at every enumeration.
    - Closing connections changes nothing that the model of the core holds.
    - What YAML makes of a subscription's "tun" as a structure with a device is
      [ee_device]. *)

From S2P Require Import Prelude GoStd SelfUpdate Atomic State Settings Catalog SubService TrustedConfig Generator FileRefs.
From S2P Require Import Manager Routing RuntimeConfig CoreTx.

(** [platform.NetworkInterface]. *)
Record NetworkInterface := mkNetworkInterface {
  ni_Name : string;
  ni_Kind : string;
  ni_Availability : string;
  ni_Addresses : list string;
  ni_Description : string
}.

(** [protocol.EgressInterface]. *)
Record EgressItem := mkEgressItem {
  ei_Name : string;
  ei_Kind : string;
  ei_Availability : string;
  ei_Addresses : list string;
  ei_Selectable : bool;
  ei_Reason : string;
  ei_Device : string
}.

Record EgressSelection := mkEgressSelection {
  sel_Mode : string;
  sel_InterfaceName : string
}.

Record EgressStatus := mkEgressStatus {
  es_Revision : Z;
  es_Selection : EgressSelection;
  es_State : string;
  es_Interfaces : list EgressItem
}.

Record egress_env := mkEgressEnv {
  ee_interfaces : nat -> result (list NetworkInterface);
  ee_device : any -> option string
}.

Definition ValidEgressSelection (mode name : string) : bool :=
  String.eqb mode "automatic" && String.eqb name "" || String.eqb mode "manual" && negb (String.eqb name "").

Definition egressSelection (name : string) : EgressSelection :=
  if String.eqb name "" then mkEgressSelection "automatic" "" else mkEgressSelection "manual" name.

Definition own_tun_reason : string := "Mihari's own TUN interface".

Definition or_unknown (s : string) : string := if String.eqb s "" then "unknown" else s.

(** One adapter in the list. *)
Definition egress_item (own : string) (a : NetworkInterface) : EgressItem :=
  let selectable := negb (String.eqb (ni_Name a) own) in
  mkEgressItem (ni_Name a) (or_unknown (ni_Kind a)) (or_unknown (ni_Availability a)) (ni_Addresses a) selectable
    (if selectable then "" else own_tun_reason) (ni_Description a).

(** The saved interface, when no adapter has its name. *)
Definition missing_item (own saved : string) : EgressItem :=
  let selectable := negb (String.eqb saved own) in
  mkEgressItem saved "unknown" "not_found" [] selectable (if selectable then "" else own_tun_reason) "".

(** [sort.Slice] by name. *)
Fixpoint insert_item (x : EgressItem) (l : list EgressItem) : list EgressItem :=
  match l with
  | [] => [x]
  | y :: l' => if String.ltb (ei_Name x) (ei_Name y) then x :: l else y :: insert_item x l'
  end.

Definition sort_items (l : list EgressItem) : list EgressItem := foldl (fun acc x => insert_item x acc) [] l.

Definition egress_items (own saved : string) (adapters : list NetworkInterface) : list EgressItem :=
  let found := existsb (fun a => String.eqb (ni_Name a) saved) adapters in
  sort_items (map (egress_item own) adapters
              ++ (if negb (String.eqb saved "") && negb found then [missing_item own saved] else [])).

Definition egressArgument (message : string) : error := api_error CodeInvalidArgument message.

Definition validateEgressCandidate (status : EgressStatus) (s : EgressSelection) : option error :=
  if negb (ValidEgressSelection (sel_Mode s) (sel_InterfaceName s)) then
    Some (egressArgument "invalid outbound interface selection")
  else if String.eqb (sel_Mode s) "automatic" then None
  else match List.find (fun i => String.eqb (ei_Name i) (sel_InterfaceName s)) (es_Interfaces status) with
  | Some i =>
      if ei_Selectable i then None
      else Some (egressArgument "Mihari's own TUN cannot be used as outbound interface")
  | None => Some (egressArgument "outbound interface is not in the current or saved interface list")
  end.

(** [document["interface-name"].(string)]. *)
Definition interface_name (d : gmap string any) : option string :=
  match d !! "interface-name"%string with Some (AString s) => Some s | _ => None end.

(** [document["tun"].(map[string]any)["device"].(string)], when not empty. *)
Definition tun_device (d : gmap string any) : option string :=
  match d !! "tun"%string with
  | Some (AMap l) =>
      match member l "device" with
      | Some (AString s) => if String.eqb s "" then None else Some s
      | _ => None
      end
  | _ => None
  end.

(** The mapping a configuration decodes to; an empty one is the nil mapping. *)
Definition decode_config `{DocumentYAML} (content : string) : result (gmap string any) :=
  match doc_Unmarshal content with
  | Err x => Err x
  | Ok d => Ok (default ∅ d)
  end.

Definition set_EgressInterface (name : string) (s : Settings) : Settings :=
  mkSettings name (Settings.Routing s) (Settings.Schema s) (MixedAddr s) (ControllerAddr s) (WebAddr s)
    (ControllerSecret s) (SystemProxyDesired s) (Tun s) (CoreChannel s) (CoreChannelBundle s) (Logging s).

Section Egress.
Context `{CaseFold} `{SourceSyntax} `{CatalogYAML} `{DocumentYAML} `{PEM} `{Sha256}
  {Env FS AEnv W : Type} `{SettingsFile Env FS} `{AtomicFile AEnv W} (E : rt_env Env FS AEnv W) (X : egress_env).

Abbreviation R := (st (Runtime FS AEnv W)).
Abbreviation o := (re_options E).
Abbreviation e := (re_env E).

(** The device of the active subscription's "tun". *)
Definition cached_device : R (option string) :=
  let! r := st_get in
  let id := ActiveID (catalog (svc r)) in
  if String.eqb id "" then st_ret None
  else
    let! d := ReadCache id in
    st_ret match d with
           | Err _ => None
           | Ok d => match ee_device X (default ANull (d !! "tun"%string)) with
                     | Some s => if String.eqb s "" then None else Some s
                     | None => None
                     end
           end.

Definition egressOwnTun (live : gmap string any) : R string :=
  match tun_device live with
  | Some name => do! st_modify (set_egressTunName name) in st_ret name
  | None =>
      let! content := capture_config E in
      match match content with Ok c => match decode_config c with Ok d => tun_device d | Err _ => None end | Err _ => None end with
      | Some name => st_ret name
      | None =>
          let! cached := cached_device in
          let! r := st_get in
          st_ret (default (egressTunName r) cached)
      end
  end.

(** Which interface the configuration asks for, and whether that is known. *)
Definition wanted_interface (saved : string) : R (string * bool) :=
  if negb (String.eqb saved "") then st_ret (saved, true)
  else
    let! content := capture_config E in
    st_ret match content with
           | Err _ => (saved, false)
           | Ok c => match decode_config c with
                     | Err _ => (saved, false)
                     | Ok d => (default ""%string (interface_name d), true)
                     end
           end.

(** What the core reports, and the state shown for it. *)
Definition observe_egress (saved : string) : R (string * gmap string any) :=
  let! r := st_get in
  if routingCoreStopped (mgr r) then st_ret ("saved"%string, ∅)
  else if negb (has_controller o) then st_ret ("unknown"%string, ∅)
  else
    let! k := onM (read_kernel e) in
    match k with
    | Err _ => st_ret ("unknown"%string, ∅)
    | Ok k =>
        let live := k_Configs k in
        if mutationDegraded (mgr r) then st_ret ("unknown"%string, live)
        else
          let! '(want, known) := wanted_interface saved in
          st_ret (match interface_name live with
                  | Some actual => if known && String.eqb actual want then "applied" else "unknown"
                  | None => "unknown"
                  end%string, live)
    end.

Definition egressStatus : R (EgressStatus * option error) :=
  let! r := st_get in
  let saved := EgressInterface (settings (mgr r)) in
  let revision := Revision (store (mgr r)) in
  let! n := onM Manager.tick in
  match ee_interfaces X n with
  | Err x =>
      st_ret (mkEgressStatus revision (egressSelection saved) "unknown" [],
              Some (diagnostics_Wrap (mkAPIError CodeDataFailure "enumerate outbound interfaces" false) (Some x)))
  | Ok adapters =>
      let! '(state, live) := observe_egress saved in
      let! own := egressOwnTun live in
      st_ret (mkEgressStatus revision (egressSelection saved) state (egress_items own saved adapters), None)
  end.

Definition ReadEgressStatus : R (result EgressStatus) :=
  check! onM (lockMaintenance e) in
  let! '(s, err) := egressStatus in
  do! onM unlock in
  st_ret match err with Some x => Err x | None => Ok s end.

(** The core uses the interface that the configuration names. *)
Definition confirmEgressConfig (content : string) : R (option error) :=
  let unconfirmed := mkAPIError CodeUpstreamFailure "outbound interface apply could not be confirmed" false in
  match decode_config content with
  | Err x => st_ret (Some (diagnostics_Wrap (mkAPIError CodeDataFailure "parse outbound configuration for confirmation" false) (Some x)))
  | Ok expected =>
      let! live := onM (read_kernel e) in
      st_ret match live with
             | Err x => Some (diagnostics_Wrap unconfirmed (Some x))
             | Ok k =>
                 match interface_name (k_Configs k) with
                 | Some actual =>
                     if String.eqb actual (default ""%string (interface_name expected)) then None else Some (EAPI unconfirmed)
                 | None => Some (EAPI unconfirmed)
                 end
             end
  end.

Definition recovery_failed : APIError :=
  degraded_api CodeDataFailure "outbound interface recovery could not be confirmed; restart required".

(** [compensate] of [commitEgress]. *)
Definition compensate_egress (previous : string) (before : Settings) (oldMode oldExit : string) (cause : error) : R error :=
  let! x := restoreRoutingConfig E previous in
  let! x := match x with None => confirmEgressConfig previous | Some x => st_ret (Some x) end in
  let! y := restore_routing E oldMode oldExit in
  let! z := restore_settings E before in
  match errors_Join (errors_Join x y) z with
  | None => st_ret cause
  | Some x =>
      do! raise_fence E in
      let cause := diagnostics_Wrap recovery_failed (errors_Join (Some cause) (Some x)) in
      do! markConfigDegraded E cause in
      st_ret cause
  end.

(** [controller.CloseAllConnections]. *)
Definition close_connections : R (option error) :=
  let! n := onM Manager.tick in
  st_ret match read_err e n with
         | Some x => Some (diagnostics_Wrap (mkAPIError CodeUpstreamFailure "close active connections after outbound change" false) (Some x))
         | None => None
         end.

(** The changes of [commitEgress], core first, settings last. *)
Definition apply_egress (c : settingsCandidate) (g : configCandidate) : R (result settingsCandidate) :=
  check! commitRuntimeConfig E false g in
  check! confirmEgressConfig (c_content g) in
  check! close_connections in
  try! c' := onM (prepareSettings (fun s => Ok (set_EgressInterface (EgressInterface (cand_after c)) s))) in
  let! '(_, err) := onM (saveSettingsCandidate o e c') in
  st_ret match err with Some x => Err x | None => Ok c' end.

Definition commitEgress (c : settingsCandidate) (g : configCandidate) : R (result settingsCandidate) :=
  let! r := st_get in
  if loggingUnsaved r then
    st_ret (Err (loggingCoreError "save the observed core logging level before reloading configuration" None))
  else
    let! previous := capture_config E in
    match previous with
    | Err x => st_ret (Err (diagnostics_Wrap (mkAPIError CodeDataFailure "capture previous outbound configuration" false) (Some x)))
    | Ok previous =>
        try! '(oldMode, oldExit) := observe_old_routing E (cand_before c) in
        let! a := apply_egress c g in
        match a with
        | Ok c' => st_ret (Ok c')
        | Err x => let! x := compensate_egress previous (cand_before c) oldMode oldExit x in st_ret (Err x)
        end
    end.

(** Reads the status and checks the selection against it. *)
Definition check_selection (s : EgressSelection) : R (option error) :=
  let! '(status, err) := egressStatus in
  st_ret match err with Some x => Some x | None => validateEgressCandidate status s end.

(** The steps of [prepareEgress] under the first ownership: a candidate, and
    the inputs when a configuration is needed. *)
Definition plan_egress (op : Operation) (s : EgressSelection) : R (result (settingsCandidate * option captured)) :=
  check! onM (checkIfRevision (op_IfRevision op)) in
  check! check_selection s in
  try! c := onM (prepareSettings (fun x => Ok (set_EgressInterface (sel_InterfaceName s) x))) in
  let! r := st_get in
  if negb (cand_changed c) || routingCoreStopped (mgr r) then st_ret (Ok (c, None))
  else if negb (core_running r) then st_ret (Err (api_error CodeInvalidState "core is not ready for outbound interface changes"))
  else try! i := capture_inputs (cand_generation c) in st_ret (Ok (c, Some i)).

(** The steps under the second ownership. *)
Definition recheck_egress (op : Operation) (s : EgressSelection) (i : captured) : R (option error) :=
  let! hash := loggingCacheHash (ActiveID (in_catalog i)) in
  match hash with
  | Err x => st_ret (Some x)
  | Ok hash =>
      let! r := st_get in
      if negb (inputs_same i hash r) then st_ret (Some routingConflict)
      else
        let! x := onM (checkIfRevision (op_IfRevision op)) in
        match x with Some x => st_ret (Some x) | None => check_selection s end
  end.

(** [prepareEgress] returns ownership on every failure. *)
Definition prepareEgress (op : Operation) (s : EgressSelection) : R (result (settingsCandidate * configCandidate)) :=
  check! onM (lockMutation o e) in
  let! plan := plan_egress op s in
  match plan with
  | Err x => do! onM unlock in st_ret (Err x)
  | Ok (c, None) => st_ret (Ok (c, zero_configCandidate))
  | Ok (c, Some i) => try! g := validate_unowned E (recheck_egress op s i) c i in st_ret (Ok (c, g))
  end.

(** The operation while it owns the mutation. *)
Definition perform_egress (op : Operation) (c : settingsCandidate) (g : configCandidate) : R (result EgressStatus) :=
  if negb (cand_changed c) then
    let! '(s, err) := egressStatus in st_ret match err with Some x => Err x | None => Ok s end
  else
    let! r := st_get in
    try! c := (if negb (routingCoreStopped (mgr r)) then commitEgress c g
               else let! '(_, err) := onM (saveSettingsCandidate o e c) in
                    st_ret match err with Some x => Err x | None => Ok c end) in
    do! onM (publishSettings c) in
    let! r := st_get in
    let! '(_, err) := Do None (mkCommandMeta (op_ID op) (op_Source op) None)
                        (fun s => st_ret ((if negb (routingCoreStopped (mgr r)) then markConfigApplied s else s), None)) in
    match err with
    | Some x => st_ret (Err x)
    | None =>
        let! '(s, err) := egressStatus in
        let! r := st_get in
        st_ret (Ok match err with
                   | None => s
                   | Some _ => mkEgressStatus (Revision (store (mgr r))) (egressSelection (EgressInterface (cand_after c)))
                                 (es_State s) (es_Interfaces s)
                   end)
    end.

Definition UpdateEgress (op : Operation) (s : EgressSelection) : R (result EgressStatus) :=
  if String.eqb (op_ID op) "" then st_ret (Err (egressArgument "operation ID is required"))
  else
    check! onM (admit_operation e ("egress:" ++ op_ID op)%string) in
    try! '(c, g) := prepareEgress op s in
    let! res := perform_egress op c g in
    do! cleanup E g in
    do! onM unlock in
    st_ret res.

End Egress.

(** ** Lemmas *)

Section Lemmas.
Context `{CaseFold} `{SourceSyntax} `{CatalogYAML} `{DocumentYAML} `{PEM} `{Sha256}
  {Env FS AEnv W : Type} `{SettingsFile Env FS} `{AtomicFile AEnv W} (E : rt_env Env FS AEnv W) (X : egress_env).

Abbreviation RT := (Runtime FS AEnv W).

(** *** Reading the status changes nothing *)

Lemma still_tunName (r : RT) (name : string) : preserves (still E r) (st_modify (set_egressTunName name)).
Proof. apply preserves_modify. intros a [Hq Hs]. split; [by eapply quiet_trans|exact Hs]. Qed.

#[local] Hint Resolve still_tunName : preserves.

Lemma still_egressStatus (r : RT) : preserves (still E r) (egressStatus E X).
Proof. unfold egressStatus, observe_egress, wanted_interface, egressOwnTun, cached_device. solve_preserves. Qed.

#[local] Hint Resolve still_egressStatus : preserves.

Lemma still_check_selection (r : RT) (s : EgressSelection) : preserves (still E r) (check_selection E X s).
Proof. unfold check_selection. solve_preserves. Qed.

#[local] Hint Resolve still_check_selection : preserves.

Lemma still_confirm (r : RT) (content : string) : preserves (still E r) (confirmEgressConfig E content).
Proof. unfold confirmEgressConfig. solve_preserves. Qed.

Lemma still_close (r : RT) : preserves (still E r) (close_connections E).
Proof. unfold close_connections. solve_preserves. Qed.

Lemma still_plan (r : RT) (op : Operation) (s : EgressSelection) : preserves (still E r) (plan_egress E X op s).
Proof. unfold plan_egress. solve_preserves. Qed.

Lemma still_recheck (r : RT) (op : Operation) (s : EgressSelection) (i : captured) : preserves (still E r) (recheck_egress E X op s i).
Proof. unfold recheck_egress. solve_preserves. Qed.

#[local] Hint Resolve still_plan still_recheck : preserves.

(** *** The commit *)

(** The core reports the interface that the configuration names. *)
Definition bound_to (content : string) (k : Kernel) : Prop :=
  exists d, decode_config content = Ok d /\ interface_name (k_Configs k) = Some (default ""%string (interface_name d)).

Lemma confirm_spec (content : string) (r r' : RT) :
  confirmEgressConfig E content r = (None, r') -> bound_to content (kernel (mgr r)).
Proof.
  unfold confirmEgressConfig. destruct (decode_config content) as [d|] eqn:Hd; [|done]. intros Hr.
  apply st_bind_inv in Hr as (k & r1 & Hk & Hr). apply onM_inv in Hk as (w & Hk & ->).
  apply read_kernel_spec in Hk as [_ Hk]. destruct k as [k|]; [|done]. rewrite (Hk k eq_refl) in Hr. cbn in Hr.
  exists d. split; [done|]. destruct (interface_name (k_Configs (kernel (mgr r)))) as [actual|]; [|done].
  destruct (String.eqb_spec actual (default ""%string (interface_name d))) as [Heq|]; [by rewrite <- Heq|by injection Hr].
Qed.

Lemma compensate_egress_spec (previous : string) (before : Settings) (oldMode oldExit : string) (cause x : error) (r r' : RT) :
  compensate_egress E previous before oldMode oldExit cause r = (x, r') ->
  error_degraded x = true /\ fenced r' \/
  config_frame E r r' /\ active_config E r' = Some previous /\ loaded r' = Some previous /\
  settings (mgr r') = before /\ (saved E r -> saved E r') /\ (oldMode <> ""%string -> core_at oldMode oldExit (kernel (mgr r'))).
Proof.
  unfold compensate_egress. intros Hr.
  apply st_bind_inv in Hr as (a & r1 & Ha & Hr). pose proof (saved_restoreRoutingConfig E _ _ _ _ Ha) as Hsv1.
  apply restoreRoutingConfig_spec in Ha as (Hf1 & Hs1 & Hok1).
  apply st_bind_inv in Hr as (b & r2 & Hb & Hr).
  assert (Hstill : still E r1 r2 /\ (b = None -> a = None)).
  { destruct a as [a|]; [injection Hb as <- <-; split; [apply still_refl|done]|].
    split; [eapply still_confirm; [exact Hb|apply still_refl]|done]. }
  destruct Hstill as [[(Hf2 & Ha2 & Hl2 & Hs2 & _) Hsv2] Hab].
  apply st_bind_inv in Hr as (y & r3 & Hy & Hr). apply restore_routing_spec in Hy as (Hf3 & Ha3 & Hl3 & Hs3 & Hsv3 & Hy).
  apply st_bind_inv in Hr as (z & r4 & Hz & Hr). apply restore_settings_spec in Hz as (Hf4 & Ha4 & Hl4 & Hk4 & Hsv4 & Hz).
  destruct (errors_Join (errors_Join b y) z) as [err|] eqn:Hj.
  - left. apply st_bind_inv in Hr as ([] & r5 & Hfe & Hr). apply raise_fence_spec in Hfe.
    apply st_bind_inv in Hr as ([] & r6 & Hm & Hr). injection Hr as <- <-.
    split; [done|]. by eapply markConfigDegraded_fenced in Hm.
  - right. injection Hr as <- <-. apply errors_Join_None in Hj as [Hj ->]. apply errors_Join_None in Hj as [-> ->].
    specialize (Hab eq_refl). subst a. destruct (Hok1 eq_refl) as [Hact Hload].
    split; [eauto using config_frame_trans|]. split; [congruence|]. split; [congruence|]. split; [by apply Hz|].
    split; [auto|]. intros Hm. rewrite Hk4. by apply Hy.
Qed.

(** What holds when the settings are saved and only have to be published. *)
Definition applied (name : string) (g : configCandidate) (c : settingsCandidate) (r : RT) : Prop :=
  active_config E r = Some (c_content g) /\ loaded r = Some (c_content g) /\ bound_to (c_content g) (kernel (mgr r)) /\
  EgressInterface (cand_after c) = name /\ staged E c r.

Lemma apply_egress_spec (c : settingsCandidate) (g : configCandidate) (r r' : RT) (res : result settingsCandidate) :
  apply_egress E c g r = (res, r') -> re_reloader E = true -> coherent g -> in_step E r -> saved E r ->
  config_frame E r r' /\
  match res with Ok c' => applied (EgressInterface (cand_after c)) g c' r' | Err _ => saved E r' end.
Proof.
  unfold apply_egress. intros Hr Hrel Hco Hstep Hsv.
  apply st_check_inv in Hr as [(x & -> & Hc)|(r1 & Hc & Hr)];
    pose proof (saved_commitRuntimeConfig E _ _ _ _ _ Hc Hsv) as Hsv1;
    apply commitRuntimeConfig_spec in Hc as [Hf1 Hc]; try done.
  destruct Hc as [Ha1 Hl1].
  apply st_check_inv in Hr as [(x & -> & Hc)|(r2 & Hc & Hr)];
    pose proof (still_confirm r1 _ _ _ _ Hc (still_refl E r1)) as [(Hf2 & Ha2 & Hl2 & Hs2 & Hk2 & _) Hsv2];
    [split; [eauto using config_frame_trans|auto]|]. apply confirm_spec in Hc.
  apply st_check_inv in Hr as [(x & -> & Ht)|(r3 & Ht & Hr)];
    pose proof (still_close r2 _ _ _ Ht (still_refl E r2)) as [(Hf3 & Ha3 & Hl3 & Hs3 & Hk3 & _) Hsv3];
    [split; [eauto using config_frame_trans|auto]|].
  apply st_try_inv in Hr as [(x & -> & Hp)|(c' & r4 & Hp & Hr)];
    pose proof (still_prepareSettings E r3 _ _ _ _ Hp (still_refl E r3)) as [(Hf4 & Ha4 & Hl4 & Hs4 & Hk4 & _) Hsv4];
    [split; [eauto using config_frame_trans|auto]|].
  apply onM_inv in Hp as (w & Hp & Hr4). apply prepareSettings_spec in Hp as (Hb & Hu & _ & Hch & _).
  apply st_bind_inv in Hr as ([cr x] & r5 & Hsave & Hr). injection Hr as <- <-.
  apply save_spec in Hsave as (Hf5 & Ha5 & Hl5 & Hk5 & Hs5 & Hx); [|cbn in Hb; congruence|done|auto].
  split; [eauto 8 using config_frame_trans|]. destruct x as [x|]; [done|]. injection Hu as Hu.
  split; [congruence|]. split; [congruence|]. split; [by rewrite Hk5, Hk4, Hk3, Hk2|]. split; [by rewrite <- Hu|done].
Qed.

Lemma commitEgress_spec (c : settingsCandidate) (g : configCandidate) (r r' : RT) (res : result settingsCandidate) :
  commitEgress E c g r = (res, r') -> re_reloader E = true -> coherent g -> sound E r -> cand_before c = settings (mgr r) ->
  match res with
  | Ok c' => config_frame E r r' /\ applied (EgressInterface (cand_after c)) g c' r'
  | Err x => error_degraded x = true /\ fenced r' \/ restored E r r'
  end.
Proof.
  unfold commitEgress. intros Hr Hrel Hco [Hgood Hsv] Hb. pose proof Hgood as (Hstep & _).
  unfold st_bind at 1, st_get in Hr. cbn beta iota in Hr. case_if_in Hr; [injection Hr as <- <-; right; apply still_restored, still_refl|].
  apply st_bind_inv in Hr as (p & r1 & Hp & Hr). pose proof (still_capture_config E r _ _ _ Hp (still_refl E r)) as Hst1.
  apply capture_config_spec in Hp as [_ Hp]. destruct p as [previous|x]; [|injection Hr as <- <-; right; by apply still_restored].
  specialize (Hp _ eq_refl).
  apply st_try_inv in Hr as [(x & -> & Ho)|([oldMode oldExit] & r2 & Ho & Hr)];
    pose proof (still_observe_old_routing E r _ _ _ _ Ho Hst1) as Hst2; [right; by apply still_restored|].
  pose proof (observe_old_routing_spec E _ _ _ _ _ Ho) as Hold.
  pose proof Hst1 as [(_ & _ & _ & _ & Hk1 & _) _].
  pose proof Hst2 as [(Hf2 & Ha2 & Hl2 & Hs2 & Hk2 & _) Hsv2].
  apply st_bind_inv in Hr as (a & r3 & Ha & Hr).
  apply apply_egress_spec in Ha as [Hf3 Ha]; [|done|done|unfold in_step; congruence|auto].
  destruct a as [c'|x]; [injection Hr as <- <-; split; [eauto using config_frame_trans|done]|].
  apply st_bind_inv in Hr as (y & r4 & Hc & Hr). injection Hr as <- <-.
  apply compensate_egress_spec in Hc as [Hc|(Hf4 & Ha4 & Hl4 & Hs4 & Hsv4 & Hcore)]; [by left|right].
  split; [split_and!; [eauto using config_frame_trans|congruence|unfold in_step in Hstep; congruence|congruence|auto]|]. intros Hn. destruct Hold as (Hne & Hm & Hx); [congruence|]. rewrite <- Hk1, <- Hm, <- Hx. auto.
Qed.

(** *** The whole request *)

(** The core runs a configuration generated for the interface and uses it. *)
Definition takes_effect (name : string) (r : RT) : Prop :=
  exists content d s, active_config E r = Some content /\ loaded r = Some content /\ bound_to content (kernel (mgr r)) /\
    Generate d ∅ s = Ok content /\ EgressInterface s = name.

Lemma takes_effect_still (name : string) (r r' : RT) : still E r r' -> takes_effect name r -> takes_effect name r'.
Proof.
  intros [(_ & Ha & Hl & _ & Hk & _) _] (content & d & s & Ht). exists content, d, s. by rewrite Ha, Hl, Hk.
Qed.

Lemma egressStatus_selection (r r' : RT) (s : EgressStatus) (x : option error) :
  egressStatus E X r = ((s, x), r') -> es_Selection s = egressSelection (EgressInterface (settings (mgr r))).
Proof.
  unfold egressStatus. intros Hr. unfold st_bind at 1, st_get in Hr. cbn beta iota in Hr.
  apply st_bind_inv in Hr as (n & r1 & Hn & Hr). destruct (ee_interfaces X n) as [l|]; [|by injection Hr as <- _ _].
  apply st_bind_inv in Hr as ([state live] & r2 & _ & Hr). apply st_bind_inv in Hr as (own & r3 & _ & Hr). by injection Hr as <- _ _.
Qed.

(** A candidate for the interface [name], for the settings of [r]. *)
Definition candidate_for (name : string) (c : settingsCandidate) (r : RT) : Prop :=
  cand_before c = settings (mgr r) /\ cand_after c = set_EgressInterface name (cand_before c) /\
  cand_changed c = changed (cand_before c) (cand_after c).

Lemma candidate_unchanged (name : string) (c : settingsCandidate) (r : RT) :
  candidate_for name c r -> cand_changed c = false -> EgressInterface (settings (mgr r)) = name.
Proof.
  intros (Hb & Ha & Hc) Hch. rewrite Hch in Hc. symmetry in Hc. apply negb_false_iff, bool_decide_eq_true in Hc.
  rewrite <- Hb, Hc, Ha. done.
Qed.

Definition egress_done (name : string) (r0 r' : RT) (res : result EgressStatus) : Prop :=
  match res with
  | Ok s =>
      sound E r' /\ EgressInterface (settings (mgr r')) = name /\ es_Selection s = egressSelection name /\
      (EgressInterface (settings (mgr r0)) = name \/ routingCoreStopped (mgr r0) = true \/ takes_effect name r')
  | Err x => error_degraded x = true /\ fenced r' \/ restored E r0 r'
  end.

(** The commit, or with a stopped core only the save. *)
Lemma stage_egress (name : string) (c c' : settingsCandidate) (g : configCandidate) (r r' : RT) :
  (if negb (routingCoreStopped (mgr r)) then commitEgress E c g
   else let! '(_, err) := onM (saveSettingsCandidate (re_options E) (re_env E) c) in
        st_ret match err with Some x => Err x | None => Ok c end) r = (Ok c', r') ->
  re_reloader E = true -> coherent g -> sound E r -> candidate_for name c r ->
  config_frame E r r' /\ staged E c' r' /\ EgressInterface (cand_after c') = name /\ in_step E r' /\
  (routingCoreStopped (mgr r) = false ->
   active_config E r' = Some (c_content g) /\ loaded r' = Some (c_content g) /\ bound_to (c_content g) (kernel (mgr r'))).
Proof.
  intros Hr Hrel Hco Hso (Hb & Ha & Hch). case_if_in Hr.
  - apply commitEgress_spec in Hr as [Hf (Hac & Hl & Hk & Hn & Hst)]; try done. rewrite Ha in Hn.
    split; [done|]. split; [done|]. split; [done|]. split; [unfold in_step; congruence|done].
  - apply st_bind_inv in Hr as ([cr x] & r1 & Hs & Hr). destruct x as [x|]; [done|]. injection Hr as <- <-. destruct Hso as [Hg Hsv].
    apply save_spec in Hs as (Hf & Hac & Hl & Hk & Hs & Hst); try done. split; [done|]. split; [done|].
    split; [by rewrite Ha|]. split; [destruct Hg as [Hstep _]; unfold in_step in *; congruence|].
    intros Hn. rewrite Hn in Heqb. done.
Qed.

Lemma stage_egress_failed (name : string) (c : settingsCandidate) (g : configCandidate) (r r' : RT) (x : error) :
  (if negb (routingCoreStopped (mgr r)) then commitEgress E c g
   else let! '(_, err) := onM (saveSettingsCandidate (re_options E) (re_env E) c) in
        st_ret match err with Some x => Err x | None => Ok c end) r = (Err x, r') ->
  re_reloader E = true -> coherent g -> sound E r -> candidate_for name c r ->
  error_degraded x = true /\ fenced r' \/ restored E r r'.
Proof.
  intros Hr Hrel Hco Hso (Hb & Ha & Hch). case_if_in Hr; [by apply commitEgress_spec in Hr|].
  apply st_bind_inv in Hr as ([cr y] & r1 & Hs & Hr). destruct y as [y|]; [|done]. injection Hr as <- <-. destruct Hso as [Hg Hsv].
  apply save_spec in Hs as (Hf & Hac & Hl & Hk & Hs & Hst); try done. right. split_and!; try done. by rewrite Hk.
Qed.

Lemma perform_egress_spec (name : string) (op : Operation) (c : settingsCandidate) (g : configCandidate) (r r' : RT)
    (res : result EgressStatus) :
  perform_egress E X op c g r = (res, r') -> re_reloader E = true -> coherent g -> sound E r -> candidate_for name c r ->
  (cand_changed c = true -> routingCoreStopped (mgr r) = false -> exists d, Generate d ∅ (cand_after c) = Ok (c_content g)) ->
  egress_done name r r' res.
Proof.
  unfold perform_egress. intros Hr Hrel Hco Hso Hcand Hgen. case_if_in Hr.
  { apply negb_true_iff in Heqb. pose proof (candidate_unchanged _ _ _ Hcand Heqb) as Hname.
    apply st_bind_inv in Hr as ([s x] & r1 & Hs & Hr). injection Hr as <- <-.
    pose proof (still_egressStatus r _ _ _ Hs (still_refl E r)) as Hst. apply egressStatus_selection in Hs.
    destruct x as [x|]; [right; by apply still_restored|]. pose proof Hst as [(_ & _ & _ & Hse & _) _].
    split; [by eapply restored_sound; [apply still_restored|]|]. rewrite Hse, Hs, Hname. auto. }
  apply negb_false_iff in Heqb. unfold st_bind at 1, st_get in Hr. cbn beta iota in Hr.
  apply st_try_inv in Hr as [(x & -> & Hc)|(c' & r1 & Hc & Hr)]; [by eapply stage_egress_failed|].
  eapply stage_egress in Hc as (Hf & Hst & Hn & Hstep & Hrun); try done.
  apply st_bind_inv in Hr as ([] & r2 & Hp & Hr). unfold st_bind at 1, st_get in Hr. cbn beta iota in Hr.
  apply st_bind_inv in Hr as ([sn x] & r3 & Hd & Hr).
  destruct Hso as [Hg Hsv]. pose proof (good_frame E _ _ Hf Hstep Hg) as Hg1.
  eapply publish_sound in Hp as (Hso2 & Hs2 & _ & Hw2); [|done|done].
  apply (snapshot_sound E) in Hd as (Hx & Hso3 & Hs3 & Hw3); [|done|intros s; by case_if|done]. cbn in Hx. subst x.
  apply st_bind_inv in Hr as ([s x] & r4 & Hs & Hr).
  pose proof (still_egressStatus r3 _ _ _ Hs (still_refl E r3)) as Hst4. apply egressStatus_selection in Hs.
  injection Hr as <- <-. pose proof Hst4 as [(_ & _ & _ & Hs4 & _) _].
  split; [by eapply restored_sound; [apply still_restored|]|]. split; [congruence|].
  split; [destruct x; cbn; congruence|]. right. destruct (routingCoreStopped (mgr r)) eqn:Hstop; [by left|right].
  destruct (Hrun eq_refl) as (Hac & Hl & Hk). destruct (Hgen Heqb eq_refl) as [d Hd'].
  eapply takes_effect_still; [exact Hst4|]. exists (c_content g), d, (cand_after c).
  destruct Hcand as (_ & Ha & _). pose proof (same_world_active E _ _ Hw2). pose proof (same_world_active E _ _ Hw3).
  destruct Hw2 as (_ & _ & Hl2 & Hk2), Hw3 as (_ & _ & Hl3 & Hk3). rewrite Ha.
  split_and!; [congruence|congruence|by rewrite Hk3, Hk2|by rewrite <- Ha|done].
Qed.

Lemma plan_egress_spec (op : Operation) (s : EgressSelection) (r r' : RT) (c : settingsCandidate) (i : option captured) :
  plan_egress E X op s r = (Ok (c, i), r') ->
  candidate_for (sel_InterfaceName s) c r' /\ cand_generation c = configGeneration (mgr r') /\
  match i with
  | None => cand_changed c = false \/ routingCoreStopped (mgr r') = true
  | Some i => in_generation i = cand_generation c
  end.
Proof.
  unfold plan_egress. intros Hr.
  apply st_check_inv in Hr as [(x & ? & _)|(r1 & _ & Hr)]; [done|].
  apply st_check_inv in Hr as [(x & ? & _)|(r2 & _ & Hr)]; [done|].
  apply st_try_inv in Hr as [(x & ? & _)|(c0 & r3 & Hp & Hr)]; [done|].
  apply onM_inv in Hp as (w & Hp & Hr3). pose proof (prepareSettings_same _ _ _ _ Hp) as Hw.
  apply prepareSettings_spec in Hp as (Hb & Hu & _ & Hch & Hgen). injection Hu as Hu. subst w.
  assert (Hcand : candidate_for (sel_InterfaceName s) c0 r3 /\ cand_generation c0 = configGeneration (mgr r3)).
  { subst r3. cbn in *. split; [|done]. split_and!; [done| |done]. by rewrite Hb. }
  unfold st_bind at 1, st_get in Hr. cbn beta iota in Hr. case_if_in Hr.
  { injection Hr as <- <- <-. destruct Hcand. split; [done|]. split; [done|].
    apply orb_true_iff in Heqb as [Hn|Hn]; [left; by apply negb_true_iff|by right]. }
  case_if_in Hr; [done|]. apply st_try_inv in Hr as [(x & ? & _)|(j & r4 & Hj & Hr)]; [done|].
  pose proof (still_capture_inputs E r3 _ _ _ _ Hj (still_refl E r3)) as [(_ & _ & _ & Hs & _ & Hg) _].
  apply capture_inputs_generation in Hj. injection Hr as <- <- <-. destruct Hcand as [(Hb' & Ha' & Hc') Hgen'].
  split; [split_and!; congruence|]. split; congruence.
Qed.

Lemma recheck_spec (op : Operation) (s : EgressSelection) (i : captured) (r r' : RT) :
  recheck_egress E X op s i r = (None, r') -> in_generation i = configGeneration (mgr r').
Proof.
  intros Hr. pose proof (still_recheck r _ _ _ _ _ _ Hr (still_refl E r)) as [(_ & _ & _ & _ & _ & Hg) _]. rewrite Hg.
  unfold recheck_egress in Hr. apply st_bind_inv in Hr as ([h|x] & r1 & Hh & Hr); [|done].
  pose proof (still_loggingCacheHash E r _ _ _ _ Hh (still_refl E r)) as [(_ & _ & _ & _ & _ & Hg1) _].
  unfold st_bind at 1, st_get in Hr. cbn beta iota in Hr. case_if_in Hr; [done|].
  apply negb_false_iff in Heqb. unfold inputs_same in Heqb. breflect. lia.
Qed.

Lemma prepareEgress_spec (op : Operation) (s : EgressSelection) (r r' : RT) (res : result (settingsCandidate * configCandidate)) :
  prepareEgress E X op s r = (res, r') -> fair_others E ->
  since E r r' /\
  forall c g, res = Ok (c, g) ->
    coherent g /\ candidate_for (sel_InterfaceName s) c r' /\
    (cand_changed c = true -> routingCoreStopped (mgr r') = false -> exists d, Generate d ∅ (cand_after c) = Ok (c_content g)).
Proof.
  unfold prepareEgress. intros Hr Hfair. pose proof (since_refl E r) as Hs.
  apply st_check_inv in Hr as [(x & -> & Hl)|(r1 & Hl & Hr)]; since_in Hl; [by split|].
  apply st_bind_inv in Hr as (plan & r2 & Hp & Hr). pose proof Hp as Hplan. since_in Hp.
  destruct plan as [[c [i|]]|x]; [| |apply st_bind_inv in Hr as ([] & r3 & Hu & Hr); since_in Hu; injection Hr as <- <-; by split];
    apply plan_egress_spec in Hplan as (Hc & Hg & Hi).
  - apply st_try_inv in Hr as [(x & -> & Hv)|(g & r3 & Hv & Hr)];
      (apply validate_unowned_spec in Hv as [Hs2 Hv]; [|intros; apply still_recheck]); [split; [by eapply since_trans|done]|].
    injection Hr as <- <-. split; [by eapply since_trans|]. intros c' g' [= <- <-].
    destruct (Hv _ eq_refl) as (Hco & [r4 Hre] & Hd). apply recheck_spec in Hre. destruct (since_settings E _ _ Hs2 Hfair) as [_ Hse].
    destruct Hc as (Hb & Ha & Hch). split; [done|]. split; [split_and!; try done; rewrite Hse; congruence|done].
  - injection Hr as <- <-. split; [done|]. intros c' g' [= <- <-]. split; [done|]. split; [done|].
    intros Hch Hst. destruct Hi; congruence.
Qed.

End Lemmas.

(** ** Theorems *)

(** C34. A change of the outbound interface settles, whatever the core and the
    files answer and whatever other requests did while a configuration was
    validated.  On success the requested interface is saved, in memory and on
    disk, and unless it was saved before or the core is stopped, the core runs a
    configuration that was generated for it and reports the interface that this
    configuration names.  On failure the configuration file, the running
    configuration, the settings and the routing of a managed core are those the
    request found, or the daemon is marked degraded and refuses every further
    mutation. *)
Theorem egress_update_settles `{CaseFold} `{SourceSyntax} `{CatalogYAML} `{DocumentYAML} `{PEM} `{Sha256}
    {Env FS AEnv W : Type} `{SettingsFile Env FS} `{AtomicFile AEnv W} (E : rt_env Env FS AEnv W) (X : egress_env)
    (op : Operation) (s : EgressSelection) (r r' : Runtime FS AEnv W) (res : result EgressStatus) :
  UpdateEgress E X op s r = (res, r') -> fair_others E -> re_reloader E = true -> sound E r ->
  exists r0, since E r r0 /\ sound E r0 /\
  match res with
  | Ok status =>
      sound E r' /\ EgressInterface (settings (mgr r')) = sel_InterfaceName s /\
      es_Selection status = egressSelection (sel_InterfaceName s) /\
      (EgressInterface (settings (mgr r0)) = sel_InterfaceName s \/ routingCoreStopped (mgr r0) = true \/
       takes_effect E (sel_InterfaceName s) r')
  | Err x =>
      error_degraded x = true /\ mutationDegraded (mgr r') = true /\ Health (store (mgr r')) = "degraded"%string \/
      restored E r0 r' /\ sound E r'
  end.
Proof.
  unfold UpdateEgress. intros Hr Hfair Hrel Hso. pose proof (since_refl E r) as Hs. case_if_in Hr.
  { injection Hr as <- <-. exists r. split_and!; [done|done|]. right. split; [apply still_restored, still_refl|done]. }
  assert (Hnone : forall r1 x, since E r r1 -> exists r0, since E r r0 /\ sound E r0 /\
    (error_degraded x = true /\ mutationDegraded (mgr r1) = true /\ Health (store (mgr r1)) = "degraded"%string \/
     restored E r0 r1 /\ sound E r1)).
  { intros r1 x Hs1. pose proof (since_sound E _ _ Hs1 Hfair Hso). exists r1. split_and!; [done|done|]. right.
    split; [apply still_restored, still_refl|done]. }
  apply st_check_inv in Hr as [(x & -> & Ha)|(r1 & Ha & Hr)]; since_in Ha; [by apply Hnone|].
  apply st_try_inv in Hr as [(x & -> & Hp)|([c g] & r2 & Hp & Hr)]; apply prepareEgress_spec in Hp as [Hs2 Hp]; try done.
  { apply Hnone. by eapply since_trans. }
  destruct (Hp c g eq_refl) as (Hco & Hcand & Hgen). pose proof (since_trans E _ _ _ Ha Hs2) as Hs0.
  pose proof (since_sound E _ _ Hs0 Hfair Hso) as Hso2.
  apply st_bind_inv in Hr as (res' & r3 & Hr3 & Hr). eapply perform_egress_spec in Hr3; try done.
  apply st_bind_inv in Hr as ([] & r4 & Hcl & Hr). apply st_bind_inv in Hr as ([] & r5 & Hu & Hr). injection Hr as <- <-.
  assert (Hst : still E r3 r5).
  { eapply still_unlock; [exact Hu|]. eapply still_cleanup; [exact Hco|exact Hcl|apply still_refl]. }
  exists r2. split; [done|]. split; [done|]. destruct res' as [status|x].
  - destruct Hr3 as (Hso3 & Hn & Hsel & Heff). pose proof Hst as [(_ & _ & _ & Hse & _) _].
    split; [by eapply restored_sound; [apply still_restored|]|]. rewrite Hse. split; [done|]. split; [done|].
    destruct Heff as [Heff|[Heff|Heff]]; [by left|by right; left|right; right]. by eapply takes_effect_still.
  - destruct Hr3 as [[Hx Hf]|Hre]; [left|right].
    + split; [done|]. eapply fenced_unlocked; [exact Hu|]. by eapply fenced_cleaned.
    + pose proof (restored_still E _ _ _ Hre Hst) as Hre'. split; [done|]. by eapply restored_sound.
Qed.

(** ** Witnesses *)

Section Witnesses.

#[local] Existing Instance ex_fold.
#[local] Existing Instance ex_yaml.
#[local] Existing Instance ex_pem.
#[local] Existing Instance ex_hash.
#[local] Existing Instance ex_settings_file.
#[local] Existing Instance memory_disk.

Definition ex_cached : string :=
  match doc_Marshal (document_value {["proxy-providers"%string := AString "none"]}) with Ok c => c | Err _ => "" end.

(** [ex_runtime] with the cache of its subscription. *)
Definition ex_egress_runtime : Runtime (option Settings) bool (gmap path string) :=
  set_svc (mkService example_catalog_path "/c" settled_example
             {[ example_catalog_path := "one"%string; ex_config_path := "old"%string;
                ("/c"%string, (ActiveID settled_example ++ ".yaml")%string) := ex_cached ]} (fun _ => mkIO true None) 0)
    ex_runtime.

(** A reload leaves the core bound to [name]. *)
Definition ex_egress_env (name : string) : rt_env bool (option Settings) bool (gmap path string) :=
  mkRtEnv (mkOptions false "" "settings.yaml" true true false) ex_config_path true false (ex_env "rule" "A" true)
    (ex_trusted_env 100)
    (fun n => mkReload None true (mkKernel {["mode" := AString "rule"; "interface-name" := AString name]}%string None))
    (fun _ => None) (fun r => r).

Definition ex_adapters : egress_env :=
  mkEgressEnv (fun _ => Ok [mkNetworkInterface "eth0" "ethernet" "available" ["192.0.2.7/24"] ""]%string) (fun _ => None).

Definition ex_selection : EgressSelection := mkEgressSelection "manual" "eth0".

Lemma ex_egress_sound (name : string) : sound (ex_egress_env name) ex_egress_runtime.
Proof.
  split; [|by intros _; vm_compute]. split; [vm_compute; reflexivity|]. split; [by repeat split|].
  split; [apply settle_sound with (c := example_catalog); vm_compute; reflexivity|].
  split; [|reflexivity]. exists "one"%string. split; vm_compute; reflexivity.
Qed.

Lemma ex_egress_fair (name : string) : fair_others (ex_egress_env name).
Proof. split; done. Qed.

Lemma ex_egress_applied :
  is_Ok (fst (UpdateEgress (ex_egress_env "eth0") ex_adapters ex_op ex_selection ex_egress_runtime)) = true.
Proof. vm_compute. reflexivity. Qed.

Lemma ex_egress_running : routingCoreStopped (mgr ex_egress_runtime) = false.
Proof. reflexivity. Qed.

(** The running core is bound to eth0. *)
Lemma egress_update_settles_witness :
  let r' := snd (UpdateEgress (ex_egress_env "eth0") ex_adapters ex_op ex_selection ex_egress_runtime) in
  EgressInterface (settings (mgr r')) = "eth0"%string /\ loaded r' = active_config (ex_egress_env "eth0") r'.
Proof.
  pose proof ex_egress_applied as Hok.
  destruct (UpdateEgress (ex_egress_env "eth0") ex_adapters ex_op ex_selection ex_egress_runtime) as [res r'] eqn:Hr.
  cbn [fst snd] in *.
  destruct (egress_update_settles (ex_egress_env "eth0") ex_adapters ex_op ex_selection ex_egress_runtime r' res Hr
    (ex_egress_fair "eth0") eq_refl (ex_egress_sound "eth0")) as (r0 & _ & _ & Hres).
  destruct res as [status|x]; [|discriminate Hok]. destruct Hres as (((Hstep & _) & _) & Hn & _). split; [exact Hn|exact Hstep].
Defined.

(** The core takes another interface and keeps it: the fence is up. *)
Example egress_refused :
  let '(res, r') := UpdateEgress (ex_egress_env "wlan0") ex_adapters ex_op ex_selection ex_egress_runtime in
  (is_Ok res, EgressInterface (settings (mgr r')), loaded r', mutationDegraded (mgr r')) =
  (false, ""%string, Some "old"%string, true).
Proof. vm_compute. reflexivity. Qed.

End Witnesses.
