(* ===== verification/LoggingTx.v ===== *)
(** * LoggingTx: changing the log level and the limits of the log files

    Models [internal/runtime/logging.go] and [logging_transaction.go], with
    [ParseLevel] and [ConfigFromFields] of [internal/logging/config.go].  The level
    belongs to the settings, to the running core and to the daemon's own writer:
    the core is changed and confirmed first, then the configuration file, then
    the settings are saved, and the writer is told last.

    - What the core makes of a PATCH is the environment's; reading back decides.
    - [UpdateLogging] also returns the configuration handed to the file writer,
      if there is one. *)

From S2P Require Import Prelude GoStd SelfUpdate Atomic State Settings Catalog SubService TrustedConfig Generator FileRefs.
From S2P Require Import Manager Routing RuntimeConfig CoreTx.

Record LoggingUpdate := mkLoggingUpdate {
  lu_Level : option string;
  lu_MaxSizeMB : option Z;
  lu_MaxFiles : option Z
}.

Record LoggingStatus := mkLoggingStatus {
  ls_Revision : Z;
  ls_Level : string;
  ls_MaxSizeMB : Z;
  ls_MaxFiles : Z;
  ls_Dir : string;
  ls_CoreLevel : string;
  ls_SyncState : string;
  ls_SyncMessage : string
}.

(** [logging.Config]; a level is its [slog] number. *)
Record logging_config := mkLoggingConfig {
  lc_Level : Z;
  lc_MaxSizeBytes : Z;
  lc_MaxFiles : Z
}.

(** Whether the manager runs the core ([m.running]), and the log directory. *)
Record logging_env := mkLoggingEnv {
  le_running : bool;
  le_dir : string
}.

Definition ParseLevel (level : string) : result Z :=
  if String.eqb level "debug" then Ok (-4)
  else if String.eqb level "info" then Ok 0
  else if String.eqb level "warn" then Ok 4
  else if String.eqb level "error" then Ok 8
  else if String.eqb level "silent" then Ok 100
  else Err (EText "unsupported logging level").

Definition ConfigFromFields (level : string) (maxSizeMB maxFiles : Z) : result logging_config :=
  match ParseLevel level with
  | Err x => Err x
  | Ok parsed =>
      if (maxSizeMB <? 1) || (100 <? maxSizeMB) then Err (EText "logging max size must be between 1 and 100 MiB")
      else if (maxFiles <? 1) || (10 <? maxFiles) then Err (EText "logging max files must be between 1 and 10")
      else Ok (mkLoggingConfig parsed (int64 (maxSizeMB * 1024 * 1024)) maxFiles)
  end.

Definition loggingConfig (l : LoggingSettings) : result logging_config :=
  match ParseLevel (Level l) with
  | Err x => Err (diagnostics_Wrap (mkAPIError CodeInvalidArgument "invalid logging level" false) (Some x))
  | Ok _ =>
      match ConfigFromFields (Level l) (MaxSizeMB l) (MaxFiles l) with
      | Err x => Err (diagnostics_Wrap (mkAPIError CodeInvalidArgument "invalid logging limits" false) (Some x))
      | Ok c => Ok c
      end
  end.

Definition loggingUnavailable : error := api_error CodeInvalidState "logging runtime is unavailable".

Definition validateLoggingUpdate (op : Operation) (u : LoggingUpdate) : option error :=
  let invalid message := Some (api_error CodeInvalidArgument message) in
  let outside v hi := match v with Some v => (v <? 1) || (hi <? v) | None => false end in
  if String.eqb (op_ID op) "" then invalid "operation ID is required"%string
  else if bool_decide (lu_Level u = None) && bool_decide (lu_MaxSizeMB u = None) && bool_decide (lu_MaxFiles u = None)
  then invalid "logging update is empty"%string
  else if match lu_Level u with Some l => negb (ActiveLoggingLevel l) | None => false end
  then invalid "invalid logging level"%string
  else if outside (lu_MaxSizeMB u) 100 then invalid "invalid logging max size"%string
  else if outside (lu_MaxFiles u) 10 then invalid "invalid logging max files"%string
  else None.

(** The update on the effective settings. *)
Definition requested (u : LoggingUpdate) (l : LoggingSettings) : LoggingSettings :=
  mkLoggingSettings (default (Level l) (lu_Level u)) (default (MaxSizeMB l) (lu_MaxSizeMB u))
    (default (MaxFiles l) (lu_MaxFiles u)).

Definition zero_observation : logging_observation := mkObservation "" "" "".

Section Logging.
Context `{CaseFold} `{SourceSyntax} `{CatalogYAML} `{DocumentYAML} `{PEM} `{Sha256}
  {Env FS AEnv W : Type} `{SettingsFile Env FS} `{AtomicFile AEnv W} (E : rt_env Env FS AEnv W) (L : logging_env).

Abbreviation R := (st (Runtime FS AEnv W)).
Abbreviation o := (re_options E).
Abbreviation e := (re_env E).

Definition loggingCoreStopped (m : Manager FS) : bool :=
  let core := Core (store m) in
  (core_PID core =? 0)
  && (String.eqb (core_Status core) "stopped" || String.eqb (core_Status core) "missing"
      || String.eqb (core_Status core) "" && negb (le_running L)).

Definition loggingStatusLocked (l : LoggingSettings) (revision : Z) (r : Runtime FS AEnv W) : LoggingStatus :=
  let observed :=
    if loggingCoreStopped (mgr r) then mkObservation "" "pending" "Saved; waiting for the core to start"
    else if String.eqb (ob_state (loggingObservation r)) "" || mutationDegraded (mgr r)
         then mkObservation "" "unknown" "Core logging state is unavailable"
         else loggingObservation r in
  mkLoggingStatus revision (Level l) (MaxSizeMB l) (MaxFiles l) (le_dir L)
    (ob_level observed) (ob_state observed) (ob_message observed).

Definition ReadLoggingStatus : R (result LoggingStatus) :=
  if negb (re_logging E) then st_ret (Err loggingUnavailable)
  else
    check! onM (lockMaintenance e) in
    let! r := st_get in
    do! onM unlock in
    st_ret (Ok (loggingStatusLocked (EffectiveLogging (settings (mgr r))) (Revision (store (mgr r))) r)).

(** ** Preparing *)

(** A change of nothing is no change, however it is written down. *)
Definition same_effect (c : settingsCandidate) : settingsCandidate :=
  if bool_decide (EffectiveLogging (cand_before c) = EffectiveLogging (cand_after c))
  then mkCandidate (cand_before c) (cand_before c) false (cand_generation c) else c.

(** The steps of [prepareLoggingUpdate] under the first ownership. *)
Definition plan_logging (op : Operation) (u : LoggingUpdate) : R (result (settingsCandidate * option captured)) :=
  check! onM (checkIfRevision (op_IfRevision op)) in
  try! c := onM (prepareSettings (fun s => Ok (SetLogging (requested u (EffectiveLogging s)) s))) in
  let c := same_effect c in
  check! onM (ctxErr e) in
  let! r := st_get in
  if bool_decide (lu_Level u = None) || loggingCoreStopped (mgr r) then st_ret (Ok (c, None))
  else if negb (core_running r) then st_ret (Err (api_error CodeInvalidState "core logging state is not ready"))
  else try! i := capture_inputs (cand_generation c) in st_ret (Ok (c, Some i)).

(** The steps under the second ownership. *)
Definition recheck_logging (op : Operation) (i : captured) : R (option error) :=
  let! hash := loggingCacheHash (ActiveID (in_catalog i)) in
  match hash with
  | Err _ => st_ret (Some routingConflict)
  | Ok hash =>
      let! r := st_get in
      if negb (inputs_same i hash r) then st_ret (Some routingConflict)
      else onM (checkIfRevision (op_IfRevision op))
  end.

Definition prepareLoggingUpdate (op : Operation) (u : LoggingUpdate)
    : R (result (settingsCandidate * option configCandidate)) :=
  check! onM (lockMutation o e) in
  let! plan := plan_logging op u in
  match plan with
  | Err x => do! onM unlock in st_ret (Err x)
  | Ok (c, None) => st_ret (Ok (c, None))
  | Ok (c, Some i) => try! g := validate_unowned E (recheck_logging op i) c i in st_ret (Ok (c, Some g))
  end.

(** ** The core *)

(** [patchLoggingLevel]: a PATCH with the level, "warn" spelled "warning". *)
Definition patchLoggingLevel (level : string) : R (option error) := onM (kernel_call e).

Definition confirmLoggingLevel (want : string) : R (option error) :=
  let! got := onM (observeLoggingLevel E) in
  st_ret match got with
         | Err x => Some x
         | Ok got => if String.eqb got want then None
                     else Some (loggingCoreError "core logging change could not be confirmed" None)
         end.

Definition logging_recovery : string := "Logging recovery could not be confirmed; restart required".

Definition logging_recovery_failed : APIError :=
  degraded_api CodeUpstreamFailure "logging recovery could not be confirmed; restart required".

(** The part of [compensate] for an attempted configuration. *)
Definition restore_attempted (attempted : bool) (previous oldMode oldExit : string) : R (option error) :=
  if negb attempted then st_ret None
  else
    let! x := restoreRoutingConfig E previous in
    let! y := restore_routing E oldMode oldExit in
    st_ret (errors_Join x y).

(** [compensate] of [commitLoggingCore]. *)
Definition compensate_logging (attempted : bool) (previous : string) (before : Settings) (oldLevel oldMode oldExit : string)
    (cause : error) : R error :=
  let! x := restore_attempted attempted previous oldMode oldExit in
  let! patchErr := patchLoggingLevel oldLevel in
  let! checkErr := confirmLoggingLevel oldLevel in
  let x := match checkErr with Some y => errors_Join (errors_Join x patchErr) (Some y) | None => x end in
  let! z := restore_settings E before in
  match errors_Join x z with
  | None => st_ret cause
  | Some x =>
      do! raise_fence E in
      do! Do None (mkCommandMeta "" "logging" None) (fun s => st_ret (with_Health "degraded" logging_recovery s, None)) in
      st_ret (diagnostics_Wrap logging_recovery_failed (errors_Join (Some cause) (Some x)))
  end.

(** The changes of [commitLoggingCore]; the flag is [runtimeAttempted]. *)
Definition apply_level (c : settingsCandidate) (g : configCandidate) : R (bool * result settingsCandidate) :=
  let target := EffectiveLogging (cand_after c) in
  let want := Level target in
  do! st_modify (set_observation zero_observation) in
  let! x := patchLoggingLevel want in
  match x with
  | Some x => st_ret (false, Err (loggingCoreError "update core logging level" (Some x)))
  | None =>
      let! x := confirmLoggingLevel want in
      match x with
      | Some x => st_ret (false, Err x)
      | None =>
          let! res :=
            (check! commitRuntimeConfig E true g in
             check! confirmLoggingLevel want in
             try! c' := onM (prepareSettings (fun s => Ok (SetLogging target s))) in
             let! '(_, err) := onM (saveSettingsCandidate o e c') in
             st_ret match err with Some x => Err x | None => Ok c' end) in
          st_ret (true, res)
      end
  end.

Definition commitLoggingCore (c : settingsCandidate) (g : configCandidate) : R (result settingsCandidate) :=
  try! oldLevel := onM (observeLoggingLevel E) in
  let! previous := capture_config E in
  match previous with
  | Err x => st_ret (Err (loggingCoreError "capture runtime configuration before logging change" (Some x)))
  | Ok previous =>
      try! '(oldMode, oldExit) := observe_old_routing E (cand_before c) in
      let! '(attempted, res) := apply_level c g in
      match res with
      | Ok c' => st_ret (Ok c')
      | Err x =>
          let! x := compensate_logging attempted previous (cand_before c) oldLevel oldMode oldExit x in st_ret (Err x)
      end
  end.

(** ** The request *)

(** The commit, or without a change of the core only the save. *)
Definition stage_logging (c : settingsCandidate) (g : option configCandidate) : R (result settingsCandidate) :=
  match g with
  | Some g => commitLoggingCore c g
  | None => let! '(_, err) := onM (saveSettingsCandidate o e c) in
            st_ret match err with Some x => Err x | None => Ok c end
  end.

(** The operation while it owns the mutation; the configuration is the one the
    file writer is told. *)
Definition perform_logging (op : Operation) (c : settingsCandidate) (g : option configCandidate)
    : R (result (LoggingStatus * option logging_config)) :=
  try! c := stage_logging c g in
  do! onM (publishSettings c) in
  let after := EffectiveLogging (cand_after c) in
  do! match g with
      | Some _ => st_modify (fun r => set_observation (mkObservation (Level after) "applied" "") (set_unsaved false r))
      | None => st_ret tt
      end in
  match (if bool_decide (EffectiveLogging (cand_before c) = after) then Ok None
         else match loggingConfig after with Ok cfg => Ok (Some cfg) | Err x => Err x end) with
  | Err x => st_ret (Err x)
  | Ok cfg =>
      let! '(committed, err) := Do None (mkCommandMeta (op_ID op) (op_Source op) (op_IfRevision op)) (fun s => st_ret (s, None)) in
      let! r := st_get in
      st_ret match err with
             | Some x => Err x
             | None => Ok (loggingStatusLocked after (Revision committed) r, cfg)
             end
  end.

Definition UpdateLogging (op : Operation) (u : LoggingUpdate) : R (result (LoggingStatus * option logging_config)) :=
  if negb (re_logging E) then st_ret (Err loggingUnavailable)
  else match validateLoggingUpdate op u with
  | Some x => st_ret (Err x)
  | None =>
      check! onM (admit_operation e ("logging:" ++ op_ID op)%string) in
      try! '(c, g) := prepareLoggingUpdate op u in
      let! res := perform_logging op c g in
      do! match g with Some g => cleanup E g | None => st_ret tt end in
      do! onM unlock in
      st_ret res
  end.

End Logging.

(** ** Lemmas *)

Lemma EffectiveLogging_again (s s' : Settings) : EffectiveLogging (SetLogging (EffectiveLogging s) s') = EffectiveLogging s.
Proof. destruct (EffectiveLogging_nonzero s) as (? & ? & ?). by apply EffectiveLogging_SetLogging. Qed.

(** Settings that were validated give a configuration for the file writer. *)
Lemma loggingConfig_valid (s : Settings) :
  Validate s = None ->
  exists level, ParseLevel (Level (EffectiveLogging s)) = Ok level /\
    loggingConfig (EffectiveLogging s) =
      Ok (mkLoggingConfig level (MaxSizeMB (EffectiveLogging s) * 1048576) (MaxFiles (EffectiveLogging s))).
Proof.
  intros Hv. apply Validate_sound in Hv as (_ & _ & _ & _ & _ & Hl & Hsz & Hfl & _).
  assert (exists level, ParseLevel (Level (EffectiveLogging s)) = Ok level) as [level Hp].
  { rewrite !elem_of_cons, elem_of_nil in Hl. destruct Hl as [->|[->|[->|[->|[->|[]]]]]]; by eexists. }
  exists level. split; [done|]. unfold loggingConfig, ConfigFromFields. rewrite Hp.
  rewrite !(proj2 (Z.ltb_ge _ _)) by lia. cbn. do 2 f_equal. unfold int64, two63, two64.
  rewrite Z.mod_small by lia. lia.
Qed.

(** What the core reports. *)
Definition live_level (k : Kernel) : option string :=
  match k_Configs k !! "log-level"%string with
  | Some (AString v) => let '(level, valid) := ObservedLoggingLevel v in if valid : bool then Some level else None
  | _ => None
  end.

Section Lemmas.
Context `{CaseFold} `{SourceSyntax} `{CatalogYAML} `{DocumentYAML} `{PEM} `{Sha256}
  {Env FS AEnv W : Type} `{SettingsFile Env FS} `{AtomicFile AEnv W} (E : rt_env Env FS AEnv W) (L : logging_env).

Abbreviation RT := (Runtime FS AEnv W).

Lemma observeLoggingLevel_spec (w w' : Manager FS) (l : string) :
  observeLoggingLevel E w = (Ok l, w') -> live_level (kernel w) = Some l.
Proof.
  unfold observeLoggingLevel, live_level. intros Hr. case_if_in Hr; [done|].
  apply st_bind_inv in Hr as (k & w1 & Hk & Hr). apply read_kernel_spec in Hk as [_ Hk]. destruct k as [k|]; [|done].
  rewrite (Hk k eq_refl) in Hr. destruct (k_Configs (kernel w) !! "log-level"%string) as [[]|]; try done.
  destruct (ObservedLoggingLevel s) as [level []]; [|done]. by injection Hr as <- _.
Qed.

Lemma still_observe_level (r : RT) : preserves (still E r) (onM (observeLoggingLevel E)).
Proof. apply still_later. intros w w' a. apply observeLoggingLevel_later. Qed.

#[local] Hint Resolve still_observe_level : preserves.

Lemma still_confirm_level (r : RT) (want : string) : preserves (still E r) (confirmLoggingLevel E want).
Proof. unfold confirmLoggingLevel. solve_preserves. Qed.

Lemma confirm_level_spec (want : string) (r r' : RT) :
  confirmLoggingLevel E want r = (None, r') -> live_level (kernel (mgr r)) = Some want.
Proof.
  unfold confirmLoggingLevel. intros Hr. apply st_bind_inv in Hr as ([got|x] & r1 & Hg & Hr); [|done].
  apply onM_inv in Hg as (w & Hg & _). apply observeLoggingLevel_spec in Hg.
  destruct (String.eqb_spec got want) as [->|]; [exact Hg|done].
Qed.

Lemma still_plan_logging (r : RT) (op : Operation) (u : LoggingUpdate) : preserves (still E r) (plan_logging E L op u).
Proof. unfold plan_logging. solve_preserves. Qed.

Lemma still_recheck_logging (r : RT) (op : Operation) (i : captured) : preserves (still E r) (recheck_logging op i).
Proof. unfold recheck_logging. solve_preserves. Qed.

#[local] Hint Resolve still_plan_logging still_recheck_logging : preserves.

(** *** The commit *)

Lemma patch_spec (level : string) (r r' : RT) (x : option error) :
  patchLoggingLevel E level r = (x, r') -> put_back E r r'.
Proof.
  unfold patchLoggingLevel. intros Hr. pose proof Hr as Hf. apply onM_frame with (E := E) in Hf as (Hf & Ha & Hl).
  2:{ intros w w' b Hb. by apply kernel_call_frame in Hb as (k & n & ->). }
  apply onM_inv in Hr as (w & Hr & ->). apply kernel_call_frame in Hr as (k & n & ->). split_and!; done.
Qed.

Lemma restore_attempted_spec (attempted : bool) (previous oldMode oldExit : string) (r r' : RT) (x : option error) :
  restore_attempted E attempted previous oldMode oldExit r = (x, r') ->
  config_frame E r r' /\ settings (mgr r') = settings (mgr r) /\ (saved E r -> saved E r') /\
  (x = None -> if attempted then active_config E r' = Some previous /\ loaded r' = Some previous
               else active_config E r' = active_config E r /\ loaded r' = loaded r).
Proof.
  unfold restore_attempted. intros Hr. destruct attempted; cbn [negb] in Hr;
    [|injection Hr as <- <-; split; [apply config_frame_refl|done]].
  apply st_bind_inv in Hr as (a & r1 & Ha & Hr). pose proof (saved_restoreRoutingConfig E _ _ _ _ Ha) as Hsv1.
  apply restoreRoutingConfig_spec in Ha as (Hf1 & Hs1 & Hok1).
  apply st_bind_inv in Hr as (y & r2 & Hy & Hr). apply restore_routing_spec in Hy as (Hf2 & Ha2 & Hl2 & Hs2 & Hsv2 & _).
  injection Hr as <- <-. split; [eauto using config_frame_trans|]. split; [congruence|]. split; [auto|].
  intros Hj. destruct a; [by destruct y|]. destruct (Hok1 eq_refl). split; congruence.
Qed.

Lemma compensate_logging_spec (attempted : bool) (previous : string) (before : Settings) (oldLevel oldMode oldExit : string)
    (cause x : error) (r r' : RT) :
  compensate_logging E attempted previous before oldLevel oldMode oldExit cause r = (x, r') ->
  error_degraded x = true /\ fenced r' \/
  config_frame E r r' /\ settings (mgr r') = before /\ (saved E r -> saved E r') /\
  live_level (kernel (mgr r')) = Some oldLevel /\
  (if attempted then active_config E r' = Some previous /\ loaded r' = Some previous
   else active_config E r' = active_config E r /\ loaded r' = loaded r).
Proof.
  unfold compensate_logging. intros Hr.
  apply st_bind_inv in Hr as (a & r1 & Ha & Hr). apply restore_attempted_spec in Ha as (Hf1 & Hs1 & Hsv1 & Ha).
  apply st_bind_inv in Hr as (b & r2 & Hb & Hr). apply patch_spec in Hb as (Hf2 & Hs2 & Hl2 & Ha2 & Hsv2).
  apply st_bind_inv in Hr as (y & r3 & Hy & Hr).
  pose proof (still_confirm_level r2 _ _ _ _ Hy (still_refl E r2)) as [(Hf3 & Ha3 & Hl3 & Hs3 & Hk3 & _) Hsv3].
  apply st_bind_inv in Hr as (z & r4 & Hz & Hr). apply restore_settings_spec in Hz as (Hf4 & Ha4 & Hl4 & Hk4 & Hsv4 & Hz).
  destruct (errors_Join _ z) as [err|] eqn:Hj.
  - left. apply st_bind_inv in Hr as ([] & r5 & Hfe & Hr). apply raise_fence_spec in Hfe.
    apply st_bind_inv in Hr as (sn & r6 & Hm & Hr). injection Hr as <- <-.
    st_unfold. cbn in Hm. injection Hm as _ <-. done.
  - right. injection Hr as <- <-. destruct y as [y|]; [by destruct a, b, z|].
    assert (a = None /\ z = None) as [-> ->] by (by destruct a, z).
    apply confirm_level_spec in Hy. split; [eauto 8 using config_frame_trans|]. split; [by apply Hz|]. split; [auto|].
    split; [congruence|]. specialize (Ha eq_refl). destruct attempted; destruct Ha; split; congruence.
Qed.

(** What holds when the settings are saved and only have to be published. *)
Definition level_applied (target : LoggingSettings) (g : configCandidate) (c : settingsCandidate) (r : RT) : Prop :=
  active_config E r = Some (c_content g) /\ loaded r = Some (c_content g) /\
  live_level (kernel (mgr r)) = Some (Level target) /\ EffectiveLogging (cand_after c) = target /\
  Validate (cand_after c) = None /\ staged E c r.

(** The level and the limits that are effective have changed since [r] only by [c]. *)
Definition logging_from (c : settingsCandidate) (r : RT) : Prop :=
  EffectiveLogging (cand_before c) = EffectiveLogging (settings (mgr r)).

(** The steps of [apply_level] after the core was confirmed. *)
Lemma save_level_spec (s : Settings) (g : configCandidate) (r r' : RT) (res : result settingsCandidate) :
  let target := EffectiveLogging s in
  (check! commitRuntimeConfig E true g in
   check! confirmLoggingLevel E (Level target) in
   try! c' := onM (prepareSettings (fun s => Ok (SetLogging target s))) in
   let! '(_, err) := onM (saveSettingsCandidate (re_options E) (re_env E) c') in
   st_ret match err with Some x => Err x | None => Ok c' end) r = (res, r') ->
  re_reloader E = true -> coherent g -> in_step E r -> saved E r ->
  config_frame E r r' /\ match res with Ok c' => level_applied target g c' r' /\ logging_from c' r | Err _ => saved E r' end.
Proof.
  intros target Hr Hrel Hco Hstep Hsv.
  apply st_check_inv in Hr as [(x & -> & Hc)|(r1 & Hc & Hr)];
    pose proof (saved_commitRuntimeConfig E _ _ _ _ _ Hc Hsv) as Hsv1;
    apply commitRuntimeConfig_routed in Hc as ([Hf1 Hc] & Hmove & _); try done.
  destruct Hc as [Ha1 Hl1]. apply same_but_routing_logging in Hmove.
  apply st_check_inv in Hr as [(x & -> & Hc)|(r2 & Hc & Hr)];
    pose proof (still_confirm_level r1 _ _ _ _ Hc (still_refl E r1)) as [(Hf2 & Ha2 & Hl2 & Hs2 & Hk2 & _) Hsv2];
    [split; [eauto using config_frame_trans|auto]|]. apply confirm_level_spec in Hc.
  apply st_try_inv in Hr as [(x & -> & Hp)|(c' & r3 & Hp & Hr)];
    pose proof (still_prepareSettings E r2 _ _ _ _ Hp (still_refl E r2)) as [(Hf3 & Ha3 & Hl3 & Hs3 & Hk3 & _) Hsv3];
    [split; [eauto using config_frame_trans|auto]|].
  apply onM_inv in Hp as (w & Hp & Hr3). apply prepareSettings_spec in Hp as (Hb & Hu & Hv & Hch & _).
  apply st_bind_inv in Hr as ([cr x] & r4 & Hsave & Hr). injection Hr as <- <-.
  apply save_spec in Hsave as (Hf4 & Ha4 & Hl4 & Hk4 & Hs4 & Hx); [|cbn in Hb; congruence|done|auto].
  split; [eauto 8 using config_frame_trans|]. destruct x as [x|]; [done|]. injection Hu as Hu.
  split; [|unfold logging_from; rewrite Hb; cbn; by rewrite Hs2].
  split; [congruence|]. split; [congruence|]. split; [by rewrite Hk4, Hk3, Hk2|]. rewrite <- Hu in *.
  split; [apply EffectiveLogging_again|done].
Qed.

Lemma apply_level_spec (c : settingsCandidate) (g : configCandidate) (r r' : RT) (attempted : bool) (res : result settingsCandidate) :
  apply_level E c g r = ((attempted, res), r') -> re_reloader E = true -> coherent g -> in_step E r -> saved E r ->
  config_frame E r r' /\
  match res with
  | Ok c' => level_applied (EffectiveLogging (cand_after c)) g c' r' /\ logging_from c' r
  | Err _ => saved E r' /\ (attempted = false -> active_config E r' = active_config E r /\ loaded r' = loaded r)
  end.
Proof.
  unfold apply_level. intros Hr Hrel Hco Hstep Hsv. apply st_bind_inv in Hr as ([] & r0 & Ho & Hr). injection Ho as <-.
  apply st_bind_inv in Hr as (x & r1 & Hp & Hr). apply patch_spec in Hp as (Hf1 & Hs1 & Hl1 & Ha1 & Hsv1).
  destruct x as [x|]; [injection Hr as <- <- <-; split; [exact Hf1|]; split; [by apply Hsv1|done]|].
  apply st_bind_inv in Hr as (x & r2 & Hc & Hr).
  pose proof (still_confirm_level r1 _ _ _ _ Hc (still_refl E r1)) as [(Hf2 & Ha2 & Hl2 & Hs2 & Hk2 & _) Hsv2].
  assert (Hf : config_frame E r r2) by (eapply config_frame_trans; [exact Hf1|exact Hf2]).
  assert (Hsv3 : saved E r2) by (by apply Hsv2, Hsv1).
  assert (Hact : active_config E r2 = active_config E r) by (rewrite Ha2, Ha1; done).
  assert (Hload : loaded r2 = loaded r) by (rewrite Hl2, Hl1; done).
  destruct x as [x|]; [by injection Hr as <- <- <-|].
  apply st_bind_inv in Hr as (y & r3 & Hs & Hr). injection Hr as <- <- <-.
  apply save_level_spec in Hs as [Hf3 Hs]; try done; [|unfold in_step in *; congruence].
  split; [eauto using config_frame_trans|]. destruct y as [c'|y]; [|done]. destruct Hs as [Hs Hfrom]. split; [done|].
  unfold logging_from in *. by rewrite Hfrom, Hs2, Hs1.
Qed.

Lemma commitLoggingCore_spec (c : settingsCandidate) (g : configCandidate) (r r' : RT) (res : result settingsCandidate) :
  commitLoggingCore E c g r = (res, r') -> re_reloader E = true -> coherent g -> sound E r -> cand_before c = settings (mgr r) ->
  match res with
  | Ok c' => config_frame E r r' /\ level_applied (EffectiveLogging (cand_after c)) g c' r' /\ logging_from c' r
  | Err x =>
      error_degraded x = true /\ fenced r' \/
      put_back E r r' /\ live_level (kernel (mgr r')) = live_level (kernel (mgr r))
  end.
Proof.
  unfold commitLoggingCore. intros Hr Hrel Hco [Hgood Hsv] Hb. pose proof Hgood as (Hstep & _).
  assert (Hstill : forall r1, still E r r1 -> put_back E r r1 /\ live_level (kernel (mgr r1)) = live_level (kernel (mgr r))).
  { intros r1 Hst. split; [by apply still_put_back|]. destruct Hst as [(_ & _ & _ & _ & Hk & _) _]. by rewrite Hk. }
  apply st_try_inv in Hr as [(x & -> & Hl)|(oldLevel & r0 & Hl & Hr)];
    pose proof (still_observe_level r _ _ _ Hl (still_refl E r)) as Hst0; [auto|].
  apply onM_inv in Hl as (w & Hl & _). apply observeLoggingLevel_spec in Hl.
  apply st_bind_inv in Hr as (p & r1 & Hp & Hr). pose proof (still_capture_config E r _ _ _ Hp Hst0) as Hst1.
  apply capture_config_spec in Hp as [_ Hp]. destruct p as [previous|x]; [|injection Hr as <- <-; auto].
  specialize (Hp _ eq_refl). pose proof Hst0 as [(_ & Ha0 & _ & _) _]. rewrite Ha0 in Hp.
  apply st_try_inv in Hr as [(x & -> & Ho)|([oldMode oldExit] & r2 & Ho & Hr)];
    pose proof (still_observe_old_routing E r _ _ _ _ Ho Hst1) as Hst2; [auto|].
  pose proof Hst2 as [(Hf2 & Ha2 & Hl2 & Hs2 & Hk2 & _) Hsv2].
  apply st_bind_inv in Hr as ([attempted a] & r3 & Ha & Hr).
  apply apply_level_spec in Ha as [Hf3 Ha]; [|done|done|unfold in_step; congruence|auto].
  destruct a as [c'|x].
  { injection Hr as <- <-. split; [eauto using config_frame_trans|]. destruct Ha as [Ha Hfrom]. split; [done|].
    unfold logging_from in *. by rewrite Hfrom, Hs2. } destruct Ha as [Hsv3 Hna].
  apply st_bind_inv in Hr as (y & r4 & Hc & Hr). injection Hr as <- <-.
  apply compensate_logging_spec in Hc as [Hc|(Hf4 & Hs4 & Hsv4 & Hlive & Hact)]; [by left|right].
  cbn in Hl. split; [|congruence]. unfold in_step in Hstep.
  split_and!; [eauto using config_frame_trans|congruence| | |auto]; destruct attempted; destruct Hact; try congruence;
    destruct (Hna eq_refl); congruence.
Qed.

(** *** The whole request *)

(** A candidate that asks for [target], for the settings of [r]. *)
Definition logging_candidate (target : LoggingSettings) (c : settingsCandidate) (r : RT) : Prop :=
  cand_before c = settings (mgr r) /\ EffectiveLogging (cand_after c) = target /\
  cand_changed c = changed (cand_before c) (cand_after c) /\
  (EffectiveLogging (cand_before c) <> EffectiveLogging (cand_after c) -> Validate (cand_after c) = None).

Lemma requested_effective (op : Operation) (u : LoggingUpdate) (s s' : Settings) :
  validateLoggingUpdate op u = None ->
  EffectiveLogging (SetLogging (requested u (EffectiveLogging s)) s') = requested u (EffectiveLogging s).
Proof.
  unfold validateLoggingUpdate. intros Hv. destruct (EffectiveLogging_nonzero s) as (Hl & Hm & Hf).
  case_if_in Hv; [done|]. case_if_in Hv; [done|]. case_if_in Hv; [done|]. case_if_in Hv; [done|]. case_if_in Hv; [done|].
  apply EffectiveLogging_SetLogging; cbn.
  - destruct (lu_Level u) as [l|]; [|done]. cbn. by intros ->.
  - destruct (lu_MaxSizeMB u) as [z|]; [|done]. cbn. apply orb_false_iff in Heqb2 as [Hz%Z.ltb_ge _]. lia.
  - destruct (lu_MaxFiles u) as [z|]; [|done]. cbn. apply orb_false_iff in Heqb3 as [Hz%Z.ltb_ge _]. lia.
Qed.

Lemma same_effect_spec (target : LoggingSettings) (c : settingsCandidate) (r : RT) :
  cand_before c = settings (mgr r) -> EffectiveLogging (cand_after c) = target ->
  cand_changed c = changed (cand_before c) (cand_after c) -> Validate (cand_after c) = None ->
  logging_candidate target (same_effect c) r /\ cand_generation (same_effect c) = cand_generation c.
Proof.
  intros Hb Ha Hc Hv. unfold same_effect. case_bool_decide as Heq; [|by split_and!].
  split; [|done]. split_and!; cbn; [done|congruence| |done]. unfold changed. by rewrite bool_decide_true.
Qed.

Lemma fresh_still (rev : option Z) (r r' : RT) : still E r r' -> fresh rev (mgr r) -> fresh rev (mgr r').
Proof. intros [((_ & _ & _ & Hs) & _) _] Hf n Hn. rewrite Hs. by apply Hf. Qed.

Lemma plan_logging_spec (op : Operation) (u : LoggingUpdate) (r r' : RT) (c : settingsCandidate) (i : option captured) :
  plan_logging E L op u r = (Ok (c, i), r') -> validateLoggingUpdate op u = None ->
  logging_candidate (requested u (EffectiveLogging (settings (mgr r')))) c r' /\
  cand_generation c = configGeneration (mgr r') /\ fresh (op_IfRevision op) (mgr r') /\
  match i with
  | None => lu_Level u = None \/ loggingCoreStopped L (mgr r') = true
  | Some i => in_generation i = cand_generation c
  end.
Proof.
  unfold plan_logging. intros Hr Hv.
  apply st_check_inv in Hr as [(x & ? & _)|(r1 & Hrev & Hr)]; [done|].
  apply onM_inv in Hrev as (w1 & Hrev & Hr1). apply checkIfRevision_spec in Hrev as [-> Hfresh]. specialize (Hfresh eq_refl).
  apply st_try_inv in Hr as [(x & ? & _)|(c0 & r2 & Hp & Hr)]; [done|].
  apply onM_inv in Hp as (w2 & Hp & Hr2). pose proof (prepareSettings_same _ _ _ _ Hp) as ->.
  apply prepareSettings_spec in Hp as (Hb & Hu & Hval & Hch & Hgen). injection Hu as Hu.
  apply st_check_inv in Hr as [(x & ? & _)|(r3 & Hctx & Hr)]; [done|].
  pose proof (still_ctxErr E r2 _ _ _ Hctx (still_refl E r2)) as Hst3.
  destruct (same_effect_spec (requested u (EffectiveLogging (settings (mgr r3)))) c0 r3) as [Hcand Hgen'].
  { destruct Hst3 as [(_ & _ & _ & Hs & _) _]. rewrite Hs, Hr2. exact Hb. }
  { destruct Hst3 as [(_ & _ & _ & Hs & _) _]. rewrite <- Hu, Hs, Hr2. cbn. by eapply requested_effective. }
  { done. } { done. }
  assert (Hg3 : cand_generation (same_effect c0) = configGeneration (mgr r3)).
  { destruct Hst3 as [(_ & _ & _ & _ & _ & Hg) _]. rewrite Hg, Hgen', Hgen, Hr2. done. }
  assert (Hf3 : fresh (op_IfRevision op) (mgr r3)) by (eapply fresh_still; [exact Hst3|]; rewrite Hr2, Hr1; exact Hfresh).
  unfold st_bind at 1, st_get in Hr. cbn beta iota in Hr. case_if_in Hr.
  { injection Hr as <- <- <-. do 3 (split; [done|]). apply orb_true_iff in Heqb as [Hn%bool_decide_eq_true|Hn]; auto. }
  case_if_in Hr; [done|]. apply st_try_inv in Hr as [(x & ? & _)|(j & r4 & Hj & Hr)]; [done|].
  pose proof (still_capture_inputs E r3 _ _ _ _ Hj (still_refl E r3)) as Hst4. apply capture_inputs_generation in Hj.
  injection Hr as <- <- <-. pose proof Hst4 as [(_ & _ & _ & Hs & _ & Hg) _]. rewrite Hs, Hg.
  destruct Hcand as (Hb' & Ha' & Hc' & Hv'). split; [split_and!; [congruence|done..]|]. split; [done|].
  split; [by eapply fresh_still|done].
Qed.

Lemma recheck_logging_spec (op : Operation) (i : captured) (r r' : RT) :
  recheck_logging op i r = (None, r') -> in_generation i = configGeneration (mgr r') /\ fresh (op_IfRevision op) (mgr r').
Proof.
  intros Hr. unfold recheck_logging in Hr. apply st_bind_inv in Hr as ([h|x] & r1 & Hh & Hr); [|done].
  unfold st_bind at 1, st_get in Hr. cbn beta iota in Hr. case_if_in Hr; [done|].
  apply negb_false_iff in Heqb. unfold inputs_same in Heqb. breflect.
  apply onM_inv in Hr as (w & Hr & ->). apply checkIfRevision_spec in Hr as [-> Hf]. split; [cbn; lia|by apply Hf].
Qed.

Lemma prepareLoggingUpdate_spec (op : Operation) (u : LoggingUpdate) (r r' : RT)
    (res : result (settingsCandidate * option configCandidate)) :
  prepareLoggingUpdate E L op u r = (res, r') -> fair_others E -> validateLoggingUpdate op u = None ->
  since E r r' /\
  forall c g, res = Ok (c, g) ->
    (forall g', g = Some g' -> coherent g') /\
    logging_candidate (requested u (EffectiveLogging (settings (mgr r')))) c r' /\ fresh (op_IfRevision op) (mgr r') /\
    (g = None -> lu_Level u = None \/ loggingCoreStopped L (mgr r') = true).
Proof.
  unfold prepareLoggingUpdate. intros Hr Hfair Hval. pose proof (since_refl E r) as Hs.
  apply st_check_inv in Hr as [(x & -> & Hl)|(r1 & Hl & Hr)]; since_in Hl; [by split|].
  apply st_bind_inv in Hr as (plan & r2 & Hp & Hr). pose proof Hp as Hplan. since_in Hp.
  destruct plan as [[c [i|]]|x]; [| |apply st_bind_inv in Hr as ([] & r3 & Hu & Hr); since_in Hu; injection Hr as <- <-; by split];
    apply plan_logging_spec in Hplan as (Hc & Hg & Hfr & Hi); try done.
  - apply st_try_inv in Hr as [(x & -> & Hv)|(g & r3 & Hv & Hr)];
      (apply validate_unowned_spec in Hv as [Hs2 Hv]; [|intros; apply still_recheck_logging]); [split; [by eapply since_trans|done]|].
    injection Hr as <- <-. split; [by eapply since_trans|]. intros c' g' [= <- <-].
    destruct (Hv _ eq_refl) as (Hco & [r4 Hre] & Hd). apply recheck_logging_spec in Hre as [Hgen Hfr'].
    destruct (since_settings E _ _ Hs2 Hfair) as [_ Hse]. rewrite Hse by congruence.
    destruct Hc as (Hb & Ha & Hch & Hva). split; [by intros g' [= <-]|]. split; [|done].
    split_and!; try done. rewrite Hse by congruence. done.
  - injection Hr as <- <-. split; [done|]. intros c' g' [= <- <-]. by split.
Qed.

(** What the file writer is told for [target]. *)
Definition writer_for (target : LoggingSettings) (cfg : logging_config) : Prop :=
  exists level, ParseLevel (Level target) = Ok level /\
    cfg = mkLoggingConfig level (MaxSizeMB target * 1048576) (MaxFiles target).

(** The writer is told when something changes for it, and only then. *)
Definition told (target before : LoggingSettings) (cfg : option logging_config) : Prop :=
  if decide (before = target) then cfg = None else exists cfg', cfg = Some cfg' /\ writer_for target cfg'.

Definition logging_done (target : LoggingSettings) (core : bool) (r0 r' : RT)
    (res : result (LoggingStatus * option logging_config)) : Prop :=
  match res with
  | Ok (s, cfg) =>
      sound E r' /\ EffectiveLogging (settings (mgr r')) = target /\
      mkLoggingSettings (ls_Level s) (ls_MaxSizeMB s) (ls_MaxFiles s) = target /\
      (core = true -> live_level (kernel (mgr r')) = Some (Level target)) /\
      told target (EffectiveLogging (settings (mgr r0))) cfg
  | Err x =>
      error_degraded x = true /\ fenced r' \/
      put_back E r0 r' /\ live_level (kernel (mgr r')) = live_level (kernel (mgr r0))
  end.

Lemma stage_logging_spec (target : LoggingSettings) (c : settingsCandidate) (g : option configCandidate) (r r' : RT)
    (res : result settingsCandidate) :
  stage_logging E c g r = (res, r') -> re_reloader E = true -> (forall g', g = Some g' -> coherent g') -> sound E r ->
  logging_candidate target c r ->
  match res with
  | Ok c' =>
      logging_from c' r /\ config_frame E r r' /\ in_step E r' /\ staged E c' r' /\ EffectiveLogging (cand_after c') = target /\
      (EffectiveLogging (cand_before c') <> EffectiveLogging (cand_after c') -> Validate (cand_after c') = None) /\
      (g <> None -> live_level (kernel (mgr r')) = Some (Level target))
  | Err x =>
      error_degraded x = true /\ fenced r' \/
      put_back E r r' /\ live_level (kernel (mgr r')) = live_level (kernel (mgr r))
  end.
Proof.
  unfold stage_logging. intros Hr Hrel Hco Hso (Hb & Ha & Hch & Hv). destruct g as [g|].
  - apply commitLoggingCore_spec in Hr; try done; [|by apply Hco]. destruct res as [c'|x]; [|done].
    destruct Hr as (Hf & (Hact & Hl & Hlive & Heff & Hval & Hst) & Hfrom). rewrite Ha in *. split; [done|].
    split_and!; try done. unfold in_step. congruence.
  - apply st_bind_inv in Hr as ([cr x] & r1 & Hs & Hr). injection Hr as <- <-. pose proof Hso as [[Hstep _] Hsv].
    apply save_spec in Hs as (Hf & Hac & Hl & Hk & Hs & Hst); try done. destruct x as [x|].
    + right. split; [by split_and!|by rewrite Hk].
    + split; [unfold logging_from; by rewrite Hb|]. split_and!; try done. unfold in_step in *. congruence.
Qed.

Lemma perform_logging_spec (target : LoggingSettings) (op : Operation) (c : settingsCandidate) (g : option configCandidate)
    (r r' : RT) (res : result (LoggingStatus * option logging_config)) :
  perform_logging E L op c g r = (res, r') -> re_reloader E = true -> (forall g', g = Some g' -> coherent g') -> sound E r ->
  logging_candidate target c r -> fresh (op_IfRevision op) (mgr r) ->
  logging_done target (match g with Some _ => true | None => false end) r r' res.
Proof.
  unfold perform_logging. intros Hr Hrel Hco Hso Hc Hfr.
  apply st_try_inv in Hr as [(x & -> & Hs)|(c' & r1 & Hs & Hr)]; eapply stage_logging_spec in Hs; try done.
  destruct Hs as (Hfrom & Hf & Hstep & Hst & Heff & Hval & Hlive). unfold logging_from in Hfrom. destruct Hso as [Hg Hsv].
  pose proof (good_frame E _ _ Hf Hstep Hg) as Hg1. pose proof Hf as (_ & _ & _ & Hstore).
  apply st_bind_inv in Hr as ([] & r2 & Hp & Hr).
  eapply publish_sound in Hp as (Hso2 & Hs2 & Hstore2 & Hw2); [|done|done].
  apply st_bind_inv in Hr as ([] & r3 & Ho & Hr).
  assert (Hw3 : sound E r3 /\ mgr r3 = mgr r2).
  { destruct g; injection Ho as <-; [|done]. split; [|done]. destruct Hso2 as [Hg2 Hsv2]. split; [|exact Hsv2]. by eapply good_calm. }
  destruct Hw3 as [Hso3 Hm3].
  assert (Hcfg : exists cfg, (if bool_decide (EffectiveLogging (cand_before c') = EffectiveLogging (cand_after c')) then Ok None
    else match loggingConfig (EffectiveLogging (cand_after c')) with Ok cfg => Ok (Some cfg) | Err x => Err x end) = Ok cfg /\
    told target (EffectiveLogging (settings (mgr r))) cfg).
  { unfold told. rewrite <- Hfrom, <- Heff. destruct (decide (EffectiveLogging (cand_before c') = EffectiveLogging (cand_after c'))) as [Heq|Heq];
      [exists None; by rewrite bool_decide_true by done|]. rewrite bool_decide_false by done. destruct (loggingConfig_valid _ (Hval Heq)) as (level & Hpl & Hcl). rewrite Hcl.
    eexists. split; [done|]. eexists. split; [done|]. by exists level. }
  destruct Hcfg as (cfg & Hcfg & Hwr). rewrite Hcfg in Hr. apply st_bind_inv in Hr as ([sn x] & r4 & Hd & Hr).
  apply (snapshot_sound E (fun s => s)) in Hd as (Hx & Hso4 & Hs4 & Hw4); [|cbn; rewrite Hm3; intros n Hn; rewrite Hstore2, Hstore; by apply Hfr|done|done].
  cbn in Hx. subst x. unfold st_bind, st_get in Hr. injection Hr as <- <-.
  split; [done|]. rewrite Hs4, Hm3, Hs2. split; [done|]. split; [rewrite Heff; by destruct target|]. split; [|done].
  intros Hcore. destruct Hw2 as (_ & _ & _ & Hk2), Hw4 as (_ & _ & _ & Hk4). rewrite Hk4, Hm3, Hk2. apply Hlive. by destruct g.
Qed.

End Lemmas.

(** ** Theorems *)

(** C35. A change of the log level or of the limits of the log files settles.  On
    success the settings in memory and on disk hold the requested values and keep
    the others, the answer reports them, the file writer is told exactly these
    values when they differ from the ones before and nothing otherwise, and when the level was requested of a core that is not
    stopped, the core reports it.  On failure the configuration file, the running
    configuration and the settings are those the request found and the core
    reports the level it reported, or the daemon is marked degraded and refuses
    every further mutation. *)
Theorem logging_update_settles `{CaseFold} `{SourceSyntax} `{CatalogYAML} `{DocumentYAML} `{PEM} `{Sha256}
    {Env FS AEnv W : Type} `{SettingsFile Env FS} `{AtomicFile AEnv W} (E : rt_env Env FS AEnv W) (L : logging_env)
    (op : Operation) (u : LoggingUpdate) (r r' : Runtime FS AEnv W) (res : result (LoggingStatus * option logging_config)) :
  UpdateLogging E L op u r = (res, r') -> fair_others E -> re_reloader E = true -> sound E r ->
  exists r0, since E r r0 /\ sound E r0 /\
  let target := requested u (EffectiveLogging (settings (mgr r0))) in
  match res with
  | Ok (s, cfg) =>
      sound E r' /\ EffectiveLogging (settings (mgr r')) = target /\
      mkLoggingSettings (ls_Level s) (ls_MaxSizeMB s) (ls_MaxFiles s) = target /\
      (lu_Level u = None \/ loggingCoreStopped L (mgr r0) = true \/ live_level (kernel (mgr r')) = Some (Level target)) /\
      told target (EffectiveLogging (settings (mgr r0))) cfg
  | Err x =>
      error_degraded x = true /\ mutationDegraded (mgr r') = true /\ Health (store (mgr r')) = "degraded"%string \/
      put_back E r0 r' /\ sound E r' /\ live_level (kernel (mgr r')) = live_level (kernel (mgr r0))
  end.
Proof.
  unfold UpdateLogging. intros Hr Hfair Hrel Hso. pose proof (since_refl E r) as Hs.
  assert (Hnone : forall r1, since E r r1 -> since E r r1 /\ sound E r1 /\
    (put_back E r1 r1 /\ sound E r1 /\ live_level (kernel (mgr r1)) = live_level (kernel (mgr r1)))).
  { intros r1 Hs1. destruct (refused_restored E _ _ Hs1 Hfair Hso) as (_ & Hso1 & Hre & _). by split_and!. }
  case_if_in Hr; [injection Hr as <- <-; exists r; destruct (Hnone r Hs) as (? & ? & ?); by split_and!; [..|right]|].
  destruct (validateLoggingUpdate op u) as [x|] eqn:Hval;
    [injection Hr as <- <-; exists r; destruct (Hnone r Hs) as (? & ? & ?); by split_and!; [..|right]|].
  apply st_check_inv in Hr as [(x & -> & Ha)|(r1 & Ha & Hr)]; since_in Ha;
    [exists r'; destruct (Hnone r' Ha) as (? & ? & ?); by split_and!; [..|right]|].
  apply st_try_inv in Hr as [(x & -> & Hp)|([c g] & r2 & Hp & Hr)]; apply prepareLoggingUpdate_spec in Hp as [Hs2 Hp]; try done;
    pose proof (since_trans E _ _ _ Ha Hs2) as Hs0.
  { exists r'. destruct (Hnone r' Hs0) as (? & ? & ?). by split_and!; [..|right]. }
  destruct (Hp c g eq_refl) as (Hco & Hcand & Hfr & Hg). pose proof (since_sound E _ _ Hs0 Hfair Hso) as Hso2.
  apply st_bind_inv in Hr as (res' & r3 & Hr3 & Hr). eapply perform_logging_spec in Hr3; try done.
  apply st_bind_inv in Hr as ([] & r4 & Hcl & Hr). apply st_bind_inv in Hr as ([] & r5 & Hu & Hr). injection Hr as <- <-.
  destruct (finish_still E g _ _ _ Hcl Hu Hco) as [Hst Hfence]. pose proof Hst as [(_ & _ & _ & Hse & Hk & _) _].
  exists r2. split; [done|]. split; [done|]. destruct res' as [[status cfg]|x].
  - destruct Hr3 as (Hso3 & Hn & Hsel & Hlive & Hw). split; [by eapply put_back_sound; [apply still_put_back|]|].
    rewrite Hse, Hk. do 2 (split; [done|]). split; [|done]. destruct g as [g|]; [right; right; auto|].
    destruct (Hg eq_refl); auto.
  - destruct Hr3 as [[Hx Hf]|[Hre Hlv]]; [left; by split; [|apply Hfence]|right].
    pose proof (put_back_trans E _ _ _ Hre (still_put_back E _ _ Hst)) as Hre'. rewrite Hk. split; [done|].
    split; [by eapply put_back_sound|done].
Qed.

(** ** Witnesses *)

Section Witnesses.

#[local] Existing Instance ex_fold.
#[local] Existing Instance ex_yaml.
#[local] Existing Instance ex_pem.
#[local] Existing Instance ex_hash.
#[local] Existing Instance ex_settings_file.
#[local] Existing Instance memory_disk.

Definition ex_level (level : string) : Kernel :=
  mkKernel {["mode" := AString "rule"; "log-level" := AString level]}%string None.

(** [ex_runtime] with the cache of its subscription and a core at level info. *)
Definition ex_logging_runtime : Runtime (option Settings) bool (gmap path string) :=
  set_mgr (set_kernel (ex_level "info") (mgr ex_runtime))
    (set_svc (mkService example_catalog_path "/c" settled_example
                {[ example_catalog_path := "one"%string; ex_config_path := "old"%string;
                   ("/c"%string, (ActiveID settled_example ++ ".yaml")%string) :=
                     match doc_Marshal (document_value {["proxy-providers"%string := AString "none"]}) with Ok c => c | Err _ => ""%string end ]}
                (fun _ => mkIO true None) 0)
       ex_runtime).

(** A PATCH leaves the core at [level], and so does a reload; saving goes as [ok]
    says. *)
Definition ex_logging_env (level : string) (ok : bool) : rt_env bool (option Settings) bool (gmap path string) :=
  mkRtEnv (mkOptions false "" "settings.yaml" true true false) ex_config_path true true
    (mkEnvironment None (fun _ => None) (fun _ => None) (fun _ _ => (ex_level level, None)) (fun _ _ p => (p, None)) (fun _ => ok))
    (ex_trusted_env 100) (fun n => mkReload None true (ex_level level)) (fun _ => None) (fun r => r).

Definition ex_log_files : logging_env := mkLoggingEnv true "/var/log/mihari".

Definition ex_logging_update : LoggingUpdate := mkLoggingUpdate (Some "debug"%string) None (Some 5).

Lemma ex_logging_sound (level : string) (ok : bool) : sound (ex_logging_env level ok) ex_logging_runtime.
Proof.
  split; [|by intros _; vm_compute]. split; [vm_compute; reflexivity|]. split; [by repeat split|].
  split; [apply settle_sound with (c := example_catalog); vm_compute; reflexivity|].
  split; [|reflexivity]. exists "one"%string. split; vm_compute; reflexivity.
Qed.

Lemma ex_logging_fair (level : string) (ok : bool) : fair_others (ex_logging_env level ok).
Proof. split; done. Qed.

Lemma ex_logging_applied :
  is_Ok (fst (UpdateLogging (ex_logging_env "debug" true) ex_log_files ex_op ex_logging_update ex_logging_runtime)) = true.
Proof. vm_compute. reflexivity. Qed.

(** The log files get their new limit. *)
Lemma logging_update_settles_witness :
  let r' := snd (UpdateLogging (ex_logging_env "debug" true) ex_log_files ex_op ex_logging_update ex_logging_runtime) in
  MaxFiles (EffectiveLogging (settings (mgr r'))) = 5 /\ Level (EffectiveLogging (settings (mgr r'))) = "debug"%string.
Proof.
  pose proof ex_logging_applied as Hok.
  destruct (UpdateLogging (ex_logging_env "debug" true) ex_log_files ex_op ex_logging_update ex_logging_runtime) as [res r'] eqn:Hr.
  cbn [fst snd] in *.
  destruct (logging_update_settles (ex_logging_env "debug" true) ex_log_files ex_op ex_logging_update ex_logging_runtime r' res Hr
    (ex_logging_fair "debug" true) eq_refl (ex_logging_sound "debug" true)) as (r0 & _ & _ & Hres).
  destruct res as [[status cfg]|x]; [|discriminate Hok]. destruct Hres as (_ & Hn & _). rewrite Hn. split; reflexivity.
Defined.

(** Saving fails and the core keeps the new level: the fence is up. *)
Example logging_degrades :
  let '(res, r') := UpdateLogging (ex_logging_env "debug" false) ex_log_files ex_op ex_logging_update ex_logging_runtime in
  (is_Ok res, mutationDegraded (mgr r'), Health (store (mgr r')), loaded r') =
  (false, true, "degraded"%string, Some "old"%string).
Proof. vm_compute. reflexivity. Qed.

End Witnesses.
