(* ===== verification/InstallJournal.v ===== *)
(** * InstallJournal: the write-ahead journal of an installation

    Models [internal/app/install_journal.go], the trusted files of
    [install_journal_unix.go] and the strict decoding of [install_request.go].

    An installation writes what it is about to do before it does it.  The
    journal is one JSON document in a directory that only root can write; every
    operation on that directory takes the next fault of the environment, so it
    may succeed, fail without an effect, or fail after its effect.  Then a write
    can be published without being known to be durable, and the caller learns
    that from [JournalDurability].

    The bytes of documents go through [encoding/json], whose codec for a journal
    is the class [JournalJSON]; the check for unique keys, which the source does
    on the token stream, is written out on the tree that the tokens spell. *)

From Stdlib Require Import Ascii HexadecimalString.
From S2P Require Import Prelude GoStd SelfUpdate.

(** ** Constants *)

Definition InstallJournalSchema : string := "mihari.install-transaction/v1".
Definition MaxInstallJournalBytes : Z := 1048576.
Definition installJournalFileName : string := "install-transaction.json".

Definition InstallPhasePrepared : string := "prepared".
Definition InstallPhaseStopped : string := "stopped".
Definition InstallPhaseDataCommitted : string := "data_committed".
Definition InstallPhaseBinariesCommitted : string := "binaries_committed".
Definition InstallPhaseDefinitionCommitted : string := "definition_committed".
Definition InstallPhaseActivationCommitted : string := "activation_committed".
Definition InstallPhaseComplete : string := "complete".

Definition InstallDataCreate : string := "create".
Definition InstallDataRetain : string := "retain".

Definition InstallAuthoritySource : string := "source".
Definition InstallAuthorityTarget : string := "target".

Definition JournalActionIntent : string := "intent".
Definition JournalActionDone : string := "done".

Definition InstallOperationInstall : string := "install".
Definition InstallOperationReinstall : string := "reinstall".
Definition InstallOperationUpdate : string := "update".
Definition InstallOperationRecover : string := "recover".
Definition InstallLayoutSystem : string := "system".
Definition InstallLayoutPrivate : string := "private".

Definition JournalActionMask : string := "mask".
Definition JournalActionUnmask : string := "unmask".
Definition JournalActionDisable : string := "disable".
Definition JournalActionEnable : string := "enable".
Definition JournalActionStop : string := "stop".
Definition JournalActionStart : string := "start".
Definition JournalActionDataPublish : string := "data_publish".
Definition JournalActionDataIsolate : string := "data_isolate".
Definition JournalActionManagedBinary : string := "managed_binary".
Definition JournalActionPathBinary : string := "path_binary".
Definition JournalActionChannel : string := "channel".
Definition JournalActionDefinition : string := "definition".
Definition JournalActionDropin : string := "dropin".
Definition JournalActionDisabled : string := "disabled".
Definition JournalActionReload : string := "reload".
Definition JournalActionValidationStart : string := "validation_start".
Definition JournalActionValidationStop : string := "validation_stop".
Definition JournalActionActivation : string := "activation".
Definition JournalActionRestoreMask : string := "restore_mask".
Definition JournalActionRestoreUnmask : string := "restore_unmask".
Definition JournalActionRestoreDisable : string := "restore_disable".
Definition JournalActionRestoreEnable : string := "restore_enable".
Definition JournalActionRestoreStop : string := "restore_stop".
Definition JournalActionRestoreStart : string := "restore_start".
Definition JournalActionRestoreData : string := "restore_data".
Definition JournalActionRestoreManagedBinary : string := "restore_managed_binary".
Definition JournalActionRestorePathBinary : string := "restore_path_binary".
Definition JournalActionRestoreChannel : string := "restore_channel".
Definition JournalActionRestoreDefinition : string := "restore_definition".
Definition JournalActionRestoreDropin : string := "restore_dropin".
Definition JournalActionRestoreDisabled : string := "restore_disabled".
Definition JournalActionRestoreReload : string := "restore_reload".
Definition JournalActionRestoreValidation : string := "restore_validation".

Definition JournalRoleData : string := "data".
Definition JournalRoleChannel : string := "channel".
Definition JournalRoleManagedBinary : string := "managed_binary".
Definition JournalRolePathBinary : string := "path_binary".
Definition JournalRoleDefinition : string := "definition".
Definition JournalRoleValidation : string := "validation".
Definition JournalRoleActivation : string := "activation".

(** A [switch] over strings with a list of cases. *)
Definition one_of (s : string) (l : list string) : bool := existsb (String.eqb s) l.

Definition validJournalActionKind (kind : string) : bool :=
  one_of kind
    [JournalActionMask; JournalActionUnmask; JournalActionDisable; JournalActionEnable; JournalActionStop;
     JournalActionStart; JournalActionDataPublish; JournalActionDataIsolate; JournalActionManagedBinary;
     JournalActionPathBinary; JournalActionChannel; JournalActionDefinition; JournalActionDropin;
     JournalActionDisabled; JournalActionReload; JournalActionValidationStart; JournalActionValidationStop;
     JournalActionActivation; JournalActionRestoreMask; JournalActionRestoreUnmask;
     JournalActionRestoreDisable; JournalActionRestoreEnable; JournalActionRestoreStop;
     JournalActionRestoreStart; JournalActionRestoreData; JournalActionRestoreManagedBinary;
     JournalActionRestorePathBinary; JournalActionRestoreChannel; JournalActionRestoreDefinition;
     JournalActionRestoreDropin; JournalActionRestoreDisabled; JournalActionRestoreReload;
     JournalActionRestoreValidation].

Definition validJournalRole (role : string) : bool :=
  one_of role
    ["source"; "target"; JournalRoleData; "install"; "endpoint"; "credential"; JournalRoleChannel;
     JournalRoleManagedBinary; JournalRolePathBinary; JournalRoleDefinition; "dropin"; JournalRoleValidation;
     JournalRoleActivation].

(** ** Data *)

Record JournalObject := mkJournalObject {
  Present : bool;
  SHA256 : string;
  Dev : string;
  Ino : string;
  MountID : string;
  obj_BootID : string;
  Marker : string;
  Identity : string
}.

#[export] Instance JournalObject_eq_dec : EqDecision JournalObject.
Proof. solve_decision. Defined.

(** [JournalObject{}]. *)
Definition no_object : JournalObject := mkJournalObject false "" "" "" "" "" "" "".

Record ServiceBackup := mkServiceBackup {
  Ref : string;
  sb_SHA256 : string;
  sb_Identity : string
}.

Record JournalAction := mkAction {
  Seq : Z;
  Kind : string;
  TargetRole : string;
  OldState : string;
  BackupRef : string;
  NewState : string;
  CandidateRef : string;
  Status : string
}.

#[export] Instance ServiceBackup_eq_dec : EqDecision ServiceBackup.
Proof. solve_decision. Defined.
#[export] Instance JournalAction_eq_dec : EqDecision JournalAction.
Proof. solve_decision. Defined.

(** [CreatedAt] is the number of nanoseconds since the zero time. *)
Record InstallJournal := mkJournal {
  Schema : string;
  TransactionID : string;
  Operation : string;
  Phase : string;
  Mode : string;
  SourcePath : string;
  TargetPath : string;
  InstallPath : string;
  EndpointPath : string;
  CredentialPath : string;
  DataRoot : string;
  BootID : string;
  SourceIdentity : JournalObject;
  TargetIdentity : JournalObject;
  InstallIdentity : JournalObject;
  EndpointIdentity : JournalObject;
  CredentialIdentity : JournalObject;
  CandidateHash : string;
  BackupHash : string;
  DataAction : string;
  j_ServiceBackup : ServiceBackup;
  OldRunning : bool;
  OldEnabled : bool;
  RecoveryAuthority : string;
  CreatedAt : Z;
  TransactionMarker : JournalObject;
  Actions : list JournalAction
}.

#[export] Instance InstallJournal_eq_dec : EqDecision InstallJournal.
Proof. solve_decision. Defined.

(** Assignments to one field of a journal or an action. *)
Definition set_Actions (l : list JournalAction) (j : InstallJournal) : InstallJournal :=
  mkJournal (Schema j) (TransactionID j) (Operation j) (Phase j) (Mode j) (SourcePath j) (TargetPath j)
    (InstallPath j) (EndpointPath j) (CredentialPath j) (DataRoot j) (BootID j) (SourceIdentity j)
    (TargetIdentity j) (InstallIdentity j) (EndpointIdentity j) (CredentialIdentity j) (CandidateHash j)
    (BackupHash j) (DataAction j) (j_ServiceBackup j) (OldRunning j) (OldEnabled j) (RecoveryAuthority j)
    (CreatedAt j) (TransactionMarker j) l.

Definition set_Phase (p : string) (j : InstallJournal) : InstallJournal :=
  mkJournal (Schema j) (TransactionID j) (Operation j) p (Mode j) (SourcePath j) (TargetPath j)
    (InstallPath j) (EndpointPath j) (CredentialPath j) (DataRoot j) (BootID j) (SourceIdentity j)
    (TargetIdentity j) (InstallIdentity j) (EndpointIdentity j) (CredentialIdentity j) (CandidateHash j)
    (BackupHash j) (DataAction j) (j_ServiceBackup j) (OldRunning j) (OldEnabled j) (RecoveryAuthority j)
    (CreatedAt j) (TransactionMarker j) (Actions j).

Definition set_RecoveryAuthority (a : string) (j : InstallJournal) : InstallJournal :=
  mkJournal (Schema j) (TransactionID j) (Operation j) (Phase j) (Mode j) (SourcePath j) (TargetPath j)
    (InstallPath j) (EndpointPath j) (CredentialPath j) (DataRoot j) (BootID j) (SourceIdentity j)
    (TargetIdentity j) (InstallIdentity j) (EndpointIdentity j) (CredentialIdentity j) (CandidateHash j)
    (BackupHash j) (DataAction j) (j_ServiceBackup j) (OldRunning j) (OldEnabled j) a
    (CreatedAt j) (TransactionMarker j) (Actions j).

Definition set_Seq (n : Z) (a : JournalAction) : JournalAction :=
  mkAction n (Kind a) (TargetRole a) (OldState a) (BackupRef a) (NewState a) (CandidateRef a) (Status a).
Definition set_Status (s : string) (a : JournalAction) : JournalAction :=
  mkAction (Seq a) (Kind a) (TargetRole a) (OldState a) (BackupRef a) (NewState a) (CandidateRef a) s.

Record JournalDurability := mkDurability {
  Published : bool;
  Durable : bool;
  Object : JournalObject
}.
Definition not_published : JournalDurability := mkDurability false false no_object.

Inductive ActionProgress := ActionNotStarted | ActionStarted.

(** ** Errors *)

Definition invalidInstallJournal (cause : option error) : error :=
  diagnostics_Wrap (mkAPIError CodeDataFailure "invalid install journal" false) cause.
Definition unknownInstallState : error :=
  api_error CodeInvalidState "install recovery identity is unknown".

(** ** Validation *)

(** [filepath.IsAbs] adds nothing to the first test on Unix. *)
Definition validAbsPath (path : string) : bool :=
  negb (String.eqb path "") && negb (Contains path (String Ascii.zero "")) && HasPrefix path "/".

Definition valid_hex (n : nat) (value : string) : bool :=
  match hex_decode value with
  | Some raw => (length raw =? n)%nat && String.eqb (hex_encode raw) value
  | None => false
  end.
Definition validSHA256 (value : string) : bool := valid_hex 32 value.
Definition validTransactionID (value : string) : bool := valid_hex 16 value.

Definition validateJournalObject (object : JournalObject) (required : bool) : option error :=
  if negb (Present object) then
    if negb (bool_decide (object = no_object)) then Some (invalidInstallJournal None)
    else if required then Some (invalidInstallJournal None)
    else None
  else if negb (validSHA256 (SHA256 object)) || String.eqb (Dev object) "" || String.eqb (Ino object) ""
          || String.eqb (MountID object) "" || String.eqb (obj_BootID object) ""
          || String.eqb (Marker object) "" || String.eqb (Identity object) ""
  then Some (invalidInstallJournal None)
  else None.

Definition validateJournalAction (action : JournalAction) : option error :=
  if (Seq action <? 1) || String.eqb (OldState action) "" || String.eqb (NewState action) ""
     || String.eqb (OldState action) (NewState action)
  then Some (invalidInstallJournal None)
  else if negb (one_of (Status action) [JournalActionIntent; JournalActionDone])
  then Some (invalidInstallJournal None)
  else if negb (validJournalActionKind (Kind action)) || negb (validJournalRole (TargetRole action))
  then Some (invalidInstallJournal None)
  else None.

(** The loop over the actions: the [i]-th has sequence number [i+1]. *)
Fixpoint validate_actions (i : Z) (l : list JournalAction) : option error :=
  match l with
  | [] => None
  | a :: l =>
      if negb (Seq a =? i + 1) then Some (invalidInstallJournal None)
      else match validateJournalAction a with Some e => Some e | None => validate_actions (i + 1) l end
  end.

(** The first error of a sequence of checks. *)
Fixpoint first_error (l : list (option error)) : option error :=
  match l with
  | [] => None
  | Some e :: _ => Some e
  | None :: l => first_error l
  end.

Definition refuse (b : bool) : option error := if b then Some (invalidInstallJournal None) else None.

Section Hashed.
Context `{Sha256} `{Unicode}.

Definition sha256HexBytes (raw : string) : string := hex_encode (sha256 raw).
Definition sha256Hex (value : string) : string := sha256HexBytes value.

Definition validateInstallJournal (j : InstallJournal) : option error :=
  first_error
    [ refuse (negb (String.eqb (Schema j) InstallJournalSchema) || negb (validTransactionID (TransactionID j))
              || String.eqb (BootID j) "" || (CreatedAt j =? 0));
      refuse (negb (one_of (Operation j) [InstallOperationInstall; InstallOperationReinstall;
                                          InstallOperationUpdate; InstallOperationRecover]));
      refuse (negb (one_of (Phase j) [InstallPhasePrepared; InstallPhaseStopped; InstallPhaseDataCommitted;
                                      InstallPhaseBinariesCommitted; InstallPhaseDefinitionCommitted;
                                      InstallPhaseActivationCommitted; InstallPhaseComplete]));
      refuse (negb (one_of (Mode j) [InstallLayoutSystem; InstallLayoutPrivate]));
      refuse (negb (one_of (DataAction j) [InstallDataCreate; InstallDataRetain]));
      refuse (negb (one_of (RecoveryAuthority j) [InstallAuthoritySource; InstallAuthorityTarget]));
      refuse (negb (forallb validAbsPath
                      [TargetPath j; InstallPath j; EndpointPath j; CredentialPath j; DataRoot j]));
      refuse (negb (String.eqb (SourcePath j) "") && negb (validAbsPath (SourcePath j)));
      validateJournalObject (SourceIdentity j) (negb (String.eqb (SourcePath j) ""));
      validateJournalObject (TargetIdentity j) false;
      validateJournalObject (InstallIdentity j) false;
      validateJournalObject (EndpointIdentity j) false;
      validateJournalObject (CredentialIdentity j) false;
      refuse (negb (validSHA256 (CandidateHash j)) || negb (validSHA256 (BackupHash j)));
      refuse (String.eqb (Ref (j_ServiceBackup j)) ""
              || Contains (ToLower (Ref (j_ServiceBackup j))) "env"
              || negb (validSHA256 (sb_SHA256 (j_ServiceBackup j)))
              || String.eqb (sb_Identity (j_ServiceBackup j)) "");
      validateJournalObject (TransactionMarker j) true;
      refuse (negb (String.eqb (Marker (TransactionMarker j)) (TransactionID j))
              || negb (String.eqb (SHA256 (TransactionMarker j)) (sha256Hex (TransactionID j))));
      validate_actions 0 (Actions j) ].

End Hashed.

Definition transactionMarkerPath (id : string) : string := "transactions/" ++ id ++ "/transaction-id".

(** ** Comparing what is recorded with what is found *)

Definition IncompleteActions (j : InstallJournal) : list JournalAction :=
  List.filter (fun a => negb (String.eqb (Status a) JournalActionDone)) (Actions j).

Definition ClassifyObservedAction (action : JournalAction) (actualState : string) : result ActionProgress :=
  if String.eqb actualState (OldState action) then Ok ActionNotStarted
  else if String.eqb actualState (NewState action) then Ok ActionStarted
  else Err unknownInstallState.

Definition MatchJournalObject (recorded actual : JournalObject) : option error :=
  if negb (Present recorded) && negb (Present actual) then None
  else if negb (Present recorded) || negb (Present actual) then Some unknownInstallState
  else if negb (String.eqb (SHA256 recorded) (SHA256 actual)) || negb (String.eqb (Marker recorded) (Marker actual))
  then Some unknownInstallState
  else if negb (String.eqb (obj_BootID recorded) (obj_BootID actual)) then None
  else if negb (String.eqb (Dev recorded) (Dev actual)) || negb (String.eqb (Ino recorded) (Ino actual))
          || negb (String.eqb (MountID recorded) (MountID actual))
          || negb (String.eqb (Identity recorded) (Identity actual))
  then Some unknownInstallState
  else None.

(** ** Strict JSON

    [jvalue] is what the tokens of [json.Decoder] spell: the keys of an object
    in their order and with repetitions. *)
Inductive jvalue :=
| JNull
| JScalar
| JArray (l : list jvalue)
| JObject (l : list (string * jvalue)).

(** The tree of a text that is one JSON value followed by nothing but space. *)
Class JSONTree := { json_tree : string -> option jvalue }.

(** [json.Marshal] of a journal, and [Decode] with unknown fields refused. *)
Class JournalJSON := {
  json_Marshal_journal : InstallJournal -> option string;
  json_Unmarshal_journal : string -> option InstallJournal
}.

(** The keys seen, unless one repeats or a value is refused. *)
Fixpoint unique_members (check : jvalue -> bool) (seen : list string) (l : list (string * jvalue))
    : option (list string) :=
  match l with
  | [] => Some seen
  | (k, v) :: l => if one_of k seen || negb (check v) then None else unique_members check (k :: seen) l
  end.

Fixpoint uniqueJSONValue (depth : Z) (v : jvalue) : bool :=
  if 16 <? depth then false
  else match v with
       | JNull => false
       | JScalar => true
       | JArray l => forallb (uniqueJSONValue (depth + 1)) l
       | JObject l =>
           (fix members (seen : list string) (l : list (string * jvalue)) : bool :=
              match l with
              | [] => true
              | (k, v) :: l => negb (one_of k seen) && uniqueJSONValue (depth + 1) v && members (k :: seen) l
              end) [] l
       end.

Definition uniqueJSONObject (v : jvalue) : option (list string) :=
  match v with JObject l => unique_members (uniqueJSONValue 1) [] l | _ => None end.

Definition decodeStrictJSON `{JSONTree} {A} (decode : string -> option A) (max : Z) (data : string)
    : result (list string * A) :=
  if (max <? len data) || negb (ValidString data) then Err (ESentinel ErrInvalid)
  else match json_tree data with
       | None => Err (EText "json")
       | Some v =>
           match uniqueJSONObject v with
           | None => Err (ESentinel ErrInvalid)
           | Some keys => match decode data with None => Err (EText "json") | Some a => Ok (keys, a) end
           end
       end.

(** ** The trusted directory *)

(** A file: its bytes, and the device and number of its inode. *)
Record entry := mkEntry {
  content : string;
  inode : N * N
}.

(** [FileIdentity.Key] of [internal/platform]: both numbers with [%x]. *)
Definition hex_number (n : N) : string := HexadecimalString.NilZero.string_of_uint (N.to_hex_uint n).
Definition Key (id : N * N) : string := hex_number (fst id) ++ ":" ++ hex_number (snd id).

Record jdisk := mkDisk {
  jtick : nat;
  jfiles : gmap string entry
}.

(** How the [n]-th operation goes, the inode a file written at [n] gets, and
    what the process observed of the directory when it opened it. *)
Record jenv := mkJenv {
  jio : nat -> fault;
  jinode : nat -> N * N;
  jidentity : string;
  jboot : string
}.

Definition next_tick : st jdisk nat :=
  fun d => (jtick d, mkDisk (S (jtick d)) (jfiles d)).
Definition write_entry (name : string) (f : entry) : st jdisk unit :=
  st_modify (fun d => mkDisk (jtick d) (<[name := f]> (jfiles d))).

Definition ErrIdentityMismatch : error := EText "identity mismatch".

Definition installJournalPathAllowed (path : string) : bool :=
  String.eqb path installJournalFileName
  || match Split "/" path with
     | [a; id; name] =>
         String.eqb a "transactions" && validTransactionID id
         && one_of name ["transaction-id"; "unit"; "unit-bootstrap"; "ready.json"; "validation-launch.json"]
     | _ => false
     end.

Section Store.
Context `{Sha256} `{Unicode} `{JSONTree} `{JournalJSON} (e : jenv).

Definition jio_next : st jdisk fault := let! n := next_tick in st_ret (jio e n).

Definition mountID : string := match Cut (jidentity e) "@" with Some (_, rest) => rest | None => "" end.

Definition readInstallFile (limit : Z) (raw : string) : result string :=
  if limit <? len raw then Err (invalidInstallJournal None) else Ok raw.

(** [unixJournalFiles.observe]. *)
Definition observe_file (name : string) (f : entry) : result JournalObject :=
  match readInstallFile MaxInstallJournalBytes (content f) with
  | Err err => Err err
  | Ok raw =>
      let key := Key (inode f) in
      let '(dev, ino) := match Cut key ":" with Some p => p | None => (key, "") end in
      Ok (mkJournalObject true (sha256HexBytes raw) dev ino mountID (jboot e)
            (if HasSuffix name "/transaction-id" then raw else "") key)
  end.

Definition inspect (name : string) : st jdisk (result JournalObject) :=
  let! f := jio_next in
  match fault_error f with
  | Some err => st_ret (Err err)
  | None =>
      if negb (installJournalPathAllowed name) then st_ret (Err (ESentinel ErrInvalid))
      else
        let! d := st_get in
        match jfiles d !! name with
        | None => st_ret (Ok no_object)
        | Some f => st_ret (observe_file name f)
        end
  end.

Definition read (name : string) (limit : Z) : st jdisk (result string) :=
  let! f := jio_next in
  match fault_error f with
  | Some err => st_ret (Err err)
  | None =>
      if negb (installJournalPathAllowed name) then st_ret (Err (ESentinel ErrInvalid))
      else
        let! d := st_get in
        match jfiles d !! name with
        | None => st_ret (Err (ESentinel ErrNotExist))
        | Some f => st_ret (readInstallFile limit (content f))
        end
  end.

(** [unixJournalFiles.expected]: may the file in place be replaced? *)
Definition expected (name : string) (want : JournalObject) (found : option entry) : option error :=
  match found with
  | None => if Present want then Some (ESentinel ErrNotExist) else None
  | Some f =>
      match observe_file name f with
      | Err err => Some err
      | Ok observed =>
          if Present want && negb (String.eqb (SHA256 observed) (SHA256 want)) then Some ErrIdentityMismatch
          else if Present want && String.eqb (obj_BootID want) (jboot e)
                  && negb (String.eqb (Identity want) (Identity observed))
          then Some ErrIdentityMismatch
          else None
      end
  end.

(** [unixJournalFiles.inspectPublished]. *)
Definition inspectPublished (name : string) : st jdisk (result JournalObject) :=
  let! f := jio_next in
  match fault_error f with
  | Some err => st_ret (Err err)
  | None =>
      let! d := st_get in
      match jfiles d !! name with
      | None => st_ret (Err (ESentinel ErrNotExist))
      | Some f => st_ret (observe_file name f)
      end
  end.

(** [closeParent]: the directory of the journal itself stays open. *)
Definition closeParent (name : string) : st jdisk (option error) :=
  if String.eqb name installJournalFileName then st_ret None
  else let! f := jio_next in st_ret (fault_error f).

(** The write proper: replace the file, then look at what is there. *)
Definition write_published (name data : string) : st jdisk (JournalDurability * option error) :=
  let! n := next_tick in
  let f := jio e n in
  do! (if fault_effect f then write_entry name (mkEntry data (jinode e n)) else st_ret tt) in
  let! seen := inspectPublished name in
  let actual := match seen with Ok a => a | Err _ => no_object end in
  let published := is_Ok seen && Present actual && String.eqb (SHA256 actual) (sha256HexBytes data) in
  match fault_error f, seen with
  | Some err, _ => st_ret (mkDurability published false actual, Some err)
  | None, Err err => st_ret (mkDurability true false actual, Some err)
  | None, Ok _ => st_ret (mkDurability true true actual, None)
  end.

Definition write (name data : string) (want : JournalObject) : st jdisk (JournalDurability * option error) :=
  let! f := jio_next in
  match fault_error f with
  | Some err => st_ret (not_published, Some err)
  | None =>
      if negb (installJournalPathAllowed name) then st_ret (not_published, Some (ESentinel ErrInvalid))
      else
        let! d := st_get in
        let! '(dur, err) :=
          match expected name want (jfiles d !! name) with
          | Some err => st_ret (not_published, Some err)
          | None => write_published name data
          end in
        let! closed := closeParent name in
        st_ret (dur, errors_Join err closed)
  end.

(** ** The journal's store *)

Definition DecodeJournal (raw : string) : result InstallJournal :=
  match decodeStrictJSON json_Unmarshal_journal MaxInstallJournalBytes raw with
  | Err err => Err (invalidInstallJournal (Some err))
  | Ok (_, journal) =>
      match validateInstallJournal journal with Some err => Err err | None => Ok journal end
  end.

Definition EncodeJournal (journal : InstallJournal) : result string :=
  match validateInstallJournal journal with
  | Some err => Err err
  | None => match json_Marshal_journal journal with Some raw => Ok raw | None => Err (EText "json") end
  end.

Definition Load : st jdisk (result InstallJournal) :=
  try! raw := read installJournalFileName MaxInstallJournalBytes in
  match DecodeJournal raw with
  | Err err => st_ret (Err err)
  | Ok journal =>
      try! marker := inspect (transactionMarkerPath (TransactionID journal)) in
      match MatchJournalObject (TransactionMarker journal) marker with
      | Some err => st_ret (Err err)
      | None => st_ret (Ok journal)
      end
  end.

(** The object is of use to the caller only when there is no error. *)
Definition CreateTransactionMarker (id : string) : st jdisk (result JournalObject) :=
  if negb (validTransactionID id) then st_ret (Err (invalidInstallJournal None))
  else
    let path := transactionMarkerPath id in
    try! existing := inspect path in
    if Present existing then
      if negb (String.eqb (Marker existing) id) || negb (String.eqb (SHA256 existing) (sha256Hex id))
      then st_ret (Err unknownInstallState)
      else st_ret (Ok existing)
    else
      let! '(durability, err) := write path id no_object in
      let object := Object durability in
      let object :=
        if Present object then
          mkJournalObject true (if String.eqb (SHA256 object) "" then sha256Hex id else SHA256 object)
            (Dev object) (Ino object) (MountID object) (obj_BootID object) id (Identity object)
        else object in
      match err with
      | Some err => st_ret (Err err)
      | None => if negb (Present object) then st_ret (Err (invalidInstallJournal None)) else st_ret (Ok object)
      end.

Definition Save (journal : InstallJournal) : st jdisk (JournalDurability * option error) :=
  match EncodeJournal journal with
  | Err err => st_ret (not_published, Some err)
  | Ok raw =>
      let! old := inspect installJournalFileName in
      match old with
      | Err err => st_ret (not_published, Some err)
      | Ok old => write installJournalFileName raw old
      end
  end.

Definition or_else (a b : string) : string := if String.eqb a "" then b else a.

(** Marking an action as done: the entry with its number, kind and role. *)
Fixpoint complete_action (done : JournalAction) (l : list JournalAction) : result (list JournalAction) :=
  match l with
  | [] => Err (invalidInstallJournal None)
  | x :: l =>
      if negb (Seq x =? Seq done) || negb (String.eqb (Kind x) (Kind done))
         || negb (String.eqb (TargetRole x) (TargetRole done))
      then match complete_action done l with Ok l' => Ok (x :: l') | Err err => Err err end
      else if negb (String.eqb (Status x) JournalActionIntent) then Err (invalidInstallJournal None)
      else
        let action := mkAction (Seq done) (Kind done) (TargetRole done) (or_else (OldState done) (OldState x))
                        (or_else (BackupRef done) (BackupRef x)) (or_else (NewState done) (NewState x))
                        (or_else (CandidateRef done) (CandidateRef x)) (Status done) in
        match validateJournalAction action with Some err => Err err | None => Ok (action :: l) end
  end.

(** The journal that [RecordAction] saves. *)
Definition recorded (journal : InstallJournal) (action : JournalAction) : result InstallJournal :=
  if String.eqb (Status action) JournalActionIntent then
    let action := set_Seq (Z.of_nat (length (Actions journal)) + 1) action in
    match validateJournalAction action with
    | Some err => Err err
    | None => Ok (set_Actions (Actions journal ++ [action]) journal)
    end
  else if String.eqb (Status action) JournalActionDone then
    match complete_action action (Actions journal) with
    | Ok l => Ok (set_Actions l journal)
    | Err err => Err err
    end
  else Err (invalidInstallJournal None).

(** [RecordAction] with the journal it leaves behind the caller's pointer. *)
Definition RecordAction (journal : InstallJournal) (action : JournalAction)
    : st jdisk (InstallJournal * (JournalDurability * option error)) :=
  match recorded journal action with
  | Err err => st_ret (journal, (not_published, Some err))
  | Ok next =>
      let! '(durability, err) := Save next in
      st_ret (if Published durability then next else journal, (durability, err))
  end.

Definition ResolveObject (name : string) (rec : JournalObject) : st jdisk (result JournalObject) :=
  try! actual := inspect name in
  match MatchJournalObject rec actual with
  | Some err => st_ret (Err err)
  | None => st_ret (Ok actual)
  end.

End Store.
