(* ===== verification/InstallTx.v ===== *)
(** * InstallTx: the installation as a journalled transaction

    Models [internal/app/install_transaction.go], [install_recovery.go],
    [install_lifecycle.go], [install_service_effects.go], the validation of
    [install_validation.go] and [validation_launch.go], and the data model of
    [internal/service/definition.go].

    What the transaction changes is outside of it: the data directory, the
    binaries, the service manager.  [Outside] has one operation for each call on
    the source's interfaces [InstallEffects], [installServiceFiles],
    [service.RecoveryAdapter], [DataEndpointLease] and [ValidationChild]; all take
    the tick, so they may fail at any time.  An operation of the service adapter
    is a [script]: the effects it hands to the transaction's hook, each chosen
    with the outcomes so far. *)

From Stdlib Require Import Ascii.
From S2P Require Import Prelude GoStd SelfUpdate InstallJournal.

(** ** Service definitions, [internal/service] *)

Inductive StatusKind := StatusNotInstalled | StatusRunning | StatusStopped | StatusUnknown.

#[export] Instance StatusKind_eq_dec : EqDecision StatusKind.
Proof. solve_decision. Defined.

Record DefinitionFile := mkFile {
  df_Identity : string;
  df_Path : string;
  df_Bytes : string;
  df_Owner : Z;
  df_Mode : Z;
  df_Kind : string
}.

Record DefinitionLink := mkLink {
  dl_Identity : string;
  dl_Path : string;
  dl_Target : string;
  dl_Owner : Z;
  dl_Mode : Z
}.

Record ProcessIdentity := mkProcess {
  pi_PID : Z;
  pi_BootID : string;
  pi_StartUnix : Z;
  pi_StartUsec : Z;
  pi_Group : string;
  pi_Comm : string
}.

Record ServiceDefinition := mkDefinition {
  d_Status : StatusKind;
  d_Enabled : bool;
  d_Running : bool;
  d_Masked : bool;
  d_Binary : string;
  d_Args : list string;
  d_Env : list string;
  d_Files : list DefinitionFile;
  d_Links : list DefinitionLink;
  d_Process : ProcessIdentity
}.

Definition no_process : ProcessIdentity := mkProcess 0 "" 0 0 "" "".
(** [service.Definition{}]; its status is the empty string, none of the four. *)
Definition no_definition : ServiceDefinition :=
  mkDefinition StatusUnknown false false false "" [] [] [] [] no_process.

Definition set_process (p : ProcessIdentity) (d : ServiceDefinition) : ServiceDefinition :=
  mkDefinition (d_Status d) (d_Enabled d) (d_Running d) (d_Masked d) (d_Binary d) (d_Args d) (d_Env d)
    (d_Files d) (d_Links d) p.
Definition set_status (s : StatusKind) (d : ServiceDefinition) : ServiceDefinition :=
  mkDefinition s (d_Enabled d) (d_Running d) (d_Masked d) (d_Binary d) (d_Args d) (d_Env d)
    (d_Files d) (d_Links d) (d_Process d).
Definition set_activity (enabled running : bool) (d : ServiceDefinition) : ServiceDefinition :=
  mkDefinition (d_Status d) enabled running (d_Masked d) (d_Binary d) (d_Args d) (d_Env d)
    (d_Files d) (d_Links d) (d_Process d).

Record DefinitionAction := mkDefAction {
  da_Path : string;
  da_File : option DefinitionFile;
  da_Link : string;
  da_Kind : string;
  da_TargetRole : string;
  da_OldState : string;
  da_NewState : string
}.

(** [binary.BigEndian.PutUint32]. *)
Definition be32 (z : Z) : string :=
  String (chr (Z.to_nat (z / 16777216 mod 256))) (String (chr (Z.to_nat (z / 65536 mod 256)))
    (String (chr (Z.to_nat (z / 256 mod 256))) (String (chr (Z.to_nat (z mod 256))) ""))).

Definition DefinitionFileState `{Sha256} (file : DefinitionFile) (link : string) : string :=
  if negb (String.eqb link "") then "link:" ++ link
  else hex_encode (sha256 (be32 (df_Owner file) ++ be32 (df_Mode file) ++ df_Bytes file)).

(** ** Validation records *)

Record ProcessStartIdentity := mkStart {
  PID : Z;
  ps_BootID : string;
  StartUnix : Z;
  StartUsec : Z
}.

#[export] Instance ProcessStartIdentity_eq_dec : EqDecision ProcessStartIdentity.
Proof. solve_decision. Defined.

Definition no_start : ProcessStartIdentity := mkStart 0 "" 0 0.

Record ValidationReady := mkReady {
  vr_TransactionID : string;
  DaemonIdentity : ProcessStartIdentity;
  BinaryHash : string;
  LayoutIdentity : string;
  Validation : string;
  SetupRequired : bool
}.

Record validationLaunch := mkLaunch {
  vl_TransactionID : string;
  NonceHash : string;
  Parent : ProcessStartIdentity;
  Child : ProcessStartIdentity;
  vl_BinaryHash : string;
  vl_LayoutIdentity : string
}.

(** [encoding/json] of the two documents. *)
Class ValidationJSON := {
  json_Marshal_launch : validationLaunch -> option string;
  json_Unmarshal_launch : string -> option validationLaunch;
  json_Unmarshal_ready : string -> option ValidationReady
}.

Definition invalid_state (m : string) : error := api_error CodeInvalidState m.
Definition installBusy (message : string) : error := invalid_state message.
Definition errMissingValidationPipe : error := invalid_state "validation pipe lease is missing".
Definition errValidationHandshake : error := invalid_state "validation handshake rejected".
Definition errValidationReady : error := invalid_state "validation ready.json is not authoritative".
Definition errValidationFailed : error := invalid_state "install validation failed".
Definition errValidationChildRequired : error := invalid_state "validation child is required".
Definition maxValidationReadyBytes : Z := 16384.
Definition validationReadyPath (id : string) : string := "transactions/" ++ id ++ "/ready.json".
Definition validationLaunchPath (id : string) : string := "transactions/" ++ id ++ "/validation-launch.json".

(** ** The transaction's configuration *)

Record InstallArtifacts := mkArtifacts {
  a_DataAction : string;
  a_Source : string;
  a_Target : string;
  a_Install : string;
  a_Endpoint : string;
  a_Credential : string;
  a_DataRoot : string;
  a_CandidateHash : string;
  a_BackupHash : string;
  a_OldRunning : bool;
  a_OldEnabled : bool;
  a_TargetRunning : bool;
  a_TargetEnabled : bool;
  a_SourceBytes : string;
  a_DataOld : string;
  a_DataNew : string;
  a_ManagedOld : string;
  a_ManagedNew : string;
  a_PathOld : string;
  a_PathNew : string;
  a_ChannelOld : string;
  a_ChannelNew : string;
  a_DefinitionOld : string;
  a_DefinitionNew : string;
  a_BootID : string
}.

Record installPreparedAuthority := mkAuthority {
  pa_Source : JournalObject;
  pa_Target : JournalObject;
  pa_Install : JournalObject;
  pa_ServiceBackup : ServiceBackup;
  OldDefinition : ServiceDefinition;
  TargetDefinition : ServiceDefinition
}.

(** [installServiceEffects]: does it have a [files] part, and the two
    definitions its references resolve to. *)
Record installServiceEffects := mkServiceEffects {
  se_files : bool;
  se_old : ServiceDefinition;
  se_target : ServiceDefinition
}.

Record InstallRequest := mkRequest {
  req_Operation : string;
  req_Layout : string
}.

(** One top-level object of the data directory, [nativeInstallDataPart]. *)
Record nativeInstallDataPart := mkPart {
  part_Name : string;
  part_Hash : string
}.

(** ** The outside *)

(** What an effect can see of the transaction: the recovery authority of the
    journal and whether a validation child runs. *)
Record view := mkView {
  view_Authority : string;
  view_Validation : bool
}.

Inductive script (E : Type) :=
| Return (err : option error)
| Perform (action : DefinitionAction) (next : option error -> nat -> E -> script E).
Arguments Return {E}. Arguments Perform {E}.

Class Outside (E : Type) := {
  (** [InstallEffects] *)
  eff_Observe : nat -> view -> JournalAction -> E -> result string;
  eff_Apply : nat -> view -> JournalAction -> E -> option error * E;
  SourcePresent : E -> bool;
  (** [installServiceFiles] *)
  files_Observe : nat -> string -> E -> result string;
  files_Apply : nat -> DefinitionAction -> E -> option error * E;
  (** [service.RecoveryAdapter], and the effect an adapter gives to its hook *)
  ObserveAction : nat -> DefinitionAction -> E -> result string;
  ReplayAction : nat -> DefinitionAction -> E -> option error * E;
  hooked_apply : nat -> DefinitionAction -> E -> option error * E;
  InspectDefinition : nat -> E -> result ServiceDefinition;
  DisableAutostartAndStop : nat -> E -> script E;
  WaitOwnedTreeExit : nat -> E -> option error;
  WaitRecordedTreeExit : nat -> E -> option error;
  WriteDefinition : nat -> E -> ServiceDefinition -> script E;
  RestoreDefinition : nat -> E -> ServiceDefinition -> script E;
  Start : nat -> E -> script E;
  BindStopAuthority : ServiceDefinition -> string -> E -> E;
  (** [InstallLease], [DataEndpointLease], [preparedMigration] *)
  Validate : nat -> E -> option error;
  Release : nat -> E -> option error * E;
  recheckAndPublish : nat -> E -> option error * E;
  (** [ValidationChild]: the start, what the child leaves in [ready.json] before
      [WaitReady] returns, the result of writing to its pipe, its end, and the
      end of a child found by a recovery *)
  NewPipe : nat -> bool;
  validation_nonce : nat -> result string;
  Validation_Start : nat -> E -> result ProcessStartIdentity;
  WaitReady : nat -> E -> option entry * option error;
  pipe_written : nat -> option error;
  Validation_Stop : nat -> E -> option error;
  ReapValidation : nat -> ProcessStartIdentity -> E -> option error
}.

Record world (E : Type) := mkWorld {
  disk : jdisk;
  ext : E;
  journal : InstallJournal;
  recoveringSource : bool;
  DataLease : bool;
  validation : option ProcessStartIdentity;
  validationReady : option ValidationReady
}.
Arguments mkWorld {E}. Arguments disk {E}. Arguments ext {E}. Arguments journal {E}.
Arguments recoveringSource {E}. Arguments DataLease {E}. Arguments validation {E}. Arguments validationReady {E}.

(** [InstallTransaction], without the fields that the world holds.  [tx_Service]
    and [tx_Effects] say whether the interface value is set. *)
Record InstallTransaction (E : Type) := mkTx {
  tx_Service : bool;
  tx_Binder : bool;
  tx_Verifier : bool;
  tx_Effects : bool;
  tx_Reaper : bool;
  tx_Validation : bool;
  tx_Publisher : option (list nativeInstallDataPart * string);
  tx_Artifacts : InstallArtifacts;
  tx_Private : bool;
  tx_StartAfterInstall : bool;
  preparedAuthority : option installPreparedAuthority;
  serviceEffects : option installServiceEffects;
  AfterDataCommitted : option (st (world E) (option error));
  BeforeRollback : option (st (world E) (option error));
  prepared : option InstallArtifacts;
  ensurePrepared : st (world E) (option error);
  ParentIdentity : ProcessStartIdentity;
  tx_Now : Z;
  tx_NewID : option string;
  tx_random : nat -> string
}.
Arguments mkTx {E}. Arguments tx_Service {E}. Arguments tx_Binder {E}. Arguments tx_Verifier {E}.
Arguments tx_Effects {E}. Arguments tx_Reaper {E}. Arguments tx_Validation {E}. Arguments tx_Publisher {E}.
Arguments tx_Artifacts {E}. Arguments tx_Private {E}. Arguments tx_StartAfterInstall {E}.
Arguments preparedAuthority {E}. Arguments serviceEffects {E}. Arguments AfterDataCommitted {E}.
Arguments BeforeRollback {E}. Arguments prepared {E}. Arguments ensurePrepared {E}.
Arguments ParentIdentity {E}. Arguments tx_Now {E}. Arguments tx_NewID {E}. Arguments tx_random {E}.

(** ** Early returns of functions that return only an error *)

Definition st_then {W} (m k : st W (option error)) : st W (option error) :=
  let! err := m in match err with Some err => st_ret (Some err) | None => k end.
Definition st_with {W A} (m : st W (result A)) (k : A -> st W (option error)) : st W (option error) :=
  let! r := m in match r with Err err => st_ret (Some err) | Ok a => k a end.

Notation "'then!' m 'in' k" := (st_then m k) (at level 10, m at level 100, k at level 200).
Notation "'with!' x ':=' m 'in' k" := (st_with m (fun x => k))
  (at level 10, x name, m at level 100, k at level 200).

(** ** Operations *)

Section Tx.
Context `{Sha256} `{Unicode} `{JSONTree} `{JournalJSON} `{ValidationJSON}.
Context {E : Type} `{Outside E} (e : jenv) (x : InstallTransaction E).

Definition on_disk {A} (m : st jdisk A) : st (world E) A :=
  fun w => let '(a, d) := m (disk w) in
           (a, mkWorld d (ext w) (journal w) (recoveringSource w) (DataLease w) (validation w) (validationReady w)).
Definition set_journal (j : InstallJournal) : st (world E) unit :=
  st_modify (fun w => mkWorld (disk w) (ext w) j (recoveringSource w) (DataLease w) (validation w) (validationReady w)).
Definition set_recovering (b : bool) : st (world E) unit :=
  st_modify (fun w => mkWorld (disk w) (ext w) (journal w) b (DataLease w) (validation w) (validationReady w)).
Definition set_lease (b : bool) : st (world E) unit :=
  st_modify (fun w => mkWorld (disk w) (ext w) (journal w) (recoveringSource w) b (validation w) (validationReady w)).
Definition set_validation (s : option ProcessStartIdentity) : st (world E) unit :=
  st_modify (fun w => mkWorld (disk w) (ext w) (journal w) (recoveringSource w) (DataLease w) s (validationReady w)).
Definition set_ready (r : ValidationReady) : st (world E) unit :=
  st_modify (fun w => mkWorld (disk w) (ext w) (journal w) (recoveringSource w) (DataLease w) (validation w) (Some r)).

(** Calls of the outside: one that only answers, and one that may change it. *)
Definition asks {A} (f : nat -> E -> A) : st (world E) A :=
  let! n := on_disk next_tick in let! w := st_get in st_ret (f n (ext w)).
Definition acts {A} (f : nat -> E -> A * E) : st (world E) A :=
  let! n := on_disk next_tick in
  fun w => let '(a, o) := f n (ext w) in
           (a, mkWorld (disk w) o (journal w) (recoveringSource w) (DataLease w) (validation w) (validationReady w)).

Definition view_of (w : world E) : view :=
  mkView (RecoveryAuthority (journal w)) (bool_decide (is_Some (validation w))).

Definition fileHash (data : string) : string := if String.eqb data "" then "absent" else sha256HexBytes data.
Definition reloadToken (n : Z) : string := "reload:" ++ Itoa n.

(** *** The service's files and manager *)

(** The last entry of [paths()] for a reference; two paths have one reference
    only when their hashes collide, and then the later assignment stays. *)
Definition definition_paths (d : ServiceDefinition) : list string :=
  map df_Path (d_Files d) ++ map dl_Path (d_Links d).
Definition ref_of (path : string) : string := "service:" ++ sha256Hex path.
Fixpoint last_path (ref : string) (l : list string) (found : string) : string :=
  match l with
  | [] => found
  | p :: l => last_path ref l (if String.eqb (ref_of p) ref then p else found)
  end.
Definition paths (s : installServiceEffects) (ref : string) : string :=
  last_path ref (definition_paths (se_old s) ++ definition_paths (se_target s)) "".

(** The first file or link of a snapshot that has the wanted state. *)
Definition find_file (path state : string) (d : ServiceDefinition) : option DefinitionFile :=
  List.find (fun f => String.eqb (df_Path f) path && String.eqb (DefinitionFileState f "") state) (d_Files d).
Definition find_link (path state : string) (d : ServiceDefinition) : option DefinitionLink :=
  List.find (fun l => String.eqb (dl_Path l) path && String.eqb ("link:" ++ dl_Target l) state) (d_Links d).

Definition resolve_in (def : DefinitionAction) (state : string) (d : ServiceDefinition)
    : option DefinitionAction :=
  match find_file (da_Path def) state d with
  | Some f => Some (mkDefAction (da_Path def) (Some f) (da_Link def) (da_Kind def) (da_TargetRole def)
                      (da_OldState def) (da_NewState def))
  | None =>
      match find_link (da_Path def) state d with
      | Some l => Some (mkDefAction (da_Path def) (da_File def) (dl_Target l) (da_Kind def) (da_TargetRole def)
                          (da_OldState def) (da_NewState def))
      | None => None
      end
  end.

Definition resolve (s : installServiceEffects) (action : JournalAction) : result DefinitionAction :=
  let kind := TrimPrefix (Kind action) "restore_" in
  let def kind path link :=
    mkDefAction path None link kind (TargetRole action) (OldState action) (NewState action) in
  if negb (String.eqb (CandidateRef action) "") || negb (String.eqb (BackupRef action) "") then
    if negb (String.eqb (CandidateRef action) (BackupRef action)) then Err unknownInstallState
    else
      let path := paths s (CandidateRef action) in
      if String.eqb path "" then Err unknownInstallState
      else if String.eqb (NewState action) "absent" then Ok (def kind path "")
      else match resolve_in (def kind path "") (NewState action) (se_old s) with
           | Some d => Ok d
           | None =>
               match resolve_in (def kind path "") (NewState action) (se_target s) with
               | Some d => Ok d
               | None =>
                   if String.eqb (NewState action) "link:/dev/null" && HasSuffix path "/mihari.service"
                   then Ok (def kind path "/dev/null")
                   else Err unknownInstallState
               end
           end
  else if String.eqb kind JournalActionReload then Ok (def kind "" "")
  else if one_of kind [JournalActionStart; JournalActionStop] then
    if one_of (NewState action) ["running"; "loaded"] then Ok (def JournalActionStart "" "")
    else if one_of (NewState action) ["stopped"; "unloaded"] then Ok (def JournalActionStop "" "")
    else Err unknownInstallState
  else if one_of kind [JournalActionEnable; JournalActionDisable; JournalActionDisabled] then
    if one_of (NewState action) ["enabled"; "disabled"] then Ok (def kind "" "") else Err unknownInstallState
  else Err unknownInstallState.

Definition observeAction (s : installServiceEffects) (def : DefinitionAction) : st (world E) (result string) :=
  if se_files s && negb (String.eqb (da_Path def) "") then asks (fun n => files_Observe n (da_Path def))
  else asks (fun n => ObserveAction n def).

Definition replayAction (s : installServiceEffects) (def : DefinitionAction) : st (world E) (option error) :=
  if se_files s && negb (String.eqb (da_Path def) "") then acts (fun n => files_Apply n def)
  else acts (fun n => ReplayAction n def).

Definition service_prepare (s : installServiceEffects) (def : DefinitionAction)
    : st (world E) (result JournalAction) :=
  let ref := ref_of (da_Path def) in
  let named := negb (String.eqb (da_Path def) "") in
  if named && negb (String.eqb (paths s ref) (da_Path def)) then st_ret (Err unknownInstallState)
  else
    let new :=
      if named then
        match da_File def with
        | Some f => DefinitionFileState f ""
        | None => if negb (String.eqb (da_Link def) "")
                  then DefinitionFileState (mkFile "" "" "" 0 0 "") (da_Link def) else "absent"
        end
      else da_NewState def in
    try! actual := observeAction s def in
    let action := mkAction 0 (da_Kind def) (da_TargetRole def) actual (if named then ref else "") new
                    (if named then ref else "") "" in
    match resolve s action with
    | Err err => st_ret (Err err)
    | Ok _ => st_ret (Ok action)
    end.

Definition service_observe (s : installServiceEffects) (action : JournalAction) : st (world E) (result string) :=
  match resolve s action with
  | Err err => st_ret (Err err)
  | Ok def => observeAction s def
  end.

Definition service_apply (s : installServiceEffects) (action : JournalAction) : st (world E) (option error) :=
  match resolve s action with
  | Err err => st_ret (Some err)
  | Ok def =>
      if String.eqb (da_Kind def) JournalActionReload then replayAction s def
      else
        with! actual := observeAction s def in
        if String.eqb actual (NewState action) then st_ret None
        else if negb (String.eqb actual (OldState action)) then st_ret (Some unknownInstallState)
        else
          then! replayAction s def in
          with! actual := observeAction s def in
          st_ret (if negb (String.eqb actual (NewState action)) then Some unknownInstallState else None)
  end.

Definition isConcreteServiceAction (action : JournalAction) : bool :=
  HasPrefix (CandidateRef action) "service:" || HasPrefix (BackupRef action) "service:"
  || one_of (TrimPrefix (Kind action) "restore_")
       [JournalActionEnable; JournalActionDisable; JournalActionDisabled; JournalActionStop; JournalActionStart;
        JournalActionReload].

(** *** Observing and applying an action *)

Definition Effects_Observe (action : JournalAction) : st (world E) (result string) :=
  let! w := st_get in asks (fun n => eff_Observe n (view_of w) action).
Definition Effects_Apply (action : JournalAction) : st (world E) (option error) :=
  if tx_Effects x then let! w := st_get in acts (fun n => eff_Apply n (view_of w) action) else st_ret None.

(** [observe]. *)
Definition observe (action : JournalAction) : st (world E) (result string) :=
  match serviceEffects x with
  | Some s =>
      if isConcreteServiceAction action then service_observe s action
      else if tx_Effects x then Effects_Observe action else st_ret (Err unknownInstallState)
  | None => if tx_Effects x then Effects_Observe action else st_ret (Err unknownInstallState)
  end.

Definition applyEffect (action : JournalAction) : st (world E) (option error) :=
  match serviceEffects x with
  | Some s => if isConcreteServiceAction action then service_apply s action else Effects_Apply action
  | None => Effects_Apply action
  end.

(** [fmt.Sscanf(state, "reload:%d", &n)] leaves [n] at 0 when the text differs;
    [%d] reads the longest prefix that is a number. *)
Fixpoint leading_digits (s : string) : string :=
  match s with
  | String c s => if is_digit c then String c (leading_digits s) else ""
  | EmptyString => ""
  end.
Definition scan_int (s : string) : Z :=
  match s with
  | String "-" s => match ParseInt ("-" ++ leading_digits s) with Some n => n | None => 0 end
  | String "+" s => match ParseInt (leading_digits s) with Some n => n | None => 0 end
  | _ => match ParseInt (leading_digits s) with Some n => n | None => 0 end
  end.
Definition scan_reload (s : string) : Z :=
  match CutPrefix s "reload:" with (rest, true) => scan_int rest | (_, false) => 0 end.

Definition currentReload : st (world E) Z :=
  if negb (tx_Effects x) then st_ret 0
  else
    let! r := Effects_Observe (mkAction 0 JournalActionReload "" (reloadToken 0) "" (reloadToken 1) "" "") in
    st_ret (match r with Ok s => scan_reload s | Err _ => 0 end).

(** *** The journalled step *)

Definition record_action (action : JournalAction) : st (world E) (JournalDurability * option error) :=
  let! w := st_get in
  let! '(j, r) := on_disk (RecordAction e (journal w) action) in
  do! set_journal j in st_ret r.

Definition save_journal (j : InstallJournal) : st (world E) (JournalDurability * option error) :=
  on_disk (Save e j).

Definition not_durable : error := installBusy "install action journal is not durable".

(** A record that counts only when it is durable. *)
Definition record_durably (action : JournalAction) : st (world E) (option error) :=
  let! '(durability, err) := record_action action in
  match err with
  | Some err => st_ret (Some err)
  | None => st_ret (if negb (Durable durability) then Some not_durable else None)
  end.

(** [step], without the crash points that tests inject. *)
Definition step (action : JournalAction) (apply : st (world E) (option error)) : st (world E) (option error) :=
  then! record_durably (set_Status JournalActionIntent action) in
  then! apply in
  let! w := st_get in
  match last (Actions (journal w)) with
  | None => st_ret (Some (EText "index out of range"))
  | Some done => record_durably (set_Status JournalActionDone done)
  end.

Definition action_of (kind role old new : string) : JournalAction := mkAction 0 kind role old "" new "" "".

Definition fileStep (kind role oldState newState : string) : st (world E) (option error) :=
  if String.eqb oldState newState then st_ret None
  else
    let action := action_of kind role oldState newState in
    step action
      (then! (if String.eqb kind JournalActionDataPublish && bool_decide (is_Some (prepared x))
              then acts recheckAndPublish else st_ret None) in
       Effects_Apply action).

Definition reloadStep : st (world E) (option error) :=
  let! n := currentReload in
  let action := action_of JournalActionReload JournalRoleDefinition (reloadToken n) (reloadToken (n + 1)) in
  step action (Effects_Apply action).

Definition activate : st (world E) (option error) :=
  let action := action_of JournalActionActivation JournalRoleActivation InstallAuthoritySource InstallAuthorityTarget in
  step action
    (let! w := st_get in
     let j := set_Phase InstallPhaseActivationCommitted (set_RecoveryAuthority InstallAuthorityTarget (journal w)) in
     do! set_journal j in
     let! '(_, err) := save_journal j in
     match err with Some err => st_ret (Some err) | None => Effects_Apply action end).

Definition setPhase (phase : string) : st (world E) (option error) :=
  let! w := st_get in
  let j := set_Phase phase (journal w) in
  do! set_journal j in
  let! '(_, err) := save_journal j in st_ret err.

(** *** Kinds *)

Definition reverseKind (kind : string) : string :=
  if String.eqb kind JournalActionMask then JournalActionRestoreMask
  else if String.eqb kind JournalActionUnmask then JournalActionRestoreUnmask
  else if String.eqb kind JournalActionDisable then JournalActionRestoreDisable
  else if String.eqb kind JournalActionEnable then JournalActionRestoreEnable
  else if String.eqb kind JournalActionStop then JournalActionRestoreStop
  else if String.eqb kind JournalActionStart then JournalActionRestoreStart
  else if String.eqb kind JournalActionReload then JournalActionRestoreReload
  else if String.eqb kind JournalActionDataPublish then JournalActionDataIsolate
  else if String.eqb kind JournalActionManagedBinary then JournalActionRestoreManagedBinary
  else if String.eqb kind JournalActionPathBinary then JournalActionRestorePathBinary
  else if String.eqb kind JournalActionChannel then JournalActionRestoreChannel
  else if String.eqb kind JournalActionDefinition then JournalActionRestoreDefinition
  else if String.eqb kind JournalActionDropin then JournalActionRestoreDropin
  else if String.eqb kind JournalActionDisabled then JournalActionRestoreDisabled
  else if String.eqb kind JournalActionValidationStart then JournalActionRestoreValidation
  else "".

Definition isReverseAction (kind : string) : bool :=
  one_of kind
    [JournalActionRestoreMask; JournalActionRestoreUnmask; JournalActionRestoreDisable;
     JournalActionRestoreEnable; JournalActionRestoreStop; JournalActionRestoreStart; JournalActionRestoreData;
     JournalActionDataIsolate; JournalActionRestoreManagedBinary; JournalActionRestorePathBinary;
     JournalActionRestoreChannel; JournalActionRestoreDefinition; JournalActionRestoreDropin;
     JournalActionRestoreDisabled; JournalActionRestoreReload; JournalActionRestoreValidation].

(** *** Effects of the service adapter, through the hook *)

Definition with_kind (kind : string) (a : JournalAction) : JournalAction :=
  mkAction (Seq a) kind (TargetRole a) (OldState a) (BackupRef a) (NewState a) (CandidateRef a) (Status a).
Definition with_states (old new : string) (a : JournalAction) : JournalAction :=
  mkAction (Seq a) (Kind a) (TargetRole a) old (BackupRef a) new (CandidateRef a) (Status a).

(** The effect behind the hook: the data lease is given back before a service
    starts, files go through the transaction, the rest is the adapter's. *)
Definition hook_effect (def : DefinitionAction) (action : JournalAction) (apply : nat -> E -> option error * E)
    : st (world E) (option error) :=
  let! w := st_get in
  then! (if bool_decide (is_Some (serviceEffects x)) && String.eqb (da_Kind def) JournalActionStart && DataLease w
         then acts Release else st_ret None) in
  match serviceEffects x with
  | Some s =>
      if negb (String.eqb (da_Path def) "") && se_files s then service_apply s action
      else acts apply
  | None => acts apply
  end.

(** The hook after the action is known: numbers for a reload, the reverse kind
    during a rollback, then the journalled step. *)
Definition hook_step (def : DefinitionAction) (action : JournalAction) (apply : nat -> E -> option error * E)
    : st (world E) (option error) :=
  let! action :=
    if String.eqb (da_Kind def) JournalActionReload then
      let! n := currentReload in st_ret (with_states (reloadToken n) (reloadToken (n + 1)) action)
    else st_ret action in
  let! w := st_get in
  let kind := reverseKind (Kind action) in
  let action := if recoveringSource w && negb (String.eqb kind "") then with_kind kind action else action in
  step action (hook_effect def action apply).

Definition journaledHook (def : DefinitionAction) (apply : nat -> E -> option error * E)
    : st (world E) (option error) :=
  let plain := mkAction 0 (da_Kind def) (da_TargetRole def) (da_OldState def) "" (da_NewState def) "" "" in
  match serviceEffects x with
  | Some s =>
      if negb (String.eqb (da_Kind def) JournalActionReload) then
        with! action := service_prepare s def in
        if String.eqb (OldState action) (NewState action) then st_ret None else hook_step def action apply
      else hook_step def plain apply
  | None => hook_step def plain apply
  end.

Fixpoint run_script (s : script E) : st (world E) (option error) :=
  match s with
  | Return err => st_ret err
  | Perform action next =>
      let! err := journaledHook action (fun n => hooked_apply n action) in
      let! n := on_disk next_tick in
      fun w => run_script (next err n (ext w)) w
  end.

(** A call of an adapter's operation. *)
Definition call (f : nat -> E -> script E) : st (world E) (option error) :=
  let! s := asks f in run_script s.

(** *** Validation of the candidate *)

Definition validProcessStart (p : ProcessStartIdentity) : bool :=
  (0 <? PID p) && negb (String.eqb (ps_BootID p) "") && (0 <? StartUnix p).

Definition layoutIdentityOf (j : InstallJournal) : string :=
  sha256Hex (Join (String LF "") [Mode j; TargetPath j; EndpointPath j; CredentialPath j; InstallPath j]).

Definition ValidationOK : string := "ok".
Definition ValidationFailed : string := "failed".

Definition DecodeValidationReady (raw : string) : result ValidationReady :=
  match decodeStrictJSON json_Unmarshal_ready maxValidationReadyBytes raw with
  | Err _ => Err errValidationReady
  | Ok (keys, ready) =>
      if existsb (fun k => one_of k keys)
           ["schema"; "health"; "protocol_version"; "capabilities"; "revision"; "daemon_version"]
      then Err errValidationReady
      else if negb (validTransactionID (vr_TransactionID ready)) || negb (validSHA256 (BinaryHash ready))
              || String.eqb (LayoutIdentity ready) ""
      then Err errValidationReady
      else if negb (one_of (Validation ready) [ValidationOK; ValidationFailed]) then Err errValidationReady
      else if (PID (DaemonIdentity ready) <=? 0) || String.eqb (ps_BootID (DaemonIdentity ready)) ""
      then Err errValidationReady
      else Ok ready
  end.

Definition MatchValidationReady (j : InstallJournal) (ready : ValidationReady) : option error :=
  if negb (String.eqb (vr_TransactionID ready) (TransactionID j)) then Some errValidationReady
  else if negb (String.eqb (BinaryHash ready) (CandidateHash j)) then Some errValidationReady
  else if negb (String.eqb (LayoutIdentity ready) (layoutIdentityOf j)) then Some errValidationReady
  else if (PID (DaemonIdentity ready) <=? 0) || String.eqb (ps_BootID (DaemonIdentity ready)) ""
  then Some errValidationReady
  else if negb (String.eqb (Validation ready) ValidationOK) then Some errValidationFailed
  else None.

Definition SameProcessStart (rec live : ProcessStartIdentity) : bool :=
  if (PID rec <=? 0) || String.eqb (ps_BootID rec) "" || String.eqb (ps_BootID live) "" then false
  else if negb (String.eqb (ps_BootID rec) (ps_BootID live)) then false
  else (PID rec =? PID live) && (StartUnix rec =? StartUnix live) && (StartUsec rec =? StartUsec live).

Definition saveValidationLaunch (launch : validationLaunch) : st (world E) (option error) :=
  match json_Marshal_launch launch with
  | None => st_ret (Some (EText "json"))
  | Some raw =>
      let path := validationLaunchPath (vl_TransactionID launch) in
      with! old := on_disk (inspect e path) in
      let! '(_, err) := on_disk (write e path raw old) in st_ret err
  end.

Definition loadValidationLaunch (j : InstallJournal) : st (world E) (result (option validationLaunch)) :=
  let name := validationLaunchPath (TransactionID j) in
  try! obj := on_disk (inspect e name) in
  if negb (Present obj) then st_ret (Ok None)
  else
    try! raw := on_disk (read e name maxValidationReadyBytes) in
    match decodeStrictJSON json_Unmarshal_launch maxValidationReadyBytes raw with
    | Err _ => st_ret (Err errValidationHandshake)
    | Ok (_, launch) =>
        if negb (String.eqb (vl_TransactionID launch) (TransactionID j))
           || negb (String.eqb (vl_BinaryHash launch) (CandidateHash j))
           || negb (String.eqb (vl_LayoutIdentity launch) (layoutIdentityOf j))
           || negb (validSHA256 (NonceHash launch)) || negb (validProcessStart (Parent launch))
        then st_ret (Err errValidationHandshake)
        else st_ret (Ok (Some launch))
    end.

(** The child that was started is ready, and what it left says so. *)
Definition wait_validation (id : ProcessStartIdentity) : st (world E) (option error) :=
  let! '(wrote, err) := asks WaitReady in
  let! w := st_get in
  let path := validationReadyPath (TransactionID (journal w)) in
  do! (match wrote with
       | Some f => on_disk (write_entry path f)
       | None => st_ret tt
       end) in
  match err with
  | Some err => st_ret (Some err)
  | None =>
      let! raw := on_disk (read e path maxValidationReadyBytes) in
      match raw with
      | Err _ => st_ret (Some errValidationReady)
      | Ok raw =>
          match DecodeValidationReady raw with
          | Err err => st_ret (Some err)
          | Ok ready =>
              match MatchValidationReady (journal w) ready with
              | Some err => st_ret (Some err)
              | None =>
                  if negb (SameProcessStart id (DaemonIdentity ready)) then st_ret (Some errValidationReady)
                  else do! set_ready ready in st_ret None
              end
          end
      end
  end.

Definition startAndWaitValidation (hash : string) : st (world E) (option error) :=
  let! w := st_get in
  let j := journal w in
  let launch child :=
    mkLaunch (TransactionID j) hash (ParentIdentity x) child (CandidateHash j) (layoutIdentityOf j) in
  if negb (validProcessStart (ParentIdentity x)) then st_ret (Some errValidationHandshake)
  else
    then! saveValidationLaunch (launch no_start) in
    then! (if DataLease w then acts Release else st_ret None) in
    let! piped := asks (fun n _ => NewPipe n) in
    if negb piped then st_ret (Some errMissingValidationPipe)
    else if negb (tx_Validation x) then st_ret (Some errValidationChildRequired)
    else
      with! id := asks Validation_Start in
      do! set_validation (Some id) in
      if negb (validProcessStart id) then st_ret (Some errValidationHandshake)
      else
        then! saveValidationLaunch (launch id) in
        let! err := wait_validation id in
        let! written := asks (fun n _ => pipe_written n) in
        st_ret (errors_Join err written).

Definition stopValidation : st (world E) (option error) :=
  let! w := st_get in
  match validation w with
  | None => st_ret None
  | Some _ => do! set_validation None in asks Validation_Stop
  end.

Definition validation_steps : st (world E) (option error) :=
  with! nonce := asks (fun n _ => validation_nonce n) in
  let hash := sha256HexBytes nonce in
  let start := mkAction 0 JournalActionValidationStart JournalRoleValidation "idle" "" "running" hash "" in
  then! step start (then! startAndWaitValidation hash in Effects_Apply start) in
  let stop := action_of JournalActionValidationStop JournalRoleValidation "running" "idle" in
  step stop (then! stopValidation in Effects_Apply stop).

(** Whatever happens, the child is stopped in the end. *)
Definition runValidation : st (world E) (option error) :=
  let! err := validation_steps in
  let! stopped := stopValidation in
  st_ret (errors_Join err stopped).

(** *** The installer's own hooks, [nativeInstallSession] *)

Definition acquireDataLease (acquire : nat -> E -> option error * E) : st (world E) (option error) :=
  let! w := st_get in
  if DataLease w then st_ret None
  else then! acts acquire in do! set_lease true in st_ret None.

(** Before a rollback of the native installer: the service is stopped, and the
    data directory, where there is one, is locked.  [staged]: the session has
    files or staged data; [root]: is there a data directory? *)
Definition prepareRollback (staged : bool) (root : nat -> E -> result bool) (acquire : nat -> E -> option error * E)
    : st (world E) (option error) :=
  then! call DisableAutostartAndStop in
  then! asks WaitOwnedTreeExit in
  if negb staged then st_ret None
  else
    with! present := asks root in
    if present : bool then acquireDataLease acquire else st_ret None.

(** *** Recovery *)

Definition recoveryStopAuthority (j : InstallJournal) (old target : ServiceDefinition)
    (recordedBoot currentBoot : string) : ServiceDefinition * string :=
  let final := if String.eqb (RecoveryAuthority j) InstallAuthorityTarget then target else old in
  let unknown :=
    String.eqb (Phase j) InstallPhaseComplete && negb (bool_decide (d_Status final = StatusNotInstalled))
    || existsb (fun a =>
         String.eqb (RecoveryAuthority j) InstallAuthorityTarget && String.eqb (Kind a) JournalActionStart
         || String.eqb (RecoveryAuthority j) InstallAuthoritySource
            && String.eqb (Kind a) JournalActionRestoreStart) (Actions j) in
  if unknown then
    let final := set_process no_process final in
    (if bool_decide (d_Status final = StatusNotInstalled) then set_status StatusUnknown final else final,
     currentBoot)
  else (old, recordedBoot).

Definition bindRecoveryStopAuthority : st (world E) unit :=
  match preparedAuthority x with
  | None => st_ret tt
  | Some pa =>
      if tx_Service x && tx_Binder x then
        let! w := st_get in
        let '(def, boot) := recoveryStopAuthority (journal w) (OldDefinition pa) (TargetDefinition pa)
                              (BootID (journal w)) (a_BootID (tx_Artifacts x)) in
        acts (fun _ o => (tt, BindStopAuthority def boot o))
      else st_ret tt
  end.

Definition classifyInstallAction (action : JournalAction) (actual : string) : result ActionProgress :=
  if String.eqb (Kind action) JournalActionReload || String.eqb (Kind action) JournalActionRestoreReload then
    if String.eqb actual (OldState action) then Ok ActionNotStarted else Ok ActionStarted
  else ClassifyObservedAction action actual.

Definition actionBySeq (seq : Z) (j : InstallJournal) : option JournalAction :=
  List.find (fun a => Seq a =? seq) (Actions j).

Definition hasDoneKind (kind : string) (j : InstallJournal) : bool :=
  match List.find (fun a => String.eqb (Kind a) kind) (rev (Actions j)) with
  | Some a => String.eqb (Status a) JournalActionDone
  | None => false
  end.

Definition alreadyReversed (forward : JournalAction) (j : InstallJournal) : bool :=
  let want := reverseKind (Kind forward) in
  if String.eqb want "" then false
  else existsb (fun a => (Seq forward <? Seq a) && String.eqb (Kind a) want
                         && String.eqb (TargetRole a) (TargetRole forward)
                         && String.eqb (BackupRef a) (BackupRef forward)
                         && String.eqb (CandidateRef a) (CandidateRef forward)) (Actions j).

Definition finishAction (action : JournalAction) : st (world E) (option error) :=
  let! w := st_get in
  match actionBySeq (Seq action) (journal w) with
  | None => st_ret None
  | Some current =>
      if String.eqb (Status current) JournalActionDone then st_ret None
      else
        with! actual := observe current in
        match classifyInstallAction current actual with
        | Err err => st_ret (Some err)
        | Ok progress =>
            then! (match progress with ActionNotStarted => applyEffect current | ActionStarted => st_ret None end) in
            let! '(_, err) := record_action (set_Status JournalActionDone current) in st_ret err
        end
  end.

(** The reverse of a forward action with the states it runs between. *)
Definition reverse_action (forward : JournalAction) (old new : string) : JournalAction :=
  mkAction 0 (reverseKind (Kind forward)) (TargetRole forward) old (BackupRef forward) new (CandidateRef forward) "".

Definition reverse_step (forward : JournalAction) (old new : string) : st (world E) (option error) :=
  let restore := reverse_action forward old new in step restore (applyEffect restore).

Definition reverse (forward : JournalAction) : st (world E) (option error) :=
  let! w := st_get in
  let kind := reverseKind (Kind forward) in
  if String.eqb kind "" then st_ret None
  else if String.eqb (Kind forward) JournalActionDataPublish
          && String.eqb (DataAction (journal w)) InstallDataRetain then st_ret None
  else if String.eqb kind JournalActionRestoreReload then
    let! n := currentReload in reverse_step forward (reloadToken n) (reloadToken (n + 1))
  else if one_of kind [JournalActionDataIsolate; JournalActionRestoreData] then
    with! actual := observe (with_kind JournalActionDataPublish forward) in
    if String.eqb actual "absent" then st_ret None else reverse_step forward actual "absent"
  else reverse_step forward (NewState forward) (OldState forward).

(** One turn of the loop of [rollback]; [Ok true] when something was reversed. *)
Definition rollback_action (action : JournalAction) : st (world E) (result bool) :=
  if bool_decide (is_Some (serviceEffects x))
     && one_of (Kind action) [JournalActionStop; JournalActionStart; JournalActionRestoreStop;
                              JournalActionRestoreStart]
  then st_ret (Ok false)
  else if one_of (Kind action) [JournalActionReload; JournalActionRestoreReload] then st_ret (Ok false)
  else if isReverseAction (Kind action) then
    let! err := finishAction action in
    st_ret (match err with Some err => Err err | None => Ok false end)
  else
    let! w := st_get in
    if alreadyReversed action (journal w) then st_ret (Ok false)
    else
      try! actual := observe action in
      match classifyInstallAction action actual with
      | Err err => st_ret (Err err)
      | Ok progress =>
          match progress with
          | ActionNotStarted => st_ret (Ok false)
          | ActionStarted =>
              if String.eqb (reverseKind (Kind action)) "" then st_ret (Ok false)
              else
                let! err := reverse action in
                st_ret (match err with Some err => Err err | None => Ok true end)
          end
      end.

(** The loop, over the actions from the last to the first. *)
Fixpoint rollback_actions (l : list JournalAction) (reversed : bool) : st (world E) (result bool) :=
  match l with
  | [] => st_ret (Ok reversed)
  | a :: l => try! r := rollback_action a in rollback_actions l (reversed || r)
  end.

Definition complete_as (authority : string) : st (world E) (option error) :=
  let! w := st_get in
  do! set_journal (set_RecoveryAuthority authority (journal w)) in
  setPhase InstallPhaseComplete.

Definition rollback_body : st (world E) (option error) :=
  then! (match BeforeRollback x with Some before => before | None => st_ret None end) in
  let! w := st_get in
  with! reversed := rollback_actions (rev (Actions (journal w))) false in
  then! (if reversed then
           let! n := currentReload in
           let restore := action_of JournalActionRestoreReload JournalRoleDefinition (reloadToken n)
                            (reloadToken (n + 1)) in
           step restore (applyEffect restore)
         else st_ret None) in
  then! (match serviceEffects x, preparedAuthority x with
         | Some _, Some pa =>
             then! call (fun n o => RestoreDefinition n o (OldDefinition pa)) in
             if d_Running (OldDefinition pa) then call Start else st_ret None
         | _, _ => st_ret None
         end) in
  complete_as InstallAuthoritySource.

Definition rollback : st (world E) (option error) :=
  do! bindRecoveryStopAuthority in
  match serviceEffects x with
  | Some _ =>
      do! set_recovering true in
      let! err := rollback_body in
      do! set_recovering false in st_ret err
  | None => rollback_body
  end.

Definition ensureAction (action : JournalAction) : st (world E) (option error) :=
  let! w := st_get in
  let continue :=
    with! actual := observe action in
    if String.eqb actual (NewState action) then st_ret None
    else if negb (String.eqb actual (OldState action)) then st_ret (Some unknownInstallState)
    else step action (applyEffect action) in
  if hasDoneKind (Kind action) (journal w) then
    with! actual := observe action in
    if String.eqb actual (NewState action) then st_ret None else continue
  else continue.

(** Is a reload recorded as done behind the activation? *)
Fixpoint reloaded_after (afterActivation : bool) (l : list JournalAction) : bool :=
  match l with
  | [] => false
  | a :: l =>
      if String.eqb (Kind a) JournalActionActivation && String.eqb (Status a) JournalActionDone
      then reloaded_after true l
      else if afterActivation && one_of (Kind a) [JournalActionReload; JournalActionRestoreReload]
              && String.eqb (Status a) JournalActionDone then true
      else reloaded_after afterActivation l
  end.

Definition ensureReload : st (world E) (option error) :=
  let! w := st_get in
  if reloaded_after false (Actions (journal w)) then st_ret None else reloadStep.

(** *** Definitions the target no longer has *)

Definition kept_paths (target : ServiceDefinition) : list string :=
  map df_Path (d_Files target)
  ++ map dl_Path (List.filter (fun l => d_Enabled target || (d_Masked target && String.eqb (dl_Target l) "/dev/null"))
                    (d_Links target)).

Fixpoint remove_all (keep : list string) (l : list (string * string)) : st (world E) (option error) :=
  match l with
  | [] => st_ret None
  | (path, kind) :: l =>
      then! (if one_of path keep then st_ret None
             else let def := mkDefAction path None "" kind JournalRoleDefinition "" "absent" in
                  journaledHook def (fun n => ReplayAction n def)) in
      remove_all keep l
  end.

Definition removeObsoleteDefinitions : st (world E) (option error) :=
  match serviceEffects x, preparedAuthority x with
  | Some _, Some pa =>
      let old := OldDefinition pa in
      remove_all (kept_paths (TargetDefinition pa))
        (map (fun f => (df_Path f, if String.eqb (df_Kind f) "dropin" then JournalActionDropin
                                   else JournalActionDefinition)) (d_Files old)
         ++ map (fun l => (dl_Path l, JournalActionDisable)) (d_Links old))
  | _, _ => st_ret None
  end.

(** What the target's service should be, from the operation and the journal. *)
Definition target_activity (j : InstallJournal) : bool * bool :=
  let art := tx_Artifacts x in
  let enabled := a_TargetEnabled art || ((a_TargetEnabled art || a_OldEnabled art) && OldEnabled j) in
  if String.eqb (Operation j) InstallOperationInstall then (true, false)
  else if String.eqb (Operation j) InstallOperationReinstall then (true, true)
  else if String.eqb (Operation j) InstallOperationUpdate then (OldEnabled j, OldRunning j)
  else (enabled, a_TargetRunning art).

Definition ensureTarget : st (world E) (option error) :=
  let plain :=
    let! w := st_get in
    let '(enabled, running) := target_activity (journal w) in
    then! ensureAction (action_of JournalActionUnmask JournalRoleDefinition "masked" "unmasked") in
    then! (if enabled : bool
           then ensureAction (action_of JournalActionEnable JournalRoleDefinition "disabled" "enabled")
           else st_ret None) in
    then! ensureReload in
    if running : bool then ensureAction (action_of JournalActionStart JournalRoleDefinition "stopped" "running")
    else st_ret None in
  match preparedAuthority x, serviceEffects x with
  | Some pa, None => if bool_decide (d_Status (TargetDefinition pa) = StatusNotInstalled) then st_ret None else plain
  | Some pa, Some _ =>
      let target := TargetDefinition pa in
      then! removeObsoleteDefinitions in
      if bool_decide (d_Status target = StatusNotInstalled) then reloadStep
      else
        then! call (fun n o => WriteDefinition n o target) in
        if d_Running target then call Start else st_ret None
  | None, _ => plain
  end.

Fixpoint finish_all (l : list JournalAction) : st (world E) (option error) :=
  match l with
  | [] => st_ret None
  | a :: l => then! finishAction a in finish_all l
  end.

Definition rollforward : st (world E) (option error) :=
  do! bindRecoveryStopAuthority in
  then! (if tx_Service x && tx_Verifier x then asks WaitRecordedTreeExit else st_ret None) in
  let! w := st_get in
  then! finish_all (Actions (journal w)) in
  then! ensureTarget in
  complete_as InstallAuthorityTarget.

Definition recoverValidation : st (world E) (option error) :=
  let! w := st_get in
  let j := journal w in
  if hasDoneKind JournalActionValidationStop j || hasDoneKind JournalActionRestoreValidation j then st_ret None
  else
    with! launch := loadValidationLaunch j in
    match launch with
    | None => st_ret None
    | Some launch =>
        if bool_decide (Child launch = no_start) then st_ret None
        else if negb (validProcessStart (Child launch)) then st_ret (Some errValidationHandshake)
        else if negb (tx_Reaper x) then st_ret (Some (installBusy "validation process recovery is unavailable"))
        else asks (fun n => ReapValidation n (Child launch))
    end.

Definition installClosed (err : error) : error :=
  if errors_Is err ErrClosed then installBusy "install lock is unavailable" else err.

(** [RecoverLocked] under a lease that is not nil. *)
Definition RecoverLocked : st (world E) (option error) :=
  let! leased := asks Validate in
  match leased with
  | Some err => st_ret (Some (installClosed err))
  | None =>
      with! object := on_disk (inspect e installJournalFileName) in
      if negb (Present object) then st_ret None
      else
        with! j := on_disk (Load e) in
        do! set_journal j in
        if bool_decide (is_Some (preparedAuthority x)) && String.eqb (Phase j) InstallPhaseComplete then st_ret None
        else
          then! recoverValidation in
          if String.eqb (RecoveryAuthority j) InstallAuthorityTarget then rollforward else rollback
  end.

Definition InstallPending (j : InstallJournal) : bool :=
  one_of (Phase j) [InstallPhasePrepared; InstallPhaseStopped; InstallPhaseDataCommitted;
                    InstallPhaseBinariesCommitted; InstallPhaseDefinitionCommitted].

Definition CheckDaemonInstallJournal (j : InstallJournal) : option error :=
  if InstallPending j then Some (invalid_state "install recovery required") else None.

(** *** Installing *)

Definition stampedObject (data ino boot id : string) : JournalObject :=
  if String.eqb data "" then no_object
  else mkJournalObject true (sha256HexBytes data) "8" ino "42" boot id ("8:" ++ ino).

Definition or_absent (hash fallback : string) : string := if String.eqb hash "absent" then sha256Hex fallback else hash.

Definition preparedArtifacts (req : InstallRequest) : InstallArtifacts :=
  let art := match prepared x with Some art => art | None => tx_Artifacts x end in
  let action := or_else (a_DataAction art) InstallDataCreate in
  let '(enabled, running) :=
    if bool_decide (is_Some (prepared x)) then (a_TargetEnabled art, a_TargetRunning art)
    else if String.eqb (req_Operation req) InstallOperationInstall then (true, tx_StartAfterInstall x)
    else if String.eqb (req_Operation req) InstallOperationReinstall then (true, true)
    else if String.eqb (req_Operation req) InstallOperationUpdate
            && negb (a_TargetEnabled art) && negb (a_TargetRunning art) then (a_OldEnabled art, a_OldRunning art)
    else (a_TargetEnabled art, a_TargetRunning art) in
  let fill (a b : string) := if bool_decide (is_Some (prepared x)) then a else or_else a b in
  let target := fill (a_Target art) "/var/lib/mihari/data" in
  mkArtifacts action (a_Source art) target (fill (a_Install art) "/usr/local/lib/mihari")
    (fill (a_Endpoint art) "/var/lib/mihari/control.sock") (fill (a_Credential art) "/var/lib/mihari/control.token")
    (fill (a_DataRoot art) target)
    (fill (a_CandidateHash art) (or_absent (fileHash (a_DefinitionNew art)) "candidate"))
    (fill (a_BackupHash art) (or_absent (fileHash (a_DefinitionOld art)) "backup"))
    (a_OldRunning art) (a_OldEnabled art) running enabled (a_SourceBytes art) (a_DataOld art) (a_DataNew art)
    (a_ManagedOld art) (a_ManagedNew art) (a_PathOld art) (a_PathNew art) (a_ChannelOld art) (a_ChannelNew art)
    (a_DefinitionOld art) (a_DefinitionNew art) (fill (a_BootID art) "11111111-1111-1111-1111-111111111111").

Definition buildJournal (req : InstallRequest) (id : string) (marker : JournalObject) (art : InstallArtifacts)
    : result InstallJournal :=
  let marker := mkJournalObject (Present marker) (or_else (SHA256 marker) (sha256Hex id)) (Dev marker) (Ino marker)
                  (MountID marker) (obj_BootID marker) (or_else (Marker marker) id) (Identity marker) in
  let '(source, target, install, backup, hash) :=
    match preparedAuthority x with
    | Some pa => (pa_Source pa, pa_Target pa, pa_Install pa, pa_ServiceBackup pa, sb_SHA256 (pa_ServiceBackup pa))
    | None => (stampedObject (a_SourceBytes art) "1001" (a_BootID art) id, no_object,
               stampedObject (a_DefinitionOld art) "2002" (a_BootID art) id,
               mkServiceBackup ("transactions/" ++ id ++ "/unit") (a_BackupHash art) "8:3003", a_BackupHash art)
    end in
  let j := mkJournal InstallJournalSchema id (req_Operation req) InstallPhasePrepared
             (or_else (req_Layout req) InstallLayoutSystem) (a_Source art) (a_Target art) (a_Install art)
             (a_Endpoint art) (a_Credential art) (a_DataRoot art) (a_BootID art) source target install
             no_object no_object (a_CandidateHash art) hash (a_DataAction art) backup (a_OldRunning art)
             (a_OldEnabled art) InstallAuthoritySource (tx_Now x) marker [] in
  match validateInstallJournal j with Some err => Err err | None => Ok j end.

Record InstallResult := mkInstallResult {
  ServiceStatus : string;
  ir_TransactionID : string;
  SourceRetained : bool
}.

Definition resultFromJournal : st (world E) (result InstallResult) :=
  let! w := st_get in
  let! loaded :=
    if String.eqb (TransactionID (journal w)) "" then
      let! r := on_disk (Load e) in
      match r with Err err => st_ret (Some err) | Ok j => do! set_journal j in st_ret None end
    else st_ret None in
  match loaded with
  | Some err => st_ret (Err err)
  | None =>
      let! status :=
        if tx_Service x then
          let! def := asks InspectDefinition in
          st_ret (match def with
                  | Err _ => "stopped"
                  | Ok def => if bool_decide (d_Status def = StatusNotInstalled) then "not_installed"
                              else if d_Running def then "running" else "stopped"
                  end)
        else st_ret "stopped" in
      let! w := st_get in
      st_ret (Ok (mkInstallResult status (TransactionID (journal w))
                    (if tx_Effects x then SourcePresent (ext w) else true)))
  end.

Definition newTransactionID : st (world E) string :=
  let! n := on_disk next_tick in
  st_ret (match tx_NewID x with
          | Some id => if validTransactionID id then id else tx_random x n
          | None => tx_random x n
          end).

(** One intent per top-level object of a data directory that already exists. *)
Fixpoint publish_parts (l : list nativeInstallDataPart) : st (world E) (option error) :=
  match l with
  | [] => st_ret None
  | part :: l =>
      let action := mkAction 0 JournalActionDataPublish JournalRoleData "absent" "" (part_Hash part)
                      ("data:" ++ sha256Hex (part_Name part)) "" in
      then! step action (Effects_Apply action) in publish_parts l
  end.

Definition after_data : st (world E) (option error) :=
  match AfterDataCommitted x with Some f => f | None => st_ret None end.

Definition PublishDataLocked (parts : list nativeInstallDataPart) (hash : string) : st (world E) (option error) :=
  match parts with
  | [] => fileStep JournalActionDataPublish JournalRoleData "absent" hash
  | _ =>
      then! (if bool_decide (is_Some (prepared x)) then acts recheckAndPublish else st_ret None) in
      then! after_data in
      publish_parts parts
  end.

Definition publish_data (hash : string) : st (world E) (option error) :=
  match tx_Publisher x with
  | Some (parts, hash) => PublishDataLocked parts hash
  | None => fileStep JournalActionDataPublish JournalRoleData "absent" hash
  end.

(** The transaction behind its prepared journal, up to the activation. *)
Definition forward (art : InstallArtifacts) : st (world E) (option error) :=
  then! (if tx_Service x then then! call DisableAutostartAndStop in asks WaitOwnedTreeExit else st_ret None) in
  then! setPhase InstallPhaseStopped in
  then! (if String.eqb (a_DataAction art) InstallDataCreate then publish_data (fileHash (a_DataNew art))
         else st_ret None) in
  then! after_data in
  then! setPhase InstallPhaseDataCommitted in
  then! fileStep JournalActionManagedBinary JournalRoleManagedBinary (fileHash (a_ManagedOld art)) (fileHash (a_ManagedNew art)) in
  then! fileStep JournalActionPathBinary JournalRolePathBinary (fileHash (a_PathOld art)) (fileHash (a_PathNew art)) in
  then! fileStep JournalActionChannel JournalRoleChannel (fileHash (a_ChannelOld art)) (fileHash (a_ChannelNew art)) in
  then! setPhase InstallPhaseBinariesCommitted in
  then! (match serviceEffects x with
         | None => fileStep JournalActionDefinition JournalRoleDefinition "absent" (fileHash (a_DefinitionNew art))
         | Some _ => st_ret None
         end) in
  then! reloadStep in
  then! setPhase InstallPhaseDefinitionCommitted in
  then! runValidation in
  activate.

(** Behind the activation: the target's service. *)
Definition start_target (art : InstallArtifacts) : st (world E) (option error) :=
  if tx_Service x then
    then! removeObsoleteDefinitions in
    let def := set_activity (a_TargetEnabled art) (a_TargetRunning art)
                 (match preparedAuthority x with Some pa => TargetDefinition pa | None => no_definition end) in
    then! call (fun n o => WriteDefinition n o def) in
    if a_TargetRunning art then call Start else st_ret None
  else st_ret None.

(** From the new journal to the end. *)
Definition run_install (j : InstallJournal) (art : InstallArtifacts) : st (world E) (option error) :=
  let! '(_, err) := save_journal j in
  match err with
  | Some err => st_ret (Some err)
  | None =>
      do! set_journal j in
      then! forward art in
      then! start_target art in
      setPhase InstallPhaseComplete
  end.

Definition binary_only (req : InstallRequest) : st (world E) (option error) :=
  if String.eqb (req_Operation req) InstallOperationUpdate && tx_Service x then
    with! def := asks InspectDefinition in
    st_ret (if bool_decide (d_Status def = StatusNotInstalled)
            then Some (installBusy "binary-only update is not a service transaction") else None)
  else st_ret None.

Definition install_steps (req : InstallRequest) : st (world E) (option error) :=
  then! asks Validate in
  then! binary_only req in
  then! ensurePrepared x in
  let art := preparedArtifacts req in
  let! id := newTransactionID in
  with! marker := on_disk (CreateTransactionMarker e id) in
  match buildJournal req id marker art with
  | Err err => st_ret (Some err)
  | Ok j => run_install j art
  end.

Definition ApplyLocked (req : InstallRequest) : st (world E) (result InstallResult) :=
  let! err := install_steps req in
  match err with Some err => st_ret (Err err) | None => resultFromJournal end.

(** [Apply] with a lease that was acquired. *)
Definition Apply (req : InstallRequest) : st (world E) (result InstallResult) :=
  let! err := RecoverLocked in
  match err with
  | Some err => st_ret (Err err)
  | None => if String.eqb (req_Operation req) InstallOperationRecover then resultFromJournal else ApplyLocked req
  end.

Definition StartLocked : st (world E) (option error) :=
  then! asks Validate in
  then! RecoverLocked in
  if negb (tx_Service x) then st_ret None
  else
    with! def := asks InspectDefinition in
    if bool_decide (d_Status def = StatusNotInstalled) then st_ret (Some (installBusy "service is not installed"))
    else if d_Running def then st_ret None
    else call Start.

Definition invalidInstallRequest : error := api_error CodeInvalidArgument "invalid install request".

Definition lifecycleActions (operation : string) : st (world E) (option error) :=
  match serviceEffects x, preparedAuthority x with
  | Some _, Some pa =>
      if negb (one_of operation ["start"; "stop"; "restart"; "uninstall"]) then st_ret (Some invalidInstallRequest)
      else
        then! (if negb (String.eqb operation "start")
               then then! call DisableAutostartAndStop in asks WaitOwnedTreeExit else st_ret None) in
        then! activate in
        then! removeObsoleteDefinitions in
        then! (if negb (String.eqb operation "uninstall")
               then call (fun n o => WriteDefinition n o (TargetDefinition pa)) else reloadStep) in
        then! (if d_Running (TargetDefinition pa) then call Start else st_ret None) in
        setPhase InstallPhaseComplete
  | _, _ => st_ret (Some unknownInstallState)
  end.

End Tx.

(** ** The first start of a root instance in the foreground *)

Section Bootstrap.
Context `{Sha256} `{Unicode} `{JSONTree} `{JournalJSON} `{ValidationJSON}.
Context {E : Type} `{Outside E} (e : jenv).

(** The transaction is bound to its recovery metadata twice, by
    [InitializeJournal] and by [PrepareJournal], where there is one: [bound] and
    [rebound] are what these leave. *)
Record ForegroundBootstrap := mkBootstrap {
  Root : bool;
  Transaction : InstallTransaction E;
  bound : InstallTransaction E;
  rebound : InstallTransaction E;
  DiscoverSource : nat -> E -> result bool;
  CreateData : nat -> E -> option error * E;
  InitializeJournal : string -> st (world E) (option error);
  PrepareJournal : option (string -> st (world E) (option error));
  release : nat -> option error
}.

Definition ready (b : ForegroundBootstrap) : InstallTransaction E :=
  match PrepareJournal b with Some _ => rebound b | None => bound b end.

(** The daemon is entered with a phase, or not at all. *)
Inductive entered := NotRun (err : error) | Run (phase : string).

Definition layout_mode (x : InstallTransaction E) : string := if tx_Private x then InstallLayoutPrivate else InstallLayoutSystem.

(** May a daemon run beside this journal? *)
Definition activated (x : InstallTransaction E) (j : InstallJournal) : option error :=
  if InstallPending j then Some (installBusy "install recovery required")
  else if negb (String.eqb (RecoveryAuthority j) InstallAuthorityTarget)
          || negb (one_of (Phase j) [InstallPhaseActivationCommitted; InstallPhaseComplete])
  then Some (installBusy "install recovery required")
  else
    let art := tx_Artifacts x in
    if negb (String.eqb (Mode j) (layout_mode x)) || negb (String.eqb (TargetPath j) (a_Target art))
       || negb (String.eqb (DataRoot j) (a_DataRoot art)) || negb (String.eqb (InstallPath j) (a_Install art))
       || negb (String.eqb (EndpointPath j) (a_Endpoint art))
       || negb (String.eqb (CredentialPath j) (a_Credential art))
    then Some (installBusy "install recovery required")
    else if negb (String.eqb (CandidateHash j) (a_CandidateHash art))
    then Some (installBusy "foreground binary does not match activation")
    else None.

Definition save_new_journal (x : InstallTransaction E) (req : InstallRequest) (id : string) (marker : JournalObject)
    : st (world E) (option error) :=
  match buildJournal x req id marker (preparedArtifacts x req) with
  | Err err => st_ret (Some err)
  | Ok j =>
      let! '(durable, err) := save_journal e j in
      match err with
      | Some err => st_ret (Some err)
      | None =>
          if negb (Durable durable) then st_ret (Some (installBusy "install journal is not durable"))
          else do! set_journal j in st_ret None
      end
  end.

Definition bootstrap_steps (b : ForegroundBootstrap) : st (world E) (option error) :=
  with! source := asks (DiscoverSource b) in
  if source : bool then st_ret (Some (installBusy "legacy source requires migration"))
  else
    let! id := newTransactionID (Transaction b) in
    let request := mkRequest InstallOperationInstall (layout_mode (Transaction b)) in
    then! InitializeJournal b id in
    with! marker := on_disk (CreateTransactionMarker e id) in
    then! save_new_journal (bound b) request id marker in
    then! (match PrepareJournal b with
           | Some prepare => then! prepare id in save_new_journal (rebound b) request id marker
           | None => st_ret None
           end) in
    then! (match tx_Publisher (ready b) with
           | Some (parts, hash) => PublishDataLocked e (ready b) parts hash
           | None => step e (action_of JournalActionDataPublish JournalRoleData "absent" "created") (acts (CreateData b))
           end) in
    then! after_data (ready b) in
    then! setPhase e InstallPhaseDefinitionCommitted in
    then! runValidation e (ready b) in
    activate e (ready b).

(** [release] is called once; the deferred call then does nothing. *)
Definition Bootstrap_Start (b : ForegroundBootstrap) : st (world E) entered :=
  if negb (Root b) then st_ret (Run "")
  else
    let fail err := let! n := on_disk next_tick in
                    st_ret (NotRun (match release b n with Some err' => EJoin err err' | None => err end)) in
    let leave phase := let! n := on_disk next_tick in
                       st_ret (match release b n with Some err => NotRun err | None => Run phase end) in
    let! leased := asks Validate in
    match leased with
    | Some err => fail err
    | None =>
        let! object := on_disk (inspect e installJournalFileName) in
        match object with
        | Err err => fail err
        | Ok object =>
            if Present object then
              let! r := on_disk (Load e) in
              match r with
              | Err err => fail err
              | Ok j => match activated (Transaction b) j with Some err => fail err | None => leave (Phase j) end
              end
            else
              let! err := bootstrap_steps b in
              match err with Some err => fail err | None => leave InstallPhaseActivationCommitted end
        end
    end.

End Bootstrap.
