(* ===== verification/InstallSafety.v ===== *)
(** * InstallSafety: an installation is all or nothing

    The transaction of [InstallTx] changes data, binaries and the release
    channel, each a slot outside of the program that holds a token: the hash of
    what is there, or "absent".  This file proves that whatever fails and
    wherever the process dies, the journal on disk and the tokens stay such that
    a recovery brings every slot back to where it was, or, once the activation
    is on disk, finds every slot where the installation put it. *)

From S2P Require Import Prelude GoStd SelfUpdate InstallJournal InstallTx.

(** ** Slots *)

Definition data_kind (k : string) : bool :=
  one_of k [JournalActionDataPublish; JournalActionDataIsolate; JournalActionRestoreData].
Definition forward_kind (k : string) : bool :=
  one_of k [JournalActionDataPublish; JournalActionManagedBinary; JournalActionPathBinary; JournalActionChannel].
Definition backward_kind (k : string) : bool :=
  one_of k [JournalActionDataIsolate; JournalActionRestoreData; JournalActionRestoreManagedBinary;
            JournalActionRestorePathBinary; JournalActionRestoreChannel].
Definition slotted (a : JournalAction) : bool := forward_kind (Kind a) || backward_kind (Kind a).

(** What an action on data, a binary or the channel changes. *)
Definition slot (a : JournalAction) : string :=
  if data_kind (Kind a) then "data/" ++ CandidateRef a else TargetRole a.

Definition slotted_actions (j : InstallJournal) : list JournalAction := List.filter slotted (Actions j).

(** The kinds of [service.DefinitionAction]. *)
Definition service_kind (k : string) : bool :=
  one_of k [JournalActionMask; JournalActionUnmask; JournalActionDisable; JournalActionEnable; JournalActionStop;
            JournalActionStart; JournalActionDefinition; JournalActionDropin; JournalActionDisabled;
            JournalActionReload].

(** Documents of [encoding/json] hold valid UTF-8. *)
Definition clean_action (a : JournalAction) : bool :=
  forallb ValidString [Kind a; TargetRole a; OldState a; BackupRef a; NewState a; CandidateRef a; Status a].
Arguments clean_action : simpl never.
Definition object_strings (o : JournalObject) : list string :=
  [SHA256 o; Dev o; Ino o; MountID o; obj_BootID o; Marker o; Identity o].
Definition clean_head (j : InstallJournal) : bool :=
  forallb ValidString
    ([Schema j; TransactionID j; Operation j; Mode j; SourcePath j; TargetPath j; InstallPath j; EndpointPath j;
      CredentialPath j; DataRoot j; BootID j; CandidateHash j; BackupHash j; DataAction j;
      Ref (j_ServiceBackup j); sb_SHA256 (j_ServiceBackup j); sb_Identity (j_ServiceBackup j)]
     ++ concat (map object_strings [SourceIdentity j; TargetIdentity j; InstallIdentity j; EndpointIdentity j;
                                    CredentialIdentity j; TransactionMarker j])).
Definition clean (j : InstallJournal) : bool :=
  clean_head j && ValidString (Phase j) && ValidString (RecoveryAuthority j) && forallb clean_action (Actions j).

Fixpoint numbered (i : Z) (l : list JournalAction) : bool :=
  match l with [] => true | a :: l => (Seq a =? i + 1) && numbered (i + 1) l end.

(** ** What is asked of the outside *)

(** The effects an adapter hands to its hook are those of a service, and it
    returns when one fails. *)
Inductive serves {E} : script E -> Prop :=
| serves_return err : serves (Return err)
| serves_perform a next :
    service_kind (da_Kind a) = true ->
    forallb ValidString [da_TargetRole a; da_OldState a; da_NewState a; da_Link a] = true ->
    (forall err n o, exists err', next (Some err) n o = Return (Some err')) ->
    (forall n o, serves (next None n o)) ->
    serves (Perform a next).

(** [encoding/json] writes a structure as an object that has each member once, as
    valid UTF-8, gives back a document that it wrote, and what it reads is valid
    UTF-8. *)
Class JournalCodec `{JSONTree} `{JournalJSON} := {
  codec : forall j raw, clean j = true -> json_Marshal_journal j = Some raw -> json_Unmarshal_journal raw = Some j;
  encodes_object : forall j raw, clean j = true -> json_Marshal_journal j = Some raw ->
    ValidString raw = true /\ exists v, json_tree raw = Some v /\ is_Some (uniqueJSONObject v);
  decodes_clean : forall raw j, json_Unmarshal_journal raw = Some j -> clean j = true
}.

(** [tokens]: what each slot holds.  An observation reports it; applying an
    action on a slot brings that slot to the new state or fails, with or without
    having done so; nothing else touches a slot. *)
Class Slots (E : Type) `{Outside E} := {
  tokens : E -> gmap string string;
  observes : forall n v a o t, slotted a = true -> eff_Observe n v a o = Ok t -> tokens o !! slot a = Some t;
  applies : forall n v a o err o', slotted a = true -> eff_Apply n v a o = (err, o') ->
    tokens o' = <[slot a := NewState a]> (tokens o) \/ tokens o' = tokens o /\ err <> None;
  applies_other : forall n v a o err o', slotted a = false -> eff_Apply n v a o = (err, o') -> tokens o' = tokens o;
  service_effects : forall n def o err o',
    files_Apply n def o = (err, o') \/ ReplayAction n def o = (err, o') \/ hooked_apply n def o = (err, o') ->
    tokens o' = tokens o;
  release_effect : forall n o err o',
    Release n o = (err, o') \/ recheckAndPublish n o = (err, o') -> tokens o' = tokens o;
  bind_effect : forall d b o, tokens (BindStopAuthority d b o) = tokens o;
  service_states : forall n p def o t,
    files_Observe n p o = Ok t \/ ObserveAction n def o = Ok t -> ValidString t = true;
  stops : forall n o, serves (DisableAutostartAndStop n o);
  writes : forall n o d, serves (WriteDefinition n o d);
  restores : forall n o d, serves (RestoreDefinition n o d);
  starts : forall n o, serves (Start n o)
}.

(** ** Slots that can be recovered *)

(** The other actions that are not done yet: on the service, its definition, the
    validation and the activation. *)
Definition is_open (a : JournalAction) : bool := negb (slotted a) && negb (String.eqb (Status a) JournalActionDone).
Definition open_actions (j : InstallJournal) : list JournalAction := List.filter is_open (Actions j).

(** The part of a journal that recovery depends on. *)
Record core := mkCore {
  c_actions : list JournalAction;
  c_phase : string;
  c_authority : string;
  c_data : string;
  c_open : list JournalAction
}.
Definition core_of (j : InstallJournal) : core :=
  mkCore (slotted_actions j) (Phase j) (RecoveryAuthority j) (DataAction j) (open_actions j).

(** Every action of the journal, of whatever kind, is done. *)
Definition all_done (j : InstallJournal) : Prop := forall a, a ∈ Actions j -> Status a = JournalActionDone.

Definition is_forward (a : JournalAction) : Prop := forward_kind (Kind a) = true.
Definition is_backward (a : JournalAction) : Prop := backward_kind (Kind a) = true.

(** [r] undoes [a]. *)
Definition undoes (r a : JournalAction) : Prop :=
  Kind r = reverseKind (Kind a) /\ TargetRole r = TargetRole a /\ BackupRef r = BackupRef a
  /\ CandidateRef r = CandidateRef a /\ OldState r = NewState a /\ NewState r = OldState a.

Section Recoverable.
Context (T0 : gmap string string).

Record well_formed (c : core) : Prop := {
  wf_old : forall a, a ∈ c_actions c -> is_forward a -> T0 !! slot a = Some (OldState a);
  wf_refs : forall a, a ∈ c_actions c -> isConcreteServiceAction a = false;
  wf_distinct : forall a b, a ∈ c_actions c -> b ∈ c_actions c -> is_forward a -> is_forward b ->
                            slot a = slot b -> a = b;
  wf_undo : forall r, r ∈ c_actions c -> is_backward r ->
                      exists a, a ∈ c_actions c /\ is_forward a /\ undoes r a;
  wf_data : c_data c = InstallDataRetain -> forall a, a ∈ c_actions c -> Kind a <> JournalActionDataPublish;
  wf_absent : forall a, a ∈ c_actions c -> Kind a = JournalActionDataPublish -> OldState a = "absent"
}.

(** Under the source's authority: every slot has its first token, or the one a
    recorded action brings, which has not been undone. *)
Record undecided (c : core) (T : gmap string string) : Prop := {
  un_slots : forall s, T !! s = T0 !! s
                       \/ exists a, a ∈ c_actions c /\ is_forward a /\ slot a = s /\ T !! s = Some (NewState a)
                                    /\ (forall r, r ∈ c_actions c -> is_backward r -> slot r = s ->
                                                  Status r <> JournalActionDone);
  un_complete : c_phase c = InstallPhaseComplete -> T = T0
}.

(** Under the target's authority: every recorded action on a slot is done, and a
    complete journal has no other action that is not. *)
Record decided (c : core) (T : gmap string string) : Prop := {
  de_done : forall a, a ∈ c_actions c ->
                      is_forward a /\ Status a = JournalActionDone /\ T !! slot a = Some (NewState a);
  de_rest : forall s, (forall a, a ∈ c_actions c -> slot a <> s) -> T !! s = T0 !! s;
  de_open : c_phase c = InstallPhaseComplete -> c_open c = []
}.

Definition good (c : core) (T : gmap string string) : Prop :=
  c_authority c = InstallAuthoritySource /\ well_formed c /\ undecided c T
  \/ c_authority c = InstallAuthorityTarget /\ decided c T.

End Recoverable.

(** ** The store *)

Section StoreFacts.
Context {HS : Sha256} {HU : Unicode} {HT : JSONTree} {HJ : JournalJSON} (e : jenv).

Lemma next_tick_files d n d' : next_tick d = (n, d') -> jfiles d' = jfiles d.
Proof. by intros [= _ <-]. Qed.

Lemma jio_next_files d f d' : jio_next e d = (f, d') -> jfiles d' = jfiles d.
Proof. by intros [= _ <-]. Qed.

Lemma inspect_files name d r d' : inspect e name d = (r, d') -> jfiles d' = jfiles d.
Proof.
  unfold inspect. intros (f & d1 & H1%jio_next_files & Hk)%st_bind_inv. rewrite <- H1. st_unfold.
  repeat case_match; by injection Hk as _ <-.
Qed.

Lemma read_files name limit d r d' : read e name limit d = (r, d') -> jfiles d' = jfiles d.
Proof.
  unfold read. intros (f & d1 & H1%jio_next_files & Hk)%st_bind_inv. rewrite <- H1. st_unfold.
  repeat case_match; by injection Hk as _ <-.
Qed.

Lemma inspectPublished_files name d r d' : inspectPublished e name d = (r, d') -> jfiles d' = jfiles d.
Proof.
  unfold inspectPublished. intros (f & d1 & H1%jio_next_files & Hk)%st_bind_inv. rewrite <- H1. st_unfold.
  repeat case_match; by injection Hk as _ <-.
Qed.

(** What is seen of a file that was published is not longer than a journal may be. *)
Lemma inspectPublished_small name d o d' :
  inspectPublished e name d = (Ok o, d') -> exists f, jfiles d !! name = Some f /\ len (content f) <= MaxInstallJournalBytes.
Proof.
  unfold inspectPublished. intros (f & d1 & H1%jio_next_files & Hk)%st_bind_inv. rewrite <- H1.
  destruct (fault_error f); [discriminate Hk|]. apply st_bind_inv in Hk as (d2 & d3 & [= <- <-] & Hk).
  destruct (jfiles _ !! _) as [g|]; [|discriminate Hk]. injection Hk as Hk _. exists g. split; [done|].
  unfold observe_file, readInstallFile in Hk. destruct (Z.ltb_spec MaxInstallJournalBytes (len (content g))); [done|lia].
Qed.

Lemma closeParent_files name d r d' : closeParent e name d = (r, d') -> jfiles d' = jfiles d.
Proof.
  unfold closeParent. case_match; [by intros [= _ <-]|].
  intros (f & d1 & H1%jio_next_files & [= _ <-])%st_bind_inv. done.
Qed.

(** The file in place afterwards: as before, or the data that was to be written. *)
Definition wrote (name data : string) (d d' : jdisk) : Prop :=
  exists ino, jfiles d' = <[name := mkEntry data ino]> (jfiles d).

Lemma write_published_files name data d dur err d' :
  write_published e name data d = ((dur, err), d') ->
  (jfiles d' = jfiles d \/ wrote name data d d')
  /\ (err = None -> Durable dur = true /\ Published dur = true /\ wrote name data d d' /\ len data <= MaxInstallJournalBytes).
Proof.
  unfold write_published, wrote. intros (n & d1 & [= <- <-] & Hk)%st_bind_inv.
  apply st_bind_inv in Hk as ([] & d2 & Hw & Hk).
  apply st_bind_inv in Hk as (seen & d3 & Hs & Hk). assert (Hsmall : forall o, seen = Ok o -> exists f, jfiles d2 !! name = Some f /\ len (content f) <= MaxInstallJournalBytes).
  { intros o ->. by eapply inspectPublished_small. }
  apply inspectPublished_files in Hs. assert (Hd' : d' = d3) by (repeat case_match; by injection Hk as _ _ <-). subst d'.
  rewrite Hs. destruct (fault_effect _) eqn:Heff; injection Hw as <-; simpl; split; eauto; intros ->.
  - unfold st_ret in Hk. destruct (fault_error _), seen as [o|]; simplify_eq/=; split_and!; eauto.
    destruct (Hsmall o eq_refl) as (f & Hf & Hl). rewrite lookup_insert_eq in Hf. by injection Hf as <-.
  - destruct (jio e _); simpl in *; done.
Qed.

Lemma write_files name data want d dur err d' :
  write e name data want d = ((dur, err), d') ->
  (jfiles d' = jfiles d \/ wrote name data d d')
  /\ (err = None -> Durable dur = true /\ Published dur = true /\ wrote name data d d' /\ len data <= MaxInstallJournalBytes).
Proof.
  unfold write. intros (f & d1 & H1%jio_next_files & Hk)%st_bind_inv. unfold wrote. rewrite <- H1.
  destruct (fault_error f); [by injection Hk as <- <- <-; split; [left|]|].
  case_match; [by injection Hk as <- <- <-; split; [left|]|].
  apply st_bind_inv in Hk as (d2 & d2' & [= -> ->] & Hk).
  apply st_bind_inv in Hk as ([dur1 err1] & d3 & Hw & Hk).
  apply st_bind_inv in Hk as (closed & d4 & Hc%closeParent_files & Hk).
  injection Hk as <- Herr <-. rewrite Hc. destruct (expected _ _ _ _).
  - injection Hw as <- <- <-. split; [eauto|]. intros ->. destruct closed; done.
  - apply write_published_files in Hw as [Hw Hok]. split; [done|]. intros ->. apply Hok. by destruct err1, closed.
Qed.

Lemma Save_files j d dur err d' :
  Save e j d = ((dur, err), d') ->
  (jfiles d' = jfiles d \/ exists raw, EncodeJournal j = Ok raw /\ wrote installJournalFileName raw d d')
  /\ (err = None -> Durable dur = true /\ Published dur = true
                    /\ exists raw, EncodeJournal j = Ok raw /\ wrote installJournalFileName raw d d'
                                   /\ len raw <= MaxInstallJournalBytes).
Proof.
  unfold Save. destruct (EncodeJournal j) as [raw|err0] eqn:Hraw; [|by intros [= <- <- <-]; split; [left|]].
  intros (old & d1 & H1%inspect_files & Hk)%st_bind_inv. unfold wrote. rewrite <- H1.
  destruct old as [old|err0]; [|by injection Hk as <- <- <-; split; [left|]].
  apply write_files in Hk as [Hw Hok]. unfold wrote in *. split; [naive_solver|]. intros Hn.
  destruct (Hok Hn) as (Hd & Hp & Hr & Hl). eauto 6.
Qed.

Lemma Load_files d r d' : Load e d = (r, d') -> jfiles d' = jfiles d.
Proof.
  unfold Load. intros [(err & _ & H1%read_files)|(raw & d1 & H1%read_files & Hk)]%st_try_inv; [done|].
  rewrite <- H1. destruct (DecodeJournal raw) as [j|err]; [|by injection Hk as _ <-].
  apply st_try_inv in Hk as [(err & _ & H2%inspect_files)|(m & d2 & H2%inspect_files & Hk)]; [done|].
  rewrite <- H2. case_match; by injection Hk as _ <-.
Qed.

Lemma Load_decodes d j d' :
  Load e d = (Ok j, d') ->
  exists f, jfiles d !! installJournalFileName = Some f /\ DecodeJournal (content f) = Ok j.
Proof.
  unfold Load. intros [(err & [=] & _)|(raw & d1 & H1 & Hk)]%st_try_inv.
  unfold read in H1. apply st_bind_inv in H1 as (f & d2 & Hf%jio_next_files & H1).
  destruct (fault_error f); [discriminate H1|]. destruct (negb _); [discriminate H1|].
  apply st_bind_inv in H1 as (d3 & d3' & [= <- <-] & H1). rewrite <- Hf.
  destruct (jfiles _ !! _) as [f'|] eqn:Hl; [|discriminate H1]. injection H1 as H1 <-.
  unfold readInstallFile in H1. destruct (_ <? _); [discriminate H1|]. injection H1 as <-. exists f'. split; [done|].
  destruct (DecodeJournal (content f')) as [j'|]; [|discriminate Hk].
  apply st_try_inv in Hk as [(? & [=] & _)|(m & d4 & _ & Hk)]. case_match; [discriminate Hk|].
  by injection Hk as ->.
Qed.

Lemma CreateTransactionMarker_files id d r d' :
  CreateTransactionMarker e id d = (r, d') ->
  jfiles d' !! installJournalFileName = jfiles d !! installJournalFileName.
Proof.
  unfold CreateTransactionMarker. case_match; [by intros [= _ <-]|].
  intros [(err & _ & H1%inspect_files)|(o & d1 & H1%inspect_files & Hk)]%st_try_inv; rewrite <- H1; [done|].
  case_match; [case_match; by injection Hk as _ <-|].
  apply st_bind_inv in Hk as ([dur err] & d2 & Hw%write_files & Hk).
  assert (d' = d2) as -> by (repeat case_match; by injection Hk as _ <-).
  destruct Hw as [[->|[ino ->]] _]; [done|]. by rewrite lookup_insert_ne.
Qed.

End StoreFacts.

(** ** Recording an action *)

Lemma numbered_app i l1 l2 :
  numbered i (l1 ++ l2) = numbered i l1 && numbered (i + Z.of_nat (length l1)) l2.
Proof.
  revert i. induction l1 as [|a l1 IH]; intros i; simpl; [by rewrite Z.add_0_r|].
  rewrite IH, andb_assoc. do 2 f_equal. lia.
Qed.

Lemma numbered_gt i l a : numbered i l = true -> a ∈ l -> i < Seq a.
Proof.
  revert i. induction l as [|b l IH]; intros i; simpl; [by intros _ ?%elem_of_nil|].
  intros [Hb Hl]%andb_prop [->|Ha]%elem_of_cons; [lia|]. specialize (IH _ Hl Ha). lia.
Qed.

Lemma number_le a i m : numbered i m = true -> a ∈ m -> Seq a <= i + Z.of_nat (length m).
Proof.
  revert i. induction m as [|b m IH]; intros i; simpl; [by intros _ ?%elem_of_nil|].
  intros [Hb Hm]%andb_prop [->|Ha]%elem_of_cons; [lia|]. specialize (IH _ Hm Ha). lia.
Qed.

Lemma numbered_inj i l a b : numbered i l = true -> a ∈ l -> b ∈ l -> Seq a = Seq b -> a = b.
Proof.
  revert i. induction l as [|c l IH]; intros i; simpl; [by intros _ ?%elem_of_nil|].
  intros [Hc Hl]%andb_prop [->|Ha]%elem_of_cons [->|Hb]%elem_of_cons Hab; try done.
  - apply (numbered_gt _ _ _ Hl) in Hb. lia.
  - apply (numbered_gt _ _ _ Hl) in Ha. lia.
  - by eapply IH.
Qed.

Lemma seqs_nodup i m : numbered i m = true -> NoDup (map Seq (List.filter slotted m)).
Proof.
  revert i. induction m as [|a m IH]; intros i; simpl; [constructor|]. intros [Ha Hm]%andb_prop.
  destruct (slotted a); [|by eapply IH]. simpl. constructor; [|by eapply IH].
  intros (b & Hb & Hin)%list_elem_of_fmap. apply list_elem_of_In, filter_In in Hin as [Hin _].
  apply list_elem_of_In, (numbered_gt _ _ _ Hm) in Hin. lia.
Qed.

Lemma or_else_id s : or_else s s = s.
Proof. unfold or_else. by case_match. Qed.

Lemma complete_action_split done l l' :
  complete_action done l = Ok l' ->
  exists l1 x l2, l = l1 ++ x :: l2 /\ Seq x = Seq done /\ Status x = JournalActionIntent
    /\ l' = l1 ++ mkAction (Seq done) (Kind done) (TargetRole done) (or_else (OldState done) (OldState x))
                    (or_else (BackupRef done) (BackupRef x)) (or_else (NewState done) (NewState x))
                    (or_else (CandidateRef done) (CandidateRef x)) (Status done) :: l2.
Proof.
  revert l'. induction l as [|x l IH]; intros l'; cbn [complete_action]; [done|].
  destruct (_ || _) eqn:Hm.
  - destruct (complete_action done l) as [l0|]; [|done]. intros [= <-].
    destruct (IH _ eq_refl) as (l1 & y & l2 & -> & Hy & Hs & ->). exists (x :: l1), y, l2. done.
  - destruct (negb (String.eqb (Status x) _)) eqn:Hst; [done|]. cbv zeta. destruct (validateJournalAction _); [done|]. intros [= <-]. exists [], x, l.
    apply orb_false_elim in Hm as [[Hm _]%orb_false_elim _]. apply negb_false_iff in Hm, Hst.
    split_and!; try done; [lia|by apply String.eqb_eq].
Qed.

Lemma recorded_intent j a next :
  recorded j (set_Status JournalActionIntent a) = Ok next ->
  next = set_Actions (Actions j ++ [set_Seq (Z.of_nat (length (Actions j)) + 1) (set_Status JournalActionIntent a)]) j.
Proof. unfold recorded. simpl. case_match; [done|]. by intros [= <-]. Qed.

Lemma recorded_done j cur next :
  numbered 0 (Actions j) = true -> cur ∈ Actions j ->
  recorded j (set_Status JournalActionDone cur) = Ok next ->
  exists l1 l2, Actions j = l1 ++ cur :: l2 /\ next = set_Actions (l1 ++ set_Status JournalActionDone cur :: l2) j.
Proof.
  unfold recorded. simpl. intros Hn Hc. destruct (complete_action _ _) as [l'|] eqn:Hl; [|done]. intros [= <-].
  apply complete_action_split in Hl as (l1 & x & l2 & Hl & Hseq & _ & ->). exists l1, l2.
  assert (x = cur) as ->.
  { eapply numbered_inj; [exact Hn| |done|by rewrite Hseq]. rewrite Hl. set_solver. }
  split; [done|]. simpl. by rewrite !or_else_id.
Qed.

Lemma clean_set_Actions l j :
  clean (set_Actions l j) = clean_head j && ValidString (Phase j) && ValidString (RecoveryAuthority j) && forallb clean_action l.
Proof. done. Qed.

Lemma core_add j a :
  core_of (set_Actions (Actions j ++ [a]) j)
  = mkCore (slotted_actions j ++ (if slotted a then [a] else [])) (Phase j) (RecoveryAuthority j) (DataAction j)
      (open_actions j ++ (if is_open a then [a] else [])).
Proof. unfold core_of, slotted_actions, open_actions. simpl. rewrite !List.filter_app. simpl. by repeat case_match. Qed.

Lemma slotted_set_Status s a : slotted (set_Status s a) = slotted a.
Proof. done. Qed.

Lemma core_done j l1 x l2 :
  Actions j = l1 ++ x :: l2 ->
  core_of (set_Actions (l1 ++ set_Status JournalActionDone x :: l2) j)
  = mkCore (List.filter slotted l1 ++ (if slotted x then [set_Status JournalActionDone x] else []) ++ List.filter slotted l2)
      (Phase j) (RecoveryAuthority j) (DataAction j)
      (if slotted x then open_actions j else List.filter is_open l1 ++ List.filter is_open l2)
  /\ slotted_actions j = List.filter slotted l1 ++ (if slotted x then [x] else []) ++ List.filter slotted l2.
Proof.
  intros Hl. unfold core_of, slotted_actions, open_actions. rewrite Hl. simpl. rewrite !List.filter_app. simpl.
  unfold is_open at 2 6. rewrite slotted_set_Status. cbn [Status set_Status]. change (String.eqb _ _) with true at 1.
  destruct (slotted x); done.
Qed.

(** ** Tokens are text *)

Lemma is_ascii_valid s : is_ascii s = true -> ValidString s = true.
Proof. induction s as [|c s IH]; [done|]. simpl. intros [-> Hs]%andb_prop. auto. Qed.

Lemma all_digits_ascii s : all_digits s = true -> is_ascii s = true.
Proof.
  induction s as [|c s IH]; [done|]. simpl. intros [Hc Hs]%andb_prop. rewrite (IH Hs), andb_true_r.
  unfold is_digit in Hc. breflect. lia.
Qed.

Lemma Itoa_ascii n : is_ascii (Itoa n) = true.
Proof.
  assert (Hpos : forall m, 0 <= m -> is_ascii (Itoa m) = true).
  { intros m Hm. apply Itoa_canonical, canonical_head in Hm as (c & t & -> & Hc & Ht).
    apply (all_digits_ascii (String c t)). simpl. by rewrite Hc. }
  destruct (Z.ltb_spec n 0) as [Hn|Hn]; [|by apply Hpos]. specialize (Hpos (- n) ltac:(lia)).
  unfold Itoa in *. destruct (Z.ltb_spec (- n) 0), (Z.ltb_spec n 0); try lia. simpl. done.
Qed.

Lemma reload_valid n : ValidString (reloadToken n) = true.
Proof. apply is_ascii_valid. unfold reloadToken. rewrite is_ascii_app. by rewrite Itoa_ascii. Qed.

Lemma hex_char_ascii y : 0 <= y < 16 -> (byte (hex_char y) <? 128) = true.
Proof.
  intros Hy. assert (y = 0 \/ y = 1 \/ y = 2 \/ y = 3 \/ y = 4 \/ y = 5 \/ y = 6 \/ y = 7 \/ y = 8 \/ y = 9
    \/ y = 10 \/ y = 11 \/ y = 12 \/ y = 13 \/ y = 14 \/ y = 15) as Hc by lia. destruct_or! Hc; subst; done.
Qed.

Lemma hex_ascii l : Forall (fun b => 0 <= b < 256) l -> is_ascii (hex_encode l) = true.
Proof.
  induction 1 as [|b l Hb _ IH]; [done|]. simpl. rewrite IH, !hex_char_ascii; [done| |].
  - apply Z.mod_pos_bound. lia.
  - split; [apply Z.div_pos; lia|apply Z.div_lt_upper_bound; lia].
Qed.

Lemma sha256_ascii `{Sha256} s : is_ascii (hex_encode (sha256 s)) = true.
Proof. apply hex_ascii, sha256_bytes. Qed.

Lemma fileHash_valid `{Sha256} s : ValidString (fileHash s) = true.
Proof. unfold fileHash. case_match; [done|]. apply is_ascii_valid, sha256_ascii. Qed.

Lemma ref_valid `{Sha256} p s : is_ascii p = true -> ValidString (p ++ sha256Hex s)%string = true.
Proof. intros Hp. apply is_ascii_valid. rewrite is_ascii_app, Hp. apply sha256_ascii. Qed.

(** *** What the store observes is text *)

(** What the process observed of its directory is text. *)
Record text_env (e : jenv) : Prop := {
  te_mount : ValidString (mountID e) = true;
  te_boot : ValidString (jboot e) = true
}.

Lemma hex_number_ascii n : is_ascii (hex_number n) = true.
Proof.
  unfold hex_number, HexadecimalString.NilZero.string_of_uint.
  assert (Hu : forall u, is_ascii (HexadecimalString.NilEmpty.string_of_uint u) = true).
  { induction u; [done| ..]; simpl; by rewrite IHu. }
  destruct (N.to_hex_uint n); [done| ..]; apply Hu.
Qed.

Lemma Key_ascii i : is_ascii (Key i) = true.
Proof. unfold Key. by rewrite !is_ascii_app, !hex_number_ascii. Qed.

Lemma drop_ascii n s : is_ascii s = true -> is_ascii (GoStd.drop n s) = true.
Proof. revert s. induction n as [|n IH]; intros [|c s]; simpl; try done. intros [_ Hs]%andb_prop. by apply IH. Qed.

Lemma Cut_ascii s sep a b : is_ascii s = true -> Cut s sep = Some (a, b) -> is_ascii a = true /\ is_ascii b = true.
Proof.
  revert a. induction s as [|c s IH]; intros a; cbn [Cut]; (case_match eqn:Hp; [intros Hs [= <- <-]; split; [done|by apply drop_ascii]|]); [done|].
  cbn [is_ascii]. intros [Hc Hs]%andb_prop. destruct (Cut s sep) as [[a' b']|]; [|done]. intros [= <- <-].
  destruct (IH a' Hs eq_refl) as [Ha Hb]. cbn [is_ascii]. by rewrite Hc, Ha.
Qed.

Lemma validTransactionID_ascii id : validTransactionID id = true -> is_ascii id = true.
Proof.
  unfold validTransactionID, valid_hex. destruct (hex_decode id) as [raw|] eqn:Hd; [|done].
  intros [_ Hid%String.eqb_eq]%andb_prop.
  rewrite <- Hid. apply hex_ascii.
  clear Hid. revert raw Hd. remember (String.length id) as n eqn:Hn. revert id Hn.
  induction (lt_wf n) as [n _ IH]. intros [|a [|b s]] Hn raw; cbn [hex_decode]; [by intros [= <-]|done|].
  destruct (hex_digit a) as [x|] eqn:Ha; [|done]. destruct (hex_digit b) as [y|] eqn:Hb; [|done].
  destruct (hex_decode s) as [l|] eqn:Hl; [|done]. intros [= <-].
  apply hex_digit_range in Ha, Hb. constructor; [lia|]. eapply (IH (String.length s)); [simpl in Hn; lia|done|done].
Qed.

(** The fields of an observed object, but for the marker in it. *)
Definition seen_text (o : JournalObject) : Prop :=
  forallb ValidString [SHA256 o; Dev o; Ino o; MountID o; obj_BootID o; Identity o] = true.

Lemma observed_text `{Sha256} e name f o : text_env e -> observe_file e name f = Ok o -> seen_text o.
Proof.
  intros [Hm Hb]. unfold observe_file. destruct (readInstallFile _ _) as [raw|]; [|done].
  pose proof (Key_ascii (inode f)) as Hk. destruct (Cut (Key (inode f)) ":") as [[dev ino]|] eqn:Hc; intros [= <-];
    unfold seen_text; cbn [forallb SHA256 Dev Ino MountID obj_BootID Identity];
    rewrite Hm, Hb, (is_ascii_valid _ Hk), (is_ascii_valid _ (sha256_ascii raw : is_ascii (sha256HexBytes raw) = true)).
  - apply Cut_ascii in Hc as [Hd Hi]; [|done]. by rewrite (is_ascii_valid _ Hd), (is_ascii_valid _ Hi).
  - done.
Qed.

Lemma inspect_text `{Sha256} e name d o d' : text_env e -> inspect e name d = (Ok o, d') -> Present o = true -> seen_text o.
Proof.
  intros He. unfold inspect. intros (f & d1 & _ & Hk)%st_bind_inv Hp. destruct (fault_error f); [discriminate Hk|].
  destruct (negb _); [discriminate Hk|]. apply st_bind_inv in Hk as (d2 & d3 & [= <- <-] & Hk).
  destruct (jfiles _ !! _) as [g|]; [|by injection Hk as <-]. injection Hk as Hk _. by eapply observed_text.
Qed.

Lemma write_published_text `{Sha256} e name data d dur err d' :
  text_env e -> write_published e name data d = ((dur, err), d') -> Present (Object dur) = true -> seen_text (Object dur).
Proof.
  intros He. unfold write_published. intros (n & d1 & _ & Hk)%st_bind_inv.
  apply st_bind_inv in Hk as ([] & d2 & _ & Hk). apply st_bind_inv in Hk as (seen & d3 & Hs & Hk). cbv zeta in Hk.
  assert (Ho : Object dur = match seen with Ok a => a | Err _ => no_object end).
  { destruct (fault_error _), seen; by injection Hk as <- <- _. }
  rewrite Ho. destruct seen as [o|]; [|done]. intros _. unfold inspectPublished in Hs.
  apply st_bind_inv in Hs as (f & d4 & _ & Hs). destruct (fault_error f); [discriminate Hs|].
  apply st_bind_inv in Hs as (d5 & d6 & [= <- <-] & Hs). destruct (jfiles _ !! _); [|discriminate Hs].
  injection Hs as Hs _. by eapply observed_text.
Qed.

Lemma write_text `{Sha256} e name data want d dur err d' :
  text_env e -> write e name data want d = ((dur, err), d') -> Present (Object dur) = true -> seen_text (Object dur).
Proof.
  intros He. unfold write. intros (f & d1 & _ & Hk)%st_bind_inv. destruct (fault_error f); [by injection Hk as <- _ _|].
  destruct (negb _); [by injection Hk as <- _ _|]. apply st_bind_inv in Hk as (d2 & d3 & [= <- <-] & Hk).
  apply st_bind_inv in Hk as ([dur' err'] & d4 & Hw & Hk). apply st_bind_inv in Hk as (c & d5 & _ & [= <- _ _]).
  destruct (expected _ _ _ _); [by injection Hw as <- _ _|]. by eapply write_published_text.
Qed.

(** The marker of a transaction is text, and so is its id. *)
Lemma CreateTransactionMarker_text `{Sha256} e id d o d' :
  text_env e -> CreateTransactionMarker e id d = (Ok o, d') ->
  is_ascii id = true /\ forallb ValidString (object_strings o) = true.
Proof.
  intros He. unfold CreateTransactionMarker. destruct (validTransactionID id) eqn:Hid; [|discriminate]. simpl negb. cbv iota.
  apply validTransactionID_ascii in Hid. pose proof (is_ascii_valid _ Hid) as Hv.
  assert (Hsha : ValidString (sha256Hex id) = true) by apply is_ascii_valid, sha256_ascii.
  intros [(err & [=] & _)|(old & d1 & Hi & Hk)]%st_try_inv. split; [done|].
  assert (Hall : forall p, seen_text p -> forallb ValidString
     (object_strings (mkJournalObject true (if String.eqb (SHA256 p) "" then sha256Hex id else SHA256 p)
        (Dev p) (Ino p) (MountID p) (obj_BootID p) id (Identity p))) = true).
  { intros p Hp. unfold seen_text in Hp. unfold object_strings. cbn [forallb SHA256 Dev Ino MountID obj_BootID Marker Identity] in *.
    rewrite !andb_true_iff in *. destruct Hp as (? & ? & ? & ? & ? & ? & _). split_and!; try done. destruct (String.eqb (SHA256 p) ""); done. }
  destruct (Present old) eqn:Hp.
  - destruct (negb _ || negb _) eqn:Hm; [discriminate Hk|]. injection Hk as <- _.
    apply orb_false_iff in Hm as [Hm _]. apply negb_false_iff, String.eqb_eq in Hm.
    apply inspect_text in Hi; [|done|done]. unfold seen_text in Hi. unfold object_strings. rewrite Hm.
    cbn [forallb] in *. rewrite !andb_true_iff in *. by destruct Hi as (? & ? & ? & ? & ? & ? & _).
  - apply st_bind_inv in Hk as ([dur err] & d2 & Hw & Hk). cbv zeta in Hk. destruct err; [discriminate Hk|].
    destruct (Present (Object dur)) eqn:Hpo; [|rewrite Hpo in Hk; discriminate Hk]. injection Hk as <- _.
    apply Hall. by eapply write_text.
Qed.

(** ** Kinds *)

Lemma one_of_In k l : one_of k l = true -> In k l.
Proof. unfold one_of. intros (x & Hx & He)%existsb_exists. apply String.eqb_eq in He as ->. done. Qed.

Ltac kinds H := apply one_of_In in H; simpl in H; destruct_or? H; try done.

Lemma forward_not_backward k : forward_kind k = true -> backward_kind k = false.
Proof. intros Hk. kinds Hk; subst; done. Qed.

Lemma undoes_slot r a : is_forward a -> undoes r a -> slot r = slot a /\ is_backward r.
Proof.
  unfold is_forward, is_backward, undoes, slot. intros Ha (Hk & Hr & _ & Hc & _). rewrite Hk, Hr, Hc.
  kinds Ha; rewrite <- Ha; done.
Qed.

Lemma undoes_refs r a : is_forward a -> undoes r a -> isConcreteServiceAction a = false -> isConcreteServiceAction r = false.
Proof.
  unfold is_forward, undoes, isConcreteServiceAction. intros Ha (Hk & _ & -> & -> & _). rewrite Hk.
  kinds Ha; rewrite <- Ha; simpl; by rewrite !orb_false_r.
Qed.

Lemma service_kind_unslotted k : service_kind k = true ->
  forward_kind k = false /\ backward_kind k = false
  /\ forward_kind (reverseKind k) = false /\ backward_kind (reverseKind k) = false
  /\ ValidString k = true /\ ValidString (reverseKind k) = true.
Proof. intros Hk. kinds Hk; subst; done. Qed.

Lemma reverseKind_forward k : backward_kind (reverseKind k) = true -> forward_kind k = true.
Proof.
  unfold reverseKind.
  repeat match goal with |- context [if String.eqb k ?c then _ else _] => destruct (String.eqb_spec k c) as [->|_] end; done.
Qed.

Lemma reverseKind_not_forward k : forward_kind (reverseKind k) = false.
Proof.
  unfold reverseKind.
  repeat match goal with |- context [if String.eqb k ?c then _ else _] => destruct (String.eqb_spec k c) as [->|_] end; done.
Qed.

Lemma reverseKind_valid k : ValidString (reverseKind k) = true.
Proof.
  unfold reverseKind.
  repeat match goal with |- context [if String.eqb k ?c then _ else _] => destruct (String.eqb_spec k c) as [->|_] end; done.
Qed.

(** ** How recoverability is kept *)

Section Keeping.
Context (T0 : gmap string string).

Implicit Types (c : core) (T : gmap string string).

Definition with_actions (l : list JournalAction) (c : core) : core :=
  mkCore l (c_phase c) (c_authority c) (c_data c) (c_open c).
Definition with_open (l : list JournalAction) (c : core) : core :=
  mkCore (c_actions c) (c_phase c) (c_authority c) (c_data c) l.

Definition source (c : core) : Prop := c_authority c = InstallAuthoritySource.

(** An installation that is not over: actions may be recorded. *)
Definition ongoing (c : core) : Prop := source c \/ c_phase c <> InstallPhaseComplete.

Lemma good_open c T l : good T0 c T -> ongoing c -> good T0 (with_open l c) T.
Proof.
  intros [(Hs & [] & [])|[Ht []]] Ho; [left|right]; split_and!; try done.
  constructor; try done. simpl. intros Hp. destruct Ho as [Ho|Ho]; [|done]. unfold source in Ho. by rewrite Ho in Ht.
Qed.

Lemma good_source c T : good T0 c T -> source c -> well_formed T0 c /\ undecided T0 c T.
Proof. intros [[_ ?]|[Ht _]] Hs; [done|]. unfold source in Hs. by rewrite Hs in Ht. Qed.

Lemma source_good c T : well_formed T0 c -> source c -> undecided T0 c T -> good T0 c T.
Proof. intros. by left. Qed.

(** A new intent on a slot that no recorded action is about. *)
Lemma good_add_forward c T a :
  good T0 c T -> source c -> is_forward a -> T0 !! slot a = Some (OldState a) ->
  isConcreteServiceAction a = false ->
  (forall b, b ∈ c_actions c -> is_forward b -> slot b <> slot a) ->
  (Kind a = JournalActionDataPublish -> c_data c <> InstallDataRetain /\ OldState a = "absent") ->
  good T0 (with_actions (c_actions c ++ [a]) c) T.
Proof.
  intros Hg Hs Ha Hold Href Hfresh Hdata. destruct (good_source _ _ Hg Hs) as [Hw Hu].
  apply source_good; [|done|].
  - destruct Hw as [Ho Hr Hd Hun Hda Hab]. constructor; simpl.
    + intros b [Hb| ->%list_elem_of_singleton]%elem_of_app Hfb; eauto.
    + intros b [Hb| ->%list_elem_of_singleton]%elem_of_app; eauto.
    + intros b b' [Hb| ->%list_elem_of_singleton]%elem_of_app [Hb'| ->%list_elem_of_singleton]%elem_of_app Hf Hf' Heq;
        eauto; exfalso; by eapply Hfresh.
    + intros r [Hin| ->%list_elem_of_singleton]%elem_of_app Hback.
      * destruct (Hun r Hin Hback) as (b & Hb & Hfb & Hundo). exists b. split; [set_solver|done].
      * apply forward_not_backward in Ha. unfold is_backward in Hback. congruence.
    + intros Hret b [Hb| ->%list_elem_of_singleton]%elem_of_app; [eauto|]. intros Hk. by destruct (Hdata Hk).
    + intros b [Hb| ->%list_elem_of_singleton]%elem_of_app Hk; [eauto|]. by destruct (Hdata Hk).
  - destruct Hu as [Hu Hc]. constructor; simpl; [|done]. intros s.
    destruct (Hu s) as [?|(b & Hb & Hfb & Hsl & HT & Hnd)]; [by left|right]. exists b. split_and!; try done.
    + set_solver.
    + intros r [Hr| ->%list_elem_of_singleton]%elem_of_app Hback Hslot; [eauto|].
      apply forward_not_backward in Ha. unfold is_backward in Hback. congruence.
Qed.

(** A new intent that undoes a recorded action. *)
Lemma good_add_backward c T r a :
  good T0 c T -> source c -> a ∈ c_actions c -> is_forward a -> undoes r a -> Status r = JournalActionIntent ->
  good T0 (with_actions (c_actions c ++ [r]) c) T.
Proof.
  intros Hg Hs Hin Ha Hundo Hst. destruct (good_source _ _ Hg Hs) as [Hw Hu].
  destruct (undoes_slot _ _ Ha Hundo) as [Hsl Hback].
  assert (Hnf : ~ is_forward r).
  { unfold is_forward, is_backward in *. intros Hf%forward_not_backward. congruence. }
  apply source_good; [|done|].
  - destruct Hw as [Ho Hr Hd Hun Hda Hab]. constructor; simpl.
    + intros b [Hb| ->%list_elem_of_singleton]%elem_of_app Hfb; [eauto|done].
    + intros b [Hb| ->%list_elem_of_singleton]%elem_of_app; [eauto|]. by eapply undoes_refs; eauto.
    + intros b b' [Hb| ->%list_elem_of_singleton]%elem_of_app [Hb'| ->%list_elem_of_singleton]%elem_of_app Hf Hf' Heq;
        eauto; done.
    + intros r' [Hr'| ->%list_elem_of_singleton]%elem_of_app Hback'.
      * destruct (Hun r' Hr' Hback') as (b & Hb & Hfb & ?). exists b. split; [set_solver|done].
      * exists a. split; [set_solver|done].
    + intros Hret b [Hb| ->%list_elem_of_singleton]%elem_of_app; [eauto|]. intros Hk. apply Hnf. unfold is_forward. by rewrite Hk.
    + intros b [Hb| ->%list_elem_of_singleton]%elem_of_app Hk; [eauto|]. destruct Hnf. unfold is_forward. by rewrite Hk.
  - destruct Hu as [Hu Hc]. constructor; simpl; [|done]. intros s.
    destruct (Hu s) as [?|(b & Hb & Hfb & Hslb & HT & Hnd)]; [by left|right]. exists b. split_and!; try done.
    + set_solver.
    + intros r' [Hr'| ->%list_elem_of_singleton]%elem_of_app Hback' Hslot; [eauto|]. by rewrite Hst.
Qed.

(** Completing an action changes its status only; an undone slot has its first
    token again. *)
Lemma done_elem l1 l2 x (a : JournalAction) :
  a ∈ l1 ++ set_Status JournalActionDone x :: l2 ->
  exists b, b ∈ l1 ++ x :: l2
    /\ (a = b /\ (a ∈ l1 \/ a ∈ l2) \/ a = set_Status JournalActionDone b /\ b = x).
Proof.
  intros [Ha|[->|Ha]%elem_of_cons]%elem_of_app; [exists a|exists x|exists a]; (split; [set_solver|]); eauto.
Qed.

Lemma good_done c T l1 x l2 :
  good T0 c T -> source c -> c_actions c = l1 ++ x :: l2 -> NoDup (map Seq (c_actions c)) ->
  (is_backward x -> T !! slot x = T0 !! slot x) ->
  good T0 (with_actions (l1 ++ set_Status JournalActionDone x :: l2) c) T.
Proof.
  intros Hg Hs Hl Hnd Hback. destruct (good_source _ _ Hg Hs) as [Hw Hu].
  assert (Hfwd : forall b, b ∈ l1 ++ x :: l2 -> exists a, a ∈ l1 ++ set_Status JournalActionDone x :: l2
                  /\ Seq a = Seq b /\ Kind a = Kind b /\ TargetRole a = TargetRole b /\ OldState a = OldState b
                  /\ BackupRef a = BackupRef b /\ NewState a = NewState b /\ CandidateRef a = CandidateRef b).
  { intros b [Hb|[->|Hb]%elem_of_cons]%elem_of_app;
      [exists b|exists (set_Status JournalActionDone x)|exists b]; (split; [set_solver|done]). }
  apply source_good; [|done|].
  - destruct Hw as [Ho Hr Hd Hun Hda Hab]. rewrite Hl in *. constructor; simpl.
    + intros a Ha Hf. apply done_elem in Ha as (b & Hb & [[-> _]|[-> _]]); by apply (Ho b).
    + intros a Ha. apply done_elem in Ha as (b & Hb & [[-> _]|[-> _]]); by apply (Hr b).
    + intros a a' Ha Ha' Hf Hf' Heq.
      apply done_elem in Ha as (b & Hb & Hab1). apply done_elem in Ha' as (b' & Hb' & Hab2).
      assert (b = b') as <-. { apply Hd; [done|done| | |]; destruct Hab1 as [[-> _]|[-> _]], Hab2 as [[-> _]|[-> _]]; done. }
      destruct Hab1 as [[-> Hin]|[-> ->]], Hab2 as [[-> Hin']|[-> Hx]]; try done; subst; exfalso.
      all: rewrite map_app in Hnd; simpl in Hnd; apply NoDup_app in Hnd as (_ & Hn1 & [Hn2 _]%NoDup_cons).
      all: match goal with Hin : _ \/ _ |- _ => destruct Hin as [Hin|Hin] end;
        [eapply Hn1; [by apply list_elem_of_fmap_2|set_solver]|apply Hn2; by apply list_elem_of_fmap_2].
    + intros r Hin Hb. apply done_elem in Hin as (r0 & Hr0 & Hcase).
      destruct (Hun r0 Hr0) as (a & Ha & Hfa & Hundo). { destruct Hcase as [[-> _]|[-> _]]; done. }
      destruct (Hfwd a Ha) as (a' & Ha' & _ & Hk & Ht & Hos & Hbr & Hns & Hcr). exists a'. split; [done|].
      split; [unfold is_forward; by rewrite Hk|]. unfold undoes in *. rewrite Hk, Ht, Hos, Hbr, Hns, Hcr.
      destruct Hcase as [[-> _]|[-> _]]; done.
    + intros Hret a Ha. apply done_elem in Ha as (b & Hb & [[-> _]|[-> _]]); by apply (Hda Hret b).
    + intros a Ha Hk. apply done_elem in Ha as (b & Hb & [[-> _]|[-> _]]); by apply (Hab b).
  - destruct Hu as [Hu Hc]. rewrite Hl in *. constructor; simpl; [|done]. intros s.
    destruct (Hu s) as [?|(b & Hb & Hfb & Hslb & HT & Hno)]; [by left|].
    destruct (decide (is_backward x /\ slot x = s)) as [[Hbx <-]|Hx]; [left; by apply Hback|right].
    destruct (Hfwd b Hb) as (a' & Ha' & _ & Hk & Ht & _ & _ & Hns & Hcr). exists a'.
    unfold is_forward, slot in *. rewrite Hk, Ht, Hns, Hcr. split_and!; try done.
    intros r Hr Hbr Hslr Hst. apply done_elem in Hr as (r0 & Hr0 & [[-> _]|[-> ->]]).
    + by eapply Hno.
    + apply Hx. done.
Qed.

(** Effects. *)
Lemma good_put_forward c T a :
  good T0 c T -> source c -> a ∈ c_actions c -> is_forward a -> c_phase c <> InstallPhaseComplete ->
  (forall r, r ∈ c_actions c -> is_backward r -> slot r = slot a -> Status r <> JournalActionDone) ->
  good T0 c (<[slot a := NewState a]> T).
Proof.
  intros Hg Hs Hin Ha Hp Hno. destruct (good_source _ _ Hg Hs) as [Hw [Hu Hc]]. apply source_good; [done|done|].
  constructor; [|done]. intros s. destruct (decide (s = slot a)) as [->|Hne].
  - right. exists a. rewrite lookup_insert_eq. done.
  - rewrite lookup_insert_ne by done. apply Hu.
Qed.

Lemma undone_token c r : well_formed T0 c -> r ∈ c_actions c -> is_backward r -> T0 !! slot r = Some (NewState r).
Proof.
  intros Hw Hr Hb. destruct (wf_undo _ _ Hw r Hr Hb) as (a & Ha & Hf & Hundo).
  destruct (undoes_slot _ _ Hf Hundo) as [-> _]. destruct Hundo as (_ & _ & _ & _ & _ & ->). by apply (wf_old _ _ Hw).
Qed.

Lemma good_put_back c T s v :
  good T0 c T -> source c -> T0 !! s = Some v -> good T0 c (<[s := v]> T).
Proof.
  intros Hg Hs Hv. destruct (good_source _ _ Hg Hs) as [Hw [Hu Hc]]. apply source_good; [done|done|].
  constructor.
  - intros s'. destruct (decide (s' = s)) as [->|Hne]; [left; by rewrite lookup_insert_eq|].
    rewrite lookup_insert_ne by done. apply Hu.
  - intros Hp. rewrite (Hc Hp). by apply insert_id.
Qed.

End Keeping.

(** ** States that can be recovered *)

Create HintDb still.

Section Safety.
Context {HS : Sha256} {HU : Unicode} {HT : JSONTree} {HJ : JournalJSON} {HV : ValidationJSON} {HC : JournalCodec}.
Context {E : Type} {HO : Outside E} {HSl : Slots E} (e : jenv) (x : InstallTransaction E).
Context (T0 : gmap string string) (base : nat).

Implicit Types (w : world E) (j : InstallJournal).

Definition tok w : gmap string string := tokens (ext w).

Definition journal_file w : option entry := jfiles (disk w) !! installJournalFileName.

(** The journal a process that starts now would load. *)
Definition at_rest w j : Prop := exists f, journal_file w = Some f /\ DecodeJournal (content f) = Ok j.

Record recoverable w : Prop := {
  rc_none : journal_file w = None -> tok w = T0;
  rc_good : forall j, at_rest w j -> good T0 (core_of j) (tok w)
}.

Lemma rest_unique w j j' : at_rest w j -> at_rest w j' -> j = j'.
Proof. intros (f & Hf & Hd) (f' & Hf' & Hd'). congruence. Qed.

(** The journal in memory is the one on disk, and has [base] actions at least. *)
Record synced w : Prop := {
  sy_base : (base <= length (Actions (journal w)))%nat;
  sy_numbered : numbered 0 (Actions (journal w)) = true;
  sy_clean : clean (journal w) = true;
  sy_good : good T0 (core_of (journal w)) (tok w);
  sy_disk : at_rest w (journal w)
}.

Lemma synced_file w : synced w -> journal_file w <> None.
Proof. intros [_ _ _ _ (f & Hf & _)]. by rewrite Hf. Qed.

Lemma synced_recoverable w : synced w -> recoverable w.
Proof.
  intros Hs. split; [by intros Hf; destruct (synced_file _ Hs)|]. destruct Hs as [Hb Hn Hc Hg Hd]. intros j Hj.
  by rewrite <- (rest_unique _ _ _ Hd Hj).
Qed.

(** Nothing that matters to recovery has changed. *)
Definition same_as w0 w : Prop := journal w = journal w0 /\ journal_file w = journal_file w0 /\ tok w = tok w0.

Definition still {A} (m : st (world E) A) : Prop := forall w0, preserves (same_as w0) m.

Lemma same_refl w : same_as w w.
Proof. done. Qed.

Lemma same_trans w1 w2 w3 : same_as w1 w2 -> same_as w2 w3 -> same_as w1 w3.
Proof. intros (? & ? & ?) (? & ? & ?). split_and!; congruence. Qed.

Lemma still_run {A} (m : st (world E) A) w r w' : still m -> m w = (r, w') -> same_as w w'.
Proof. intros Hm Hr. by eapply Hm. Qed.

Lemma same_at_rest w w' j : same_as w w' -> at_rest w' j -> at_rest w j.
Proof. intros (_ & Hf & _) (f & Hl & Hd). exists f. by rewrite <- Hf. Qed.

Lemma at_rest_same w w' j : same_as w w' -> at_rest w j -> at_rest w' j.
Proof. intros (_ & Hf & _) (f & Hl & Hd). exists f. by rewrite Hf. Qed.

Lemma same_recoverable w w' : same_as w w' -> recoverable w -> recoverable w'.
Proof.
  intros Hs [Hn Hr]. destruct (Hs) as (_ & Hf & Ht). split; rewrite Ht; [by rewrite Hf|].
  intros j Hj. eapply Hr, same_at_rest; eauto.
Qed.

Lemma same_synced w w' : same_as w w' -> synced w -> synced w'.
Proof.
  intros Hs [Hb Hn Hc Hg Hd]. destruct (Hs) as (Hj & _ & Ht). constructor; rewrite ?Hj, ?Ht; try done.
  by eapply at_rest_same.
Qed.

(** *** Operations that change nothing *)

Lemma still_ret {A} (a : A) : still (st_ret a).
Proof. intros w0. apply preserves_ret. Qed.
Lemma still_get : still st_get.
Proof. intros w0. apply preserves_get. Qed.
Lemma still_bind {A B} (m : st (world E) A) (k : A -> st (world E) B) :
  still m -> (forall a, still (k a)) -> still (st_bind m k).
Proof. intros Hm Hk w0. apply preserves_bind; [apply Hm|intros a; apply Hk]. Qed.
Lemma still_try {A B} (m : st (world E) (result A)) (k : A -> st (world E) (result B)) :
  still m -> (forall a, still (k a)) -> still (st_try m k).
Proof. intros Hm Hk w0. apply preserves_try; [apply Hm|intros a; apply Hk]. Qed.
Lemma still_then m k : still m -> still k -> still (st_then m k).
Proof. intros Hm Hk. apply still_bind; [done|]. intros []; [apply still_ret|done]. Qed.
Lemma still_with {A} (m : st (world E) (result A)) k : still m -> (forall a, still (k a)) -> still (st_with m k).
Proof. intros Hm Hk. apply still_bind; [done|]. intros []; [apply Hk|apply still_ret]. Qed.

Lemma still_on_disk {A} (m : st jdisk A) :
  (forall d r d', m d = (r, d') -> jfiles d' !! installJournalFileName = jfiles d !! installJournalFileName) ->
  still (on_disk m).
Proof.
  intros Hm w0 w w' r Hr. unfold on_disk in Hr. destruct (m (disk w)) as [a d] eqn:Hd. injection Hr as _ <-.
  intros (? & ? & ?). split_and!; [done| |done]. unfold journal_file in *. simpl. by rewrite (Hm _ _ _ Hd).
Qed.

Lemma still_modify (f : world E -> world E) : (forall w, same_as w (f w)) -> still (st_modify f).
Proof. intros Hf w0. apply preserves_modify. intros w Hw. by eapply same_trans. Qed.

Lemma still_next : still (on_disk next_tick).
Proof. apply still_on_disk. by intros d r d' ->%next_tick_files. Qed.
Lemma still_inspect name : still (on_disk (inspect e name)).
Proof. apply still_on_disk. by intros d r d' ->%inspect_files. Qed.
Lemma still_read name limit : still (on_disk (read e name limit)).
Proof. apply still_on_disk. by intros d r d' ->%read_files. Qed.
Lemma still_load : still (on_disk (Load e)).
Proof. apply still_on_disk. by intros d r d' ->%Load_files. Qed.
Lemma still_marker id : still (on_disk (CreateTransactionMarker e id)).
Proof. apply still_on_disk. intros. by eapply CreateTransactionMarker_files. Qed.
Lemma still_write name data want : name <> installJournalFileName -> still (on_disk (write e name data want)).
Proof.
  intros Hne. apply still_on_disk. intros d [dur err] d' [[->|[ino ->]] _]%write_files; [done|].
  by rewrite lookup_insert_ne.
Qed.
Lemma still_entry name f : name <> installJournalFileName -> still (on_disk (write_entry name f)).
Proof. intros Hne. apply still_on_disk. intros d r d' [= _ <-]. simpl. by rewrite lookup_insert_ne. Qed.

Lemma still_asks {A} (f : nat -> E -> A) : still (asks f).
Proof. apply still_bind; [apply still_next|]. intros n. apply still_bind; [apply still_get|]. intros; apply still_ret. Qed.
Lemma still_acts {A} (f : nat -> E -> A * E) :
  (forall n o a o', f n o = (a, o') -> tokens o' = tokens o) -> still (acts f).
Proof.
  intros Hf. apply still_bind; [apply still_next|]. intros n w0 w w' r Hr.
  destruct (f n (ext w)) as [a o] eqn:Ho. injection Hr as _ <-. intros (? & ? & ?). split_and!; try done.
  unfold tok in *. simpl. rewrite (Hf _ _ _ _ Ho). done.
Qed.

Lemma launch_path_ne id : validationLaunchPath id <> installJournalFileName.
Proof. done. Qed.
Lemma ready_path_ne id : validationReadyPath id <> installJournalFileName.
Proof. done. Qed.

Lemma still_Release : still (acts Release).
Proof. apply still_acts. intros. eapply release_effect. eauto. Qed.
Lemma still_recheckAndPublish : still (acts recheckAndPublish).
Proof. apply still_acts. intros. eapply release_effect. eauto. Qed.

#[local] Hint Resolve still_ret still_get still_next still_inspect still_read still_load still_marker still_asks
  still_Release still_recheckAndPublish still_write still_entry launch_path_ne ready_path_ne : still.

Ltac solve_still :=
  repeat first
    [ progress intros
    | progress auto with still nocore
    | apply still_bind | apply still_try | apply still_then | apply still_with
    | (apply still_modify; done)
    | progress case_match ].

Lemma still_observeAction s def : still (observeAction s def).
Proof. unfold observeAction. solve_still. Qed.
Lemma still_replayAction s def : still (replayAction s def).
Proof. unfold replayAction. case_match; apply still_acts; intros; eapply service_effects; eauto. Qed.
#[local] Hint Resolve still_observeAction still_replayAction : still.

Lemma still_service_observe s a : still (service_observe s a).
Proof. unfold service_observe. solve_still. Qed.
Lemma still_service_apply s a : still (service_apply s a).
Proof. unfold service_apply. solve_still. Qed.
Lemma still_service_prepare s def : still (service_prepare s def).
Proof. unfold service_prepare. solve_still. Qed.
Lemma still_Effects_Observe a : still (Effects_Observe a).
Proof. unfold Effects_Observe. solve_still. Qed.
#[local] Hint Resolve still_service_observe still_service_apply still_service_prepare still_Effects_Observe : still.

Lemma still_Effects_Apply a : slotted a = false -> still (Effects_Apply x a).
Proof.
  intros Ha. unfold Effects_Apply. case_match; [|apply still_ret]. apply still_bind; [apply still_get|]. intros w.
  apply still_acts. intros n o err o' Ho. by eapply applies_other.
Qed.
Lemma still_observe a : still (observe x a).
Proof. unfold observe. solve_still. Qed.
Lemma still_applyEffect a : slotted a = false -> still (applyEffect x a).
Proof. intros Ha. unfold applyEffect. pose proof (still_Effects_Apply a Ha). solve_still. Qed.
Lemma still_currentReload : still (currentReload x).
Proof. unfold currentReload. solve_still. Qed.
#[local] Hint Resolve still_observe still_currentReload : still.

Lemma still_saveValidationLaunch l : still (saveValidationLaunch e l).
Proof. unfold saveValidationLaunch. solve_still. Qed.
Lemma still_loadValidationLaunch j : still (loadValidationLaunch e j).
Proof. unfold loadValidationLaunch. solve_still. Qed.
Lemma still_set_ready r : still (set_ready r).
Proof. by apply still_modify. Qed.
Lemma still_set_validation s : still (set_validation s).
Proof. by apply still_modify. Qed.
Lemma still_set_recovering b : still (set_recovering b).
Proof. by apply still_modify. Qed.
#[local] Hint Resolve still_saveValidationLaunch still_loadValidationLaunch still_set_ready still_set_validation
  still_set_recovering : still.

Lemma still_wait_validation id : still (wait_validation e id).
Proof. unfold wait_validation. solve_still. Qed.
#[local] Hint Resolve still_wait_validation : still.
Lemma still_startAndWaitValidation hash : still (startAndWaitValidation e x hash).
Proof. unfold startAndWaitValidation. solve_still. Qed.
Lemma still_stopValidation : still stopValidation.
Proof. unfold stopValidation. solve_still. Qed.
Lemma still_recoverValidation : still (recoverValidation e x).
Proof. unfold recoverValidation. solve_still. Qed.
Lemma still_bind_authority : still (bindRecoveryStopAuthority x).
Proof.
  unfold bindRecoveryStopAuthority. case_match; [|apply still_ret]. case_match; [|apply still_ret].
  apply still_bind; [apply still_get|]. intros w. destruct (recoveryStopAuthority _ _ _ _ _).
  apply still_acts. intros n o u o' [= _ <-]. apply bind_effect.
Qed.
Lemma still_resultFromJournal w r w' : resultFromJournal e x w = (r, w') -> TransactionID (journal w) <> "" -> same_as w w'.
Proof.
  unfold resultFromJournal. intros (w1 & w1' & [= <- <-] & Hk)%st_bind_inv Hid.
  rewrite (proj2 (String.eqb_neq _ _) Hid) in Hk. eapply still_run; [|exact Hk]. solve_still.
Qed.

(** *** Saving *)

Lemma decoded_saved j raw :
  clean j = true -> EncodeJournal j = Ok raw -> len raw <= MaxInstallJournalBytes -> DecodeJournal raw = Ok j.
Proof.
  unfold EncodeJournal, DecodeJournal, decodeStrictJSON. intros Hc Hen Hl.
  destruct (validateInstallJournal j) eqn:Hv; [done|]. destruct (json_Marshal_journal j) as [raw'|] eqn:Hm; [|done].
  injection Hen as ->. destruct (encodes_object j raw Hc Hm) as (Hu & v & Ht & [keys Hk]).
  rewrite (proj2 (Z.ltb_ge _ _) Hl), Hu, Ht, Hk, (codec j raw Hc Hm). simpl. by rewrite Hv.
Qed.

Lemma decoded_small raw j : DecodeJournal raw = Ok j -> len raw <= MaxInstallJournalBytes.
Proof.
  unfold DecodeJournal, decodeStrictJSON. destruct (Z.ltb_spec MaxInstallJournalBytes (len raw)); [done|]. done.
Qed.

Lemma save_journal_spec w j dur err w' :
  clean j = true -> save_journal e j w = ((dur, err), w') ->
  journal w' = journal w /\ tok w' = tok w /\ (journal_file w' = None -> journal_file w = None)
  /\ (forall j', at_rest w' j' -> at_rest w j' \/ j' = j)
  /\ (err = None -> Durable dur = true /\ Published dur = true /\ at_rest w' j).
Proof.
  unfold save_journal, on_disk. intros Hc. destruct (Save e j (disk w)) as [r d] eqn:Hs. intros [= -> <-].
  apply Save_files in Hs as [Hw Hok]. split_and!; [done|done| | |].
  - unfold journal_file. simpl. by destruct Hw as [->|(raw & _ & ino & ->)]; [|rewrite lookup_insert_eq].
  - intros j' (f & Hf & Hd). unfold journal_file in Hf. simpl in Hf.
    destruct Hw as [Hw|(raw & Hraw & ino & Hw)]; rewrite Hw in Hf; [by left; exists f|right].
    rewrite lookup_insert_eq in Hf. injection Hf as <-. pose proof (decoded_small _ _ Hd) as Hl. simpl in Hl.
    pose proof (decoded_saved j raw Hc Hraw Hl) as Hd'. simpl in Hd. congruence.
  - intros Hn. destruct (Hok Hn) as (Hd & Hp & raw & Hraw & [ino Hw'] & Hl). split_and!; [done|done|].
    exists (mkEntry raw ino). unfold journal_file. simpl. rewrite Hw', lookup_insert_eq. split; [done|]. by apply decoded_saved.
Qed.

(** What must hold of a journal for it to be saved. *)
Definition fit (T : gmap string string) j : Prop :=
  (base <= length (Actions j))%nat /\ numbered 0 (Actions j) = true /\ clean j = true /\ good T0 (core_of j) T.

Lemma fit_synced w j : fit (tok w) j -> journal w = j -> at_rest w j -> synced w.
Proof. intros (? & ? & ? & ?) <- ?. by constructor. Qed.

Lemma saved_safe w j dur err w' :
  synced w -> fit (tok w) j -> save_journal e j w = ((dur, err), w') ->
  recoverable w' /\ journal w' = journal w /\ tok w' = tok w
  /\ (err = None -> Durable dur = true /\ Published dur = true /\ at_rest w' j).
Proof.
  intros Hs Hf Hr. apply save_journal_spec in Hr as (Hj & Ht & Hno & Ha & Hok); [|apply Hf]. split; [|done].
  split; [by intros ?%Hno; destruct (synced_file _ Hs)|].
  intros j' [Hj'| ->]%Ha; rewrite Ht; [|apply Hf]. by apply synced_recoverable.
Qed.

Lemma record_safe w a dur err w' :
  synced w -> (forall next, recorded (journal w) a = Ok next -> fit (tok w) next) ->
  record_action e a w = ((dur, err), w') ->
  recoverable w' /\ (err = None -> synced w' /\ tok w' = tok w /\ recorded (journal w) a = Ok (journal w')).
Proof.
  intros Hs Hf. unfold record_action. intros (w1 & w1' & [= <- <-] & Hk)%st_bind_inv.
  apply st_bind_inv in Hk as ([j [dur1 err1]] & w2 & Hr & Hk).
  apply st_bind_inv in Hk as ([] & w3 & [= <-] & [= <- <- <-]).
  unfold on_disk, RecordAction in Hr. destruct (recorded (journal w) a) as [next|err0] eqn:Hrec; cycle 1.
  { injection Hr as <- <- <- <-. split; [|done]. apply synced_recoverable. by apply (same_synced w). }
  destruct (Save e next (disk w)) as [[dur2 err2] d2] eqn:Hsave. unfold st_bind in Hr. rewrite Hsave in Hr.
  injection Hr as <- <- <- <-.
  assert (Hsv : save_journal e next w = ((dur2, err2), mkWorld d2 (ext w) (journal w) (recoveringSource w) (DataLease w) (validation w) (validationReady w))).
  { unfold save_journal, on_disk. by rewrite Hsave. }
  apply saved_safe in Hsv as (Hrec' & _ & Ht & Hok); [|done|by apply Hf]. split.
  - split; apply Hrec'.
  - intros Hn. destruct (Hok Hn) as (_ & -> & Hd). split_and!; [|done|done].
    eapply fit_synced; [by apply Hf|done|done].
Qed.

Lemma record_durably_safe w a r w' :
  synced w -> (forall next, recorded (journal w) a = Ok next -> fit (tok w) next) ->
  record_durably e a w = (r, w') ->
  recoverable w' /\ (r = None -> synced w' /\ tok w' = tok w /\ recorded (journal w) a = Ok (journal w')).
Proof.
  intros Hs Hf. unfold record_durably. intros ([dur err] & w1 & Hr & Hk)%st_bind_inv.
  apply record_safe in Hr as [Hrec Hok]; [|done|done].
  assert (w1 = w') as -> by (destruct err; by injection Hk). split; [done|]. intros ->.
  apply Hok. destruct err; [by injection Hk|done].
Qed.

(** *** The journalled step *)

(** The action as it is recorded behind the actions of [j]. *)
Definition intent_of j (a : JournalAction) : JournalAction :=
  set_Seq (Z.of_nat (length (Actions j)) + 1) (set_Status JournalActionIntent a).
Definition done_of j (a : JournalAction) : JournalAction := set_Status JournalActionDone (intent_of j a).
Definition push j (a : JournalAction) : InstallJournal := set_Actions (Actions j ++ [a]) j.

Lemma core_push j r :
  slotted r = true -> core_of (push j r) = with_actions (c_actions (core_of j) ++ [r]) (core_of j).
Proof. intros Hr. unfold push. rewrite core_add. unfold is_open. rewrite Hr. simpl. by rewrite app_nil_r. Qed.

(** No number is used twice after a push. *)
Lemma pushed_nodup w1 j a :
  synced w1 -> journal w1 = push j a -> slotted a = true -> NoDup (map Seq (c_actions (core_of j) ++ [a])).
Proof.
  intros Hs Hj Ha. pose proof (sy_numbered _ Hs) as Hn. rewrite Hj in Hn. apply seqs_nodup in Hn.
  pose proof (f_equal c_actions (core_push j a Ha)) as Hca.
  change (List.filter slotted (Actions (push j a)) = c_actions (core_of j) ++ [a]) in Hca. by rewrite Hca in Hn.
Qed.

Lemma recorded_last j l cur next :
  numbered 0 (Actions j) = true -> Actions j = l ++ [cur] ->
  recorded j (set_Status JournalActionDone cur) = Ok next ->
  next = set_Actions (l ++ [set_Status JournalActionDone cur]) j.
Proof.
  intros Hn Hl Hr. apply recorded_done in Hr as (l1 & l2 & Hl' & ->); [|done|rewrite Hl; set_solver].
  rewrite Hl' in Hl. rewrite Hl', numbered_app in Hn. apply andb_prop in Hn as [_ [Hs1 Hn]%andb_prop].
  destruct l2 as [|b l2 _] using rev_ind; [by apply app_inj_tail in Hl as [-> _]|].
  rewrite app_comm_cons, app_assoc in Hl. apply app_inj_tail in Hl as [_ ->].
  assert (Hcur : cur ∈ l2 ++ [cur]) by set_solver. apply (numbered_gt _ _ _ Hn) in Hcur. lia.
Qed.

Lemma clean_status n st a :
  clean_action a = true -> ValidString st = true -> clean_action (set_Seq n (set_Status st a)) = true.
Proof. unfold clean_action. cbn [forallb Kind TargetRole OldState BackupRef NewState CandidateRef Status set_Seq set_Status]. rewrite !andb_true_iff. tauto. Qed.

Lemma fit_push w a :
  synced w -> clean_action a = true -> good T0 (core_of (push (journal w) (intent_of (journal w) a))) (tok w) ->
  fit (tok w) (push (journal w) (intent_of (journal w) a)).
Proof.
  intros [Hb Hn Hc _ _] Ha Hg. split_and!; [| | |done].
  - unfold push. simpl. rewrite length_app. lia.
  - unfold push. simpl. rewrite numbered_app, Hn. simpl. rewrite Z.add_0_l, andb_true_r. apply Z.eqb_refl.
  - unfold push. rewrite clean_set_Actions, forallb_app. unfold clean in Hc. simpl.
    apply andb_prop in Hc as [-> ->]. simpl. rewrite andb_true_r. by apply clean_status.
Qed.

Lemma step_safe (R : world E -> Prop) a apply w r w' :
  let j := journal w in
  synced w -> clean_action a = true -> good T0 (core_of (push j (intent_of j a))) (tok w) ->
  (forall w1 r1 w2, synced w1 -> journal w1 = push j (intent_of j a) -> tok w1 = tok w -> apply w1 = (r1, w2) ->
     recoverable w2 /\ (r1 = None -> synced w2 /\ R w2 /\ Actions (journal w2) = Actions j ++ [intent_of j a]
       /\ good T0 (core_of (set_Actions (Actions j ++ [done_of j a]) (journal w2))) (tok w2))) ->
  step e a apply w = (r, w') ->
  recoverable w' /\ (r = None -> synced w' /\ exists w2, R w2 /\ tok w' = tok w2
                                 /\ journal w' = set_Actions (Actions j ++ [done_of j a]) (journal w2)).
Proof.
  intros j Hs Hca Hg Hap. unfold step. intros (r1 & w1 & Hr & Hk)%st_bind_inv.
  apply record_durably_safe in Hr as [Hrec Hok]; [|done|].
  2:{ intros next ->%recorded_intent. by apply fit_push. }
  destruct r1 as [err|]; [by injection Hk as <- <-|].
  destruct (Hok eq_refl) as (Hs1 & Ht1 & Hj1%recorded_intent).
  apply st_bind_inv in Hk as (r2 & w2 & Hr & Hk).
  destruct (Hap _ _ _ Hs1 Hj1 Ht1 Hr) as [Hrec2 Hok2]. destruct r2 as [err|]; [by injection Hk as <- <-|].
  destruct (Hok2 eq_refl) as (Hs2 & HR & Hact & Hg2).
  apply st_bind_inv in Hk as (w2' & w2'' & [= <- <-] & Hk). rewrite Hact, last_snoc in Hk.
  assert (Hlast : forall next, recorded (journal w2) (set_Status JournalActionDone (intent_of j a)) = Ok next ->
                    next = set_Actions (Actions j ++ [done_of j a]) (journal w2)).
  { intros next. apply recorded_last; [apply Hs2|done]. }
  apply record_durably_safe in Hk as [Hrec3 Hok3]; [|done|].
  2:{ intros next ->%Hlast. destruct Hs2 as [Hb2 Hn2 Hc2 _ _]. split_and!; [| | |done].
      - rewrite Hact, length_app in Hb2. simpl. by rewrite length_app.
      - rewrite Hact, numbered_app in Hn2. simpl. rewrite numbered_app. done.
      - rewrite clean_set_Actions, forallb_app. unfold clean in Hc2. rewrite Hact, forallb_app in Hc2.
        apply andb_prop in Hc2 as [-> [-> _]%andb_prop]. simpl. rewrite andb_true_r. by apply (clean_status _ _ a). }
  split; [done|]. intros ->. destruct (Hok3 eq_refl) as (Hs3 & Ht3 & Hj3%Hlast). split; [done|]. exists w2. done.
Qed.

(** *** Computations that keep the state recoverable *)

Definition on (P : core -> gmap string string -> Prop) w : Prop := P (core_of (journal w)) (tok w).

(** From a state that is in step with its journal and satisfies [P], the state
    stays recoverable, and without an error it ends in step and in [Q]. *)
Definition safe (P Q : core -> gmap string string -> Prop) (m : st (world E) (option error)) : Prop :=
  forall w r w', synced w -> on P w -> m w = (r, w') -> recoverable w' /\ (r = None -> synced w' /\ on Q w').

(** Whatever is known of an installation that is not over stays. *)
Definition lasting (P : core -> gmap string string -> Prop) : Prop := forall c T, P c T -> ongoing c.
Definition quiet (m : st (world E) (option error)) : Prop := forall P, lasting P -> safe P P m.

Lemma on_same P w w' : same_as w w' -> on P w -> on P w'.
Proof. unfold on. by intros (-> & _ & ->). Qed.

Lemma safe_then P Q R m k : safe P Q m -> safe Q R k -> safe P R (st_then m k).
Proof.
  intros Hm Hk w r w' Hs Hp (r1 & w1 & H1 & H2)%st_bind_inv. destruct (Hm _ _ _ Hs Hp H1) as [Hr Hok].
  destruct r1; [by injection H2 as <- <-|]. destruct (Hok eq_refl). by eapply Hk.
Qed.

Lemma step_bind {A} P Q (m : st (world E) A) k :
  still m -> (forall a, safe P Q (k a)) -> safe P Q (st_bind m k).
Proof.
  intros Hm Hk w r w' Hs Hp (a & w1 & H1 & H2)%st_bind_inv. apply (still_run _ _ _ _ Hm) in H1.
  eapply Hk; [by eapply same_synced|by eapply on_same|done].
Qed.

Lemma step_ret P err : safe P P (st_ret err).
Proof. intros w r w' Hs Hp [= <- <-]. split; [by apply synced_recoverable|done]. Qed.

Lemma safe_err P Q err : safe P Q (st_ret (Some err)).
Proof. intros w r w' Hs Hp [= <- <-]. split; [by apply synced_recoverable|done]. Qed.

Lemma safe_with {A} P Q (m : st (world E) (result A)) k :
  still m -> (forall a, safe P Q (k a)) -> safe P Q (st_with m k).
Proof. intros Hm Hk. apply step_bind; [done|]. intros []; [apply Hk|apply safe_err]. Qed.

Lemma quiet_still m : still m -> quiet m.
Proof.
  intros Hm P _ w r w' Hs Hp H1. apply (still_run _ _ _ _ Hm) in H1.
  assert (synced w') by by eapply same_synced. split; [by apply synced_recoverable|]. intros _. split; [done|by eapply on_same].
Qed.

Lemma quiet_then m k : quiet m -> quiet k -> quiet (st_then m k).
Proof. intros Hm Hk P Hl. eapply safe_then; [by apply Hm|by apply Hk]. Qed.
Lemma quiet_bind {A} (m : st (world E) A) k : still m -> (forall a, quiet (k a)) -> quiet (st_bind m k).
Proof. intros Hm Hk P Hl. apply step_bind; [done|]. intros a. by apply Hk. Qed.
Lemma quiet_with {A} (m : st (world E) (result A)) k : still m -> (forall a, quiet (k a)) -> quiet (st_with m k).
Proof. intros Hm Hk P Hl. apply safe_with; [done|]. intros a. by apply Hk. Qed.
Lemma quiet_ret err : quiet (st_ret err).
Proof. intros P _. apply step_ret. Qed.

Lemma core_unslotted j a :
  slotted a = false ->
  core_of (push j (intent_of j a)) = with_open (open_actions j ++ [intent_of j a]) (core_of j)
  /\ core_of (push j (done_of j a)) = core_of j.
Proof.
  intros Ha. unfold push. rewrite !core_add. unfold is_open.
  change (slotted (intent_of j a)) with (slotted a). change (slotted (done_of j a)) with (slotted a). rewrite Ha.
  split; [by rewrite app_nil_r|]. simpl. by rewrite !app_nil_r.
Qed.

(** A step on something that is not a slot. *)
Lemma quiet_step a apply : slotted a = false -> clean_action a = true -> still apply -> quiet (step e a apply).
Proof.
  intros Ha Hc Hap P Hl w r w' Hs Hp Hr. destruct (core_unslotted (journal w) a Ha) as [Hint Hdone].
  eapply (step_safe (fun w2 => journal w2 = push (journal w) (intent_of (journal w) a) /\ tok w2 = tok w)) in Hr;
    [|done|done|by rewrite Hint; apply good_open; [apply Hs|by eapply Hl]|].
  - destruct Hr as [Hrec Hok]. split; [done|]. intros Hn. destruct (Hok Hn) as (Hs' & w2 & [Hj2 Ht2] & Ht & Hj).
    split; [done|]. unfold on. rewrite Ht, Hj, Ht2, Hj2.
    change (set_Actions _ (push _ _)) with (push (journal w) (done_of (journal w) a)). by rewrite Hdone.
  - intros w1 r1 w2 Hs1 Hj1 Ht1 Hr1. apply (still_run _ _ _ _ Hap) in Hr1.
    assert (Hs2 : synced w2) by by eapply same_synced. destruct Hr1 as (Hj2 & _ & Ht2).
    split; [by apply synced_recoverable|]. intros _. rewrite Hj2, Ht2, Hj1. split_and!; try done.
    change (set_Actions _ (push _ _)) with (push (journal w) (done_of (journal w) a)).
    rewrite Hdone, Ht1. apply Hs.
Qed.

Lemma clean_mk n k r o b ns c st :
  ValidString k = true -> ValidString r = true -> ValidString o = true -> ValidString b = true ->
  ValidString ns = true -> ValidString c = true -> ValidString st = true ->
  clean_action (mkAction n k r o b ns c st) = true.
Proof. unfold clean_action. cbn [forallb Kind TargetRole OldState BackupRef NewState CandidateRef Status]. by intros -> -> -> -> -> -> ->. Qed.

(** *** The service *)

Lemma safe_with_post {A} (Post : A -> Prop) P Q (m : st (world E) (result A)) k :
  still m -> (forall w a w', m w = (Ok a, w') -> Post a) -> (forall a, Post a -> safe P Q (k a)) ->
  safe P Q (st_with m k).
Proof.
  intros Hm Hpost Hk w r w' Hs Hp (a & w1 & H1 & H2)%st_bind_inv. pose proof (still_run _ _ _ _ Hm H1).
  destruct a as [a|err]; [|injection H2 as <- <-; split; [|done]; apply synced_recoverable; by eapply same_synced].
  eapply (Hk a); [by eapply Hpost|by eapply same_synced|by eapply on_same|done].
Qed.

(** An action on the service, ready to be recorded. *)
Definition service_action (a : JournalAction) : Prop := service_kind (Kind a) = true /\ clean_action a = true.

Lemma service_unslotted a : service_kind (Kind a) = true -> slotted a = false.
Proof. intros (Hf & Hb & _)%service_kind_unslotted. unfold slotted. by rewrite Hf, Hb. Qed.

Lemma clean_with_kind k a : clean_action a = true -> ValidString k = true -> clean_action (with_kind k a) = true.
Proof. unfold clean_action. cbn [forallb Kind TargetRole OldState BackupRef NewState CandidateRef Status with_kind]. rewrite !andb_true_iff. tauto. Qed.

Lemma clean_with_states o n a :
  clean_action a = true -> ValidString o = true -> ValidString n = true -> clean_action (with_states o n a) = true.
Proof. unfold clean_action. cbn [forallb Kind TargetRole OldState BackupRef NewState CandidateRef Status with_states]. rewrite !andb_true_iff. tauto. Qed.

Definition keeps (f : nat -> E -> option error * E) : Prop :=
  forall n o err o', f n o = (err, o') -> tokens o' = tokens o.

Lemma still_hook_effect def a f : keeps f -> still (hook_effect x def a f).
Proof. intros Hf%still_acts. unfold hook_effect. solve_still. Qed.

Lemma quiet_hook_step def a f : service_action a -> Kind a = da_Kind def -> keeps f -> quiet (hook_step e x def a f).
Proof.
  intros [Hk Hc] Hkd Hf. unfold hook_step.
  assert (Hstep : forall b, service_action b -> quiet
    (let! w := st_get in
     let kind := reverseKind (Kind b) in
     let action := if recoveringSource w && negb (String.eqb kind "") then with_kind kind b else b in
     step e action (hook_effect x def action f))).
  { intros b [Hkb Hcb]. apply quiet_bind; [apply still_get|]. intros w. cbv zeta. case_match.
    - destruct (service_kind_unslotted _ Hkb) as (_ & _ & H1 & H2 & _ & H3).
      apply quiet_step; [unfold slotted; simpl; by rewrite H1, H2|by apply clean_with_kind|by apply still_hook_effect].
    - apply quiet_step; [by apply service_unslotted|done|by apply still_hook_effect]. }
  case_match; [|by apply (Hstep a)].
  intros P Hl w r w' Hs Hp Hr. unfold st_bind at 1 in Hr.
  destruct (st_bind (currentReload x) _ w) as [b w1] eqn:Hb.
  apply st_bind_inv in Hb as (n & w2 & Hn & [= <- <-]).
  apply (still_run _ _ _ _ still_currentReload) in Hn.
  eapply (Hstep (with_states (reloadToken n) (reloadToken (n + 1)) a)); [|exact Hl|by eapply same_synced|by eapply on_same|exact Hr].
  split; [done|]. apply clean_with_states; [done|apply reload_valid|apply reload_valid].
Qed.

(** What an adapter may hand to the hook. *)
Definition service_def (def : DefinitionAction) : Prop :=
  service_kind (da_Kind def) = true
  /\ forallb ValidString [da_TargetRole def; da_OldState def; da_NewState def; da_Link def] = true.

Lemma observeAction_valid s def w t w' : observeAction s def w = (Ok t, w') -> ValidString t = true.
Proof.
  unfold observeAction. destruct (se_files s && _);
    intros (n & w1 & _ & (w2 & w3 & _ & [= Ht _])%st_bind_inv)%st_bind_inv; eapply service_states; eauto.
  Unshelve. all: done.
Qed.

Lemma service_prepare_action s def w a w' :
  service_def def -> service_prepare s def w = (Ok a, w') -> service_action a /\ Kind a = da_Kind def.
Proof.
  intros [Hk Hv]. unfold service_prepare. case_match; [discriminate|].
  intros [(? & [=] & _)|(t & w1 & Ht & Hr)]%st_try_inv. case_match; [|discriminate].
  injection Hr as <- <-. split; [|done]. split; [done|]. apply observeAction_valid in Ht.
  simpl in Hv. destruct (service_kind_unslotted _ Hk) as (_ & _ & _ & _ & Hvk & _).
  unfold clean_action.
  cbn [forallb Kind TargetRole OldState BackupRef NewState CandidateRef Status]. rewrite Hvk, Ht.
  rewrite !andb_true_iff in Hv. destruct Hv as (-> & _ & Hn & Hl & _).
  assert (Href : ValidString (if negb (String.eqb (da_Path def) "") then ref_of (da_Path def) else "") = true).
  { case_match; [by apply ref_valid|done]. }
  rewrite Href. simpl. rewrite !andb_true_r.
  destruct (negb (String.eqb (da_Path def) "")); [|by rewrite Hn]. destruct (da_File def).
  - unfold DefinitionFileState. simpl. apply is_ascii_valid, sha256_ascii.
  - destruct (negb (String.eqb (da_Link def) "")) eqn:Hlk; [|done]. unfold DefinitionFileState. rewrite Hlk. exact Hl.
Qed.

Lemma quiet_journaledHook def f : service_def def -> keeps f -> quiet (journaledHook e x def f).
Proof.
  intros Hd Hf. unfold journaledHook.
  assert (Hplain : quiet (hook_step e x def (mkAction 0 (da_Kind def) (da_TargetRole def) (da_OldState def) "" (da_NewState def) "" "") f)).
  { apply quiet_hook_step; [|done|done]. destruct Hd as [Hk Hv]. split; [done|].
    destruct (service_kind_unslotted _ Hk) as (_ & _ & _ & _ & Hvk & _). simpl in Hv. rewrite !andb_true_iff in Hv.
    unfold clean_action. simpl. rewrite Hvk. destruct Hv as (-> & -> & -> & _). done. }
  destruct (serviceEffects x) as [s|]; [|done]. destruct (negb _); [|done].
  intros P Hl. eapply (safe_with_post (fun a => service_action a /\ Kind a = da_Kind def)); [apply still_service_prepare| |].
  - intros w a w'. by apply service_prepare_action.
  - intros a [Ha Hk]. case_match; [apply step_ret|by apply quiet_hook_step].
Qed.

Lemma keeps_hooked def : keeps (fun n => hooked_apply n def).
Proof. intros n o err o' Ho. eapply service_effects. eauto. Qed.
Lemma keeps_replay def : keeps (fun n => ReplayAction n def).
Proof. intros n o err o' Ho. eapply service_effects. eauto. Qed.

Lemma quiet_script s : serves s -> quiet (run_script e x s).
Proof.
  induction 1 as [err|a next Hk Hv Herr _ IH]; [apply quiet_ret|]. simpl.
  intros P Hl w r w' Hs Hp (err & w1 & H1 & H2)%st_bind_inv.
  apply st_bind_inv in H2 as (n & w2 & Hn%(still_run _ _ _ _ still_next) & H2).
  destruct (quiet_journaledHook a _ (conj Hk Hv) (keeps_hooked a) P Hl _ _ _ Hs Hp H1) as [Hrec Hok].
  destruct err as [err|].
  - destruct (Herr err n (ext w2)) as [err' Hret]. rewrite Hret in H2. injection H2 as <- <-.
    split; [|done]. by eapply same_recoverable.
  - destruct (Hok eq_refl) as [Hs1 Hp1]. eapply IH; [exact Hl|by eapply same_synced|by eapply on_same|exact H2].
Qed.

Lemma quiet_call f : (forall n o, serves (f n o)) -> quiet (call e x f).
Proof.
  intros Hf P Hl w r w' Hs Hp (s & w1 & H1 & H2)%st_bind_inv.
  pose proof (still_run _ _ _ _ (still_asks f) H1) as Hsame.
  apply st_bind_inv in H1 as (n & w2 & _ & (w3 & w4 & _ & [= <- _])%st_bind_inv).
  eapply quiet_script; [apply Hf|exact Hl|by eapply same_synced|by eapply on_same|exact H2].
Qed.

Lemma quiet_asks f : quiet (asks f).
Proof. apply quiet_still, still_asks. Qed.

Lemma quiet_remove keep l : Forall (fun p => service_kind (snd p) = true) l -> quiet (remove_all e x keep l).
Proof.
  induction 1 as [|[path kind] l Hk _ IH]; [apply quiet_ret|]. simpl. apply quiet_then; [|done].
  case_match; [apply quiet_ret|]. by apply quiet_journaledHook; [|apply keeps_replay].
Qed.

Lemma quiet_removeObsolete : quiet (removeObsoleteDefinitions e x).
Proof.
  unfold removeObsoleteDefinitions. repeat case_match; try apply quiet_ret. apply quiet_remove, Forall_app. split.
  - apply Forall_map, Forall_forall. intros f _. simpl. by case_match.
  - apply Forall_map, Forall_forall. done.
Qed.

Lemma quiet_reloadStep : quiet (reloadStep e x).
Proof.
  apply quiet_bind; [apply still_currentReload|]. intros n.
  apply quiet_step; [done| |by apply still_Effects_Apply].
  by apply clean_mk; try apply reload_valid.
Qed.

Lemma quiet_validation_steps : quiet (validation_steps e x).
Proof.
  apply quiet_with; [apply still_asks|]. intros nonce. apply quiet_then.
  - apply quiet_step; [done| |].
    + apply clean_mk; try done. apply is_ascii_valid, sha256_ascii.
    + apply still_then; [apply still_startAndWaitValidation|by apply still_Effects_Apply].
  - apply quiet_step; [done|done|]. apply still_then; [apply still_stopValidation|by apply still_Effects_Apply].
Qed.

Lemma quiet_runValidation : quiet (runValidation e x).
Proof.
  intros P Hl w r w' Hs Hp (err & w1 & H1 & H2)%st_bind_inv.
  apply st_bind_inv in H2 as (err2 & w2 & H2%(still_run _ _ _ _ still_stopValidation) & [= Hr <-]).
  destruct (quiet_validation_steps P Hl _ _ _ Hs Hp H1) as [Hrec Hok]. split; [by eapply same_recoverable|].
  intros ->. destruct err, err2; try done. destruct (Hok eq_refl).
  split; [by eapply same_synced|by eapply on_same].
Qed.

Lemma quiet_ensureAction a : slotted a = false -> clean_action a = true -> quiet (ensureAction e x a).
Proof.
  intros Ha Hc. unfold ensureAction. apply quiet_bind; [apply still_get|]. intros w. cbv zeta.
  assert (Hk : quiet (with! actual := observe x a in
    if String.eqb actual (NewState a) then st_ret None
    else if negb (String.eqb actual (OldState a)) then st_ret (Some unknownInstallState)
    else step e a (applyEffect x a))).
  { apply quiet_with; [apply still_observe|]. intros t. case_match; [apply quiet_ret|].
    case_match; [apply quiet_ret|]. apply quiet_step; [done|done|by apply still_applyEffect]. }
  case_match; [|done]. apply quiet_with; [apply still_observe|]. intros t. case_match; [apply quiet_ret|done].
Qed.

Lemma quiet_ensureReload : quiet (ensureReload e x).
Proof. apply quiet_bind; [apply still_get|]. intros w. case_match; [apply quiet_ret|apply quiet_reloadStep]. Qed.

Lemma quiet_ensureTarget : quiet (ensureTarget e x).
Proof.
  unfold ensureTarget. cbv zeta.
  match goal with |- context [if bool_decide _ then st_ret None else ?p] => assert (Hplain : quiet p) end.
  { apply quiet_bind; [apply still_get|]. intros w. destruct (target_activity x (journal w)) as [en ru].
    apply quiet_then; [by apply quiet_ensureAction|]. apply quiet_then.
    { case_match; [by apply quiet_ensureAction|apply quiet_ret]. }
    apply quiet_then; [apply quiet_ensureReload|]. case_match; [by apply quiet_ensureAction|apply quiet_ret]. }
  destruct (preparedAuthority x) as [pa|]; [|done]. destruct (serviceEffects x); [|by case_match; [apply quiet_ret|]].
  apply quiet_then; [apply quiet_removeObsolete|]. case_match; [apply quiet_reloadStep|].
  apply quiet_then; [apply quiet_call; intros; apply writes|].
  case_match; [apply quiet_call; intros; apply starts|apply quiet_ret].
Qed.

End Safety.

#[export] Hint Resolve still_ret still_get still_next still_inspect still_read still_load still_marker still_asks
  still_Release still_recheckAndPublish still_observe still_currentReload still_stopValidation still_recoverValidation
  still_bind_authority still_set_recovering : still.
