(* ===== verification/InstallRecovery.v ===== *)
(** * InstallRecovery: what a recovery brings about

    On top of [InstallSafety]: rolling back puts every slot back to its first
    token and rolling forward leaves it at its new one, at any point of a crash
    and as often as it takes; an installation that fails anywhere leaves a state
    from which that holds. *)

From S2P Require Import Prelude GoStd SelfUpdate InstallJournal InstallTx InstallSafety.

Section Recovery.
Context {HS : Sha256} {HU : Unicode} {HT : JSONTree} {HJ : JournalJSON} {HV : ValidationJSON} {HC : JournalCodec}.
Context {E : Type} {HO : Outside E} {HSl : Slots E} (e : jenv) (x : InstallTransaction E).
Context (T0 : gmap string string) (base : nat).
Context (Heff : tx_Effects x = true).

Implicit Types (w : world E) (j : InstallJournal).

(** ** Phases *)

Lemma fit_phase p w :
  synced T0 base w -> ValidString p = true ->
  (p = InstallPhaseComplete -> RecoveryAuthority (journal w) = InstallAuthoritySource -> tok w = T0) ->
  (p = InstallPhaseComplete -> RecoveryAuthority (journal w) = InstallAuthorityTarget -> open_actions (journal w) = []) ->
  fit T0 base (tok w) (set_Phase p (journal w)).
Proof.
  intros [Hb Hn Hc Hcase _] Hp Hdone Hopen. split_and!; [done|done| |].
  - unfold clean in *. simpl. rewrite Hp. rewrite !andb_true_iff in *. tauto.
  - destruct Hcase as [(Ha & [] & [Hu _])|[Ha []]]; [left|right]; split_and!; try done.
    + constructor; [done|]. simpl. intros ->. by apply Hdone.
    + constructor; [done..|]. simpl. intros ->. by apply Hopen.
Qed.

Lemma setPhase_safe p w r w' :
  synced T0 base w -> ValidString p = true ->
  (p = InstallPhaseComplete -> RecoveryAuthority (journal w) = InstallAuthoritySource -> tok w = T0) ->
  (p = InstallPhaseComplete -> RecoveryAuthority (journal w) = InstallAuthorityTarget -> open_actions (journal w) = []) ->
  setPhase e p w = (r, w') ->
  recoverable T0 w' /\ (r = None -> synced T0 base w' /\ journal w' = set_Phase p (journal w) /\ tok w' = tok w).
Proof.
  intros Hs Hp Hdone Hopen. pose proof (fit_phase p w Hs Hp Hdone Hopen) as Hf. unfold setPhase.
  intros (w1 & w1' & [= <- <-] & Hk)%st_bind_inv.
  apply st_bind_inv in Hk as ([] & w2 & [= <-] & Hk).
  apply st_bind_inv in Hk as ([dur err] & w3 & Hsv & [= <- <-]).
  apply save_journal_spec in Hsv as (Hj & Ht & Hno & Ha & Hok); [|apply Hf]. simpl in *. change (tok w3 = tok w) in Ht. split.
  - split; [by intros ?%Hno; destruct (synced_file T0 base w Hs)|].
    intros j' [Hj'| ->]%Ha; rewrite Ht; [|apply Hf]. by apply (synced_recoverable T0 base w).
  - intros ->. destruct (Hok eq_refl) as (_ & _ & Hd). split_and!; [|done|done].
    eapply fit_synced; [by rewrite Ht|done|done].
Qed.

(** ** Finishing an action *)

Lemma mark_fit w l1 cur l2 :
  synced T0 base w -> Actions (journal w) = l1 ++ cur :: l2 ->
  good T0 (core_of (set_Actions (l1 ++ set_Status JournalActionDone cur :: l2) (journal w))) (tok w) ->
  fit T0 base (tok w) (set_Actions (l1 ++ set_Status JournalActionDone cur :: l2) (journal w)).
Proof.
  intros [Hb Hn Hc _ _] Hl Hg. rewrite Hl in Hb, Hn. split_and!; [| | |done].
  - simpl. rewrite length_app in *. done.
  - simpl. rewrite numbered_app in *. done.
  - rewrite clean_set_Actions, forallb_app. unfold clean in Hc. rewrite Hl, forallb_app in Hc. simpl in *.
    rewrite !andb_true_iff in *. destruct Hc as [? (? & Hcur & ?)]. split_and!; try tauto.
    by apply (clean_status (Seq cur)).
Qed.

Lemma find_seq n j cur : actionBySeq n j = Some cur -> cur ∈ Actions j /\ Seq cur = n.
Proof. intros [Hin Hs]%find_some. split; [by apply list_elem_of_In|lia]. Qed.

(** Of an action that is not about a slot, or that is done already. *)
Lemma finish_other (P Q : core -> gmap string string -> Prop) a w r w' :
  synced T0 base w -> on P w -> lasting P ->
  (forall cur, actionBySeq (Seq a) (journal w) = Some cur -> Status cur <> JournalActionDone -> slotted cur = false) ->
  ((forall cur, actionBySeq (Seq a) (journal w) = Some cur -> Status cur = JournalActionDone) -> on Q w) ->
  (forall cur l1 l2, Actions (journal w) = l1 ++ cur :: l2 -> Seq cur = Seq a ->
     Q (with_open (List.filter is_open l1 ++ List.filter is_open l2) (core_of (journal w))) (tok w)) ->
  finishAction e x a w = (r, w') -> recoverable T0 w' /\ (r = None -> synced T0 base w' /\ on Q w').
Proof.
  intros Hs Hp Hlast Hcur Hq Hmark. unfold finishAction. intros (w1 & w1' & [= <- <-] & Hk)%st_bind_inv.
  assert (Hret : on Q w -> st_ret None w = (r, w') -> recoverable T0 w' /\ (r = None -> synced T0 base w' /\ on Q w')).
  { intros HQ [= <- <-]. split; [by eapply synced_recoverable|done]. }
  destruct (actionBySeq (Seq a) (journal w)) as [cur|] eqn:Hfind; [|by apply Hret; [apply Hq|]].
  destruct (String.eqb_spec (Status cur) JournalActionDone) as [Hd|Hd]; [by apply Hret; [apply Hq; intros ? [= <-]|]|].
  specialize (Hcur cur eq_refl Hd). apply find_seq in Hfind as [Hin Hseq]. clear Hq Hret.
  apply st_bind_inv in Hk as (t & w1 & Ht%(still_run _ _ _ _ (still_observe x cur)) & Hk).
  assert (Hs1 : synced T0 base w1) by by eapply same_synced.
  destruct t as [t|err]; [|by injection Hk as <- <-; split; [eapply synced_recoverable|]].
  destruct (classifyInstallAction cur t) as [progress|err]; [|by injection Hk as <- <-; split; [eapply synced_recoverable|]].
  apply st_bind_inv in Hk as (ap & w2 & Hap & Hk).
  assert (Hsame : same_as w1 w2).
  { destruct progress; [by eapply still_run; [apply still_applyEffect|]|by injection Hap as _ <-]. }
  assert (Hs2 : synced T0 base w2) by by eapply same_synced.
  destruct ap as [err|]; [by injection Hk as <- <-; split; [eapply synced_recoverable|]|].
  apply st_bind_inv in Hk as ([dur err] & w3 & Hrec & [= <- <-]).
  assert (Hj2 : journal w2 = journal w /\ tok w2 = tok w).
  { destruct Hsame as (-> & _ & ->), Ht as (-> & _ & ->). done. }
  destruct Hj2 as [Hj2 Ht2]. clear Hsame Ht Hs1.
  assert (Hnext : forall next, recorded (journal w2) (set_Status JournalActionDone cur) = Ok next ->
                    fit T0 base (tok w2) next /\ Q (core_of next) (tok w)).
  { intros next Hn. apply recorded_done in Hn as (l1 & l2 & Hl & ->); [|apply Hs2|by rewrite Hj2].
    destruct (core_done _ _ _ _ Hl) as [Hc Hsl]. rewrite Hcur in Hc, Hsl. simpl in Hc, Hsl.
    assert (Hopen : core_of (set_Actions (l1 ++ set_Status JournalActionDone cur :: l2) (journal w2))
                    = with_open (List.filter is_open l1 ++ List.filter is_open l2) (core_of (journal w2))).
    { rewrite Hc. unfold core_of, with_open. by rewrite Hsl. }
    split; [apply mark_fit; [done|done|]; rewrite Hopen|rewrite Hopen, Hj2; apply (Hmark cur); [by rewrite <- Hj2|done]].
    apply good_open; [apply Hs2|]. rewrite Hj2. by eapply Hlast. }
  apply record_safe with (T0 := T0) (base := base) in Hrec as [Hr Hok]; [|done|intros next Hn; by apply Hnext].
  split; [done|]. intros ->. destruct (Hok eq_refl) as (Hs3 & Ht3 & Hn3). split; [done|].
  unfold on in *. rewrite Ht3, Ht2. by apply Hnext.
Qed.

(** ** Effects on a slot *)

Lemma observe_slot a w t w' :
  slotted a = true -> isConcreteServiceAction a = false -> observe x a w = (Ok t, w') ->
  same_as w w' /\ tok w !! slot a = Some t.
Proof.
  intros Ha Hc Ho. split; [by eapply still_run; [apply still_observe|]|].
  assert (Hob : Effects_Observe a w = (Ok t, w')).
  { unfold observe in Ho. rewrite Hc, Heff in Ho. by destruct (serviceEffects x). }
  unfold Effects_Observe, asks in Hob. apply st_bind_inv in Hob as (w1 & w1' & [= <- <-] & Hob).
  apply st_bind_inv in Hob as (n & w2 & Hn & Hob). apply st_bind_inv in Hob as (w3 & w3' & [= <- <-] & [= Hob _]).
  injection Hn as _ <-. simpl in Hob. by eapply observes.
Qed.

Lemma Effects_Apply_slot a w r w' :
  slotted a = true -> Effects_Apply x a w = (r, w') ->
  journal w' = journal w /\ journal_file w' = journal_file w
  /\ (tok w' = <[slot a := NewState a]> (tok w) \/ tok w' = tok w /\ r <> None).
Proof.
  intros Ha. unfold Effects_Apply, acts. rewrite Heff.
  intros (w1 & w1' & [= <- <-] & (n & w2 & [= <- <-] & Ho)%st_bind_inv)%st_bind_inv. simpl in Ho.
  destruct (eff_Apply _ _ a (ext w)) as [err o] eqn:Hap. injection Ho as <- <-. split_and!; try done.
  unfold tok. simpl. by eapply applies.
Qed.

Lemma applyEffect_slot a w r w' :
  slotted a = true -> isConcreteServiceAction a = false -> applyEffect x a w = (r, w') ->
  journal w' = journal w /\ journal_file w' = journal_file w
  /\ (tok w' = <[slot a := NewState a]> (tok w) \/ tok w' = tok w /\ r <> None).
Proof.
  intros Ha Hc Hap. apply Effects_Apply_slot; [done|]. unfold applyEffect in Hap. rewrite Hc in Hap.
  by destruct (serviceEffects x).
Qed.

(** In step again after the tokens changed. *)
Lemma synced_tokens w w' :
  synced T0 base w -> journal w' = journal w -> journal_file w' = journal_file w ->
  good T0 (core_of (journal w)) (tok w') -> synced T0 base w'.
Proof.
  intros [Hb Hn Hc _ (f & Hl & Hde)] Hj Hf Hg. constructor; rewrite ?Hj; try done. exists f. by rewrite Hf.
Qed.

(** ** Rolling forward *)

Definition targeted (c : core) (T : gmap string string) : Prop :=
  c_authority c = InstallAuthorityTarget /\ c_phase c <> InstallPhaseComplete.

(** And what is not done is about an action of [l]. *)
Definition remaining (l : list JournalAction) (c : core) (T : gmap string string) : Prop :=
  targeted c T /\ forall b, b ∈ c_open c -> Seq b ∈ map Seq l.

Lemma targeted_lasting : lasting targeted.
Proof. intros c T [_ Hp]. by right. Qed.
Lemma remaining_lasting l : lasting (remaining l).
Proof. intros c T [[_ Hp] _]. by right. Qed.

Lemma elem_slotted j a : a ∈ slotted_actions j <-> a ∈ Actions j /\ slotted a = true.
Proof. unfold slotted_actions. rewrite !list_elem_of_In, filter_In. done. Qed.

Lemma elem_open (l : list JournalAction) a :
  a ∈ List.filter is_open l <-> a ∈ l /\ slotted a = false /\ Status a <> JournalActionDone.
Proof.
  rewrite !list_elem_of_In, filter_In. unfold is_open.
  destruct (slotted a), (String.eqb_spec (Status a) JournalActionDone); naive_solver.
Qed.

(** Numbers are used once. *)
Lemma numbered_split i l1 (c : JournalAction) l2 b :
  numbered i (l1 ++ c :: l2) = true -> b ∈ l1 ++ l2 -> Seq b <> Seq c.
Proof.
  rewrite numbered_app. cbn [numbered]. intros [H1 [Hc H2]%andb_prop]%andb_prop [Hb|Hb]%elem_of_app Heq.
  - apply (number_le b i l1 H1) in Hb. lia.
  - apply (numbered_gt _ _ _ H2) in Hb. lia.
Qed.

Lemma finish_one a l : safe T0 base (remaining (a :: l)) (remaining l) (finishAction e x a).
Proof.
  intros w r w' Hs [Htg Hrem] Hr.
  assert (Hdrop : forall b, b ∈ open_actions (journal w) -> Seq b <> Seq a -> Seq b ∈ map Seq l).
  { intros b Hb Hne. specialize (Hrem b Hb). apply elem_of_cons in Hrem as [Heq|?]; [done|done]. }
  eapply (finish_other (remaining (a :: l)) (remaining l)); [done|done|apply remaining_lasting| | | |exact Hr].
  - intros cur Hf%find_seq Hnd. destruct (slotted cur) eqn:Hsl; [|done]. destruct Hnd.
    destruct (sy_good _ _ _ Hs) as [[Ha _]|[_ Hd]]; [destruct Htg as [Htg _]; by rewrite Htg in Ha|].
    apply (de_done _ _ _ Hd cur). apply elem_slotted. by destruct Hf.
  - intros Hdone. split; [done|]. intros b Hb. apply Hdrop; [done|]. intros Heq. apply elem_open in Hb as (Hin & _ & Hst).
    apply Hst, Hdone. unfold actionBySeq. destruct (find _ _) as [c|] eqn:Hf.
    + apply find_seq in Hf as [Hc Hsc]. f_equal. eapply numbered_inj; [apply Hs|done|done|congruence].
    + apply find_none with (x := b) in Hf; [lia|]. by apply list_elem_of_In.
  - intros cur l1 l2 Hl Hseq. split; [done|]. intros b Hb. cbn [c_open with_open] in Hb.
    assert (Hin : b ∈ l1 ++ l2) by (apply elem_of_app in Hb as [[? _]%elem_open|[? _]%elem_open]; set_solver).
    apply Hdrop.
    + unfold open_actions. rewrite Hl, List.filter_app. simpl. apply elem_of_app in Hb as [Hb|Hb]; [set_solver|].
      destruct (is_open cur); set_solver.
    + rewrite <- Hseq. eapply numbered_split; [|exact Hin]. rewrite <- Hl. apply Hs.
Qed.

Lemma finish_all_target l : safe T0 base (remaining l) (remaining []) (finish_all e x l).
Proof.
  induction l as [|a l IH]; [apply step_ret|]. apply safe_then with (remaining l); [apply finish_one|done].
Qed.

Lemma set_authority_same j : set_RecoveryAuthority (RecoveryAuthority j) j = j.
Proof. by destruct j. Qed.

Definition completed (authority : string) (c : core) (T : gmap string string) : Prop :=
  c_phase c = InstallPhaseComplete /\ c_authority c = authority.

Lemma complete_safe authority :
  safe T0 base (fun c T => c_authority c = authority /\ (authority = InstallAuthoritySource -> T = T0)
                           /\ (authority = InstallAuthorityTarget -> c_open c = []))
    (completed authority) (complete_as e authority).
Proof.
  intros w r w' Hs (<- & HT0 & Hopen) (w1 & w1' & [= <- <-] & ([] & w2 & [= <-] & Hk)%st_bind_inv)%st_bind_inv.
  change (c_authority (core_of (journal w))) with (RecoveryAuthority (journal w)) in *.
  rewrite set_authority_same in Hk.
  eapply setPhase_safe in Hk as [Hrec Hok]; [|by eapply (same_synced T0 base w)|done|done|done].
  split; [done|]. intros Hn. destruct (Hok Hn) as (Hs' & Hj & Ht). split; [done|]. unfold on, completed. by rewrite Hj.
Qed.

Lemma rollforward_safe : safe T0 base targeted (completed InstallAuthorityTarget) (rollforward e x).
Proof.
  apply step_bind; [apply still_bind_authority|]. intros _. apply safe_then with targeted.
  { case_match; [apply quiet_asks, targeted_lasting|apply step_ret]. }
  intros w r w' Hs Htg (w1 & w1' & [= <- <-] & Hr)%st_bind_inv.
  assert (Hrem : on (remaining (Actions (journal w))) w).
  { split; [done|]. intros b [Hb _]%elem_open. by apply list_elem_of_fmap_2. }
  revert Hs Hrem Hr. generalize (Actions (journal w)) as l. clear Htg. intros l. revert w r w'.
  change (safe T0 base (remaining l) (completed InstallAuthorityTarget)
    (then! finish_all e x l in then! ensureTarget e x in complete_as e InstallAuthorityTarget)).
  apply safe_then with (remaining []); [apply finish_all_target|].
  apply safe_then with (remaining []); [apply quiet_ensureTarget, remaining_lasting|].
  intros w1 r w' Hs [[Htg _] Hrem] Hr. eapply complete_safe; [done| |done]. split; [exact Htg|]. split; [done|].
  intros _. destruct (c_open (core_of (journal w1))) as [|b o]; [done|]. specialize (Hrem b (list_elem_of_here _ _)).
  by apply elem_of_nil in Hrem.
Qed.

(** ** Rolling back *)

(** Equal up to the status. *)
Definition bare (a : JournalAction) : JournalAction := set_Status "" a.

Lemma bare_slot a b : bare a = bare b -> slot a = slot b /\ slotted a = slotted b.
Proof. destruct a, b. by intros [= -> -> -> -> -> -> ->]. Qed.

(** The actions that the loop goes through are those of the journal, and the
    slots of the actions behind the [k]-th have their first token again. *)
Record unwinding (l : list JournalAction) (k : Z) (c : core) (T : gmap string string) : Prop := {
  uw_source : source c;
  uw_slotted : forall b, b ∈ c_actions c -> slotted b = true;
  uw_kept : forall a, a ∈ l -> slotted a = true -> exists b, b ∈ c_actions c /\ bare b = bare a;
  uw_known : forall b, b ∈ c_actions c -> Seq b <= Z.of_nat (length l) -> exists a, a ∈ l /\ bare b = bare a;
  uw_undone : forall b, b ∈ c_actions c -> k < Seq b -> T !! slot b = T0 !! slot b
}.

Lemma unwinding_lasting l k : lasting (unwinding l k).
Proof. intros c T Hu. left. apply Hu. Qed.
Lemma unwinding_open l k c T o : unwinding l k c T -> unwinding l k (with_open o c) T.
Proof. by intros []. Qed.

Section Unwinding.
Context (l : list JournalAction).
Context (Hnum : numbered 0 l = true) (Hclean : forall a, a ∈ l -> clean_action a = true)
  (Hbase : (length l <= base)%nat).

(** An action of the journal with the number of [a] is [a]. *)
Lemma same_number a b c k T :
  unwinding l k c T -> a ∈ l -> Seq a <= Z.of_nat (length l) -> b ∈ c_actions c -> Seq b = Seq a -> bare b = bare a.
Proof.
  intros Hu Ha Hle Hb Hseq. destruct (uw_known _ _ _ _ Hu b Hb) as (a' & Ha' & Hbare); [lia|].
  assert (a' = a) as ->; [|done]. eapply numbered_inj; [done|done|done|]. rewrite <- Hseq. by destruct b, a'; injection Hbare.
Qed.

(** The turn of [a] is over when its slot, if it has one, has its first token. *)
Lemma unwound a c T :
  a ∈ l -> unwinding l (Seq a) c T -> (slotted a = true -> T !! slot a = T0 !! slot a) ->
  unwinding l (Seq a - 1) c T.
Proof.
  intros Ha Hu Hslot. pose proof (number_le a 0 l Hnum Ha) as Hle. constructor; try apply Hu.
  intros b Hb Hlt. destruct (decide (Seq b = Seq a)) as [Heq|Hne]; [|apply (uw_undone _ _ _ _ Hu b Hb); lia].
  pose proof (same_number a b c _ T Hu Ha ltac:(lia) Hb Heq) as Hbare. apply bare_slot in Hbare as [-> Hsl].
  apply Hslot. rewrite <- Hsl. by apply Hu.
Qed.

(** The recorded action that stands for [a]. *)
Lemma recorded_as w a k :
  synced T0 base w -> on (unwinding l k) w -> a ∈ l -> slotted a = true ->
  exists b, b ∈ c_actions (core_of (journal w)) /\ bare b = bare a /\ actionBySeq (Seq a) (journal w) = Some b.
Proof.
  intros Hs Hu Ha Hsl. destruct (uw_kept _ _ _ _ Hu a Ha Hsl) as (b & Hb & Hbare). exists b. split_and!; [done|done|].
  assert (Hseq : Seq b = Seq a) by (by destruct a, b; injection Hbare).
  assert (HbA : b ∈ Actions (journal w)) by by apply elem_slotted in Hb as [? _].
  unfold actionBySeq. destruct (find _ _) as [b'|] eqn:Hf.
  - apply find_some in Hf as [Hb' Hs']. f_equal. eapply numbered_inj; [apply Hs|by apply list_elem_of_In|done|lia].
  - apply find_none with (x := b) in Hf; [lia|]. by apply list_elem_of_In.
Qed.

(** A forward action with a slot: [Some] token tells where it stands. *)
Lemma forward_token c T a b :
  good T0 c T -> source c -> b ∈ c_actions c -> is_forward b -> bare b = bare a ->
  T0 !! slot a = Some (OldState a) /\ isConcreteServiceAction a = false
  /\ (T !! slot a = Some (OldState a) \/ T !! slot a = Some (NewState a)).
Proof.
  intros Hg Hs Hb Hf Hbare. destruct (good_source _ _ _ Hg Hs) as [Hw [Hu _]].
  assert (Hsl : slot a = slot b) by by destruct (bare_slot _ _ Hbare).
  assert (Hos : OldState a = OldState b /\ NewState a = NewState b /\ isConcreteServiceAction a = isConcreteServiceAction b).
  { destruct a, b. by injection Hbare as -> -> -> -> -> -> ->. }
  destruct Hos as (-> & -> & ->). rewrite Hsl. split_and!; [by apply (wf_old _ _ Hw)|by apply (wf_refs _ _ Hw)|].
  destruct (Hu (slot b)) as [->|(b' & Hb' & Hf' & Hsl' & HT' & _)]; [left; by apply (wf_old _ _ Hw)|right].
  by rewrite (wf_distinct _ _ Hw b' b) in HT'.
Qed.

(** Marking an action as done does not disturb the unwinding. *)
Lemma unwinding_mark k c T l1 b l2 :
  unwinding l k c T -> c_actions c = l1 ++ b :: l2 ->
  unwinding l k (with_actions (l1 ++ set_Status JournalActionDone b :: l2) c) T.
Proof.
  intros Hu Hl.
  assert (Hto : forall a, a ∈ l1 ++ set_Status JournalActionDone b :: l2 -> exists a', a' ∈ c_actions c /\ bare a = bare a').
  { intros a Ha. apply done_elem in Ha as (a' & Ha' & Hc). exists a'. rewrite Hl. split; [done|].
    by destruct Hc as [[-> _]|[-> _]]. }
  assert (Hfrom : forall a', a' ∈ c_actions c -> exists a, a ∈ l1 ++ set_Status JournalActionDone b :: l2 /\ bare a = bare a').
  { rewrite Hl. intros a' [Ha|[->|Ha]%elem_of_cons]%elem_of_app;
      [exists a'|exists (set_Status JournalActionDone b)|exists a']; (split; [set_solver|done]). }
  assert (Hseq : forall a a', bare a = bare a' -> Seq a = Seq a') by (intros [] [] [=]; done).
  constructor; simpl.
  - apply Hu.
  - intros a (a' & Ha' & Hb)%Hto. apply bare_slot in Hb as [_ ->]. by apply Hu.
  - intros a Ha Hsl. destruct (uw_kept _ _ _ _ Hu a Ha Hsl) as (a' & Ha' & Hb).
    destruct (Hfrom a' Ha') as (a2 & Ha2 & Hb2). exists a2. split; [done|congruence].
  - intros a (a' & Ha' & Hb)%Hto Hle. rewrite (Hseq _ _ Hb) in Hle.
    destruct (uw_known _ _ _ _ Hu a' Ha' Hle) as (a2 & Ha2 & Hb2). exists a2. split; [done|congruence].
  - intros a (a' & Ha' & Hb)%Hto Hlt. rewrite (Hseq _ _ Hb) in Hlt. apply bare_slot in Hb as [-> _].
    by apply (uw_undone _ _ _ _ Hu).
Qed.

(** Neither does putting a slot back. *)
Lemma unwinding_put k c T s v : unwinding l k c T -> T0 !! s = Some v -> unwinding l k c (<[s := v]> T).
Proof.
  intros Hu Hv. constructor; try apply Hu. intros b Hb Hlt. destruct (decide (slot b = s)) as [->|Hne].
  - by rewrite lookup_insert_eq.
  - rewrite lookup_insert_ne by done. by apply (uw_undone _ _ _ _ Hu).
Qed.

(** A slot observed in the new state of an undo has its first token. *)
Lemma classified_back b t : is_backward b -> classifyInstallAction b t = Ok ActionStarted -> t = NewState b.
Proof.
  unfold classifyInstallAction, ClassifyObservedAction. intros Hb Hcl.
  assert (Hnr : String.eqb (Kind b) JournalActionReload || String.eqb (Kind b) JournalActionRestoreReload = false).
  { unfold is_backward in Hb. kinds Hb; by rewrite <- Hb. }
  rewrite Hnr in Hcl. destruct (String.eqb t (OldState b)); [done|]. by destruct (String.eqb_spec t (NewState b)).
Qed.

(** The effect of an undo: the slot is back, or it failed. *)
Lemma undo_effect k b t progress w ap w' :
  synced T0 base w -> on (unwinding l k) w -> b ∈ c_actions (core_of (journal w)) -> is_backward b ->
  tok w !! slot b = Some t -> classifyInstallAction b t = Ok progress ->
  (match progress with ActionNotStarted => applyEffect x b | ActionStarted => st_ret None end) w = (ap, w') ->
  synced T0 base w' /\ on (unwinding l k) w' /\ journal w' = journal w
  /\ (ap = None -> tok w' !! slot b = T0 !! slot b).
Proof.
  intros Hs Hu Hb Hbb Ht Hcl Hap. destruct (good_source _ _ _ (sy_good _ _ _ Hs) (uw_source _ _ _ _ Hu)) as [Hw _].
  pose proof (undone_token _ _ b Hw Hb Hbb) as HT0. destruct progress.
  - apply applyEffect_slot in Hap as (Hj2 & Hf2 & Htok); [|by apply Hu|by apply (wf_refs _ _ Hw)].
    assert (Hg2 : good T0 (core_of (journal w)) (tok w') /\ unwinding l k (core_of (journal w)) (tok w')).
    { destruct Htok as [->|[-> _]]; [|split; [apply Hs|exact Hu]].
      split; [apply good_put_back; [apply Hs|apply Hu|done]|by apply unwinding_put]. }
    split_and!; [by eapply synced_tokens; [| | |apply Hg2]|unfold on; rewrite Hj2; apply Hg2|done|].
    intros ->. destruct Htok as [->|[_ []]]; [|done]. by rewrite lookup_insert_eq, HT0.
  - injection Hap as <- <-. split_and!; [done|done|done|]. intros _. rewrite Ht, HT0. f_equal. by apply classified_back.
Qed.

(** Marking an undo whose slot is back. *)
Lemma mark_back k b w next :
  synced T0 base w -> on (unwinding l k) w -> b ∈ c_actions (core_of (journal w)) ->
  tok w !! slot b = T0 !! slot b -> recorded (journal w) (set_Status JournalActionDone b) = Ok next ->
  fit T0 base (tok w) next /\ unwinding l k (core_of next) (tok w).
Proof.
  intros Hs Hu Hb Hback Hn. assert (Hb2 : b ∈ Actions (journal w)) by by apply elem_slotted in Hb as [? _].
  pose proof (uw_slotted _ _ _ _ Hu b Hb) as Hslb.
  apply recorded_done in Hn as (l1 & l2 & Hl & ->); [|apply Hs|done].
  destruct (core_done _ _ _ _ Hl) as [Hc Hsl]. rewrite Hslb in Hc, Hsl. simpl in Hc, Hsl.
  change (mkCore _ _ _ _ _) with (with_actions (List.filter slotted l1 ++ set_Status JournalActionDone b :: List.filter slotted l2) (core_of (journal w))) in Hc.
  split.
  - apply mark_fit; [done|done|]. rewrite Hc. apply good_done; [apply Hs|apply Hu|exact Hsl| |intros _; exact Hback].
    eapply seqs_nodup, Hs.
  - rewrite Hc. apply unwinding_mark; [exact Hu|exact Hsl].
Qed.

(** An undo that was started is finished. *)
Lemma finish_backward a w r w' :
  synced T0 base w -> on (unwinding l (Seq a)) w -> a ∈ l -> is_backward a ->
  finishAction e x a w = (r, w') ->
  recoverable T0 w' /\ (r = None -> synced T0 base w' /\ on (unwinding l (Seq a - 1)) w').
Proof.
  intros Hs Hu Ha Hback. assert (Hsl : slotted a = true) by (unfold slotted; rewrite Hback; apply orb_true_r).
  destruct (recorded_as w a _ Hs Hu Ha Hsl) as (b & Hb & Hbare & Hfind). destruct (bare_slot _ _ Hbare) as [Hslot _].
  assert (Hbb : is_backward b) by (unfold is_backward in *; by destruct a, b; injection Hbare as _ -> _).
  destruct (good_source _ _ _ (sy_good _ _ _ Hs) (uw_source _ _ _ _ Hu)) as [Hw Hun].
  unfold finishAction. intros (w1 & w1' & [= <- <-] & Hk)%st_bind_inv. rewrite Hfind in Hk.
  destruct (String.eqb_spec (Status b) JournalActionDone) as [Hd|Hd].
  { injection Hk as <- <-. split; [by eapply synced_recoverable|]. intros _. split; [done|]. apply unwound; [done|exact Hu|].
    intros _. rewrite <- Hslot. destruct (un_slots _ _ _ Hun (slot b)) as [?|(b' & _ & _ & _ & _ & Hno)]; [done|].
    by destruct (Hno b Hb Hbb eq_refl). }
  apply st_bind_inv in Hk as ([t|err] & w1 & Ht & Hk); cycle 1.
  { injection Hk as <- <-. apply (still_run _ _ _ _ (still_observe x b)) in Ht. split; [|done].
    eapply synced_recoverable. by eapply same_synced. }
  apply observe_slot in Ht as [Hsame Ht]; [|by apply Hu|by apply (wf_refs _ _ Hw)].
  assert (Hs1 : synced T0 base w1) by by eapply same_synced.
  assert (Hu1 : on (unwinding l (Seq a)) w1) by by eapply on_same.
  destruct (classifyInstallAction b t) as [progress|err] eqn:Hcl;
    [|by injection Hk as <- <-; split; [by eapply synced_recoverable|]].
  destruct Hsame as (Hj1 & _ & Ht1). rewrite <- Hj1 in Hb. rewrite <- Ht1 in Ht.
  apply st_bind_inv in Hk as (ap & w2 & Hap & Hk).
  eapply undo_effect in Hap as (Hs2 & Hu2 & Hj2 & Hback2); [|done|done|done|done|done|done].
  destruct ap as [err|]; [by injection Hk as <- <-; split; [by eapply synced_recoverable|]|].
  specialize (Hback2 eq_refl). rewrite <- Hj2 in Hb. apply st_bind_inv in Hk as ([dur err] & w3 & Hrec & [= <- <-]).
  pose proof (fun next => mark_back (Seq a) b w2 next Hs2 Hu2 Hb Hback2) as Hnext.
  apply record_safe with (T0 := T0) (base := base) in Hrec as [Hr Hok]; [|done|intros next Hn; by apply Hnext].
  split; [done|]. intros ->. destruct (Hok eq_refl) as (Hs3 & Ht3 & Hn3). split; [done|].
  apply unwound; [done|unfold on; rewrite Ht3; by apply (Hnext _ Hn3)|]. intros _. by rewrite <- Hslot, Ht3.
Qed.

(** An action behind all of [l] whose slot is back. *)
Lemma unwinding_add k c T r :
  unwinding l k c T -> slotted r = true -> Z.of_nat (length l) < Seq r -> T !! slot r = T0 !! slot r ->
  unwinding l k (with_actions (c_actions c ++ [r]) c) T.
Proof.
  intros Hu Hr Hseq HT1. constructor; simpl.
  - apply Hu.
  - intros b [Hb| ->%list_elem_of_singleton]%elem_of_app; [by apply Hu|done].
  - intros a Ha Hsl. destruct (uw_kept _ _ _ _ Hu a Ha Hsl) as (b & Hb & Hbare). exists b. split; [set_solver|done].
  - intros b [Hb| ->%list_elem_of_singleton]%elem_of_app Hle; [by apply (uw_known _ _ _ _ Hu)|lia].
  - intros b [Hb| ->%list_elem_of_singleton]%elem_of_app Hlt; [by apply (uw_undone _ _ _ _ Hu)|done].
Qed.

(** A forward action that took effect is undone. *)
Lemma reverse_forward a w r w' :
  synced T0 base w -> on (unwinding l (Seq a)) w -> a ∈ l -> is_forward a ->
  reverse_step e x a (NewState a) (OldState a) w = (r, w') ->
  recoverable T0 w' /\ (r = None -> synced T0 base w' /\ on (unwinding l (Seq a - 1)) w').
Proof.
  intros Hs Hu Ha Hf Hr. assert (Hsl : slotted a = true) by (unfold slotted; by rewrite Hf).
  destruct (uw_kept _ _ _ _ Hu a Ha Hsl) as (b & Hb & Hbare).
  assert (Hfb : is_forward b) by (unfold is_forward in *; by destruct a, b; injection Hbare as _ -> _).
  destruct (forward_token _ _ a b (sy_good _ _ _ Hs) (uw_source _ _ _ _ Hu) Hb Hfb Hbare) as (HT0 & Hcon & _).
  unfold reverse_step in Hr. set (act := reverse_action a (NewState a) (OldState a)) in *.
  set (int := intent_of (journal w) act).
  assert (Hundo : undoes int b).
  { unfold undoes. subst int act. destruct a, b. injection Hbare as -> -> -> -> -> -> ->. done. }
  assert (Hundo_a : undoes act a) by done.
  destruct (undoes_slot _ _ Hf Hundo_a) as [Hslot Hback].
  assert (Hsla : slotted act = true) by (unfold slotted; rewrite Hback; apply orb_true_r).
  assert (Hcona : isConcreteServiceAction act = false) by by apply (undoes_refs act a).
  assert (Hclact : clean_action act = true).
  { pose proof (Hclean a Ha) as Hca. unfold clean_action in Hca. simpl in Hca. rewrite !andb_true_iff in Hca.
    apply clean_mk; try tauto; apply reverseKind_valid. }
  pose proof (sy_good _ _ _ Hs) as Hg. pose proof (uw_source _ _ _ _ Hu) as Hsrc.
  assert (Hpush : good T0 (with_actions (c_actions (core_of (journal w)) ++ [int]) (core_of (journal w))) (tok w))
    by by eapply good_add_backward.
  eapply (step_safe e T0 base (fun w2 => journal w2 = push (journal w) int /\ tok w2 = <[slot a := OldState a]> (tok w))) in Hr;
    [|done|done|by rewrite core_push|].
  - destruct Hr as [Hrec Hok]. split; [done|]. intros Hn.
    destruct (Hok Hn) as (Hs' & w2 & [Hj2 Ht2] & Ht & Hj). split; [done|]. unfold on. rewrite Ht, Hj, Ht2, Hj2.
    change (set_Actions _ (push _ _)) with (push (journal w) (done_of (journal w) act)). rewrite core_push by done.
    apply unwound; [done| |intros _; by rewrite lookup_insert_eq].
    apply unwinding_add; [by apply unwinding_put|done| |].
    + pose proof (sy_base _ _ _ Hs). simpl. lia.
    + change (slot (done_of (journal w) act)) with (slot act). by rewrite Hslot, lookup_insert_eq.
  - intros w1 r1 w2 Hs1 Hj1 Ht1 Hap. apply applyEffect_slot in Hap as (Hj2 & Hf2 & Htok); [|done|done].
    rewrite Hslot in Htok. change (NewState act) with (OldState a) in Htok.
    assert (Hg2 : good T0 (core_of (journal w1)) (tok w2)).
    { destruct Htok as [->|[-> _]]; [|apply Hs1]. apply good_put_back; [apply Hs1| |done].
      rewrite Hj1. by rewrite core_push. }
    assert (Hs2 : synced T0 base w2) by by eapply synced_tokens.
    split; [by eapply synced_recoverable|]. intros ->. destruct Htok as [Htok|[_ []]]; [|done].
    rewrite Hj2, Hj1, Htok, Ht1. split_and!; [done|done|done|done|].
    change (set_Actions _ (push _ _)) with (push (journal w) (done_of (journal w) act)). rewrite core_push by done.
    rewrite Hj1, core_push in Hg2 by done. rewrite Htok, Ht1 in Hg2.
    eapply good_done in Hg2; [exact Hg2|done|done| |].
    + by eapply (pushed_nodup T0 base w1).
    + intros _. assert (Hsi : slot int = slot a) by exact Hslot. fold int. by rewrite Hsi, lookup_insert_eq, HT0.
Qed.

Lemma quiet_reverse a : slotted a = false -> clean_action a = true -> quiet T0 base (reverse e x a).
Proof.
  intros Ha Hca. unfold reverse. apply quiet_bind; [apply still_get|]. intros w. cbv zeta.
  assert (Hns : forall o n, slotted (reverse_action a o n) = false).
  { intros o n. unfold slotted. simpl. rewrite reverseKind_not_forward. simpl. apply not_true_is_false.
    intros Hb%reverseKind_forward. unfold slotted in Ha. by rewrite Hb in Ha. }
  assert (Hstep : forall o n, ValidString o = true -> ValidString n = true -> quiet T0 base (reverse_step e x a o n)).
  { intros o n Ho Hn. apply quiet_step; [done| |by apply still_applyEffect].
    unfold clean_action in Hca. simpl in Hca. rewrite !andb_true_iff in Hca.
    apply clean_mk; try tauto; apply reverseKind_valid. }
  case_match; [apply quiet_ret|]. case_match; [apply quiet_ret|]. case_match.
  { apply quiet_bind; [apply still_currentReload|]. intros n. apply Hstep; apply reload_valid. }
  destruct (one_of _ _) eqn:Hdata.
  { exfalso. unfold slotted in Ha. rewrite (reverseKind_forward (Kind a)) in Ha; [done|].
    kinds Hdata; by rewrite <- Hdata. }
  unfold clean_action in Hca. simpl in Hca. rewrite !andb_true_iff in Hca. apply Hstep; tauto.
Qed.

(** The turn of an action without a slot. *)
Lemma turn_other a w r w' :
  synced T0 base w -> on (unwinding l (Seq a)) w -> a ∈ l -> slotted a = false ->
  rollback_action e x a w = (r, w') ->
  recoverable T0 w' /\ (forall b, r = Ok b -> synced T0 base w' /\ on (unwinding l (Seq a - 1)) w').
Proof.
  intros Hs Hu Ha Hsl Hr.
  assert (Hend : forall w2, synced T0 base w2 -> on (unwinding l (Seq a)) w2 ->
            synced T0 base w2 /\ on (unwinding l (Seq a - 1)) w2).
  { intros w2 Hs2 Hu2. split; [done|]. apply unwound; [done|exact Hu2|]. by rewrite Hsl. }
  assert (Hnow : forall w2 b, same_as w w2 -> (b, w2) = (r, w') ->
            recoverable T0 w' /\ (forall b, r = Ok b -> synced T0 base w' /\ on (unwinding l (Seq a - 1)) w')).
  { intros w2 b Hsame [= -> ->]. assert (synced T0 base w') by by eapply same_synced.
    split; [by eapply synced_recoverable|]. intros _ _. apply Hend; [done|by eapply on_same]. }
  unfold rollback_action in Hr. destruct (_ && one_of _ _); [eapply Hnow; [|exact Hr]; done|].
  destruct (one_of _ _); [eapply Hnow; [|exact Hr]; done|]. destruct (isReverseAction _).
  - apply st_bind_inv in Hr as (err & w1 & Hf & [= <- <-]).
    eapply (finish_other (unwinding l (Seq a)) (unwinding l (Seq a))) in Hf as [Hrec Hok];
      [|done|done|apply unwinding_lasting| |done|intros; by apply unwinding_open].
    + split; [done|]. intros b Hb. destruct err; [done|]. destruct (Hok eq_refl). by apply Hend.
    + intros cur [Hin Hseq]%find_seq _. destruct (slotted cur) eqn:Hcur; [|done]. rewrite <- Hsl, <- Hcur. symmetry.
      assert (Hc : cur ∈ c_actions (core_of (journal w))) by by apply elem_slotted.
      pose proof (number_le a 0 l Hnum Ha).
      by destruct (bare_slot _ _ (same_number a cur _ _ _ Hu Ha ltac:(lia) Hc Hseq)).
  - apply st_bind_inv in Hr as (w1 & w1' & [= <- <-] & Hr). destruct (alreadyReversed _ _); [eapply Hnow; [|exact Hr]; done|].
    apply st_bind_inv in Hr as (t & w1 & Ht%(still_run _ _ _ _ (still_observe x a)) & Hr).
    destruct t as [t|err]; [|eapply Hnow; [|exact Hr]; done].
    destruct (classifyInstallAction a t) as [[]|err]; [eapply Hnow; [|exact Hr]; done| |eapply Hnow; [|exact Hr]; done].
    destruct (String.eqb _ _); [eapply Hnow; [|exact Hr]; done|]. apply st_bind_inv in Hr as (err & w2 & Hrev & [= <- <-]).
    eapply (quiet_reverse a Hsl (Hclean a Ha) (unwinding l (Seq a))) in Hrev as [Hrec Hok];
      [|apply unwinding_lasting|by eapply same_synced|by eapply on_same].
    split; [done|]. intros b Hb. destruct err; [done|]. destruct (Hok eq_refl). by apply Hend.
Qed.

(** [reverse] of an action on a slot that took effect. *)
Lemma reverse_slot a w r w' :
  synced T0 base w -> on (unwinding l (Seq a)) w -> a ∈ l -> is_forward a -> tok w !! slot a = Some (NewState a) ->
  reverse e x a w = (r, w') ->
  recoverable T0 w' /\ (r = None -> synced T0 base w' /\ on (unwinding l (Seq a - 1)) w').
Proof.
  intros Hs Hu Ha Hf Ht Hr. assert (Hsl : slotted a = true) by (unfold slotted; by rewrite Hf).
  destruct (uw_kept _ _ _ _ Hu a Ha Hsl) as (b & Hb & Hbare).
  assert (Hfb : is_forward b) by (unfold is_forward in *; by destruct a, b; injection Hbare as _ -> _).
  pose proof (sy_good _ _ _ Hs) as Hg. pose proof (uw_source _ _ _ _ Hu) as Hsrc.
  destruct (forward_token _ _ a b Hg Hsrc Hb Hfb Hbare) as (HT0 & Hcon & _).
  destruct (good_source _ _ _ Hg Hsrc) as [Hw _].
  assert (Hkb : Kind b = Kind a /\ OldState b = OldState a) by (by destruct a, b; injection Hbare as _ -> _ -> _).
  unfold reverse in Hr. apply st_bind_inv in Hr as (w1 & w1' & [= <- <-] & Hr).
  destruct (decide (Kind a = JournalActionDataPublish)) as [Hdp|Hdp].
  - assert (Hret : DataAction (journal w) <> InstallDataRetain).
    { intros Hret. apply (wf_data _ _ Hw Hret b Hb). by rewrite (proj1 Hkb). }
    assert (Habs : OldState a = "absent").
    { rewrite <- (proj2 Hkb). apply (wf_absent _ _ Hw b Hb). by rewrite (proj1 Hkb). }
    apply String.eqb_neq in Hret. rewrite Hdp, Hret in Hr. simpl in Hr.
    apply st_bind_inv in Hr as (t & w1 & Hob & Hr).
    assert (Heq : with_kind JournalActionDataPublish a = a) by (rewrite <- Hdp; by destruct a).
    change (with_kind "data_publish" a) with (with_kind JournalActionDataPublish a) in Hob. rewrite Heq in Hob.
    destruct t as [t|err]; cycle 1.
    { injection Hr as <- <-. split; [|done]. eapply synced_recoverable, same_synced; [|done].
      by eapply still_run; [apply still_observe|]. }
    apply observe_slot in Hob as [Hsame Hob]; [|done|done]. rewrite Ht in Hob. injection Hob as <-.
    assert (Hs1 : synced T0 base w1) by by eapply same_synced.
    assert (Hu1 : on (unwinding l (Seq a)) w1) by by eapply on_same.
    destruct (String.eqb_spec (NewState a) "absent") as [Hna|_].
    + injection Hr as <- <-. split; [by eapply synced_recoverable|]. intros _. split; [done|].
      apply unwound; [done|exact Hu1|]. intros _. destruct Hsame as (_ & _ & ->). by rewrite Ht, HT0, Hna, Habs.
    + rewrite <- Habs in Hr. by eapply reverse_forward.
  - apply (reverse_forward a w); [done|done|done|done|]. clear - Hr Hdp Hf. unfold is_forward in Hf. kinds Hf; try congruence.
    all: by rewrite <- Hf in Hr.
Qed.

Lemma slotted_kind a : slotted a = true ->
  one_of (Kind a) [JournalActionStop; JournalActionStart; JournalActionRestoreStop; JournalActionRestoreStart] = false
  /\ one_of (Kind a) [JournalActionReload; JournalActionRestoreReload] = false
  /\ isReverseAction (Kind a) = backward_kind (Kind a).
Proof. unfold slotted. intros [Hk|Hk]%orb_prop; kinds Hk; by rewrite <- Hk. Qed.

(** The turn of an action on a slot. *)
(** A forward action that was taken back has its slot back. *)
Lemma already_back a w :
  on (unwinding l (Seq a)) w -> is_forward a -> alreadyReversed a (journal w) = true -> tok w !! slot a = T0 !! slot a.
Proof.
  intros Hu Hf. unfold alreadyReversed. case_match; [done|].
  intros (r0 & Hin%list_elem_of_In & Hm)%existsb_exists. rewrite !andb_true_iff, !String.eqb_eq in Hm.
  destruct Hm as ((((Hlt & Hk) & Hro) & Hbr) & Hcr).
  assert (Hsl0 : slot r0 = slot a /\ slotted r0 = true).
  { unfold slot, slotted. rewrite Hk, Hro, Hcr. clear - Hf. unfold is_forward in Hf. kinds Hf; by rewrite <- Hf. }
  rewrite <- (proj1 Hsl0). apply (uw_undone _ _ _ _ Hu); [|lia]. apply elem_slotted. split; [done|apply Hsl0].
Qed.

Lemma turn_forward a w r w' :
  synced T0 base w -> on (unwinding l (Seq a)) w -> a ∈ l -> is_forward a ->
  rollback_action e x a w = (r, w') ->
  recoverable T0 w' /\ (forall b, r = Ok b -> synced T0 base w' /\ on (unwinding l (Seq a - 1)) w').
Proof.
  intros Hs Hu Ha Hf Hr. assert (Hsl : slotted a = true) by (unfold slotted; by rewrite Hf).
  destruct (uw_kept _ _ _ _ Hu a Ha Hsl) as (b & Hb & Hbare).
  assert (Hfb : is_forward b) by (unfold is_forward in *; by destruct a, b; injection Hbare as _ -> _).
  pose proof (sy_good _ _ _ Hs) as Hg. pose proof (uw_source _ _ _ _ Hu) as Hsrc.
  destruct (forward_token _ _ a b Hg Hsrc Hb Hfb Hbare) as (HT0 & Hcon & Htok).
  assert (Hback : forall w2 b, same_as w w2 -> tok w !! slot a = T0 !! slot a -> (b, w2) = (r, w') ->
            recoverable T0 w' /\ (forall b, r = Ok b -> synced T0 base w' /\ on (unwinding l (Seq a - 1)) w')).
  { intros w2 b' Hsame Hslot [= -> ->]. assert (synced T0 base w') by by eapply same_synced.
    split; [by eapply synced_recoverable|]. intros _ _. split; [done|].
    apply unwound; [done|by eapply (on_same (unwinding l (Seq a)))|]. by destruct Hsame as (_ & _ & ->). }
  assert (Hfail : forall w2 err, same_as w w2 -> (Err err, w2) = (r, w') ->
            recoverable T0 w' /\ (forall b, r = Ok b -> synced T0 base w' /\ on (unwinding l (Seq a - 1)) w')).
  { intros w2 err Hsame [= <- <-]. split; [|done]. eapply synced_recoverable. by eapply same_synced. }
  destruct (slotted_kind a Hsl) as (Hk1 & Hk2 & Hk3). unfold rollback_action in Hr.
  rewrite Hk1, andb_false_r, Hk2, Hk3, (forward_not_backward _ Hf) in Hr.
  apply st_bind_inv in Hr as (w1 & w1' & [= <- <-] & Hr). destruct (alreadyReversed a (journal w)) eqn:Hrev.
  { eapply Hback; [done|by eapply already_back|exact Hr]. }
  apply st_bind_inv in Hr as (t & w1 & Ht & Hr). destruct t as [t|err]; cycle 1.
  { eapply Hfail; [|exact Hr]. by eapply still_run; [apply still_observe|]. }
  apply observe_slot in Ht as [Hsame Ht]; [|done|done].
  destruct (classifyInstallAction a t) as [progress|err] eqn:Hcl; [|eapply Hfail; [|exact Hr]; done].
  unfold classifyInstallAction in Hcl. simpl in Hk2. rewrite orb_false_r in Hk2. rewrite Hk2 in Hcl.
  unfold ClassifyObservedAction in Hcl. destruct (String.eqb_spec t (OldState a)) as [->|Hto].
  { injection Hcl as <-. eapply Hback; [done| |exact Hr]. by rewrite Ht, HT0. }
  destruct (String.eqb_spec t (NewState a)) as [->|]; [|done]. injection Hcl as <-.
  destruct (String.eqb_spec (reverseKind (Kind a)) "") as [Hz|_].
  { exfalso. clear - Hz Hf. unfold is_forward in Hf. kinds Hf; rewrite <- Hf in Hz; vm_compute in Hz; discriminate Hz. }
  apply st_bind_inv in Hr as (err & w2 & Hrv & [= <- <-]).
  assert (Hs1 : synced T0 base w1) by by eapply same_synced.
  assert (Hu1 : on (unwinding l (Seq a)) w1) by by eapply on_same.
  eapply reverse_slot in Hrv as [Hrec Hok]; [|done|done|done|done|by destruct Hsame as (_ & _ & ->)].
  split; [done|]. intros b' Hb'. destruct err; [done|]. by apply Hok.
Qed.

Lemma turn a w r w' :
  synced T0 base w -> on (unwinding l (Seq a)) w -> a ∈ l -> rollback_action e x a w = (r, w') ->
  recoverable T0 w' /\ (forall b, r = Ok b -> synced T0 base w' /\ on (unwinding l (Seq a - 1)) w').
Proof.
  intros Hs Hu Ha Hr. destruct (slotted a) eqn:Hsl; [|by eapply turn_other].
  destruct (forward_kind (Kind a)) eqn:Hf; [by eapply turn_forward|].
  assert (Hback : is_backward a) by (unfold slotted in Hsl; by rewrite Hf in Hsl).
  destruct (slotted_kind a Hsl) as (Hk1 & Hk2 & Hk3). unfold rollback_action in Hr.
  rewrite Hk1, andb_false_r, Hk2, Hk3, Hback in Hr. apply st_bind_inv in Hr as (err & w1 & Hfin & [= <- <-]).
  eapply finish_backward in Hfin as [Hrec Hok]; [|done|done|done|done]. split; [done|].
  intros b Hb. destruct err; [done|]. by apply Hok.
Qed.

(** The loop takes every slot back. *)
Lemma loop_unwinds p q rv w r w' :
  l = p ++ q -> synced T0 base w -> on (unwinding l (Z.of_nat (length p))) w ->
  rollback_actions e x (rev p) rv w = (r, w') ->
  recoverable T0 w' /\ (forall b, r = Ok b -> synced T0 base w' /\ on (unwinding l 0) w').
Proof.
  revert q rv w. induction p as [|a p IH] using rev_ind; intros q rv w Hl Hs Hu Hr.
  { injection Hr as <- <-. split; [by eapply synced_recoverable|done]. }
  rewrite rev_unit in Hr. cbn [rollback_actions] in Hr. rewrite length_app in Hu. simpl in Hu.
  assert (Hseq : Seq a = Z.of_nat (length p + 1)).
  { rewrite Hl, <- app_assoc, numbered_app in Hnum. simpl in Hnum. rewrite !andb_true_iff in Hnum. lia. }
  assert (Ha : a ∈ l) by (rewrite Hl; set_solver).
  rewrite <- Hseq in Hu. apply st_try_inv in Hr as [(err & -> & Ht)|(b & w1 & Ht & Hr)].
  - eapply turn in Ht as [Hrec _]; [|done|done|done]. done.
  - eapply turn in Ht as [_ Hok]; [|done|done|done]. destruct (Hok b eq_refl) as [Hs1 Hu1].
    eapply (IH (a :: q)); [by rewrite Hl, <- app_assoc|done| |exact Hr].
    by replace (Seq a - 1) with (Z.of_nat (length p)) in Hu1 by lia.
Qed.

End Unwinding.

End Recovery.

(** ** The whole recovery *)

Section Whole.
Context {HS : Sha256} {HU : Unicode} {HT : JSONTree} {HJ : JournalJSON} {HV : ValidationJSON} {HC : JournalCodec}.
Context {E : Type} {HO : Outside E} {HSl : Slots E} (e : jenv) (x : InstallTransaction E).
Context (T0 : gmap string string).
Context (Heff : tx_Effects x = true).
Context (Hauthority : is_Some (preparedAuthority x)).
Context (Hbefore : forall before, BeforeRollback x = Some before -> quiet T0 0 before).

Implicit Types (w : world E) (j : InstallJournal).

Lemma synced_base b w : synced T0 b w -> synced T0 0 w.
Proof. intros [Hb Hn Hc Hg Hd]. constructor; try done. lia. Qed.

Definition sourced (c : core) (T : gmap string string) : Prop := source c.
Definition undone (c : core) (T : gmap string string) : Prop := source c /\ T = T0.

Lemma sourced_lasting : lasting sourced.
Proof. intros c T Hs. by left. Qed.
Lemma undone_lasting : lasting undone.
Proof. intros c T [Hs _]. by left. Qed.

(** From any point, going back through the actions brings every slot back. *)
Lemma loop_undone w r w' :
  synced T0 0 w -> on sourced w -> rollback_actions e x (rev (Actions (journal w))) false w = (r, w') ->
  recoverable T0 w' /\ (forall b, r = Ok b -> synced T0 0 w' /\ on undone w').
Proof.
  intros Hs Hsrc Hr. set (l := Actions (journal w)) in *.
  assert (Hs' : synced T0 (length l) w) by (destruct Hs; by constructor).
  assert (Hclean : forall a, a ∈ l -> clean_action a = true).
  { pose proof (sy_clean _ _ _ Hs) as Hc. unfold clean in Hc. rewrite !andb_true_iff, forallb_forall in Hc.
    intros a Ha. apply Hc. by apply list_elem_of_In. }
  eapply (loop_unwinds e x T0 (length l) Heff l (sy_numbered _ _ _ Hs) Hclean) with (p := l) (q := []) in Hr as [Hrec Hok];
    [|lia|by rewrite app_nil_r|done|].
  - split; [done|]. intros b Hb. destruct (Hok b Hb) as [Hs2 Hu]. split; [by eapply synced_base|].
    split; [apply Hu|]. destruct (good_source _ _ _ (sy_good _ _ _ Hs2) (uw_source _ _ _ _ _ Hu)) as [Hw [Hun _]].
    apply map_eq. intros s. destruct (Hun s) as [?|(a & Ha & _ & <- & _)]; [done|].
    apply (uw_undone _ _ _ _ _ Hu a Ha). apply elem_slotted in Ha as [Ha _].
    by apply (numbered_gt 0 _ _ (sy_numbered _ _ _ Hs2)).
  - constructor.
    + exact Hsrc.
    + by intros b [_ ?]%elem_slotted.
    + intros a Ha Hsl. exists a. split; [by apply elem_slotted|done].
    + intros b [Hb _]%elem_slotted _. by exists b.
    + intros b [Hb _]%elem_slotted Hlt. pose proof (number_le b 0 l (sy_numbered _ _ _ Hs) Hb). lia.
Qed.

Lemma safe_weaken P P' Q m : (forall c T, P c T -> P' c T) -> safe T0 0 P' Q m -> safe T0 0 P Q m.
Proof. intros Hp Hm w r w' Hs Hon. apply Hm; [done|]. by apply Hp. Qed.

Lemma rollback_body_safe : safe T0 0 sourced (completed InstallAuthoritySource) (rollback_body e x).
Proof.
  apply safe_then with sourced; [destruct (BeforeRollback x) eqn:Hb; [by apply Hbefore; [|apply sourced_lasting]|apply step_ret]|].
  intros w r w' Hs Hp (w1 & w1' & [= <- <-] & Hr)%st_bind_inv.
  apply st_bind_inv in Hr as (rv & w1 & Hl & Hr). eapply loop_undone in Hl as [Hrec Hok]; [|done|done].
  destruct rv as [rv|err]; [|by injection Hr as <- <-]. destruct (Hok rv eq_refl) as [Hs1 Hu1].
  revert Hs1 Hu1 Hr. generalize w1 as v, r, w'. change (safe T0 0 undone (completed InstallAuthoritySource)
    (then! (if rv then
           let! n := currentReload x in
           let restore := action_of JournalActionRestoreReload JournalRoleDefinition (reloadToken n)
                            (reloadToken (n + 1)) in
           step e restore (applyEffect x restore)
         else st_ret None) in
     then! (match serviceEffects x, preparedAuthority x with
         | Some _, Some pa =>
             then! call e x (fun n o => RestoreDefinition n o (OldDefinition pa)) in
             if d_Running (OldDefinition pa) then call e x Start else st_ret None
         | _, _ => st_ret None
         end) in
     complete_as e InstallAuthoritySource)).
  apply safe_then with undone.
  { generalize undone_lasting. generalize undone as P. change (quiet T0 0
      (if rv then
         let! n := currentReload x in
         let restore := action_of JournalActionRestoreReload JournalRoleDefinition (reloadToken n) (reloadToken (n + 1)) in
         step e restore (applyEffect x restore)
       else st_ret None)).
    destruct rv; [|apply quiet_ret]. apply quiet_bind; [apply still_currentReload|]. intros n.
    apply quiet_step; [done|by apply clean_mk; try apply reload_valid|by apply still_applyEffect]. }
  apply safe_then with undone.
  { destruct (serviceEffects x), (preparedAuthority x); try apply step_ret.
    apply quiet_then; [apply quiet_call; intros; apply restores| |apply undone_lasting].
    case_match; [apply quiet_call; intros; apply starts|apply quiet_ret]. }
  eapply safe_weaken; [|apply complete_safe]. by intros c T [Hc HT0].
Qed.

Lemma rollback_safe : safe T0 0 sourced (completed InstallAuthoritySource) (rollback e x).
Proof.
  apply step_bind; [apply still_bind_authority|]. intros _. case_match; [|apply rollback_body_safe].
  apply step_bind; [apply still_set_recovering|]. intros _ w r w' Hs Hp (err & w1 & H1 & H2)%st_bind_inv.
  apply st_bind_inv in H2 as ([] & w2 & H2%(still_run _ _ _ _ (still_set_recovering false)) & [= <- <-]).
  eapply rollback_body_safe in H1 as [Hrec Hok]; [|done|done]. split; [by eapply same_recoverable|].
  intros Hn. destruct (Hok Hn). split; [by eapply same_synced|by eapply on_same].
Qed.

(** Where a finished recovery leaves things: there is no journal and nothing
    happened, or the journal on disk is complete, and either everything is back at
    the start or everything is done. *)
Definition settled w : Prop :=
  journal_file w = None /\ tok w = T0
  \/ exists j, at_rest w j /\ Phase j = InstallPhaseComplete
       /\ (RecoveryAuthority j = InstallAuthoritySource /\ tok w = T0
           \/ RecoveryAuthority j = InstallAuthorityTarget /\ all_done j /\ decided T0 (core_of j) (tok w)).

Lemma decided_all_done j T : decided T0 (core_of j) T -> Phase j = InstallPhaseComplete -> all_done j.
Proof.
  intros [Hd _ Ho] Hp a Ha. destruct (slotted a) eqn:Hsl; [by apply (Hd a), elem_slotted|].
  destruct (String.eqb_spec (Status a) JournalActionDone) as [->|Hst]; [done|].
  assert (Hin : a ∈ open_actions j) by by apply elem_open. rewrite (Ho Hp : open_actions j = []) in Hin. by apply elem_of_nil in Hin.
Qed.

Lemma good_settled j T :
  good T0 (core_of j) T -> Phase j = InstallPhaseComplete ->
  RecoveryAuthority j = InstallAuthoritySource /\ T = T0
  \/ RecoveryAuthority j = InstallAuthorityTarget /\ all_done j /\ decided T0 (core_of j) T.
Proof.
  intros [(Ha & _ & [_ Hc])|[Ha Hd]] Hp; [left|right]; (split; [done|]); [by apply Hc|].
  split; [by eapply decided_all_done|done].
Qed.

Lemma synced_settled w : synced T0 0 w -> Phase (journal w) = InstallPhaseComplete -> settled w.
Proof.
  intros Hs Hp. right. exists (journal w). split; [apply Hs|]. split; [done|]. apply good_settled; [apply Hs|done].
Qed.

Lemma validated_numbered i m : validate_actions i m = None -> numbered i m = true.
Proof.
  revert i. induction m as [|a m IH]; intros i; simpl; [done|]. destruct (Seq a =? i + 1); [|done]. simpl.
  destruct (validateJournalAction a); [done|]. apply IH.
Qed.

Lemma first_error_last l a : first_error (l ++ [a]) = None -> a = None.
Proof. induction l as [|[]  l IH]; simpl; [by destruct a|done|done]. Qed.

Lemma decoded_journal raw j : DecodeJournal raw = Ok j -> numbered 0 (Actions j) = true /\ clean j = true.
Proof.
  unfold DecodeJournal, decodeStrictJSON. intros Hd. destruct (_ || _); [done|]. destruct (json_tree raw); [|done].
  destruct (uniqueJSONObject _); [|done]. destruct (json_Unmarshal_journal raw) as [j1|] eqn:Hu; [|done].
  destruct (validateInstallJournal j1) eqn:Hv; [done|]. injection Hd as <-. split; [|by eapply decodes_clean].
  apply validated_numbered. unfold validateInstallJournal in Hv.
  match type of Hv with first_error (?a1 :: ?a2 :: ?a3 :: ?a4 :: ?a5 :: ?a6 :: ?a7 :: ?a8 :: ?a9 :: ?a10 :: ?a11 :: ?a12 :: ?a13 :: ?a14 :: ?a15 :: ?a16 :: ?a17 :: [?a18]) = None =>
    apply (first_error_last [a1;a2;a3;a4;a5;a6;a7;a8;a9;a10;a11;a12;a13;a14;a15;a16;a17] a18 Hv) end.
Qed.

Lemma inspect_absent w o w' :
  on_disk (inspect e installJournalFileName) w = (Ok o, w') -> Present o = false -> journal_file w = None.
Proof.
  unfold on_disk, inspect. destruct (st_bind _ _ (disk w)) as [r1 d1] eqn:Hb. intros [= -> <-] Hp.
  apply st_bind_inv in Hb as (ft & d2 & Hd%jio_next_files & Hb). destruct (fault_error ft); [done|].
  destruct (negb _); [done|]. apply st_bind_inv in Hb as (d3 & d4 & [= <- <-] & Hb). unfold journal_file. rewrite <- Hd.
  destruct (jfiles d2 !! _); [|done]. injection Hb as Hb _. unfold observe_file in Hb.
  destruct (readInstallFile _ _); [|done]. destruct (Cut _ _) as [[]|]; injection Hb as <-; done.
Qed.

(** What [Load] returns is what a new process would load. *)
Lemma load_rest w j w' :
  on_disk (Load e) w = (Ok j, w') -> at_rest w' j /\ forall j', at_rest w' j' -> j' = j.
Proof.
  intros Hl. pose proof (still_run _ _ _ _ (still_load e) Hl) as (_ & Hfile & _).
  unfold on_disk in Hl. destruct (Load e (disk w)) as [r3 d3] eqn:Hld. injection Hl as -> <-.
  apply Load_decodes in Hld as (f & Hf & Hde). change (journal_file w = Some f) in Hf. rewrite <- Hfile in Hf.
  split; [by exists f|]. intros j' (f' & Hf' & Hd'). congruence.
Qed.

Lemma recover_safe w r w' :
  recoverable T0 w -> RecoverLocked e x w = (r, w') -> recoverable T0 w' /\ (r = None -> settled w').
Proof.
  intros Hrec. unfold RecoverLocked. intros (v & w1 & Hv%(still_run _ _ _ _ (still_asks _)) & Hk)%st_bind_inv.
  assert (Hr1 : recoverable T0 w1) by by eapply same_recoverable.
  destruct v as [err|]; [by injection Hk as <- <-|].
  apply st_bind_inv in Hk as (obj & w2 & Hi & Hk).
  pose proof (still_run _ _ _ _ (still_inspect e _) Hi) as Hs2.
  assert (Hr2 : recoverable T0 w2) by by eapply same_recoverable.
  destruct obj as [obj|err]; [|by injection Hk as <- <-]. destruct (Present obj) eqn:Hpres; simpl in Hk.
  2:{ injection Hk as <- <-. split; [done|]. intros _. left.
      destruct Hs2 as (_ & Hfile & _). apply inspect_absent in Hi; [|done]. rewrite Hi in Hfile.
      split; [done|by apply Hr2]. }
  apply st_bind_inv in Hk as (ld & w3 & Hl & Hk).
  pose proof (still_run _ _ _ _ (still_load e) Hl) as Hs3.
  assert (Hr3 : recoverable T0 w3) by by eapply same_recoverable.
  destruct ld as [j|err]; [|by injection Hk as <- <-].
  apply st_bind_inv in Hk as ([] & w4 & [= <-] & Hk).
  apply load_rest in Hl as Hrest.
  destruct Hrest as [Hrest Huniq]. destruct (decoded_journal (content (default (mkEntry "" (0, 0)%N) (journal_file w3))) j) as [Hnum Hcl].
  { destruct Hrest as (f & -> & Hd). done. }
  set (w4 := mkWorld _ _ j _ _ _ _) in Hk.
  assert (Hs4 : synced T0 0 w4). { constructor; [simpl; lia|done|done|by apply Hr3|done]. }
  rewrite (bool_decide_eq_true_2 _ Hauthority) in Hk. destruct (_ && _) eqn:Hdone.
  { injection Hk as <- <-. split; [by eapply synced_recoverable|]. intros _. apply synced_settled; [done|].
    apply andb_prop in Hdone as [_ Hp]. by apply String.eqb_eq in Hp. }
  apply st_bind_inv in Hk as (rv & w5 & Hv5%(still_run _ _ _ _ (still_recoverValidation e x)) & Hk).
  assert (Hs5 : synced T0 0 w5) by by eapply same_synced.
  destruct rv as [err|]; [by injection Hk as <- <-; split; [by eapply synced_recoverable|]|].
  destruct (String.eqb_spec (RecoveryAuthority j) InstallAuthorityTarget) as [Ha|Ha].
  - eapply rollforward_safe in Hk as [Hrec' Hok]; [|done|done|].
    + split; [done|]. intros Hn. destruct (Hok Hn) as [Hs' [Hp _]]. by apply synced_settled.
    + unfold on, targeted. destruct Hv5 as (-> & _). split; [done|]. simpl. intros Hp. by rewrite Hp in Hdone.
  - eapply rollback_safe in Hk as [Hrec' Hok]; [|done|].
    + split; [done|]. intros Hn. destruct (Hok Hn) as [Hs' [Hp _]]. by apply synced_settled.
    + unfold on, sourced, source. destruct Hv5 as (-> & _).
      destruct (sy_good _ _ _ Hs4) as [[Hsrc _]|[Htgt _]]; [done|by destruct Ha].
Qed.

End Whole.
