(* ===== verification/InstallValidated.v ===== *)
(** * InstallValidated: no activation without a validated candidate

    What [forward] and the foreground bootstrap need before they give the
    authority to the target: a child of this transaction was started, it wrote a
    report that matches the journal and the process that was started, and it was
    stopped again.  Until then neither the journal in memory nor the one on disk
    names the target, wherever the run ends. *)

From S2P Require Import Prelude GoStd SelfUpdate InstallJournal InstallTx InstallSafety.

Section Validated.
Context {HS : Sha256} {HU : Unicode} {HT : JSONTree} {HJ : JournalJSON} {HV : ValidationJSON}.
Context {E : Type} {HO : Outside E} (e : jenv) (x : InstallTransaction E).

Implicit Types (w : world E) (j : InstallJournal).

(** The fields of the journal that a report is compared with. *)
Definition same_subject j j' : Prop := forall ready, MatchValidationReady j' ready = MatchValidationReady j ready.

(** What is known of the child, and the authority, stay. *)
Record kept w w' : Prop := {
  kp_ready : validationReady w' = validationReady w;
  kp_child : validation w' = validation w;
  kp_authority : RecoveryAuthority (journal w') = RecoveryAuthority (journal w);
  kp_subject : same_subject (journal w) (journal w')
}.
Definition keeps {A} (m : st (world E) A) : Prop := forall w r w', m w = (r, w') -> kept w w'.

#[local] Instance kept_preorder : PreOrder kept.
Proof.
  split; [by constructor|]. intros w1 w2 w3 [A1 A2 A3 A4] [B1 B2 B3 B4].
  constructor; [congruence..|]. intros ready. by rewrite B4.
Qed.

Lemma kept_ret {A} (a : A) : keeps (st_ret a).
Proof. by intros w r w' [= _ <-]. Qed.
Lemma keeps_get : keeps st_get.
Proof. by intros w r w' [= _ <-]. Qed.
Lemma kept_bind {A B} (m : st (world E) A) (k : A -> st (world E) B) :
  keeps m -> (forall a, keeps (k a)) -> keeps (st_bind m k).
Proof. intros Hm Hk w r w' (a & w1 & H1%Hm & H2%Hk)%st_bind_inv. by etrans. Qed.
Lemma keeps_on_disk {A} (m : st jdisk A) : keeps (on_disk m).
Proof. intros w r w'. unfold on_disk. destruct (m (disk w)). by intros [= _ <-]. Qed.
Lemma keeps_asks {A} (f : nat -> E -> A) : keeps (asks f).
Proof. apply kept_bind; [apply keeps_on_disk|]. intros n. apply kept_bind; [apply keeps_get|]. intros; apply kept_ret. Qed.
Lemma keeps_acts {A} (f : nat -> E -> A * E) : keeps (acts f).
Proof.
  apply kept_bind; [apply keeps_on_disk|]. intros n w r w'. destruct (f n (ext w)). by intros [= _ <-].
Qed.
Lemma keeps_then (m k : st (world E) (option error)) : keeps m -> keeps k -> keeps (st_then m k).
Proof. intros Hm Hk. apply kept_bind; [done|]. intros []; [apply kept_ret|done]. Qed.
Lemma keeps_Effects_Apply a : keeps (Effects_Apply x a).
Proof.
  unfold Effects_Apply. case_match; [|apply kept_ret]. apply kept_bind; [apply keeps_get|]. intros. apply keeps_acts.
Qed.
Lemma keeps_saveLaunch launch : keeps (saveValidationLaunch e launch).
Proof.
  unfold saveValidationLaunch. case_match; [|apply kept_ret]. apply kept_bind; [apply keeps_on_disk|].
  intros [old|err]; [|apply kept_ret]. apply kept_bind; [apply keeps_on_disk|]. intros []. apply kept_ret.
Qed.

Lemma recorded_actions j a next : recorded j a = Ok next -> next = set_Actions (Actions next) j.
Proof. unfold recorded. intros Hr. repeat case_match; try done; by injection Hr as <-. Qed.

Lemma keeps_record a : keeps (record_durably e a).
Proof.
  unfold record_durably, record_action. apply kept_bind; [|intros [dur []]; apply kept_ret].
  intros w r w' (w1 & w2 & [= <- <-] & Hk)%st_bind_inv. apply st_bind_inv in Hk as ([j r1] & w3 & Hd & Hk).
  apply st_bind_inv in Hk as ([] & w4 & [= <-] & [= _ <-]).
  assert (Hj : exists l, j = set_Actions l (journal w)).
  { unfold on_disk in Hd. destruct (RecordAction e (journal w) a (disk w)) as [r2 d] eqn:Hr. injection Hd as -> <-.
    assert (Hself : exists l, journal w = set_Actions l (journal w)) by (exists (Actions (journal w)); by destruct (journal w)).
    unfold RecordAction in Hr. destruct (recorded (journal w) a) as [next|] eqn:Hn; [|by injection Hr as <- _ _].
    apply recorded_actions in Hn. apply st_bind_inv in Hr as ([dur err] & d1 & _ & [= <- _ _]).
    case_match; [by eexists|done]. }
  apply keeps_on_disk in Hd. destruct Hj as [l ->], Hd as [A1 A2 _ _]. by constructor.
Qed.

(** A step that succeeds: its effect did, in a world that differs only in the
    record. *)
Lemma step_effect a apply w w' :
  step e a apply w = (None, w') -> exists w1 w2, kept w w1 /\ apply w1 = (None, w2) /\ kept w2 w'.
Proof.
  unfold step. intros (r1 & w1 & H1%keeps_record & Hk)%st_bind_inv. destruct r1; [discriminate Hk|].
  apply st_bind_inv in Hk as (r2 & w2 & H2 & Hk). destruct r2; [discriminate Hk|].
  apply st_bind_inv in Hk as (w3 & w4 & [= <- <-] & Hk). case_match; [|discriminate Hk].
  apply keeps_record in Hk. eauto.
Qed.

(** A report that matches the journal. *)
Definition validated w : Prop :=
  exists ready, validationReady w = Some ready /\ MatchValidationReady (journal w) ready = None.

Lemma kept_validated w w' : kept w w' -> validated w -> validated w'.
Proof. intros [Hr _ _ Hm] (ready & H1 & H2). exists ready. by rewrite Hr, Hm. Qed.

Lemma wait_validated id w w' : wait_validation e id w = (None, w') -> validated w'.
Proof.
  unfold wait_validation. intros ([wrote err] & w1 & H1%keeps_asks & Hk)%st_bind_inv.
  apply st_bind_inv in Hk as (w2 & w3 & [= <- <-] & Hk). cbv zeta in Hk. apply st_bind_inv in Hk as ([] & w4 & H4 & Hk).
  assert (H14 : kept w1 w4) by (destruct wrote; [by apply keeps_on_disk in H4|by apply kept_ret in H4]).
  destruct err; [discriminate Hk|]. apply st_bind_inv in Hk as ([raw|] & w5 & H5%keeps_on_disk & Hk); [|discriminate Hk].
  destruct (DecodeValidationReady raw) as [ready|]; [|discriminate Hk].
  destruct (MatchValidationReady _ ready) eqn:Hm; [discriminate Hk|]. case_match; [discriminate Hk|].
  apply st_bind_inv in Hk as ([] & w6 & [= <-] & [= <-]). exists ready. split; [done|]. simpl.
  rewrite (kp_subject _ _ H5), (kp_subject _ _ H14). done.
Qed.

Lemma start_validated hash w w' : startAndWaitValidation e x hash w = (None, w') -> validated w'.
Proof.
  unfold startAndWaitValidation. intros (w1 & w2 & [= <- <-] & Hk)%st_bind_inv. cbv zeta in Hk.
  destruct (negb _); [discriminate Hk|]. apply st_bind_inv in Hk as ([] & w2 & _ & Hk); [discriminate Hk|].
  apply st_bind_inv in Hk as ([] & w3 & _ & Hk); [discriminate Hk|].
  apply st_bind_inv in Hk as (piped & w4 & _ & Hk). destruct (negb piped); [discriminate Hk|].
  destruct (negb _); [discriminate Hk|]. apply st_bind_inv in Hk as ([id|] & w5 & _ & Hk); [|discriminate Hk].
  apply st_bind_inv in Hk as ([] & w6 & _ & Hk). destruct (negb _); [discriminate Hk|].
  apply st_bind_inv in Hk as ([] & w7 & _ & Hk); [discriminate Hk|].
  apply st_bind_inv in Hk as (err & w8 & H8 & Hk). apply st_bind_inv in Hk as (written & w9 & H9%keeps_asks & Hk).
  injection Hk as Hj <-. apply errors_Join_None in Hj as [-> _]. eapply kept_validated, wait_validated; done.
Qed.

(** Stopping the child forgets it, and nothing else. *)
Lemma stop_forgets w r w' :
  stopValidation w = (r, w') -> validation w' = None /\ (validated w -> validated w').
Proof.
  unfold stopValidation. intros (w1 & w2 & [= <- <-] & Hk)%st_bind_inv. destruct (validation w) eqn:Hv.
  - apply st_bind_inv in Hk as ([] & w3 & [= <-] & Hk%keeps_asks). split; [by rewrite (kp_child _ _ Hk)|].
    intros Hw. eapply kept_validated; [exact Hk|exact Hw].
  - injection Hk as _ <-. done.
Qed.

Lemma runValidation_validated w w' : runValidation e x w = (None, w') -> validated w' /\ validation w' = None.
Proof.
  unfold runValidation. intros (err & w1 & Hv & Hk)%st_bind_inv. apply st_bind_inv in Hk as (stopped & w2 & Hs & Hk).
  injection Hk as Hj <-. apply errors_Join_None in Hj as [-> _]. apply stop_forgets in Hs as [Hn Hval]. split; [|done].
  apply Hval. clear Hval Hn w2 stopped. unfold validation_steps in Hv.
  apply st_bind_inv in Hv as ([nonce|] & w2 & _ & Hk); [|discriminate Hk]. cbv zeta in Hk.
  apply st_bind_inv in Hk as ([] & w3 & H3 & Hk); [discriminate Hk|].
  apply step_effect in H3 as (w4 & w5 & _ & Hstart & H53). apply st_bind_inv in Hstart as ([] & w6 & H6 & Ha);
    [discriminate Ha|]. apply start_validated in H6. apply keeps_Effects_Apply in Ha.
  apply step_effect in Hk as (w7 & w8 & H37 & Hstop & H81). apply st_bind_inv in Hstop as ([] & w9 & [_ H9]%stop_forgets & Hb);
    [discriminate Hb|]. apply keeps_Effects_Apply in Hb.
  eapply kept_validated; [exact H81|]. eapply kept_validated; [exact Hb|]. apply H9.
  eapply kept_validated; [exact H37|]. eapply kept_validated; [exact H53|]. by eapply kept_validated.
Qed.

Lemma activate_authority w w' :
  activate e x w = (None, w') ->
  RecoveryAuthority (journal w') = InstallAuthorityTarget /\ validation w' = validation w /\ (validated w -> validated w').
Proof.
  unfold activate. intros (w1 & w2 & H1 & Hk & H2)%step_effect. apply st_bind_inv in Hk as (w3 & w4 & [= <- <-] & Hk).
  cbv zeta in Hk. apply st_bind_inv in Hk as ([] & w5 & [= <-] & Hk).
  apply st_bind_inv in Hk as ([dur err] & w6 & H6%keeps_on_disk & Hk). destruct err; [discriminate Hk|].
  apply keeps_Effects_Apply in Hk. assert (Hall : kept (mkWorld (disk w1) (ext w1)
    (set_Phase InstallPhaseActivationCommitted (set_RecoveryAuthority InstallAuthorityTarget (journal w1)))
    (recoveringSource w1) (DataLease w1) (validation w1) (validationReady w1)) w') by (etrans; [exact H6|]; by etrans).
  split_and!.
  - by rewrite (kp_authority _ _ Hall).
  - rewrite (kp_child _ _ Hall). apply H1.
  - intros Hv. eapply kept_validated; [exact Hall|]. exact (kept_validated _ _ H1 Hv).
Qed.

Lemma match_says j ready : MatchValidationReady j ready = None ->
  vr_TransactionID ready = TransactionID j /\ BinaryHash ready = CandidateHash j
  /\ LayoutIdentity ready = layoutIdentityOf j /\ Validation ready = ValidationOK.
Proof.
  unfold MatchValidationReady. intros Hm.
  destruct (String.eqb_spec (vr_TransactionID ready) (TransactionID j)); [|done].
  destruct (String.eqb_spec (BinaryHash ready) (CandidateHash j)); [|done].
  destruct (String.eqb_spec (LayoutIdentity ready) (layoutIdentityOf j)); [|done]. cbn [negb] in Hm.
  destruct (_ || _) in Hm; [done|]. by destruct (String.eqb_spec (Validation ready) ValidationOK).
Qed.

(** A child of this transaction has validated the candidate, and is gone. *)
Definition reported w : Prop :=
  validation w = None
  /\ exists ready, validationReady w = Some ready /\ vr_TransactionID ready = TransactionID (journal w)
       /\ BinaryHash ready = CandidateHash (journal w) /\ LayoutIdentity ready = layoutIdentityOf (journal w)
       /\ Validation ready = ValidationOK.

Lemma validated_reported w : validated w -> validation w = None -> reported w.
Proof. intros (ready & Hr & Hm%match_says) Hc. split; [done|]. by exists ready. Qed.

(** A journal whose candidate a child of this transaction has validated. *)
Definition candidate_validated w : Prop := RecoveryAuthority (journal w) = InstallAuthorityTarget /\ reported w.

(** *** Before the activation *)

Section Before.
Context (w0 : world E).

(** Neither the journal in memory gives the authority to the target, nor does one
    that was written since [w0]. *)
Definition unactivated w : Prop :=
  RecoveryAuthority (journal w) <> InstallAuthorityTarget
  /\ (journal_file w = journal_file w0
      \/ exists f j, journal_file w = Some f /\ EncodeJournal j = Ok (content f)
           /\ RecoveryAuthority j <> InstallAuthorityTarget).

Notation holds := (preserves unactivated).

Lemma holds_same (m : st (world E) unit) :
  (forall w u w', m w = (u, w') -> journal w' = journal w /\ journal_file w' = journal_file w) -> holds m.
Proof. intros Hm w w' u Hu [Ha Hf]. apply Hm in Hu as [Hj Hl]. split; [by rewrite Hj|by rewrite Hl]. Qed.

Lemma holds_disk {A} (m : st jdisk A) :
  (forall d r d', m d = (r, d') -> jfiles d' !! installJournalFileName = jfiles d !! installJournalFileName) ->
  holds (on_disk m).
Proof.
  intros Hm w w' r Hr [Ha Hf]. unfold on_disk in Hr. destruct (m (disk w)) as [a d] eqn:Hd. injection Hr as _ <-.
  split; [done|]. unfold journal_file in *. simpl. by rewrite (Hm _ _ _ Hd).
Qed.

Lemma holds_tick : holds (on_disk next_tick).
Proof. apply holds_disk. by intros d r d' ->%next_tick_files. Qed.
Lemma holds_inspect name : holds (on_disk (inspect e name)).
Proof. apply holds_disk. by intros d r d' ->%inspect_files. Qed.
Lemma holds_read name limit : holds (on_disk (read e name limit)).
Proof. apply holds_disk. by intros d r d' ->%read_files. Qed.
Lemma holds_marker id : holds (on_disk (CreateTransactionMarker e id)).
Proof. apply holds_disk. intros. by eapply CreateTransactionMarker_files. Qed.
Lemma holds_write name data want : name <> installJournalFileName -> holds (on_disk (write e name data want)).
Proof.
  intros Hne. apply holds_disk. intros d [dur err] d' [[->|[ino ->]] _]%write_files; [done|]. by rewrite lookup_insert_ne.
Qed.
Lemma holds_entry name f : name <> installJournalFileName -> holds (on_disk (write_entry name f)).
Proof. intros Hne. apply holds_disk. intros d r d' [= _ <-]. simpl. by rewrite lookup_insert_ne. Qed.
Lemma holds_acts {A} (f : nat -> E -> A * E) : holds (acts f).
Proof. apply preserves_bind; [apply holds_tick|]. intros n w w' r. destruct (f n (ext w)). by intros [= _ <-]. Qed.
Lemma holds_asks {A} (f : nat -> E -> A) : holds (asks f).
Proof. apply preserves_bind; [apply holds_tick|]. intros n. apply preserves_bind; [apply preserves_get|]. intros. apply preserves_ret. Qed.
Lemma holds_set_ready r : holds (set_ready r).
Proof. by apply holds_same; intros w u w' [= _ <-]. Qed.
Lemma holds_set_validation s : holds (set_validation s).
Proof. by apply holds_same; intros w u w' [= _ <-]. Qed.
Lemma holds_then (m k : st (world E) (option error)) : holds m -> holds k -> holds (st_then m k).
Proof. intros Hm Hk. apply preserves_bind; [done|]. intros []; [apply preserves_ret|done]. Qed.
Lemma holds_with {A} (m : st (world E) (result A)) k : holds m -> (forall a, holds (k a)) -> holds (st_with m k).
Proof. intros Hm Hk. apply preserves_bind; [done|]. intros []; [done|apply preserves_ret]. Qed.
Lemma launch_apart id : validationLaunchPath id <> installJournalFileName.
Proof. done. Qed.
Lemma ready_apart id : validationReadyPath id <> installJournalFileName.
Proof. done. Qed.

(** Writing a journal of the source. *)
Lemma holds_save j : RecoveryAuthority j <> InstallAuthorityTarget -> holds (save_journal e j).
Proof.
  intros Hj w w' r Hr [Ha Hf]. unfold save_journal, on_disk in Hr. destruct (Save e j (disk w)) as [[dur err] d] eqn:Hs.
  injection Hr as _ <-. split; [done|]. unfold journal_file in *. simpl.
  apply Save_files in Hs as [[->|(raw & Hraw & ino & ->)] _]; [done|]. right. exists (mkEntry raw ino), j.
  by rewrite lookup_insert_eq.
Qed.
Lemma holds_set_journal j : RecoveryAuthority j <> InstallAuthorityTarget -> holds (set_journal j).
Proof. intros Hj w w' u [= _ <-] [_ Hf]. by split. Qed.

(** An operation that starts by looking at the journal may use that it is the
    source's. *)
Lemma holds_journal {A} (k : world E -> st (world E) A) :
  (forall w, RecoveryAuthority (journal w) <> InstallAuthorityTarget -> holds (k w)) -> holds (st_bind st_get k).
Proof. intros Hk w w' a Hr Hw. unfold st_bind, st_get in Hr. by eapply Hk; [apply Hw|exact Hr|]. Qed.

Lemma holds_record a : holds (record_action e a).
Proof.
  apply holds_journal. intros w Ha. unfold RecordAction.
  intros v v' r Hr Hv. apply st_bind_inv in Hr as ([j r1] & v1 & Hd & Hk).
  apply st_bind_inv in Hk as ([] & v2 & Hj & [= _ <-]).
  assert (Hnext : RecoveryAuthority j <> InstallAuthorityTarget /\ unactivated v1).
  { unfold on_disk in Hd. destruct (recorded (journal w) a) as [next|] eqn:Hn; [|by injection Hd as <- _ <-].
    apply recorded_actions in Hn. assert (Hau : RecoveryAuthority next = RecoveryAuthority (journal w)) by (by rewrite Hn).
    unfold st_bind, st_ret in Hd. destruct (Save e next (disk v)) as [[dur err] d] eqn:Hs. injection Hd as <- _ <-.
    split; [case_match; congruence|]. eapply (holds_save next); [congruence| |exact Hv].
    unfold save_journal, on_disk. by rewrite Hs. }
  exact (holds_set_journal j (proj1 Hnext) _ _ _ Hj (proj2 Hnext)).
Qed.

Lemma holds_phase p : holds (setPhase e p).
Proof.
  apply holds_journal. intros w Ha. cbv zeta. apply preserves_bind; [by apply holds_set_journal|]. intros [].
  apply preserves_bind; [by apply holds_save|]. intros []. apply preserves_ret.
Qed.

#[local] Hint Resolve holds_tick holds_inspect holds_read holds_marker holds_acts holds_asks holds_set_ready
  holds_set_validation holds_record holds_phase holds_write holds_entry launch_apart ready_apart : preserves.

Ltac solve_holds := repeat first [progress solve_preserves | apply holds_then | apply holds_with].

Lemma holds_step a apply : holds apply -> holds (step e a apply).
Proof. intros Ha. unfold step, record_durably. solve_holds. Qed.

Lemma holds_Effects_Apply a : holds (Effects_Apply x a).
Proof. unfold Effects_Apply. solve_holds. Qed.
Lemma holds_currentReload : holds (currentReload x).
Proof. unfold currentReload, Effects_Observe. solve_holds. Qed.
Lemma holds_observeAction s def : holds (observeAction s def).
Proof. unfold observeAction. solve_holds. Qed.
Lemma holds_replayAction s def : holds (replayAction s def).
Proof. unfold replayAction. solve_holds. Qed.
#[local] Hint Resolve holds_step holds_Effects_Apply holds_currentReload holds_observeAction holds_replayAction : preserves.

Lemma holds_service_apply s a : holds (service_apply s a).
Proof. unfold service_apply. solve_holds. Qed.
Lemma holds_service_prepare s def : holds (service_prepare s def).
Proof. unfold service_prepare. solve_holds. Qed.
#[local] Hint Resolve holds_service_apply holds_service_prepare : preserves.
Lemma holds_hook_effect def a f : holds (hook_effect x def a f).
Proof. unfold hook_effect. solve_holds. Qed.
#[local] Hint Resolve holds_hook_effect : preserves.
Lemma holds_hook_step def a f : holds (hook_step e x def a f).
Proof. unfold hook_step. solve_holds. Qed.
#[local] Hint Resolve holds_hook_step : preserves.
Lemma holds_hook def f : holds (journaledHook e x def f).
Proof. unfold journaledHook. solve_holds. Qed.

Lemma holds_script s : holds (run_script e x s).
Proof.
  induction s as [err|action next IH]; simpl; [apply preserves_ret|]. apply preserves_bind; [apply holds_hook|].
  intros err. apply preserves_bind; [apply holds_tick|]. intros n w w' r Hr. by eapply IH.
Qed.
Lemma holds_call f : holds (call e x f).
Proof. apply preserves_bind; [apply holds_asks|]. intros s. apply holds_script. Qed.

Lemma holds_saveLaunch l : holds (saveValidationLaunch e l).
Proof. unfold saveValidationLaunch. solve_holds. Qed.
Lemma holds_wait id : holds (wait_validation e id).
Proof. unfold wait_validation. solve_holds. Qed.
Lemma holds_stop : holds stopValidation.
Proof. unfold stopValidation. solve_holds. Qed.
#[local] Hint Resolve holds_call holds_saveLaunch holds_wait holds_stop : preserves.
Lemma holds_start hash : holds (startAndWaitValidation e x hash).
Proof. unfold startAndWaitValidation. solve_holds. Qed.
#[local] Hint Resolve holds_start : preserves.
Lemma holds_runValidation : holds (runValidation e x).
Proof. unfold runValidation, validation_steps. solve_holds. Qed.

Lemma holds_reloadStep : holds (reloadStep e x).
Proof. unfold reloadStep. solve_holds. Qed.
Lemma holds_fileStep kind role old new : holds (fileStep e x kind role old new).
Proof. unfold fileStep. solve_holds. Qed.
#[local] Hint Resolve holds_runValidation holds_reloadStep holds_fileStep : preserves.

Lemma holds_parts l : holds (publish_parts e x l).
Proof. induction l as [|part l IH]; simpl; [apply preserves_ret|]. apply holds_then; [|done]. apply holds_step, holds_Effects_Apply. Qed.
#[local] Hint Resolve holds_parts : preserves.

(** The hook of the transaction leaves the journal alone. *)
Context (Hafter : forall after, AfterDataCommitted x = Some after -> holds after).

Lemma holds_after : holds (after_data x).
Proof. unfold after_data. case_match; [by apply Hafter|apply preserves_ret]. Qed.
#[local] Hint Resolve holds_after : preserves.
Lemma holds_PublishData parts hash : holds (PublishDataLocked e x parts hash).
Proof. unfold PublishDataLocked. solve_holds. Qed.
#[local] Hint Resolve holds_PublishData : preserves.
Lemma holds_publish hash : holds (publish_data e x hash).
Proof. unfold publish_data. solve_holds. Qed.

End Before.

(** *** The activation *)

(** The activation keeps the report, however it ends. *)
Lemma keeps_report {A} (m : st (world E) A) :
  keeps m -> preserves (fun w => validated w /\ validation w = None) m.
Proof. intros Hm w w' r Hk%Hm [Hv Hc]. split; [by eapply kept_validated|]. by rewrite (kp_child _ _ Hk). Qed.

Lemma activate_report : preserves (fun w => validated w /\ validation w = None) (activate e x).
Proof.
  unfold activate, step. cbv zeta.
  apply preserves_bind; [apply keeps_report, keeps_record|]. intros [err|]; [apply preserves_ret|].
  apply preserves_bind.
  - intros w w' r (w1 & w2 & [= <- <-] & Hk)%st_bind_inv Hv. apply st_bind_inv in Hk as ([] & w3 & [= <-] & Hk).
    eapply (preserves_bind (fun w => validated w /\ validation w = None)); [| |exact Hk|exact Hv].
    + apply keeps_report, keeps_on_disk.
    + intros [dur [err|]]; [apply preserves_ret|]. apply keeps_report, keeps_Effects_Apply.
  - intros [err|]; [apply preserves_ret|]. apply preserves_bind; [apply preserves_get|]. intros w.
    case_match; [apply keeps_report, keeps_record|apply preserves_ret].
Qed.

(** Wherever a run that is to validate and activate ends. *)
Definition only_validated w0 (r : option error) w : Prop :=
  (unactivated w0 w \/ reported w) /\ (r = None -> candidate_validated w).

Lemma only_validated_err w0 err w : unactivated w0 w -> only_validated w0 (Some err) w.
Proof. intros Hu. split; [by left|done]. Qed.

Lemma validate_activate w0 w r w' :
  (then! runValidation e x in activate e x) w = (r, w') -> unactivated w0 w -> only_validated w0 r w'.
Proof.
  intros (r1 & w1 & Hr & Hk)%st_bind_inv Hu. pose proof (holds_runValidation w0 _ _ _ Hr Hu) as Hu1.
  destruct r1 as [err|]; [injection Hk as <- <-; by apply only_validated_err|].
  apply runValidation_validated in Hr as [Hv Hc]. destruct (activate_report _ _ _ Hk (conj Hv Hc)) as [Hv' Hc'].
  pose proof (validated_reported _ Hv' Hc') as Hrep. split; [by right|]. intros ->.
  apply activate_authority in Hk as [Ha _]. by split.
Qed.

(** Early returns before that. *)
Lemma before_activation w0 (m k : st (world E) (option error)) :
  preserves (unactivated w0) m ->
  (forall w r w', k w = (r, w') -> unactivated w0 w -> only_validated w0 r w') ->
  forall w r w', st_then m k w = (r, w') -> unactivated w0 w -> only_validated w0 r w'.
Proof.
  intros Hm Hk w r w' (r1 & w1 & H1%Hm & H2)%st_bind_inv Hu. specialize (H1 Hu).
  destruct r1 as [err|]; [injection H2 as <- <-; by apply only_validated_err|by eapply Hk].
Qed.

Lemma forward_validated w0 art w r w' :
  (forall after, AfterDataCommitted x = Some after -> preserves (unactivated w0) after) ->
  forward e x art w = (r, w') -> unactivated w0 w -> only_validated w0 r w'.
Proof.
  intros Hafter. revert w r w'. unfold forward.
  apply before_activation; [case_match; [apply holds_then; [apply holds_call|apply holds_asks]|apply preserves_ret]|].
  apply before_activation; [apply holds_phase|].
  apply before_activation; [case_match; [by apply holds_publish|apply preserves_ret]|].
  apply before_activation; [by apply holds_after|].
  apply before_activation; [apply holds_phase|].
  do 3 (apply before_activation; [apply holds_fileStep|]).
  apply before_activation; [apply holds_phase|].
  apply before_activation; [case_match; [apply preserves_ret|apply holds_fileStep]|].
  apply before_activation; [apply holds_reloadStep|].
  apply before_activation; [apply holds_phase|]. intros w r w'. apply validate_activate.
Qed.

End Validated.

(** The hooks of a first start leave the journal alone. *)
Record journal_apart {HS : Sha256} {HU : Unicode} {HJ : JournalJSON} {E : Type} (b : ForegroundBootstrap (E := E)) (w0 : world E) : Prop := {
  ja_after : forall after, AfterDataCommitted (ready b) = Some after -> preserves (unactivated w0) after;
  ja_initialize : forall id, preserves (unactivated w0) (InitializeJournal b id);
  ja_prepare : forall prepare id, PrepareJournal b = Some prepare -> preserves (unactivated w0) (prepare id)
}.

Section Bootstrap.
Context {HS : Sha256} {HU : Unicode} {HT : JSONTree} {HJ : JournalJSON} {HV : ValidationJSON}.
Context {E : Type} {HO : Outside E} (e : jenv) (b : ForegroundBootstrap (E := E)) (w0 : world E).

Lemma holds_new_journal x req id marker : preserves (unactivated w0) (save_new_journal e x req id marker).
Proof.
  unfold save_new_journal. destruct (buildJournal _ _ _ _ _) as [j|] eqn:Hj; [|apply preserves_ret].
  assert (Ha : RecoveryAuthority j <> InstallAuthorityTarget).
  { unfold buildJournal in Hj. destruct (match preparedAuthority x with Some pa => _ | None => _ end) as [[[[? ?] ?] ?] ?].
    case_match; [done|]. by injection Hj as <-. }
  apply preserves_bind; [by apply holds_save|]. intros [dur [err|]]; [apply preserves_ret|].
  case_match; [apply preserves_ret|]. apply preserves_bind; [by apply holds_set_journal|]. intros []. apply preserves_ret.
Qed.

Lemma bootstrap_validated w r w' :
  journal_apart b w0 -> bootstrap_steps e b w = (r, w') -> unactivated w0 w -> only_validated w0 r w'.
Proof.
  intros [Haft Hini Hprep] Hk Hu. unfold bootstrap_steps in Hk.
  apply st_bind_inv in Hk as (src & w1 & H1%(holds_asks w0) & Hk). specialize (H1 Hu).
  destruct src as [[]|err]; [injection Hk as <- <-; by apply only_validated_err| |injection Hk as <- <-; by apply only_validated_err].
  apply st_bind_inv in Hk as (id & w2 & H2 & Hk). cbv zeta in Hk.
  assert (Hu2 : unactivated w0 w2).
  { eapply preserves_bind; [| |exact H2|exact H1]; [apply holds_tick|]. intros. apply preserves_ret. }
  revert Hk Hu2. clear H1 H2. revert r w'. generalize w2. apply before_activation; [apply Hini|].
  intros w3 r w' (mk & w4 & H4%(holds_marker e w0) & Hk)%st_bind_inv Hu3. specialize (H4 Hu3).
  destruct mk as [marker|err]; [|injection Hk as <- <-; by apply only_validated_err].
  revert Hk H4. clear Hu3. revert r w'. generalize w4.
  apply before_activation; [apply holds_new_journal|].
  apply before_activation.
  { destruct (PrepareJournal b) as [prepare|]; [|apply preserves_ret].
    apply holds_then; [by apply Hprep|apply holds_new_journal]. }
  apply before_activation.
  { destruct (tx_Publisher (ready b)) as [[parts hash]|]; [by apply holds_PublishData|apply holds_step, holds_acts]. }
  apply before_activation; [by apply holds_after|]. apply before_activation; [apply holds_phase|].
  intros w5 r w'. apply validate_activate.
Qed.

End Bootstrap.

