(* ===== verification/InstallAtomic.v ===== *)
(** * InstallAtomic: an installation happens as a whole or not at all

    The forward direction on top of [InstallRecovery]: every step of
    [ApplyLocked] and of the foreground bootstrap keeps the state recoverable,
    the activation is the one point where the authority changes, and it comes
    after a validation that the started candidate passed. *)

From S2P Require Import Prelude GoStd SelfUpdate InstallJournal InstallTx InstallSafety InstallRecovery InstallValidated.

Section Forward.
Context {HS : Sha256} {HU : Unicode} {HT : JSONTree} {HJ : JournalJSON} {HV : ValidationJSON} {HC : JournalCodec}.
Context {E : Type} {HO : Outside E} {HSl : Slots E} (e : jenv) (x : InstallTransaction E).
Context (T0 : gmap string string).

Implicit Types (w : world E) (j : InstallJournal) (U : list string).

(** On the way forward: the source has the authority, all recorded actions are
    done, and they are about the slots in [U]. *)
Record running U (d : string) (c : core) (T : gmap string string) : Prop := {
  ru_source : source c;
  ru_phase : c_phase c <> InstallPhaseComplete;
  ru_data : c_data c = d;
  ru_decided : decided T0 c T;
  ru_used : forall a, a ∈ c_actions c -> slot a ∈ U;
  ru_open : c_open c = []
}.

Lemma running_lasting U d : lasting (running U d).
Proof. intros c T Hr. left. apply Hr. Qed.

Lemma running_weaken U U' d c T : running U d c T -> (forall s, s ∈ U -> s ∈ U') -> running U' d c T.
Proof. intros [] Hs. constructor; eauto. Qed.

(** An effect that brings the slot of [a] to its new state, or fails. *)
Definition brings (a : JournalAction) (apply : st (world E) (option error)) : Prop :=
  forall w r w', apply w = (r, w') ->
    journal w' = journal w /\ journal_file w' = journal_file w
    /\ (tok w' = <[slot a := NewState a]> (tok w) \/ tok w' = tok w /\ r <> None).

(** What makes an action fit to be the next one. *)
Record startable U (d : string) (a : JournalAction) : Prop := {
  sa_forward : is_forward a;
  sa_clean : clean_action a = true;
  sa_old : T0 !! slot a = Some (OldState a);
  sa_refs : isConcreteServiceAction a = false;
  sa_fresh : slot a ∉ U;
  sa_data : Kind a = JournalActionDataPublish -> d <> InstallDataRetain /\ OldState a = "absent"
}.

Lemma forward_slotted a : is_forward a -> slotted a = true.
Proof. unfold slotted. by intros ->. Qed.

Lemma running_good U d a w :
  synced T0 0 w -> on (running U d) w -> startable U d a ->
  good T0 (with_actions (c_actions (core_of (journal w)) ++ [intent_of (journal w) a]) (core_of (journal w))) (tok w).
Proof.
  intros Hs Hr Ha. apply good_add_forward; [apply Hs|apply Hr|apply Ha|apply Ha|apply Ha| |].
  - intros b Hb _ Heq. apply (sa_fresh _ _ _ Ha). change (slot a) with (slot (intent_of (journal w) a)).
    rewrite <- Heq. by apply (ru_used _ _ _ _ Hr).
  - intros Hk. rewrite (ru_data _ _ _ _ Hr). by apply (sa_data _ _ _ Ha).
Qed.

Lemma running_push U d a c T n :
  running U d c T -> startable U d a ->
  running (slot a :: U) d (with_actions (c_actions c ++ [set_Seq n (set_Status JournalActionDone a)]) c)
    (<[slot a := NewState a]> T).
Proof.
  intros [Hs Hp Hd [Hdone Hrest _] Hu Hop] Ha. constructor; try done; simpl.
  - constructor; simpl.
    + intros b [Hb| ->%list_elem_of_singleton]%elem_of_app.
      * destruct (Hdone b Hb) as (Hf & Hst & Ht). split_and!; [done|done|]. rewrite lookup_insert_ne; [done|].
        intros Heq. apply (sa_fresh _ _ _ Ha). rewrite Heq. by apply Hu.
      * split_and!; [apply Ha|done|]. change (slot (set_Seq _ _)) with (slot a). by rewrite lookup_insert_eq.
    + intros s Hno. rewrite lookup_insert_ne.
      * apply Hrest. intros b Hb. apply Hno. set_solver.
      * apply (Hno (set_Seq n (set_Status JournalActionDone a))). set_solver.
    + done.
  - intros b [Hb| ->%list_elem_of_singleton]%elem_of_app; [right; by apply Hu|by left].
Qed.

(** A step forward on a slot. *)
Lemma forward_step U d a apply :
  startable U d a -> brings a apply -> safe T0 0 (running U d) (running (slot a :: U) d) (step e a apply).
Proof.
  intros Ha Hap w r w' Hs Hr Hst. pose proof (forward_slotted a (sa_forward _ _ _ Ha)) as Hsl.
  set (int := intent_of (journal w) a). pose proof (running_good U d a w Hs Hr Ha) as Hg. fold int in Hg.
  eapply (step_safe e T0 0 (fun w2 => journal w2 = push (journal w) int /\ tok w2 = <[slot a := NewState a]> (tok w))) in Hst;
    [|done|apply Ha|by fold int; rewrite core_push|].
  - destruct Hst as [Hrec Hok]. split; [done|]. intros Hn. destruct (Hok Hn) as (Hs' & w2 & [Hj2 Ht2] & Ht & Hj).
    split; [done|]. unfold on. rewrite Ht, Hj, Ht2, Hj2.
    change (set_Actions _ (push _ _)) with (push (journal w) (done_of (journal w) a)).
    rewrite core_push by done. by apply running_push.
  - fold int. intros w1 r1 w2 Hs1 Hj1 Ht1 Hr1. destruct (Hap _ _ _ Hr1) as (Hj2 & Hf2 & Htok).
    assert (Hg2 : good T0 (core_of (journal w1)) (tok w2)).
    { destruct Htok as [->|[-> _]]; [|apply Hs1]. change (slot a) with (slot int). change (NewState a) with (NewState int).
      rewrite Hj1, Ht1, core_push by done. apply good_put_forward; [done|apply Hr|simpl; set_solver|apply Ha|apply Hr|].
      intros b [Hb| ->%list_elem_of_singleton]%elem_of_app Hback _; [|done].
      destruct (de_done _ _ _ (ru_decided _ _ _ _ Hr) b Hb) as (Hfb & _).
      apply forward_not_backward in Hfb. unfold is_backward in Hback. congruence. }
    assert (Hs2 : synced T0 0 w2) by by eapply synced_tokens.
    split; [by eapply synced_recoverable|]. intros ->. destruct Htok as [Htok|[_ []]]; [|done].
    rewrite Hj2, Hj1, Htok, Ht1. split_and!; [done|done|done|done|].
    change (set_Actions _ (push _ _)) with (push (journal w) (done_of (journal w) a)). rewrite core_push by done.
    rewrite Hj1, core_push in Hg2 by done. rewrite Htok, Ht1 in Hg2.
    eapply good_done in Hg2; [exact Hg2|apply Hr|done|by eapply (pushed_nodup T0 0 w1)|].
    intros Hback. pose proof (forward_not_backward _ (sa_forward _ _ _ Ha)) as Hnb. unfold is_backward in Hback. simpl in Hback. congruence.
Qed.

(** A journal that has just been built. *)
Record new_journal (d : string) j : Prop := {
  nj_clean : clean j = true;
  nj_actions : Actions j = [];
  nj_phase : Phase j = InstallPhasePrepared;
  nj_authority : RecoveryAuthority j = InstallAuthoritySource;
  nj_data : DataAction j = d
}.

Lemma new_running d j : new_journal d j -> running [] d (core_of j) T0.
Proof.
  intros [Hc Ha Hp Hau Hd]. unfold core_of, slotted_actions, open_actions. rewrite Ha, Hp, Hau, Hd.
  constructor; [done|done|done| | |done]; simpl; [|by intros a ?%elem_of_nil].
  constructor; simpl; [by intros a ?%elem_of_nil|done|done].
Qed.

Lemma new_fit d j : new_journal d j -> fit T0 0 T0 j.
Proof.
  intros Hn. pose proof (new_running d j Hn) as Hr. destruct Hn as [Hc Ha _ _ _].
  split_and!; [lia|by rewrite Ha|done|]. apply source_good; [|apply Hr|].
  - unfold core_of, slotted_actions. rewrite Ha. constructor; simpl; set_solver.
  - constructor; [by left|]. intros Hp. by destruct (ru_phase _ _ _ _ Hr).
Qed.

(** Saving the new journal begins the transaction. *)
Lemma begin_safe d j w dur err w' :
  recoverable T0 w -> tok w = T0 -> new_journal d j -> save_journal e j w = ((dur, err), w') ->
  recoverable T0 w' /\ tok w' = T0 /\ (err = None -> Durable dur = true /\ at_rest w' j).
Proof.
  intros Hrec Ht Hj Hsv. apply save_journal_spec in Hsv as (_ & Ht' & Hno & Ha & Hok); [|apply Hj]. rewrite Ht in Ht'.
  split; [|split; [done|intros Hn; by destruct (Hok Hn) as (? & _ & ?)]]. split; [done|].
  intros j' [Hj'| ->]%Ha; rewrite Ht'; [by rewrite <- Ht at 2; apply Hrec|by apply (new_fit d)].
Qed.

Lemma begun d j w : new_journal d j -> tok w = T0 -> journal w = j -> at_rest w j ->
  synced T0 0 w /\ on (running [] d) w.
Proof.
  intros Hn Ht Hj Hd. split.
  - eapply fit_synced; [rewrite Ht; by apply (new_fit d)|done|done].
  - unfold on. rewrite Hj, Ht. by apply new_running.
Qed.

Context (Heff : tx_Effects x = true).
Context (Hafter : forall after, AfterDataCommitted x = Some after -> quiet T0 0 after).

Lemma brings_Effects a : is_forward a -> brings a (Effects_Apply x a).
Proof. intros Ha w r w'. apply Effects_Apply_slot; [done|by apply forward_slotted]. Qed.

Lemma brings_then a m k : still m -> brings a k -> brings a (st_then m k).
Proof.
  intros Hm Hk w r w' (r1 & w1 & H1%(still_run _ _ _ _ Hm) & H2)%st_bind_inv. destruct H1 as (Hj & Hf & Ht).
  destruct r1 as [err|].
  - injection H2 as <- <-. split_and!; [done|done|]. right. by rewrite Ht.
  - destruct (Hk _ _ _ H2) as (Hj2 & Hf2 & Ht2). rewrite Hj2, Hf2, Hj, Hf, <- Ht. done.
Qed.

(** [fileStep] on a slot. *)
Lemma fileStep_safe U d kind role old new :
  startable U d (action_of kind role old new) ->
  safe T0 0 (running U d) (running (slot (action_of kind role old new) :: U) d) (fileStep e x kind role old new).
Proof.
  intros Ha. unfold fileStep. case_match.
  - intros w r w' Hs Hr [= <- <-]. split; [by eapply synced_recoverable|]. intros _. split; [done|].
    eapply running_weaken; [exact Hr|set_solver].
  - apply forward_step; [done|]. apply brings_then; [case_match; [apply still_recheckAndPublish|apply still_ret]|].
    apply brings_Effects. apply Ha.
Qed.

Lemma setPhase_running U d p :
  ValidString p = true -> p <> InstallPhaseComplete -> safe T0 0 (running U d) (running U d) (setPhase e p).
Proof.
  intros Hv Hp w r w' Hs Hr Hk. eapply setPhase_safe in Hk as [Hrec Hok]; [|done|done|done|done]. split; [done|].
  intros Hn. destruct (Hok Hn) as (Hs' & Hj & Ht). split; [done|]. unfold on. rewrite Hj, Ht.
  destruct Hr as [Hs1 _ Hd [] Hu Hop]. by constructor.
Qed.

(** *** Data *)

Definition part_slot (part : nativeInstallDataPart) : string := "data/data:" ++ sha256Hex (part_Name part).
Definition data_slot : string := "data/".

Lemma publish_parts_safe U d parts :
  d <> InstallDataRetain ->
  Forall (fun p => T0 !! part_slot p = Some "absent" /\ ValidString (part_Hash p) = true) parts ->
  NoDup (map part_slot parts) -> (forall p, p ∈ parts -> part_slot p ∉ U) ->
  safe T0 0 (running U d) (running (rev (map part_slot parts) ++ U) d) (publish_parts e x parts).
Proof.
  intros Hd. revert U. induction parts as [|p parts IH]; intros U Hall Hnd Hfresh; [apply step_ret|].
  apply Forall_cons in Hall as [[Ht Hv] Hall]. apply NoDup_cons in Hnd as [Hnew Hnd]. cbn [publish_parts map rev].
  set (a := mkAction 0 JournalActionDataPublish JournalRoleData "absent" "" (part_Hash p) ("data:" ++ sha256Hex (part_Name p)) "").
  assert (Ha : startable U d a).
  { constructor; [done|apply clean_mk; try done; by apply ref_valid|exact Ht| |by apply Hfresh; left|done].
    unfold isConcreteServiceAction. done. }
  apply safe_then with (running (part_slot p :: U) d).
  { apply (forward_step U d a); [done|]. by apply brings_Effects. }
  rewrite <- app_assoc. apply IH; [done|done|].
  intros q Hq. apply not_elem_of_cons. split; [|apply Hfresh; by right].
  intros Heq. apply Hnew. rewrite <- Heq. by apply list_elem_of_fmap_2.
Qed.

Lemma quiet_after : quiet T0 0 (after_data x).
Proof. unfold after_data. destruct (AfterDataCommitted x) eqn:Ha; [by apply Hafter|apply quiet_ret]. Qed.

(** The state of the data directory that the installation starts from. *)
Definition data_described (publisher : option (list nativeInstallDataPart * string)) : Prop :=
  match publisher with
  | Some (p :: parts, _) =>
      Forall (fun p => T0 !! part_slot p = Some "absent" /\ ValidString (part_Hash p) = true) (p :: parts)
      /\ NoDup (map part_slot (p :: parts))
  | Some ([], hash) => T0 !! data_slot = Some "absent" /\ ValidString hash = true
  | None => T0 !! data_slot = Some "absent"
  end.

Definition data_slots (publisher : option (list nativeInstallDataPart * string)) : list string :=
  match publisher with
  | Some (p :: parts, _) => rev (map part_slot (p :: parts))
  | _ => [data_slot]
  end.

Lemma data_startable d hash :
  d <> InstallDataRetain -> T0 !! data_slot = Some "absent" -> ValidString hash = true ->
  startable [] d (action_of JournalActionDataPublish JournalRoleData "absent" hash).
Proof. intros Hd Ht Hv. constructor; try done; [by apply clean_mk|apply not_elem_of_nil]. Qed.

Lemma PublishDataLocked_safe d parts hash :
  d <> InstallDataRetain -> data_described (Some (parts, hash)) ->
  safe T0 0 (running [] d) (running (data_slots (Some (parts, hash))) d) (PublishDataLocked e x parts hash).
Proof.
  intros Hd Hdesc. unfold PublishDataLocked. destruct parts as [|p parts].
  - destruct Hdesc as [Ht Hv]. apply (fileStep_safe [] d). by apply data_startable.
  - destruct Hdesc as [Hall Hnd]. apply safe_then with (running [] d).
    { case_match; [apply quiet_still; [apply still_recheckAndPublish|apply running_lasting]|apply step_ret]. }
    apply safe_then with (running [] d); [apply quiet_after, running_lasting|].
    unfold data_slots. rewrite <- (app_nil_r (rev _)). apply publish_parts_safe; [done|done|done|]. intros. apply not_elem_of_nil.
Qed.

Lemma publish_data_safe d hash :
  d <> InstallDataRetain -> data_described (tx_Publisher x) -> ValidString hash = true ->
  safe T0 0 (running [] d) (running (data_slots (tx_Publisher x)) d) (publish_data e x hash).
Proof.
  intros Hd Hdesc Hv. unfold publish_data. destruct (tx_Publisher x) as [[parts h]|].
  - by apply PublishDataLocked_safe.
  - apply (fileStep_safe [] d). by apply data_startable.
Qed.

(** *** Activation *)

Definition activation : JournalAction :=
  action_of JournalActionActivation JournalRoleActivation InstallAuthoritySource InstallAuthorityTarget.

(** The journal that gives the authority to the target. *)
Definition activated_journal j : InstallJournal :=
  set_Phase InstallPhaseActivationCommitted (set_RecoveryAuthority InstallAuthorityTarget j).

(** On the way forward, with actions that are not on slots still open. *)
Definition under_way U d (c : core) (T : gmap string string) : Prop := running U d (with_open [] c) T.

Lemma under_way_good U d j T : under_way U d (core_of j) T -> good T0 (core_of (activated_journal j)) T.
Proof. intros Hr. right. split; [done|]. destruct Hr as [_ _ _ [Hd Hrest _] _ _]. by constructor. Qed.

Lemma activated_fit U d w :
  synced T0 0 w -> on (under_way U d) w -> fit T0 0 (tok w) (activated_journal (journal w)).
Proof.
  intros Hs Hr. destruct Hs as [Hb Hn Hc _ _]. split_and!; [done|done| |by eapply under_way_good].
  unfold clean in *. simpl. rewrite !andb_true_iff in *. split_and!; try done; apply Hc.
Qed.

(** The effect of the activation: the journal, and then whatever the outside
    does with an activation. *)
Lemma activate_effect U d w r w' :
  synced T0 0 w -> on (under_way U d) w ->
  (let! w := st_get in
   let j := set_Phase InstallPhaseActivationCommitted (set_RecoveryAuthority InstallAuthorityTarget (journal w)) in
   do! set_journal j in
   let! '(_, err) := save_journal e j in
   match err with Some err => st_ret (Some err) | None => Effects_Apply x activation end) w = (r, w') ->
  recoverable T0 w' /\ (r = None -> synced T0 0 w' /\ journal w' = activated_journal (journal w) /\ tok w' = tok w).
Proof.
  intros Hs Hr (w1 & w1' & [= <- <-] & Hk)%st_bind_inv. cbv zeta in Hk.
  pose proof (activated_fit U d w Hs Hr) as Hf. fold (activated_journal (journal w)) in Hk.
  apply st_bind_inv in Hk as ([] & w2 & [= <-] & Hk).
  apply st_bind_inv in Hk as ([dur err] & w3 & Hsv & Hk).
  apply save_journal_spec in Hsv as (Hj & Ht & Hno & Ha & Hok); [|apply Hf]. simpl in Hj. change (tok w3 = tok w) in Ht.
  assert (Hrec : recoverable T0 w3).
  { split; [by intros ?%Hno; destruct (synced_file T0 0 w Hs)|]. intros j' [Hj'| ->]%Ha; rewrite Ht; [|apply Hf]. by apply (synced_recoverable T0 0 w). }
  destruct err as [err|]; [by injection Hk as <- <-|]. destruct (Hok eq_refl) as (_ & _ & Hd).
  assert (Hs3 : synced T0 0 w3) by (eapply fit_synced; [by rewrite Ht|done|done]).
  apply (still_run _ _ _ _ (still_Effects_Apply x activation eq_refl)) in Hk.
  assert (Hs' : synced T0 0 w') by by eapply same_synced. split; [by eapply synced_recoverable|].
  intros _. destruct Hk as (Hj' & _ & Ht'). split_and!; [done|congruence|congruence].
Qed.

Definition activated_core (c : core) (T : gmap string string) : Prop :=
  c_authority c = InstallAuthorityTarget /\ c_phase c = InstallPhaseActivationCommitted /\ c_open c = [].

Lemma activated_lasting : lasting activated_core.
Proof. intros c T (_ & Hp & _). right. by rewrite Hp. Qed.

Lemma activate_activates U d : safe T0 0 (running U d) activated_core (activate e x).
Proof.
  intros w r w' Hs Hr Hk. unfold activate in Hk.
  fold activation in Hk. destruct (core_unslotted (journal w) activation eq_refl) as [Hint Hdone].
  eapply (step_safe e T0 0 (fun w2 => journal w2 = activated_journal (push (journal w) (intent_of (journal w) activation)) /\ tok w2 = tok w)) in Hk;
    [|done|done|by rewrite Hint; apply good_open; [apply Hs|left; apply Hr]|].
  - destruct Hk as [Hrec Hok]. split; [done|]. intros Hn. destruct (Hok Hn) as (Hs' & w2 & [Hj2 Ht2] & Ht & Hj).
    split; [done|]. unfold on, activated_core. rewrite Hj, Hj2. split; [done|]. split; [done|].
    change (c_open (core_of (push (journal w) (done_of (journal w) activation))) = []). rewrite Hdone. exact (ru_open _ _ _ _ Hr).
  - intros w1 r1 w2 Hs1 Hj1 Ht1 Hr1.
    assert (Hr1' : on (under_way U d) w1).
    { unfold on, under_way. rewrite Hj1, Ht1, Hint. destruct Hr as [? ? ? [] ? ?]. by constructor. }
    destruct (activate_effect U d _ _ _ Hs1 Hr1' Hr1) as [Hrec Hok]. split; [done|]. intros Hn.
    destruct (Hok Hn) as (Hs2 & Hj2 & Ht2). rewrite Hj1 in Hj2. rewrite Ht1 in Ht2. rewrite Hj2, Ht2.
    split_and!; [done|done|done|done|].
    change (core_of (set_Actions (Actions (journal w) ++ [done_of (journal w) activation]) (activated_journal (push (journal w) (intent_of (journal w) activation)))))
      with (core_of (activated_journal (push (journal w) (done_of (journal w) activation)))).
    apply (under_way_good U d). unfold under_way. rewrite Hdone. destruct Hr as [? ? ? [] ? ?]. by constructor.
Qed.

(** *** The installation *)

(** The prepared artifacts tell what is there now. *)
Record described (art : InstallArtifacts) : Prop := {
  ds_managed : T0 !! JournalRoleManagedBinary = Some (fileHash (a_ManagedOld art));
  ds_path : T0 !! JournalRolePathBinary = Some (fileHash (a_PathOld art));
  ds_channel : T0 !! JournalRoleChannel = Some (fileHash (a_ChannelOld art));
  ds_data : a_DataAction art = InstallDataCreate -> data_described (tx_Publisher x)
}.

Lemma binary_startable U d kind role old new :
  forward_kind kind = true -> kind <> JournalActionDataPublish -> ValidString role = true ->
  T0 !! role = Some (fileHash old) -> role ∉ U ->
  startable U d (action_of kind role (fileHash old) (fileHash new)).
Proof.
  intros Hk Hnd Hr Ht Hu.
  assert (Hslot : slot (action_of kind role (fileHash old) (fileHash new)) = role
                  /\ isConcreteServiceAction (action_of kind role (fileHash old) (fileHash new)) = false
                  /\ ValidString kind = true).
  { unfold slot, isConcreteServiceAction. simpl. kinds Hk; subst; done. }
  destruct Hslot as (Hslot & Hcon & Hv).
  constructor; [done|apply clean_mk; try done; apply fileHash_valid|by rewrite Hslot|done|by rewrite Hslot|done].
Qed.

Lemma quiet_fileStep kind role old new :
  forward_kind kind = false -> backward_kind kind = false -> ValidString kind = true -> ValidString role = true ->
  ValidString old = true -> ValidString new = true -> quiet T0 0 (fileStep e x kind role old new).
Proof.
  intros Hf Hb Hk Hr Ho Hn. unfold fileStep. case_match; [apply quiet_ret|].
  assert (Hsl : slotted (action_of kind role old new) = false) by (unfold slotted; simpl; by rewrite Hf, Hb).
  apply quiet_step; [done|by apply clean_mk|]. apply still_then; [|by apply still_Effects_Apply].
  case_match; [apply still_recheckAndPublish|apply still_ret].
Qed.

Lemma data_slots_apart s : s ∈ data_slots (tx_Publisher x) -> exists r, s = String.append "data/" r.
Proof.
  unfold data_slots. destruct (tx_Publisher x) as [[[|p parts] h]|]; simpl; intros Hs.
  - exists "". by apply list_elem_of_singleton in Hs.
  - rewrite <- in_rev in Hs || idtac. apply list_elem_of_In in Hs.
    assert (In s (map part_slot (p :: parts))) as Hin by by apply in_rev.
    apply in_map_iff in Hin as (q & <- & _). by exists (String.append "data:" (sha256Hex (part_Name q))).
  - exists "". by apply list_elem_of_singleton in Hs.
Qed.

Lemma forward_safe art :
  described art -> safe T0 0 (running [] (a_DataAction art)) activated_core (forward e x art).
Proof.
  intros Hdesc. set (d := a_DataAction art). set (U := data_slots (tx_Publisher x)).
  assert (Hrole : forall r, HasPrefix r "data/" = false -> r ∉ U).
  { intros r Hr (t & ->)%data_slots_apart. unfold HasPrefix in Hr. by rewrite prefix_append in Hr. }
  pose proof (fun V => running_lasting V d) as Hl. unfold forward. apply safe_then with (running [] d).
  { case_match; [|apply step_ret]. apply quiet_then; [apply quiet_call; intros; apply stops|apply quiet_asks|apply Hl]. }
  apply safe_then with (running [] d); [by apply setPhase_running|].
  apply safe_then with (running U d).
  { destruct (String.eqb_spec (a_DataAction art) InstallDataCreate) as [Hc|_].
    - apply publish_data_safe; [unfold d; by rewrite Hc|by apply Hdesc|apply fileHash_valid].
    - intros w r w' Hs Hr [= <- <-]. split; [by eapply synced_recoverable|]. intros _. split; [done|].
      eapply running_weaken; [exact Hr|]. by intros s ?%elem_of_nil. }
  apply safe_then with (running U d); [apply quiet_after, Hl|].
  apply safe_then with (running U d); [by apply setPhase_running|].
  apply safe_then with (running (JournalRoleManagedBinary :: U) d).
  { apply (fileStep_safe U d). apply binary_startable; [done|done|done|apply Hdesc|by apply Hrole]. }
  apply safe_then with (running (JournalRolePathBinary :: JournalRoleManagedBinary :: U) d).
  { apply (fileStep_safe _ d). apply binary_startable; [done|done|done|apply Hdesc|].
    apply not_elem_of_cons. split; [done|by apply Hrole]. }
  apply safe_then with (running (JournalRoleChannel :: JournalRolePathBinary :: JournalRoleManagedBinary :: U) d).
  { apply (fileStep_safe _ d). apply binary_startable; [done|done|done|apply Hdesc|].
    apply not_elem_of_cons. split; [done|]. apply not_elem_of_cons. split; [done|by apply Hrole]. }
  set (V := _ :: _ :: _ :: U). apply safe_then with (running V d); [by apply setPhase_running|].
  apply safe_then with (running V d).
  { case_match; [apply step_ret|]. apply quiet_fileStep; try done. apply fileHash_valid. }
  apply safe_then with (running V d); [apply quiet_reloadStep, Hl|].
  apply safe_then with (running V d); [by apply setPhase_running|].
  apply safe_then with (running V d); [apply quiet_runValidation, Hl|]. apply activate_activates.
Qed.

Lemma quiet_start_target art : quiet T0 0 (start_target e x art).
Proof.
  unfold start_target. case_match; [|apply quiet_ret]. apply quiet_then; [apply quiet_removeObsolete|].
  apply quiet_then; [apply quiet_call; intros; apply writes|].
  case_match; [apply quiet_call; intros; apply starts|apply quiet_ret].
Qed.

Lemma run_install_safe art j w r w' :
  recoverable T0 w -> tok w = T0 -> described art -> new_journal (a_DataAction art) j ->
  run_install e x j art w = (r, w') ->
  recoverable T0 w' /\ (r = None -> synced T0 0 w' /\ on (completed InstallAuthorityTarget) w').
Proof.
  intros Hrec Ht Hdesc Hj. unfold run_install. intros ([dur err] & w1 & Hsv & Hk)%st_bind_inv.
  eapply begin_safe in Hsv as (Hrec1 & Ht1 & Hok); [|done|done|exact Hj].
  destruct err as [err|]; [by injection Hk as <- <-|]. destruct (Hok eq_refl) as [_ Hd].
  apply st_bind_inv in Hk as ([] & w2 & [= <-] & Hk).
  revert Hk. apply (safe_then T0 0 (running [] (a_DataAction art)) activated_core).
  - by apply forward_safe.
  - apply safe_then with activated_core; [apply quiet_start_target, activated_lasting|].
    intros v r1 v' Hs (Hta & _ & Hop) Hk. eapply setPhase_safe in Hk as [Hr' Hok']; [|done|done| |done].
    + split; [done|]. intros Hn. destruct (Hok' Hn) as (Hs' & Hj' & Ht'). split; [done|]. unfold on, completed. by rewrite Hj'.
    + intros _ Ha. simpl in Hta. by rewrite Hta in Ha.
  - by eapply (begun (a_DataAction art)).
  - by eapply (begun (a_DataAction art)).
Qed.

End Forward.

(** ** From the outside *)

Section Whole.
Context {HS : Sha256} {HU : Unicode} {HT : JSONTree} {HJ : JournalJSON} {HV : ValidationJSON} {HC : JournalCodec}.
Context {E : Type} {HO : Outside E} {HSl : Slots E}.

Implicit Types (w : world E) (x : InstallTransaction E).

(** A transaction that has its effects and knows the two definitions of its
    service, as every session of the installer does, and whose hooks leave the
    slots alone. *)
Record sound_tx (T0 : gmap string string) x : Prop := {
  st_effects : tx_Effects x = true;
  st_authority : is_Some (preparedAuthority x);
  st_before : forall before, BeforeRollback x = Some before -> quiet T0 0 before;
  st_after : forall after, AfterDataCommitted x = Some after -> quiet T0 0 after;
  st_prepared : still (ensurePrepared x)
}.

(** The same disk and the same outside; the memory of the process is lost. *)
Definition same_rest w w' : Prop := journal_file w' = journal_file w /\ tok w' = tok w.

Lemma rest_recoverable T0 w w' : same_rest w w' -> recoverable T0 w -> recoverable T0 w'.
Proof.
  intros [Hf Ht] [Hn Hr]. split; rewrite Ht; [by rewrite Hf|]. intros j (f & Hl & Hd). apply Hr. exists f. by rewrite <- Hf.
Qed.

(** Recoveries, each in a new process and each ending however it ends. *)
Inductive attempts (T0 : gmap string string) : world E -> world E -> Prop :=
| no_attempt w : attempts T0 w w
| one_attempt w1 w1' e x r w2 w3 :
    same_rest w1 w1' -> sound_tx T0 x -> RecoverLocked e x w1' = (r, w2) -> attempts T0 w2 w3 ->
    attempts T0 w1 w3.

Lemma attempts_recoverable T0 w w' : attempts T0 w w' -> recoverable T0 w -> recoverable T0 w'.
Proof.
  induction 1 as [|w1 w1' e x r w2 w3 Hsame [He Hpa Hb Ha Hp] Hr _ IH]; [done|]. intros Hrec. apply IH.
  eapply (recover_safe e x); [done|done|done| |exact Hr]. by eapply rest_recoverable.
Qed.

(** The journal that [buildJournal] returns. *)
Lemma built_journal x req id marker art j :
  buildJournal x req id marker art = Ok j -> clean j = true -> new_journal (a_DataAction art) j.
Proof.
  unfold buildJournal. destruct (match preparedAuthority x with Some pa => _ | None => _ end) as [[[[? ?] ?] ?] ?].
  case_match; [done|]. intros [= <-] Hc. by constructor.
Qed.

Lemma still_binary_only x req : still (binary_only x req).
Proof. unfold binary_only. case_match; [|apply still_ret]. apply still_with; [apply still_asks|]. intros; apply still_ret. Qed.

Lemma still_newTransactionID x : still (newTransactionID x).
Proof. apply still_bind; [apply still_next|]. intros; apply still_ret. Qed.

(** The paths and hashes of the request are text. *)
Definition text_inputs x req : Prop :=
  let art := preparedArtifacts x req in
  forallb ValidString
    ([req_Operation req; req_Layout req; a_Source art; a_Target art; a_Install art; a_Endpoint art; a_Credential art;
      a_DataRoot art; a_BootID art; a_CandidateHash art; a_BackupHash art; a_DataAction art]
     ++ match preparedAuthority x with
        | Some pa => concat (map object_strings [pa_Source pa; pa_Target pa; pa_Install pa])
                     ++ [Ref (pa_ServiceBackup pa); sb_SHA256 (pa_ServiceBackup pa); sb_Identity (pa_ServiceBackup pa)]
        | None => []
        end) = true.

Lemma or_else_text a b : ValidString a = true -> ValidString b = true -> ValidString (or_else a b) = true.
Proof. unfold or_else. by case_match. Qed.

Lemma stamped_text data ino boot id :
  is_ascii ino = true -> ValidString boot = true -> is_ascii id = true ->
  forallb ValidString (object_strings (stampedObject data ino boot id)) = true.
Proof.
  intros Hi Hb Hid. unfold stampedObject. case_match; [done|]. unfold object_strings.
  cbn [forallb SHA256 Dev Ino MountID obj_BootID Marker Identity].
  rewrite (is_ascii_valid _ (sha256_ascii data : is_ascii (sha256HexBytes data) = true)), (is_ascii_valid _ Hi), Hb,
    (is_ascii_valid _ Hid), (is_ascii_valid ("8:" ++ ino)); [done|]. by rewrite is_ascii_app, Hi.
Qed.

Ltac simpl_journal :=
  cbn [Schema TransactionID Operation Mode SourcePath TargetPath InstallPath EndpointPath CredentialPath DataRoot
       BootID CandidateHash BackupHash DataAction j_ServiceBackup SourceIdentity TargetIdentity InstallIdentity
       EndpointIdentity CredentialIdentity TransactionMarker Phase RecoveryAuthority Actions Ref sb_SHA256 sb_Identity
       map concat app forallb].

(** So is the journal that is built of it. *)
Lemma built_clean x req id marker j :
  text_inputs x req -> is_ascii id = true -> forallb ValidString (object_strings marker) = true ->
  buildJournal x req id marker (preparedArtifacts x req) = Ok j -> clean j = true.
Proof.
  unfold text_inputs, buildJournal. cbv zeta. set (art := preparedArtifacts x req). rewrite forallb_app, andb_true_iff.
  intros [Ht Hpa] Hid Hmk. cbn [forallb] in Ht. rewrite !andb_true_iff in Ht.
  destruct Ht as (Hop & Hlay & Hsrc & Htgt & Hins & Hep & Hcr & Hdr & Hbt & Hch & Hbh & Hda & _).
  assert (Hunit : ValidString ("transactions/" ++ id ++ "/unit") = true)
    by (apply is_ascii_valid; by rewrite !is_ascii_app, Hid).
  pose proof (is_ascii_valid _ Hid) as Hidv.
  assert (Hmk' : forallb ValidString (object_strings (mkJournalObject (Present marker)
     (or_else (SHA256 marker) (sha256Hex id)) (Dev marker) (Ino marker)
     (MountID marker) (obj_BootID marker) (or_else (Marker marker) id) (Identity marker))) = true).
  { unfold object_strings in *. cbn [forallb SHA256 Dev Ino MountID obj_BootID Marker Identity] in *.
    rewrite !andb_true_iff in *. destruct Hmk as (? & ? & ? & ? & ? & ? & ? & _). split_and!; try done.
    - apply or_else_text; [done|]. apply is_ascii_valid, sha256_ascii.
    - by apply or_else_text. }
  set (mk := mkJournalObject _ _ _ _ _ _ _ _) in *. clearbody mk.
  assert (Hlay' : ValidString (or_else (req_Layout req) InstallLayoutSystem) = true) by by apply or_else_text.
  destruct (preparedAuthority x) as [pa|]; case_match; intros [= <-]; unfold clean, clean_head; simpl_journal;
    rewrite ?forallb_app in *; cbn [forallb map concat] in *; rewrite ?forallb_app, ?andb_true_iff in *; cbn [forallb] in *;
    destruct_and?; split_and!; try done; by apply stamped_text.
Qed.

Lemma marker_text e id w o w' :
  text_env e -> on_disk (E := E) (CreateTransactionMarker e id) w = (Ok o, w') ->
  is_ascii id = true /\ forallb ValidString (object_strings o) = true.
Proof.
  intros He. unfold on_disk. destruct (CreateTransactionMarker e id (disk w)) as [r d] eqn:Hc. intros [= -> _].
  by eapply CreateTransactionMarker_text.
Qed.

Lemma install_steps_safe e x req w r w' :
  let T0 := tok w in
  text_env e -> recoverable T0 w -> sound_tx T0 x -> described x T0 (preparedArtifacts x req) -> text_inputs x req ->
  install_steps e x req w = (r, w') ->
  recoverable T0 w' /\ (r = None -> synced T0 0 w' /\ on (completed InstallAuthorityTarget) w').
Proof.
  intros T0 He Hrec [Heff _ Hbef Haft Hprep] Hdesc Hclean Hk. unfold install_steps in Hk.
  assert (Hstop : forall v err, same_as w v -> (Some err, v) = (r, w') ->
    recoverable T0 w' /\ (r = None -> synced T0 0 w' /\ on (completed InstallAuthorityTarget) w')).
  { intros v err Hs [= <- <-]. split; [by eapply same_recoverable|done]. }
  apply st_bind_inv in Hk as (r1 & w1 & H1%(still_run _ _ _ _ (still_asks _)) & Hk).
  destruct r1; [by eapply Hstop; [|exact Hk]|].
  apply st_bind_inv in Hk as (r2 & w2 & H2%(still_run _ _ _ _ (still_binary_only x req)) & Hk).
  assert (Hs2 : same_as w w2) by by eapply same_trans. destruct r2; [by eapply Hstop; [|exact Hk]|].
  apply st_bind_inv in Hk as (r3 & w3 & H3%(still_run _ _ _ _ Hprep) & Hk).
  assert (Hs3 : same_as w w3) by by eapply same_trans. destruct r3; [by eapply Hstop; [|exact Hk]|].
  apply st_bind_inv in Hk as (id & w4 & H4%(still_run _ _ _ _ (still_newTransactionID x)) & Hk).
  assert (Hs4 : same_as w w4) by by eapply same_trans.
  apply st_bind_inv in Hk as (mk & w5 & Hm & Hk). pose proof (still_run _ _ _ _ (still_marker e id) Hm) as H5.
  assert (Hs5 : same_as w w5) by by eapply same_trans. destruct mk as [marker|err]; [|by eapply Hstop; [|exact Hk]].
  destruct (buildJournal _ _ _ _ _) as [j|err] eqn:Hj; [|by eapply Hstop; [|exact Hk]].
  eapply (run_install_safe e x T0 Heff Haft); [by eapply same_recoverable| |exact Hdesc| |exact Hk].
  - by destruct Hs5 as (_ & _ & ->).
  - apply marker_text in Hm as [Hid Hmk]; [|done]. eapply built_journal; [exact Hj|by eapply built_clean].
Qed.

Lemma resultFromJournal_rest e x w r w' : resultFromJournal e x w = (r, w') -> same_rest w w'.
Proof.
  unfold resultFromJournal. intros (w1 & w1' & [= <- <-] & Hk)%st_bind_inv.
  apply st_bind_inv in Hk as (ld & w2 & Hl & Hk).
  assert (H2 : same_rest w w2).
  { destruct (String.eqb _ _); [|by injection Hl as _ <-].
    apply st_bind_inv in Hl as (rj & w3 & (_ & Hf & Ht)%(still_run _ _ _ _ (still_load e)) & Hl).
    destruct rj as [j|err]; [|by injection Hl as _ <-].
    apply st_bind_inv in Hl as ([] & w4 & [= <-] & [= _ <-]). done. }
  assert (H3 : same_as w2 w'); [|destruct H2, H3 as (_ & ? & ?); split; congruence].
  eapply still_run; [|exact Hk]. destruct ld; [apply still_ret|].
  apply still_bind; [|intros; apply still_bind; [apply still_get|intros; apply still_ret]].
  case_match; [|apply still_ret]. apply still_bind; [apply still_asks|intros; apply still_ret].
Qed.

Lemma ApplyLocked_safe e x req w r w' :
  let T0 := tok w in
  text_env e -> recoverable T0 w -> sound_tx T0 x -> described x T0 (preparedArtifacts x req) -> text_inputs x req ->
  ApplyLocked e x req w = (r, w') ->
  recoverable T0 w' /\ (forall res, r = Ok res -> exists j, at_rest w' j /\
     Phase j = InstallPhaseComplete /\ RecoveryAuthority j = InstallAuthorityTarget /\ all_done j
     /\ decided T0 (core_of j) (tok w')).
Proof.
  intros T0 He Hrec Hx Hdesc Hclean. unfold ApplyLocked. intros (err & w1 & Hi & Hk)%st_bind_inv.
  apply install_steps_safe in Hi as [Hrec1 Hok]; [|done..].
  destruct err as [err|]; [by injection Hk as <- <-|]. destruct (Hok eq_refl) as [Hs [Hp Ha]].
  apply resultFromJournal_rest in Hk. split; [by eapply rest_recoverable|].
  intros res _. destruct Hk as [Hfile Ht]. exists (journal w1). rewrite Ht. split.
  { destruct (sy_disk _ _ _ Hs) as (f & Hf & Hd). exists f. by rewrite Hfile. }
  split; [exact Hp|]. split; [exact Ha|]. destruct (sy_good _ _ _ Hs) as [[Hsrc _]|[_ Hdec]].
  - simpl in *. by rewrite Ha in Hsrc.
  - split; [by eapply decided_all_done|done].
Qed.

(** *** The foreground bootstrap *)

Record sound_bootstrap (T0 : gmap string string) (b : ForegroundBootstrap) : Prop := {
  sb_effects : tx_Effects (ready b) = true;
  sb_after : forall after, AfterDataCommitted (ready b) = Some after -> quiet T0 0 after;
  sb_initialize : forall id, still (InitializeJournal b id);
  sb_prepare : forall prepare id, PrepareJournal b = Some prepare -> still (prepare id);
  sb_data : data_described T0 (tx_Publisher (ready b));
  sb_create : tx_Publisher (ready b) = None ->
    brings (action_of JournalActionDataPublish JournalRoleData "absent" "created") (acts (CreateData b));
  sb_action : a_DataAction (preparedArtifacts (ready b) (mkRequest InstallOperationInstall (layout_mode (Transaction b)))) = InstallDataCreate;
  sb_clean : text_inputs (bound b) (mkRequest InstallOperationInstall (layout_mode (Transaction b)))
             /\ text_inputs (ready b) (mkRequest InstallOperationInstall (layout_mode (Transaction b)))
}.

Lemma save_new_safe e T0 x req id marker w r w' :
  is_ascii id = true -> forallb ValidString (object_strings marker) = true ->
  recoverable T0 w -> tok w = T0 -> text_inputs x req -> save_new_journal e x req id marker w = (r, w') ->
  recoverable T0 w' /\ tok w' = T0
  /\ (r = None -> synced T0 0 w' /\ on (running T0 [] (a_DataAction (preparedArtifacts x req))) w').
Proof.
  intros Hid Hmk Hrec Ht Hc. unfold save_new_journal. destruct (buildJournal _ _ _ _ _) as [j|err] eqn:Hj;
    [|by intros [= <- <-]].
  pose proof (built_journal _ _ _ _ _ _ Hj (built_clean _ _ _ _ _ Hc Hid Hmk Hj)) as Hn.
  intros ([dur err] & w1 & Hsv & Hk)%st_bind_inv.
  eapply (begin_safe e T0) in Hsv as (Hrec1 & Ht1 & Hok); [|done|done|exact Hn].
  destruct err as [err|]; [by injection Hk as <- <-|]. destruct (Hok eq_refl) as [Hdur Hd]. rewrite Hdur in Hk.
  apply st_bind_inv in Hk as ([] & w2 & [= <-] & [= <- <-]).
  destruct (begun T0 _ j (mkWorld (disk w1) (ext w1) j (recoveringSource w1) (DataLease w1) (validation w1) (validationReady w1)) Hn Ht1 eq_refl Hd).
  split; [by destruct Hrec1; split|done].
Qed.

(** The second save, if there is one. *)
Lemma prepare_safe e T0 b id marker w r w' :
  let request := mkRequest InstallOperationInstall (layout_mode (Transaction b)) in
  sound_bootstrap T0 b -> is_ascii id = true -> forallb ValidString (object_strings marker) = true ->
  recoverable T0 w -> tok w = T0 ->
  (PrepareJournal b = None ->
     synced T0 0 w /\ on (running T0 [] (a_DataAction (preparedArtifacts (bound b) request))) w) ->
  (match PrepareJournal b with
   | Some prepare => then! prepare id in save_new_journal e (rebound b) request id marker
   | None => st_ret None
   end) w = (r, w') ->
  recoverable T0 w' /\ (r = None -> synced T0 0 w' /\ on (running T0 [] InstallDataCreate) w').
Proof.
  intros request Hb Hid Hmk Hrec Ht Hnone Hk. pose proof (sb_action _ _ Hb) as Hda. unfold ready in Hda.
  pose proof (sb_prepare _ _ Hb) as Hst. pose proof (proj2 (sb_clean _ _ Hb)) as Hcl. unfold ready in Hcl.
  destruct (PrepareJournal b) as [prepare|].
  - apply st_bind_inv in Hk as (r1 & w1 & H1%(still_run _ _ _ _ (Hst prepare id eq_refl)) & Hk).
    assert (Hr1 : recoverable T0 w1) by by eapply same_recoverable.
    destruct r1; [by injection Hk as <- <-|].
    apply (save_new_safe e T0) in Hk as (Hr & _ & Hok); [|done|done|done|by destruct H1 as (_ & _ & ->)|done].
    rewrite <- Hda. done.
  - injection Hk as <- <-. split; [done|]. intros _. rewrite <- Hda. by apply Hnone.
Qed.

Lemma bootstrap_publish_safe e T0 b :
  sound_bootstrap T0 b ->
  safe T0 0 (running T0 [] InstallDataCreate) activated_core
    (then! (match tx_Publisher (ready b) with
           | Some (parts, hash) => PublishDataLocked e (ready b) parts hash
           | None => step e (action_of JournalActionDataPublish JournalRoleData "absent" "created") (acts (CreateData b))
           end) in
     then! after_data (ready b) in
     then! setPhase e InstallPhaseDefinitionCommitted in
     then! runValidation e (ready b) in
     activate e (ready b)).
Proof.
  intros Hb. set (U := data_slots (tx_Publisher (ready b))).
  apply safe_then with (running T0 U InstallDataCreate).
  { pose proof (sb_data _ _ Hb) as Hd. pose proof (sb_create _ _ Hb) as Hcr. subst U.
    destruct (tx_Publisher (ready b)) as [[parts hash]|].
    - apply PublishDataLocked_safe; [apply Hb|apply Hb|done|done].
    - apply (forward_step e T0 [] InstallDataCreate); [by apply data_startable|by apply Hcr]. }
  apply safe_then with (running T0 U InstallDataCreate); [apply quiet_after; [apply Hb|apply running_lasting]|].
  apply safe_then with (running T0 U InstallDataCreate); [by apply setPhase_running|].
  apply safe_then with (running T0 U InstallDataCreate); [apply quiet_runValidation, running_lasting|]. apply activate_activates.
Qed.

Lemma bootstrap_steps_safe e b w r w' :
  let T0 := tok w in
  text_env e -> recoverable T0 w -> sound_bootstrap T0 b -> bootstrap_steps e b w = (r, w') ->
  recoverable T0 w' /\ (r = None -> synced T0 0 w' /\ on activated_core w').
Proof.
  intros T0 He Hrec Hb Hk. unfold bootstrap_steps in Hk.
  assert (Hstop : forall v err, recoverable T0 v -> (Some err, v) = (r, w') ->
    recoverable T0 w' /\ (r = None -> synced T0 0 w' /\ on activated_core w')).
  { intros v err Hs [= <- <-]. done. }
  apply st_bind_inv in Hk as (src & w1 & H1%(still_run _ _ _ _ (still_asks _)) & Hk).
  assert (Hr1 : recoverable T0 w1) by by eapply same_recoverable.
  destruct src as [[]|err]; [by eapply Hstop; [|exact Hk]| |by eapply Hstop; [|exact Hk]].
  apply st_bind_inv in Hk as (id & w2 & H2%(still_run _ _ _ _ (still_newTransactionID _)) & Hk). cbv zeta in Hk.
  assert (Hs2 : same_as w w2) by by eapply same_trans.
  apply st_bind_inv in Hk as (r3 & w3 & H3%(still_run _ _ _ _ (sb_initialize _ _ Hb id)) & Hk).
  assert (Hs3 : same_as w w3) by by eapply same_trans. assert (Hr3 : recoverable T0 w3) by by eapply same_recoverable.
  destruct r3; [by eapply Hstop; [|exact Hk]|].
  apply st_bind_inv in Hk as (mk & w4 & Hm & Hk). pose proof (still_run _ _ _ _ (still_marker e id) Hm) as H4.
  assert (Hs4 : same_as w w4) by by eapply same_trans. assert (Hr4 : recoverable T0 w4) by by eapply same_recoverable.
  destruct mk as [marker|err]; [|by eapply Hstop; [|exact Hk]]. apply marker_text in Hm as [Hid Hmk]; [|done].
  apply st_bind_inv in Hk as (r5 & w5 & H5 & Hk).
  apply (save_new_safe e T0) in H5 as (Hr5 & Ht5 & Hok5);
    [|done|done|done|by destruct Hs4 as (_ & _ & ->)|apply (sb_clean _ _ Hb)].
  destruct r5; [by eapply Hstop; [|exact Hk]|]. apply st_bind_inv in Hk as (r6 & w6 & H6 & Hk).
  apply (prepare_safe e T0 b) in H6 as [Hr6 Hok6]; [|done|done|done|done|done|by intros _; apply Hok5].
  destruct r6; [by eapply Hstop; [|exact Hk]|]. destruct (Hok6 eq_refl) as [Hs6 Hrun].
  by eapply bootstrap_publish_safe.
Qed.

(** A journal is on disk that a process can load, is not pending and gives the
    authority to the target, and what it records of data, binaries and channel is
    in place. *)
Definition entered_beside (T0 : gmap string string) w : Prop :=
  exists j, at_rest w j /\ CheckDaemonInstallJournal j = None /\ RecoveryAuthority j = InstallAuthorityTarget
    /\ decided T0 (core_of j) (tok w).

(** Leaving the bootstrap without the daemon, or with it. *)
Lemma not_run T0 (b : ForegroundBootstrap (E := E)) err w (r : entered) w' :
  recoverable T0 w ->
  (let! n := on_disk next_tick in
   st_ret (NotRun (match release b n with Some err' => EJoin err err' | None => err end))) w = (r, w') ->
  recoverable T0 w' /\ forall phase, r = Run phase -> entered_beside T0 w'.
Proof.
  intros Hrec (n & w1 & H1%(still_run _ _ _ _ still_next) & [= <- <-])%st_bind_inv.
  split; [by eapply same_recoverable|done].
Qed.

Lemma run_beside T0 (b : ForegroundBootstrap (E := E)) phase w (r : entered) w' :
  recoverable T0 w ->
  (exists j, at_rest w j /\ CheckDaemonInstallJournal j = None /\ RecoveryAuthority j = InstallAuthorityTarget) ->
  (let! n := on_disk next_tick in
   st_ret (match release b n with Some err => NotRun err | None => Run phase end)) w = (r, w') ->
  recoverable T0 w' /\ forall phase, r = Run phase -> entered_beside T0 w'.
Proof.
  intros Hrec (j & Hj & Hc & Ha) (n & w1 & H1%(still_run _ _ _ _ still_next) & [= _ <-])%st_bind_inv.
  assert (Hrec1 : recoverable T0 w1) by by eapply same_recoverable. split; [done|]. intros _ _.
  assert (Hj1 : at_rest w1 j) by by eapply at_rest_same. exists j. split_and!; [done|done|done|].
  destruct (rc_good _ _ Hrec1 j Hj1) as [[Hs _]|[_ Hd]]; [|done]. simpl in Hs. by rewrite Ha in Hs.
Qed.

Lemma activated_journal_ok x j :
  activated x j = None -> CheckDaemonInstallJournal j = None /\ RecoveryAuthority j = InstallAuthorityTarget.
Proof.
  unfold activated, CheckDaemonInstallJournal. destruct (InstallPending j); [done|].
  destruct (String.eqb_spec (RecoveryAuthority j) InstallAuthorityTarget); simpl; [done|]. done.
Qed.

(** ** The theorems *)

(** C2. An installation is all or nothing.  [ApplyLocked] starts from a state
    whose journal, if there is one, is settled, with artifacts that describe
    what is there; it may fail or die at any point, and so may any number of
    recoveries after it, each in a new process.  Once a recovery returns without
    an error, either every slot (data, binaries, release channel) holds again
    exactly what it held before the installation, or a complete journal is on disk
    that gives the authority to the target, and every action it records, of
    whatever kind, is done: definition, service, validation and activation too.
    The slots hold what their actions brought, and those that no action is about
    hold what they did.  When the installation itself reports success, the latter
    is the case at once. *)
Theorem installation_all_or_nothing e x req w r w1 :
  let T0 := tok w in
  text_env e -> recoverable T0 w -> sound_tx T0 x -> described x T0 (preparedArtifacts x req) -> text_inputs x req ->
  ApplyLocked e x req w = (r, w1) ->
  (forall res, r = Ok res -> exists j, at_rest w1 j /\
     Phase j = InstallPhaseComplete /\ RecoveryAuthority j = InstallAuthorityTarget /\ all_done j
     /\ decided T0 (core_of j) (tok w1))
  /\ (forall w2 w2' e' x' w3,
        attempts T0 w1 w2 -> same_rest w2 w2' -> sound_tx T0 x' -> RecoverLocked e' x' w2' = (None, w3) ->
        settled T0 w3).
Proof.
  intros T0 He Hrec Hx Hdesc Hclean Hap. apply ApplyLocked_safe in Hap as [Hrec1 Hok]; [|done..].
  split; [done|]. intros w2 w2' e' x' w3 Hat Hsame [Hf Hpa Hb _ _] Hr.
  apply attempts_recoverable in Hat; [|done]. eapply (recover_safe e' x' T0 Hf Hpa Hb) in Hr as [_ Hset]; [by apply Hset|].
  by eapply rest_recoverable.
Qed.


End Whole.

(** ** An installation that fails, and its recovery

    The data directory is published; then replacing the managed binary takes
    effect but reports an error.  The recovery takes both back. *)

Section Example.
#[local] Instance ex_sha : Sha256 := toy_hash.
#[local] Instance ex_unicode : Unicode := {| unicode_ToLower s := s |}.
#[local] Instance ex_tree : JSONTree := {| json_tree _ := Some (JObject []) |}.

Definition ex_failing (a : JournalAction) : bool := String.eqb (Kind a) JournalActionManagedBinary.

#[local] Instance ex_outside : Outside (gmap string string) := {|
  eff_Observe _ _ a o :=
    if slotted a then match o !! slot a with Some t => Ok t | None => Err unknownInstallState end
    else Ok (OldState a);
  eff_Apply _ _ a o :=
    if slotted a then (if ex_failing a then Some (EText "io") else None, <[slot a := NewState a]> o) else (None, o);
  SourcePresent _ := true;
  files_Observe _ _ _ := Ok "absent";
  files_Apply _ _ o := (None, o);
  ObserveAction _ _ _ := Ok "absent";
  ReplayAction _ _ o := (None, o);
  hooked_apply _ _ o := (None, o);
  InspectDefinition _ _ := Ok no_definition;
  DisableAutostartAndStop _ _ := Return None;
  WaitOwnedTreeExit _ _ := None;
  WaitRecordedTreeExit _ _ := None;
  WriteDefinition _ _ _ := Return None;
  RestoreDefinition _ _ _ := Return None;
  Start _ _ := Return None;
  BindStopAuthority _ _ o := o;
  Validate _ _ := None;
  Release _ o := (None, o);
  recheckAndPublish _ o := (None, o);
  NewPipe _ := true;
  validation_nonce _ := Ok "nonce";
  Validation_Start _ _ := Ok (mkStart 7 "boot" 100 0);
  WaitReady _ _ := (Some (mkEntry "ready" (8, 120)%N), None);
  pipe_written _ := None;
  Validation_Stop _ _ := None;
  ReapValidation _ _ _ := None
|}.

#[local] Program Instance ex_slots : Slots (gmap string string) := {| tokens o := o |}.
Next Obligation. intros n v a o t Ha Ho. cbn in Ho. rewrite Ha in Ho. destruct (o !! slot a); congruence. Qed.
Next Obligation. intros n v a o err o' Ha Ho. cbn in Ho. rewrite Ha in Ho. injection Ho as _ <-. by left. Qed.
Next Obligation. intros n v a o err o' Ha Ho. cbn in Ho. rewrite Ha in Ho. by injection Ho as _ <-. Qed.
Next Obligation. intros n def o err o' Ho. cbn in Ho. destruct_or! Ho; by injection Ho as _ <-. Qed.
Next Obligation. intros n o err o' Ho. cbn in Ho. destruct_or! Ho; by injection Ho as _ <-. Qed.
Next Obligation. done. Qed.
Next Obligation. intros n p def o t Ho. cbn in Ho. destruct_or! Ho; by injection Ho as <-. Qed.
Next Obligation. intros. constructor. Qed.
Next Obligation. intros. constructor. Qed.
Next Obligation. intros. constructor. Qed.
Next Obligation. intros. constructor. Qed.

Definition ex_id : string := "00112233445566778899aabbccddeeff".
Definition ex_jenv : jenv := mkJenv (fun _ => FOk) (fun _ => (8, 119)%N) "8:1@42" "boot".
Definition ex_marker : JournalObject := mkJournalObject true (sha256Hex ex_id) "8" "77" "42" "boot" ex_id "8:77".
Definition ex_art : InstallArtifacts :=
  mkArtifacts InstallDataCreate "" "" "" "" "" "" "" "" false false false false "" "" "data" "old" "newer" "" "" "" ""
    "" "unit" "".
Definition ex_authority : installPreparedAuthority :=
  mkAuthority no_object no_object no_object
    (mkServiceBackup ("transactions/" ++ ex_id ++ "/unit") (sha256Hex "backup") "8:3003") no_definition no_definition.
Definition ex_tx : InstallTransaction (gmap string string) :=
  mkTx false false false true false true None ex_art false false (Some ex_authority) None None None None (st_ret None) no_start 1
    (Some ex_id) (fun _ => "").
Definition ex_req : InstallRequest := mkRequest InstallOperationInstall InstallLayoutSystem.
Definition ex_tokens : gmap string string :=
  {[ "data/" := "absent"; JournalRoleManagedBinary := fileHash "old"; JournalRolePathBinary := "absent";
     JournalRoleChannel := "absent" ]}.

(** Every journal of the three runs. *)
Definition ex_built : InstallJournal :=
  match buildJournal ex_tx ex_req ex_id ex_marker (preparedArtifacts ex_tx ex_req) with
  | Ok j => j
  | Err _ => mkJournal "" "" "" "" "" "" "" "" "" "" "" "" no_object no_object no_object no_object no_object "" "" ""
               (mkServiceBackup "" "" "") false false "" 0 no_object []
  end.
Definition ex_intent (a : JournalAction) (j : InstallJournal) : InstallJournal := push j (intent_of j a).
Definition ex_done (a : JournalAction) (j : InstallJournal) : InstallJournal := push j (done_of j a).
Definition ex_data : JournalAction := action_of JournalActionDataPublish JournalRoleData "absent" (fileHash "data").
Definition ex_managed : JournalAction :=
  action_of JournalActionManagedBinary JournalRoleManagedBinary (fileHash "old") (fileHash "newer").
Definition ex_unmanaged : JournalAction := reverse_action ex_managed (fileHash "newer") (fileHash "old").
Definition ex_isolate : JournalAction := reverse_action ex_data (fileHash "data") "absent".
Definition ex_reload : JournalAction :=
  action_of JournalActionRestoreReload JournalRoleDefinition (reloadToken 0) (reloadToken 1).
Definition ex_created : JournalAction := action_of JournalActionDataPublish JournalRoleData "absent" "created".
Definition ex_start : JournalAction :=
  mkAction 0 JournalActionValidationStart JournalRoleValidation "idle" "" "running" (sha256HexBytes "nonce") "".
Definition ex_stop : JournalAction := action_of JournalActionValidationStop JournalRoleValidation "running" "idle".
Definition ex_journals : list InstallJournal :=
  let j1 := set_Phase InstallPhaseStopped ex_built in
  let j3 := ex_done ex_data j1 in
  let j4 := set_Phase InstallPhaseDataCommitted j3 in
  let j5 := ex_intent ex_managed j4 in
  let j7 := ex_done ex_unmanaged j5 in
  let j9 := ex_done ex_isolate j7 in
  let j11 := ex_done ex_reload j9 in
  let k2 := ex_done ex_created ex_built in
  let k3 := set_Phase InstallPhaseDefinitionCommitted k2 in
  let k5 := ex_done ex_start k3 in
  let k7 := ex_done ex_stop k5 in
  let k8 := ex_intent activation k7 in
  [ex_built; j1; ex_intent ex_data j1; j3; j4; j5; ex_intent ex_unmanaged j5; j7; ex_intent ex_isolate j7; j9;
   ex_intent ex_reload j9; j11; set_Phase InstallPhaseComplete j11;
   ex_intent ex_created ex_built; k2; k3; ex_intent ex_start k3; k5; ex_intent ex_stop k5; k7; k8;
   activated_journal k8; activated_journal (ex_done activation k7)].

(** A codec for them: the text is the position. *)
Fixpoint position (j : InstallJournal) (i : Z) (l : list InstallJournal) : option Z :=
  match l with
  | [] => None
  | j' :: l => if decide (j = j') then Some i else position j (i + 1) l
  end.
Fixpoint at_position (i n : Z) (l : list InstallJournal) : option InstallJournal :=
  match l with
  | [] => None
  | j :: l => if n =? i then Some j else at_position (i + 1) n l
  end.

#[local] Instance ex_json : JournalJSON := {|
  json_Marshal_journal j := Itoa <$> position j 0 ex_journals;
  json_Unmarshal_journal raw := match Atoi raw with Some n => at_position 0 n ex_journals | None => None end
|}.
#[local] Instance ex_validation : ValidationJSON := {|
  json_Marshal_launch _ := Some "launch";
  json_Unmarshal_launch _ := None;
  json_Unmarshal_ready _ :=
    Some (mkReady ex_id (mkStart 7 "boot" 100 0) (CandidateHash ex_built) (layoutIdentityOf ex_built) ValidationOK false)
|}.

Lemma position_at j i l n : position j i l = Some n -> i <= n < i + Z.of_nat (length l) /\ at_position i n l = Some j.
Proof.
  revert i. induction l as [|j' l IH]; intros i; cbn [position at_position length]; [done|]. case_decide as Hj.
  - intros [= <-]. rewrite Z.eqb_refl. split; [lia|by subst].
  - intros Hn. destruct (IH _ Hn) as [Hb Hat]. destruct (Z.eqb_spec n i); [lia|]. split; [lia|done].
Qed.

Lemma at_position_In i n l j : at_position i n l = Some j -> j ∈ l.
Proof.
  revert i. induction l as [|j' l IH]; intros i; cbn [at_position]; [done|]. rewrite elem_of_cons.
  destruct (n =? i); [intros [= ->]; by left|]. intros Hat. right. by eapply IH.
Qed.

Lemma ex_journals_clean : forallb clean ex_journals = true.
Proof. vm_compute. reflexivity. Qed.

#[local] Program Instance ex_codec : JournalCodec.
Next Obligation.
  intros j raw _ Hm. change (Itoa <$> position j 0 ex_journals = Some raw) in Hm.
  change (match Atoi raw with Some n => at_position 0 n ex_journals | None => None end = Some j).
  destruct (position j 0 ex_journals) as [n|] eqn:Hp; [|done].
  injection Hm as <-. apply position_at in Hp as [Hb Hat]. change (length ex_journals) with 23%nat in Hb.
  by rewrite Atoi_Itoa_nonneg by (unfold two63; lia).
Qed.
Next Obligation.
  intros j raw _ Hm. change (Itoa <$> position j 0 ex_journals = Some raw) in Hm.
  destruct (position j 0 ex_journals) as [n|]; [|done]. injection Hm as <-.
  split; [apply is_ascii_valid, Itoa_ascii|]. exists (JObject []). split; [done|]. by exists [].
Qed.
Next Obligation.
  intros raw j Hu. change (match Atoi raw with Some n => at_position 0 n ex_journals | None => None end = Some j) in Hu.
  destruct (Atoi raw); [|done]. apply at_position_In in Hu.
  pose proof ex_journals_clean as Hc. rewrite forallb_forall in Hc. apply Hc. by apply list_elem_of_In.
Qed.

Definition ex_world : world (gmap string string) :=
  mkWorld (mkDisk 0 ∅) ex_tokens ex_built false false None None.

(** The run that fails, and the recovery by a new process. *)
Definition ex_failed : world (gmap string string) := snd (ApplyLocked ex_jenv ex_tx ex_req ex_world).
Definition ex_recovered : world (gmap string string) := snd (RecoverLocked ex_jenv ex_tx ex_failed).

Lemma ex_fails : is_Ok (fst (ApplyLocked ex_jenv ex_tx ex_req ex_world)) = false
  /\ ext ex_failed !! JournalRoleManagedBinary = Some (fileHash "newer") /\ ext ex_failed !! "data/" = Some (fileHash "data").
Proof. vm_compute. done. Qed.

Lemma ex_recovers : fst (RecoverLocked ex_jenv ex_tx ex_failed) = None.
Proof. vm_compute. reflexivity. Qed.

Lemma ex_text : text_env ex_jenv.
Proof. split; vm_compute; reflexivity. Qed.

Lemma ex_starts_settled : recoverable (tok ex_world) ex_world.
Proof. split; [done|]. intros j (f & Hf & _). discriminate Hf. Qed.

Lemma ex_sound : sound_tx (tok ex_world) ex_tx.
Proof. split; [done|by eexists|done|done|]. apply still_ret. Qed.

Lemma ex_described : described ex_tx (tok ex_world) (preparedArtifacts ex_tx ex_req).
Proof. split; [vm_compute; reflexivity..|]. intros _. vm_compute. reflexivity. Qed.

Lemma ex_inputs : text_inputs ex_tx ex_req.
Proof. vm_compute. reflexivity. Qed.

Lemma ex_back : tok ex_recovered = ex_tokens
  /\ match jfiles (disk ex_recovered) !! installJournalFileName with
     | Some f => match DecodeJournal (content f) with Ok j => Phase j = InstallPhaseComplete | Err _ => False end
     | None => False
     end.
Proof. vm_compute. split; reflexivity. Qed.

(** Both files are in their new state when the installation fails, and the
    recovery is settled. *)
Lemma installation_all_or_nothing_witness :
  is_Ok (fst (ApplyLocked ex_jenv ex_tx ex_req ex_world)) = false /\ settled (tok ex_world) ex_recovered.
Proof.
  split; [apply ex_fails|].
  destruct (installation_all_or_nothing ex_jenv ex_tx ex_req ex_world (fst (ApplyLocked ex_jenv ex_tx ex_req ex_world)) ex_failed
              ex_text ex_starts_settled ex_sound ex_described ex_inputs) as [_ Hrec]; [apply surjective_pairing|].
  apply (Hrec ex_failed ex_failed ex_jenv ex_tx ex_recovered); [apply no_attempt|by split|apply ex_sound|].
  rewrite <- ex_recovers. apply surjective_pairing.
Defined.

(** A first start as a root instance: the daemon runs beside the activated
    journal. *)
Definition ex_ready : InstallTransaction (gmap string string) :=
  mkTx false false false true false true None ex_art false false None None None None None (st_ret None)
    (mkStart 5 "boot" 90 0) 1 (Some ex_id) (fun _ => "").
Definition ex_boot : ForegroundBootstrap :=
  mkBootstrap true ex_ready ex_ready ex_ready (fun _ _ => Ok false) (fun _ o => (None, <["data/" := "created"]> o))
    (fun _ => st_ret None) (Some (fun _ => st_ret None)) (fun _ => None).
Definition ex_booted : world (gmap string string) := snd (Bootstrap_Start ex_jenv ex_boot ex_world).

Lemma ex_runs : fst (Bootstrap_Start ex_jenv ex_boot ex_world) = Run InstallPhaseActivationCommitted.
Proof. vm_compute. reflexivity. Qed.

Lemma ex_boot_sound : sound_bootstrap (tok ex_world) ex_boot.
Proof.
  split; [done|done|intros; apply still_ret|intros prepare id [= <-]; apply still_ret|vm_compute; reflexivity| |done|].
  - intros _ w r w' (n & w1 & H1%(still_run _ _ _ _ still_next) & [= <- <-])%st_bind_inv.
    destruct H1 as (Hj & Hf & Ht). split_and!; [done|done|]. left. by rewrite <- Ht.
  - split; vm_compute; reflexivity.
Qed.


Lemma ex_boots : fst (bootstrap_steps ex_jenv ex_boot ex_world) = None.
Proof. vm_compute. reflexivity. Qed.

Lemma ex_apart : journal_apart ex_boot ex_world.
Proof. split; [done|intros; apply preserves_ret|]. intros prepare id [= <-]. apply preserves_ret. Qed.


End Example.
