(* ===== verification/TunDetect.v ===== *)
(** * TunDetect: other TUN adapters and other cores

    Models [internal/tundetect]: what the listings of Linux, macOS and Windows say
    about adapters and processes, and the subtraction of the daemon's own.  What
    the system lists is an argument; reading it is input and output.  Paths are
    those of Unix. *)

From Stdlib Require Import Ascii.
From S2P Require Import Prelude GoStd WebStatic.

(** ** Data (tundetect.go) *)

Record Process := mkProcess {
  p_Name : string;
  p_PID : Z;
  p_ParentPID : Z;
  p_Path : string
}.

Record Self := mkSelf {
  TunActive : bool;
  TunName : string;
  CorePID : Z;
  OccupantPID : Z;
  DaemonPID : Z;
  BinaryPath : string
}.

Record Detection := mkDetection {
  TunInterfaces : list string;
  MihomoProcesses : list Process
}.

Record TunConflict := mkConflict {
  OtherTunInterfaces : list string;
  OtherMihomoProcesses : list string
}.

(** ** Classification (classify.go) *)

(** [filepath.Clean]: the segments that are left, last first. *)
Fixpoint clean_segments (rooted : bool) (done : list string) (l : list string) : list string :=
  match l with
  | [] => done
  | s :: l =>
      if String.eqb s "" || String.eqb s "." then clean_segments rooted done l
      else if String.eqb s ".." then
        match done with
        | [] => clean_segments rooted (if rooted then [] else [".."%string]) l
        | top :: rest => clean_segments rooted (if String.eqb top ".." then ".."%string :: done else rest) l
        end
      else clean_segments rooted (s :: done) l
  end.

Definition filepath_Clean (path : string) : string :=
  let rooted := HasPrefix path "/" in
  let body := Join "/" (rev (clean_segments rooted [] (Split slash path))) in
  if rooted then "/" ++ body else if String.eqb body "" then "." else body.

Section Classify.
Context `{Unicode}.

Definition binaryPathMatch (listed want : string) : bool :=
  let listed := TrimSpace listed in
  let want := TrimSpace want in
  if String.eqb listed "" || String.eqb want "" then false
  else String.eqb (filepath_Clean listed) (filepath_Clean want).

(** The cases of [isSelfProcess] in their order. *)
Definition isSelfProcess (p : Process) (self : Self) : bool :=
  if p_PID p <=? 0 then false
  else if negb (OccupantPID self =? 0) && (p_PID p =? OccupantPID self) then true
  else if negb (DaemonPID self =? 0) && negb (p_ParentPID p =? 0) && (p_ParentPID p =? DaemonPID self) then true
  else if binaryPathMatch (p_Path p) (BinaryPath self) then true
  else if (CorePID self =? 0) || negb (p_PID p =? CorePID self) then false
  else if negb (OccupantPID self =? 0) && negb (p_PID p =? OccupantPID self) then false
  else if negb (DaemonPID self =? 0) && negb (p_ParentPID p =? 0) && negb (p_ParentPID p =? DaemonPID self) then false
  else if negb (String.eqb (BinaryPath self) "") && negb (String.eqb (p_Path p) "")
          && negb (binaryPathMatch (p_Path p) (BinaryPath self))
  then false
  else true.

Definition formatProcess (p : Process) : string := p_Name p ++ " (" ++ Itoa (p_PID p) ++ ")".

Definition formatOtherProcesses (procs : list Process) (self : Self) : list string :=
  map formatProcess (List.filter (fun p => negb (isSelfProcess p self)) procs).

Definition adapterNameMatch (listed tunName : string) : bool :=
  let listed := TrimSpace listed in
  let tunName := TrimSpace tunName in
  if String.eqb tunName "" then false
  else
    let l := ToLower listed in
    let n := ToLower tunName in
    if String.eqb l n then true
    else if HasPrefix l (n ++ " (") && HasSuffix l ")" then true
    else HasSuffix l (" (" ++ n ++ ")").

(** The list without the first adapter of that name. *)
Fixpoint drop_adapter (name : string) (l : list string) : list string :=
  match l with
  | [] => []
  | x :: l => if adapterNameMatch x name then l else x :: drop_adapter name l
  end.

Definition subtractSelfTun (ifaces : list string) (self : Self) : list string :=
  if negb (TunActive self) then ifaces
  else match ifaces with
       | [] => []
       | _ :: rest => if String.eqb (TunName self) "" then rest else drop_adapter (TunName self) ifaces
       end.

Definition Classify (d : Detection) (self : Self) : option TunConflict :=
  let otherTun := subtractSelfTun (TunInterfaces d) self in
  let otherMihomo := formatOtherProcesses (MihomoProcesses d) self in
  match otherTun, otherMihomo with
  | [], [] => None
  | _, _ => Some (mkConflict otherTun otherMihomo)
  end.

(** ** Adapters of Windows (windows_names.go) *)

Record windowsTunCandidate := mkWindowsCandidate {
  wc_desc : string;
  wc_friendly : string;
  wc_operStatus : Z
}.

Definition ifOperStatusUp : Z := 1.
Definition isWindowsTunUp (operStatus : Z) : bool := operStatus =? ifOperStatusUp.

Definition isWindowsTunAdapter (desc friendly : string) : bool :=
  let haystack := ToLower (desc ++ " " ++ friendly) in
  if existsb (Contains haystack) ["wintun"; "meta tunnel"; "wireguard"]%string then true
  else
    let name := ToLower (TrimSpace friendly) in
    let name := if String.eqb name "" then ToLower (TrimSpace desc) else name in
    String.eqb name "mihomo" || String.eqb name "meta".

Definition formatAdapterName `{CaseFold} (desc friendly : string) : string :=
  let friendly := TrimSpace friendly in
  let desc := TrimSpace desc in
  if String.eqb friendly "" then desc
  else if String.eqb desc "" || EqualFold friendly desc then friendly
  else friendly ++ " (" ++ desc ++ ")".

Definition collectWindowsTunNames `{CaseFold} (candidates : list windowsTunCandidate) : list string :=
  map (fun c => formatAdapterName (wc_desc c) (wc_friendly c))
    (List.filter (fun c => isWindowsTunUp (wc_operStatus c) && isWindowsTunAdapter (wc_desc c) (wc_friendly c)) candidates).

(** ** Process listings (process_identity.go) *)

(** What follows the last closing parenthesis. *)
Fixpoint after_last (c : Ascii.ascii) (s : string) : option string :=
  match s with
  | EmptyString => None
  | String x s =>
      match after_last c s with
      | Some rest => Some rest
      | None => if Ascii.eqb x c then Some s else None
      end
  end.

Definition parseLinuxStatPPID (stat : string) : option Z :=
  match after_last ")"%char stat with
  | None | Some EmptyString => None
  | Some rest => match Fields rest with _ :: ppid :: _ => Atoi ppid | _ => None end
  end.

Definition blank (c : Ascii.ascii) : bool := Ascii.eqb c " "%char || Ascii.eqb c (chr 9).

(** [strings.TrimLeft] with space and tab. *)
Fixpoint trim_blanks (s : string) : string :=
  match s with String c rest => if blank c then trim_blanks rest else s | EmptyString => s end.

(** The text before the first space or tab, and from there on. *)
Fixpoint cut_blank (s : string) : option (string * string) :=
  match s with
  | EmptyString => None
  | String c rest =>
      if blank c then Some (EmptyString, s)
      else match cut_blank rest with Some (a, b) => Some (String c a, b) | None => None end
  end.

Definition parseDarwinProcessLine (line : string) : option (string * Z * Z) :=
  match cut_blank (trim_blanks line) with
  | None => None
  | Some (first, rest) =>
      match Atoi first with
      | None => None
      | Some pid =>
          match cut_blank (trim_blanks rest) with
          | None => None
          | Some (second, rest) =>
              match Atoi second with
              | None => None
              | Some ppid =>
                  let name := trim_blanks rest in
                  if String.eqb name "" then None else Some (name, pid, ppid)
              end
          end
      end
  end.

(** ** Linux and macOS *)

(** An entry of [/proc] with what its files read as. *)
Record proc_entry := mkProcEntry {
  pe_name : string;
  pe_dir : bool;
  pe_comm : option string;
  pe_stat : option string;
  pe_exe : option string
}.

Definition isAllDigits (s : string) : bool := negb (String.eqb s "") && all_digits s.
Definition trimDeletedProcessPath (path : string) : string := TrimSuffix path " (deleted)".

Definition linuxParentPID (stat : option string) : Z :=
  match stat with Some stat => default 0 (parseLinuxStatPPID stat) | None => 0 end.
Definition linuxProcessPath (exe : option string) : string :=
  match exe with Some path => trimDeletedProcessPath path | None => "" end.

Definition is_mihomo (name : string) : bool := Contains (ToLower name) "mihomo".

Definition linux_process (e : proc_entry) : option Process :=
  if negb (pe_dir e) || negb (isAllDigits (pe_name e)) then None
  else match pe_comm e with
       | None => None
       | Some comm =>
           let name := TrimSpace comm in
           if negb (is_mihomo name) then None
           else match Atoi (pe_name e) with
                | None => None
                | Some pid => Some (mkProcess name pid (linuxParentPID (pe_stat e)) (linuxProcessPath (pe_exe e)))
                end
       end.

Definition enumerateLinuxMihomo (entries : list proc_entry) : list Process := omap linux_process entries.

(** The directories of [/sys/class/net] that have [tun_flags]. *)
Definition enumerateLinuxTun (entries : list (string * bool * bool)) : list string :=
  omap (fun '(name, isDir, flags) => if (isDir && flags : bool) then Some name else None) entries.

Definition enumerateDarwinTun (out : string) : list string := List.filter (fun n => HasPrefix n "utun") (Fields out).

Definition darwinProcessPath (comm : string) : string := if Contains comm "/" then comm else "".

Definition enumerateDarwinMihomo (out : string) : list Process :=
  omap (fun line => match parseDarwinProcessLine line with
                    | Some (name, pid, ppid) =>
                        if is_mihomo name then Some (mkProcess name pid ppid (darwinProcessPath name)) else None
                    | None => None
                    end) (Split LF (TrimSpace out)).

End Classify.

(** ** Lemmas *)

Section Lemmas.
Context `{Unicode}.

Lemma drop_adapter_spec name l :
  drop_adapter name l = l /\ existsb (fun x => adapterNameMatch x name) l = false
  \/ exists l1 x l2, l = l1 ++ x :: l2 /\ drop_adapter name l = l1 ++ l2 /\ adapterNameMatch x name = true
                     /\ existsb (fun x => adapterNameMatch x name) l1 = false.
Proof.
  induction l as [|x l IH]; simpl; [by left|]. destruct (adapterNameMatch x name) eqn:Hx.
  - right. exists [], x, l. done.
  - destruct IH as [[-> Hn]|(l1 & y & l2 & -> & -> & Hy & Hn)]; [by left|right].
    exists (x :: l1), y, l2. simpl. by rewrite Hx.
Qed.

(** *** Linux *)

Lemma after_last_app c a b : after_last c b = None -> after_last c (a ++ String c b) = Some b.
Proof.
  intros Hb. induction a as [|x a IH].
  - change ("" ++ String c b)%string with (String c b). simpl. by rewrite Hb, Ascii.eqb_refl.
  - change (String x a ++ String c b)%string with (String x (a ++ String c b)). simpl. by rewrite IH.
Qed.

Lemma fields_space s : fields_from "" (String " " s) = fields_from "" s.
Proof. reflexivity. Qed.

(** A printable character belongs to the current word. *)
Lemma fields_step a b t cur :
  (33 <=? byte a) && (byte a <=? 126) = true ->
  fields_from cur (String a (String b t)) = fields_from (cur ++ String a "") (String b t).
Proof.
  intros Ha. assert (Hs : space1 (byte a) = false /\ space2 (byte a) (byte b) = false
                          /\ forall c, space3 (byte a) (byte b) c = false).
  { rewrite andb_true_iff, !Z.leb_le in Ha. split_and!; [no_space|no_space|intros c; no_space]. }
  destruct Hs as (H1 & H2 & H3).
  change (fields_from cur (String a (String b t))) with
    (if space1 (byte a) then flush cur (fields_from "" (String b t))
     else if space2 (byte a) (byte b) then flush cur (fields_from "" t)
     else match t with
          | EmptyString => fields_from (cur ++ String a "") (String b t)
          | String c s3 => if space3 (byte a) (byte b) (byte c) then flush cur (fields_from "" s3)
                           else fields_from (cur ++ String a "") (String b t)
          end).
  rewrite H1, H2. destruct t; [done|]. by rewrite H3.
Qed.

(** A word of printable characters ends at the next space. *)
Lemma fields_word w s cur :
  printable w = true -> w <> ""%string -> fields_from cur (w ++ String " " s) = (cur ++ w)%string :: fields_from "" s.
Proof.
  revert cur. induction w as [|a w IH]; intros cur Hw Hne; [done|]. clear Hne.
  change (String a w ++ String " " s)%string with (String a (w ++ String " " s)).
  cbn [printable] in Hw. apply andb_prop in Hw as [Ha Hw]. destruct w as [|b w].
  - change ("" ++ String " " s)%string with (String " " s). rewrite fields_step by done.
    change (flush (cur ++ String a "") (fields_from "" s) = (cur ++ String a "")%string :: fields_from "" s).
    by destruct cur.
  - change (String b w ++ String " " s)%string with (String b (w ++ String " " s)). rewrite fields_step by done.
    change (String b (w ++ String " " s)) with (String b w ++ String " " s)%string. rewrite IH by done.
    by rewrite append_assoc.
Qed.

Lemma all_digits_printable s : all_digits s = true -> printable s = true.
Proof.
  induction s as [|c s IH]; [done|]. cbn [all_digits printable]. intros [Hc Hs]%andb_prop. rewrite (IH Hs), andb_true_r.
  unfold is_digit in Hc. rewrite andb_true_iff, !Z.leb_le in *. lia.
Qed.

Lemma Itoa_word n : 0 <= n -> printable (Itoa n) = true /\ Itoa n <> ""%string.
Proof.
  intros Hn. apply Itoa_canonical, canonical_head in Hn as (c & t & -> & Hc & Ht). split; [|done].
  apply all_digits_printable. cbn [all_digits]. by rewrite Hc.
Qed.

(** *** macOS *)

Lemma trim_blanks_stops c s : blank c = false -> trim_blanks (String c s) = String c s.
Proof. cbn [trim_blanks]. by intros ->. Qed.

Lemma printable_no_blank c : (33 <=? byte c) && (byte c <=? 126) = true -> blank c = false.
Proof.
  intros Hc. unfold blank. apply orb_false_iff. split; apply Ascii.eqb_neq; intros ->; done.
Qed.

Lemma cut_word w s : printable w = true -> cut_blank (w ++ String " " s) = Some (w, String " " s).
Proof.
  induction w as [|c w IH]; [done|]. cbn [printable]. intros [Hc Hw]%andb_prop.
  change (String c w ++ String " " s)%string with (String c (w ++ String " " s)). cbn [cut_blank].
  by rewrite (printable_no_blank _ Hc), (IH Hw).
Qed.

Lemma trim_word w s : printable w = true -> w <> ""%string -> trim_blanks (w ++ s) = (w ++ s)%string.
Proof.
  destruct w as [|c w]; [done|]. cbn [printable]. intros [Hc _]%andb_prop _.
  by apply (trim_blanks_stops c (w ++ s)), printable_no_blank.
Qed.

(** *** Names of adapters *)

Lemma ascii_lead a s : byte a < 128 -> lead_ok (String a s) = negb (space1 (byte a)).
Proof.
  intros Ha. destruct s as [|b [|c s]]; cbn [lead_ok]; [done|..];
    destruct (space1 (byte a)); try done; simpl; rewrite ?andb_true_iff, ?negb_true_iff; split_and?; no_space.
Qed.

Lemma paren_lead_rev s : lead_rev_ok (String ")" s) = true.
Proof.
  destruct s as [|b [|c s]]; [done|..]; cbn [lead_rev_ok]; rewrite ?andb_true_iff, ?negb_true_iff; split_and!;
    try done; apply not_true_is_false; intros Hs; unfold space2, space3 in Hs;
    rewrite ?orb_true_iff, ?andb_true_iff, ?Z.leb_le, ?Z.eqb_eq in Hs; change (byte ")") with 41 in Hs; lia.
Qed.

Lemma trim_left_ascii s : is_ascii s = true -> is_ascii (trim_left s) = true.
Proof.
  remember (String.length s) as n eqn:Hs. revert s Hs. induction (lt_wf n) as [n _ IH]. intros s Hs Hasc.
  destruct s as [|a s1]; [done|]. cbn [is_ascii] in Hasc. apply andb_prop in Hasc as [Ha Hs1].
  destruct (space1 (byte a)) eqn:H1.
  - simpl. rewrite H1. eapply IH; [|done|done]. simpl in Hs. lia.
  - rewrite lead_ok_trim; [cbn [is_ascii]; by rewrite Ha|]. rewrite ascii_lead, H1; [done|lia].
Qed.

Lemma reverse_ascii s : is_ascii (reverse s) = is_ascii s.
Proof.
  unfold reverse. assert (Hacc : forall acc, is_ascii (rev_append s acc) = is_ascii s && is_ascii acc).
  { induction s as [|c s IH]; intros acc; [done|]. cbn [rev_append is_ascii]. rewrite IH. cbn [is_ascii].
    destruct (is_ascii s), (is_ascii acc), (byte c <? 128); done. }
  rewrite Hacc. apply andb_true_r.
Qed.

Lemma TrimSpace_ascii s : is_ascii s = true -> is_ascii (TrimSpace s) = true.
Proof.
  intros Hs. unfold TrimSpace. rewrite reverse_ascii.
  apply trim_left_ascii in Hs. rewrite <- reverse_ascii in Hs. revert Hs. generalize (reverse (trim_left s)). intros t Ht.
  destruct (trim_left_rev_suffix t) as [p Hp]. rewrite Hp, is_ascii_app in Ht. by apply andb_prop in Ht as [_ Ht].
Qed.

Lemma reverse_length s : String.length (reverse s) = String.length s.
Proof.
  unfold reverse. assert (Hl : forall acc, String.length (rev_append s acc) = (String.length s + String.length acc)%nat).
  { induction s as [|c s IH]; intros acc; [done|]. cbn [rev_append]. rewrite IH. simpl. lia. }
  rewrite Hl. simpl. lia.
Qed.

Lemma trim_left_length s : (String.length (trim_left s) <= String.length s)%nat.
Proof.
  remember (String.length s) as n eqn:Hn. revert s Hn. induction (lt_wf n) as [n _ IH]. intros s ->.
  assert (Hle : forall t, (String.length t < String.length s)%nat -> (String.length (trim_left t) <= String.length s)%nat).
  { intros t Ht. pose proof (IH _ Ht t eq_refl). lia. }
  destruct s as [|a s1]; [done|]. simpl in *. case_if; [apply Hle; lia|].
  destruct s1 as [|b s2]; [simpl; lia|]. simpl in *. case_if; [apply Hle; lia|].
  destruct s2 as [|c s3]; [simpl; lia|]. simpl in *. case_if; [apply Hle; lia|]. simpl. lia.
Qed.

Lemma TrimSpace_length s : (String.length (TrimSpace s) <= String.length (trim_left s))%nat.
Proof.
  unfold TrimSpace. rewrite reverse_length, <- (reverse_length (trim_left s)). generalize (reverse (trim_left s)). intros t.
  destruct (trim_left_rev_suffix t) as [p Hp]. rewrite Hp at 2. rewrite append_length. lia.
Qed.

(** A trimmed word begins with a character. *)
Lemma trimmed_head a t : TrimSpace (String a t) = String a t -> space1 (byte a) = false.
Proof.
  intros Ht. destruct (space1 (byte a)) eqn:Hs; [|done]. exfalso.
  pose proof (TrimSpace_length (String a t)) as Hl. rewrite Ht in Hl. simpl in Hl. rewrite Hs in Hl.
  pose proof (trim_left_length t). lia.
Qed.

(** Text between a trimmed word and a closing parenthesis is trimmed. *)
Lemma TrimSpace_closed t u :
  is_ascii t = true -> TrimSpace t = t -> t <> ""%string -> TrimSpace (t ++ u ++ ")") = (t ++ u ++ ")")%string.
Proof.
  intros Ha Ht Hne. destruct t as [|a t]; [done|]. cbn [is_ascii] in Ha. apply andb_prop in Ha as [Ha _].
  apply trimmed_head in Ht. unfold TrimSpace. rewrite lead_ok_trim.
  - rewrite !reverse_app. change (reverse ")") with (String ")" "").
    change ((String ")" "" ++ reverse u) ++ reverse (String a t))%string with (String ")" (reverse u ++ reverse (String a t))).
    rewrite lead_rev_ok_trim by apply paren_lead_rev.
    change (String ")" (reverse u ++ reverse (String a t))) with ((reverse ")" ++ reverse u) ++ reverse (String a t))%string.
    rewrite <- !reverse_app. apply reverse_involutive.
  - change (String a t ++ u ++ ")")%string with (String a (t ++ u ++ ")")). rewrite ascii_lead by lia. by rewrite Ht.
Qed.

Lemma map_ascii_app f a b : map_ascii f (a ++ b) = (map_ascii f a ++ map_ascii f b)%string.
Proof. induction a as [|c a IH]; [done|]. change (String c a ++ b)%string with (String c (a ++ b)). simpl. by rewrite IH. Qed.

Lemma HasSuffix_app q p : HasSuffix (q ++ p) p = true.
Proof.
  unfold HasSuffix. rewrite append_length. apply andb_true_iff. split; [apply Nat.leb_le; lia|].
  replace (String.length q + String.length p - String.length p)%nat with (String.length q) by lia.
  rewrite drop_append. apply String.eqb_refl.
Qed.

Lemma ToLower_ascii s : is_ascii s = true -> ToLower s = map_ascii lower_ascii s.
Proof. unfold ToLower. by intros ->. Qed.

(** The listed name of an adapter is recognised by both of its names. *)
Lemma listed_adapter_matches `{CaseFold} desc friendly :
  is_ascii desc = true -> is_ascii friendly = true ->
  (TrimSpace friendly <> ""%string -> adapterNameMatch (formatAdapterName desc friendly) friendly = true)
  /\ (TrimSpace desc <> ""%string -> adapterNameMatch (formatAdapterName desc friendly) desc = true).
Proof.
  intros Hd%TrimSpace_ascii Hf%TrimSpace_ascii. unfold adapterNameMatch, formatAdapterName.
  pose proof (TrimSpace_idempotent desc) as Id. pose proof (TrimSpace_idempotent friendly) as If.
  set (d := TrimSpace desc) in *. set (f := TrimSpace friendly) in *. clearbody d f.
  destruct (String.eqb_spec f "") as [->|Hf0].
  { split; [done|]. intros Hd0. rewrite Id. destruct (String.eqb_spec d ""); [done|]. by rewrite String.eqb_refl. }
  destruct (String.eqb_spec d "") as [->|Hd0]; simpl orb; cbv iota.
  { split; [|done]. intros _. rewrite If. by rewrite String.eqb_refl. }
  unfold EqualFold. rewrite Hd, Hf. simpl andb. cbv iota.
  destruct (String.eqb_spec (map_ascii lower_ascii f) (map_ascii lower_ascii d)) as [Heq|Hne].
  { rewrite If, (ToLower_ascii f Hf), (ToLower_ascii d Hd), Heq. by rewrite String.eqb_refl. }
  assert (Hl : TrimSpace (f ++ " (" ++ d ++ ")") = (f ++ " (" ++ d ++ ")")%string).
  { rewrite <- (append_assoc " (" d ")"). by apply TrimSpace_closed. }
  rewrite Hl, (ToLower_ascii f Hf), (ToLower_ascii d Hd), ToLower_ascii by (by rewrite !is_ascii_app, Hf, Hd).
  rewrite !map_ascii_app. change (map_ascii lower_ascii " (") with " ("%string. change (map_ascii lower_ascii ")") with ")"%string.
  split; intros _; case_match; [done| |done|].
  - unfold HasPrefix. rewrite <- append_assoc, prefix_append.
    rewrite <- append_assoc. by rewrite HasSuffix_app.
  - case_match; [done|]. apply HasSuffix_app.
Qed.

End Lemmas.

(** ** Theorems *)

Lemma after_last_none_app c a b : after_last c a = None -> after_last c b = None -> after_last c (a ++ b) = None.
Proof.
  intros Ha Hb. induction a as [|x a IH]; [done|]. change (String x a ++ b)%string with (String x (a ++ b)). simpl in *.
  destruct (after_last c a); [done|]. destruct (Ascii.eqb x c); [done|]. by rewrite IH.
Qed.

Lemma digits_no_paren s : all_digits s = true -> after_last ")" s = None.
Proof.
  induction s as [|c s IH]; [done|]. simpl. intros [Hc Hs]%andb_prop. rewrite (IH Hs).
  destruct (Ascii.eqb_spec c ")") as [->|]; done.
Qed.

Lemma Itoa_all_digits n : 0 <= n -> all_digits (Itoa n) = true.
Proof. intros Hn. apply Itoa_canonical, canonical_head in Hn as (c & t & -> & Hc & Ht). cbn [all_digits]. by rewrite Hc. Qed.

(** A line of [/proc/<pid>/stat]. *)
Definition stat_line (pid comm state : string) (ppid : Z) (rest : string) : string :=
  pid ++ " (" ++ comm ++ ") " ++ state ++ " " ++ Itoa ppid ++ " " ++ rest.

(** A line of [ps -eo pid=,ppid=,comm=]. *)
Definition ps_line (pad : string) (pid ppid : Z) (comm : string) : string :=
  pad ++ Itoa pid ++ " " ++ Itoa ppid ++ " " ++ comm.

Lemma trim_pad pad s : String.length (trim_blanks pad) = 0%nat -> trim_blanks (pad ++ s) = trim_blanks s.
Proof.
  induction pad as [|c pad IH]; [done|]. change (String c pad ++ s)%string with (String c (pad ++ s)). simpl.
  destruct (blank c); [done|]. done.
Qed.

(** The parent of a process is read back from the listings of the system,
    whatever the program is called: a name in [/proc/<pid>/stat] may hold spaces
    and parentheses of its own, and the command that [ps] prints may hold spaces.
    The fields behind the name of a stat line hold no parenthesis. *)
Theorem process_listings_parsed :
  (forall pid comm state ppid rest,
     0 <= ppid < two63 -> printable state = true -> state <> ""%string ->
     after_last ")" state = None -> after_last ")" rest = None ->
     parseLinuxStatPPID (stat_line pid comm state ppid rest) = Some ppid)
  /\ (forall pad pid ppid c name,
     0 <= pid < two63 -> 0 <= ppid < two63 -> String.length (trim_blanks pad) = 0%nat -> blank c = false ->
     parseDarwinProcessLine (ps_line pad pid ppid (String c name)) = Some (String c name, pid, ppid)).
Proof.
  split.
  - intros pid comm state ppid rest Hp Hs Hne Hs0 Hr0. unfold parseLinuxStatPPID, stat_line.
    destruct (Itoa_word ppid ltac:(lia)) as [Hw Hw0].
    assert (Hno : after_last ")" (" " ++ state ++ " " ++ Itoa ppid ++ " " ++ rest) = None).
    { repeat (apply after_last_none_app; [done || apply digits_no_paren, Itoa_all_digits; lia|]). done. }
    set (tail := (" " ++ state ++ " " ++ Itoa ppid ++ " " ++ rest)%string) in *.
    replace (pid ++ " (" ++ comm ++ ") " ++ state ++ " " ++ Itoa ppid ++ " " ++ rest)%string
      with ((pid ++ " (" ++ comm) ++ String ")" tail)%string by (by rewrite !append_assoc).
    rewrite after_last_app by done. subst tail.
    change (" " ++ state ++ " " ++ Itoa ppid ++ " " ++ rest)%string
      with (String " " (state ++ String " " (Itoa ppid ++ String " " rest))).
    unfold Fields. rewrite fields_space, fields_word by done. rewrite fields_word by done.
    by apply Atoi_Itoa_nonneg.
  - intros pad pid ppid c name Hpid Hppid Hpad Hc. unfold parseDarwinProcessLine, ps_line.
    destruct (Itoa_word pid ltac:(lia)) as [Hw Hw0]. destruct (Itoa_word ppid ltac:(lia)) as [Hv Hv0].
    change (pad ++ Itoa pid ++ " " ++ Itoa ppid ++ " " ++ String c name)%string
      with (pad ++ Itoa pid ++ String " " (Itoa ppid ++ String " " (String c name)))%string.
    rewrite trim_pad, trim_word by done.
    rewrite cut_word by done. rewrite Atoi_Itoa_nonneg by lia.
    change (trim_blanks (String " " ?x)) with (trim_blanks x). rewrite trim_word by done.
    rewrite cut_word by done. rewrite Atoi_Itoa_nonneg by lia.
    change (trim_blanks (String " " ?x)) with (trim_blanks x). by rewrite trim_blanks_stops by done.
Qed.

(** When a process counts as the daemon's own: an identity seen now names it, or
    the recorded core does and no identity seen now could contradict that. *)
Definition own_process `{Unicode} (p : Process) (self : Self) : Prop :=
  0 < p_PID p
  /\ (p_PID p = OccupantPID self
      \/ p_ParentPID p <> 0 /\ p_ParentPID p = DaemonPID self
      \/ binaryPathMatch (p_Path p) (BinaryPath self) = true
      \/ p_PID p = CorePID self /\ OccupantPID self = 0
         /\ (DaemonPID self = 0 \/ p_ParentPID p = 0)
         /\ (BinaryPath self = ""%string \/ p_Path p = ""%string)).

Lemma isSelfProcess_spec `{Unicode} p self : isSelfProcess p self = true <-> own_process p self.
Proof.
  unfold isSelfProcess, own_process.
  destruct (Z.leb_spec (p_PID p) 0); [split; [done|lia]|].
  destruct (binaryPathMatch (p_Path p) (BinaryPath self)); simpl;
    destruct (Z.eqb_spec (OccupantPID self) 0), (Z.eqb_spec (p_PID p) (OccupantPID self)); simpl; try (split; [|done]; intros; lia || (split; [lia|]; tauto));
    destruct (Z.eqb_spec (DaemonPID self) 0), (Z.eqb_spec (p_ParentPID p) 0), (Z.eqb_spec (p_ParentPID p) (DaemonPID self)),
      (Z.eqb_spec (CorePID self) 0), (Z.eqb_spec (p_PID p) (CorePID self)),
      (String.eqb_spec (BinaryPath self) ""), (String.eqb_spec (p_Path p) ""); simpl; split; intros Hx; try done; try lia;
    intuition (congruence || lia).
Qed.

(** Only the daemon's own adapter and processes are taken out of what the
    system lists.  The other adapters are the listed ones in their order but for
    at most one, which is only missing while the daemon's TUN is active, and which
    carries the device name when that is known and is the first listed otherwise;
    an adapter that is listed under its alias and description is found by either.
    The other processes are the listed ones that are not the daemon's: those that
    no identity seen now names; the recorded process number of the core counts
    only where no such identity is known, for it may have been given away. *)
Theorem classification_subtracts_own `{Unicode} `{CaseFold} d self :
  let conflict := default (mkConflict [] []) (Classify d self) in
  (TunInterfaces d = OtherTunInterfaces conflict
   \/ exists l1 x l2, TunInterfaces d = l1 ++ x :: l2 /\ OtherTunInterfaces conflict = l1 ++ l2
        /\ TunActive self = true
        /\ (TunName self = ""%string /\ l1 = []
            \/ adapterNameMatch x (TunName self) = true
               /\ existsb (fun y => adapterNameMatch y (TunName self)) l1 = false))
  /\ (TunActive self = true -> existsb (fun y => adapterNameMatch y (TunName self)) (TunInterfaces d) = true ->
      length (OtherTunInterfaces conflict) < length (TunInterfaces d))%nat
  /\ OtherMihomoProcesses conflict
     = map formatProcess (List.filter (fun p => negb (isSelfProcess p self)) (MihomoProcesses d))
  /\ (forall p, isSelfProcess p self = true <-> own_process p self)
  /\ forall desc friendly, is_ascii desc = true -> is_ascii friendly = true ->
       (TrimSpace friendly <> ""%string -> adapterNameMatch (formatAdapterName desc friendly) friendly = true)
       /\ (TrimSpace desc <> ""%string -> adapterNameMatch (formatAdapterName desc friendly) desc = true).
Proof.
  intros conflict.
  assert (Hc : OtherTunInterfaces conflict = subtractSelfTun (TunInterfaces d) self
               /\ OtherMihomoProcesses conflict = formatOtherProcesses (MihomoProcesses d) self).
  { subst conflict. unfold Classify. destruct (subtractSelfTun _ _), (formatOtherProcesses _ _); done. }
  destruct Hc as [-> ->]. split_and!; [| |done|intros; apply isSelfProcess_spec|intros; by apply listed_adapter_matches].
  - unfold subtractSelfTun. destruct (TunActive self); [|by left]. simpl. destruct (TunInterfaces d) as [|x l]; [by left|].
    destruct (String.eqb_spec (TunName self) "") as [He|He]; [right; exists [], x, l; by split_and!; [..|left]|].
    destruct (drop_adapter_spec (TunName self) (x :: l)) as [[-> _]|(l1 & y & l2 & Hl & -> & Hy & Hno)]; [by left|].
    right. exists l1, y, l2. split_and!; [done|done|done|by right].
  - intros Ha Hex. unfold subtractSelfTun. rewrite Ha. simpl. destruct (TunInterfaces d) as [|x l]; [done|].
    destruct (String.eqb _ _); [simpl; lia|].
    destruct (drop_adapter_spec (TunName self) (x :: l)) as [[_ Hno]|(l1 & y & l2 & Hl & -> & _)]; [congruence|].
    rewrite Hl, !length_app. simpl. lia.
Qed.

(** Every entry of [/sys/class/net] is a symbolic link, and so none is listed. *)
Lemma links_are_not_listed entries :
  forallb (fun '(_, isDir, _) => negb isDir) entries = true -> enumerateLinuxTun entries = [].
Proof.
  induction entries as [|[[name []] flags] l IH]; simpl; [done|done|]. exact IH.
Qed.

(** ** Examples *)

Example stat_with_parens :
  parseLinuxStatPPID "4711 (a ) b) S 42 4711 0" = Some 42.
Proof. reflexivity. Qed.

Lemma process_listings_parsed_witness :
  parseLinuxStatPPID (stat_line "4711" "a ) b" "S" 42 "4711 0") = Some 42
  /\ parseDarwinProcessLine (ps_line "  " 7 1 "/Applications/My  App/mihomo")
     = Some ("/Applications/My  App/mihomo"%string, 7, 1).
Proof.
  destruct process_listings_parsed as [Hl Hd].
  split; [apply Hl|apply Hd]; try reflexivity; try discriminate; unfold two63; lia.
Defined.

#[local] Instance ex_tun_unicode : Unicode := {| unicode_ToLower s := s |}.
#[local] Instance ex_tun_fold : CaseFold := {| unicode_EqualFold := String.eqb |}.

(** A daemon whose TUN is up as [Meta], beside another adapter and another core. *)
Definition ex_self : Self := mkSelf true "Meta" 40 0 7 "/opt/mihari/mihomo".
Definition ex_detection : Detection :=
  mkDetection [formatAdapterName "WireGuard Tunnel" "wg0"; formatAdapterName "Meta Tunnel" "Meta"]
    [mkProcess "mihomo" 41 7 "/opt/mihari/mihomo"; mkProcess "mihomo" 40 1 "/usr/bin/mihomo"].

Lemma ex_meta_listed :
  existsb (fun y => adapterNameMatch y (TunName ex_self)) (TunInterfaces ex_detection) = true.
Proof. vm_compute. reflexivity. Qed.

Lemma classification_subtracts_own_witness :
  (length (OtherTunInterfaces (default (mkConflict [] []) (Classify ex_detection ex_self)))
   < length (TunInterfaces ex_detection))%nat
  /\ Classify ex_detection ex_self = Some (mkConflict ["wg0 (WireGuard Tunnel)"] ["mihomo (40)"]).
Proof.
  destruct (classification_subtracts_own ex_detection ex_self) as (_ & Hlt & _).
  split; [apply Hlt; [reflexivity|apply ex_meta_listed]|vm_compute; reflexivity].
Defined.
