(* ===== verification/Tun.v ===== *)
(** * Tun: managed TUN mode

    Models [internal/runtime/tun.go] and [tun_trusted.go] with the types of
    [internal/control/protocol/tun.go].  The wanted state is saved in the settings;
    it is applied by regenerating the configuration and, without a trusted core,
    by a PATCH of the running one, and confirmed by what the core reports.

    - Without a trusted core the request owns the mutation from its start, and
      saves the settings first.  A failure restores them and then the live block.
    - With a trusted core the configuration is validated without ownership; the
      settings are saved, the configuration is published, and the settings appear
      in memory last.  A failure restores settings and configuration.
    - What the core makes of a PATCH is the environment's; reading back decides.
    - The manager of the model always has subscriptions. *)

From S2P Require Import Prelude GoStd SelfUpdate Atomic State Settings Catalog SubService TrustedConfig Generator FileRefs.
From S2P Require Import Manager Routing RuntimeConfig CoreTx Egress TunDetect.

Record TunStatus := mkTunStatus {
  ts_Revision : Z;
  DesiredEnable : bool;
  LiveEnable : option bool;
  Stack : string;
  Managed : bool;
  ts_LastError : string;
  Conflict : option TunConflict
}.

Definition zero_TunStatus : TunStatus := mkTunStatus 0 false None "" false "" None.

(** The detection driver and the occupant lookup, if there are any; the process
    and the managed binary; whether a configuration can be generated; the text of
    an error; the recovery context. *)
Record tun_env := mkTunEnv {
  tn_detect : option (nat -> result Detection);
  tn_occupant : option (nat -> string -> option Z);
  tn_pid : Z;
  tn_binary : string;
  tn_paths : bool;
  tn_message : error -> string;
  tn_recovery : nat -> option error
}.

(** ** Values *)

(** [reflect.DeepEqual]: mappings are compared by their keys. *)
Fixpoint deep_equal (x y : any) {struct x} : bool :=
  match x, y with
  | ASeq l, ASeq l' =>
      (fix go (l l' : list any) : bool :=
         match l, l' with
         | [], [] => true
         | a :: l, b :: l' => deep_equal a b && go l l'
         | _, _ => false
         end) l l'
  | AMap l, AMap l' =>
      (length l =? length l')%nat
      && (fix go (l : list (string * any)) : bool :=
            match l with
            | [] => true
            | (k, v) :: l => match member l' k with Some v' => deep_equal v v' | None => false end && go l
            end) l
  | _, _ => bool_decide (x = y)
  end.

Definition same_block (a b : option Document) : bool :=
  match a, b with
  | Some a, Some b => deep_equal (document_value a) (document_value b)
  | None, None => true
  | _, _ => false
  end.

(** [tun["enable"].(bool)]. *)
Definition enable_of (tun : Document) : option bool :=
  match tun !! "enable"%string with Some (ABool b) => Some b | _ => None end.

Definition buildManagedTun (enable : bool) (existing : option Document) : Document :=
  <["enable"%string := ABool enable]> (default ∅ existing).

Definition tunDesiredEnable (tun : option Document) : bool :=
  match tun with Some tun => default false (enable_of tun) | None => false end.

Definition tunManaged (tun : option Document) : bool :=
  match tun with Some tun => bool_decide (is_Some (enable_of tun)) | None => false end.

Definition tunStack (tun : option Document) : string :=
  match tun with Some tun => match tun !! "stack"%string with Some (AString s) => s | _ => "" end | None => "" end.

(** [configs["tun"].(map[string]any)]. *)
Definition live_tun (configs : Document) : option Document :=
  match configs !! "tun"%string with Some (AMap l) => Some (list_to_map l) | _ => None end.

Definition liveTunEnable (configs : Document) : option bool :=
  match live_tun configs with Some tun => enable_of tun | None => None end.

Definition liveTunDevice (configs : Document) : string :=
  match live_tun configs with
  | Some tun => match tun !! "device"%string with Some (AString s) => TrimSpace s | _ => "" end
  | None => ""
  end.

Definition normalizeTunBlock `{DocumentYAML} (tun : Document) : result (option Document) :=
  match doc_Marshal (document_value tun) with
  | Err _ => Err (EText "normalize TUN block")
  | Ok content =>
      match doc_Unmarshal content with
      | Err _ => Err (EText "normalize TUN block")
      | Ok normalized => Ok normalized
      end
  end.

Definition normalizedLiveTun `{DocumentYAML} (configs : Document) : result (option Document) :=
  match live_tun configs with
  | None => Err (EText "TUN live block is unavailable")
  | Some tun =>
      match enable_of tun with
      | None => Err (EText "TUN live enable is unavailable")
      | Some _ => normalizeTunBlock tun
      end
  end.

(** The live block before a change: the block, whether it is known, and why not. *)
Definition block_before `{DocumentYAML} (configs : Document) : option Document * bool * option error :=
  match configs !! "tun"%string with
  | None | Some ANull => (Some ∅, true, None)
  | Some (AMap l) =>
      let tun := list_to_map l in
      match enable_of tun with
      | None => (None, false, None)
      | Some _ =>
          match normalizeTunBlock tun with
          | Err x => (None, false, Some x)
          | Ok normalized => (normalized, true, None)
          end
      end
  | Some _ => (None, false, None)
  end.

Definition with_Tun (tun : option Document) (s : Settings) : Settings :=
  mkSettings (EgressInterface s) (Settings.Routing s) (Settings.Schema s) (MixedAddr s) (ControllerAddr s) (WebAddr s)
    (ControllerSecret s) (SystemProxyDesired s) tun (CoreChannel s) (CoreChannelBundle s) (Logging s).

(** The change of the settings. *)
Definition manage_tun (enable : bool) (s : Settings) : Settings := with_Tun (Some (buildManagedTun enable (Tun s))) s.

Definition buildTunStatusFromObservation (s : Settings) (revision : Z) (conflict : option TunConflict)
    (live : option bool) (lastError : string) : TunStatus :=
  let desired := tunDesiredEnable (Tun s) in
  let lastError := if String.eqb lastError "" && desired && bool_decide (live = Some false)
                   then "live TUN is off" else lastError in
  mkTunStatus revision desired live (tunStack (Tun s)) (tunManaged (Tun s)) lastError conflict.

(** ** Errors *)

Definition tunErrorMessage (x : error) : string := match errors_As x with Some api => api_message api | None => "" end.

Definition needs_privileges : APIError :=
  mkAPIError CodePermissionDenied "TUN requires elevated privileges; run Mihari as a service or from an elevated shell" false.

Definition privilege_words : list string :=
  ["permission"; "privilege"; "access is denied"; "operation not permitted"; "not permitted"; "elevat"; "administrator"]%string.

Definition mapTunApplyError `{Unicode} (T : tun_env) (x : error) : error :=
  let by_text :=
    let msg := ToLower (tn_message T x) in
    if existsb (Contains msg) privilege_words then diagnostics_Wrap needs_privileges (Some x)
    else match errors_As x with
         | Some _ => x
         | None => diagnostics_Wrap (mkAPIError CodeUpstreamFailure "apply TUN configuration" false) (Some x)
         end in
  match errors_As x with
  | Some api =>
      if api_degraded api then x
      else if bool_decide (api_code api = CodePermissionDenied) then diagnostics_Wrap needs_privileges (Some x)
      else by_text
  | None => by_text
  end.

Definition tun_conflict : error := api_error CodeTunConflict "other TUN adapters detected; routing conflict or loop risk".

Definition live_unavailable : string := "TUN live state before apply is unavailable".

(** The gate of an enable without force. *)
Definition tun_gated (enable force : bool) (conflict : option TunConflict) : bool :=
  enable && negb force
  && match conflict with Some c => negb (bool_decide (OtherTunInterfaces c = [])) | None => false end.

Definition not_confirmed (enable : bool) : APIError :=
  mkAPIError CodeUpstreamFailure
    (if enable then "TUN did not become live after apply" else "TUN did not become disabled after apply") false.

Section Tun.
Context `{CaseFold} `{Unicode} `{SourceSyntax} `{CatalogYAML} `{DocumentYAML} `{PEM} `{Sha256}
  {Env FS AEnv W : Type} `{SettingsFile Env FS} `{AtomicFile AEnv W} (E : rt_env Env FS AEnv W) (T : tun_env).

Abbreviation R := (st (Runtime FS AEnv W)).
Abbreviation o := (re_options E).
Abbreviation e := (re_env E).

Definition setTunLastError (message : string) : R unit := onM (st_modify (set_tunLastError message)).

(** ** Observation *)

(** [controller.Configs]. *)
Definition Configs : R (result Document) :=
  let! k := onM (read_kernel e) in
  st_ret match k with Ok k => Ok (k_Configs k) | Err x => Err x end.

(** [m.controller != nil && ctx.Err() == nil]. *)
Definition controller_reachable : R bool :=
  if negb (has_controller o) then st_ret false
  else let! x := onM (ctxErr e) in st_ret (bool_decide (x = None)).

(** The process that listens on the controller's address. *)
Definition occupant : R Z :=
  let! r := st_get in
  let addr := ControllerAddr (settings (mgr r)) in
  match tn_occupant T with
  | Some lookup =>
      if String.eqb addr "" then st_ret 0
      else let! n := onM Manager.tick in
           st_ret match lookup n addr with Some pid => if 0 <? pid then pid else 0 | None => 0 end
  | None => st_ret 0
  end.

Definition selfFromLive : R Self :=
  let! r := st_get in
  let self active name occupant := mkSelf active name (core_PID (Core (store (mgr r)))) occupant (tn_pid T) (tn_binary T) in
  let! ok := controller_reachable in
  if negb ok then st_ret (self false "" 0)%string
  else
    let! pid := occupant in
    let! configs := Configs in
    st_ret match configs with
           | Err _ => self false ""%string pid
           | Ok configs =>
               match liveTunEnable configs with
               | Some true => self true (liveTunDevice configs) pid
               | _ => self false ""%string pid
               end
           end.

Definition detectTunConflict : R (option TunConflict) :=
  match tn_detect T with
  | None => st_ret None
  | Some detect =>
      let! n := onM Manager.tick in
      match detect n with
      | Err _ => st_ret None
      | Ok detection => let! self := selfFromLive in st_ret (Classify detection self)
      end
  end.

Definition captureTunLive : R (option Document * bool * option error) :=
  let! ok := controller_reachable in
  if negb ok then st_ret (None, false, None)
  else
    let! configs := Configs in
    st_ret match configs with
           | Err x => (None, false, Some x)
           | Ok configs => block_before configs
           end.

(** What the core says about TUN, or why it says nothing. *)
Definition observe_enable : R (option bool * option error) :=
  let! configs := Configs in
  st_ret match configs with Ok configs => (liveTunEnable configs, None) | Err x => (None, Some x) end.

Definition buildTunStatus (lastError : string) : R TunStatus :=
  let! r := st_get in
  let lastError := if String.eqb lastError "" then tunLastError (mgr r) else lastError in
  let! conflict := detectTunConflict in
  let! ok := controller_reachable in
  let! '(live, _) := if ok then observe_enable else st_ret (None, None) in
  let! r' := st_get in
  st_ret (buildTunStatusFromObservation (settings (mgr r)) (Revision (store (mgr r'))) conflict live lastError).

Definition ReadTunStatus : R (result TunStatus) :=
  check! onM (lockMaintenance e) in
  let! status := buildTunStatus "" in
  do! onM unlock in
  st_ret (Ok status).

(** ** Applying *)

Definition prepareTunConfigWithSettings (c : Catalog) (s : Settings) (generation : Z) (liveBase : option Document)
    : R (result configCandidate) :=
  if negb (String.eqb (ActiveID c) "") then prepareCatalogConfigWithSettings E c s generation
  else prepareConfigWithSettings E (<["tun"%string := document_value (default ∅ liveBase)]> direct_document) s generation.

(** The configuration is generated and committed: the candidate that is to be
    cleaned up, and the error. *)
Definition regenerate (s : Settings) (generation : Z) (liveBase : option Document)
    : R (option configCandidate * option error) :=
  let! r := st_get in
  let! g := prepareTunConfigWithSettings (catalog (svc r)) s generation liveBase in
  match g with
  | Err x => st_ret (None, Some x)
  | Ok g => let! x := commitRuntimeConfig E false g in st_ret (Some g, x)
  end.

(** [controller.PatchConfigs], when there is something to patch. *)
Definition patch_tun (nextTun : option Document) : R (bool * option error) :=
  if has_controller o && bool_decide (is_Some nextTun)
  then let! x := onM (kernel_call e) in st_ret (bool_decide (x = None), x)
  else st_ret (false, None).

Definition apply_steps (nextTun liveBase : option Document) : R (option configCandidate * option error) :=
  let! r := st_get in
  let patchTun := <["enable"%string := ABool (tunDesiredEnable nextTun)]> (default ∅ liveBase) in
  let s := with_Tun (Some patchTun) (settings (mgr r)) in
  let! '(candidate, regenerateErr) :=
    if tn_paths T then regenerate s (configGeneration (mgr r)) liveBase else st_ret (None, None) in
  let regenerated := tn_paths T && bool_decide (regenerateErr = None) in
  if trustedCore o then
    st_ret (candidate, match regenerateErr with
                       | Some x => Some x
                       | None => if negb regenerated
                                 then Some (api_error CodeInvalidState "trusted TUN configuration unavailable") else None
                       end)
  else
    let! '(patched, patchErr) := patch_tun nextTun in
    st_ret (candidate, match patchErr with
                       | Some x => Some x
                       | None => if regenerated || patched then None
                                 else match regenerateErr with Some x => Some x | None => Some no_controller end
                       end).

Definition applyTun (nextTun liveBase : option Document) : R (option error) :=
  let! '(candidate, x) := apply_steps nextTun liveBase in
  do! match candidate with Some g => cleanup E g | None => st_ret tt end in
  st_ret x.

Definition restore_unconfirmed : error := EText "TUN live restore is unconfirmed".

Definition restoreTunLive (target : Document) : R (option error) :=
  let! x := applyTun (Some target) (Some target) in
  match x with
  | Some x => st_ret (Some x)
  | None =>
      if negb (has_controller o) then st_ret (Some restore_unconfirmed)
      else
        let! configs := Configs in
        st_ret match configs with
               | Err x => Some x
               | Ok configs =>
                   match normalizedLiveTun configs, normalizeTunBlock target with
                   | Ok observed, Ok wanted => if same_block observed wanted then None else Some restore_unconfirmed
                   | _, _ => Some restore_unconfirmed
                   end
               end
  end.

Definition compensateTun (op : Operation) (c : settingsCandidate) (cause : error) (restoreLive : bool)
    (liveBefore : option Document) : R (option error) :=
  let! '(_, rollbackErr) := onM (restoreSettings o e (cand_before c)) in
  let! liveRestoreErr :=
    if restoreLive then
      match liveBefore with
      | None => st_ret (Some (EText live_unavailable))
      | Some target => restoreTunLive target
      end
    else st_ret None in
  match rollbackErr, liveRestoreErr with
  | None, None => st_ret (Some cause)
  | _, _ =>
      do! (if trustedCore o then onM (st_modify (set_stop true)) else st_ret tt) in
      let! '(_, err) := onM (updateStateLocked (mkCommandMeta (op_ID op) (op_Source op) (op_IfRevision op))
                               (degrade (errors_Join (errors_Join (Some cause) rollbackErr) liveRestoreErr))) in
      st_ret err
  end.

(** A failed request answers with the error, if there is one. *)
Definition failed (x : option error) : result TunStatus := match x with Some x => Err x | None => Ok zero_TunStatus end.

(** ** Without a trusted core (tun.go) *)

(** Everything is put back. *)
Definition take_back (op : Operation) (c : settingsCandidate) (cause : error) (restoreLive : bool) (liveBefore : option Document)
    : R (result TunStatus) :=
  let! x := compensateTun op c cause restoreLive liveBefore in st_ret (failed x).

(** [mutateTun] once the change is applied. *)
Definition confirm_tun (op : Operation) (enable : bool) (conflict : option TunConflict) (c : settingsCandidate)
    (liveBefore : option Document) : R (result TunStatus) :=
  let! ok := controller_reachable in
  let! '(live, confirmationErr) := if ok then observe_enable else st_ret (None, None) in
  if negb (bool_decide (live = Some enable)) then
    do! setTunLastError (api_message (not_confirmed enable)) in
    take_back op c (diagnostics_Wrap (not_confirmed enable) confirmationErr) true liveBefore
  else
    do! setTunLastError "" in
    let! '(_, err) := onM (updateStateLocked (mkCommandMeta (op_ID op) (op_Source op) (op_IfRevision op)) keep_snapshot) in
    let! r := st_get in
    st_ret match err with
           | Some x => Err x
           | None => Ok (buildTunStatusFromObservation (cand_after c) (Revision (store (mgr r))) conflict live "")
           end.

(** [mutateTun] once the settings are saved. *)
Definition apply_saved_tun (op : Operation) (enable : bool) (conflict : option TunConflict) (c : settingsCandidate)
    : R (result TunStatus) :=
  let! x := onM (ctxErr e) in
  match x with
  | Some x => take_back op c x false None
  | None =>
      let! '(liveBefore, known, liveErr) := captureTunLive in
      let! x := onM (ctxErr e) in
      match x with
      | Some x => take_back op c x false None
      | None =>
          if negb known then
            do! setTunLastError live_unavailable in
            take_back op c (diagnostics_Wrap (mkAPIError CodeUpstreamFailure live_unavailable false) liveErr) false None
          else
            let! x := applyTun (Tun (cand_after c)) liveBefore in
            match x with
            | Some x =>
                let mapped := mapTunApplyError T x in
                do! setTunLastError (tunErrorMessage mapped) in
                let! res := take_back op c mapped (negb (trustedCore o)) liveBefore in
                do! markConfigDegraded E x in
                st_ret res
            | None => confirm_tun op enable conflict c liveBefore
            end
      end
  end.

(** [mutateTun] while it owns the mutation. *)
Definition owned_tun (op : Operation) (enable force : bool) : R (result TunStatus) :=
  check! onM (ctxErr e) in
  check! onM (checkIfRevision (op_IfRevision op)) in
  let! conflict := detectTunConflict in
  check! onM (ctxErr e) in
  if tun_gated enable force conflict then st_ret (Err tun_conflict)
  else
    try! c := onM (updateSettings o e (fun s => Ok (manage_tun enable s))) in
    apply_saved_tun op enable conflict c.

(** ** With a trusted core (tun_trusted.go) *)

Definition sameActiveSubscription (a b : Catalog) : bool :=
  if negb (String.eqb (ActiveID a) (ActiveID b)) then false
  else if String.eqb (ActiveID a) "" then true
  else match find_profile a (ActiveID a), find_profile b (ActiveID b) with
       | Some p, Some q => (Generation p =? Generation q) && (Catalog.Version p =? Catalog.Version q)
       | _, _ => false
       end.

(** [settleRoutingSettings] of routing_config.go. *)
Definition settleRoutingSettings (c : settingsCandidate) : R (settingsCandidate * option error) :=
  let! r := st_get in
  let current := Settings.Routing (settings (mgr r)) in
  if bool_decide (Settings.Routing (cand_after c) = current) then st_ret (c, None)
  else
    let after := with_Routing current (cand_after c) in
    let c := mkCandidate (cand_before c) after (changed (cand_before c) after) (cand_generation c) in
    let! '(_, err) := onM (saveSettingsCandidate o e c) in
    st_ret (c, err).

(** The configuration is put back and reloaded. *)
Definition restore_previous (previous : string) : R (option error) :=
  let! cap := onT (RestoreConfig (re_trusted E) previous) in
  match cap with
  | Err x => st_ret (Some x)
  | Ok cap =>
      let! p := onT (cap_Path (re_trusted E) cap) in
      match p with
      | Err x => st_ret (Some x)
      | Ok _ => if negb (re_reloader E) then st_ret (Some (EText "mihomo reload is unavailable")) else Reload E
      end
  end.

(** The core reports what the restored configuration says. *)
Definition confirm_previous (previous : string) : R (option error) :=
  let! '(live, err) := observe_enable in
  let '(want, parseErr) := match ParseDocument previous with
                           | Ok d => (default false (liveTunEnable d), None)
                           | Err x => (false, Some x)
                           end in
  st_ret (if bool_decide (err = None) && bool_decide (parseErr = None) && bool_decide (live = Some want) then None
          else errors_Join (errors_Join (Some restore_unconfirmed) err) parseErr).

Definition rollback_config (before : Settings) (previous : option string) : R (option error) :=
  match previous with
  | None => st_ret None
  | Some previous =>
      let! x := restore_previous previous in
      let! x := match x with None => confirm_previous previous | Some x => st_ret (Some x) end in
      match x, Settings.Routing before with
      | None, Some _ =>
          onM (let! m := st_get in
               applyRoutingLive o e (RoutingMode before) (GlobalSelection (routingSubscriptionID m) before))
      | _, _ => st_ret x
      end
  end.

Definition rollbackTrustedTun (op : Operation) (c : settingsCandidate) (previous : option string) (cause : error)
    : R (option error) :=
  let rollback := mkCandidate (cand_after c) (cand_before c) (cand_changed c) 0 in
  let! '(_, settingsErr) := onM (saveSettingsCandidate o e rollback) in
  do! match settingsErr with None => onM (publishSettings rollback) | Some _ => st_ret tt end in
  let! configErr := rollback_config (cand_before c) previous in
  match settingsErr, configErr with
  | None, None => st_ret (Some cause)
  | _, _ =>
      do! onM (st_modify (set_stop true)) in
      let! n := onM Manager.tick in
      let! '(_, err) := onM (Do (tn_recovery T n) (mkCommandMeta (op_ID op) (op_Source op) None)
                               (degrade (errors_Join (errors_Join (Some cause) settingsErr) configErr))) in
      st_ret err
  end.

(** The inputs of the preparation are the same. *)
Definition recheck_trusted (op : Operation) (c : settingsCandidate) (k : Catalog) (hash : list Z) : R (option error) :=
  let! x := onM (checkIfRevision (op_IfRevision op)) in
  match x with
  | Some x => st_ret (Some x)
  | None =>
      let! r := st_get in
      if negb (cand_generation c =? configGeneration (mgr r)) || negb (sameActiveSubscription k (catalog (svc r))) then
        st_ret (Some (api_error CodeRevisionConflict "configuration inputs changed during TUN preparation"))
      else
        let! h := loggingCacheHash (ActiveID k) in
        let cache_changed := mkAPIError CodeRevisionConflict "subscription cache changed during TUN preparation" false in
        st_ret match h with
               | Ok h => if bool_decide (h = hash) then None else Some (EAPI cache_changed)
               | Err x => Some (diagnostics_Wrap cache_changed (Some x))
               end
  end.

(** The settings are saved and the configuration is published. *)
Definition publish_tun (op : Operation) (enable : bool) (conflict : option TunConflict) (c : settingsCandidate)
    (g : configCandidate) (previous : string) : R (result TunStatus) :=
  let! x := commitRuntimeConfig E false g in
  match x with
  | Some x =>
      let mapped := mapTunApplyError T x in
      do! setTunLastError (tunErrorMessage mapped) in
      let! y := rollbackTrustedTun op c None mapped in
      do! markConfigDegraded E x in
      st_ret (failed y)
  | None =>
      let! '(live, confirmationErr) := if has_controller o then observe_enable else st_ret (None, None) in
      if negb (bool_decide (live = Some enable)) then
        do! setTunLastError (api_message (not_confirmed enable)) in
        let! y := rollbackTrustedTun op c (Some previous) (diagnostics_Wrap (not_confirmed enable) confirmationErr) in
        st_ret (failed y)
      else
        let! '(c, err) := settleRoutingSettings c in
        match err with
        | Some x => let! y := rollbackTrustedTun op c (Some previous) x in st_ret (failed y)
        | None =>
            do! onM (publishSettings c) in
            do! setTunLastError "" in
            let! '(_, err) := onM (updateStateLocked (mkCommandMeta (op_ID op) (op_Source op) (op_IfRevision op))
                                     (fun s => st_ret (markConfigApplied s, None))) in
            let! r := st_get in
            st_ret match err with
                   | Some x => Err x
                   | None => Ok (buildTunStatusFromObservation (cand_after c) (Revision (store (mgr r))) conflict live "")
                   end
        end
  end.

(** [mutateTrustedTun] under the second ownership. *)
Definition owned_trusted_tun (op : Operation) (enable : bool) (conflict : option TunConflict) (c : settingsCandidate)
    (k : Catalog) (hash : list Z) (g : configCandidate) : R (result TunStatus) :=
  check! recheck_trusted op c k hash in
  try! previous := onT (PreviousConfig (re_trusted E)) in
  let! '(_, err) := onM (saveSettingsCandidate o e c) in
  match err with
  | Some x => st_ret (Err x)
  | None => publish_tun op enable conflict c g previous
  end.

(** What is read without ownership; other requests run between the reads. *)
Definition prepare_trusted_tun (enable force : bool)
    : R (result (option TunConflict * settingsCandidate * Catalog * list Z * configCandidate)) :=
  let! conflict := detectTunConflict in
  check! onM (ctxErr e) in
  if tun_gated enable force conflict then st_ret (Err tun_conflict)
  else
    do! gap E in
    try! c := onM (prepareSettings (fun s => Ok (manage_tun enable s))) in
    do! gap E in
    let! '(liveBefore, known, liveErr) := captureTunLive in
    if negb known then st_ret (Err (diagnostics_Wrap (mkAPIError CodeUpstreamFailure live_unavailable false) liveErr))
    else
      do! gap E in
      let! r := st_get in
      let k := catalog (svc r) in
      do! gap E in
      try! hash := loggingCacheHash (ActiveID k) in
      do! gap E in
      let! g := prepareTunConfigWithSettings k (cand_after c) (cand_generation c) liveBefore in
      st_ret match g with Err x => Err (mapTunApplyError T x) | Ok g => Ok (conflict, c, k, hash, g) end.

Definition mutateTrustedTun (op : Operation) (enable force : bool) : R (result TunStatus) :=
  check! SyncLogging E in
  check! onM (lockMutation o e) in
  let! x := onM (checkIfRevision (op_IfRevision op)) in
  do! onM unlock in
  match x with
  | Some x => st_ret (Err x)
  | None =>
      do! gap E in
      try! '(conflict, c, k, hash, g) := prepare_trusted_tun enable force in
      do! gap E in
      let! x := onM (lockMutation o e) in
      let! res := match x with
                  | Some x => st_ret (Err x)
                  | None =>
                      let! res := owned_trusted_tun op enable conflict c k hash g in
                      do! onM unlock in
                      st_ret res
                  end in
      do! cleanup E g in
      st_ret res
  end.

(** ** The requests *)

Definition mutateTun (op : Operation) (enable force : bool) : R (result TunStatus) :=
  if trustedCore o then mutateTrustedTun op enable force
  else
    check! onM (lockMutation o e) in
    let! res := owned_tun op enable force in
    do! onM unlock in
    st_ret res.

Definition EnableTun (op : Operation) (force : bool) : R (result TunStatus) :=
  check! onM (admit_operation e ("tun-enable:" ++ op_ID op)%string) in mutateTun op true force.

Definition DisableTun (op : Operation) : R (result TunStatus) :=
  check! onM (admit_operation e ("tun-disable:" ++ op_ID op)%string) in mutateTun op false false.

End Tun.

(** ** Lemmas *)

Section Lemmas.
Context `{CaseFold} `{Unicode} `{SourceSyntax} `{CatalogYAML} `{DocumentYAML} `{PEM} `{Sha256}
  {Env FS AEnv W : Type} `{SettingsFile Env FS} `{AtomicFile AEnv W} (E : rt_env Env FS AEnv W) (T : tun_env).

Abbreviation RT := (Runtime FS AEnv W).

(** Settings, their file and the snapshot are the given ones. *)
Definition kept (r0 r : RT) : Prop :=
  settings (mgr r) = settings (mgr r0) /\ sf_saved (fs (mgr r)) = sf_saved (fs (mgr r0)) /\ store (mgr r) = store (mgr r0).

Lemma kept_onM {A} (r0 : RT) (m : st (Manager FS) A) :
  (forall w w' a, m w = (a, w') -> settings w' = settings w /\ fs w' = fs w /\ store w' = store w) -> preserves (kept r0) (onM m).
Proof.
  intros Hm r r' a Hr (Hs & Hf & Hst). apply onM_inv in Hr as (w & Hr & ->). apply Hm in Hr as (Hs' & Hf' & Hst').
  unfold kept. cbn in *. rewrite Hs', Hf', Hst'. done.
Qed.

Lemma kept_later {A} (r0 : RT) (m : st (Manager FS) A) :
  (forall w w' a, m w = (a, w') -> later w w') -> preserves (kept r0) (onM m).
Proof. intros Hm. apply kept_onM. intros w w' a Ha. by apply Hm in Ha as [n ->]. Qed.

Lemma kept_kernel {A} (r0 : RT) (m : st (Manager FS) A) :
  (forall w w' a, m w = (a, w') -> kernel_frame w w') -> preserves (kept r0) (onM m).
Proof. intros Hm. apply kept_onM. intros w w' a Ha. by apply Hm in Ha as (k & n & ->). Qed.

Lemma kept_onS {A} (r0 : RT) (m : st (Service AEnv W) A) : preserves (kept r0) (onS m).
Proof. intros r r' a Hr. by apply onS_inv in Hr as (s & _ & ->). Qed.

Lemma kept_onT {A} (r0 : RT) (m : st Trusted A) : preserves (kept r0) (onT m).
Proof. intros r r' a Hr. by apply onT_inv in Hr as (t & _ & ->). Qed.

Lemma kept_Reload (r0 : RT) : preserves (kept r0) (Reload E).
Proof.
  unfold Reload. apply preserves_bind; [apply kept_later; intros w w' a [= _ <-]; apply later_ticked|].
  intros n r r' x Hr. cbn in Hr. injection Hr as _ <-. by case_if.
Qed.

Lemma kept_applyRoutingLive (r0 : RT) (mode exit : string) :
  preserves (kept r0) (onM (applyRoutingLive (re_options E) (re_env E) mode exit)).
Proof. apply kept_kernel. intros w w' a Ha. by apply applyRoutingLive_spec in Ha as [Ha _]. Qed.

Lemma kept_observe (r0 : RT) :
  preserves (kept r0) (onM (observeRoutingMode (re_options E) (re_env E))) /\
  preserves (kept r0) (onM (observeGlobal (re_options E) (re_env E))).
Proof.
  split; apply kept_later; intros w w' a Ha; [by apply observeRoutingMode_spec in Ha as [Ha _]|by apply observeGlobal_spec in Ha as [Ha _]].
Qed.

#[local] Hint Resolve kept_onS kept_onT kept_Reload kept_applyRoutingLive : preserves.
#[local] Hint Extern 1 (preserves (kept _) (write_config _ _)) => apply kept_onS : preserves.
#[local] Hint Extern 1 (preserves (kept _) (onM (st_modify _))) => (apply kept_onM; intros ? ? ? [= _ <-]; done) : preserves.

Lemma kept_commitRuntimeConfigBytes (r0 : RT) (c : configCandidate) : preserves (kept r0) (commitRuntimeConfigBytes E c).
Proof.
  unfold commitRuntimeConfigBytes, commitTrustedRuntimeConfig, publish_trusted, restore_trusted, install_config, restoreRuntimeConfig.
  solve_preserves.
Qed.

Lemma kept_recover_runtime (r0 : RT) (previous mode now : string) (x : error) :
  preserves (kept r0) (recover_runtime E previous mode now x).
Proof. unfold recover_runtime, restoreRoutingConfig. solve_preserves. Qed.

Lemma kept_capture_config (r0 : RT) : preserves (kept r0) (capture_config E).
Proof. unfold capture_config. solve_preserves. Qed.

Lemma kept_world_refl (r : RT) : kept r r.
Proof. done. Qed.

Lemma kept_world_trans (a b c : RT) : kept a b -> kept b c -> kept a c.
Proof. intros (? & ? & ?) (? & ? & ?). unfold kept. split_and!; congruence. Qed.

(** What committing a configuration does to the settings. *)
Lemma commitRuntimeConfig_moves (b : bool) (c : configCandidate) (r r' : RT) (x : option error) :
  commitRuntimeConfig E b c r = (x, r') ->
  store (mgr r') = store (mgr r) /\ routing_moved (re_options E) (mgr r) (mgr r') /\ (x <> None -> kept r r').
Proof.
  intros Hr. cut (kept r r' \/ x = None /\ store (mgr r') = store (mgr r) /\ routing_moved (re_options E) (mgr r) (mgr r')).
  { intros [Hk|(-> & Hs & Hm)]; [|done]. destruct Hk as (Hs & Hf & Hst). split; [done|]. split; [by left|done]. }
  unfold commitRuntimeConfig in Hr. unfold st_bind at 1, st_get in Hr. cbn beta iota in Hr.
  case_if_in Hr; [injection Hr as <- <-; by left|]. case_if_in Hr; [injection Hr as <- <-; by left|].
  destruct (Settings.Routing (settings (mgr r))) as [routing|]; [|left; exact (kept_commitRuntimeConfigBytes r _ _ _ _ Hr (kept_world_refl r))].
  apply st_bind_inv in Hr as (p & r1 & Hp & Hr). pose proof (kept_capture_config r _ _ _ Hp (kept_world_refl r)) as Hk1.
  destruct p as [p|y]; [|injection Hr as <- <-; by left]. destruct (kept_observe r) as [Hkm Hkg].
  apply st_bind_inv in Hr as (om & r2 & Hom & Hr). pose proof (Hkm _ _ _ Hom Hk1) as Hk2. destruct om as [om|y]; [|injection Hr as <- <-; by left].
  apply st_bind_inv in Hr as (og & r3 & Hog & Hr). pose proof (Hkg _ _ _ Hog Hk2) as Hk3. destruct og as [og|y]; [|injection Hr as <- <-; by left].
  apply st_bind_inv in Hr as (y & r4 & Hy & Hr). pose proof (kept_commitRuntimeConfigBytes r _ _ _ _ Hy Hk3) as Hk4.
  apply st_bind_inv in Hr as (z & r5 & Hz & Hr).
  assert (Hz' : match z with Some _ => kept r r5
                | None => store (mgr r5) = store (mgr r) /\ routing_moved (re_options E) (mgr r) (mgr r5) end).
  { destruct y as [y|]; [by injection Hz as <- <-|]. apply st_bind_inv in Hz as (ch & r6 & Hch & Hz). injection Hz as <- <-.
    apply onM_inv in Hch as (w & Hch & ->). destruct Hk4 as (Hs & Hf & Hst).
    pose proof Hch as Hst'. apply changeRoutingLocked_spec in Hst' as (_ & Hst' & _); [|apply RoutingMode_nonempty].
    apply changeRoutingLocked_moves in Hch as [Hm He]. cbn in *. destruct ch as [a|x0].
    - split; [congruence|]. unfold routing_moved in *. cbn in *. by rewrite Hs, Hf in Hm.
    - destruct (He x0 eq_refl) as [Hs5 Hf5]. unfold kept. cbn in *. split_and!; congruence. }
  destruct z as [z|]; [|injection Hr as <- <-; by right].
  apply st_bind_inv in Hr as (x0 & r6 & Hx & Hr). injection Hr as <- <-. left. by eapply kept_recover_runtime.
Qed.

(** *** Observation *)

Lemma still_setTunLastError (r : RT) (message : string) : preserves (still E r) (setTunLastError message).
Proof.
  apply still_step; [|by apply saved_modifyM]. intros a b [] Hx. apply onM_inv in Hx as (w & [= <-] & ->).
  split; [by repeat split|]. done.
Qed.

Lemma still_Configs (r : RT) : preserves (still E r) (Configs E).
Proof. unfold Configs. solve_preserves. Qed.

Lemma still_reachable (r : RT) : preserves (still E r) (controller_reachable E).
Proof. unfold controller_reachable. solve_preserves. Qed.

#[local] Hint Resolve still_setTunLastError still_Configs still_reachable : preserves.

Lemma still_occupant (r : RT) : preserves (still E r) (occupant T).
Proof. unfold occupant. solve_preserves. Qed.

#[local] Hint Resolve still_occupant : preserves.

Lemma still_detectTunConflict (r : RT) : preserves (still E r) (detectTunConflict E T).
Proof. unfold detectTunConflict, selfFromLive. solve_preserves. Qed.

Lemma still_captureTunLive (r : RT) : preserves (still E r) (captureTunLive E).
Proof. unfold captureTunLive. solve_preserves. Qed.

Lemma still_observe_enable (r : RT) : preserves (still E r) (observe_enable E).
Proof. unfold observe_enable. solve_preserves. Qed.

Lemma Configs_spec (r r' : RT) (d : Document) : Configs E r = (Ok d, r') -> d = k_Configs (kernel (mgr r)).
Proof.
  unfold Configs. intros Hr. apply st_bind_inv in Hr as ([k|] & r1 & Hk & Hr); [|done]. injection Hr as <- _.
  apply onM_inv in Hk as (w & Hk & _). apply read_kernel_spec in Hk as [_ Hk]. by rewrite (Hk k eq_refl).
Qed.

Lemma observe_enable_spec (r r' : RT) (b : bool) (x : option error) :
  observe_enable E r = ((Some b, x), r') -> liveTunEnable (k_Configs (kernel (mgr r))) = Some b.
Proof.
  unfold observe_enable. intros Hr. apply st_bind_inv in Hr as ([d|] & r1 & Hd & Hr); [|done]. injection Hr as Hb _ _.
  by apply Configs_spec in Hd as ->.
Qed.

(** *** Preparing *)

Lemma prepareTunConfig_spec (k : Catalog) (s : Settings) (g : Z) (base : option Document) (r r' : RT) (x : result configCandidate) :
  prepareTunConfigWithSettings E k s g base r = (x, r') ->
  still E r r' /\ forall c, x = Ok c -> coherent c /\ exists d, Generate d ∅ s = Ok (c_content c).
Proof.
  unfold prepareTunConfigWithSettings. intros Hr. case_if_in Hr.
  - split; [eapply still_prepareCatalogConfigWithSettings; [exact Hr|apply still_refl]|].
    by apply prepareCatalogConfigWithSettings_spec in Hr as [_ Hr].
  - assert (Hst : still E r r').
    { eapply still_step; [| |exact Hr|apply still_refl]; [intros a b y Hy; by apply prepareConfigWithSettings_spec in Hy as [Hy _]|].
      unfold prepareConfigWithSettings. solve_preserves. apply saved_prepareContent. }
    split; [done|]. intros c Hc. apply prepareConfigWithSettings_spec in Hr as [_ Hr]. destruct (Hr c Hc). eauto.
Qed.

(** *** Applying without a trusted core *)

(** The request may have changed the core and the routing that is saved with it. *)
Definition nearly (r r' : RT) : Prop :=
  store (mgr r') = store (mgr r) /\ same_but_routing (settings (mgr r)) (settings (mgr r')) /\ (saved E r -> saved E r').

Lemma nearly_refl (r : RT) : nearly r r.
Proof. split; [done|]. split; [apply same_but_routing_refl|done]. Qed.

Lemma nearly_trans (a b c : RT) : nearly a b -> nearly b c -> nearly a c.
Proof. intros (? & ? & ?) (? & ? & ?). split; [congruence|]. split; [by eapply same_but_routing_trans|auto]. Qed.

Lemma still_nearly (r r' : RT) : still E r r' -> nearly r r'.
Proof.
  intros [(Hf & _ & _ & Hs & _) Hsv]. destruct Hf as (_ & _ & _ & Hst). split; [done|]. rewrite Hs.
  split; [apply same_but_routing_refl|done].
Qed.

Lemma commit_nearly (b : bool) (c : configCandidate) (r r' : RT) (x : option error) :
  commitRuntimeConfig E b c r = (x, r') -> nearly r r'.
Proof.
  intros Hr. apply commitRuntimeConfig_moves in Hr as (Hst & Hm & _). split; [done|].
  destruct Hm as [[Hs Hf]|(Hs & _ & Hp)]; [|by split].
  rewrite Hs. split; [apply same_but_routing_refl|]. unfold saved, persisted. by rewrite Hs, Hf.
Qed.

Lemma kernel_call_nearly (r r' : RT) (x : option error) : onM (kernel_call (re_env E)) r = (x, r') -> nearly r r'.
Proof.
  intros Hr. apply onM_inv in Hr as (w & Hr & ->). apply kernel_call_frame in Hr as (k & n & ->).
  split; [done|]. split; [apply same_but_routing_refl|done].
Qed.

Lemma applyTun_nearly (next base : option Document) (r r' : RT) (x : option error) :
  applyTun E T next base r = (x, r') -> nearly r r'.
Proof.
  unfold applyTun. intros Hr. apply st_bind_inv in Hr as ([g y] & r1 & Ha & Hr).
  apply st_bind_inv in Hr as ([] & r2 & Hcl & Hr). injection Hr as <- <-.
  cut (nearly r r1 /\ forall c, g = Some c -> coherent c).
  { intros [Hn Hco]. eapply nearly_trans; [exact Hn|]. apply still_nearly. destruct g as [g|]; [|injection Hcl as <-; apply still_refl].
    eapply still_cleanup; [by apply Hco|exact Hcl|apply still_refl]. }
  clear Hcl. unfold apply_steps in Ha. unfold st_bind at 1, st_get in Ha. cbn beta iota in Ha.
  apply st_bind_inv in Ha as ([g' z] & r3 & Hg & Ha).
  assert (Hg' : nearly r r3 /\ forall c, g' = Some c -> coherent c).
  { case_if_in Hg; [|injection Hg as <- <- <-; split; [apply nearly_refl|done]].
    unfold regenerate in Hg. unfold st_bind at 1, st_get in Hg. cbn beta iota in Hg.
    apply st_bind_inv in Hg as (c & r4 & Hp & Hg). apply prepareTunConfig_spec in Hp as [Hst Hc].
    destruct c as [c|]; [|injection Hg as <- <- <-; split; [by apply still_nearly|done]].
    apply st_bind_inv in Hg as (w & r5 & Hcm & Hg). injection Hg as <- <- <-. apply commit_nearly in Hcm.
    split; [eapply nearly_trans; [by apply still_nearly|done]|]. intros c' [= <-]. by apply (Hc c). }
  destruct Hg' as [Hn Hco]. case_if_in Ha; [by injection Ha as <- <- <-|].
  apply st_bind_inv in Ha as ([p w] & r4 & Hp & Ha). injection Ha as <- <- <-. split; [|done].
  eapply nearly_trans; [exact Hn|]. unfold patch_tun in Hp. case_if_in Hp; [|injection Hp as _ _ <-; apply nearly_refl].
  apply st_bind_inv in Hp as (v & r5 & Hk & Hp). injection Hp as _ _ <-. by eapply kernel_call_nearly.
Qed.

(** The core reports the block again. *)
Definition live_restored (before : Document) (k : Kernel) : Prop :=
  exists observed wanted, normalizedLiveTun (k_Configs k) = Ok observed /\ normalizeTunBlock before = Ok wanted /\
    same_block observed wanted = true.

Lemma restoreTunLive_spec (target : Document) (r r' : RT) (x : option error) :
  restoreTunLive E T target r = (x, r') -> nearly r r' /\ (x = None -> live_restored target (kernel (mgr r'))).
Proof.
  unfold restoreTunLive. intros Hr. apply st_bind_inv in Hr as (y & r1 & Ha & Hr). apply applyTun_nearly in Ha.
  destruct y as [y|]; [injection Hr as <- <-; by split|]. case_if_in Hr; [injection Hr as <- <-; by split|].
  apply st_bind_inv in Hr as (d & r2 & Hd & Hr). injection Hr as <- <-.
  pose proof (still_Configs r1 _ _ _ Hd (still_refl E r1)) as Hst.
  split; [eapply nearly_trans; [done|by apply still_nearly]|]. destruct d as [d|]; [|done]. apply Configs_spec in Hd as ->.
  destruct Hst as [(_ & _ & _ & _ & Hk & _) _]. rewrite Hk. intros Hx. unfold live_restored.
  destruct (normalizedLiveTun _) as [observed|]; [|done]. destruct (normalizeTunBlock target) as [wanted|]; [|done].
  exists observed, wanted. by destruct (same_block observed wanted).
Qed.

(** A change of the settings and their file alone. *)
Lemma restoreSettings_nearly (before : Settings) (r r' : RT) (cr : CommitResult) (x : option error) :
  onM (restoreSettings (re_options E) (re_env E) before) r = ((cr, x), r') ->
  store (mgr r') = store (mgr r) /\ kernel (mgr r') = kernel (mgr r) /\ (saved E r -> saved E r') /\
  (x = None -> settings (mgr r') = before).
Proof.
  intros Hr. apply onM_inv in Hr as (w & Hr & ->). apply restoreSettings_spec in Hr as ((? & ? & ? & ? & ->) & Hp & Hs).
  split; [done|]. split; [done|]. split; [exact Hp|]. by intros ->.
Qed.

Lemma fresh_store (v : option Z) (r r' : RT) : store (mgr r') = store (mgr r) -> fresh v (mgr r) -> fresh v (mgr r').
Proof. unfold fresh. by intros ->. Qed.

Lemma onM_degrade (op : Operation) (v : option Z) (causes : option error) (r r' : RT) (s : Snapshot) (x : option error) :
  onM (updateStateLocked (mkCommandMeta (op_ID op) (op_Source op) v) (degrade causes)) r = ((s, x), r') ->
  fresh v (mgr r) -> x <> None /\ fenced r'.
Proof.
  intros Hr Hf. apply onM_inv in Hr as (w & Hr & ->). apply updateState_degrade in Hr as (Hx & Hd & Hh & _); [|exact Hf].
  split; [done|]. by split.
Qed.

(** The outcome of a compensation. *)
Definition compensated (c : settingsCandidate) (restoreLive : bool) (before : option Document) (r r' : RT) : Prop :=
  fenced r'
  \/ saved E r' /\
     if restoreLive
     then same_but_routing (cand_before c) (settings (mgr r')) /\
          exists b, before = Some b /\ live_restored b (kernel (mgr r'))
     else settings (mgr r') = cand_before c /\ kernel (mgr r') = kernel (mgr r).

Lemma compensateTun_spec (op : Operation) (c : settingsCandidate) (cause : error) (restoreLive : bool) (before : option Document)
    (r r' : RT) (x : option error) :
  compensateTun E T op c cause restoreLive before r = (x, r') -> fresh (op_IfRevision op) (mgr r) -> saved E r ->
  x <> None /\ compensated c restoreLive before r r'.
Proof.
  unfold compensateTun. intros Hr Hfr Hsv. apply st_bind_inv in Hr as ([cr y] & r1 & Hs & Hr).
  apply restoreSettings_nearly in Hs as (Hst1 & Hk1 & Hsv1 & Hs1). specialize (Hsv1 Hsv).
  apply st_bind_inv in Hr as (z & r2 & Hz & Hr).
  assert (Hr2 : nearly r1 r2 /\ (z = None -> if restoreLive then exists b, before = Some b /\ live_restored b (kernel (mgr r2))
                                            else r2 = r1)).
  { destruct restoreLive; [|injection Hz as <- <-; split; [apply nearly_refl|done]].
    destruct before as [b|]; [|injection Hz as <- <-; split; [apply nearly_refl|done]].
    apply restoreTunLive_spec in Hz as [Hn Hz]. split; [done|]. intros Hx. exists b. auto. }
  destruct Hr2 as [(Hst2 & Hro & Hsv2) Hz2].
  assert (Hend : y = None /\ z = None \/
    (do! (if trustedCore (re_options E) then onM (st_modify (set_stop true)) else st_ret tt) in
     let! '(_, err) := onM (updateStateLocked (mkCommandMeta (op_ID op) (op_Source op) (op_IfRevision op))
                              (degrade (errors_Join (errors_Join (Some cause) y) z))) in st_ret err) r2 = (x, r')).
  { destruct y, z; auto. }
  destruct Hend as [[-> ->]|Hend].
  - injection Hr as <- <-. split; [done|]. right. specialize (Hs1 eq_refl). specialize (Hz2 eq_refl). split; [auto|].
    destruct restoreLive; [by rewrite <- Hs1|]. by subst r2.
  - clear Hr. apply st_bind_inv in Hend as ([] & r3 & Hstop & Hr). apply st_bind_inv in Hr as ([sn err] & r4 & Hd & Hr).
    injection Hr as <- <-. apply onM_degrade in Hd as [Hx Hf]; [split; [done|by left]|].
    eapply fresh_store; [|exact Hfr].
    assert (store (mgr r3) = store (mgr r2)) as -> by (case_if_in Hstop;
      [by apply onM_inv in Hstop as (w & [= <-] & ->)|by injection Hstop as <-]). congruence.
Qed.

Lemma markConfigDegraded_keeps (x : error) (r r' : RT) :
  markConfigDegraded E x r = (tt, r') ->
  settings (mgr r') = settings (mgr r) /\ kernel (mgr r') = kernel (mgr r) /\ (saved E r -> saved E r') /\ (fenced r -> fenced r').
Proof.
  unfold markConfigDegraded. intros Hm. case_if_in Hm; [by injection Hm as <-|].
  apply st_bind_inv in Hm as ([] & r1 & Hst & Hm).
  assert (Hr1 : settings (mgr r1) = settings (mgr r) /\ kernel (mgr r1) = kernel (mgr r) /\ fs (mgr r1) = fs (mgr r) /\
                (mutationDegraded (mgr r) = true -> mutationDegraded (mgr r1) = true)).
  { case_if_in Hst; [by apply onM_inv in Hst as (w & [= <-] & ->)|by injection Hst as <-]. }
  destruct Hr1 as (Hs & Hk & Hf & Hd). st_unfold. cbn in Hm. injection Hm as <-. cbn. split; [done|]. split; [done|].
  split; [unfold saved, persisted; cbn; by rewrite Hs, Hf|]. intros [Hdeg _]. split; [by apply Hd|done].
Qed.

(** What a request finds: other requests ran before it took ownership, and with a
    trusted core the level of the core may have been adopted first. *)
Definition found (r r0 : RT) : Prop :=
  since E r r0 \/ exists a b x, since E r a /\ SyncLogging E a = (x, b) /\ since E b r0.

(** Where the request began. *)
Context (rs : RT).

(** What is known of other adapters: nothing without a driver or when it fails, or
    what it lists without what the daemon itself owned at some moment of the request. *)
Definition detected (conflict : option TunConflict) : Prop :=
  match tn_detect T with
  | None => conflict = None
  | Some detect =>
      exists n, match detect n with
                | Err _ => conflict = None
                | Ok d => exists r1 r2 self, found rs r1 /\ selfFromLive E T r1 = (self, r2) /\ conflict = Classify d self
                end
  end.

(** Other adapters were looked for, and do not stand in the way. *)
Definition cleared (enable force : bool) (conflict : option TunConflict) : Prop :=
  tun_gated enable force conflict = false /\ detected conflict.

Lemma found_refl (r : RT) : found r r.
Proof. left. apply since_refl. Qed.

Lemma found_since (r a b : RT) : found r a -> since E a b -> found r b.
Proof.
  intros [Ha|(c & d & x & Hc & Hs & Hd)] Hab; [left; by eapply since_trans|right]. exists c, d, x. split; [done|]. split; [done|].
  by eapply since_trans.
Qed.

Lemma detectTunConflict_spec (r r' : RT) (conflict : option TunConflict) :
  detectTunConflict E T r = (conflict, r') -> found rs r -> detected conflict.
Proof.
  unfold detectTunConflict, detected. intros Hr Hf. destruct (tn_detect T) as [detect|]; [|by injection Hr as <- _].
  apply st_bind_inv in Hr as (n & r1 & Hn & Hr). exists n.
  assert (Hf1 : found rs r1).
  { eapply found_since; [exact Hf|]. eapply since_still; [apply since_refl|].
    eapply (still_later E); [|exact Hn|apply still_refl]. intros w w' a [= _ <-]. apply later_ticked. }
  destruct (detect n) as [d|x]; [|by injection Hr as <- _]. apply st_bind_inv in Hr as (self & r2 & Hs & Hr). injection Hr as <- _.
  by exists r1, r2, self.
Qed.

(** The outcome of a request that owns the mutation. *)
Definition tun_done (enable force : bool) (r r' : RT) (res : result TunStatus) : Prop :=
  match res with
  | Ok status =>
      saved E r' /\ same_but_routing (manage_tun enable (settings (mgr r))) (settings (mgr r')) /\
      liveTunEnable (k_Configs (kernel (mgr r'))) = Some enable /\
      DesiredEnable status = enable /\ LiveEnable status = Some enable /\ cleared enable force (Conflict status)
  | Err _ =>
      fenced r'
      \/ saved E r' /\
         (settings (mgr r') = settings (mgr r) /\ kernel (mgr r') = kernel (mgr r)
          \/ same_but_routing (settings (mgr r)) (settings (mgr r')) /\
             exists b, block_before (k_Configs (kernel (mgr r))) = (Some b, true, None) /\ live_restored b (kernel (mgr r')))
  end.

Lemma manage_tun_enable (enable : bool) (s : Settings) : tunDesiredEnable (Tun (manage_tun enable s)) = enable.
Proof. unfold manage_tun, tunDesiredEnable, enable_of, buildManagedTun. cbn. by rewrite lookup_insert_eq. Qed.

(** Giving up, without or with a restoration of the live block. *)
Lemma take_back_spec (op : Operation) (enable force : bool) (c : settingsCandidate) (cause : error) (restoreLive : bool)
    (before : option Document) (r0 r r' : RT) (res : result TunStatus) :
  take_back E T op c cause restoreLive before r = (res, r') ->
  fresh (op_IfRevision op) (mgr r) -> saved E r -> cand_before c = settings (mgr r0) ->
  (if restoreLive then block_before (k_Configs (kernel (mgr r0))) = (before, true, None) else kernel (mgr r) = kernel (mgr r0)) ->
  tun_done enable force r0 r' res.
Proof.
  unfold take_back. intros Hr Hfr Hsv Hb Hk. apply st_bind_inv in Hr as (x & r1 & Hc & Hr). injection Hr as <- <-.
  apply compensateTun_spec in Hc as [Hx Hc]; [|done..]. destruct x as [x|]; [|done]. cbn.
  destruct Hc as [Hc|[Hsv1 Hc]]; [by left|right]. split; [done|]. rewrite Hb in Hc. destruct restoreLive.
  - right. destruct Hc as [Hs (b & -> & Hlive)]. split; [done|]. by exists b.
  - left. destruct Hc as [Hs Hk1]. split; [done|congruence].
Qed.

Lemma captureTunLive_spec (r r' : RT) (b : option Document) (x : option error) :
  captureTunLive E r = ((b, true, x), r') -> block_before (k_Configs (kernel (mgr r))) = (b, true, x).
Proof.
  unfold captureTunLive. intros Hr. apply st_bind_inv in Hr as (ok & r1 & Hok & Hr).
  pose proof (still_reachable r _ _ _ Hok (still_refl E r)) as [(_ & _ & _ & _ & Hk & _) _]. case_if_in Hr; [done|].
  apply st_bind_inv in Hr as (d & r2 & Hd & Hr). destruct d as [d|]; [|done]. injection Hr as Hr _.
  apply Configs_spec in Hd as ->. by rewrite <- Hk.
Qed.

Lemma block_known (d : Document) (b : option Document) (x : option error) : block_before d = (b, true, x) -> x = None.
Proof.
  unfold block_before. intros Hb. destruct (d !! "tun"%string) as [[]|]; try done; try congruence.
  destruct (enable_of _); [|done]. destruct (normalizeTunBlock _); congruence.
Qed.

Lemma still_world (r r' : RT) :
  still E r r' ->
  settings (mgr r') = settings (mgr r) /\ kernel (mgr r') = kernel (mgr r) /\ store (mgr r') = store (mgr r) /\ (saved E r -> saved E r').
Proof. intros [(Hf & _ & _ & Hs & Hk & _) Hsv]. destruct Hf as (_ & _ & _ & Hst). done. Qed.

(** Steps that leave a failed request as it is. *)
Lemma tun_failed_marked (enable force : bool) (r0 r r' : RT) (x y : error) :
  tun_done enable force r0 r (Err y) -> markConfigDegraded E x r = (tt, r') -> tun_done enable force r0 r' (Err y).
Proof.
  intros Hd Hm. apply markConfigDegraded_keeps in Hm as (Hs & Hk & Hsv & Hf). unfold tun_done in *. rewrite Hs, Hk.
  destruct Hd as [Hd|[Hd1 Hd2]]; [left; auto|right; auto].
Qed.

Lemma take_back_failed (op : Operation) (c : settingsCandidate) (cause : error) (b : bool) (before : option Document)
    (r r' : RT) (res : result TunStatus) :
  take_back E T op c cause b before r = (res, r') -> fresh (op_IfRevision op) (mgr r) -> saved E r -> exists x, res = Err x.
Proof.
  unfold take_back. intros Hr Hfr Hsv. apply st_bind_inv in Hr as (x & r1 & Hc & Hr). injection Hr as <- <-.
  apply compensateTun_spec in Hc as [Hx _]; [|done..]. destruct x as [x|]; [by exists x|done].
Qed.

(** The state in which [mutateTun] applies a change that is already saved. *)
Record tun_saved (op : Operation) (enable : bool) (c : settingsCandidate) (r0 r : RT) : Prop := {
  ts_before : cand_before c = settings (mgr r0);
  ts_after : cand_after c = manage_tun enable (settings (mgr r0));
  ts_settings : same_but_routing (cand_after c) (settings (mgr r));
  ts_fresh : fresh (op_IfRevision op) (mgr r);
  ts_saved : saved E r
}.

Lemma tun_saved_nearly (op : Operation) (enable : bool) (c : settingsCandidate) (r0 r r' : RT) :
  tun_saved op enable c r0 r -> nearly r r' -> tun_saved op enable c r0 r'.
Proof.
  intros [Hb Ha Hs Hf Hsv] (Hst & Hro & Hsv'). split; [done|done|by eapply same_but_routing_trans|by eapply fresh_store|auto].
Qed.

Lemma tun_saved_still (op : Operation) (enable : bool) (c : settingsCandidate) (r0 r r' : RT) :
  tun_saved op enable c r0 r -> still E r r' -> tun_saved op enable c r0 r'.
Proof. intros Ht Hst. eapply tun_saved_nearly; [exact Ht|by apply still_nearly]. Qed.

Lemma confirm_tun_spec (op : Operation) (enable force : bool) (conflict : option TunConflict) (c : settingsCandidate)
    (before : option Document) (r0 r r' : RT) (res : result TunStatus) :
  confirm_tun E T op enable conflict c before r = (res, r') -> tun_saved op enable c r0 r ->
  block_before (k_Configs (kernel (mgr r0))) = (before, true, None) -> cleared enable force conflict ->
  tun_done enable force r0 r' res.
Proof.
  unfold confirm_tun. intros Hr Hts Hblock Hgate.
  apply st_bind_inv in Hr as (ok & r1 & Hok & Hr). pose proof (still_reachable r _ _ _ Hok (still_refl E r)) as Hst1.
  apply st_bind_inv in Hr as ([live y] & r2 & Ho & Hr).
  assert (Hst2 : still E r1 r2 /\ forall b, live = Some b -> liveTunEnable (k_Configs (kernel (mgr r1))) = Some b).
  { destruct ok; [|injection Ho as <- <- <-; split; [apply still_refl|done]].
    split; [eapply still_observe_enable; [exact Ho|apply still_refl]|]. intros b ->. by eapply observe_enable_spec. }
  destruct Hst2 as [Hst2 Hlive]. pose proof (tun_saved_still _ _ _ _ _ _ (tun_saved_still _ _ _ _ _ _ Hts Hst1) Hst2) as Hts2.
  case_if_in Hr.
  - apply st_bind_inv in Hr as ([] & r3 & Hm & Hr). pose proof (still_setTunLastError r2 _ _ _ _ Hm (still_refl E r2)) as Hst3.
    pose proof (tun_saved_still _ _ _ _ _ _ Hts2 Hst3) as [Hb _ _ Hf Hsv]. by eapply take_back_spec.
  - apply negb_false_iff, bool_decide_eq_true in Heqb. subst live. specialize (Hlive enable eq_refl).
    apply st_bind_inv in Hr as ([] & r3 & Hm & Hr). pose proof (still_setTunLastError r2 _ _ _ _ Hm (still_refl E r2)) as Hst3.
    pose proof (tun_saved_still _ _ _ _ _ _ Hts2 Hst3) as [_ Ha Hs Hf Hsv].
    assert (Hk : kernel (mgr r3) = kernel (mgr r1)).
    { destruct (still_world _ _ Hst3) as (_ & -> & _), (still_world _ _ Hst2) as (_ & -> & _). done. }
    apply st_bind_inv in Hr as ([sn err] & r4 & Hd & Hr). apply onM_inv in Hd as (w & Hd & ->).
    rewrite updateState_keep in Hd by exact Hf. injection Hd as _ <- <-. unfold st_bind, st_get in Hr. injection Hr as <- <-.
    unfold tun_done. cbn [mgr set_mgr]. rewrite <- Ha. cbn. rewrite Hk. split_and!; try done. by rewrite Ha, manage_tun_enable.
Qed.

Lemma apply_saved_tun_spec (op : Operation) (enable force : bool) (conflict : option TunConflict) (c : settingsCandidate)
    (r0 r r' : RT) (res : result TunStatus) :
  apply_saved_tun E T op enable conflict c r = (res, r') -> trustedCore (re_options E) = false -> tun_saved op enable c r0 r ->
  kernel (mgr r) = kernel (mgr r0) -> cleared enable force conflict -> tun_done enable force r0 r' res.
Proof.
  unfold apply_saved_tun. intros Hr Ht Hts Hk Hgate.
  apply st_bind_inv in Hr as (x & r1 & Hx & Hr). pose proof (still_ctxErr E r _ _ _ Hx (still_refl E r)) as Hst1.
  destruct (still_world _ _ Hst1) as (_ & Hk1 & _). pose proof (tun_saved_still _ _ _ _ _ _ Hts Hst1) as Hts1.
  destruct x as [x|]; [destruct Hts1; eapply take_back_spec; try done; congruence|].
  apply st_bind_inv in Hr as ([[before known] lerr] & r2 & Hc & Hr).
  pose proof (still_captureTunLive r1 _ _ _ Hc (still_refl E r1)) as Hst2.
  destruct (still_world _ _ Hst2) as (_ & Hk2 & _). pose proof (tun_saved_still _ _ _ _ _ _ Hts1 Hst2) as Hts2.
  apply st_bind_inv in Hr as (x & r3 & Hx3 & Hr). pose proof (still_ctxErr E r2 _ _ _ Hx3 (still_refl E r2)) as Hst3.
  destruct (still_world _ _ Hst3) as (_ & Hk3 & _). pose proof (tun_saved_still _ _ _ _ _ _ Hts2 Hst3) as Hts3.
  destruct x as [x|]; [destruct Hts3; eapply take_back_spec; try done; congruence|].
  destruct known; cbn [negb] in Hr.
  2:{ apply st_bind_inv in Hr as ([] & r4 & Hm & Hr). pose proof (still_setTunLastError r3 _ _ _ _ Hm (still_refl E r3)) as Hst4.
      destruct (still_world _ _ Hst4) as (_ & Hk4 & _). destruct (tun_saved_still _ _ _ _ _ _ Hts3 Hst4).
      eapply take_back_spec; try done. congruence. }
  apply captureTunLive_spec in Hc. rewrite Hk1, Hk in Hc. pose proof (block_known _ _ _ Hc) as ->.
  apply st_bind_inv in Hr as (x & r4 & Ha & Hr). apply applyTun_nearly in Ha.
  pose proof (tun_saved_nearly _ _ _ _ _ _ Hts3 Ha) as Hts4. destruct x as [x|]; [|by eapply confirm_tun_spec].
  apply st_bind_inv in Hr as ([] & r5 & Hm & Hr). pose proof (still_setTunLastError r4 _ _ _ _ Hm (still_refl E r4)) as Hst5.
  destruct (tun_saved_still _ _ _ _ _ _ Hts4 Hst5) as [Hb _ _ Hf Hsv].
  apply st_bind_inv in Hr as (res' & r6 & Hg & Hr). apply st_bind_inv in Hr as ([] & r7 & Hmark & Hr). injection Hr as <- <-.
  pose proof Hg as He. apply take_back_failed in He as [y ->]; [|done..].
  eapply tun_failed_marked; [|exact Hmark]. eapply take_back_spec; try done. by rewrite Ht.
Qed.

Lemma tun_done_still (enable force : bool) (r0 r1 r r' : RT) (res : result TunStatus) :
  still E r0 r1 -> tun_done enable force r1 r res -> still E r r' -> (fenced r -> fenced r') -> tun_done enable force r0 r' res.
Proof.
  intros Hst0 Hd Hst Hf. destruct (still_world _ _ Hst0) as (Hs0 & Hk0 & _), (still_world _ _ Hst) as (Hs & Hk & _ & Hsv).
  unfold tun_done in *. rewrite Hs, Hk. rewrite Hs0, ?Hk0 in Hd. destruct res as [status|x].
  - destruct Hd as (Hd & Hrest). auto.
  - destruct Hd as [Hd|[Hd Hrest]]; [left; auto|right; auto].
Qed.

Lemma tun_refused (enable force : bool) (r0 r : RT) (x : error) : still E r0 r -> saved E r0 -> tun_done enable force r0 r (Err x).
Proof. intros Hst Hsv. destruct (still_world _ _ Hst) as (Hs & Hk & _ & Hsv'). right. split; [auto|by left]. Qed.

Lemma owned_tun_spec (op : Operation) (enable force : bool) (r r' : RT) (res : result TunStatus) :
  owned_tun E T op enable force r = (res, r') -> trustedCore (re_options E) = false -> saved E r -> found rs r ->
  tun_done enable force r r' res.
Proof.
  unfold owned_tun. intros Hr Ht Hsv Hfound. pose proof (still_refl E r) as Hst.
  apply st_check_inv in Hr as [(x & -> & Hx)|(r1 & Hx & Hr)]; pose proof (still_ctxErr E r _ _ _ Hx Hst) as Hst1; [by apply tun_refused|].
  apply st_check_inv in Hr as [(x & -> & Hx2)|(r2 & Hx2 & Hr)];
    pose proof (still_checkIfRevision E r _ _ _ _ Hx2 Hst1) as Hst2; [by apply tun_refused|].
  assert (Hfr : fresh (op_IfRevision op) (mgr r2)).
  { apply onM_inv in Hx2 as (w & Hx2 & ->). apply checkIfRevision_spec in Hx2 as [-> Hx2]. exact (Hx2 eq_refl). }
  apply st_bind_inv in Hr as (conflict & r3 & Hc & Hr).
  assert (Hdet : detected conflict).
  { eapply detectTunConflict_spec; [exact Hc|]. eapply found_since; [exact Hfound|]. eapply since_still; [apply since_refl|exact Hst2]. }
  pose proof (still_detectTunConflict r2 _ _ _ Hc (still_refl E r2)) as Hst3.
  apply st_check_inv in Hr as [(x & -> & Hx4)|(r4 & Hx4 & Hr)];
    pose proof (still_ctxErr E r2 _ _ _ Hx4 Hst3) as Hst4;
    pose proof (still_trans E _ _ _ Hst2 Hst4) as Hst04; [by apply tun_refused|].
  case_if_in Hr; [injection Hr as <- <-; by apply tun_refused|].
  destruct (still_world _ _ Hst04) as (Hs4 & Hk4 & Hstore4 & Hsv4). specialize (Hsv4 Hsv).
  apply st_try_inv in Hr as [(x & -> & Hu)|(c & r5 & Hu & Hr)]; apply onM_inv in Hu as (w & Hu & Hr5);
    apply updateSettings_spec in Hu as ((? & ? & ? & ? & Hframe) & Hp & Hu).
  - right. subst r' w. cbn in *. split; [by apply Hp|]. left. split; congruence.
  - destruct Hu as (Hb & Ha & _ & Hset & _). injection Ha as Ha.
    assert (Hts : tun_saved op enable c r4 r5 /\ kernel (mgr r5) = kernel (mgr r4)).
    { clear Hr. subst r5 w. cbn in *. split; [|done].
      split; cbn; [congruence|congruence|rewrite Hset; apply same_but_routing_refl| |by apply Hp].
      eapply fresh_store; [|exact Hfr]. cbn. by destruct (still_world _ _ Hst4) as (_ & _ & -> & _). }
    destruct Hts as [Hts Hk5]. eapply apply_saved_tun_spec in Hr; [|done|exact Hts|exact Hk5|by split; [exact Heqb|]].
    unfold tun_done in *. rewrite Hs4, Hk4 in Hr. exact Hr.
Qed.

(** *** With a trusted core *)

(** The settings file holds [s]. *)
Definition file_holds (s : Settings) (r : RT) : Prop :=
  settingsPath (re_options E) <> ""%string -> sf_saved (fs (mgr r)) = Some (canonical s).

(** A step on the settings and their file. *)
Definition settings_step (r r' : RT) : Prop :=
  svc r' = svc r /\ trusted r' = trusted r /\ loaded r' = loaded r /\ store (mgr r') = store (mgr r) /\ kernel (mgr r') = kernel (mgr r).

Lemma settings_step_frame (r r' : RT) :
  settings_step r r' -> config_frame E r r' /\ active_config E r' = active_config E r /\ loaded r' = loaded r.
Proof.
  intros (Hs & Ht & Hl & Hst & _). unfold config_frame, active_config, same_setup. rewrite Hs, Ht, Hl, Hst. done.
Qed.

Lemma save_step (c : settingsCandidate) (r r' : RT) (cr : CommitResult) (x : option error) :
  onM (saveSettingsCandidate (re_options E) (re_env E) c) r = ((cr, x), r') ->
  settings_step r r' /\ settings (mgr r') = settings (mgr r) /\
  match x with
  | None => if cand_changed c then file_holds (cand_after c) r' else sf_saved (fs (mgr r')) = sf_saved (fs (mgr r))
  | Some _ => sf_saved (fs (mgr r')) = sf_saved (fs (mgr r))
  end.
Proof.
  intros Hs. apply onM_inv in Hs as (w & Hs & ->). apply saveSettingsCandidate_spec in Hs as (n & f & -> & Hs).
  split; [done|]. split; [done|]. destruct x as [x|]; [by destruct Hs|]. destruct Hs as [_ Hs]. unfold file_holds. cbn in *.
  destruct (cand_changed c); cbn in Hs; [|by rewrite Hs]. intros Hne. destruct (String.eqb_spec (settingsPath (re_options E)) ""); [done|exact Hs].
Qed.

Lemma publish_step (c : settingsCandidate) (r r' : RT) :
  onM (publishSettings c) r = (tt, r') ->
  settings_step r r' /\ sf_saved (fs (mgr r')) = sf_saved (fs (mgr r)) /\
  settings (mgr r') = if cand_changed c then cand_after c else settings (mgr r).
Proof.
  intros Hp. apply onM_inv in Hp as (w & Hp & ->). unfold publishSettings in Hp. by destruct (cand_changed c); injection Hp as <-.
Qed.

Lemma file_holds_same (s : Settings) (r r' : RT) : sf_saved (fs (mgr r')) = sf_saved (fs (mgr r)) -> file_holds s r -> file_holds s r'.
Proof. unfold file_holds. by intros ->. Qed.

Lemma settings_step_trans (a b c : RT) : settings_step a b -> settings_step b c -> settings_step a c.
Proof. intros (? & ? & ? & ? & ?) (? & ? & ? & ? & ?). unfold settings_step. split_and!; congruence. Qed.

Lemma kept_read_kernel (r0 : RT) : preserves (kept r0) (onM (read_kernel (re_env E))).
Proof. apply kept_later. intros w w' a Ha. by apply read_kernel_spec in Ha as [Ha _]. Qed.

#[local] Hint Resolve kept_read_kernel : preserves.

Lemma kept_rollback_config (r0 : RT) (before : Settings) (previous : option string) :
  preserves (kept r0) (rollback_config E before previous).
Proof.
  unfold rollback_config, restore_previous, confirm_previous, observe_enable, Configs. solve_preserves.
  apply kept_kernel. intros ? ? ? Hlive. unfold st_bind, st_get in Hlive. by apply applyRoutingLive_spec in Hlive as [Hlive _].
Qed.

(** Putting the configuration back. *)
Lemma rollback_config_spec (before : Settings) (previous : option string) (r r' : RT) (x : option error) :
  rollback_config E before previous r = (x, r') -> trustedCore (re_options E) = true -> re_reloader E = true ->
  config_frame E r r' /\
  (x = None -> match previous with
               | None => active_config E r' = active_config E r /\ loaded r' = loaded r
               | Some p => active_config E r' = Some p /\ loaded r' = Some p
               end).
Proof.
  unfold rollback_config. intros Hr Ht Hrel.
  destruct previous as [p|]; [|injection Hr as <- <-; split; [apply config_frame_refl|done]].
  assert (Hsame : forall a, restore_previous E p a = restoreRoutingConfig E p a).
  { intros a. unfold restore_previous, restoreRoutingConfig. by rewrite Ht, Hrel. }
  apply st_bind_inv in Hr as (y & r1 & Hy & Hr). rewrite Hsame in Hy.
  apply restoreRoutingConfig_spec in Hy as (Hf1 & _ & Hok1).
  apply st_bind_inv in Hr as (z & r2 & Hz & Hr).
  assert (Hst2 : still E r1 r2 /\ (z = None -> y = None)).
  { destruct y as [y|]; [injection Hz as <- <-; split; [apply still_refl|done]|]. split; [|done].
    unfold confirm_previous in Hz. apply st_bind_inv in Hz as ([live err] & r3 & Ho & Hz).
    pose proof (still_observe_enable r1 _ _ _ Ho (still_refl E r1)) as Hst. by destruct (ParseDocument p); injection Hz as _ <-. }
  destruct Hst2 as [[(Hf2 & Ha2 & Hl2 & _) _] Hzy].
  assert (Hcfg2 : config_frame E r r2 /\ (z = None -> active_config E r2 = Some p /\ loaded r2 = Some p)).
  { split; [by eapply config_frame_trans|]. intros Hz0. destruct (Hok1 (Hzy Hz0)). split; congruence. }
  destruct Hcfg2 as [Hf Hcfg2]. destruct z as [z|]; [by injection Hr as <- <-|].
  destruct (Settings.Routing before); [|by injection Hr as <- <-].
  apply onM_frame with (E := E) in Hr as (Hf3 & Ha3 & Hl3).
  2:{ intros w w' b Hb. unfold st_bind, st_get in Hb. by apply applyRoutingLive_spec in Hb as [(k & n & ->) _]. }
  split; [by eapply config_frame_trans|]. intros _. rewrite Ha3, Hl3. auto.
Qed.

(** The outcome of a rollback. *)
Definition rolled (c : settingsCandidate) (previous : option string) (r r' : RT) : Prop :=
  config_frame E r r' /\
  (if cand_changed c then settings (mgr r') = cand_before c /\ file_holds (cand_before c) r'
   else settings (mgr r') = settings (mgr r) /\ sf_saved (fs (mgr r')) = sf_saved (fs (mgr r))) /\
  match previous with
  | None => active_config E r' = active_config E r /\ loaded r' = loaded r
  | Some p => active_config E r' = Some p /\ loaded r' = Some p
  end.

Lemma rollbackTrustedTun_spec (op : Operation) (c : settingsCandidate) (previous : option string) (cause : error)
    (r r' : RT) (x : option error) :
  rollbackTrustedTun E T op c previous cause r = (x, r') ->
  trustedCore (re_options E) = true -> re_reloader E = true -> (forall n, tn_recovery T n = None) ->
  x <> None /\ (fenced r' \/ rolled c previous r r').
Proof.
  unfold rollbackTrustedTun. intros Hr Ht Hrel Hrec. apply st_bind_inv in Hr as ([cr y] & r1 & Hs & Hr).
  apply save_step in Hs as (Hstep1 & Hs1 & Hf1). cbn [cand_changed cand_after] in Hf1.
  apply st_bind_inv in Hr as ([] & r2 & Hp & Hr). apply st_bind_inv in Hr as (z & r3 & Hz & Hr).
  destruct (kept_rollback_config r2 _ _ _ _ _ Hz (kept_world_refl r2)) as (Hs3 & Hf3 & _). apply rollback_config_spec in Hz as [Hcf Hz]; [|done..].
  assert (Hend : y = None /\ z = None \/
    (do! onM (st_modify (set_stop true)) in
     let! n := onM Manager.tick in
     let! '(_, err) := onM (Do (tn_recovery T n) (mkCommandMeta (op_ID op) (op_Source op) None)
                              (degrade (errors_Join (errors_Join (Some cause) y) z))) in st_ret err) r3 = (x, r')).
  { destruct y, z; auto. }
  destruct Hend as [[-> ->]|Hend].
  - injection Hr as <- <-. split; [done|]. right. apply publish_step in Hp as (Hstep2 & Hf2 & Hs2). cbn [cand_changed cand_after] in Hs2.
    pose proof (settings_step_trans _ _ _ Hstep1 Hstep2) as Hstep. apply settings_step_frame in Hstep as (Hcf1 & Ha1 & Hl1).
    split; [by eapply config_frame_trans|]. split.
    + destruct (cand_changed c); [split; [congruence|]|split; congruence].
      eapply file_holds_same; [|exact Hf1]. congruence.
    + specialize (Hz eq_refl). destruct previous; [done|]. destruct Hz. split; congruence.
  - clear Hr. apply st_bind_inv in Hend as ([] & r4 & _ & Hr). apply st_bind_inv in Hr as (n & r5 & _ & Hr).
    apply st_bind_inv in Hr as ([sn err] & r6 & Hd & Hr). injection Hr as <- <-. rewrite Hrec in Hd.
    apply (onM_degrade op None) in Hd as [Hx Hfe]; [|done]. split; [done|by left].
Qed.

(** The settings are saved and not yet published. *)
Record tun_staged (enable : bool) (c : settingsCandidate) (r0 r : RT) : Prop := {
  sg_before : cand_before c = settings (mgr r0);
  sg_after : cand_after c = manage_tun enable (settings (mgr r0));
  sg_changed : cand_changed c = changed (cand_before c) (cand_after c);
  sg_settings : settings (mgr r) = settings (mgr r0);
  sg_file : file_holds (cand_after c) r;
  sg_frame : config_frame E r0 r;
  sg_active : active_config E r = active_config E r0;
  sg_loaded : loaded r = loaded r0
}.

(** The outcome of a request with a trusted core. *)
Definition trusted_done (enable force : bool) (r0 r' : RT) (res : result TunStatus) : Prop :=
  match res with
  | Ok status =>
      sound E r' /\ same_but_routing (manage_tun enable (settings (mgr r0))) (settings (mgr r')) /\
      liveTunEnable (k_Configs (kernel (mgr r'))) = Some enable /\
      (exists d content, Generate d ∅ (manage_tun enable (settings (mgr r0))) = Ok content /\
         active_config E r' = Some content /\ loaded r' = Some content) /\
      DesiredEnable status = enable /\ LiveEnable status = Some enable /\ cleared enable force (Conflict status)
  | Err _ =>
      fenced r'
      \/ sound E r' /\ active_config E r' = active_config E r0 /\ loaded r' = loaded r0 /\
         (settings (mgr r') = settings (mgr r0)
          \/ manage_tun enable (settings (mgr r0)) = settings (mgr r0) /\ same_but_routing (settings (mgr r0)) (settings (mgr r')))
  end.

Lemma unchanged_eq (a b : Settings) : changed a b = false -> a = b.
Proof. unfold changed. intros Hc. by apply negb_false_iff, bool_decide_eq_true in Hc. Qed.

(** A rollback leads back to where the request began. *)
Lemma rolled_done (enable force : bool) (c : settingsCandidate) (previous : option string) (x : error) (r0 r r' : RT) :
  rolled c previous r r' -> good E r0 -> config_frame E r0 r -> cand_before c = settings (mgr r0) ->
  (cand_changed c = false -> manage_tun enable (settings (mgr r0)) = settings (mgr r0) /\ saved E r /\
    same_but_routing (settings (mgr r0)) (settings (mgr r))) ->
  match previous with
  | None => active_config E r = active_config E r0 /\ loaded r = loaded r0
  | Some p => active_config E r0 = Some p
  end -> trusted_done enable force r0 r' (Err x).
Proof.
  intros (Hf & Hs & Hc) Hg Hf0 Hb Hun Hprev. right. pose proof (config_frame_trans E _ _ _ Hf0 Hf) as Hfr.
  assert (Hcfg : active_config E r' = active_config E r0 /\ loaded r' = loaded r0).
  { pose proof Hg as [Hstep _]. unfold in_step in Hstep. destruct previous; destruct Hc; [|destruct Hprev]; split; congruence. }
  destruct Hcfg as [Ha Hl]. assert (Hgood : good E r').
  { eapply good_frame; [exact Hfr| |exact Hg]. destruct Hg as [Hstep _]. unfold in_step in *. congruence. }
  destruct (cand_changed c).
  - destruct Hs as [Hs Hfile]. split; [|split; [done|split; [done|left; congruence]]]. split; [done|].
    unfold file_holds in Hfile. unfold saved, persisted. by rewrite Hs.
  - destruct (Hun eq_refl) as (Hsame & Hsv & Hro). destruct Hs as [Hs Hfile].
    split; [|split; [done|split; [done|right; split; [done|by rewrite Hs]]]]. split; [done|].
    unfold saved, persisted in *. by rewrite Hs, Hfile.
Qed.

Lemma markConfigDegraded_trusted (x : error) (r r' : RT) :
  markConfigDegraded E x r = (tt, r') -> trustedCore (re_options E) = true ->
  if error_degraded x then fenced r' else r' = r.
Proof.
  unfold markConfigDegraded. intros Hm Ht. destruct (error_degraded x); cbn [negb] in Hm; [|by injection Hm as <-].
  rewrite Ht in Hm. apply st_bind_inv in Hm as ([] & r1 & Hs & Hm). apply onM_inv in Hs as (w & [= <-] & ->).
  st_unfold. cbn in Hm. by injection Hm as <-.
Qed.

(** The configuration was refused. *)
Lemma publish_refused (op : Operation) (enable force : bool) (c : settingsCandidate) (g : configCandidate)
    (cause x : error) (y : option error) (r0 r r1 r2 r3 r' : RT) :
  tun_staged enable c r0 r -> sound E r0 -> commitRuntimeConfig E false g r = (Some x, r1) ->
  still E r1 r2 -> kept r1 r2 -> rollbackTrustedTun E T op c None cause r2 = (y, r3) -> markConfigDegraded E x r3 = (tt, r') ->
  trustedCore (re_options E) = true -> re_reloader E = true -> (forall n, tn_recovery T n = None) -> coherent g ->
  y <> None /\ forall z, trusted_done enable force r0 r' (Err z).
Proof.
  intros [Hb Ha Hch Hs Hfile Hf Hact Hld] [Hg Hsv] Hc Hst Hk2 Hrb Hm Ht Hrel Hrec Hco.
  pose proof Hc as Hk. apply commitRuntimeConfig_moves in Hk as (_ & _ & Hk1). specialize (Hk1 ltac:(done)).
  pose proof Hg as [Hstep _]. unfold in_step in Hstep.
  apply commitRuntimeConfig_spec in Hc as [Hf1 Hc]; [|done|done|unfold in_step; congruence].
  apply rollbackTrustedTun_spec in Hrb as [Hy Hrb]; [|done..]. split; [done|]. intros z.
  apply markConfigDegraded_trusted in Hm; [|done]. destruct (error_degraded x) eqn:Hx; [by left|]. subst r'.
  destruct Hc as [Hc|(Hs1 & [Hl1 Ha1] & _)]; [congruence|]. destruct Ha1 as [Ha1|(? & _)]; [|congruence].
  destruct Hrb as [Hfe|Hro]; [by left|]. destruct Hst as [(Hf2 & Ha2 & Hl2 & Hs2 & _) _].
  eapply rolled_done; [exact Hro|done|eauto using config_frame_trans|done| |split; congruence].
  intros Hcc. rewrite Hcc in Hch. symmetry in Hch. apply unchanged_eq in Hch. split; [congruence|]. split.
  - unfold saved, persisted. destruct (kept_world_trans _ _ _ Hk1 Hk2) as (Hk2s & Hk2f & _). rewrite Hk2s, Hk2f.
    rewrite Hs, <- Hb, Hch. exact Hfile.
  - rewrite Hs2, Hs1, Hs. apply same_but_routing_refl.
Qed.

(** The configuration was taken; the reload may have chosen another exit. *)
Record tun_reloaded (enable : bool) (c : settingsCandidate) (content : string) (r0 r : RT) : Prop := {
  rl_before : cand_before c = settings (mgr r0);
  rl_after : cand_after c = manage_tun enable (settings (mgr r0));
  rl_changed : cand_changed c = changed (cand_before c) (cand_after c);
  rl_frame : config_frame E r0 r;
  rl_active : active_config E r = Some content;
  rl_loaded : loaded r = Some content;
  rl_settings :
    settings (mgr r) = settings (mgr r0) /\ file_holds (cand_after c) r
    \/ same_but_routing (settings (mgr r0)) (settings (mgr r)) /\
       Settings.Routing (settings (mgr r)) <> Settings.Routing (settings (mgr r0)) /\ saved E r
}.

Lemma staged_reloaded (enable : bool) (c : settingsCandidate) (g : configCandidate) (r0 r r' : RT) :
  tun_staged enable c r0 r -> commitRuntimeConfig E false g r = (None, r') -> re_reloader E = true -> coherent g -> good E r0 ->
  tun_reloaded enable c (c_content g) r0 r'.
Proof.
  intros [Hb Ha Hch Hs Hfile Hf Hact Hld] Hc Hrel Hco [Hstep _]. unfold in_step in Hstep.
  pose proof Hc as Hm. apply commitRuntimeConfig_moves in Hm as (_ & Hm & _).
  apply commitRuntimeConfig_spec in Hc as [Hf1 [Ha1 Hl1]]; [|done|done|unfold in_step; congruence].
  split; [done|done|done|by eapply config_frame_trans|done|done|].
  destruct Hm as [[Hs1 Hfs]|(Hro & Hne & Hp)]; [left|right].
  - split; [congruence|]. by eapply file_holds_same.
  - rewrite Hs in *. done.
Qed.

Lemma reloaded_still (enable : bool) (c : settingsCandidate) (content : string) (r0 r r' : RT) :
  tun_reloaded enable c content r0 r -> still E r r' -> kept r r' -> tun_reloaded enable c content r0 r'.
Proof.
  intros [Hb Ha Hch Hf Hact Hld Hs] [(Hf' & Ha' & Hl' & Hs' & _) Hsv] (_ & Hfs & _).
  split; [done|done|done|by eapply config_frame_trans|congruence|congruence|]. rewrite Hs'.
  destruct Hs as [[Hs Hfile]|(Hro & Hne & Hp)]; [left|right; auto]. split; [done|]. by eapply file_holds_same.
Qed.

(** Taking it back. *)
Lemma reloaded_rolled (enable force : bool) (c : settingsCandidate) (content previous : string) (x : error) (r0 r r' : RT) :
  tun_reloaded enable c content r0 r -> rolled c (Some previous) r r' -> good E r0 -> active_config E r0 = Some previous ->
  trusted_done enable force r0 r' (Err x).
Proof.
  intros [Hb Ha Hch Hf Hact Hld Hs] Hro Hg Hp. eapply rolled_done; [exact Hro|done|done|done| |done].
  intros Hcc. rewrite Hcc in Hch. symmetry in Hch. apply unchanged_eq in Hch. split; [congruence|].
  destruct Hs as [[Hs Hfile]|(Hs & _ & Hsv)]; [|done]. rewrite Hs. split; [|apply same_but_routing_refl].
  unfold saved, persisted. rewrite Hs, <- Hb, Hch. exact Hfile.
Qed.

(** The fallback of the reload is merged into the candidate. *)
Lemma settle_spec (enable : bool) (c c' : settingsCandidate) (content : string) (x : option error) (r0 r r' : RT) :
  settleRoutingSettings E c r = ((c', x), r') -> tun_reloaded enable c content r0 r ->
  settings_step r r' /\ settings (mgr r') = settings (mgr r) /\ cand_before c' = settings (mgr r0) /\
  same_but_routing (cand_after c) (cand_after c') /\
  match x with
  | Some _ => cand_changed c' = true
  | None => file_holds (cand_after c') r' /\ (cand_changed c' = false -> settings (mgr r') = cand_after c')
  end.
Proof.
  unfold settleRoutingSettings. intros Hr [Hb Ha Hch Hf Hact Hld Hs]. unfold st_bind at 1, st_get in Hr. cbn beta iota in Hr.
  assert (Hrt : Settings.Routing (cand_after c) = Settings.Routing (settings (mgr r0))) by (by rewrite Ha).
  case_if_in Hr.
  - injection Hr as <- <- <-. apply bool_decide_eq_true in Heqb. split; [done|]. split; [done|]. split; [done|].
    split; [apply same_but_routing_refl|]. destruct Hs as [[Hs Hfile]|(_ & Hne & _)]; [|congruence]. split; [done|].
    intros Hcc. rewrite Hcc in Hch. symmetry in Hch. apply unchanged_eq in Hch. congruence.
  - apply bool_decide_eq_false in Heqb. apply st_bind_inv in Hr as ([cr y] & r1 & Hsv & Hr). injection Hr as <- <- <-.
    apply save_step in Hsv as (Hstep & Hs1 & Hfile). cbn [cand_changed cand_after cand_before] in *.
    assert (Hcc : changed (cand_before c) (with_Routing (Settings.Routing (settings (mgr r))) (cand_after c)) = true).
    { unfold changed. apply negb_true_iff, bool_decide_eq_false. intros Heq. apply Heqb. rewrite Hrt, <- Hb, Heq. done. }
    rewrite Hcc in *. split; [done|]. split; [done|]. split; [done|]. split; [by eexists|]. by destruct y.
Qed.

(** The candidate becomes the settings in memory. *)
Lemma publish_sound_tun (op : Operation) (c : settingsCandidate) (r r1 r2 r3 : RT) (sn : Snapshot) (err : option error) (message : string) :
  onM (publishSettings c) r = (tt, r1) -> setTunLastError message r1 = (tt, r2) ->
  onM (updateStateLocked (mkCommandMeta (op_ID op) (op_Source op) (op_IfRevision op))
         (fun s => st_ret (markConfigApplied s, None))) r2 = ((sn, err), r3) ->
  fresh (op_IfRevision op) (mgr r) -> good E r -> file_holds (cand_after c) r ->
  (cand_changed c = false -> settings (mgr r) = cand_after c) ->
  err = None /\ sound E r3 /\ settings (mgr r3) = cand_after c /\ same_world r r3.
Proof.
  intros Hp Hm Hu Hfr Hg Hfile Hun. apply publish_step in Hp as ((Hsvc & Htr & Hl & Hst & Hk) & Hfs & Hs).
  assert (Hs1 : settings (mgr r1) = cand_after c) by (destruct (cand_changed c); [done|]; rewrite Hs; auto).
  apply onM_inv in Hm as (w2 & [= <-] & ->). apply onM_inv in Hu as (w3 & Hu & ->).
  rewrite updateState_fresh in Hu by (eapply fresh_store; [|exact Hfr]; done).
  rewrite (updateState_pure _ _ markConfigApplied) in Hu. injection Hu as _ <- <-. split; [done|].
  split; [|by split_and!]. split.
  - eapply good_calm; [|exact Hg]. split_and!; try done. cbn. by rewrite Hst.
  - unfold saved, persisted. cbn. rewrite Hs1, Hfs. exact Hfile.
Qed.

Lemma kept_setTunLastError (r0 : RT) (message : string) : preserves (kept r0) (setTunLastError message).
Proof. apply kept_onM. by intros w w' a [= _ <-]. Qed.

Lemma kept_observe_enable (r0 : RT) : preserves (kept r0) (observe_enable E).
Proof. unfold observe_enable, Configs. solve_preserves. Qed.

(** The parts the request does not see again. *)
Section Publish.
Context (op : Operation) (enable force : bool) (conflict : option TunConflict) (c : settingsCandidate) (g : configCandidate)
  (previous : string) (r0 : RT).
Hypotheses (Ht : trustedCore (re_options E) = true) (Hrel : re_reloader E = true) (Hrec : forall n, tn_recovery T n = None)
  (Hgate : cleared enable force conflict) (Hsound : sound E r0) (Hprev : active_config E r0 = Some previous)
  (Hfresh : fresh (op_IfRevision op) (mgr r0)) (Hgen : exists d, Generate d ∅ (cand_after c) = Ok (c_content g)).

Lemma reloaded_sound (r : RT) : tun_reloaded enable c (c_content g) r0 r -> good E r.
Proof.
  intros [_ _ _ Hf Ha Hl _]. destruct Hsound as [Hg _]. eapply good_frame; [exact Hf| |exact Hg]. unfold in_step. congruence.
Qed.

Lemma unconfirmed_spec (cause : error) (message : string) (r r1 r2 : RT) (y : option error) :
  tun_reloaded enable c (c_content g) r0 r -> setTunLastError message r = (tt, r1) ->
  rollbackTrustedTun E T op c (Some previous) cause r1 = (y, r2) -> trusted_done enable force r0 r2 (failed y).
Proof using Hprev Hrec Hrel Hsound Ht.
  intros Hrl Hm Hr. pose proof (still_setTunLastError r _ _ _ _ Hm (still_refl E r)) as Hst.
  pose proof (kept_setTunLastError r _ _ _ _ Hm (kept_world_refl r)) as Hk. pose proof (reloaded_still _ _ _ _ _ _ Hrl Hst Hk) as Hrl1.
  apply rollbackTrustedTun_spec in Hr as [Hy Hr]; [|done..]. destruct y as [y|]; [|done].
  destruct Hr as [Hf|Hro]; [by left|]. destruct Hsound. by eapply reloaded_rolled.
Qed.

Lemma settle_refused (c' : settingsCandidate) (cause x : error) (r r1 r2 : RT) (y : option error) :
  tun_reloaded enable c (c_content g) r0 r -> settleRoutingSettings E c r = ((c', Some x), r1) ->
  rollbackTrustedTun E T op c' (Some previous) cause r1 = (y, r2) -> trusted_done enable force r0 r2 (failed y).
Proof using Hprev Hrec Hrel Hsound Ht.
  intros Hrl Hse Hr. eapply settle_spec in Hse as (Hstep & Hs & Hb & _ & Hcc); [|exact Hrl].
  apply rollbackTrustedTun_spec in Hr as [Hy Hr]; [|done..]. destruct y as [y|]; [|done].
  destruct Hr as [Hf|Hro]; [by left|]. destruct Hsound. apply settings_step_frame in Hstep as (Hf1 & _).
  destruct Hrl as [_ _ _ Hf _ _ _]. eapply rolled_done; [exact Hro|done|by eapply config_frame_trans|done| |done]. congruence.
Qed.

Lemma confirmed_spec (r r' : RT) (res : result TunStatus) :
  tun_reloaded enable c (c_content g) r0 r -> liveTunEnable (k_Configs (kernel (mgr r))) = Some enable ->
  (let! '(c, err) := settleRoutingSettings E c in
   match err with
   | Some x => let! y := rollbackTrustedTun E T op c (Some previous) x in st_ret (failed y)
   | None =>
       do! onM (publishSettings c) in
       do! setTunLastError "" in
       let! '(_, err) := onM (updateStateLocked (mkCommandMeta (op_ID op) (op_Source op) (op_IfRevision op))
                                (fun s => st_ret (markConfigApplied s, None))) in
       let! r := st_get in
       st_ret match err with
              | Some x => Err x
              | None => Ok (buildTunStatusFromObservation (cand_after c) (Revision (store (mgr r))) conflict (Some enable) "")
              end
   end) r = (res, r') -> trusted_done enable force r0 r' res.
Proof using Hprev Hrec Hrel Hsound Ht Hfresh Hgate Hgen.
  intros Hrl Hlive Hr. pose proof (reloaded_sound _ Hrl) as Hg. apply st_bind_inv in Hr as ([c' err] & r1 & Hse & Hr).
  destruct err as [x|].
  { apply st_bind_inv in Hr as (y & r2 & Hrb & Hr). injection Hr as <- <-. by eapply settle_refused. }
  eapply settle_spec in Hse as (Hstep & Hs & Hb & Hro & Hfile & Hun); [|exact Hrl].
  assert (Hg1 : good E r1).
  { eapply good_calm; [|exact Hg]. destruct Hstep as (? & ? & ? & Hst & _). split_and!; try done. by rewrite Hst. }
  apply st_bind_inv in Hr as ([] & r2 & Hp & Hr). apply st_bind_inv in Hr as ([] & r3 & Hm & Hr).
  apply st_bind_inv in Hr as ([sn err] & r4 & Hu & Hr). unfold st_bind, st_get in Hr. injection Hr as <- <-.
  destruct Hrl as [_ Ha _ Hf Hact Hld _]. eapply publish_sound_tun in Hu as (-> & Hso & Hs4 & Hw); try done.
  2:{ eapply fresh_store; [|exact Hfresh]. destruct Hstep as (_ & _ & _ & -> & _). by destruct Hf as (_ & _ & _ & ->). }
  pose proof (same_world_active E _ _ Hw) as Hwa. destruct Hw as (_ & _ & Hwl & Hwk).
  destruct (settings_step_frame _ _ Hstep) as (_ & Hact1 & Hld1). destruct Hstep as (_ & _ & _ & _ & Hk1).
  rewrite Ha in *. unfold trusted_done. rewrite Hwk, Hk1. split; [done|]. split; [by rewrite Hs4|]. split; [done|].
  split; [destruct Hgen as [d Hd]; exists d, (c_content g); split_and!; [done|congruence..]|]. cbn.
  split; [|done]. destruct Hro as [rt ->]. apply manage_tun_enable.
Qed.

Lemma publish_tun_spec (r r' : RT) (res : result TunStatus) :
  publish_tun E T op enable conflict c g previous r = (res, r') -> coherent g -> tun_staged enable c r0 r ->
  trusted_done enable force r0 r' res.
Proof using Hprev Hrec Hrel Hsound Ht Hfresh Hgate Hgen.
  unfold publish_tun. intros Hr Hco Hsg. apply st_bind_inv in Hr as (x & r1 & Hc & Hr). destruct x as [x|].
  - apply st_bind_inv in Hr as ([] & r2 & Hm & Hr). apply st_bind_inv in Hr as (y & r3 & Hrb & Hr).
    apply st_bind_inv in Hr as ([] & r4 & Hmk & Hr). injection Hr as <- <-.
    eapply publish_refused in Hrb as [Hy Hd]; try done; [by destruct y as [y|]; [apply Hd|]| |].
    + eapply still_setTunLastError; [exact Hm|apply still_refl].
    + eapply kept_setTunLastError; [exact Hm|apply kept_world_refl].
  - destruct Hsound as [Hg _]. eapply staged_reloaded in Hc as Hrl; try done.
    apply st_bind_inv in Hr as ([live err] & r2 & Ho & Hr).
    assert (Hobs : still E r1 r2 /\ kept r1 r2 /\ forall b, live = Some b -> liveTunEnable (k_Configs (kernel (mgr r1))) = Some b).
    { case_if_in Ho; [|injection Ho as <- <- <-; split; [apply still_refl|done]].
      split; [eapply still_observe_enable; [exact Ho|apply still_refl]|].
      split; [eapply kept_observe_enable; [exact Ho|apply kept_world_refl]|]. intros b ->. by eapply observe_enable_spec. }
    destruct Hobs as (Hst & Hk & Hlive). pose proof (reloaded_still _ _ _ _ _ _ Hrl Hst Hk) as Hrl2. case_if_in Hr.
    + apply st_bind_inv in Hr as ([] & r3 & Hm & Hr). apply st_bind_inv in Hr as (y & r4 & Hrb & Hr). injection Hr as <- <-.
      by eapply unconfirmed_spec.
    + apply negb_false_iff, bool_decide_eq_true in Heqb. subst live. eapply confirmed_spec; [exact Hrl2| |exact Hr].
      destruct (still_world _ _ Hst) as (_ & -> & _). auto.
Qed.

End Publish.

(** A candidate for the settings in memory. *)
Definition tun_candidate (enable : bool) (c : settingsCandidate) (r : RT) : Prop :=
  cand_before c = settings (mgr r) /\ cand_after c = manage_tun enable (settings (mgr r)) /\
  cand_changed c = changed (cand_before c) (cand_after c) /\ cand_generation c = configGeneration (mgr r).

Lemma still_recheck_trusted (r : RT) (op : Operation) (c : settingsCandidate) (k : Catalog) (hash : list Z) :
  preserves (still E r) (recheck_trusted op c k hash).
Proof. unfold recheck_trusted. solve_preserves. Qed.

Lemma recheck_trusted_spec (op : Operation) (c : settingsCandidate) (k : Catalog) (hash : list Z) (r r' : RT) :
  recheck_trusted op c k hash r = (None, r') ->
  fresh (op_IfRevision op) (mgr r') /\ cand_generation c = configGeneration (mgr r').
Proof.
  intros Hr. pose proof (still_recheck_trusted r _ _ _ _ _ _ _ Hr (still_refl E r)) as [(Hf & _ & _ & _ & _ & Hg) _].
  unfold recheck_trusted in Hr. apply st_bind_inv in Hr as (x & r1 & Hx & Hr). destruct x as [x|]; [done|].
  apply onM_inv in Hx as (w & Hx & Hr1). apply checkIfRevision_spec in Hx as [-> Hx]. specialize (Hx eq_refl).
  unfold st_bind at 1, st_get in Hr. cbn beta iota in Hr. case_if_in Hr; [done|]. apply orb_false_iff in Heqb as [Hgen _].
  apply negb_false_iff, Z.eqb_eq in Hgen. subst r1. cbn in *. split; [|congruence].
  eapply fresh_store; [|exact Hx]. by destruct Hf as (_ & _ & _ & ->).
Qed.

Lemma owned_trusted_tun_spec (op : Operation) (enable force : bool) (conflict : option TunConflict) (c : settingsCandidate)
    (k : Catalog) (hash : list Z) (g : configCandidate) (r r' : RT) (res : result TunStatus) :
  owned_trusted_tun E T op enable conflict c k hash g r = (res, r') ->
  trustedCore (re_options E) = true -> re_reloader E = true -> (forall n, tn_recovery T n = None) ->
  sound E r -> coherent g -> cleared enable force conflict ->
  (exists d, Generate d ∅ (cand_after c) = Ok (c_content g)) ->
  (cand_generation c = configGeneration (mgr r) -> tun_candidate enable c r) ->
  trusted_done enable force r r' res.
Proof.
  unfold owned_trusted_tun. intros Hr Ht Hrel Hrec Hso Hco Hgate Hgen Hcand.
  assert (Hnone : forall r1 x, still E r r1 -> trusted_done enable force r r1 (Err x)).
  { intros r1 x Hst. right. split; [eapply restored_sound; [by apply still_restored|done]|].
    destruct Hst as [(_ & Ha & Hl & Hs & _) _]. split; [done|]. split; [done|by left]. }
  apply st_check_inv in Hr as [(x & -> & Hx)|(r1 & Hx & Hr)];
    pose proof (still_recheck_trusted r _ _ _ _ _ _ _ Hx (still_refl E r)) as Hst1; [by apply Hnone|].
  apply recheck_trusted_spec in Hx as [Hfr Hg]. pose proof Hst1 as [(Hf1 & Ha1 & Hl1 & Hs1 & Hk1 & Hg1) Hsv1].
  destruct (Hcand ltac:(congruence)) as (Hb & Ha & Hch & _).
  apply st_try_inv in Hr as [(x & -> & Hp)|(previous & r2 & Hp & Hr)].
  { apply Hnone. eapply still_trans; [exact Hst1|]. split; [by apply PreviousConfig_quiet in Hp as [Hp _]|exact (saved_onT E _ _ _ _ Hp)]. }
  assert (Hp' : still E r1 r2 /\ active_config E r1 = Some previous).
  { split; [split; [by apply PreviousConfig_quiet in Hp as [Hq _]|exact (saved_onT E _ _ _ _ Hp)]|].
    apply PreviousConfig_quiet with (E := E) in Hp as [_ Hp]. unfold active_config. rewrite Ht. auto. }
  destruct Hp' as [Hst2 Hprev]. pose proof (still_trans E _ _ _ Hst1 Hst2) as Hst12.
  apply st_bind_inv in Hr as ([cr err] & r3 & Hsave & Hr).
  pose proof Hst12 as [(Hf2 & Ha2 & Hl2 & Hs2 & Hk2 & Hg2) Hsv2]. destruct Hso as [Hgood Hsv]. specialize (Hsv2 Hsv).
  apply save_step in Hsave as (Hstep & Hs3 & Hfile). destruct (settings_step_frame _ _ Hstep) as (Hf3 & Ha3 & Hl3).
  destruct err as [x|].
  - injection Hr as <- <-. right. split; [|split; [congruence|split; [congruence|left; congruence]]]. split.
    + eapply good_frame; [exact (config_frame_trans E _ _ _ Hf2 Hf3)| |exact Hgood]. destruct Hgood as [Hin _]. unfold in_step in *. congruence.
    + unfold saved, persisted in *. by rewrite Hs3, Hfile.
  - eapply publish_tun_spec; try done; [congruence|eapply fresh_store; [|exact Hfr]; by destruct Hf1 as (_ & _ & _ & ->)|].
    split; [done|done|done|congruence| |exact (config_frame_trans E _ _ _ Hf2 Hf3)|congruence|congruence].
    destruct (cand_changed c); [done|]. symmetry in Hch. apply unchanged_eq in Hch. eapply file_holds_same; [exact Hfile|].
    rewrite <- Hch, Hb. unfold saved, persisted in Hsv2. rewrite Hs2 in Hsv2. exact Hsv2.
Qed.

(** What was prepared without ownership. *)
Lemma prepare_trusted_tun_spec (enable force : bool) (r r' : RT)
    (res : result (option TunConflict * settingsCandidate * Catalog * list Z * configCandidate)) :
  prepare_trusted_tun E T enable force r = (res, r') -> found rs r ->
  since E r r' /\
  forall conflict c k hash g, res = Ok (conflict, c, k, hash, g) ->
    coherent g /\ cleared enable force conflict /\ (exists d, Generate d ∅ (cand_after c) = Ok (c_content g)) /\
    exists r1, since E r r1 /\ since E r1 r' /\ tun_candidate enable c r1.
Proof.
  unfold prepare_trusted_tun. intros Hr Hfound. pose proof (since_refl E r) as Hs.
  apply st_bind_inv in Hr as (conflict & r1 & Hc & Hr). pose proof (detectTunConflict_spec _ _ _ Hc Hfound) as Hdet.
  assert (Hs1 : since E r r1) by (eapply since_step; [apply still_detectTunConflict|exact Hc|exact Hs]). clear Hc Hs.
  apply st_check_inv in Hr as [(x & -> & Hx)|(r2 & Hx & Hr)]; since_in Hx; [by split|].
  case_if_in Hr; [injection Hr as <- <-; by split|]. apply st_bind_inv in Hr as ([] & r3 & Hgap & Hr). since_in Hgap.
  apply st_try_inv in Hr as [(x & -> & Hp)|(c & r4 & Hp & Hr)].
  { pose proof (still_prepareSettings E r3 _ _ _ _ Hp (still_refl E r3)) as Hst. split; [by eapply since_still|done]. }
  assert (Hc : tun_candidate enable c r4).
  { apply onM_inv in Hp as (w & Hp & ->). pose proof (prepareSettings_same _ _ _ _ Hp) as ->.
    apply prepareSettings_spec in Hp as (Hb & Hu & _ & Hch & Hg). injection Hu as Hu. by split_and!. }
  since_in Hp. cut (since E r4 r' /\ forall conflict' c' k hash g, res = Ok (conflict', c', k, hash, g) ->
    conflict' = conflict /\ c' = c /\ coherent g /\ exists d, Generate d ∅ (cand_after c) = Ok (c_content g)).
  { intros [Hs4 Hres]. split; [by eapply since_trans|]. intros conflict' c' k hash g ->.
    destruct (Hres _ _ _ _ _ eq_refl) as (-> & -> & Hco & Hd). split; [done|]. split; [done|]. split; [done|]. by exists r4. }
  clear Hp Hgap Hx Hs1 r3 r2 r1. pose proof (since_refl E r4) as Hs4.
  apply st_bind_inv in Hr as ([] & r5 & Hgap & Hr). since_in Hgap.
  apply st_bind_inv in Hr as ([[before known] lerr] & r6 & Hcap & Hr).
  assert (Hs6 : since E r4 r6) by (eapply since_step; [apply still_captureTunLive|exact Hcap|exact Hgap]). clear Hcap.
  case_if_in Hr; [injection Hr as <- <-; by split|]. apply st_bind_inv in Hr as ([] & r7 & Hgap2 & Hr). since_in Hgap2.
  unfold st_bind at 1, st_get in Hr. cbn beta iota in Hr. apply st_bind_inv in Hr as ([] & r8 & Hgap3 & Hr). since_in Hgap3.
  apply st_try_inv in Hr as [(x & -> & Hh)|(hash & r9 & Hh & Hr)]; since_in Hh; [by split|].
  apply st_bind_inv in Hr as ([] & r10 & Hgap4 & Hr). since_in Hgap4.
  apply st_bind_inv in Hr as (g & r11 & Hg & Hr). apply prepareTunConfig_spec in Hg as [Hst Hg]. injection Hr as <- <-.
  split; [by eapply since_still|]. intros conflict' c' k hash' g' Heq. destruct g as [g|]; [|done]. injection Heq as <- <- <- <- <-.
  destruct (Hg g eq_refl) as [Hco Hd]. done.
Qed.

Lemma trusted_done_still (enable force : bool) (r0 r r' : RT) (res : result TunStatus) :
  trusted_done enable force r0 r res -> still E r r' -> (fenced r -> fenced r') -> trusted_done enable force r0 r' res.
Proof.
  intros Hd Hst Hf. assert (Hso : sound E r -> sound E r') by (apply restored_sound; by apply still_restored).
  destruct Hst as [(_ & Ha & Hl & Hs & Hk & _) _]. unfold trusted_done in *. rewrite Hs, Hk, Ha, Hl. destruct res as [status|x].
  - destruct Hd as (Hd & Hrest). auto.
  - destruct Hd as [Hd|[Hd Hrest]]; [left; auto|right; auto].
Qed.

Lemma trusted_refused (enable force : bool) (r : RT) (x : error) : sound E r -> trusted_done enable force r r (Err x).
Proof. intros Hso. right. split; [done|]. split; [done|]. split; [done|by left]. Qed.

Lemma mutateTrustedTun_spec (op : Operation) (enable force : bool) (r r' : RT) (res : result TunStatus) :
  mutateTrustedTun E T op enable force r = (res, r') -> fair_others E ->
  trustedCore (re_options E) = true -> re_reloader E = true -> (forall n, tn_recovery T n = None) -> sound E r -> since E rs r ->
  exists x r1 r0, SyncLogging E r = (x, r1) /\ since E r1 r0 /\ sound E r0 /\ trusted_done enable force r0 r' res.
Proof.
  unfold mutateTrustedTun. intros Hr Hfair Ht Hrel Hrec Hso Hbegan.
  assert (Hnone : forall y r1 r2 x, SyncLogging E r = (y, r1) -> since E r1 r2 -> exists y r1 r0,
    SyncLogging E r = (y, r1) /\ since E r1 r0 /\ sound E r0 /\ trusted_done enable force r0 r2 (Err x)).
  { intros y r1 r2 x Hs Hsince. exists y, r1, r2. assert (sound E r2).
    { eapply since_sound; [exact Hsince|done|]. by eapply sound_SyncLogging. }
    split_and!; try done. by apply trusted_refused. }
  apply st_check_inv in Hr as [(x & -> & Hy)|(r1 & Hy & Hr)]; [by eapply Hnone; [|apply since_refl]|].
  pose proof (since_refl E r1) as Hs.
  apply st_check_inv in Hr as [(x & -> & Hl)|(r2 & Hl & Hr)]; since_in Hl; [by eapply Hnone|].
  apply st_bind_inv in Hr as (x & r3 & Hx & Hr). since_in Hx. apply st_bind_inv in Hr as ([] & r4 & Hu & Hr). since_in Hu.
  destruct x as [x|]; [injection Hr as <- <-; by eapply Hnone|]. apply st_bind_inv in Hr as ([] & r5 & Hg & Hr). since_in Hg.
  apply st_try_inv in Hr as [(x & -> & Hp)|([[[[conflict c] k] hash] g] & r6 & Hp & Hr)];
    (apply prepare_trusted_tun_spec in Hp as [Hs6 Hp]; [|right; by exists r, r1, None]); pose proof (since_trans E _ _ _ Hg Hs6) as Hs06; [by eapply Hnone|].
  destruct (Hp _ _ _ _ _ eq_refl) as (Hco & Hgate & Hgen & ra & _ & Hra & Hcand).
  apply st_bind_inv in Hr as ([] & r7 & Hg7 & Hr). pose proof (since_gap E r1 _ _ _ Hg7 Hs06) as Hs07.
  pose proof (since_gap E ra _ _ _ Hg7 Hra) as Hra7.
  apply st_bind_inv in Hr as (x & r8 & Hl8 & Hr). pose proof (still_lockMutation E r7 _ _ _ Hl8 (still_refl E r7)) as Hst8.
  pose proof (since_still E _ _ _ Hs07 Hst8) as Hs08. pose proof (since_still E _ _ _ Hra7 Hst8) as Hra8.
  assert (Hso8 : sound E r8) by (eapply since_sound; [exact Hs08|done|]; by eapply sound_SyncLogging).
  apply st_bind_inv in Hr as (res' & r9 & Hres & Hr). apply st_bind_inv in Hr as ([] & r10 & Hcl & Hr). injection Hr as <- <-.
  exists None, r1, r8. split; [done|]. split; [done|]. split; [done|].
  assert (Hcl' : still E r9 r10) by (eapply still_cleanup; [exact Hco|exact Hcl|apply still_refl]).
  eapply trusted_done_still; [|exact Hcl'|exact (fenced_cleaned E g _ _ Hcl)]. destruct x as [x|].
  { injection Hres as <- <-. by apply trusted_refused. }
  apply st_bind_inv in Hres as (res1 & r11 & Ho & Hres). apply st_bind_inv in Hres as ([] & r12 & Hu12 & Hres). injection Hres as <- <-.
  eapply trusted_done_still; [|eapply still_unlock; [exact Hu12|apply still_refl]|exact (fenced_unlocked _ _ Hu12)].
  eapply owned_trusted_tun_spec; try done. intros Hgen8. destruct Hcand as (Hb & Ha & Hch & Hgn).
  destruct (since_settings E _ _ Hra8 Hfair) as [_ Hse]. rewrite <- Hgn in Hse. specialize (Hse (eq_sym Hgen8)). by rewrite <- Hse in *.
Qed.

Lemma mutateTun_spec (op : Operation) (enable force : bool) (r r' : RT) (res : result TunStatus) :
  mutateTun E T op enable force r = (res, r') -> fair_others E -> re_reloader E = true -> (trustedCore (re_options E) = true -> forall n, tn_recovery T n = None) ->
  sound E r -> since E rs r ->
  exists r0, found r r0 /\ sound E r0 /\
    if trustedCore (re_options E) then trusted_done enable force r0 r' res else tun_done enable force r0 r' res.
Proof.
  unfold mutateTun. intros Hr Hfair Hrel Hrec Hso Hbegan. case_if_in Hr.
  - apply mutateTrustedTun_spec in Hr as (x & r1 & r0 & Hsy & Hs & Hso0 & Hd); try done; [|by apply Hrec]. exists r0. split; [|done].
    right. exists r, r1, x. split; [apply since_refl|done].
  - exists r. split; [left; apply since_refl|]. split; [done|]. destruct Hso as [_ Hsv].
    apply st_check_inv in Hr as [(x & -> & Hl)|(r1 & Hl & Hr)];
      pose proof (still_lockMutation E r _ _ _ Hl (still_refl E r)) as Hst; [by apply tun_refused|].
    apply st_bind_inv in Hr as (res' & r2 & Ho & Hr). apply st_bind_inv in Hr as ([] & r3 & Hu & Hr). injection Hr as <- <-.
    eapply tun_done_still; [exact Hst| |eapply still_unlock; [exact Hu|apply still_refl]|exact (fenced_unlocked _ _ Hu)].
    eapply owned_tun_spec; [exact Ho|done| |left; by eapply since_still]. by destruct (still_world _ _ Hst) as (_ & _ & _ & Hsv'); auto.
Qed.

End Lemmas.

(** ** Theorems *)


(** ** Witnesses *)

Section Witnesses.

#[local] Existing Instance ex_fold.
#[local] Existing Instance ex_yaml.
#[local] Existing Instance ex_pem.
#[local] Existing Instance ex_hash.
#[local] Existing Instance ex_settings_file.
#[local] Existing Instance memory_disk.
#[local] Existing Instance ex_tun_unicode.

(** A core that reports the value [b]. *)
Definition ex_tun_core (b : bool) : Kernel :=
  mkKernel {["mode" := AString "rule"; "tun" := AMap [("enable", ABool b)]]}%string None.

(** Every write and every accepted reload leaves the core at [b]; the reload at
    [refused] fails. *)
Definition ex_tun_env (isTrusted b : bool) (refused : nat) : rt_env bool (option Settings) bool (gmap path string) :=
  mkRtEnv (mkOptions false "" "settings.yaml" true true isTrusted) ex_config_path true false
    (mkEnvironment None (fun _ => None) (fun _ => None) (fun _ _ => (ex_tun_core b, None)) (fun _ _ p => (p, None)) (fun _ => true))
    (ex_trusted_env 100)
    (fun n => if (n =? refused)%nat then mkReload (Some (EText "refused")) false (ex_tun_core b) else mkReload None true (ex_tun_core b))
    (fun _ => None) (fun r => r).

Definition ex_tun_settings (adapters : list string) (expired : bool) : tun_env :=
  mkTunEnv (Some (fun _ => Ok (mkDetection adapters []))) None 7 "/opt/mihari/mihomo" true (fun _ => ""%string)
    (fun _ => if expired then Some (EText "context deadline exceeded") else None).

(** With a trusted core the published configuration is "a". *)
Definition ex_tun_runtime (isTrusted : bool) : Runtime (option Settings) bool (gmap path string) :=
  if isTrusted then set_loaded (Some "a"%string) ex_egress_runtime else ex_egress_runtime.

Lemma ex_tun_sound (isTrusted b : bool) (n : nat) : sound (ex_tun_env isTrusted b n) (ex_tun_runtime isTrusted).
Proof.
  destruct isTrusted; (split; [|by intros _; vm_compute]; split; [vm_compute; reflexivity|]; split; [by repeat split|]);
    (split; [apply settle_sound with (c := example_catalog); vm_compute; reflexivity|]);
    (split; [|reflexivity]); exists "one"%string; split; vm_compute; reflexivity.
Qed.

Lemma ex_tun_fair (isTrusted b : bool) (n : nat) : fair_others (ex_tun_env isTrusted b n).
Proof. split; done. Qed.

Lemma ex_tun_applied (isTrusted : bool) :
  is_Ok (fst (EnableTun (ex_tun_env isTrusted true 1000) (ex_tun_settings [] false) ex_op false (ex_tun_runtime isTrusted))) = true.
Proof. destruct isTrusted; vm_compute; reflexivity. Qed.

(** The core of the daemon reports TUN as on, and the settings are saved. *)
Definition ex_tun_on (isTrusted : bool) : Prop :=
  let E := ex_tun_env isTrusted true 1000 in
  let r' := snd (EnableTun E (ex_tun_settings [] false) ex_op false (ex_tun_runtime isTrusted)) in
  liveTunEnable (k_Configs (kernel (mgr r'))) = Some true /\ saved E r'.


(** Another adapter stands against an enable without force. *)
Example tun_other_adapter :
  let '(res, r') := EnableTun (ex_tun_env true true 1000) (ex_tun_settings ["wg0"%string] false) ex_op false (ex_tun_runtime true) in
  match res with Err x => x = tun_conflict | Ok _ => False end /\ loaded r' = Some "a"%string.
Proof. vm_compute. done. Qed.

(** A core without a "tun" block cannot be confirmed as it was, for the PATCH that
    restores it sets "enable": the fence is up. *)
Example tun_absent_block_degrades :
  mutationDegraded (mgr (snd (EnableTun (ex_tun_env false false 1000) (ex_tun_settings [] false) ex_op false (ex_tun_runtime false)))) = true.
Proof. vm_compute. reflexivity. Qed.

(** The same recovery of a trusted core cannot be confirmed, in time and too late:
    once the recovery context has expired the fence is not raised. *)
Example tun_recovery_expired :
  let run expired :=
    snd (EnableTun (ex_tun_env true false 1000) (ex_tun_settings [] expired) ex_op false (ex_tun_runtime true)) in
  (mutationDegraded (mgr (run false)), Health (store (mgr (run false))),
   mutationDegraded (mgr (run true)), Health (store (mgr (run true))))
  = (true, "degraded"%string, false, ""%string).
Proof. vm_compute. reflexivity. Qed.

End Witnesses.
