(* ===== verification/Resources.v ===== *)
(** * Resources: the journals of resource activation

    Models [internal/subscription/provider_journal.go], [resource_activation.go],
    [resource_state.go], [legacy_resources.go] and the files of
    [provider_store_unix.go].

    Earlier releases replaced several resources together: provider files, Geo
    assets, the configuration and the state files.  Before each rename they
    wrote what they were about to do to a journal.  The daemon still settles such
    a journal before it loads any state: a journal that is not done is undone,
    entry by entry, and a journal that is done is cleaned up.  An older journal
    ("commit.json") replaced one provider file.

    [pdisk] is the data root: its regular files by path, each with its inode, and
    the directories of "staging/providers".  Every call of the trusted root takes
    the next fault of the environment: it succeeds, fails, or fails after its
    effect.  A crash is a run in which every call from some point on fails.  The
    root is held by one process, and the store's gate by one call. *)

From Stdlib Require Import Ascii.
From S2P Require Import Prelude GoStd Settings Catalog SelfUpdate InstallJournal.

(** ** Data *)

Record providerObject := mkObject {
  o_Present : bool;
  o_Identity : string;
  o_SHA256 : string;
  o_BootID : string
}.

#[export] Instance providerObject_eq_dec : EqDecision providerObject.
Proof. solve_decision. Defined.

(** [providerObject{}]. *)
Definition no_file : providerObject := mkObject false "" "" "".

Record providerJournal := mkProviderJournal {
  pj_Schema : string;
  pj_ID : string;
  pj_Resource : string;
  pj_Format : string;
  pj_Old : providerObject;
  pj_New : providerObject;
  pj_Backup : providerObject;
  pj_Phase : string;
  pj_Marker : providerObject;
  pj_SubscriptionID : string;
  pj_Generation : Z;
  pj_Kind : string;
  pj_Name : string;
  pj_RecoveryIntent : bool;
  pj_RecoveryDone : bool
}.

Record resourceEntry := mkResourceEntry {
  Transaction : string;
  SubscriptionID : string;
  Generation : Z;
  re_Kind : string;
  re_Name : string;
  Resource : string;
  Format : string;
  Geo : string;
  Configuration : bool;
  StateRole : string;
  Old : providerObject;
  New : providerObject;
  re_Marker : providerObject;
  BackupIntent : bool;
  BackupDone : bool;
  SwapIntent : bool;
  SwapDone : bool;
  RestoreIntent : bool;
  RestoreDone : bool
}.

Record resourceJournal := mkResourceJournal {
  rj_Schema : string;
  Done : bool;
  Entries : list resourceEntry
}.

#[export] Instance resourceEntry_eq_dec : EqDecision resourceEntry.
Proof. solve_decision. Defined.
#[export] Instance resourceJournal_eq_dec : EqDecision resourceJournal.
Proof. solve_decision. Defined.

(** Assignments to the fields that a recovery changes. *)
Definition set_restore (intent done : bool) (e : resourceEntry) : resourceEntry :=
  mkResourceEntry (Transaction e) (SubscriptionID e) (Generation e) (re_Kind e) (re_Name e) (Resource e)
    (Format e) (Geo e) (Configuration e) (StateRole e) (Old e) (New e) (re_Marker e) (BackupIntent e)
    (BackupDone e) (SwapIntent e) (SwapDone e) intent done.
Definition set_entry (i : nat) (e : resourceEntry) (j : resourceJournal) : resourceJournal :=
  mkResourceJournal (rj_Schema j) (Done j) (<[i := e]> (Entries j)).
Definition set_recovery (backup : providerObject) (intent done : bool) (j : providerJournal) : providerJournal :=
  mkProviderJournal (pj_Schema j) (pj_ID j) (pj_Resource j) (pj_Format j) (pj_Old j) (pj_New j) backup
    (pj_Phase j) (pj_Marker j) (pj_SubscriptionID j) (pj_Generation j) (pj_Kind j) (pj_Name j) intent done.

Definition providerJournalPath : string := "staging/providers/commit.json".
Definition resourceJournalPath : string := "staging/providers/activation.json".
Definition maxGeoResourceBytes : Z := 134217728.
Definition maxJournal : Z := 1048576.

(** The variadic [dataError] without a cause. *)
Definition invalid (message : string) : error := dataError message None.
Definition providerConflict : error := api_error CodeRevisionConflict "provider changed during preparation".

(** ** Identities and paths *)

(** A string as [encoding/json] writes it, for text that is valid UTF-8. *)
Definition escaped (c : ascii) (s : string) : string := String (chr 92) (String c s).
Fixpoint json_escape (s : string) : string :=
  match s with
  | EmptyString => EmptyString
  | String c rest =>
      let x := byte c in
      if (x =? 34) || (x =? 92) then escaped c (json_escape rest)
      else if x =? 8 then escaped "b"%char (json_escape rest)
      else if x =? 12 then escaped "f"%char (json_escape rest)
      else if x =? 10 then escaped "n"%char (json_escape rest)
      else if x =? 13 then escaped "r"%char (json_escape rest)
      else if x =? 9 then escaped "t"%char (json_escape rest)
      else if (x <? 32) || (x =? 60) || (x =? 62) || (x =? 38) then
        escaped "u"%char ("00" ++ hex_encode [x] ++ json_escape rest)
      else match rest with
           | String b (String d rest') =>
               if (x =? 226) && (byte b =? 128) && ((byte d =? 168) || (byte d =? 169)) then
                 escaped "u"%char ("202" ++ (if byte d =? 168 then "8" else "9") ++ json_escape rest')
               else String c (json_escape rest)
           | _ => String c (json_escape rest)
           end
  end.

Definition json_string (s : string) : string := String (chr 34) (json_escape s ++ String (chr 34) "").
Definition json_member (name value : string) : string := json_string name ++ ":" ++ value.

(** [json.Marshal(providerIdentity{...})]. *)
Definition identity_json (subscriptionID : string) (generation : Z) (kind name : string) : string :=
  "{" ++ json_member "schema" (json_string "mihari.provider-identity/v1")
  ++ "," ++ json_member "subscription_id" (json_string subscriptionID)
  ++ "," ++ json_member "generation" (Itoa generation)
  ++ "," ++ json_member "kind" (json_string kind)
  ++ "," ++ json_member "name" (json_string name) ++ "}".

Definition GeoResourcePath (kind : string) : result string :=
  if String.eqb kind "country-mmdb" then Ok "Country.mmdb"
  else if String.eqb kind "asn-mmdb" then Ok "ASN.mmdb"
  else if String.eqb kind "geoip-dat" then Ok "GeoIP.dat"
  else if String.eqb kind "geosite-dat" then Ok "GeoSite.dat"
  else Err (invalid "invalid legacy Geo kind").

Definition providerResourcePath (id format : string) : result string :=
  if negb (len id =? 64) then Err (invalid "invalid provider resource")
  else match hex_decode id with
       | None => Err (invalid "invalid provider resource")
       | Some _ =>
           if String.eqb format "text" then Ok ("runtime/core-home/providers/" ++ id ++ "." ++ "txt")%string
           else if negb (String.eqb format "yaml") then Err (invalid "invalid provider format")
           else Ok ("runtime/core-home/providers/" ++ id ++ "." ++ "yaml")%string
       end.

Definition stateTarget (role id : string) : result string :=
  if String.eqb role "source-cache" && profileIDPattern id then Ok ("subscriptions/cache/" ++ id ++ ".yaml")%string
  else if negb (String.eqb id "") then Err (invalid "invalid activation state identity")
  else if String.eqb role "settings" then Ok "mihari.yaml"
  else if String.eqb role "catalog" then Ok "subscriptions/catalog.yaml"
  else if String.eqb role "onboarding" then Ok "onboarding.json"
  else Err (invalid "invalid activation state role").

Definition candidatePath (e : resourceEntry) : string := "staging/providers/" ++ Transaction e ++ "/candidate".
Definition markerPath (e : resourceEntry) : string := "staging/providers/" ++ Transaction e ++ "/transaction-id".

(** The part of [providerAllowedPath] before ".old-" and a transaction, or
    nothing when what follows is no transaction. *)
Definition without_backup (path : string) : option string :=
  match Cut path ".old-" with
  | None => Some path
  | Some (base, id) => if profileIDPattern id then Some base else None
  end.

Definition provider_name (name : string) : bool :=
  existsb (fun '(format, ext) =>
             match providerResourcePath (TrimSuffix name ext) format with
             | Ok p => String.eqb p ("runtime/core-home/providers/" ++ name)%string
             | Err _ => false
             end) [("yaml", ".yaml"); ("text", ".txt")].

Definition staging_path (path : string) : bool :=
  match Split "/" path with
  | [a; b; id; name] =>
      String.eqb a "staging" && String.eqb b "providers" && profileIDPattern id
      && one_of name ["candidate"; "transaction-id"; "source"]
  | _ => false
  end.

Definition geo_base (base : string) : bool :=
  existsb (fun kind => match GeoResourcePath kind with
                       | Ok name => String.eqb base ("runtime/core-home/" ++ name)
                       | Err _ => false
                       end) ["country-mmdb"; "asn-mmdb"; "geoip-dat"; "geosite-dat"].

Definition providerAllowedPath (path : string) : bool :=
  if String.eqb path providerJournalPath || String.eqb path resourceJournalPath then true
  else match without_backup path with
       | None => false
       | Some configPath =>
           if one_of configPath ["runtime/config.yaml"; "mihari.yaml"; "subscriptions/catalog.yaml"; "onboarding.json"]
           then true
           else if HasPrefix configPath "subscriptions/cache/" then
             let id := TrimSuffix (TrimPrefix configPath "subscriptions/cache/") ".yaml" in
             profileIDPattern id && String.eqb configPath ("subscriptions/cache/" ++ id ++ ".yaml")
           else if staging_path path then true
           else
             let provider :=
               if HasPrefix path "runtime/core-home/providers/" then
                 match without_backup (TrimPrefix path "runtime/core-home/providers/") with
                 | None => Some false
                 | Some name => if provider_name name then Some true else None
                 end
               else None in
             match provider with
             | Some b => b
             | None => match without_backup path with None => false | Some base => geo_base base end
             end
       end.

(** ** Objects *)

Definition validProviderObject (o : providerObject) : bool :=
  if negb (o_Present o) then bool_decide (o = no_file)
  else valid_hex 32 (o_SHA256 o) && negb (String.eqb (o_Identity o) "") && negb (String.eqb (o_BootID o) "").

Definition sameProviderObject (a b : providerObject) : bool :=
  if negb (o_Present a) || negb (o_Present b) then Bool.eqb (o_Present a) (o_Present b)
  else validProviderObject a && validProviderObject b && String.eqb (o_SHA256 a) (o_SHA256 b)
       && (negb (String.eqb (o_BootID a) (o_BootID b)) || String.eqb (o_Identity a) (o_Identity b)).

Section Identity.
Context `{Sha256}.

Definition providerDigest (b : string) : string := hex_encode (sha256 b).

Definition ProviderResourceID (subscriptionID : string) (generation : Z) (kind name : string) : result string :=
  if negb (profileIDPattern subscriptionID) then Err (invalid "invalid legacy provider identity")
  else if generation =? 0 then Err (invalid "invalid legacy provider identity")
  else if negb (String.eqb kind "proxy") && negb (String.eqb kind "rule")
  then Err (invalid "invalid legacy provider identity")
  else if String.eqb name "" || negb (ValidString name) || Contains name (String Ascii.zero "")
  then Err (invalid "invalid legacy provider identity")
  else Ok (providerDigest (identity_json subscriptionID generation kind name)).

Definition providerTarget (subscriptionID : string) (generation : Z) (kind name resourceID format : string)
    : result string :=
  match ProviderResourceID subscriptionID generation kind name with
  | Ok id => if String.eqb id resourceID then providerResourcePath id format
             else Err (invalid "provider identity mismatch")
  | Err _ => Err (invalid "provider identity mismatch")
  end.

(** The fields that identify a provider are all zero. *)
Definition no_provider (e : resourceEntry) : bool :=
  (Generation e =? 0) && String.eqb (re_Kind e) "" && String.eqb (re_Name e) ""
  && String.eqb (Resource e) "" && String.eqb (Format e) "".

Definition target (e : resourceEntry) : result string :=
  if negb (String.eqb (StateRole e) "") then
    if Configuration e || negb (String.eqb (Geo e) "") || negb (no_provider e)
    then Err (invalid "invalid activation state identity")
    else stateTarget (StateRole e) (SubscriptionID e)
  else if Configuration e then
    if negb (String.eqb (Geo e) "") || negb (String.eqb (SubscriptionID e) "") || negb (no_provider e)
    then Err (invalid "invalid configuration activation identity")
    else Ok "runtime/config.yaml"
  else if negb (String.eqb (Geo e) "") then
    if negb (String.eqb (SubscriptionID e) "") || negb (no_provider e)
    then Err (invalid "invalid Geo activation identity")
    else match GeoResourcePath (Geo e) with Ok name => Ok ("runtime/core-home/" ++ name)%string | Err x => Err x end
  else providerTarget (SubscriptionID e) (Generation e) (re_Kind e) (re_Name e) (Resource e) (Format e).

(** An entry without a target is refused before its backup path is used. *)
Definition targetPath (e : resourceEntry) : string :=
  match target e with Ok p => p | Err _ => "" end.
Definition backupPath (e : resourceEntry) : string := targetPath e ++ ".old-" ++ Transaction e.

End Identity.

(** ** Strict JSON *)

(** The types that [providerJSONShape] distinguishes by reflection. *)
Inductive shape :=
| ScalarShape
| SliceShape (item : shape)
| StructShape (fields : list (string * shape)).

(** [json.Unmarshal] into a map: of a repeated key the last value stays. *)
Fixpoint member (name : string) (l : list (string * jvalue)) : option jvalue :=
  match l with
  | [] => None
  | (k, v) :: l => match member name l with
                   | Some w => Some w
                   | None => if String.eqb k name then Some v else None
                   end
  end.
Fixpoint member_count (l : list (string * jvalue)) : nat :=
  match l with
  | [] => 0
  | (k, _) :: l => match member k l with Some _ => member_count l | None => S (member_count l) end
  end.

Fixpoint providerJSONShape (t : shape) (v : jvalue) : bool :=
  match v with
  | JNull => false
  | _ =>
      match t with
      | ScalarShape => true
      | SliceShape item => match v with JArray l => forallb (providerJSONShape item) l | _ => false end
      | StructShape fields =>
          match v with
          | JObject l =>
              (member_count l =? length fields)%nat
              && (fix check (fields : list (string * shape)) : bool :=
                    match fields with
                    | [] => true
                    | (name, t) :: fields =>
                        match member name l with
                        | Some v => providerJSONShape t v && check fields
                        | None => false
                        end
                    end) fields
          | _ => false
          end
      end
  end.

Definition scalars (names : list string) : list (string * shape) := map (fun n => (n, ScalarShape)) names.

Definition object_shape : shape := StructShape (scalars ["present"; "identity"; "sha256"; "boot_id"]).

Definition provider_shape : shape :=
  StructShape (scalars ["schema"; "id"; "resource_id"; "format"]
    ++ [("old", object_shape); ("new", object_shape); ("backup", object_shape)] ++ scalars ["phase"]
    ++ [("marker", object_shape)]
    ++ scalars ["subscription_id"; "generation"; "kind"; "name"; "recovery_intent"; "recovery_done"]).

Definition entry_shape : shape :=
  StructShape (scalars ["transaction"; "subscription_id"; "generation"; "kind"; "name"; "resource"; "format"; "geo";
                        "configuration"; "state_role"]
    ++ [("old", object_shape); ("new", object_shape); ("marker", object_shape)]
    ++ scalars ["backup_intent"; "backup_done"; "swap_intent"; "swap_done"; "restore_intent"; "restore_done"]).

Definition journal_shape : shape :=
  StructShape (scalars ["schema"; "done"] ++ [("entries", SliceShape entry_shape)]).

(** A journal from before [state_role] gets the field, empty, in every entry. *)
Fixpoint add_state_role (l : list jvalue) : option (list jvalue) :=
  match l with
  | [] => Some []
  | JObject m :: l =>
      match add_state_role l with
      | Some l => Some (JObject (match member "state_role" m with
                                 | Some _ => m
                                 | None => m ++ [("state_role", JScalar)]
                                 end) :: l)
      | None => None
      end
  | _ :: _ => None
  end.

Definition resourceJournalShape (v : jvalue) : bool :=
  match v with
  | JObject members =>
      match member "entries" members with
      | Some (JArray entries) =>
          match add_state_role entries with
          | Some entries => providerJSONShape journal_shape (JObject (members ++ [("entries", JArray entries)]))
          | None => false
          end
      | _ => false
      end
  | _ => false
  end.

Fixpoint uniqueProviderJSON `{Unicode} (depth : Z) (v : jvalue) : bool :=
  if 16 <? depth then false
  else match v with
       | JNull | JScalar => true
       | JArray l => forallb (uniqueProviderJSON (depth + 1)) l
       | JObject l =>
           (fix members (seen : list string) (l : list (string * jvalue)) : bool :=
              match l with
              | [] => true
              | (k, v) :: l =>
                  negb (one_of (ToLower k) seen) && uniqueProviderJSON (depth + 1) v && members (ToLower k :: seen) l
              end) [] l
       end.

(** [json.Marshal] of the journals, and [Decode] with unknown fields refused. *)
Class ResourceJSON := {
  json_Marshal_resources : resourceJournal -> option string;
  json_Unmarshal_resources : string -> option resourceJournal;
  json_Marshal_provider : providerJournal -> option string;
  json_Unmarshal_provider : string -> option providerJournal
}.

(** ** Reading the journals *)

(** The maps of [loadResourceJournal]: what the earlier entries used. *)
Record load_state := mkLoadState {
  ls_paths : list string;
  ls_identities : list string;
  ls_configurations : nat;
  ls_roles : list string
}.

Definition object_key (o : providerObject) : string := o_BootID o ++ "/" ++ o_Identity o.

Fixpoint check_objects (boot : string) (identities : list string) (l : list providerObject) : result (list string) :=
  match l with
  | [] => Ok identities
  | o :: l =>
      if negb (validProviderObject o) || o_Present o && negb (String.eqb (o_BootID o) boot)
      then Err (invalid "invalid resource activation object")
      else if o_Present o then
        if one_of (object_key o) identities then Err (invalid "aliased resource activation object")
        else check_objects boot (object_key o :: identities) l
      else check_objects boot identities l
  end.

Section Load.
Context `{Sha256} `{Unicode} `{JSONTree} `{ResourceJSON}.

Definition action_mismatch (done : bool) (e : resourceEntry) : bool :=
  negb (o_Present (New e)) || negb (o_Present (re_Marker e))
  || negb (String.eqb (o_SHA256 (re_Marker e)) (providerDigest (Transaction e)))
  || BackupDone e && negb (BackupIntent e) || SwapIntent e && negb (BackupDone e)
  || SwapDone e && negb (SwapIntent e) || RestoreDone e && negb (RestoreIntent e)
  || done && (negb (SwapDone e) || RestoreIntent e).

Definition check_entry (done : bool) (s : load_state) (e : resourceEntry) : result load_state :=
  let role := negb (String.eqb (StateRole e) "") in
  if role && one_of (StateRole e) (ls_roles s) then Err (invalid "duplicate activation state role")
  else match target e with
       | Err x => Err x
       | Ok t =>
           if one_of t (ls_paths s) || one_of (Transaction e) (ls_paths s) || negb (profileIDPattern (Transaction e))
           then Err (invalid "duplicate resource activation identity")
           else if action_mismatch done e then Err (invalid "invalid resource activation action")
           else match check_objects (o_BootID (re_Marker e)) (ls_identities s) [Old e; New e; re_Marker e] with
                | Err x => Err x
                | Ok identities =>
                    Ok (mkLoadState (Transaction e :: t :: ls_paths s) identities
                          (if Configuration e then S (ls_configurations s) else ls_configurations s)
                          (if role then StateRole e :: ls_roles s else ls_roles s))
                end
       end.

Fixpoint check_entries (done : bool) (s : load_state) (l : list resourceEntry) : result load_state :=
  match l with
  | [] => Ok s
  | e :: l => match check_entry done s e with Err x => Err x | Ok s => check_entries done s l end
  end.

Definition check_journal (j : resourceJournal) : option error :=
  if negb (String.eqb (rj_Schema j) "mihari.resource-activation/v1") || (length (Entries j) =? 0)%nat
     || (265 <? length (Entries j))%nat
  then Some (invalid "invalid resource journal")
  else match check_entries (Done j) (mkLoadState [] [] 0 []) (Entries j) with
       | Err x => Some x
       | Ok s =>
           if (ls_configurations s =? 1)%nat then None
           else if negb (ls_configurations s =? 0)%nat
           then Some (invalid "invalid resource activation configuration")
           else if existsb (fun e => String.eqb (Geo e) "" || Configuration e || negb (String.eqb (StateRole e) ""))
                     (Entries j)
           then Some (invalid "invalid resource activation configuration")
           else None
       end.

(** [loadResourceJournal] after the read; a value of the wrong type counts as an
    invalid shape. *)
Definition decode_resources (b : string) : result resourceJournal :=
  match json_tree b with
  | None => Err (dataError "invalid resource journal shape" (Some (EText "json")))
  | Some v =>
      if negb (resourceJournalShape v) then Err (dataError "invalid resource journal shape" (Some (ESentinel ErrInvalid)))
      else if negb (uniqueProviderJSON 0 v) then Err (dataError "invalid resource journal" (Some (ESentinel ErrInvalid)))
      else match json_Unmarshal_resources b with
           | None => Err (dataError "invalid resource journal" (Some (EText "json")))
           | Some j => match check_journal j with Some x => Err x | None => Ok j end
           end
  end.

(** The checks of [recover] on the document alone. *)
Fixpoint distinct_objects (seen : list string) (l : list providerObject) : bool :=
  match l with
  | [] => true
  | o :: l => if o_Present o then negb (one_of (object_key o) seen) && distinct_objects (object_key o :: seen) l
              else distinct_objects seen l
  end.

Definition check_provider (j : providerJournal) : option error :=
  if negb (String.eqb (pj_Schema j) "mihari.provider-commit/v1") || negb (profileIDPattern (pj_ID j))
     || negb (one_of (pj_Phase j) ["prepared"; "intent"; "done"]) || negb (o_Present (pj_New j))
     || String.eqb (o_Identity (pj_New j)) "" || negb (len (o_SHA256 (pj_New j)) =? 64)
  then Some (invalid "invalid provider journal")
  else
    let id := ProviderResourceID (pj_SubscriptionID j) (pj_Generation j) (pj_Kind j) (pj_Name j) in
    if negb (match id with Ok id => String.eqb id (pj_Resource j) | Err _ => false end)
       || negb (o_Present (pj_Marker j))
       || negb (String.eqb (o_SHA256 (pj_Marker j)) (providerDigest (pj_ID j)))
       || pj_RecoveryDone j && negb (pj_RecoveryIntent j)
       || String.eqb (pj_Phase j) "done" && pj_RecoveryIntent j
    then Some (invalid "invalid provider journal identity")
    else
      let objects := [pj_Old j; pj_New j; pj_Backup j; pj_Marker j] in
      let adopted := String.eqb (pj_Phase j) "prepared" && pj_RecoveryDone j in
      if existsb (fun o => negb (validProviderObject o)
                           || o_Present o && negb (String.eqb (o_BootID o) (o_BootID (pj_Marker j)))
                              && negb (adopted && bool_decide (o = pj_Backup j))) objects
      then Some (invalid "invalid provider journal object")
      else if negb (distinct_objects [] objects) then Some (invalid "aliased provider journal object")
      else if negb (String.eqb (pj_Phase j) "prepared")
              && (negb (Bool.eqb (o_Present (pj_Old j)) (o_Present (pj_Backup j)))
                  || o_Present (pj_Old j) && negb (String.eqb (o_SHA256 (pj_Old j)) (o_SHA256 (pj_Backup j))))
      then Some (invalid "invalid provider journal backup")
      else None.

Definition decode_provider (b : string) : result providerJournal :=
  match json_tree b with
  | None => Err (dataError "invalid provider journal shape" (Some (EText "json")))
  | Some v =>
      if negb (providerJSONShape provider_shape v) then Err (dataError "invalid provider journal shape" (Some (ESentinel ErrInvalid)))
      else if negb (uniqueProviderJSON 0 v) then Err (dataError "invalid provider journal" (Some (ESentinel ErrInvalid)))
      else match json_Unmarshal_provider b with
           | None => Err (dataError "invalid provider journal" (Some (EText "json")))
           | Some j => match check_provider j with Some x => Err x | None => Ok j end
           end
  end.

End Load.

(** ** The data root *)

(** [p_dirs]: the names below "staging/providers" other than the journals. *)
Record pdisk := mkPDisk {
  p_tick : nat;
  p_files : gmap string entry;
  p_dirs : list string
}.

(** How the [n]-th call goes, the inode of a file written by it, the order of a
    range over a map of two elements, the identity of the root and the boot. *)
Record penv := mkPEnv {
  pio : nat -> fault;
  pinode : nat -> N * N;
  porder : nat -> bool;
  pidentity : string;
  pboot : string
}.

Definition set_pfiles (m : gmap string entry) (d : pdisk) : pdisk := mkPDisk (p_tick d) m (p_dirs d).
Definition set_pdirs (l : list string) (d : pdisk) : pdisk := mkPDisk (p_tick d) (p_files d) l.

Section Store.
Context `{Sha256} `{Unicode} `{JSONTree} `{ResourceJSON} (e : penv).

Abbreviation P := (st pdisk).

Definition ptick : P nat := fun d => (p_tick d, mkPDisk (S (p_tick d)) (p_files d) (p_dirs d)).

(** A call without an effect on files. *)
Definition pcall : P (result unit) :=
  let! n := ptick in st_ret match fault_error (pio e n) with None => Ok tt | Some x => Err x end.

(** A call with an effect: it may fail before or after it. *)
Definition peffect (f : nat -> pdisk -> pdisk) : P (result unit) :=
  let! n := ptick in
  do! (if fault_effect (pio e n) then st_modify (f n) else st_ret tt) in
  st_ret match fault_error (pio e n) with None => Ok tt | Some x => Err x end.

(** [defer func() { err = errors.Join(err, close()) }()]. *)
Definition closing {A} (close : P (result unit)) (body : P (result A)) : P (result A) :=
  let! r := body in
  let! c := close in
  st_ret match r, c with
         | Ok a, Ok _ => Ok a
         | Ok _, Err y => Err y
         | Err x, Ok _ => Err x
         | Err x, Err y => Err (EJoin x y)
         end.

(** [unixProviderFiles.parent]: the directories exist or are created. *)
Definition parent (path : string) : P (result unit) :=
  if negb (providerAllowedPath path) then st_ret (Err (ESentinel ErrInvalid)) else pcall.

(** The data root itself is borrowed. *)
Definition closeParent (path : string) : P (result unit) :=
  match Split "/" path with [_] => st_ret (Ok tt) | _ => pcall end.

Definition OpenFile (path : string) : P (result entry) :=
  try! _ := pcall in
  let! d := st_get in
  st_ret match p_files d !! path with Some f => Ok f | None => Err (ESentinel ErrNotExist) end.

Definition readProviderFile (f : entry) (limit : Z) : P (result string) :=
  if (limit <? 0) || (maxGeoResourceBytes <? limit) then st_ret (Err (ESentinel ErrInvalid))
  else
    try! _ := pcall in
    st_ret (if limit <? len (content f) then Err (invalid "resource exceeds size limit") else Ok (content f)).

(** The object of a file in this boot. *)
Definition observed (f : entry) : providerObject :=
  mkObject true (pidentity e ++ "/" ++ Key (inode f)) (providerDigest (content f)) (pboot e).

Definition read (path : string) (limit : Z) : P (result string) :=
  try! _ := parent path in
  closing (closeParent path)
    (try! f := OpenFile path in closing pcall (readProviderFile f limit)).

Definition inspect (path : string) : P (result providerObject) :=
  let! p := parent path in
  match p with
  | Err x => st_ret (if errors_Is x ErrNotExist then Ok no_file else Err x)
  | Ok _ =>
      closing (closeParent path)
        (let! f := OpenFile path in
         match f with
         | Err x => st_ret (if errors_Is x ErrNotExist then Ok no_file else Err x)
         | Ok f => closing pcall (try! _ := readProviderFile f maxGeoResourceBytes in st_ret (Ok (observed f)))
         end)
  end.

(** The identity of the file in place, if it is the one that is wanted. *)
Definition expected (path : string) (want : providerObject) : P (result (option (N * N))) :=
  let! f := OpenFile path in
  match f with
  | Err x => st_ret (if errors_Is x ErrNotExist && negb (o_Present want) then Ok None else Err x)
  | Ok f =>
      closing pcall
        (try! _ := readProviderFile f maxGeoResourceBytes in
         st_ret (if bool_decide (observed f = want) then Ok (Some (inode f)) else Err ErrIdentityMismatch))
  end.

(** [TrustedRoot.checkDestination] on what stands at a name. *)
Definition checkDestination (found : option entry) (want : option (N * N)) : result unit :=
  match want, found with
  | None, None => Ok tt
  | None, Some _ => Err (ESentinel ErrExist)
  | Some _, None => Err (ESentinel ErrNotExist)
  | Some id, Some f => if bool_decide (inode f = id) then Ok tt else Err ErrIdentityMismatch
  end.

Definition check_at (path : string) (want : option (N * N)) : P (result unit) :=
  let! d := st_get in st_ret (checkDestination (p_files d !! path) want).

Definition write (path b : string) (want : providerObject) : P (result unit) :=
  try! _ := parent path in
  closing (closeParent path)
    (try! id := expected path want in
     try! _ := check_at path id in
     peffect (fun n d => set_pfiles (<[path := mkEntry b (pinode e n)]> (p_files d)) d)).

Definition remove (path : string) (want : providerObject) : P (result unit) :=
  let! p := parent path in
  match p with
  | Err x => st_ret (if errors_Is x ErrNotExist && negb (o_Present want) then Ok tt else Err x)
  | Ok _ =>
      closing (closeParent path)
        (try! id := expected path want in
         match id with
         | None => st_ret (Ok tt)
         | Some id =>
             try! _ := check_at path (Some id) in
             peffect (fun _ d => set_pfiles (delete path (p_files d)) d)
         end)
  end.

(** The rename of [MoveFileTo]. *)
Definition rename (from to : string) (m : gmap string entry) : gmap string entry :=
  match m !! from with Some f => <[to := f]> (delete from m) | None => m end.

Definition move (from : string) (source : providerObject) (to : string) (want : providerObject) : P (result unit) :=
  try! _ := parent from in
  closing (closeParent from)
    (try! _ := parent to in
     closing (closeParent to)
       (try! sid := expected from source in
        match sid with
        | None => st_ret (Err (ESentinel ErrNotExist))
        | Some _ =>
            try! tid := expected to want in
            try! _ := check_at from sid in
            try! _ := check_at to tid in
            peffect (fun _ d => set_pfiles (rename from to (p_files d)) d)
        end)).

Definition is_file (m : gmap string entry) (path : string) : nat :=
  match m !! path with Some _ => 1 | None => 0 end.

(** No directory counts as an empty one. *)
Definition absent_ok {A} (a : A) (r : result A) : result A :=
  match r with
  | Err x => if errors_Is x ErrNotExist then Ok a else Err x
  | Ok b => Ok b
  end.

Definition transactions : P (result (list string)) :=
  let! p := parent providerJournalPath in
  match p with
  | Err x => st_ret (absent_ok [] (Err x))
  | Ok _ =>
      closing (closeParent providerJournalPath)
        (try! _ := pcall in
         let! d := st_get in
         let names := (length (p_dirs d) + is_file (p_files d) providerJournalPath
                       + is_file (p_files d) resourceJournalPath)%nat in
         st_ret (if (4096 <? names)%nat then Err (ESentinel ErrInvalid)
                 else if forallb profileIDPattern (p_dirs d) then Ok (p_dirs d)
                 else Err (invalid "unknown provider staging entry")))
  end.

(** [TrustedRoot.RemoveEmptyDir]. *)
Definition RemoveEmptyDir (tx : string) : P (result unit) :=
  let! d := st_get in
  if negb (one_of tx (p_dirs d)) then st_ret (Err (ESentinel ErrNotExist))
  else if existsb (fun p => HasPrefix p ("staging/providers/" ++ tx ++ "/")) (map fst (map_to_list (p_files d)))
  then st_ret (Err (EText "directory not empty"))
  else peffect (fun _ d => set_pdirs (List.filter (fun n => negb (String.eqb n tx)) (p_dirs d)) d).

Definition removeTransaction (tx : string) : P (result unit) :=
  let! p := parent providerJournalPath in
  match p with
  | Err x => st_ret (absent_ok tt (Err x))
  | Ok _ =>
      closing (closeParent providerJournalPath)
        (let! r := RemoveEmptyDir tx in st_ret (absent_ok tt r))
  end.

(** ** The journal of a resource activation *)

Definition saveResourceJournal (j : resourceJournal) : P (result unit) :=
  match json_Marshal_resources j with
  | None => st_ret (Err (EText "json"))
  | Some b =>
      try! old := inspect resourceJournalPath in
      write resourceJournalPath b old
  end.

Definition loadResourceJournal : P (result resourceJournal) :=
  try! b := read resourceJournalPath maxJournal in st_ret (decode_resources b).

(** What an entry that is not done may look like. *)
Definition entry_refused (en : resourceEntry) (actual backup : providerObject) : option error :=
  if negb (BackupIntent en) && negb (sameProviderObject actual (Old en))
     || negb (SwapIntent en) && sameProviderObject actual (New en)
     || RestoreDone en && negb (sameProviderObject actual (Old en))
  then Some (invalid "resource activation action mismatch")
  else if o_Present actual && negb (sameProviderObject actual (Old en)) && negb (sameProviderObject actual (New en))
  then Some (invalid "resource activation target changed")
  else if o_Present (Old en) && negb (sameProviderObject actual (Old en)) && negb (sameProviderObject backup (Old en))
  then Some (invalid "resource activation backup missing")
  else if o_Present actual && sameProviderObject actual (Old en) && o_Present backup
  then Some (invalid "aliased resource activation backup")
  else None.

(** The file goes back to its place, or a new file is taken away. *)
Definition restore_file (en : resourceEntry) (actual backup : providerObject) : P (result unit) :=
  if o_Present backup then move (backupPath en) backup (targetPath en) actual
  else if negb (o_Present (Old en)) && o_Present actual then remove (targetPath en) actual
  else st_ret (Ok tt).

(** The body of the first loop of [recoverResources] for entry [i]; the journal
    in memory is the one that was saved last. *)
Definition recover_entry (i : nat) (en : resourceEntry) (j : resourceJournal) : P (result resourceJournal) :=
  match target en with
  | Err x => st_ret (Err x)
  | Ok t =>
      try! marker := inspect (markerPath en) in
      if negb (sameProviderObject marker (re_Marker en))
      then st_ret (Err (invalid "resource activation marker changed"))
      else
        try! actual := inspect t in
        try! backup := inspect (backupPath en) in
        try! candidate := inspect (candidatePath en) in
        if o_Present backup && negb (sameProviderObject backup (Old en))
           || o_Present candidate && negb (sameProviderObject candidate (New en))
        then st_ret (Err (invalid "resource activation staging changed"))
        else if Done j then
          st_ret (if sameProviderObject actual (New en) then Ok j
                  else Err (invalid "committed resource activation changed"))
        else match entry_refused en actual backup with
             | Some x => st_ret (Err x)
             | None =>
                 let en1 := set_restore true (RestoreDone en) en in
                 let j1 := set_entry i en1 j in
                 try! _ := if RestoreIntent en then st_ret (Ok tt) else saveResourceJournal j1 in
                 try! _ := restore_file en actual backup in
                 let j2 := set_entry i (set_restore true true en) j in
                 try! _ := if RestoreDone en then st_ret (Ok tt) else saveResourceJournal j2 in
                 st_ret (Ok j2)
             end
  end.

(** From the last entry to the first. *)
Fixpoint recover_entries (i : nat) (j : resourceJournal) : P (result resourceJournal) :=
  match i with
  | O => st_ret (Ok j)
  | S i =>
      match Entries j !! i with
      | None => st_ret (Ok j)
      | Some en => try! j := recover_entry i en j in recover_entries i j
      end
  end.

(** The cleanup of one path. *)
Definition clean_path (path : string) (want : providerObject) (changed : string) : P (result unit) :=
  try! got := inspect path in
  if o_Present got then
    if negb (sameProviderObject got want) then st_ret (Err (invalid changed))
    else remove path got
  else st_ret (Ok tt).

(** The two paths of an entry, in either order. *)
Definition clean_entry (en : resourceEntry) : P (result unit) :=
  let! n := ptick in
  let backup := (backupPath en, Old en) in
  let candidate := (candidatePath en, New en) in
  let '(one, other) := if porder e n then (backup, candidate) else (candidate, backup) in
  try! _ := clean_path (fst one) (snd one) "resource activation cleanup changed" in
  clean_path (fst other) (snd other) "resource activation cleanup changed".

Fixpoint clean_entries (l : list resourceEntry) : P (result unit) :=
  match l with
  | [] => st_ret (Ok tt)
  | en :: l => try! _ := clean_entry en in clean_entries l
  end.

Definition remove_journal (path : string) : P (result unit) :=
  try! journal := inspect path in remove path journal.

Definition recoverResources : P (result unit) :=
  let! r := loadResourceJournal in
  match r with
  | Err x => st_ret (if errors_Is x ErrNotExist then Ok tt else Err x)
  | Ok j =>
      try! j := recover_entries (length (Entries j)) j in
      try! _ := clean_entries (Entries j) in
      remove_journal resourceJournalPath
  end.

(** ** The journal of one provider file *)

Definition saveJournal (j : providerJournal) : P (result unit) :=
  match json_Marshal_provider j with
  | None => st_ret (Err (EText "json"))
  | Some b =>
      try! old := inspect providerJournalPath in
      write providerJournalPath b old
  end.

Definition provider_staging (id name : string) : string := "staging/providers/" ++ id ++ "/" ++ name.

(** The phase "prepared": the target is untouched, and the backup, if there is
    one, is a copy of it. *)
Definition recover_prepared (j : providerJournal) (actual : providerObject) (backupPath : string)
    : P (result providerJournal) :=
  if negb (sameProviderObject actual (pj_Old j)) then st_ret (Err (invalid "prepared provider target changed"))
  else
    try! backup := inspect backupPath in
    if o_Present backup && (negb (o_Present (pj_Old j)) || negb (String.eqb (o_SHA256 backup) (o_SHA256 (pj_Old j))))
    then st_ret (Err (invalid "unrecognized prepared backup"))
    else if o_Present (pj_Backup j) && negb (sameProviderObject backup (pj_Backup j))
            && (o_Present backup || negb (pj_RecoveryDone j))
    then st_ret (Err (invalid "prepared backup changed"))
    else if negb (pj_RecoveryDone j) then
      let j := set_recovery backup true true j in
      try! _ := saveJournal j in st_ret (Ok j)
    else st_ret (Ok j).

(** The file of the phase "intent" goes back. *)
Definition restore_provider (j : providerJournal) (actual : providerObject) (target backupPath : string)
    : P (result unit) :=
  if o_Present (pj_Old j) then
    if negb (o_Present (pj_Backup j)) || negb (String.eqb (o_SHA256 (pj_Backup j)) (o_SHA256 (pj_Old j)))
    then st_ret (Err (invalid "invalid provider backup"))
    else if negb (sameProviderObject actual (pj_Old j)) && negb (sameProviderObject actual (pj_Backup j)) then
      try! backup := inspect backupPath in
      if negb (sameProviderObject backup (pj_Backup j))
      then st_ret (Err (invalid "provider backup identity changed"))
      else move backupPath backup target actual
    else st_ret (Ok tt)
  else if o_Present actual then remove target actual
  else st_ret (Ok tt).

Definition recover_intent (j : providerJournal) (actual : providerObject) (target backupPath : string)
    : P (result providerJournal) :=
  if pj_RecoveryDone j && negb (sameProviderObject actual (pj_Old j)) && negb (sameProviderObject actual (pj_Backup j))
  then st_ret (Err (invalid "restored provider identity changed"))
  else if negb (sameProviderObject actual (pj_Old j)) && negb (sameProviderObject actual (pj_New j))
          && negb (sameProviderObject actual (pj_Backup j))
  then st_ret (Err (invalid "provider recovery identity changed"))
  else
    let j1 := set_recovery (pj_Backup j) true (pj_RecoveryDone j) j in
    try! _ := if pj_RecoveryIntent j then st_ret (Ok tt) else saveJournal j1 in
    try! _ := restore_provider j1 actual target backupPath in
    let j2 := set_recovery (pj_Backup j) true true j in
    try! _ := if pj_RecoveryDone j then st_ret (Ok tt) else saveJournal j2 in
    st_ret (Ok j2).

(** [recover] with a journal that was read and checked. *)
Definition recover_provider (j : providerJournal) : P (result unit) :=
  try! marker := inspect (provider_staging (pj_ID j) "transaction-id") in
  if negb (sameProviderObject marker (pj_Marker j))
  then st_ret (Err (invalid "provider transaction identity changed"))
  else match providerResourcePath (pj_Resource j) (pj_Format j) with
       | Err x => st_ret (Err x)
       | Ok target =>
           let backupPath := (target ++ ".old-" ++ pj_ID j)%string in
           try! actual := inspect target in
           try! j :=
             if String.eqb (pj_Phase j) "prepared" then recover_prepared j actual backupPath
             else if String.eqb (pj_Phase j) "done" then
               st_ret (if sameProviderObject actual (pj_New j) then Ok j
                       else Err (invalid "committed provider identity changed"))
             else recover_intent j actual target backupPath in
           try! _ := clean_path backupPath (pj_Backup j) "provider cleanup identity changed" in
           try! _ := clean_path (provider_staging (pj_ID j) "candidate") (pj_New j)
                       "provider cleanup identity changed" in
           remove_journal providerJournalPath
       end.

Definition recover : P (result unit) :=
  let! b := read providerJournalPath maxJournal in
  match b with
  | Err x => st_ret (if errors_Is x ErrNotExist then Ok tt else Err x)
  | Ok b => match decode_provider b with Err x => st_ret (Err x) | Ok j => recover_provider j end
  end.

(** ** What is left in the staging directory *)

Definition clean_staged (marker : providerObject) (tx name : string) : P (result unit) :=
  try! object := inspect (provider_staging tx name) in
  if negb (o_Present object) then st_ret (Ok tt)
  else if String.eqb name "transaction-id" && negb (bool_decide (object = marker)) then st_ret (Err providerConflict)
  else remove (provider_staging tx name) object.

Definition cleanupTransaction (tx : string) : P (result unit) :=
  if negb (profileIDPattern tx) then st_ret (Err (invalid "invalid staging transaction"))
  else
    try! marker := inspect (provider_staging tx "transaction-id") in
    if negb (o_Present marker) then removeTransaction tx
    else if negb (validProviderObject marker) || negb (String.eqb (o_SHA256 marker) (providerDigest tx))
    then st_ret (Err (invalid "invalid staging transaction marker"))
    else
      try! _ := clean_staged marker tx "candidate" in
      try! _ := clean_staged marker tx "source" in
      try! _ := clean_staged marker tx "transaction-id" in
      removeTransaction tx.

Fixpoint cleanup_all (l : list string) : P (result unit) :=
  match l with
  | [] => st_ret (Ok tt)
  | tx :: l => try! _ := cleanupTransaction tx in cleanup_all l
  end.

(** [ProviderStore.Recover] with the gate of the store held. *)
Definition Recover : P (result unit) :=
  try! _ := recoverResources in
  try! _ := recover in
  try! txs := transactions in
  cleanup_all txs.

(** [RecoverState]; [load] is [config.Load] on what is at the path. *)
Definition RecoverState (load : option string -> result Settings) : P (result (option Settings)) :=
  let! r := loadResourceJournal in
  match r with
  | Err x => if errors_Is x ErrNotExist then try! _ := Recover in st_ret (Ok None) else st_ret (Err x)
  | Ok j =>
      let reload := existsb (fun en => String.eqb (StateRole en) "settings") (Entries j) in
      try! _ := Recover in
      if negb reload then st_ret (Ok None)
      else
        let! d := st_get in
        st_ret match load (content <$> p_files d !! "mihari.yaml"%string) with
               | Ok s => Ok (Some s)
               | Err x => Err x
               end
  end.

End Store.
