(* ===== verification/ResourceRecovery.v ===== *)
(** * ResourceRecovery: what the recovery of an activation leaves

    Theorems on [Resources]: where the files of a journal are, that they do not
    overlap, what every file operation does under any faults, and that the
    recovery of an activation journal, interrupted as often as one likes, ends in
    the state that the journal describes. *)

From Stdlib Require Import Ascii.
From S2P Require Import Prelude GoStd GoNet Settings Catalog SelfUpdate InstallJournal Utf8 Resources.

(** ** Strings *)

Lemma append_suffix (a b c d : string) :
  (a ++ b)%string = (c ++ d)%string -> (String.length b <= String.length d)%nat -> exists r, d = (r ++ b)%string.
Proof.
  revert c. induction a as [|x a IH]; intros [|y c] Heq Hlen.
  - exists ""%string. exact (eq_sym Heq).
  - exfalso. apply (f_equal String.length) in Heq. rewrite !append_length in Heq. cbn in Heq. lia.
  - exists (String x a). exact (eq_sym Heq).
  - injection Heq as _ Heq. by eapply IH.
Qed.

Lemma append_same_length (a b c d : string) :
  (a ++ b)%string = (c ++ d)%string -> String.length b = String.length d -> a = c /\ b = d.
Proof.
  revert c. induction a as [|x a IH]; intros [|y c] Heq Hlen.
  - done.
  - exfalso. apply (f_equal String.length) in Heq. rewrite !append_length in Heq. cbn in Heq. lia.
  - exfalso. apply (f_equal String.length) in Heq. rewrite !append_length in Heq. cbn in Heq. lia.
  - injection Heq as -> Heq. destruct (IH _ Heq Hlen) as [-> ->]. done.
Qed.

Lemma all_chars_append f (a b : string) : all_chars f (a ++ b) = all_chars f a && all_chars f b.
Proof.
  induction a as [|c a IH]; [done|]. change (String c a ++ b)%string with (String c (a ++ b)).
  cbn. by rewrite IH, andb_assoc.
Qed.

Lemma lower_hex_no (c : ascii) (s : string) : lower_hex c = false -> all_chars lower_hex s = true -> has_char c s = false.
Proof.
  intros Hc. induction s as [|x s IH]; [done|]. cbn. intros [Hx Hs]%andb_true_iff. rewrite (IH Hs), orb_false_r.
  destruct (Ascii.eqb_spec x c); [congruence|]. done.
Qed.

(** No dot is followed by an "o" or by nothing. *)
Fixpoint plain_dots (s : string) : bool :=
  match s with
  | EmptyString => true
  | String c s =>
      (negb (Ascii.eqb c ".") || match s with EmptyString => false | String d _ => negb (Ascii.eqb d "o") end)
      && plain_dots s
  end.

Lemma Cut_here (sep s : string) : Cut (sep ++ s) sep = Some (""%string, s).
Proof.
  assert (Hp := prefix_append sep s). assert (Hd := drop_append sep s).
  destruct (sep ++ s)%string; cbn [Cut]; by rewrite Hp, Hd.
Qed.

Lemma Cut_backup (t tx : string) : plain_dots t = true -> Cut (t ++ ".old-" ++ tx) ".old-" = Some (t, tx).
Proof.
  induction t as [|c t IH]; [intros _; exact (Cut_here ".old-" tx)|]. intros [Hc Ht]%andb_true_iff. specialize (IH Ht).
  change ((String c t ++ ".old-" ++ tx)%string) with (String c (t ++ ".old-" ++ tx)).
  cbn [Cut]. rewrite IH. cbn [String.prefix]. destruct (ascii_dec "." c) as [<-|]; [|done].
  destruct t as [|d t]; [discriminate Hc|].
  change ((String d t ++ ".old-" ++ tx)%string) with (String d (t ++ ".old-" ++ tx)). cbn [String.prefix].
  destruct (ascii_dec "o" d) as [<-|]; [discriminate Hc|]. done.
Qed.

Lemma Cut_none (s : string) : has_char "." s = false -> Cut s ".old-" = None.
Proof.
  induction s as [|c s IH]; [done|]. cbn [has_char]. intros [Hc Hs]%orb_false_iff. cbn [Cut]. rewrite (IH Hs).
  cbn [String.prefix]. destruct (ascii_dec "." c) as [<-|]; [discriminate Hc|]. done.
Qed.

Lemma plain_dots_append (a b : string) : has_char "." a = false -> plain_dots b = true -> plain_dots (a ++ b) = true.
Proof.
  induction a as [|c a IH]; [done|]. change (String c a ++ b)%string with (String c (a ++ b)).
  cbn [has_char plain_dots]. intros [Hc Ha]%orb_false_iff Hb. rewrite (IH Ha Hb). by rewrite Hc.
Qed.

Lemma TrimSuffix_append (a b : string) : TrimSuffix (a ++ b) b = a.
Proof.
  unfold TrimSuffix, HasSuffix. rewrite append_length.
  replace (String.length a + String.length b - String.length b)%nat with (String.length a) by lia.
  rewrite drop_append, String.eqb_refl, take_append. by destruct (Nat.leb_spec (String.length b) (String.length a + String.length b)); [|lia].
Qed.

(** ** Where the files of a journal are *)

Lemma hex_encode_lower (l : list Z) :
  Forall (fun b => 0 <= b < 256) l -> all_chars lower_hex (hex_encode l) = true.
Proof.
  assert (Hc : forall x, 0 <= x < 16 -> lower_hex (hex_char x) = true).
  { intros x Hx. unfold lower_hex, hex_char, byte, chr.
    case_if; breflect; rewrite Ascii.nat_ascii_embedding by lia; [apply orb_true_iff; left|apply orb_true_iff; right];
      apply andb_true_iff; split; apply Z.leb_le; lia. }
  induction 1 as [|b l Hb _ IH]; [done|]. cbn [hex_encode all_chars]. rewrite IH, !Hc; [done| |].
  - pose proof (Z.mod_pos_bound b 16 ltac:(lia)). lia.
  - split; [apply Z.div_pos; lia|]. apply Z.div_lt_upper_bound; lia.
Qed.

Lemma hex_encode_length (l : list Z) : String.length (hex_encode l) = (2 * length l)%nat.
Proof. induction l as [|x l IH]; [done|]. cbn [hex_encode String.length length]. rewrite IH. lia. Qed.

Section Paths.
Context `{Sha256}.

Lemma providerDigest_text (b : string) :
  all_chars lower_hex (providerDigest b) = true /\ String.length (providerDigest b) = 64%nat.
Proof.
  destruct (sha256_bytes b) as [Hb Hl]. unfold providerDigest. split; [by apply hex_encode_lower|].
  by rewrite hex_encode_length, Hl.
Qed.

Lemma providerDigest_valid (b : string) : valid_hex 32 (providerDigest b) = true.
Proof.
  destruct (sha256_bytes b) as [Hb Hl]. unfold valid_hex, providerDigest. rewrite hex_decode_encode by done.
  by rewrite Hl, String.eqb_refl.
Qed.

Definition fixed_targets : list string :=
  ["mihari.yaml"; "subscriptions/catalog.yaml"; "onboarding.json"; "runtime/config.yaml";
   "runtime/core-home/Country.mmdb"; "runtime/core-home/ASN.mmdb"; "runtime/core-home/GeoIP.dat";
   "runtime/core-home/GeoSite.dat"].

Inductive is_target : string -> Prop :=
| fixed_target t : one_of t fixed_targets = true -> is_target t
| cache_target id : profileIDPattern id = true -> is_target ("subscriptions/cache/" ++ id ++ ".yaml")
| provider_target id format t :
    all_chars lower_hex id = true -> String.length id = 64%nat -> providerResourcePath id format = Ok t -> is_target t.

Lemma stateTarget_form (role id t : string) : stateTarget role id = Ok t -> is_target t.
Proof.
  unfold stateTarget. repeat case_if; intros [= <-]; breflect; [by apply cache_target|..]; by apply fixed_target.
Qed.

Lemma target_form (en : resourceEntry) (t : string) : target en = Ok t -> is_target t.
Proof.
  unfold target, providerTarget. repeat case_if; try discriminate.
  - apply stateTarget_form.
  - intros [= <-]. by apply fixed_target.
  - unfold GeoResourcePath. repeat case_if; intros [= <-]; by apply fixed_target.
  - unfold ProviderResourceID. repeat case_if; try discriminate. intros Ht. eapply provider_target; [apply providerDigest_text..|exact Ht].
Qed.

Lemma profileID_text (id : string) : profileIDPattern id = true -> all_chars lower_hex id = true /\ String.length id = 32%nat.
Proof. unfold profileIDPattern, len. intros [Hl Hc]%andb_true_iff. breflect. split; [done|lia]. Qed.

Lemma lower_hex_digit (c : ascii) : lower_hex c = true -> is_Some (hex_digit c).
Proof. unfold lower_hex, hex_digit. intros Hc. repeat case_if; [eauto..|]. breflect. apply orb_true_iff in Hc as [Hc|Hc]; breflect; congruence. Qed.

Lemma provider_target_form (id format t : string) :
  all_chars lower_hex id = true -> String.length id = 64%nat -> providerResourcePath id format = Ok t ->
  exists ext, (ext = "yaml" \/ ext = "txt")%string /\ t = ("runtime/core-home/providers/" ++ id ++ "." ++ ext)%string.
Proof.
  intros Hc Hl. unfold providerResourcePath. repeat case_if; try discriminate; repeat case_match; try discriminate;
    intros [= <-]; eauto.
Qed.

(** One of the last five characters is a dot. *)
Definition dotted (t : string) : bool := has_char "." (drop (String.length t - 5) t).

Lemma dotted_append (s x : string) :
  (String.length x <= 4)%nat -> (1 <= String.length s)%nat -> dotted (s ++ "." ++ x) = true.
Proof.
  intros Hx Hs. unfold dotted.
  assert (Hd : forall n a b, (n <= String.length a)%nat -> exists a', drop n (a ++ b) = (a' ++ b)%string).
  { clear. intros n. induction n as [|n IH]; intros a b Hn; [by exists a|]. destruct a as [|c a]; [cbn in Hn; lia|].
    cbn in Hn. apply IH. lia. }
  destruct (Hd (String.length (s ++ "." ++ x) - 5)%nat s ("." ++ x)%string) as [a' ->].
  { rewrite !append_length. cbn [String.length]. lia. }
  rewrite has_char_append. apply orb_true_r.
Qed.

Lemma dotted_not_hex (t r tx : string) :
  dotted t = true -> all_chars lower_hex tx = true -> String.length tx = 32%nat -> t <> (r ++ tx)%string.
Proof.
  intros Hd Htx Hl ->. unfold dotted in Hd. rewrite append_length, Hl in Hd.
  pose proof (take_drop (String.length r + 32 - 5) (r ++ tx)) as Heq.
  destruct (append_suffix _ _ _ _ Heq) as [q Hq].
  { rewrite length_drop, append_length. lia. }
  rewrite Hq, all_chars_append in Htx. apply andb_true_iff in Htx as [_ Htx].
  rewrite (lower_hex_no "." _ eq_refl Htx) in Hd. done.
Qed.

(** What separates a target from the other paths. *)
Lemma target_facts (t : string) :
  is_target t -> plain_dots t = true /\ dotted t = true /\ (forall y z, (t ++ y <> "staging/" ++ z)%string).
Proof.
  destruct 1 as [t Ht|id Hid|id format t Hc Hl Ht].
  - apply existsb_exists in Ht as (u & Hu & ->%String.eqb_eq). cbn in Hu.
    destruct_or! Hu; subst; try done; (split_and!; [reflexivity..|done]).
  - destruct (profileID_text id Hid) as [Hc Hl]. split_and!; [| |done].
    + do 2 (apply plain_dots_append; [by rewrite ?(lower_hex_no "." _ eq_refl Hc)|]). done.
    + rewrite <- append_assoc. apply (dotted_append _ "yaml"); [cbn; lia|rewrite append_length; cbn; lia].
  - destruct (provider_target_form _ _ _ Hc Hl Ht) as (ext & Hext & ->). split_and!; [| |done].
    + do 2 (apply plain_dots_append; [by rewrite ?(lower_hex_no "." _ eq_refl Hc)|]). by destruct Hext as [-> | ->].
    + rewrite <- append_assoc. apply dotted_append; [destruct Hext as [-> | ->]; cbn; lia|rewrite append_length; cbn; lia].
Qed.

(** *** All of them may be opened *)

Lemma Cut_plain (t : string) : plain_dots t = true -> Cut t ".old-" = None.
Proof.
  induction t as [|c t IH]; [done|]. intros [Hc Ht]%andb_true_iff. cbn [Cut]. rewrite (IH Ht). cbn [String.prefix].
  destruct (ascii_dec "." c) as [<-|]; [|done]. destruct t as [|d t]; [discriminate Hc|]. cbn [String.prefix].
  destruct (ascii_dec "o" d) as [<-|]; [discriminate Hc|]. done.
Qed.

(** A path is a base with or without a backup suffix. *)
Definition based (base path : string) : Prop :=
  path = base \/ exists tx, profileIDPattern tx = true /\ path = (base ++ ".old-" ++ tx)%string.

Lemma without_backup_based (base path : string) :
  plain_dots base = true -> based base path -> without_backup path = Some base.
Proof.
  intros Hb [->|(tx & Htx & ->)]; unfold without_backup; [by rewrite Cut_plain|]. by rewrite Cut_backup, Htx.
Qed.

Lemma HasPrefix_app (p s : string) : HasPrefix (p ++ s) p = true.
Proof. apply prefix_append. Qed.
Lemma TrimPrefix_app (p s : string) : TrimPrefix (p ++ s) p = s.
Proof. unfold TrimPrefix. by rewrite HasPrefix_app, drop_append. Qed.

Lemma based_prefix (p base path : string) :
  based (p ++ base) path -> exists path', path = (p ++ path')%string /\ based base path'.
Proof.
  intros [->|(tx & Htx & ->)]; [exists base; split; [done|by left]|].
  exists (base ++ ".old-" ++ tx)%string. rewrite append_assoc. split; [done|right; eauto].
Qed.

Lemma hex_decode_lower (id : string) :
  all_chars lower_hex id = true -> forall n, String.length id = (2 * n)%nat -> is_Some (hex_decode id).
Proof.
  intros Hc n. revert id Hc. induction n as [|n IH]; intros id Hc Hl.
  - destruct id; [|discriminate Hl]. by eexists.
  - destruct id as [|a [|b id]]; [discriminate Hl|cbn in Hl; lia|]. cbn [all_chars] in Hc. breflect.
    destruct (lower_hex_digit a) as [x Hx]; [done|]. destruct (lower_hex_digit b) as [y Hy]; [done|].
    destruct (IH id) as [l Hd]; [done|cbn in Hl; lia|]. cbn [hex_decode]. rewrite Hx, Hy, Hd. by eexists.
Qed.

Lemma provider_name_ok (id ext : string) :
  all_chars lower_hex id = true -> String.length id = 64%nat -> (ext = "yaml" \/ ext = "txt")%string ->
  provider_name (id ++ "." ++ ext) = true.
Proof.
  intros Hc Hl Hext. destruct (hex_decode_lower id Hc 32 Hl) as [l Hd].
  assert (Hlen : (len id =? 64) = true) by (apply Z.eqb_eq; unfold len; lia).
  unfold provider_name. cbn [existsb]. destruct Hext as [-> | ->].
  - change ("." ++ "yaml")%string with ".yaml"%string. rewrite TrimSuffix_append. unfold providerResourcePath. rewrite Hlen, Hd. cbn [negb].
    change (String.eqb "yaml" "text") with false. cbn iota. change (negb (String.eqb "yaml" "yaml")) with false. cbn iota.
    change ("." ++ "yaml")%string with ".yaml"%string. by rewrite String.eqb_refl.
  - change ("." ++ "txt")%string with ".txt"%string. rewrite TrimSuffix_append. apply orb_true_iff. right.
    unfold providerResourcePath. rewrite Hlen, Hd. cbn [negb]. change (String.eqb "text" "text") with true. cbn iota.
    change ("." ++ "txt")%string with ".txt"%string. by rewrite String.eqb_refl.
Qed.

Lemma allowed_based (t path : string) : is_target t -> based t path -> providerAllowedPath path = true.
Proof.
  intros Ht Hp. destruct (target_facts t Ht) as (Hdots & _ & _).
  unfold providerAllowedPath. rewrite (without_backup_based t path Hdots Hp). case_if; [done|].
  case_if; [done|]. destruct Ht as [t Ht|id Hid|id format t Hc Hl Ht].
  - assert (Hgeo : geo_base t = true).
    { apply existsb_exists in Ht as (u & Hu & ->%String.eqb_eq). cbn in Hu. destruct_or! Hu; subst; try done. }
    case_if; [apply existsb_exists in Ht as (u & Hu & ->%String.eqb_eq); cbn in Hu; destruct_or! Hu; subst; done|].
    case_if; [done|]. rewrite Hgeo.
    assert (HasPrefix path "runtime/core-home/providers/" = false) as ->; [|done].
    apply existsb_exists in Ht as (u & Hu & ->%String.eqb_eq). cbn in Hu.
    destruct_or! Hu; subst; try done; (destruct Hp as [->|(tx & _ & ->)]; reflexivity).
  - rewrite HasPrefix_app, TrimPrefix_app, TrimSuffix_append, Hid, String.eqb_refl. done.
  - destruct (provider_target_form _ _ _ Hc Hl Ht) as (ext & Hext & ->).
    case_if; [discriminate|]. case_if; [done|].
    apply based_prefix in Hp as (path' & -> & Hp). rewrite HasPrefix_app, TrimPrefix_app.
    rewrite (without_backup_based (id ++ "." ++ ext) path'); [|by apply plain_dots_append; [by rewrite ?(lower_hex_no "." _ eq_refl Hc)|destruct Hext as [-> | ->]]|done].
    by rewrite (provider_name_ok id ext Hc Hl Hext).
Qed.

Lemma allowed_staging (tx name : string) :
  profileIDPattern tx = true -> one_of name ["candidate"; "transaction-id"; "source"] = true ->
  providerAllowedPath (provider_staging tx name) = true.
Proof.
  intros Htx Hn. destruct (profileID_text tx Htx) as [Hc Hl].
  assert (Hname : has_char "." name = false /\ has_char "/" name = false).
  { apply existsb_exists in Hn as (u & Hu & ->%String.eqb_eq). cbn in Hu. destruct_or! Hu; subst; done. }
  unfold providerAllowedPath, provider_staging. case_if; [done|]. unfold without_backup. rewrite Cut_none.
  - case_if; [done|]. case_if; [discriminate|].
    assert (staging_path ("staging/providers/" ++ tx ++ "/" ++ name) = true) as ->; [|done].
    unfold staging_path.
    change ("staging/providers/" ++ tx ++ "/" ++ name)%string
      with ("staging" ++ String "/" ("providers" ++ String "/" (tx ++ String "/" name)))%string.
    rewrite (Split_app "/" "staging" _ eq_refl), (Split_app "/" "providers" _ eq_refl).
    rewrite (Split_app "/" tx name), (Split_plain "/" name); [by rewrite Htx, Hn|apply Hname|].
    by apply (lower_hex_no "/" _ eq_refl Hc).
  - rewrite !has_char_append, (lower_hex_no "." _ eq_refl Hc). by rewrite (proj1 Hname).
Qed.

(** *** None of them is another *)

Lemma target_not_staging (t y z : string) : is_target t -> (t ++ y)%string <> ("staging/providers/" ++ z)%string.
Proof. intros Ht. destruct (target_facts t Ht) as (_ & _ & Hs). apply (Hs y ("providers/" ++ z)%string). Qed.

Lemma target_not_backup (t u tx : string) :
  is_target t -> profileIDPattern tx = true -> t <> (u ++ ".old-" ++ tx)%string.
Proof.
  intros Ht Htx. destruct (target_facts t Ht) as (_ & Hd & _). destruct (profileID_text tx Htx) as [Hc Hl].
  rewrite <- append_assoc. by apply dotted_not_hex.
Qed.

Lemma backup_inj (t u tx ty : string) :
  profileIDPattern tx = true -> profileIDPattern ty = true ->
  (t ++ ".old-" ++ tx)%string = (u ++ ".old-" ++ ty)%string -> t = u /\ tx = ty.
Proof.
  intros [_ Hx]%profileID_text [_ Hy]%profileID_text Heq.
  apply append_same_length in Heq as [-> Heq]; [|rewrite !append_length; lia]. split; [done|].
  by apply append_inj_r in Heq.
Qed.

Lemma prefix_same_length (a b c d : string) :
  (a ++ b)%string = (c ++ d)%string -> String.length a = String.length c -> a = c /\ b = d.
Proof.
  revert c. induction a as [|x a IH]; intros [|y c] Heq Hl; try discriminate Hl; [done|].
  injection Heq as -> Heq. destruct (IH c Heq) as [-> ->]; [by injection Hl|done].
Qed.

Lemma staging_inj (tx ty m n : string) :
  profileIDPattern tx = true -> profileIDPattern ty = true ->
  provider_staging tx m = provider_staging ty n -> tx = ty /\ m = n.
Proof.
  intros [_ Hx]%profileID_text [_ Hy]%profileID_text Heq. unfold provider_staging in Heq.
  apply append_inj_r in Heq. apply prefix_same_length in Heq as [-> Heq]; [|lia]. by apply append_inj_r in Heq.
Qed.

Lemma staging_not_journal (tx n : string) :
  profileIDPattern tx = true -> provider_staging tx n <> resourceJournalPath /\ provider_staging tx n <> providerJournalPath.
Proof.
  intros [_ Hl]%profileID_text. unfold provider_staging.
  split; intros Heq; apply (f_equal String.length) in Heq; rewrite !append_length, Hl in Heq; cbn in Heq; lia.
Qed.

End Paths.

(** ** What a journal that was accepted says *)

Section Accepted.
Context `{Sha256} `{Unicode} `{JSONTree} `{ResourceJSON}.

Record accepted (done : bool) (en : resourceEntry) : Prop := {
  acc_target : is_target (targetPath en);
  acc_resolves : target en = Ok (targetPath en);
  acc_tx : profileIDPattern (Transaction en) = true;
  acc_action : action_mismatch done en = false;
  acc_valid : forall o, In o [Old en; New en; re_Marker en] -> validProviderObject o = true
                /\ (o_Present o = true -> o_BootID o = o_BootID (re_Marker en));
  acc_distinct : o_Present (Old en) = true -> o_Identity (Old en) <> o_Identity (New en)
}.

Lemma one_of_elem (s : string) (l : list string) : one_of s l = true <-> s ∈ l.
Proof.
  unfold one_of. rewrite existsb_exists. split.
  - intros (x & Hx & ->%String.eqb_eq). by apply list_elem_of_In.
  - intros Hs. exists s. split; [by apply list_elem_of_In|by apply String.eqb_refl].
Qed.

Lemma check_objects_ok boot ids l ids' :
  check_objects boot ids l = Ok ids' ->
  (forall o, In o l -> validProviderObject o = true /\ (o_Present o = true -> o_BootID o = boot)) /\
  NoDup (map object_key (List.filter o_Present l)) /\
  (forall o, In o l -> o_Present o = true -> object_key o ∉ ids).
Proof.
  revert ids. induction l as [|o l IH]; intros ids; cbn [check_objects List.filter].
  - intros _. split_and!; [done|constructor|done].
  - case_if; [done|]. breflect. destruct (o_Present o) eqn:Hp.
    + case_if; [done|]. intros (Ha & Hb & Hc)%IH. cbn [andb] in *. breflect. split_and!.
      * intros x [<-|Hx]; [done|by apply Ha].
      * cbn [map]. constructor; [|done]. intros Hin. apply list_elem_of_In, in_map_iff in Hin as (x & Hk & Hx).
        apply filter_In in Hx as [Hx Hxp]. apply (Hc x Hx Hxp). rewrite Hk. left.
      * intros x [<-|Hx] Hxp; [intros Hin; apply one_of_elem in Hin; congruence|].
        intros Hin. apply (Hc x Hx Hxp). by right.
    + intros (Ha & Hb & Hc)%IH. split_and!; [|done|].
      * intros x [<-|Hx]; [split; [done|congruence]|by apply Ha].
      * intros x [<-|Hx] Hxp; [congruence|by apply Hc].
Qed.

Lemma check_entry_ok done s en s' :
  check_entry done s en = Ok s' ->
  accepted done en /\ (targetPath en ∉ ls_paths s) /\ (Transaction en ∉ ls_paths s) /\
  ls_paths s' = Transaction en :: targetPath en :: ls_paths s.
Proof.
  unfold check_entry. case_if; [done|]. destruct (target en) as [t|x] eqn:Ht; [|done].
  assert (Htp : targetPath en = t) by (unfold targetPath; by rewrite Ht).
  case_if; [done|]. case_if; [done|]. destruct (check_objects _ _ _) as [ids|] eqn:Ho; [|done]. intros [= <-].
  breflect. rewrite Htp. split_and!; [|by rewrite <- one_of_elem; congruence..|done].
  apply check_objects_ok in Ho as (Hv & Hd & _). constructor; rewrite ?Htp; try done.
  - by eapply target_form.
  - intros Hold Heq. cbn [List.filter] in Hd. rewrite Hold in Hd.
    assert (Hnew : o_Present (New en) = true) by (unfold action_mismatch in *; breflect; done). rewrite Hnew in Hd.
    assert (Hk : object_key (Old en) = object_key (New en)).
    { unfold object_key. rewrite Heq, (proj2 (Hv (Old en) (or_introl eq_refl)) Hold).
      by rewrite (proj2 (Hv (New en) (or_intror (or_introl eq_refl))) Hnew). }
    cbn [map] in Hd. apply NoDup_cons_1_1 in Hd. apply Hd. rewrite Hk. left.
Qed.

Lemma check_entries_ok done s l s' :
  check_entries done s l = Ok s' ->
  Forall (accepted done) l /\ NoDup (map targetPath l) /\ NoDup (map Transaction l) /\
  (forall en, en ∈ l -> (targetPath en ∉ ls_paths s) /\ (Transaction en ∉ ls_paths s)).
Proof.
  revert s. induction l as [|en l IH]; intros s; cbn [check_entries map].
  - intros _. split_and!; [constructor..|]. intros en Hen. by apply not_elem_of_nil in Hen.
  - destruct (check_entry done s en) as [s1|] eqn:Hc; [|done]. apply check_entry_ok in Hc as (Ha & Ht & Hx & Hp).
    intros (Hl & Hnt & Hnx & Hs)%IH. rewrite Hp in Hs.
    split_and!; [by constructor| | |].
    + constructor; [|done]. intros Hin. apply list_elem_of_In, in_map_iff in Hin as (x & Hk & Hin).
      apply list_elem_of_In in Hin. apply (proj1 (Hs x Hin)). rewrite Hk. right. left.
    + constructor; [|done]. intros Hin. apply list_elem_of_In, in_map_iff in Hin as (x & Hk & Hin).
      apply list_elem_of_In in Hin. apply (proj2 (Hs x Hin)). rewrite Hk. left.
    + intros x [->|Hin]%elem_of_cons; [done|]. destruct (Hs x Hin) as [Hxt Hxx].
      apply not_elem_of_cons in Hxt as [_ [_ Hxt]%not_elem_of_cons]. apply not_elem_of_cons in Hxx as [_ [_ Hxx]%not_elem_of_cons]. done.
Qed.

(** The facts that the recovery uses of the journal it loaded. *)
Record proper (j : resourceJournal) : Prop := {
  proper_entries : Forall (accepted (Done j)) (Entries j);
  proper_targets : NoDup (map targetPath (Entries j));
  proper_txs : NoDup (map Transaction (Entries j))
}.

Lemma check_journal_proper j : check_journal j = None -> proper j.
Proof.
  unfold check_journal. case_if; [done|]. destruct (check_entries _ _ _) as [s|] eqn:Hc; [|done]. intros _.
  apply check_entries_ok in Hc as (Ha & Hb & Hd & _). by constructor.
Qed.

End Accepted.

(** ** File operations under faults *)

Section Ops.
Context `{Sha256} `{Unicode} `{JSONTree} `{ResourceJSON} (e : penv).

(** A failed call does not pretend that a file is missing, and the boot has an
    identity. *)
Record honest : Prop := {
  honest_errors : forall n x, fault_error (pio e n) = Some x -> errors_Is x ErrNotExist = false;
  honest_boot : pboot e <> ""%string
}.

(** No call fails. *)
Definition total : Prop := forall n, pio e n = FOk.

Definition unchanged (d d' : pdisk) : Prop := p_files d' = p_files d /\ p_dirs d' = p_dirs d.

(** An error of the environment. *)
Definition faulty {A} (r : result A) : Prop := exists x, r = Err x /\ errors_Is x ErrNotExist = false /\ ~ total.

Definition look (m : gmap string entry) (path : string) : providerObject :=
  match m !! path with Some f => observed e f | None => no_file end.

Definition fits (m : gmap string entry) (path : string) : Prop :=
  forall f, m !! path = Some f -> len (content f) <= maxGeoResourceBytes.

Lemma unchanged_refl d : unchanged d d.
Proof. done. Qed.
Lemma unchanged_trans a b c : unchanged a b -> unchanged b c -> unchanged a c.
Proof. intros [Hm Hd] [Hm' Hd']. split; congruence. Qed.

Lemma look_present m path : o_Present (look m path) = match m !! path with Some _ => true | None => false end.
Proof. unfold look. by destruct (m !! path). Qed.

Context (He : honest).

Lemma pcall_spec d r d' : pcall e d = (r, d') -> unchanged d d' /\ (r = Ok tt \/ faulty r).
Proof.
  unfold pcall. intros (n & d1 & [= <- <-] & [= <- <-])%st_bind_inv. split; [done|].
  destruct (fault_error (pio e (p_tick d))) as [x|] eqn:Hf; [right|by left].
  exists x. split_and!; [done|by eapply honest_errors|]. intros Ht. rewrite Ht in Hf. done.
Qed.

Lemma peffect_spec f d r d' :
  peffect e f d = (r, d') ->
  (unchanged d d' /\ faulty r) \/
  (exists d1 n, unchanged d d1 /\ unchanged (f n d1) d' /\ (r = Ok tt \/ faulty r)).
Proof.
  unfold peffect. intros (n & d1 & [= <- <-] & (u & d2 & Hu & [= <- <-])%st_bind_inv)%st_bind_inv.
  assert (Hr : forall x, pio e (p_tick d) = FErr x \/ pio e (p_tick d) = FLate x -> faulty (A:=unit) (Err x)).
  { intros x Hx. exists x. split_and!; [done| |].
    - apply (honest_errors He (p_tick d)). by destruct Hx as [-> | ->].
    - intros Ht. rewrite Ht in Hx. by destruct Hx. }
  destruct (pio e (p_tick d)) as [|x|x] eqn:Hf; cbn [fault_effect fault_error] in *; injection Hu as _ <-.
  - right. eexists _, _. split_and!; [|split; reflexivity|by left]. done.
  - left. split; [done|]. apply Hr. by left.
  - right. eexists _, _. split_and!; [|split; reflexivity|right; apply Hr; by right]. done.
Qed.

Lemma closeParent_spec path d r d' : closeParent e path d = (r, d') -> unchanged d d' /\ (r = Ok tt \/ faulty r).
Proof.
  unfold closeParent. repeat case_match; try (intros [= <- <-]; split; [done|by left]); apply pcall_spec.
Qed.

Lemma closing_spec {A} c (b : st pdisk (result A)) d r d' :
  (forall d r d', c d = (r, d') -> unchanged d d' /\ (r = Ok tt \/ faulty r)) ->
  closing c b d = (r, d') ->
  exists r1 d1, b d = (r1, d1) /\ unchanged d1 d' /\
    ((exists a, r1 = Ok a /\ (r = Ok a \/ faulty r)) \/
     (exists x y, r1 = Err x /\ r = Err y /\ errors_Is y ErrNotExist = errors_Is x ErrNotExist)).
Proof.
  intros Hc. unfold closing. intros (r1 & d1 & Hb & (rc & d2 & Hcl & [= <- <-])%st_bind_inv)%st_bind_inv.
  apply Hc in Hcl as [Hun Hr]. exists r1, d1. split_and!; [done|done|].
  destruct r1 as [a|x].
  - left. exists a. split; [done|]. destruct Hr as [-> |(y & -> & Hy)]; [by left|right; by exists y].
  - right. destruct Hr as [-> |(y & -> & Hy & _)]; eexists _, _; split_and!; try reflexivity.
    cbn. by rewrite Hy, orb_false_r.
Qed.

Lemma open_spec path d r d' :
  OpenFile e path d = (r, d') ->
  unchanged d d' /\ (faulty r \/ r = match p_files d !! path with Some f => Ok f | None => Err (ESentinel ErrNotExist) end).
Proof.
  unfold OpenFile. intros [(x & -> & Hc)|(a & d1 & Hc & Ho)]%st_try_inv.
  - apply pcall_spec in Hc as [Hun [|(y & [= ->] & Hy)]]; [done|]. split; [done|]. left. by exists y.
  - apply pcall_spec in Hc as [Hun _]. injection Ho as <- <-. split; [done|]. right. by rewrite (proj1 Hun).
Qed.

Lemma readProviderFile_spec f limit d r d' :
  0 <= limit <= maxGeoResourceBytes -> readProviderFile e f limit d = (r, d') ->
  unchanged d d' /\
  (faulty r \/ r = if limit <? len (content f) then Err (invalid "resource exceeds size limit") else Ok (content f)).
Proof.
  intros Hl. unfold readProviderFile.
  assert ((limit <? 0) || (maxGeoResourceBytes <? limit) = false) as ->.
  { apply orb_false_iff. split; apply Z.ltb_ge; lia. }
  intros [(x & -> & Hc)|(a & d1 & Hc & Ho)]%st_try_inv.
  - apply pcall_spec in Hc as [Hun [|(y & [= ->] & Hy)]]; [done|]. split; [done|]. left. by exists y.
  - apply pcall_spec in Hc as [Hun _]. injection Ho as <- <-. split; [done|]. by right.
Qed.

Lemma parent_spec path d r d' :
  parent e path d = (r, d') ->
  unchanged d d' /\ (r = Ok tt /\ providerAllowedPath path = true \/
                     exists x, r = Err x /\ errors_Is x ErrNotExist = false /\ ~ (providerAllowedPath path = true /\ total)).
Proof.
  unfold parent. destruct (providerAllowedPath path); cbn [negb].
  - intros [Hun [-> |(x & -> & Hx & Ht)]]%pcall_spec; (split; [done|]); [by left|right]. exists x. split_and!; [done|done|by intros [_ ?]].
  - intros [= <- <-]. split; [done|]. right. eexists. split_and!; [done|done|by intros [? _]].
Qed.

Lemma max_ok : 0 <= maxGeoResourceBytes <= maxGeoResourceBytes.
Proof. unfold maxGeoResourceBytes. lia. Qed.
Lemma journal_ok : 0 <= maxJournal <= maxGeoResourceBytes.
Proof. unfold maxGeoResourceBytes, maxJournal. lia. Qed.

(** The body of [inspect] and of [expected] once a file is open. *)
Lemma read_open {A} f (k : string -> result A) d r d' :
  closing (pcall e) (try! b := readProviderFile e f maxGeoResourceBytes in st_ret (k b)) d = (r, d') ->
  unchanged d d' /\
  ((exists a, k (content f) = Ok a /\ r = Ok a /\ len (content f) <= maxGeoResourceBytes)
   \/ exists x, r = Err x /\ (len (content f) <= maxGeoResourceBytes -> is_Ok (k (content f)) = true -> errors_Is x ErrNotExist = false /\ ~ total)
       /\ (is_Ok (k (content f)) = true -> errors_Is x ErrNotExist = false)).
Proof.
  intros (r1 & d1 & Hb & Hun & Hr)%(closing_spec _ _ _ _ _ pcall_spec).
  apply st_try_inv in Hb as [(x & -> & Hb)|(b & d2 & Hb & [= <- <-])].
  - apply readProviderFile_spec in Hb as [Hun' Hr']; [|apply max_ok]. split; [by eapply unchanged_trans|]. right.
    destruct Hr as [(a & ? & _)|(x' & y & [= <-] & -> & Hy)]; [done|]. exists y. split; [done|]. rewrite Hy.
    destruct Hr' as [(z & [= <-] & Hz & Ht)|Hz]; [done|].
    destruct (Z.ltb_spec maxGeoResourceBytes (len (content f))); [|done]. injection Hz as ->. split; [lia|done].
  - apply readProviderFile_spec in Hb as [Hun' Hr']; [|apply max_ok]. split; [by eapply unchanged_trans|].
    destruct Hr' as [(z & ? & _)|Hz]; [done|].
    destruct (Z.ltb_spec maxGeoResourceBytes (len (content f))); [done|]. injection Hz as ->.
    destruct Hr as [(a & Ha & [-> |(y & -> & Hy)])|(x & y & Hx & -> & Hy)].
    + left. by exists a.
    + right. exists y. split; [done|]. by destruct Hy.
    + right. exists y. split; [done|]. by rewrite Hx.
Qed.

Lemma inspect_spec path d r d' :
  inspect e path d = (r, d') ->
  unchanged d d' /\
  (r = Ok (look (p_files d) path) /\ providerAllowedPath path = true /\ fits (p_files d) path
   \/ exists x, r = Err x /\ ~ (providerAllowedPath path = true /\ fits (p_files d) path /\ total)).
Proof.
  unfold inspect. intros (p & d1 & Hp & Hb)%st_bind_inv.
  apply parent_spec in Hp as [Hun [[-> Ha]|(x & -> & Hx & Hn)]].
  - apply closing_spec in Hb as (r1 & d2 & Hb & Hun' & Hr); [|apply closeParent_spec].
    apply st_bind_inv in Hb as (f & d3 & Ho & Hb). apply open_spec in Ho as [Hun2 Ho].
    rewrite (proj1 Hun) in Ho. unfold look, fits.
    destruct Ho as [(x & -> & Hx & Hn)| ->].
    + injection Hb as <- <-. rewrite Hx in Hr. split; [by do 2 (eapply unchanged_trans; [eassumption|])|].
      right. destruct Hr as [(a & ? & _)|(x' & y & _ & -> & _)]; [done|]. exists y. split; [done|]. by intros (_ & _ & ?).
    + destruct (p_files d !! path) as [f|].
      * change (try! _ := readProviderFile e f maxGeoResourceBytes in st_ret (Ok (observed e f)))
          with (try! b := readProviderFile e f maxGeoResourceBytes in st_ret ((fun _ => Ok (observed e f)) b)) in Hb.
        apply read_open in Hb as [Hun3 Hb]. split; [by do 3 (eapply unchanged_trans; [eassumption|])|].
        destruct Hb as [(a & [= <-] & -> & Hlen)|(x & -> & Hx & _)].
        -- destruct Hr as [(a & [= <-] & [-> |(y & -> & Hy & Hn)])|(x & y & ? & _)]; [|right|done].
           ++ left. split_and!; [done|done|]. by intros f' [= <-].
           ++ exists y. split; [done|]. by intros (_ & _ & ?).
        -- right. destruct Hr as [(a & ? & _)|(x' & y & _ & -> & _)]; [done|]. exists y. split; [done|].
           intros (_ & Hf & Ht). by destruct (Hx (Hf f eq_refl) eq_refl).
      * injection Hb as <- <-. split; [by do 2 (eapply unchanged_trans; [eassumption|])|].
        destruct Hr as [(a & [= <-] & [-> |(y & -> & Hy & Hn)])|(x & y & ? & _)]; [left|right|done].
        -- done.
        -- exists y. split; [done|]. by intros (_ & _ & ?).
  - injection Hb as <- <-. rewrite Hx. split; [done|]. right. exists x. split; [done|]. intros (? & _ & ?). by apply Hn.
Qed.

(** A failure that a run without faults does not have. *)
Definition excused {A} (G : Prop) (r : result A) : Prop := exists x, r = Err x /\ ~ (G /\ total).

Lemma excused_weaken {A B} (G G' : Prop) (r : result A) (r' : result B) x :
  excused G r -> (G' -> G) -> r' = Err x -> excused G' r'.
Proof. intros (y & _ & Hn) Hg ->. exists x. split; [done|]. intros [? ?]. apply Hn. auto. Qed.

Lemma excused_err {A B} (G : Prop) x : excused (A:=A) G (Err x) -> excused (A:=B) G (Err x).
Proof. intros (y & [= <-] & Hn). by exists x. Qed.

Lemma faulty_excused {A} (G : Prop) (r : result A) : faulty r -> excused G r.
Proof. intros (x & -> & _ & Ht). exists x. split; [done|]. by intros [_ ?]. Qed.

Lemma expected_spec path d r d' :
  expected e path (look (p_files d) path) d = (r, d') ->
  unchanged d d' /\ (r = Ok (inode <$> p_files d !! path) \/ excused (fits (p_files d) path) r).
Proof.
  unfold expected. intros (f & d1 & Ho & Hb)%st_bind_inv. apply open_spec in Ho as [Hun Ho]. unfold look, fits in *.
  destruct Ho as [(x & -> & Hx & Hn)| ->].
  - injection Hb as <- <-. rewrite Hx. split; [done|]. right. exists x. split; [done|]. by intros [_ ?].
  - destruct (p_files d !! path) as [f|] eqn:Hf.
    + change (try! _ := readProviderFile e f maxGeoResourceBytes in
              st_ret (if bool_decide (observed e f = observed e f) then Ok (Some (inode f)) else Err ErrIdentityMismatch))
        with (try! b := readProviderFile e f maxGeoResourceBytes in
              st_ret ((fun _ => if bool_decide (observed e f = observed e f) then Ok (Some (inode f)) else Err ErrIdentityMismatch) b)) in Hb.
      apply read_open in Hb as [Hun' Hb]. rewrite bool_decide_eq_true_2 in Hb by done.
      split; [by eapply unchanged_trans|]. destruct Hb as [(a & [= <-] & -> & _)|(x & -> & Hx & _)]; [by left|].
      right. exists x. split; [done|]. intros [Hl Ht]. by destruct (Hx (Hl f eq_refl) eq_refl).
    + injection Hb as <- <-. split; [done|]. by left.
Qed.

Lemma check_at_spec path m d r d' :
  p_files d = m -> check_at path (inode <$> m !! path) d = (r, d') -> d' = d /\ r = Ok tt.
Proof.
  intros <-. unfold check_at, checkDestination. intros (d1 & d2 & [= <- <-] & [= <- <-])%st_bind_inv.
  destruct (p_files d !! path) as [f|]; cbn [fmap option_fmap option_map]; [by rewrite bool_decide_eq_true_2|done].
Qed.

(** Success, or a fault after the effect. *)
Definition late (r : result unit) : Prop := r = Ok tt \/ exists x, r = Err x /\ ~ total.

Lemma late_faulty (r : result unit) : r = Ok tt \/ faulty r -> late r.
Proof. intros [-> |(x & -> & _ & Ht)]; [by left|right; by exists x]. Qed.

(** Closing what was opened after the work is done. *)
Lemma closing_effect c (b : st pdisk (result unit)) d r d' (P : pdisk -> Prop) (G : Prop) :
  (forall d r d', c d = (r, d') -> unchanged d d' /\ (r = Ok tt \/ faulty r)) ->
  (forall a a', P a -> unchanged a a' -> P a') ->
  (forall r1 d1, b d = (r1, d1) -> P d1 /\ late r1 \/ unchanged d d1 /\ excused G r1) ->
  closing c b d = (r, d') ->
  P d' /\ late r \/ unchanged d d' /\ excused G r.
Proof.
  intros Hc HP Hb (r1 & d1 & Hb1 & Hun & Hr)%closing_spec; [|done].
  apply Hb in Hb1 as [[Hp Hr1]|[Hun1 (x & -> & Hx)]].
  - left. split; [by eapply HP|]. destruct Hr1 as [-> |(x & -> & Ht)].
    + destruct Hr as [(a & [= <-] & [-> |(y & -> & Hy & Ht)])|(x & y & ? & _)]; [by left|right; by exists y|done].
    + destruct Hr as [(a & ? & _)|(x' & y & _ & -> & _)]; [done|right; by exists y].
  - right. split; [by eapply unchanged_trans|]. destruct Hr as [(a & ? & _)|(x' & y & _ & -> & _)]; [done|]. by exists y.
Qed.

(** A step of a run that the faults decide: it happened, or nothing did. *)
Definition effect (d d' : pdisk) (m : gmap string entry) (G : Prop) (r : result unit) : Prop :=
  (p_files d' = m /\ p_dirs d' = p_dirs d) /\ late r
  \/ unchanged d d' /\ excused G r.

(** A change of the file at [path] that was just looked at. *)
Lemma guarded_spec path f d r d' :
  (try! id := expected e path (look (p_files d) path) in try! _ := check_at path id in peffect e f) d = (r, d') ->
  (exists d1 n, unchanged d d1 /\ unchanged (f n d1) d' /\ late r)
  \/ unchanged d d' /\ excused (fits (p_files d) path) r.
Proof.
  intros [(x & -> & Hx)|(id & d1 & Hx & Hw)]%st_try_inv.
  - right. apply expected_spec in Hx as [Hun [?|Hx]]; [done|]. split; [done|by eapply excused_err].
  - apply expected_spec in Hx as [Hun [[= ->]|(y & ? & _)]]; [|done].
    apply st_try_inv in Hw as [(x & -> & Hc)|([] & d2 & Hc & Hw)].
    + by apply check_at_spec in Hc as [_ ?]; [|apply Hun].
    + apply check_at_spec in Hc as [-> _]; [|apply Hun].
      apply peffect_spec in Hw as [[Hun2 Hf]|(d3 & n & Hun2 & Hun3 & Hr)].
      * right. split; [by eapply unchanged_trans|by apply faulty_excused].
      * left. exists d3, n. split_and!; [by eapply unchanged_trans|done|by apply late_faulty].
Qed.

(** The parent directory is opened first and closed last. *)
Lemma within_parent path (b : st pdisk (result unit)) d r d' (P : gmap string entry -> Prop) (G : Prop) :
  (try! _ := parent e path in closing (closeParent e path) b) d = (r, d') ->
  (forall d1 r1 d2, unchanged d d1 -> b d1 = (r1, d2) ->
     (P (p_files d2) /\ p_dirs d2 = p_dirs d) /\ late r1 \/ unchanged d1 d2 /\ excused G r1) ->
  (P (p_files d') /\ p_dirs d' = p_dirs d) /\ late r
  \/ unchanged d d' /\ excused (providerAllowedPath path = true /\ G) r.
Proof.
  intros [(x & -> & Hp)|([] & d1 & Hp & Hb)]%st_try_inv Hbody.
  - apply parent_spec in Hp as [Hun [[? _]|(y & [= <-] & _ & Hn)]]; [done|]. right. split; [done|].
    exists x. split; [done|]. intros [[? _] ?]. by apply Hn.
  - apply parent_spec in Hp as [Hun [[_ Ha]|(y & ? & _)]]; [|done].
    apply (closing_effect _ _ _ _ _ (fun d2 => P (p_files d2) /\ p_dirs d2 = p_dirs d) G) in Hb;
      [|apply closeParent_spec|by intros a a' Hpa [-> ->]|by intros r1 d2; apply Hbody].
    destruct Hb as [Hb|[Hu Hb]]; [by left|right]. split; [by eapply unchanged_trans|].
    destruct Hb as (x & -> & Hn). exists x. split; [done|]. intros [[_ ?] ?]. by apply Hn.
Qed.

Lemma write_spec path b d r d' :
  write e path b (look (p_files d) path) d = (r, d') ->
  exists n, effect d d' (<[path := mkEntry b (pinode e n)]> (p_files d))
              (providerAllowedPath path = true /\ fits (p_files d) path) r.
Proof.
  intros Hw.
  apply (within_parent _ _ _ _ _ (fun m => exists n, m = <[path := mkEntry b (pinode e n)]> (p_files d)) (fits (p_files d) path)) in Hw.
  - destruct Hw as [[[[n Hm] Hd] Hr]|Hw]; [exists n; by left|exists 0%nat; by right].
  - intros d1 r1 d2 Hun Hb.
    assert (Hl : look (p_files d) path = look (p_files d1) path) by by rewrite (proj1 Hun). rewrite Hl in Hb.
    apply guarded_spec in Hb as [(d3 & n & Hun2 & [Hm Hd] & Hr)|[Hu Hx]].
    + left. split; [|done]. cbn in Hm, Hd. split; [exists n; by rewrite Hm, (proj1 Hun2), (proj1 Hun)|].
      by rewrite Hd, (proj2 Hun2), (proj2 Hun).
    + right. split; [done|]. by rewrite <- (proj1 Hun).
Qed.

Lemma remove_spec path d r d' :
  remove e path (look (p_files d) path) d = (r, d') ->
  effect d d' (delete path (p_files d)) (providerAllowedPath path = true /\ fits (p_files d) path) r.
Proof.
  intros Hw.
  assert (Hw' : (try! _ := parent e path in
     closing (closeParent e path)
        (try! id := expected e path (look (p_files d) path) in
         match id with
         | None => st_ret (Ok tt)
         | Some id =>
             try! _ := check_at path (Some id) in
             peffect e (fun _ d => set_pfiles (delete path (p_files d)) d)
         end)) d = (r, d')).
  { unfold remove in Hw. apply st_bind_inv in Hw as (p & d1 & Hp & Hb). unfold st_try at 1. unfold st_bind at 1. rewrite Hp.
    destruct p as [[]|x]; [exact Hb|]. apply parent_spec in Hp as [_ [[? _]|(y & [= <-] & Hx & _)]]; [done|].
    by rewrite Hx in Hb. }
  clear Hw. apply (within_parent _ _ _ _ _ (fun m => m = delete path (p_files d)) (fits (p_files d) path)) in Hw'; [done|].
  intros d1 r1 d2 Hun Hb.
  assert (Hl : look (p_files d) path = look (p_files d1) path) by by rewrite (proj1 Hun). rewrite Hl in Hb.
  destruct (p_files d1 !! path) as [f|] eqn:Hf.
  - assert (Hb' : (try! id := expected e path (look (p_files d1) path) in try! _ := check_at path id in
                   peffect e (fun _ d => set_pfiles (delete path (p_files d)) d)) d1 = (r1, d2)).
    { apply st_try_inv in Hb as [(x & -> & Hx)|(id & d3 & Hx & Hb)]; unfold st_try at 1; unfold st_bind at 1; rewrite Hx; [done|].
      apply expected_spec in Hx as [_ [[= ->]|(y & ? & _)]]; [|done]. by rewrite Hf in *. }
    apply guarded_spec in Hb' as [(d3 & n & Hun2 & [Hm Hd] & Hr)|[Hu Hx]].
    + left. split; [|done]. cbn in Hm, Hd. by rewrite Hm, Hd, (proj1 Hun2), (proj1 Hun), (proj2 Hun2), (proj2 Hun).
    + right. split; [done|]. by rewrite <- (proj1 Hun).
  - apply st_try_inv in Hb as [(x & -> & Hx)|(id & d3 & Hx & Hw)].
    + right. apply expected_spec in Hx as [Hun' [?|Hx]]; [done|]. split; [done|]. rewrite <- (proj1 Hun). by eapply excused_err.
    + apply expected_spec in Hx as [Hun' [[= ->]|(y & ? & _)]]; [|done]. rewrite Hf in Hw. injection Hw as <- <-.
      left. split; [|by left]. rewrite (proj1 Hun'), (proj2 Hun'), (proj2 Hun). split; [|done].
      rewrite <- (proj1 Hun). by rewrite delete_id.
Qed.

Lemma move_spec from to f d r d' :
  p_files d !! from = Some f ->
  move e from (look (p_files d) from) to (look (p_files d) to) d = (r, d') ->
  effect d d' (<[to := f]> (delete from (p_files d)))
    (providerAllowedPath from = true /\ providerAllowedPath to = true
     /\ fits (p_files d) from /\ fits (p_files d) to) r.
Proof.
  intros Hf Hw.
  apply (within_parent _ _ _ _ _ (fun m => m = <[to := f]> (delete from (p_files d)))
    (providerAllowedPath to = true /\ fits (p_files d) from /\ fits (p_files d) to)) in Hw; [done|].
  intros d1 r1 d2 Hun Hb.
  apply (within_parent _ _ _ _ _ (fun m => m = <[to := f]> (delete from (p_files d)))
    (fits (p_files d) from /\ fits (p_files d) to)) in Hb; [by rewrite (proj2 Hun) in Hb|].
  clear Hb r1 d2. intros d2 r1 d3 Hun2 Hb. assert (Hu := unchanged_trans _ _ _ Hun Hun2). clear Hun2.
  assert (Hl : forall p, look (p_files d) p = look (p_files d2) p) by (intros p; by rewrite (proj1 Hu)).
  rewrite !Hl in Hb. apply st_try_inv in Hb as [(x & -> & Hx)|(id & d4 & Hx & Hb)].
  - right. apply expected_spec in Hx as [Hun' [?|Hx]]; [done|]. split; [done|]. rewrite (proj1 Hu) in Hx.
    eapply excused_weaken; [exact Hx|by intros [? _]|done].
  - apply expected_spec in Hx as [Hun' [[= ->]|(y & ? & _)]]; [|done]. rewrite (proj1 Hu), Hf in Hb. cbn in Hb.
    assert (Hl' : look (p_files d) to = look (p_files d4) to) by by rewrite (proj1 Hun'), (proj1 Hu). rewrite Hl' in Hb.
    assert (Hb' : (try! tid := expected e to (look (p_files d4) to) in try! _ := check_at to tid in
                   peffect e (fun _ d => set_pfiles (rename from to (p_files d)) d)) d4 = (r1, d3)).
    { apply st_try_inv in Hb as [(x & -> & Hx)|(tid & d5 & Hx & Hb)]; unfold st_try at 1; unfold st_bind at 1; rewrite Hx; [done|].
      apply expected_spec in Hx as [Hun5 _]. apply st_try_inv in Hb as [(x & -> & Hc)|([] & d6 & Hc & Hb)];
        change (Some (inode f)) with (inode <$> Some f) in Hc; rewrite <- Hf in Hc;
        apply check_at_spec in Hc as [-> Hr]; (try by rewrite (proj1 Hun5), (proj1 Hun'), (proj1 Hu)); done. }
    apply guarded_spec in Hb' as [(d5 & n & Hun5 & [Hm Hd] & Hr)|[Hun5 Hx]].
    + left. split; [|done]. cbn in Hm, Hd. rewrite Hm, Hd, (proj1 Hun5), (proj2 Hun5), (proj1 Hun'), (proj2 Hun'), (proj1 Hu), (proj2 Hu).
      unfold rename. by rewrite Hf, (proj2 Hun).
    + right. split; [by eapply unchanged_trans|]. destruct Hx as (x & -> & Hn). exists x. split; [done|].
      rewrite (proj1 Hun'), (proj1 Hu) in Hn. intros [[_ ?] ?]. by apply Hn.
Qed.

Lemma read_spec path d r d' :
  read e path maxJournal d = (r, d') ->
  unchanged d d' /\
  match p_files d !! path with
  | None => exists x, r = Err x /\ (errors_Is x ErrNotExist = true \/ ~ (providerAllowedPath path = true /\ total))
  | Some f => r = Ok (content f) /\ len (content f) <= maxJournal
              \/ exists x, r = Err x /\ errors_Is x ErrNotExist = false
                   /\ ~ (providerAllowedPath path = true /\ len (content f) <= maxJournal /\ total)
  end.
Proof.
  unfold read. intros [(x & -> & Hp)|([] & d1 & Hp & Hb)]%st_try_inv.
  - apply parent_spec in Hp as [Hun [[? _]|(y & [= <-] & Hx & Hn)]]; [done|]. split; [done|].
    destruct (p_files d !! path); [right|]; exists x; split_and!; try done; [|by right]. intros (? & _ & ?). by apply Hn.
  - apply parent_spec in Hp as [Hun [[_ Ha]|(y & ? & _)]]; [|done].
    apply closing_spec in Hb as (r1 & d2 & Hb & Hun2 & Hr); [|apply closeParent_spec].
    apply st_try_inv in Hb as [(x & -> & Ho)|(f & d3 & Ho & Hb)].
    + apply open_spec in Ho as [Hun3 Ho]. rewrite (proj1 Hun) in Ho. split; [by do 2 (eapply unchanged_trans; [eassumption|])|].
      destruct Hr as [(a & ? & _)|(x' & y & [= <-] & -> & Hy)]; [done|].
      destruct Ho as [(z & [= <-] & Hz & Ht)|Ho].
      * destruct (p_files d !! path); [right|]; exists y; rewrite Hy; split_and!; try done; [|right]; by intros (_ & ?); try by destruct_and?.
      * destruct (p_files d !! path); [done|]. injection Ho as ->. exists y. rewrite Hy. split; [done|by left].
    + apply open_spec in Ho as [Hun3 [(z & ? & _)|Ho]]; [done|]. rewrite (proj1 Hun) in Ho.
      destruct (p_files d !! path) as [g|]; [|done]. injection Ho as ->.
      apply closing_spec in Hb as (r2 & d4 & Hb & Hun4 & Hr2); [|apply pcall_spec].
      apply readProviderFile_spec in Hb as [Hun5 Hb]; [|apply journal_ok].
      split; [by do 4 (eapply unchanged_trans; [eassumption|])|].
      assert (Hcase : r = Ok (content g) /\ len (content g) <= maxJournal \/ exists x, r = Err x /\ errors_Is x ErrNotExist = false /\ ~ (len (content g) <= maxJournal /\ total)).
      { destruct Hb as [(x & -> & Hx & Ht)| ->].
        - destruct Hr2 as [(a & ? & _)|(x' & y & [= <-] & -> & Hy)]; [done|].
          destruct Hr as [(a & ? & _)|(y' & z & [= <-] & -> & Hz)]; [done|]. right. exists z. split_and!; [done|congruence|by intros [_ ?]].
        - destruct (Z.ltb_spec maxJournal (len (content g))).
          + destruct Hr2 as [(a & ? & _)|(x' & y & [= <-] & -> & Hy)]; [done|].
            destruct Hr as [(a & ? & _)|(y' & z & [= <-] & -> & Hz)]; [done|]. right. exists z. split_and!; [done|by rewrite Hz, Hy|intros [? _]; lia].
          + destruct Hr2 as [(a & [= <-] & [-> |(y & -> & Hy & Ht)])|(x & y & ? & _)]; [| |done].
            * destruct Hr as [(a & [= <-] & [-> |(y & -> & Hy & Ht)])|(x & y & ? & _)]; [by left| |done].
              right. exists y. split_and!; [done|done|by intros [_ ?]].
            * destruct Hr as [(a & ? & _)|(y' & z & [= <-] & -> & Hz)]; [done|]. right. exists z. split_and!; [done|congruence|by intros [_ ?]]. }
      destruct Hcase as [Hc|(x & -> & Hx & Hn)]; [by left|right]. exists x. split_and!; [done|done|]. intros (_ & ? & ?). by apply Hn.
Qed.

End Ops.
