(* ===== verification/ResourceConverge.v ===== *)
(** * ResourceConverge: recovery after any number of interruptions

    The recovery of an activation journal may be interrupted at every file
    operation, by an error or by the end of the process, and be started again in
    the same boot or after a reboot.  [ready] says how far the activation or an
    earlier recovery may have come; every attempt keeps it or finishes, and an
    attempt without a fault finishes.  What it leaves is [settled]: each target
    holds the file that the journal records, and nothing else has changed. *)

From Stdlib Require Import Ascii.
From S2P Require Import Prelude GoStd GoNet Settings Catalog SelfUpdate InstallJournal Utf8 Resources ResourceRecovery.

(** ** The documents *)

(** The tokens of a journal as [json.Marshal] writes it. *)
Definition fields_tree (names : list string) : list (string * jvalue) := map (fun n => (n, JScalar)) names.
Definition object_tree : jvalue := JObject (fields_tree ["present"; "identity"; "sha256"; "boot_id"]).
Definition entry_tree : jvalue :=
  JObject (fields_tree ["transaction"; "subscription_id"; "generation"; "kind"; "name"; "resource"; "format"; "geo";
                        "configuration"; "state_role"]
           ++ [("old", object_tree); ("new", object_tree); ("marker", object_tree)]
           ++ fields_tree ["backup_intent"; "backup_done"; "swap_intent"; "swap_done"; "restore_intent"; "restore_done"]).
Definition journal_tree (n : nat) : jvalue :=
  JObject (fields_tree ["schema"; "done"] ++ [("entries", JArray (repeat entry_tree n))]).

Definition object_text (o : providerObject) : bool :=
  forallb ValidString [o_Identity o; o_SHA256 o; o_BootID o].
Definition entry_text (en : resourceEntry) : bool :=
  forallb ValidString [Transaction en; SubscriptionID en; re_Kind en; re_Name en; Resource en; Format en; Geo en; StateRole en]
  && forallb object_text [Old en; New en; re_Marker en] && (0 <=? Generation en) && (Generation en <? two64).
Definition journal_text (j : resourceJournal) : bool := ValidString (rj_Schema j) && forallb entry_text (Entries j).

(** [encoding/json] gives back a document that it wrote, what it reads is valid
    UTF-8, and setting a flag does not lengthen a document. *)
Class ResourceCodec `{JSONTree} `{ResourceJSON} := {
  resources_roundtrip : forall j raw, journal_text j = true -> Entries j <> [] -> json_Marshal_resources j = Some raw ->
    json_Unmarshal_resources raw = Some j /\ json_tree raw = Some (journal_tree (length (Entries j)));
  resources_text : forall raw j, json_Unmarshal_resources raw = Some j -> journal_text j = true;
  resources_flags : forall j i en done raw, Entries j !! i = Some en -> implb (RestoreDone en) done = true ->
    json_Marshal_resources j = Some raw ->
    exists raw', json_Marshal_resources (set_entry i (set_restore true done en) j) = Some raw' /\ len raw' <= len raw
}.

Lemma add_state_role_tree n : add_state_role (repeat entry_tree n) = Some (repeat entry_tree n).
Proof. induction n as [|n IH]; [done|]. cbn [repeat]. unfold entry_tree at 1. cbn [add_state_role]. by rewrite IH. Qed.

Lemma entry_tree_shape : providerJSONShape entry_shape entry_tree = true.
Proof. vm_compute. reflexivity. Qed.

Lemma journal_tree_shape n : resourceJournalShape (journal_tree n) = true.
Proof.
  unfold resourceJournalShape, journal_tree. cbn [fields_tree map app member String.eqb Ascii.eqb Bool.eqb].
  rewrite add_state_role_tree. unfold journal_shape, scalars.
  cbn [providerJSONShape map app member_count member String.eqb Ascii.eqb Bool.eqb length Nat.eqb andb].
  rewrite !andb_true_r. apply forallb_forall. intros v Hv. apply repeat_spec in Hv as ->. apply entry_tree_shape.
Qed.

Lemma entry_tree_unique `{Unicode} : uniqueProviderJSON 2 entry_tree = true.
Proof. vm_compute. reflexivity. Qed.

Lemma journal_tree_unique `{Unicode} n : uniqueProviderJSON 0 (journal_tree n) = true.
Proof.
  assert (Hl : uniqueProviderJSON 1 (JArray (repeat entry_tree n)) = true).
  { cbn [uniqueProviderJSON]. change (16 <? 1) with false. cbn iota. apply forallb_forall.
    intros v Hv. apply repeat_spec in Hv as ->. apply entry_tree_unique. }
  unfold journal_tree. remember (JArray (repeat entry_tree n)) as v eqn:Hv. clear Hv.
  assert (Hu : uniqueProviderJSON 0 (JObject (fields_tree ["schema"; "done"] ++ [("entries"%string, v)]))
               = uniqueProviderJSON 1 v && true) by (vm_compute; by destruct (uniqueProviderJSON _ v)).
  by rewrite Hu, Hl.
Qed.

(** ** How far an activation or a recovery may have come *)

Section Tracked.
Context `{Sha256} `{Unicode} `{JSONTree} `{ResourceJSON}.

(** The identity of the data root in a boot. *)
Context (rootid : string -> string).

(** [o] was observed of the file [f]. *)
Record recorded_as (o : providerObject) (f : entry) : Prop := {
  rec_present : o_Present o = true;
  rec_sha : o_SHA256 o = providerDigest (content f);
  rec_identity : o_Identity o = (rootid (o_BootID o) ++ "/" ++ Key (inode f))%string;
  rec_size : len (content f) <= maxGeoResourceBytes
}.

Definition may (m : gmap string entry) (path : string) (o : providerObject) : Prop :=
  forall f, m !! path = Some f -> recorded_as o f.
Definition holds (m : gmap string entry) (path : string) (o : providerObject) : Prop :=
  match m !! path with Some f => recorded_as o f | None => o_Present o = false end.

(** Where the files of an entry are: untouched or restored, moved to the backup,
    or swapped with the new file. *)
Inductive progress (en : resourceEntry) (m : gmap string entry) : Prop :=
| restored : holds m (targetPath en) (Old en) -> m !! backupPath en = None -> progress en m
| moved : RestoreDone en = false -> BackupIntent en = true -> o_Present (Old en) = true ->
    m !! targetPath en = None -> holds m (backupPath en) (Old en) -> progress en m
| swapped : RestoreDone en = false -> SwapIntent en = true ->
    holds m (targetPath en) (New en) -> holds m (backupPath en) (Old en) -> progress en m.

Definition tracked (done : bool) (en : resourceEntry) (m : gmap string entry) : Prop :=
  holds m (markerPath en) (re_Marker en) /\ may m (candidatePath en) (New en) /\
  if done then holds m (targetPath en) (New en) /\ may m (backupPath en) (Old en) else progress en m.

(** A journal on the disk, of which the recovery can make something. *)
Record ready (j : resourceJournal) (m : gmap string entry) : Prop := {
  rd_checked : check_journal j = None;
  rd_tracked : forall en, en ∈ Entries j -> tracked (Done j) en m;
  rd_disk : exists f, m !! resourceJournalPath = Some f /\ len (content f) <= maxJournal
                      /\ decode_resources (content f) = Ok j;
  rd_small : exists raw, json_Marshal_resources j = Some raw /\ len raw <= maxJournal
}.

(** ** What the recovery leaves *)

Definition own_paths (en : resourceEntry) : list string := [targetPath en; backupPath en; candidatePath en].

Definition untouched (j : resourceJournal) (path : string) : Prop :=
  path <> resourceJournalPath /\ forall en, en ∈ Entries j -> path ∉ own_paths en.

(** The file that stays in the target: the new one of a journal that is done,
    else the old one, wherever it is. *)
Definition kept (done : bool) (en : resourceEntry) (m : gmap string entry) : option entry :=
  if done then m !! targetPath en
  else if o_Present (Old en) then match m !! backupPath en with Some f => Some f | None => m !! targetPath en end
  else None.

Definition agree (j : resourceJournal) (m m' : gmap string entry) : Prop :=
  (forall en, en ∈ Entries j -> kept (Done j) en m' = kept (Done j) en m) /\
  (forall path, untouched j path -> m' !! path = m !! path).

Definition settled (j : resourceJournal) (m m' : gmap string entry) : Prop :=
  m' !! resourceJournalPath = None /\
  (forall en, en ∈ Entries j ->
     m' !! backupPath en = None /\ m' !! candidatePath en = None /\
     m' !! targetPath en = kept (Done j) en m /\
     holds m' (targetPath en) (if Done j then New en else Old en)) /\
  (forall path, untouched j path -> m' !! path = m !! path).

(** An attempt in this boot of the same machine can tell the two files of each
    entry apart. *)
Definition distinguishable (e : penv) (en : resourceEntry) : Prop :=
  o_Present (Old en) = true -> pboot e = o_BootID (New en) \/ o_SHA256 (Old en) <> o_SHA256 (New en).

Record good (j : resourceJournal) (e : penv) : Prop := {
  good_honest : honest e;
  good_root : pidentity e = rootid (pboot e);
  good_apart : forall en, en ∈ Entries j -> distinguishable e en
}.

(** Membership in the paths of an entry. *)
Ltac in_own := unfold own_paths; repeat first [by left | right].

(** ** Flags do not matter *)

Definition plain (en : resourceEntry) : resourceEntry := set_restore false false en.
Definition same_plan (j j' : resourceJournal) : Prop :=
  Done j' = Done j /\ map plain (Entries j') = map plain (Entries j).

Lemma same_plan_refl j : same_plan j j.
Proof. done. Qed.
Lemma same_plan_sym j j' : same_plan j j' -> same_plan j' j.
Proof. intros [Hd He]. by split. Qed.
Lemma same_plan_trans a b c : same_plan a b -> same_plan b c -> same_plan a c.
Proof. intros [Hd He] [Hd' He']. split; congruence. Qed.

Lemma same_plan_flags j i en a b :
  Entries j !! i = Some en -> same_plan j (set_entry i (set_restore a b en) j).
Proof.
  intros Hi. split; [done|]. cbn [set_entry Entries]. change (map plain) with (fmap (M:=list) plain).
  rewrite list_fmap_insert. change (plain (set_restore a b en)) with (plain en).
  rewrite list_insert_id; [done|]. by rewrite list_lookup_fmap, Hi.
Qed.

Lemma plain_entry j j' en :
  same_plan j j' -> en ∈ Entries j' -> exists en', en' ∈ Entries j /\ plain en' = plain en.
Proof.
  intros [_ He] Hen. assert (Hin : plain en ∈ map plain (Entries j')) by (apply list_elem_of_In, in_map; by apply list_elem_of_In).
  rewrite He in Hin. apply list_elem_of_In, in_map_iff in Hin as (en' & Hp & Hin). exists en'. split; [by apply list_elem_of_In|done].
Qed.

Lemma plain_same {A} (f : resourceEntry -> A) en en' :
  (forall x, f x = f (plain x)) -> plain en' = plain en -> f en' = f en.
Proof. intros Hf Hp. rewrite (Hf en), (Hf en'). by rewrite Hp. Qed.

Lemma untouched_plan j j' path : same_plan j j' -> untouched j path -> untouched j' path.
Proof.
  intros Hs [Hj Hp]. split; [done|]. intros en Hen. destruct (plain_entry _ _ _ Hs Hen) as (en' & Hen' & Heq).
  rewrite <- (plain_same own_paths en en'); [by apply Hp|done|done].
Qed.

Lemma agree_plan j j' m m' : same_plan j j' -> agree j m m' -> agree j' m m'.
Proof.
  intros Hs [Hk Hp]. split.
  - intros en Hen. destruct (plain_entry _ _ _ Hs Hen) as (en' & Hen' & Heq). specialize (Hk en' Hen').
    rewrite (proj1 Hs). by rewrite !(plain_same (kept (Done j)) en en') in Hk.
  - intros path Hu. apply Hp. by eapply untouched_plan; [apply same_plan_sym|].
Qed.

Lemma agree_refl j m : agree j m m.
Proof. done. Qed.
Lemma agree_trans j a b c : agree j a b -> agree j b c -> agree j a c.
Proof. intros [Hk Hp] [Hk' Hp']. split; intros x Hx; [rewrite Hk' by done|rewrite Hp' by done]; auto. Qed.

Lemma settled_plan j j' m m' : same_plan j j' -> settled j m m' -> settled j' m m'.
Proof.
  intros Hs (Hj & He & Hp). split_and!; [done| |].
  - intros en Hen. destruct (plain_entry _ _ _ Hs Hen) as (en' & Hen' & Heq). destruct (He en' Hen') as (Hb & Hc & Ht & Hh).
    rewrite (proj1 Hs). rewrite (plain_same backupPath en en') in Hb by done.
    rewrite (plain_same candidatePath en en') in Hc by done.
    rewrite (plain_same targetPath en en') in Ht, Hh by done. rewrite (plain_same (kept (Done j)) en en') in Ht by done.
    rewrite (plain_same Old en en'), (plain_same New en en') in Hh by done. done.
  - intros path Hu. apply Hp. by eapply untouched_plan; [apply same_plan_sym|].
Qed.

Lemma settled_agree j a b c : agree j a b -> settled j b c -> settled j a c.
Proof.
  intros [Hk Hp] (Hj & He & Hu). split_and!; [done| |].
  - intros en Hen. destruct (He en Hen) as (Hb & Hc & Ht & Hh). by rewrite Hk in Ht by done.
  - intros path Hpath. rewrite Hu by done. by apply Hp.
Qed.

Lemma good_plan j j' e : same_plan j j' -> good j e -> good j' e.
Proof.
  intros Hs [Hh Hr Ha]. constructor; [done|done|]. intros en Hen.
  destruct (plain_entry _ _ _ Hs Hen) as (en' & Hen' & Heq). specialize (Ha en' Hen').
  unfold distinguishable in *. by rewrite (plain_same Old en en'), (plain_same New en en') in Ha.
Qed.

(** ** Comparing objects *)

Lemma observed_object_valid e f : honest e -> validProviderObject (observed e f) = true.
Proof.
  intros He. unfold validProviderObject, observed. cbn. rewrite providerDigest_valid.
  destruct (String.eqb_spec (pidentity e ++ "/" ++ Key (inode f)) "") as [Hx|_].
  { apply (f_equal String.length) in Hx. rewrite !append_length in Hx. cbn in Hx. lia. }
  destruct (String.eqb_spec (pboot e) "") as [Hx|_]; [|done]. by destruct (honest_boot _ He).
Qed.

Lemma same_recorded e o f :
  honest e -> pidentity e = rootid (pboot e) -> validProviderObject o = true -> recorded_as o f ->
  sameProviderObject (observed e f) o = true.
Proof.
  intros He Hr Hv [Hp Hs Hi _]. unfold sameProviderObject. rewrite observed_object_valid, Hv, Hp by done. cbn.
  rewrite Hs, String.eqb_refl. cbn. destruct (String.eqb_spec (pboot e) (o_BootID o)) as [Hb|_]; [|done].
  cbn. by rewrite Hi, Hr, Hb, String.eqb_refl.
Qed.

Lemma same_holds e m path o :
  honest e -> pidentity e = rootid (pboot e) -> validProviderObject o = true -> holds m path o ->
  sameProviderObject (look e m path) o = true.
Proof.
  intros He Hr Hv. unfold holds, look. destruct (m !! path) as [f|]; [by apply same_recorded|].
  intros Hp. unfold sameProviderObject. by rewrite Hp.
Qed.

Lemma different_recorded e o o' f :
  recorded_as o f -> o_Present o' = true -> pidentity e = rootid (pboot e) -> o_BootID o' = o_BootID o ->
  o_Identity o <> o_Identity o' -> pboot e = o_BootID o \/ o_SHA256 o <> o_SHA256 o' ->
  sameProviderObject (observed e f) o' = false.
Proof.
  intros [Hp Hs Hi _] Hp' Hr Hb Hd Hc. unfold sameProviderObject. rewrite Hp'. cbn [observed o_Present negb orb o_SHA256 o_BootID o_Identity].
  destruct Hc as [Hc|Hc].
  - rewrite Hb, Hc, String.eqb_refl. cbn [negb orb]. rewrite Hr, Hc, <- Hi.
    destruct (String.eqb_spec (o_Identity o) (o_Identity o')); [done|]. apply andb_false_r.
  - rewrite <- Hs. destruct (String.eqb_spec (o_SHA256 o) (o_SHA256 o')); [done|]. by rewrite andb_false_r.
Qed.

Lemma absent_different a o : o_Present a = false -> o_Present o = true -> sameProviderObject a o = false.
Proof. intros Ha Ho. unfold sameProviderObject. by rewrite Ha, Ho. Qed.

(** ** The paths of accepted entries *)

Lemma accepted_allowed done en path :
  accepted done en -> path ∈ markerPath en :: own_paths en -> providerAllowedPath path = true.
Proof.
  intros [Ht _ Hx _ _ _] Hp. apply list_elem_of_In in Hp. cbn in Hp. destruct_or! Hp; subst path.
  - by apply (allowed_staging _ "transaction-id").
  - eapply allowed_based; [exact Ht|by left].
  - eapply allowed_based; [exact Ht|right; eauto].
  - by apply (allowed_staging _ "candidate").
Qed.

Lemma accepted_not_journal done en path :
  accepted done en -> path ∈ markerPath en :: own_paths en -> path <> resourceJournalPath.
Proof.
  intros [Ht _ Hx _ _ _] Hp. apply list_elem_of_In in Hp. cbn in Hp. destruct_or! Hp; subst path.
  - by apply (staging_not_journal _ "transaction-id").
  - rewrite <- (append_nil_r (targetPath en)). by apply (target_not_staging _ "" "activation.json").
  - by apply (target_not_staging _ _ "activation.json").
  - by apply (staging_not_journal _ "candidate").
Qed.

(** Two different entries share no path, and the paths of one are different. *)
Lemma apart_paths done a b p q :
  accepted done a -> accepted done b -> targetPath a <> targetPath b -> Transaction a <> Transaction b ->
  p ∈ markerPath a :: own_paths a -> q ∈ markerPath b :: own_paths b -> p <> q.
Proof.
  intros [Ta _ Xa _ _ _] [Tb _ Xb _ _ _] Ht Hx Hp Hq. apply list_elem_of_In in Hp, Hq. cbn in Hp, Hq.
  assert (Hna : forall y z, (targetPath a ++ y)%string <> ("staging/providers/" ++ z)%string) by (intros; by apply target_not_staging).
  assert (Hnb : forall y z, (targetPath b ++ y)%string <> ("staging/providers/" ++ z)%string) by (intros; by apply target_not_staging).
  assert (Hna0 := fun z => Hna "" z). assert (Hnb0 := fun z => Hnb "" z).
  setoid_rewrite append_nil_r in Hna0. setoid_rewrite append_nil_r in Hnb0.
  destruct_or! Hp; destruct_or! Hq; subst p q; intros Heq;
    try solve [ by apply (staging_inj _ _ "transaction-id" "transaction-id") in Heq as [? _]
              | by apply (staging_inj _ _ "transaction-id" "candidate") in Heq as [? _]
              | by apply (staging_inj _ _ "candidate" "transaction-id") in Heq as [? _]
              | by apply (staging_inj _ _ "candidate" "candidate") in Heq as [? _]
              | by eapply Hna; exact Heq | by eapply Hnb; exact (eq_sym Heq)
              | by eapply Hna0; exact Heq | by eapply Hnb0; exact (eq_sym Heq)
              | by apply target_not_backup in Heq | by symmetry in Heq; apply target_not_backup in Heq
              | by apply backup_inj in Heq as [? _] | done ].
Qed.

Lemma own_distinct done en :
  accepted done en -> NoDup (markerPath en :: own_paths en).
Proof.
  intros [Ht _ Hx _ _ _].
  assert (Hn : forall y z, (targetPath en ++ y)%string <> ("staging/providers/" ++ z)%string) by (intros; by apply target_not_staging).
  assert (Hn0 := fun z => Hn "" z). setoid_rewrite append_nil_r in Hn0.
  unfold own_paths. rewrite !NoDup_cons, !not_elem_of_cons.
  split_and!; try apply not_elem_of_nil; try apply NoDup_nil_2; intros Heq;
    solve [ by eapply Hn; exact Heq | by eapply Hn; exact (eq_sym Heq)
              | by eapply Hn0; exact Heq | by eapply Hn0; exact (eq_sym Heq)
              | by apply target_not_backup in Heq
              | by apply (staging_inj _ _ "transaction-id" "candidate") in Heq as [_ ?] ].
Qed.

Lemma holds_ext m m' p o : m' !! p = m !! p -> holds m p o -> holds m' p o.
Proof. unfold holds. by intros ->. Qed.
Lemma may_ext m m' p o : m' !! p = m !! p -> may m p o -> may m' p o.
Proof. unfold may. by intros ->. Qed.

Lemma tracked_ext done en m m' :
  (forall p, p ∈ markerPath en :: own_paths en -> m' !! p = m !! p) -> tracked done en m -> tracked done en m'.
Proof.
  intros Hm (Hk & Hc & Hd).
  assert (Em : m' !! markerPath en = m !! markerPath en) by (apply Hm; in_own).
  assert (Et : m' !! targetPath en = m !! targetPath en) by (apply Hm; in_own).
  assert (Eb : m' !! backupPath en = m !! backupPath en) by (apply Hm; in_own).
  assert (Ec : m' !! candidatePath en = m !! candidatePath en) by (apply Hm; in_own).
  split_and!; [by eapply holds_ext|by eapply may_ext|]. destruct done.
  - destruct Hd as [Ht Hb]. split; [by eapply holds_ext|by eapply may_ext].
  - destruct Hd as [Ht Hb|Hr Hi Ho Ht Hb|Hr Hi Ht Hb].
    + apply restored; [by eapply holds_ext|congruence].
    + apply moved; [done..|congruence|by eapply holds_ext].
    + apply swapped; [done|done|by eapply holds_ext..].
Qed.

Lemma accepted_at j i en : proper j -> Entries j !! i = Some en -> accepted (Done j) en.
Proof. intros [Hp _ _] Hi. rewrite Forall_forall in Hp. apply Hp. by eapply list_elem_of_lookup_2. Qed.

Lemma other_paths j i k a b p q :
  proper j -> Entries j !! i = Some a -> Entries j !! k = Some b -> i <> k ->
  p ∈ markerPath a :: own_paths a -> q ∈ markerPath b :: own_paths b -> p <> q.
Proof.
  intros Hp Hi Hk Hne. pose proof (accepted_at _ _ _ Hp Hi) as Ha. pose proof (accepted_at _ _ _ Hp Hk) as Hb.
  destruct Hp as [_ Ht Hx]. eapply apart_paths; [exact Ha|exact Hb| |].
  - intros Heq. apply Hne. eapply (NoDup_lookup (map targetPath (Entries j)) i k (targetPath a)); [done|..];
      change (map targetPath) with (fmap (M:=list) targetPath); rewrite list_lookup_fmap, ?Hi, ?Hk; cbn; by f_equal.
  - intros Heq. apply Hne. eapply (NoDup_lookup (map Transaction (Entries j)) i k (Transaction a)); [done|..];
      change (map Transaction) with (fmap (M:=list) Transaction); rewrite list_lookup_fmap, ?Hi, ?Hk; cbn; by f_equal.
Qed.

(** A change to the files of one entry, and to the journal, leaves the others. *)
Lemma tracked_others j i en m m' :
  proper j -> Entries j !! i = Some en ->
  (forall p, p ∉ own_paths en -> p <> resourceJournalPath -> m' !! p = m !! p) ->
  (forall x, x ∈ Entries j -> tracked (Done j) x m) -> tracked (Done j) en m' ->
  forall x, x ∈ Entries j -> tracked (Done j) x m'.
Proof.
  intros Hp Hi Hm Ht Hen x Hx. apply list_elem_of_lookup in Hx as [k Hk].
  destruct (decide (i = k)) as [<-|Hne]; [congruence|].
  apply (tracked_ext _ _ m); [|apply Ht; by eapply list_elem_of_lookup_2].
  intros p Hin. apply Hm.
  - intros Hin'. eapply (other_paths j i k en x p p); try done. by apply elem_of_cons; right.
  - eapply accepted_not_journal; [by eapply accepted_at|done].
Qed.

Lemma agree_entry j i en m m' :
  proper j -> Entries j !! i = Some en ->
  (forall p, p ∉ own_paths en -> p <> resourceJournalPath -> m' !! p = m !! p) ->
  kept (Done j) en m' = kept (Done j) en m -> agree j m m'.
Proof.
  intros Hp Hi Hm Hk. split.
  - intros x Hx. apply list_elem_of_lookup in Hx as [k Hx]. destruct (decide (i = k)) as [<-|Hne]; [congruence|].
    assert (He : forall p, p ∈ own_paths x -> m' !! p = m !! p).
    { intros p Hin. apply Hm.
      - intros Hin'. eapply (other_paths j i k en x p p); try done; by apply elem_of_cons; right.
      - eapply accepted_not_journal; [by eapply accepted_at|by apply elem_of_cons; right]. }
    unfold kept. rewrite (He (targetPath x)), (He (backupPath x)) by in_own. done.
  - intros p [Hj Hu]. apply Hm; [|done]. apply Hu. by eapply list_elem_of_lookup_2.
Qed.

(** ** Setting the flags of an entry *)

Lemma check_entry_flags s en b x :
  check_entry false s en = Ok x -> check_entry false s (set_restore true b en) = Ok x.
Proof.
  intros Hc. assert (Ha : action_mismatch false en = false) by (by apply check_entry_ok in Hc as [[_ _ _ Ha _ _] _]).
  assert (Ha' : action_mismatch false (set_restore true b en) = false).
  { unfold action_mismatch in *. cbn [set_restore New re_Marker Transaction BackupDone BackupIntent SwapIntent SwapDone RestoreDone RestoreIntent] in *.
    rewrite !orb_false_iff in *. destruct Ha as [[[[[[[? ?] ?] ?] ?] ?] _] _]. split_and!; try done. by destruct b. }
  revert Hc. unfold check_entry. rewrite Ha, Ha'. done.
Qed.

Lemma check_entries_flags l i en b s x :
  l !! i = Some en -> check_entries false s l = Ok x -> check_entries false s (<[i := set_restore true b en]> l) = Ok x.
Proof.
  revert i s. induction l as [|a l IH]; intros [|i] s; try done; cbn [lookup list_lookup insert list_insert check_entries].
  - intros [= ->]. destruct (check_entry false s en) as [s1|] eqn:Hc; [|done]. by rewrite (check_entry_flags _ _ _ _ Hc).
  - intros Hi. destruct (check_entry false s a) as [s1|]; [|done]. by apply IH.
Qed.

Lemma existsb_insert {A} (f : A -> bool) l i a a' : l !! i = Some a -> f a' = f a -> existsb f (<[i := a']> l) = existsb f l.
Proof.
  intros Hi Hf. revert i Hi. induction l as [|x l IH]; intros [|i]; try done; cbn [lookup list_lookup insert list_insert existsb].
  - intros [= ->]. by rewrite Hf.
  - intros Hi. exact (f_equal (orb (f x)) (IH i Hi)).
Qed.

Lemma check_journal_flags j i en b :
  Done j = false -> Entries j !! i = Some en -> check_journal j = None ->
  check_journal (set_entry i (set_restore true b en) j) = None.
Proof.
  intros Hd Hi. unfold check_journal. cbn [set_entry rj_Schema Entries Done]. rewrite length_insert. case_if; [done|].
  rewrite Hd. destruct (check_entries false _ (Entries j)) as [s|] eqn:Hc; [|done].
  rewrite (check_entries_flags _ _ _ b _ _ Hi Hc). rewrite (existsb_insert _ _ i en); [done|done|done].
Qed.

Lemma journal_text_flags j i en a b :
  Entries j !! i = Some en -> journal_text j = true -> journal_text (set_entry i (set_restore a b en) j) = true.
Proof.
  intros Hi. unfold journal_text. cbn [set_entry rj_Schema Entries]. intros [-> He]%andb_true_iff. cbn [andb].
  rewrite forallb_forall in *. intros x Hx. apply list_elem_of_In, list_elem_of_lookup in Hx as [k Hk].
  apply list_lookup_insert_Some in Hk as [(-> & <- & _)|[_ Hk]].
  - change (entry_text en = true). apply He. apply list_elem_of_In. by eapply list_elem_of_lookup_2.
  - apply He. apply list_elem_of_In. by eapply list_elem_of_lookup_2.
Qed.

(** ** One entry *)

Context `{!ResourceCodec} (e : penv).

Lemma decode_saved j raw :
  check_journal j = None -> json_Unmarshal_resources raw = Some j ->
  json_tree raw = Some (journal_tree (length (Entries j))) -> decode_resources raw = Ok j.
Proof.
  intros Hc Hu Ht. unfold decode_resources. rewrite Ht, journal_tree_shape, journal_tree_unique, Hu, Hc. done.
Qed.

Lemma checked_nonempty j : check_journal j = None -> Entries j <> [].
Proof. unfold check_journal. intros Hc Hn. rewrite Hn in Hc. cbn [length Nat.eqb] in Hc. by rewrite orb_true_r in Hc. Qed.

Lemma ready_text j m : ready j m -> journal_text j = true.
Proof.
  intros [_ _ (f & _ & _ & Hd) _]. unfold decode_resources in Hd.
  destruct (json_tree (content f)); [|done]. case_if_in Hd; [done|]. case_if_in Hd; [done|].
  destruct (json_Unmarshal_resources (content f)) as [j'|] eqn:Hu; [|done]. destruct (check_journal j'); [done|].
  injection Hd as <-. by eapply resources_text.
Qed.

Definition journal_allowed : providerAllowedPath resourceJournalPath = true := eq_refl.

Lemma journal_fits m f : m !! resourceJournalPath = Some f -> len (content f) <= maxJournal -> fits m resourceJournalPath.
Proof. intros Hm Hl g Hg. rewrite Hm in Hg. injection Hg as <-. unfold maxJournal, maxGeoResourceBytes in *. lia. Qed.

(** Only the journal of two disks differs. *)
Definition but_journal (m m' : gmap string entry) : Prop := forall p, p <> resourceJournalPath -> m' !! p = m !! p.

(** Saving the journal with the flags of an entry set. *)
Lemma save_flags_spec j i en b d r d' :
  honest e -> ready j (p_files d) -> Done j = false -> Entries j !! i = Some en -> implb (RestoreDone en) b = true ->
  (b = true -> RestoreDone en = false -> holds (p_files d) (targetPath en) (Old en) /\ p_files d !! backupPath en = None) ->
  saveResourceJournal e (set_entry i (set_restore true b en) j) d = (r, d') ->
  (exists j', same_plan j j' /\ ready j' (p_files d') /\ but_journal (p_files d) (p_files d') /\
     (j' = set_entry i (set_restore true b en) j /\ late e r \/ j' = j /\ exists x, r = Err x /\ ~ total e)).
Proof.
  intros He Hr Hd Hi Hb Hres Hs. pose proof (ready_text _ _ Hr) as Htext. destruct Hr as [Hc Ht (f & Hf & Hl & Hdec) Hsm].
  set (j1 := set_entry i (set_restore true b en) j) in *.
  assert (Hc1 : check_journal j1 = None) by by apply check_journal_flags.
  destruct Hsm as (raw0 & Hm0 & Hl0). destruct (resources_flags _ _ _ _ _ Hi Hb Hm0) as (raw & Hm & Hraw). fold j1 in Hm.
  destruct (resources_roundtrip j1 raw) as (Hu & Htree); [by apply journal_text_flags|by apply checked_nonempty|done|].
  unfold saveResourceJournal in Hs. rewrite Hm in Hs.
  assert (Hfit := journal_fits _ _ Hf Hl).
  apply st_try_inv in Hs as [(x & -> & Hx)|(old & d1 & Hx & Hw)].
  - apply inspect_spec in Hx as [[Hun _] [[? _]|(y & [= <-] & Hn)]]; [done| |done].
    exists j. rewrite Hun. split_and!; [done|by constructor; eauto|done|]. right. split; [done|]. exists x. split; [done|].
    intros Htot. apply Hn. split_and!; done.
  - apply inspect_spec in Hx as [Hun [[[= ->] _]|(y & ? & _)]]; [|done|done].
    assert (Hlk : look e (p_files d) resourceJournalPath = look e (p_files d1) resourceJournalPath) by by rewrite (proj1 Hun).
    rewrite Hlk in Hw. apply write_spec in Hw as (n & [[[Hm' _] Hlate]|[[Hm' _] (x & -> & Hn)]]); [| |done].
    + exists j1. rewrite (proj1 Hun) in Hm'. rewrite Hm'.
      assert (Hbut : but_journal (p_files d) (<[resourceJournalPath := mkEntry raw (pinode e n)]> (p_files d))).
      { intros p Hp. by rewrite lookup_insert_ne. }
      split_and!; [by apply same_plan_flags| |done|by left]. constructor; [done| | |].
      * intros x Hx. assert (Hp : proper j) by by apply check_journal_proper.
        assert (Htr : tracked (Done j) x (p_files d)).
        { cbn [j1 set_entry Entries] in Hx. apply list_elem_of_lookup in Hx as [k Hk].
          apply list_lookup_insert_Some in Hk as [(<- & <- & _)|[_ Hk]].
          - assert (Hen : tracked (Done j) en (p_files d)) by (apply Ht; by eapply list_elem_of_lookup_2).
            destruct Hen as (Hmk & Hcd & Hpr). split_and!; [done|done|]. rewrite Hd in *.
            destruct (RestoreDone en) eqn:Hrd.
            + destruct b; [|done]. destruct Hpr as [Hp1 Hp2|?|?]; [by apply restored|congruence..].
            + destruct b; [destruct (Hres eq_refl eq_refl); by apply restored|].
              destruct Hpr as [Hp1 Hp2|? ? ? ? ?|? ? ? ?]; [by apply restored|by apply moved|by apply swapped].
          - apply Ht. by eapply list_elem_of_lookup_2. }
        change (Done j1) with (Done j). eapply tracked_ext; [|exact Htr]. intros p Hin. apply Hbut.
        assert (exists k y, Entries j !! k = Some y /\ markerPath x = markerPath y /\ own_paths x = own_paths y) as (k & y & Hk & Hmk & Hop).
        { apply list_elem_of_lookup in Hx as [k Hk]. cbn [j1 set_entry Entries] in Hk.
          apply list_lookup_insert_Some in Hk as [(<- & <- & _)|[_ Hk]]; [by exists i, en|by exists k, x]. }
        rewrite Hmk, Hop in Hin. eapply accepted_not_journal; [by eapply accepted_at|done].
      * exists (mkEntry raw (pinode e n)). rewrite lookup_insert_eq. split_and!; [done|cbn; lia|]. by apply decode_saved.
      * exists raw. split; [done|lia].
    + exists j. rewrite Hm', (proj1 Hun). split_and!; [done|by constructor; eauto|done|]. right. split; [done|]. exists x.
      split; [done|]. intros Htot. apply Hn. split; [split; [done|]|done]. by rewrite (proj1 Hun).
Qed.

Context (He : honest e) (Hroot : pidentity e = rootid (pboot e)).

Lemma may_fits m p o : may m p o -> fits m p.
Proof. intros Hm f Hf. by destruct (Hm f Hf). Qed.
Lemma holds_may m p o : holds m p o -> may m p o.
Proof. unfold holds, may. intros Hh f Hf. by rewrite Hf in Hh. Qed.
Lemma absent_may m p o : m !! p = None -> may m p o.
Proof. intros Hm f Hf. congruence. Qed.

Lemma same_may m p o :
  validProviderObject o = true -> may m p o -> o_Present (look e m p) && negb (sameProviderObject (look e m p) o) = false.
Proof.
  intros Hv Hm. rewrite look_present. unfold look. destruct (m !! p) as [f|] eqn:Hf; [|done].
  by rewrite same_recorded by eauto.
Qed.

Lemma progress_backup en m : progress en m -> may m (backupPath en) (Old en).
Proof. intros [? Hb|? ? ? ? Hb|? ? ? Hb]; [by apply absent_may|by apply holds_may..]. Qed.

Lemma accepted_flags en : accepted false en -> SwapIntent en = true -> BackupIntent en = true.
Proof.
  intros [_ _ _ Ha _ _] Hs. unfold action_mismatch in Ha. rewrite !orb_false_iff in Ha.
  destruct Ha as [[[[[_ Hb] Hc] _] _] _]. rewrite Hs in Hc. cbn in Hc. apply negb_false_iff in Hc. rewrite Hc in Hb. cbn in Hb.
  by apply negb_false_iff in Hb.
Qed.

Lemma accepted_new done en : accepted done en -> o_Present (New en) = true.
Proof.
  intros [_ _ _ Ha _ _]. unfold action_mismatch in Ha. rewrite !orb_false_iff in Ha. by destruct Ha as [[[[[[[Ha%negb_false_iff _] _] _] _] _] _] _].
Qed.

(** The old file is not the new one, nor the other way round. *)
Lemma old_not_new done en f :
  accepted done en -> distinguishable e en -> recorded_as (Old en) f -> sameProviderObject (observed e f) (New en) = false.
Proof.
  intros Ha Hd Hr. pose proof (accepted_new _ _ Ha) as Hn. destruct Ha as [_ _ _ _ Hv Hx]. pose proof (rec_present _ _ Hr) as Hp.
  assert (Hb : o_BootID (New en) = o_BootID (Old en)).
  { rewrite (proj2 (Hv _ (or_introl eq_refl)) Hp). by rewrite (proj2 (Hv _ (or_intror (or_introl eq_refl))) Hn). }
  apply (different_recorded _ (Old en)); try done; [by apply Hx|]. rewrite <- Hb. by apply Hd.
Qed.

Lemma new_not_old done en f :
  accepted done en -> distinguishable e en -> recorded_as (New en) f -> sameProviderObject (observed e f) (Old en) = false.
Proof.
  intros Ha Hd Hr. pose proof (accepted_new _ _ Ha) as Hn. destruct Ha as [_ _ _ _ Hv Hx].
  destruct (o_Present (Old en)) eqn:Hp; [|unfold sameProviderObject; by rewrite Hp].
  assert (Hb : o_BootID (New en) = o_BootID (Old en)).
  { rewrite (proj2 (Hv _ (or_introl eq_refl)) Hp). by rewrite (proj2 (Hv _ (or_intror (or_introl eq_refl))) Hn). }
  apply (different_recorded _ (New en)); try done; [by intros Heq; apply Hx|]. destruct (Hd Hp); [by left|right; congruence].
Qed.

Lemma refused_none en m :
  accepted false en -> distinguishable e en -> progress en m ->
  entry_refused en (look e m (targetPath en)) (look e m (backupPath en)) = None.
Proof.
  intros Ha Hd Hp. pose proof (accepted_new _ _ Ha) as Hn. pose proof (acc_valid _ _ Ha) as Hv.
  assert (Hvo : validProviderObject (Old en) = true) by (apply Hv; by left).
  assert (Hvn : validProviderObject (New en) = true) by (apply Hv; right; by left).
  unfold entry_refused. destruct Hp as [Ht Hb|Hr Hi Ho Ht Hb|Hr Hi Ht Hb].
  - assert (HO : sameProviderObject (look e m (targetPath en)) (Old en) = true) by by apply same_holds.
    assert (HN : sameProviderObject (look e m (targetPath en)) (New en) = false).
    { unfold holds in Ht. unfold look. destruct (m !! targetPath en) as [f|]; [by eapply old_not_new|by apply absent_different]. }
    rewrite HO, HN, !look_present, Hb. cbn [negb]. by rewrite !andb_false_r.
  - assert (HO : sameProviderObject (look e m (targetPath en)) (Old en) = false) by (unfold look; rewrite Ht; by apply absent_different).
    assert (HN : sameProviderObject (look e m (targetPath en)) (New en) = false) by (unfold look; rewrite Ht; by apply absent_different).
    rewrite HO, HN, Hr, Hi, look_present, Ht, (same_holds e m (backupPath en) (Old en)) by done. cbn. by rewrite !andb_false_r.
  - assert (HN : sameProviderObject (look e m (targetPath en)) (New en) = true) by by apply same_holds.
    assert (HO : sameProviderObject (look e m (targetPath en)) (Old en) = false).
    { unfold holds in Ht. unfold look. destruct (m !! targetPath en) as [f|]; [by eapply new_not_old|congruence]. }
    rewrite HO, HN, Hr, Hi, (accepted_flags en Ha Hi), (same_holds e m (backupPath en) (Old en)) by done. cbn. by rewrite !andb_false_r.
Qed.

Lemma restore_file_spec en d r d' :
  accepted false en -> progress en (p_files d) ->
  restore_file e en (look e (p_files d) (targetPath en)) (look e (p_files d) (backupPath en)) d = (r, d') ->
  (late e r /\ holds (p_files d') (targetPath en) (Old en) /\ p_files d' !! backupPath en = None
   /\ kept false en (p_files d') = kept false en (p_files d)
   /\ (forall p, p ∉ own_paths en -> p_files d' !! p = p_files d !! p)
   /\ p_files d' !! candidatePath en = p_files d !! candidatePath en)
  \/ unchanged d d' /\ exists x, r = Err x /\ ~ total e.
Proof.
  intros Ha Hp. pose proof (progress_backup _ _ Hp) as Hmb.
  assert (Hat : providerAllowedPath (targetPath en) = true) by (eapply accepted_allowed; [exact Ha|in_own]).
  assert (Hab : providerAllowedPath (backupPath en) = true) by (eapply accepted_allowed; [exact Ha|in_own]).
  pose proof (own_distinct _ _ Ha) as Hnd. unfold own_paths in Hnd. rewrite !NoDup_cons, !not_elem_of_cons in Hnd.
  destruct Hnd as (_ & (Htb & Htc & _) & (Hbc & _) & _).
  assert (Hft : fits (p_files d) (targetPath en)).
  { destruct Hp as [Ht _|_ _ _ Ht _|_ _ Ht _]; [by eapply may_fits, holds_may| |by eapply may_fits, holds_may]. intros f Hf. congruence. }
  unfold restore_file. rewrite !look_present. destruct (p_files d !! backupPath en) as [f|] eqn:Hb.
  - intros Hm. eapply move_spec in Hm; [|done|done]. destruct Hm as [[[Hm _] Hl]|[Hu (x & -> & Hn)]].
    + left. rewrite Hm. specialize (Hmb f Hb). split_and!; [done| | | | |].
      * unfold holds. by rewrite lookup_insert_eq.
      * by rewrite lookup_insert_ne, lookup_delete_eq.
      * unfold kept. rewrite (rec_present _ _ Hmb), lookup_insert_eq, lookup_insert_ne, lookup_delete_eq, Hb by done. done.
      * intros p Hin. rewrite lookup_insert_ne by set_solver. by rewrite lookup_delete_ne by set_solver.
      * rewrite lookup_insert_ne by done. by rewrite lookup_delete_ne.
    + right. split; [done|]. exists x. split; [done|]. intros Ht. apply Hn. split_and!; [done..| |done|done].
      by eapply may_fits.
  - destruct (p_files d !! targetPath en) as [g|] eqn:Hg; [destruct (o_Present (Old en)) eqn:Ho|]; cbn [negb andb].
    + intros [= <- <-]. left. split_and!; try done; [by left|].
      destruct Hp as [Ht _|? ? ? ? ?|? ? ? Hh]; [done|congruence|]. unfold holds in Hh. rewrite Hb in Hh. congruence.
    + intros Hm. apply remove_spec in Hm; [|done]. destruct Hm as [[[Hm _] Hl]|[Hu (x & -> & Hn)]].
      * left. rewrite Hm. split_and!; [done| | | | |].
        -- unfold holds. by rewrite lookup_delete_eq.
        -- by rewrite lookup_delete_ne.
        -- unfold kept. by rewrite Ho.
        -- intros p Hin. by rewrite lookup_delete_ne by set_solver.
        -- by rewrite lookup_delete_ne.
      * right. split; [done|]. exists x. split; [done|]. intros Ht. by apply Hn.
    + rewrite andb_false_r. intros [= <- <-]. left. split_and!; try done; [by left|].
      destruct Hp as [Ht _|? ? ? ? Hh|? ? Ht Hh].
      * done.
      * unfold holds in Hh. rewrite Hb in Hh. congruence.
      * unfold holds in *. rewrite Hb in Hh. by rewrite Hg.
Qed.

Lemma inspect_known {A} path (k : providerObject -> st pdisk (result A)) d r d' :
  providerAllowedPath path = true -> fits (p_files d) path ->
  (try! o := inspect e path in k o) d = (r, d') ->
  unchanged d d' /\ (exists x, r = Err x /\ ~ total e)
  \/ exists d1, p_files d1 = p_files d /\ k (look e (p_files d) path) d1 = (r, d').
Proof.
  intros Hal Hf [(x & -> & Hx)|(o & d1 & Hx & Hk)]%st_try_inv.
  - apply inspect_spec in Hx as [Hun [[? _]|(y & [= <-] & Hn)]]; [done| |done]. left. split; [done|]. exists x.
    split; [done|]. intros Ht. by apply Hn.
  - apply inspect_spec in Hx as [Hun [[[= ->] _]|(y & ? & _)]]; [|done|done]. right. exists d1. by split; [apply Hun|].
Qed.

Lemma agree_but_journal j m m' : proper j -> but_journal m m' -> agree j m m'.
Proof.
  intros Hp Hb. split.
  - intros en Hen. destruct Hp as [Hall _ _]. rewrite Forall_forall in Hall. specialize (Hall en Hen). unfold kept.
    rewrite !Hb; [done|..]; eapply accepted_not_journal; try exact Hall; in_own.
  - intros p [Hj _]. by apply Hb.
Qed.

(** What one call to [recover_entry] or a part of it leaves. *)
Definition stays (j : resourceJournal) (m m' : gmap string entry) : Prop :=
  exists j', same_plan j j' /\ ready j' m' /\ agree j m m'.

Lemma stays_same j m m' : ready j m -> m' = m -> stays j m m'.
Proof. intros Hr ->. exists j. done. Qed.

Lemma ready_restored j i en m m' :
  ready j m -> Done j = false -> Entries j !! i = Some en ->
  holds m' (targetPath en) (Old en) -> m' !! backupPath en = None -> m' !! candidatePath en = m !! candidatePath en ->
  (forall p, p ∉ own_paths en -> m' !! p = m !! p) -> ready j m'.
Proof.
  intros [Hc Ht Hdisk Hsm] Hd Hi Hh Hb Hcand Hm. assert (Hp : proper j) by by apply check_journal_proper.
  pose proof (accepted_at _ _ _ Hp Hi) as Ha. constructor; [done| | |done].
  - eapply tracked_others; [done|done|by intros p Hin _; apply Hm|done|].
    destruct (Ht en) as (Hmk & Hcd & _); [by eapply list_elem_of_lookup_2|]. split_and!.
    + eapply holds_ext; [|done]. apply Hm. pose proof (own_distinct _ _ Ha) as Hnd. by apply NoDup_cons_1_1 in Hnd.
    + by eapply may_ext.
    + rewrite Hd. by apply restored.
  - rewrite Hm; [done|]. intros Hin. eapply accepted_not_journal; [exact Ha|by apply elem_of_cons; right|done].
Qed.

Lemma set_entry_id j i en : Entries j !! i = Some en -> set_entry i en j = j.
Proof. intros Hi. unfold set_entry. rewrite list_insert_id by done. by destruct j. Qed.

(** The first save, unless the intent is on the disk already. *)
Lemma intent_spec j i en d r d' :
  ready j (p_files d) -> Done j = false -> Entries j !! i = Some en ->
  (if RestoreIntent en then st_ret (Ok tt)
   else saveResourceJournal e (set_entry i (set_restore true (RestoreDone en) en) j)) d = (r, d') ->
  but_journal (p_files d) (p_files d') /\
  (r = Ok tt /\ ready (set_entry i (set_restore true (RestoreDone en) en) j) (p_files d')
   \/ stays j (p_files d) (p_files d') /\ exists x, r = Err x /\ ~ total e).
Proof.
  intros Hr Hd Hi. assert (Hp : proper j) by (apply check_journal_proper, Hr). destruct (RestoreIntent en) eqn:Hint.
  - intros [= <- <-]. split; [done|left]. split; [done|].
    replace (set_restore true (RestoreDone en) en) with en by (rewrite <- Hint; by destruct en). by rewrite set_entry_id.
  - intros Hs. eapply save_flags_spec in Hs as (j' & Hpl & Hr' & Hbut & Hs); [|done..|by destruct (RestoreDone en)|congruence].
    split; [done|]. destruct Hs as [[-> [-> |(x & -> & Ht)]]|[-> (x & -> & Ht)]]; [by left|right..];
      (split; [|by exists x]); eexists; split_and!; try done; by apply agree_but_journal.
Qed.

Lemma recover_undone j i en d r d' :
  ready j (p_files d) -> Done j = false -> Entries j !! i = Some en ->
  (try! _ := if RestoreIntent en then st_ret (Ok tt)
             else saveResourceJournal e (set_entry i (set_restore true (RestoreDone en) en) j) in
   try! _ := restore_file e en (look e (p_files d) (targetPath en)) (look e (p_files d) (backupPath en)) in
   try! _ := if RestoreDone en then st_ret (Ok tt)
             else saveResourceJournal e (set_entry i (set_restore true true en) j) in
   st_ret (Ok (set_entry i (set_restore true true en) j))) d = (r, d') ->
  r = Ok (set_entry i (set_restore true true en) j) /\ ready (set_entry i (set_restore true true en) j) (p_files d')
    /\ agree j (p_files d) (p_files d')
  \/ stays j (p_files d) (p_files d') /\ exists x, r = Err x /\ ~ total e.
Proof.
  intros Hr Hd Hi Hrun. assert (Hp : proper j) by (apply check_journal_proper, Hr).
  pose proof (accepted_at _ _ _ Hp Hi) as Ha. rewrite Hd in Ha.
  set (en1 := set_restore true (RestoreDone en) en) in *. set (j1 := set_entry i en1 j) in *.
  assert (Hi1 : Entries j1 !! i = Some en1) by (cbn; apply list_lookup_insert_eq; by eapply lookup_lt_Some).
  assert (Hpl : same_plan j j1) by by apply same_plan_flags.
  apply st_try_inv in Hrun as [(x & -> & Hone)|([] & d1 & Hone & Hrun)]; apply intent_spec in Hone as [Hbut Hone]; try done.
  { destruct Hone as [[? _]|(Hs & y & [= <-] & Hn)]; [done|right]. split; [done|by exists x]. }
  destruct Hone as [[_ Hr1]|[_ (x & ? & _)]]; [|done].
  assert (Hbn : forall p, p ∈ own_paths en -> p_files d1 !! p = p_files d !! p).
  { intros p Hin. apply Hbut. eapply accepted_not_journal; [exact Ha|by apply elem_of_cons; right]. }
  assert (Hlt : look e (p_files d) (targetPath en) = look e (p_files d1) (targetPath en)) by (unfold look; by rewrite Hbn by in_own).
  assert (Hlb : look e (p_files d) (backupPath en) = look e (p_files d1) (backupPath en)) by (unfold look; by rewrite Hbn by in_own).
  rewrite Hlt, Hlb in Hrun.
  assert (Hpr : progress en1 (p_files d1)).
  { destruct Hr1 as [_ Ht1 _ _]. destruct (Ht1 en1) as (_ & _ & Hpr); [by eapply list_elem_of_lookup_2|].
    cbn [set_entry Done] in Hpr. by rewrite Hd in Hpr. }
  assert (Hpr' : progress en (p_files d1)) by (destruct Hpr; [by apply restored|by apply moved|by apply swapped]).
  assert (Hag1 : agree j (p_files d) (p_files d1)) by by apply agree_but_journal.
  apply st_try_inv in Hrun as [(x & -> & Htwo)|([] & d2 & Htwo & Hrun)]; apply restore_file_spec in Htwo; try done.
  - right. destruct Htwo as [(Hl & Hh & Hb & Hk & Ho & Hc)|[[Hm _] (y & [= <-] & Hn)]].
    + split; [|destruct Hl as [?|(y & [= <-] & ?)]; [done|by exists x]]. exists j1. split_and!; [done|by eapply (ready_restored j1 i en1)|].
      eapply agree_trans; [exact Hag1|]. eapply agree_entry; [done|done|by intros p Hin _; apply Ho|by rewrite Hd].
    + split; [|by exists x]. rewrite Hm. by exists j1.
  - destruct Htwo as [(_ & Hh & Hb & Hk & Ho & Hc)|[_ (y & ? & _)]]; [|done].
    assert (Hr2 : ready j1 (p_files d2)) by by eapply (ready_restored j1 i en1).
    assert (Hag2 : agree j (p_files d) (p_files d2)).
    { eapply agree_trans; [exact Hag1|]. eapply agree_entry; [done|done|by intros p Hin _; apply Ho|by rewrite Hd]. }
    assert (Hj2 : set_entry i (set_restore true true en) j = set_entry i (set_restore true true en1) j1).
    { unfold j1, set_entry. cbn [Entries Done rj_Schema]. by rewrite list_insert_insert_eq. }
    destruct (RestoreDone en) eqn:Hrd.
    + cbn in Hrun. injection Hrun as <- <-. left. split_and!; [done| |done]. exact Hr2.
    + rewrite Hj2 in *. apply st_try_inv in Hrun as [(x & -> & Hthree)|([] & d3 & Hthree & [= <- <-])];
        eapply save_flags_spec in Hthree as (j' & Hpl' & Hr3 & Hbut3 & Hthree); try done.
      * right. split; [|destruct Hthree as [[_ [?|(y & [= <-] & ?)]]|[_ (y & [= <-] & ?)]]; [done|by exists x..]].
        exists j'. split_and!; [by eapply same_plan_trans|done|]. eapply agree_trans; [exact Hag2|].
        eapply agree_plan; [by apply same_plan_sym|]. apply agree_but_journal; [|done]. by apply check_journal_proper, Hr2.
      * left. destruct Hthree as [[-> _]|[_ (y & ? & _)]]; [|done]. split_and!; [done|done|]. eapply agree_trans; [exact Hag2|].
        eapply agree_plan; [by apply same_plan_sym|]. apply agree_but_journal; [|done]. by apply check_journal_proper, Hr2.
Qed.

Lemma recover_entry_spec j i en d r d' :
  ready j (p_files d) -> Entries j !! i = Some en -> distinguishable e en ->
  recover_entry e i en j d = (r, d') ->
  (exists j', r = Ok j' /\ same_plan j j' /\ ready j' (p_files d') /\ agree j (p_files d) (p_files d') /\
     j' = if Done j then j else set_entry i (set_restore true true en) j)
  \/ stays j (p_files d) (p_files d') /\ exists x, r = Err x /\ ~ total e.
Proof.
  intros Hr Hi Hdist. assert (Hp : proper j) by (apply check_journal_proper, Hr). pose proof (accepted_at _ _ _ Hp Hi) as Ha.
  destruct (rd_tracked _ _ Hr en) as (Hmk & Hcd & Hst); [by eapply list_elem_of_lookup_2|].
  assert (Hallow : forall p, p ∈ markerPath en :: own_paths en -> providerAllowedPath p = true) by (intros p; by eapply accepted_allowed).
  assert (Hv := acc_valid _ _ Ha).
  assert (Hvo : validProviderObject (Old en) = true) by (apply Hv; by left).
  assert (Hvn : validProviderObject (New en) = true) by (apply Hv; right; by left).
  assert (Hvm : validProviderObject (re_Marker en) = true) by (apply Hv; right; right; by left).
  assert (Hmt : may (p_files d) (targetPath en) (Old en) \/ may (p_files d) (targetPath en) (New en)).
  { destruct (Done j); [right; by apply holds_may, Hst|]. destruct Hst as [Ht _|_ _ _ Ht _|_ _ Ht _];
      [left; by apply holds_may|left; by apply absent_may|right; by apply holds_may]. }
  assert (Hft : fits (p_files d) (targetPath en)) by (destruct Hmt; by eapply may_fits).
  assert (Hmb : may (p_files d) (backupPath en) (Old en)) by (destruct (Done j); [apply Hst|by apply progress_backup]).
  unfold recover_entry. rewrite (acc_resolves _ _ Ha). intros Hrun.
  apply inspect_known in Hrun as [[[Hm _] Hx]|(d1 & Hm1 & Hrun)]; [by right; split; [apply stays_same|]| |apply Hallow; in_own|by eapply may_fits, holds_may].
  rewrite (same_holds e _ _ (re_Marker en)) in Hrun by done. cbn [negb] in Hrun.
  rewrite <- Hm1 in *.
  apply inspect_known in Hrun as [[[Hm _] Hx]|(d2 & Hm2 & Hrun)]; [by right; split; [apply stays_same|]| |apply Hallow; in_own|done].
  rewrite <- Hm2 in *.
  apply inspect_known in Hrun as [[[Hm _] Hx]|(d3 & Hm3 & Hrun)]; [by right; split; [apply stays_same|]| |apply Hallow; in_own|by eapply may_fits].
  rewrite <- Hm3 in *.
  apply inspect_known in Hrun as [[[Hm _] Hx]|(d4 & Hm4 & Hrun)]; [by right; split; [apply stays_same|]| |apply Hallow; in_own|by eapply may_fits].
  rewrite <- Hm4 in *. clear d d1 d2 d3 Hm1 Hm2 Hm3 Hm4.
  rewrite (same_may _ _ (Old en)), (same_may _ _ (New en)) in Hrun by done. cbn [orb] in Hrun.
  destruct (Done j) eqn:Hd.
  - destruct Hst as [Ht _]. rewrite (same_holds e _ _ (New en)) in Hrun by done. injection Hrun as <- <-.
    left. exists j. split_and!; try done.
  - rewrite refused_none in Hrun by done. apply recover_undone in Hrun; [|done..].
    destruct Hrun as [(-> & Hr' & Hag)|Hx]; [left|by right]. eexists. split_and!; [done|by apply same_plan_flags|done|done|done].
Qed.

(** ** The loops *)

Definition all_restored (j : resourceJournal) : Prop :=
  Done j = false -> forall en, en ∈ Entries j -> RestoreDone en = true.

Lemma stays_trans j j' a b c : same_plan j j' -> agree j a b -> stays j' b c -> stays j a c.
Proof.
  intros Hs Hab (j2 & Hs2 & Hr & Hag). exists j2. split_and!; [by eapply same_plan_trans|done|].
  eapply agree_trans; [exact Hab|]. by eapply agree_plan; [apply same_plan_sym|].
Qed.

Lemma recover_entries_spec n j d r d' :
  ready j (p_files d) -> good j e -> (n <= length (Entries j))%nat ->
  (Done j = false -> forall k en, (n <= k)%nat -> Entries j !! k = Some en -> RestoreDone en = true) ->
  recover_entries e n j d = (r, d') ->
  (exists j', r = Ok j' /\ same_plan j j' /\ ready j' (p_files d') /\ agree j (p_files d) (p_files d') /\ all_restored j')
  \/ stays j (p_files d) (p_files d') /\ exists x, r = Err x /\ ~ total e.
Proof.
  revert j d. induction n as [|n IH]; intros j d Hr Hg Hlen Hdone; cbn [recover_entries].
  - intros [= <- <-]. left. exists j. split_and!; try done. intros Hd en Hen.
    apply list_elem_of_lookup in Hen as [k Hk]. eapply Hdone; [done| |exact Hk]. lia.
  - destruct (Entries j !! n) as [en|] eqn:Hn; [|apply lookup_ge_None in Hn; lia].
    assert (Hdist : distinguishable e en) by (apply (good_apart _ _ Hg); by eapply list_elem_of_lookup_2).
    intros [(x & -> & Hx)|(j1 & d1 & Hx & Hrun)]%st_try_inv; eapply recover_entry_spec in Hx; try done.
    + destruct Hx as [(j1 & ? & _)|(Hs & y & [= <-] & Ht)]; [done|right]. split; [done|by exists x].
    + destruct Hx as [(j1' & [= <-] & Hpl & Hr1 & Hag & Hj1)|(_ & y & ? & _)]; [|done].
      apply IH in Hrun; [|done|by eapply good_plan| |].
      * destruct Hrun as [(j2 & -> & Hpl2 & Hr2 & Hag2 & Hall)|[Hs Hx]]; [left|right; split; [by eapply stays_trans|done]].
        exists j2. split_and!; [done|by eapply same_plan_trans|done| |done]. eapply agree_trans; [exact Hag|].
        by eapply agree_plan; [apply same_plan_sym|].
      * destruct Hpl as [_ He']. apply (f_equal length) in He'. rewrite !length_map in He'. lia.
      * intros Hd1 k x Hk Hx. assert (Hd : Done j = false) by (destruct Hpl as [Hp _]; congruence). rewrite Hd in Hj1. subst j1.
        cbn [set_entry Entries] in Hx. apply list_lookup_insert_Some in Hx as [(_ & <- & _)|[Hne Hx]]; [done|].
        eapply Hdone; [done| |exact Hx]. lia.
Qed.

Lemma clean_path_spec path want msg d r d' :
  providerAllowedPath path = true -> validProviderObject want = true -> may (p_files d) path want ->
  clean_path e path want msg d = (r, d') ->
  p_files d' = delete path (p_files d) /\ late e r \/ p_files d' = p_files d /\ exists x, r = Err x /\ ~ total e.
Proof.
  intros Hal Hv Hm Hrun. pose proof (may_fits _ _ _ Hm) as Hf.
  apply inspect_known in Hrun as [[[Hu _] Hx]|(d1 & Hm1 & Hrun)]; [by right| |done|done].
  pose proof (same_may _ _ _ Hv Hm) as Hsame. rewrite look_present in Hrun, Hsame.
  destruct (p_files d !! path) as [f|] eqn:Hp.
  - cbn [andb] in Hsame. rewrite Hsame in Hrun. rewrite <- Hm1 in Hrun. apply remove_spec in Hrun; [|done]. rewrite Hm1 in Hrun.
    destruct Hrun as [[[Hd _] Hl]|[[Hu _] (x & -> & Hn)]]; [by left|].
    right. split; [by rewrite Hu|]. exists x. split; [done|]. intros Ht. by apply Hn.
  - injection Hrun as <- <-. left. rewrite Hm1, delete_id by done. split; [done|by left].
Qed.

(** Files may go, in a disk on which the journal stays ready. *)
Definition cleaned (j : resourceJournal) (m m' : gmap string entry) : Prop :=
  ready j m' /\ agree j m m' /\ (forall p, m !! p = None -> m' !! p = None).

Lemma cleaned_refl j m : ready j m -> cleaned j m m.
Proof. done. Qed.
Lemma cleaned_trans j a b c : cleaned j a b -> cleaned j b c -> cleaned j a c.
Proof. intros (_ & Hab & Hn) (Hr & Hbc & Hn'). split_and!; [done|by eapply agree_trans|auto]. Qed.

Lemma restored_entry j en m :
  ready j m -> all_restored j -> en ∈ Entries j -> Done j = false ->
  holds m (targetPath en) (Old en) /\ m !! backupPath en = None.
Proof.
  intros Hr Hall Hen Hd. destruct (rd_tracked _ _ Hr en Hen) as (_ & _ & Hp). rewrite Hd in Hp.
  specialize (Hall Hd en Hen). destruct Hp as [? ?|? ? ? ? ?|? ? ? ?]; [done|congruence..].
Qed.

Lemma clean_delete j i en m p :
  ready j m -> all_restored j -> Entries j !! i = Some en -> p = backupPath en \/ p = candidatePath en ->
  cleaned j m (delete p m).
Proof.
  intros Hr Hall Hi Hp. assert (Hen : en ∈ Entries j) by by eapply list_elem_of_lookup_2.
  assert (Hprop : proper j) by (apply check_journal_proper, Hr). pose proof (accepted_at _ _ _ Hprop Hi) as Ha.
  assert (Hown : p ∈ own_paths en) by (destruct Hp as [-> | ->]; in_own).
  assert (Hout : forall q, q ∉ own_paths en -> delete p m !! q = m !! q) by (intros q Hq; rewrite lookup_delete_ne; [done|by intros ->]).
  pose proof (own_distinct _ _ Ha) as Hnd. unfold own_paths in Hnd. rewrite !NoDup_cons, !not_elem_of_cons in Hnd.
  destruct Hnd as ((Hmt & Hmb & Hmc & _) & (Htb & Htc & _) & (Hbc & _) & _).
  assert (Ht : delete p m !! targetPath en = m !! targetPath en) by (rewrite lookup_delete_ne; [done|destruct Hp as [-> | ->]; done]).
  destruct (rd_tracked _ _ Hr en Hen) as (Hmk & Hcd & Hst).
  assert (Hmay : forall q o, may m q o -> may (delete p m) q o).
  { intros q o Hq f Hf. apply lookup_delete_Some in Hf as [_ Hf]. by apply Hq. }
  assert (Hnone : forall q, m !! q = None -> delete p m !! q = None) by (intros q Hq; apply lookup_delete_None; by right).
  assert (Htr : tracked (Done j) en (delete p m)).
  { split_and!; [eapply holds_ext; [apply Hout|done]|by apply Hmay|].
    - intros Hin. unfold own_paths in Hin. rewrite !elem_of_cons in Hin. destruct Hin as [?|[?|[?|?%not_elem_of_nil]]]; done.
    - destruct (Done j) eqn:Hd; [destruct Hst; split; [by eapply holds_ext|by apply Hmay]|].
      destruct (restored_entry _ _ _ Hr Hall Hen Hd) as [Hh Hb]. apply restored; [by eapply holds_ext|by apply Hnone]. }
  split_and!; [|eapply agree_entry; [done|exact Hi|by intros q Hq _; apply Hout|]|done].
  - destruct Hr as [Hc Htrk Hdisk Hsm]. constructor; [done|by eapply tracked_others; [..|by intros q Hq _; apply Hout|done|]| |done].
    rewrite Hout; [done|]. intros Hin. eapply accepted_not_journal; [exact Ha|by apply elem_of_cons; right|done].
  - unfold kept. destruct (Done j) eqn:Hd; [done|]. destruct (o_Present (Old en)); [|done].
    destruct (restored_entry _ _ _ Hr Hall Hen Hd) as [_ Hb]. by rewrite Ht, (Hnone _ Hb), Hb.
Qed.

Lemma clean_step j i en path want msg d r d' :
  ready j (p_files d) -> all_restored j -> Entries j !! i = Some en ->
  (path, want) = (backupPath en, Old en) \/ (path, want) = (candidatePath en, New en) ->
  clean_path e path want msg d = (r, d') ->
  cleaned j (p_files d) (p_files d') /\
  (r = Ok tt /\ p_files d' !! path = None \/ exists x, r = Err x /\ ~ total e).
Proof.
  intros Hr Hall Hi Hp Hrun. assert (Hen : en ∈ Entries j) by by eapply list_elem_of_lookup_2.
  assert (Ha : accepted (Done j) en) by (eapply accepted_at; [apply check_journal_proper, Hr|exact Hi]).
  destruct (rd_tracked _ _ Hr en Hen) as (_ & Hcd & Hst).
  assert (Hmb : may (p_files d) (backupPath en) (Old en)) by (destruct (Done j); [apply Hst|by apply progress_backup]).
  assert (Hcl : cleaned j (p_files d) (delete path (p_files d))).
  { eapply clean_delete; [done|done|exact Hi|]. destruct Hp as [[= -> _]|[= -> _]]; auto. }
  apply clean_path_spec in Hrun.
  - destruct Hrun as [[-> [-> |(x & -> & Ht)]]|[-> Hx]]; (split; [done|]).
    + left. by rewrite lookup_delete_eq.
    + right. by exists x.
    + by right.
  - eapply accepted_allowed; [exact Ha|]. destruct Hp as [[= -> _]|[= -> _]]; in_own.
  - apply (acc_valid _ _ Ha). destruct Hp as [[= _ ->]|[= _ ->]]; cbn; auto.
  - by destruct Hp as [[= -> ->]|[= -> ->]].
Qed.

Lemma clean_entry_spec j i en d r d' :
  ready j (p_files d) -> all_restored j -> Entries j !! i = Some en -> clean_entry e en d = (r, d') ->
  cleaned j (p_files d) (p_files d') /\
  (r = Ok tt /\ p_files d' !! backupPath en = None /\ p_files d' !! candidatePath en = None
   \/ exists x, r = Err x /\ ~ total e).
Proof.
  intros Hr Hall Hi. unfold clean_entry. intros (n & d1 & [= <- <-] & Hrun)%st_bind_inv.
  set (d0 := mkPDisk _ _ _) in Hrun. assert (Hd0 : p_files d = p_files d0) by done. clearbody d0. rewrite Hd0 in *. clear Hd0.
  set (backup := (backupPath en, Old en)) in *. set (candidate := (candidatePath en, New en)) in *.
  assert (Htwo : forall one other, one = backup /\ other = candidate \/ one = candidate /\ other = backup ->
    (try! _ := clean_path e (fst one) (snd one) "resource activation cleanup changed" in
     clean_path e (fst other) (snd other) "resource activation cleanup changed") d0 = (r, d') ->
    cleaned j (p_files d0) (p_files d') /\
    (r = Ok tt /\ p_files d' !! fst one = None /\ p_files d' !! fst other = None \/ exists x, r = Err x /\ ~ total e)).
  { intros one other Hoo Hc.
    assert (Ho : (fst one, snd one) = backup \/ (fst one, snd one) = candidate) by (destruct Hoo as [[-> _]|[-> _]]; auto).
    assert (Ho' : (fst other, snd other) = backup \/ (fst other, snd other) = candidate) by (destruct Hoo as [[_ ->]|[_ ->]]; auto).
    apply st_try_inv in Hc as [(x & -> & Hc)|([] & d2 & Hc & Hc2)].
    - destruct (clean_step _ _ _ _ _ _ _ _ _ Hr Hall Hi Ho Hc) as [Hcl [[? _]|Hx]]; [done|]. auto.
    - destruct (clean_step _ _ _ _ _ _ _ _ _ Hr Hall Hi Ho Hc) as [Hcl [[_ Hn]|(x & ? & _)]]; [|done].
      destruct (clean_step _ _ _ _ _ _ _ _ _ (proj1 Hcl) Hall Hi Ho' Hc2) as [Hcl2 Hc3].
      split; [by eapply cleaned_trans|]. destruct Hc3 as [[-> Hn2]|Hx]; [left|by right]. split_and!; [done| |done].
      by apply Hcl2. }
  destruct (porder e _); apply Htwo in Hrun as [Hcl Hrun]; try (by auto); (split; [done|]);
    destruct Hrun as [(-> & H1n & H2n)|Hx]; auto.
Qed.

Lemma clean_entries_spec j l d r d' :
  ready j (p_files d) -> all_restored j -> (forall en, en ∈ l -> en ∈ Entries j) -> clean_entries e l d = (r, d') ->
  cleaned j (p_files d) (p_files d') /\
  (r = Ok tt /\ (forall en, en ∈ l -> p_files d' !! backupPath en = None /\ p_files d' !! candidatePath en = None)
   \/ exists x, r = Err x /\ ~ total e).
Proof.
  revert d. induction l as [|en l IH]; intros d Hr Hall Hin; cbn [clean_entries].
  - intros [= <- <-]. split; [done|]. left. split; [done|]. intros en Hen. by apply not_elem_of_nil in Hen.
  - assert (Hen : en ∈ Entries j) by (apply Hin; left). apply list_elem_of_lookup in Hen as [i Hi].
    intros [(x & -> & Hc)|([] & d1 & Hc & Hrun)]%st_try_inv; eapply clean_entry_spec in Hc as [Hcl Hc]; try done.
    + split; [done|]. destruct Hc as [[? _]|Hc]; [done|by right].
    + destruct Hc as [(_ & Hb & Hcand)|(x & ? & _)]; [|done].
      apply IH in Hrun as [Hcl2 Hrun]; [|by apply Hcl|done|by intros y Hy; apply Hin; right].
      split; [by eapply cleaned_trans|]. destruct Hrun as [[-> Hl]|Hx]; [left|by right]. split; [done|].
      intros y [->|Hy]%elem_of_cons; [|by apply Hl]. split; by apply Hcl2.
Qed.

(** ** One attempt *)

Lemma remove_journal_spec d r d' f :
  p_files d !! resourceJournalPath = Some f -> len (content f) <= maxJournal ->
  remove_journal e resourceJournalPath d = (r, d') ->
  p_files d' = delete resourceJournalPath (p_files d) /\ late e r
  \/ p_files d' = p_files d /\ exists x, r = Err x /\ ~ total e.
Proof.
  intros Hf Hl Hrun. pose proof (journal_fits _ _ Hf Hl) as Hfit.
  apply inspect_known in Hrun as [[[Hu _] Hx]|(d1 & Hm1 & Hrun)]; [by right| |done|done].
  rewrite <- Hm1 in Hrun. apply remove_spec in Hrun; [|done]. rewrite Hm1 in Hrun.
  destruct Hrun as [[[Hd _] Hlate]|[[Hu _] (x & -> & Hn)]]; [by left|right]. rewrite Hu. split; [done|].
  exists x. split; [done|]. intros Ht. by apply Hn.
Qed.

Lemma settle j m :
  ready j m -> all_restored j ->
  (forall en, en ∈ Entries j -> m !! backupPath en = None /\ m !! candidatePath en = None) ->
  settled j m (delete resourceJournalPath m).
Proof.
  intros Hr Hall Hnone. assert (Hp : proper j) by (apply check_journal_proper, Hr).
  split_and!; [by rewrite lookup_delete_eq| |].
  - intros en Hen. destruct (Hnone en Hen) as [Hb Hc].
    assert (Ha : accepted (Done j) en) by (destruct Hp as [Hall' _ _]; rewrite Forall_forall in Hall'; by apply Hall').
    assert (Hn : forall p, p ∈ own_paths en -> delete resourceJournalPath m !! p = m !! p).
    { intros p Hin. apply lookup_delete_ne. intros <-. eapply accepted_not_journal; [exact Ha|apply elem_of_cons; right; exact Hin|done]. }
    rewrite !Hn by in_own. unfold holds. rewrite Hn by in_own.
    destruct (rd_tracked _ _ Hr en Hen) as (_ & _ & Hst). unfold kept. rewrite Hb.
    destruct (Done j) eqn:Hd; [by destruct Hst|].
    destruct (restored_entry _ _ _ Hr Hall Hen Hd) as [Hh _]. unfold holds in Hh. split_and!; [done|done| |done].
    destruct (o_Present (Old en)) eqn:Ho; [done|]. destruct (m !! targetPath en) as [f|]; [|done].
    apply rec_present in Hh. congruence.
  - intros p [Hj _]. by rewrite lookup_delete_ne.
Qed.

Lemma recoverResources_spec j d r d' :
  ready j (p_files d) -> good j e -> recoverResources e d = (r, d') ->
  r = Ok tt /\ settled j (p_files d) (p_files d')
  \/ (stays j (p_files d) (p_files d') \/ settled j (p_files d) (p_files d')) /\ exists x, r = Err x /\ ~ total e.
Proof.
  intros Hr Hg. unfold recoverResources. intros (l & d1 & Hload & Hrun)%st_bind_inv.
  destruct (rd_disk _ _ Hr) as (f & Hf & Hlen & Hdec).
  unfold loadResourceJournal in Hload. apply st_try_inv in Hload as [(x & -> & Hread)|(b & d0 & Hread & [= <- <-])];
    apply read_spec in Hread as [[Hu _] Hread]; try done; rewrite Hf in Hread.
  - destruct Hread as [[? _]|(y & [= <-] & Hx & Hn)]; [done|]. rewrite Hx in Hrun. injection Hrun as <- <-.
    right. split; [left; by apply stays_same|]. exists x. split; [done|]. intros Ht. by apply Hn.
  - destruct Hread as [[[= ->] _]|(y & ? & _)]; [|done]. rewrite Hdec in Hrun. rewrite <- Hu in *. clear Hu d.
    apply st_try_inv in Hrun as [(x & -> & Hent)|(j1 & d2 & Hent & Hrun)]; apply recover_entries_spec in Hent; try done;
      try (intros _ k en Hk Hen; apply lookup_lt_Some in Hen; lia).
    + right. destruct Hent as [(j1 & ? & _)|(Hs & y & [= <-] & Ht)]; [done|]. split; [by left|by exists x].
    + destruct Hent as [(j1' & [= <-] & Hpl & Hr1 & Hag & Hall)|(_ & y & ? & _)]; [|done].
      apply st_try_inv in Hrun as [(x & -> & Hcl)|([] & d3 & Hcl & Hrun)]; eapply (clean_entries_spec j1) in Hcl as [Hclean Hcl]; try done.
      * right. destruct Hcl as [[? _]|(y & [= <-] & Ht)]; [done|]. split; [left|by exists x].
        exists j1. split_and!; [done|by apply Hclean|]. eapply agree_trans; [exact Hag|].
        eapply agree_plan; [by apply same_plan_sym|]. by apply Hclean.
      * destruct Hcl as [[_ Hnone]|(y & ? & _)]; [|done]. destruct Hclean as (Hr3 & Hag3 & _).
        assert (Hag' : agree j (p_files d0) (p_files d3)).
        { eapply agree_trans; [exact Hag|]. by eapply agree_plan; [apply same_plan_sym|]. }
        destruct (rd_disk _ _ Hr3) as (f3 & Hf3 & Hlen3 & _).
        destruct (remove_journal_spec _ _ _ _ Hf3 Hlen3 Hrun) as [[Hd Hl]|[Hd Hx]].
        -- assert (Hset : settled j (p_files d0) (p_files d')).
           { eapply settled_agree; [exact Hag'|]. rewrite Hd. eapply settled_plan; [by apply same_plan_sym|]. by apply settle. }
           destruct Hl as [-> |Hx]; [by left|right; auto].
        -- right. split; [left|done]. rewrite Hd. by exists j1.
Qed.

Lemma recoverResources_absent d r d' :
  p_files d !! resourceJournalPath = None -> recoverResources e d = (r, d') ->
  p_files d' = p_files d /\ (r = Ok tt \/ exists x, r = Err x /\ ~ total e).
Proof.
  intros Hf. unfold recoverResources. intros (l & d1 & Hload & Hrun)%st_bind_inv.
  unfold loadResourceJournal in Hload. apply st_try_inv in Hload as [(x & -> & Hread)|(b & d0 & Hread & _)];
    apply read_spec in Hread as [[Hu _] Hread]; try done; rewrite Hf in Hread; destruct Hread as (y & Hy & Hread); [|done].
  injection Hy as <-. injection Hrun as <- <-. split; [done|]. destruct (errors_Is x ErrNotExist) eqn:Hx; [by left|right].
  exists x. split; [done|]. intros Ht. destruct Hread as [?|Hn]; [done|]. by apply Hn.
Qed.

End Tracked.

(** ** Any number of attempts *)

(** The runs of the daemon, one after the other: each recovers, and the next one
    finds what it left. *)
Fixpoint attempts `{Sha256} `{Unicode} `{JSONTree} `{ResourceJSON} (l : list penv) (d : pdisk) : pdisk :=
  match l with
  | [] => d
  | e :: l => attempts l (snd (recoverResources e d))
  end.

Section Recovered.
Context `{Sha256} `{Unicode} `{JSONTree} `{ResourceJSON} `{!ResourceCodec}.

Lemma attempts_spec rootid j l d m :
  Forall (good rootid j) l -> stays rootid j m (p_files d) \/ settled rootid j m (p_files d) ->
  stays rootid j m (p_files (attempts l d)) \/ settled rootid j m (p_files (attempts l d)).
Proof.
  revert d. induction l as [|e l IH]; intros d; [done|]. intros [Hg Hl]%Forall_cons Hd. cbn [attempts]. apply IH; [done|].
  destruct (recoverResources e d) as [r d'] eqn:Hrun. cbn [snd]. destruct Hd as [(j1 & Hpl & Hr & Hag)|Hs].
  - destruct (recoverResources_spec rootid e (good_honest _ _ _ Hg) (good_root _ _ _ Hg) j1 d r d' Hr (good_plan _ _ _ _ Hpl Hg) Hrun) as [[_ Hs]|[[Hs|Hs] _]].
    + right. eapply settled_agree; [exact Hag|]. by eapply settled_plan; [apply same_plan_sym|].
    + left. by eapply stays_trans.
    + right. eapply settled_agree; [exact Hag|]. by eapply settled_plan; [apply same_plan_sym|].
  - right. destruct (recoverResources_absent e (good_honest _ _ _ Hg) d r d' (proj1 Hs) Hrun) as [-> _]. exact Hs.
Qed.

(** C5. Suppose an activation journal is on the disk and its files are where the
    activation, or a recovery of it, may have left them, and that every attempt can
    tell the old file of an entry from the new one: it runs in the boot that wrote the
    journal, or their contents differ ([good_apart]; see [twins_refused] for what
    happens otherwise).  Recover it any number of times, every attempt failing or
    ending at any file operation, in this boot or later ones.  Then an attempt without
    faults succeeds, and each target holds the old file it had, or the new one if the
    journal says done; backups, candidates and the journal are gone and no other file
    has changed. *)
Theorem activation_recovered (rootid : string -> string) (j : resourceJournal) (l : list penv) (e : penv) (d : pdisk) :
  ready rootid j (p_files d) -> Forall (good rootid j) l -> good rootid j e -> total e ->
  let '(r, d') := recoverResources e (attempts l d) in
  r = Ok tt /\ settled rootid j (p_files d) (p_files d').
Proof.
  intros Hr Hl Hg Ht. pose proof (attempts_spec rootid j l d (p_files d) Hl (or_introl (stays_same _ _ _ _ Hr eq_refl))) as Ha.
  destruct (recoverResources e (attempts l d)) as [r d'] eqn:Hrun. destruct Ha as [(j1 & Hpl & Hr1 & Hag)|Hs].
  - destruct (recoverResources_spec rootid e (good_honest _ _ _ Hg) (good_root _ _ _ Hg) j1 _ r d' Hr1 (good_plan _ _ _ _ Hpl Hg) Hrun)
      as [[-> Hs]|[_ (x & _ & Hn)]]; [|done].
    split; [done|]. eapply settled_agree; [exact Hag|]. by eapply settled_plan; [apply same_plan_sym|].
  - destruct (recoverResources_absent e (good_honest _ _ _ Hg) _ r d' (proj1 Hs) Hrun) as [-> [-> |(x & _ & Hn)]]; [done|].
    by destruct (Hn Ht).
Qed.

End Recovered.

(** ** An interrupted recovery

    The configuration has been swapped and the old country database moved away
    when the daemon stops.  The first recovery stops after some calls, and the
    second runs after a reboot. *)

Section Example.
#[local] Instance act_sha : Sha256 := toy_hash.
#[local] Instance act_unicode : Unicode := {| unicode_ToLower s := s |}.
#[local] Instance act_tree : JSONTree := {| json_tree _ := Some (journal_tree 2) |}.

Definition act_root (boot : string) : string := "1:2@" ++ boot.
Definition act_file (b : string) (n : N) : entry := mkEntry b (1%N, n).
Definition act_object (f : entry) : providerObject :=
  mkObject true (act_root "boot-1" ++ "/" ++ Key (inode f)) (providerDigest (content f)) "boot-1".

Definition act_tx (c : string) : string := "0123456789abcdef0123456789abcde" ++ c.
Definition act_config_old : entry := act_file "old" 10.
Definition act_config_new : entry := act_file "newer" 11.
Definition act_geo_old : entry := act_file "old geo" 12.
Definition act_geo_new : entry := act_file "another geo" 13.
Definition act_marker1 : entry := act_file (act_tx "1") 14.
Definition act_marker2 : entry := act_file (act_tx "2") 15.

Definition act_config : resourceEntry :=
  mkResourceEntry (act_tx "1") "" 0 "" "" "" "" "" true "" (act_object act_config_old) (act_object act_config_new)
    (act_object act_marker1) true true true true false false.
Definition act_geo : resourceEntry :=
  mkResourceEntry (act_tx "2") "" 0 "" "" "" "" "country-mmdb" false "" (act_object act_geo_old) (act_object act_geo_new)
    (act_object act_marker2) true false false false false false.
Definition act_with (a b c d : bool) : resourceJournal :=
  mkResourceJournal "mihari.resource-activation/v1" false [set_restore a b act_config; set_restore c d act_geo].
Definition act_journal : resourceJournal := act_with false false false false.

(** The codec knows the journals of this activation. *)
Definition act_journals : list resourceJournal :=
  [act_journal; act_with true false false false; act_with true true false false;
   act_with false false true false; act_with true false true false; act_with true true true false;
   act_with false false true true; act_with true false true true; act_with true true true true].

#[local] Instance act_json : ResourceJSON := {|
  json_Marshal_resources j := (fun p => Itoa (Z.of_nat (fst p))) <$> list_find (eq j) act_journals;
  json_Unmarshal_resources raw := match Atoi raw with Some n => act_journals !! Z.to_nat n | None => None end;
  json_Marshal_provider _ := None;
  json_Unmarshal_provider _ := None
|}.

Definition act_disk : pdisk :=
  mkPDisk 0 (list_to_map
    [(resourceJournalPath, act_file "0" 9); ("runtime/config.yaml", act_config_new);
     (backupPath act_config, act_config_old); (markerPath act_config, act_marker1);
     (backupPath act_geo, act_geo_old); (candidatePath act_geo, act_geo_new); (markerPath act_geo, act_marker2);
     ("mihari.yaml"%string, act_file "settings" 16)]) [act_tx "1"; act_tx "2"].

Definition act_first : penv :=
  mkPEnv (fun n => if (n <? 60)%nat then FOk else FErr (EText "io")) (fun n => (1%N, N.of_nat (100 + n))) (fun _ => true)
    (act_root "boot-1") "boot-1".
Definition act_second : penv :=
  mkPEnv (fun _ => FOk) (fun n => (1%N, N.of_nat (200 + n))) (fun _ => false) (act_root "boot-2") "boot-2".

Definition act_contents (d : pdisk) : list (option string) :=
  map (fun p => content <$> p_files d !! p)
    ["runtime/config.yaml"; backupPath act_config; "runtime/core-home/Country.mmdb"; backupPath act_geo; "mihari.yaml"].

Example act_runs :
  is_Ok (fst (recoverResources act_first act_disk)) = false /\
  act_contents (attempts [act_first] act_disk)
  = [Some "newer"; Some "old"; Some "old geo"; None; Some "settings"]%string /\
  act_contents (attempts [act_first; act_second] act_disk)
  = [Some "old"; None; Some "old geo"; None; Some "settings"]%string.
Proof. vm_compute. split_and!; reflexivity. Qed.

Lemma act_marshal j raw :
  json_Marshal_resources j = Some raw ->
  exists n, act_journals !! n = Some j /\ raw = Itoa (Z.of_nat n) /\ (n < 9)%nat.
Proof.
  change (json_Marshal_resources j) with ((fun p : nat * resourceJournal => Itoa (Z.of_nat (fst p))) <$> list_find (eq j) act_journals).
  destruct (list_find (eq j) act_journals) as [[n y]|] eqn:Hf; [|done]. intros [= <-].
  apply list_find_Some in Hf as (Hn & <- & _). exists n. split_and!; [done|done|]. by apply lookup_lt_Some in Hn.
Qed.

Lemma act_unmarshal raw j : json_Unmarshal_resources raw = Some j -> j ∈ act_journals.
Proof.
  change (json_Unmarshal_resources raw) with (match Atoi raw with Some n => act_journals !! Z.to_nat n | None => None end).
  destruct (Atoi raw); [|done]. apply list_elem_of_lookup_2.
Qed.

Definition act_closed (j : resourceJournal) : bool :=
  journal_text j && (length (Entries j) =? 2)%nat
  && forallb (fun i => forallb (fun b =>
       match Entries j !! i with
       | Some en => negb (implb (RestoreDone en) b)
                    || match json_Marshal_resources (set_entry i (set_restore true b en) j) with
                       | Some raw => len raw =? 1
                       | None => false
                       end
       | None => true
       end) [true; false]) [0; 1]%nat.

Lemma act_all_closed : forallb act_closed act_journals = true.
Proof. vm_compute. reflexivity. Qed.

Lemma act_each j : j ∈ act_journals -> act_closed j = true.
Proof. intros Hj. pose proof act_all_closed as Ha. rewrite forallb_forall in Ha. apply Ha. by apply list_elem_of_In. Qed.

Lemma act_digit n : (n < 9)%nat -> len (Itoa (Z.of_nat n)) = 1.
Proof. intros Hn. do 9 (destruct n as [|n]; [reflexivity|]). lia. Qed.

#[local] Program Instance act_codec : ResourceCodec.
Next Obligation.
  intros j raw _ _ (n & Hn & -> & Hlt)%act_marshal. pose proof (act_each j (list_elem_of_lookup_2 _ _ _ Hn)) as Hc.
  unfold act_closed in Hc. apply andb_true_iff in Hc as [Hc _]. apply andb_true_iff in Hc as [_ Hlen%Nat.eqb_eq]. split.
  - change (match Atoi (Itoa (Z.of_nat n)) with Some n => act_journals !! Z.to_nat n | None => None end = Some j).
    rewrite Atoi_Itoa_nonneg by (unfold two63; lia). by rewrite Nat2Z.id.
  - by rewrite Hlen.
Qed.
Next Obligation.
  intros raw j Hu%act_unmarshal%act_each. unfold act_closed in Hu. by breflect.
Qed.
Next Obligation.
  intros j i en b raw Hi Hb (n & Hn & -> & Hlt)%act_marshal. rewrite (act_digit n Hlt).
  pose proof (act_each j (list_elem_of_lookup_2 _ _ _ Hn)) as Hc. unfold act_closed in Hc.
  apply andb_true_iff in Hc as [Hc Hall]. apply andb_true_iff in Hc as [_ Hlen]. apply Nat.eqb_eq in Hlen.
  assert (Hi2 : In i [0; 1]%nat) by (apply lookup_lt_Some in Hi; cbn; lia).
  rewrite forallb_forall in Hall. specialize (Hall i Hi2). rewrite forallb_forall in Hall.
  specialize (Hall b ltac:(destruct b; cbn; auto)). rewrite Hi, Hb in Hall. cbn [negb orb] in Hall.
  destruct (json_Marshal_resources _) as [raw'|]; [|done]. exists raw'. apply Z.eqb_eq in Hall. split; [done|lia].
Qed.

Lemma act_recorded f : len (content f) <= maxGeoResourceBytes -> recorded_as act_root (act_object f) f.
Proof. by constructor. Qed.

Lemma holds_at m p o f : m !! p = Some f -> recorded_as act_root o f -> holds act_root m p o.
Proof. unfold holds. by intros ->. Qed.

Lemma act_tracked en : en ∈ Entries act_journal -> tracked act_root (Done act_journal) en (p_files act_disk).
Proof.
  intros Hen. apply list_elem_of_In in Hen. destruct Hen as [<-|[<-|[]]]; split_and!.
  - eapply holds_at; [vm_compute; reflexivity|]. by apply (act_recorded act_marker1).
  - apply absent_may. vm_compute. reflexivity.
  - apply swapped; [done|done| |].
    + eapply holds_at; [vm_compute; reflexivity|]. by apply (act_recorded act_config_new).
    + eapply holds_at; [vm_compute; reflexivity|]. by apply (act_recorded act_config_old).
  - eapply holds_at; [vm_compute; reflexivity|]. by apply (act_recorded act_marker2).
  - apply holds_may. eapply holds_at; [vm_compute; reflexivity|]. by apply (act_recorded act_geo_new).
  - apply moved; [done|done|done|vm_compute; reflexivity|].
    eapply holds_at; [vm_compute; reflexivity|]. by apply (act_recorded act_geo_old).
Qed.

Lemma act_ready : ready act_root act_journal (p_files act_disk).
Proof.
  constructor.
  - vm_compute. reflexivity.
  - apply act_tracked.
  - exists (act_file "0" 9). split_and!; [vm_compute; reflexivity|done|]. vm_compute. reflexivity.
  - exists "0"%string. split; [vm_compute; reflexivity|done].
Qed.

Lemma act_apart e en : en ∈ Entries act_journal -> distinguishable e en.
Proof. intros Hen _. right. apply list_elem_of_In in Hen. destruct Hen as [<-|[<-|[]]]; vm_compute; done. Qed.

Lemma act_first_good : good act_root act_journal act_first.
Proof.
  constructor; [constructor|reflexivity|intros en; apply act_apart].
  - intros n x. cbn [act_first pio]. destruct (n <? 60)%nat; cbn [fault_error]; [discriminate|]. by intros [= <-].
  - intros Hb. discriminate Hb.
Qed.

Lemma act_second_good : good act_root act_journal act_second.
Proof.
  constructor; [constructor|reflexivity|intros en; apply act_apart].
  - intros n x Hx. discriminate Hx.
  - intros Hb. discriminate Hb.
Qed.

(** The first recovery fails in the middle; the second settles everything. *)
Lemma activation_recovered_witness :
  is_Ok (fst (recoverResources act_first act_disk)) = false /\
  let '(r, d') := recoverResources act_second (attempts [act_first] act_disk) in
  r = Ok tt /\ settled act_root act_journal (p_files act_disk) (p_files d').
Proof.
  split; [exact (proj1 act_runs)|].
  exact (activation_recovered act_root act_journal [act_first] act_second act_disk act_ready
           (Forall_cons_2 _ _ _ act_first_good (Forall_nil_2 _)) act_second_good (fun _ => eq_refl)).
Defined.

(** Old and new files with the same content cannot be told apart after a reboot:
    then the recovery refuses a journal that it would undo in the same boot, which is
    why [activation_recovered] assumes that they can. *)
Definition twin_old : entry := act_file "newer" 10.
Definition twin_entry : resourceEntry :=
  mkResourceEntry (act_tx "1") "" 0 "" "" "" "" "" true "" (act_object twin_old) (act_object act_config_new)
    (act_object act_marker1) false false false false false false.

Example twins_refused :
  entry_refused twin_entry (observed act_first twin_old) no_file = None /\
  entry_refused twin_entry (observed act_second twin_old) no_file = Some (invalid "resource activation action mismatch").
Proof. vm_compute. split; reflexivity. Qed.

End Example.
