(* ===== verification/ResourceCommit.v ===== *)
(** * ResourceCommit: the journal of one provider file

    What [recover] of [internal/subscription/provider_journal.go] does on any
    disk and under any faults: it touches four paths, does not lose the old
    content, and when it succeeds the provider file is the one that the journal
    asks for. *)

From Stdlib Require Import Ascii.
From S2P Require Import Prelude GoStd GoNet Settings Catalog SelfUpdate InstallJournal Utf8 Resources ResourceRecovery.

(** ** Files by their content *)

Section Commit.
Context `{Sha256} `{Unicode} `{JSONTree} `{ResourceJSON}.

(** A file with this digest is at the path. *)
Definition has (m : gmap string entry) (path digest : string) : Prop :=
  exists f, m !! path = Some f /\ providerDigest (content f) = digest.

Definition only (paths : list string) (m m' : gmap string entry) : Prop :=
  forall p, p ∉ paths -> m' !! p = m !! p.

Definition commit_target (j : providerJournal) : string :=
  match providerResourcePath (pj_Resource j) (pj_Format j) with Ok t => t | Err _ => "" end.
Definition commit_backup (j : providerJournal) : string := commit_target j ++ ".old-" ++ pj_ID j.
Definition commit_candidate (j : providerJournal) : string := provider_staging (pj_ID j) "candidate".

Definition commit_done (j : providerJournal) : bool := String.eqb (pj_Phase j) "done".

(** The old content is in place or in the backup. *)
Definition old_safe (j : providerJournal) (m : gmap string entry) : Prop :=
  has m (commit_target j) (o_SHA256 (pj_Old j)) \/ has m (commit_backup j) (o_SHA256 (pj_Old j)).

(** The provider file that a recovery of [m] is to leave in [m']. *)
Definition target_right (j : providerJournal) (m m' : gmap string entry) : Prop :=
  if commit_done j then
    m' !! commit_target j = m !! commit_target j /\ has m' (commit_target j) (o_SHA256 (pj_New j))
  else if o_Present (pj_Old j) then
    exists f, m' !! commit_target j = Some f /\ providerDigest (content f) = o_SHA256 (pj_Old j)
              /\ (m !! commit_target j = Some f \/ m !! commit_backup j = Some f)
  else m' !! commit_target j = None.

Lemma only_refl ps m : only ps m m.
Proof. done. Qed.
Lemma only_paths_trans ps a b c : only ps a b -> only ps b c -> only ps a c.
Proof. intros Hab Hbc p Hp. rewrite Hbc by done. by apply Hab. Qed.
Lemma only_weaken ps qs m m' : (forall p, p ∈ ps -> p ∈ qs) -> only ps m m' -> only qs m m'.
Proof. intros Hs Ho p Hp. apply Ho. by intros Hin%Hs. Qed.

Lemma has_ext m m' p s : m' !! p = m !! p -> has m p s -> has m' p s.
Proof. unfold has. by intros ->. Qed.

(** ** File operations on any disk *)

Context (e : penv) (He : honest e).

Lemma inspect_any {A} path (k : providerObject -> st pdisk (result A)) d r d' :
  (try! o := inspect e path in k o) d = (r, d') ->
  p_files d' = p_files d /\ (exists x, r = Err x)
  \/ exists d1, p_files d1 = p_files d /\ k (look e (p_files d) path) d1 = (r, d').
Proof.
  intros [(x & -> & Hx)|(o & d1 & Hx & Hk)]%st_try_inv; apply inspect_spec in Hx as [[Hun _] Hx]; try done.
  - left. split; [done|by exists x].
  - destruct Hx as [[[= ->] _]|(y & ? & _)]; [|done]. right. by exists d1.
Qed.

Lemma effect_cases d d' m G r : effect e d d' m G r -> p_files d' = m \/ p_files d' = p_files d /\ exists x, r = Err x.
Proof. intros [[[Hm _] _]|[[Hu _] (x & -> & _)]]; [by left|right]. split; [done|by exists x]. Qed.

Lemma saveJournal_any j d r d' : saveJournal e j d = (r, d') -> only [providerJournalPath] (p_files d) (p_files d').
Proof.
  unfold saveJournal. destruct (json_Marshal_provider j) as [b|]; [|by intros [= _ <-]].
  intros [[-> _]|(d1 & Hm & Hw)]%inspect_any; [done|]. rewrite <- Hm in *.
  apply write_spec in Hw as [n Hw]; [|done]. apply effect_cases in Hw as [-> |[-> _]]; [|done].
  intros p Hp. rewrite lookup_insert_ne; [done|]. intros <-. by apply Hp; left.
Qed.

Lemma clean_path_any path want msg d r d' :
  clean_path e path want msg d = (r, d') ->
  p_files d' = delete path (p_files d) \/ p_files d' = p_files d /\ exists x, r = Err x.
Proof.
  intros [Hx|(d1 & Hm & Hc)]%inspect_any; [by right|]. rewrite <- Hm in *. unfold look in Hc.
  destruct (p_files d1 !! path) as [f|] eqn:Hf; cbn [o_Present observed no_file] in Hc.
  - case_if_in Hc; [injection Hc as <- <-; right; split; [done|by eexists]|].
    replace (observed e f) with (look e (p_files d1) path) in Hc by (unfold look; by rewrite Hf).
    apply remove_spec in Hc; [|done]. by apply effect_cases in Hc.
  - injection Hc as <- <-. left. by rewrite delete_id.
Qed.

Lemma remove_journal_any path d r d' :
  remove_journal e path d = (r, d') ->
  p_files d' = delete path (p_files d) \/ p_files d' = p_files d /\ exists x, r = Err x.
Proof.
  intros [Hx|(d1 & Hm & Hc)]%inspect_any; [by right|]. rewrite <- Hm in *.
  apply remove_spec in Hc; [|done]. by apply effect_cases in Hc.
Qed.

Lemma same_object_digest f o : sameProviderObject (observed e f) o = true -> o_Present o = true /\ providerDigest (content f) = o_SHA256 o.
Proof.
  unfold sameProviderObject. cbn [observed o_Present negb orb o_SHA256]. destruct (o_Present o); cbn [negb]; [|done].
  intros Hs. split; [done|]. apply andb_true_iff in Hs as [Hs _]. apply andb_true_iff in Hs as [_ Hs]. by apply String.eqb_eq.
Qed.

(** An object that was found equal to a recorded one. *)
Lemma same_look m p o :
  sameProviderObject (look e m p) o = true -> if o_Present o then has m p (o_SHA256 o) else m !! p = None.
Proof.
  unfold look. destruct (m !! p) as [f|] eqn:Hf.
  - intros [-> Hd]%same_object_digest. by exists f.
  - unfold sameProviderObject. cbn. by destruct (o_Present o).
Qed.

(** ** The stages of a recovery *)

Context (j : providerJournal) (Hchk : check_provider j = None)
  (Htgt : providerResourcePath (pj_Resource j) (pj_Format j) = Ok (commit_target j)).

Lemma commit_is_target : is_target (commit_target j).
Proof.
  assert (Hres : exists b, pj_Resource j = providerDigest b).
  { revert Hchk. unfold check_provider. case_if; [done|]. case_if; [done|]. intros _. breflect.
    unfold ProviderResourceID in *. destruct (profileIDPattern (pj_SubscriptionID j)); cbn [negb] in *; [|done].
    repeat match goal with Hx : context [if ?c then _ else _] |- _ => destruct c; try done end. breflect. by eexists. }
  destruct Hres as [b Hb]. destruct (providerDigest_text b) as [Hc Hl]. rewrite <- Hb in Hc, Hl.
  by apply (provider_target (pj_Resource j) (pj_Format j)).
Qed.

Lemma commit_id : profileIDPattern (pj_ID j) = true.
Proof. revert Hchk. unfold check_provider. case_if; [done|]. intros _. breflect. done. Qed.

Definition commit_paths : list string := [commit_target j; commit_backup j; commit_candidate j; providerJournalPath].

Lemma commit_paths_distinct : NoDup commit_paths.
Proof.
  pose proof commit_is_target as Ht. pose proof commit_id as Hid.
  assert (Hn : forall y z, (commit_target j ++ y)%string <> ("staging/providers/" ++ z)%string) by (intros; by apply target_not_staging).
  assert (Hn0 := fun z => Hn "" z). setoid_rewrite append_nil_r in Hn0.
  unfold commit_paths. rewrite !NoDup_cons, !not_elem_of_cons.
  split_and!; try apply not_elem_of_nil; try apply NoDup_nil_2; intros Heq.
  - by apply target_not_backup in Heq.
  - by eapply Hn0.
  - by apply (Hn0 "commit.json").
  - by eapply Hn.
  - by apply (Hn _ "commit.json") in Heq.
  - by apply (staging_not_journal _ "candidate") in Heq.
Qed.

(** What a stage leaves of the old content, and where it ends. *)
Record stage {A} (m m' : gmap string entry) (r : result A) : Prop := {
  stage_only : only [commit_target j; commit_backup j; providerJournalPath] m m';
  stage_old : commit_done j = false -> o_Present (pj_Old j) = true -> old_safe j m -> old_safe j m';
  stage_right : is_Ok r = true -> target_right j m m'
}.

Lemma stage_error {A} m m' (r : result A) x : m' = m -> r = Err x -> stage m m' r.
Proof. intros -> ->. by constructor. Qed.

Lemma journal_only m m' :
  only [providerJournalPath] m m' ->
  m' !! commit_target j = m !! commit_target j /\ m' !! commit_backup j = m !! commit_backup j.
Proof.
  intros Ho. pose proof commit_paths_distinct as Hd. unfold commit_paths in Hd. rewrite !NoDup_cons, !not_elem_of_cons in Hd.
  destruct Hd as ((_ & _ & Ht & _) & (_ & Hb & _) & _). split; apply Ho; rewrite not_elem_of_cons; (split; [done|apply not_elem_of_nil]).
Qed.

(** Only the journal changed, and the target is as it should be. *)
Lemma stage_journal {A} m m' (r : result A) :
  only [providerJournalPath] m m' -> (is_Ok r = true -> target_right j m m) -> stage m m' r.
Proof.
  intros Ho Ht. destruct (journal_only _ _ Ho) as [Et Eb]. constructor.
  - eapply only_weaken; [|exact Ho]. intros p Hp. apply elem_of_cons in Hp as [->|Hp%not_elem_of_nil]; [by right; right; left|done].
  - intros _ _ [Hh|Hh]; [left|right]; by eapply has_ext.
  - intros Hr. specialize (Ht Hr). unfold target_right, has in *. by rewrite Et.
Qed.

Lemma old_in_place m o :
  commit_done j = false -> sameProviderObject (look e m (commit_target j)) o = true ->
  o_Present o = o_Present (pj_Old j) -> (o_Present o = true -> o_SHA256 o = o_SHA256 (pj_Old j)) -> target_right j m m.
Proof.
  intros Hd Hs%same_look Hp Hsha. unfold target_right. rewrite Hd. rewrite <- Hp. destruct (o_Present o); [|done].
  destruct Hs as (f & Hf & Hg). exists f. rewrite Hg, Hsha by done. auto.
Qed.

Lemma recover_prepared_stage d r d' :
  commit_done j = false -> recover_prepared e j (look e (p_files d) (commit_target j)) (commit_backup j) d = (r, d') ->
  stage (p_files d) (p_files d') r.
Proof.
  intros Hd. unfold recover_prepared. destruct (sameProviderObject _ (pj_Old j)) eqn:Hs; cbn [negb].
  2: { intros [= <- <-]. by eapply stage_error. }
  assert (Hr : target_right j (p_files d) (p_files d)) by by eapply old_in_place.
  intros [[Hm [x ->]]|(d1 & Hm & Hrun)]%inspect_any; [by eapply stage_error|]. rewrite <- Hm in *.
  case_if_in Hrun; [injection Hrun as <- <-; by eapply stage_error|].
  case_if_in Hrun; [injection Hrun as <- <-; by eapply stage_error|].
  case_if_in Hrun.
  - apply st_try_inv in Hrun as [(x & -> & Hsv)|(u & d2 & Hsv & [= <- <-])]; apply saveJournal_any in Hsv; by apply stage_journal.
  - injection Hrun as <- <-. by apply stage_journal.
Qed.

(** The restoration itself, with what [recover_intent] knows of the target. *)
Lemma restore_provider_stage a b d r d' :
  commit_done j = false ->
  restore_provider e (set_recovery (pj_Backup j) a b j) (look e (p_files d) (commit_target j)) (commit_target j) (commit_backup j) d
  = (r, d') ->
  stage (p_files d) (p_files d') r.
Proof.
  intros Hd. unfold restore_provider. cbn [set_recovery pj_Old pj_Backup].
  pose proof commit_paths_distinct as Hnd. unfold commit_paths in Hnd. rewrite !NoDup_cons, !not_elem_of_cons in Hnd.
  destruct Hnd as ((Htb & _) & _).
  destruct (o_Present (pj_Old j)) eqn:Ho.
  - destruct (o_Present (pj_Backup j)) eqn:Hb; cbn [negb orb]; [|intros [= <- <-]; by eapply stage_error].
    destruct (String.eqb_spec (o_SHA256 (pj_Backup j)) (o_SHA256 (pj_Old j))) as [Hsha|]; cbn [negb];
      [|intros [= <- <-]; by eapply stage_error].
    destruct (sameProviderObject _ (pj_Old j)) eqn:Hso; cbn [negb andb].
    { intros [= <- <-]. apply stage_journal; [done|]. intros _. by eapply old_in_place. }
    destruct (sameProviderObject _ (pj_Backup j)) eqn:Hsb; cbn [negb].
    { intros [= <- <-]. apply stage_journal; [done|]. intros _. eapply old_in_place; [done|exact Hsb|congruence|done]. }
    intros [[Hm [x ->]]|(d1 & Hm & Hrun)]%inspect_any; [by eapply stage_error|]. rewrite <- Hm in *.
    case_if_in Hrun; [injection Hrun as <- <-; by eapply stage_error|]. breflect.
    assert (Hbk := same_look _ _ _ ltac:(eassumption)). rewrite Hb in Hbk. destruct Hbk as (f & Hf & Hg).
    eapply move_spec in Hrun; [|done|done]. apply effect_cases in Hrun as [Hm'|[Hm' [x ->]]]; [|by eapply stage_error].
    rewrite Hm'. constructor.
    + intros p Hp. rewrite !not_elem_of_cons in Hp. destruct Hp as (Hp1 & Hp2 & _). rewrite lookup_insert_ne, lookup_delete_ne by done. done.
    + intros _ _ _. left. exists f. rewrite lookup_insert_eq. split; [done|congruence].
    + intros _. unfold target_right. rewrite Hd, Ho. exists f. rewrite lookup_insert_eq. split_and!; [done|congruence|by right].
  - rewrite look_present. destruct (p_files d !! commit_target j) as [f|] eqn:Hf.
    + intros Hrun. apply remove_spec in Hrun; [|done]. apply effect_cases in Hrun as [Hm'|[Hm' [x ->]]]; [|by eapply stage_error].
      rewrite Hm'. constructor; [|congruence|].
      * intros p Hp. rewrite !not_elem_of_cons in Hp. destruct Hp as (Hp1 & _). by rewrite lookup_delete_ne.
      * intros _. unfold target_right. rewrite Hd, Ho. by rewrite lookup_delete_eq.
    + intros [= <- <-]. apply stage_journal; [done|]. intros _. unfold target_right. by rewrite Hd, Ho.
Qed.

(** A stage between two changes of the journal. *)
Lemma stage_between {A B} a b c d (r : result A) (r' : result B) :
  only [providerJournalPath] a b -> stage b c r -> only [providerJournalPath] c d -> (is_Ok r' = true -> is_Ok r = true) ->
  stage a d r'.
Proof.
  intros Hab [Ho Hold Hr] Hcd Hok. destruct (journal_only _ _ Hab) as [Et Eb]. destruct (journal_only _ _ Hcd) as [Ft Fb].
  assert (Hw : forall x y, only [providerJournalPath] x y -> only [commit_target j; commit_backup j; providerJournalPath] x y).
  { intros x y. apply only_weaken. intros p Hp. apply elem_of_cons in Hp as [->|Hp%not_elem_of_nil]; [by right; right; left|done]. }
  constructor.
  - eapply only_paths_trans; [by apply Hw|]. eapply only_paths_trans; [exact Ho|by apply Hw].
  - intros Hd Hp Hs. assert (Hs' : old_safe j c) by (apply Hold; [done|done|]; destruct Hs as [Hs|Hs]; [left|right]; by eapply has_ext).
    destruct Hs' as [Hs'|Hs']; [left|right]; by eapply has_ext.
  - intros Hx%Hok%Hr. unfold target_right, has in *. by rewrite Ft, <- Et, <- Eb.
Qed.

Lemma recover_intent_stage d r d' :
  commit_done j = false -> recover_intent e j (look e (p_files d) (commit_target j)) (commit_target j) (commit_backup j) d = (r, d') ->
  stage (p_files d) (p_files d') r.
Proof.
  intros Hd. unfold recover_intent. case_if; [intros [= <- <-]; by eapply stage_error|].
  case_if; [intros [= <- <-]; by eapply stage_error|]. intros Hrun.
  assert (Hsave : forall (b : bool) x da ra db, (if b then st_ret (Ok tt) else saveJournal e x) da = (ra, db) ->
                  only [providerJournalPath] (p_files da) (p_files db)).
  { intros [] x da ra db; [by intros [= _ <-]|apply saveJournal_any]. }
  apply st_try_inv in Hrun as [(x & -> & Hone)|([] & d1 & Hone & Hrun)]; apply Hsave in Hone; [by apply stage_journal|].
  assert (Hl : look e (p_files d) (commit_target j) = look e (p_files d1) (commit_target j)).
  { unfold look. by rewrite (proj1 (journal_only _ _ Hone)). }
  rewrite Hl in Hrun.
  apply st_try_inv in Hrun as [(x & -> & Htwo)|([] & d2 & Htwo & Hrun)]; apply restore_provider_stage in Htwo; try done.
  - by eapply stage_between; [exact Hone|exact Htwo|apply only_refl|].
  - apply st_try_inv in Hrun as [(x & -> & Hthree)|([] & d3 & Hthree & [= <- <-])]; apply Hsave in Hthree;
      by eapply stage_between; [exact Hone|exact Htwo|exact Hthree|].
Qed.

(** The stages keep the journal's transaction. *)
Lemma recover_prepared_id x y d j' d' : recover_prepared e j x y d = (Ok j', d') -> pj_ID j' = pj_ID j.
Proof.
  unfold recover_prepared. case_if; [done|]. intros [(z & ? & _)|(b & d1 & _ & Hrun)]%st_try_inv; [done|].
  case_if_in Hrun; [done|]. case_if_in Hrun; [done|]. case_if_in Hrun; [|by injection Hrun as <- _].
  apply st_try_inv in Hrun as [(z & ? & _)|(u & d2 & _ & [= <- _])]; done.
Qed.

Lemma recover_intent_id x y z d j' d' : recover_intent e j x y z d = (Ok j', d') -> pj_ID j' = pj_ID j.
Proof.
  unfold recover_intent. case_if; [done|]. case_if; [done|].
  intros [(w & ? & _)|(u & d1 & _ & Hrun)]%st_try_inv; [done|]. apply st_try_inv in Hrun as [(w & ? & _)|(v & d2 & _ & Hrun)]; [done|].
  apply st_try_inv in Hrun as [(w & ? & _)|(t & d3 & _ & [= <- _])]; done.
Qed.

(** ** The whole recovery *)

(** The end of a recovery whose target is right: what it cleans up. *)
Record committed (m m' : gmap string entry) (r : result unit) : Prop := {
  cm_only : only commit_paths m m';
  cm_old : commit_done j = false -> o_Present (pj_Old j) = true -> old_safe j m -> old_safe j m';
  cm_right : r = Ok tt -> target_right j m m' /\ m' !! commit_backup j = None
                          /\ m' !! commit_candidate j = None /\ m' !! providerJournalPath = None
}.

Lemma committed_error m m' r x : only commit_paths m m' ->
  (commit_done j = false -> o_Present (pj_Old j) = true -> old_safe j m -> old_safe j m') -> r = Err x -> committed m m' r.
Proof. intros Ho Hold ->. by constructor. Qed.

Lemma target_right_old m m' :
  commit_done j = false -> o_Present (pj_Old j) = true -> target_right j m m' -> has m' (commit_target j) (o_SHA256 (pj_Old j)).
Proof. intros Hd Hp. unfold target_right. rewrite Hd, Hp. intros (f & Hf & Hg & _). by exists f. Qed.

Lemma recover_provider_committed d r d' : recover_provider e j d = (r, d') -> committed (p_files d) (p_files d') r.
Proof.
  unfold recover_provider. rewrite Htgt. fold (commit_candidate j). fold (commit_backup j).
  assert (Hid : forall x, committed (p_files d) (p_files d) (Err x)) by (intros x; by eapply committed_error).
  intros [[Hm [x ->]]|(d1 & Hm & Hrun)]%inspect_any; [by rewrite Hm|]. rewrite <- Hm in *.
  case_if_in Hrun; [by injection Hrun as <- <-|].
  apply inspect_any in Hrun as [[Hm2 [x ->]]|(d2 & Hm2 & Hrun)]; [by rewrite Hm2|]. rewrite <- Hm2 in *. clear d d1 Hm Hm2.
  assert (Hw : forall m m', only [commit_target j; commit_backup j; providerJournalPath] m m' -> only commit_paths m m').
  { intros m m'. apply only_weaken. unfold commit_paths. intros p Hp. rewrite !elem_of_cons in *. tauto. }
  assert (Hst : forall r1 d1,
    (if String.eqb (pj_Phase j) "prepared" then recover_prepared e j (look e (p_files d2) (commit_target j)) (commit_backup j)
     else if String.eqb (pj_Phase j) "done" then
       st_ret (if sameProviderObject (look e (p_files d2) (commit_target j)) (pj_New j) then Ok j
               else Err (invalid "committed provider identity changed"))
     else recover_intent e j (look e (p_files d2) (commit_target j)) (commit_target j) (commit_backup j)) d2 = (r1, d1) ->
    stage (p_files d2) (p_files d1) r1 /\ (forall j', r1 = Ok j' -> pj_ID j' = pj_ID j)).
  { intros r1 d1. destruct (String.eqb_spec (pj_Phase j) "prepared") as [Hp|_].
    - intros Hx. split; [apply recover_prepared_stage; [unfold commit_done; by rewrite Hp|done]|].
      intros j' ->. by eapply recover_prepared_id.
    - destruct (String.eqb (pj_Phase j) "done") eqn:Hd.
      2: { intros Hx. split; [by apply recover_intent_stage|]. intros j' ->. by eapply recover_intent_id. }
      intros [= <- <-]. split; [|by case_if; intros j' [= <-]]. apply stage_journal; [done|]. destruct (sameProviderObject _ (pj_New j)) eqn:Hs; [|done]. intros _.
      apply same_look in Hs. unfold target_right, commit_done. rewrite Hd. split; [done|].
      destruct (o_Present (pj_New j)) eqn:Hn; [done|]. exfalso. revert Hchk. unfold check_provider. rewrite Hn. cbn [negb].
      by rewrite !orb_true_r. }
  apply st_try_inv in Hrun as [(x & -> & Hs)|(j' & d1 & Hs & Hrun)]; apply Hst in Hs as [[Ho Hold Hright] Hjid].
  { eapply committed_error; [by apply Hw|done|done]. }
  specialize (Hright eq_refl). specialize (Hjid _ eq_refl). rewrite Hjid in Hrun. fold (commit_candidate j) in Hrun. pose proof commit_paths_distinct as Hnd. unfold commit_paths in Hnd.
  rewrite !NoDup_cons, !not_elem_of_cons in Hnd. destruct Hnd as ((Htb & Htc & Htj & _) & (Hbc & Hbj & _) & (Hcj & _) & _).
  (* from here on the target stays *)
  assert (Herr : forall m' y, only commit_paths (p_files d2) m' -> m' !! commit_target j = p_files d1 !! commit_target j ->
                 committed (p_files d2) m' (Err y)).
  { intros m' y Hom Et. eapply committed_error; [done| |done]. intros Hd Hp _. left. eapply has_ext; [exact Et|]. by eapply target_right_old. }
  assert (Hd1 : only commit_paths (p_files d2) (p_files d1)) by by apply Hw.
  assert (Hdel : forall p m', p ∈ commit_paths -> only commit_paths (p_files d2) m' -> only commit_paths (p_files d2) (delete p m')).
  { intros p m' Hin Hom q Hq. rewrite lookup_delete_ne by (by intros ->). by apply Hom. }
  assert (Hc1 : commit_backup j ∈ commit_paths) by (right; left).
  assert (Hc2 : commit_candidate j ∈ commit_paths) by (right; right; left).
  assert (Hc3 : providerJournalPath ∈ commit_paths) by (right; right; right; left).
  apply st_try_inv in Hrun as [(x & -> & Hc)|([] & d3 & Hc & Hrun)]; apply clean_path_any in Hc as [Hc|[Hc [y Hy]]]; try done.
  1: { apply Herr; rewrite Hc; [by apply Hdel|by rewrite lookup_delete_ne]. }
  1: { apply Herr; rewrite Hc; done. }
  apply st_try_inv in Hrun as [(x & -> & Hc')|([] & d4 & Hc' & Hrun)]; apply clean_path_any in Hc' as [Hc'|[Hc' [y Hy]]]; try done.
  1: { apply Herr; rewrite Hc', Hc; [by repeat (apply Hdel; [done|])|by rewrite !lookup_delete_ne]. }
  1: { apply Herr; rewrite Hc', Hc; [by apply Hdel|by rewrite lookup_delete_ne]. }
  apply remove_journal_any in Hrun as [Hj|[Hj [y ->]]].
  2: { apply Herr; rewrite Hj, Hc', Hc; [by repeat (apply Hdel; [done|])|by rewrite !lookup_delete_ne]. }
  assert (Et : p_files d' !! commit_target j = p_files d1 !! commit_target j) by (rewrite Hj, Hc', Hc; by rewrite !lookup_delete_ne).
  constructor.
  - rewrite Hj, Hc', Hc. by repeat (apply Hdel; [done|]).
  - intros Hd Hp _. left. eapply has_ext; [exact Et|]. by eapply target_right_old.
  - intros _. split_and!.
    + unfold target_right, has in *. by rewrite Et.
    + rewrite Hj, Hc', Hc. do 2 rewrite lookup_delete_ne by done. by rewrite lookup_delete_eq.
    + rewrite Hj, Hc'. by rewrite lookup_delete_ne, lookup_delete_eq.
    + by rewrite Hj, lookup_delete_eq.
Qed.

End Commit.

(** Recovering the journal of a provider file, on any disk and under any
    faults: only the provider file, its backup, the candidate and the journal may
    change; the old content stays in place or in the backup while the journal is
    not done; and when the recovery succeeds the provider file is the new one of
    a journal that is done, else the old one or none, and the backup, the
    candidate and the journal are gone. *)
Theorem provider_commit_recovered `{Sha256} `{Unicode} `{JSONTree} `{ResourceJSON} (e : penv) (j : providerJournal)
    (f : entry) (d d' : pdisk) (r : result unit) :
  honest e -> p_files d !! providerJournalPath = Some f -> decode_provider (content f) = Ok j ->
  recover e d = (r, d') -> committed j (p_files d) (p_files d') r.
Proof.
  intros He Hf Hdec. unfold recover. intros (b & d1 & Hread & Hrun)%st_bind_inv.
  assert (Hchk : check_provider j = None).
  { revert Hdec. unfold decode_provider. destruct (json_tree (content f)); [|done]. case_if; [done|]. case_if; [done|].
    destruct (json_Unmarshal_provider (content f)) as [j'|]; [|done]. destruct (check_provider j') eqn:Hc; [done|]. by intros [= <-]. }
  apply read_spec in Hread as [[Hu _] Hread]; [|done]. rewrite Hf in Hread. destruct Hread as [[-> _]|(x & -> & Hx & _)].
  - rewrite Hdec in Hrun. rewrite <- Hu. destruct (providerResourcePath (pj_Resource j) (pj_Format j)) as [t|x] eqn:Ht.
    + apply recover_provider_committed in Hrun; try done. unfold commit_target. by rewrite Ht.
    + unfold recover_provider in Hrun. rewrite Ht in Hrun.
      apply inspect_any in Hrun as [[Hm [y ->]]|(d2 & Hm & Hrun)]; [rewrite Hm|rewrite <- Hm|done]; [by eapply committed_error|].
      case_if_in Hrun; injection Hrun as <- <-; by eapply committed_error.
  - rewrite Hx in Hrun. injection Hrun as <- <-. rewrite Hu. by eapply committed_error.
Qed.

(** ** A replacement that was interrupted

    The new file is in place and the old one in the backup; the first write of
    the journal goes through but reports an error. *)

Section Example.
#[local] Instance cmt_sha : Sha256 := toy_hash.
#[local] Instance cmt_unicode : Unicode := {| unicode_ToLower s := s |}.

Definition cmt_file (b : string) (n : N) : entry := mkEntry b (1%N, n).
Definition cmt_object (f : entry) : providerObject :=
  mkObject true ("root/" ++ Key (inode f)) (providerDigest (content f)) "boot".
Definition cmt_id : string := "0123456789abcdef0123456789abcdef".
Definition cmt_resource : string := providerDigest (identity_json cmt_id 7 "rule" "domains").
Definition cmt_new : entry := cmt_file "new rules" 1.
Definition cmt_old : entry := cmt_file "rules" 2.
Definition cmt_marker : entry := cmt_file cmt_id 3.

Definition cmt_journal : providerJournal :=
  mkProviderJournal "mihari.provider-commit/v1" cmt_id cmt_resource "yaml"
    (mkObject true "root/gone" (providerDigest "rules") "boot") (cmt_object cmt_new) (cmt_object cmt_old) "intent"
    (cmt_object cmt_marker) cmt_id 7 "rule" "domains" false false.

Definition cmt_text (j : providerJournal) : string :=
  if pj_RecoveryDone j then "done" else if pj_RecoveryIntent j then "intent" else "journal".

Definition cmt_tree : jvalue :=
  let o := JObject [("present", JScalar); ("identity", JScalar); ("sha256", JScalar); ("boot_id", JScalar)]%string in
  JObject (map (fun n => (n, if one_of n ["old"; "new"; "backup"; "marker"] then o else JScalar))
    ["schema"; "id"; "resource_id"; "format"; "old"; "new"; "backup"; "phase"; "marker"; "subscription_id"; "generation";
     "kind"; "name"; "recovery_intent"; "recovery_done"]).

#[local] Instance cmt_parse : JSONTree := {| json_tree _ := Some cmt_tree |}.
#[local] Instance cmt_json : ResourceJSON := {|
  json_Marshal_resources _ := None;
  json_Unmarshal_resources _ := None;
  json_Marshal_provider j := Some (cmt_text j);
  json_Unmarshal_provider raw :=
    List.find (fun j => String.eqb (cmt_text j) raw)
      (map (fun '(a, b) => set_recovery (cmt_object cmt_old) a b cmt_journal) [(false, false); (true, false); (true, true)])
|}.

Definition cmt_disk : pdisk :=
  mkPDisk 0 (list_to_map
    [(providerJournalPath, cmt_file "journal" 9); (commit_target cmt_journal, cmt_new);
     (commit_backup cmt_journal, cmt_old); (provider_staging cmt_id "transaction-id", cmt_marker);
     ("mihari.yaml"%string, cmt_file "settings" 16)]) [cmt_id].

(** Call 24 is the first write of the journal. *)
Definition cmt_env : penv :=
  mkPEnv (fun n => if (n =? 24)%nat then FLate (EText "sync") else FOk) (fun n => (1%N, N.of_nat (100 + n))) (fun _ => true) "root" "boot".

Definition cmt_contents (d : pdisk) : list (option string) :=
  map (fun p => content <$> p_files d !! p) [providerJournalPath; commit_target cmt_journal; commit_backup cmt_journal].

Example cmt_runs :
  let d1 := snd (recover cmt_env cmt_disk) in
  let '(r2, d2) := recover cmt_env d1 in
  is_Ok (fst (recover cmt_env cmt_disk)) = false /\ cmt_contents d1 = [Some "intent"; Some "new rules"; Some "rules"]%string /\
  r2 = Ok tt /\ cmt_contents d2 = [None; Some "rules"; None]%string.
Proof. vm_compute. split_and!; reflexivity. Qed.

Lemma cmt_honest : honest cmt_env.
Proof.
  constructor; [|intros Hb; discriminate Hb]. intros n x. cbn [cmt_env pio].
  destruct (n =? 24)%nat; cbn [fault_error]; [|discriminate]. by intros [= <-].
Qed.

Lemma cmt_decodes : p_files cmt_disk !! providerJournalPath = Some (cmt_file "journal" 9)
  /\ decode_provider "journal" = Ok cmt_journal.
Proof. vm_compute. split; reflexivity. Qed.

(** The interrupted recovery keeps the old rules, here in the backup. *)
Lemma provider_commit_recovered_witness :
  committed cmt_journal (p_files cmt_disk) (p_files (snd (recover cmt_env cmt_disk))) (fst (recover cmt_env cmt_disk)).
Proof.
  exact (provider_commit_recovered cmt_env cmt_journal (cmt_file "journal" 9) cmt_disk _ _ cmt_honest (proj1 cmt_decodes)
           (proj2 cmt_decodes) (surjective_pairing (recover cmt_env cmt_disk))).
Defined.

End Example.
