(* ===== verification/GeoIP.v ===== *)
(** * GeoIP: the pair of address databases

    Models [internal/geoip/service.go], [downloader.go], [scheduler.go],
    [sync_unix.go] and [sync_windows.go], and [LookupGeoIP] of
    [internal/runtime/geoip.go].

    The service answers lookups from two database files, Country and ASN.  An
    update downloads and verifies both beside the active files, and then replaces
    the pair: readers are closed, the old files are kept under the suffix
    ".previous", and when any step fails the old pair is put back.

    [world] is the file system as far as the service can see it, and the service
    itself.  Each system call takes the next number, and [env] says how the call
    with that number goes.  A call that fails has no effect on the names of files.
    The format of the databases is the class [MaxMind]: nothing is assumed of it.
    Reports to the diagnostic log are not recorded. *)

From Stdlib Require Import Ascii.
From S2P Require Import Prelude GoStd Catalog SelfUpdate.

(** ** Data *)

Record Record_ := mkRecord {
  CountryCode : string;
  ASN : Z;
  Organization : string
}.

Record DatabaseStatus := mkDatabaseStatus {
  ds_Available : bool;
  UpdatedAt : option Z;            (** [None] is the zero time *)
  ds_LastError : string
}.

(** A name in the file system. *)
Record node := mkNode {
  n_dir : bool;
  n_bytes : string;
  n_mtime : Z
}.

(** [maxminddb]: opening a database of the given bytes, verifying it, and the
    decoded country code and autonomous system of an address. *)
Class MaxMind := {
  mmdb_Open : string -> option error;
  mmdb_Verify : string -> option error;
  mmdb_country : string -> Addr -> result string;
  mmdb_asn : string -> Addr -> result (Z * string)
}.

Record ServiceOptions := mkOptions {
  CountryPath : string;
  ASNPath : string;
  CountryURL : string;
  CountryChecksumURL : string;
  ASNURL : string;
  ASNChecksumURL : string
}.

Record DownloadSpec := mkSpec {
  ds_URL : string;
  ChecksumURL : string;
  ExpectedSHA256 : string;
  Destination : string
}.

Record Downloader := mkDownloader {
  StagingDir : string;
  MaxBytes : Z;
  AllowHTTP : bool
}.

Record FileCandidate := mkFileCandidate {
  fc_staged : string;
  destination : string;
  fc_digest : list Z;
  committed : bool;
  hadPrevious : bool
}.

Definition set_staged_path (s : string) (c : FileCandidate) : FileCandidate :=
  mkFileCandidate s (destination c) (fc_digest c) (committed c) (hadPrevious c).
Definition set_committed (b : bool) (c : FileCandidate) : FileCandidate :=
  mkFileCandidate (fc_staged c) (destination c) (fc_digest c) b (hadPrevious c).
Definition set_hadPrevious (b : bool) (c : FileCandidate) : FileCandidate :=
  mkFileCandidate (fc_staged c) (destination c) (fc_digest c) (committed c) b.

Record PreparedUpdate := mkPrepared {
  pu_country : FileCandidate;
  pu_asn : FileCandidate;
  identity : string;
  baseGeneration : Z
}.

(** A reader is the database it has open. *)
Record Service := mkService {
  country : option string;
  asn : option string;
  countryErr : option error;
  asnErr : option error;
  updateErr : string;
  generation : Z
}.

Record world := mkWorld {
  tick : nat;
  disk : gmap string node;
  svc : Service
}.

(** How a system call on an existing name can fail. *)
Inductive failure := Denied | Failed.
Definition failure_error (f : failure) : error :=
  match f with Denied => ESentinel ErrPermission | Failed => EText "input/output error" end.

(** The outcome of a request: [final] is the URL after redirections. *)
Inductive outcome :=
| BadRequest (e : error)
| Transport (e : error)
| Answer (final : string) (r : response).

Record env := mkEnv {
  sys : nat -> option failure;       (** every call but [os.Stat] *)
  stat : nat -> option failure;
  net : nat -> string -> outcome;
  temp : nat -> string;              (** random part of a temporary name *)
  partial : nat -> string;           (** what reached the file when [Write] failed *)
  now : nat -> Z;
  windows : bool
}.

(** A digest as the string of its bytes. *)
Definition concat_bytes (l : list Z) : string :=
  foldr (fun x s => String (chr (Z.to_nat x)) s) EmptyString l.

(** *** Addresses: [net/netip] *)

Definition Unmap (a : Addr) : Addr :=
  if Is6 a && bool_decide (firstn 12 (addr_bytes a) = v4_mapped)
  then mkAddr (skipn 12 (addr_bytes a)) "" else a.

Definition IsValid (a : Addr) : bool := Is4 a || Is6 a.
Definition nth_byte (n : nat) (a : Addr) : Z := nth n (addr_bytes a) 0.

Definition IsMulticast (a : Addr) : bool :=
  let a := Unmap a in
  if Is4 a then Z.land (nth_byte 0 a) 240 =? 224 else Is6 a && (nth_byte 0 a =? 255).

Definition IsLinkLocalUnicast (a : Addr) : bool :=
  let a := Unmap a in
  if Is4 a then (nth_byte 0 a =? 169) && (nth_byte 1 a =? 254)
  else Is6 a && (nth_byte 0 a =? 254) && (Z.land (nth_byte 1 a) 192 =? 128).

Definition IsPrivate (a : Addr) : bool :=
  let a := Unmap a in
  if Is4 a then
    (nth_byte 0 a =? 10)
    || (nth_byte 0 a =? 172) && (Z.land (nth_byte 1 a) 240 =? 16)
    || (nth_byte 0 a =? 192) && (nth_byte 1 a =? 168)
  else Is6 a && (Z.land (nth_byte 0 a) 254 =? 252).

Definition IPv4Unspecified : Addr := mkAddr (zeros 4) "".
Definition IPv6Unspecified : Addr := mkAddr (zeros 16) "".
Definition IsUnspecified (a : Addr) : bool := bool_decide (a = IPv4Unspecified) || bool_decide (a = IPv6Unspecified).

Definition IsGlobalUnicast (a : Addr) : bool :=
  if negb (IsValid a) then false
  else
    let a := Unmap a in
    if Is4 a && (bool_decide (a = IPv4Unspecified) || bool_decide (a = mkAddr [255; 255; 255; 255] "")) then false
    else negb (bool_decide (a = IPv6Unspecified)) && negb (IsLoopback a) && negb (IsMulticast a)
         && negb (IsLinkLocalUnicast a).

Definition isPublicAddress (address : Addr) : bool :=
  IsValid address && IsGlobalUnicast address && negb (IsPrivate address) && negb (IsLoopback address)
  && negb (IsMulticast address) && negb (IsUnspecified address).

Section GeoIP.
Context `{MaxMind} `{Sha256} `{SourceSyntax} `{Unicode} (E : env).

Abbreviation G := (st world).

(** ** System calls *)

Definition next : G nat := fun w => (tick w, mkWorld (S (tick w)) (disk w) (svc w)).
Definition set_disk (d : gmap string node) : G unit := st_modify (fun w => mkWorld (tick w) d (svc w)).
Definition set_svc (f : Service -> Service) : G unit := st_modify (fun w => mkWorld (tick w) (disk w) (f (svc w))).

(** A call that changes no name: [MkdirAll], [Chmod], [Sync], [Close]. *)
Definition call : G (option error) := let! n := next in st_ret (option_map failure_error (sys E n)).

Definition os_Stat (p : string) : G (result node) :=
  let! n := next in
  let! w := st_get in
  st_ret match stat E n, disk w !! p with
         | Some f, _ => Err (failure_error f)
         | None, None => Err (ESentinel ErrNotExist)
         | None, Some x => Ok x
         end.

Definition os_Remove (p : string) : G (option error) :=
  let! n := next in
  let! w := st_get in
  match disk w !! p, sys E n with
  | None, _ => st_ret (Some (ESentinel ErrNotExist))
  | Some _, Some f => st_ret (Some (failure_error f))
  | Some _, None => do! set_disk (delete p (disk w)) in st_ret None
  end.

(** [os.Rename]; a directory and a file do not replace each other. *)
Definition os_Rename (p q : string) : G (option error) :=
  let! n := next in
  let! w := st_get in
  match disk w !! p, sys E n with
  | None, _ => st_ret (Some (ESentinel ErrNotExist))
  | Some _, Some f => st_ret (Some (failure_error f))
  | Some x, None =>
      if match disk w !! q with Some y => negb (Bool.eqb (n_dir x) (n_dir y)) | None => false end
      then st_ret (Some (EText "file exists"))
      else do! set_disk (<[q := x]> (delete p (disk w))) in st_ret None
  end.

(** The bytes of a file: [os.Open] and the reading. *)
Definition os_ReadFile (p : string) : G (result string) :=
  let! n := next in
  let! w := st_get in
  st_ret match disk w !! p, sys E n with
         | None, _ => Err (ESentinel ErrNotExist)
         | Some _, Some f => Err (failure_error f)
         | Some x, None => if n_dir x then Err (EText "is a directory") else Ok (n_bytes x)
         end.

Definition syncDirectory : G (option error) :=
  if windows E then st_ret None
  else let! x := call in
       match x with Some x => st_ret (Some x) | None => call end.

Definition joinUpdateRecovery (primary : error) (recovery : list (option error)) : error :=
  match foldr errors_Join None recovery with
  | None => primary
  | Some r => EJoin primary r
  end.

(** ** Databases *)

Definition openDatabase (path : string) : G (result string) :=
  if String.eqb path "" then st_ret (Err (ESentinel ErrUnavailable))
  else
    let! r := os_ReadFile path in
    match r with
    | Err x => st_ret (Err (EFmt "open geoip database" x))
    | Ok raw =>
        match mmdb_Open raw with
        | Some x => st_ret (Err (EFmt "open geoip database" x))
        | None =>
            match mmdb_Verify raw with
            | Some x =>
                let! c := call in
                st_ret match c with
                       | Some c => Err (EJoin (EFmt "verify geoip database" x) c)
                       | None => Err (EFmt "verify geoip database" x)
                       end
            | None => st_ret (Ok raw)
            end
        end
    end.

Definition reader_of (r : result string) : option string := match r with Ok b => Some b | Err _ => None end.
Definition error_of (r : result string) : option error := match r with Ok _ => None | Err e => Some e end.

Definition set_country (r : option string) (s : Service) : Service :=
  mkService r (asn s) (countryErr s) (asnErr s) (updateErr s) (generation s).
Definition set_asn (r : option string) (s : Service) : Service :=
  mkService (country s) r (countryErr s) (asnErr s) (updateErr s) (generation s).

(** The two databases are opened. *)
Definition open_pair (o : ServiceOptions) : G (result string * result string) :=
  let! c := openDatabase (CountryPath o) in
  let! a := openDatabase (ASNPath o) in
  st_ret (c, a).

Definition reopenLocked (o : ServiceOptions) : G unit :=
  let! '(c, a) := open_pair o in
  set_svc (fun s => mkService (reader_of c) (reader_of a) (error_of c) (error_of a) (updateErr s) (generation s)).

Definition DefaultCountryURL : string := "https://raw.githubusercontent.com/Loyalsoldier/geoip/release/GeoLite2-Country.mmdb".
Definition DefaultCountryChecksumURL : string := DefaultCountryURL ++ ".sha256sum".
Definition DefaultASNURL : string := "https://raw.githubusercontent.com/Loyalsoldier/geoip/release/GeoLite2-ASN.mmdb".
Definition DefaultASNChecksumURL : string := DefaultASNURL ++ ".sha256sum".

Definition or_default (value default : string) : string := if String.eqb value "" then default else value.

(** The sources that [New] fills in. *)
Definition New_options (o : ServiceOptions) : ServiceOptions :=
  mkOptions (CountryPath o) (ASNPath o) (or_default (CountryURL o) DefaultCountryURL)
    (or_default (CountryChecksumURL o) DefaultCountryChecksumURL) (or_default (ASNURL o) DefaultASNURL)
    (or_default (ASNChecksumURL o) DefaultASNChecksumURL).

Definition New (o : ServiceOptions) : G unit :=
  do! set_svc (fun _ => mkService None None None None "" 0) in
  reopenLocked o.

Definition closeReadersLocked : G (option error) :=
  let! w := st_get in
  let! c := match country (svc w) with
            | Some _ => let! x := call in do! set_svc (set_country None) in st_ret x
            | None => st_ret None
            end in
  let! a := match asn (svc w) with
            | Some _ => let! x := call in do! set_svc (set_asn None) in st_ret x
            | None => st_ret None
            end in
  st_ret (errors_Join c a).

(** [Service.Close] has the same body. *)
Definition Close : G (option error) := closeReadersLocked.

(** ** Downloads *)

Definition defaultMaxDatabaseBytes : Z := 134217728.
Definition MaxHTTPBodyBytes : Z := 262144.

(** [downloadFailure]: its cause can be nil. *)
Definition downloadFailure (message : string) (cause : option error) : error :=
  match cause with Some c => EFmt message c | None => EText message end.
(** [diagnostics.HTTPError]. *)
Definition HTTPError (operation : string) (cause : option error) : error := downloadFailure operation cause.

Definition validateDownloadURL (raw : string) (allowHTTP : bool) : option error :=
  let refused := Some (EText "geoip download URL must use HTTPS") in
  match url_Parse raw with
  | Err _ => refused
  | Ok (scheme, host) =>
      if String.eqb host "" || negb (String.eqb scheme "https") && negb (allowHTTP && String.eqb scheme "http")
      then refused else None
  end.

Definition errInvalidExpectedSHA256 : error :=
  EText "expected geoip SHA-256 must be 64 lowercase hexadecimal characters".

Definition parseExpectedSHA256 (raw : string) : result (list Z) :=
  if negb (len raw =? 64) then Err errInvalidExpectedSHA256
  else if negb (String.eqb raw (ToLower raw)) then Err errInvalidExpectedSHA256
  else match hex_decode raw with
       | None => Err errInvalidExpectedSHA256
       | Some decoded => Ok decoded
       end.

Definition doGET (url : string) (allowHTTP : bool) : G (result response) :=
  let! n := next in
  st_ret
    match net E n url with
    | BadRequest x => Err (EFmt "create geoip request" x)
    | Transport x => Err (downloadFailure "download geoip resource" (Some (HTTPError "geoip GET resource" (Some x))))
    | Answer final r =>
        match validateDownloadURL final allowHTTP with
        | Some x => Err (downloadFailure "geoip redirect must preserve HTTPS"
                          (Some (HTTPError "geoip GET resource" (errors_Join (Some x) (close_error r)))))
        | None =>
            if (status r <? 200) || (300 <=? status r)
            then let readErr := match read_limited (MaxHTTPBodyBytes + 1) r with Err x => Some x | Ok _ => None end in
                 Err (downloadFailure "download geoip resource: unexpected HTTP status"
                       (Some (HTTPError "geoip GET resource" (errors_Join readErr (close_error r)))))
            else Ok r
        end
    end.

(** Closing the body only matters beside a failure. *)
Definition closeGeoIPResponse {A} (r : response) (res : result A) : result A :=
  match res, close_error r with
  | Err x, Some c => Err (EFmt "close" (EJoin x (HTTPError "geoip GET resource" (Some c))))
  | _, _ => res
  end.

(** The checksum is the first word of the file. *)
Definition parse_checksum (raw : string) : result (list Z) :=
  if 4096 <? len raw then Err (EText "read geoip checksum")
  else match Fields raw with
       | [] => Err (EText "invalid geoip checksum")
       | word :: _ =>
           match hex_decode word with
           | None => Err (downloadFailure "invalid geoip checksum" (Some (EText "hex")))
           | Some decoded =>
               if (length decoded =? 32)%nat then Ok decoded else Err (EText "invalid geoip checksum")
           end
       end.

Definition downloadChecksum (url : string) (allowHTTP : bool) : G (result (list Z)) :=
  try! r := doGET url allowHTTP in
  st_ret (closeGeoIPResponse r
    match read_limited 4097 r with
    | Err x => Err (downloadFailure "read geoip checksum" (Some (HTTPError "geoip GET checksum" (Some x))))
    | Ok raw => parse_checksum raw
    end).

(** The bytes of the staged file. *)
Definition write_staged (staged content : string) : G unit :=
  let! n := next in
  let! w := st_get in set_disk (<[staged := mkNode false content (now E n)]> (disk w)).

(** [io.Copy] of at most [maxBytes + 1] bytes to the file and the hash. *)
Definition downloadFile (url staged : string) (maxBytes : Z) (allowHTTP : bool) : G (result (list Z)) :=
  try! r := doGET url allowHTTP in
  let! n := next in
  match sys E n with
  | Some f =>
      do! write_staged staged (partial E n) in
      st_ret (closeGeoIPResponse r (Err (EFmt "download geoip database" (failure_error f))))
  | None =>
      match read_limited (int64 (maxBytes + 1)) r with
      | Err x =>
          do! write_staged staged (body r) in
          st_ret (closeGeoIPResponse r (Err (EFmt "download geoip database" x)))
      | Ok raw =>
          do! write_staged staged raw in
          st_ret (closeGeoIPResponse r
            (if maxBytes <? len raw then Err (downloadFailure "geoip database exceeds size limit" None)
             else Ok (sha256 raw)))
      end
  end.

Definition validateMMDB (path : string) : G (option error) :=
  let! r := os_ReadFile path in
  match r with
  | Err x => st_ret (Some x)
  | Ok raw =>
      match mmdb_Open raw with
      | Some x => st_ret (Some x)
      | None => do! call in st_ret (mmdb_Verify raw)
      end
  end.

(** [ValidateMMDBFile]. *)
Definition ValidateMMDBFile := validateMMDB.

Definition MatchSHA256 (data expected : string) : option error :=
  match parseExpectedSHA256 expected with
  | Err x => Some x
  | Ok want => if bool_decide (sha256 data = want) then None else Some (EText "geoip candidate checksum mismatch")
  end.

(** The checksum the file must have. *)
Definition wanted (d : Downloader) (spec : DownloadSpec) : G (result (list Z)) :=
  match validateDownloadURL (ds_URL spec) (AllowHTTP d) with
  | Some x => st_ret (Err x)
  | None =>
      if Bool.eqb (String.eqb (ChecksumURL spec) "") (String.eqb (ExpectedSHA256 spec) "")
      then st_ret (Err (EText "exactly one geoip checksum source is required"))
      else
        match (if String.eqb (ChecksumURL spec) "" then None else validateDownloadURL (ChecksumURL spec) (AllowHTTP d)) with
        | Some x => st_ret (Err x)
        | None =>
            match (if String.eqb (ExpectedSHA256 spec) "" then Ok [] else parseExpectedSHA256 (ExpectedSHA256 spec)) with
            | Err x => st_ret (Err x)
            | Ok want =>
                if String.eqb (Destination spec) "" || String.eqb (StagingDir d) ""
                then st_ret (Err (EText "geoip download paths are required"))
                else if String.eqb (ChecksumURL spec) "" then st_ret (Ok want)
                else downloadChecksum (ChecksumURL spec) (AllowHTTP d)
            end
        end
  end.

(** [os.CreateTemp] in the staging directory: the name is new. *)
Definition CreateTemp (d : Downloader) : G (result string) :=
  let! n := next in
  let! w := st_get in
  let staged := (StagingDir d ++ "/.candidate-" ++ temp E n ++ ".mmdb")%string in
  match sys E n, disk w !! staged with
  | Some f, _ => st_ret (Err (EFmt "create geoip candidate" (failure_error f)))
  | None, Some _ => st_ret (Err (EFmt "create geoip candidate" (ESentinel ErrExist)))
  | None, None => do! write_staged staged "" in st_ret (Ok staged)
  end.

(** The file is downloaded, compared, synced, closed and validated: the result
    and whether it was closed. *)
Definition fill_staged (d : Downloader) (spec : DownloadSpec) (staged : string) (want : list Z) : G (result (list Z) * bool) :=
  let fail (m : string) (x : error) (closed : bool) := st_ret (Err (EFmt m x), closed) in
  let! x := call in
  match x with
  | Some x => fail "protect geoip candidate"%string x false
  | None =>
      let limit := if MaxBytes d <=? 0 then defaultMaxDatabaseBytes else MaxBytes d in
      let! r := downloadFile (ds_URL spec) staged limit (AllowHTTP d) in
      match r with
      | Err x => st_ret (Err x, false)
      | Ok got =>
          if negb (bool_decide (got = want))
          then st_ret (Err (downloadFailure "geoip candidate checksum mismatch" None), false)
          else
            let! x := call in
            match x with
            | Some x => fail "sync geoip candidate"%string x false
            | None =>
                let! x := call in
                match x with
                | Some x => fail "close geoip candidate"%string x true
                | None =>
                    let! x := validateMMDB staged in
                    match x with
                    | Some x => st_ret (Err (downloadFailure "geoip candidate failed database validation" (Some x)), true)
                    | None => st_ret (Ok got, true)
                    end
                end
            end
      end
  end.

(** The deferred function: the file is closed, and removed after a failure. *)
Definition discard_staged (staged : string) (closed : bool) (x : error) : G error :=
  let! c := if closed then st_ret None else call in
  let x := match c with Some c => EJoin x c | None => x end in
  let! r := os_Remove staged in
  st_ret match r with
         | Some r => if errors_Is r ErrNotExist then x else EJoin x (EFmt "remove geoip candidate" r)
         | None => x
         end.

Definition Downloader_Prepare (d : Downloader) (spec : DownloadSpec) : G (result FileCandidate) :=
  try! want := wanted d spec in
  let! x := call in
  match x with
  | Some x => st_ret (Err (EFmt "create geoip staging directory" x))
  | None =>
      try! staged := CreateTemp d in
      let! '(r, closed) := fill_staged d spec staged want in
      match r with
      | Ok got => st_ret (Ok (mkFileCandidate staged (Destination spec) got false false))
      | Err x => let! x := discard_staged staged closed x in st_ret (Err x)
      end
  end.

(** ** Activation of one file *)

Definition previous_of (p : string) : string := (p ++ ".previous")%string.

(** [os.Remove] of a file that may be missing. *)
Definition remove_existing (p : string) : G (option error) :=
  let! x := os_Remove p in
  st_ret match x with
         | Some x => if errors_Is x ErrNotExist then None else Some x
         | None => None
         end.

Definition FileCandidate_Rollback (c : FileCandidate) : G (FileCandidate * option error) :=
  if negb (committed c) then st_ret (c, None)
  else
    let! x := remove_existing (destination c) in
    match x with
    | Some x => st_ret (c, Some x)
    | None =>
        let! x := if hadPrevious c then os_Rename (previous_of (destination c)) (destination c) else st_ret None in
        match x with
        | Some x => st_ret (c, Some x)
        | None =>
            let! x := syncDirectory in
            st_ret (set_committed false c, x)
        end
    end.

(** The candidate takes the place of the active file. *)
Definition activate_file (c : FileCandidate) : G (FileCandidate * option error) :=
  let! x := os_Rename (fc_staged c) (destination c) in
  match x with
  | Some x =>
      let! restoreErr := os_Rename (previous_of (destination c)) (destination c) in
      st_ret (c, Some (joinUpdateRecovery (EFmt "activate geoip database" x) [restoreErr]))
  | None =>
      let c := set_staged_path "" (set_committed true c) in
      let! x := syncDirectory in
      match x with
      | Some x =>
          let! '(c, restoreErr) := FileCandidate_Rollback c in
          st_ret (c, Some (joinUpdateRecovery (EFmt "sync geoip directory" x) [restoreErr]))
      | None => st_ret (c, None)
      end
  end.

Definition FileCandidate_Commit (c : FileCandidate) : G (FileCandidate * option error) :=
  if String.eqb (fc_staged c) "" || String.eqb (destination c) "" then st_ret (c, Some (EText "invalid geoip candidate"))
  else
    let! x := call in
    match x with
    | Some x => st_ret (c, Some (EFmt "create geoip directory" x))
    | None =>
        let! x := remove_existing (previous_of (destination c)) in
        match x with
        | Some x => st_ret (c, Some (EFmt "remove retained geoip database" x))
        | None =>
            let! found := os_Stat (destination c) in
            match found with
            | Ok _ =>
                let c := set_hadPrevious true c in
                let! x := os_Rename (destination c) (previous_of (destination c)) in
                match x with
                | Some x => st_ret (c, Some (EFmt "retain previous geoip database" x))
                | None => activate_file c
                end
            | Err _ => activate_file c
            end
        end
    end.

Definition FileCandidate_Valid (c : FileCandidate) : G bool :=
  if String.eqb (fc_staged c) "" then st_ret false
  else
    let! r := os_ReadFile (fc_staged c) in
    st_ret match r with
           | Ok raw => bool_decide (sha256 raw = fc_digest c)
           | Err _ => false
           end.

Definition FileCandidate_Cleanup (c : FileCandidate) : G FileCandidate :=
  if String.eqb (fc_staged c) "" then st_ret c
  else do! os_Remove (fc_staged c) in st_ret (set_staged_path "" c).

(** ** The pair *)

Definition PrepareUpdate (o : ServiceOptions) (d : Downloader) : G (result PreparedUpdate) :=
  let! w := st_get in
  try! c := Downloader_Prepare d (mkSpec (CountryURL o) (CountryChecksumURL o) "" (CountryPath o)) in
  let! r := Downloader_Prepare d (mkSpec (ASNURL o) (ASNChecksumURL o) "" (ASNPath o)) in
  match r with
  | Err x => do! FileCandidate_Cleanup c in st_ret (Err x)
  | Ok a =>
      let combined := sha256 (concat_bytes (fc_digest c ++ fc_digest a)) in
      st_ret (Ok (mkPrepared c a (hex_encode combined) (generation (svc w))))
  end.

Definition Valid (p : PreparedUpdate) : G bool :=
  let! v := FileCandidate_Valid (pu_country p) in
  if v then FileCandidate_Valid (pu_asn p) else st_ret false.

Definition Cleanup (p : PreparedUpdate) : G PreparedUpdate :=
  let! c := FileCandidate_Cleanup (pu_country p) in
  let! a := FileCandidate_Cleanup (pu_asn p) in
  st_ret (mkPrepared c a (identity p) (baseGeneration p)).

Definition with_files (c a : FileCandidate) (p : PreparedUpdate) : PreparedUpdate :=
  mkPrepared c a (identity p) (baseGeneration p).

(** After a failure the databases of before are opened again. *)
Definition recovered (o : ServiceOptions) (primary : error) (recovery : list (option error)) : G error :=
  do! reopenLocked o in
  let! w := st_get in
  st_ret (joinUpdateRecovery primary (recovery ++ [countryErr (svc w); asnErr (svc w)])).

(** The reader that opened is closed again. *)
Definition close_opened (r : result string) : G (option error) :=
  match r with Ok _ => call | Err _ => st_ret None end.

(** A new database did not open: the readers are closed and the old files are put
    back. *)
Definition withdraw (o : ServiceOptions) (p : PreparedUpdate) (c a : result string) : G (PreparedUpdate * option error) :=
  let! c1 := close_opened c in
  let! c2 := close_opened a in
  let! '(fa, asnRestoreErr) := FileCandidate_Rollback (pu_asn p) in
  let! '(fc, countryRestoreErr) := FileCandidate_Rollback (pu_country p) in
  let primary := match errors_Join (error_of c) (error_of a) with Some x => x | None => EText "" end in
  let! x := recovered o primary [errors_Join c1 c2; asnRestoreErr; countryRestoreErr] in
  st_ret (with_files fc fa p, Some x).

(** Both files are in place: the new databases are opened. *)
Definition adopt_pair (o : ServiceOptions) (p : PreparedUpdate) : G (PreparedUpdate * option error) :=
  let! '(c, a) := open_pair o in
  match c, a with
  | Ok rc, Ok ra =>
      do! set_svc (fun s => mkService (Some rc) (Some ra) None None "" (uint64 (generation s + 1))) in
      st_ret (p, None)
  | _, _ => withdraw o p c a
  end.

(** The two files are activated; a failure puts back what was replaced. *)
Definition commit_files (o : ServiceOptions) (p : PreparedUpdate) : G (PreparedUpdate * option error) :=
  let! '(c, x) := FileCandidate_Commit (pu_country p) in
  match x with
  | Some x =>
      let! x := recovered o x [] in
      st_ret (with_files c (pu_asn p) p, Some x)
  | None =>
      let! '(a, x) := FileCandidate_Commit (pu_asn p) in
      match x with
      | Some x =>
          let! '(c, restoreErr) := FileCandidate_Rollback c in
          let! x := recovered o x [restoreErr] in
          st_ret (with_files c a p, Some x)
      | None => adopt_pair o (with_files c a p)
      end
  end.

Definition Commit (o : ServiceOptions) (p : PreparedUpdate) : G (PreparedUpdate * option error) :=
  let! valid := Valid p in
  if negb valid then st_ret (p, Some (EText "geoip update candidate changed before commit"))
  else
    let! w := st_get in
    if negb (generation (svc w) =? baseGeneration p) then st_ret (p, Some (ESentinel ErrStaleCandidate))
    else
      let! x := closeReadersLocked in
      match x with
      | Some x => st_ret (p, Some x)
      | None => commit_files o p
      end.

(** ** Status and lookups *)

Definition databaseStatus (path : string) (available : bool) (lastErr : option error) (update : string) : G DatabaseStatus :=
  let! r := os_Stat path in
  let updated := match r with Ok x => if n_dir x then None else Some (n_mtime x) | Err _ => None end in
  st_ret (mkDatabaseStatus available updated
            match lastErr with Some _ => "database unavailable"%string | None => update end).

Definition Status : ServiceOptions -> G (DatabaseStatus * DatabaseStatus) := fun o =>
  let! w := st_get in
  let s := svc w in
  let! c := databaseStatus (CountryPath o) (bool_decide (is_Some (country s))) (countryErr s) (updateErr s) in
  let! a := databaseStatus (ASNPath o) (bool_decide (is_Some (asn s))) (asnErr s) (updateErr s) in
  st_ret (c, a).

Definition RecordUpdateError (x : option error) : G unit :=
  set_svc (fun s => mkService (country s) (asn s) (countryErr s) (asnErr s)
                      match x with None => "" | Some _ => "update failed" end%string (generation s)).

Definition Lookup (address : Addr) (s : Service) : result Record_ :=
  if negb (isPublicAddress address) then Err (ESentinel ErrInvalidAddress)
  else match country s, asn s with
       | None, None => Err (ESentinel ErrUnavailable)
       | c, a =>
           match match c with Some db => mmdb_country db address | None => Ok ""%string end with
           | Err x => Err (EFmt "lookup geoip country" x)
           | Ok code =>
               match match a with Some db => mmdb_asn db address | None => Ok (0, ""%string) end with
               | Err x => Err (EFmt "lookup geoip asn" x)
               | Ok (number, organization) => Ok (mkRecord code number organization)
               end
           end
       end.

(** One file is missing, a directory, or too old. *)
Definition outdated (time maxAge : Z) (path : string) : G bool :=
  let! r := os_Stat path in
  st_ret match r with
         | Err _ => true
         | Ok x => n_dir x || (maxAge <=? 0) || (maxAge <=? time - n_mtime x)
         end.

Definition NeedsUpdate (o : ServiceOptions) (time maxAge : Z) : G bool :=
  let! w := st_get in
  match country (svc w), asn (svc w) with
  | Some _, Some _ =>
      let! old := outdated time maxAge (CountryPath o) in
      if old then st_ret true else outdated time maxAge (ASNPath o)
  | _, _ => st_ret true
  end.

(** ** The manager's lookup of a batch *)

Fixpoint lookup_each (s : Service) (seen addresses : list Addr) : result (list Record_) :=
  match addresses with
  | [] => Ok []
  | a :: rest =>
      if bool_decide (a ∈ seen) then lookup_each s seen rest
      else match Lookup a s with
           | Err x =>
               Err (if errors_Is x ErrInvalidAddress
                    then api_error CodeInvalidArgument "geoip lookup accepts public addresses only"
                    else if errors_Is x ErrUnavailable
                    then api_error CodeInvalidState "geoip database is unavailable"
                    else api_error CodeDataFailure "geoip lookup failed")
           | Ok r =>
               match lookup_each s (a :: seen) rest with
               | Err x => Err x
               | Ok l => Ok (r :: l)
               end
           end
  end.

Definition LookupGeoIP (s : option Service) (addresses : list Addr) : result (list Record_) :=
  match s with
  | None => Err (api_error CodeInvalidState "geoip service is unavailable")
  | Some s =>
      if (length addresses =? 0)%nat || (16 <? length addresses)%nat
      then Err (api_error CodeInvalidArgument "geoip lookup requires 1 to 16 addresses")
      else lookup_each s [] addresses
  end.

End GeoIP.
