(* ===== verification/GeoPair.v ===== *)
(** * GeoPair: the two address databases change together

    For every behaviour of the file system, an update of the pair either puts both
    new databases in place or leaves both old ones; where its error says that
    putting one back failed, that one is kept beside its place.  Every lookup is
    answered from a verified database that is the file in place.

    - [touches]: which files a step changes.
    - [taken]: the old file as [os.Stat] reports it.
    - [retained]: the old file is kept beside the new one.
    - [sound]: the readers are verified and are the files in place. *)

From S2P Require Import Prelude GoStd Catalog SelfUpdate GeoIP.

(** ** What the calls do *)

Section Calls.
Context `{MaxMind} `{Sha256} `{SourceSyntax} `{Unicode} (E : env).

(** The service is the same, and the files outside of [ps]. *)
Definition touches (ps : list string) (w w' : world) : Prop :=
  svc w' = svc w /\ forall q, q ∉ ps -> disk w' !! q = disk w !! q.

Lemma touches_refl ps w : touches ps w w.
Proof. done. Qed.

Lemma touches_trans ps w1 w2 w3 : touches ps w1 w2 -> touches ps w2 w3 -> touches ps w1 w3.
Proof. intros [Hs Hd] [Hs' Hd']. split; [by rewrite Hs'|]. intros q Hq. by rewrite Hd', Hd. Qed.

Lemma touches_mono ps qs w w' : ps ⊆ qs -> touches ps w w' -> touches qs w w'.
Proof. intros Hsub [Hs Hd]. split; [done|]. set_solver. Qed.

Lemma touches_disk ps w w' : svc w' = svc w -> disk w' = disk w -> touches ps w w'.
Proof. intros Hs Hd. split; [done|]. intros q _. by rewrite Hd. Qed.

Lemma call_inv w x w' : call E w = (x, w') -> svc w' = svc w /\ disk w' = disk w.
Proof. intros Hc. unfold call, next in Hc. st_unfold. by injection Hc as _ <-. Qed.

(** The file that is at [p], as it is seen: none also when [os.Stat] failed. *)
Definition taken (w : world) (p : string) (old : option node) : Prop :=
  old = disk w !! p \/ old = None /\ exists n f, stat E n = Some f.

Lemma taken_same w w' p old : disk w' !! p = disk w !! p -> taken w' p old -> taken w p old.
Proof. unfold taken. by intros ->. Qed.

Lemma os_Stat_inv p w r w' :
  os_Stat E p w = (r, w') ->
  svc w' = svc w /\ disk w' = disk w /\
  match r with Ok x => disk w !! p = Some x | Err _ => taken w p None end.
Proof.
  intros Hc. unfold os_Stat, next in Hc. st_unfold. simpl in Hc.
  destruct (stat E (tick w)) as [f|] eqn:Hf, (disk w !! p) eqn:Hp; injection Hc as <- <-; split_and!; try done.
  - right. split; [done|]. by exists (tick w), f.
  - by left.
  - by left.
Qed.

Lemma os_ReadFile_inv p w r w' : os_ReadFile E p w = (r, w') ->
  svc w' = svc w /\ disk w' = disk w /\
  forall b, r = Ok b -> exists t, disk w !! p = Some (mkNode false b t).
Proof.
  intros Hc. unfold os_ReadFile, next in Hc. st_unfold. simpl in Hc.
  destruct (disk w !! p) as [[d b t]|] eqn:Hp; [destruct (sys E (tick w)); [|destruct d]|];
    injection Hc as <- <-; (split_and!; [done..|]); intros b'; try done. intros [= <-]. eauto.
Qed.

Lemma failure_present f : errors_Is (failure_error f) ErrNotExist = false.
Proof. by destruct f. Qed.

Lemma remove_existing_inv p w x w' : remove_existing E p w = (x, w') ->
  svc w' = svc w /\ disk w' = match x with None => delete p (disk w) | Some _ => disk w end.
Proof.
  intros Hc. unfold remove_existing, os_Remove, next, set_disk in Hc. st_unfold. simpl in Hc.
  destruct (disk w !! p) eqn:Hp; [destruct (sys E (tick w)) as [f|]|]; simpl in Hc; rewrite ?failure_present in Hc;
    injection Hc as <- <-; (split; [done|]); try done. simpl. symmetry. by apply delete_id.
Qed.

Lemma os_Rename_inv p q w x w' : os_Rename E p q w = (x, w') ->
  svc w' = svc w /\
  match x with
  | None => exists n, disk w !! p = Some n /\ disk w' = <[q := n]> (delete p (disk w))
  | Some _ => disk w' = disk w
  end.
Proof.
  intros Hc. unfold os_Rename, next, set_disk in Hc. st_unfold. simpl in Hc.
  destruct (disk w !! p) as [n|] eqn:Hp; [destruct (sys E (tick w)); [|case_if_in Hc]|];
    injection Hc as <- <-; try done. split; [done|]. eauto.
Qed.

Lemma syncDirectory_inv w x w' : syncDirectory E w = (x, w') -> svc w' = svc w /\ disk w' = disk w.
Proof.
  unfold syncDirectory. case_if; [by intros [= _ <-]|]. intros Hc. apply st_bind_inv in Hc as (y & w1 & Hy & Hc).
  apply call_inv in Hy as [Hs Hd]. destruct y; [by injection Hc as _ <-|].
  apply call_inv in Hc as [Hs' Hd']. split; congruence.
Qed.

Lemma previous_ne p : previous_of p <> p.
Proof.
  unfold previous_of. intros Heq. apply (f_equal String.length) in Heq. rewrite append_length in Heq. simpl in Heq. lia.
Qed.

Lemma joinUpdateRecovery_some primary r rest :
  exists r', joinUpdateRecovery primary (Some r :: rest) = EJoin primary r'.
Proof. unfold joinUpdateRecovery. simpl. destruct (foldr errors_Join None rest); simpl; eauto. Qed.

(** A failure that says that something could not be put back. *)
Definition says_recovery_failed (e : error) : Prop := exists primary recovery, e = EJoin primary recovery.

Lemma joinUpdateRecovery_fails primary l x : Some x ∈ l -> says_recovery_failed (joinUpdateRecovery primary l).
Proof.
  intros Hx. unfold joinUpdateRecovery, says_recovery_failed.
  destruct (foldr errors_Join None l) as [r|] eqn:Hr; [eauto|]. exfalso. revert Hr.
  induction l as [|y l IH]; [by apply not_elem_of_nil in Hx|]. simpl.
  apply elem_of_cons in Hx as [<-|Hx]; [by destruct (foldr errors_Join None l)|].
  destruct y, (foldr errors_Join None l); try done. auto.
Qed.

Lemma joinUpdateRecovery_keeps primary l :
  says_recovery_failed primary -> says_recovery_failed (joinUpdateRecovery primary l).
Proof. intros Hp. unfold joinUpdateRecovery. destruct (foldr errors_Join None l); [by eexists _, _|done]. Qed.

(** *** One file *)

(** The file [old] is kept beside the active one. *)
Definition retained (c : FileCandidate) (old : option node) (w : world) : Prop :=
  committed c = true /\ hadPrevious c = bool_decide (is_Some old) /\ disk w !! previous_of (destination c) = old.

Definition places (c : FileCandidate) : list string := [destination c; previous_of (destination c)].

Lemma Rollback_inv c w c' x w' :
  FileCandidate_Rollback E c w = ((c', x), w') ->
  destination c' = destination c /\ touches (places c) w w' /\
  (forall old, retained c old w ->
     disk w' !! destination c = old \/ disk w' !! previous_of (destination c) = old /\ exists e, x = Some e).
Proof.
  unfold FileCandidate_Rollback. destruct (committed c) eqn:Hc; simpl.
  2: { intros [= <- <- <-]. split_and!; [done..|]. intros old (Hn & _). congruence. }
  intros Hr. apply st_bind_inv in Hr as (y & w1 & Hy & Hr). apply remove_existing_inv in Hy as [Hs1 Hd1].
  assert (Hne := previous_ne (destination c)).
  assert (Ht1 : touches (places c) w w1).
  { split; [done|]. intros q Hq. rewrite Hd1. unfold places in Hq. destruct y; [done|].
    rewrite lookup_delete_ne; [done|set_solver]. }
  destruct y as [y|].
  { injection Hr as <- <- <-. split_and!; [done..|]. intros old (_ & _ & Hp). right. rewrite Hd1. eauto. }
  apply st_bind_inv in Hr as (y & w2 & Hy & Hr).
  assert (Hback : touches (places c) w1 w2 /\ forall old, retained c old w ->
    match y with None => disk w2 !! destination c = old | Some _ => disk w2 !! previous_of (destination c) = old end).
  { destruct (hadPrevious c) eqn:Hh.
    - apply os_Rename_inv in Hy as [Hs2 Hd2]. split.
      + split; [done|]. intros q Hq. destruct y; [by rewrite Hd2|]. destruct Hd2 as (n & _ & ->).
        unfold places in Hq. rewrite lookup_insert_ne, lookup_delete_ne; [done|set_solver..].
      + intros old (_ & _ & Hp). destruct y as [y|]; [by rewrite Hd2, Hd1, lookup_delete_ne|].
        destruct Hd2 as (n & Hn & ->). rewrite lookup_insert_eq.
        rewrite Hd1, lookup_delete_ne in Hn by done. congruence.
    - injection Hy as <- <-. split; [done|]. intros old (_ & Ho & _). rewrite Hh in Ho.
      symmetry in Ho. apply bool_decide_eq_false in Ho. rewrite Hd1, lookup_delete_eq. destruct old; [|done].
      exfalso. apply Ho. eauto. }
  destruct Hback as [Ht2 Ho]. destruct y as [y|].
  { injection Hr as <- <- <-. split_and!; [done|by eapply touches_trans|]. intros old Hold%Ho. right. eauto. }
  apply st_bind_inv in Hr as (y3 & w3 & Hy3 & Hr). apply syncDirectory_inv in Hy3 as [Hs3 Hd3].
  injection Hr as <- <- <-. split_and!; [done|eapply touches_trans; [done|]; eapply touches_trans; [done|by apply touches_disk]|].
  intros old Hold. left. rewrite Hd3. by apply Ho.
Qed.

(** The files an activation moves. *)
Definition moved (c : FileCandidate) : list string := fc_staged c :: places c.

(** After the failure [e] the file [old] is in its place, or [e] says that it could
    not be put back and it is kept beside. *)
Definition kept_at (p : string) (old : option node) (e : error) (w : world) : Prop :=
  disk w !! p = old \/ disk w !! previous_of p = old /\ says_recovery_failed e.

Lemma kept_at_same p old e e' w w' :
  disk w' !! p = disk w !! p -> disk w' !! previous_of p = disk w !! previous_of p ->
  (says_recovery_failed e -> says_recovery_failed e') -> kept_at p old e w -> kept_at p old e' w'.
Proof. unfold kept_at. intros -> -> He [Hk|[Hk Hs]]; auto. Qed.

(** What the activation of one file gives, from the disk [w] before. *)
Definition file_activated (c : FileCandidate) (old : option node) (w w' : world) (c' : FileCandidate) (x : option error) : Prop :=
  destination c' = destination c /\ touches (moved c) w w' /\
  match x with
  | None => retained c' old w' /\ disk w' !! destination c = disk w !! fc_staged c
  | Some e => kept_at (destination c) old e w'
  end.

Lemma moved_places c : places c ⊆ moved c.
Proof. intros q Hq. by right. Qed.

Lemma activate_file_inv c w c' x w' :
  let old := disk w !! previous_of (destination c) in
  fc_staged c ∉ places c -> hadPrevious c = bool_decide (is_Some old) ->
  activate_file E c w = ((c', x), w') -> file_activated c old w w' c' x.
Proof.
  intros old Hst Hh Ha. assert (Hne := previous_ne (destination c)).
  unfold places in Hst. rewrite not_elem_of_cons, list_elem_of_singleton in Hst. destruct Hst as [Hsd Hsp].
  unfold activate_file in Ha. apply st_bind_inv in Ha as (y & w1 & Hy & Ha). apply os_Rename_inv in Hy as [Hs1 Hd1].
  destruct y as [y|].
  - apply st_bind_inv in Ha as (z & w2 & Hz & Ha). apply os_Rename_inv in Hz as [Hs2 Hd2]. injection Ha as <- <- <-.
    destruct z as [z|].
    + split_and!; [done|apply touches_disk; congruence|]. right. split; [by rewrite Hd2, Hd1|].
      destruct (joinUpdateRecovery_some (EFmt "activate geoip database" y) z []) as [r ->]. by eexists _, _.
    + destruct Hd2 as (n & Hn & Hd2). rewrite Hd1 in Hn. split_and!; [done| |].
      * split; [congruence|]. intros q Hq. unfold moved, places in Hq.
        rewrite Hd2, lookup_insert_ne, lookup_delete_ne, Hd1; [done|set_solver..].
      * left. rewrite Hd2, lookup_insert_eq. unfold old. congruence.
  - destruct Hd1 as (n & Hn & Hd1).
    assert (Ht1 : touches (moved c) w w1).
    { split; [done|]. intros q Hq. unfold moved, places in Hq.
      rewrite Hd1, lookup_insert_ne, lookup_delete_ne; [done|set_solver..]. }
    assert (Hret : retained (set_staged_path "" (set_committed true c)) old w1).
    { split_and!; [done|done|]. simpl. rewrite Hd1, lookup_insert_ne, lookup_delete_ne; [done|congruence..]. }
    apply st_bind_inv in Ha as (z & w2 & Hz & Ha). apply syncDirectory_inv in Hz as [Hs2 Hd2].
    destruct z as [z|].
    + apply st_bind_inv in Ha as ([c2 r] & w3 & Hr & Ha). injection Ha as <- <- <-.
      apply Rollback_inv in Hr as (Hdst & Ht3 & Hold). split_and!; [done| |].
      * eapply touches_trans; [done|]. eapply touches_trans; [by apply touches_disk|].
        eapply touches_mono; [|done]. apply (moved_places c).
      * destruct (Hold old) as [Hback|[Hback [er ->]]]; [unfold retained; by rewrite Hd2|by left|]. right. split; [done|].
        destruct (joinUpdateRecovery_some (EFmt "sync geoip directory" z) er []) as [r' ->]. by eexists _, _.
    + injection Ha as <- <- <-. split; [done|]. split; [eapply touches_trans; [done|by apply touches_disk]|].
      split; [unfold retained; by rewrite Hd2|]. rewrite Hd2, Hd1, lookup_insert_eq. done.
Qed.

Lemma Commit_file_inv c w c' x w' :
  fc_staged c ∉ places c -> hadPrevious c = false ->
  FileCandidate_Commit E c w = ((c', x), w') ->
  exists old, taken w (destination c) old /\ file_activated c old w w' c' x.
Proof.
  intros Hst Hh Hc. assert (Hne := previous_ne (destination c)).
  assert (Hst' := Hst). unfold places in Hst'. rewrite not_elem_of_cons, list_elem_of_singleton in Hst'. destruct Hst' as [Hsd Hsp].
  assert (Hstop : forall e w1, disk w1 !! destination c = disk w !! destination c ->
            touches (moved c) w w1 -> forall c1, destination c1 = destination c ->
            exists old, taken w (destination c) old /\ file_activated c old w w1 c1 (Some e)).
  { intros e w1 Hd Ht c1 Hc1. exists (disk w !! destination c). split; [by left|]. split_and!; [done..|]. by left. }
  unfold FileCandidate_Commit in Hc. case_if_in Hc; [injection Hc as <- <- <-; by apply Hstop|].
  apply st_bind_inv in Hc as (y & w1 & Hy & Hc). apply call_inv in Hy as [Hs1 Hd1].
  destruct y as [y|]; [injection Hc as <- <- <-; apply Hstop; rewrite ?Hd1; try done; by apply touches_disk|].
  apply st_bind_inv in Hc as (z & w2 & Hz & Hc). apply remove_existing_inv in Hz as [Hs2 Hd2].
  assert (Hd2' : disk w2 !! destination c = disk w !! destination c).
  { rewrite Hd2. destruct z; rewrite ?lookup_delete_ne, Hd1; done. }
  assert (Ht2 : touches (moved c) w w2).
  { split; [congruence|]. intros q Hq. unfold moved, places in Hq. rewrite Hd2.
    destruct z; rewrite ?lookup_delete_ne, Hd1; [done..|set_solver]. }
  destruct z as [z|]; [injection Hc as <- <- <-; by apply Hstop|].
  apply st_bind_inv in Hc as (found & w3 & Hf & Hc). apply os_Stat_inv in Hf as (Hs3 & Hd3 & Hf).
  assert (Ht3 : touches (moved c) w w3) by (eapply touches_trans; [done|by apply touches_disk]).
  assert (Hst3 : disk w3 !! fc_staged c = disk w !! fc_staged c).
  { rewrite Hd3, Hd2, lookup_delete_ne, Hd1 by congruence. done. }
  destruct found as [n|e0].
  - exists (disk w !! destination c). apply st_bind_inv in Hc as (y & w4 & Hy & Hc). apply os_Rename_inv in Hy as [Hs4 Hd4]. simpl in Hd4.
    destruct y as [y|].
    { injection Hc as <- <- <-. split; [by left|]. split; [done|]. split; [eapply touches_trans; [done|by apply touches_disk]|].
      left. congruence. }
    split; [by left|]. destruct Hd4 as (n' & Hn' & Hd4).
    assert (Hp4 : disk w4 !! previous_of (destination c) = disk w !! destination c).
    { rewrite Hd4, lookup_insert_eq. congruence. }
    apply (activate_file_inv (set_hadPrevious true c)) in Hc; [|done|].
    + destruct Hc as (Hdst & Ht & Hx). simpl in *. rewrite Hp4 in Hx. split; [done|]. split.
      * eapply touches_trans; [exact Ht3|]. eapply touches_trans; [|done]. split; [done|].
        intros q Hq. unfold moved, places in Hq. rewrite Hd4, lookup_insert_ne, lookup_delete_ne; [done|set_solver..].
      * destruct x; [done|]. destruct Hx as [Hx ->]. split; [done|].
        rewrite Hd4, lookup_insert_ne, lookup_delete_ne; [done|congruence..].
    + simpl. rewrite Hp4, <- Hd2', Hf. by rewrite bool_decide_eq_true_2 by eauto.
  - exists None. split; [by eapply taken_same|].
    assert (Hp3 : disk w3 !! previous_of (destination c) = None) by (rewrite Hd3, Hd2; apply lookup_delete_eq).
    apply activate_file_inv in Hc; [|done|].
    + destruct Hc as (Hdst & Ht & Hx). rewrite Hp3 in Hx. split; [done|]. split; [by eapply touches_trans|].
      destruct x; [done|]. destruct Hx as [Hx ->]. done.
    + by rewrite Hp3, Hh.
Qed.

(** *** Readers *)

(** The reader [r] has the verified database open that is the file [p]. *)
Definition reads (p : string) (r : option string) (w : world) : Prop :=
  forall b, r = Some b ->
  mmdb_Open b = None /\ mmdb_Verify b = None /\ exists t, disk w !! p = Some (mkNode false b t).

Definition sound (o : ServiceOptions) (w : world) : Prop :=
  reads (CountryPath o) (country (svc w)) w /\ reads (ASNPath o) (asn (svc w)) w.

Lemma reads_none p w : reads p None w.
Proof. by intros b. Qed.

Lemma reads_disk p r w w' : disk w' = disk w -> reads p r w -> reads p r w'.
Proof. intros Hd Hr b Hb. rewrite Hd. by apply Hr. Qed.

Lemma sound_same o w w' : svc w' = svc w -> disk w' = disk w -> sound o w -> sound o w'.
Proof. intros Hs Hd [Hc Ha]. unfold sound. rewrite Hs. split; by eapply reads_disk. Qed.

Lemma openDatabase_inv p w r w' : openDatabase E p w = (r, w') ->
  svc w' = svc w /\ disk w' = disk w /\ reads p (reader_of r) w'.
Proof.
  unfold openDatabase. case_if; [intros [= <- <-]; split_and!; [done..|apply reads_none]|].
  intros Hr. apply st_bind_inv in Hr as (x & w1 & Hx & Hr). apply os_ReadFile_inv in Hx as (Hs & Hd & Hb).
  destruct x as [raw|e]; [|injection Hr as <- <-; split_and!; [done..|apply reads_none]].
  destruct (mmdb_Open raw) eqn:Ho; [injection Hr as <- <-; split_and!; [done..|apply reads_none]|].
  destruct (mmdb_Verify raw) eqn:Hv.
  - apply st_bind_inv in Hr as (y & w2 & Hy & Hr). apply call_inv in Hy as [Hs2 Hd2]. injection Hr as <- <-.
    split_and!; [congruence..|]. destruct y; apply reads_none.
  - injection Hr as <- <-. split_and!; [done..|]. intros b [= <-]. rewrite Hd. auto.
Qed.

Lemma open_pair_inv o w c a w' : open_pair E o w = ((c, a), w') ->
  svc w' = svc w /\ disk w' = disk w /\ reads (CountryPath o) (reader_of c) w' /\ reads (ASNPath o) (reader_of a) w'.
Proof.
  intros Hp. unfold open_pair in Hp. apply st_bind_inv in Hp as (c1 & w1 & Hc & Hp).
  apply st_bind_inv in Hp as (a1 & w2 & Ha & Hp). injection Hp as -> -> ->.
  apply openDatabase_inv in Hc as (Hs1 & Hd1 & Hr1). apply openDatabase_inv in Ha as (Hs2 & Hd2 & Hr2).
  split_and!; [congruence..| |done]. by eapply reads_disk.
Qed.

Lemma closeReaders_inv w x w' : closeReadersLocked E w = (x, w') ->
  disk w' = disk w /\ generation (svc w') = generation (svc w) /\ country (svc w') = None /\ asn (svc w') = None.
Proof.
  intros Hc. unfold closeReadersLocked, call, next, set_svc in Hc. st_unfold. simpl in Hc.
  destruct (country (svc w)) eqn:Hcn, (asn (svc w)) eqn:Han; simpl in Hc; injection Hc as _ <-; done.
Qed.

(** After a failure: the readers are sound whatever happened before. *)
Lemma recovered_inv o primary l w x w' : recovered E o primary l w = (x, w') ->
  disk w' = disk w /\ generation (svc w') = generation (svc w) /\ sound o w' /\
  (says_recovery_failed primary -> says_recovery_failed x) /\
  (forall e, Some e ∈ l -> says_recovery_failed x).
Proof.
  intros Hr. unfold recovered, reopenLocked in Hr. apply st_bind_inv in Hr as ([] & w1 & H1' & Hr).
  apply st_bind_inv in H1' as ([c a] & w0 & Hp & Hs). apply open_pair_inv in Hp as (Hs0 & Hd0 & Hrc & Hra).
  unfold set_svc, st_modify in Hs. injection Hs as <-. unfold st_bind, st_get, st_ret in Hr. injection Hr as <- <-.
  split; [done|]. split; [by rewrite <- Hs0|]. split; [split; eapply (reads_disk _ _ w0); done|].
  split; [apply joinUpdateRecovery_keeps|]. intros e He. apply (joinUpdateRecovery_fails _ _ e). apply elem_of_app. by left.
Qed.

Lemma Valid_file_inv c w v w' : FileCandidate_Valid E c w = (v, w') ->
  svc w' = svc w /\ disk w' = disk w /\
  (v = true -> exists b t, disk w !! fc_staged c = Some (mkNode false b t) /\ sha256 b = fc_digest c).
Proof.
  unfold FileCandidate_Valid. case_if; [by intros [= <- <-]|]. intros Hr.
  apply st_bind_inv in Hr as (x & w1 & Hx & Hr). apply os_ReadFile_inv in Hx as (Hs & Hd & Hb). injection Hr as <- <-.
  split_and!; [done..|]. destruct x as [raw|]; [|done]. intros Hv. breflect.
  destruct (Hb raw eq_refl) as [t Ht]. eauto.
Qed.

(** *** The pair *)

(** The candidates of an update of the service's databases; all names differ. *)
Record prepared_for (o : ServiceOptions) (p : PreparedUpdate) : Prop := {
  pf_country : destination (pu_country p) = CountryPath o;
  pf_asn : destination (pu_asn p) = ASNPath o;
  pf_country_new : hadPrevious (pu_country p) = false;
  pf_asn_new : hadPrevious (pu_asn p) = false;
  pf_apart : NoDup (moved (pu_country p) ++ moved (pu_asn p))
}.

(** The outcome of an error: the files [oc] and [oa] are in place, or kept beside. *)
Definition put_back (o : ServiceOptions) (oc oa : option node) (e : error) (w : world) : Prop :=
  kept_at (CountryPath o) oc e w /\ kept_at (ASNPath o) oa e w.

(** The files outside of [ps] are the same. *)
Definition same_but (ps : list string) (w w' : world) : Prop := forall q, q ∉ ps -> disk w' !! q = disk w !! q.

Lemma same_but_touches ps qs w w' : ps ⊆ qs -> touches ps w w' -> same_but qs w w'.
Proof. intros Hsub [_ Hd] q Hq. apply Hd. set_solver. Qed.

Lemma same_but_trans ps w1 w2 w3 : same_but ps w1 w2 -> same_but ps w2 w3 -> same_but ps w1 w3.
Proof. intros Ha Hb q Hq. by rewrite Hb, Ha. Qed.

Lemma same_but_disk ps w w' : disk w' = disk w -> same_but ps w w'.
Proof. intros Hd q _. by rewrite Hd. Qed.

Lemma close_opened_inv r w x w' : close_opened E r w = (x, w') -> svc w' = svc w /\ disk w' = disk w.
Proof. destruct r; simpl; [apply call_inv|by intros [= _ <-]]. Qed.

(** The part of [adopt] that puts the old files back. *)
Lemma roll_pair_back o c a oc oa w fa xa w1 fc xc w2 primary l x w3 :
  destination c = CountryPath o -> destination a = ASNPath o ->
  destination c ∉ places a -> previous_of (destination c) ∉ places a -> destination a ∉ places c ->
  previous_of (destination a) ∉ places c ->
  retained c oc w -> retained a oa w ->
  FileCandidate_Rollback E a w = ((fa, xa), w1) -> FileCandidate_Rollback E c w1 = ((fc, xc), w2) ->
  recovered E o primary (l ++ [xa; xc]) w2 = (x, w3) ->
  put_back o oc oa x w3 /\ generation (svc w3) = generation (svc w) /\ sound o w3 /\
  same_but (places c ++ places a) w w3.
Proof.
  intros Hdc Hda Hca Hpa Hac Hpc Hrc Hra Ha Hc Hx.
  apply Rollback_inv in Ha as (_ & Hta & Hoa). apply Rollback_inv in Hc as (_ & Htc & Hoc).
  apply recovered_inv in Hx as (Hd3 & Hg & Hsound & _ & Hl). split; [|split; [|split; [done|]]].
  - unfold put_back, kept_at. rewrite <- Hdc, <- Hda, Hd3. split.
    + destruct (Hoc oc) as [Hb|[Hb [ec ->]]]; [|by left|right; split; [done|]; eapply (Hl ec); set_solver].
      destruct Hrc as (? & ? & Hp). split_and!; [done..|]. by rewrite (proj2 Hta).
    + rewrite !(proj2 Htc) by done.
      destruct (Hoa oa) as [Hb|[Hb [ea ->]]]; [done|by left|right; split; [done|]; eapply (Hl ea); set_solver].
  - by rewrite Hg, (proj1 Htc), (proj1 Hta).
  - eapply same_but_trans; [eapply same_but_touches, Hta; by apply list_subseteq_app_r|].
    eapply same_but_trans; [eapply same_but_touches, Htc; by apply list_subseteq_app_l|by apply same_but_disk].
Qed.

(** Both files of the pair were replaced, and the old ones are retained. *)
Record replaced (o : ServiceOptions) (p : PreparedUpdate) (oc oa : option node) (w : world) : Prop := {
  rp_country : destination (pu_country p) = CountryPath o;
  rp_asn : destination (pu_asn p) = ASNPath o;
  rp_apart : (destination (pu_country p) ∉ places (pu_asn p)) /\
             (previous_of (destination (pu_country p)) ∉ places (pu_asn p)) /\
             (destination (pu_asn p) ∉ places (pu_country p)) /\
             (previous_of (destination (pu_asn p)) ∉ places (pu_country p));
  rp_old_country : retained (pu_country p) oc w;
  rp_old_asn : retained (pu_asn p) oa w
}.

Definition pair_places (p : PreparedUpdate) : list string := places (pu_country p) ++ places (pu_asn p).

Lemma withdraw_inv o p oc oa c a w p' x w' :
  replaced o p oc oa w -> withdraw E o p c a w = ((p', x), w') ->
  sound o w' /\ same_but (pair_places p) w w' /\
  exists e, x = Some e /\ generation (svc w') = generation (svc w) /\ put_back o oc oa e w'.
Proof.
  intros [Hdc Hda (Hca & Hpa & Hac & Hpc) Hrc Hra] Hf. unfold withdraw in Hf.
  apply st_bind_inv in Hf as (c1 & w2 & Hw2 & Hf). apply close_opened_inv in Hw2 as [Hs2 Hd2].
  apply st_bind_inv in Hf as (c2 & w3 & Hw3 & Hf). apply close_opened_inv in Hw3 as [Hs3 Hd3].
  apply st_bind_inv in Hf as ([fa xa] & w4 & Hw4 & Hf). apply st_bind_inv in Hf as ([fc xc] & w5 & Hw5 & Hf).
  apply st_bind_inv in Hf as (e & w6 & Hw6 & Hf). injection Hf as <- <- <-.
  assert (Hd : disk w3 = disk w) by congruence.
  eapply (roll_pair_back o _ _ oc oa w3 _ _ _ _ _ _ _ [errors_Join c1 c2]) in Hw6
    as (Hback & Hg & Hsd & Hsb); [|try done..].
  - split; [done|]. split; [intros q Hq; rewrite Hsb, Hd; done|]. eexists. split_and!; [done| |done]. rewrite Hg. congruence.
  - unfold retained. by rewrite Hd.
  - unfold retained. by rewrite Hd.
Qed.

Lemma adopt_pair_inv o p oc oa w p' x w' :
  replaced o p oc oa w -> adopt_pair E o p w = ((p', x), w') ->
  sound o w' /\ same_but (pair_places p) w w' /\
  match x with
  | None => disk w' = disk w /\ generation (svc w') = uint64 (generation (svc w) + 1) /\
            is_Some (country (svc w')) /\ is_Some (asn (svc w'))
  | Some e => generation (svc w') = generation (svc w) /\ put_back o oc oa e w'
  end.
Proof.
  intros Hrep Had. unfold adopt_pair in Had. apply st_bind_inv in Had as ([rc ra] & w1 & Hp & Had).
  apply open_pair_inv in Hp as (Hs1 & Hd1 & Hr1 & Hr2).
  assert (Hrep1 : replaced o p oc oa w1).
  { destruct Hrep as [? ? ? ? ?]. constructor; [done..| |]; unfold retained; by rewrite Hd1. }
  destruct rc as [bc|ec], ra as [ba|ea].
  1: { unfold set_svc in Had. st_unfold. injection Had as <- <- <-. simpl. split; [|split; [by apply same_but_disk|]].
    - split; by eapply (reads_disk _ _ w1).
    - by rewrite Hs1. }
  all: eapply withdraw_inv in Had as (Hsd & Hsb & e & -> & Hg & Hback); [|done].
  all: rewrite Hs1 in Hg; split_and!; try done; eapply same_but_trans; [by apply same_but_disk|done].
Qed.

(** The new file of [c] is in place and open, [old] is kept. *)
Definition in_place (c : FileCandidate) (old : option node) (reader : option string) (w w' : world) : Prop :=
  exists b t, disk w !! fc_staged c = Some (mkNode false b t) /\ sha256 b = fc_digest c /\
    disk w' !! destination c = Some (mkNode false b t) /\ reader = Some b /\
    disk w' !! previous_of (destination c) = old.

Definition pair_moved (p : PreparedUpdate) : list string := moved (pu_country p) ++ moved (pu_asn p).

(** What an update of the pair may come to. *)
Definition pair_outcome (o : ServiceOptions) (p : PreparedUpdate) (w w' : world) (x : option error) : Prop :=
  sound o w' /\ same_but (pair_moved p) w w' /\
  exists oc oa, taken w (CountryPath o) oc /\ taken w (ASNPath o) oa /\
  match x with
  | None => in_place (pu_country p) oc (country (svc w')) w w' /\ in_place (pu_asn p) oa (asn (svc w')) w w' /\
            generation (svc w') = uint64 (generation (svc w) + 1)
  | Some e => generation (svc w') = generation (svc w) /\ put_back o oc oa e w'
  end.

Lemma moved_apart c a : NoDup (moved c ++ moved a) ->
  (fc_staged c ∉ places c) /\ (fc_staged a ∉ places a) /\
  (forall q, q ∈ moved c -> q ∉ moved a).
Proof.
  intros Hn. apply NoDup_app in Hn as (Hc & Hca & Ha). apply NoDup_cons in Hc as [Hc _]. apply NoDup_cons in Ha as [Ha _].
  done.
Qed.

Lemma places_same c c' : destination c' = destination c -> places c' = places c.
Proof. unfold places. by intros ->. Qed.

(** A file that an activation does not move. *)
Lemma activated_other c old w w' c' x q : file_activated c old w w' c' x -> q ∉ moved c -> disk w' !! q = disk w !! q.
Proof. intros (_ & [_ Hd] & _). apply Hd. Qed.

Lemma retained_same c old w w' :
  disk w' !! previous_of (destination c) = disk w !! previous_of (destination c) -> retained c old w -> retained c old w'.
Proof. intros Hd (? & ? & Hp). split_and!; [done..|]. by rewrite Hd. Qed.

(** The pair once both files were activated. *)
Lemma both_activated o p oc oa c' a' w w1 w2 :
  prepared_for o p -> file_activated (pu_country p) oc w w1 c' None -> file_activated (pu_asn p) oa w1 w2 a' None ->
  replaced o (with_files c' a' p) oc oa w2.
Proof.
  intros [Hdc Hda _ _ Hap] Hc Ha. apply moved_apart in Hap as (_ & _ & Hap).
  assert (Hprev : previous_of (destination (pu_country p)) ∉ moved (pu_asn p)) by (apply Hap; by right; right; left).
  assert (Hdst : destination (pu_country p) ∉ moved (pu_asn p)) by (apply Hap; by right; left).
  destruct Hc as (Hc1 & _ & Hrc & _). destruct (id Ha) as (Ha1 & _ & Hra & _).
  constructor; simpl; rewrite ?Hc1, ?Ha1, ?(places_same _ _ Hc1), ?(places_same _ _ Ha1); [done|done| | |done].
  - split_and!.
    + intros Hin. apply Hdst. by right.
    + intros Hin. apply Hprev. by right.
    + intros Hin. apply (Hap (destination (pu_asn p))); [by right|]. by right; left.
    + intros Hin. apply (Hap (previous_of (destination (pu_asn p)))); [by right|]. by right; right; left.
  - eapply retained_same; [|done]. rewrite Hc1. by eapply activated_other.
Qed.

(** The second file is where it was while the first is activated. *)
Lemma asn_untouched o p oc c' w w1 x :
  prepared_for o p -> file_activated (pu_country p) oc w w1 c' x -> disk w1 !! ASNPath o = disk w !! ASNPath o.
Proof.
  intros [Hdc Hda _ _ Hap] Hc. apply moved_apart in Hap as (_ & _ & Hap).
  eapply activated_other; [done|]. rewrite <- Hda. intros Hin. eapply Hap; [done|]. by right; left.
Qed.

Lemma Valid_inv p w v w' : Valid E p w = (v, w') ->
  svc w' = svc w /\ disk w' = disk w /\
  (v = true -> (exists b t, disk w !! fc_staged (pu_country p) = Some (mkNode false b t) /\ sha256 b = fc_digest (pu_country p)) /\
               (exists b t, disk w !! fc_staged (pu_asn p) = Some (mkNode false b t) /\ sha256 b = fc_digest (pu_asn p))).
Proof.
  intros Hv. unfold Valid in Hv. apply st_bind_inv in Hv as (v1 & w1 & Hv1 & Hv).
  apply Valid_file_inv in Hv1 as (Hs1 & Hd1 & Hc). destruct v1; [|by injection Hv as <- <-].
  apply Valid_file_inv in Hv as (Hs2 & Hd2 & Ha). rewrite Hd1 in Ha. split_and!; [congruence..|]. auto.
Qed.

Lemma pair_unchanged o p w w' e :
  sound o w' -> disk w' = disk w -> generation (svc w') = generation (svc w) -> pair_outcome o p w w' (Some e).
Proof.
  intros Hs Hd Hg. split; [done|]. split; [by apply same_but_disk|]. exists (disk w !! CountryPath o), (disk w !! ASNPath o).
  split; [by left|]. split; [by left|]. split; [done|]. split; left; by rewrite Hd.
Qed.

(** The first file failed: the second one was not touched. *)
Lemma country_failed o p oc c' e w w1 x w2 :
  prepared_for o p -> taken w (CountryPath o) oc -> file_activated (pu_country p) oc w w1 c' (Some e) ->
  recovered E o e [] w1 = (x, w2) -> pair_outcome o p w w2 (Some x).
Proof.
  intros Hp Hoc Hact Hr. assert (Hasn := asn_untouched _ _ _ _ _ _ _ Hp Hact).
  apply recovered_inv in Hr as (Hd & Hg & Hs & Hkeep & _). destruct (id Hact) as (_ & Ht & Hx). rewrite (pf_country _ _ Hp) in Hx.
  split; [done|]. split.
  { eapply same_but_trans; [eapply same_but_touches, Ht; by apply list_subseteq_app_l|by apply same_but_disk]. }
  exists oc, (disk w !! ASNPath o). split; [done|]. split; [by left|]. split; [by rewrite Hg, (proj1 Ht)|]. split.
  - eapply kept_at_same, Hx; [by rewrite Hd..|done].
  - left. by rewrite Hd.
Qed.

(** The second file failed: the first one is put back. *)
Lemma asn_failed o p oc oa c' a' e w w1 w2 c2 xr w3 x w4 :
  prepared_for o p -> taken w (CountryPath o) oc -> taken w (ASNPath o) oa ->
  file_activated (pu_country p) oc w w1 c' None -> file_activated (pu_asn p) oa w1 w2 a' (Some e) ->
  FileCandidate_Rollback E c' w2 = ((c2, xr), w3) -> recovered E o e [xr] w3 = (x, w4) ->
  pair_outcome o p w w4 (Some x).
Proof.
  intros [Hdc Hda _ _ Hap] Htc Hta Hc Ha Hroll Hr. apply moved_apart in Hap as (_ & _ & Hap).
  apply recovered_inv in Hr as (Hd & Hg & Hs & Hkeep & Hl). apply Rollback_inv in Hroll as (_ & Ht3 & Hold).
  destruct (id Hc) as (Hc1 & Ht1 & Hrc & _). destruct (id Ha) as (_ & Ht2 & Hx). rewrite (places_same _ _ Hc1), Hc1 in *.
  assert (Hother : forall q, q ∈ places (pu_asn p) -> q ∉ places (pu_country p)).
  { intros q Hq Hin. apply (Hap q); by right. }
  split; [done|]. split.
  { eapply same_but_trans; [eapply same_but_touches, Ht1; by apply list_subseteq_app_l|].
    eapply same_but_trans; [eapply same_but_touches, Ht2; by apply list_subseteq_app_r|].
    eapply same_but_trans; [eapply same_but_touches, Ht3|by apply same_but_disk].
    apply list_subseteq_app_l, moved_places. }
  exists oc, oa. split; [done|]. split; [done|]. split; [by rewrite Hg, (proj1 Ht3), (proj1 Ht2), (proj1 Ht1)|].
  split; unfold kept_at; rewrite Hd.
  - rewrite <- Hdc. destruct (Hold oc) as [Hb|[Hb [er ->]]]; [|by left|right; split; [done|]; apply (Hl er); by left].
    eapply retained_same; [|exact Hrc]. rewrite Hc1. eapply activated_other; [done|]. apply Hap. by right; right; left.
  - rewrite <- Hda. rewrite !(proj2 Ht3) by (apply Hother; unfold places; set_solver).
    destruct Hx as [Hx|[Hx He]]; [by left|right; auto].
Qed.

(** Both files were activated. *)
Lemma pair_adopted o p oc oa c' a' w w1 w2 p' x w3 :
  prepared_for o p -> taken w (CountryPath o) oc -> taken w (ASNPath o) oa ->
  (exists b t, disk w !! fc_staged (pu_country p) = Some (mkNode false b t) /\ sha256 b = fc_digest (pu_country p)) ->
  (exists b t, disk w !! fc_staged (pu_asn p) = Some (mkNode false b t) /\ sha256 b = fc_digest (pu_asn p)) ->
  file_activated (pu_country p) oc w w1 c' None -> file_activated (pu_asn p) oa w1 w2 a' None ->
  adopt_pair E o (with_files c' a' p) w2 = ((p', x), w3) -> pair_outcome o p w w3 x.
Proof.
  intros Hp Htc Hta (bc & tc & Hbc & Hdgc) (ba & ta & Hba & Hdga) Hc Ha Had.
  assert (Hrep := both_activated _ _ _ _ _ _ _ _ _ Hp Hc Ha). eapply adopt_pair_inv in Had as (Hs & Hsb & Hx); [|done].
  destruct Hp as [Hdc Hda _ _ Hap]. apply moved_apart in Hap as (_ & _ & Hap).
  destruct (id Hc) as (Hc1 & Ht1 & (_ & _ & Hpc) & Hnc). destruct (id Ha) as (Ha1 & Ht2 & _ & Hna).
  assert (Hg : generation (svc w2) = generation (svc w)) by by rewrite (proj1 Ht2), (proj1 Ht1).
  change (pair_places (with_files c' a' p)) with (places c' ++ places a') in Hsb. rewrite (places_same _ _ Hc1), (places_same _ _ Ha1) in Hsb.
  split; [done|]. split.
  { eapply same_but_trans; [eapply same_but_touches, Ht1; by apply list_subseteq_app_l|].
    eapply same_but_trans; [eapply same_but_touches, Ht2; by apply list_subseteq_app_r|].
    intros q Hq. apply Hsb. intros Hin. apply Hq. apply elem_of_app in Hin as [Hin|Hin];
      apply elem_of_app; [left|right]; by apply moved_places. }
  exists oc, oa. split; [done|]. split; [done|].
  destruct x as [e|]; [by rewrite <- Hg|]. destruct Hx as (Hd3 & Hg3 & [rc Hrc] & [ra Hra]).
  destruct Hs as [Hsc Hsa]. destruct (Hsc rc Hrc) as (_ & _ & tc' & Hfc). destruct (Hsa ra Hra) as (_ & _ & ta' & Hfa).
  destruct Hrep as [_ _ _ (_ & _ & Hp1) (_ & _ & Hp2)]. simpl in Hp1, Hp2. rewrite Hc1 in Hp1. rewrite Ha1 in Hp2.
  assert (Hcp : disk w3 !! destination (pu_country p) = Some (mkNode false bc tc)).
  { rewrite Hd3, (activated_other _ _ _ _ _ _ _ Ha), Hnc; [done|]. apply Hap. by right; left. }
  assert (Hap' : disk w3 !! destination (pu_asn p) = Some (mkNode false ba ta)).
  { rewrite Hd3, Hna, (activated_other _ _ _ _ _ _ _ Hc); [done|]. intros Hin. eapply Hap; [done|]. by left. }
  split; [|split; [|congruence]].
  - exists bc, tc. split_and!; [done..| |]; [rewrite Hdc in Hcp; congruence|by rewrite Hd3, Hp1].
  - exists ba, ta. split_and!; [done..| |]; [rewrite Hda in Hap'; congruence|by rewrite Hd3, Hp2].
Qed.

Lemma commit_files_inv o p w p' x w' :
  prepared_for o p ->
  (exists b t, disk w !! fc_staged (pu_country p) = Some (mkNode false b t) /\ sha256 b = fc_digest (pu_country p)) ->
  (exists b t, disk w !! fc_staged (pu_asn p) = Some (mkNode false b t) /\ sha256 b = fc_digest (pu_asn p)) ->
  commit_files E o p w = ((p', x), w') -> pair_outcome o p w w' x.
Proof.
  intros Hp Hvc Hva Hc. destruct (id Hp) as [Hdc Hda Hhc Hha Hap]. apply moved_apart in Hap as (Hstc & Hsta & _).
  unfold commit_files in Hc. apply st_bind_inv in Hc as ([c1 x1] & w1 & Hc1 & Hc).
  apply Commit_file_inv in Hc1 as (oc & Hoc & Hc1); [|done..]. rewrite Hdc in Hoc. destruct x1 as [e1|].
  { apply st_bind_inv in Hc as (e & w2 & Hr & Hc). injection Hc as <- <- <-. by eapply country_failed. }
  apply st_bind_inv in Hc as ([a1 x2] & w2 & Ha1 & Hc). apply Commit_file_inv in Ha1 as (oa & Hoa & Ha1); [|done..].
  rewrite Hda in Hoa. eapply taken_same in Hoa; [|by eapply asn_untouched].
  destruct x2 as [e2|]; [|by eapply pair_adopted].
  apply st_bind_inv in Hc as ([c2 xr] & w3 & Hroll & Hc). apply st_bind_inv in Hc as (e & w4 & Hr & Hc).
  injection Hc as <- <- <-. by eapply asn_failed.
Qed.

Lemma Commit_inv o p w p' x w' :
  prepared_for o p -> sound o w ->
  Commit E o p w = ((p', x), w') -> pair_outcome o p w w' x.
Proof.
  intros Hp Hs Hc. unfold Commit in Hc. apply st_bind_inv in Hc as (v & w1 & Hv & Hc).
  apply Valid_inv in Hv as (Hs1 & Hd1 & Hv).
  destruct v; [|injection Hc as <- <- <-; apply pair_unchanged; [by eapply sound_same|done|by rewrite Hs1]].
  destruct (Hv eq_refl) as [Hvc Hva]. cbn [negb] in Hc. apply st_bind_inv in Hc as (w1' & w2' & [= -> ->] & Hc).
  case_if_in Hc; [injection Hc as <- <- <-; apply pair_unchanged; [by eapply sound_same|done|by rewrite Hs1]|].
  apply st_bind_inv in Hc as (y & w2 & Hy & Hc). apply closeReaders_inv in Hy as (Hd2 & Hg2 & Hc2 & Ha2).
  destruct y as [y|].
  { injection Hc as <- <- <-. apply pair_unchanged; [|congruence..]. unfold sound. rewrite Hc2, Ha2. split; apply reads_none. }
  assert (Hd : disk w2 = disk w) by congruence.
  apply commit_files_inv in Hc; [|try done; by rewrite Hd..].
  unfold pair_outcome, in_place, same_but, taken in *. rewrite Hd, Hg2, Hs1 in Hc. done.
Qed.

End Calls.
