(* ===== verification/GeoUpdate.v ===== *)
(** * GeoUpdate: an update of the address databases from download to activation

    A candidate that [Prepare] returns has the checksum its publisher gives for it
    and is a valid database within the size limit; the files in use are not
    touched.  Between preparation and commit anything may happen to files and
    service.  [geoip_update_settles] puts this together with [GeoPair]. *)

From S2P Require Import Prelude GoStd Catalog SelfUpdate GeoIP GeoPair.

Section Update.
Context `{MaxMind} `{Sha256} `{SourceSyntax} `{Unicode} (E : env).

(** The names of candidates. *)
Definition candidate_name (d : Downloader) (suffix : string) : string :=
  (StagingDir d ++ "/.candidate-" ++ suffix ++ ".mmdb")%string.

(** The database [b] with the wanted checksum is at [staged]. *)
Definition verified (staged : string) (limit : Z) (want : list Z) (w : world) : Prop :=
  exists b t, disk w !! staged = Some (mkNode false b t) /\ sha256 b = want /\ len b <= limit /\
    mmdb_Open b = None /\ mmdb_Verify b = None.

Definition limit_of (d : Downloader) : Z := if MaxBytes d <=? 0 then defaultMaxDatabaseBytes else MaxBytes d.

(** The answer to a request for [url] had the checksum [digest]. *)
Definition published (d : Downloader) (url : string) (digest : list Z) : Prop :=
  exists n final r raw, net E n url = Answer final r /\ validateDownloadURL final (AllowHTTP d) = None /\
    200 <= status r < 300 /\ read_limited 4097 r = Ok raw /\ parse_checksum raw = Ok digest.

Lemma doGET_inv url http w x w' : doGET E url http w = (x, w') ->
  svc w' = svc w /\ disk w' = disk w /\
  forall r, x = Ok r -> exists n final, net E n url = Answer final r /\ validateDownloadURL final http = None /\ 200 <= status r < 300.
Proof.
  intros Hd. unfold doGET, next in Hd. st_unfold. injection Hd as <- <-. split_and!; [done..|].
  intros r. destruct (net E (tick w) url) as [| |final r'] eqn:Hn; [done..|].
  destruct (validateDownloadURL final http) eqn:Hv; [done|]. case_if; [done|]. intros [= <-].
  exists (tick w), final. split_and!; [done..| |]; breflect; lia.
Qed.

Lemma closeGeoIPResponse_ok {A} r (res : result A) a : closeGeoIPResponse r res = Ok a -> res = Ok a.
Proof. destruct res; simpl; [by destruct (close_error r)|]. by destruct (close_error r). Qed.

Lemma downloadChecksum_inv d url w x w' : downloadChecksum E url (AllowHTTP d) w = (x, w') ->
  svc w' = svc w /\ disk w' = disk w /\ forall digest, x = Ok digest -> published d url digest.
Proof.
  intros Hc. apply st_try_inv in Hc as [(e & -> & Hg)|(r & w1 & Hg & Hc)]; apply doGET_inv in Hg as (Hs & Hd & Hr).
  { by split_and!. }
  injection Hc as <- <-. split_and!; [done..|]. intros digest Hx. apply closeGeoIPResponse_ok in Hx.
  destruct (Hr r eq_refl) as (n & final & Hn & Hv & Hst).
  destruct (read_limited 4097 r) as [raw|] eqn:Hraw; [|done]. exists n, final, r, raw. done.
Qed.

Lemma write_staged_inv staged content w x w' : write_staged E staged content w = (x, w') ->
  touches [staged] w w' /\ exists t, disk w' !! staged = Some (mkNode false content t).
Proof.
  intros Hw. unfold write_staged, next, set_disk in Hw. st_unfold. injection Hw as _ <-. simpl.
  split; [split; [done|]|]; simpl.
  - intros q Hq. apply lookup_insert_ne. intros ->. apply Hq. by left.
  - rewrite lookup_insert_eq. eauto.
Qed.

Lemma downloadFile_inv url staged limit http w x w' : downloadFile E url staged limit http w = (x, w') ->
  touches [staged] w w' /\
  forall got, x = Ok got -> exists b t, disk w' !! staged = Some (mkNode false b t) /\ sha256 b = got /\ len b <= limit.
Proof.
  intros Hc. apply st_try_inv in Hc as [(e & -> & Hg)|(r & w1 & Hg & Hc)]; apply doGET_inv in Hg as (Hs & Hd & _).
  { split; [by apply touches_disk|done]. }
  apply st_bind_inv in Hc as (n & w2 & Hn & Hc). injection Hn as <- <-.
  assert (Hw : forall content (res : result (list Z)) w3, touches [staged] w w1 ->
    (do! write_staged E staged content in st_ret (closeGeoIPResponse r res)) (mkWorld (S (tick w1)) (disk w1) (svc w1)) = (x, w3) ->
    touches [staged] w w3 /\ (exists t, disk w3 !! staged = Some (mkNode false content t)) /\
    forall got, x = Ok got -> res = Ok got).
  { intros content res w3 Ht Hx. apply st_bind_inv in Hx as ([] & w4 & Hx & He). apply write_staged_inv in Hx as [Ht' Hf].
    injection He as He <-. split_and!; [|done|].
    - eapply touches_trans; [done|]. eapply touches_trans; [|exact Ht']. by apply touches_disk.
    - intros got ->. by eapply closeGeoIPResponse_ok. }
  assert (Ht : touches [staged] w w1) by by apply touches_disk.
  destruct (sys E (tick w1)) as [f|].
  { apply Hw in Hc as (Htt & _ & Hgot); [|done]. split; [done|]. by intros got Hx%Hgot. }
  destruct (read_limited (int64 (limit + 1)) r) as [raw|e] eqn:Hraw.
  - apply Hw in Hc as (Htt & [t Hf] & Hgot); [|done]. split; [done|]. intros got Hx%Hgot.
    case_if_in Hx; [done|]. injection Hx as <-. breflect. exists raw, t. done.
  - apply Hw in Hc as (Htt & _ & Hgot); [|done]. split; [done|]. by intros got Hx%Hgot.
Qed.

Lemma validateMMDB_inv p w x w' : validateMMDB E p w = (x, w') ->
  svc w' = svc w /\ disk w' = disk w /\
  (x = None -> exists b t, disk w !! p = Some (mkNode false b t) /\ mmdb_Open b = None /\ mmdb_Verify b = None).
Proof.
  intros Hc. unfold validateMMDB in Hc. apply st_bind_inv in Hc as (r & w1 & Hr & Hc).
  apply os_ReadFile_inv in Hr as (Hs & Hd & Hb). destruct r as [raw|e]; [|by injection Hc as <- <-].
  destruct (mmdb_Open raw) eqn:Ho; [by injection Hc as <- <-|].
  apply st_bind_inv in Hc as (y & w2 & Hy & Hc). apply call_inv in Hy as [Hs2 Hd2]. injection Hc as <- <-.
  split_and!; [congruence..|]. intros Hv. destruct (Hb raw eq_refl) as [t Ht]. eauto.
Qed.

Lemma fill_staged_inv d spec staged want w r closed w' : fill_staged E d spec staged want w = ((r, closed), w') ->
  touches [staged] w w' /\ forall got, r = Ok got -> got = want /\ verified staged (limit_of d) want w'.
Proof.
  intros Hf. unfold fill_staged in Hf. apply st_bind_inv in Hf as (x1 & w1 & Hx1 & Hf). apply call_inv in Hx1 as [Hs1 Hd1].
  assert (Ht1 : touches [staged] w w1) by by apply touches_disk.
  destruct x1 as [x1|]; [by injection Hf as <- <- <-|]. fold (limit_of d) in Hf.
  apply st_bind_inv in Hf as (got & w2 & Hg & Hf). apply downloadFile_inv in Hg as [Ht2 Hg].
  assert (Ht : touches [staged] w w2) by by eapply touches_trans.
  destruct got as [got|e]; [|by injection Hf as <- <- <-].
  case_if_in Hf; [by injection Hf as <- <- <-|]. breflect. subst want.
  destruct (Hg got eq_refl) as (b & t & Hb & Hsha & Hlen).
  apply st_bind_inv in Hf as (x3 & w3 & Hx3 & Hf). apply call_inv in Hx3 as [Hs3 Hd3].
  assert (Ht3 : touches [staged] w w3) by (eapply touches_trans; [done|by apply touches_disk]).
  destruct x3; [by injection Hf as <- <- <-|].
  apply st_bind_inv in Hf as (x4 & w4 & Hx4 & Hf). apply call_inv in Hx4 as [Hs4 Hd4].
  assert (Ht4 : touches [staged] w w4) by (eapply touches_trans; [exact Ht3|by apply touches_disk]).
  destruct x4; [by injection Hf as <- <- <-|].
  apply st_bind_inv in Hf as (x5 & w5 & Hx5 & Hf). apply validateMMDB_inv in Hx5 as (Hs5 & Hd5 & Hval).
  assert (Ht5 : touches [staged] w w5) by (eapply touches_trans; [exact Ht4|by apply touches_disk]).
  destruct x5; injection Hf as <- <- <-; [done|]. split; [done|]. intros g [= <-]. split; [done|].
  destruct (Hval eq_refl) as (b' & t' & Hb' & Hopen & Hverify).
  assert (Hbb : mkNode false b t = mkNode false b' t') by congruence. injection Hbb as <- <-.
  exists b, t. split_and!; [congruence|done..].
Qed.

Lemma os_Remove_inv p w x w' : os_Remove E p w = (x, w') -> touches [p] w w'.
Proof.
  intros Hr. unfold os_Remove, next, set_disk in Hr. st_unfold. simpl in Hr.
  destruct (disk w !! p); [destruct (sys E (tick w))|]; injection Hr as _ <-; try done.
  split; [done|]. intros q Hq. simpl. apply lookup_delete_ne. intros ->. apply Hq. by left.
Qed.

Lemma discard_staged_inv staged closed x w y w' : discard_staged E staged closed x w = (y, w') -> touches [staged] w w'.
Proof.
  intros Hd. unfold discard_staged in Hd. apply st_bind_inv in Hd as (c & w1 & Hc & Hd).
  assert (Ht : touches [staged] w w1).
  { destruct closed; [by injection Hc as _ <-|]. apply call_inv in Hc as [Hs Hd']. by apply touches_disk. }
  apply st_bind_inv in Hd as (r & w2 & Hr & Hd). apply os_Remove_inv in Hr. injection Hd as _ <-.
  by eapply touches_trans.
Qed.

(** The checksum source of the service. *)
Lemma wanted_inv d spec w x w' : wanted E d spec w = (x, w') ->
  svc w' = svc w /\ disk w' = disk w /\
  (ExpectedSHA256 spec = ""%string -> forall want, x = Ok want -> published d (ChecksumURL spec) want).
Proof.
  unfold wanted. destruct (validateDownloadURL (ds_URL spec) (AllowHTTP d)); [by intros [= <- <-]|].
  destruct (Bool.eqb _ _) eqn:Hone; [by intros [= <- <-]|].
  destruct (if String.eqb (ChecksumURL spec) "" then None else _); [by intros [= <- <-]|].
  destruct (if String.eqb (ExpectedSHA256 spec) "" then _ else _); [|by intros [= <- <-]].
  case_if; [by intros [= <- <-]|]. destruct (String.eqb (ChecksumURL spec) "") eqn:Hu.
  - intros [= <- <-]. split_and!; [done..|]. intros He. rewrite He in Hone. done.
  - intros Hc. apply downloadChecksum_inv in Hc as (Hs & Hd & Hp). auto.
Qed.

(** The files that are not candidates of [d], and the service. *)
Definition only_candidates (d : Downloader) (w w' : world) : Prop :=
  svc w' = svc w /\ forall q, (forall s, q <> candidate_name d s) -> disk w' !! q = disk w !! q.

Lemma only_candidates_trans d w1 w2 w3 : only_candidates d w1 w2 -> only_candidates d w2 w3 -> only_candidates d w1 w3.
Proof. intros [Hs Hd] [Hs' Hd']. split; [congruence|]. intros q Hq. by rewrite Hd', Hd. Qed.

Lemma only_candidates_touches d s w w' : touches [candidate_name d s] w w' -> only_candidates d w w'.
Proof. intros [Hs Hd]. split; [done|]. intros q Hq. apply Hd. rewrite list_elem_of_singleton. apply Hq. Qed.

Lemma only_candidates_same d w w' : svc w' = svc w -> disk w' = disk w -> only_candidates d w w'.
Proof. intros Hs Hd. split; [done|]. by rewrite Hd. Qed.

(** A candidate for [spec], made at a new name. *)
Record candidate_for (d : Downloader) (spec : DownloadSpec) (w w' : world) (c : FileCandidate) : Prop := {
  cf_destination : destination c = Destination spec;
  cf_new : hadPrevious c = false;
  cf_name : exists s, fc_staged c = candidate_name d s;
  cf_fresh : disk w !! fc_staged c = None;
  cf_verified : verified (fc_staged c) (limit_of d) (fc_digest c) w';
  cf_published : ExpectedSHA256 spec = ""%string -> published d (ChecksumURL spec) (fc_digest c)
}.

Lemma CreateTemp_inv d w x w' : CreateTemp E d w = (x, w') ->
  only_candidates d w w' /\
  forall staged, x = Ok staged -> (exists s, staged = candidate_name d s) /\ disk w !! staged = None /\ is_Some (disk w' !! staged).
Proof.
  intros Hc. unfold CreateTemp in Hc. apply st_bind_inv in Hc as (n & w1 & Hn & Hc). injection Hn as <- <-.
  apply st_bind_inv in Hc as (w2 & w3 & Hget & Hc). injection Hget as <- <-. fold (candidate_name d (temp E (tick w))) in Hc. cbn [disk] in Hc.
  assert (Hsame : only_candidates d w (mkWorld (S (tick w)) (disk w) (svc w))) by by apply only_candidates_same.
  destruct (sys E (tick w)); [injection Hc as <- <-; done|].
  destruct (disk w !! candidate_name d (temp E (tick w))) eqn:Hf; [injection Hc as <- <-; done|].
  apply st_bind_inv in Hc as ([] & w3 & Hw & Hc). apply write_staged_inv in Hw as [Ht [t Hd]]. injection Hc as <- <-.
  split; [by eapply only_candidates_trans, only_candidates_touches|]. intros staged [= <-]. eauto.
Qed.

Lemma Prepare_inv d spec w x w' : Downloader_Prepare E d spec w = (x, w') ->
  only_candidates d w w' /\ forall c, x = Ok c -> candidate_for d spec w w' c.
Proof.
  intros Hp. unfold Downloader_Prepare in Hp. apply st_try_inv in Hp as [(e & -> & Hw)|(want & w1 & Hw & Hp)];
    apply wanted_inv in Hw as (Hs1 & Hd1 & Hpub); [split; [by apply only_candidates_same|done]|].
  apply st_bind_inv in Hp as (x2 & w2 & Hx2 & Hp). apply call_inv in Hx2 as [Hs2 Hd2].
  assert (Ho : only_candidates d w w2) by (apply only_candidates_same; congruence).
  destruct x2; [injection Hp as <- <-; done|].
  apply st_try_inv in Hp as [(e & -> & Ht)|(staged & w3 & Ht & Hp)]; apply CreateTemp_inv in Ht as [Ho3 Hst];
    [split; [by eapply only_candidates_trans|done]|].
  destruct (Hst staged eq_refl) as ([s Hname] & Hfresh & _).
  apply st_bind_inv in Hp as ([r closed] & w4 & Hf & Hp). apply fill_staged_inv in Hf as [Ht4 Hr].
  assert (Ho4 : only_candidates d w w4).
  { eapply only_candidates_trans; [exact Ho|]. eapply only_candidates_trans; [exact Ho3|].
    eapply only_candidates_touches. by rewrite <- Hname. }
  destruct r as [got|e].
  - injection Hp as <- <-. split; [done|]. intros c [= <-]. destruct (Hr got eq_refl) as [-> Hv].
    constructor; simpl; [done|done|eauto|congruence|done|auto].
  - apply st_bind_inv in Hp as (y & w5 & Hy & Hp). apply discard_staged_inv in Hy. injection Hp as <- <-.
    split; [|done]. eapply only_candidates_trans; [done|]. eapply only_candidates_touches. by rewrite <- Hname.
Qed.

(** The files of the service are not candidates, and their names differ. *)
Definition separate (o : ServiceOptions) (d : Downloader) : Prop :=
  let names := [CountryPath o; previous_of (CountryPath o); ASNPath o; previous_of (ASNPath o)] in
  NoDup names /\ forall s, candidate_name d s ∉ names.

Lemma PrepareUpdate_inv o d w p w' :
  separate o d -> PrepareUpdate E o d w = (Ok p, w') ->
  prepared_for o p /\ only_candidates d w w' /\ baseGeneration p = generation (svc w) /\
  published d (CountryChecksumURL o) (fc_digest (pu_country p)) /\ published d (ASNChecksumURL o) (fc_digest (pu_asn p)).
Proof.
  intros [Hnd Hsep] Hp. unfold PrepareUpdate in Hp. apply st_bind_inv in Hp as (w0 & w0' & [= <- <-] & Hp).
  apply st_try_inv in Hp as [(e & He & _)|(c & w1 & Hc & Hp)]; [done|]. apply Prepare_inv in Hc as [Ho1 Hc].
  apply st_bind_inv in Hp as (r & w2 & Ha & Hp). apply Prepare_inv in Ha as [Ho2 Ha].
  destruct r as [a|e]; [|by apply st_bind_inv in Hp as (? & ? & _ & ?)]. injection Hp as <- <-.
  destruct (Hc c eq_refl) as [Hdc Hnc [sc Hsc] _ Hvc Hpc]. destruct (Ha a eq_refl) as [Hda Hna [sa Hsa] Hfa _ Hpa].
  simpl in *. split; [|split_and!; [by eapply only_candidates_trans|done|auto..]].
  assert (Hne : fc_staged c <> fc_staged a).
  { intros Heq. destruct Hvc as (b & t & Hb & _). rewrite Heq in Hb. congruence. }
  assert (Hoc := Hsep sc). assert (Hoa := Hsep sa). rewrite <- Hsc in Hoc. rewrite <- Hsa in Hoa.
  constructor; simpl; [done..|]. unfold moved, places. rewrite Hdc, Hda. simpl.
  rewrite !not_elem_of_cons in Hoc, Hoa. rewrite !NoDup_cons, !not_elem_of_cons in Hnd. rewrite !NoDup_cons, !not_elem_of_cons.
  intuition congruence.
Qed.

End Update.

(** A commit needs the generation of the preparation. *)
Lemma commit_generation `{MaxMind} `{Sha256} `{SourceSyntax} `{Unicode} (E : env) o p w p' x w' :
  Commit E o p w = ((p', x), w') -> x = None -> generation (svc w) = baseGeneration p.
Proof.
  intros Hc ->. unfold Commit in Hc. apply st_bind_inv in Hc as (v & w1 & Hv & Hc). apply Valid_inv in Hv as (Hs & _ & _).
  destruct v; [|done]. cbn [negb] in Hc. apply st_bind_inv in Hc as (w1' & w2' & Hget & Hc). injection Hget as <- <-.
  case_if_in Hc; [done|]. breflect. by rewrite <- Hs.
Qed.

(** C38. The two address databases are updated together.  Take any successful
    preparation, any files and service after it, and a commit under any failures
    of the file system.  If the commit succeeds, no other pair was committed since
    the preparation, both files are in place with the checksums that their
    publisher gave, are opened and verified, and the old files are kept beside
    them.  If it fails, each old file is in its place, or it is kept beside it and
    the error joins the failure of putting it back to the first failure.  In both
    cases only the files of the update change, and lookups are answered only from
    verified databases that are the files in place.  The old files are as [os.Stat]
    reports them: one whose state could not be read counts as missing, and is then
    neither kept nor put back ([stat_failure_loses_database]). *)
Theorem geoip_update_settles `{MaxMind} `{Sha256} `{SourceSyntax} `{Unicode} (E E' : env) (o : ServiceOptions)
    (d : Downloader) (p p' : PreparedUpdate) (x : option error) (w0 w1 w2 w3 : world) :
  separate o d -> PrepareUpdate E o d w0 = (Ok p, w1) -> sound o w2 -> Commit E' o p w2 = ((p', x), w3) ->
  (only_candidates d w0 w1 /\
   published E d (CountryChecksumURL o) (fc_digest (pu_country p)) /\
   published E d (ASNChecksumURL o) (fc_digest (pu_asn p))) /\
  sound o w3 /\ same_but (pair_moved p) w2 w3 /\
  exists oc oa, taken E' w2 (CountryPath o) oc /\ taken E' w2 (ASNPath o) oa /\
  match x with
  | None => generation (svc w2) = generation (svc w0) /\ generation (svc w3) = uint64 (generation (svc w2) + 1) /\
            in_place (pu_country p) oc (country (svc w3)) w2 w3 /\ in_place (pu_asn p) oa (asn (svc w3)) w2 w3
  | Some e => generation (svc w3) = generation (svc w2) /\
              kept_at (CountryPath o) oc e w3 /\ kept_at (ASNPath o) oa e w3
  end.
Proof.
  intros Hsep Hprep Hs Hc. apply PrepareUpdate_inv in Hprep as (Hp & Ho & Hb & Hpc & Hpa); [|done].
  assert (Hgen := commit_generation _ _ _ _ _ _ _ Hc).
  apply Commit_inv in Hc as (Hs3 & Hsb & oc & oa & Hoc & Hoa & Hx); [|done..]. split; [done|]. split; [done|]. split; [done|].
  exists oc, oa. split; [done|]. split; [done|].
  destruct x as [e|]; [done|]. destruct Hx as (Hic & Hia & Hg). rewrite <- Hb. auto.
Qed.

(** *** A run *)

#[local] Instance geo_mmdb : MaxMind :=
  {| mmdb_Open := fun b => if String.eqb b "" then Some (EText "empty") else None;
     mmdb_Verify := fun b => if HasPrefix b "MMDB" then None else Some (EText "not a database");
     mmdb_country := fun _ _ => Ok "NL"%string; mmdb_asn := fun b _ => Ok (len b, "AS"%string) |}.
#[local] Instance geo_hash : Sha256 := toy_hash.
#[local] Instance geo_unicode : Unicode := {| unicode_ToLower s := s |}.

Definition geo_options : ServiceOptions :=
  mkOptions "/data/country.mmdb" "/data/asn.mmdb" "https://host/country" "https://host/country.sha256sum"
    "https://host/asn" "https://host/asn.sha256sum".
Definition geo_downloader : Downloader := mkDownloader "/staging" 0 false.

Definition geo_body (url : string) : string :=
  if String.eqb url "https://host/country" then "MMDB-country-2"
  else if String.eqb url "https://host/asn" then "MMDB-asn-2"
  else if String.eqb url "https://host/country.sha256sum" then hex_encode (toy_sha256 "MMDB-country-2") ++ "  country"
  else hex_encode (toy_sha256 "MMDB-asn-2") ++ "  asn".

(** [fails] and [unknown] are the calls that fail. *)
Definition geo_env (fails unknown : list nat) : env :=
  mkEnv (fun n => if bool_decide (n ∈ fails) then Some Failed else None)
    (fun n => if bool_decide (n ∈ unknown) then Some Denied else None)
    (fun _ url => Answer url (mkResponse 200 [] (geo_body url) None None))
    (fun n => if (n <? 8)%nat then "a" else "b")%string (fun _ => "") (fun _ => 100) false.

Definition geo_world : world :=
  mkWorld 0 {["/data/country.mmdb" := mkNode false "MMDB-country-1" 1; "/data/asn.mmdb" := mkNode false "MMDB-asn-1" 1]}
    (mkService (Some "MMDB-country-1"%string) (Some "MMDB-asn-1"%string) None None "" 7).

Definition geo_prepared : result PreparedUpdate * world := PrepareUpdate (geo_env [] []) geo_options geo_downloader geo_world.

(** The pair after a commit of the prepared update under the given failures. *)
Definition geo_commit (fails unknown : list nat) : option (bool * option string * option string * Service) :=
  match geo_prepared with
  | (Ok p, w) =>
      let '((_, x), w) := Commit (geo_env fails unknown) geo_options p w in
      Some (bool_decide (is_Some x), n_bytes <$> disk w !! "/data/country.mmdb"%string,
            n_bytes <$> disk w !! "/data/asn.mmdb"%string, svc w)
  | _ => None
  end.

(** Without failures the new pair is in place; when the activation of the second
    file fails (call 39) the old pair is. *)
Example commit_runs :
  geo_commit [] [] =
    Some (false, Some "MMDB-country-2"%string, Some "MMDB-asn-2"%string,
          mkService (Some "MMDB-country-2"%string) (Some "MMDB-asn-2"%string) None None "" 8) /\
  geo_commit [39%nat] [] =
    Some (true, Some "MMDB-country-1"%string, Some "MMDB-asn-1"%string,
          mkService (Some "MMDB-country-1"%string) (Some "MMDB-asn-1"%string) None None "" 7).
Proof. by vm_compute. Qed.

(** A reader that does not close (call 26) leaves the service without readers and
    without an error in its status, although both files are in place. *)
Example close_failure_stops_lookups :
  geo_commit [26%nat] [] =
    Some (true, Some "MMDB-country-1"%string, Some "MMDB-asn-1"%string, mkService None None None None "" 7) /\
  forall a, isPublicAddress a = true -> Lookup a (mkService None None None None "" 7) = Err (ESentinel ErrUnavailable).
Proof. split; [by vm_compute|]. intros a Ha. unfold Lookup. by rewrite Ha. Qed.

(** When the state of the Country file cannot be read (call 30), the file counts
    as missing: a failure of the other activation (call 38) loses it. *)
Example stat_failure_loses_database :
  match geo_commit [38%nat] [30%nat] with
  | Some (failed, c, a, _) => failed = true /\ c = None /\ a = Some "MMDB-asn-1"%string
  | None => False
  end.
Proof. by vm_compute. Qed.

Lemma geo_separate : separate geo_options geo_downloader.
Proof.
  split; [by apply (bool_decide_unpack _); vm_compute|]. intros s.
  change (candidate_name geo_downloader s) with ("/staging/.candidate-" ++ s ++ ".mmdb")%string.
  rewrite !not_elem_of_cons. split_and!; [done..|]. apply not_elem_of_nil.
Qed.

Lemma geo_sound w : disk w !! "/data/country.mmdb"%string = Some (mkNode false "MMDB-country-1" 1) ->
  disk w !! "/data/asn.mmdb"%string = Some (mkNode false "MMDB-asn-1" 1) -> svc w = svc geo_world -> sound geo_options w.
Proof. intros Hc Ha Hs. split; rewrite Hs; intros b [= <-]; split_and!; [done|done|eauto|done|done|eauto]. Qed.

(** The hypotheses hold when the second activation fails. *)
Lemma geoip_update_settles_witness :
  match geo_prepared with
  | (Ok p, w1) =>
      let '((_, x), w3) := Commit (geo_env [39%nat] []) geo_options p w1 in
      sound geo_options w3 /\ same_but (pair_moved p) w1 w3 /\ is_Some x
  | _ => False
  end.
Proof.
  destruct geo_prepared as [[p|e] w1] eqn:Hp; [|by vm_compute in Hp].
  destruct (Commit (geo_env [39%nat] []) geo_options p w1) as [[p' x] w3] eqn:Hc.
  assert (Hs : sound geo_options w1) by (vm_compute in Hp; injection Hp as <- <-; by apply geo_sound).
  pose proof (geoip_update_settles (geo_env [] []) (geo_env [39%nat] []) geo_options geo_downloader p p' x geo_world w1 w1 w3
    geo_separate Hp Hs Hc) as (_ & Hs3 & Hsb & _).
  split; [exact Hs3|]. split; [exact Hsb|].
  vm_compute in Hp. injection Hp as <- <-. vm_compute in Hc. injection Hc as <- <- <-. eauto.
Defined.
