(* ===== verification/Preferences.v ===== *)
(** * Preferences: display preferences and the setup marker

    Models [internal/preferences/service.go], [internal/runtime/preferences.go],
    [internal/onboarding/service.go] and [internal/onboarding/activation.go].

    Both services keep a small document in memory and in a file.  A change is
    validated, written to the file and only then published in memory; the file is
    written through [AtomicFile].  The documents are JSON; [PreferencesJSON] and
    [OnboardingJSON] are the codecs, and [DocumentLaws] says what the code relies
    on: decoding overlays the fields that the text has onto the target, and the
    encoder omits a nil pointer and a zero marked "omitempty".

    [pworld] is the service and its files; [prefs_request] is the manager with the
    preferences beside it. *)

From Stdlib Require Import Ascii.
From S2P Require Import Prelude GoStd Atomic State Settings Catalog Manager.

(** ** Data *)

Record ProxyPreferences := mkProxyPreferences {
  ExtraLatency : bool;
  AutoLatencyTest : bool;
  LatencyTestConcurrency : Z
}.

#[export] Instance ProxyPreferences_eq_dec : EqDecision ProxyPreferences.
Proof. solve_decision. Defined.

Record Preferences := mkPreferences {
  ConnectionsColumns : list string;
  Proxies : ProxyPreferences;
  LogLevels : list string
}.

#[export] Instance Preferences_eq_dec : EqDecision Preferences.
Proof. solve_decision. Defined.

(** A nil slice or pointer is [None]. *)
Record Update := mkUpdate {
  u_ConnectionsColumns : option (list string);
  u_Proxies : option ProxyPreferences;
  u_LogLevels : option (list string)
}.

Record document := mkDocument {
  d_Schema : string;
  d_ConnectionsColumns : list string;
  d_Proxies : option ProxyPreferences;
  d_LogLevels : option (list string)
}.

Definition fileSchema : string := "mihari.tui-preferences/v1".
Definition maxFileSizeBytes : Z := 1048576.
Definition defaultLatencyConcurrency : Z := 5.
Definition maxLatencyConcurrency : Z := 50.
Definition defaultLogLevels : list string := ["debug"; "info"; "warn"; "error"].
Definition defaultColumns : list string := ["host"; "network"; "source"; "destination"; "chain"; "rule"; "traffic"].
Definition connectionColumnIDs : list string :=
  ["host"; "network"; "source"; "destination"; "chain"; "rule"; "process"; "upload"; "download"; "traffic"; "start"].

Definition DefaultProxyPreferences : ProxyPreferences := mkProxyPreferences true true defaultLatencyConcurrency.
Definition defaults : Preferences := mkPreferences defaultColumns DefaultProxyPreferences defaultLogLevels.

(** [json.MarshalIndent] of a document, and [Decoder.Decode] into a document with
    unknown fields refused; the second component says that a further [Decode]
    meets the end of the input. *)
Class PreferencesJSON := {
  json_MarshalIndent : document -> option string;
  json_Decode : document -> string -> result (document * bool)
}.

(** ** Validation *)

Definition ValidateLatencyConcurrency (value : Z) : option error :=
  if (value <? 1) || (maxLatencyConcurrency <? value) then Some (ESentinel ErrInvalidLatencyConcurrency) else None.

(** The loop over names: each is known and new. *)
Fixpoint check_names (invalid : sentinel) (unknown duplicate : string) (known seen names : list string) : option error :=
  match names with
  | [] => None
  | name :: rest =>
      if negb (bool_decide (name ∈ known)) then Some (EFmt unknown (ESentinel invalid))
      else if bool_decide (name ∈ seen) then Some (EFmt duplicate (ESentinel invalid))
      else check_names invalid unknown duplicate known (name :: seen) rest
  end.

Definition validateColumns (columns : list string) : option error :=
  match columns with
  | [] => Some (EFmt "at least one column is required" (ESentinel ErrInvalidColumns))
  | _ => check_names ErrInvalidColumns "unknown column" "duplicate column" connectionColumnIDs [] columns
  end.

Definition ValidateLogLevels (levels : list string) : option error :=
  match levels with
  | [] => Some (EFmt "at least one level is required" (ESentinel ErrInvalidLogLevels))
  | _ => check_names ErrInvalidLogLevels "unknown level" "duplicate level" defaultLogLevels [] levels
  end.

(** ** The service of the preferences *)

Section Service.
Context `{PreferencesJSON} {AEnv W : Type} `{AtomicFile AEnv W}.

Record pworld := mkPWorld {
  snapshot : Preferences;
  pfs : W
}.

(** [config.AtomicWrite]: a warning after the commit is an error too. *)
Definition atomic_write (env : AEnv) (path : path) (raw : string) (w : W) : option error * W :=
  let '(r, err, w) := af_write env path raw w in
  (match err with Some x => Some x | None => Warning r end, w).

(** [denied] is the failure of opening or reading an existing file. *)
Definition readFile (denied : option error) (path : path) (w : W) : result string :=
  match af_read path w, denied with
  | None, _ => Err (ESentinel ErrNotExist)
  | Some _, Some x => Err x
  | Some raw, None => if maxFileSizeBytes <? len raw then Err (EText "preferences file is too large") else Ok raw
  end.

Definition decode_error (x : error) : error := EFmt "decode TUI preferences" x.

(** The checks on a decoded document, and the preferences it gives. *)
Definition from_document (persisted : document) : result Preferences :=
  if negb (String.eqb (d_Schema persisted) fileSchema) then Err (EText "decode TUI preferences: unsupported schema")
  else match validateColumns (d_ConnectionsColumns persisted) with
  | Some x => Err (decode_error x)
  | None =>
      match match d_Proxies persisted with
            | Some q => match ValidateLatencyConcurrency (LatencyTestConcurrency q) with
                        | Some x => Err (decode_error x)
                        | None => Ok q
                        end
            | None => Ok (Proxies defaults)
            end with
      | Err x => Err x
      | Ok proxies =>
          match d_LogLevels persisted with
          | Some levels => match ValidateLogLevels levels with
                           | Some x => Err (decode_error x)
                           | None => Ok (mkPreferences (d_ConnectionsColumns persisted) proxies levels)
                           end
          | None => Ok (mkPreferences (d_ConnectionsColumns persisted) proxies (LogLevels defaults))
          end
      end
  end.

(** The target of decoding: the defaults of the proxies are filled in. *)
Definition decode_target : document := mkDocument "" [] (Some DefaultProxyPreferences) None.

Definition decode_preferences (raw : string) : result Preferences :=
  match json_Decode decode_target raw with
  | Err x => Err (decode_error x)
  | Ok (persisted, last) =>
      if negb last then Err (EText "decode TUI preferences: expected one JSON object") else from_document persisted
  end.

Definition Open (denied : option error) (path : path) (w : W) : result Preferences :=
  match readFile denied path w with
  | Err x => if errors_Is x ErrNotExist then Ok defaults else Err (EFmt "read TUI preferences" x)
  | Ok raw => decode_preferences raw
  end.

(** The next preferences: an omitted field keeps its value. *)
Definition next_preferences (update : Update) (current : Preferences) : result Preferences :=
  match (if bool_decide (is_Some (u_ConnectionsColumns update))
            || bool_decide (u_Proxies update = None) && bool_decide (u_LogLevels update = None)
         then validateColumns (default [] (u_ConnectionsColumns update)) else None) with
  | Some x => Err x
  | None =>
      let columns := default (ConnectionsColumns current) (u_ConnectionsColumns update) in
      match match u_Proxies update with
            | None => Ok (Proxies current)
            | Some q =>
                let concurrency := if LatencyTestConcurrency q =? 0
                                   then LatencyTestConcurrency (Proxies current) else LatencyTestConcurrency q in
                match ValidateLatencyConcurrency concurrency with
                | Some x => Err x
                | None => Ok (mkProxyPreferences (ExtraLatency q) (AutoLatencyTest q) concurrency)
                end
            end with
      | Err x => Err x
      | Ok proxies =>
          match u_LogLevels update with
          | None => Ok (mkPreferences columns proxies (LogLevels current))
          | Some levels => match ValidateLogLevels levels with
                           | Some x => Err x
                           | None => Ok (mkPreferences columns proxies levels)
                           end
          end
      end
  end.

(** Defaults are not written. *)
Definition to_document (next : Preferences) : document :=
  let overrides :=
    if bool_decide (Proxies next = DefaultProxyPreferences) then None
    else Some (mkProxyPreferences (ExtraLatency (Proxies next)) (AutoLatencyTest (Proxies next))
                 (if LatencyTestConcurrency (Proxies next) =? LatencyTestConcurrency DefaultProxyPreferences
                  then 0 else LatencyTestConcurrency (Proxies next))) in
  mkDocument fileSchema (ConnectionsColumns next) overrides (Some (LogLevels next)).

Definition newline : string := line_end.

(** [Service.Update]; [done] is [ctx.Err()]. *)
Definition Update_preferences (done : option error) (env : AEnv) (path : path) (update : Update) : st pworld (result Preferences) :=
  fun w =>
  match done with
  | Some x => (Err x, w)
  | None =>
      match next_preferences update (snapshot w) with
      | Err x => (Err x, w)
      | Ok next =>
          match json_MarshalIndent (to_document next) with
          | None => (Err (EFmt "encode TUI preferences" (EText "json")), w)
          | Some raw =>
              let '(err, f) := atomic_write env path (raw ++ newline) (pfs w) in
              match err with
              | Some x => (Err (EFmt "persist TUI preferences" x), mkPWorld (snapshot w) f)
              | None => (Ok next, mkPWorld next f)
              end
          end
      end
  end.

End Service.
Arguments pworld W : clear implicits.
Arguments mkPWorld {W}.
Arguments snapshot {W}.
Arguments pfs {W}.

(** ** The request of the manager *)

Section Request.
Context `{PreferencesJSON} {AEnv W : Type} `{AtomicFile AEnv W} {Env FS : Type} `{SettingsFile Env FS}.
Context (o : Options) (e : environment Env) (write_env : AEnv) (prefs_path : path).

(** The manager and, when it has one, the service of the preferences. *)
Record rworld := mkRWorld {
  mgr : Manager FS;
  prefs : option (pworld W)
}.

#[export] Program Instance HasStore_rworld : HasStore rworld :=
  {| State.Load := fun w => store (mgr w);
     State.Store := fun s w => mkRWorld (set_store s (mgr w)) (prefs w) |}.
Next Obligation. reflexivity. Qed.

Definition on_mgr {A} (m : st (Manager FS) A) : st rworld A :=
  fun w => let '(a, m') := m (mgr w) in (a, mkRWorld m' (prefs w)).

Definition preferenceMutationError (x : error) : error :=
  diagnostics_Wrap
    (if errors_Is x ErrInvalidLatencyConcurrency
     then mkAPIError CodeInvalidArgument "latency test concurrency must be between 1 and 50" false
     else if errors_Is x ErrInvalidLogLevels
     then mkAPIError CodeInvalidArgument "invalid TUI log display levels" false
     else if errors_Is x ErrInvalidColumns
     then mkAPIError CodeInvalidArgument "invalid TUI connections columns" false
     else mkAPIError CodeDataFailure "persist TUI preferences" false) (Some x).

Definition TUIPreferences (w : rworld) : option Preferences := snapshot <$> prefs w.

(** The mutation: the published state stays the same but for its revision. *)
Definition prefs_mutation (s : pworld W) (update : Update) : Mutation rworld := fun current =>
  let! done := on_mgr (ctxErr e) in
  fun w =>
    let '(r, s') := Update_preferences done write_env prefs_path update s in
    let err := match r with Ok _ => None | Err x => Some (Ordinary (preferenceMutationError x)) end in
    ((current, err), mkRWorld (mgr w) (Some s')).

(** [UpdateTUIPreferences], inside the operation; what a successful update
    returns is what it stored. *)
Definition UpdateTUIPreferences (op : Operation) (update : Update) : st rworld (result Preferences) :=
  let! w := st_get in
  match prefs w with
  | None => st_ret (Err (api_error CodeInvalidState "TUI preferences are unavailable"))
  | Some s =>
      check! on_mgr (lockMutation o e) in
      let! done := on_mgr (ctxErr e) in
      let! '(_, err) := Do done (mkCommandMeta (op_ID op) (op_Source op) (op_IfRevision op)) (prefs_mutation s update) in
      do! on_mgr unlock in
      let! w := st_get in
      st_ret match err, prefs w with
             | Some x, _ => Err x
             | None, Some s => Ok (snapshot s)
             | None, None => Err (EText "")
             end
  end.

End Request.

(** ** The setup marker *)

(** [onboarding.State]. *)
Record OnboardingState := mkOnboarding { Complete : bool }.

#[export] Instance OnboardingState_eq_dec : EqDecision OnboardingState.
Proof. solve_decision. Defined.

Record persistedState := mkPersisted {
  ps_Schema : string;
  ps_Complete : bool
}.

Definition stateSchema : string := "mihari.onboarding/v1".
Definition maxStateSize : Z := 65536.

(** [json.Marshal], and [Decode] with the end of the input after it. *)
Class OnboardingJSON := {
  json_Marshal_state : persistedState -> option string;
  json_Decode_state : string -> result (persistedState * bool)
}.

Section Onboarding.
Context `{OnboardingJSON} {AEnv W : Type} `{AtomicFile AEnv W}.

Record oworld := mkOWorld {
  marker : OnboardingState;
  ofs : W
}.

Definition decodeState (raw : string) : result OnboardingState :=
  if maxStateSize <? len raw then Err (dataError "onboarding state is too large" None)
  else match json_Decode_state raw with
       | Err x => Err (dataError "invalid onboarding state" (Some x))
       | Ok (persisted, last) =>
           if negb last then Err (dataError "onboarding state must contain one document" None)
           else if negb (String.eqb (ps_Schema persisted) stateSchema)
           then Err (dataError "unsupported onboarding state schema" None)
           else Ok (mkOnboarding (ps_Complete persisted))
       end.

Definition loadState (denied : option error) (path : path) (w : W) : result OnboardingState :=
  match af_read path w, denied with
  | None, _ => Err (ESentinel ErrNotExist)
  | Some _, Some x => Err x
  | Some raw, None => decodeState raw
  end.

Definition saveState (env : AEnv) (path : path) (s : OnboardingState) (w : W) : CommitResult * option error * W :=
  match json_Marshal_state (mkPersisted stateSchema (Complete s)) with
  | None => (no_commit, Some (EFmt "encode onboarding state" (EText "json")), w)
  | Some raw => af_write env path (raw ++ newline) w
  end.

Definition not_persisted : error := dataError "persist onboarding state" None.

(** [onboarding.Open]. *)
Definition Open_onboarding (denied : option error) (env : AEnv) (path : path) (initialSetupRequired : bool) (w : W)
    : result oworld * W :=
  match loadState denied path w with
  | Ok s => (Ok (mkOWorld s w), w)
  | Err x =>
      if negb (errors_Is x ErrNotExist) then (Err x, w)
      else
        let s := mkOnboarding (negb initialSetupRequired) in
        let '(r, saveErr, w) := saveState env path s w in
        match saveErr with
        | Some x => (Err x, w)
        | None => if negb (Committed r) then (Err not_persisted, w) else (Ok (mkOWorld s w), w)
        end
  end.

(** [onboarding.Service.Update]. *)
Definition Update_onboarding (env : AEnv) (path : path) (complete : option bool) : st oworld (result OnboardingState) :=
  fun w =>
  match complete with
  | None => (Ok (marker w), w)
  | Some c =>
      if Bool.eqb c (Complete (marker w)) then (Ok (marker w), w)
      else
        let next := mkOnboarding c in
        let '(r, err, f) := saveState env path next (ofs w) in
        match err with
        | Some x => (Err x, mkOWorld (marker w) f)
        | None => if negb (Committed r) then (Err not_persisted, mkOWorld (marker w) f) else (Ok next, mkOWorld next f)
        end
  end.

(** A change that is staged for an activation: [before] and [after]. *)
Record PreparedMarker := mkPreparedMarker {
  pm_before : OnboardingState;
  pm_after : OnboardingState
}.

Definition changed_during : error := dataError "onboarding changed during activation" None.

Definition PrepareActivation (before : OnboardingState) (complete : option bool) (w : oworld) : result PreparedMarker :=
  if negb (bool_decide (marker w = before)) then Err changed_during
  else Ok (mkPreparedMarker before (match complete with Some c => mkOnboarding c | None => before end)).

Definition ActivationData (p : PreparedMarker) : option string :=
  option_map (fun raw => raw ++ newline)%string (json_Marshal_state (mkPersisted stateSchema (Complete (pm_after p)))).

Definition Recheck (p : PreparedMarker) (w : oworld) : option error :=
  if bool_decide (marker w = pm_before p) then None else Some changed_during.

Definition CheckPrevious (p : PreparedMarker) (raw : string) : option error :=
  match decodeState raw with
  | Ok previous => if bool_decide (previous = pm_before p) then None else Some changed_during
  | Err _ => Some changed_during
  end.

Definition Publish_marker (p : PreparedMarker) : st oworld unit := st_modify (fun w => mkOWorld (pm_after p) (ofs w)).

End Onboarding.
Arguments oworld W : clear implicits.
Arguments mkOWorld {W}.
Arguments marker {W}.
Arguments ofs {W}.

(** ** What the codecs promise *)

(** A pointer that is omitted keeps the target's value, and so does a zero marked
    "omitempty". *)
Definition overlay_proxies (target q : ProxyPreferences) : ProxyPreferences :=
  mkProxyPreferences (ExtraLatency q) (AutoLatencyTest q)
    (if LatencyTestConcurrency q =? 0 then LatencyTestConcurrency target else LatencyTestConcurrency q).

Definition zero_proxies : ProxyPreferences := mkProxyPreferences false false 0.

Definition overlay (target d : document) : document :=
  mkDocument (d_Schema d) (d_ConnectionsColumns d)
    match d_Proxies d with
    | None => d_Proxies target
    | Some q => Some (overlay_proxies (default zero_proxies (d_Proxies target)) q)
    end (d_LogLevels d).

Definition valid_preferences (p : Preferences) : Prop :=
  validateColumns (ConnectionsColumns p) = None /\
  ValidateLatencyConcurrency (LatencyTestConcurrency (Proxies p)) = None /\
  ValidateLogLevels (LogLevels p) = None.

Class DocumentLaws `{PreferencesJSON} := {
  decode_encoded : forall target d raw,
    json_MarshalIndent d = Some raw -> json_Decode target (raw ++ newline) = Ok (overlay target d, true);
  encoded_small : forall p raw, valid_preferences p ->
    json_MarshalIndent (to_document p) = Some raw -> len (raw ++ newline) <= maxFileSizeBytes
}.

Class MarkerLaws `{OnboardingJSON} := {
  decode_marker : forall d raw,
    json_Marshal_state d = Some raw -> json_Decode_state (raw ++ newline) = Ok (d, true);
  marker_small : forall c raw,
    json_Marshal_state (mkPersisted stateSchema c) = Some raw -> len (raw ++ newline) <= maxStateSize
}.

(** ** Lemmas *)

Lemma defaults_valid : valid_preferences defaults.
Proof. by split_and!; vm_compute. Qed.

Lemma next_valid update current p :
  valid_preferences current -> next_preferences update current = Ok p -> valid_preferences p.
Proof.
  intros (Hc & Hl & Hv). unfold next_preferences.
  destruct (if bool_decide (is_Some (u_ConnectionsColumns update)) || _ then _ else _) eqn:Hcols; [done|].
  assert (Hcv : validateColumns (default (ConnectionsColumns current) (u_ConnectionsColumns update)) = None).
  { destruct (u_ConnectionsColumns update); [|done]. done. }
  destruct (u_Proxies update) as [q|].
  - destruct (ValidateLatencyConcurrency (if _ =? 0 then _ else _)) eqn:Hconc; [done|].
    destruct (u_LogLevels update) as [levels|]; [destruct (ValidateLogLevels levels) eqn:Hlev; [done|]|];
      intros [= <-]; by split_and!.
  - destruct (u_LogLevels update) as [levels|]; [destruct (ValidateLogLevels levels) eqn:Hlev; [done|]|];
      intros [= <-]; by split_and!.
Qed.

(** Defaults that are not written come back. *)
Lemma from_to_document p : valid_preferences p -> from_document (overlay decode_target (to_document p)) = Ok p.
Proof.
  intros (Hc & Hl & Hv). destruct p as [cols [x a n] levels]. simpl in *. unfold from_document, to_document. simpl.
  rewrite Hc. destruct (bool_decide _) eqn:Hd; breflect.
  - injection Hd as -> -> ->. simpl. by rewrite Hv.
  - assert (Hn : (if (if n =? defaultLatencyConcurrency then 0 else n) =? 0 then defaultLatencyConcurrency
                  else (if n =? defaultLatencyConcurrency then 0 else n)) = n).
    { unfold ValidateLatencyConcurrency in Hl. case_if_in Hl; [done|]. breflect.
      destruct (n =? defaultLatencyConcurrency) eqn:H5; breflect; [done|]. case_if; breflect; lia. }
    simpl. unfold overlay_proxies. simpl. rewrite Hn, Hl, Hv. done.
Qed.

Section Laws.
Context `{DocumentLaws} {AEnv W : Type} `{AtomicFile AEnv W}.

(** What was written is what the next start reads. *)
Lemma open_written path p raw (w : W) :
  valid_preferences p -> json_MarshalIndent (to_document p) = Some raw -> af_read path w = Some (raw ++ newline)%string ->
  Open None path w = Ok p.
Proof.
  intros Hv Hraw Hread. unfold Open, readFile. rewrite Hread. assert (Hlen := encoded_small p raw Hv Hraw).
  case_if; breflect; [lia|]. unfold decode_preferences. rewrite (decode_encoded _ _ _ Hraw). simpl.
  by apply from_to_document.
Qed.

(** The file after a failed update: the old one, or the new one when the write
    was committed with a warning. *)
Definition file_after_failure path (next : result Preferences) (w w' : W) : Prop :=
  af_read path w' = af_read path w \/ exists p, next = Ok p /\ Open None path w' = Ok p.

Lemma Update_inv done env path update (w w' : pworld W) r :
  valid_preferences (snapshot w) -> Update_preferences done env path update w = (r, w') ->
  match r with
  | Ok p => next_preferences update (snapshot w) = Ok p /\ snapshot w' = p /\ valid_preferences p /\
            Open None path (pfs w') = Ok p
  | Err _ => snapshot w' = snapshot w /\
             file_after_failure path (next_preferences update (snapshot w)) (pfs w) (pfs w')
  end.
Proof.
  intros Hv. unfold Update_preferences. destruct done; [intros [= <- <-]; split; [done|by left]|].
  destruct (next_preferences update (snapshot w)) as [p|x] eqn:Hn; [|intros [= <- <-]; split; [done|by left]].
  assert (Hp := next_valid _ _ _ Hv Hn).
  destruct (json_MarshalIndent (to_document p)) as [raw|] eqn:Hraw; [|intros [= <- <-]; split; [done|by left]].
  unfold atomic_write. destruct (af_write env path (raw ++ newline) (pfs w)) as [[c err] f] eqn:Hw.
  destruct (Committed c) eqn:Hc.
  - destruct (af_committed _ _ _ _ _ _ _ Hw Hc) as [-> Hread]. assert (Ho := open_written _ _ _ _ Hp Hraw Hread).
    destruct (Warning c); intros [= <- <-]; simpl; [|done]. split; [done|]. right. eauto.
  - destruct (af_failed _ _ _ _ _ _ _ Hw Hc) as [He Hread]. destruct err as [x|]; [|done].
    intros [= <- <-]. split; [done|]. by left.
Qed.

End Laws.

(** *** The request *)

Lemma on_mgr_inv {W FS A} (m : st (Manager FS) A) (w w' : @rworld W FS) a :
  on_mgr m w = (a, w') -> exists m', m (mgr w) = (a, m') /\ w' = mkRWorld m' (prefs w).
Proof. unfold on_mgr. destruct (m (mgr w)) as [x m'] eqn:Hm. intros [= <- <-]. eauto. Qed.

Lemma later_store {FS} (m m' : Manager FS) : later m m' -> store m' = store m.
Proof. by intros [n ->]. Qed.

Section RequestLemmas.
Context `{DocumentLaws} {AEnv W : Type} `{AtomicFile AEnv W} {Env FS : Type} `{SettingsFile Env FS}.
Context (o : Options) (e : environment Env) (write_env : AEnv) (prefs_path : path) (update : Update).

(** The outcomes of a request on the preferences [s]. *)
Definition request_outcome (s : pworld W) (w : @rworld W FS) (r : result Preferences) (w' : @rworld W FS) : Prop :=
  exists s', prefs w' = Some s' /\ valid_preferences (snapshot s') /\
  match r with
  | Ok p => next_preferences update (snapshot s) = Ok p /\ snapshot s' = p /\ Open None prefs_path (pfs s') = Ok p /\
            store (mgr w') = with_Revision (uint64 (Revision (store (mgr w)) + 1)) (store (mgr w))
  | Err _ => snapshot s' = snapshot s /\ store (mgr w') = store (mgr w) /\
             (af_read prefs_path (pfs s') = af_read prefs_path (pfs s) \/
              exists p, next_preferences update (snapshot s) = Ok p /\ Open None prefs_path (pfs s') = Ok p)
  end.

Lemma request_refused s w m x :
  valid_preferences (snapshot s) -> store m = store (mgr w) -> request_outcome s w (Err x) (mkRWorld m (Some s)).
Proof. intros Hv Hm. exists s. split_and!; [done..|]. by left. Qed.

(** The mutation of the coordinator. *)
Lemma prefs_mutation_inv s current (w w' : @rworld W FS) next err :
  valid_preferences (snapshot s) -> prefs_mutation e write_env prefs_path s update current w = ((next, err), w') ->
  next = current /\ store (mgr w') = store (mgr w) /\
  exists s' r, prefs w' = Some s' /\
    (match r with Ok _ => err = None | Err _ => exists x, err = Some (Ordinary x) end) /\
    match r with
    | Ok p => next_preferences update (snapshot s) = Ok p /\ snapshot s' = p /\ valid_preferences p /\
              Open None prefs_path (pfs s') = Ok p
    | Err _ => snapshot s' = snapshot s /\
               file_after_failure prefs_path (next_preferences update (snapshot s)) (pfs s) (pfs s')
    end.
Proof.
  intros Hv Hm. unfold prefs_mutation in Hm. apply st_bind_inv in Hm as (done & w1 & Hd & Hm).
  apply on_mgr_inv in Hd as (m1 & Hd & ->). apply ctxErr_later, later_store in Hd.
  destruct (Update_preferences done write_env prefs_path update s) as [r s'] eqn:Hu. injection Hm as <- <- <-.
  split_and!; [done..|]. exists s', r. split_and!; [done|destruct r; eauto|]. by eapply Update_inv.
Qed.

Lemma request_committed op s (w w' : @rworld W FS) done snap err :
  valid_preferences (snapshot s) -> prefs w = Some s ->
  Do done op (prefs_mutation e write_env prefs_path s update) w = ((snap, err), w') ->
  exists s', prefs w' = Some s' /\ request_outcome s w (match err with None => Ok (snapshot s') | Some x => Err x end) w'.
Proof.
  intros Hv Hs Hdo. unfold Do in Hdo. destruct done as [x|].
  { injection Hdo as <- <- <-. exists s. split; [done|]. destruct w as [m q]. simpl in Hs. subst q. by apply request_refused. }
  apply st_bind_inv in Hdo as (w0 & w0' & Hg & Hdo). injection Hg as <- <-. case_if_in Hdo.
  { injection Hdo as <- <- <-. exists s. split; [done|]. destruct w as [m q]. simpl in Hs. subst q. by apply request_refused. }
  apply st_bind_inv in Hdo as ([next merr] & w1 & Hm & Hdo).
  apply prefs_mutation_inv in Hm as (-> & Hst & s' & r & Hp & Herr & Hr); [|done]. exists s'.
  destruct r as [p|x].
  - subst merr. unfold st_bind, st_modify, st_ret in Hdo. injection Hdo as <- <- <-. split; [done|]. exists s'.
    destruct Hr as (Hn & <- & Hvp & Hopen). split_and!; try done.
  - destruct Herr as [y ->]. injection Hdo as <- <- <-. split; [done|]. exists s'. destruct Hr as [Hsame Hfile].
    split_and!; [done|by rewrite Hsame|done..].
Qed.

End RequestLemmas.

(** ** Theorems *)

(** A request that changes the display preferences.  When it succeeds, the
    preferences are the current ones with the given fields replaced, they are valid,
    in memory, and what the next start reads from the file, and the revision is one
    higher.  When it fails, memory and published state are unchanged, and the file
    is too, unless the write was committed and only reported a warning. *)
Theorem preferences_request_settles `{DocumentLaws} {AEnv W : Type} `{AtomicFile AEnv W} {Env FS : Type} `{SettingsFile Env FS}
    (o : Options) (e : environment Env) (write_env : AEnv) (prefs_path : path) (op : Operation) (update : Update)
    (w w' : @rworld W FS) (s : pworld W) (r : result Preferences) :
  prefs w = Some s -> valid_preferences (snapshot s) ->
  UpdateTUIPreferences o e write_env prefs_path op update w = (r, w') ->
  exists s', prefs w' = Some s' /\ valid_preferences (snapshot s') /\
  match r with
  | Ok p => next_preferences update (snapshot s) = Ok p /\ snapshot s' = p /\ Open None prefs_path (pfs s') = Ok p /\
            store (mgr w') = with_Revision (uint64 (Revision (store (mgr w)) + 1)) (store (mgr w))
  | Err _ => snapshot s' = snapshot s /\ store (mgr w') = store (mgr w) /\
             (af_read prefs_path (pfs s') = af_read prefs_path (pfs s) \/
              exists p, next_preferences update (snapshot s) = Ok p /\ Open None prefs_path (pfs s') = Ok p)
  end.
Proof.
  intros Hs Hv Hu. unfold UpdateTUIPreferences in Hu. apply st_bind_inv in Hu as (w0 & w0' & Hg & Hu).
  injection Hg as <- <-. rewrite Hs in Hu.
  apply st_check_inv in Hu as [(x & -> & Hl)|(w1 & Hl & Hu)];
    apply on_mgr_inv in Hl as (m1 & Hl & ->); apply lockMutation_spec in Hl as [Hlater _]; apply later_store in Hlater;
    rewrite Hs in *; [by apply (request_refused prefs_path update)|].
  apply st_bind_inv in Hu as (done & w2 & Hd & Hu). apply on_mgr_inv in Hd as (m2 & Hd & ->).
  apply ctxErr_later, later_store in Hd. cbn [mgr prefs] in *.
  apply st_bind_inv in Hu as ([snap err] & w3 & Hdo & Hu).
  apply request_committed in Hdo as (s' & Hp & s1 & Hs1 & Hv1 & Hout); [|done..].
  unfold on_mgr, unlock, st_bind, st_modify, st_get, st_ret in Hu. cbn [prefs] in Hu. rewrite Hp in Hu.
  assert (s1 = s') as -> by congruence. injection Hu as <- <-. exists s'. split; [done|]. split; [done|]. cbn [mgr] in Hout. rewrite Hd, Hlater in Hout.
  destruct err; done.
Qed.

(** The setup marker survives a restart: after a successful change, or after the
    first start, the next start reads the marker that is in memory; a failed change
    alters neither memory nor file. *)
Theorem marker_survives_restart `{MarkerLaws} {AEnv W : Type} `{AtomicFile AEnv W} (env : AEnv) (path : path)
    (complete : option bool) (w w' : oworld W) (r : result OnboardingState) :
  loadState None path (ofs w) = Ok (marker w) -> Update_onboarding env path complete w = (r, w') ->
  loadState None path (ofs w') = Ok (marker w') /\
  match r with
  | Ok s => marker w' = s /\ s = mkOnboarding (default (Complete (marker w)) complete)
  | Err _ => marker w' = marker w /\ af_read path (ofs w') = af_read path (ofs w)
  end.
Proof.
  intros Hl Hu. unfold Update_onboarding in Hu. destruct complete as [c|].
  2: { injection Hu as <- <-. split_and!; try done. by destruct (marker w). }
  case_if_in Hu; [injection Hu as <- <-; split_and!; try done|].
  { apply Bool.eqb_prop in Heqb. subst c. by destruct (marker w). }
  unfold saveState in Hu. simpl in Hu. destruct (json_Marshal_state (mkPersisted stateSchema c)) as [raw|] eqn:Hraw;
    [|injection Hu as <- <-; done].
  destruct (af_write env path (raw ++ newline) (ofs w)) as [[cr err] f] eqn:Hw. destruct (Committed cr) eqn:Hc.
  - destruct (af_committed _ _ _ _ _ _ _ Hw Hc) as [-> Hread]. injection Hu as <- <-. simpl. split; [|done].
    unfold loadState, decodeState. rewrite Hread. assert (Hlen := marker_small _ _ Hraw). case_if; breflect; [lia|].
    rewrite (decode_marker _ _ Hraw). done.
  - destruct (af_failed _ _ _ _ _ _ _ Hw Hc) as [He Hread]. destruct err as [x|]; [|done]. injection Hu as <- <-. simpl.
    split; [|done]. unfold loadState in *. by rewrite Hread.
Qed.

(** *** A codec *)

Definition tuple_of (d : document) :=
  (d_Schema d, d_ConnectionsColumns d,
   (fun q => (ExtraLatency q, AutoLatencyTest q, LatencyTestConcurrency q)) <$> d_Proxies d, d_LogLevels d).

Definition of_tuple (t : string * list string * option (bool * bool * Z) * option (list string)) : document :=
  let '(s, c, q, l) := t in
  mkDocument s c ((fun '(x, a, n) => mkProxyPreferences x a n) <$> q) l.

Lemma of_tuple_of d : of_tuple (tuple_of d) = d.
Proof. by destruct d as [s c [[x a n]|] l]. Qed.

#[local] Instance ex_json : PreferencesJSON :=
  {| json_MarshalIndent := fun d =>
       let text := bits_text (encode (tuple_of d)) in
       if len (text ++ newline) <=? maxFileSizeBytes then Some text else None;
     json_Decode := fun target raw =>
       match decode (text_bits raw) with
       | Some t => Ok (overlay target (of_tuple t), true)
       | None => Err (EText "json")
       end |}.

#[local] Instance ex_laws : DocumentLaws.
Proof.
  split.
  - intros target d raw. simpl. case_if; [|done]. intros [= <-]. by rewrite text_bits_text, decode_encode, of_tuple_of.
  - intros p raw _. simpl. case_if; [|done]. intros [= <-]. by breflect.
Defined.

#[local] Instance ex_prefs_settings : SettingsFile bool (option Settings) := memory_file.

Definition ex_prefs_path : path := ("/data", "preferences.json")%string.
Definition ex_prefs_manager : Manager (option Settings) :=
  mkManager example_settings 7 false false false None false zero_Snapshot None "" ""
    (Some (canonical example_settings)) (mkKernel ∅ None) (mkProxyState false "") 0.
Definition ex_prefs_world : rworld := mkRWorld ex_prefs_manager (Some (mkPWorld defaults (mkFS ∅ []))).
Definition ex_prefs_options : Options := mkOptions false "" "settings.yaml" true true false.
Definition ex_prefs_env : environment bool :=
  mkEnvironment None (fun _ => None) (fun _ => None) (fun _ k => (k, None)) (fun _ _ p => (p, None)) (fun _ => true).
Definition ex_prefs_update : Update := mkUpdate None (Some (mkProxyPreferences false true 0)) (Some ["warn"; "error"]%string).
Definition ex_prefs_next : Preferences :=
  mkPreferences defaultColumns (mkProxyPreferences false true 5) ["warn"; "error"]%string.

Definition ex_prefs_run (sync : option error) : result Preferences * rworld :=
  UpdateTUIPreferences ex_prefs_options ex_prefs_env
    (mkAtomicEnv None "x" None None "" None None None None sync None None) ex_prefs_path
    (mkOperation "op-1" "tui" (Some 0)) ex_prefs_update ex_prefs_world.

(** The parent directory cannot be synced after the rename: the request fails and
    memory keeps the old preferences, but the file has the new ones and the next
    start shows them. *)
Example warning_splits_memory_and_file :
  match ex_prefs_run (Some (EText "sync")) with
  | (Err _, mkRWorld m (Some s)) =>
      snapshot s = defaults /\ Open None ex_prefs_path (pfs s) = Ok ex_prefs_next /\ Revision (store m) = 0
  | _ => False
  end.
Proof. by vm_compute. Qed.

Lemma preferences_request_settles_witness :
  match ex_prefs_run None with
  | (Ok p, mkRWorld m (Some s)) =>
      p = ex_prefs_next /\ Open None ex_prefs_path (pfs s) = Ok p /\ Revision (store m) = 1
  | _ => False
  end.
Proof.
  destruct (ex_prefs_run None) as [r w'] eqn:Hrun.
  pose proof (preferences_request_settles ex_prefs_options ex_prefs_env _ ex_prefs_path _ ex_prefs_update ex_prefs_world w'
    _ r eq_refl defaults_valid Hrun) as (s' & Hs & _ & Hr).
  assert (Hok : r = Ok ex_prefs_next) by (vm_compute in Hrun; by injection Hrun as <- <-). subst r.
  destruct w' as [m q]. simpl in Hs. subst q. destruct Hr as (_ & _ & Ho & Hst). split; [done|]. split; [exact Ho|].
  simpl in Hst. by rewrite Hst.
Defined.
