(* ===== verification/Panels.v ===== *)
(** * Panels: installed web panels and the active pointer

    Models [internal/panel/service.go], [active.go], [install.go] and [catalog.go].

    Builds of panels are directory trees under the web root.  The file
    "active.json" names the panel and build that the gateway serves, and for each
    panel the build a rollback returns to.  Installing prepares a tree in the
    staging directory and moves it into place; reinstalling replaces all builds of
    a panel and moves the pointer.

    [pnworld] holds the builds by panel and name, the staging directory, and the
    files of [AtomicFile].  Panel and build names are single path components, which
    [validateInstallRequest] requires of every installed build.  Each system call
    takes the next number; [penv] says how it goes.  Downloading an archive and unpacking it is each
    an outcome of the environment.  Reports to the diagnostic log are not recorded. *)

From Stdlib Require Import Ascii.
From S2P Require Import Prelude GoStd Atomic Catalog.

(** ** Data *)

(** An entry of a tree: its path below the root, and whether it is a directory. *)
Record entry := mkEntry {
  en_path : list string;
  en_dir : bool
}.
Abbreviation tree := (list entry).

(** The builds of a panel. *)
Abbreviation builds := (gmap string tree).

(** What lies in the staging directory: a tree, or the builds of a panel that
    were moved aside. *)
Inductive staged :=
| StagedBuild (t : tree)
| StagedPanel (b : builds).

Record Active := mkActive {
  Panel : string;
  Build : string;
  Previous : gmap string string
}.
#[export] Instance Active_eq_dec : EqDecision Active.
Proof. solve_decision. Defined.

Definition no_active : Active := mkActive "" "" ∅.

Class ActiveJSON := {
  json_Marshal_active : Active -> option string;
  json_Unmarshal_active : string -> option Active
}.

Record PanelInfo := mkPanelInfo {
  pi_ID : string;
  pi_Name : string;
  pi_Active : bool;
  InstalledBuild : string;
  RollbackBuild : string;
  pi_Health : string
}.

Inductive mode := Install | Update | Reinstall.

Record prepared := mkPrepared {
  pp_panelID : string;
  pp_build : string;
  candidateDir : string;
  cleanupDirs : list string;
  pp_mode : mode;
  noOp : bool;
  pp_committed : bool;
  cleaned : bool
}.

(** [BuiltInCatalog]. *)
Definition BuiltInCatalog : list (string * string) := [("zashboard", "Zashboard"); ("metacubexd", "MetaCubeXD")]%string.
Definition Lookup (id : string) : option (string * string) := find (fun e => String.eqb (fst e) id) BuiltInCatalog.

Record pnworld (W : Type) := mkPNWorld {
  ptick : nat;
  web : gmap string builds;
  stage : gmap string staged;
  pnfiles : W
}.
Arguments mkPNWorld {W}. Arguments ptick {W}. Arguments web {W}. Arguments stage {W}. Arguments pnfiles {W}.

Record penv (AEnv : Type) := mkPEnv {
  pe_sys : nat -> option error;                   (** how a call on an existing name fails *)
  pe_left : nat -> builds -> builds;              (** what a failed removal leaves of a panel *)
  pe_left_tree : nat -> tree -> tree;             (** and of a build *)
  pe_write : nat -> AEnv;
  pe_temp : nat -> string;                        (** the name [os.MkdirTemp] makes *)
  pe_latest : nat -> result (string * string);    (** [ResolveLatest]: build and address *)
  pe_download : nat -> option error;
  pe_unpacked : nat -> result tree;               (** the unpacked archive *)
  pe_allowHTTP : bool;
  pe_adapters : list string;
  rename_onto_empty : bool                        (** a directory may replace an empty one *)
}.
Arguments mkPEnv {AEnv}. Arguments pe_sys {AEnv}. Arguments pe_left {AEnv}. Arguments pe_left_tree {AEnv}.
Arguments pe_write {AEnv}. Arguments pe_temp {AEnv}. Arguments pe_latest {AEnv}. Arguments pe_unpacked {AEnv}. Arguments pe_download {AEnv}. Arguments pe_allowHTTP {AEnv}.
Arguments pe_adapters {AEnv}. Arguments rename_onto_empty {AEnv}.

(** A tree can be served: it has an "index.html". *)
Definition is_index `{CaseFold} (e : entry) : bool :=
  negb (en_dir e) && match last (en_path e) with Some name => EqualFold name "index.html" | None => false end.
Definition complete `{CaseFold} (t : tree) : bool :=
  existsb (fun e => bool_decide (en_path e = ["index.html"%string])) t || existsb is_index t.

Section Panels.
Context `{CaseFold} `{ActiveJSON} `{SourceSyntax} `{Unicode} {AEnv W : Type} `{AtomicFile AEnv W} (E : penv AEnv) (webActive : path).

Abbreviation P := (st (pnworld W)).

(** ** System calls *)

Definition pnext : P nat := fun w => (ptick w, mkPNWorld (S (ptick w)) (web w) (stage w) (pnfiles w)).
Definition pcall : P (option error) := let! n := pnext in st_ret (pe_sys E n).
Definition set_web (b : gmap string builds) : P unit := st_modify (fun w => mkPNWorld (ptick w) b (stage w) (pnfiles w)).
Definition set_stage (s : gmap string staged) : P unit := st_modify (fun w => mkPNWorld (ptick w) (web w) s (pnfiles w)).
Definition set_files (f : W) : P unit := st_modify (fun w => mkPNWorld (ptick w) (web w) (stage w) f).

Definition build_of (panelID build : string) (w : pnworld W) : option tree := web w !! panelID ≫= lookup build.

(** [os.MkdirAll] of a panel's directory. *)
Definition make_panel (panelID : string) : P (option error) :=
  let! x := pcall in
  match x with
  | Some x => st_ret (Some x)
  | None =>
      let! w := st_get in
      do! match web w !! panelID with
          | Some _ => st_ret tt
          | None => set_web (<[panelID := ∅]> (web w))
          end in
      st_ret None
  end.

(** [os.RemoveAll] of a build, of a panel and of a name in the staging
    directory; a failure may remove a part. *)
Definition remove_build (panelID build : string) : P (option error) :=
  let! n := pnext in
  let! w := st_get in
  match web w !! panelID with
  | None => st_ret None
  | Some b =>
      match b !! build, pe_sys E n with
      | None, _ => st_ret None
      | Some t, Some x => do! set_web (<[panelID := <[build := pe_left_tree E n t]> b]> (web w)) in st_ret (Some x)
      | Some _, None => do! set_web (<[panelID := delete build b]> (web w)) in st_ret None
      end
  end.

Definition remove_panel (panelID : string) : P (option error) :=
  let! n := pnext in
  let! w := st_get in
  match web w !! panelID, pe_sys E n with
  | None, _ => st_ret None
  | Some b, Some x => do! set_web (<[panelID := pe_left E n b]> (web w)) in st_ret (Some x)
  | Some _, None => do! set_web (delete panelID (web w)) in st_ret None
  end.

Definition remove_staged (name : string) : P (option error) :=
  let! n := pnext in
  let! w := st_get in
  match stage w !! name, pe_sys E n with
  | None, _ => st_ret None
  | Some _, Some x => st_ret (Some x)
  | Some _, None => do! set_stage (delete name (stage w)) in st_ret None
  end.

(** [os.Rename] of a staged tree to a build that does not exist. *)
Definition promote (name panelID build : string) : P (option error) :=
  let! n := pnext in
  let! w := st_get in
  match pe_sys E n, stage w !! name, web w !! panelID with
  | Some x, _, _ => st_ret (Some x)
  | None, Some (StagedBuild t), Some b =>
      match b !! build with
      | Some _ => st_ret (Some (EText "file exists"))
      | None =>
          do! set_stage (delete name (stage w)) in
          do! set_web (<[panelID := <[build := t]> b]> (web w)) in st_ret None
      end
  | None, Some (StagedPanel _), Some _ => st_ret (Some (EText "not a build"))
  | None, _, _ => st_ret (Some (ESentinel ErrNotExist))
  end.

(** [os.Rename] of a backup to a panel's directory. *)
Definition put_panel_back (name panelID : string) : P (option error) :=
  let! n := pnext in
  let! w := st_get in
  match pe_sys E n, stage w !! name with
  | Some x, _ => st_ret (Some x)
  | None, Some (StagedPanel b) =>
      let free := match web w !! panelID with
                  | None => true
                  | Some b' => rename_onto_empty E && bool_decide (b' = ∅)
                  end in
      if free then
        do! set_stage (delete name (stage w)) in
        do! set_web (<[panelID := b]> (web w)) in st_ret None
      else st_ret (Some (EText "file exists"))
  | None, Some (StagedBuild _) => st_ret (Some (EText "not a panel"))
  | None, None => st_ret (Some (ESentinel ErrNotExist))
  end.

(** [os.Stat] of a directory. *)
Definition exists_dir (present : pnworld W -> bool) : P (result bool) :=
  let! x := pcall in
  let! w := st_get in
  st_ret (if present w then match x with Some x => Err x | None => Ok true end else Ok false).

(** ** The active pointer *)

Definition LoadActive : P (result Active) :=
  let! x := pcall in
  let! w := st_get in
  st_ret match af_read webActive (pnfiles w), x with
         | None, _ => Ok no_active
         | Some _, Some x => Err x
         | Some raw, None =>
             match json_Unmarshal_active raw with
             | None => Err (EWrap (mkAPIError CodeDataFailure "invalid panel active pointer" false) (EText "json"))
             | Some a => Ok a
             end
         end.

Definition end_of_line : string := line_end.

Definition SaveActive (a : Active) : P (option error) :=
  if negb (Bool.eqb (String.eqb (Panel a) "") (String.eqb (Build a) ""))
  then st_ret (Some (api_error CodeInvalidArgument "panel active pointer requires panel and build"))
  else if String.eqb (Panel a) "" && bool_decide (Previous a = ∅) then
    let! x := pcall in
    let! w := st_get in
    match af_read webActive (pnfiles w), x with
    | None, _ => st_ret None
    | Some _, Some x => st_ret (Some x)
    | Some _, None => do! set_files (af_remove webActive (pnfiles w)) in st_ret None
    end
  else
    match json_Marshal_active a with
    | None => st_ret (Some (EFmt "encode panel active pointer" (EText "json")))
    | Some raw =>
        let! n := pnext in
        let! w := st_get in
        let '(r, err, f) := af_write (pe_write E n) webActive (raw ++ end_of_line) (pnfiles w) in
        do! set_files f in
        st_ret match err with Some x => Some x | None => Warning r end
    end.

Definition clonePrevious (m : gmap string string) : gmap string string :=
  filter (fun e => fst e <> ""%string /\ snd e <> ""%string) m.

(** ** Builds *)

Definition buildReadyLocked (panelID build : string) : P bool :=
  let! x := pcall in
  let! w := st_get in
  st_ret match x, build_of panelID build w with
         | None, Some t => complete t
         | _, _ => false
         end.

(** Newest first. *)
Fixpoint insert_build (b : string) (l : list string) : list string :=
  match l with
  | [] => [b]
  | c :: rest => if String.ltb c b then b :: l else c :: insert_build b rest
  end.

Fixpoint ready_builds (panelID : string) (names : list string) : P (list string) :=
  match names with
  | [] => st_ret []
  | b :: rest =>
      let! r := buildReadyLocked panelID b in
      let! l := ready_builds panelID rest in
      st_ret (if r then insert_build b l else l)
  end.

Definition listBuildsLocked (panelID : string) : P (list string) :=
  let! x := pcall in
  let! w := st_get in
  match x, web w !! panelID with
  | None, Some b => ready_builds panelID (map fst (map_to_list b))
  | _, _ => st_ret []
  end.

Fixpoint prune_each (panelID : string) (keep names : list string) : P unit :=
  match names with
  | [] => st_ret tt
  | b :: rest =>
      do! (if bool_decide (b ∈ keep) then st_ret None else remove_build panelID b) in
      prune_each panelID keep rest
  end.

Definition pruneBuildsLocked (panelID activeBuild previousBuild : string) : P unit :=
  let! x := pcall in
  let! w := st_get in
  match x, web w !! panelID with
  | None, Some b =>
      prune_each panelID (activeBuild :: (if String.eqb previousBuild "" then [] else [previousBuild])) (map fst (map_to_list b))
  | _, _ => st_ret tt
  end.

Definition adapterLocked (panelID : string) : option error :=
  if bool_decide (panelID ∈ pe_adapters E) then None
  else match Lookup panelID with
       | None => Some (api_error CodeInvalidArgument "unknown panel")
       | Some _ => Some (api_error CodeInvalidState "panel adapter is unavailable")
       end.

(** ** Requests on the pointer *)

Definition previous_build (a : Active) (panelID : string) : string := default ""%string (Previous a !! panelID).

(** The pointer after the activation of [build]. *)
Definition activated_pointer (panelID build : string) (current : Active) : Active :=
  let previous := clonePrevious (Previous current) in
  let previous :=
    if String.eqb (Panel current) panelID && negb (String.eqb (Build current) "") && negb (String.eqb (Build current) build)
    then <[panelID := Build current]> previous
    else if negb (String.eqb (Panel current) "") && negb (String.eqb (Panel current) panelID) && negb (String.eqb (Build current) "")
            && String.eqb (default ""%string (previous !! Panel current)) ""
    then <[Panel current := Build current]> previous
    else previous in
  mkActive panelID build previous.

Definition Activate (done : option error) (panelID : string) : P (option error) :=
  match done, adapterLocked panelID with
  | Some x, _ => st_ret (Some x)
  | None, Some x => st_ret (Some x)
  | None, None =>
      let! l := listBuildsLocked panelID in
      match l with
      | [] => st_ret (Some (api_error CodeInvalidState "panel is not installed"))
      | build :: _ =>
          let! ready := buildReadyLocked panelID build in
          if negb ready then st_ret (Some (api_error CodeInvalidState "panel build is incomplete"))
          else
            let! c := LoadActive in
            match c with
            | Err x => st_ret (Some x)
            | Ok current =>
                let next := activated_pointer panelID build current in
                let! x := SaveActive next in
                match x with
                | Some x => st_ret (Some x)
                | None => do! pruneBuildsLocked panelID build (previous_build next panelID) in st_ret None
                end
            end
      end
  end.

Definition Rollback (done : option error) (panelID : string) : P (option error) :=
  match done with
  | Some x => st_ret (Some x)
  | None =>
      let! c := LoadActive in
      match c with
      | Err x => st_ret (Some x)
      | Ok current =>
          let target := previous_build current panelID in
          if String.eqb target "" then st_ret (Some (api_error CodeInvalidState "panel has no rollback build"))
          else
            let! ready := buildReadyLocked panelID target in
            if negb ready then st_ret (Some (api_error CodeInvalidState "panel rollback build is missing"))
            else
              let previous := clonePrevious (Previous current) in
              let previous := if String.eqb (Panel current) panelID && negb (String.eqb (Build current) "")
                              then <[panelID := Build current]> previous else delete panelID previous in
              SaveActive (mkActive panelID target previous)
      end
  end.

Definition RemoveBuild (panelID build : string) : P (option error) :=
  let! c := LoadActive in
  match c with
  | Err x => st_ret (Some x)
  | Ok active =>
      if String.eqb (Panel active) panelID && String.eqb (Build active) build
      then st_ret (Some (api_error CodeInvalidState "cannot delete active panel build"))
      else if negb (bool_decide (Previous active = ∅)) && String.eqb (previous_build active panelID) build
      then st_ret (Some (api_error CodeInvalidState "cannot delete panel rollback build"))
      else remove_build panelID build
  end.

Definition Uninstall (done : option error) (panelID : string) : P (option error) :=
  match done with
  | Some x => st_ret (Some x)
  | None =>
      if String.eqb panelID "" then st_ret (Some (api_error CodeInvalidArgument "panel id is required"))
      else match Lookup panelID with
      | None => st_ret (Some (api_error CodeInvalidArgument "unknown panel"))
      | Some _ =>
          let! c := LoadActive in
          match c with
          | Err x => st_ret (Some x)
          | Ok active =>
              let previous := delete panelID (clonePrevious (Previous active)) in
              let! x :=
                if String.eqb (Panel active) panelID then SaveActive (mkActive "" "" previous)
                else if negb (String.eqb (Panel active) "") then SaveActive (mkActive (Panel active) (Build active) previous)
                else if negb (size previous =? size (Previous active))%nat then SaveActive (mkActive "" "" previous)
                else st_ret None in
              match x with
              | Some x => st_ret (Some x)
              | None =>
                  let! x := remove_panel panelID in
                  st_ret (option_map (EFmt "remove panel install tree") x)
              end
          end
      end
  end.

(** ** Preparing and committing a build *)

Definition path_unsafe (s : string) : bool := Contains s ".." || Contains s "/" || Contains s "\".

(** The names of an [InstallRequest]; its paths are the service's. *)
Definition validateInstallRequest (panelID build : string) : option error :=
  if String.eqb panelID "" || String.eqb build ""
  then Some (api_error CodeInvalidArgument "panel install requires panel id and build")
  else if path_unsafe panelID || path_unsafe build
  then Some (api_error CodeInvalidArgument "panel id and build must be path-safe")
  else None.

(** The candidate is unpacked in a new directory; a failure removes it. *)
Definition prepareInstallCandidate (panelID build : string) : P (result string) :=
  match validateInstallRequest panelID build with
  | Some x => st_ret (Err x)
  | None =>
      let! n := pnext in
      let! w := st_get in
      let dir := pe_temp E n in
      match pe_sys E n, stage w !! dir with
      | Some x, _ => st_ret (Err (EFmt "create panel staging candidate" x))
      | None, Some _ => st_ret (Err (EFmt "create panel staging candidate" (ESentinel ErrExist)))
      | None, None =>
          match pe_unpacked E n with
          | Ok t => do! set_stage (<[dir := StagedBuild t]> (stage w)) in st_ret (Ok dir)
          | Err x =>
              let! y := pcall in
              match y with
              | Some y =>
                  do! set_stage (<[dir := StagedBuild []]> (stage w)) in
                  st_ret (Err (EJoin x (EFmt "remove panel staging tree" y)))
              | None => st_ret (Err x)
              end
          end
      end
  end.

(** [validateDownloadURL] of the panels. *)
Definition validateAssetURL (raw : string) : option error :=
  match url_Parse raw with
  | Err x => Some (EWrap (mkAPIError CodeInvalidArgument "invalid panel asset url" false) x)
  | Ok (scheme, host) =>
      if String.eqb host "" then Some (api_error CodeInvalidArgument "invalid panel asset url")
      else if String.eqb (ToLower scheme) "https" then None
      else if String.eqb (ToLower scheme) "http" then
        if pe_allowHTTP E then None else Some (api_error CodeInvalidArgument "panel asset url must use https")
      else Some (api_error CodeInvalidArgument "invalid panel asset url scheme")
  end.

Definition prepareBuild (panelID build url : string) (m : mode) : P (result prepared) :=
  match validateAssetURL url with
  | Some x => st_ret (Err x)
  | None =>
      let! n := pnext in
      match pe_download E n with
      | Some x => st_ret (Err x)
      | None =>
          try! dir := prepareInstallCandidate panelID build in
          st_ret (Ok (mkPrepared panelID build dir [] m false false false))
      end
  end.

(** [ResolveLatest] of the panel's adapter. *)
Definition resolve_latest (panelID : string) : P (result (string * string)) :=
  match adapterLocked panelID with
  | Some x => st_ret (Err x)
  | None => let! n := pnext in st_ret (pe_latest E n)
  end.

Definition empty_build : error := api_error CodeDataFailure "panel adapter returned empty build".

Definition PrepareInstall (panelID pinBuild : string) : P (result prepared) :=
  try! '(build, url) := resolve_latest panelID in
  if negb (String.eqb pinBuild "") && negb (String.eqb pinBuild build)
  then st_ret (Err (api_error CodeInvalidArgument "pinned panel build does not match resolved build"))
  else if String.eqb build "" || String.eqb url "" then st_ret (Err empty_build)
  else prepareBuild panelID build url Install.

Definition PrepareUpdate (panelID : string) : P (result prepared) :=
  try! '(build, url) := resolve_latest panelID in
  if String.eqb build "" || String.eqb url "" then st_ret (Err empty_build)
  else
    let! l := listBuildsLocked panelID in
    let! current := match l with
                    | b :: _ => if String.eqb b build then buildReadyLocked panelID build else st_ret false
                    | [] => st_ret false
                    end in
    if current then st_ret (Ok (mkPrepared panelID build "" [] Install true false false))
    else prepareBuild panelID build url Update.

Definition PrepareReinstall (panelID : string) : P (result prepared) :=
  try! '(build, url) := resolve_latest panelID in
  if String.eqb build "" || String.eqb url "" then st_ret (Err empty_build)
  else prepareBuild panelID build url Reinstall.

Definition candidateReady (dir : string) : P bool :=
  if String.eqb dir "" then st_ret false
  else
    let! x := pcall in
    let! w := st_get in
    st_ret match x, stage w !! dir with
           | None, Some (StagedBuild t) => complete t
           | _, _ => false
           end.

Definition validLocked (p : prepared) : P bool :=
  if cleaned p || String.eqb (pp_panelID p) "" || String.eqb (pp_build p) "" then st_ret false
  else if noOp p || pp_committed p then st_ret true
  else candidateReady (candidateDir p).

(** A build or a panel is moved to the staging directory, if it exists. *)
Definition move_aside (present : pnworld W -> option staged) (take : pnworld W -> gmap string builds) (backup : string)
    : P (result bool) :=
  let! s := exists_dir (fun w => bool_decide (is_Some (present w))) in
  match s with
  | Err x => st_ret (Err x)
  | Ok false => st_ret (Ok false)
  | Ok true =>
      let! x := remove_staged backup in
      match x with
      | Some x => st_ret (Err (EFmt "remove previous panel backup" x))
      | None =>
          let! x := pcall in
          let! w := st_get in
          match x, present w with
          | Some x, _ => st_ret (Err (EFmt "retain previous panel install" x))
          | None, None => st_ret (Err (EFmt "retain previous panel install" (ESentinel ErrNotExist)))
          | None, Some s =>
              do! set_stage (<[backup := s]> (stage w)) in
              do! set_web (take w) in
              st_ret (Ok true)
          end
      end
  end.

Definition move_build_aside (panelID build : string) : string -> P (result bool) :=
  move_aside (fun w => StagedBuild <$> build_of panelID build w)
    (fun w => <[panelID := delete build (default ∅ (web w !! panelID))]> (web w)).
Definition move_panel_aside (panelID : string) : string -> P (result bool) :=
  move_aside (fun w => StagedPanel <$> web w !! panelID) (fun w => delete panelID (web w)).

Definition promoteInstallCandidate (dir panelID build : string) : P (option error) :=
  let! x := make_panel panelID in
  match x with
  | Some x => st_ret (Some (EFmt "create panel install directory" x))
  | None =>
      let! x := remove_build panelID build in
      match x with
      | Some x => st_ret (Some (EFmt "remove incomplete panel install" x))
      | None =>
          let! x := promote dir panelID build in
          st_ret (option_map (EWrap (mkAPIError CodeDataFailure "promote panel install candidate" false)) x)
      end
  end.

Definition add_cleanup (had : bool) (backup : string) (p : prepared) : prepared :=
  mkPrepared (pp_panelID p) (pp_build p) (candidateDir p) (cleanupDirs p ++ (if had then [backup] else []))
    (pp_mode p) (noOp p) (pp_committed p) (cleaned p).

(** A failure after which the old state could not be restored. *)
Definition not_restored (x : error) (m : string) (y : error) : error := EJoin x (EFmt m y).

Definition commitUpdateLocked (p : prepared) : P (prepared * option error) :=
  let panelID := pp_panelID p in
  let backup := (candidateDir p ++ "-previous")%string in
  let! r := move_build_aside panelID (pp_build p) backup in
  match r with
  | Err x => st_ret (p, Some x)
  | Ok had =>
      let! x := promoteInstallCandidate (candidateDir p) panelID (pp_build p) in
      match x with
      | Some x =>
          if had then
            let! y := promote backup panelID (pp_build p) in
            st_ret (p, Some match y with Some y => not_restored x "restore previous panel build" y | None => x end)
          else st_ret (p, Some x)
      | None => st_ret (add_cleanup had backup p, None)
      end
  end.

(** The pointer after a reinstallation. *)
Definition reinstalled_pointer (panelID build : string) (current : Active) : Active :=
  let previous := delete panelID (clonePrevious (Previous current)) in
  if String.eqb (Panel current) panelID then mkActive panelID build previous
  else mkActive (Panel current) (Build current) previous.

(** The builds that were moved aside are put back. *)
Definition restore_panel (p : prepared) (backup : string) (had : bool) (x : error) : P (prepared * option error) :=
  if had then
    let! y := put_panel_back backup (pp_panelID p) in
    st_ret (p, Some match y with Some y => not_restored x "restore previous panel install" y | None => x end)
  else st_ret (p, Some x).

(** The pointer was not saved: the new build is removed first. *)
Definition abandon_panel (p : prepared) (backup : string) (had : bool) (x : error) : P (prepared * option error) :=
  let! y := remove_panel (pp_panelID p) in
  match y with
  | Some y => st_ret (p, Some (not_restored x "remove uncommitted panel install" y))
  | None => restore_panel p backup had x
  end.

Definition commitReinstallLocked (p : prepared) : P (prepared * option error) :=
  let panelID := pp_panelID p in
  let backup := (candidateDir p ++ "-previous-panel")%string in
  let! c := LoadActive in
  match c with
  | Err x => st_ret (p, Some x)
  | Ok current =>
      let! r := move_panel_aside panelID backup in
      match r with
      | Err x => st_ret (p, Some x)
      | Ok had =>
          let! x := promoteInstallCandidate (candidateDir p) panelID (pp_build p) in
          match x with
          | Some x => restore_panel p backup had x
          | None =>
              let! x := SaveActive (reinstalled_pointer panelID (pp_build p) current) in
              match x with
              | Some x => abandon_panel p backup had x
              | None => st_ret (add_cleanup had backup p, None)
              end
          end
      end
  end.

Definition mark_committed (keep_dir : bool) (p : prepared) : prepared :=
  mkPrepared (pp_panelID p) (pp_build p) (if keep_dir then candidateDir p else ""%string) (cleanupDirs p)
    (pp_mode p) (noOp p) true (cleaned p).

(** [preparedPanelMutation.Commit]. *)
Definition Commit (p : prepared) : P (prepared * option error) :=
  if pp_committed p then st_ret (p, None)
  else
    let! valid := validLocked p in
    if negb valid
    then st_ret (p, Some (api_error CodeDataFailure "panel update candidate changed before commit"))
    else if noOp p then st_ret (mark_committed true p, None)
    else
      let! ready := match pp_mode p with
                    | Reinstall => st_ret false
                    | _ => buildReadyLocked (pp_panelID p) (pp_build p)
                    end in
      if ready then st_ret (mark_committed true p, None)
      else
        let! '(q, x) := match pp_mode p with
                        | Reinstall => commitReinstallLocked p
                        | _ => commitUpdateLocked p
                        end in
        st_ret match x with
               | Some x => (q, Some x)
               | None => (mark_committed false q, None)
               end.

Fixpoint remove_each (dirs : list string) : P unit :=
  match dirs with
  | [] => st_ret tt
  | d :: rest => do! remove_staged d in remove_each rest
  end.

Definition Cleanup (p : prepared) : P prepared :=
  do! (if String.eqb (candidateDir p) "" then st_ret None else remove_staged (candidateDir p)) in
  do! remove_each (cleanupDirs p) in
  st_ret (mkPrepared (pp_panelID p) (pp_build p) "" [] (pp_mode p) (noOp p) (pp_committed p) true).

(** ** What clients see *)

(** The build of [PanelDir]: of the active panel the active build. *)
Definition PanelDir (panelID : string) : P (result string) :=
  if String.eqb panelID "" then st_ret (Err (api_error CodeInvalidArgument "panel id is required"))
  else match Lookup panelID with
  | None => st_ret (Err (api_error CodeInvalidArgument "unknown panel"))
  | Some _ =>
      try! active := LoadActive in
      let! ready := if String.eqb (Panel active) panelID && negb (String.eqb (Build active) "")
                    then buildReadyLocked panelID (Build active) else st_ret false in
      if ready then st_ret (Ok (Build active))
      else
        let! l := listBuildsLocked panelID in
        st_ret (Ok (match l with b :: _ => b | [] => ""%string end))
  end.

Definition panel_info (active : Active) (entry : string * string) : P PanelInfo :=
  let '(id, name) := entry in
  let! l := listBuildsLocked id in
  let is_active := String.eqb (Panel active) id && negb (String.eqb (Build active) "") in
  let '(installed, health) := match l with b :: _ => (b, "installed") | [] => ("", "missing") end%string in
  st_ret (mkPanelInfo id name is_active (if is_active then Build active else installed)
            (previous_build active id) (if is_active then "active"%string else health)).

Fixpoint panel_infos (active : Active) (entries : list (string * string)) : P (list PanelInfo) :=
  match entries with
  | [] => st_ret []
  | e :: rest => let! i := panel_info active e in let! l := panel_infos active rest in st_ret (i :: l)
  end.

Definition List_panels : P (list PanelInfo) :=
  let! c := LoadActive in
  panel_infos (match c with Ok a => a | Err _ => no_active end) BuiltInCatalog.

End Panels.
