(* ===== verification/PanelPointer.v ===== *)
(** * PanelPointer: the active panel can be served

    Whatever fails, installing, updating, activating, rolling back, removing and
    uninstalling panels leave an active pointer whose panel and rollback builds
    are complete trees; the only exceptions are errors that say that a restore
    failed, and a reinstallation whose pointer was written with a warning.

    - [pointer]: what the file "active.json" says.
    - [served]: a build is there and complete.
    - [pointer_ok]: the invariant.
    - [keeps]: builds that a step does not change. *)

From Stdlib Require Import Ascii.
From S2P Require Import Prelude GoStd Atomic Catalog Panels.

(** What the code relies on in [encoding/json]. *)
Class ActiveLaws `{ActiveJSON} := {
  active_decodes : forall a raw, json_Marshal_active a = Some raw -> json_Unmarshal_active (raw ++ end_of_line) = Some a
}.

Section Pointer.
Context `{CaseFold} `{ActiveLaws} `{SourceSyntax} `{Unicode} {AEnv W : Type} `{AtomicFile AEnv W} (webActive : path).

Abbreviation PW := (pnworld W).

Definition pointer (w : PW) : option Active :=
  match af_read webActive (pnfiles w) with None => Some no_active | Some raw => json_Unmarshal_active raw end.

Definition served (w : PW) (panelID build : string) : Prop :=
  exists t, build_of panelID build w = Some t /\ complete t = true.

(** The builds that a pointer names can be served. *)
Definition names_served (w : PW) (a : Active) : Prop :=
  (Panel a = ""%string <-> Build a = ""%string) /\
  (Panel a <> ""%string -> served w (Panel a) (Build a)) /\
  (forall q b, Previous a !! q = Some b -> b <> ""%string -> served w q b).

Definition pointer_ok (w : PW) : Prop := forall a, pointer w = Some a -> names_served w a.

(** The builds for which [P] holds are the same. *)
Definition keeps (P : string -> string -> Prop) (w w' : PW) : Prop :=
  forall q b, P q b -> build_of q b w' = build_of q b w.

Abbreviation all := (fun _ _ => True).

Lemma keeps_refl P w : keeps P w w.
Proof. done. Qed.

Lemma keeps_trans P w1 w2 w3 : keeps P w1 w2 -> keeps P w2 w3 -> keeps P w1 w3.
Proof. intros Ha Hb q b Hp. by rewrite Hb, Ha. Qed.

Lemma keeps_web P w w' : web w' = web w -> keeps P w w'.
Proof. intros Hw q b _. unfold build_of. by rewrite Hw. Qed.

Lemma keeps_served (P : string -> string -> Prop) w w' q b : keeps P w w' -> P q b -> served w q b -> served w' q b.
Proof. intros Hk Hp (t & Ht & Hc). exists t. split; [|done]. by rewrite Hk. Qed.

(** A pointer stays good when the builds it names stay. *)
Lemma names_keep (P : string -> string -> Prop) w w' a :
  keeps P w w' -> (Panel a <> ""%string -> P (Panel a) (Build a)) ->
  (forall q b, Previous a !! q = Some b -> b <> ""%string -> P q b) -> names_served w a -> names_served w' a.
Proof.
  intros Hk Hp Hq (Hb & Hs & Hprev). split; [done|]. split; [|].
  - intros Hne. eapply keeps_served; eauto.
  - intros q b Hqb Hne. eapply keeps_served; eauto.
Qed.

Lemma pointer_keep w w' : keeps all w w' -> pnfiles w' = pnfiles w -> pointer_ok w -> pointer_ok w'.
Proof.
  intros Hk Hf Hok a Ha. unfold pointer in Ha. rewrite Hf in Ha. eapply names_keep; [done|done|done|]. by apply Hok.
Qed.

(** *** Calls *)

Section Calls.
Context (E : penv AEnv).

(** Neither builds nor files change. *)
Definition quiet (w w' : PW) : Prop := web w' = web w /\ pnfiles w' = pnfiles w.

Lemma quiet_steps w1 w2 w3 : quiet w1 w2 -> quiet w2 w3 -> quiet w1 w3.
Proof. intros [Ha Hb] [Hc Hd]. split; congruence. Qed.

Lemma quiet_keeps P w w' : quiet w w' -> keeps P w w'.
Proof. intros [Hw _]. by apply keeps_web. Qed.

Lemma quiet_pointer w w' : quiet w w' -> pointer w' = pointer w.
Proof. intros [_ Hf]. unfold pointer. by rewrite Hf. Qed.

Lemma quiet_ok w w' : quiet w w' -> pointer_ok w -> pointer_ok w'.
Proof. intros Hq. apply pointer_keep; [by apply quiet_keeps|apply Hq]. Qed.

Lemma pcall_inv w x w' : pcall E w = (x, w') -> quiet w w' /\ stage w' = stage w.
Proof. intros Hc. unfold pcall, pnext in Hc. st_unfold. by injection Hc as _ <-. Qed.

Lemma LoadActive_inv w r w' : LoadActive E webActive w = (r, w') ->
  quiet w w' /\ stage w' = stage w /\ forall a, r = Ok a -> pointer w' = Some a.
Proof.
  intros Hl. unfold LoadActive in Hl. apply st_bind_inv in Hl as (x & w1 & Hx & Hl). apply pcall_inv in Hx as [Hq Hs].
  apply st_bind_inv in Hl as (w2 & w3 & Hg & Hl). injection Hg as <- <-. injection Hl as <- <-. split; [done|]. split; [done|].
  intros a. unfold pointer. destruct (af_read webActive (pnfiles w1)); [destruct x; [done|]|by intros [= <-]].
  destruct (json_Unmarshal_active s); [by intros [= <-]|done].
Qed.

Lemma ready_inv panelID build w r w' : buildReadyLocked E panelID build w = (r, w') ->
  quiet w w' /\ stage w' = stage w /\ (r = true -> served w' panelID build).
Proof.
  intros Hr. unfold buildReadyLocked in Hr. apply st_bind_inv in Hr as (x & w1 & Hx & Hr). apply pcall_inv in Hx as [Hq Hs].
  apply st_bind_inv in Hr as (w2 & w3 & Hg & Hr). injection Hg as <- <-. injection Hr as <- <-. split; [done|]. split; [done|].
  destruct x; [done|]. unfold served. destruct (build_of panelID build w1); [eauto|done].
Qed.

(** No write is committed with a warning. *)
Definition clean_writes : Prop :=
  forall n p c f r e f', af_write (pe_write E n) p c f = (r, e, f') -> Warning r = None.

(** The pointer after [SaveActive]. *)
Lemma SaveActive_inv a w x w' : SaveActive E webActive a w = (x, w') ->
  web w' = web w /\ stage w' = stage w /\
  match x with
  | None => pointer w' = Some a
  | Some _ => pointer w' = pointer w \/ pointer w' = Some a /\ ~ clean_writes
  end /\ (x = None \/ pointer w' <> pointer w -> (Panel a = ""%string <-> Build a = ""%string)).
Proof.
  unfold SaveActive. destruct (Bool.eqb _ _) eqn:Hb; simpl.
  2: { intros [= <- <-]. split_and!; [done..|by left|]. by intros [|]. }
  assert (Hiff : Panel a = ""%string <-> Build a = ""%string).
  { apply Bool.eqb_prop in Hb. rewrite <- !String.eqb_eq. by rewrite Hb. }
  destruct (String.eqb (Panel a) "" && _) eqn:Hclear.
  - intros Hs. apply st_bind_inv in Hs as (y & w1 & Hy & Hs). apply pcall_inv in Hy as [[Hw1 Hf1] Hs1].
    apply st_bind_inv in Hs as (w2 & w3 & Hg & Hs). injection Hg as <- <-. breflect.
    assert (Ha : a = no_active).
    { destruct a as [q b prev]. simpl in *. subst. by rewrite (proj1 Hiff eq_refl). }
    destruct (af_read webActive (pnfiles w1)) eqn:Hr; [destruct y as [y|]|].
    + injection Hs as <- <-. split_and!; [done..| |done]. left. unfold pointer. by rewrite Hf1.
    + unfold set_files in Hs. st_unfold. injection Hs as <- <-. simpl. split_and!; [done..| |done]. unfold pointer. simpl.
      rewrite af_removed, decide_True by done. by rewrite Ha.
    + injection Hs as <- <-. split_and!; [done..| |done]. unfold pointer. by rewrite Hr, Ha.
  - destruct (json_Marshal_active a) as [raw|] eqn:Hraw.
    2: { intros [= <- <-]. split_and!; [done..|by left|done]. }
    intros Hs. apply st_bind_inv in Hs as (n & w1 & Hn & Hs). injection Hn as <- <-.
    apply st_bind_inv in Hs as (w2 & w3 & Hg & Hs). injection Hg as <- <-. simpl in Hs.
    destruct (af_write (pe_write E (ptick w)) webActive (raw ++ end_of_line) (pnfiles w)) as [[c err] f] eqn:Hwr.
    unfold set_files in Hs. st_unfold. injection Hs as <- <-. simpl. split_and!; [done..| |done].
    destruct (Committed c) eqn:Hc.
    + destruct (af_committed _ _ _ _ _ _ _ Hwr Hc) as [-> Hread].
      assert (Hp : pointer (mkPNWorld (S (ptick w)) (web w) (stage w) f) = Some a).
      { unfold pointer. simpl. rewrite Hread. by apply active_decodes. }
      destruct (Warning c) eqn:Hwarn; [|done]. right. split; [done|]. intros Hclean. apply Hclean in Hwr. congruence.
    + destruct (af_failed _ _ _ _ _ _ _ Hwr Hc) as [He Hread]. destruct err; [|done]. left. unfold pointer. simpl. by rewrite Hread.
Qed.

(** The builds that a pointer names, whatever its form. *)
Definition builds_served (w : PW) (a : Active) : Prop :=
  (Panel a <> ""%string -> served w (Panel a) (Build a)) /\
  (forall q b, Previous a !! q = Some b -> b <> ""%string -> served w q b).

Lemma served_web w w' q b : web w' = web w -> served w q b -> served w' q b.
Proof. unfold served, build_of. by intros ->. Qed.

Lemma save_ok a w x w' :
  SaveActive E webActive a w = (x, w') -> pointer_ok w -> builds_served w a -> pointer_ok w'.
Proof.
  intros Hs Hok [Hb Hp]. apply SaveActive_inv in Hs as (Hw & _ & Hx & Hiff).
  assert (Hcase : pointer w' = pointer w \/ pointer w' = Some a).
  { destruct x; [|by right]. destruct Hx as [Hx|[Hx _]]; auto. }
  intros a' Ha'. destruct Hcase as [Heq|Heq].
  - rewrite Heq in Ha'. eapply names_keep; [by apply (keeps_web all)|done|done|]. by apply Hok.
  - assert (a' = a) as -> by congruence. split; [|split].
    + destruct x; [|apply Hiff; by left]. destruct Hx as [Hx|[Hx _]].
      * rewrite Hx in Heq. by apply Hok in Heq as [Hi _].
      * destruct (decide (pointer w' = pointer w)) as [He|He]; [|apply Hiff; by right].
        rewrite He in Heq. by apply Hok in Heq as [Hi _].
    + intros Hne. eapply served_web; [done|auto].
    + intros q b Hqb Hne. eapply served_web; [done|eauto].
Qed.

Lemma clone_lookup m q b : clonePrevious m !! q = Some b -> m !! q = Some b /\ q <> ""%string /\ b <> ""%string.
Proof. unfold clonePrevious. by intros [Hm Hne]%map_lookup_filter_Some. Qed.

(** Removing a build. *)
Lemma remove_build_inv panelID build w x w' : remove_build E panelID build w = (x, w') ->
  keeps (fun q b => q <> panelID \/ b <> build) w w' /\ pnfiles w' = pnfiles w /\ stage w' = stage w /\
  (x = None \/ build_of panelID build w = None -> build_of panelID build w' = None).
Proof.
  intros Hr. unfold remove_build, pnext, set_web in Hr. st_unfold. simpl in Hr.
  assert (Hset : forall t q b, (q <> panelID \/ b <> build) -> forall bs, web w !! panelID = Some bs ->
            (<[panelID := <[build := t]> bs]> (web w) !! q ≫= lookup b = web w !! q ≫= lookup b) /\
            (<[panelID := delete build bs]> (web w) !! q ≫= lookup b = web w !! q ≫= lookup b)).
  { intros t q b Hne bs Hbs. destruct (decide (q = panelID)) as [->|Hq].
    - rewrite !lookup_insert_eq, Hbs. simpl. destruct Hne as [|Hne]; [done|].
      rewrite lookup_insert_ne, lookup_delete_ne by done. done.
    - by rewrite !lookup_insert_ne by done. }
  destruct (web w !! panelID) as [bs|] eqn:Hbs; [destruct (bs !! build) as [t|] eqn:Hb; [destruct (pe_sys E (ptick w))|]|];
    injection Hr as <- <-; simpl; (split_and!; [|done|done|]).
  - intros q b Hne. by eapply (Hset (pe_left_tree E (ptick w) t)).
  - intros [|Hn]; [done|]. unfold build_of in Hn. rewrite Hbs in Hn. simpl in Hn. congruence.
  - intros q b Hne. by eapply (Hset []).
  - intros _. unfold build_of. simpl. rewrite lookup_insert_eq. simpl. by rewrite lookup_delete_eq.
  - by apply keeps_web.
  - intros _. unfold build_of. simpl. by rewrite Hbs.
  - by apply keeps_web.
  - intros _. unfold build_of. simpl. by rewrite Hbs.
Qed.

Lemma prune_each_inv panelID keep names w x w' : prune_each E panelID keep names w = (x, w') ->
  keeps (fun q b => q <> panelID \/ b ∈ keep) w w' /\ pnfiles w' = pnfiles w.
Proof.
  revert w. induction names as [|n names IH]; simpl; intros w Hp; [by injection Hp as _ <-|].
  apply st_bind_inv in Hp as (y & w1 & Hy & Hp). apply IH in Hp as [Hk Hf].
  case_if_in Hy; breflect; [injection Hy as <- <-; done|].
  apply remove_build_inv in Hy as (Hk1 & Hf1 & _). split; [|congruence].
  eapply keeps_trans; [|done]. intros q b Hqb. apply Hk1. destruct Hqb as [Hq|Hb]; [by left|]. right. intros ->. done.
Qed.

Lemma prune_inv panelID a b w x w' : pruneBuildsLocked E panelID a b w = (x, w') ->
  keeps (fun q c => q <> panelID \/ c = a \/ c = b /\ b <> ""%string) w w' /\ pnfiles w' = pnfiles w.
Proof.
  intros Hp. unfold pruneBuildsLocked in Hp. apply st_bind_inv in Hp as (y & w1 & Hy & Hp).
  apply pcall_inv in Hy as [Hq _]. apply st_bind_inv in Hp as (w2 & w3 & Hg & Hp). injection Hg as <- <-.
  destruct Hq as [Hw1 Hf1].
  destruct y; [injection Hp as <- <-; split; [by apply keeps_web|done]|].
  destruct (web w1 !! panelID); [|injection Hp as <- <-; split; [by apply keeps_web|done]].
  apply prune_each_inv in Hp as [Hk Hf]. split; [|congruence]. intros q c Hqc.
  rewrite Hk; [by apply (keeps_web all)|]. destruct Hqc as [Hq|[->|[-> Hne]]]; [by left|right; by left|right].
  right. apply String.eqb_neq in Hne. rewrite Hne. by left.
Qed.

(** *** Requests on the pointer *)

Lemma activated_builds panelID build w a :
  names_served w a -> served w panelID build -> builds_served w (activated_pointer panelID build a).
Proof.
  intros (Hiff & Hb & Hp) Hs. split; [done|]. simpl.
  assert (Hcl : forall q b, clonePrevious (Previous a) !! q = Some b -> served w q b).
  { intros q b Hq. apply clone_lookup in Hq as (Hq & _ & Hne). eauto. }
  intros q b. repeat case_if; breflect; [| |intros Hq _; by apply Hcl].
  - rewrite lookup_insert_Some. intros [[<- <-]|[_ Hq]] _; [|by apply Hcl]. subst. apply Hb. by rewrite Hiff.
  - rewrite lookup_insert_Some. intros [[<- <-]|[_ Hq]] _; [|by apply Hcl]. by apply Hb.
Qed.

Lemma listBuilds_inv panelID w l w' : listBuildsLocked E panelID w = (l, w') -> quiet w w'.
Proof.
  intros Hl. unfold listBuildsLocked in Hl. apply st_bind_inv in Hl as (y & w1 & Hy & Hl). apply pcall_inv in Hy as [Hq _].
  apply st_bind_inv in Hl as (w2 & w3 & Hg & Hl). injection Hg as <- <-.
  destruct y; [by injection Hl as <- <-|]. destruct (web w1 !! panelID) as [bs|]; [|by injection Hl as <- <-].
  eapply quiet_steps; [done|]. clear Hq. revert Hl. generalize (map fst (map_to_list bs)). intros names. revert w1 l.
  induction names as [|n names IH]; simpl; intros w1 l Hl; [by injection Hl as _ <-|].
  apply st_bind_inv in Hl as (r & w2 & Hr & Hl). apply ready_inv in Hr as (Hq & _).
  apply st_bind_inv in Hl as (l' & w3 & Hl' & Hl). injection Hl as _ <-. eapply quiet_steps; [done|by eapply IH].
Qed.

Lemma Activate_ok done panelID w x w' :
  Activate E webActive done panelID w = (x, w') -> pointer_ok w -> pointer_ok w'.
Proof.
  intros Ha Hok. unfold Activate in Ha. destruct done; [by injection Ha as _ <-|].
  destruct (adapterLocked E panelID); [by injection Ha as _ <-|].
  apply st_bind_inv in Ha as (l & w1 & Hl & Ha). apply listBuilds_inv in Hl. apply (quiet_ok _ _ Hl) in Hok.
  destruct l as [|build l]; [by injection Ha as _ <-|].
  apply st_bind_inv in Ha as (ready & w2 & Hr & Ha). apply ready_inv in Hr as (Hq2 & _ & Hready).
  apply (quiet_ok _ _ Hq2) in Hok. destruct ready; [|by injection Ha as _ <-]. simpl in Ha.
  apply st_bind_inv in Ha as (c & w3 & Hc & Ha). apply LoadActive_inv in Hc as (Hq3 & _ & Hcur).
  apply (quiet_ok _ _ Hq3) in Hok. destruct c as [current|]; [|by injection Ha as _ <-].
  assert (Hn : names_served w3 current) by (apply Hok; by apply Hcur).
  assert (Hserved : served w3 panelID build) by (eapply served_web; [apply Hq3|auto]).
  apply st_bind_inv in Ha as (y & w4 & Hy & Ha).
  assert (Hok4 : pointer_ok w4) by (eapply save_ok; [done|done|by apply activated_builds]).
  destruct y as [y|]; [by injection Ha as _ <-|].
  apply SaveActive_inv in Hy as (_ & _ & Hp & _).
  apply st_bind_inv in Ha as ([] & w5 & Hprune & Ha). injection Ha as _ <-. apply prune_inv in Hprune as [Hk Hf].
  intros a Hpa. assert (a = activated_pointer panelID build current) as ->.
  { unfold pointer in *. rewrite Hf in Hpa. congruence. }
  eapply names_keep; [done|by intros _; right; left| |by apply Hok4].
  intros q b Hqb Hne. destruct (decide (q = panelID)) as [->|Hq]; [right; right|by left].
  unfold previous_build. rewrite Hqb. done.
Qed.

Lemma Rollback_ok done panelID w x w' :
  Panels.Rollback E webActive done panelID w = (x, w') -> pointer_ok w -> pointer_ok w'.
Proof.
  intros Ha Hok. unfold Panels.Rollback in Ha. destruct done; [by injection Ha as _ <-|].
  apply st_bind_inv in Ha as (c & w1 & Hc & Ha). apply LoadActive_inv in Hc as (Hq1 & _ & Hcur).
  apply (quiet_ok _ _ Hq1) in Hok. destruct c as [current|]; [|by injection Ha as _ <-].
  case_if_in Ha; [by injection Ha as _ <-|].
  apply st_bind_inv in Ha as (ready & w2 & Hr & Ha). apply ready_inv in Hr as (Hq2 & _ & Hready).
  destruct (Hok current (Hcur current eq_refl)) as (Hiff & Hb & Hp).
  apply (quiet_ok _ _ Hq2) in Hok. destruct ready; [|by injection Ha as _ <-]. simpl in Ha.
  eapply save_ok; [exact Ha|done|]. split; [auto|]. simpl.
  assert (Hcl : forall q b, clonePrevious (Previous current) !! q = Some b -> served w2 q b).
  { intros q b Hq. apply clone_lookup in Hq as (Hq & _ & Hne). eapply served_web; [apply Hq2|eauto]. }
  intros q b. case_if; breflect.
  - rewrite lookup_insert_Some. intros [[<- <-]|[_ Hq]] _; [|by apply Hcl]. subst.
    eapply served_web; [apply Hq2|]. apply Hb. by rewrite Hiff.
  - rewrite lookup_delete_Some. intros [_ Hq] _. by apply Hcl.
Qed.

Lemma RemoveBuild_ok panelID build w x w' :
  RemoveBuild E webActive panelID build w = (x, w') -> pointer_ok w -> pointer_ok w'.
Proof.
  intros Ha Hok. unfold RemoveBuild in Ha. apply st_bind_inv in Ha as (c & w1 & Hc & Ha).
  apply LoadActive_inv in Hc as (Hq1 & _ & Hcur). apply (quiet_ok _ _ Hq1) in Hok.
  destruct c as [a|]; [|by injection Ha as _ <-]. specialize (Hcur a eq_refl).
  destruct (String.eqb (Panel a) panelID && String.eqb (Build a) build) eqn:Hact; [by injection Ha as _ <-|].
  destruct (negb (bool_decide (Previous a = ∅)) && String.eqb (previous_build a panelID) build) eqn:Hprev; [by injection Ha as _ <-|].
  apply remove_build_inv in Ha as (Hk & Hf & _ & _). intros a' Ha'.
  assert (a' = a) as -> by (unfold pointer in *; rewrite Hf in Ha'; congruence).
  eapply names_keep; [done| | |by apply Hok].
  - intros _. apply andb_false_iff in Hact as [Hx|Hx]; breflect; auto.
  - intros q b Hqb Hne. destruct (decide (q = panelID)) as [->|Hq]; [right|by left]. intros ->.
    apply andb_false_iff in Hprev as [Hx|Hx]; breflect; [rewrite Hx in Hqb; by rewrite lookup_empty in Hqb|].
    apply Hx. unfold previous_build. by rewrite Hqb.
Qed.

Lemma remove_panel_inv panelID w x w' : remove_panel E panelID w = (x, w') ->
  keeps (fun q _ => q <> panelID) w w' /\ pnfiles w' = pnfiles w /\ stage w' = stage w /\
  (x = None -> web w' = delete panelID (web w)).
Proof.
  intros Hr. unfold remove_panel, pnext, set_web in Hr. st_unfold. simpl in Hr.
  destruct (web w !! panelID) eqn:Hw; [destruct (pe_sys E (ptick w))|]; injection Hr as <- <-; simpl; split_and!; try done.
  - intros q b Hq. unfold build_of. simpl. by rewrite lookup_insert_ne.
  - intros q b Hq. unfold build_of. simpl. by rewrite lookup_delete_ne.
  - intros _. by rewrite delete_id.
Qed.

(** Nothing of a map was dropped. *)
Lemma nothing_dropped (m : gmap string string) k : size (delete k (clonePrevious m)) = size m -> m !! k = None.
Proof.
  intros Hs. destruct (m !! k) as [v|] eqn:Hk; [|done]. exfalso.
  assert (Hsub : delete k (clonePrevious m) ⊆ delete k m) by (apply delete_mono, map_filter_subseteq).
  apply map_subseteq_size in Hsub. rewrite Hs, (map_size_delete_Some k m) in Hsub by (rewrite Hk; eauto).
  assert (size m <> 0%nat) by (intros Hz; apply map_size_empty_inv in Hz; subst m; by rewrite lookup_empty in Hk). lia.
Qed.

(** A pointer that names no build of the panel. *)
Definition names_other (panelID : string) (a : Active) : Prop :=
  (Panel a <> ""%string -> Panel a <> panelID) /\ (forall q b, Previous a !! q = Some b -> b <> ""%string -> q <> panelID).

Lemma uninstalled_other panelID q b prev : q <> panelID -> names_other panelID (mkActive q b (delete panelID prev)).
Proof. intros Hq. split; [done|]. simpl. intros q' b' [Hne _]%lookup_delete_Some _. done. Qed.

Lemma Uninstall_ok done panelID w x w' :
  Uninstall E webActive done panelID w = (x, w') -> pointer_ok w -> pointer_ok w'.
Proof.
  intros Ha Hok. unfold Uninstall in Ha. destruct done; [by injection Ha as _ <-|].
  case_if_in Ha; [by injection Ha as _ <-|]. destruct (Lookup panelID); [|by injection Ha as _ <-].
  apply st_bind_inv in Ha as (c & w1 & Hc & Ha). apply LoadActive_inv in Hc as (Hq1 & _ & Hcur).
  apply (quiet_ok _ _ Hq1) in Hok. destruct c as [a|]; [|by injection Ha as _ <-]. specialize (Hcur a eq_refl).
  destruct (Hok a Hcur) as (Hiff & Hb & Hp).
  assert (Hprev : forall q b, delete panelID (clonePrevious (Previous a)) !! q = Some b -> b <> ""%string -> served w1 q b).
  { intros q b [_ Hq]%lookup_delete_Some Hne. apply clone_lookup in Hq as (Hq & _). eauto. }
  apply st_bind_inv in Ha as (y & w2 & Hy & Ha).
  assert (H2' : pointer_ok w2 /\ (y = None -> exists a', pointer w2 = Some a' /\ names_other panelID a')).
  { breflect. destruct (String.eqb (Panel a) panelID) eqn:Hpan; [|destruct (String.eqb (Panel a) "") eqn:Hemp]; breflect.
    - split; [eapply save_ok; [done|done|split; done]|]. intros ->. apply SaveActive_inv in Hy as (_ & _ & Hpt & _).
      eexists. split; [done|]. by apply uninstalled_other.
    - simpl in Hy. case_if_in Hy; breflect.
      + split; [eapply save_ok; [done|done|split; done]|]. intros ->. apply SaveActive_inv in Hy as (_ & _ & Hpt & _).
        eexists. split; [done|]. by apply uninstalled_other.
      + injection Hy as <- <-. split; [done|]. intros _. exists a. split; [done|].
        apply Nat.eqb_eq in Heqb0. apply nothing_dropped in Heqb0. split; [done|]. intros q b Hqb _ ->. congruence.
    - simpl in Hy. split; [eapply save_ok; [done|done|split; [by simpl|done]]|]. intros ->.
      apply SaveActive_inv in Hy as (_ & _ & Hpt & _). eexists. split; [done|]. by apply uninstalled_other. }
  destruct H2' as [Hok2 Hoth]. destruct y as [y|]; [by injection Ha as _ <-|]. destruct (Hoth eq_refl) as (a' & Ha' & Hna & Hnp).
  apply st_bind_inv in Ha as (z & w3 & Hz & Ha). injection Ha as _ <-. apply remove_panel_inv in Hz as (Hk & Hf & _ & _).
  intros a'' Hpt. assert (a'' = a') as -> by (unfold pointer in *; rewrite Hf in Hpt; congruence).
  eapply names_keep; [done|done|done|]. by apply Hok2.
Qed.

(** *** Candidates *)

(** A step that changes only the staging directory. *)
Lemma remove_staged_inv name w x w' : remove_staged E name w = (x, w') ->
  quiet w w' /\ forall n, n <> name -> stage w' !! n = stage w !! n.
Proof.
  intros Hr. unfold remove_staged, pnext, set_stage in Hr. st_unfold. simpl in Hr.
  destruct (stage w !! name); [destruct (pe_sys E (ptick w))|]; injection Hr as <- <-; split; try done.
  intros n Hn. simpl. by rewrite lookup_delete_ne.
Qed.

Lemma prepareBuild_quiet panelID build url m w x w' : prepareBuild E panelID build url m w = (x, w') -> quiet w w'.
Proof.
  unfold prepareBuild. destruct (validateAssetURL E url); [by intros [= <- <-]|]. intros Hp.
  apply st_bind_inv in Hp as (n & w1 & Hn & Hp). injection Hn as <- <-. destruct (pe_download E (ptick w)); [by injection Hp as <- <-|].
  unfold prepareInstallCandidate, pcall, pnext, set_stage in Hp. unfold st_try in Hp. st_unfold. simpl in Hp.
  destruct (validateInstallRequest panelID build); [by injection Hp as <- <-|]. simpl in Hp.
  destruct (pe_sys E (S (ptick w))); [by injection Hp as <- <-|].
  destruct (stage w !! _); [by injection Hp as <- <-|]. destruct (pe_unpacked E _); [by injection Hp as <- <-|].
  destruct (pe_sys E _); by injection Hp as <- <-.
Qed.

Lemma resolve_quiet panelID w x w' : resolve_latest E panelID w = (x, w') -> quiet w w'.
Proof.
  unfold resolve_latest. destruct (adapterLocked E panelID); [by intros [= <- <-]|]. unfold pnext. st_unfold. by intros [= _ <-].
Qed.

Lemma PrepareInstall_quiet panelID pin w x w' : PrepareInstall E panelID pin w = (x, w') -> quiet w w'.
Proof.
  intros Hp. apply st_try_inv in Hp as [(e & -> & Hr)|([build url] & w1 & Hr & Hp)]; apply resolve_quiet in Hr; [done|].
  case_if_in Hp; [by injection Hp as <- <-|]. case_if_in Hp; [by injection Hp as <- <-|].
  apply prepareBuild_quiet in Hp. by eapply quiet_steps.
Qed.

Lemma PrepareReinstall_quiet panelID w x w' : PrepareReinstall E panelID w = (x, w') -> quiet w w'.
Proof.
  intros Hp. apply st_try_inv in Hp as [(e & -> & Hr)|([build url] & w1 & Hr & Hp)]; apply resolve_quiet in Hr; [done|].
  case_if_in Hp; [by injection Hp as <- <-|]. apply prepareBuild_quiet in Hp. by eapply quiet_steps.
Qed.

Lemma PrepareUpdate_quiet panelID w x w' : PrepareUpdate E panelID w = (x, w') -> quiet w w'.
Proof.
  intros Hp. apply st_try_inv in Hp as [(e & -> & Hr)|([build url] & w1 & Hr & Hp)]; apply resolve_quiet in Hr; [done|].
  case_if_in Hp; [by injection Hp as <- <-|]. apply st_bind_inv in Hp as (l & w2 & Hl & Hp). apply listBuilds_inv in Hl.
  apply st_bind_inv in Hp as (c & w3 & Hc & Hp).
  assert (Hq : quiet w2 w3).
  { destruct l as [|b l]; [by injection Hc as _ <-|]. case_if_in Hc; [|by injection Hc as _ <-]. by apply ready_inv in Hc as (? & _). }
  assert (Hall : quiet w w3) by (eapply quiet_steps; [done|]; by eapply quiet_steps).
  case_if_in Hp; [by injection Hp as <- <-|]. apply prepareBuild_quiet in Hp. by eapply quiet_steps.
Qed.

Lemma Cleanup_quiet p w x w' : Panels.Cleanup E p w = (x, w') -> quiet w w'.
Proof.
  intros Hc. unfold Panels.Cleanup in Hc. apply st_bind_inv in Hc as (y & w1 & Hy & Hc).
  assert (Hq : quiet w w1) by (case_if_in Hy; [by injection Hy as _ <-|by apply remove_staged_inv in Hy as [? _]]).
  apply st_bind_inv in Hc as ([] & w2 & Hr & Hc). injection Hc as _ <-. eapply quiet_steps; [done|]. clear Hq Hy. revert Hr.
  generalize (cleanupDirs p). intros dirs. revert w1. induction dirs as [|d dirs IH]; simpl; intros w1 Hr; [by injection Hr as <-|].
  apply st_bind_inv in Hr as (z & w3 & Hz & Hr). apply remove_staged_inv in Hz as [Hz _]. eapply quiet_steps; [done|by eapply IH].
Qed.

(** *** Commits *)

(** The builds but one. *)
Abbreviation elsewhere panelID build := (fun q b => q <> panelID \/ b <> build).

Lemma make_panel_inv panelID w x w' : make_panel E panelID w = (x, w') ->
  keeps all w w' /\ pnfiles w' = pnfiles w /\ stage w' = stage w /\ (forall q, q <> panelID -> web w' !! q = web w !! q).
Proof.
  intros Hm. unfold make_panel in Hm. apply st_bind_inv in Hm as (y & w1 & Hy & Hm). apply pcall_inv in Hy as [[Hw Hf] Hs].
  destruct y; [injection Hm as <- <-; split_and!; [by apply keeps_web|done..|intros; by rewrite Hw]|].
  unfold set_web in Hm. st_unfold. destruct (web w1 !! panelID) eqn:Hp; injection Hm as <- <-; simpl.
  - split_and!; [by apply keeps_web|done..|intros; by rewrite Hw].
  - split_and!; [|done..|].
    + intros q b _. unfold build_of. simpl. rewrite <- Hw. destruct (decide (q = panelID)) as [->|Hq].
      * by rewrite lookup_insert_eq, Hp.
      * by rewrite lookup_insert_ne.
    + intros q Hq. by rewrite lookup_insert_ne, Hw.
Qed.

Lemma promote_inv name panelID build w x w' : promote E name panelID build w = (x, w') ->
  keeps (elsewhere panelID build) w w' /\ pnfiles w' = pnfiles w /\
  match x with
  | None => (exists t, stage w !! name = Some (StagedBuild t) /\ build_of panelID build w' = Some t) /\
            forall n, n <> name -> stage w' !! n = stage w !! n
  | Some _ => web w' = web w /\ stage w' = stage w
  end.
Proof.
  intros Hr. unfold promote, pnext, set_web, set_stage in Hr. st_unfold. simpl in Hr.
  destruct (pe_sys E (ptick w)); [injection Hr as <- <-; split_and!; [by apply keeps_web|done..]|].
  destruct (stage w !! name) as [[t|b]|] eqn:Hs; [|destruct (web w !! panelID)|];
    try (injection Hr as <- <-; split_and!; [by apply keeps_web|done..]).
  destruct (web w !! panelID) as [bs|] eqn:Hw; [|injection Hr as <- <-; split_and!; [by apply keeps_web|done..]].
  destruct (bs !! build) eqn:Hb; injection Hr as <- <-; [split_and!; [by apply keeps_web|done..]|].
  split; [|split; [done|]].
  - intros q b Hqb. unfold build_of. simpl. destruct (decide (q = panelID)) as [->|Hq].
    + rewrite lookup_insert_eq, Hw. simpl. destruct Hqb; [done|]. by rewrite lookup_insert_ne.
    + by rewrite lookup_insert_ne.
  - split; [|intros n Hn; simpl; by rewrite lookup_delete_ne].
    exists t. split; [done|]. unfold build_of. simpl. rewrite lookup_insert_eq. simpl. by rewrite lookup_insert_eq.
Qed.

Lemma promoteCandidate_inv dir panelID build w x w' : promoteInstallCandidate E dir panelID build w = (x, w') ->
  keeps (elsewhere panelID build) w w' /\ pnfiles w' = pnfiles w /\
  match x with
  | None => (exists t, stage w !! dir = Some (StagedBuild t) /\ build_of panelID build w' = Some t) /\
            forall n, n <> dir -> stage w' !! n = stage w !! n
  | Some _ => stage w' = stage w /\ (build_of panelID build w = None -> build_of panelID build w' = None)
  end.
Proof.
  intros Hp. unfold promoteInstallCandidate in Hp. apply st_bind_inv in Hp as (y & w1 & Hy & Hp).
  apply make_panel_inv in Hy as (Hk1 & Hf1 & Hs1 & _).
  assert (Hk1' : keeps (elsewhere panelID build) w w1) by (intros q b _; by apply Hk1).
  destruct y; [injection Hp as <- <-; split_and!; [done..|]; intros Hn; by rewrite Hk1|].
  apply st_bind_inv in Hp as (y & w2 & Hy2 & Hp). apply remove_build_inv in Hy2 as (Hk2 & Hf2 & Hs2 & Hnone).
  assert (Hn2 : build_of panelID build w = None -> build_of panelID build w2 = None).
  { intros Hn. apply Hnone. right. by rewrite Hk1. }
  destruct y as [y|]; [injection Hp as <- <-; split_and!; [by eapply keeps_trans|congruence|congruence|done]|].
  apply st_bind_inv in Hp as (y & w3 & Hy3 & Hp). apply promote_inv in Hy3 as (Hk3 & Hf3 & Hx). injection Hp as <- <-.
  split_and!; [by eapply keeps_trans, keeps_trans|congruence|]. destruct y as [y|]; simpl.
  - destruct Hx as [Hw3 Hs3]. split; [congruence|]. intros Hn. unfold build_of. rewrite Hw3. by apply Hn2.
  - destruct Hx as [(t & Ht & Hb) Hs3]. split; [exists t; split; [congruence|done]|].
    intros n Hn. rewrite Hs3 by done. by rewrite Hs2, Hs1.
Qed.

(** Something is moved aside. *)
Lemma move_aside_inv (present : PW -> option staged) take backup w r w' :
  (forall w1 w2, web w1 = web w2 -> present w1 = present w2) ->
  move_aside E present take backup w = (r, w') ->
  pnfiles w' = pnfiles w /\ (forall n, n <> backup -> stage w' !! n = stage w !! n) /\
  match r with
  | Err _ => web w' = web w
  | Ok false => web w' = web w /\ present w = None
  | Ok true => exists w1 s, web w1 = web w /\ present w = Some s /\ stage w' !! backup = Some s /\ web w' = take w1
  end.
Proof.
  intros Hpres Hm. unfold move_aside in Hm. apply st_bind_inv in Hm as (s & w1 & Hs & Hm).
  unfold exists_dir in Hs. apply st_bind_inv in Hs as (y & w0 & Hy & Hs). apply pcall_inv in Hy as [[Hw0 Hf0] Hs0].
  apply st_bind_inv in Hs as (w2 & w3 & Hg & Hs). injection Hg as <- <-. injection Hs as <- <-.
  rewrite (Hpres w0 w Hw0) in Hm. case_if_in Hm; breflect.
  2: { assert (Hn : present w = None) by (destruct (present w); [|done]; exfalso; apply Heqb; eauto).
    injection Hm as <- <-. split_and!; [done|by intros; rewrite Hs0|done..]. }
  destruct y; [injection Hm as <- <-; split_and!; [done|by intros; rewrite Hs0|done]|].
  apply st_bind_inv in Hm as (y & w1 & Hy & Hm). apply remove_staged_inv in Hy as [[Hw1 Hf1] Hs1].
  destruct y; [injection Hm as <- <-; split_and!; [congruence|intros; by rewrite Hs1, Hs0|congruence]|].
  apply st_bind_inv in Hm as (y & w2 & Hy & Hm). apply pcall_inv in Hy as [[Hw2 Hf2] Hs2].
  apply st_bind_inv in Hm as (w3 & w4 & Hg & Hm). injection Hg as <- <-.
  rewrite (Hpres w2 w) in Hm by congruence.
  destruct y; [injection Hm as <- <-; split_and!; [congruence|intros; by rewrite Hs2, Hs1, Hs0|congruence]|].
  destruct (present w) as [s|] eqn:Hp; [|by destruct Heqb].
  unfold set_stage, set_web in Hm. st_unfold. injection Hm as <- <-. simpl. split_and!; [congruence| |].
  - intros n Hn. rewrite lookup_insert_ne by done. by rewrite Hs2, Hs1, Hs0.
  - exists w2, s. split_and!; [congruence|done|by rewrite lookup_insert_eq|done].
Qed.

Lemma suffix_ne (a b : string) : b <> ""%string -> a <> (a ++ b)%string.
Proof.
  intros Hb Heq. apply (f_equal String.length) in Heq. rewrite append_length in Heq. destruct b; [done|simpl in Heq; lia].
Qed.

(** An error that says that the old builds were not restored. *)
Definition says_not_restored (e : error) : Prop :=
  exists x m y, e = not_restored x m y /\
    m ∈ ["restore previous panel build"; "restore previous panel install"; "remove uncommitted panel install"]%string.

(** The candidate is a complete tree. *)
Definition candidate_complete (p : prepared) (w : PW) : Prop :=
  exists t, stage w !! candidateDir p = Some (StagedBuild t) /\ complete t = true.

Lemma candidate_promoted (p : prepared) (w w1 : PW) t :
  candidate_complete p w -> stage w1 !! candidateDir p = stage w !! candidateDir p ->
  stage w1 !! candidateDir p = Some (StagedBuild t) -> complete t = true.
Proof. intros (t' & Ht' & Hc) Hs Ht. rewrite Hs, Ht' in Ht. by injection Ht as <-. Qed.

(** A pointer stays good when one build is replaced by a complete one. *)
Lemma pointer_replaced panelID build w w' :
  keeps (elsewhere panelID build) w w' -> pnfiles w' = pnfiles w -> served w' panelID build -> pointer_ok w -> pointer_ok w'.
Proof.
  intros Hk Hf Hs Hok a Ha. unfold pointer in Ha. rewrite Hf in Ha. destruct (Hok a Ha) as (Hiff & Hb & Hp).
  assert (Hall : forall q b, served w q b -> served w' q b).
  { intros q b Hqb. destruct (decide (q = panelID)) as [->|Hq]; [destruct (decide (b = build)) as [->|Hne]; [done|]|];
      (eapply keeps_served; [done| |done]); simpl; auto. }
  split; [done|]. split; eauto.
Qed.

Lemma commitUpdate_ok p q x w w' :
  candidate_complete p w -> commitUpdateLocked E p w = ((q, x), w') -> pointer_ok w ->
  (forall e, x = Some e -> ~ says_not_restored e) -> pointer_ok w'.
Proof.
  intros Hcand Hc Hok Hrest. unfold commitUpdateLocked in Hc. apply st_bind_inv in Hc as (r & w1 & Hr & Hc).
  apply move_aside_inv in Hr as (Hf1 & Hst1 & Hr); [|intros a b Hab; unfold build_of; by rewrite Hab].
  assert (Hdir : stage w1 !! candidateDir p = stage w !! candidateDir p) by (apply Hst1, suffix_ne; done).
  destruct r as [had|e]; [|injection Hc as <- <- <-; eapply quiet_ok; [by split|done]].
  assert (Hk1 : keeps (elsewhere (pp_panelID p) (pp_build p)) w w1 /\ build_of (pp_panelID p) (pp_build p) w1 = None).
  { destruct had.
    - destruct Hr as (w0 & s & Hw0 & Hs & _ & Hw1). split.
      + intros a b Hab. unfold build_of. rewrite Hw1, Hw0. destruct (decide (a = pp_panelID p)) as [->|Ha].
        * rewrite lookup_insert_eq. destruct Hab; [done|]. destruct (web w !! pp_panelID p); simpl; [by rewrite lookup_delete_ne|done].
        * by rewrite lookup_insert_ne.
      + unfold build_of. rewrite Hw1, lookup_insert_eq. simpl. by rewrite lookup_delete_eq.
    - destruct Hr as [Hw1 Hn]. split; [by apply keeps_web|]. unfold build_of in *. rewrite Hw1. by destruct (web w !! pp_panelID p ≫= lookup (pp_build p)). }
  destruct Hk1 as [Hk1 Hnone1].
  apply st_bind_inv in Hc as (y & w2 & Hy & Hc). apply promoteCandidate_inv in Hy as (Hk2 & Hf2 & Hy).
  destruct y as [y|].
  2: { injection Hc as <- <- <-. destruct Hy as [(t & Ht & Hb) _]. apply (pointer_replaced (pp_panelID p) (pp_build p) w); [by eapply keeps_trans|congruence| |done].
    exists t. split; [done|]. by eapply candidate_promoted. }
  destruct Hy as [Hs2 Hn2]. destruct had.
  - apply st_bind_inv in Hc as (z & w3 & Hz & Hc). apply promote_inv in Hz as (Hk3 & Hf3 & Hz). injection Hc as <- <- <-.
    destruct z as [z|]; [exfalso; eapply Hrest; [done|]; eexists _, _, _; split; [done|by left]|].
    destruct Hz as [(t & Ht & Hb) _]. destruct Hr as (w0 & s & _ & Hs & Hbk & _). rewrite Hs2, Hbk in Ht. injection Ht as ->.
    assert (Ht : build_of (pp_panelID p) (pp_build p) w = Some t).
    { by destruct (build_of (pp_panelID p) (pp_build p) w); [injection Hs as ->|]. }
    apply (pointer_keep w); [|congruence|done]. intros a b _.
    destruct (decide (a = pp_panelID p)) as [->|Ha]; [destruct (decide (b = pp_build p)) as [->|Hbn]; [congruence|]|];
      rewrite Hk3, Hk2, Hk1; auto.
  - injection Hc as <- <- <-. destruct Hr as [Hw1 Hn]. apply (pointer_keep w); [|congruence|done]. intros a b _.
    destruct (decide (a = pp_panelID p)) as [->|Ha]; [destruct (decide (b = pp_build p)) as [->|Hbn]|];
      [|rewrite Hk2, Hk1; auto..]. rewrite Hn2 by done. by destruct (build_of (pp_panelID p) (pp_build p) w).
Qed.

Lemma put_panel_back_inv name panelID (w w' : PW) (x : option error) : put_panel_back E name panelID w = (x, w') ->
  pnfiles w' = pnfiles w /\
  (x = None -> exists b, stage w !! name = Some (StagedPanel b) /\ web w' = <[panelID := b]> (web w)).
Proof.
  intros Hr. unfold put_panel_back, pnext, set_web, set_stage in Hr. st_unfold. simpl in Hr.
  destruct (pe_sys E (ptick w)); [by injection Hr as <- <-|].
  destruct (stage w !! name) as [[t|b]|] eqn:Hs; [by injection Hr as <- <-| |by injection Hr as <- <-].
  destruct (web w !! panelID); [case_if_in Hr|]; injection Hr as <- <-; split; try done; eauto.
Qed.

(** Where a reinstallation stands after the old builds were moved aside: the other
    panels are the same, and the old builds can be put back. *)
Record aside (panelID backup : string) (had : bool) (w w1 : PW) : Prop := {
  as_others : keeps (fun q _ => q <> panelID) w w1;
  as_had : had = true -> exists b, web w !! panelID = Some b /\ stage w1 !! backup = Some (StagedPanel b);
  as_none : had = false -> forall b, build_of panelID b w = None /\ build_of panelID b w1 = None
}.

(** The old builds are put back. *)
Lemma restore_inv backup had (p q : prepared) x y w w1 w' :
  aside (pp_panelID p) backup had w w1 -> restore_panel E p backup had x w1 = ((q, y), w') ->
  (forall e, y = Some e -> ~ says_not_restored e) -> keeps all w w' /\ pnfiles w' = pnfiles w1.
Proof.
  intros [Ho Hh Hn] Hr Hrest. unfold restore_panel in Hr. destruct had.
  - apply st_bind_inv in Hr as (z & w2 & Hz & Hr). apply put_panel_back_inv in Hz as [Hf Hz]. injection Hr as <- <- <-.
    destruct z as [z|]; [exfalso; eapply Hrest; [done|]; eexists _, _, _; split; [done|by right; left]|].
    destruct (Hz eq_refl) as (b & Hb & Hw). destruct (Hh eq_refl) as (b' & Hb' & Hs). rewrite Hs in Hb. injection Hb as ->.
    split; [|done]. intros a c _. unfold build_of. rewrite Hw. destruct (decide (a = pp_panelID p)) as [->|Ha].
    + by rewrite lookup_insert_eq, Hb'.
    + rewrite lookup_insert_ne by done. by apply (Ho a c).
  - injection Hr as <- <- <-. split; [|done]. intros a c _. destruct (decide (a = pp_panelID p)) as [->|Ha]; [|by apply Ho].
    destruct (Hn eq_refl c) as [-> ->]. done.
Qed.

(** The pointer was not saved. *)
Lemma abandon_ok backup had (p q : prepared) x y w w2 w3 w' :
  keeps (fun q _ => q <> pp_panelID p) w w2 ->
  (had = true -> exists b, web w !! pp_panelID p = Some b /\ stage w2 !! backup = Some (StagedPanel b)) ->
  (had = false -> forall b, build_of (pp_panelID p) b w = None) ->
  web w3 = web w2 -> stage w3 = stage w2 -> pointer w3 = pointer w ->
  abandon_panel E p backup had x w3 = ((q, y), w') ->
  (forall e, y = Some e -> ~ says_not_restored e) -> pointer_ok w -> pointer_ok w'.
Proof.
  intros Ho Hh Hn Hw3 Hs3 Hp3 Hc Hrest Hok. unfold abandon_panel in Hc.
  apply st_bind_inv in Hc as (v & w4 & Hv & Hc). apply remove_panel_inv in Hv as (_ & Hf4 & Hs4 & Hw4).
  destruct v as [v|]; [injection Hc as <- <- <-; exfalso; eapply Hrest; [done|]; eexists _, _, _; split; [done|by right; right; left]|].
  specialize (Hw4 eq_refl). eapply (restore_inv _ _ _ _ _ _ w) in Hc as [Hk Hf]; [| |done].
  - intros a Ha. unfold pointer in *. rewrite Hf, Hf4, Hp3 in Ha. eapply names_keep; [done|done|done|]. by apply Hok.
  - constructor.
    + intros a b Hab. unfold build_of. rewrite Hw4, lookup_delete_ne, Hw3 by done. by apply (Ho a b).
    + intros Hhad. rewrite Hs4, Hs3. by apply Hh.
    + intros Hhad b. split; [by apply Hn|]. unfold build_of. by rewrite Hw4, lookup_delete_eq.
Qed.

Lemma move_panel_inv panelID backup w had w1 : move_panel_aside E panelID backup w = (Ok had, w1) ->
  aside panelID backup had w w1 /\ pnfiles w1 = pnfiles w /\ (forall n, n <> backup -> stage w1 !! n = stage w !! n) /\
  (forall b, build_of panelID b w1 = None).
Proof.
  intros Hm. apply move_aside_inv in Hm as (Hf & Hs & Hr); [|intros a b ->; done].
  assert (Hw : web w1 = delete panelID (web w)).
  { destruct had; [by destruct Hr as (w0 & s & <- & _ & _ & ->)|]. destruct Hr as [-> Hn].
    symmetry. apply delete_id. by destruct (web w !! panelID). }
  assert (Hnone : forall b, build_of panelID b w1 = None) by (intros b; unfold build_of; by rewrite Hw, lookup_delete_eq).
  split_and!; try done. constructor.
  - intros q b Hq. unfold build_of. by rewrite Hw, lookup_delete_ne.
  - intros ->. destruct Hr as (w0 & s & _ & Hp & Hb & _). destruct (web w !! panelID) as [b|]; [|done].
    injection Hp as <-. eauto.
  - intros -> b. split; [|done]. destruct Hr as [_ Hn]. unfold build_of. by destruct (web w !! panelID).
Qed.

(** The pointer of a reinstallation, once the new build is in place. *)
Lemma reinstalled_names panelID build a w w2 :
  names_served w a -> keeps (fun q _ => q <> panelID) w w2 -> served w2 panelID build ->
  builds_served w2 (reinstalled_pointer panelID build a).
Proof.
  intros (Hiff & Hb & Hp) Hk Hs.
  assert (Hprev : forall q b, delete panelID (clonePrevious (Previous a)) !! q = Some b -> b <> ""%string -> served w2 q b).
  { intros q b [Hne Hq]%lookup_delete_Some Hb'. apply clone_lookup in Hq as (Hq & _).
    eapply keeps_served; [done|by simpl|eauto]. }
  unfold reinstalled_pointer. case_if; breflect; split; simpl; try done.
  intros Hne. eapply keeps_served; [done|done|auto].
Qed.

Lemma commitReinstall_ok p q x w w' :
  clean_writes -> candidate_complete p w -> commitReinstallLocked E webActive p w = ((q, x), w') -> pointer_ok w ->
  (forall e, x = Some e -> ~ says_not_restored e) -> pointer_ok w'.
Proof.
  intros Hclean Hcand Hc Hok Hrest. unfold commitReinstallLocked in Hc.
  apply st_bind_inv in Hc as (c & w0 & Hl & Hc). apply LoadActive_inv in Hl as (Hq0 & Hs0 & Hcur).
  apply (quiet_ok _ _ Hq0) in Hok. destruct c as [current|]; [|by injection Hc as <- <- <-]. specialize (Hcur current eq_refl).
  assert (Hcand0 : candidate_complete p w0) by (unfold candidate_complete; by rewrite Hs0).
  apply st_bind_inv in Hc as (r & w1 & Hr & Hc). destruct r as [had|e].
  2: { injection Hc as <- <- <-. apply move_aside_inv in Hr as (Hf & _ & Hw); [|intros a b ->; done].
    eapply quiet_ok; [by split|done]. }
  apply move_panel_inv in Hr as (Has & Hf1 & Hst1 & Hn1).
  assert (Hdir : stage w1 !! candidateDir p = stage w0 !! candidateDir p) by (apply Hst1, suffix_ne; done).
  apply st_bind_inv in Hc as (y & w2 & Hy & Hc). apply promoteCandidate_inv in Hy as (Hk2 & Hf2 & Hy).
  assert (Ho2 : keeps (fun q _ => q <> pp_panelID p) w0 w2).
  { intros a b Hab. rewrite Hk2 by auto. by apply (as_others _ _ _ _ _ Has). }
  destruct y as [y|].
  { destruct Hy as [Hs2 Hn2]. eapply restore_inv in Hc as [Hk Hf]; [|constructor; [done| |]|done].
    - apply (pointer_keep w0); [done|congruence|done].
    - intros Hh. rewrite Hs2. by apply (as_had _ _ _ _ _ Has).
    - intros Hh b. split; [by apply (as_none _ _ _ _ _ Has)|].
      destruct (decide (b = pp_build p)) as [->|Hb]; [by apply Hn2|rewrite Hk2 by auto; done]. }
  destruct Hy as [(t & Ht & Hb2) Hst2]. assert (Hs2 : served w2 (pp_panelID p) (pp_build p)).
  { exists t. split; [done|]. by eapply candidate_promoted. }
  apply st_bind_inv in Hc as (z & w3 & Hz & Hc). destruct z as [z|].
  - apply SaveActive_inv in Hz as (Hw3 & Hs3 & [Hp3|[_ Hnc]] & _); [|done].
    eapply (abandon_ok _ _ _ _ _ _ w0); [done| | |done|done| |done|done|done].
    + intros Hh. rewrite Hst2 by (apply not_eq_sym, suffix_ne; done). by apply (as_had _ _ _ _ _ Has).
    + intros Hh b. by apply (as_none _ _ _ _ _ Has).
    + rewrite Hp3. unfold pointer. by rewrite Hf2, Hf1.
  - injection Hc as <- <- <-. assert (Hz' := Hz). apply SaveActive_inv in Hz' as (Hw3 & _ & Hp3 & Hiff).
    intros a Ha. assert (a = reinstalled_pointer (pp_panelID p) (pp_build p) current) as -> by congruence.
    assert (Hbs := reinstalled_names _ _ _ _ _ (Hok _ Hcur) Ho2 Hs2). destruct Hbs as [Hb Hp].
    split; [apply Hiff; by left|]. split; [intros Hne; eapply served_web; [done|auto]|].
    intros a b Hab Hne. eapply served_web; [done|eauto].
Qed.

Lemma valid_inv p w v w' : validLocked E p w = (v, w') ->
  quiet w w' /\ (v = true -> noOp p = false -> pp_committed p = false -> candidate_complete p w').
Proof.
  unfold validLocked. case_if; [by intros [= <- <-]|]. case_if.
  { intros [= <- <-]. split; [done|]. intros _ Hn Hc. by rewrite Hn, Hc in *. }
  unfold candidateReady. case_if; [by intros [= <- <-]|]. intros Hv. apply st_bind_inv in Hv as (x & w1 & Hx & Hv).
  apply pcall_inv in Hx as [Hq _]. apply st_bind_inv in Hv as (w2 & w3 & Hg & Hv). injection Hg as <- <-. injection Hv as <- <-.
  split; [done|]. destruct x; [done|]. intros Hv _ _. unfold candidate_complete.
  destruct (stage w1 !! candidateDir p) as [[t|]|]; [eauto|done..].
Qed.

Lemma Commit_ok p q x w w' :
  (pp_mode p = Reinstall -> clean_writes) -> Panels.Commit E webActive p w = ((q, x), w') -> pointer_ok w ->
  (forall e, x = Some e -> ~ says_not_restored e) -> pointer_ok w'.
Proof.
  intros Hclean Hc Hok Hrest. unfold Panels.Commit in Hc. destruct (pp_committed p) eqn:Hcom; [by injection Hc as <- <- <-|].
  apply st_bind_inv in Hc as (v & w1 & Hv & Hc). apply valid_inv in Hv as [Hq1 Hv]. apply (quiet_ok _ _ Hq1) in Hok.
  destruct v; [|by injection Hc as <- <- <-]. simpl in Hc. destruct (noOp p) eqn:Hno; [by injection Hc as <- <- <-|].
  specialize (Hv eq_refl eq_refl Hcom). apply st_bind_inv in Hc as (ready & w2 & Hr & Hc).
  assert (Hq2 : quiet w1 w2 /\ stage w2 = stage w1).
  { destruct (pp_mode p); [by apply ready_inv in Hr as (? & ? & _)..|by injection Hr as _ <-]. }
  destruct Hq2 as [Hq2 Hs2]. apply (quiet_ok _ _ Hq2) in Hok.
  assert (Hcand : candidate_complete p w2) by (unfold candidate_complete; by rewrite Hs2).
  destruct ready; [by injection Hc as <- <- <-|]. apply st_bind_inv in Hc as ([q' y] & w3 & Hm & Hc).
  assert (Hy : x = y /\ w3 = w') by (destruct y; by injection Hc as _ <- <-). destruct Hy as [<- ->].
  destruct (pp_mode p); [by eapply commitUpdate_ok..|by eapply commitReinstall_ok; auto].
Qed.

(** *** All requests *)

Inductive panel_request :=
| RActivate (done : option error) (panelID : string)
| RRollback (done : option error) (panelID : string)
| RRemoveBuild (panelID build : string)
| RUninstall (done : option error) (panelID : string)
| RPrepareInstall (panelID pin : string)
| RPrepareUpdate (panelID : string)
| RPrepareReinstall (panelID : string)
| RCommit (p : prepared)
| RCleanup (p : prepared).

Definition failed {A} (m : st PW (result A)) : st PW (option error) :=
  let! r := m in st_ret match r with Ok _ => None | Err x => Some x end.

Definition run_request (r : panel_request) : st PW (option error) :=
  match r with
  | RActivate done panelID => Activate E webActive done panelID
  | RRollback done panelID => Panels.Rollback E webActive done panelID
  | RRemoveBuild panelID build => RemoveBuild E webActive panelID build
  | RUninstall done panelID => Uninstall E webActive done panelID
  | RPrepareInstall panelID pin => failed (PrepareInstall E panelID pin)
  | RPrepareUpdate panelID => failed (PrepareUpdate E panelID)
  | RPrepareReinstall panelID => failed (PrepareReinstall E panelID)
  | RCommit p => let! '(_, x) := Panels.Commit E webActive p in st_ret x
  | RCleanup p => do! Panels.Cleanup E p in st_ret None
  end.

Lemma failed_inv {A} (m : st PW (result A)) w x w' : failed m w = (x, w') -> exists r, m w = (r, w').
Proof. intros Hf. unfold failed in Hf. apply st_bind_inv in Hf as (r & w1 & Hr & Hf). injection Hf as _ <-. eauto. Qed.

Lemma request_ok r w x w' :
  (forall p, r = RCommit p -> pp_mode p = Reinstall -> clean_writes) ->
  run_request r w = (x, w') -> (forall e, x = Some e -> ~ says_not_restored e) -> pointer_ok w -> pointer_ok w'.
Proof.
  intros Hclean Hr Hrest Hok. destruct r; simpl in Hr.
  - by eapply Activate_ok.
  - by eapply Rollback_ok.
  - by eapply RemoveBuild_ok.
  - by eapply Uninstall_ok.
  - apply failed_inv in Hr as [r Hr]. eapply quiet_ok; [by eapply PrepareInstall_quiet|done].
  - apply failed_inv in Hr as [r Hr]. eapply quiet_ok; [by eapply PrepareUpdate_quiet|done].
  - apply failed_inv in Hr as [r Hr]. eapply quiet_ok; [by eapply PrepareReinstall_quiet|done].
  - apply st_bind_inv in Hr as ([q y] & w1 & Hc & Hr). injection Hr as <- <-. eapply Commit_ok; [|done..]. by apply Hclean.
  - apply st_bind_inv in Hr as (q & w1 & Hc & Hr). injection Hr as <- <-. eapply quiet_ok; [by eapply Cleanup_quiet|done].
Qed.

End Calls.

(** Runs of requests, each under its own behaviour of the system.  Left out are
    the two cases in which the old state is lost: an error that says so, and a
    reinstallation whose pointer is written with a warning. *)
Inductive runs : PW -> PW -> Prop :=
| runs_nil w : runs w w
| runs_step E r w x w1 w2 :
    run_request E r w = (x, w1) -> (forall e, x = Some e -> ~ says_not_restored e) ->
    (forall p, r = RCommit p -> pp_mode p = Reinstall -> clean_writes E) -> runs w1 w2 -> runs w w2.

Lemma runs_ok w w' : runs w w' -> pointer_ok w -> pointer_ok w'.
Proof. induction 1 as [|E r w x w1 w2 Hr Hrest Hclean _ IH]; [done|]. intros Hok. apply IH. by eapply request_ok. Qed.

(** Without a pointer nothing is named. *)
Lemma no_pointer_ok w : af_read webActive (pnfiles w) = None -> pointer_ok w.
Proof.
  intros Hn a Ha. unfold pointer in Ha. rewrite Hn in Ha. injection Ha as <-. split; [done|]. split.
  - intros Hne. by destruct Hne.
  - intros q b Hq. unfold no_active in Hq. simpl in Hq. by rewrite lookup_empty in Hq.
Qed.

End Pointer.

(** C39. The web panel that is served exists.  Start with an active pointer whose
    panel and rollback builds are complete trees.  After any sequence of requests
    that install, update, reinstall, activate, roll back, remove and uninstall
    panels, and whatever fails in them, the pointer again names only complete trees, and the
    directory of the active panel is found.  Left out are two kinds of failure: an
    error that says that a restore failed, and a reinstallation whose pointer is
    written but with a warning, which takes the panel back and not the pointer, so
    that the pointer names a build that is gone. *)
Theorem active_panel_served `{CaseFold} `{ActiveLaws} `{SourceSyntax} `{Unicode} {AEnv W : Type} `{AtomicFile AEnv W}
    (webActive : path) (w w' : pnworld W) :
  runs webActive w w' -> pointer_ok webActive w ->
  forall a, pointer webActive w' = Some a ->
    (Panel a <> ""%string -> exists t, build_of (Panel a) (Build a) w' = Some t /\ complete t = true) /\
    (forall q b, Previous a !! q = Some b -> b <> ""%string -> exists t, build_of q b w' = Some t /\ complete t = true) /\
    (forall E, (forall n, pe_sys E n = None) -> is_Some (Lookup (Panel a)) ->
       fst (PanelDir E webActive (Panel a) w') = Ok (Build a)).
Proof.
  intros Hr Hok a Ha. destruct (runs_ok webActive w w' Hr Hok a Ha) as (Hiff & Hb & Hp). split; [exact Hb|]. split; [exact Hp|].
  intros E Hsys [entry Hl]. assert (Hne : Panel a <> ""%string) by (intros Heq; by rewrite Heq in Hl).
  destruct (Hb Hne) as (t & Ht & Hc). assert (Hbne : Build a <> ""%string) by tauto.
  unfold PanelDir. rewrite (proj2 (String.eqb_neq _ _) Hne), Hl. unfold LoadActive, buildReadyLocked, pcall, pnext, st_try. st_unfold. simpl.
  rewrite !Hsys. unfold pointer in Ha. destruct (af_read webActive (pnfiles w')) as [raw|].
  - rewrite Ha. simpl. rewrite String.eqb_refl, (proj2 (String.eqb_neq _ _) Hbne). simpl. rewrite !Hsys.
    unfold build_of in *. simpl. by rewrite Ht, Hc.
  - by injection Ha as <-.
Qed.

(** *** A run *)

Definition active_tuple (a : Active) := (Panel a, Build a, Previous a).
Definition tuple_active (t : string * string * gmap string string) : Active := let '(p, b, m) := t in mkActive p b m.

#[local] Instance ex_active_json : ActiveJSON :=
  {| json_Marshal_active := fun a => Some (bits_text (encode (active_tuple a)));
     json_Unmarshal_active := fun raw => tuple_active <$> decode (text_bits raw) |}.

#[local] Instance ex_active_laws : ActiveLaws.
Proof.
  split. intros a raw [= <-]. simpl. change end_of_line with line_end. rewrite text_bits_text, decode_encode. by destruct a.
Defined.

#[local] Instance ex_panel_fold : CaseFold := {| unicode_EqualFold := String.eqb |}.
#[local] Instance ex_panel_unicode : Unicode := {| unicode_ToLower s := s |}.

Definition ex_active_path : path := ("/data/web", "active.json")%string.
Definition ex_tree : tree := [mkEntry ["dist"] true; mkEntry ["dist"; "Index.html"] false]%string.

(** The latest build is [build]; [sync] is the directory sync after a write. *)
Definition ex_panel_env (build : string) (sync : option error) : penv atomic_env :=
  mkPEnv (fun _ => None) (fun _ b => b) (fun _ t => t)
    (fun _ => mkAtomicEnv None "x" None None "" None None None None sync None None)
    (fun _ => ("tmp-" ++ build)%string) (fun _ => Ok (build, "https://host/panel.zip"%string))
    (fun _ => None) (fun _ => Ok ex_tree) false ["zashboard"%string] true.

Definition ex_prepared (build : string) (m : mode) : prepared :=
  mkPrepared "zashboard" build ("tmp-" ++ build) [] m false false false.

(** Version 1 is installed and activated, and replaced by version 2. *)
Definition ex_requests : list panel_request :=
  [RPrepareInstall "zashboard" ""; RCommit (ex_prepared "v1" Install); RActivate None "zashboard"]%string.
Definition ex_reinstall : list panel_request :=
  [RPrepareReinstall "zashboard"; RCommit (ex_prepared "v2" Reinstall)]%string.

Fixpoint run_all (E : penv atomic_env) (l : list panel_request) (w : pnworld fs) : list (option error) * pnworld fs :=
  match l with
  | [] => ([], w)
  | r :: l => let '(x, w) := run_request ex_active_path E r w in let '(xs, w) := run_all E l w in (x :: xs, w)
  end.

Definition ex_empty : pnworld fs := mkPNWorld 0 ∅ ∅ (mkFS ∅ []).
Definition ex_active : list (option error) * pnworld fs := run_all (ex_panel_env "v1" None) ex_requests ex_empty.

(** The reinstallation reports a failure when the directory of the pointer cannot
    be synced after the pointer was replaced, and puts the old build back: the
    pointer names version 2, which is gone. *)
Example warning_leaves_dangling_pointer :
  let '(xs, w) := run_all (ex_panel_env "v2" (Some (EText "sync"))) ex_reinstall (snd ex_active) in
  pointer ex_active_path w = Some (mkActive "zashboard" "v2" ∅) /\
  build_of "zashboard" "v2" w = None /\ build_of "zashboard" "v1" w = Some ex_tree /\ bool_decide (is_Some (xs !! 1%nat ≫= id)) = true.
Proof. by vm_compute. Qed.

(** Without faults no write has a warning. *)
Lemma ex_clean build : clean_writes (ex_panel_env build None).
Proof.
  intros n p c f r e f' Hw. simpl in Hw. unfold AtomicWriteWithCommit, writeAtomic, create_temp, write_body, write_cleanup,
    replace, os_remove, fs_set in Hw. simpl in Hw. destruct (files f !! temp_name p "x"); [by injection Hw as <- <- <-|].
  simpl in Hw. rewrite lookup_insert_eq in Hw. simpl in Hw.
  rewrite lookup_insert_ne, lookup_delete_eq in Hw by (apply not_eq_sym, temp_name_ne). by injection Hw as <- <- <-.
Qed.

Lemma run_all_runs build l w :
  Forall (fun x => x = None) (fst (run_all (ex_panel_env build None) l w)) ->
  runs ex_active_path w (snd (run_all (ex_panel_env build None) l w)).
Proof.
  revert w. induction l as [|r l IH]; simpl; intros w Hall; [constructor|].
  destruct (run_request ex_active_path (ex_panel_env build None) r w) as [x w1] eqn:Hr.
  specialize (IH w1). destruct (run_all (ex_panel_env build None) l w1) as [xs w2]. simpl in *.
  apply Forall_cons in Hall as [-> Hall]. econstructor; [done|done|intros; apply ex_clean|auto].
Qed.

Lemma runs_trans `{CaseFold} `{ActiveLaws} `{SourceSyntax} `{Unicode} {AEnv W : Type} `{AtomicFile AEnv W} (p : path)
    (w1 w2 w3 : pnworld W) : runs p w1 w2 -> runs p w2 w3 -> runs p w1 w3.
Proof. induction 1; [done|]. intros. econstructor; eauto. Qed.

Definition ex_replaced : list (option error) * pnworld fs := run_all (ex_panel_env "v2" None) ex_reinstall (snd ex_active).

(** After the two runs version 2 is served. *)
Lemma active_panel_served_witness :
  pointer ex_active_path (snd ex_replaced) = Some (mkActive "zashboard" "v2" ∅) /\
  (exists t, build_of "zashboard" "v2" (snd ex_replaced) = Some t /\ complete t = true) /\
  fst (PanelDir (ex_panel_env "v2" None) ex_active_path "zashboard" (snd ex_replaced)) = Ok "v2"%string.
Proof.
  assert (Hp : pointer ex_active_path (snd ex_replaced) = Some (mkActive "zashboard" "v2" ∅)) by (vm_compute; reflexivity).
  assert (Hr : runs ex_active_path ex_empty (snd ex_replaced)).
  { eapply runs_trans; [apply (run_all_runs "v1" ex_requests)|apply (run_all_runs "v2" ex_reinstall)].
    - vm_compute. repeat constructor.
    - vm_compute. repeat constructor. }
  assert (Hok : pointer_ok ex_active_path ex_empty) by (apply no_pointer_ok, lookup_empty).
  destruct (active_panel_served ex_active_path ex_empty (snd ex_replaced) Hr Hok _ Hp) as (Hb & _ & Hd).
  split; [exact Hp|]. split; [by apply Hb|]. apply Hd; [done|]. vm_compute. eauto.
Defined.
