(* ===== verification/Archive.v ===== *)
(** * Archive: unpacking the archive of a panel

    Models [internal/panel/archive/zip.go] on Unix, where the separator of paths is
    the slash.  The entries of the archive are the input, as [archive/zip] reads
    them: name, mode, declared size, and what reading and closing it gives.  What
    extraction does to the file system is the list of its calls [mkdir] and
    [write]; [outcome] says how each of them goes.

    [extraction_contained] is the theorem: an archive made by anyone writes only
    below the target directory, once per name, and within all limits. *)

From Stdlib Require Import Ascii.
From S2P Require Import Prelude GoStd WebStatic Catalog SelfUpdate TunDetect.

(** ** Data *)

(** The bits of [os.FileMode] that are read; [z_special] stands for devices,
    character devices, named pipes and sockets. *)
Record zipfile := mkZipFile {
  z_Name : string;
  z_symlink : bool;
  z_special : bool;
  z_dir : bool;
  UncompressedSize64 : Z;
  z_open : option error;
  z_content : string;
  z_read : option error;            (** the error met after the content *)
  z_close : option error
}.

Record extractLimits := mkLimits {
  maxFile : Z;
  maxTotal : Z;
  maxEntries : Z;
  maxDepth : Z;
  requireIndex : bool
}.

Definition MaxExtractedFileSize : Z := 67108864.
Definition MaxTotalExtractedBytes : Z := 268435456.
Definition MaxArchiveEntries : Z := 4096.
Definition MaxArchiveDepth : Z := 16.
Definition defaultExtractLimits : extractLimits :=
  mkLimits MaxExtractedFileSize MaxTotalExtractedBytes MaxArchiveEntries MaxArchiveDepth true.

(** The calls of an extraction. *)
Inductive action :=
| Mkdir (name : string)
| WriteFile (name content : string).

Definition action_name (a : action) : string := match a with Mkdir n => n | WriteFile n _ => n end.
Definition action_size (a : action) : Z := match a with Mkdir _ => 0 | WriteFile _ c => len c end.

(** [dataFailure] and [joinDataFailure]. *)
Definition dataFailure (message : string) (cause : option error) : error := dataError message cause.

Definition joinDataFailure (primary : error) (secondary : option error) : error :=
  match secondary with
  | None => primary
  | Some s =>
      if errors_Is s ErrNotExist then primary
      else match errors_As primary with
           | Some api => EWrap api (EJoin primary s)
           | None => EJoin primary s
           end
  end.

(** ** Names *)

Definition backslash : ascii := ascii_of_nat 92.

(** [strings.ReplaceAll(name, "\\", "/")]. *)
Definition forward_slashes (name : string) : string := map_ascii (fun c => if Ascii.eqb c backslash then slash else c) name.

Definition second_is_colon (s : string) : bool :=
  match s with String _ (String c _) => Ascii.eqb c ":" | _ => false end.

Definition cleaned_name (name : string) : string := filepath_Clean (forward_slashes name).

Definition SafeName (name : string) : bool :=
  if String.eqb name "" then false
  else
    let forward := forward_slashes name in
    if HasPrefix forward "/" then false
    else if second_is_colon forward then false
    else
      let cleaned := filepath_Clean forward in
      if String.eqb cleaned ".." || HasPrefix cleaned "../" then false
      else if HasPrefix forward "/" || HasPrefix cleaned "/" then false
      else true.

Definition archivePathDepth (name : string) : Z :=
  Z.of_nat (length (List.filter (fun part => negb (String.eqb part "") && negb (String.eqb part "."))
                      (Split slash (cleaned_name name)))).

(** [filepath.Base]. *)
Definition filepath_Base (name : string) : string :=
  if String.eqb name "" then "."%string
  else match last (List.filter (fun part => negb (String.eqb part "")) (Split slash name)) with
       | Some part => part
       | None => "/"%string
       end.

(** ** Extraction *)

(** [io.ReadAll(io.LimitReader(source, n))]. *)
Definition read_source (n : Z) (f : zipfile) : result string :=
  if n <=? len (z_content f) then Ok (takeZ n (z_content f))
  else match z_read f with Some x => Err x | None => Ok (z_content f) end.

Definition readZipFile (f : zipfile) (limit : Z) : result string :=
  match z_open f with
  | Some x => Err (dataFailure "open panel archive entry" (Some x))
  | None =>
      match read_source (int64 (int64 limit + 1)) f with
      | Err x => Err (joinDataFailure (dataFailure "extract panel archive entry" (Some x)) (z_close f))
      | Ok body =>
          if limit <? len body
          then Err (joinDataFailure (dataFailure "panel archive file is too large" None) (z_close f))
          else Ok body
      end
  end.

Section Extract.
Context `{CaseFold} (limits : extractLimits) (outcome : nat -> option error).

(** The state of the loop: [seen], the two totals, [foundIndex] and the calls so
    far, last first. *)
Record progress := mkProgress {
  seen : list string;
  declaredTotal : Z;
  actualTotal : Z;
  foundIndex : bool;
  calls : list action
}.

Definition no_progress : progress := mkProgress [] 0 0 false [].

(** A call is made, and may fail. *)
Definition perform (a : action) (s : progress) : option error * progress :=
  (outcome (length (calls s)), mkProgress (seen s) (declaredTotal s) (actualTotal s) (foundIndex s) (a :: calls s)).

Definition refuse (m : string) (s : progress) : option error * progress := (Some (dataFailure m None), s).

(** A file whose name and mode are accepted. *)
Definition extract_content (f : zipfile) (cleaned : string) (s : progress) : option error * progress :=
  let size := UncompressedSize64 f in
  if maxFile limits <? size then refuse "panel archive file is too large" s
  else if (uint64 (declaredTotal s + size) <? declaredTotal s) || (maxTotal limits <? uint64 (declaredTotal s + size))
  then refuse "panel archive is too large" s
  else
    let s := mkProgress (seen s) (uint64 (declaredTotal s + size)) (actualTotal s) (foundIndex s) (calls s) in
    match readZipFile f (maxFile limits) with
    | Err x => (Some x, s)
    | Ok body =>
        if (uint64 (actualTotal s + len body) <? actualTotal s) || (maxTotal limits <? uint64 (actualTotal s + len body))
        then refuse "panel archive is too large" s
        else
          let s := mkProgress (seen s) (declaredTotal s) (uint64 (actualTotal s + len body)) (foundIndex s) (calls s) in
          let '(x, s) := perform (WriteFile cleaned body) s in
          match x with
          | Some x => (Some x, s)
          | None =>
              (None, mkProgress (seen s) (declaredTotal s) (actualTotal s)
                       (foundIndex s || EqualFold (filepath_Base (z_Name f)) "index.html") (calls s))
          end
    end.

(** One entry of the archive. *)
Definition extract_entry (f : zipfile) (s : progress) : option error * progress :=
  if negb (SafeName (z_Name f)) then refuse "unsafe path in panel archive" s
  else
    let cleaned := cleaned_name (z_Name f) in
    if bool_decide (cleaned ∈ seen s) then refuse "duplicate path in panel archive" s
    else
      let s := mkProgress (cleaned :: seen s) (declaredTotal s) (actualTotal s) (foundIndex s) (calls s) in
      if z_symlink f then refuse "symlink in panel archive" s
      else if z_special f then refuse "device in panel archive" s
      else if maxDepth limits <? archivePathDepth (z_Name f) then refuse "panel archive path is too deep" s
      else if z_dir f then
        let '(x, s) := perform (Mkdir cleaned) s in
        (option_map (EFmt "create panel directory") x, s)
      else extract_content f cleaned s.

Fixpoint extract_entries (files : list zipfile) (s : progress) : option error * progress :=
  match files with
  | [] => if requireIndex limits && negb (foundIndex s) then refuse "panel archive is missing index.html" s else (None, s)
  | f :: rest =>
      let '(x, s) := extract_entry f s in
      match x with
      | Some x => (Some x, s)
      | None => extract_entries rest s
      end
  end.

Definition extractZipFiles (files : list zipfile) : option error * progress :=
  if (0 <? maxEntries limits) && (maxEntries limits <? Z.of_nat (length files))
  then refuse "panel archive has too many entries" no_progress
  else extract_entries files no_progress.

(** [ExtractZip] and [ExtractZipLimited]: the archive is opened, the directory made,
    the files extracted, and the directory removed when that fails.  The result says
    as well whether the directory was removed. *)
Definition extractZipWithLimits (opened : result (list zipfile)) (made removed closed : option error)
    : option error * progress * bool :=
  match opened with
  | Err x => (Some (dataFailure "invalid panel archive" (Some x)), no_progress, false)
  | Ok files =>
      let closing (x : error) := joinDataFailure x closed in
      match made with
      | Some x => (Some (closing (EFmt "create panel extract directory" x)), no_progress, false)
      | None =>
          let '(x, s) := extractZipFiles files in
          match x with
          | None => (None, s, false)
          | Some x =>
              let x := match removed with
                       | Some r => joinDataFailure x (Some (EFmt "remove failed panel extraction" r))
                       | None => x
                       end in
              (Some (closing x), s, bool_decide (removed = None))
          end
      end
  end.

End Extract.

(** [filepath.Join(destDir, name)]: where a call of [ExtractZip] goes. *)
Definition target_path (destDir name : string) : string := filepath_Clean (destDir ++ "/" ++ name).

(** ** Lemmas *)

(** *** Paths *)

(** The text of a clean relative path below a directory. *)
Definition relative (l : list string) : string := match l with [] => "."%string | _ => Join "/" l end.

(** The segments of a clean relative path: names on top of parents. *)
Lemma clean_segments_shape (l names ups : list string) :
  (forall p, p ∈ l -> forall a b, p <> (a ++ "/" ++ b)%string) ->
  Forall component names -> Forall (fun p => p = ".."%string) ups ->
  exists names' ups', clean_segments false (names ++ ups) l = names' ++ ups' /\ Forall component names' /\
    Forall (fun p => p = ".."%string) ups'.
Proof.
  revert names ups. induction l as [|s l IH]; intros names ups Hl Hn Hu; cbn [clean_segments]; [by exists names, ups|].
  assert (Hl' : forall p, p ∈ l -> forall a b, p <> (a ++ "/" ++ b)%string) by (intros p Hp; apply Hl; by right).
  case_if; [by apply IH|]. case_if; breflect; subst.
  - destruct names as [|n names]; simpl.
    + destruct ups as [|u ups]; [apply (IH [] [".."%string]); auto|]. inversion_clear Hu; subst. simpl.
      apply (IH [] (".."%string :: ".."%string :: ups)); auto.
    + inversion_clear Hn as [|? ? Hc Hns]. destruct (String.eqb n "..") eqn:Hd; breflect; [by destruct Hc as (_ & _ & Hc & _)|].
      by apply IH.
  - apply (IH (s :: names) ups); [done| |done]. constructor; [|done]. repeat split; try done. apply Hl. by left.
Qed.

Lemma Join_cons (sep a : string) (l : list string) : l <> [] -> Join sep (a :: l) = (a ++ sep ++ Join sep l)%string.
Proof. by destruct l. Qed.

Lemma Join_nonempty (l : list string) : l <> [] -> Forall component l -> Join "/" l <> ""%string.
Proof.
  intros Hne Hl. destruct l as [|a l]; [done|]. inversion_clear Hl as [|? ? [Ha _] _].
  destruct l; simpl; [done|]. by destruct a.
Qed.

(** A name that is accepted is a clean path below the directory. *)
Lemma SafeName_relative (name : string) : SafeName name = true ->
  exists l, cleaned_name name = relative l /\ Forall component l.
Proof.
  unfold SafeName, cleaned_name. case_if; [done|]. destruct (HasPrefix (forward_slashes name) "/") eqn:Hroot; [done|].
  case_if; [done|]. case_if; [done|]. intros _. apply orb_false_iff in Heqb1 as [Hd Hp]. unfold filepath_Clean in *. rewrite Hroot in *.
  destruct (clean_segments_shape (Split slash (forward_slashes name)) [] []) as (names & ups & Hc & Hn & Hu);
    [intros p Hp'; exact (Split_no_sep slash _ p Hp')|constructor|constructor|].
  simpl in Hc. rewrite Hc in *. rewrite rev_app_distr in *. exists (rev names).
  assert (Hups : ups = []).
  { destruct ups as [|u ups]; [done|]. exfalso. destruct (exists_last (l := u :: ups) ltac:(done)) as (us & v & Hv). rewrite Hv in *.
    apply Forall_app in Hu as [_ Hu]. inversion_clear Hu; subst. rewrite rev_app_distr in *. simpl in *.
    destruct (rev us ++ rev names) as [|x y] eqn:Hrest; simpl in *; [done|].
    change (".." ++ "/" ++ Join "/" (x :: y))%string with ("../" ++ Join "/" (x :: y))%string in Hp.
    unfold HasPrefix in Hp. by rewrite prefix_append in Hp. }
  subst ups. simpl. split; [|by apply Forall_rev]. unfold relative. destruct (rev names) as [|x y] eqn:Hr; [done|].
  assert (Hne : Join "/" (x :: y) <> ""%string).
  { apply Join_nonempty; [done|]. rewrite <- Hr. by apply Forall_rev. }
  apply String.eqb_neq in Hne. by rewrite Hne.
Qed.

Lemma Split_component (c : string) (rest : string) : component c -> Split slash (c ++ "/" ++ rest) = c :: Split slash rest.
Proof.
  intros (_ & _ & _ & Hc). revert Hc. induction c as [|x c IH]; intros Hc; [done|].
  change ((String x c ++ "/" ++ rest)%string) with (String x (c ++ "/" ++ rest)). cbn [Split].
  destruct (Ascii.eqb_spec x slash) as [->|Hx]; [by destruct (Hc ""%string c)|].
  rewrite IH; [done|]. intros a b Heq. apply (Hc (String x a) b). by rewrite Heq.
Qed.

Lemma Split_one (c : string) : component c -> Split slash c = [c].
Proof.
  intros (_ & _ & _ & Hc). revert Hc. induction c as [|x c IH]; intros Hc; [done|]. cbn [Split].
  destruct (Ascii.eqb_spec x slash) as [->|Hx]; [by destruct (Hc ""%string c)|].
  rewrite IH; [done|]. intros a b Heq. apply (Hc (String x a) b). by rewrite Heq.
Qed.

Lemma Split_components (l : list string) : l <> [] -> Forall component l -> Split slash (Join "/" l) = l.
Proof.
  intros Hne Hl. induction Hl as [|c l Hc Hl IH]; [done|]. destruct l as [|d l]; [by apply Split_one|].
  rewrite Join_cons, Split_component by done. by rewrite IH.
Qed.

Lemma Split_components_app (l : list string) (rest : string) :
  l <> [] -> Forall component l -> Split slash (Join "/" l ++ "/" ++ rest) = l ++ Split slash rest.
Proof.
  intros Hne Hl. induction Hl as [|c l Hc Hl IH]; [done|]. destruct l as [|d l]; [by apply Split_component|].
  rewrite Join_cons by done. rewrite !append_assoc. rewrite Split_component by done. rewrite IH by done. done.
Qed.

Lemma clean_components rooted acc l : Forall component l -> clean_segments rooted acc l = rev l ++ acc.
Proof.
  intros Hl. revert acc. induction Hl as [|c l (H1' & H2' & H3' & _) Hl IH]; intros acc; cbn [clean_segments]; [done|].
  apply String.eqb_neq in H1', H2', H3'. rewrite H1', H2', H3'. simpl. rewrite IH. by rewrite <- app_assoc.
Qed.

Lemma clean_dot rooted acc l : Forall component l -> clean_segments rooted acc (l ++ ["."%string]) = rev l ++ acc.
Proof.
  intros Hl. revert acc. induction Hl as [|c l (H1' & H2' & H3' & _) Hl IH]; intros acc; [reflexivity|].
  cbn [clean_segments app]. apply String.eqb_neq in H1', H2', H3'. rewrite H1', H2', H3'. simpl. rewrite IH. by rewrite <- app_assoc.
Qed.

(** Such a path is below the directory. *)
Lemma target_below (dir l : list string) :
  dir <> [] -> Forall component dir -> Forall component l ->
  target_path ("/" ++ Join "/" dir) (relative l) = ("/" ++ Join "/" (dir ++ l))%string.
Proof.
  intros Hne Hd Hl. unfold target_path, filepath_Clean.
  assert (Hroot : HasPrefix (("/" ++ Join "/" dir) ++ "/" ++ relative l) "/" = true).
  { unfold HasPrefix. rewrite append_assoc. apply prefix_append. }
  rewrite Hroot. rewrite append_assoc.
  assert (Hs : Split slash ("/" ++ Join "/" dir ++ "/" ++ relative l) = ""%string :: dir ++ Split slash (relative l)).
  { change ("/" ++ Join "/" dir ++ "/" ++ relative l)%string with (String slash (Join "/" dir ++ "/" ++ relative l)).
    cbn [Split]. rewrite Ascii.eqb_refl. f_equal. by apply Split_components_app. }
  rewrite Hs. cbn [clean_segments String.eqb orb]. f_equal. destruct l as [|c l].
  - change (Split slash (relative [])) with ["."%string]. rewrite clean_dot by done. by rewrite !app_nil_r, rev_involutive.
  - unfold relative. rewrite Split_components by done. rewrite clean_components by (by apply Forall_app).
    by rewrite app_nil_r, rev_involutive.
Qed.

Lemma filter_components (l : list string) :
  Forall component l -> List.filter (fun part => negb (String.eqb part "") && negb (String.eqb part ".")) l = l.
Proof.
  induction 1 as [|c l (H1' & H2' & _) Hl IH]; [done|]. simpl. apply String.eqb_neq in H1', H2'. rewrite H1', H2'. simpl. by rewrite IH.
Qed.

(** The depth that is checked is the number of names. *)
Lemma archivePathDepth_relative (name : string) (l : list string) :
  cleaned_name name = relative l -> Forall component l -> archivePathDepth name = Z.of_nat (length l).
Proof.
  intros Hn Hl. unfold archivePathDepth. rewrite Hn. destruct l as [|c l]; [done|]. unfold relative.
  rewrite Split_components by done. by rewrite filter_components.
Qed.

(** *** Content *)

(** A file is written whole, or not at all. *)
Lemma readZipFile_whole (f : zipfile) (limit : Z) (body : string) :
  0 <= limit < 2 ^ 63 - 1 -> readZipFile f limit = Ok body -> body = z_content f /\ len body <= limit.
Proof.
  intros Hlimit. unfold readZipFile. destruct (z_open f); [done|].
  rewrite (int64_id limit), (int64_id (limit + 1)) by (unfold in_int64, two63; lia).
  unfold read_source. case_if; [|destruct (z_read f); [done|]]; case_if; try done; intros [= <-]; breflect; [|split; [done|lia]].
  assert (Hw : takeZ (limit + 1) (z_content f) = z_content f) by (apply takeZ_short; lia). rewrite Hw in *. split; [done|lia].
Qed.

(** A sum of two words that passes the check of the code did not wrap around. *)
Lemma checked_sum (a b : Z) : 0 <= a < two64 -> 0 <= b < two64 -> a <= uint64 (a + b) -> uint64 (a + b) = a + b.
Proof.
  unfold uint64. intros Ha Hb Hle. destruct (Z_lt_le_dec (a + b) two64) as [Hs|Hs]; [by apply Z.mod_small; lia|].
  rewrite <- (Z_mod_plus_full (a + b) (-1) two64) in Hle. rewrite Z.mod_small in Hle; lia.
Qed.

(** *** The loop *)

(** What the calls wrote together. *)
Definition written (l : list action) : Z := foldr (fun a n => action_size a + n) 0 l.

(** A call made for an entry of the archive. *)
Definition call_of (limits : extractLimits) (f : zipfile) (a : action) : Prop :=
  z_symlink f = false /\ z_special f = false /\ action_name a = cleaned_name (z_Name f) /\
  (exists l, action_name a = relative l /\ Forall component l /\ Z.of_nat (length l) <= maxDepth limits) /\
  match a with
  | Mkdir _ => z_dir f = true
  | WriteFile _ c => z_dir f = false /\ c = z_content f /\ len c <= maxFile limits
  end.

Section Loop.
Context `{CaseFold} (limits : extractLimits) (outcome : nat -> option error).
Hypothesis file_fits : 0 <= maxFile limits < 2 ^ 63 - 1.
Hypothesis total_fits : 0 <= maxTotal limits < 2 ^ 64.

(** The state after the entries [past]. *)
Record sound (past : list zipfile) (s : progress) : Prop := {
  sound_calls : forall a, a ∈ calls s -> exists f, f ∈ past /\ call_of limits f a;
  sound_names : NoDup (map action_name (calls s));
  sound_seen : forall a, a ∈ calls s -> action_name a ∈ seen s;
  sound_total : actualTotal s = written (calls s) /\ 0 <= actualTotal s <= maxTotal limits;
  sound_count : (length (calls s) <= length past)%nat;
  sound_index : foundIndex s = true -> exists f a, f ∈ past /\ a ∈ calls s /\ call_of limits f a /\ z_dir f = false /\
                  EqualFold (filepath_Base (z_Name f)) "index.html" = true
}.

(** Every entry of [past] has its call. *)
Definition unpacked (past : list zipfile) (s : progress) : Prop :=
  forall f, f ∈ past -> exists a, a ∈ calls s /\ call_of limits f a.

Lemma sound_no_progress : sound [] no_progress.
Proof. split; simpl; try done; try (by intros ? ?%not_elem_of_nil); [constructor|lia]. Qed.

(** What only looks at an entry keeps the state sound. *)
Lemma sound_more (past : list zipfile) (f : zipfile) (s s' : progress) :
  sound past s -> calls s' = calls s -> seen s ⊆ seen s' -> actualTotal s' = actualTotal s -> foundIndex s' = foundIndex s ->
  sound (f :: past) s'.
Proof.
  intros [Hc Hn Hs Ht Hl Hi] Ec Es Et Ef. split; rewrite ?Ec, ?Et, ?Ef; auto.
  - intros a Ha. destruct (Hc a Ha) as (g & Hg & Hcg). exists g. split; [by right|done].
  - simpl. lia.
  - intros Hf. destruct (Hi Hf) as (g & a & Hg & Hga). exists g, a. split; [by right|done].
Qed.

(** A call for the next entry keeps it sound as well. *)
Lemma sound_call (past : list zipfile) (f : zipfile) (a : action) (s s' : progress) :
  sound past s -> action_name a ∉ seen s -> call_of limits f a ->
  calls s' = a :: calls s -> seen s' = action_name a :: seen s ->
  actualTotal s' = action_size a + actualTotal s -> 0 <= actualTotal s' <= maxTotal limits ->
  (foundIndex s' = true ->
     foundIndex s = true \/ z_dir f = false /\ EqualFold (filepath_Base (z_Name f)) "index.html" = true) ->
  sound (f :: past) s'.
Proof.
  intros [Hc Hn Hs [Ht Hb] Hl Hi] Hnew Hcall Ec Es Et Hb' Ef. split; rewrite ?Ec, ?Es.
  - intros b [->|Hb1]%elem_of_cons; [exists f; split; [by left|done]|].
    destruct (Hc b Hb1) as (g & Hg & Hcg). exists g. split; [by right|done].
  - simpl. constructor; [|done]. intros (b & Hbn & Hb1)%list_elem_of_fmap. rewrite Hbn in Hnew. by apply Hnew, Hs.
  - intros b [->|Hb1]%elem_of_cons; [by left|]. right. by apply Hs.
  - split; [|done]. simpl. lia.
  - simpl. lia.
  - intros Hf. destruct (Ef Hf) as [Hold|[Hd He]].
    + destruct (Hi Hold) as (g & b & Hg & Hb1 & Hgb). exists g, b. split; [by right|]. split; [by right|done].
    + exists f, a. split; [by left|]. split; [by left|done].
Qed.

(** Reading and writing one file. *)
Lemma extract_content_sound (past : list zipfile) (f : zipfile) (s s1 s' : progress) (x : option error) :
  sound past s -> cleaned_name (z_Name f) ∉ seen s ->
  s1 = mkProgress (cleaned_name (z_Name f) :: seen s) (declaredTotal s) (actualTotal s) (foundIndex s) (calls s) ->
  (forall c, c = z_content f -> len c <= maxFile limits -> call_of limits f (WriteFile (cleaned_name (z_Name f)) c)) ->
  z_dir f = false ->
  extract_content limits outcome f (cleaned_name (z_Name f)) s1 = (x, s') ->
  sound (f :: past) s' /\ (x = None -> exists a, calls s' = a :: calls s /\ call_of limits f a).
Proof.
  intros Hs Hnew -> Hcall Hdir. unfold extract_content, refuse, perform. cbn [seen declaredTotal actualTotal foundIndex calls].
  pose proof (len_nonneg (z_content f)) as Hlen.
  assert (Hrefused : forall d, sound (f :: past)
            (mkProgress (cleaned_name (z_Name f) :: seen s) d (actualTotal s) (foundIndex s) (calls s))).
  { intros d. apply (sound_more past f s); simpl; auto. intros z Hz. by right. }
  case_if; [intros [= <- <-]; by split|]. case_if; [intros [= <- <-]; by split|].
  destruct (readZipFile f (maxFile limits)) as [body|e] eqn:Hread; [|intros [= <- <-]; by split].
  apply readZipFile_whole in Hread as [-> Hfit]; [|done].
  destruct (sound_total past s Hs) as [Htotal Hrange].
  case_if; [intros [= <- <-]; by split|]. apply orb_false_iff in Heqb1 as [Hw Hmax]. breflect.
  pose proof (checked_sum (actualTotal s) (len (z_content f)) ltac:(unfold two64; lia) ltac:(unfold two64; lia) ltac:(lia)) as Hsum.
  rewrite Hsum in *.
  pose proof (Hcall _ eq_refl Hfit) as Hc.
  destruct (outcome (length (calls s))) as [e|]; intros [= <- <-]; (split; [|try done]).
  - eapply sound_call; simpl; try done; simpl; auto; lia.
  - eapply sound_call; simpl; try done; simpl; auto; try lia. intros [Hf|Hf]%orb_true_iff; auto.
  - intros _. by eexists.
Qed.

(** One entry. *)
Lemma extract_entry_sound (past : list zipfile) (f : zipfile) (s s' : progress) (x : option error) :
  sound past s -> extract_entry limits outcome f s = (x, s') ->
  sound (f :: past) s' /\ (x = None -> exists a, calls s' = a :: calls s /\ call_of limits f a).
Proof.
  intros Hs. unfold extract_entry. cbv zeta. destruct (SafeName (z_Name f)) eqn:Hsafe; simpl.
  2: { intros [= <- <-]. split; [by apply (sound_more past f s)|done]. }
  case_if; breflect; [intros [= <- <-]; split; [by apply (sound_more past f s)|done]|].
  assert (Hlook : sound (f :: past)
            (mkProgress (cleaned_name (z_Name f) :: seen s) (declaredTotal s) (actualTotal s) (foundIndex s) (calls s))).
  { apply (sound_more past f s); simpl; auto. intros z Hz. by right. }
  destruct (z_symlink f) eqn:Hlink; [intros [= <- <-]; by split|].
  destruct (z_special f) eqn:Hdev; [intros [= <- <-]; by split|].
  case_if; [intros [= <- <-]; by split|].
  destruct (SafeName_relative _ Hsafe) as (l & Hl & Hcomp). breflect. rewrite (archivePathDepth_relative _ l) in * by done.
  destruct (z_dir f) eqn:Hdir.
  - assert (Hc : call_of limits f (Mkdir (cleaned_name (z_Name f)))) by (repeat split; try done; by exists l).
    intros [= <- <-]. split; [|intros _; by eexists].
    destruct (sound_total past s Hs) as [_ Hr]. eapply sound_call; simpl; try done; simpl; auto.
  - apply extract_content_sound; try done. intros c Hc Hfit. repeat split; try done. by exists l.
Qed.

(** All entries. *)
Lemma extract_entries_sound (files past : list zipfile) (s s' : progress) (x : option error) :
  sound past s -> unpacked past s -> extract_entries limits outcome files s = (x, s') ->
  exists past', sound past' s' /\ past' ⊆ past ++ files /\ (length past' <= length past + length files)%nat /\
    (x = None -> unpacked (past ++ files) s' /\ (requireIndex limits = true -> foundIndex s' = true)).
Proof.
  revert past s. induction files as [|f files IH]; intros past s Hs Hc; cbn [extract_entries].
  - rewrite app_nil_r. destruct (requireIndex limits && negb (foundIndex s)) eqn:Hi; intros [= <- <-]; exists past;
      (split; [done|]); (split; [done|]); (split; [simpl; lia|]); [done|]. intros _. split; [done|]. intros Hr. rewrite Hr in Hi. by destruct (foundIndex s).
  - destruct (extract_entry limits outcome f s) as [y s1] eqn:He. apply (extract_entry_sound past) in He as [Hs1 Hy]; [|done].
    destruct y as [e|].
    + intros [= <- <-]. exists (f :: past). split; [done|]. split; [intros z; rewrite elem_of_app, !elem_of_cons; tauto|]. split; [simpl; lia|done].
    + intros Hrest. destruct (Hy eq_refl) as (a & Ha & Hfa). apply (IH (f :: past)) in Hrest as (past' & Hp & Hsub & Hlen & Hx); [|done|].
      * exists past'. split; [done|]. split; [intros z Hz; apply Hsub in Hz; revert Hz; rewrite !elem_of_app, !elem_of_cons; tauto|]. split; [simpl in *; lia|]. intros Hnone. destruct (Hx Hnone) as [Hcomp Hi].
        split; [|done]. intros g Hg. apply Hcomp. revert Hg. rewrite !elem_of_app, !elem_of_cons. tauto.
      * intros g [->|Hg]%elem_of_cons; rewrite Ha; [exists a; split; [by left|done]|].
        destruct (Hc g Hg) as (b & Hb & Hgb). exists b. split; [by right|done].
Qed.

End Loop.

(** ** Theorem *)

Lemma extractZipFiles_sound `{CaseFold} (limits : extractLimits) (outcome : nat -> option error) (files : list zipfile)
    (x : option error) (s : progress) :
  0 <= maxFile limits < 2 ^ 63 - 1 -> 0 <= maxTotal limits < 2 ^ 64 -> extractZipFiles limits outcome files = (x, s) ->
  exists past, sound limits past s /\ past ⊆ files /\ (0 < maxEntries limits -> Z.of_nat (length past) <= maxEntries limits) /\
    (x = None -> unpacked limits files s /\ (requireIndex limits = true -> foundIndex s = true)).
Proof.
  intros Hfile Htotal. unfold extractZipFiles.
  pose proof (sound_no_progress limits Htotal) as Hstart.
  destruct (_ && _) eqn:Hmany; [intros [= <- <-]; exists []; split; [done|]; split; [by intros ? ?%not_elem_of_nil|]; split; [simpl; lia|done]|].
  intros He. apply (extract_entries_sound limits outcome Hfile Htotal files []) in He as (past & Hs & Hsub & Hlen & Hx);
    [|done|by intros ? ?%not_elem_of_nil].
  exists past. split; [done|]. split; [done|]. split; [|done]. intros Hpos. simpl in Hlen.
  destruct (Z.ltb_spec (maxEntries limits) (Z.of_nat (length files))); [|lia].
  apply andb_false_iff in Hmany as [Hm|Hm]; breflect; [lia|done].
Qed.

(** C40. Unpacking an archive made by anyone into a directory.  Every call made to the
    file system comes from an entry that is no symbolic link and no device, goes to a
    path that is the directory followed by ordinary names, at most [maxDepth] of them,
    and writes the whole content of the entry, of at most [maxFile] bytes.  No path is
    written twice, all content together is at most [maxTotal] bytes although the sums
    are made in 64 bits, and there are at most [maxEntries] calls.  Success means that
    every entry was unpacked, an index page among them when it is required; failure
    removes the directory. *)
Theorem extraction_contained `{CaseFold} (limits : extractLimits) (outcome : nat -> option error) (files : list zipfile)
    (dir : list string) (made removed closed : option error) (x : option error) (s : progress) (gone : bool) :
  0 <= maxFile limits < 2 ^ 63 - 1 -> 0 <= maxTotal limits < 2 ^ 64 -> dir <> [] -> Forall component dir ->
  extractZipWithLimits limits outcome (Ok files) made removed closed = (x, s, gone) ->
  (forall a, a ∈ calls s -> exists f l,
     f ∈ files /\ call_of limits f a /\ Forall component l /\ Z.of_nat (length l) <= maxDepth limits /\
     target_path ("/" ++ Join "/" dir) (action_name a) = ("/" ++ Join "/" (dir ++ l))%string) /\
  NoDup (map action_name (calls s)) /\
  written (calls s) <= maxTotal limits /\
  (0 < maxEntries limits -> Z.of_nat (length (calls s)) <= maxEntries limits) /\
  match x with
  | Some _ => made = None -> removed = None -> gone = true
  | None =>
      made = None /\ gone = false /\ (forall f, f ∈ files -> exists a, a ∈ calls s /\ call_of limits f a) /\
      (requireIndex limits = true -> exists f a,
         f ∈ files /\ a ∈ calls s /\ call_of limits f a /\ z_dir f = false /\
         EqualFold (filepath_Base (z_Name f)) "index.html" = true)
  end.
Proof.
  intros Hfile Htotal Hne Hdir. unfold extractZipWithLimits. destruct made as [e|].
  { intros [= <- <- <-]. split; [by intros ? ?%not_elem_of_nil|]. split; [constructor|]. split; [simpl; lia|].
    split; [simpl; lia|done]. }
  destruct (extractZipFiles limits outcome files) as [y s1] eqn:He. intros Hend.
  assert (s1 = s) as -> by (by destruct y; injection Hend).
  apply extractZipFiles_sound in He as (past & [Hc Hn _ [Ht Hr] Hl Hi] & Hsub & Hmax & Hx); [|done..].
  split.
  { intros a Ha. destruct (Hc a Ha) as (f & Hf & Hfa). pose proof Hfa as (_ & _ & _ & (l & Hal & Hcomp & Hdeep) & _).
    exists f, l. rewrite Hal. repeat split; try done; [by apply Hsub|by apply Hfa..|by apply target_below]. }
  split; [done|]. split; [lia|]. split; [intros Hpos; specialize (Hmax Hpos); lia|].
  destruct y as [e|]; injection Hend as <- <-; [by intros _ ->|]. split; [done|]. split; [done|].
  destruct (Hx eq_refl) as [Hcomp Hidx]. split; [done|]. intros Hreq. destruct (Hi (Hidx Hreq)) as (f & a & Hf & Hrest).
  exists f, a. split; [by apply Hsub|done].
Qed.

(** ** Witness and examples *)

#[local] Instance ex_zip_fold : CaseFold := {| unicode_EqualFold := String.eqb |}.

Definition ex_zip_file (name content : string) : zipfile :=
  mkZipFile name false false false (len content) None content None None.
Definition ex_zip_dir (name : string) : zipfile := mkZipFile name false false true 0 None "" None None.

Definition ex_zip : list zipfile :=
  [ex_zip_dir "ui/"; ex_zip_file "ui/assets/../index.html" "<html>"; ex_zip_file "ui\app.js" "start()"].

Lemma extraction_contained_witness :
  target_path "/data/ui" "ui/index.html" = "/data/ui/ui/index.html"%string /\
  written (calls (snd (extractZipFiles defaultExtractLimits (fun _ => None) ex_zip))) <= MaxTotalExtractedBytes.
Proof.
  split; [by vm_compute|].
  refine (proj1 (proj2 (proj2 (extraction_contained defaultExtractLimits (fun _ => None) ex_zip ["data"; "ui"]%string
            None None None None (snd (extractZipFiles defaultExtractLimits (fun _ => None) ex_zip)) false _ _ _ _ _)))).
  - vm_compute. by split.
  - vm_compute. by split.
  - done.
  - repeat constructor; try done; intros [|? [|? [|? [|? [|? ?]]]]] b; discriminate.
  - by vm_compute.
Defined.

Example ex_zip_calls :
  calls (snd (extractZipFiles defaultExtractLimits (fun _ => None) ex_zip)) =
    [WriteFile "ui/app.js" "start()"; WriteFile "ui/index.html" "<html>"; Mkdir "ui"]%string.
Proof. by vm_compute. Qed.

Example ex_zip_traversal : SafeName "a/../../b" = false /\ SafeName "C:\x" = false /\ SafeName "..\b" = false /\ SafeName "..b" = true.
Proof. by vm_compute. Qed.

(** The page is written, and the archive refused all the same: the base of the name is
    taken before its backslashes are slashes. *)
Example ex_zip_backslash_index :
  let '(x, s) := extractZipFiles defaultExtractLimits (fun _ => None) [ex_zip_file "ui\index.html" "<html>"] in
  calls s = [WriteFile "ui/index.html" "<html>"]%string /\ x = Some (dataFailure "panel archive is missing index.html" None).
Proof. by vm_compute. Qed.
